(* ===== verification/_CoqProject ===== *)
-Q . S2P
Prelude.v
Num.v
GoTime.v
Types.v
Store.v
SyncError.v
Window.v
Breakdown.v
Activity.v
Fx.v
Connections.v
RateLimit.v
RealizedMerge.v
History.v
Backfill.v
Rebuild.v
Cashflow.v
Sync.v
NumReal.v
CashflowExact.v
Returns.v
ReturnsExact.v
Reflow.v
Encoding.v
Json.v
Rfc3339.v
Signing.v
SignedReports.v
Attestation.v
AttestationParse.v
ReportVerify.v
Posture.v
Vault.v
KeyManagement.v
KeyLifecycle.v
DisplayAgree.v
Allowlist.v
Handoff.v
HandoffSafe.v
Metrics.v
Risk.v
MetricsExact.v
Report.v
ReportSafe.v
GoText.v
Flex.v
FlexRead.v
FlexToken.v
FlexGate.v
FlexMerge.v
FlexNarrow.v
FlexFlows.v
Connect.v
ConnectSafe.v
Auth.v
Grpc.v
GrpcSafe.v
Cache.v
Recount.v
Http.v
HttpSafe.v
Redact.v
RedactSafe.v
ErrTrack.v
LogStream.v
LogSafe.v
LogRate.v
Venue.v
Binance.v
BinanceSafe.v
CTrader.v
CTraderSafe.v
CTraderExact.v
CTraderSession.v
CTraderSessionSafe.v
