(* ===== verification/Prelude.v ===== *)
(** * A verification library for the Track Record enclave worker

    The program is a Go service that runs inside a confidential virtual
    machine.  It reads trading accounts at brokers and exchanges, stores one
    snapshot per account and day, rebuilds the history before the first
    reading where it can, and signs performance reports over the stored days.
    What makes it trustworthy is that nobody, its own operator included, can
    choose when an account is read, rewrite a stored day, send credentials
    out without the holder's consent, or turn a deposit into a return.  This
    library models the code that decides those things and proves it.

    ** The program's parts, and where they are modelled

    All paths are under src/.  Each file holds one Module of the same name,
    the data, the operations, the lemmas and the theorems of one component.

    - Prelude: results of fallible calls ([res]), Go strings, stable sorting,
      tactics and the hint database [enclave].  Num: the interface [Num] of
      the float64 operations the code uses, the laws [NumOrd] of its
      comparisons, and the binary64 instance.  NumReal: the instance at the
      real numbers.  GoTime: time.Time, durations, calendar, dates as text.
    - Types: the structs of internal/repository (Snapshot, MarketBreakdown,
      ExchangeConnection, SyncStatus) and of internal/connector/interface.go.
    - Store: internal/repository/snapshot.go.  The snapshot table is a list
      of rows; Upsert, UpsertBatch, UpdateFlows, PruneRebuiltDaysOutside,
      DeleteExternalRebuilderHistory and the reads are the functions their
      statements compute, on the two schemas the repository detects.
    - Connections: internal/repository/connection.go, the rows with their
      consent and finalization columns and the statements that write them.
    - SyncError: internal/errsanitize and sync_error_class.go of
      internal/service: the closed table of texts that leave the enclave.
    - Window: when a connection is due, which instants a reading covers, the
      statuses (internal/repository/sync_status.go), the statement days
      (internal/connector/ibkr.go), the timer (internal/scheduler/daily.go).
    - Activity: the connector interface as a record of answers, and
      readActivity.  Breakdown: the fold of trades, funding and balances
      into markets (internal/service/sync.go).
    - Fx: fx.go and fx_backfill.go, conversion of live readings, histories
      and rows stored before conversion existed.
    - Cashflow: cashflowinfer.go.  Reflow: reflow.go.  Recount:
      activity_recount.go and internal/repository/snapshot_activity.go.
    - RealizedMerge: reconstruction_realized.go.  History:
      persistHistoricalSnapshots and everything it calls.  Backfill:
      statement_backfill.go and deep_history.go.  Rebuild: the choice between
      the enclave and the external rebuilder, the midnight recalibration, the
      deletion of a rebuilt history (sync.go).
    - Sync: the service itself: buildConnectionSnapshot, SyncUser,
      SyncExchange, SyncUserScheduledDueAtomic, the deferred retries and the
      background backfills.
    - Returns: the returns of report.go.  CashflowExact and ReturnsExact: the
      theorems about formulas, over exact arithmetic.
    - Metrics, Risk: metrics.go, benchmark.go and the risk and drawdown part of
      report.go.  Report: report.go from the cache to the signature,
      report_currency.go, the table of signed reports.  MetricsExact and
      ReportSafe: their theorems.
    - Encoding, Json, Rfc3339: hex, base64, the JSON writer and the instants
      the signed texts are made of.  Signing: internal/signing/report.go;
      SignedReports: its theorems.  ReportVerify: pkg/reportverify.
    - Attestation, AttestationParse: internal/attestation.  DisplayAgree: its
      parser against the one of the key derivation.  Posture: the production
      gates of cmd/enclave/main.go and internal/config.
    - Vault: internal/encryption/aes.go and the credentials of a connection.
      KeyManagement, KeyLifecycle: the derivation of the master key, the data
      keys, rotation and recovery (internal/encryption).
    - Allowlist, Handoff, HandoffSafe: internal/bootstrap, the hand-off of the
      master key to a successor.
    - GoText: text, numbers as text and compact dates of the Go library.  Flex:
      internal/connector/ibkr_statement.go, a broker's report narrowed to one
      account.  FlexRead: the readers of ibkr.go.  FlexToken: its token gate,
      cache and requests.  FlexMerge, FlexNarrow, FlexFlows, FlexGate: their
      theorems.
    - Connect: internal/service/connection.go and broker_accounts.go, the
      creation of connections, the probe of a venue, the accounts found behind
      one credential.  ConnectSafe: its theorems.
    - Auth: internal/auth/jwt.go and internal/validation.  Grpc:
      internal/grpc/server.go over a record of the services it calls.
      GrpcSafe: its theorems.  Cache: internal/cache/connector_cache.go and the
      service's use of it.  RateLimit: internal/server/ratelimit.go.  Http:
      the rest of internal/server, its routes, gates and handlers.  HttpSafe:
      its theorems.
    - Redact: internal/logredact, the regular expressions included.  ErrTrack:
      internal/errtrack.  LogStream: internal/logstream and the logger of
      cmd/enclave/main.go.  RedactSafe, LogSafe, LogRate: their theorems.
    - Venue: internal/connector/base_crypto.go and cashflow_notes.go, the
      retries and the valuation the crypto venues share.  Binance: binance.go
      and binance_subaccounts.go of the same directory, over a record of the
      answers of the venue's endpoints.  BinanceSafe: its theorems.  CTrader:
      ctrader.go from the choice of the account to the rebuilt history, over
      such a record; CTraderSession: its socket, authentications, tokens and
      pages, as functions of everything that happened before.  CTraderSafe,
      CTraderExact, CTraderSessionSafe: their theorems.

    Sync is the root of the calls: a build goes through Rebuild, History and
    Backfill (every-sync reconstruction), Activity and Breakdown (the live
    reading), Fx and Cashflow (its valuation), then Store and Window (what is
    written).  Rebuild and Backfill also end in History and Store, and
    consult Connections.  Returns, Metrics, Risk and Report read what Store
    holds; Report hands its input to Signing, whose signer Posture binds to
    what Attestation says.  Vault works with the keys of KeyManagement, which
    Handoff passes on.  Flex to FlexToken are one connector behind the
    interface of Activity and Backfill, Venue, Binance and CTrader two others.  Grpc
    authenticates a caller with Auth, and calls Connect, Sync and Report through the record [Grpc.Services]; Http
    does the same through [Http.Handler], meters callers with RateLimit, and
    opens to the operator Reflow, Recount, Fx, Rebuild and Backfill.  Sync and
    Connect take their connectors from Cache.  The logger of LogStream writes
    a line through Redact, hands it to the log server and to ErrTrack.

    ** How the code is translated

    - Amounts are over an arbitrary [Num F].  A theorem over every [F], or
      over every [NumOrd F], holds of float64 with its NaN, infinities and
      rounding; the instance [num_b64] is executable and evaluates the
      samples.  Only the theorems of ReturnsExact, CashflowExact,
      MetricsExact, CTraderExact and LogRate are about real numbers: they show
      that the formulas are right, and float64 rounds each step of them
      ([ReturnsExact.flow_day_rounds], [MetricsExact.fall_rounds]).
    - A time is a number of nanoseconds in UTC, unbounded; a duration
      saturates at 64 bits as Sub does.  A call reads the clock once, except
      where it waits: [FlexToken.claimFlexTokenWaiting] has the three readings
      of each turn.  Strings are bytes; case and white space are those of
      ASCII, where Go's ToLower, ToUpper and TrimSpace know Unicode.
    - (T, error) is [res T] or a sum; nil is [None].  A Go map that is iterated
      is visited in an order given by a parameter; sort.Slice is a stable
      sort, which agrees with it on distinct keys.
    - Everything outside the repository is a parameter: the answers of a
      connector (record [Activity.connector]), of the rate source, of the
      rebuilder, the credentials, and the faults of the database, one oracle
      per statement, batch or commit; a commit that answers an error has not
      taken place.  What a theorem assumes of a venue is named in it:
      [Backfill.StatementBroker] (a cut statement keeps its oldest days),
      [BinanceSafe.fills_of], [CTraderExact.adds_up].
    - A request to the service is one step, the checks before its writes
      included.  [Connect.create_pinned] is the part of a connect that writes,
      and [ConnectSafe.concurrent_connects_overlap] what two of them that
      overlap can do.
    - Cryptography is a class of functions with the laws its documentation
      gives: a signature verifies only what was signed, an authenticated
      cipher opens only what was sealed under the same key and data, a hash
      has no collision among the texts of a statement.  snpguest, the file
      system, HTTP and json.Unmarshal are parameters without laws.
    - A broker's XML document is the tree encoding/xml reads from it; a body it
      refuses is [Flex.Unreadable].  A struct field takes the last attribute of
      its name, the methods [attr] the first.
    - The state of the service ([Sync.world]) holds the repositories, the
      memory it keeps and the jobs it leaves to the runtime.  A timer or a
      goroutine is a pending job; [Sync.step] fires any of them in any order.
      The builds of one pass run one after the other, in an arbitrary order of
      completion; in the code they run concurrently on separate connections.
    - A cTrader session has one caller; what its read loop and heartbeat do in
      the meantime is chosen, message by message, by the environment.

    ** Loops

    Most loops are folds or structural recursion.  The statement reader is
    not: [Backfill.month_from] and [Backfill.months_from] carry fuel, one more
    than the budget of statements, and return [None] without it;
    [month_from_total], [months_from_total] and the theorem
    [backfill_terminates] show they never do.  The walk back to a weekday
    needs two steps ([Window]).  [Returns.drop_dust] has a round per row, and
    [dropLeadingDustDays_spec] shows that is enough.  Retries are bounded as in
    the code: three attempts to write a history, six for a statement.  The
    wait for a token ([FlexToken.claimFlexTokenWaiting]) runs over the turns it
    is given, and [FlexGate.waiting_ends] bounds how many it can use.  The
    halving of a range of fills ([Binance.read_fills]) has a unit of fuel per
    halving, twenty-one, since twenty bring seven days under the second at which
    it stops; [BinanceSafe.futures_fills_once] shows it always ends.

    ** What the theorems show

    A property is stated of the data and of conditions written out beside it,
    not of the checks of the code it is about; the lemma that a check decides
    its condition stands between the two.

    - The daily pass: [Sync.pass_atomic] (all the rows of a pass, with their
      figures, or none, and one answer per connection), [pass_statuses], [pass_retries],
      [build_outcome]; [reachable_consistent] is the invariant of the
      transition system; [Window.recorded_attempt_due],
      [firings_every_midnight], [activity_window_no_gap] and
      [last_statement_day] fix when and what is read.
    - No choice of moment: [Sync.manual_sync_guard].
    - Connections: [ConnectSafe.no_account_measured_twice],
      [history_keeps_accounts], [connect_adds_one_row],
      [refused_connect_leaves_no_trace].
    - Consent: [Rebuild.egress_gate], [recalibration_consented] (the requests of
      a pass are those owed to the rows that consented, one each) and
      [delete_withdraws_consent]; [SyncError.egress_closed] for error texts.
    - Stored days are not rewritten: [RealizedMerge.merge_preserves_history],
      [merge_extends_contiguously], [merge_verdict];
      [History.persist_history_safe], [gate_reproduces],
      [inception_booked_once], [history_rows]; [Reflow.reflow_only_flows] and
      [reflow_partition]; [Recount.recount_only_activity] and
      [fills_counted_once].
    - Complete histories: [Backfill.backfill_no_hole] (every stated day from
      the first one on, which is the range's or follows a month without a
      statement), [backfill_recorded],
      [backfill_terminates], [Fx.convert_history_no_hole].
    - Values: [Fx.live_reading_in_usd], [Fx.backfill_once],
      [Breakdown.trades_conserved], [Breakdown.stored_breakdown],
      [CashflowExact.inferred_flow].
    - The repository: [Store.upsert_batch_refines] (a batch refines the
      abstract overwrite of days), [prune_replaces_span], [upsert_read_back].
    - Reports: [ReturnsExact.flows_score_nothing] (flows, arrivals and
      departures are never performance), [returns_compound],
      [returns_order_irrelevant]; [MetricsExact.drawdown_is_deepest_fall] and
      [drawdowns_agree]; [ReportSafe.labels_not_optimistic],
      [cached_report_was_issued], [currency_cut_at_tail].
    - Signatures: [SignedReports.accepted_report_issued] (what a verifier
      accepts was signed, field by field), [sign_verifies];
      [ReportVerify.verifier_accepts] and [accepted_binds_enclave];
      [Posture.production_reports_attested].
    - The enclave: [Attestation.hardware_claim_honest] (the quote is one of this
      very request), [stale_key_recovered];
      [DisplayAgree.parsers_agree]; [KeyLifecycle.boot_keeps_dek] and
      [measurement_change_recovered]; [Vault.bound_credential_stays] and
      [credentials_survive_rebinding]; [Allowlist.allowlist_authentic],
      [HandoffSafe.handoff_gate], [nonce_single_use], [successor_receives].
    - The Flex connector: [FlexMerge.merge_states_rows_once] (no day and no row
      is lost or repeated),
      [FlexNarrow.narrow_one_account], [segments_valued_together],
      [FlexFlows.covered_day_counted_once], [inferred_currency_unanimous],
      [live_is_last_day]; [FlexGate.token_spared], [failures_budgeted],
      [waiting_ends], [cached_statement_answers],
      [transport_error_hides_token].
    - The Binance connector: [BinanceSafe.futures_fills_once] (every id of a
      range once, however it is split; [shared_id_dropped]), [equity_perimeter] (the equity sums the
      wallets that were read, against which flows are then measured),
      [strays_unexplained]; [Venue.retries_bounded].
    - The cTrader connector: [CTraderExact.rebuilt_days_reconcile] (a rebuilt day
      moves by its capital, its other entries and its deals, and by nothing
      else); [CTraderSafe.deals_read_whole], [pinned_account_only] (a connection
      made for one account never reads another), [refunded_account_misread];
      [CTraderSessionSafe.rotated_tokens_kept], [lookup_hides_loss], [flags_sound],
      [strict_broker_answers], [pages_paced], [page_after_refresh_refused].
    - The servers: [GrpcSafe.caller_is_token_subject] (a call acts for the
      subject of its token alone), [api_rows_well_formed],
      [report_leaves_out_exactly]; [Auth.token_accepted_iff_issued];
      [Cache.connectors_kept_or_closed]; [RateLimit.sliding_window] and
      [bounded_tracking]; [HttpSafe.http_acts_for_token_subject] (no route acts
      for a stranger, none believes the name in a request),
      [only_sealed_credentials], [connect_attempts_bounded].
    - The logs: [LogSafe.logs_hide_secrets] (runs that differ in secrets only
      show the same), [log_server_locked], [error_store_bounded] (under every
      interleaving), [LogRate.new_groups_rate].

    ** What is not modelled

    The other venue connectors (HTTP and sockets), TLS material, the wire
    formats of the servers, most of the configuration, metrics export, generated
    code and the commands are input and output or glue.  The lines the
    components log are left out of their models; LogStream has the logger. *)

From stdpp Require Import base gmap strings list sorting.
From Stdlib Require Import ZArith Lia.

(** ** Hint databases of the development *)

Create HintDb enclave discriminated.

(** ** Results of fallible Go calls

    A Go function returning [(T, error)] is a [res T]: [Ok v] stands for
    [(v, nil)], [Err e] for a non-nil error with message [e]. *)

Inductive res (A : Type) : Type :=
| Ok (a : A)
| Err (e : string).
Arguments Ok {A} a.
Arguments Err {A} e.

#[export] Instance res_ret : MRet res := fun A a => Ok a.
#[export] Instance res_bind : MBind res := fun A B k m =>
  match m with Ok a => k a | Err e => Err e end.

Definition is_ok {A} (r : res A) : bool :=
  match r with Ok _ => true | Err _ => false end.

Lemma res_bind_ok {A B} (m : res A) (k : A → res B) b :
  (m ≫= k) = Ok b ↔ ∃ a, m = Ok a ∧ k a = Ok b.
Proof. destruct m; cbn; naive_solver. Qed.

Lemma res_bind_err {A B} (m : res A) (k : A → res B) e :
  (m ≫= k) = Err e ↔ m = Err e ∨ ∃ a, m = Ok a ∧ k a = Err e.
Proof. destruct m; cbn; naive_solver. Qed.

(** ** Go strings

    Strings are byte strings.  Case mapping and white space are those of
    ASCII: exchange names, labels and currency codes are ASCII. *)

Definition lower_ascii (c : Ascii.ascii) : Ascii.ascii :=
  let n := Ascii.N_of_ascii c in
  if (65 <=? n)%N && (n <=? 90)%N then Ascii.ascii_of_N (n + 32) else c.

Fixpoint ToLower (s : string) : string :=
  match s with
  | EmptyString => EmptyString
  | String c s' => String (lower_ascii c) (ToLower s')
  end.

Definition upper_ascii (c : Ascii.ascii) : Ascii.ascii :=
  let n := Ascii.N_of_ascii c in
  if (97 <=? n)%N && (n <=? 122)%N then Ascii.ascii_of_N (n - 32) else c.

Fixpoint ToUpper (s : string) : string :=
  match s with
  | EmptyString => EmptyString
  | String c s' => String (upper_ascii c) (ToUpper s')
  end.

Definition is_space (c : Ascii.ascii) : bool :=
  let n := Ascii.N_of_ascii c in
  ((9 <=? n)%N && (n <=? 13)%N) || (n =? 32)%N.

Fixpoint trim_left (s : string) : string :=
  match s with
  | String c s' => if is_space c then trim_left s' else s
  | EmptyString => EmptyString
  end.

Fixpoint trim_right (s : string) : string :=
  match s with
  | EmptyString => EmptyString
  | String c s' =>
      match trim_right s' with
      | EmptyString => if is_space c then EmptyString else String c EmptyString
      | t => String c t
      end
  end.

Definition TrimSpace (s : string) : string := trim_right (trim_left s).

Definition EqualFold (a b : string) : bool := String.eqb (ToLower a) (ToLower b).

(** [strings.Contains s sub]. *)
Fixpoint Contains (s sub : string) : bool :=
  String.prefix sub s ||
  match s with
  | EmptyString => false
  | String _ s' => Contains s' sub
  end.

(** Every character of the text satisfies [p]. *)
Fixpoint all_chars (p : Ascii.ascii → bool) (s : string) : bool :=
  match s with EmptyString => true | String c s' => p c && all_chars p s' end.

Lemma all_chars_impl (p q : Ascii.ascii → bool) s : (∀ c, p c = true → q c = true) → all_chars p s = true → all_chars q s = true.
Proof. intros Hpq. induction s as [|c s IH]; cbn; [done|]. rewrite !andb_true_iff. intros [??]. auto. Qed.

Lemma all_chars_app p a b : all_chars p (a +:+ b) = all_chars p a && all_chars p b.
Proof. induction a as [|c a IH]; [done|]. change (p c && all_chars p (a +:+ b) = (p c && all_chars p a) && all_chars p b). by rewrite IH, andb_assoc. Qed.

Fixpoint Join (sep : string) (l : list string) : string :=
  match l with
  | [] => EmptyString
  | [x] => x
  | x :: l' => (x +:+ sep +:+ Join sep l')%string
  end.

Lemma lower_ascii_idem c : lower_ascii (lower_ascii c) = lower_ascii c.
Proof.
  destruct c as [[] [] [] [] [] [] [] []]; reflexivity.
Qed.

Lemma ToLower_idem s : ToLower (ToLower s) = ToLower s.
Proof. induction s as [|c s IH]; cbn; [done|]. by rewrite lower_ascii_idem, IH. Qed.

Lemma lower_ascii_space c : is_space (lower_ascii c) = is_space c.
Proof. destruct c as [[] [] [] [] [] [] [] []]; reflexivity. Qed.

Lemma trim_left_lower s : trim_left (ToLower s) = ToLower (trim_left s).
Proof. induction s as [|c s IH]; cbn; [done|]. rewrite lower_ascii_space. by destruct (is_space c). Qed.

Lemma trim_right_lower s : trim_right (ToLower s) = ToLower (trim_right s).
Proof.
  induction s as [|c s IH]; cbn; [done|]. rewrite IH, lower_ascii_space.
  destruct (trim_right s); cbn; [|done]. by destruct (is_space c).
Qed.

Lemma TrimSpace_lower s : TrimSpace (ToLower s) = ToLower (TrimSpace s).
Proof. unfold TrimSpace. by rewrite trim_left_lower, trim_right_lower. Qed.

(** Trimming is idempotent: a trimmed text starts and ends with no space. *)
Definition head_ok (s : string) : Prop := match s with String c _ => is_space c = false | EmptyString => True end.

Lemma head_trim_left s : head_ok (trim_left s).
Proof. induction s as [|c s IH]; cbn; [done|]. by destruct (is_space c) eqn:E. Qed.

Lemma head_trim_right s : head_ok s → head_ok (trim_right s).
Proof. destruct s as [|c s]; cbn; [done|]. intros H. rewrite H. by destruct (trim_right s). Qed.

Lemma trim_left_head s : head_ok s → trim_left s = s.
Proof. destruct s as [|c s]; cbn; [done|]. by intros ->. Qed.

Lemma trim_right_idem s : trim_right (trim_right s) = trim_right s.
Proof.
  induction s as [|c s IH]; [done|]. cbn [trim_right]. destruct (trim_right s) as [|d t] eqn:E.
  - destruct (is_space c) eqn:Ec; [done|]. cbn. by rewrite Ec.
  - change (trim_right (String c (String d t))) with (match trim_right (String d t) with EmptyString => if is_space c then EmptyString else String c EmptyString | t => String c t end).
    by rewrite IH.
Qed.

Lemma TrimSpace_idem s : TrimSpace (TrimSpace s) = TrimSpace s.
Proof. unfold TrimSpace. rewrite (trim_left_head (trim_right _)) by apply head_trim_right, head_trim_left. apply trim_right_idem. Qed.

Lemma EqualFold_refl s : EqualFold s s = true.
Proof. apply String.eqb_refl. Qed.

Lemma EqualFold_sym a b : EqualFold a b = EqualFold b a.
Proof. apply String.eqb_sym. Qed.

Lemma EqualFold_ToLower a b : EqualFold (ToLower a) b = EqualFold a b.
Proof. unfold EqualFold. by rewrite ToLower_idem. Qed.

#[export] Hint Rewrite ToLower_idem EqualFold_refl EqualFold_ToLower : enclave.

(** ** Lists *)

(** The first element satisfying [p], as a Go loop with [return]. *)
Fixpoint find_first {A} (p : A → bool) (l : list A) : option A :=
  match l with
  | [] => None
  | x :: l' => if p x then Some x else find_first p l'
  end.

Lemma find_first_some {A} (p : A → bool) l x :
  find_first p l = Some x →
  ∃ l1 l2, l = l1 ++ x :: l2 ∧ p x = true ∧ Forall (λ y, p y = false) l1.
Proof.
  induction l as [|y l IH]; cbn; [done|].
  destruct (p y) eqn:E; intros H; simplify_eq.
  - exists [], l. done.
  - destruct (IH H) as (l1 & l2 & -> & ? & ?).
    exists (y :: l1), l2. split_and!; [done|done|by constructor].
Qed.

Lemma find_first_none {A} (p : A → bool) l :
  find_first p l = None ↔ Forall (λ y, p y = false) l.
Proof.
  induction l as [|y l IH]; cbn; [by split|].
  destruct (p y) eqn:E; rewrite Forall_cons.
  - split; [done|]. intros [? _]. congruence.
  - rewrite IH. naive_solver.
Qed.

(** [for len(l) > 0 && p(l[0]) { l = l[1:] }]: the longest prefix on which
    [p] holds is dropped. *)
Fixpoint drop_while {A} (p : A → bool) (l : list A) : list A :=
  match l with
  | [] => []
  | x :: l' => if p x then drop_while p l' else l
  end.

Lemma drop_while_suffix {A} (p : A → bool) l :
  ∃ pre, l = pre ++ drop_while p l ∧ Forall (λ x, p x = true) pre.
Proof.
  induction l as [|x l (pre & Hl & Hpre)]; cbn; [by exists []|].
  destruct (p x) eqn:E.
  - exists (x :: pre). cbn. rewrite <- Hl. split; [done|by constructor].
  - by exists [].
Qed.

Lemma drop_while_head {A} (p : A → bool) l x l' :
  drop_while p l = x :: l' → p x = false.
Proof.
  induction l as [|y l IH]; cbn; [done|].
  destruct (p y) eqn:E; [apply IH|]. intros; by simplify_eq.
Qed.

Lemma filter_sub {A} (P Q : A → Prop) `{∀ x, Decision (P x)} `{∀ x, Decision (Q x)} (l : list A) :
  (∀ x, P x → Q x) → filter P l `sublist_of` filter Q l.
Proof.
  intros HPQ. induction l as [|x l IH]; [done|]. rewrite !filter_cons.
  case_decide as HP; case_decide as HQ; try (by constructor); [|done]. by apply HPQ in HP.
Qed.

Lemma list_insert_elem_inv {A} (l : list A) i x y : x ∈ <[i := y]> l → x = y ∨ x ∈ l.
Proof.
  intros [j Hj]%list_elem_of_lookup.
  apply list_lookup_insert_Some in Hj as [(_ & -> & _)|[_ Hj]]; [by left|right].
  by eapply list_elem_of_lookup_2.
Qed.

(** Stable sort by an integer key: Go's [sort.SliceStable] and, on lists
    with distinct keys, [sort.Slice]. *)
Lemma filter_none {A} (P : A → Prop) `{∀ x, Decision (P x)} (l : list A) : (∀ x, x ∈ l → ¬ P x) → filter P l = [].
Proof.
  induction l as [|x l IH]; intros Hn; [done|]. rewrite filter_cons, decide_False by (apply Hn; by left).
  apply IH. intros y Hy. apply Hn. by right.
Qed.

Lemma filter_every {A} (P : A → Prop) `{∀ x, Decision (P x)} (l : list A) : (∀ x, x ∈ l → P x) → filter P l = l.
Proof.
  induction l as [|x l IH]; intros Hn; [done|]. rewrite filter_cons, decide_True by (apply Hn; by left).
  f_equal. apply IH. intros y Hy. apply Hn. by right.
Qed.

Lemma sorted_filter {A} (R : A → A → Prop) (P : A → Prop) `{∀ x, Decision (P x)} (l : list A) :
  StronglySorted R l → StronglySorted R (filter P l).
Proof.
  induction 1 as [|x l Hl IH Hx]; [constructor|]. rewrite filter_cons. destruct (decide (P x)); [|done].
  constructor; [done|]. rewrite Forall_forall in Hx. apply Forall_forall. intros y [_ Hy]%list_elem_of_filter. by apply Hx.
Qed.

Lemma Forall2_impl_in {A B} (P Q : A → B → Prop) (l : list A) (k : list B) :
  Forall2 P l k → (∀ x y, x ∈ l → P x y → Q x y) → Forall2 Q l k.
Proof.
  induction 1 as [|x y l k Hxy Hf IH]; intros HQ; constructor; [apply HQ; [by left|done]|].
  apply IH. intros x' y' Hx. apply HQ. by right.
Qed.

(** Where keys do not repeat, an element is known by its key. *)
Lemma NoDup_fmap_key {A K} (f : A → K) (l : list A) x y : NoDup (f <$> l) → x ∈ l → y ∈ l → f x = f y → x = y.
Proof.
  induction l as [|z l IH]; [by intros _ ?%elem_of_nil|]. rewrite fmap_cons, NoDup_cons. intros [Hz Hl].
  rewrite !elem_of_cons. intros [->|Hx] [->|Hy] E; [done| | |by apply IH]; destruct Hz; [rewrite E|rewrite <- E]; by apply list_elem_of_fmap_2.
Qed.

Lemma NoDup_submseteq_l {A} (l k : list A) : NoDup k → l ⊆+ k → NoDup l.
Proof. intros Hk [m Hm]%submseteq_Permutation. rewrite Hm in Hk. by apply NoDup_app in Hk as [? _]. Qed.

Lemma sublist_fmap_inv {A B} (f : A → B) (l : list A) (k : list B) : k `sublist_of` (f <$> l) → ∃ l', k = f <$> l' ∧ l' `sublist_of` l.
Proof.
  revert k. induction l as [|x l IH]; intros k; cbn.
  - intros ->%sublist_nil_r. by exists [].
  - intros [(l' & -> & H)|(k' & -> & (l' & -> & H)%IH)]%sublist_cons_r || intros [(l' & -> & H)%IH|(k' & -> & (l' & -> & H)%IH)]%sublist_cons_r;
      [exists l'|exists (x :: l')]; (split; [done|by constructor]).
Qed.

Section sort_by.
Context {A : Type} (key : A → Z).

Definition key_le (x y : A) : Prop := (key x ≤ key y)%Z.

#[export] Instance key_le_dec x y : Decision (key_le x y).
Proof. unfold key_le. apply _. Defined.

#[export] Instance key_le_trans : Transitive key_le.
Proof. intros x y z. unfold key_le. lia. Qed.

#[export] Instance key_le_total : Total key_le.
Proof. intros x y. unfold key_le. lia. Qed.

Fixpoint insert_by (x : A) (l : list A) : list A :=
  match l with
  | [] => [x]
  | y :: l' => if bool_decide (key_le x y) then x :: y :: l' else y :: insert_by x l'
  end.

Definition sort_by (l : list A) : list A := foldr insert_by [] l.

Lemma insert_by_perm x l : insert_by x l ≡ₚ x :: l.
Proof.
  induction l as [|y l IH]; cbn; [done|].
  case_bool_decide; [done|]. rewrite IH. by rewrite Permutation_swap.
Qed.

Lemma sort_by_perm l : sort_by l ≡ₚ l.
Proof.
  induction l as [|x l IH]; cbn; [done|].
  by rewrite insert_by_perm, IH.
Qed.

Lemma insert_by_sorted x l :
  StronglySorted key_le l → StronglySorted key_le (insert_by x l).
Proof.
  induction 1 as [|y l Hl IH Hy]; cbn; [by repeat constructor|].
  case_bool_decide as Hxy.
  - constructor; [by constructor|]. constructor; [done|].
    eapply Forall_impl; [exact Hy|]. intros z. unfold key_le in *. lia.
  - constructor; [done|]. rewrite insert_by_perm. constructor; [|done].
    unfold key_le in *. lia.
Qed.

Lemma sort_by_sorted l : StronglySorted key_le (sort_by l).
Proof. induction l; cbn; [constructor|]. by apply insert_by_sorted. Qed.

Lemma sort_by_elem x l : x ∈ sort_by l ↔ x ∈ l.
Proof. by rewrite (sort_by_perm l). Qed.

Lemma sort_by_length l : length (sort_by l) = length l.
Proof. by rewrite (sort_by_perm l). Qed.

(** A list already in order is left alone: stability. *)
Lemma sort_by_id l : StronglySorted key_le l → sort_by l = l.
Proof.
  induction 1 as [|x l Hl IH Hx]; cbn; [done|]. fold (sort_by l). rewrite IH.
  destruct l as [|y l]; cbn; [done|].
  apply Forall_cons in Hx as [Hxy _]. by rewrite bool_decide_eq_true_2.
Qed.

End sort_by.

#[export] Hint Resolve sort_by_sorted sort_by_perm : enclave.
#[export] Hint Rewrite @sort_by_length : enclave.

(** ** Tactics *)

(** Case analysis on every boolean test of a Go condition. *)
Ltac go_bool :=
  repeat match goal with
  | H : _ && _ = true |- _ => apply andb_true_iff in H as [? ?]
  | H : _ || _ = false |- _ => apply orb_false_iff in H as [? ?]
  | H : negb _ = true |- _ => apply negb_true_iff in H
  | H : negb _ = false |- _ => apply negb_false_iff in H
  | H : (_ <? _)%Z = true |- _ => apply Z.ltb_lt in H
  | H : (_ <? _)%Z = false |- _ => apply Z.ltb_ge in H
  | H : (_ <=? _)%Z = true |- _ => apply Z.leb_le in H
  | H : (_ <=? _)%Z = false |- _ => apply Z.leb_gt in H
  | H : (_ =? _)%Z = true |- _ => apply Z.eqb_eq in H
  | H : (_ =? _)%Z = false |- _ => apply Z.eqb_neq in H
  | H : String.eqb _ _ = true |- _ => apply String.eqb_eq in H
  | H : String.eqb _ _ = false |- _ => apply String.eqb_neq in H
  end.

(** The same, splitting disjunctions into cases. *)
Ltac go_cases :=
  go_bool;
  repeat (match goal with
  | H : _ || _ = true |- _ => apply orb_true_iff in H as [?|?]
  | H : _ && _ = false |- _ => apply andb_false_iff in H as [?|?]
  end; go_bool).

(** Split the conditionals of the goal, naming their conditions. *)
Ltac go_if :=
  repeat match goal with
  | |- context [if ?b then _ else _] =>
      lazymatch b with
      | context [if _ then _ else _] => fail
      | _ => let E := fresh "E" in destruct b eqn:E
      end
  end.

(** Close a goal about Go conditionals on integers. *)
Ltac go_arith := go_if; go_cases; try lia.

(** Sortedness of a concrete list of integers. *)
Ltac sorted_list :=
  cbn; repeat first [ apply SSorted_nil | apply SSorted_cons | apply Forall_nil_2
                    | apply Forall_cons_2; [lia|] ].
