(* ===== verification/Num.v ===== *)
(** * Numbers

    The program computes money in [float64].  Every component is written over
    the interface [Num], which lists the operations the Go code uses, and is
    instantiated twice:

    - [num_b64]: IEEE 754 binary64, through the Standard Library's executable
      specification of floating-point arithmetic (round to nearest, ties to
      even; NaN, infinities and signed zeros included).  This is the program;
    - [num_R] (file NumReal): exact real arithmetic, where the algebraic
      identities the code is meant to satisfy can be stated.

    Theorems quantified over [Num F] hold for both; theorems that need the
    order take [NumOrd F], which both instances satisfy. *)

From S2P Require Import Prelude.
From stdpp Require Import base list.
From Stdlib Require Import ZArith Lia SpecFloat.

Class Num (F : Type) : Type := {
  fadd : F → F → F;
  fsub : F → F → F;
  fmul : F → F → F;
  fdiv : F → F → F;
  fopp : F → F;
  fabs : F → F;
  fsqrt : F → F;
  fltb : F → F → bool;
  fleb : F → F → bool;
  feqb : F → F → bool;
  fofZ : Z → F;        (** [float64(n)] *)
  ftrunc : F → Z;      (** [int(x)] *)
  fround : F → Z;      (** [int(math.Round(x))] *)
  fis_nan : F → bool;
  fis_inf : F → bool;
}.

Declare Scope num_scope.
Delimit Scope num_scope with num.
Infix "+" := fadd : num_scope.
Infix "-" := fsub : num_scope.
Infix "*" := fmul : num_scope.
Infix "/" := fdiv : num_scope.
Notation "- x" := (fopp x) : num_scope.
Infix "<?" := fltb : num_scope.
Infix "<=?" := fleb : num_scope.
Infix "=?" := feqb : num_scope.
Notation "x >? y" := (fltb y x) (only parsing) : num_scope.
Notation "x >=? y" := (fleb y x) (only parsing) : num_scope.

Section derived.
Context {F : Type} `{Num F}.
Local Open Scope num_scope.

Definition f0 : F := fofZ 0.
Definition f1 : F := fofZ 1.

(** The decimal literal [m * 10^-k]; the quotient of two exactly
    representable integers rounds once, like the literal does. *)
Definition flit (m k : Z) : F := fofZ m / fofZ (10 ^ k)%Z.

(** [for _, v := range l { sum += v }] *)
Definition fsum (l : list F) : F := foldl fadd f0 l.

(** [math.Max] on arguments that are not zeros of opposite signs. *)
Definition fmax (x y : F) : F :=
  if fis_nan x then x else if fis_nan y then y else if x <? y then y else x.

End derived.

(** ** The order *)

Class NumOrd (F : Type) `{Num F} : Prop := {
  fltb_irrefl : ∀ x : F, fltb x x = false;
  fltb_trans : ∀ x y z : F, fltb x y = true → fltb y z = true → fltb x z = true;
  fleb_trans : ∀ x y z : F, fleb x y = true → fleb y z = true → fleb x z = true;
  fltb_le_trans : ∀ x y z : F, fltb x y = true → fleb y z = true → fltb x z = true;
  fle_lt_trans : ∀ x y z : F, fleb x y = true → fltb y z = true → fltb x z = true;
  fltb_leb : ∀ x y : F, fltb x y = true → fleb x y = true;
  feqb_refl : ∀ x : F, feqb x x = negb (fis_nan x);
  fleb_nan : ∀ x y : F, fleb x y = true → fis_nan x = false ∧ fis_nan y = false;
  fltb_total : ∀ x y : F, fis_nan x = false → fis_nan y = false →
    fltb x y = false → fleb y x = true;
  fzero_not_nan : fis_nan (fofZ 0 : F) = false;
}.

Section order.
Context {F : Type} `{NumOrd F}.

Lemma fltb_asym (x y : F) : fltb x y = true → fltb y x = false.
Proof.
  intros Hxy. destruct (fltb y x) eqn:Hyx; [|done].
  pose proof (fltb_trans _ _ _ Hxy Hyx) as Hxx. by rewrite fltb_irrefl in Hxx.
Qed.

Lemma fltb_not_leb (x y : F) : fltb x y = true → fleb y x = false.
Proof.
  intros Hxy. destruct (fleb y x) eqn:Hyx; [|done].
  pose proof (fltb_le_trans _ _ _ Hxy Hyx) as Hxx. by rewrite fltb_irrefl in Hxx.
Qed.

Lemma fleb_not_ltb (x y : F) : fleb x y = true → fltb y x = false.
Proof.
  intros Hxy. destruct (fltb y x) eqn:Hyx; [|done].
  apply fltb_not_leb in Hyx. congruence.
Qed.

Lemma fleb_refl (x : F) : fis_nan x = false → fleb x x = true.
Proof. intros. apply fltb_total; auto using fltb_irrefl. Qed.

Lemma fleb_zero : fleb (f0 : F) f0 = true.
Proof. apply fleb_refl, fzero_not_nan. Qed.

End order.

(** ** binary64 *)

Abbreviation float64 := spec_float.

Definition b64_trunc (x : float64) : Z :=
  match x with
  | S754_finite s m e => cond_Zopp s (Z.shiftl (Zpos m) e)
  | _ => 0
  end.

(** Round half away from zero. *)
Definition b64_round (x : float64) : Z :=
  match x with
  | S754_finite s m e =>
      cond_Zopp s
        (if (0 <=? e)%Z then Z.shiftl (Zpos m) e
         else Z.shiftr (Zpos m + Z.shiftl 1 (- e - 1)) (- e))
  | _ => 0
  end.

#[export] Instance num_b64 : Num float64 := {|
  fadd := SFadd 53 1024;
  fsub := SFsub 53 1024;
  fmul := SFmul 53 1024;
  fdiv := SFdiv 53 1024;
  fopp := SFopp;
  fabs := SFabs;
  fsqrt := SFsqrt 53 1024;
  fltb := SFltb;
  fleb := SFleb;
  feqb := SFeqb;
  fofZ n := binary_normalize 53 1024 n 0 false;
  ftrunc := b64_trunc;
  fround := b64_round;
  fis_nan x := match x with S754_nan => true | _ => false end;
  fis_inf x := match x with S754_infinity _ => true | _ => false end;
|}.

(** Non-NaN values compare as their keys do, lexicographically. *)
Definition b64_key (x : float64) : option (Z * Z * Z) :=
  match x with
  | S754_nan => None
  | S754_infinity true => Some (-2, 0, 0)
  | S754_finite true m e => Some (-1, - e, - Zpos m)
  | S754_zero _ => Some (0, 0, 0)
  | S754_finite false m e => Some (1, e, Zpos m)
  | S754_infinity false => Some (2, 0, 0)
  end%Z.

Definition key_lt (a b : Z * Z * Z) : Prop :=
  let '(a1, a2, a3) := a in let '(b1, b2, b3) := b in
  (a1 < b1 ∨ a1 = b1 ∧ (a2 < b2 ∨ a2 = b2 ∧ a3 < b3))%Z.

#[export] Instance key_lt_dec a b : Decision (key_lt a b).
Proof. destruct a as [[? ?] ?], b as [[? ?] ?]; cbn; apply _. Defined.

Lemma b64_compare_spec x y :
  match SFcompare x y, b64_key x, b64_key y with
  | None, None, _ | None, _, None => True
  | Some Lt, Some a, Some b => key_lt a b
  | Some Gt, Some a, Some b => key_lt b a
  | Some Eq, Some a, Some b => a = b
  | _, _, _ => False
  end.
Proof.
  destruct x as [[]|[]| |[] m1 e1], y as [[]|[]| |[] m2 e2]; cbn;
    try done; try lia;
    (destruct (Z.compare_spec e1 e2); cbn; [|lia..]);
    change (Pos.compare_cont Eq m1 m2) with (Pos.compare m1 m2);
    destruct (Pos.compare_spec m1 m2); cbn; subst; try lia; try done.
Qed.

Lemma b64_ltb_key x y :
  SFltb x y = true ↔ ∃ a b, b64_key x = Some a ∧ b64_key y = Some b ∧ key_lt a b.
Proof.
  pose proof (b64_compare_spec x y) as Hc. unfold SFltb.
  destruct (SFcompare x y) as [[]|] eqn:E, (b64_key x) as [[[? ?] ?]|] eqn:Ex,
    (b64_key y) as [[[? ?] ?]|] eqn:Ey; try done; split; intros; try done.
  all: repeat match goal with H : ∃ _, _ |- _ => destruct H | H : _ ∧ _ |- _ => destruct H end.
  all: simplify_eq; cbn in *; try lia; eauto 10.
Qed.

Lemma b64_leb_key x y :
  SFleb x y = true ↔
  ∃ a b, b64_key x = Some a ∧ b64_key y = Some b ∧ (key_lt a b ∨ a = b).
Proof.
  pose proof (b64_compare_spec x y) as Hc. unfold SFleb.
  destruct (SFcompare x y) as [[]|] eqn:E, (b64_key x) as [[[? ?] ?]|] eqn:Ex,
    (b64_key y) as [[[? ?] ?]|] eqn:Ey; try done; split; intros; try done.
  all: repeat match goal with H : ∃ _, _ |- _ => destruct H | H : _ ∧ _ |- _ => destruct H | H : _ ∨ _ |- _ => destruct H end.
  all: simplify_eq; cbn in *; try lia; eauto 10.
Qed.

Lemma b64_key_nan x : b64_key x = None ↔ x = S754_nan.
Proof. by destruct x as [[]|[]| |[] m e]. Qed.

Ltac b64_keys :=
  repeat match goal with
  | H : SFltb _ _ = true |- _ => apply b64_ltb_key in H as (? & ? & ? & ? & ?)
  | H : SFleb _ _ = true |- _ => apply b64_leb_key in H as (? & ? & ? & ? & ?)
  | a : Z * Z * Z |- _ => destruct a as [[? ?] ?]
  end; cbn in *; simplify_eq.

#[export] Instance num_ord_b64 : NumOrd float64.
Proof.
  split; cbn.
  - intros x. destruct (SFltb x x) eqn:E; [|done]. b64_keys. cbn in *. lia.
  - intros x y z Hxy Hyz. b64_keys. apply b64_ltb_key.
    eexists _, _. split_and!; [done..|]. cbn in *. lia.
  - intros x y z Hxy Hyz. b64_keys. apply b64_leb_key.
    eexists _, _. split_and!; [done..|]. cbn in *.
    repeat match goal with H : _ ∨ _ |- _ => destruct H end; simplify_eq; try (left; cbn; lia); auto.
  - intros x y z Hxy Hyz. b64_keys. apply b64_ltb_key.
    eexists _, _. split_and!; [done..|]. cbn in *.
    repeat match goal with H : _ ∨ _ |- _ => destruct H end; simplify_eq; lia.
  - intros x y z Hxy Hyz. b64_keys. apply b64_ltb_key.
    eexists _, _. split_and!; [done..|]. cbn in *.
    repeat match goal with H : _ ∨ _ |- _ => destruct H end; simplify_eq; lia.
  - intros x y Hxy. b64_keys. apply b64_leb_key. eauto 10.
  - intros x. unfold SFeqb. destruct x as [[]|[]| |[] m e]; cbn; try done;
      rewrite Z.compare_refl; change (Pos.compare_cont Eq m m) with (Pos.compare m m);
      by rewrite Pos.compare_refl.
  - intros x y Hxy. b64_keys.
    split; [by destruct x|by destruct y].
  - intros x y Hx Hy Hlt.
    destruct (b64_key x) as [[[x1 x2] x3]|] eqn:Ex; [|by apply b64_key_nan in Ex; subst].
    destruct (b64_key y) as [[[y1 y2] y3]|] eqn:Ey; [|by apply b64_key_nan in Ey; subst].
    apply b64_leb_key. eexists _, _. split_and!; [done..|].
    destruct (decide (key_lt (x1, x2, x3) (y1, y2, y3))) as [Hk|Hk].
    + assert (SFltb x y = true) by (apply b64_ltb_key; eauto 10). congruence.
    + cbn in *.
      destruct (decide ((y1, y2, y3) = (x1, x2, x3))) as [?|Hne]; [by right|left].
      destruct (decide (y1 = x1)); [|lia]. destruct (decide (y2 = x2)); [|lia].
      destruct (decide (y3 = x3)); [subst; done|lia].
  - done.
Qed.
