(* ===== verification/GoTime.v ===== *)
(** * Time

    A [time.Time] is the number of nanoseconds since the Unix epoch, in UTC;
    the zero [Time] is midnight of 1 January of year 1.  A [time.Duration] is
    a signed 64-bit number of nanoseconds; [Sub] saturates as Go's does.
    The calendar is the proleptic Gregorian one. *)

From S2P Require Import Prelude.
From stdpp Require Import base list strings.
From Stdlib Require Import ZArith Lia.
Local Open Scope Z_scope.

Abbreviation time := Z (only parsing).
Abbreviation duration := Z (only parsing).

Definition Second : duration := 1000000000.
Definition Minute : duration := 60 * Second.
Definition Hour : duration := 60 * Minute.
Definition Day : duration := 24 * Hour.

Definition zero_time : time := -62135596800 * Second.
Definition IsZero (t : time) : bool := t =? zero_time.

Definition Before (t u : time) : bool := t <? u.
Definition After (t u : time) : bool := u <? t.

Definition maxDuration : Z := 2 ^ 63 - 1.
Definition minDuration : Z := - 2 ^ 63.

(** [t.Sub(u)] *)
Definition Sub (t u : time) : duration :=
  Z.max minDuration (Z.min maxDuration (t - u)).

(** [t.Truncate(24 * time.Hour)]: the zero time is a midnight, so this is the
    UTC midnight of [t]. *)
Definition truncDay (t : time) : time := t / Day * Day.

(** [time.Date(t.Year(), t.Month(), t.Day()+k, 0, 0, 0, 0, time.UTC)] *)
Definition midnight_plus (t : time) (k : Z) : time := truncDay t + k * Day.

Definition day_index (t : time) : Z := t / Day.

Lemma Day_pos : 0 < Day.
Proof. reflexivity. Qed.

Lemma truncDay_le t : truncDay t <= t < truncDay t + Day.
Proof. unfold truncDay. pose proof Day_pos. pose proof (Z.div_mod t Day). pose proof (Z.mod_pos_bound t Day). lia. Qed.

Lemma truncDay_idem t : truncDay (truncDay t) = truncDay t.
Proof. unfold truncDay. by rewrite Z.div_mul. Qed.

Lemma truncDay_add t k : truncDay (t + k * Day) = truncDay t + k * Day.
Proof. unfold truncDay. rewrite Z.div_add; [lia|done]. Qed.

Lemma truncDay_mono t u : t <= u -> truncDay t <= truncDay u.
Proof. intros. unfold truncDay. pose proof Day_pos. apply Z.mul_le_mono_nonneg_r; [lia|]. apply Z.div_le_mono; lia. Qed.

Lemma truncDay_lt_iff t u : truncDay t < truncDay u <-> day_index t < day_index u.
Proof. unfold truncDay, day_index. pose proof Day_pos. nia. Qed.

Lemma truncDay_index t : day_index (truncDay t) = day_index t.
Proof. unfold truncDay, day_index. by rewrite Z.div_mul. Qed.

(** A UTC midnight. *)
Definition is_midnight (t : time) : Prop := truncDay t = t.

Lemma truncDay_midnight t : is_midnight (truncDay t).
Proof. apply truncDay_idem. Qed.

Lemma midnight_add t k : is_midnight t -> is_midnight (t + k * Day).
Proof. unfold is_midnight. rewrite truncDay_add. lia. Qed.

Lemma midnight_lt t u : is_midnight t -> is_midnight u -> t < u -> t + Day <= u.
Proof.
  unfold is_midnight, truncDay. generalize Day_pos. generalize Day.
  intros D HD Ht Hu Hlt. set (a := t / D) in *. set (b := u / D) in *.
  assert (a < b) by nia. nia.
Qed.

#[export] Hint Resolve truncDay_midnight Day_pos : enclave.
#[export] Hint Rewrite truncDay_idem truncDay_index : enclave.

(** Sub is exact on spans under 292 years. *)
Lemma Sub_exact t u : minDuration <= t - u <= maxDuration -> Sub t u = t - u.
Proof. unfold Sub. lia. Qed.

(** ** Calendar dates *)

(** Year, month and day of a day of the 400-year cycle that starts on 1 March
    of a year divisible by 400; months count from 1 = January. *)
Definition civil_of_doe (doe : Z) : Z * Z * Z :=
  let c100 := Z.min 3 (doe / 36524) in
  let r100 := doe - 36524 * c100 in
  let c4 := r100 / 1461 in
  let r4 := r100 - 1461 * c4 in
  let c1 := Z.min 3 (r4 / 365) in
  let doy := r4 - 365 * c1 in
  let yoe := 100 * c100 + 4 * c4 + c1 in
  let mp := (5 * doy + 2) / 153 in
  let d := doy - (153 * mp + 2) / 5 + 1 in
  if mp <? 10 then (yoe, mp + 3, d) else (yoe + 1, mp - 9, d).

(** Year, month and day of a day counted from the epoch. *)
Definition civil (day : Z) : Z * Z * Z :=
  let z := day + 719468 in
  let '(y, m, d) := civil_of_doe (z mod 146097) in
  (y + 400 * (z / 146097), m, d).

(** [time.Date(y, m, d, 0, 0, 0, 0, time.UTC)] as a day count, for a month
    between 1 and 12. *)
Definition day_of_civil (y m d : Z) : Z :=
  let y' := if m <=? 2 then y - 1 else y in
  let mp := if m <=? 2 then m + 9 else m - 3 in
  365 * y' + y' / 4 - y' / 100 + y' / 400 + (153 * mp + 2) / 5 + d - 1 - 719468.

Definition digit (n : Z) : Ascii.ascii := Ascii.ascii_of_N (Z.to_N (48 + n)).

(** Two decimal digits, zero-padded. *)
Definition pad2 (n : Z) : string :=
  String (digit (n / 10 mod 10)) (String (digit (n mod 10)) "").

Definition pad4 (n : Z) : string :=
  (pad2 (n / 100) +:+ pad2 (n mod 100))%string.

(** [t.Format("2006-01-02")], for the years 0 to 9999. *)
Definition FormatDay (day : Z) : string :=
  let '(y, m, d) := civil day in
  (pad4 y +:+ "-" +:+ pad2 m +:+ "-" +:+ pad2 d)%string.

Definition FormatDate (t : time) : string := FormatDay (day_index t).

Definition undigit (c : Ascii.ascii) : option Z :=
  let n := Z.of_N (Ascii.N_of_ascii c) - 48 in
  if (0 <=? n) && (n <=? 9) then Some n else None.

Definition num2 (a b : Ascii.ascii) : option Z :=
  x ← undigit a; y ← undigit b; Some (10 * x + y).

Definition dash : Ascii.ascii := Ascii.ascii_of_N 45.

Definition is_leap (y : Z) : bool :=
  (y mod 4 =? 0) && (negb (y mod 100 =? 0) || (y mod 400 =? 0)).

Definition days_in_month (y m : Z) : Z :=
  if m =? 2 then (if is_leap y then 29 else 28)
  else if (m =? 4) || (m =? 6) || (m =? 9) || (m =? 11) then 30 else 31.

(** [time.Parse("2006-01-02", s)] *)
Definition ParseDate (s : string) : option time :=
  match s with
  | String y1 (String y2 (String y3 (String y4 (String c1
      (String m1 (String m2 (String c2 (String d1 (String d2 EmptyString))))))))) =>
      a ← num2 y1 y2; b ← num2 y3 y4; m ← num2 m1 m2; d ← num2 d1 d2;
      let y := 100 * a + b in
      if Ascii.eqb c1 dash && Ascii.eqb c2 dash &&
         (1 <=? m) && (m <=? 12) && (1 <=? d) && (d <=? days_in_month y m)
      then Some (day_of_civil y m d * Day)
      else None
  | _ => None
  end.

(** *** The calendar is a bijection *)

(** [lia] with [/] and [mod] by constants. *)
Ltac zcbn :=
  repeat match goal with
  | |- context [if ?b then _ else _] =>
      let v := eval vm_compute in b in
      lazymatch v with
      | true => change b with true; cbv iota
      | false => change b with false; cbv iota
      end
  end.
Ltac dlia := Z.to_euclidean_division_equations; lia.

Lemma civil_of_doe_spec doe y m d :
  0 <= doe < 146097 -> civil_of_doe doe = (y, m, d) ->
  1 <= m <= 12 /\ 1 <= d <= days_in_month y m /\
  (if m <=? 2 then 1 else 0) <= y <= (if m <=? 2 then 400 else 399) /\
  day_of_civil y m d = doe - 719468.
Proof.
  intros Hdoe. unfold civil_of_doe.
  set (c100 := Z.min 3 (doe / 36524)). set (r100 := doe - 36524 * c100).
  assert (0 <= c100 <= 3 /\ 0 <= r100 <= 36524 /\ (r100 = 36524 -> c100 = 3)) as (H1 & H2 & H3)
    by (subst c100 r100; dlia).
  set (c4 := r100 / 1461). set (r4 := r100 - 1461 * c4).
  assert (0 <= c4 <= 24 /\ 0 <= r4 <= 1460 /\ (r4 = 1460 -> c4 = 24 -> c100 = 3)) as (H4 & H5 & H6)
    by (subst c4 r4; dlia).
  set (c1 := Z.min 3 (r4 / 365)). set (doy := r4 - 365 * c1).
  assert (0 <= c1 <= 3 /\ 0 <= doy <= 365 /\ (doy = 365 -> r4 = 1460 /\ c1 = 3)) as (H7 & H8 & H9)
    by (subst c1 doy; dlia).
  set (yoe := 100 * c100 + 4 * c4 + c1).
  assert (yoe / 100 = c100 /\ yoe / 4 = 25 * c100 + c4 /\ yoe / 400 = 0 /\ 0 <= yoe <= 399) as (H10 & H11 & H12 & H13)
    by (subst yoe; dlia).
  assert (doy = 365 -> is_leap (yoe + 1) = true) as Hleap.
  { intros [? ?]%H9. unfold is_leap. apply andb_true_iff, conj; [subst yoe; apply Z.eqb_eq; dlia|].
    apply orb_true_iff. destruct (decide (c4 = 24)) as [E|E].
    - right. apply Z.eqb_eq. subst yoe. specialize (H6 ltac:(dlia) E). dlia.
    - left. apply negb_true_iff, Z.eqb_neq. subst yoe. dlia. }
  assert (doe = 365 * yoe + yoe / 4 - yoe / 100 + doy) as Hd.
  { subst doy r4 r100. rewrite H10, H11. subst yoe. dlia. }
  clearbody yoe doy. clear -Hd H8 H12 H13 Hleap Hdoe.
  set (mp := (5 * doy + 2) / 153). assert (0 <= mp <= 11) by (subst mp; dlia).
  assert (153 * mp <= 5 * doy + 2 < 153 * mp + 153) by (subst mp; dlia).
  clearbody mp.
  assert (0 <= doy - (153 * mp + 2) / 5) as Hpos by dlia.
  destruct (mp <? 10) eqn:E; go_bool; intros; simplify_eq; unfold day_of_civil, days_in_month.
  - replace (mp + 3 <=? 2) with false by lia. replace (mp + 3 =? 2) with false by lia.
    replace (mp + 3 - 3) with mp by dlia. rewrite H12.
    assert (mp = 0 \/ mp = 1 \/ mp = 2 \/ mp = 3 \/ mp = 4 \/ mp = 5 \/ mp = 6 \/ mp = 7 \/ mp = 8 \/ mp = 9) as Hmp by dlia.
    repeat destruct Hmp as [->|Hmp]; subst; zcbn; dlia.
  - replace (mp - 9 <=? 2) with true by lia. replace (mp - 9 + 9) with mp by dlia.
    replace (yoe + 1 - 1) with yoe by dlia. rewrite H12.
    assert (mp = 10 \/ mp = 11) as [->| ->] by dlia; zcbn; [dlia|].
    destruct (decide (doy = 365)) as [Hq|Hq]; [rewrite (Hleap Hq); dlia|].
    destruct (is_leap (yoe + 1)); dlia.
Qed.

Lemma is_leap_400 y k : is_leap (y + 400 * k) = is_leap y.
Proof. unfold is_leap. f_equal; [f_equal; dlia|f_equal; [do 2 f_equal; dlia|f_equal; dlia]]. Qed.

Lemma civil_spec day y m d :
  civil day = (y, m, d) ->
  1 <= m <= 12 /\ 1 <= d <= days_in_month y m /\ day_of_civil y m d = day.
Proof.
  unfold civil. set (z := day + 719468).
  destruct (civil_of_doe (z mod 146097)) as [[y0 m0] d0] eqn:E. intros; simplify_eq.
  apply civil_of_doe_spec in E as (? & ? & ? & Hd); [|dlia].
  split_and!; [dlia..| |].
  - unfold days_in_month in *. rewrite is_leap_400. dlia.
  - unfold day_of_civil in *. destruct (m <=? 2); dlia.
Qed.

(** Leap days before March of year [y]. *)
Definition leap_days (y : Z) : Z := y / 4 - y / 100 + y / 400.

Lemma leap_days_mono a b : a <= b -> leap_days a <= leap_days b.
Proof. unfold leap_days. intros. dlia. Qed.

Lemma leap_days_step y : leap_days y = leap_days (y - 1) + (if is_leap y then 1 else 0).
Proof.
  unfold leap_days, is_leap. destruct (y mod 4 =? 0) eqn:E4, (y mod 100 =? 0) eqn:E100, (y mod 400 =? 0) eqn:E400;
    go_bool; cbn [andb orb negb]; dlia.
Qed.

(** Years and months counted from March. *)
Lemma day_of_civil_march y m d :
  1 <= m <= 12 -> 1 <= d <= days_in_month y m ->
  exists a mp, 12 * y + m = 12 * a + mp + 3 /\ 0 <= mp <= 11 /\
    day_of_civil y m d = 365 * a + leap_days a + (153 * mp + 2) / 5 + d - 1 - 719468 /\
    (153 * mp + 2) / 5 + d <= (if mp =? 11 then 365 + leap_days (a + 1) - leap_days a else (153 * mp + 155) / 5).
Proof.
  intros Hm Hd. unfold day_of_civil. destruct (m <=? 2) eqn:E.
  - exists (y - 1), (m + 9). repeat split; [lia..|unfold leap_days; lia|].
    rewrite (leap_days_step (y - 1 + 1)). replace (y - 1 + 1) with y by lia.
    revert Hd. unfold days_in_month. assert (m = 1 \/ m = 2) as [-> | ->] by lia; zcbn; [dlia|].
    destruct (is_leap y); dlia.
  - exists y, (m - 3). repeat split; [lia..|unfold leap_days; lia|].
    replace (m - 3 =? 11) with false by lia. revert Hd. unfold days_in_month.
    assert (m = 3 \/ m = 4 \/ m = 5 \/ m = 6 \/ m = 7 \/ m = 8 \/ m = 9 \/ m = 10 \/ m = 11 \/ m = 12) as Hc by lia.
    repeat destruct Hc as [->|Hc]; subst; zcbn; dlia.
Qed.

Lemma day_of_civil_month y m d y' m' d' :
  1 <= m <= 12 -> 1 <= m' <= 12 -> 1 <= d <= days_in_month y m -> 1 <= d' <= days_in_month y' m' ->
  12 * y + m < 12 * y' + m' -> day_of_civil y m d < day_of_civil y' m' d'.
Proof.
  intros Hm Hm' Hd Hd' Hlt.
  destruct (day_of_civil_march y m d) as (a & mp & E & Hmp & -> & Hend); [done..|].
  destruct (day_of_civil_march y' m' d') as (a' & mp' & E' & Hmp' & -> & _); [done..|].
  destruct (decide (a = a')) as [<-|Hne].
  - replace (mp =? 11) with false in Hend by lia. assert (mp < mp') by lia. dlia.
  - pose proof (leap_days_mono (a + 1) a'). pose proof (leap_days_mono a (a + 1)). destruct (mp =? 11) eqn:E11; dlia.
Qed.

(** A later day is in no earlier month. *)
Lemma civil_month_mono day day' y m d y' m' d' :
  civil day = (y, m, d) -> civil day' = (y', m', d') -> day <= day' -> 12 * y + m <= 12 * y' + m'.
Proof.
  intros (Hm & Hd & <-)%civil_spec (Hm' & Hd' & <-)%civil_spec Hle.
  destruct (decide (12 * y + m <= 12 * y' + m')); [done|].
  pose proof (day_of_civil_month y' m' d' y m d). lia.
Qed.

Lemma FormatDay_digits n : 0 <= n < 100 -> num2 (digit (n / 10 mod 10)) (digit (n mod 10)) = Some n.
Proof.
  intros Hn. rewrite (Z.mod_small (n / 10)) by dlia.
  assert (forall k, 0 <= k < 10 -> undigit (digit k) = Some k) as Hk.
  { intros k Hk. assert (k = 0 \/ k = 1 \/ k = 2 \/ k = 3 \/ k = 4 \/ k = 5 \/ k = 6 \/ k = 7 \/ k = 8 \/ k = 9) as H by dlia.
    by repeat destruct H as [->|H]; subst. }
  unfold num2. rewrite !Hk by dlia. cbn. f_equal. dlia.
Qed.

(** The instants whose dates print with four digits of year. *)
Definition modern (t : time) : Prop :=
  day_of_civil 0 1 1 <= day_index t < day_of_civil 10000 1 1.

Lemma civil_year_bounds day y m d :
  civil day = (y, m, d) -> day_of_civil 0 1 1 <= day < day_of_civil 10000 1 1 -> 0 <= y <= 9999.
Proof.
  intros (Hm & Hd & <-)%civil_spec. unfold day_of_civil. cbn [Z.leb Z.compare Pos.compare Pos.compare_cont].
  assert (d <= 31) by (unfold days_in_month in Hd; destruct (m =? 2), (is_leap y), ((m =? 4) || (m =? 6) || (m =? 9) || (m =? 11)); dlia).
  destruct (m <=? 2) eqn:E; go_bool; dlia.
Qed.

Lemma ParseDate_FormatDate t : modern t -> ParseDate (FormatDate t) = Some (truncDay t).
Proof.
  unfold modern, FormatDate, FormatDay. intros Ht.
  destruct (civil (day_index t)) as [[y m] d] eqn:E.
  pose proof (civil_year_bounds _ _ _ _ E Ht). apply civil_spec in E as (Hm & Hd & Hday).
  assert (d <= 31) by (unfold days_in_month in Hd; destruct (m =? 2), (is_leap y), ((m =? 4) || (m =? 6) || (m =? 9) || (m =? 11)); dlia).
  unfold pad4, pad2. cbv [String.append ParseDate].
  rewrite !FormatDay_digits by dlia. cbn [mbind option_bind].
  replace (100 * (y / 100) + y mod 100) with y by dlia.
  rewrite Hday. change (Ascii.eqb dash dash) with true.
  replace ((1 <=? m) && (m <=? 12) && (1 <=? d) && (d <=? days_in_month y m)) with true by dlia.
  cbn. repeat match goal with |- context [?a <=? ?b] => replace (a <=? b) with true by dlia end.
  reflexivity.
Qed.

Lemma FormatDate_inj t u :
  modern t -> modern u -> FormatDate t = FormatDate u -> truncDay t = truncDay u.
Proof. intros Ht Hu E. apply ParseDate_FormatDate in Ht, Hu. rewrite E in Ht. congruence. Qed.

Lemma FormatDate_trunc t : FormatDate (truncDay t) = FormatDate t.
Proof. unfold FormatDate. by rewrite truncDay_index. Qed.
