(* ===== verification/Types.v ===== *)
(** * The data the components exchange

    The structs of internal/repository/snapshot.go, internal/repository/
    connection.go, internal/repository/sync_status.go and
    internal/connector/interface.go that carry a track record.  Amounts are
    over a number type [F] (float64 in the program); a nil pointer is [None].
    Field names carry a prefix naming their struct. *)

From S2P Require Import Prelude Num GoTime.
From stdpp Require Import base gmap strings list.
From Stdlib Require Import ZArith.

(** ** The ten markets *)

Inductive market :=
| MStocks | MSpot | MSwap | MFutures | MOptions
| MMargin | MEarn | MCFD | MForex | MCommodities.

#[export] Instance market_eq_dec : EqDecision market.
Proof. solve_decision. Defined.

Definition all_markets : list market :=
  [MStocks; MSpot; MSwap; MFutures; MOptions; MMargin; MEarn; MCFD; MForex; MCommodities].

Lemma all_markets_complete m : m ∈ all_markets.
Proof. destruct m; set_solver. Qed.

(** The string constants of connector/interface.go. *)
Definition market_name (m : market) : string :=
  match m with
  | MSpot => "spot" | MStocks => "stocks" | MSwap => "swap" | MFutures => "futures"
  | MOptions => "options" | MMargin => "margin" | MEarn => "earn" | MCFD => "cfd"
  | MForex => "forex" | MCommodities => "commodities"
  end.

Definition market_of_name (s : string) : option market :=
  find_first (λ m, String.eqb (market_name m) s) all_markets.

Lemma market_of_name_name m : market_of_name (market_name m) = Some m.
Proof. by destruct m. Qed.

Section types.
Context (F : Type).

Record MarketMetrics := mkMetrics {
  mm_Equity : F;
  mm_AvailableMargin : F;
  mm_Volume : F;
  mm_Trades : Z;
  mm_TradingFees : F;
  mm_FundingFees : F;
  mm_LongTrades : Z;
  mm_ShortTrades : Z;
  mm_LongVolume : F;
  mm_ShortVolume : F;
  mm_NativeCurrency : string;
  mm_FXRateToUSD : F;
}.

Record MarketBreakdown := mkBreakdown {
  mb_Stocks : option MarketMetrics;
  mb_Spot : option MarketMetrics;
  mb_Swap : option MarketMetrics;
  mb_Futures : option MarketMetrics;
  mb_Options : option MarketMetrics;
  mb_Margin : option MarketMetrics;
  mb_Earn : option MarketMetrics;
  mb_CFD : option MarketMetrics;
  mb_Forex : option MarketMetrics;
  mb_Commodities : option MarketMetrics;
  mb_Global : option MarketMetrics;
}.

Record Snapshot := mkSnapshot {
  sn_ID : string;
  sn_UserUID : string;
  sn_Exchange : string;
  sn_Label : string;
  sn_Timestamp : time;
  sn_TotalEquity : F;
  sn_RealizedBalance : F;
  sn_UnrealizedPnL : F;
  sn_Deposits : F;
  sn_Withdrawals : F;
  sn_TotalTrades : Z;
  sn_TotalVolume : F;
  sn_TotalFees : F;
  sn_Breakdown : option MarketBreakdown;
  sn_IsHistorical : bool;
  sn_FromExternalRebuilder : bool;
}.

Record Cashflow := mkCashflow {
  cf_Amount : F;
  cf_Currency : string;
  cf_Timestamp : time;
}.

Record MarketBalance := mkMarketBalance {
  mbal_MarketType : string;
  mbal_Equity : F;
  mbal_AvailableMargin : F;
}.

Record FundingFee := mkFundingFee {
  ff_Amount : F;
  ff_Symbol : string;
  ff_Timestamp : time;
}.

Record HistoricalSnapshot := mkHistorical {
  hs_Date : time;
  hs_TotalEquity : F;
  hs_RealizedBalance : F;
  hs_Deposits : F;
  hs_Withdrawals : F;
  hs_TotalTrades : Z;
  hs_TotalVolume : F;
  hs_TotalFees : F;
  hs_FundingFees : F;
  hs_LongTrades : Z;
  hs_ShortTrades : Z;
  hs_LongVolume : F;
  hs_ShortVolume : F;
  (** The iteration over the Go map visits the entries of this list. *)
  hs_Breakdown : list (string * MarketBalance);
  hs_Currency : string;
  hs_MeasuredOn : time;
  (** A nil slice is [None]. *)
  hs_Cashflows : option (list Cashflow);
  hs_FXRateToUSD : F;
  hs_BaseRates : gmap string F;
}.

Record Balance := mkBalance {
  bal_Available : F;
  bal_Equity : F;
  bal_UnrealizedPnL : F;
  bal_Currency : string;
  bal_BaseRates : gmap string F;
}.

Record Trade := mkTrade {
  tr_Symbol : string;
  tr_Side : string;
  tr_Price : F;
  tr_Quantity : F;
  tr_Multiplier : F;
  tr_USDNotional : F;
  tr_Fee : F;
  tr_RealizedPnL : F;
  tr_Timestamp : time;
  tr_MarketType : string;
}.

Record Position := mkPosition {
  po_Symbol : string;
  po_Side : string;
  po_Size : F;
  po_EntryPrice : F;
  po_MarkPrice : F;
  po_UnrealizedPnL : F;
  po_MarketType : string;
}.

Record RawBalanceOp := mkRawOp {
  ro_OperationType : Z;
  ro_Label : string;
  ro_Delta : F;
  ro_BalanceAfter : F;
  ro_PositionValue : F;
  ro_Currency : string;
  ro_Symbol : string;
  ro_Timestamp : time;
}.

End types.

Arguments mkMetrics {F}.
Arguments mkBreakdown {F}.
Arguments mkSnapshot {F}.
Arguments mkCashflow {F}.
Arguments mkMarketBalance {F}.
Arguments mkFundingFee {F}.
Arguments mkHistorical {F}.
Arguments mkBalance {F}.
Arguments mkTrade {F}.
Arguments mkPosition {F}.
Arguments mkRawOp {F}.
Arguments po_Symbol {F}. Arguments po_Side {F}. Arguments po_Size {F}. Arguments po_EntryPrice {F}.
Arguments po_MarkPrice {F}. Arguments po_UnrealizedPnL {F}. Arguments po_MarketType {F}.
Arguments ro_OperationType {F}. Arguments ro_BalanceAfter {F}. Arguments ro_Label {F}. Arguments ro_Delta {F}. Arguments ro_PositionValue {F}. Arguments ro_Currency {F}.
Arguments ro_Symbol {F}. Arguments ro_Timestamp {F}.
Arguments mm_Equity {F}. Arguments mm_AvailableMargin {F}. Arguments mm_Volume {F}.
Arguments mm_Trades {F}. Arguments mm_TradingFees {F}. Arguments mm_FundingFees {F}.
Arguments mm_LongTrades {F}. Arguments mm_ShortTrades {F}. Arguments mm_LongVolume {F}.
Arguments mm_ShortVolume {F}. Arguments mm_NativeCurrency {F}. Arguments mm_FXRateToUSD {F}.
Arguments mb_Stocks {F}. Arguments mb_Spot {F}. Arguments mb_Swap {F}. Arguments mb_Futures {F}.
Arguments mb_Options {F}. Arguments mb_Margin {F}. Arguments mb_Earn {F}. Arguments mb_CFD {F}.
Arguments mb_Forex {F}. Arguments mb_Commodities {F}. Arguments mb_Global {F}.
Arguments sn_ID {F}. Arguments sn_UserUID {F}. Arguments sn_Exchange {F}. Arguments sn_Label {F}.
Arguments sn_Timestamp {F}. Arguments sn_TotalEquity {F}. Arguments sn_RealizedBalance {F}.
Arguments sn_UnrealizedPnL {F}. Arguments sn_Deposits {F}. Arguments sn_Withdrawals {F}.
Arguments sn_TotalTrades {F}. Arguments sn_TotalVolume {F}. Arguments sn_TotalFees {F}.
Arguments sn_Breakdown {F}. Arguments sn_IsHistorical {F}. Arguments sn_FromExternalRebuilder {F}.
Arguments cf_Amount {F}. Arguments cf_Currency {F}. Arguments cf_Timestamp {F}.
Arguments mbal_MarketType {F}. Arguments mbal_Equity {F}. Arguments mbal_AvailableMargin {F}.
Arguments ff_Amount {F}. Arguments ff_Symbol {F}. Arguments ff_Timestamp {F}.
Arguments hs_Date {F}. Arguments hs_TotalEquity {F}. Arguments hs_RealizedBalance {F}.
Arguments hs_Deposits {F}. Arguments hs_Withdrawals {F}. Arguments hs_TotalTrades {F}.
Arguments hs_TotalVolume {F}. Arguments hs_TotalFees {F}. Arguments hs_FundingFees {F}.
Arguments hs_LongTrades {F}. Arguments hs_ShortTrades {F}. Arguments hs_LongVolume {F}.
Arguments hs_ShortVolume {F}. Arguments hs_Breakdown {F}. Arguments hs_Currency {F}.
Arguments hs_MeasuredOn {F}. Arguments hs_Cashflows {F}. Arguments hs_FXRateToUSD {F}.
Arguments hs_BaseRates {F}.
Arguments bal_Available {F}. Arguments bal_Equity {F}. Arguments bal_UnrealizedPnL {F}.
Arguments bal_Currency {F}. Arguments bal_BaseRates {F}.
Arguments tr_Symbol {F}. Arguments tr_Side {F}. Arguments tr_Price {F}. Arguments tr_Quantity {F}.
Arguments tr_Multiplier {F}. Arguments tr_USDNotional {F}. Arguments tr_Fee {F}.
Arguments tr_RealizedPnL {F}. Arguments tr_Timestamp {F}. Arguments tr_MarketType {F}.

Record ExchangeConnection := mkConnection {
  ec_ID : string;
  ec_UserUID : string;
  ec_Exchange : string;
  ec_Label : string;
  ec_SyncIntervalMinutes : Z;
  ec_IsActive : bool;
  ec_CreatedAt : time;
}.

Record SyncStatus := mkStatus {
  st_UserUID : string;
  st_Exchange : string;
  st_Label : string;
  st_LastSyncTime : option time;
  st_Status : string;
  st_TotalTrades : Z;
  st_ErrorMessage : string;
}.

(** [SyncResult] of service/sync.go. *)
Record SyncResult (F : Type) := mkResult {
  sr_UserUID : string;
  sr_Exchange : string;
  sr_Label : string;
  sr_Success : bool;
  sr_TradeCount : Z;
  sr_SnapshotEquity : F;
  sr_SnapshotTimestamp : time;
  sr_Error : string;
  sr_RateLimited : bool;
  sr_CapabilityWarnings : list string;
  sr_RetryArmed : bool;
  sr_Skipped : bool;
  sr_SkipReason : string;
  sr_snapshot : option (Snapshot F);
  sr_backfillDue : bool;
}.
Arguments mkResult {F}.
Arguments sr_UserUID {F}. Arguments sr_Exchange {F}. Arguments sr_Label {F}.
Arguments sr_Success {F}. Arguments sr_TradeCount {F}. Arguments sr_SnapshotEquity {F}.
Arguments sr_SnapshotTimestamp {F}. Arguments sr_Error {F}. Arguments sr_RateLimited {F}.
Arguments sr_CapabilityWarnings {F}. Arguments sr_RetryArmed {F}. Arguments sr_Skipped {F}.
Arguments sr_SkipReason {F}. Arguments sr_snapshot {F}. Arguments sr_backfillDue {F}.

(** ** Accessors of a breakdown by market *)

Section accessors.
Context {F : Type}.

Definition breakdown_market (b : MarketBreakdown F) (m : market) : option (MarketMetrics F) :=
  match m with
  | MStocks => mb_Stocks b | MSpot => mb_Spot b | MSwap => mb_Swap b
  | MFutures => mb_Futures b | MOptions => mb_Options b | MMargin => mb_Margin b
  | MEarn => mb_Earn b | MCFD => mb_CFD b | MForex => mb_Forex b
  | MCommodities => mb_Commodities b
  end.

(** The breakdown whose ten markets are given by [f]. *)
Definition breakdown_of (f : market → option (MarketMetrics F)) (g : option (MarketMetrics F)) :
    MarketBreakdown F :=
  mkBreakdown (f MStocks) (f MSpot) (f MSwap) (f MFutures) (f MOptions) (f MMargin)
    (f MEarn) (f MCFD) (f MForex) (f MCommodities) g.

Definition empty_breakdown : MarketBreakdown F := breakdown_of (λ _, None) None.

Definition set_breakdown_market (m : market) (v : MarketMetrics F) (b : MarketBreakdown F) :
    MarketBreakdown F :=
  breakdown_of (λ m', if decide (m' = m) then Some v else breakdown_market b m') (mb_Global b).

Definition set_breakdown_global (g : option (MarketMetrics F)) (b : MarketBreakdown F) :
    MarketBreakdown F :=
  breakdown_of (breakdown_market b) g.

Lemma breakdown_of_market f g m : breakdown_market (breakdown_of f g) m = f m.
Proof. by destruct m. Qed.

(** A snapshot with other flows. *)
Definition set_flows (dep wd : F) (s : Snapshot F) : Snapshot F :=
  mkSnapshot (sn_ID s) (sn_UserUID s) (sn_Exchange s) (sn_Label s) (sn_Timestamp s)
    (sn_TotalEquity s) (sn_RealizedBalance s) (sn_UnrealizedPnL s) dep wd
    (sn_TotalTrades s) (sn_TotalVolume s) (sn_TotalFees s) (sn_Breakdown s)
    (sn_IsHistorical s) (sn_FromExternalRebuilder s).

Definition is_deposit `{Num F} (cf : Cashflow F) : bool := fltb f0 (cf_Amount cf).

(** The day a snapshot is stored under. *)
Definition sn_day (s : Snapshot F) : time := truncDay (sn_Timestamp s).

End accessors.

(** ** Sample rows, for concrete instances *)

Definition b64 (n : Z) : float64 := fofZ n.

(** A row of account user1/ctrader/main on a given day of 2024 (day 0 is
    1 January), live rows carrying a CFD market. *)
Definition sample_metrics (equity : Z) : MarketMetrics float64 :=
  mkMetrics (b64 equity) (b64 0) (b64 0) 0 (b64 0) (b64 0) 0 0 (b64 0) (b64 0) "" (b64 0).

Definition sample_day (n : Z) : time := ((19723 + n) * Day)%Z.

Definition sample_row (n equity realized dep wd : Z) (live : bool) : Snapshot float64 :=
  mkSnapshot "id" "user1" "ctrader" "main" (sample_day n)
    (b64 equity) (b64 realized) (b64 (equity - realized)) (b64 dep) (b64 wd) 0 (b64 0) (b64 0)
    (Some (breakdown_of (λ m, if decide (m = MCFD) then if live then Some (sample_metrics equity) else None else None)
                        (Some (sample_metrics equity))))
    false false.
