(* ===== verification/Store.v ===== *)
(** * The snapshot table (internal/repository/snapshot.go)

    The repository speaks SQL to a [snapshot_data] table whose columns depend
    on the schema in place (the Go migrations or the Prisma one production
    runs).  A table is the list of its rows; each statement of the repository
    is the function it computes on that list.  A row holds what its columns
    hold, and a read returns what the scan lifts out of it. *)

From S2P Require Import Prelude Num GoTime Types.
From stdpp Require Import base gmap strings list sorting.
From Stdlib Require Import ZArith Lia.
Local Open Scope Z_scope.

Module Store.

(** The capabilities [hasLabelColumn] probes and caches. *)
Record schema := mkSchema {
  isTSSchema : bool;
  hasLabelCol : bool;
  hasIsHistoricalCol : bool;
  hasFromExternalRebuilderCol : bool;
}.

(** [probe] is [columnExists] on [snapshot_data]; a failed probe answers
    false.  The second component is [capabilitiesLoaded]. *)
Definition detect (probe : string → res bool) : schema * bool :=
  let p c := match probe c with Ok b => b | Err _ => false end in
  let ts := p "userUid" in
  let sch :=
    if ts then mkSchema true true false (p "from_external_rebuilder")
    else mkSchema false (p "label") (p "is_historical") (p "from_external_rebuilder") in
  let asked :=
    if ts then ["userUid"; "from_external_rebuilder"; "updatedAt"; "createdAt"]
    else ["userUid"; "label"; "is_historical"; "from_external_rebuilder"; "updated_at"; "created_at"] in
  (sch, forallb (λ c, is_ok (probe c)) asked).

Definition ErrNotFound : string := "not found".
Definition ErrOriginUnavailable : string := "snapshot origin column unavailable".

Section store.
Context {F : Type} {NF : Num F}.

Abbreviation table := (list (Snapshot F)).

(** ** The breakdown column

    [json.Marshal] refuses NaN and infinities, and its error is ignored: the
    column is then NULL, which reads back as a nil breakdown.  An [omitempty]
    number equal to zero is left out and reads back as [+0]. *)

Definition finite (x : F) : bool := negb (fis_nan x) && negb (fis_inf x).

Definition omitempty (x : F) : F := if feqb x f0 then f0 else x.

Definition metrics_finite (m : MarketMetrics F) : bool :=
  forallb finite [mm_Equity m; mm_AvailableMargin m; mm_Volume m; mm_TradingFees m;
                  mm_FundingFees m; mm_LongVolume m; mm_ShortVolume m; mm_FXRateToUSD m].

Definition json_metrics (m : MarketMetrics F) : MarketMetrics F :=
  mkMetrics (omitempty (mm_Equity m)) (omitempty (mm_AvailableMargin m)) (mm_Volume m)
    (mm_Trades m) (mm_TradingFees m) (mm_FundingFees m) (mm_LongTrades m) (mm_ShortTrades m)
    (omitempty (mm_LongVolume m)) (omitempty (mm_ShortVolume m)) (mm_NativeCurrency m)
    (omitempty (mm_FXRateToUSD m)).

Definition breakdown_finite (b : MarketBreakdown F) : bool :=
  forallb (λ m, from_option metrics_finite true (breakdown_market b m)) all_markets &&
  from_option metrics_finite true (mb_Global b).

Definition json_breakdown (ob : option (MarketBreakdown F)) : option (MarketBreakdown F) :=
  match ob with
  | None => None
  | Some b =>
      if breakdown_finite b
      then Some (breakdown_of (λ m, json_metrics <$> breakdown_market b m) (json_metrics <$> mb_Global b))
      else None
  end.

(** ** Writing and reading a row *)

(** The columns an INSERT of [s] fills, under the schema [sch]. *)
Definition insert_cols (sch : schema) (id : string) (s : Snapshot F) : Snapshot F :=
  let b := json_breakdown (sn_Breakdown s) in
  let origin := hasFromExternalRebuilderCol sch && sn_FromExternalRebuilder s in
  if isTSSchema sch then
    mkSnapshot id (sn_UserUID s) (sn_Exchange s) (sn_Label s) (sn_Timestamp s)
      (sn_TotalEquity s) (sn_RealizedBalance s) (sn_UnrealizedPnL s) (sn_Deposits s) (sn_Withdrawals s)
      0 f0 f0 b false origin
  else
    mkSnapshot id (sn_UserUID s) (sn_Exchange s) (if hasLabelCol sch then sn_Label s else "")
      (sn_Timestamp s) (sn_TotalEquity s) (sn_RealizedBalance s) (sn_UnrealizedPnL s)
      (sn_Deposits s) (sn_Withdrawals s) (sn_TotalTrades s) (sn_TotalVolume s) (sn_TotalFees s) b
      (hasIsHistoricalCol sch && sn_IsHistorical s) origin.

(** [scanSnapshots]: the Go schema's rows; the origin column is not read. *)
Definition scan_go (r : Snapshot F) : Snapshot F :=
  mkSnapshot (sn_ID r) (sn_UserUID r) (sn_Exchange r) (sn_Label r) (sn_Timestamp r)
    (sn_TotalEquity r) (sn_RealizedBalance r) (sn_UnrealizedPnL r) (sn_Deposits r) (sn_Withdrawals r)
    (sn_TotalTrades r) (sn_TotalVolume r) (sn_TotalFees r) (sn_Breakdown r) (sn_IsHistorical r) false.

(** [scanSnapshotsTSOrigin]: the totals come from [breakdown.global]. *)
Definition scan_ts (withOrigin : bool) (r : Snapshot F) : Snapshot F :=
  let g := sn_Breakdown r ≫= mb_Global in
  mkSnapshot (sn_ID r) (sn_UserUID r) (sn_Exchange r) (sn_Label r) (sn_Timestamp r)
    (sn_TotalEquity r) (sn_RealizedBalance r) (sn_UnrealizedPnL r) (sn_Deposits r) (sn_Withdrawals r)
    (from_option mm_Trades 0 g) (from_option mm_Volume f0 g)
    (from_option (λ m, fadd (mm_TradingFees m) (mm_FundingFees m)) f0 g)
    (sn_Breakdown r) false (withOrigin && sn_FromExternalRebuilder r).

(** A read of one row, and a read by [getByUserAndDateRange], which asks for
    the origin column where the Prisma schema has it. *)
Definition scan (sch : schema) (r : Snapshot F) : Snapshot F :=
  if isTSSchema sch then scan_ts false r else scan_go r.

Definition scan_range (sch : schema) (r : Snapshot F) : Snapshot F :=
  if isTSSchema sch then scan_ts (hasFromExternalRebuilderCol sch) r else scan_go r.

(** ** Keys *)

(** [WHERE user_uid = .. AND exchange = .. (AND label = ..)] *)
Definition of_conn (sch : schema) (user exchange label : string) (r : Snapshot F) : bool :=
  String.eqb (sn_UserUID r) user && String.eqb (sn_Exchange r) exchange &&
  (negb (hasLabelCol sch) || String.eqb (sn_Label r) label).

(** The columns of the ON CONFLICT target. *)
Definition row_key (sch : schema) (r : Snapshot F) : string * string * string * Z :=
  (sn_UserUID r, sn_Exchange r, if hasLabelCol sch then sn_Label r else "", sn_Timestamp r).

Definition set_id (id : string) (s : Snapshot F) : Snapshot F :=
  mkSnapshot id (sn_UserUID s) (sn_Exchange s) (sn_Label s) (sn_Timestamp s)
    (sn_TotalEquity s) (sn_RealizedBalance s) (sn_UnrealizedPnL s) (sn_Deposits s) (sn_Withdrawals s)
    (sn_TotalTrades s) (sn_TotalVolume s) (sn_TotalFees s) (sn_Breakdown s)
    (sn_IsHistorical s) (sn_FromExternalRebuilder s).

(** [INSERT .. ON CONFLICT (key) DO UPDATE SET ..]: the row with the key, if
    any, keeps its id and takes every other column of the new one. *)
Fixpoint upsert_row (sch : schema) (new : Snapshot F) (t : table) : table :=
  match t with
  | [] => [new]
  | r :: t' =>
      if bool_decide (row_key sch r = row_key sch new) then set_id (sn_ID r) new :: t'
      else r :: upsert_row sch new t'
  end.

(** [Upsert]; [newid] is the id a fresh row gets. *)
Definition Upsert (sch : schema) (newid : Snapshot F → string) (t : table) (s : Snapshot F) : table :=
  upsert_row sch (insert_cols sch (newid s) s) t.

(** ** Transactions *)

(** What the database may refuse during a transaction. *)
Record tx_faults := mkFaults {
  f_begin : option string;
  f_exec : Snapshot F → option string;
  f_commit : option string;
}.

Definition no_faults : tx_faults := mkFaults None (λ _, None) None.

Fixpoint exec_all (sch : schema) (newid : Snapshot F → string) (flt : tx_faults)
    (t : table) (l : list (Snapshot F)) : res table :=
  match l with
  | [] => Ok t
  | s :: l' =>
      match f_exec flt s with
      | Some e => Err ("upsert snapshot " +:+ sn_Exchange s +:+ "/" +:+ sn_Label s +:+ ": " +:+ e)%string
      | None => exec_all sch newid flt (Upsert sch newid t s) l'
      end
  end.

(** [UpsertBatch]: the deferred rollback undoes every statement unless the
    commit goes through. *)
Definition UpsertBatch (sch : schema) (newid : Snapshot F → string) (flt : tx_faults)
    (t : table) (l : list (Snapshot F)) : table * res unit :=
  match l with
  | [] => (t, Ok tt)
  | _ =>
      match f_begin flt with
      | Some e => (t, Err ("begin tx: " +:+ e)%string)
      | None =>
          match exec_all sch newid flt t l with
          | Err e => (t, Err e)
          | Ok t' =>
              match f_commit flt with
              | Some e => (t, Err e)
              | None => (t', Ok tt)
              end
          end
      end
  end.

(** ** Queries *)

Definition getByUserAndDateRange (sch : schema) (t : table) (user : string) (from to : time) : table :=
  scan_range sch <$> sort_by sn_Timestamp
    (filter (λ r, String.eqb (sn_UserUID r) user && (from <=? sn_Timestamp r) && (sn_Timestamp r <=? to) = true) t).

(** [ORDER BY timestamp DESC LIMIT 1] *)
Definition newer (acc : option (Snapshot F)) (r : Snapshot F) : option (Snapshot F) :=
  match acc with
  | None => Some r
  | Some a => if sn_Timestamp a <? sn_Timestamp r then Some r else acc
  end.

Definition latest_of (t : table) : option (Snapshot F) := foldl newer None t.

Definition found (sch : schema) (o : option (Snapshot F)) : res (Snapshot F) :=
  match o with Some r => Ok (scan sch r) | None => Err ErrNotFound end.

Definition GetLatestByUserExchangeLabel (sch : schema) (t : table) (user exchange label : string) :
    res (Snapshot F) :=
  found sch (latest_of (filter (λ r, of_conn sch user exchange label r = true) t)).

Definition GetLatestByUserExchangeLabelBefore (sch : schema) (t : table)
    (user exchange label : string) (before : time) : res (Snapshot F) :=
  found sch (latest_of (filter (λ r, of_conn sch user exchange label r && (sn_Timestamp r <? before) = true) t)).

Definition GetByUserExchangeLabelAndDate (sch : schema) (t : table)
    (user exchange label : string) (date : time) : res (Snapshot F) :=
  found sch (find_first (λ r, of_conn sch user exchange label r && (sn_Timestamp r =? date)) t).

Definition ExistsForUserExchangeLabel (sch : schema) (t : table) (user exchange label : string) : bool :=
  existsb (of_conn sch user exchange label) t.

Definition earliest_of (t : table) : option time :=
  foldl (λ acc r, Some (match acc with None => sn_Timestamp r | Some a => Z.min a (sn_Timestamp r) end)) None t.

Definition GetEarliestTimestamp (sch : schema) (t : table) (user exchange label : string) : res time :=
  match earliest_of (filter (λ r, of_conn sch user exchange label r = true) t) with
  | Some ts => Ok ts
  | None => Err ErrNotFound
  end.

(** [date_trunc('day', timestamp AT TIME ZONE 'UTC')] of the rebuilt rows. *)
Definition GetExternalRebuilderDays (sch : schema) (t : table) (user : string) (from to : time) : gset Z :=
  if negb (hasFromExternalRebuilderCol sch) then ∅
  else list_to_set (sn_day <$>
    filter (λ r, String.eqb (sn_UserUID r) user && (from <=? sn_Timestamp r) && (sn_Timestamp r <=? to)
                 && sn_FromExternalRebuilder r = true) t).

(** ** Guarded updates and deletions *)

(** PostgreSQL's equality on double precision: NaN equals itself. *)
Definition sql_eq (x y : F) : bool := (fis_nan x && fis_nan y) || feqb x y.

Definition UpdateFlows (sch : schema) (t : table) (id : string) (oldDep oldWd dep wd : F) :
    table * res bool :=
  if negb (isTSSchema sch) then (t, Err "update snapshot flows: production schema only")
  else
    let hit r := String.eqb (sn_ID r) id && sql_eq (sn_Deposits r) oldDep && sql_eq (sn_Withdrawals r) oldWd in
    ((λ r, if hit r then set_flows dep wd r else r) <$> t,
     Ok (bool_decide (length (filter (λ r, hit r = true) t) = 1%nat))).

(** [rebuiltHistoryScope] *)
Definition rebuilt_before (sch : schema) (user exchange label : string) (before : time) (r : Snapshot F) : bool :=
  of_conn sch user exchange label r && sn_FromExternalRebuilder r && (sn_Timestamp r <? before).

Definition DeleteExternalRebuilderHistory (sch : schema) (t : table)
    (user exchange label : string) (before : time) : table * res Z :=
  if negb (hasFromExternalRebuilderCol sch) then (t, Err ErrOriginUnavailable)
  else (filter (λ r, rebuilt_before sch user exchange label before r = false) t,
        Ok (Z.of_nat (length (filter (λ r, rebuilt_before sch user exchange label before r = true) t)))).

Definition CountExternalRebuilderSnapshots (sch : schema) (t : table)
    (user exchange label : string) (before : time) : res Z :=
  if negb (hasFromExternalRebuilderCol sch) then Err ErrOriginUnavailable
  else Ok (Z.of_nat (length (filter (λ r, rebuilt_before sch user exchange label before r = true) t))).

(** [prunedRebuiltScope]: [to] is the last day kept. *)
Definition last_kept (keep : list time) : time := foldl Z.max (default 0 (head keep)) keep.

Definition pruned (sch : schema) (user exchange label : string) (from : time) (keep : list time)
    (r : Snapshot F) : bool :=
  of_conn sch user exchange label r && sn_FromExternalRebuilder r &&
  (from <=? sn_Timestamp r) && (sn_Timestamp r <=? last_kept keep) &&
  negb (bool_decide (sn_Timestamp r ∈ keep)).

Definition PruneRebuiltDaysOutside (sch : schema) (t : table) (user exchange label : string)
    (from : time) (keep : list time) : table * res Z :=
  match keep with
  | [] => (t, Ok 0)
  | _ =>
      if negb (hasFromExternalRebuilderCol sch) then (t, Err ErrOriginUnavailable)
      else (filter (λ r, pruned sch user exchange label from keep r = false) t,
            Ok (Z.of_nat (length (filter (λ r, pruned sch user exchange label from keep r = true) t))))
  end.

(** ** The table as a map *)

(** The abstract state: one row per key. *)
Definition abs (sch : schema) (t : table) : gmap (string * string * string * Z) (Snapshot F) :=
  list_to_map ((λ r, (row_key sch r, r)) <$> t).

Definition keys_unique (sch : schema) (t : table) : Prop := NoDup (row_key sch <$> t).

(** The abstract write: [s] under its key, an existing id kept. *)
Definition write (sch : schema) (newid : Snapshot F → string)
    (m : gmap (string * string * string * Z) (Snapshot F)) (s : Snapshot F) :
    gmap (string * string * string * Z) (Snapshot F) :=
  let id := match m !! row_key sch s with Some r => sn_ID r | None => newid s end in
  <[row_key sch s := insert_cols sch id s]> m.

Lemma row_key_insert_cols sch id s : row_key sch (insert_cols sch id s) = row_key sch s.
Proof. unfold row_key, insert_cols. by destruct (isTSSchema sch), (hasLabelCol sch). Qed.

Lemma set_id_insert_cols sch id id' s : set_id id (insert_cols sch id' s) = insert_cols sch id s.
Proof. unfold insert_cols. by destruct (isTSSchema sch). Qed.

Lemma row_key_set_id sch id s : row_key sch (set_id id s) = row_key sch s.
Proof. done. Qed.

Lemma upsert_row_keys sch new t k :
  k ∈ row_key sch <$> upsert_row sch new t → k = row_key sch new ∨ k ∈ row_key sch <$> t.
Proof.
  induction t as [|r t IH]; cbn [upsert_row fmap list_fmap].
  - intros Hk. left. by apply list_elem_of_singleton in Hk.
  - case_bool_decide; cbn [fmap list_fmap]; rewrite ?row_key_set_id, !elem_of_cons; naive_solver.
Qed.

Lemma upsert_row_unique sch new t :
  keys_unique sch t → keys_unique sch (upsert_row sch new t).
Proof.
  unfold keys_unique. induction t as [|r t IH]; cbn; [repeat constructor; set_solver|].
  intros [Hr Ht]%NoDup_cons. case_bool_decide as Hk; cbn.
  - rewrite row_key_set_id, <- Hk. by constructor.
  - constructor; [|by apply IH]. intros [?|?]%upsert_row_keys; congruence.
Qed.

Lemma abs_upsert_row sch new t :
  abs sch (upsert_row sch new t) =
  <[row_key sch new :=
      match abs sch t !! row_key sch new with Some r => set_id (sn_ID r) new | None => new end]>
    (abs sch t).
Proof.
  unfold abs. induction t as [|r t IH]; cbn; [done|].
  case_bool_decide as Hk; cbn.
  - rewrite Hk, lookup_insert_eq. by rewrite row_key_set_id, insert_insert_eq.
  - rewrite IH, lookup_insert_ne by done. by rewrite insert_insert_ne.
Qed.

(** One upsert implements the abstract write. *)
Lemma abs_Upsert sch newid t s : abs sch (Upsert sch newid t s) = write sch newid (abs sch t) s.
Proof.
  unfold Upsert, write. rewrite abs_upsert_row, row_key_insert_cols.
  destruct (abs sch t !! row_key sch s); by rewrite ?set_id_insert_cols.
Qed.

Lemma exec_all_ok sch newid flt t l t' :
  exec_all sch newid flt t l = Ok t' → t' = foldl (Upsert sch newid) t l.
Proof.
  revert t. induction l as [|s l IH]; intros t; cbn; [congruence|].
  destruct (f_exec flt s); [done|apply IH].
Qed.

Lemma exec_all_no_faults sch newid t l :
  exec_all sch newid no_faults t l = Ok (foldl (Upsert sch newid) t l).
Proof. revert t. induction l as [|s l IH]; intros t; cbn; [done|apply IH]. Qed.

Lemma abs_foldl_Upsert sch newid t l :
  abs sch (foldl (Upsert sch newid) t l) = foldl (write sch newid) (abs sch t) l.
Proof. revert t. induction l as [|s l IH]; intros t; cbn [foldl]; [done|]. by rewrite IH, abs_Upsert. Qed.

Lemma foldl_Upsert_unique sch newid t l :
  keys_unique sch t → keys_unique sch (foldl (Upsert sch newid) t l).
Proof.
  revert t. induction l as [|s l IH]; intros t Ht; cbn [foldl]; [done|].
  apply IH, upsert_row_unique, Ht.
Qed.

Lemma UpsertBatch_no_faults sch newid t l :
  UpsertBatch sch newid no_faults t l = (foldl (Upsert sch newid) t l, Ok tt).
Proof. destruct l; [done|]. unfold UpsertBatch. by rewrite exec_all_no_faults. Qed.

Lemma UpsertBatch_cases sch newid flt t l :
  (∃ e, UpsertBatch sch newid flt t l = (t, Err e)) ∨
  UpsertBatch sch newid flt t l = (foldl (Upsert sch newid) t l, Ok tt).
Proof.
  destruct l as [|s l]; [by right|]. unfold UpsertBatch.
  destruct (f_begin flt); [left; eauto|].
  destruct (exec_all _ _ _ _ _) eqn:E; [|left; eauto].
  destruct (f_commit flt); [left; eauto|]. right. by rewrite (exec_all_ok _ _ _ _ _ _ E).
Qed.

Lemma abs_lookup sch t k r :
  keys_unique sch t → abs sch t !! k = Some r ↔ r ∈ t ∧ row_key sch r = k.
Proof.
  intros Hu. unfold abs. rewrite <- elem_of_list_to_map.
  - rewrite list_elem_of_fmap. split; [intros (x & ? & ?); by simplify_eq|].
    intros [? <-]. eauto.
  - by rewrite <- list_fmap_compose.
Qed.

(** ** The latest row *)

Lemma latest_of_acc t a :
  ∃ r, foldl newer (Some a) t = Some r ∧ r ∈ a :: t ∧
       Forall (λ x, sn_Timestamp x ≤ sn_Timestamp r) (a :: t).
Proof.
  revert a. induction t as [|x t IH]; intros a; cbn [foldl newer].
  - exists a. split_and!; [done|set_solver|by repeat constructor].
  - destruct (sn_Timestamp a <? sn_Timestamp x) eqn:E; go_bool.
    + destruct (IH x) as (r & Hr & Hin & Hall). exists r. split_and!; [done|set_solver|].
      inversion Hall; subst. constructor; [lia|done].
    + destruct (IH a) as (r & Hr & Hin & Hall). exists r. split_and!; [done|set_solver|].
      inversion Hall; subst. repeat constructor; [lia|lia|done].
Qed.

Lemma latest_of_some t r :
  latest_of t = Some r → r ∈ t ∧ Forall (λ x, sn_Timestamp x ≤ sn_Timestamp r) t.
Proof.
  destruct t as [|a t]; [done|]. unfold latest_of. cbn [foldl newer].
  destruct (latest_of_acc t a) as (r' & -> & ? & ?). intros; by simplify_eq.
Qed.

Lemma latest_of_none t : latest_of t = None ↔ t = [].
Proof.
  destruct t as [|a t]; [done|]. unfold latest_of. cbn [foldl newer].
  destruct (latest_of_acc t a) as (r' & -> & _). done.
Qed.

Lemma earliest_of_acc (t : table) a :
  ∃ ts, foldl (λ acc (r : Snapshot F), Some (match acc with None => sn_Timestamp r | Some a => Z.min a (sn_Timestamp r) end))
          (Some a) t = Some ts ∧ ts <= a ∧ ∀ r, r ∈ t → ts <= sn_Timestamp r.
Proof.
  revert a. induction t as [|x t IH]; intros a; cbn [foldl]; [exists a; split_and!; [done|lia|set_solver]|].
  destruct (IH (Z.min a (sn_Timestamp x))) as (ts & -> & Ha & Ht). exists ts. split_and!; [done|lia|].
  intros r [->|Hr]%elem_of_cons; [lia|by apply Ht].
Qed.

Lemma earliest_of_le t ts : earliest_of t = Some ts → ∀ r, r ∈ t → ts <= sn_Timestamp r.
Proof.
  unfold earliest_of. destruct t as [|x t]; [done|]. cbn [foldl].
  destruct (earliest_of_acc t (sn_Timestamp x)) as (ts' & -> & Ha & Ht). intros [= ->] r [->|Hr]%elem_of_cons; auto.
Qed.

Lemma earliest_of_none t : earliest_of t = None → t = [].
Proof.
  unfold earliest_of. destruct t as [|x t]; [done|]. cbn [foldl].
  by destruct (earliest_of_acc t (sn_Timestamp x)) as (ts' & -> & _).
Qed.

Lemma sn_Timestamp_scan sch r : sn_Timestamp (scan sch r) = sn_Timestamp r.
Proof. unfold scan. by destruct (isTSSchema sch). Qed.

(** [GetLatestByUserExchangeLabel] answers with the newest row of the
    connection, and [ErrNotFound] only when it has none. *)
Lemma GetLatest_spec sch t u x l :
  match GetLatestByUserExchangeLabel sch t u x l with
  | Ok s => ∃ r, s = scan sch r ∧ r ∈ t ∧ of_conn sch u x l r = true ∧
                 ∀ r', r' ∈ t → of_conn sch u x l r' = true → sn_Timestamp r' ≤ sn_Timestamp s
  | Err e => e = ErrNotFound ∧ ∀ r, r ∈ t → of_conn sch u x l r = false
  end.
Proof.
  unfold GetLatestByUserExchangeLabel, found. destruct (latest_of _) as [r|] eqn:E.
  - apply latest_of_some in E as [[Hc Hin]%list_elem_of_filter Hall]. exists r.
    split_and!; [done..|]. intros r' Hr' Hc'. rewrite sn_Timestamp_scan.
    rewrite Forall_forall in Hall. by apply Hall, list_elem_of_filter.
  - apply latest_of_none in E. split; [done|]. intros r Hr.
    destruct (of_conn sch u x l r) eqn:Hc; [|done].
    assert (r ∈ filter (λ r, of_conn sch u x l r = true) t) as Hf by by apply list_elem_of_filter.
    rewrite E in Hf. set_solver.
Qed.

(** ** Reading back what was written *)

Lemma write_lookup sch newid m s k :
  write sch newid m s !! k =
  if decide (row_key sch s = k)
  then Some (insert_cols sch (match m !! k with Some r => sn_ID r | None => newid s end) s)
  else m !! k.
Proof. unfold write. case_decide; subst; [apply lookup_insert_eq|by apply lookup_insert_ne]. Qed.

Lemma foldl_write_lookup sch newid m l k :
  (k ∉ row_key sch <$> l → foldl (write sch newid) m l !! k = m !! k) ∧
  (k ∈ row_key sch <$> l → ∃ id s, s ∈ l ∧ row_key sch s = k ∧
     foldl (write sch newid) m l !! k = Some (insert_cols sch id s)).
Proof.
  revert m. induction l as [|s l IH]; intros m; cbn [foldl fmap list_fmap]; [set_solver|].
  rewrite elem_of_cons. destruct (IH (write sch newid m s)) as [IHn IHi]. split.
  - intros Hk. rewrite IHn, write_lookup by naive_solver. case_decide; naive_solver.
  - destruct (decide (k ∈ row_key sch <$> l)) as [Hin|Hin].
    + intros _. destruct (IHi Hin) as (id & s' & ? & ? & ?). exists id, s'. set_solver.
    + intros [->|?]; [|done]. eexists _, s. rewrite IHn, write_lookup, decide_True by done.
      split_and!; [set_solver|done..].
Qed.

Lemma of_conn_key sch u x l r :
  of_conn sch u x l r = true ↔
  row_key sch r = (u, x, if hasLabelCol sch then l else "", sn_Timestamp r).
Proof.
  unfold of_conn, row_key. rewrite !andb_true_iff, orb_true_iff, negb_true_iff, !String.eqb_eq.
  destruct (hasLabelCol sch); naive_solver.
Qed.

Lemma find_row_key sch t u x l ts r :
  keys_unique sch t → r ∈ t → of_conn sch u x l r = true → sn_Timestamp r = ts →
  find_first (λ r, of_conn sch u x l r && (sn_Timestamp r =? ts)) t = Some r.
Proof.
  intros Hu Hr Hc Hts. destruct (find_first _ t) as [r'|] eqn:E.
  - apply find_first_some in E as (l1 & l2 & Ht & Hr' & _). go_bool. f_equal.
    assert (r' ∈ t) by (subst t; set_solver).
    apply of_conn_key in Hc. rewrite of_conn_key in *.
    assert (abs sch t !! row_key sch r = Some r) as Hl1 by by apply abs_lookup.
    assert (abs sch t !! row_key sch r = Some r') as Hl2 by (apply abs_lookup; [done|split; congruence]).
    congruence.
  - rewrite find_first_none, Forall_forall in E. specialize (E r Hr). cbn in E.
    by rewrite Hc, Hts, Z.eqb_refl in E.
Qed.

(** Rows under other keys survive a batch, and its own keys are present. *)
Lemma foldl_Upsert_keeps sch newid t l r :
  r ∈ t → row_key sch r ∉ row_key sch <$> l → r ∈ foldl (Upsert sch newid) t l.
Proof.
  revert t. induction l as [|s l IH]; intros t Hr Hk; cbn [foldl]; [done|].
  cbn [fmap list_fmap] in Hk. apply not_elem_of_cons in Hk as [Hk1 Hk2]. apply IH; [|done].
  clear IH Hk2. unfold Upsert. rewrite <- (row_key_insert_cols sch (newid s) s) in Hk1.
  induction t as [|x t IHt]; cbn [upsert_row]; [by apply not_elem_of_nil in Hr|].
  apply elem_of_cons in Hr. case_bool_decide as Hx; rewrite elem_of_cons; destruct Hr as [->|Hr]; auto.
  by rewrite Hx in Hk1.
Qed.

Lemma foldl_Upsert_has sch newid t l s :
  s ∈ l → ∃ r, r ∈ foldl (Upsert sch newid) t l ∧ row_key sch r = row_key sch s ∧ sn_Timestamp r = sn_Timestamp s.
Proof.
  intros Hs. assert (row_key sch s ∈ row_key sch <$> foldl (Upsert sch newid) t l) as Hk.
  { assert (is_Some (abs sch (foldl (Upsert sch newid) t l) !! row_key sch s)) as [r Hr].
    { rewrite abs_foldl_Upsert. destruct (foldl_write_lookup sch newid (abs sch t) l (row_key sch s)) as [_ Hi].
      destruct Hi as (id & s' & _ & _ & ->); [by apply list_elem_of_fmap_2|eauto]. }
    apply elem_of_list_to_map_2, list_elem_of_fmap in Hr as (x & Heq & Hx).
    apply (f_equal fst) in Heq. cbn [fst] in Heq. rewrite Heq. by apply list_elem_of_fmap_2. }
  apply list_elem_of_fmap in Hk as (r & Hk & Hr). exists r. split_and!; [done|done|].
  by injection Hk.
Qed.

(** The figures of [s], as the columns of a row hold them. *)
Definition carries (r s : Snapshot F) : Prop :=
  sn_UserUID r = sn_UserUID s ∧ sn_Exchange r = sn_Exchange s ∧ sn_Timestamp r = sn_Timestamp s ∧
  sn_TotalEquity r = sn_TotalEquity s ∧ sn_RealizedBalance r = sn_RealizedBalance s ∧
  sn_UnrealizedPnL r = sn_UnrealizedPnL s ∧ sn_Deposits r = sn_Deposits s ∧ sn_Withdrawals r = sn_Withdrawals s ∧
  sn_Breakdown r = json_breakdown (sn_Breakdown s).

Lemma insert_cols_carries sch id s : carries (insert_cols sch id s) s.
Proof. unfold insert_cols. by destruct (isTSSchema sch). Qed.

(** The last snapshot of a key in a batch is the one stored. *)
Lemma foldl_Upsert_last sch newid t l1 s l2 :
  row_key sch s ∉ row_key sch <$> l2 →
  ∃ r, r ∈ foldl (Upsert sch newid) t (l1 ++ s :: l2) ∧ row_key sch r = row_key sch s ∧ carries r s.
Proof.
  intros Hk. assert (∃ id, abs sch (foldl (Upsert sch newid) t (l1 ++ s :: l2)) !! row_key sch s = Some (insert_cols sch id s)) as [id Hid].
  { rewrite abs_foldl_Upsert, foldl_app. cbn [foldl]. rewrite (proj1 (foldl_write_lookup sch newid _ l2 (row_key sch s))) by done.
    rewrite write_lookup, decide_True by done. by eexists. }
  apply elem_of_list_to_map_2, list_elem_of_fmap in Hid as (r & Hr & Hin). apply (f_equal snd) in Hr. cbn [snd] in Hr. subst r.
  eexists. split_and!; [exact Hin|by rewrite row_key_insert_cols|apply insert_cols_carries].
Qed.

(** A batch writes nothing but its snapshots. *)
Lemma foldl_Upsert_origin sch newid t l r :
  r ∈ foldl (Upsert sch newid) t l → r ∈ t ∨ ∃ s, s ∈ l ∧ row_key sch r = row_key sch s ∧ carries r s.
Proof.
  revert t. induction l as [|s l IH]; intros t; cbn [foldl]; [by left|]. intros [Hr|(s' & ? & ? & ?)]%IH; [|right; exists s'; split_and!; [by right|done..]].
  assert (r ∈ t ∨ ∃ id, r = insert_cols sch id s) as [?|[id ->]]; [|by left|].
  - unfold Upsert in Hr. clear IH. induction t as [|x t IHt]; cbn [upsert_row] in Hr; [apply list_elem_of_singleton in Hr as ->; eauto|].
    case_bool_decide; apply elem_of_cons in Hr as [->|Hr]; rewrite ?set_id_insert_cols; [eauto|left; by right|left; by left|].
    destruct (IHt Hr); [left; by right|by right].
  - right. exists s. split_and!; [by left|by rewrite row_key_insert_cols|apply insert_cols_carries].
Qed.

Lemma Prune_keeps sch t u x l from keep r :
  r ∈ t → of_conn sch u x l r = false ∨ sn_Timestamp r ∈ keep →
  r ∈ (PruneRebuiltDaysOutside sch t u x l from keep).1.
Proof.
  intros Hr Hc. unfold PruneRebuiltDaysOutside. destruct keep as [|k keep]; [done|].
  destruct (negb _); [done|]. cbn [fst]. apply list_elem_of_filter. split; [|done].
  unfold pruned. destruct Hc as [->|Hin]; [done|]. rewrite (bool_decide_true _ Hin). by rewrite andb_false_r.
Qed.

(** ** Properties *)

(** C40: a batch of snapshots is written all or not at all.  Whatever the
    database refuses (the begin, any statement, the commit), either the call
    fails and the table is untouched, or it succeeds and the table, seen as a
    map from its conflict key, holds every snapshot of the batch in order,
    each existing row keeping its id; keys stay unique either way, and
    without a fault the call succeeds. *)
Theorem upsert_batch_refines sch newid flt t l :
  let '(t', r) := UpsertBatch sch newid flt t l in
  (is_ok r = false → t' = t) ∧
  (is_ok r = true → abs sch t' = foldl (write sch newid) (abs sch t) l) ∧
  (keys_unique sch t → keys_unique sch t') ∧
  (UpsertBatch sch newid no_faults t l).2 = Ok tt.
Proof.
  rewrite UpsertBatch_no_faults.
  destruct (UpsertBatch_cases sch newid flt t l) as [[e ->] | ->]; cbn; split_and!; try done.
  - intros _. apply abs_foldl_Upsert.
  - apply foldl_Upsert_unique.
Qed.

(** What a reconstruction leaves behind.  After the days [l] a rebuild
    produced for a connection are written and the rebuilt days it no longer
    produces are pruned from [from] on, the rebuilt rows of the connection
    between [from] and the last rebuilt day are exactly those days, every
    rebuilt day is stored, and no live row, no row of another connection and
    no row outside the rebuilt days is lost. *)
Theorem prune_replaces_span sch newid t l from u x lb :
  keys_unique sch t → hasFromExternalRebuilderCol sch = true → l ≠ [] →
  (∀ s, s ∈ l → of_conn sch u x lb s = true ∧ sn_FromExternalRebuilder s = true) →
  let t1 := foldl (Upsert sch newid) t l in
  let t2 := (PruneRebuiltDaysOutside sch t1 u x lb from (sn_Timestamp <$> l)).1 in
  (∀ r, r ∈ t2 → of_conn sch u x lb r = true → sn_FromExternalRebuilder r = true →
        from ≤ sn_Timestamp r ≤ last_kept (sn_Timestamp <$> l) → sn_Timestamp r ∈ sn_Timestamp <$> l) ∧
  (∀ s, s ∈ l → ∃ r, r ∈ t2 ∧ row_key sch r = row_key sch s ∧ sn_FromExternalRebuilder r = true) ∧
  (∀ r, r ∈ t → row_key sch r ∉ row_key sch <$> l →
        of_conn sch u x lb r = false ∨ sn_FromExternalRebuilder r = false ∨ sn_Timestamp r < from →
        r ∈ t2).
Proof.
  intros Hu Ho Hl Hc t1 t2.
  assert (keys_unique sch t1) as Hu1 by by apply foldl_Upsert_unique.
  assert (∀ r, r ∈ t2 ↔ r ∈ t1 ∧ pruned sch u x lb from (sn_Timestamp <$> l) r = false) as Ht2.
  { intros r. subst t2. unfold PruneRebuiltDaysOutside.
    destruct (sn_Timestamp <$> l) eqn:E; [by destruct l|]. rewrite Ho. cbn [negb fst].
    rewrite list_elem_of_filter. naive_solver. }
  assert (∀ k r, abs sch t1 !! k = Some r ↔ r ∈ t1 ∧ row_key sch r = k) as Hlk
    by (intros; by apply abs_lookup).
  subst t1. rewrite abs_foldl_Upsert in Hlk. split_and!.
  - intros r [_ Hp]%Ht2 Hr Hreb [Hf Ht]. unfold pruned in Hp. rewrite Hr, Hreb in Hp.
    apply Z.leb_le in Hf, Ht. rewrite Hf, Ht in Hp. cbn in Hp.
    by apply negb_false_iff, bool_decide_eq_true in Hp.
  - intros s Hs. destruct (foldl_write_lookup sch newid (abs sch t) l (row_key sch s)) as [_ Hi].
    destruct Hi as (id & s' & Hs' & Hk & Hm); [by apply list_elem_of_fmap_2|].
    apply Hlk in Hm as [Hin _]. eexists. rewrite Ht2. split_and!; [done| |by rewrite row_key_insert_cols|].
    + assert (sn_Timestamp (insert_cols sch id s') ∈ sn_Timestamp <$> l) as Hin'.
      { apply list_elem_of_fmap. exists s'. split; [|done]. unfold insert_cols. by destruct (isTSSchema sch). }
      unfold pruned. rewrite (bool_decide_true _ Hin'). by rewrite andb_false_r.
    + destruct (Hc s' Hs') as [_ Hreb]. unfold insert_cols. rewrite Ho, Hreb. by destruct (isTSSchema sch).
  - intros r Hr Hk Hsafe. apply Ht2. split.
    + apply (Hlk (row_key sch r)). destruct (foldl_write_lookup sch newid (abs sch t) l (row_key sch r)) as [Hn _].
      rewrite Hn by done. by apply abs_lookup.
    + unfold pruned. destruct Hsafe as [->|[->|Hlt]]; [done|by rewrite andb_false_r|].
      destruct (from <=? sn_Timestamp r) eqn:E; [go_bool; lia|]. by rewrite andb_false_r.
Qed.

(** A live snapshot reads back as it was written.  On the production
    schema, which has no columns for the totals, a row whose totals are those
    of its global entry and whose breakdown survives JSON is returned by the
    lookup of its day field for field, under the id the table gave it. *)
Theorem upsert_read_back sch newid t s :
  isTSSchema sch = true → hasLabelCol sch = true → keys_unique sch t →
  json_breakdown (sn_Breakdown s) = sn_Breakdown s →
  (∃ g, sn_Breakdown s ≫= mb_Global = Some g ∧ sn_TotalTrades s = mm_Trades g ∧
        sn_TotalVolume s = mm_Volume g ∧ sn_TotalFees s = fadd (mm_TradingFees g) (mm_FundingFees g)) →
  sn_IsHistorical s = false → sn_FromExternalRebuilder s = false →
  ∃ id, GetByUserExchangeLabelAndDate sch (Upsert sch newid t s)
          (sn_UserUID s) (sn_Exchange s) (sn_Label s) (sn_Timestamp s) = Ok (set_id id s).
Proof.
  intros HTS HL Hu Hj (g & Hg & Htr & Hv & Hf) Hh Hr.
  destruct (foldl_write_lookup sch newid (abs sch t) [s] (row_key sch s)) as [_ Hi].
  destruct Hi as (id & s' & ->%list_elem_of_singleton & _ & Hm); [set_solver|].
  cbn [foldl] in Hm. rewrite <- abs_Upsert in Hm.
  apply abs_lookup in Hm as [Hin _]; [|by apply upsert_row_unique].
  exists id. unfold GetByUserExchangeLabelAndDate, found.
  rewrite (find_row_key _ _ _ _ _ _ (insert_cols sch id s));
    [|by apply upsert_row_unique|done| |unfold insert_cols; by rewrite HTS].
  - unfold scan, scan_ts, insert_cols. rewrite HTS. cbn [sn_Breakdown].
    rewrite Hj. unfold set_id. cbn. rewrite Hg. cbn.
    rewrite <- Htr, <- Hv, <- Hf, Hh, Hr. done.
  - apply of_conn_key. rewrite row_key_insert_cols. unfold row_key. rewrite HL.
    unfold insert_cols. by rewrite HTS.
Qed.

End store.

(** *** Concrete instances *)

Definition prod_schema : schema := mkSchema true true false true.

Definition sample_table : list (Snapshot float64) :=
  [sample_row 0 1000 1000 0 0 true; sample_row 1 1010 1010 0 0 true].

Definition as_rebuilt (s : Snapshot float64) : Snapshot float64 :=
  mkSnapshot (sn_ID s) (sn_UserUID s) (sn_Exchange s) (sn_Label s) (sn_Timestamp s)
    (sn_TotalEquity s) (sn_RealizedBalance s) (sn_UnrealizedPnL s) (sn_Deposits s) (sn_Withdrawals s)
    (sn_TotalTrades s) (sn_TotalVolume s) (sn_TotalFees s) (sn_Breakdown s) (sn_IsHistorical s) true.

Lemma prune_replaces_span_witness :
  let l := [as_rebuilt (sample_row 2 500 500 0 0 false)] in
  let t := sample_table ++ [as_rebuilt (sample_row (-3) 480 480 0 0 false)] in
  let t2 := (PruneRebuiltDaysOutside prod_schema (foldl (Upsert prod_schema (λ _, "id")) t l)
               "user1" "ctrader" "main" (sample_day (-5)) (sn_Timestamp <$> l)).1 in
  length t2 = 3%nat ∧ ∀ r, r ∈ sample_table → r ∈ t2.
Proof.
  intros l t t2. split; [vm_compute; reflexivity|]. intros r Hr.
  assert (keys_unique prod_schema t) as Hu by (apply (bool_decide_unpack _); vm_compute; reflexivity).
  pose proof (prune_replaces_span prod_schema (λ _, "id") t l (sample_day (-5)) "user1" "ctrader" "main"
                Hu eq_refl) as (_ & _ & Hk).
  - discriminate.
  - intros s ->%list_elem_of_singleton. split; vm_compute; reflexivity.
  - apply Hk.
    + subst t. set_solver.
    + apply (bool_decide_unpack _). revert r Hr. apply Forall_forall.
      repeat constructor; vm_compute; reflexivity.
    + right; left. revert r Hr. apply Forall_forall. repeat constructor.
Defined.

Lemma upsert_read_back_witness :
  ∃ id, GetByUserExchangeLabelAndDate prod_schema
          (Upsert prod_schema (λ _, "new") sample_table (sample_row 1 1200 1200 5 0 true))
          "user1" "ctrader" "main" (sample_day 1) = Ok (set_id id (sample_row 1 1200 1200 5 0 true)).
Proof.
  apply (upsert_read_back prod_schema (λ _, "new") sample_table (sample_row 1 1200 1200 5 0 true)).
  - reflexivity.
  - reflexivity.
  - apply (bool_decide_unpack _). vm_compute. reflexivity.
  - vm_compute. reflexivity.
  - eexists. split_and!; [vm_compute; reflexivity..].
  - reflexivity.
  - reflexivity.
Defined.

End Store.
