(* ===== verification/SyncError.v ===== *)
(** * Sync errors (internal/errsanitize, internal/service/sync_error_class.go,
    and the rate-limit predicates of internal/service/sync.go)

    A failed sync is rendered for clients by matching the raw error against a
    fixed table of substrings; only the table's messages leave the enclave. *)

From S2P Require Import Prelude.
From stdpp Require Import base strings list.
From Stdlib Require Import Bool.

Module SyncError.

Definition msgExchangeUnreachable : string :=
  "could not reach the exchange endpoint".
Definition msgExchangeTimeout : string :=
  "the exchange request timed out".
Definition msgIPNotWhitelisted : string :=
  "server IP not whitelisted on the exchange".
Definition msgServiceUnavailable : string :=
  "service temporarily unavailable".
Definition MsgBrokerReauthRequired : string :=
  "broker authorization expired, please reconnect the account".
Definition MsgRateLimited : string :=
  "rate limited by the broker, retrying later".
Definition MsgExchangeNotConfigured : string :=
  "this broker is not configured on the enclave".
Definition MsgNoTradingAccount : string :=
  "no trading account found for this broker login".
Definition MsgUnknownServer : string :=
  "broker server name not recognized".
Definition MsgBrokerAccountsChanged : string :=
  "the broker report now covers different accounts than this connection, contact support to include them".
Definition MsgBrokerAccountMeasured : string :=
  "an account in this broker report is already connected, untick it in the report or add the others to the existing connection".

(** [categories]: first match wins. *)
Definition categories : list (string * string) := [
  ("unknown_server", MsgUnknownServer);
  (MsgUnknownServer, MsgUnknownServer);
  ("broker_accounts_changed", MsgBrokerAccountsChanged);
  ("broker_account_already_connected", MsgBrokerAccountMeasured);
  ("blocked_payload_type", MsgRateLimited);
  ("shared flex token cooling down", MsgRateLimited);
  ("could not be generated at this time", MsgRateLimited);
  ("statement generation in progress", MsgRateLimited);
  ("rate limited", MsgRateLimited);
  ("rate-limited", MsgRateLimited);
  ("too many requests", MsgRateLimited);
  ("http 429", MsgRateLimited);
  ("(429)", MsgRateLimited);
  ("access_denied", MsgBrokerReauthRequired);
  ("invalid_grant", MsgBrokerReauthRequired);
  ("token refresh rejected", MsgBrokerReauthRequired);
  ("access_token_invalid", MsgBrokerReauthRequired);
  ("refresh_token expired", MsgBrokerReauthRequired);
  ("missing access_token", MsgBrokerReauthRequired);
  ("missing refresh token", MsgBrokerReauthRequired);
  ("token refresh response missing", MsgBrokerReauthRequired);
  ("token refresh failed (http 400", MsgBrokerReauthRequired);
  ("token refresh failed (http 401", MsgBrokerReauthRequired);
  ("must be re-authorized", MsgBrokerReauthRequired);
  ("oauth token", MsgBrokerReauthRequired);
  ("ctrader_client_id", MsgExchangeNotConfigured);
  ("ctrader client credentials", MsgExchangeNotConfigured);
  ("no ctrader accounts found", MsgNoTradingAccount);
  ("no trading account", MsgNoTradingAccount);
  ("invalid credentials", "invalid credentials");
  ("invalid api key", "invalid API key");
  ("invalid signature", "invalid API signature");
  ("auth_failed", "authentication failed");
  ("unauthorized", "unauthorized");
  ("insufficient permission", "insufficient API key permissions");
  ("permission denied", "permission denied");
  ("ip not whitelist", msgIPNotWhitelisted);
  ("ip restricted", msgIPNotWhitelisted);
  ("whitelist", msgIPNotWhitelisted);
  ("no such host", msgExchangeUnreachable);
  ("connection refused", msgExchangeUnreachable);
  ("deadline exceeded", msgExchangeTimeout);
  ("timeout", msgExchangeTimeout);
  ("report currency not supported", "this currency is not available for reports");
  ("no final exchange rate", "the exchange rate for this currency is not available yet for part of the period");
  ("validation failed", "validation failed");
  ("protocol_error", "protocol error");
  ("failed to create connection", "failed to create connection");
  ("failed to create user", "failed to create user");
  ("already exists", "resource already exists");
  ("not found", "resource not found");
  ("database not configured", msgServiceUnavailable);
  ("sync service not available", msgServiceUnavailable);
  ("report service not available", msgServiceUnavailable);
  ("service not available", msgServiceUnavailable)
].

Definition Category (msg : string) : string :=
  let lower := ToLower msg in
  match find_first (λ c, Contains lower c.1) categories with
  | Some c => c.2
  | None => ""
  end.

Definition genericSyncFailure : string := "sync failed".

Definition egressSyncError (op err : string) : string :=
  let msg := Category err in
  let msg := if String.eqb msg "" then genericSyncFailure else msg in
  if String.eqb op "" then msg else (op +:+ ": " +:+ msg)%string.

Definition syncStatusMarker (sanitized : string) : string :=
  if String.eqb sanitized "" then ""
  else if Contains sanitized MsgBrokerReauthRequired then "reauth_required"
  else if Contains sanitized MsgRateLimited then "rate_limited"
  else "".

(** [connector.ErrTransient.Error()] *)
Definition ErrTransient : string := "transient connector error".

Definition isRateLimitError (errStr : string) : bool :=
  Contains errStr "1018" || Contains errStr "Too many requests" ||
  Contains errStr "shared flex token cooling down" ||
  Contains errStr (ErrTransient +:+ ": flex request failed:")%string ||
  Contains errStr MsgRateLimited.

(** [classifySyncError]: the log fingerprint of a raw error. *)
Definition classifySyncError (s : string) : string :=
  if Contains s "decryption failed" ||
     Contains s "decrypt api key" ||
     Contains s "decrypt api secret" ||
     Contains s "decrypt passphrase"
  then "sync: credential decrypt failure"
  else if String.prefix "create connector" s ||
     Contains s "unsupported exchange"
  then "sync: connector creation failed"
  else if Contains s "Api key info invalid" ||
     Contains s "API-key format invalid" ||
     Contains s "Signature for this request is not valid" ||
     Contains s "api key invalid" ||
     Contains s "Invalid API-key" ||
     Contains s "Invalid api key"
  then "sync: credential rejected by exchange"
  else if Contains s "missing access_token" ||
     Contains s "invalid_grant" ||
     Contains s "refresh_token expired" ||
     Contains s "token refresh rejected" ||
     Contains s "ACCESS_DENIED" ||
     Contains s "OAuth token" ||
     Contains s "oauth token"
  then "sync: OAuth refresh failed"
  else if Contains s "User status is abnormal" ||
     Contains s "account is suspended" ||
     Contains s "account suspended" ||
     Contains s "account disabled"
  then "sync: exchange account suspended"
  else if Contains s "restricted location" ||
     Contains s "geo-block" ||
     Contains s "not available in your region"
  then "sync: exchange geo-block"
  else if Contains s "Too many requests" ||
     Contains s "rate limit" ||
     Contains s "rate-limit" ||
     Contains s "HTTP 429"
  then "sync: rate limited"
  else if Contains s "Statement could not be generated" ||
     Contains s "flex request failed"
  then "sync: IBKR flex unavailable"
  else if Contains s "mt-bridge" ||
     Contains s "PROTOCOL_ERROR" ||
     Contains s "PROTOCOLERROR"
  then "sync: MT bridge error"
  else if Contains s "context deadline exceeded" ||
     Contains s "context canceled"
  then "sync: timeout"
  else if Contains s "no such host" ||
     Contains s "connection refused" ||
     Contains s "TLS handshake"
  then "sync: exchange unreachable"
  else "sync: snapshot build failed".

(** ** Properties *)

(** The messages a client can be shown, and the operations that prefix them. *)
Definition egress_messages : list string := genericSyncFailure :: categories.*2.

Definition egress_ops : list string :=
  ["manual sync blocked"; ""; "lookup connection"; "save snapshot"; "atomic save failed";
   "get credentials"; "create connector"; "get balance"].

Lemma Category_in err : Category err = "" ∨ Category err ∈ categories.*2.
Proof.
  unfold Category. destruct (find_first _ _) as [c|] eqn:E; [right|by left].
  apply find_first_some in E as (l1 & l2 & -> & _).
  rewrite fmap_app, elem_of_app, fmap_cons, elem_of_cons. auto.
Qed.

(** A decidable property of every rendering is checked on the finite table. *)
Lemma egress_cases (P : string → string → string → bool) err op :
  op ∈ egress_ops →
  forallb (λ o, forallb (λ m,
    P o m (if String.eqb o "" then (if String.eqb m "" then genericSyncFailure else m)
           else (o +:+ ": " +:+ (if String.eqb m "" then genericSyncFailure else m))%string))
    ("" :: categories.*2)) egress_ops = true →
  P op (Category err) (egressSyncError op err) = true.
Proof.
  intros Hop HP. rewrite forallb_forall in HP.
  specialize (HP op (proj1 (list_elem_of_In _ _) Hop)). rewrite forallb_forall in HP.
  apply HP, list_elem_of_In, elem_of_cons. exact (Category_in err).
Qed.

(** Nothing of a raw error leaves the enclave, and its class survives.
    For each operation the sync layer reports, the rendered error is the
    operation followed by one of the table's fixed messages, whatever the raw
    text was; the machine-readable marker computed from that rendering is
    reauth_required exactly when the raw error was classed as an expired
    authorization, and both the rate_limited marker and the predicate that
    arms a deferred retry hold exactly when it was classed as throttling. *)
Theorem egress_closed op err :
  op ∈ egress_ops →
  (∃ m, m ∈ egress_messages ∧
        egressSyncError op err = if String.eqb op "" then m else (op +:+ ": " +:+ m)%string) ∧
  (syncStatusMarker (egressSyncError op err) = "reauth_required" ↔
     Category err = MsgBrokerReauthRequired) ∧
  (syncStatusMarker (egressSyncError op err) = "rate_limited" ↔ Category err = MsgRateLimited) ∧
  (isRateLimitError (egressSyncError op err) = true ↔ Category err = MsgRateLimited).
Proof.
  intros Hop. split_and!.
  - exists (if String.eqb (Category err) "" then genericSyncFailure else Category err). split; [|done].
    unfold egress_messages. rewrite elem_of_cons.
    destruct (Category_in err) as [->|?]; [by left|]. case_match; auto.
  - rewrite <- !String.eqb_eq. apply eq_iff_eq_true.
    apply (eqb_prop (String.eqb (syncStatusMarker (egressSyncError op err)) "reauth_required")).
    apply (egress_cases (λ _ m r, Bool.eqb (String.eqb (syncStatusMarker r) "reauth_required")
                                           (String.eqb m MsgBrokerReauthRequired)) err op Hop).
    vm_compute. reflexivity.
  - rewrite <- !String.eqb_eq. apply eq_iff_eq_true.
    apply (eqb_prop (String.eqb (syncStatusMarker (egressSyncError op err)) "rate_limited")).
    apply (egress_cases (λ _ m r, Bool.eqb (String.eqb (syncStatusMarker r) "rate_limited")
                                           (String.eqb m MsgRateLimited)) err op Hop).
    vm_compute. reflexivity.
  - rewrite <- String.eqb_eq. apply eq_iff_eq_true.
    apply (eqb_prop (isRateLimitError (egressSyncError op err))).
    apply (egress_cases (λ _ m r, Bool.eqb (isRateLimitError r) (String.eqb m MsgRateLimited)) err op Hop).
    vm_compute. reflexivity.
Qed.

Lemma egress_closed_witness :
  isRateLimitError (egressSyncError "get balance" "flex: HTTP 429 for token=abc") = true.
Proof.
  apply (egress_closed "get balance" "flex: HTTP 429 for token=abc"); [apply (bool_decide_unpack _); vm_compute; reflexivity|].
  vm_compute. reflexivity.
Defined.

End SyncError.
