(* ===== verification/Window.v ===== *)
(** * When a connection is read, and from which instant
    (internal/service/sync.go, internal/repository/sync_status.go,
    internal/connector/ibkr.go, internal/scheduler/daily.go)

    The activity window, the every-sync reconstruction's day window, the due
    test, the status a finished attempt records, and the daily timer. *)

From S2P Require Import Prelude Num GoTime Types Store SyncError.
From stdpp Require Import base gmap strings list.
From Stdlib Require Import ZArith Lia.
Local Open Scope Z_scope.

Module Window.

(** ** sync_statuses *)

(** The repository, with the error its next query fails on, if any. *)
Record status_repo := mkStatusRepo {
  st_table : gmap (string * string * string) SyncStatus;
  st_fault : option string;
}.

Definition GetByUserExchangeLabel (r : status_repo) (user exchange label : string) : res SyncStatus :=
  match st_fault r with
  | Some e => Err e
  | None => match st_table r !! (user, exchange, label) with
            | Some st => Ok st
            | None => Err Store.ErrNotFound
            end
  end.

(** [last_sync_time = COALESCE(EXCLUDED.last_sync_time, sync_statuses.last_sync_time)] *)
Definition Upsert (r : status_repo) (s : SyncStatus) : status_repo :=
  match st_fault r with
  | Some _ => r
  | None =>
      let k := (st_UserUID s, st_Exchange s, st_Label s) in
      let last := match st_LastSyncTime s with
                  | Some t => Some t
                  | None => st_table r !! k ≫= st_LastSyncTime
                  end in
      mkStatusRepo
        (<[k := mkStatus (st_UserUID s) (st_Exchange s) (st_Label s) last (st_Status s)
                  (st_TotalTrades s) (st_ErrorMessage s)]> (st_table r)) None
  end.

(** ** Due connections *)

Definition isDueByInterval (lastSync : option time) (intervalMinutes : Z) (now : time) : bool :=
  let intervalMinutes := if intervalMinutes <=? 0 then 1440 else intervalMinutes in
  match lastSync with
  | None => true
  | Some last =>
      if Before now last then false
      else if 1440 <=? intervalMinutes then After (truncDay now) (truncDay last)
      else intervalMinutes * Minute <=? Sub now last
  end.

(** Every branch of a failed or empty lookup treats the connection as due. *)
Definition isConnectionDue (syncStatus : option status_repo) (conn : ExchangeConnection) (now : time) : bool :=
  match syncStatus with
  | None => true
  | Some r =>
      match GetByUserExchangeLabel r (ec_UserUID conn) (ec_Exchange conn) (ec_Label conn) with
      | Err _ => true
      | Ok status =>
          match st_LastSyncTime status with
          | None => true
          | Some last => isDueByInterval (Some last) (ec_SyncIntervalMinutes conn) now
          end
      end
  end.

Definition syncStatusStamp (status : string) (attempt : time) : option time :=
  if String.eqb status "error" then None else Some attempt.

Section result.
Context {F : Type}.

Definition rateLimited (r : SyncResult F) : bool :=
  sr_RateLimited r || SyncError.isRateLimitError (sr_Error r).

(** The [status] and [errMsg] of [recordSyncStatus]. *)
Definition status_of (r : SyncResult F) : string * string :=
  if sr_Skipped r then ("pending", "skipped_stale: " +:+ sr_SkipReason r)%string
  else if sr_RetryArmed r && negb (String.eqb (sr_Error r) "") then
    ("pending", "deferred_rate_limit: " +:+ sr_Error r)%string
  else if negb (String.eqb (SyncError.syncStatusMarker (sr_Error r)) "") then
    ("error", SyncError.syncStatusMarker (sr_Error r) +:+ ": " +:+ sr_Error r)%string
  else if sr_Success r then
    ("completed",
     if String.eqb (sr_Error r) "" && negb (bool_decide (sr_CapabilityWarnings r = []))
     then "warning: " +:+ Prelude.Join "," (sr_CapabilityWarnings r)
     else sr_Error r)%string
  else ("error", sr_Error r).

(** A persist error is logged and dropped. *)
Definition recordSyncStatus (syncStatus : option status_repo) (conn : option ExchangeConnection)
    (result : option (SyncResult F)) (lastAttempt : time) : option status_repo :=
  match syncStatus, conn, result with
  | Some r, Some c, Some res =>
      let '(status, errMsg) := status_of res in
      Some (Upsert r (mkStatus (ec_UserUID c) (ec_Exchange c) (ec_Label c)
                        (syncStatusStamp status lastAttempt) status (sr_TradeCount res) errMsg))
  | _, _, _ => syncStatus
  end.

End result.

(** ** The activity window *)

Definition defaultActivityWindow : duration := 24 * Hour.
Definition maxActivityLookback : duration := 30 * 24 * Hour.

(** start, widened, clamped *)
Definition resolveActivityWindow (startOfDay lastSnapshot : time) : time * bool * bool :=
  let fallback := startOfDay - defaultActivityWindow in
  if IsZero lastSnapshot || negb (Before lastSnapshot fallback) then (fallback, false, false)
  else
    let floor := startOfDay - maxActivityLookback in
    if Before lastSnapshot floor then (floor, true, true)
    else (lastSnapshot, true, false).

Definition normalizeExchange (exchange : string) : string :=
  let e := ToLower (TrimSpace exchange) in
  if String.eqb e "exness" then "mt5"
  else if String.eqb e "binanceusdm" then "binance_futures"
  else e.

Definition instantLedgerExchanges : list string :=
  ["binance"; "bitget"; "bybit"; "hyperliquid"; "okx"].

Definition lastLiveRead (syncStatus : option status_repo) (connMeta : option ExchangeConnection) : option time :=
  match syncStatus, connMeta with
  | Some r, Some c =>
      if negb (bool_decide (normalizeExchange (ec_Exchange c) ∈ instantLedgerExchanges)) then None
      else match GetByUserExchangeLabel r (ec_UserUID c) (ec_Exchange c) (ec_Label c) with
           | Err _ => None
           | Ok st => if negb (String.eqb (st_Status st) "completed") then None else st_LastSyncTime st
           end
  | _, _ => None
  end.

Definition resumeAfterLastRead (start startOfDay lastSnapshot : time) (lastRead : option time) : time :=
  match lastRead with
  | None => start
  | Some read =>
      if IsZero lastSnapshot then start
      else if Before read lastSnapshot || negb (Before read (lastSnapshot + 24 * Hour)) || negb (Before read startOfDay)
      then start
      else if After read start then read else start
  end.

(** The snapshot repository, with the error its reads fail on, if any. *)
Record snapshot_repo (F : Type) := mkSnapshotRepo {
  sp_schema : Store.schema;
  sp_table : list (Snapshot F);
  sp_fault : option string;
}.
Arguments mkSnapshotRepo {F}. Arguments sp_schema {F}. Arguments sp_table {F}. Arguments sp_fault {F}.

Section window.
Context {F : Type} {NF : Num F}.

(** A query that fails when the database does. *)
Definition query {A} (r : snapshot_repo F) (q : Store.schema → list (Snapshot F) → res A) : res A :=
  match sp_fault r with Some e => Err e | None => q (sp_schema r) (sp_table r) end.

Definition lastSnapshotTime (snapshotRepo : option (snapshot_repo F)) (connMeta : option ExchangeConnection) : time :=
  match snapshotRepo, connMeta with
  | Some r, Some c =>
      match query r (λ sch t, Store.GetLatestByUserExchangeLabel sch t (ec_UserUID c) (ec_Exchange c) (ec_Label c)) with
      | Ok latest => sn_Timestamp latest
      | Err _ => zero_time
      end
  | _, _ => zero_time
  end.

Definition activityWindowStart (snapshotRepo : option (snapshot_repo F)) (syncStatus : option status_repo)
    (connMeta : option ExchangeConnection) (startOfDay : time) : time :=
  let last := lastSnapshotTime snapshotRepo connMeta in
  let start := (resolveActivityWindow startOfDay last).1.1 in
  let resumed := resumeAfterLastRead start startOfDay last (lastLiveRead syncStatus connMeta) in
  if After resumed start then resumed else start.

End window.

(** ** Day windows *)

Record dayWindow := mkDayWindow { dw_from : time; dw_to : time }.

Definition no_window : dayWindow := mkDayWindow zero_time zero_time.

Definition isSet (w : dayWindow) : bool := negb (IsZero (dw_from w)) || negb (IsZero (dw_to w)).

Definition contains (w : dayWindow) (dayKey : time) : bool :=
  if negb (IsZero (dw_from w)) && Before dayKey (dw_from w) then false
  else if negb (IsZero (dw_to w)) && After dayKey (dw_to w) then false
  else true.

Definition dw_filter {F} (w : dayWindow) (hs : list (HistoricalSnapshot F)) : list (HistoricalSnapshot F) :=
  if negb (isSet w) then hs
  else filter (λ h, contains w (truncDay (hs_Date h)) = true) hs.

(** ** Statement days *)

(** [time.Weekday]: Sunday is 0. *)
Definition Weekday (t : time) : Z := (day_index t + 4) mod 7.

Definition is_weekend (t : time) : bool := (Weekday t =? 6) || (Weekday t =? 0).

(** The two loops step over a weekend: fuel 2 is enough, see
    [last_weekday_spec]. *)
Fixpoint back_to_weekday (fuel : nat) (d : time) : time :=
  match fuel with
  | O => d
  | S n => if is_weekend d then back_to_weekday n (d - Day) else d
  end.

Fixpoint on_to_weekday (fuel : nat) (d : time) : time :=
  match fuel with
  | O => d
  | S n => if is_weekend d then on_to_weekday n (d + Day) else d
  end.

Definition LastStatementDay (now : time) : time := back_to_weekday 2 (truncDay now - Day).

Definition statementPeriod (from to : time) : time * time * bool :=
  let from := on_to_weekday 2 (truncDay from) in
  let to := LastStatementDay (to + Day) in
  (from, to, negb (After from to)).

Definition lastExpectedStatementDate (startOfDay : time) : time := LastStatementDay startOfDay.

(** [asOf] is the connector's [BalanceAsOf], [None] when it has none. *)
Definition staleBalanceSkipReason (asOf : option time) (startOfDay : time) : string :=
  match asOf with
  | None => ""
  | Some asOf =>
      if IsZero asOf then ""
      else
        let expected := lastExpectedStatementDate startOfDay in
        if Before asOf expected then
          ("stale statement: balance as of " +:+ FormatDate asOf +:+ ", need >= " +:+ FormatDate expected
           +:+ " to stamp " +:+ FormatDate startOfDay)%string
        else ""
  end.

(** ** Nights, and the daily timer *)

Definition nightsUnfinalized (createdAt cutoff : time) : Z :=
  Z.quot (Sub cutoff (truncDay createdAt)) (24 * Hour).

Definition timeUntilMidnightUTC (now : time) : duration := Sub (midnight_plus now 1) now.

(** [executeDailySync] takes [work now] and the loop rearms from the time it
    ends at: the instants the timer fires at, [n] times. *)
Fixpoint firings (work : time → duration) (n : nat) (now : time) : list time :=
  match n with
  | O => []
  | S n' => let fire := now + timeUntilMidnightUTC now in
            fire :: firings work n' (fire + work fire)
  end.

(** ** Lemmas *)

Lemma resolve_bounds startOfDay last :
  let start := (resolveActivityWindow startOfDay last).1.1 in
  startOfDay - maxActivityLookback ≤ start ≤ startOfDay - defaultActivityWindow ∧
  (last ≠ zero_time → startOfDay - maxActivityLookback ≤ last → start ≤ last) ∧
  (last = zero_time → start = startOfDay - defaultActivityWindow).
Proof.
  unfold resolveActivityWindow, IsZero, Before, maxActivityLookback, defaultActivityWindow.
  go_if; cbn; go_cases; unfold zero_time, Hour, Minute, Second in *; lia.
Qed.

Lemma is_due_daily last interval now :
  interval ≤ 0 ∨ 1440 ≤ interval →
  isDueByInterval (Some last) interval now = true ↔ day_index last < day_index now.
Proof.
  intros Hi. unfold isDueByInterval, After, Before.
  assert ((1440 <=? (if interval <=? 0 then 1440 else interval)) = true) as -> by go_arith.
  rewrite <- truncDay_lt_iff. destruct (now <? last) eqn:E; [|apply Z.ltb_lt].
  apply Z.ltb_lt, Z.lt_le_incl, truncDay_mono in E. split; [done|lia].
Qed.

Lemma upsert_get r s u x l :
  st_fault r = None →
  GetByUserExchangeLabel (Upsert r s) u x l =
  if decide ((st_UserUID s, st_Exchange s, st_Label s) = (u, x, l)) then
    Ok (mkStatus (st_UserUID s) (st_Exchange s) (st_Label s)
          (match st_LastSyncTime s with Some t => Some t | None => st_table r !! (u, x, l) ≫= st_LastSyncTime end)
          (st_Status s) (st_TotalTrades s) (st_ErrorMessage s))
  else GetByUserExchangeLabel r u x l.
Proof.
  intros Hf. unfold Upsert, GetByUserExchangeLabel. rewrite Hf. cbn [st_table st_fault].
  case_decide as Hk; [rewrite <- Hk; by rewrite lookup_insert_eq|by rewrite lookup_insert_ne].
Qed.

Lemma weekday_next d : Weekday (d - Day) = (Weekday d - 1) mod 7.
Proof.
  unfold Weekday, day_index.
  replace ((d - Day) / Day) with (d / Day - 1).
  - rewrite Zminus_mod_idemp_l. f_equal. lia.
  - replace (d - Day) with (d + (-1) * Day) by lia. rewrite Z.div_add by (unfold Day, Hour, Minute, Second; lia). lia.
Qed.

(** Two steps back leave any weekend, passing over weekend days only. *)
Lemma back_to_weekday_spec d :
  is_weekend (back_to_weekday 2 d) = false ∧
  ∃ k, 0 ≤ k ≤ 2 ∧ back_to_weekday 2 d = d - k * Day ∧
       ∀ j, 0 ≤ j < k → is_weekend (d - j * Day) = true.
Proof.
  assert (is_weekend (d - Day) = ((Weekday d =? 0) || (Weekday d =? 1))) as Hw1.
  { unfold is_weekend. rewrite weekday_next. unfold Weekday.
    set (w := day_index d + 4). pose proof (Z.mod_pos_bound w 7).
    apply eq_iff_eq_true. rewrite !orb_true_iff, !Z.eqb_eq. dlia. }
  assert (is_weekend (d - Day - Day) = ((Weekday d =? 1) || (Weekday d =? 2))) as Hw2.
  { unfold is_weekend. rewrite !weekday_next. unfold Weekday.
    set (w := day_index d + 4). pose proof (Z.mod_pos_bound w 7).
    apply eq_iff_eq_true. rewrite !orb_true_iff, !Z.eqb_eq. dlia. }
  cbn. destruct (is_weekend d) eqn:E0; [destruct (is_weekend (d - Day)) eqn:E1|].
  - split.
    + rewrite Hw2. unfold is_weekend in E0. symmetry in Hw1.
      apply orb_true_iff in E0, Hw1. rewrite !Z.eqb_eq in E0, Hw1.
      apply orb_false_iff. rewrite !Z.eqb_neq. lia.
    + exists 2. split_and!; [lia|lia|lia|]. intros j Hj.
      assert (j = 0 ∨ j = 1) as [-> | ->] by lia;
        [replace (d - 0 * Day) with d by lia|replace (d - 1 * Day) with (d - Day) by lia]; done.
  - split; [done|]. exists 1. split_and!; [lia|lia|lia|]. intros j Hj.
    replace j with 0 by lia. by replace (d - 0 * Day) with d by lia.
  - split; [done|]. exists 0. split_and!; [lia|lia|lia|]. lia.
Qed.

Lemma until_midnight now : now + timeUntilMidnightUTC now = midnight_plus now 1.
Proof.
  unfold timeUntilMidnightUTC, midnight_plus. pose proof (truncDay_le now).
  rewrite Sub_exact; [lia|].
  unfold minDuration, maxDuration. assert (0 < Day < 2 ^ 62) by (vm_compute; done). lia.
Qed.

(** ** Properties *)

(** No activity is skipped and none is read twice.  Let [d0] be the day
    of the connection's latest stored row.  The window of a sync of day [d1]
    starts before [d1] and at most 30 days back, and 24 hours back on a first
    sync.  When the gap is within 30 days it starts no later than the instant
    the previous read began; and when that instant is known, it starts there
    exactly. *)
Theorem activity_window_no_gap {F : Type} {NF : Num F} (snaps : snapshot_repo F) status conn d1 :
  let d0 := lastSnapshotTime (Some snaps) (Some conn) in
  let w := activityWindowStart (Some snaps) status (Some conn) d1 in
  (d1 - maxActivityLookback ≤ w < d1) ∧
  (d0 = zero_time → w = d1 - defaultActivityWindow) ∧
  (d0 ≠ zero_time → d1 - maxActivityLookback ≤ d0 →
     ∀ read, d0 ≤ read →
       (∀ stamp, lastLiveRead status (Some conn) = Some stamp → stamp = read) → w ≤ read) ∧
  (d0 ≠ zero_time → d1 - maxActivityLookback ≤ d0 →
     ∀ read, lastLiveRead status (Some conn) = Some read →
       d0 ≤ read < d0 + 24 * Hour → read < d1 → w = read).
Proof.
  intros d0 w. destruct (resolve_bounds d1 d0) as (Hb & Hle & Hz).
  subst w. unfold activityWindowStart. fold d0.
  set (start := (resolveActivityWindow d1 d0).1.1) in *. clearbody d0 start.
  assert (0 < defaultActivityWindow) by (vm_compute; done).
  unfold resumeAfterLastRead, After, Before, IsZero.
  destruct (lastLiveRead status (Some conn)) as [stamp|]; cbn.
  2: { rewrite Z.ltb_irrefl. split_and!; [lia..|by auto| |done].
       intros Hn Hc read Hr _. specialize (Hle Hn Hc). lia. }
  split_and!.
  - go_arith.
  - go_arith.
  - go_arith.
  - intros Hn Hc read Hr Hst. rewrite <- (Hst stamp eq_refl) in *. specialize (Hle Hn Hc). go_arith.
  - intros Hn Hc read Hr Hin Hlt. simplify_eq. specialize (Hle Hn Hc).
    destruct (d0 =? zero_time) eqn:E; go_bool; [done|].
    destruct ((read <? d0) || negb (read <? d0 + 24 * Hour) || negb (read <? d1)) eqn:E2.
    + apply orb_true_iff in E2 as [[?|?]%orb_true_iff|?]; go_bool; lia.
    + go_arith.
Qed.

(** When an attempt counts.  After an attempt at [at_] whose result is
    recorded as an error the connection is due exactly when it was before;
    after any other recorded result a daily connection is due again exactly
    from the next UTC day on, and a faster one once its interval has passed.
    Other connections are not affected. *)
Theorem recorded_attempt_due {F : Type} (repo : status_repo) conn (res : SyncResult F) at_ :
  st_fault repo = None →
  let repo' := recordSyncStatus (Some repo) (Some conn) (Some res) at_ in
  let i := ec_SyncIntervalMinutes conn in
  ((status_of res).1 = "error" →
     ∀ now, isConnectionDue repo' conn now = isConnectionDue (Some repo) conn now) ∧
  ((status_of res).1 ≠ "error" → i ≤ 0 ∨ 1440 ≤ i →
     ∀ now, isConnectionDue repo' conn now = true ↔ day_index at_ < day_index now) ∧
  ((status_of res).1 ≠ "error" → 0 < i < 1440 →
     ∀ now, at_ ≤ now ≤ at_ + Day → isConnectionDue repo' conn now = true ↔ at_ + i * Minute ≤ now) ∧
  (∀ conn' now,
     (ec_UserUID conn, ec_Exchange conn, ec_Label conn) ≠
     (ec_UserUID conn', ec_Exchange conn', ec_Label conn') →
     isConnectionDue repo' conn' now = isConnectionDue (Some repo) conn' now).
Proof.
  intros Hf repo' i. subst repo'. unfold recordSyncStatus.
  destruct (status_of res) as [status msg] eqn:Hst. cbn [fst].
  unfold isConnectionDue. split_and!.
  - intros -> now. rewrite upsert_get, decide_True by done. cbn.
    unfold GetByUserExchangeLabel. rewrite Hf.
    destruct (st_table repo !! _) as [st|]; cbn; [|done]. by destruct (st_LastSyncTime st).
  - intros Hne Hi now. rewrite upsert_get, decide_True by done. cbn.
    unfold syncStatusStamp. rewrite (proj2 (String.eqb_neq _ _) Hne). by apply is_due_daily.
  - intros Hne Hi now Hnow. rewrite upsert_get, decide_True by done. cbn.
    unfold syncStatusStamp. rewrite (proj2 (String.eqb_neq _ _) Hne).
    unfold isDueByInterval. fold i. unfold Before.
    rewrite (proj2 (Z.leb_gt i 0)), (proj2 (Z.ltb_ge now at_)), (proj2 (Z.leb_gt 1440 i)) by lia.
    assert (0 < Day < 2 ^ 62) by (vm_compute; done).
    rewrite Z.leb_le, Sub_exact by (unfold minDuration, maxDuration; lia). lia.
  - intros conn' now Hk. by rewrite upsert_get, decide_False.
Qed.

(** The daily pass runs at every midnight.  As long as a pass takes less
    than a day, the timer armed at [now] and rearmed after each pass fires at
    the first, second, third, .. UTC midnight after [now], missing none. *)
Theorem firings_every_midnight work n now :
  (∀ t, 0 ≤ work t < Day) →
  firings work n now = (λ i, midnight_plus now (1 + Z.of_nat i)) <$> seq 0 n.
Proof.
  intros Hw. revert now. induction n as [|n IH]; intros now; [done|].
  cbn [firings seq fmap list_fmap]. rewrite until_midnight, IH. f_equal.
  rewrite <- fmap_S_seq, <- list_fmap_compose. apply list_fmap_ext. intros _ i _. cbn.
  unfold midnight_plus. specialize (Hw (truncDay now + 1 * Day)).
  replace (truncDay (truncDay now + 1 * Day + work (truncDay now + 1 * Day))) with (truncDay now + 1 * Day);
    [lia|].
  pose proof (truncDay_le (truncDay now + 1 * Day + work (truncDay now + 1 * Day))).
  assert (is_midnight (truncDay now + 1 * Day)) as Hm by (apply midnight_add, truncDay_midnight).
  set (x := truncDay now + 1 * Day) in *. set (y := truncDay (x + work x)) in *.
  assert (is_midnight y) as Hy by apply truncDay_midnight.
  destruct (Z.lt_trichotomy x y) as [Hlt|[?|Hlt]]; [|done|].
  - apply midnight_lt in Hlt; [lia|done|done].
  - apply midnight_lt in Hlt; [lia|done|done].
Qed.

(** A balance is stale when a business day is missing from it.  The
    newest statement day before [now] is a weekday strictly before [now]'s
    date, every day in between is a weekend day, and a statement dated
    [asOf] is skipped exactly when it is older than that day. *)
Theorem last_statement_day now :
  let d := LastStatementDay now in
  is_weekend d = false ∧ is_midnight d ∧ d < truncDay now ∧
  (∀ e, is_midnight e → d < e < truncDay now → is_weekend e = true) ∧
  (∀ asOf, asOf ≠ zero_time →
     staleBalanceSkipReason (Some asOf) now ≠ "" ↔ asOf < d).
Proof.
  unfold LastStatementDay. destruct (back_to_weekday_spec (truncDay now - Day)) as [Hw (k & Hk & Heq & Hbetween)].
  assert (is_midnight (truncDay now)) as Hm by apply truncDay_midnight.
  cbn zeta. split_and!; [done| | | |].
  - rewrite Heq. replace (truncDay now - Day - k * Day) with (truncDay now + (- (k + 1)) * Day) by lia.
    by apply midnight_add.
  - rewrite Heq. pose proof Day_pos. nia.
  - intros e He [H1 H2]. rewrite Heq in H1.
    apply midnight_lt in H2; [|done..].
    assert (∃ j, e = truncDay now - Day - j * Day) as [j ->].
    { exists (now / Day - 1 - e / Day). unfold is_midnight, truncDay in *. lia. }
    apply Hbetween. pose proof Day_pos. nia.
  - intros asOf Hz. unfold staleBalanceSkipReason, IsZero, Before, lastExpectedStatementDate, LastStatementDay.
    rewrite (proj2 (Z.eqb_neq _ _) Hz). rewrite <- Z.ltb_lt. destruct (asOf <? _); [|by split].
    split; done.
Qed.

(** *** Concrete instances *)

Definition sample_conn : ExchangeConnection :=
  mkConnection "c1" "user1" "binance" "main" 1440 true (sample_day 0).

Definition sample_status (at_ : time) : status_repo :=
  mkStatusRepo {[ ("user1", "binance", "main") :=
    mkStatus "user1" "binance" "main" (Some at_) "completed" 0 "" ]} None.

Definition sample_failure : SyncResult float64 :=
  mkResult "user1" "binance" "main" false 0 (b64 0) (sample_day 2) "get balance: sync failed"
    false [] false false "" None false.

Lemma recorded_attempt_due_witness :
  isConnectionDue (recordSyncStatus (Some (sample_status (sample_day 1))) (Some sample_conn)
                     (Some sample_failure) (sample_day 2 + 5)) sample_conn (sample_day 2 + 10) = true.
Proof.
  destruct (recorded_attempt_due (sample_status (sample_day 1)) sample_conn sample_failure
              (sample_day 2 + 5) eq_refl) as (He & _).
  etransitivity; [apply (He eq_refl)|]. vm_compute. reflexivity.
Defined.

Lemma firings_every_midnight_witness :
  firings (λ _, 30 * Minute) 2 (sample_day 0 + 5 * Hour) = [sample_day 1; sample_day 2].
Proof.
  etransitivity; [apply (firings_every_midnight (λ _, 30 * Minute)); intros; vm_compute; split; congruence|].
  vm_compute. reflexivity.
Defined.

End Window.
