(* ===== verification/Breakdown.v ===== *)
(** * The market breakdown of a live snapshot (internal/service/sync.go)

    Trades, funding fees and balances are folded into one bucket per market;
    the buckets and their totals become the stored breakdown. *)

From S2P Require Import Prelude Num GoTime Types.
From stdpp Require Import base gmap strings list.
From Stdlib Require Import ZArith Lia.
Local Open Scope Z_scope.

Module Breakdown.

(** The bucket names default to spot. *)
Definition bucket (marketType : string) : market := default MSpot (market_of_name marketType).

Section breakdown.
Context {F : Type} {NF : Num F}.

Record marketAgg := mkAgg {
  ma_equity : F;
  ma_availableMargin : F;
  ma_volume : F;
  ma_trades : Z;
  ma_fees : F;
  ma_fundingFees : F;
  ma_longTrades : Z;
  ma_shortTrades : Z;
  ma_longVolume : F;
  ma_shortVolume : F;
}.

Definition zero_agg : marketAgg := mkAgg f0 f0 f0 0 f0 f0 0 0 f0 f0.

(** [aggregatedBreakdown]: ten buckets, named by their market. *)
Definition aggregatedBreakdown : Type := market → marketAgg.

Definition empty_agg : aggregatedBreakdown := λ _, zero_agg.

Definition update (m : market) (f : marketAgg → marketAgg) (a : aggregatedBreakdown) : aggregatedBreakdown :=
  λ m', if decide (m' = m) then f (a m') else a m'.

(** ** Trades *)

Definition Notional (t : Trade F) : F :=
  if fltb f0 (tr_USDNotional t) then tr_USDNotional t
  else if fltb f0 (tr_Multiplier t) then fmul (fmul (tr_Price t) (tr_Quantity t)) (tr_Multiplier t)
  else fmul (tr_Price t) (tr_Quantity t).

Definition is_long (t : Trade F) : bool :=
  String.eqb (ToLower (tr_Side t)) "buy" || String.eqb (ToLower (tr_Side t)) "long".
Definition is_short (t : Trade F) : bool :=
  String.eqb (ToLower (tr_Side t)) "sell" || String.eqb (ToLower (tr_Side t)) "short".

Definition add_trade (t : Trade F) (ma : marketAgg) : marketAgg :=
  let volume := Notional t in
  let long := is_long t in
  let short := negb long && is_short t in
  mkAgg (ma_equity ma) (ma_availableMargin ma)
    (fadd (ma_volume ma) volume) (ma_trades ma + 1) (fadd (ma_fees ma) (tr_Fee t)) (ma_fundingFees ma)
    (if long then ma_longTrades ma + 1 else ma_longTrades ma)
    (if short then ma_shortTrades ma + 1 else ma_shortTrades ma)
    (if long then fadd (ma_longVolume ma) volume else ma_longVolume ma)
    (if short then fadd (ma_shortVolume ma) volume else ma_shortVolume ma).

Definition aggregateTrades (trades : list (Trade F)) : aggregatedBreakdown :=
  foldl (λ a t, update (bucket (tr_MarketType t)) (add_trade t) a) empty_agg trades.

(** ** Buckets *)

Definition hasAnyEquity (a : aggregatedBreakdown) : bool :=
  existsb (λ m, fltb f0 (ma_equity (a m))) all_markets.

Definition primaryMarketType (exchange : string) : string :=
  let e := ToLower exchange in
  if bool_decide (e ∈ ["alpaca"; "ibkr"]) then market_name MStocks
  else if bool_decide (e ∈ ["ctrader"; "mt4"; "mt5"; "ig"; "ig_demo"]) then market_name MCFD
  else if bool_decide (e ∈ ["okx"; "bybit"]) then market_name MSwap
  else market_name MSpot.

Definition hasData (m : marketAgg) : bool :=
  (0 <? ma_trades m) || fltb f0 (ma_equity m) || fltb f0 (ma_availableMargin m)
  || negb (feqb (ma_fundingFees m) f0).

Definition fundingMarketType (exchange : string) : string :=
  if bool_decide (ToLower exchange ∈ ["ig"; "ig_demo"; "ctrader"; "mt4"; "mt5"])
  then market_name MCFD else market_name MSwap.

(** Sums over the ten buckets, in the source's order. *)
Definition total_f (f : marketAgg → F) (a : aggregatedBreakdown) : F :=
  fadd (fadd (fadd (fadd (fadd (fadd (fadd (fadd (fadd (f (a MStocks)) (f (a MSpot))) (f (a MSwap)))
    (f (a MFutures))) (f (a MOptions))) (f (a MMargin))) (f (a MEarn))) (f (a MCFD)))
    (f (a MForex))) (f (a MCommodities)).

Definition total_Z (f : marketAgg → Z) (a : aggregatedBreakdown) : Z :=
  f (a MStocks) + f (a MSpot) + f (a MSwap) + f (a MFutures) + f (a MOptions)
  + f (a MMargin) + f (a MEarn) + f (a MCFD) + f (a MForex) + f (a MCommodities).

Definition totalVolume : aggregatedBreakdown → F := total_f ma_volume.
Definition totalFees : aggregatedBreakdown → F := total_f ma_fees.
Definition totalFundingFees : aggregatedBreakdown → F := total_f ma_fundingFees.
Definition totalLongTrades : aggregatedBreakdown → Z := total_Z ma_longTrades.
Definition totalShortTrades : aggregatedBreakdown → Z := total_Z ma_shortTrades.
Definition totalLongVolume : aggregatedBreakdown → F := total_f ma_longVolume.
Definition totalShortVolume : aggregatedBreakdown → F := total_f ma_shortVolume.

Definition set_fundingFees (v : F) (m : marketAgg) : marketAgg :=
  mkAgg (ma_equity m) (ma_availableMargin m) (ma_volume m) (ma_trades m) (ma_fees m) v
    (ma_longTrades m) (ma_shortTrades m) (ma_longVolume m) (ma_shortVolume m).

Definition set_equity (equity available : F) (m : marketAgg) : marketAgg :=
  mkAgg equity available (ma_volume m) (ma_trades m) (ma_fees m) (ma_fundingFees m)
    (ma_longTrades m) (ma_shortTrades m) (ma_longVolume m) (ma_shortVolume m).

Definition applyFundingFees (a : aggregatedBreakdown) (exchange : string) (fees : list (FundingFee F)) :
    aggregatedBreakdown * F :=
  let charges := fsum (ff_Amount <$> fees) in
  (if negb (feqb charges f0)
   then update (bucket (fundingMarketType exchange)) (set_fundingFees (fopp charges)) a
   else a, charges).

Definition enrichBreakdownWithBalances (a : aggregatedBreakdown) (balances : list (MarketBalance F)) :
    aggregatedBreakdown :=
  foldl (λ a mb,
    if feqb (mbal_Equity mb) f0 && feqb (mbal_AvailableMargin mb) f0 then a
    else update (bucket (mbal_MarketType mb)) (set_equity (mbal_Equity mb) (mbal_AvailableMargin mb)) a)
    a balances.

(** [byMarket]: the answer of [GetBalanceByMarket] when the connector has it. *)
Definition completeBreakdown (byMarket : option (res (list (MarketBalance F)))) (exchange : string)
    (a : aggregatedBreakdown) (balance : Balance F) : aggregatedBreakdown :=
  let a := match byMarket with
           | Some (Ok balances) => enrichBreakdownWithBalances a balances
           | _ => a
           end in
  if negb (hasAnyEquity a)
  then update (bucket (primaryMarketType exchange)) (set_equity (bal_Equity balance) (bal_Available balance)) a
  else a.

(** ** The stored form *)

Definition toRepoMetrics (m : marketAgg) : MarketMetrics F :=
  mkMetrics (ma_equity m) (ma_availableMargin m) (ma_volume m) (ma_trades m) (ma_fees m)
    (ma_fundingFees m) (ma_longTrades m) (ma_shortTrades m) (ma_longVolume m) (ma_shortVolume m) "" f0.

Definition clampAvailableMargin (available equity : F) : F :=
  if fltb equity available then equity else available.

Definition toRepo (a : aggregatedBreakdown) (globalEquity globalAvailableMargin : F) (totalTrades : Z) :
    MarketBreakdown F :=
  breakdown_of (λ m, if hasData (a m) then Some (toRepoMetrics (a m)) else None)
    (if fltb f0 globalEquity || (0 <? totalTrades)
     then Some (mkMetrics globalEquity (clampAvailableMargin globalAvailableMargin globalEquity)
                  (totalVolume a) totalTrades (totalFees a) (totalFundingFees a)
                  (totalLongTrades a) (totalShortTrades a) (totalLongVolume a) (totalShortVolume a) "" f0)
     else None).

(** ** Lemmas *)

Definition in_bucket (m : market) (t : Trade F) : Prop := bucket (tr_MarketType t) = m.

#[export] Instance in_bucket_dec m t : Decision (in_bucket m t).
Proof. unfold in_bucket. apply _. Defined.

(** Each bucket folds the trades of its own market, in order. *)
Lemma aggregate_bucket_from trades a m :
  foldl (λ a t, update (bucket (tr_MarketType t)) (add_trade t) a) a trades m =
  foldl (λ ma t, add_trade t ma) (a m) (filter (in_bucket m) trades).
Proof.
  revert a. induction trades as [|t trades IH]; intros a; [done|].
  rewrite filter_cons. cbn [foldl]. rewrite IH. unfold update, in_bucket.
  repeat case_decide; subst; try done; congruence.
Qed.

Lemma fold_add_trade trades ma :
  foldl (λ ma t, add_trade t ma) ma trades =
  mkAgg (ma_equity ma) (ma_availableMargin ma)
    (foldl fadd (ma_volume ma) (Notional <$> trades))
    (ma_trades ma + Z.of_nat (length trades))
    (foldl fadd (ma_fees ma) (tr_Fee <$> trades)) (ma_fundingFees ma)
    (ma_longTrades ma + Z.of_nat (length (filter (λ t, is_long t = true) trades)))
    (ma_shortTrades ma + Z.of_nat (length (filter (λ t, negb (is_long t) && is_short t = true) trades)))
    (foldl fadd (ma_longVolume ma) (Notional <$> filter (λ t, is_long t = true) trades))
    (foldl fadd (ma_shortVolume ma) (Notional <$> filter (λ t, negb (is_long t) && is_short t = true) trades)).
Proof.
  revert ma. induction trades as [|t trades IH]; intros ma.
  - cbn. rewrite !Z.add_0_r. by destruct ma.
  - rewrite !filter_cons. cbn [foldl]. rewrite IH. unfold add_trade.
    destruct (is_long t), (is_short t);
      cbn [negb andb ma_equity ma_availableMargin ma_volume ma_trades ma_fees ma_fundingFees
           ma_longTrades ma_shortTrades ma_longVolume ma_shortVolume length fmap list_fmap foldl];
      repeat case_decide; try done; cbn [length fmap list_fmap foldl]; f_equal; lia.
Qed.

Lemma length_bucket_cons m t trades :
  length (filter (in_bucket m) (t :: trades)) =
  ((if market_eq_dec (bucket (tr_MarketType t)) m then 1 else 0) + length (filter (in_bucket m) trades))%nat.
Proof.
  rewrite filter_cons. unfold in_bucket at 1.
  destruct (market_eq_dec (bucket (tr_MarketType t)) m); case_decide; done.
Qed.

Lemma total_Z_filter trades (f : marketAgg → Z) :
  (∀ m, f (aggregateTrades trades m) = Z.of_nat (length (filter (in_bucket m) trades))) →
  total_Z f (aggregateTrades trades) = Z.of_nat (length trades).
Proof.
  intros Hf. unfold total_Z. rewrite !Hf. clear Hf f.
  induction trades as [|t trades IH]; [done|]. rewrite !length_bucket_cons.
  destruct (bucket (tr_MarketType t)); cbn [market_eq_dec]; cbn; lia.
Qed.

Lemma existsb_markets (p : market → bool) : existsb p all_markets = true ↔ ∃ m, p m = true.
Proof.
  rewrite existsb_exists. split; [naive_solver|]. intros [m Hm]. exists m.
  split; [apply list_elem_of_In, all_markets_complete|done].
Qed.

Lemma clamp_le `{!NumOrd F} available equity :
  fis_nan available = false → fis_nan equity = false →
  fleb (clampAvailableMargin available equity) equity = true.
Proof.
  intros Ha He. unfold clampAvailableMargin. destruct (fltb equity available) eqn:E.
  - by apply fleb_refl.
  - by apply fltb_total.
Qed.

(** ** Properties *)

(** Every trade is counted once, in its own market.  A bucket's volume,
    fees and long and short volumes are the running float sums, in order, of
    exactly the trades of its market (an unknown market counts as spot), its
    counts are their numbers, and the buckets' trades add up to the number of
    trades read. *)
Theorem trades_conserved (trades : list (Trade F)) :
  (∀ m, let own := filter (in_bucket m) trades in
        let b := aggregateTrades trades m in
        ma_trades b = Z.of_nat (length own) ∧
        ma_volume b = fsum (Notional <$> own) ∧
        ma_fees b = fsum (tr_Fee <$> own) ∧
        ma_longTrades b = Z.of_nat (length (filter (λ t, is_long t = true) own)) ∧
        ma_longVolume b = fsum (Notional <$> filter (λ t, is_long t = true) own) ∧
        ma_shortTrades b = Z.of_nat (length (filter (λ t, negb (is_long t) && is_short t = true) own)) ∧
        ma_shortVolume b = fsum (Notional <$> filter (λ t, negb (is_long t) && is_short t = true) own)) ∧
  total_Z ma_trades (aggregateTrades trades) = Z.of_nat (length trades).
Proof.
  assert (∀ m, aggregateTrades trades m = foldl (λ ma t, add_trade t ma) zero_agg (filter (in_bucket m) trades))
    as Hb by (intros; unfold aggregateTrades; by rewrite aggregate_bucket_from).
  split.
  - intros m own b. subst b. rewrite Hb, fold_add_trade. fold own.
    cbn [ma_trades ma_volume ma_fees ma_longTrades ma_longVolume ma_shortTrades ma_shortVolume zero_agg].
    split_and!; (done || lia).
  - apply total_Z_filter. intros m. rewrite Hb, fold_add_trade.
    cbn [ma_trades zero_agg]. lia.
Qed.

(** What a live snapshot stores.  The stored breakdown leaves out only
    buckets without a trade, equity, margin or funding, and a kept bucket is
    stored number for number; the global entry, present as soon as there is
    equity or a trade, carries the buckets' totals and never more margin than
    equity.  Once the breakdown has been completed with a positive balance
    some market is stored, which is what later marks the row as measured. *)
Theorem stored_breakdown `{!NumOrd F} (a : aggregatedBreakdown) byMarket exchange (balance : Balance F) totalTrades :
  let c := completeBreakdown byMarket exchange a balance in
  let b := toRepo c (bal_Equity balance) (bal_Available balance) totalTrades in
  (∀ m, match breakdown_market b m with
        | Some s => s = toRepoMetrics (c m)
        | None => ma_trades (c m) ≤ 0 ∧ fltb f0 (ma_equity (c m)) = false ∧
                  fltb f0 (ma_availableMargin (c m)) = false ∧ feqb (ma_fundingFees (c m)) f0 = true
        end) ∧
  (fltb f0 (bal_Equity balance) = true →
     (∃ m, is_Some (breakdown_market b m)) ∧
     ∃ g, mb_Global b = Some g ∧ mm_Equity g = bal_Equity balance ∧ mm_Trades g = totalTrades ∧
          mm_Volume g = totalVolume c ∧ mm_TradingFees g = totalFees c ∧
          mm_FundingFees g = totalFundingFees c ∧
          (fis_nan (bal_Available balance) = false → fis_nan (bal_Equity balance) = false →
           fleb (mm_AvailableMargin g) (mm_Equity g) = true)).
Proof.
  intros c b. subst b. unfold toRepo. split.
  - intros m. rewrite breakdown_of_market. destruct (hasData (c m)) eqn:E; [done|].
    unfold hasData in E. go_bool. done.
  - intros Hpos. split.
    + assert (hasAnyEquity c = true) as Hc.
      { subst c. unfold completeBreakdown. cbn zeta.
        set (a' := match byMarket with Some (Ok _) => _ | _ => _ end).
        destruct (hasAnyEquity a') eqn:E; cbn [negb]; [done|].
        apply existsb_markets. exists (bucket (primaryMarketType exchange)).
        unfold update. by rewrite decide_True. }
      apply existsb_markets in Hc as [m Hm]. exists m. rewrite breakdown_of_market.
      unfold hasData. rewrite Hm, orb_true_r. cbn. done.
    + rewrite Hpos. cbn [orb mb_Global breakdown_of]. eexists. split; [done|].
      cbn [mm_Equity mm_Trades mm_Volume mm_TradingFees mm_FundingFees mm_AvailableMargin].
      split_and!; [done..|]. apply clamp_le.
Qed.

End breakdown.

(** *** Concrete instances *)

Definition sample_balance (equity available : Z) : Balance float64 :=
  mkBalance (b64 available) (b64 equity) (b64 0) "USD" ∅.

(** An idle IG account with more free margin than equity. *)
Lemma stored_breakdown_witness :
  ∃ g, mb_Global (toRepo (completeBreakdown None "ig" empty_agg (sample_balance 100 120))
                    (b64 100) (b64 120) 0) = Some g ∧
       fleb (mm_AvailableMargin g) (mm_Equity g) = true.
Proof.
  destruct (stored_breakdown empty_agg None "ig" (sample_balance 100 120) 0) as [_ [_ Hg]];
    [vm_compute; reflexivity|].
  destruct Hg as (g & Hg & _ & _ & _ & _ & _ & Hle). exists g. split; [exact Hg|].
  apply Hle; vm_compute; reflexivity.
Defined.

End Breakdown.
