(* ===== verification/Activity.v ===== *)
(** * Connectors and the activity they report
    (internal/connector/interface.go, and [readActivity] and its helpers in
    internal/service/sync.go)

    A venue is a [connector]: a record of the calls the sync makes on it.  The
    optional Go interfaces a connector may implement are [option] fields.  The
    venues themselves are outside the model: every theorem holds for any
    record of answers. *)

From S2P Require Import Prelude Num GoTime Types Breakdown.
From stdpp Require Import base gmap strings list.
From Stdlib Require Import ZArith Lia.
Local Open Scope Z_scope.

Module Activity.

(** The errors the sync tells apart ([errors.Is]); wrapping keeps the kind. *)
Inductive conn_error :=
| StatementNotPublished (msg : string)
| FlexTokenBusy (msg : string)
| OtherError (msg : string).

Definition err_text (e : conn_error) : string :=
  match e with StatementNotPublished m | FlexTokenBusy m | OtherError m => m end.

Definition err_wrap (prefix : string) (e : conn_error) : conn_error :=
  match e with
  | StatementNotPublished m => StatementNotPublished (prefix +:+ m)
  | FlexTokenBusy m => FlexTokenBusy (prefix +:+ m)
  | OtherError m => OtherError (prefix +:+ m)
  end.

(** The errors of a statement read for a chosen period: a token another read
    holds until [retryAt] ([FlexRetryAt]), no statement for the period
    ([ErrStatementUnavailable]), anything else. *)
Inductive period_error :=
| PeriodBusy (retryAt : time) (msg : string)
| PeriodUnavailable (msg : string)
| PeriodOther (msg : string).

Definition period_err_text (e : period_error) : string :=
  match e with PeriodBusy _ m | PeriodUnavailable m | PeriodOther m => m end.

Section activity.
Context {F : Type} {NF : Num F}.

(** [GetHistoricalSnapshotsForPeriod]: the answer to attempt [k] at the
    [n]-th statement of a backfill. *)
Definition period_provider : Type :=
  nat → nat → time → time → list (HistoricalSnapshot F) * option period_error.

Record connector := mkConnector {
  (** the answer to the n-th call of [GetBalance] of a sync *)
  cn_GetBalance : nat → Balance F + conn_error;
  (** trades, possibly partial, and an error the callers ignore *)
  cn_GetTrades : time → time → list (Trade F) * option string;
  cn_GetFundingFees : option (list string → time → res (list (FundingFee F)));
  (** a nil slice is [None] *)
  cn_GetCashflows : option (time → res (option (list (Cashflow F))));
  cn_GetBalanceByMarket : option (res (list (MarketBalance F)));
  cn_BalanceAsOf : option time;
  cn_CapabilityWarnings : option (list string);
  cn_GetHistoricalSnapshots : option (time → list (HistoricalSnapshot F) + conn_error);
  (** a statement broker also reads a chosen period *)
  cn_GetHistoricalSnapshotsForPeriod : option period_provider;
}.

(** [rebuiltDays]: the days a reconstruction wrote in this pass. *)
Definition calendarDay (t : time) : time := truncDay t.

Definition rebuiltDays_add (d : gset Z) (days : list (Snapshot F)) : gset Z :=
  foldl (λ d sn, {[calendarDay (sn_Timestamp sn)]} ∪ d) d days.

Definition rebuiltDays_has (d : gset Z) (t : time) : bool := bool_decide (calendarDay t ∈ d).

Record liveActivity := mkActivity {
  la_trades : list (Trade F);
  la_breakdown : Breakdown.aggregatedBreakdown (F := F);
  la_fundingCharges : F;
  la_deposits : F;
  la_withdrawals : F;
  la_cashflows : option (list (Cashflow F));
}.

Definition appendUnique (l : list string) (s : string) : list string :=
  if existsb (String.eqb s) l then l else l ++ [s].

(** The running sums of a list of flows: deposits, then withdrawals. *)
Definition add_flow (acc : F * F) (cf : Cashflow F) : F * F :=
  if is_deposit cf then (fadd acc.1 (cf_Amount cf), acc.2)
  else (acc.1, fsub acc.2 (cf_Amount cf)).

Definition sum_flows (l : list (Cashflow F)) : F * F := foldl add_flow (f0, f0) l.

Definition readCashflows (conn : connector) (from : time) (booked : gset Z) :
    F * F * option (list (Cashflow F)) :=
  match cn_GetCashflows conn with
  | None => (f0, f0, None)
  | Some get =>
      match get from with
      | Err _ => (f0, f0, None)
      | Ok cashflows =>
          let kept := filter (λ cf, rebuiltDays_has booked (cf_Timestamp cf) = false) <$> cashflows in
          (sum_flows (default [] kept), kept)
      end
  end.

Definition swap_symbols (trades : list (Trade F)) : list string :=
  foldl (λ acc t, if String.eqb (tr_MarketType t) (market_name MSwap) then appendUnique acc (tr_Symbol t) else acc)
    [] trades.

Definition readActivity (conn : connector) (exchange : string) (from now : time) (booked : gset Z) : liveActivity :=
  let trades := filter (λ t, rebuiltDays_has booked (tr_Timestamp t) = false) (cn_GetTrades conn from now).1 in
  let breakdown := Breakdown.aggregateTrades trades in
  let '(breakdown, charges) :=
    match cn_GetFundingFees conn with
    | Some get =>
        match get (swap_symbols trades) from with
        | Ok fees => Breakdown.applyFundingFees breakdown exchange fees
        | Err _ => (breakdown, f0)
        end
    | None => (breakdown, f0)
    end in
  let '(deposits, withdrawals, cashflows) := readCashflows conn from booked in
  mkActivity trades breakdown charges deposits withdrawals cashflows.

(** The connector's key-scope gaps, each recorded once. *)
Definition collectCapabilityWarnings (conn : connector) (warnings : list string) : list string :=
  foldl appendUnique warnings (default [] (cn_CapabilityWarnings conn)).

(** ** Lemmas *)

Lemma sum_flows_from l acc :
  foldl add_flow acc l =
  (foldl fadd acc.1 (cf_Amount <$> filter (λ cf, is_deposit cf = true) l),
   foldl fsub acc.2 (cf_Amount <$> filter (λ cf, is_deposit cf = false) l)).
Proof.
  revert acc. induction l as [|cf l IH]; intros [dep wd]; [done|].
  rewrite !filter_cons. cbn [foldl]. rewrite IH. unfold add_flow.
  destruct (is_deposit cf) eqn:E; repeat case_decide; try done.
Qed.

Lemma appendUnique_elem l s x : x ∈ appendUnique l s ↔ x ∈ l ∨ x = s.
Proof.
  unfold appendUnique. destruct (existsb _ l) eqn:E; [|set_solver].
  apply existsb_exists in E as (y & Hy%list_elem_of_In & ->%String.eqb_eq). set_solver.
Qed.

Lemma appendUnique_nodup l s : NoDup l → NoDup (appendUnique l s).
Proof.
  intros Hl. unfold appendUnique. destruct (existsb _ l) eqn:E; [done|].
  apply NoDup_app. split_and!; [done| |by apply NoDup_singleton].
  intros x Hx ->%list_elem_of_singleton.
  assert (existsb (String.eqb s) l = true) as E'; [|congruence].
  apply existsb_exists. exists s. split; [by apply list_elem_of_In|apply String.eqb_refl].
Qed.

Lemma fold_appendUnique l0 l x : x ∈ foldl appendUnique l0 l ↔ x ∈ l0 ∨ x ∈ l.
Proof.
  revert l0. induction l as [|s l IH]; intros l0; cbn [foldl]; [set_solver|].
  rewrite IH, appendUnique_elem. set_solver.
Qed.

End activity.
Arguments period_provider F : clear implicits.
Arguments connector F : clear implicits.
Arguments liveActivity F : clear implicits.
End Activity.
