(* ===== verification/Fx.v ===== *)
(** * Conversion of non-USD accounts (internal/service/fx.go and
    internal/service/fx_backfill.go)

    Every balance is multiplied by the final USD rate of the day it was
    measured on, every flow by that of its own day, before anything is
    stored.  The rate service is a parameter: [fx_source]. *)

From S2P Require Import Prelude Num GoTime Types Store Breakdown Window Activity.
From stdpp Require Import base gmap strings list sorting pretty.
From Stdlib Require Import ZArith Lia.
Local Open Scope Z_scope.

Module Fx.

Definition fxConvertible : list string :=
  ["EUR"; "GBP"; "CHF"; "JPY"; "CAD"; "AUD"; "NZD"; "HKD"; "SGD"; "SEK"; "NOK"; "DKK";
   "PLN"; "CZK"; "HUF"; "ILS"; "MXN"; "ZAR"; "CNY"; "TRY"; "INR"; "KRW"; "BRL"].

Definition fxConvertedExchanges : list string := ["ibkr"; "ctrader"].

Definition convertsExchange (exchange : string) : bool :=
  bool_decide (ToLower (TrimSpace exchange) ∈ fxConvertedExchanges).

Definition fiatToConvert (currency : string) : string * bool :=
  let c := ToUpper (TrimSpace currency) in (c, bool_decide (c ∈ fxConvertible)).

Definition trustsCashflowCurrency (exchange : string) : bool := EqualFold exchange "ibkr".

Definition dayKey (t : time) : string := FormatDate t.

Definition denominationOf (currency : string) : string * bool :=
  let '(c, convert) := fiatToConvert currency in
  if convert then (c, true)
  else if String.eqb c "" || String.eqb c "USD" then ("USD", true)
  else (c, false).

Definition backfillsStoredRows (exchange : string) : bool := negb (EqualFold exchange "ibkr").

Definition storedMeasuredOn (exchange : string) (ts : time) : time :=
  if EqualFold exchange "ibkr" then truncDay ts else truncDay ts - 24 * Hour.

Definition errNoStoredSnapshots : string := "no snapshots".

(** The text of an absent final rate. *)
Definition noRate (ccy : string) (day : time) : string := (ccy +:+ " " +:+ dayKey day)%string.

Section fx.
Context {F : Type} {NF : Num F}.

Abbreviation fxRates := (gmap string (gmap string F)).

(** [fxRateSource.FinalRatesToUSD], for a currency and two days. *)
Definition fx_source : Type := string → time → time → res (gmap string F).

Definition flowCurrency (cf : Cashflow F) (account : string) (trusted : bool) : string :=
  if trusted then
    let c := ToUpper (TrimSpace (cf_Currency cf)) in
    if (String.length c =? 3)%nat && negb (String.eqb c "BASE_SUMMARY") then c else account
  else account.

Definition rate (r : fxRates) (currency : string) (day : time) : option F :=
  if String.eqb currency "USD" then Some f1
  else match r !! currency ≫= lookup (dayKey day) with
       | Some v => if fltb f0 v then Some v else None
       | None => None
       end.

(** The currencies are visited in the order of the list, which stands for the
    iteration over the Go set. *)
Fixpoint loadFXRates (src : fx_source) (currencies : list string) (from to : time) (out : fxRates) : res fxRates :=
  match currencies with
  | [] => Ok out
  | c :: rest =>
      if String.eqb c "USD" then loadFXRates src rest from to out
      else if negb (fiatToConvert c).2 then Err ("no USD rate is served for " +:+ c)%string
      else match src c from to with
           | Err e => Err ("fx rates " +:+ c +:+ ": " +:+ e)%string
           | Ok rates => loadFXRates src rest from to (<[c := rates]> out)
           end
  end.

(** [Err] is the first currency and day missing a rate. *)
Fixpoint convertFlows_from (flows : list (Cashflow F)) (account : string) (trusted : bool) (latest : time)
    (rates : fxRates) (acc : F * F) : res (F * F) :=
  match flows with
  | [] => Ok acc
  | cf :: rest =>
      if feqb (cf_Amount cf) f0 then convertFlows_from rest account trusted latest rates acc
      else
        let ccy := flowCurrency cf account trusted in
        let day := truncDay (cf_Timestamp cf) in
        let day := if After day latest then latest else day in
        match rate rates ccy day with
        | None => Err (noRate ccy day)
        | Some r =>
            convertFlows_from rest account trusted latest rates
              (if is_deposit cf then (fadd acc.1 (fmul (cf_Amount cf) r), acc.2)
               else (acc.1, fsub acc.2 (fmul (cf_Amount cf) r)))
        end
  end.

Definition convertFlows (flows : list (Cashflow F)) (account : string) (trusted : bool) (latest : time)
    (rates : fxRates) : res (F * F) :=
  convertFlows_from flows account trusted latest rates (f0, f0).

(** ** Stamps *)

Definition zero_metrics : MarketMetrics F := mkMetrics f0 f0 f0 0 f0 f0 0 0 f0 f0 "" f0.

Definition stamp_metrics (currency : string) (r : F) (m : MarketMetrics F) : MarketMetrics F :=
  mkMetrics (mm_Equity m) (mm_AvailableMargin m) (mm_Volume m) (mm_Trades m) (mm_TradingFees m)
    (mm_FundingFees m) (mm_LongTrades m) (mm_ShortTrades m) (mm_LongVolume m) (mm_ShortVolume m) currency r.

Definition stampFX (b : MarketBreakdown F) (currency : string) (r : F) : MarketBreakdown F :=
  if fleb r f0 then b
  else set_breakdown_global (Some (stamp_metrics currency r (default zero_metrics (mb_Global b)))) b.

Definition global_of (r : Snapshot F) : option (MarketMetrics F) := sn_Breakdown r ≫= mb_Global.

Definition stampedDenomination (r : Snapshot F) : string := from_option mm_NativeCurrency "" (global_of r).

Definition stampedRate (r : Snapshot F) : F := from_option mm_FXRateToUSD f0 (global_of r).

Definition storedDayDenomination (r : Snapshot F) : string :=
  let d := stampedDenomination r in if String.eqb d "" then "USD" else d.

Definition newestDenomination (rows : list (Snapshot F)) (exchange label : string) : string :=
  from_option stampedDenomination ""
    (Store.latest_of (filter (λ r, String.eqb (sn_Exchange r) exchange && String.eqb (sn_Label r) label
                                   && negb (String.eqb (stampedDenomination r) "") = true) rows)).

(** [GetByUserAndDateRange(userUID, time.Unix(0, 0), time.Now()+24h)] *)
Definition storedRows (repo : Window.snapshot_repo F) (user : string) (now : time) : res (list (Snapshot F)) :=
  Window.query repo (λ sch t, Ok (Store.getByUserAndDateRange sch t user 0 (now + 24 * Hour))).

Definition storedDenomination (repo : option (Window.snapshot_repo F)) (c : ExchangeConnection) (now : time) : string :=
  match repo with
  | None => ""
  | Some r => match storedRows r (ec_UserUID c) now with
              | Err _ => ""
              | Ok rows => newestDenomination rows (ec_Exchange c) (ec_Label c)
              end
  end.

(** from, to, ok *)
Definition rewritesInAnotherCurrency (rebuilt stored : list (Snapshot F)) (exchange label : string) :
    string * string * bool :=
  let to := foldl (λ to r, let d := stampedDenomination r in if String.eqb d "" then to else d) "" rebuilt in
  let from := newestDenomination stored exchange label in
  (from, to, negb (String.eqb from "") && negb (String.eqb to "") && negb (String.eqb from to)).

Definition restateFlow (from to : string) (r : F) (cf : Cashflow F) : Cashflow F :=
  if String.eqb (cf_Currency cf) from then mkCashflow (fdiv (cf_Amount cf) r) to (cf_Timestamp cf) else cf.

Definition restateFlows (flows : list (Cashflow F)) (from to : string) (r : F) : list (Cashflow F) :=
  restateFlow from to r <$> flows.

(** ** The live reading *)

Record liveFX := mkLiveFX { fx_currency : string; fx_rate : F }.

Definition no_fx : liveFX := mkLiveFX "" f0.

Definition liveMeasuredOn (conn : Activity.connector F) (startOfDay : time) : time :=
  match Activity.cn_BalanceAsOf conn with
  | Some asOf => if IsZero asOf then startOfDay - 24 * Hour else truncDay asOf
  | None => startOfDay - 24 * Hour
  end.

(** Every balance of a reading under [f], and its currency. *)
Definition map_balance (f : F → F) (currency : string) (b : Balance F) : Balance F :=
  mkBalance (f (bal_Available b)) (f (bal_Equity b)) (f (bal_UnrealizedPnL b)) currency (bal_BaseRates b).

Definition map_agg (f : F → F) (a : Breakdown.aggregatedBreakdown) : Breakdown.aggregatedBreakdown :=
  λ m, Breakdown.set_equity (f (Breakdown.ma_equity (a m))) (f (Breakdown.ma_availableMargin (a m))) (a m).

Definition set_activity (a : Activity.liveActivity F) (b : Breakdown.aggregatedBreakdown) (dep wd : F)
    (flows : option (list (Cashflow F))) : Activity.liveActivity F :=
  Activity.mkActivity (Activity.la_trades a) b (Activity.la_fundingCharges a) dep wd flows.

Definition applyLiveFX (balance : Balance F) (act : Activity.liveActivity F) (currency : string) (trusted : bool)
    (measured : time) (rates : fxRates) : res (liveFX * Balance F * Activity.liveActivity F) :=
  match rate rates currency measured with
  | None => Err (noRate currency measured)
  | Some r =>
      match convertFlows (default [] (Activity.la_cashflows act)) currency trusted measured rates with
      | Err missing => Err missing
      | Ok (dep, wd) =>
          Ok (mkLiveFX currency r, map_balance (λ x, fmul x r) "USD" balance,
              set_activity act (map_agg (λ x, fmul x r) (Activity.la_breakdown act)) dep wd
                (Activity.la_cashflows act))
      end
  end.

Definition restateLive (balance : Balance F) (act : Activity.liveActivity F) (from to : string) (r : F) :
    Balance F * Activity.liveActivity F :=
  let b := map_agg (λ x, fdiv x r) (Activity.la_breakdown act) in
  (map_balance (λ x, fdiv x r) to balance,
   match Activity.la_cashflows act with
   | None => set_activity act b (fdiv (Activity.la_deposits act) r) (fdiv (Activity.la_withdrawals act) r) None
   | Some flows => set_activity act b (Activity.la_deposits act) (Activity.la_withdrawals act)
                     (Some (restateFlows flows from to r))
   end).

Definition applyLiveUSD (act : Activity.liveActivity F) (trusted : bool) (measured : time) (rates : fxRates) :
    res (liveFX * Activity.liveActivity F) :=
  match Activity.la_cashflows act with
  | None => Ok (mkLiveFX "USD" f1, act)
  | Some flows =>
      match convertFlows flows "USD" trusted measured rates with
      | Err missing => Err ("no final USD rate for " +:+ missing)%string
      | Ok (dep, wd) =>
          Ok (mkLiveFX "USD" f1, set_activity act (Activity.la_breakdown act) dep wd (Some flows))
      end
  end.

(** ** Reconstructed rows *)

Definition set_history (h : HistoricalSnapshot F) (equity realized dep wd : F)
    (breakdown : list (string * MarketBalance F)) (currency : string)
    (flows : option (list (Cashflow F))) (r : F) : HistoricalSnapshot F :=
  mkHistorical (hs_Date h) equity realized dep wd (hs_TotalTrades h) (hs_TotalVolume h) (hs_TotalFees h)
    (hs_FundingFees h) (hs_LongTrades h) (hs_ShortTrades h) (hs_LongVolume h) (hs_ShortVolume h)
    breakdown currency (hs_MeasuredOn h) flows r (hs_BaseRates h).

Definition map_market_balance (f : F → F) (e : string * MarketBalance F) : string * MarketBalance F :=
  (e.1, mkMarketBalance (mbal_MarketType e.2) (f (mbal_Equity e.2)) (f (mbal_AvailableMargin e.2))).

Definition convertHistoricalRow (h : HistoricalSnapshot F) (currency : string) (trusted : bool)
    (measured : time) (rates : fxRates) : res (HistoricalSnapshot F) :=
  match rate rates currency measured with
  | None => Err (noRate currency measured)
  | Some r =>
      let flows :=
        match hs_Cashflows h with
        | None => Ok (fmul (hs_Deposits h) r, fmul (hs_Withdrawals h) r)
        | Some l => convertFlows l currency trusted measured rates
        end in
      match flows with
      | Err missing => Err missing
      | Ok (dep, wd) =>
          Ok (set_history h (fmul (hs_TotalEquity h) r) (fmul (hs_RealizedBalance h) r) dep wd
                (map_market_balance (λ x, fmul x r) <$> hs_Breakdown h) (hs_Currency h) (hs_Cashflows h) r)
      end
  end.

Definition stampHistoricalUSD (h : HistoricalSnapshot F) (denom : string) (trusted : bool)
    (measured : time) (rates : fxRates) : res (HistoricalSnapshot F) :=
  let flows :=
    match hs_Cashflows h with
    | None => Ok (hs_Deposits h, hs_Withdrawals h)
    | Some l => convertFlows l denom trusted measured rates
    end in
  match flows with
  | Err missing => Err missing
  | Ok (dep, wd) =>
      Ok (set_history h (hs_TotalEquity h) (hs_RealizedBalance h) dep wd (hs_Breakdown h) denom (hs_Cashflows h) f1)
  end.

(** What one iteration of [convertHistory] makes of a row: [None] when its
    currency is neither converted nor USD. *)
Definition convert_row (trusted : bool) (rates : fxRates) (h : HistoricalSnapshot F) :
    option (res (HistoricalSnapshot F)) :=
  let '(currency, convert) := fiatToConvert (hs_Currency h) in
  let '(denom, known) := denominationOf (hs_Currency h) in
  if negb convert && negb known then None
  else
    let measured := if IsZero (hs_MeasuredOn h) then truncDay (hs_Date h) else truncDay (hs_MeasuredOn h) in
    Some (if convert then convertHistoricalRow h currency trusted measured rates
          else stampHistoricalUSD h denom trusted measured rates).

(** [held] is the reason of the first row held back, if any. *)
Fixpoint convertHistory_from (trusted : bool) (rates : fxRates) (held : option string)
    (rows : list (HistoricalSnapshot F)) : res (list (HistoricalSnapshot F)) :=
  match rows with
  | [] => Ok []
  | h :: rest =>
      let emit h' :=
        match held with
        | Some reason => Err ("no final USD rate for " +:+ reason)%string
        | None => out ← convertHistory_from trusted rates None rest; Ok (h' :: out)
        end in
      match convert_row trusted rates h with
      | None => emit h
      | Some (Ok h') => emit h'
      | Some (Err reason) =>
          convertHistory_from trusted rates (match held with Some _ => held | None => Some reason end) rest
      end
  end.

Definition convertHistory (rows : list (HistoricalSnapshot F)) (trusted : bool) (rates : fxRates) :
    res (list (HistoricalSnapshot F)) :=
  convertHistory_from trusted rates None rows.

(** Currencies in the order they are met; from; to. *)
Definition fx_window_row (trusted : bool) (acc : list string * time * time) (h : HistoricalSnapshot F) :
    list string * time * time :=
  let '(currency, known) := denominationOf (hs_Currency h) in
  if negb known then acc
  else
    let '(ccys, from, to) := acc in
    let '(from, to) :=
      foldl (λ '(from, to) d,
        if IsZero d then (from, to)
        else let d := truncDay d in
             (if IsZero from || Before d from then d else from, if After d to then d else to))
        (from, to) [hs_Date h; hs_MeasuredOn h] in
    foldl (λ '(ccys, from, to) cf,
      let d := truncDay (cf_Timestamp cf) in
      (Activity.appendUnique ccys (flowCurrency cf currency trusted), if Before d from then d else from, to))
      (Activity.appendUnique ccys currency, from, to) (default [] (hs_Cashflows h)).

Definition historyFXWindow (rows : list (HistoricalSnapshot F)) (trusted : bool) : list string * time * time :=
  foldl (fx_window_row trusted) ([], zero_time, zero_time) rows.

Definition restate_row (stored : string) (h : HistoricalSnapshot F) : HistoricalSnapshot F * option string :=
  let '(denom, known) := denominationOf (hs_Currency h) in
  if negb known || String.eqb denom stored then (h, None)
  else
    let r := default f0 (hs_BaseRates h !! stored) in
    if fleb r f0 then (h, None)
    else
      let '(dep, wd, flows) :=
        match hs_Cashflows h with
        | Some l => (hs_Deposits h, hs_Withdrawals h, Some (restateFlows l denom stored r))
        | None => (fdiv (hs_Deposits h) r, fdiv (hs_Withdrawals h) r, None)
        end in
      (set_history h (fdiv (hs_TotalEquity h) r) (fdiv (hs_RealizedBalance h) r) dep wd
         (map_market_balance (λ x, fdiv x r) <$> hs_Breakdown h) stored flows (hs_FXRateToUSD h), Some denom).

Definition restateHistory (rows : list (HistoricalSnapshot F)) (stored : string) : list (HistoricalSnapshot F) :=
  fst ∘ restate_row stored <$> rows.

Definition accountCurrencyOf (rows : list (HistoricalSnapshot F)) : string :=
  match find_first (λ h, (fiatToConvert (hs_Currency h)).2) rows with
  | Some h => (fiatToConvert (hs_Currency h)).1
  | None => ""
  end.

(** ** The backfill of stored rows (fx_backfill.go) *)

Record FXBackfillDay := mkDay {
  fd_Day : string;
  fd_Kept : string;
  fd_Rate : F;
  fd_Equity : F;
  fd_NewEquity : F;
  fd_Deposits : F;
  fd_NewDeposits : F;
  fd_Withdrawals : F;
  fd_NewWithdrawals : F;
}.

Definition alreadyConverted (r : Snapshot F) : bool := negb (String.eqb (stampedDenomination r) "").

Definition map_metrics (f : F → F) (m : MarketMetrics F) : MarketMetrics F :=
  mkMetrics (f (mm_Equity m)) (f (mm_AvailableMargin m)) (mm_Volume m) (mm_Trades m) (mm_TradingFees m)
    (mm_FundingFees m) (mm_LongTrades m) (mm_ShortTrades m) (mm_LongVolume m) (mm_ShortVolume m)
    (mm_NativeCurrency m) (mm_FXRateToUSD m).

Definition map_breakdown (f : F → F) (b : MarketBreakdown F) : MarketBreakdown F :=
  breakdown_of (λ m, map_metrics f <$> breakdown_market b m) (map_metrics f <$> mb_Global b).

Definition convertStoredRow (s : Snapshot F) (currency : string) (r : F) : Snapshot F :=
  let b := from_option (map_breakdown (λ x, fmul x r)) empty_breakdown (sn_Breakdown s) in
  mkSnapshot (sn_ID s) (sn_UserUID s) (sn_Exchange s) (sn_Label s) (sn_Timestamp s)
    (fmul (sn_TotalEquity s) r) (fmul (sn_RealizedBalance s) r) (fmul (sn_UnrealizedPnL s) r)
    (fmul (sn_Deposits s) r) (fmul (sn_Withdrawals s) r)
    (sn_TotalTrades s) (sn_TotalVolume s) (sn_TotalFees s) (Some (stampFX b currency r))
    (sn_IsHistorical s) (sn_FromExternalRebuilder s).

Definition plan_row (exchange currency : string) (rates : fxRates) (r : Snapshot F) :
    FXBackfillDay * option (Snapshot F) :=
  let kept why := mkDay (dayKey (sn_Timestamp r)) why f0 (sn_TotalEquity r) f0 (sn_Deposits r) f0 (sn_Withdrawals r) f0 in
  if alreadyConverted r then (kept ("already converted from " +:+ stampedDenomination r)%string, None)
  else match rate rates currency (storedMeasuredOn exchange (sn_Timestamp r)) with
       | None => (kept "no final rate yet", None)
       | Some x =>
           let r' := convertStoredRow r currency x in
           (mkDay (dayKey (sn_Timestamp r)) "" x (sn_TotalEquity r) (sn_TotalEquity r')
              (sn_Deposits r) (sn_Deposits r') (sn_Withdrawals r) (sn_Withdrawals r'), Some r')
       end.

(** The reports of the days, and the rows converted. *)
Definition planFXBackfill (rows : list (Snapshot F)) (exchange currency : string) (rates : fxRates) :
    list FXBackfillDay * list (Snapshot F) :=
  (fst ∘ plan_row exchange currency rates <$> rows, omap (snd ∘ plan_row exchange currency rates) rows).

Inductive backfill_error := NoStoredSnapshots (msg : string) | BackfillFailed (msg : string).

(** How the database answers the writes of a call. *)
Context (newid : Snapshot F → string) (flt : Store.tx_faults (F := F)).

Definition writeBatch (repo : Window.snapshot_repo F) (rows : list (Snapshot F)) :
    Window.snapshot_repo F * res unit :=
  let '(t, r) := Store.UpsertBatch (Window.sp_schema repo) newid flt (Window.sp_table repo) rows in
  (Window.mkSnapshotRepo (Window.sp_schema repo) t (Window.sp_fault repo), r).

Definition quoted (s : string) : string :=
  let q := String.String (Ascii.ascii_of_N 34) EmptyString in (q +:+ s +:+ q)%string.

Definition ConvertStoredToUSD (repo : Window.snapshot_repo F) (fx : option (fx_source))
    (user exchange label currency : string) (apply : bool) (now : time) :
    Window.snapshot_repo F * (list FXBackfillDay + backfill_error) :=
  let fail msg := (repo, inr (BackfillFailed msg)) in
  let '(ccy, ok) := fiatToConvert currency in
  if negb ok then fail (quoted currency +:+ " is not a currency converted to USD")%string
  else match fx with
  | None => fail "no FX source configured"
  | Some src =>
      if negb (convertsExchange exchange) then fail (exchange +:+ " accounts are not converted to USD yet")%string
      else match storedRows repo user now with
      | Err e => fail ("read snapshots: " +:+ e)%string
      | Ok all =>
          let rows := sort_by sn_Timestamp
            (filter (λ r, EqualFold (sn_Exchange r) exchange && String.eqb (sn_Label r) label = true) all) in
          match rows, last rows with
          | first :: _, Some newest =>
              match loadFXRates src [ccy] (storedMeasuredOn exchange (sn_Timestamp first))
                      (storedMeasuredOn exchange (sn_Timestamp newest)) ∅ with
              | Err e => fail e
              | Ok rates =>
                  let '(days, changed) := planFXBackfill rows exchange ccy rates in
                  if apply && negb (bool_decide (changed = [])) then
                    match writeBatch repo changed with
                    | (repo', Err e) => (repo', inr (BackfillFailed ("write converted rows: " +:+ e)%string))
                    | (repo', Ok _) => (repo', inl days)
                    end
                  else (repo, inl days)
              end
          | _, _ => (repo, inr (NoStoredSnapshots
                       (errNoStoredSnapshots +:+ " for " +:+ exchange +:+ "/" +:+ label)%string))
          end
      end
  end.

(** [fxStoredDone]: the connections whose stored days are all converted. *)
Definition stored_key (c : ExchangeConnection) : string :=
  (ec_UserUID c +:+ "|" +:+ ToLower (ec_Exchange c) +:+ "|" +:+ ec_Label c)%string.

Definition ensureStoredConverted (repo : Window.snapshot_repo F) (done_ : gset string) (fx : option (fx_source))
    (c : ExchangeConnection) (currency : string) (now : time) :
    Window.snapshot_repo F * gset string * res unit :=
  if negb (backfillsStoredRows (ec_Exchange c)) then (repo, done_, Ok tt)
  else if bool_decide (stored_key c ∈ done_) then (repo, done_, Ok tt)
  else match ConvertStoredToUSD repo fx (ec_UserUID c) (ec_Exchange c) (ec_Label c) currency true now with
       | (repo', inr (NoStoredSnapshots _)) => (repo', {[stored_key c]} ∪ done_, Ok tt)
       | (repo', inr (BackfillFailed e)) => (repo', done_, Err ("convert stored days: " +:+ e)%string)
       | (repo', inl days) =>
           if existsb (λ d, String.eqb (fd_Kept d) "no final rate yet") days
           then (repo', done_, Ok tt)
           else (repo', {[stored_key c]} ∪ done_, Ok tt)
       end.

(** ** [convertLive] *)

Record live_out := mkLiveOut {
  lo_repo : Window.snapshot_repo F;
  lo_done : gset string;
  (** [None]: skipped *)
  lo_fx : option liveFX;
  lo_balance : Balance F;
  lo_act : Activity.liveActivity F;
  (** [result.SkipReason] *)
  lo_skip : string;
  (** a deferred retry was scheduled *)
  lo_retry : bool;
}.

Definition live_currencies (act : Activity.liveActivity F) (denom : string) (trusted : bool) : list string :=
  foldl (λ acc cf, Activity.appendUnique acc (flowCurrency cf denom trusted)) [denom]
    (default [] (Activity.la_cashflows act)).

Definition live_from (act : Activity.liveActivity F) (measured : time) : time :=
  foldl (λ from cf, let d := truncDay (cf_Timestamp cf) in if Before d from then d else from) measured
    (default [] (Activity.la_cashflows act)).

(** The rate work, once the reading is in [denom]: the reason it cannot be
    converted, or the conversion. *)
Definition convert_reading (repo : Window.snapshot_repo F) (done_ : gset string) (src : fx_source)
    (conn : Activity.connector F) (c : ExchangeConnection) (balance : Balance F) (act : Activity.liveActivity F)
    (denom : string) (startOfDay now : time) :
    Window.snapshot_repo F * gset string * res (liveFX * Balance F * Activity.liveActivity F) :=
  let trusted := trustsCashflowCurrency (ec_Exchange c) in
  let measured := liveMeasuredOn conn startOfDay in
  match loadFXRates src (live_currencies act denom trusted) (live_from act measured) measured ∅ with
  | Err e => (repo, done_, Err e)
  | Ok rates =>
      if String.eqb denom "USD" then
        (repo, done_, '(fx, act') ← applyLiveUSD act trusted measured rates; Ok (fx, balance, act'))
      else
        let '(repo', done', r) := ensureStoredConverted repo done_ (Some src) c denom now in
        match r with
        | Err e => (repo', done', Err e)
        | Ok _ =>
            (repo', done',
             match applyLiveFX balance act denom trusted measured rates with
             | Err missing => Err ("no final USD rate for " +:+ missing)%string
             | Ok x => Ok x
             end)
        end
  end.

Definition convertLive (repo : Window.snapshot_repo F) (done_ : gset string) (fx : option (fx_source))
    (conn : Activity.connector F) (c : ExchangeConnection) (balance : Balance F) (act : Activity.liveActivity F)
    (startOfDay now : time) : live_out :=
  let stay f := mkLiveOut repo done_ (Some f) balance act "" false in
  if negb (convertsExchange (ec_Exchange c)) then stay no_fx
  else
    let '(denom, known) := denominationOf (bal_Currency balance) in
    if negb known then stay no_fx
    else
      let stored := storedDenomination (Some repo) c now in
      let changed := negb (String.eqb stored "") && negb (String.eqb stored denom) in
      let r := default f0 (bal_BaseRates balance !! stored) in
      if changed && fleb r f0 then
        mkLiveOut repo done_ None balance act
          ("account currency changed from " +:+ stored +:+ " to " +:+ denom
           +:+ "; waiting for its history to be restated")%string false
      else
        let '(balance, act) := if changed then restateLive balance act denom stored r else (balance, act) in
        let denom := if changed then stored else denom in
        match fx with
        | None => mkLiveOut repo done_ (Some (if String.eqb denom "USD" then mkLiveFX "USD" f1 else no_fx)) balance act "" false
        | Some src =>
            match convert_reading repo done_ src conn c balance act denom startOfDay now with
            | (repo', done', Ok (f, balance', act')) => mkLiveOut repo' done' (Some f) balance' act' "" false
            | (repo', done', Err reason) =>
                mkLiveOut repo' done' None balance act ("fx conversion: " +:+ reason)%string true
            end
        end.

(** ** [convertHistoryToUSD] and [flowsInUSD] *)

Definition convertHistoryToUSD (repo : Window.snapshot_repo F) (done_ : gset string) (fx : option (fx_source))
    (c : ExchangeConnection) (rows : list (HistoricalSnapshot F)) (now : time) :
    Window.snapshot_repo F * gset string * res (list (HistoricalSnapshot F)) :=
  if negb (convertsExchange (ec_Exchange c)) then (repo, done_, Ok rows)
  else
    let trusted := trustsCashflowCurrency (ec_Exchange c) in
    let rows := sort_by hs_Date rows in
    let stored := storedDenomination (Some repo) c now in
    let rows := if String.eqb stored "" then rows else restateHistory rows stored in
    let '(ccys, from, to) := historyFXWindow rows trusted in
    match ccys, fx with
    | [], _ => (repo, done_, Ok rows)
    | _, None => (repo, done_, Ok rows)
    | _, Some src =>
        match loadFXRates src ccys from to ∅ with
        | Err e => (repo, done_, Err e)
        | Ok rates =>
            let account := accountCurrencyOf rows in
            let '(repo', done', r) :=
              if negb (String.eqb account "") && backfillsStoredRows (ec_Exchange c)
              then ensureStoredConverted repo done_ fx c account now else (repo, done_, Ok tt) in
            match r with
            | Err e => (repo', done', Err e)
            | Ok _ => (repo', done', convertHistory rows trusted rates)
            end
        end
    end.

Definition flow_in_usd (currency : string) (trusted : bool) (latest : time) (rates : fxRates) (cf : Cashflow F) :
    res (Cashflow F) :=
  let day := truncDay (cf_Timestamp cf) in
  let day := if After day latest then latest else day in
  let ccy := flowCurrency cf currency trusted in
  match rate rates ccy day with
  | None => Err ("no final USD rate for " +:+ noRate ccy day)%string
  | Some r => Ok (mkCashflow (fmul (cf_Amount cf) r) "USD" (cf_Timestamp cf))
  end.

Fixpoint map_res {A B} (f : A → res B) (l : list A) : res (list B) :=
  match l with
  | [] => Ok []
  | x :: l' => y ← f x; ys ← map_res f l'; Ok (y :: ys)
  end.

Definition flowsInUSD (fx : option (fx_source)) (c : ExchangeConnection) (accountCurrency : string)
    (flows : list (Cashflow F)) (now : time) : res (list (Cashflow F)) :=
  let '(currency, convert) := fiatToConvert accountCurrency in
  if negb convert || bool_decide (flows = []) || negb (convertsExchange (ec_Exchange c)) then Ok flows
  else match fx with
  | None => Err ("account held in " +:+ currency +:+ " and no FX source configured")%string
  | Some src =>
      let trusted := trustsCashflowCurrency (ec_Exchange c) in
      let latest := truncDay now - 24 * Hour in
      let ccys := foldl (λ acc cf, Activity.appendUnique acc (flowCurrency cf currency trusted)) [currency] flows in
      let from := foldl (λ from cf, let d := truncDay (cf_Timestamp cf) in if Before d from then d else from) latest flows in
      rates ← loadFXRates src ccys from latest ∅;
      map_res (flow_in_usd currency trusted latest rates) flows
  end.

(** ** The rate source: benchmark-service *)

Record fx_point := mkPoint { fp_date : string; fp_rate : F; fp_final : bool }.

(** The decoded response. *)
Record fx_response := mkResponse {
  fr_success : bool;
  fr_error : string;
  fr_currency : string;
  fr_quote : string;
  fr_rates : list fx_point;
}.

Definition maxBenchmarkPoints : Z := 20000.

Definition parseFXRates (body : res fx_response) (currency : string) : res (gmap string F) :=
  match body with
  | Err e => Err ("benchmark-service fx decode: " +:+ e)%string
  | Ok result =>
      if negb (fr_success result) then
        Err ("benchmark-service fx error for " +:+ currency +:+ ": " +:+ fr_error result)%string
      else if negb (EqualFold (fr_currency result) currency) || negb (EqualFold (fr_quote result) "USD") then
        Err ("benchmark-service fx answered " +:+ fr_currency result +:+ "/" +:+ fr_quote result
             +:+ " for " +:+ currency +:+ "/USD")%string
      else if maxBenchmarkPoints <? Z.of_nat (length (fr_rates result)) then
        Err ("benchmark-service returned too many fx points (" +:+ pretty (Z.of_nat (length (fr_rates result)))
             +:+ ") for " +:+ currency)%string
      else Ok (foldl (λ out p,
             if negb (fp_final p) || fleb (fp_rate p) f0 then out
             else match ParseDate (fp_date p) with
                  | None => out
                  | Some _ => <[fp_date p := fp_rate p]> out
                  end) ∅ (fr_rates result))
  end.

(** The days of [from, to], oldest first. *)
Definition days_between (from to : time) : list time :=
  (λ i, from + Z.of_nat i * (24 * Hour)) <$> seq 0 (Z.to_nat ((to - from) / (24 * Hour) + 1)).

(** [FinalRatesToUSD] on the cache: the cache left behind, and the answer. *)
Definition FinalRatesToUSD (fetch : string → time → time → res (gmap string F)) (cache : fxRates)
    (currency : string) (from to : time) : fxRates * res (gmap string F) :=
  let from := truncDay from in let to := truncDay to in
  if Before to from then (cache, Ok ∅)
  else
    let cached := default ∅ (cache !! currency) in
    let answer cached := Ok (foldl (λ out d, match cached !! dayKey d with
                                             | Some r => <[dayKey d := r]> out
                                             | None => out
                                             end) ∅ (days_between from to)) in
    match find_first (λ d, negb (bool_decide (is_Some (cached !! dayKey d)))) (days_between from to) with
    | None => (cache, answer cached)
    | Some firstMissing =>
        if IsZero firstMissing then (cache, answer cached)
        else match fetch currency firstMissing to with
        | Err e => (cache, Err e)
        | Ok fetched => let cached := fetched ∪ cached in (<[currency := cached]> cache, answer cached)
        end
    end.

(** ** Lemmas *)

Lemma rate_final r ccy day x :
  ccy ≠ "USD" → rate r ccy day = Some x →
  (∃ m, r !! ccy = Some m ∧ m !! dayKey day = Some x) ∧ fltb f0 x = true.
Proof.
  intros Hc. unfold rate. rewrite (proj2 (String.eqb_neq _ _) Hc).
  destruct (r !! ccy) as [m|]; cbn; [|done].
  destruct (m !! dayKey day) eqn:E; [|done]. destruct (fltb _ _) eqn:?; [|done]. naive_solver.
Qed.

(** Every rate of a loaded table was served by the source for the window. *)
Lemma loadFXRates_served src ccys from to out rates c m :
  loadFXRates src ccys from to out = Ok rates → rates !! c = Some m →
  out !! c = Some m ∨ src c from to = Ok m.
Proof.
  revert out. induction ccys as [|c' ccys IH]; intros out; cbn [loadFXRates].
  - intros ? ?. simplify_eq. auto.
  - destruct (String.eqb c' "USD"); [apply IH|]. destruct (negb _); [done|].
    destruct (src c' from to) as [m'|] eqn:E; [|done]. intros Hl Hc.
    destruct (IH _ Hl Hc) as [Ho|?]; [|auto].
    destruct (decide (c' = c)) as [->|Hne]; [rewrite lookup_insert_eq in Ho|rewrite lookup_insert_ne in Ho by done];
      simplify_eq; auto.
Qed.

Lemma fiatToConvert_nonempty c x : fiatToConvert c = (x, true) → x ≠ "" ∧ x ≠ "USD".
Proof.
  unfold fiatToConvert. intros [= <- Hb]. apply bool_decide_eq_true in Hb.
  split; intros E; rewrite E in Hb; revert Hb; apply (bool_decide_unpack _); vm_compute; done.
Qed.

Lemma denominationOf_known c d : denominationOf c = (d, true) → d ≠ "".
Proof.
  unfold denominationOf. destruct (fiatToConvert c) as [x b] eqn:E. destruct b.
  - intros [= <-]. by eapply fiatToConvert_nonempty.
  - destruct (_ || _); intros; by simplify_eq.
Qed.

(** The run of [convertHistory] once a row is held back. *)
Lemma convertHistory_held trusted rates reason rows :
  match convertHistory_from trusted rates (Some reason) rows with
  | Ok out => out = [] ∧ Forall (λ h, ∃ e, convert_row trusted rates h = Some (Err e)) rows
  | Err e => e = ("no final USD rate for " +:+ reason)%string ∧
             ∃ l h l', rows = l ++ h :: l' ∧ ∀ e', convert_row trusted rates h ≠ Some (Err e')
  end.
Proof.
  induction rows as [|h rows IH]; cbn [convertHistory_from]; [by split|].
  destruct (convert_row trusted rates h) as [[h'|e]|] eqn:E.
  - split; [done|]. exists [], h, rows. split; [done|]. by rewrite E.
  - destruct (convertHistory_from trusted rates (Some reason) rows) as [out|e'].
    + destruct IH as [-> IH]. split; [done|]. constructor; [eauto|done].
    + destruct IH as (-> & l & h' & l' & -> & Hn). split; [done|].
      by exists (h :: l), h', l'.
  - split; [done|]. exists [], h, rows. split; [done|]. by rewrite E.
Qed.

(** [h'] is [h] with its balances at the final rate of the day they were
    measured on, or a USD row stamped as such. *)
Definition stated_in_usd (rates : fxRates) (h h' : HistoricalSnapshot F) : Prop :=
  let measured := if IsZero (hs_MeasuredOn h) then truncDay (hs_Date h) else truncDay (hs_MeasuredOn h) in
  hs_Date h' = hs_Date h ∧
  ((∃ c x, fiatToConvert (hs_Currency h) = (c, true) ∧ rate rates c measured = Some x ∧
      hs_FXRateToUSD h' = x ∧ hs_TotalEquity h' = fmul (hs_TotalEquity h) x ∧
      hs_RealizedBalance h' = fmul (hs_RealizedBalance h) x) ∨
   (denominationOf (hs_Currency h) = ("USD", true) ∧ hs_Currency h' = "USD" ∧ hs_FXRateToUSD h' = f1 ∧
      hs_TotalEquity h' = hs_TotalEquity h ∧ hs_RealizedBalance h' = hs_RealizedBalance h)).

Lemma convert_row_usd trusted rates h h' :
  convert_row trusted rates h = Some (Ok h') → stated_in_usd rates h h'.
Proof.
  unfold stated_in_usd, convert_row, denominationOf. destruct (fiatToConvert (hs_Currency h)) as [c conv] eqn:Ec.
  destruct conv; cbn zeta.
  - cbn [negb andb]. unfold convertHistoricalRow. set (measured := if IsZero _ then _ else _).
    destruct (rate rates c measured) as [x|] eqn:Er; [|done].
    destruct (match hs_Cashflows h with None => _ | Some _ => _ end) as [[dep wd]|]; [|done].
    intros; simplify_eq. cbn. split; [done|]. left. eauto 10.
  - destruct (String.eqb c "" || String.eqb c "USD"); cbn [negb andb]; [|done].
    unfold stampHistoricalUSD.
    destruct (match hs_Cashflows h with None => _ | Some _ => _ end) as [[dep wd]|]; [|done].
    intros; simplify_eq. cbn. split; [done|]. right. done.
Qed.

Lemma convert_row_unknown trusted rates h :
  convert_row trusted rates h = None → (denominationOf (hs_Currency h)).2 = false.
Proof.
  unfold convert_row. destruct (fiatToConvert _) as [c conv], (denominationOf _) as [d known].
  by destruct conv, known.
Qed.

(** ** Properties *)

(** A reconstruction is stored in one unit, without holes.  A converted
    series is a prefix of the rows given, in order: each kept row is a row in
    a currency left as reported, or its balances at the final USD rate of its
    day (1 for a USD row), and every row left out has no final rate.  The
    batch is refused exactly when a row without a rate precedes one that
    could be written. *)
Theorem convert_history_no_hole rows trusted rates :
  match convertHistory rows trusted rates with
  | Ok out => ∃ kept late, rows = kept ++ late ∧
      Forall2 (λ h h', (denominationOf (hs_Currency h)).2 = false ∧ h' = h ∨ stated_in_usd rates h h') kept out ∧
      Forall (λ h, ∃ e, convert_row trusted rates h = Some (Err e)) late
  | Err e => ∃ l h l' h' l'' reason, rows = l ++ h :: l' ++ h' :: l'' ∧
      convert_row trusted rates h = Some (Err reason) ∧
      (∀ e', convert_row trusted rates h' ≠ Some (Err e')) ∧
      e = ("no final USD rate for " +:+ reason)%string
  end.
Proof.
  unfold convertHistory. induction rows as [|h rows IH]; cbn [convertHistory_from].
  { exists [], []. by repeat constructor. }
  destruct (convert_row trusted rates h) as [[h'|reason]|] eqn:E.
  2: { pose proof (convertHistory_held trusted rates reason rows) as Hh.
       destruct (convertHistory_from trusted rates (Some reason) rows) as [out|e].
       - destruct Hh as [-> Hl]. exists [], (h :: rows). split_and!; [done|constructor|]. constructor; eauto.
       - destruct Hh as (-> & l & h' & l' & -> & Hn). exists [], h, l, h', l', reason. done. }
  all: destruct (convertHistory_from trusted rates None rows) as [out|e]; cbn.
  all: try (destruct IH as (kept & late & -> & Hk & Hl); exists (h :: kept), late;
            split_and!; [done|constructor; [|done]|done];
            first [by right; eapply convert_row_usd | by left; split; [eapply convert_row_unknown|]]).
  all: destruct IH as (l & x & l' & x' & l'' & r & -> & ?); by exists (h :: l), x, l', x', l'', r.
Qed.

(** A stored row is converted once.  The backfill converts exactly the
    rows that carry no stamp and whose day has a final rate, multiplying
    every balance and flow by that rate, and stamps them with the currency and
    the rate; whatever rates are known later, a second pass leaves a converted
    row alone. *)
Theorem backfill_once `{!NumOrd F} exchange currency ccy (rates : fxRates) r :
  fiatToConvert currency = (ccy, true) →
  match (plan_row exchange ccy rates r).2 with
  | Some r' =>
      stampedDenomination r = "" ∧ stampedDenomination r' = ccy ∧
      (∃ x, rate rates ccy (storedMeasuredOn exchange (sn_Timestamp r)) = Some x ∧ stampedRate r' = x ∧
            sn_TotalEquity r' = fmul (sn_TotalEquity r) x ∧ sn_RealizedBalance r' = fmul (sn_RealizedBalance r) x ∧
            sn_Deposits r' = fmul (sn_Deposits r) x ∧ sn_Withdrawals r' = fmul (sn_Withdrawals r) x) ∧
      (∀ rates', (plan_row exchange ccy rates' r').2 = None)
  | None => stampedDenomination r ≠ "" ∨ rate rates ccy (storedMeasuredOn exchange (sn_Timestamp r)) = None
  end.
Proof.
  intros Hc. apply fiatToConvert_nonempty in Hc as [Hne Husd].
  unfold plan_row. destruct (alreadyConverted r) eqn:Ea; cbn [snd].
  { left. unfold alreadyConverted in Ea. go_bool. done. }
  destruct (rate _ _ _) as [x|] eqn:Er; cbn [snd]; [|by right].
  destruct (rate_final _ _ _ _ Husd Er) as [_ Hpos].
  assert (stampedDenomination (convertStoredRow r ccy x) = ccy ∧ stampedRate (convertStoredRow r ccy x) = x)
    as [Hd Hr].
  { unfold stampedDenomination, stampedRate, global_of, convertStoredRow. cbn [sn_Breakdown].
    unfold stampFX. rewrite (fltb_not_leb _ _ Hpos). done. }
  split_and!.
  - unfold alreadyConverted in Ea. go_bool. done.
  - done.
  - exists x. done.
  - intros rates'. unfold alreadyConverted. rewrite Hd.
    destruct (String.eqb ccy "") eqn:E; [go_bool; done|done].
Qed.

(** The conversion of a reading already stated in [denom]. *)
Lemma convert_reading_spec repo done_ src conn c balance act denom startOfDay now repo' done' f balance' act' :
  denom ≠ "" →
  convert_reading repo done_ src conn c balance act denom startOfDay now = (repo', done', Ok (f, balance', act')) →
  fx_currency f = denom ∧
  ((denom = "USD" ∧ fx_rate f = f1 ∧ balance' = balance) ∨
   ∃ from served, src denom from (liveMeasuredOn conn startOfDay) = Ok served ∧
     served !! dayKey (liveMeasuredOn conn startOfDay) = Some (fx_rate f) ∧ fltb f0 (fx_rate f) = true ∧
     balance' = map_balance (λ x, fmul x (fx_rate f)) "USD" balance).
Proof.
  intros Hne. unfold convert_reading. cbn zeta. set (measured := liveMeasuredOn conn startOfDay).
  destruct (loadFXRates _ _ _ _ _) as [rates|] eqn:El; [|done].
  destruct (String.eqb denom "USD") eqn:Eu; go_bool.
  - subst denom. unfold applyLiveUSD.
    destruct (Activity.la_cashflows act) as [l|]; [destruct (convertFlows l _ _ _ _) as [[? ?]|]|];
      cbn; intros; simplify_eq; cbn; split; auto.
  - destruct (ensureStoredConverted _ _ _ _ _ _) as [[repo1 done1] [?|?]]; [|done].
    unfold applyLiveFX. destruct (rate rates denom measured) as [x|] eqn:Er; [|done].
    destruct (convertFlows _ _ _ _ _) as [[dep wd]|]; [|done]. intros; simplify_eq. cbn.
    split; [done|]. right. destruct (rate_final _ _ _ _ Eu Er) as [(m & Hm & Hx) Hpos].
    destruct (loadFXRates_served _ _ _ _ _ _ _ _ El Hm) as [?|Hs]; [by rewrite lookup_empty in *|].
    eauto 10.
Qed.

(** A live day is written in USD or not at all.  For a broker whose
    accounts are converted, with a rate source and a statement currency the
    service knows, the reading is either skipped with a reason, or stamped
    with a currency: the statement's, or the stored history's when the
    statement changed denomination and gave its own rate to it.  Its equity is
    the reading's, restated in that currency, at the rate the source calls
    final for the day the balance was measured on (unconverted when the
    currency is USD). *)
Theorem live_reading_in_usd `{!NumOrd F} repo done_ src conn c balance act startOfDay now d :
  convertsExchange (ec_Exchange c) = true → denominationOf (bal_Currency balance) = (d, true) →
  let out := convertLive repo done_ (Some src) conn c balance act startOfDay now in
  let measured := liveMeasuredOn conn startOfDay in
  match lo_fx out with
  | None => lo_skip out ≠ ""
  | Some f =>
      fx_currency f ≠ "" ∧
      ∃ reading, (reading = bal_Equity balance ∧ fx_currency f = d ∨
                  ∃ x, bal_BaseRates balance !! fx_currency f = Some x ∧ reading = fdiv (bal_Equity balance) x) ∧
        (fx_currency f = "USD" ∧ fx_rate f = f1 ∧ bal_Equity (lo_balance out) = reading ∨
         ∃ from served, src (fx_currency f) from measured = Ok served ∧
           served !! dayKey measured = Some (fx_rate f) ∧ fltb f0 (fx_rate f) = true ∧
           bal_Equity (lo_balance out) = fmul reading (fx_rate f))
  end.
Proof.
  intros Hex Hd. cbn zeta. unfold convertLive. rewrite Hex, Hd. cbn [negb].
  pose proof (denominationOf_known _ _ Hd) as Hne.
  set (stored := storedDenomination _ _ _).
  destruct (negb (String.eqb stored "") && negb (String.eqb stored d)) eqn:Ech; cbn [andb].
  - go_bool. destruct (fleb _ f0) eqn:Ez; [done|].
    destruct (bal_BaseRates balance !! stored) as [x|] eqn:Ex; cbn [from_option id] in *;
      [|by rewrite fleb_zero in Ez].
    unfold restateLive.
    destruct (convert_reading _ _ _ _ _ _ _ _ _ _) as [[repo' done'] [[[f b'] a']|]] eqn:E; [|done].
    apply convert_reading_spec in E as [Hf Hcase]; [|done]. cbn [lo_fx lo_balance].
    split; [congruence|]. exists (fdiv (bal_Equity balance) x).
    split; [right; exists x; by rewrite Hf|]. rewrite Hf.
    destruct Hcase as [(-> & Hr & ->)|(from & served & Hs & Hl & Hp & ->)]; [left; done|right; eauto 10].
  - destruct (convert_reading _ _ _ _ _ _ _ _ _ _) as [[repo' done'] [[[f b'] a']|]] eqn:E; [|done].
    apply convert_reading_spec in E as [Hf Hcase]; [|done]. cbn [lo_fx lo_balance].
    split; [congruence|]. exists (bal_Equity balance).
    split; [left; done|]. rewrite Hf.
    destruct Hcase as [(-> & Hr & ->)|(from & served & Hs & Hl & Hp & ->)]; [left; done|right; eauto 10].
Qed.

End fx.
Arguments fx_source F : clear implicits.
Arguments liveFX F : clear implicits.

(** *** Concrete instances *)

(** 1.25 dollars for a euro on the first of January 2024. *)
Definition sample_rates : gmap string float64 := {[ "2024-01-01" := fdiv (b64 5) (b64 4) ]}.

Definition sample_converted : Snapshot float64 :=
  convertStoredRow (sample_row 1 1000 1000 0 0 true) "EUR" (fdiv (b64 5) (b64 4)).

Lemma backfill_once_witness :
  (plan_row "ctrader" "EUR" {[ "EUR" := sample_rates ]} (sample_row 1 1000 1000 0 0 true)).2
    = Some sample_converted ∧
  sn_TotalEquity sample_converted = b64 1250 ∧
  (plan_row "ctrader" "EUR" {[ "EUR" := sample_rates ]} sample_converted).2 = None.
Proof.
  assert ((plan_row "ctrader" "EUR" {[ "EUR" := sample_rates ]} (sample_row 1 1000 1000 0 0 true)).2
    = Some sample_converted) as E by (vm_compute; reflexivity).
  assert (fiatToConvert "eur" = ("EUR", true)) as Hc by (vm_compute; reflexivity).
  split; [exact E|]. split; [vm_compute; reflexivity|].
  pose proof (backfill_once "ctrader" "eur" "EUR" {[ "EUR" := sample_rates ]} (sample_row 1 1000 1000 0 0 true) Hc) as H.
  rewrite E in H. apply H.
Defined.

Definition sample_fx_conn : ExchangeConnection :=
  mkConnection "c2" "user1" "ctrader" "main" 1440 true (sample_day 0).

Definition sample_connector (asOf : option time) (equity : Z) : Activity.connector float64 :=
  Activity.mkConnector (λ _, inl (Breakdown.sample_balance equity equity)) (λ _ _, ([], None)) None None None
    asOf None None None.

Definition sample_activity : Activity.liveActivity float64 :=
  Activity.mkActivity [] Breakdown.empty_agg (b64 0) (b64 0) (b64 0) None.

Definition eur_balance : Balance float64 := mkBalance (b64 100) (b64 100) (b64 0) "EUR" ∅.

(** A EUR account read at the midnight opening 2 January. *)
Definition sample_live : live_out (F := float64) :=
  convertLive (λ _, "id") Store.no_faults
    (Window.mkSnapshotRepo Store.prod_schema [] None) ∅ (Some (λ _ _ _, Ok sample_rates))
    (sample_connector None 100) sample_fx_conn eur_balance sample_activity (sample_day 1) (sample_day 1).

Lemma live_reading_in_usd_witness :
  ∃ f, lo_fx sample_live = Some f ∧ fx_currency f ≠ "" ∧ bal_Equity (lo_balance sample_live) = b64 125.
Proof.
  pose proof (live_reading_in_usd (λ _, "id") Store.no_faults
    (Window.mkSnapshotRepo Store.prod_schema [] None) ∅ (λ _ _ _, Ok sample_rates)
    (sample_connector None 100) sample_fx_conn eur_balance sample_activity (sample_day 1) (sample_day 1) "EUR"
    (ltac:(vm_compute; reflexivity)) (ltac:(vm_compute; reflexivity))) as H.
  assert (lo_fx sample_live = Some (mkLiveFX "EUR" (fdiv (b64 5) (b64 4)))) as E by (vm_compute; reflexivity).
  cbn zeta in H. destruct (lo_fx _) as [f|] eqn:E' in H; [|discriminate (eq_trans (eq_sym E') E)].
  exists f. split; [exact E'|]. split; [apply H|vm_compute; reflexivity].
Defined.

End Fx.
