(* ===== verification/Connections.v ===== *)
(** * The connections table (internal/repository/connection.go and the
    pass-throughs of internal/service/connection.go)

    The rows of exchange_connections with the two columns that carry the
    consent to an external rebuild (rebuild_requested_at) and the end of a
    history (rebuild_finalized_at), either of which a schema may lack.  The
    encrypted credentials are outside this file. *)

From S2P Require Import Prelude GoTime Types Store Window.
From stdpp Require Import base gmap strings list.
From Stdlib Require Import ZArith Lia.
Local Open Scope Z_scope.

Module Connections.

Record conn_row := mkConnRow {
  cr_conn : ExchangeConnection;
  cr_requestedAt : option time;
  cr_finalizedAt : option time;
}.

(** The repository, with the error its next statement fails on, if any. *)
Record conn_repo := mkConnRepo {
  cp_hasSyncMins : bool;
  cp_hasRequestedCol : bool;
  cp_hasFinalizedCol : bool;
  cp_rows : list conn_row;
  cp_fault : option string;
}.

(** SQL's TRIM removes spaces only. *)
Definition is_blank (c : Ascii.ascii) : bool := Ascii.eqb c (Ascii.ascii_of_N 32).

Fixpoint drop_blanks (s : string) : string :=
  match s with
  | String c s' => if is_blank c then drop_blanks s' else s
  | EmptyString => EmptyString
  end.

Fixpoint drop_trailing_blanks (s : string) : string :=
  match s with
  | EmptyString => EmptyString
  | String c s' =>
      match drop_trailing_blanks s' with
      | EmptyString => if is_blank c then EmptyString else String c EmptyString
      | t => String c t
      end
  end.

Definition TRIM (s : string) : string := drop_trailing_blanks (drop_blanks s).

(** A statement that fails when the database does. *)
Definition exec {A} (r : conn_repo) (q : list conn_row → res A) : res A :=
  match cp_fault r with Some e => Err e | None => q (cp_rows r) end.

Definition with_interval (r : conn_repo) (c : ExchangeConnection) : ExchangeConnection :=
  if cp_hasSyncMins r then c
  else mkConnection (ec_ID c) (ec_UserUID c) (ec_Exchange c) (ec_Label c) 1440 (ec_IsActive c) (ec_CreatedAt c).

Definition GetActiveByUser (r : conn_repo) (user : string) : res (list ExchangeConnection) :=
  exec r (λ rows, Ok (with_interval r <$>
    sort_by ec_CreatedAt (filter (λ c, String.eqb (ec_UserUID c) user && ec_IsActive c = true) (cr_conn <$> rows)))).

Definition has_label (user exchange label : string) (c : ExchangeConnection) : bool :=
  String.eqb (ec_UserUID c) user && String.eqb (ec_Exchange c) exchange
  && String.eqb (TRIM (ec_Label c)) (TRIM label).

(** The columns this query reads: the interval is not among them. *)
Definition GetByUserExchangeLabel (r : conn_repo) (user exchange label : string) : res ExchangeConnection :=
  exec r (λ rows,
    match find_first (λ c, has_label user exchange label c && ec_IsActive c) (cr_conn <$> rows) with
    | Some c => Ok (mkConnection (ec_ID c) (ec_UserUID c) (ec_Exchange c) (ec_Label c) 0 (ec_IsActive c) (ec_CreatedAt c))
    | None => Err Store.ErrNotFound
    end).

Definition GetActiveConnectionByLabel (r : conn_repo) (user exchange label : string) : res ExchangeConnection :=
  GetByUserExchangeLabel r user (Window.normalizeExchange exchange) (TrimSpace label).

(** An UPDATE of the rows with a given id. *)
Definition update_row (f : conn_row → conn_row) (id : string) (x : conn_row) : conn_row :=
  if String.eqb (ec_ID (cr_conn x)) id then f x else x.

Definition with_rows (r : conn_repo) (rows : list conn_row) : conn_repo :=
  mkConnRepo (cp_hasSyncMins r) (cp_hasRequestedCol r) (cp_hasFinalizedCol r) rows (cp_fault r).

Definition update (r : conn_repo) (what id : string) (f : conn_row → conn_row) : conn_repo * res unit :=
  match cp_fault r with
  | Some e => (r, Err (what +:+ ": " +:+ e)%string)
  | None =>
      if existsb (λ x, String.eqb (ec_ID (cr_conn x)) id) (cp_rows r)
      then (with_rows r (update_row f id <$> cp_rows r), Ok tt)
      else (r, Err Store.ErrNotFound)
  end.

Definition MarkRebuildFinalized (r : conn_repo) (id : string) (at_ : time) : conn_repo * res unit :=
  if negb (cp_hasFinalizedCol r) then (r, Ok tt)
  else update r "mark rebuild finalized" id (λ x, mkConnRow (cr_conn x) (cr_requestedAt x) (Some at_)).

Definition RebuildFinalizedAt (r : conn_repo) (id : string) : res (option time) :=
  if negb (cp_hasFinalizedCol r) then Ok None
  else match cp_fault r with
       | Some e => Err ("read rebuild finalized: " +:+ e)%string
       | None => match find_first (λ x, String.eqb (ec_ID (cr_conn x)) id) (cp_rows r) with
                 | Some x => Ok (cr_finalizedAt x)
                 | None => Err Store.ErrNotFound
                 end
       end.

Definition HistoryBackfilled (r : conn_repo) (id : string) : res bool :=
  if negb (cp_hasFinalizedCol r) then Ok true
  else at_ ← RebuildFinalizedAt r id; Ok (bool_decide (is_Some at_)).

Definition MarkRebuildRequested (r : conn_repo) (id : string) (at_ : time) : conn_repo * res unit :=
  if negb (cp_hasRequestedCol r) then (r, Ok tt)
  else update r "mark rebuild requested" id (λ x, mkConnRow (cr_conn x) (Some at_) (cr_finalizedAt x)).

Definition ClearRebuildConsent (r : conn_repo) (id : string) : conn_repo * res unit :=
  if negb (cp_hasRequestedCol r) then (r, Ok tt)
  else update r "clear rebuild consent" id (λ x, mkConnRow (cr_conn x) None (cr_finalizedAt x)).

(** [RebuiltHistoryTarget]: id and creation date. *)
Definition GetHistoryTarget (r : conn_repo) (user exchange label : string) : res (string * time) :=
  match cp_fault r with
  | Some e => Err ("load history target: " +:+ e)%string
  | None =>
      match sort_by ec_CreatedAt (filter (λ c, has_label user exchange label c = true) (cr_conn <$> cp_rows r)) with
      | c :: _ => Ok (ec_ID c, ec_CreatedAt c)
      | [] => Err Store.ErrNotFound
      end
  end.

(** The predicate of [unfinalizedExternalRebuildsQuery]. *)
Definition unfinalized (before after_ : time) (exchanges : list string) (x : conn_row) : bool :=
  let c := cr_conn x in
  bool_decide (is_Some (cr_requestedAt x)) && bool_decide (cr_finalizedAt x = None)
  && (ec_CreatedAt c <? before) && (after_ <? ec_CreatedAt c)
  && ec_IsActive c && bool_decide (ToLower (ec_Exchange c) ∈ exchanges).

(** The columns the query reads. *)
Definition unfinalized_columns (c : ExchangeConnection) : ExchangeConnection :=
  mkConnection (ec_ID c) (ec_UserUID c) (ec_Exchange c) (ec_Label c) 0 false (ec_CreatedAt c).

Definition ListUnfinalizedExternalRebuilds (r : conn_repo) (before after_ : time) (exchanges : list string) :
    res (list ExchangeConnection) :=
  if negb (cp_hasFinalizedCol r) || negb (cp_hasRequestedCol r) then Ok []
  else match exchanges with
  | [] => Ok []
  | _ =>
      match cp_fault r with
      | Some e => Err ("list unfinalized external rebuilds: " +:+ e)%string
      | None =>
          Ok (unfinalized_columns <$>
                sort_by ec_CreatedAt
                  (cr_conn <$> filter (λ x, unfinalized before after_ ((λ e, ToLower (TrimSpace e)) <$> exchanges) x = true)
                                 (cp_rows r)))
      end
  end.

(** ** Lemmas *)

Lemma GetActiveByUser_elem r user cs c :
  GetActiveByUser r user = Ok cs → c ∈ cs → ec_UserUID c = user ∧ ec_IsActive c = true.
Proof.
  unfold GetActiveByUser, exec. destruct (cp_fault r); [done|]. intros [= <-].
  rewrite list_elem_of_fmap. intros (c0 & -> & Hc%sort_by_elem%list_elem_of_filter).
  destruct Hc as [[Hu%String.eqb_eq Ha]%andb_true_iff _].
  unfold with_interval. by destruct (cp_hasSyncMins r).
Qed.

Lemma ListUnfinalized_elem r before after_ exchanges cs c :
  ListUnfinalizedExternalRebuilds r before after_ exchanges = Ok cs → c ∈ cs →
  cp_hasRequestedCol r = true ∧
  ∃ x, x ∈ cp_rows r ∧ c = unfinalized_columns (cr_conn x) ∧
       unfinalized before after_ ((λ e, ToLower (TrimSpace e)) <$> exchanges) x = true.
Proof.
  unfold ListUnfinalizedExternalRebuilds.
  destruct (cp_hasFinalizedCol r), (cp_hasRequestedCol r); cbn [negb orb]; try (intros [= <-]; set_solver).
  destruct exchanges; [intros [= <-]; set_solver|]. destruct (cp_fault r); [done|].
  intros [= <-] Hc. split; [done|].
  apply list_elem_of_fmap in Hc as (c0 & -> & Hc%sort_by_elem).
  apply list_elem_of_fmap in Hc as (x & -> & Hx). apply list_elem_of_filter in Hx as [Hu Hx]. eauto.
Qed.

(** An update touches the rows with its id only, and leaves their identity. *)
Lemma update_row_conn f id x :
  (∀ y, cr_conn (f y) = cr_conn y) → cr_conn (update_row f id x) = cr_conn x.
Proof. intros Hf. unfold update_row. by case_match. Qed.

Lemma clear_consent_rows r id r' :
  ClearRebuildConsent r id = (r', Ok tt) → cp_hasRequestedCol r = true →
  ∀ x, x ∈ cp_rows r' → ec_ID (cr_conn x) = id → cr_requestedAt x = None.
Proof.
  unfold ClearRebuildConsent, update. intros Hr Hcol. rewrite Hcol in Hr. cbn [negb] in Hr.
  destruct (cp_fault r); [done|]. destruct (existsb _ _); [|done]. injection Hr as <-. cbn.
  intros x (y & -> & Hy)%list_elem_of_fmap. unfold update_row.
  destruct (String.eqb (ec_ID (cr_conn y)) id) eqn:E; [done|].
  intros <-. by rewrite String.eqb_refl in E.
Qed.

Lemma clear_consent_origin r id r' o :
  ClearRebuildConsent r id = (r', o) →
  cp_hasRequestedCol r' = cp_hasRequestedCol r ∧
  ∀ x, x ∈ cp_rows r' → ∃ y, y ∈ cp_rows r ∧ cr_conn x = cr_conn y.
Proof.
  unfold ClearRebuildConsent, update. repeat case_match; intros [= <- <-]; (split; [done|]); eauto.
  intros x (y & -> & Hy)%list_elem_of_fmap. exists y. split; [done|]. by apply update_row_conn.
Qed.

Lemma mark_finalized_backfilled conns id at_ conns' :
  MarkRebuildFinalized conns id at_ = (conns', Ok tt) → HistoryBackfilled conns' id = Ok true.
Proof.
  unfold MarkRebuildFinalized, update, HistoryBackfilled, RebuildFinalizedAt.
  destruct (cp_hasFinalizedCol conns) eqn:Hcol; cbn [negb]; [|intros [= <-]; by rewrite Hcol].
  destruct (cp_fault conns) eqn:Hf; [done|]. destruct (existsb _ _) eqn:He; [|done]. intros [= <-]. cbn.
  rewrite Hcol, Hf. cbn.
  destruct (find_first _ _) as [x|] eqn:E.
  - apply find_first_some in E as (l1 & l2 & E & Hx & _).
    assert (x ∈ update_row (λ y, mkConnRow (cr_conn y) (cr_requestedAt y) (Some at_)) id
              <$> cp_rows conns) as Hin by (rewrite E; set_solver).
    apply list_elem_of_fmap in Hin as (y & -> & _). unfold update_row in *.
    destruct (String.eqb (ec_ID (cr_conn y)) id) eqn:Hy; [done|]. by rewrite Hy in Hx.
  - apply existsb_exists in He as (y & Hy%list_elem_of_In & Hid).
    apply find_first_none in E. rewrite Forall_forall in E. specialize (E _ (list_elem_of_fmap_2 _ _ _ Hy)).
    cbn in E. by rewrite update_row_conn, Hid in E.
Qed.

Lemma mark_finalized_failed conns id at_ conns' e :
  MarkRebuildFinalized conns id at_ = (conns', Err e) → conns' = conns.
Proof. unfold MarkRebuildFinalized, update. repeat case_match; by intros [= <- _]. Qed.

End Connections.
