(* ===== verification/RateLimit.v ===== *)
(** * The per-IP sliding-window rate limiter (internal/server/ratelimit.go)

    State: the map of request times and the FIFO order of the tracked
    addresses.  [Allow] and [cleanup] run under the limiter's mutex, so a run
    of the server is a sequence of these two operations; the clock is read
    inside the critical section and never goes back. *)

From S2P Require Import Prelude GoTime.
From stdpp Require Import base gmap strings list sorting.
From Stdlib Require Import ZArith Lia.
Local Open Scope Z_scope.

Module RateLimit.

Definition maxRateLimiterEntries : nat := N.to_nat 10000.

Record IPRateLimiter := mkLimiter {
  requests : gmap string (list time);
  insertionOrder : list string;
  limit : Z;
  window : duration;
}.

Definition NewIPRateLimiter (lim : Z) (win : duration) : IPRateLimiter :=
  {| requests := ∅; insertionOrder := []; limit := lim; window := win |}.

(** [for _, t := range times { if t.After(cutoff) { valid = append(valid, t) } }] *)
Definition live (cutoff : time) (times : list time) : list time :=
  filter (λ t, After t cutoff = true) times.

Definition times_of (rl : IPRateLimiter) (ip : string) : list time :=
  default [] (requests rl !! ip).

(** The eviction of the oldest tracked address, when a new one is about to be
    added to a full map; returns the victim too. *)
Definition evict (isNewKey : bool) (rl : IPRateLimiter) : option string * IPRateLimiter :=
  if isNewKey && bool_decide (maxRateLimiterEntries ≤ size (requests rl))%nat then
    match insertionOrder rl with
    | victim :: rest =>
        (Some victim, mkLimiter (delete victim (requests rl)) rest (limit rl) (window rl))
    | [] => (None, rl)
    end
  else (None, rl).

Definition Allow (now : time) (ip : string) (rl : IPRateLimiter) : bool * option string * IPRateLimiter :=
  let cutoff := now - window rl in
  let times := times_of rl ip in
  let isNewKey := bool_decide (times = []) in
  let valid := live cutoff times in
  if limit rl <=? Z.of_nat (length valid) then
    (false, None, mkLimiter (<[ip := valid]> (requests rl)) (insertionOrder rl) (limit rl) (window rl))
  else
    let '(victim, rl1) := evict isNewKey rl in
    (true, victim,
     mkLimiter (<[ip := valid ++ [now]]> (requests rl1))
       (if isNewKey then insertionOrder rl1 ++ [ip] else insertionOrder rl1)
       (limit rl) (window rl)).

Definition cleanup (now : time) (rl : IPRateLimiter) : IPRateLimiter :=
  let cutoff := now - window rl in
  let requests' := omap (λ times, let valid := live cutoff times in
                                  if decide (valid = []) then None else Some valid) (requests rl) in
  mkLimiter requests'
    (filter (λ ip, is_Some (requests' !! ip)) (insertionOrder rl))
    (limit rl) (window rl).

(** ** Resolution of the client address

    [ParseIP], [SplitHostPort] and the membership test of a CIDR block are
    those of package [net]; [ParseCIDR] parses a block. *)

(** [strings.Split(s, ",")[0]] *)
Fixpoint FirstCSV (s : string) : string :=
  match s with
  | EmptyString => EmptyString
  | String c s' => if (Ascii.N_of_ascii c =? 44)%N then EmptyString else String c (FirstCSV s')
  end.

Section extract.
Context {IP IPNet : Type}.
Variable ParseIP : string → option IP.
Variable is_ipv4 : IP → bool.
Variable ParseCIDR : string → option IPNet.
Variable net_contains : IPNet → IP → bool.
Variable SplitHostPort : string → option string.

Definition parseCIDRs (raw : list string) : list IPNet :=
  omap (λ s0,
    let s := TrimSpace s0 in
    if String.eqb s "" then None
    else
      let s' := if Contains s "/" then s
                else match ParseIP s with
                     | Some ip => if is_ipv4 ip then (s +:+ "/32")%string else (s +:+ "/128")%string
                     | None => s
                     end in
      ParseCIDR s') raw.

Definition isTrustedPeer (trustedProxies : list IPNet) (peerAddr : string) : bool :=
  match trustedProxies with
  | [] => false
  | _ =>
      let host := default peerAddr (SplitHostPort peerAddr) in
      match ParseIP host with
      | None => false
      | Some ip => existsb (λ c, net_contains c ip) trustedProxies
      end
  end.

Definition extractIP (trustedProxies : list IPNet) (remoteAddr xff xri : string) : string :=
  let fallback := default remoteAddr (SplitHostPort remoteAddr) in
  if isTrustedPeer trustedProxies remoteAddr then
    if negb (String.eqb xff "") then TrimSpace (FirstCSV xff)
    else if negb (String.eqb xri "") then TrimSpace xri
    else fallback
  else fallback.

End extract.

(** ** The invariant *)

Record wf (rl : IPRateLimiter) : Prop := {
  wf_nodup : NoDup (insertionOrder rl);
  wf_dom : ∀ ip, ip ∈ insertionOrder rl ↔ is_Some (requests rl !! ip);
  wf_size : (size (requests rl) ≤ maxRateLimiterEntries)%nat;
  wf_nonempty : ∀ ip times, requests rl !! ip = Some times → times ≠ [];
  wf_limit : ∀ ip times, requests rl !! ip = Some times → Z.of_nat (length times) ≤ limit rl;
}.

Lemma live_sub cutoff times t : t ∈ live cutoff times ↔ cutoff < t ∧ t ∈ times.
Proof. unfold live, After. rewrite list_elem_of_filter, Z.ltb_lt. done. Qed.

Lemma live_length cutoff times : (length (live cutoff times) ≤ length times)%nat.
Proof. apply length_filter. Qed.

Lemma live_live c1 c2 times : c1 ≤ c2 → live c2 (live c1 times) = live c2 times.
Proof.
  intros Hc. unfold live. rewrite list_filter_filter. apply list_filter_iff.
  intros t. unfold After. lia.
Qed.

Lemma live_app c l1 l2 : live c (l1 ++ l2) = live c l1 ++ live c l2.
Proof. apply filter_app. Qed.

Lemma wf_size_order rl : wf rl → size (requests rl) = length (insertionOrder rl).
Proof.
  intros [Hnd Hdom _ _ _].
  rewrite <- size_dom, <- (size_list_to_set (C:=gset string)) by done.
  f_equal. apply set_eq. intros ip. rewrite elem_of_dom, elem_of_list_to_set. naive_solver.
Qed.

Lemma wf_new rl ip : wf rl → times_of rl ip = [] → requests rl !! ip = None.
Proof.
  unfold times_of. intros Hwf. destruct (requests rl !! ip) as [l|] eqn:E; [|done].
  cbn. intros ->. by destruct (wf_nonempty _ Hwf _ _ E).
Qed.

Lemma NewIPRateLimiter_wf lim win : wf (NewIPRateLimiter lim win).
Proof.
  split; cbn; [by apply NoDup_nil_2| |apply Nat.le_0_l|done..].
  intros ip. rewrite elem_of_nil, lookup_empty. split; [done|by intros []]. Qed.

(** The state after the eviction step of [Allow]. *)
Lemma evict_spec new rl victim rl1 :
  wf rl → evict new rl = (victim, rl1) →
  limit rl1 = limit rl ∧ window rl1 = window rl ∧
  requests rl1 = from_option (λ v, delete v (requests rl)) (requests rl) victim ∧
  insertionOrder rl = option_list victim ++ insertionOrder rl1 ∧
  (new = true → size (requests rl1) < maxRateLimiterEntries)%nat ∧
  (new = false → victim = None).
Proof.
  unfold evict. intros Hwf. pose proof (wf_size_order _ Hwf) as Hsz. pose proof (wf_size _ Hwf) as Hle.
  destruct new; cbn; [|intros; simplify_eq; naive_solver].
  case_bool_decide as Hfull; [|intros; simplify_eq; cbn; split_and!; [done..|lia|done]].
  destruct (insertionOrder rl) as [|v rest] eqn:E; intros; simplify_eq; cbn.
  - split_and!; try done. cbn in *. unfold maxRateLimiterEntries in *. lia.
  - split_and!; try done. intros _.
    assert (is_Some (requests rl !! v)) as [times Hv] by (apply (wf_dom _ Hwf); rewrite E; left).
    rewrite map_size_delete, Hv. cbn in *. lia.
Qed.

Lemma evict_wf_facts new rl victim rl1 :
  wf rl → evict new rl = (victim, rl1) →
  NoDup (insertionOrder rl1) ∧
  (∀ ip, ip ∈ insertionOrder rl1 ↔ is_Some (requests rl1 !! ip)) ∧
  (∀ ip times, requests rl1 !! ip = Some times → requests rl !! ip = Some times).
Proof.
  intros Hwf He. destruct (evict_spec _ _ _ _ Hwf He) as (_ & _ & Hr & Ho & _ & _).
  pose proof (wf_nodup _ Hwf) as Hnd. rewrite Ho in Hnd.
  destruct victim as [v|]; cbn in *.
  - apply NoDup_cons in Hnd as [Hv Hnd]. split_and!; [done| |].
    + intros ip. rewrite Hr, lookup_delete_is_Some, <- (wf_dom _ Hwf), Ho, elem_of_cons.
      split; [intros Hip; split; [by intros ->|auto]|naive_solver].
    + intros ip times. rewrite Hr, lookup_delete_Some. naive_solver.
  - rewrite Hr, <- Ho. split_and!; [by rewrite Ho|apply (wf_dom _ Hwf)|done].
Qed.

Lemma Allow_wf now ip rl ok victim rl' :
  1 ≤ limit rl → wf rl → Allow now ip rl = (ok, victim, rl') → wf rl'.
Proof.
  intros Hlim Hwf. unfold Allow.
  set (valid := live _ _).
  destruct (limit rl <=? Z.of_nat (length valid)) eqn:Ev; go_bool.
  - (* refused: the entry keeps its live times *)
    intros; simplify_eq.
    assert (Hne : valid ≠ []) by (intros E; rewrite E in Ev; cbn in Ev; lia).
    assert (∃ times, requests rl !! ip = Some times ∧ valid = live (now - window rl) times) as (times & Hip & Hv).
    { unfold valid, times_of in *. destruct (requests rl !! ip) as [l|]; [eauto|done]. }
    split; cbn.
    + apply (wf_nodup _ Hwf).
    + intros ip'. rewrite (wf_dom _ Hwf), lookup_insert_is_Some.
      destruct (decide (ip = ip')) as [<-|]; [rewrite Hip; naive_solver|naive_solver].
    + rewrite map_size_insert, Hip. apply (wf_size _ Hwf).
    + intros ip' l. rewrite lookup_insert_Some. intros [[_ <-]|[_ H]]; [done|]. by eapply wf_nonempty.
    + intros ip' l. rewrite lookup_insert_Some. intros [[_ <-]|[_ H]]; [|by eapply wf_limit].
      pose proof (wf_limit _ Hwf _ _ Hip). pose proof (live_length (now - window rl) times). rewrite Hv. lia.
  - (* admitted *)
    destruct (evict _ rl) as [v1 rl1] eqn:He. intros; simplify_eq.
    destruct (evict_spec _ _ _ _ Hwf He) as (_ & _ & Hr & _ & Hnew & Hold).
    destruct (evict_wf_facts _ _ _ _ Hwf He) as (Hnd & Hdom & Hsub).
    assert (Hkey : times_of rl ip = [] → requests rl1 !! ip = None).
    { intros E. pose proof (wf_new _ _ Hwf E) as Hn.
      destruct (requests rl1 !! ip) as [l|] eqn:E1; [|done]. apply Hsub in E1. congruence. }
    assert (Hkey' : times_of rl ip ≠ [] → is_Some (requests rl1 !! ip)).
    { intros E. rewrite Hold in Hr by (by rewrite bool_decide_eq_false_2). cbn in Hr. rewrite Hr.
      unfold times_of in E. destruct (requests rl !! ip); [eauto|done]. }
    split; cbn.
    + case_bool_decide as E; [|done]. apply NoDup_app. split_and!; [done| |apply NoDup_singleton].
      intros x Hx ->%list_elem_of_singleton. apply Hdom in Hx. rewrite Hkey in Hx by done. by destruct Hx.
    + intros ip'. rewrite lookup_insert_is_Some. case_bool_decide as E.
      * rewrite elem_of_app, list_elem_of_singleton, Hdom. destruct (decide (ip = ip')); naive_solver.
      * rewrite Hdom. destruct (decide (ip = ip')) as [<-|]; naive_solver.
    + rewrite map_size_insert. case_bool_decide as E.
      * rewrite (Hkey E). specialize (Hnew eq_refl). lia.
      * destruct (Hkey' E) as [l ->]. rewrite Hold in Hr by done. cbn in Hr. rewrite Hr. apply (wf_size _ Hwf).
    + intros ip' l. rewrite lookup_insert_Some. intros [[_ <-]|[_ H]]; [by destruct valid|].
      eapply wf_nonempty; eauto.
    + intros ip' l. rewrite lookup_insert_Some. intros [[_ <-]|[_ H]].
      * rewrite length_app. cbn. lia.
      * eapply wf_limit; eauto.
Qed.

Lemma cleanup_lookup now rl ip times :
  requests (cleanup now rl) !! ip = Some times ↔
  times ≠ [] ∧ ∃ old, requests rl !! ip = Some old ∧ times = live (now - window rl) old.
Proof.
  cbn. rewrite lookup_omap. destruct (requests rl !! ip) as [old|]; cbn; [|naive_solver].
  case_decide; naive_solver.
Qed.

Lemma cleanup_wf now rl : wf rl → wf (cleanup now rl).
Proof.
  intros Hwf. split.
  - apply NoDup_filter, (wf_nodup _ Hwf).
  - intros ip. unfold cleanup; cbn [insertionOrder requests]. rewrite list_elem_of_filter.
    split; [tauto|]. intros Hs. split; [done|]. apply (wf_dom _ Hwf).
    destruct Hs as [times Ht]. apply (cleanup_lookup now) in Ht as (_ & old & -> & _). eauto.
  - etrans; [|apply (wf_size _ Hwf)]. rewrite <- !size_dom. apply subseteq_size.
    intros ip. rewrite !elem_of_dom. intros [times (_ & old & -> & _)%cleanup_lookup]. eauto.
  - intros ip times H. by apply cleanup_lookup in H as [? _].
  - intros ip times (_ & old & Hold & ->)%cleanup_lookup.
    pose proof (wf_limit _ Hwf _ _ Hold). pose proof (live_length (now - window rl) old). cbn. lia.
Qed.

(** ** Runs of the limiter *)

Inductive event :=
| EAllow (now : time) (ip : string) (ok : bool) (victim : option string)
| ECleanup (now : time).

Inductive step : IPRateLimiter → event → IPRateLimiter → Prop :=
| step_allow now ip ok victim rl rl' :
    Allow now ip rl = (ok, victim, rl') → step rl (EAllow now ip ok victim) rl'
| step_cleanup now rl : step rl (ECleanup now) (cleanup now rl).

Definition at_time (e : event) : time :=
  match e with EAllow now _ _ _ => now | ECleanup now => now end.

(** [run rl0 es rl]: the events [es], at non-decreasing instants, lead from
    [rl0] to [rl]. *)
Inductive run (rl0 : IPRateLimiter) : list event → IPRateLimiter → Prop :=
| run_nil : run rl0 [] rl0
| run_snoc es rl e rl' :
    run rl0 es rl → step rl e rl' → Forall (λ e', at_time e' ≤ at_time e) es →
    run rl0 (es ++ [e]) rl'.

(** The instants at which a request of [ip] was let through. *)
Definition accepted (ip : string) (es : list event) : list time :=
  omap (λ e, match e with
             | EAllow now ip' true _ => if decide (ip' = ip) then Some now else None
             | _ => None
             end) es.

(** [ip] is never pushed out of the map by an eviction. *)
Definition kept (ip : string) (es : list event) : Prop :=
  Forall (λ e, match e with EAllow _ _ _ (Some v) => v ≠ ip | _ => True end) es.

Lemma accepted_app ip es1 es2 : accepted ip (es1 ++ es2) = accepted ip es1 ++ accepted ip es2.
Proof. apply omap_app. Qed.

Lemma step_params rl e rl' : step rl e rl' → limit rl' = limit rl ∧ window rl' = window rl.
Proof.
  destruct 1 as [now ip ok victim rl rl' Ha|]; [|done]. unfold Allow in Ha.
  destruct (_ <=? _); [by simplify_eq|]. destruct (evict _ _). by simplify_eq.
Qed.

Lemma run_params rl0 es rl : run rl0 es rl → limit rl = limit rl0 ∧ window rl = window rl0.
Proof.
  induction 1 as [|es rl e rl' _ [IH1 IH2] Hs _]; [done|].
  apply step_params in Hs as [-> ->]. done.
Qed.

Lemma run_wf rl0 es rl : 1 ≤ limit rl0 → wf rl0 → run rl0 es rl → wf rl.
Proof.
  intros Hlim Hwf. induction 1 as [|es rl e rl' Hr IH Hs _]; [done|].
  destruct (run_params _ _ _ Hr) as [Hl _].
  destruct Hs as [now ip ok victim rl rl' Ha|]; [|by apply cleanup_wf].
  eapply Allow_wf; [|exact IH|exact Ha]. lia.
Qed.

(** What a step does to the times of an address it does not evict. *)
Lemma step_times rl e rl' ip :
  wf rl → step rl e rl' → kept ip [e] →
  (∃ v, e = EAllow (at_time e) ip true v ∧
     Z.of_nat (length (live (at_time e - window rl) (times_of rl ip))) < limit rl ∧
     times_of rl' ip = live (at_time e - window rl) (times_of rl ip) ++ [at_time e]) ∨
  accepted ip [e] = [] ∧
  (times_of rl' ip = times_of rl ip ∨ times_of rl' ip = live (at_time e - window rl) (times_of rl ip)).
Proof.
  intros Hwf Hs Hk. destruct Hs as [now ip' ok victim rl rl' Ha|now rl]; cbn [at_time].
  - unfold Allow in Ha. destruct (_ <=? _) eqn:Ev; go_bool.
    + right. simplify_eq. split; [done|].
      destruct (decide (ip' = ip)) as [->|Hne]; [right|left]; unfold times_of at 1; cbn;
        [by rewrite lookup_insert_eq|by rewrite lookup_insert_ne].
    + destruct (evict _ rl) as [v1 rl1] eqn:He. simplify_eq.
      destruct (evict_spec _ _ _ _ Hwf He) as (_ & _ & Hr & _ & _ & _).
      destruct (decide (ip' = ip)) as [->|Hne].
      * left. exists victim. split_and!; [done..|].
        unfold times_of at 1; cbn. by rewrite lookup_insert_eq.
      * right. cbn. rewrite decide_False by done. split; [done|]. left.
        unfold times_of; cbn. rewrite lookup_insert_ne, Hr by done.
        unfold kept in Hk. apply Forall_cons in Hk as [Hk _].
        destruct victim as [v|]; cbn in *; [|done]. rewrite lookup_delete_ne; done.
  - right. split; [done|]. right. unfold times_of.
    cbn. rewrite lookup_omap. destruct (requests rl !! ip); cbn; [|done]. by case_decide as E; rewrite ?E.
Qed.

(** The run driven by a script: [(now, Some ip)] is a request, [(now, None)] a
    cleanup. *)
Definition exec1 (rl : IPRateLimiter) (a : time * option string) : event * IPRateLimiter :=
  match a with
  | (now, Some ip) => let '(ok, victim, rl') := Allow now ip rl in (EAllow now ip ok victim, rl')
  | (now, None) => (ECleanup now, cleanup now rl)
  end.

Fixpoint exec (rl : IPRateLimiter) (script : list (time * option string)) : list event * IPRateLimiter :=
  match script with
  | [] => ([], rl)
  | a :: script' =>
      let '(e, rl1) := exec1 rl a in
      let '(es, rl') := exec rl1 script' in (e :: es, rl')
  end.

Lemma exec1_step rl a : step rl (exec1 rl a).1 (exec1 rl a).2 ∧ at_time (exec1 rl a).1 = a.1.
Proof.
  destruct a as [now [ip|]]; cbn; [|by split; [constructor|]].
  destruct (Allow now ip rl) as [[ok victim] rl'] eqn:E. cbn. by split; [constructor|].
Qed.

Lemma exec_run_from rl0 es0 rl script :
  run rl0 es0 rl → StronglySorted Z.le (map at_time es0 ++ map fst script) →
  run rl0 (es0 ++ (exec rl script).1) (exec rl script).2.
Proof.
  revert es0 rl. induction script as [|a script IH]; intros es0 rl Hr Hs; cbn.
  { by rewrite app_nil_r. }
  pose proof (exec1_step rl a) as [Hstep Hat].
  destruct (exec1 rl a) as [e rl1]. cbn in Hstep, Hat.
  specialize (IH (es0 ++ [e]) rl1). destruct (exec rl1 script) as [es rl']. cbn in *.
  rewrite cons_middle, (assoc (++)). apply IH.
  - econstructor; [done..|]. apply StronglySorted_app in Hs as (H1 & _ & _).
    apply Forall_forall. intros e' He'. rewrite Hat. apply H1; [|left].
    by apply list_elem_of_fmap_2.
  - rewrite map_app. cbn. rewrite <- (assoc (++)). cbn. by rewrite Hat.
Qed.

Lemma exec_run rl script :
  StronglySorted Z.le (map fst script) → run rl (exec rl script).1 (exec rl script).2.
Proof. intros Hs. apply (exec_run_from rl [] rl script); [constructor|done]. Qed.

(** Requests of [ip] let through in the window that ends at [t]. *)
Definition in_window (w : duration) (t : time) (ts : list time) : list time :=
  filter (λ τ, t - w < τ ∧ τ ≤ t) ts.

Lemma in_window_live w t now ts :
  now ≤ t → (length (in_window w t ts) ≤ length (live (now - w) ts))%nat.
Proof.
  intros Ht. induction ts as [|τ ts IH]; [cbn; lia|].
  unfold in_window, live in *. rewrite !filter_cons. unfold After in *.
  repeat case_decide; cbn; lia.
Qed.

(** The times of a tracked address are its recent accepted requests. *)
Lemma run_times rl0 es rl ip :
  1 ≤ limit rl0 → wf rl0 → times_of rl0 ip = [] → run rl0 es rl → kept ip es →
  (∀ now c, Forall (λ e, at_time e ≤ now) es → now - window rl0 ≤ c →
     live c (times_of rl ip) = live c (accepted ip es)) ∧
  (∀ t, Z.of_nat (length (in_window (window rl0) t (accepted ip es))) ≤ limit rl0).
Proof.
  intros Hlim Hwf Hnew Hr. induction Hr as [|es rl e rl' Hr IH Hs Hmono]; intros Hk.
  { rewrite Hnew. split; [done|]. intros t. cbn. lia. }
  apply Forall_app in Hk as [Hk Hke]. destruct (IH Hk) as [IHt IHw]. clear IH.
  destruct (run_params _ _ _ Hr) as [Hl Hw].
  pose proof (run_wf _ _ _ Hlim Hwf Hr) as Hwf'.
  assert (Hlive : ∀ c, at_time e - window rl0 ≤ c → live c (times_of rl ip) = live c (accepted ip es)).
  { intros c Hc. by apply (IHt (at_time e)). }
  destruct (step_times _ _ _ ip Hwf' Hs Hke) as [(v & He & Hlen & Ht)|(Hacc & Ht)]; rewrite accepted_app.
  - assert (accepted ip [e] = [at_time e]) as -> by (rewrite He; cbn; by rewrite decide_True).
    rewrite Hw, Hl in *. split.
    + intros now c [_ [Hn _]%Forall_cons]%Forall_app Hc. rewrite Ht, !live_app, live_live by lia.
      rewrite Hlive by lia. done.
    + intros t. unfold in_window. rewrite filter_app, length_app. fold (in_window (window rl0) t (accepted ip es)).
      rewrite filter_cons, filter_nil. case_decide as Hin; cbn.
      * pose proof (in_window_live (window rl0) t (at_time e) (accepted ip es)) as Hle.
        rewrite <- Hlive in Hle by lia. lia.
      * specialize (IHw t). lia.
  - rewrite Hacc, app_nil_r. split; [|done].
    intros now c [_ [Hn _]%Forall_cons]%Forall_app Hc.
    destruct Ht as [-> | ->]; [|rewrite Hw, live_live by lia]; apply Hlive; lia.
Qed.

(** ** When an address is forgotten

    Of a script alone: at some request, ten thousand addresses other than [ip]
    have asked within the window before the last sweep, or since it. *)
Fixpoint crowded (win : duration) (ip : string) (recent : list (time * string)) (script : list (time * option string)) : Prop :=
  match script with
  | [] => False
  | (now, None) :: script' => crowded win ip (filter (λ x, now - win < x.1) recent) script'
  | (now, Some a) :: script' =>
      let recent' := if decide (a = ip) then recent else (now, a) :: recent in
      (maxRateLimiterEntries ≤ size (list_to_set (C := gset string) recent'.*2))%nat ∨ crowded win ip recent' script'
  end.

(** A crowd takes as many requests. *)
Lemma crowded_long win ip recent script :
  crowded win ip recent script → (maxRateLimiterEntries ≤ length recent + length script)%nat.
Proof.
  revert recent. induction script as [|[now [a|]] script IH]; intros recent; cbn [crowded length]; [done| |].
  - assert (length (if decide (a = ip) then recent else (now, a) :: recent) ≤ S (length recent))%nat as Hl by (case_decide; cbn; lia).
    intros [H|H%IH]; [|lia]. assert (∀ l : list string, (size (list_to_set (C := gset string) l) ≤ length l)%nat) as Hsz.
    { induction l as [|x l IHl]; cbn; [by rewrite size_empty|]. pose proof (size_union_alt {[x]} (list_to_set (C := gset string) l)).
      pose proof (subseteq_size (list_to_set (C := gset string) l ∖ {[x]}) (list_to_set l) ltac:(set_solver)). rewrite size_singleton in *. lia. }
    specialize (Hsz (if decide (a = ip) then recent else (now, a) :: recent).*2). rewrite length_fmap in Hsz. lia.
  - intros H%IH. pose proof (length_filter (λ x : time * string, now - win < x.1) recent). lia.
Qed.

(** Every remembered time of another address is a recent request of it. *)
Definition remembers (ip : string) (rl : IPRateLimiter) (recent : list (time * string)) : Prop :=
  ∀ a times t, requests rl !! a = Some times → a ≠ ip → t ∈ times → (t, a) ∈ recent.

Lemma cleanup_remembers ip now rl recent :
  remembers ip rl recent → remembers ip (cleanup now rl) (filter (λ x, now - window rl < x.1) recent).
Proof.
  intros Hr a times t (_ & old & Ho & ->)%cleanup_lookup Ha [Ht Hin]%live_sub. apply list_elem_of_filter. split; [done|]. by eapply Hr.
Qed.

Lemma Allow_remembers ip now a rl recent ok victim rl' :
  wf rl → remembers ip rl recent → Allow now a rl = (ok, victim, rl') →
  remembers ip rl' (if decide (a = ip) then recent else (now, a) :: recent).
Proof.
  intros Hwf Hr. unfold Allow. set (valid := live _ _).
  assert (∀ t, t ∈ valid → a ≠ ip → (t, a) ∈ recent) as Hv.
  { intros t [_ Ht]%live_sub Ha. unfold times_of in Ht. destruct (requests rl !! a) as [l|] eqn:E; [|by apply not_elem_of_nil in Ht]. by eapply Hr. }
  assert (∀ b l t, requests rl !! b = Some l → b ≠ ip → t ∈ l → (t, b) ∈ (if decide (a = ip) then recent else (now, a) :: recent)) as Hold.
  { intros b l t Hb Hne Ht. case_decide; [by eapply Hr|]. right. by eapply Hr. }
  destruct (_ <=? _).
  - intros [= _ _ <-] b times t. cbn. rewrite lookup_insert_Some. intros [[<- <-]|[_ Hb]] Hne Ht; [|by eapply Hold].
    rewrite decide_False by done. right. by apply Hv.
  - destruct (evict _ rl) as [v rl1] eqn:He. intros [= _ _ <-] b times t. cbn. rewrite lookup_insert_Some. intros [[<- <-]|[_ Hb]] Hne Ht.
    + rewrite decide_False by done. apply elem_of_app in Ht as [Ht| ->%list_elem_of_singleton]; [right; by apply Hv|by left].
    + destruct (evict_wf_facts _ _ _ _ Hwf He) as (_ & _ & Hsub). apply Hsub in Hb. by eapply Hold.
Qed.

(** Pushing [ip] out takes a full map and a new address: ten thousand others. *)
Lemma evicted_crowd ip now a rl recent ok rl' :
  wf rl → remembers ip rl recent → Allow now a rl = (ok, Some ip, rl') →
  (maxRateLimiterEntries ≤ size (list_to_set (C := gset string) (if decide (a = ip) then recent else (now, a) :: recent).*2))%nat.
Proof.
  intros Hwf Hr. unfold Allow. destruct (_ <=? _); [done|]. unfold evict. case_bool_decide as Hnew; [|done]. cbn [andb].
  case_bool_decide as Hfull; [|done]. destruct (insertionOrder rl) as [|v rest] eqn:Eo; [done|]. intros [= _ -> _].
  assert (is_Some (requests rl !! ip)) as Hip by (apply (wf_dom _ Hwf); rewrite Eo; by left).
  assert (a ≠ ip) as Hne by (intros ->; rewrite (wf_new _ _ Hwf Hnew) in Hip; by destruct Hip).
  rewrite decide_False by done. assert (dom (requests rl) ∖ {[ip]} ∪ {[a]} ⊆ list_to_set (C := gset string) ((now, a) :: recent).*2) as Hsub.
  { intros b. rewrite elem_of_union, elem_of_difference, !elem_of_singleton, elem_of_dom, elem_of_list_to_set.
    intros [[[times Hb] Hbip]| ->]; [|by left]. right. destruct times as [|t times]; [by destruct (wf_nonempty _ Hwf _ _ Hb)|].
    apply list_elem_of_fmap. exists (t, b). split; [done|]. eapply Hr; [exact Hb|done|by left]. }
  apply subseteq_size in Hsub. etrans; [|exact Hsub]. rewrite size_union by (assert (requests rl !! a = None) by (by apply wf_new); set_unfold; intros b [Hb _] ->; apply elem_of_dom in Hb as [? ?]; congruence).
  rewrite size_difference by (apply singleton_subseteq_l, elem_of_dom, Hip). rewrite !size_singleton, size_dom. assert (1 ≤ size (requests rl))%nat; [|lia].
  destruct Hip as [l Hl]. rewrite <- (insert_delete_id _ _ _ Hl), map_size_insert, lookup_delete_eq. lia.
Qed.

Lemma uncrowded_kept ip rl recent script :
  1 ≤ limit rl → wf rl → remembers ip rl recent → ¬ crowded (window rl) ip recent script → kept ip (exec rl script).1.
Proof.
  intros Hlim. revert rl Hlim recent. induction script as [|[now [a|]] script IH]; intros rl Hlim recent Hwf Hr Hc; cbn [exec exec1 crowded] in *.
  { constructor. }
  - destruct (Allow now a rl) as [[ok victim] rl'] eqn:Ea. assert (limit rl' = limit rl ∧ window rl' = window rl) as [El Ew]
      by (by eapply step_params, (step_allow now a)).
    specialize (IH rl' ltac:(by rewrite El) _ ltac:(by eapply Allow_wf) ltac:(by eapply Allow_remembers) ltac:(rewrite Ew; tauto)).
    destruct (exec rl' script) as [es rl'']. cbn [fst] in *. constructor; [|done]. destruct victim as [v|]; [|done]. intros ->. apply Hc. left. by eapply evicted_crowd.
  - specialize (IH (cleanup now rl) Hlim _ ltac:(by apply cleanup_wf) ltac:(by apply cleanup_remembers) Hc).
    destruct (exec (cleanup now rl) script) as [es rl'']. cbn [fst] in *. by constructor.
Qed.

(** Sliding-window guarantee.  Whatever the interleaving of requests and
    periodic cleanups, in any window of length [window] the limiter lets
    through at most [limit] requests of an address that is not pushed out of
    the map by the FIFO eviction. *)
Theorem sliding_window lim win es rl ip t :
  1 ≤ lim → run (NewIPRateLimiter lim win) es rl → kept ip es →
  Z.of_nat (length (in_window win t (accepted ip es))) ≤ lim.
Proof.
  intros Hlim Hr Hk.
  destruct (run_times (NewIPRateLimiter lim win) _ _ ip Hlim (NewIPRateLimiter_wf lim win) eq_refl Hr Hk) as [_ Hw].
  apply Hw.
Qed.

Definition demo_script : list (time * option string) :=
  [(0, Some "a"%string); (4, Some "a"%string); (6, Some "b"%string); (7, Some "a"%string);
   (9, None); (11, Some "a"%string)].

Lemma sliding_window_witness :
  let es := (exec (NewIPRateLimiter 2 10) demo_script).1 in
  accepted "a" es = [0; 4; 11] ∧ Z.of_nat (length (in_window 10 11 (accepted "a" es))) ≤ 2.
Proof.
  intros es. split; [vm_compute; reflexivity|].
  apply (sliding_window 2 10 es (exec (NewIPRateLimiter 2 10) demo_script).2 "a" 11).
  - lia.
  - apply exec_run. sorted_list.
  - vm_compute. repeat constructor.
Defined.

(** Bounded memory.  In every reachable state the map holds at most
    [maxRateLimiterEntries] addresses, tracks exactly the addresses of the
    FIFO order, without duplicates, and stores at most [limit] times for each. *)
Theorem bounded_tracking lim win es rl :
  1 ≤ lim → run (NewIPRateLimiter lim win) es rl → wf rl.
Proof. intros Hlim. by apply run_wf, NewIPRateLimiter_wf. Qed.

Lemma bounded_tracking_witness :
  wf (exec (NewIPRateLimiter 2 10) demo_script).2.
Proof.
  apply (bounded_tracking 2 10 (exec (NewIPRateLimiter 2 10) demo_script).1).
  - lia.
  - apply exec_run. sorted_list.
Defined.

(** The header of an untrusted peer is ignored: unless the TCP peer is in
    the configured proxy list, the limiter's key depends on the peer's own
    address only, so rotating X-Forwarded-For or X-Real-IP buys nothing. *)
Lemma untrusted_headers_ignored {IP IPNet : Type} (ParseIP : string → option IP)
    (net_contains : IPNet → IP → bool) (SplitHostPort : string → option string)
    (proxies : list IPNet) (peer xff xri : string) :
  isTrustedPeer ParseIP net_contains SplitHostPort proxies peer = false →
  extractIP ParseIP net_contains SplitHostPort proxies peer xff xri = default peer (SplitHostPort peer).
Proof. unfold extractIP. by intros ->. Qed.

End RateLimit.
