(* ===== verification/RealizedMerge.v ===== *)
(** * Folding a realized-only reconstruction into the stored history
    (internal/service/reconstruction_realized.go, and
    [mergeRealizedReconstruction] of internal/service/sync.go)

    A cTrader reconstruction knows settled balances only.  It fills a fresh
    connection, extends a stored history day by day, corrects the flows of
    measured days, and never rewrites a reconstructed one. *)

From S2P Require Import Prelude Num GoTime Types.
From stdpp Require Import base gmap strings list sorting pretty.
From Stdlib Require Import ZArith Lia.
Local Open Scope Z_scope.

Module RealizedMerge.
Section merge.
Context {F : Type} {NF : Num F}.

Definition realizedOnlyReconstruction (exchange : string) : bool :=
  EqualFold exchange "ctrader".

Definition isLiveMeasurement (s : Snapshot F) : bool :=
  if sn_IsHistorical s || sn_FromExternalRebuilder s then false
  else match sn_Breakdown s with
       | None => false
       | Some b => existsb (λ m, bool_decide (is_Some (breakdown_market b m))) all_markets
       end.

(** [const reproductionTolerance = 0.001] *)
Definition reproductionTolerance : F := flit 1 3.

Definition reproduces (rebuilt measured : F) : bool :=
  fleb (fdiv (fabs (fsub rebuilt measured)) (fabs measured)) reproductionTolerance.

Record realizedMerge := mkMerge {
  rm_write : list (Snapshot F);
  rm_agree : Z;
  rm_disagree : Z;
  rm_contradicted : option (Snapshot F);
  rm_rebuiltAt : F;
}.

Definition rejected (m : realizedMerge) : bool := rm_agree m <? rm_disagree m.

Definition empty_merge : realizedMerge := mkMerge [] 0 0 None f0.

(** The map [stored] of the first loop: the last row of a day wins. *)
Definition stored_days (existing : list (Snapshot F)) : gmap Z (Snapshot F) :=
  foldl (λ m e, <[sn_day e := e]> m) ∅ existing.

(** [fresh]: nothing is stored before [today]. *)
Definition is_fresh (existing : list (Snapshot F)) (today : time) : bool :=
  forallb (λ e, negb (Before (sn_day e) today)) existing.

Definition write_row (w : Snapshot F) (m : realizedMerge) : realizedMerge :=
  mkMerge (rm_write m ++ [w]) (rm_agree m) (rm_disagree m) (rm_contradicted m) (rm_rebuiltAt m).

(** [m.disagree++], remembering the first contradicted row. *)
Definition note_disagree (e : Snapshot F) (at_ : F) (m : realizedMerge) : realizedMerge :=
  match rm_contradicted m with
  | None => mkMerge (rm_write m) (rm_agree m) (rm_disagree m + 1) (Some e) at_
  | Some _ => mkMerge (rm_write m) (rm_agree m) (rm_disagree m + 1) (rm_contradicted m) (rm_rebuiltAt m)
  end.

Definition note_agree (m : realizedMerge) : realizedMerge :=
  mkMerge (rm_write m) (rm_agree m + 1) (rm_disagree m) (rm_contradicted m) (rm_rebuiltAt m).

Definition same_flows (e r : Snapshot F) : bool :=
  feqb (sn_Deposits e) (sn_Deposits r) && feqb (sn_Withdrawals e) (sn_Withdrawals r).

(** One iteration of the second loop; [written] is the set of new days. *)
Definition merge_step (fresh : bool) (stored : gmap Z (Snapshot F))
    (st : realizedMerge * gset Z) (r : Snapshot F) : realizedMerge * gset Z :=
  let '(m, written) := st in
  let d := sn_day r in
  let prev := d - Day in
  let held := fresh || bool_decide (is_Some (stored !! prev)) || bool_decide (prev ∈ written) in
  match stored !! d with
  | None => if held then (write_row r m, {[d]} ∪ written) else (m, written)
  | Some e =>
      if isLiveMeasurement e && fltb f0 (sn_RealizedBalance e) then
        if negb (reproduces (sn_RealizedBalance r) (sn_RealizedBalance e)) then
          let m1 := note_disagree e (sn_RealizedBalance r) m in
          (if held then write_row r m1 else m1, written)
        else
          let m1 := note_agree m in
          if negb held || same_flows e r then (m1, written)
          else (write_row (set_flows (sn_Deposits r) (sn_Withdrawals r) e) m1, written)
      else (m, written)
  end.

Definition merge_loop (fresh : bool) (stored : gmap Z (Snapshot F)) (ordered : list (Snapshot F)) :
    realizedMerge * gset Z :=
  foldl (merge_step fresh stored) (empty_merge, ∅) ordered.

Definition mergeRealizedOnly (rebuilt existing : list (Snapshot F)) (today : time) : realizedMerge :=
  (merge_loop (is_fresh existing today) (stored_days existing) (sort_by sn_Timestamp rebuilt)).1.

(** [mergeRealizedReconstruction] of sync.go: the days to write, none, or a
    refusal. *)
Definition mergeRealizedReconstruction (rebuilt stored : list (Snapshot F)) (dryRun : bool)
    (todayKey : time) : res (list (Snapshot F)) :=
  let m := mergeRealizedOnly rebuilt stored todayKey in
  if negb (rejected m) then Ok (rm_write m)
  else if dryRun then Ok (rm_write m)
  else if rm_agree m + rm_disagree m =? 1 then Ok []
  else Err ("reconstruction contradicts the measured realized balance on " +:+ pretty (rm_disagree m)
            +:+ " of " +:+ pretty (rm_agree m + rm_disagree m) +:+ " days")%string.

(** ** What a merge may write *)

Definition measured (e : Snapshot F) : bool :=
  isLiveMeasurement e && fltb f0 (sn_RealizedBalance e).

(** The row [w] the merge writes for the rebuilt row [r]. *)
Inductive writes (stored : gmap Z (Snapshot F)) (r : Snapshot F) : Snapshot F → Prop :=
| writes_new : stored !! sn_day r = None → writes stored r r
| writes_contradicted e :
    stored !! sn_day r = Some e → measured e = true →
    reproduces (sn_RealizedBalance r) (sn_RealizedBalance e) = false → writes stored r r
| writes_flows e :
    stored !! sn_day r = Some e → measured e = true →
    reproduces (sn_RealizedBalance r) (sn_RealizedBalance e) = true →
    same_flows e r = false →
    writes stored r (set_flows (sn_Deposits r) (sn_Withdrawals r) e).

(** A day is connected to the stored history when a run of consecutive new
    days links it to a stored day. *)
Inductive connected (stored : gmap Z (Snapshot F)) (written : gset Z) : Z → Prop :=
| connected_stored d : is_Some (stored !! d) → connected stored written d
| connected_next d : connected stored written (d - Day) → d ∈ written → connected stored written d.

Lemma connected_mono stored w1 w2 d : w1 ⊆ w2 → connected stored w1 d → connected stored w2 d.
Proof. induction 2; [by left|right; set_solver]. Qed.

(** The loop's invariant, over the rebuilt rows processed so far. *)
Record merge_inv (fresh : bool) (stored : gmap Z (Snapshot F)) (done_ : list (Snapshot F))
    (st : realizedMerge * gset Z) : Prop := {
  inv_sound : Forall (λ w, ∃ r, r ∈ done_ ∧ writes stored r w) (rm_write st.1);
  inv_written : ∀ d, d ∈ st.2 → stored !! d = None ∧ ∃ r, r ∈ done_ ∧ r ∈ rm_write st.1 ∧ sn_day r = d;
  inv_new : ∀ w, w ∈ rm_write st.1 → stored !! sn_day w = None → sn_day w ∈ st.2;
  inv_connected : fresh = false → ∀ d, d ∈ st.2 → connected stored st.2 d;
  inv_fresh : fresh = true → ∀ r, r ∈ done_ → stored !! sn_day r = None → r ∈ rm_write st.1;
  inv_counts : rm_agree st.1 + rm_disagree st.1 =
    Z.of_nat (length (filter (λ r, from_option measured false (stored !! sn_day r) = true) done_));
  inv_disagree : 0 ≤ rm_agree st.1 ∧ 0 ≤ rm_disagree st.1 ∧
    (0 < rm_disagree st.1 → is_Some (rm_contradicted st.1)) ∧
    (∀ e, rm_contradicted st.1 = Some e → measured e = true);
}.

Lemma merge_inv_init fresh stored : merge_inv fresh stored [] (empty_merge, ∅).
Proof. split; cbn; [constructor|set_solver|set_solver|set_solver|set_solver|done|]. split_and!; [lia..|lia|done]. Qed.

(** Adding one processed row [r], which writes the rows [ws] and the new days
    [ds]. *)
Lemma merge_inv_snoc fresh stored done_ m written r m' ws ds :
  merge_inv fresh stored done_ (m, written) →
  rm_write m' = rm_write m ++ ws →
  Forall (writes stored r) ws →
  (∀ d, d ∈ ds → d = sn_day r ∧ stored !! d = None ∧ r ∈ ws ∧
     (fresh = false → connected stored written (d - Day))) →
  (∀ w, w ∈ ws → stored !! sn_day w = None → sn_day w ∈ ds) →
  (fresh = true → stored !! sn_day r = None → r ∈ ws) →
  rm_agree m' + rm_disagree m' = rm_agree m + rm_disagree m +
    (if from_option measured false (stored !! sn_day r) then 1 else 0) →
  0 ≤ rm_agree m' ∧ 0 ≤ rm_disagree m' ∧
    (0 < rm_disagree m' → is_Some (rm_contradicted m')) ∧
    (∀ e, rm_contradicted m' = Some e → measured e = true) →
  merge_inv fresh stored (done_ ++ [r]) (m', ds ∪ written).
Proof.
  intros [I1 I2 IN I3 I4 I5 _] Hw Hws Hds Hnew Hfresh Hcount Hdis. cbn in *.
  split; cbn; rewrite ?Hw; [| | | | | |done].
  - apply Forall_app. split; [eapply Forall_impl; [exact I1|]|eapply Forall_impl; [exact Hws|]];
      cbn; [intros w (r' & ? & ?); exists r'|intros w ?; exists r]; set_solver.
  - intros d [Hd|Hd]%elem_of_union.
    + destruct (Hds d Hd) as (-> & ? & ? & _). split; [done|]. exists r. set_solver.
    + destruct (I2 d Hd) as (? & r' & ? & ? & ?). split; [done|]. exists r'. set_solver.
  - intros w [Hin|Hin]%elem_of_app Hn; apply elem_of_union; [right|left]; auto.
  - intros Hf d [Hd|Hd]%elem_of_union.
    + destruct (Hds d Hd) as (_ & _ & _ & Hc). apply connected_next; [|set_solver].
      eapply connected_mono; [|by apply Hc]. set_solver.
    + eapply connected_mono; [|by apply I3]. set_solver.
  - intros Hf r' [Hr'| ->%list_elem_of_singleton]%elem_of_app Hn; apply elem_of_app; [left|right]; auto.
  - rewrite filter_app, length_app, Hcount, I5, filter_cons, filter_nil.
    destruct (from_option measured false (stored !! sn_day r)); case_decide; cbn; try done; lia.
Qed.

Lemma note_disagree_spec e x m :
  rm_write (note_disagree e x m) = rm_write m ∧
  rm_agree (note_disagree e x m) = rm_agree m ∧
  rm_disagree (note_disagree e x m) = rm_disagree m + 1 ∧
  rm_contradicted (note_disagree e x m) = Some (default e (rm_contradicted m)).
Proof. unfold note_disagree. by destruct (rm_contradicted m) eqn:E; cbn; rewrite ?E. Qed.

(** The side conditions of [merge_inv_snoc]. *)
Ltac merge_side :=
  cbn; rewrite ?app_nil_r;
  try match goal with H : measured _ = _ |- _ => rewrite H end;
  try solve [ done | lia | by intros ? ?%not_elem_of_empty | by intros ? ?%elem_of_nil | intros; simplify_eq; auto
            | by constructor | split_and!; first [lia|by eauto|by intros; simplify_eq] ].

Lemma merge_inv_step fresh stored done_ st r :
  (∀ d e, stored !! d = Some e → sn_day e = d) →
  merge_inv fresh stored done_ st →
  merge_inv fresh stored (done_ ++ [r]) (merge_step fresh stored st r).
Proof.
  destruct st as [m written]. intros Hst Hinv.
  pose proof (inv_disagree _ _ _ _ Hinv) as (Ha & Hd & Hc & Hc'). cbn in Ha, Hd, Hc, Hc'.
  unfold merge_step. set (held := fresh || _ || _).
  assert (Hheld : held = true → fresh = false → connected stored written (sn_day r - Day)).
  { unfold held. intros Hh ->. cbn in Hh. apply orb_true_iff in Hh as [Hh|Hh]; apply bool_decide_eq_true in Hh.
    - by apply connected_stored.
    - by apply (inv_connected _ _ _ _ Hinv). }
  assert (Hfresh : held = false → fresh = false) by (unfold held; by destruct fresh).
  clearbody held.
  destruct (stored !! sn_day r) as [e|] eqn:Er.
  - fold (measured e). rewrite <- (left_id_L ∅ (∪) written). destruct (measured e) eqn:Em.
    + destruct (reproduces _ _) eqn:Ep; cbn [negb].
      * destruct (negb held || same_flows e r) eqn:Ek; go_bool.
        -- apply (merge_inv_snoc _ _ done_ m _ _ _ [] ∅); rewrite ?Er; merge_side.
        -- apply (merge_inv_snoc _ _ done_ m _ _ _ [set_flows (sn_Deposits r) (sn_Withdrawals r) e] ∅);
             rewrite ?Er; merge_side.
           ++ apply Forall_cons_2; [by eapply writes_flows|by constructor].
           ++ intros w ->%list_elem_of_singleton. unfold set_flows, sn_day; cbn. fold (sn_day e).
              rewrite (Hst _ _ Er). congruence.
      * destruct (note_disagree_spec e (sn_RealizedBalance r) m) as (H1 & H2 & H3 & H4).
        assert (measured (default e (rm_contradicted m)) = true)
          by (destruct (rm_contradicted m); cbn; auto).
        destruct held.
        -- apply (merge_inv_snoc _ _ done_ m _ _ _ [r] ∅); rewrite ?Er; cbn; rewrite ?H1, ?H2, ?H3, ?H4; merge_side.
           ++ apply Forall_cons_2; [by eapply writes_contradicted|by constructor].
           ++ intros w ->%list_elem_of_singleton. congruence.
        -- apply (merge_inv_snoc _ _ done_ m _ _ _ [] ∅); rewrite ?Er, ?H1, ?H2, ?H3, ?H4; merge_side.
    + apply (merge_inv_snoc _ _ done_ m _ _ _ [] ∅); rewrite ?Er; merge_side.
  - destruct held.
    + apply (merge_inv_snoc _ _ done_ m _ _ _ [r] {[sn_day r]}); rewrite ?Er; merge_side.
      * apply Forall_cons_2; [by apply writes_new|by constructor].
      * intros d ->%elem_of_singleton. split_and!; auto. set_solver.
      * set_solver.
    + rewrite <- (left_id_L ∅ (∪) written).
      apply (merge_inv_snoc _ _ done_ m _ _ _ [] ∅); rewrite ?Er; merge_side.
      intros ->. by specialize (Hfresh eq_refl).
Qed.

Lemma merge_loop_inv_gen fresh stored done_ st l :
  (∀ d e, stored !! d = Some e → sn_day e = d) →
  merge_inv fresh stored done_ st →
  merge_inv fresh stored (done_ ++ l) (foldl (merge_step fresh stored) st l).
Proof.
  intros Hst. revert done_ st. induction l as [|r l IH]; intros done_ st Hinv; cbn; [by rewrite app_nil_r|].
  rewrite cons_middle, (assoc (++)). by apply IH, merge_inv_step.
Qed.

Lemma merge_loop_inv fresh stored l :
  (∀ d e, stored !! d = Some e → sn_day e = d) →
  merge_inv fresh stored l (merge_loop fresh stored l).
Proof. intros Hst. by apply (merge_loop_inv_gen _ _ []), merge_inv_init. Qed.

(** The stored row of a day is one of the connection's rows of that day. *)
Lemma stored_days_gen (m : gmap Z (Snapshot F)) (existing : list (Snapshot F)) d :
  foldl (λ m e, <[sn_day e := e]> m) m existing !! d =
  match last (filter (λ e, sn_day e = d) existing) with
  | Some e => Some e
  | None => m !! d
  end.
Proof.
  revert m. induction existing as [|e l IH]; intros m; [done|]. cbn [foldl].
  rewrite IH, filter_cons, lookup_insert.
  destruct (decide (sn_day e = d)) as [He|He].
  - rewrite last_cons. by destruct (last (filter _ l)).
  - by destruct (last (filter _ l)).
Qed.

Lemma stored_days_some (existing : list (Snapshot F)) d e :
  stored_days existing !! d = Some e → e ∈ existing ∧ sn_day e = d.
Proof.
  unfold stored_days. rewrite stored_days_gen, lookup_empty.
  destruct (last _) eqn:E; intros; simplify_eq.
  apply last_Some_elem_of in E. apply list_elem_of_filter in E. naive_solver.
Qed.

Lemma stored_days_none (existing : list (Snapshot F)) d :
  stored_days existing !! d = None ↔ ∀ e, e ∈ existing → sn_day e ≠ d.
Proof.
  unfold stored_days. rewrite stored_days_gen, lookup_empty.
  destruct (last _) eqn:E.
  - apply last_Some_elem_of, list_elem_of_filter in E. split; [done|]. naive_solver.
  - apply last_None in E. split; [|done]. intros _ e He Hd.
    assert (e ∈ filter (λ e, sn_day e = d) existing) as Hin by (by apply list_elem_of_filter).
    rewrite E in Hin. by apply elem_of_nil in Hin.
Qed.

Lemma mergeRealizedOnly_inv rebuilt existing today :
  merge_inv (is_fresh existing today) (stored_days existing) (sort_by sn_Timestamp rebuilt)
    (merge_loop (is_fresh existing today) (stored_days existing) (sort_by sn_Timestamp rebuilt)).
Proof. apply merge_loop_inv. intros d e He. by apply stored_days_some in He as [_ ?]. Qed.

(** The run of days behind [connected]. *)
Lemma connected_run stored written d :
  connected stored written d →
  ∃ n : nat, is_Some (stored !! (d - Z.of_nat n * Day)) ∧
    ∀ k : nat, (k < n)%nat → d - Z.of_nat k * Day ∈ written.
Proof.
  induction 1 as [d Hd|d _ (n & Hn & Hk) Hd].
  - exists 0%nat. rewrite Z.mul_0_l, Z.sub_0_r. split; [done|lia].
  - exists (S n). split.
    + by replace (d - Z.of_nat (S n) * Day) with (d - Day - Z.of_nat n * Day) by lia.
    + intros [|k] Hlt; [by rewrite Z.mul_0_l, Z.sub_0_r|].
      replace (d - Z.of_nat (S k) * Day) with (d - Day - Z.of_nat k * Day) by lia. apply Hk. lia.
Qed.

(** ** Theorems *)

(** C6: A stored history is never rewritten.  Every row the merge writes is
    either the rebuilt row of a day nothing is stored on, or falls on a day the
    live sync measured: there it is the rebuilt row when the rebuild
    contradicts the measurement, and otherwise the measured row itself, equity,
    balances and breakdown included, with only its deposits and withdrawals
    replaced.  A day a previous reconstruction wrote is never touched. *)
Theorem merge_preserves_history rebuilt existing today w :
  w ∈ rm_write (mergeRealizedOnly rebuilt existing today) →
  ∃ r, r ∈ rebuilt ∧
    ((w = r ∧ ∀ e, e ∈ existing → sn_day e ≠ sn_day r) ∨
     ∃ e, e ∈ existing ∧ sn_day e = sn_day r ∧ measured e = true ∧
       ((w = r ∧ reproduces (sn_RealizedBalance r) (sn_RealizedBalance e) = false) ∨
        (w = set_flows (sn_Deposits r) (sn_Withdrawals r) e ∧
         reproduces (sn_RealizedBalance r) (sn_RealizedBalance e) = true))).
Proof.
  intros Hw. pose proof (mergeRealizedOnly_inv rebuilt existing today) as Hinv.
  apply inv_sound in Hinv. unfold mergeRealizedOnly in Hw.
  rewrite Forall_forall in Hinv. destruct (Hinv w Hw) as (r & Hr & Hws).
  apply sort_by_elem in Hr. exists r. split; [done|].
  destruct Hws as [Hn|e He Hm Hp|e He Hm Hp _].
  - left. split; [done|]. by apply stored_days_none.
  - apply stored_days_some in He as [? ?]. right. exists e. naive_solver.
  - apply stored_days_some in He as [? ?]. right. exists e. naive_solver.
Qed.

(** No islands.  When the connection already holds a day before today, a
    day the merge adds is linked to a stored day by a run of consecutive days
    the merge adds too: a sync gap is never filled from the middle. *)
Theorem merge_extends_contiguously rebuilt existing today r :
  is_fresh existing today = false →
  r ∈ rm_write (mergeRealizedOnly rebuilt existing today) →
  (∀ e, e ∈ existing → sn_day e ≠ sn_day r) →
  ∃ n : nat, (∃ e, e ∈ existing ∧ sn_day e = sn_day r - Z.of_nat (S n) * Day) ∧
    ∀ k : nat, (k ≤ n)%nat → ∃ r', r' ∈ rebuilt ∧
      r' ∈ rm_write (mergeRealizedOnly rebuilt existing today) ∧
      sn_day r' = sn_day r - Z.of_nat k * Day.
Proof.
  intros Hf Hw Hn. pose proof (mergeRealizedOnly_inv rebuilt existing today) as Hinv.
  apply stored_days_none in Hn.
  pose proof (inv_new _ _ _ _ Hinv r Hw Hn) as Hd.
  destruct (connected_run _ _ _ (inv_connected _ _ _ _ Hinv Hf _ Hd)) as ([|n] & [e He] & Hk).
  { rewrite Z.mul_0_l, Z.sub_0_r in He. congruence. }
  exists n. split; [apply stored_days_some in He; naive_solver|].
  intros k Hle. destruct (inv_written _ _ _ _ Hinv _ (Hk k ltac:(lia))) as (_ & r' & Hr' & ? & ?).
  apply sort_by_elem in Hr'. by exists r'.
Qed.

(** The backfill at connect is complete: on a connection that holds
    nothing before today, every rebuilt day nothing is stored on is written. *)
Theorem merge_backfills_fresh rebuilt existing today r :
  is_fresh existing today = true → r ∈ rebuilt →
  (∀ e, e ∈ existing → sn_day e ≠ sn_day r) →
  r ∈ rm_write (mergeRealizedOnly rebuilt existing today).
Proof.
  intros Hf Hr Hn. pose proof (mergeRealizedOnly_inv rebuilt existing today) as Hinv.
  apply (inv_fresh _ _ _ _ Hinv Hf); [by apply sort_by_elem|by apply stored_days_none].
Qed.

(** The verdict is a majority of the measured days: the two counters add
    up to the rebuilt rows that fall on a measured day, and a rejected merge
    names a contradicted measured row, so the diagnostic built from it never
    reads through a nil pointer. *)
Theorem merge_verdict rebuilt existing today :
  let m := mergeRealizedOnly rebuilt existing today in
  rm_agree m + rm_disagree m =
    Z.of_nat (length (filter (λ r, from_option measured false (stored_days existing !! sn_day r) = true) rebuilt)) ∧
  (rejected m = true → ∃ e, rm_contradicted m = Some e ∧ measured e = true).
Proof.
  intros m. pose proof (mergeRealizedOnly_inv rebuilt existing today) as Hinv. split.
  - etrans; [apply (inv_counts _ _ _ _ Hinv)|]. by rewrite (sort_by_perm sn_Timestamp rebuilt).
  - destruct (inv_disagree _ _ _ _ Hinv) as (? & ? & Hc & Hm). unfold rejected. intros Hr. go_bool.
    destruct Hc as [e He]; [unfold m, mergeRealizedOnly in *; lia|]. exists e. split; [done|by apply Hm].
Qed.

End merge.

(** ** Concrete instances

    A connection that holds a reconstructed day 1 and measured days 2 and 3,
    on the morning of day 6.  The rebuild covers days 0 to 5: day 0 precedes
    the history and day 1 is reconstructed, so neither is written; day 2 is
    reproduced and takes the rebuilt deposit; day 3 is contradicted; days 4
    and 5 extend the history. *)

Definition demo_existing : list (Snapshot float64) :=
  [sample_row 1 1000 1000 0 0 false; sample_row 2 1100 1000 50 0 true; sample_row 3 1200 1300 0 0 true].

Definition demo_rebuilt : list (Snapshot float64) :=
  [sample_row 5 1020 1020 0 0 false; sample_row 0 900 900 0 0 false; sample_row 1 999 999 0 0 false;
   sample_row 2 1000 1000 0 0 false; sample_row 3 1010 1010 0 0 false; sample_row 4 1015 1015 0 0 false].

Definition demo_today : time := sample_day 6.

Example demo_merge :
  rm_write (mergeRealizedOnly demo_rebuilt demo_existing demo_today) =
  [sample_row 2 1100 1000 0 0 true; sample_row 3 1010 1010 0 0 false;
   sample_row 4 1015 1015 0 0 false; sample_row 5 1020 1020 0 0 false].
Proof. vm_compute. reflexivity. Qed.

Lemma merge_preserves_history_witness :
  ∃ r, r ∈ demo_rebuilt ∧
    ((sample_row 2 1100 1000 0 0 true = r ∧ ∀ e, e ∈ demo_existing → sn_day e ≠ sn_day r) ∨
     ∃ e, e ∈ demo_existing ∧ sn_day e = sn_day r ∧ measured e = true ∧
       ((sample_row 2 1100 1000 0 0 true = r ∧ reproduces (sn_RealizedBalance r) (sn_RealizedBalance e) = false) ∨
        (sample_row 2 1100 1000 0 0 true = set_flows (sn_Deposits r) (sn_Withdrawals r) e ∧
         reproduces (sn_RealizedBalance r) (sn_RealizedBalance e) = true))).
Proof.
  apply (merge_preserves_history demo_rebuilt demo_existing demo_today).
  rewrite demo_merge. left.
Defined.

Lemma demo_new_day n : (n = 4 ∨ n = 5) → ∀ e, e ∈ demo_existing → sn_day e ≠ sn_day (sample_row n 1020 1020 0 0 false).
Proof. intros [-> | ->] e He; unfold demo_existing in He; repeat (apply elem_of_cons in He as [->|He]; [vm_compute; discriminate|]); by apply elem_of_nil in He. Qed.

Lemma merge_extends_contiguously_witness :
  ∃ n : nat, (∃ e, e ∈ demo_existing ∧ sn_day e = sample_day 5 - Z.of_nat (S n) * Day) ∧
    ∀ k : nat, (k ≤ n)%nat → ∃ r', r' ∈ demo_rebuilt ∧
      r' ∈ rm_write (mergeRealizedOnly demo_rebuilt demo_existing demo_today) ∧
      sn_day r' = sample_day 5 - Z.of_nat k * Day.
Proof.
  apply (merge_extends_contiguously demo_rebuilt demo_existing demo_today (sample_row 5 1020 1020 0 0 false)).
  - vm_compute. reflexivity.
  - rewrite demo_merge. apply elem_of_cons; right. apply elem_of_cons; right. apply elem_of_cons; right. left.
  - apply demo_new_day. by right.
Defined.

Lemma merge_backfills_fresh_witness :
  sample_row 0 900 900 0 0 false ∈ rm_write (mergeRealizedOnly demo_rebuilt [sample_row 6 1100 1000 50 0 true] demo_today).
Proof.
  apply merge_backfills_fresh.
  - vm_compute. reflexivity.
  - apply elem_of_cons; right. left.
  - intros e ->%list_elem_of_singleton. vm_compute. discriminate.
Defined.

End RealizedMerge.
