(* ===== verification/History.v ===== *)
(** * Reconstructed history: what may be written, and how
    (internal/service/sync.go)

    Daily rows rebuilt from a broker's own history are dropped when empty,
    mapped to snapshots, given the inception deposit, held to the days already
    stored, and written in one transaction. *)

From S2P Require Import Prelude Num GoTime Types Store Breakdown Window Activity Fx RealizedMerge.
From stdpp Require Import base gmap strings list sorting.
From Stdlib Require Import ZArith Lia.
Local Open Scope Z_scope.

Module History.
Section history.
Context {F : Type} {NF : Num F}.

(** ** The inception deposit (UX-001) *)

(** The index of the first funded day; [acc] is the best so far. *)
Fixpoint earliest_from (i : nat) (acc : option (nat * Snapshot F)) (l : list (Snapshot F)) :
    option (nat * Snapshot F) :=
  match l with
  | [] => acc
  | sn :: l' =>
      earliest_from (S i)
        (if fleb (sn_TotalEquity sn) f0 then acc
         else match acc with
              | None => Some (i, sn)
              | Some (_, e) => if Before (sn_Timestamp sn) (sn_Timestamp e) then Some (i, sn) else acc
              end) l'
  end.

Definition earliestFundedDay (snapshots : list (Snapshot F)) : option (nat * Snapshot F) :=
  earliest_from 0 None snapshots.

Definition inceptionStampEpsilon : F := flit 1 6.

Definition supersededConnectStamp (existing : list (Snapshot F)) (inception : time) : option (Snapshot F) :=
  match existing with
  | [live] =>
      if negb (After (sn_Timestamp live) inception) then None
      else if fleb (sn_Deposits live) f0
              || fltb inceptionStampEpsilon (fabs (fsub (sn_Deposits live) (sn_TotalEquity live))) then None
      else Some (set_flows f0 (sn_Withdrawals live) live)
  | _ => None
  end.

Definition resolveInception (earliest : Snapshot F) (mine : list (Snapshot F)) : bool * option (Snapshot F) :=
  if existsb (λ p, Before (sn_Timestamp p) (sn_Timestamp earliest)) mine then (false, None)
  else (feqb (sn_Deposits earliest) f0, supersededConnectStamp mine (sn_Timestamp earliest)).

Definition of_connection (c : ExchangeConnection) (rows : list (Snapshot F)) : list (Snapshot F) :=
  filter (λ p, String.eqb (sn_Exchange p) (ec_Exchange c) && String.eqb (sn_Label p) (ec_Label c) = true) rows.

(** [existing] is the read of the user's stored rows.  The earliest day is
    stamped in place. *)
Definition applyInceptionDeposit (c : ExchangeConnection) (existing : res (list (Snapshot F)))
    (snapshots : list (Snapshot F)) : list (Snapshot F) * option (Snapshot F) :=
  match earliestFundedDay snapshots, existing with
  | Some (i, earliest), Ok rows =>
      let '(stamp, superseded) := resolveInception earliest (of_connection c rows) in
      (if stamp then <[i := set_flows (sn_TotalEquity earliest) (sn_Withdrawals earliest) earliest]> snapshots
       else snapshots, superseded)
  | _, _ => (snapshots, None)
  end.

(** ** From daily summaries to snapshots *)

Definition isEmptyReconstructedDay (h : HistoricalSnapshot F) : bool :=
  feqb (hs_TotalEquity h) f0 && feqb (hs_RealizedBalance h) f0 &&
  feqb (hs_Deposits h) f0 && feqb (hs_Withdrawals h) f0 && (hs_TotalTrades h =? 0).

Definition withoutLeadingEmptyDays (hs : list (HistoricalSnapshot F)) : list (HistoricalSnapshot F) :=
  drop_while isEmptyReconstructedDay (sort_by hs_Date hs).

(** The seven markets the breakdown of a rebuilt day is copied to. *)
Definition history_markets : list market := [MStocks; MOptions; MFutures; MCFD; MForex; MSwap; MSpot].

Definition history_breakdown (h : HistoricalSnapshot F) : MarketBreakdown F :=
  let '(b, avail) :=
    foldl (λ '(b, avail) '(mt, mb),
      let metrics := mkMetrics (mbal_Equity mb) (mbal_AvailableMargin mb) f0 0 f0 f0 0 0 f0 f0 "" f0 in
      (match market_of_name mt with
       | Some m => if bool_decide (m ∈ history_markets) then set_breakdown_market m metrics b else b
       | None => b
       end, fadd avail (mbal_AvailableMargin mb)))
      (empty_breakdown, f0) (hs_Breakdown h) in
  let b := set_breakdown_global
    (Some (mkMetrics (hs_TotalEquity h) (Breakdown.clampAvailableMargin avail (hs_TotalEquity h))
             (hs_TotalVolume h) (hs_TotalTrades h) (hs_TotalFees h) (hs_FundingFees h)
             (hs_LongTrades h) (hs_ShortTrades h) (hs_LongVolume h) (hs_ShortVolume h) "" f0)) b in
  if fltb f0 (hs_FXRateToUSD h)
  then Fx.stampFX b (Fx.fiatToConvert (hs_Currency h)).1 (hs_FXRateToUSD h) else b.

Definition historical_snapshot (c : ExchangeConnection) (fromExternalRebuilder : bool) (h : HistoricalSnapshot F) :
    Snapshot F :=
  mkSnapshot "" (ec_UserUID c) (ec_Exchange c) (ec_Label c) (truncDay (hs_Date h))
    (hs_TotalEquity h) (hs_RealizedBalance h) (fsub (hs_TotalEquity h) (hs_RealizedBalance h))
    (hs_Deposits h) (hs_Withdrawals h) (hs_TotalTrades h) (hs_TotalVolume h) (hs_TotalFees h)
    (Some (history_breakdown h)) true fromExternalRebuilder.

Definition buildHistoricalSnapshots (c : ExchangeConnection) (hs : list (HistoricalSnapshot F)) (todayKey : time)
    (fromExternalRebuilder : bool) : list (Snapshot F) * Z :=
  let days := withoutLeadingEmptyDays hs in
  (historical_snapshot c fromExternalRebuilder <$> filter (λ h, truncDay (hs_Date h) ≠ todayKey) days,
   Z.of_nat (length (filter (λ h, truncDay (hs_Date h) = todayKey) days))).

(** ** The reproduction gate *)

Definition liveHoldsPreviousStatement (exchange : string) : bool := EqualFold exchange "ibkr".

Definition statesStoredEquity (r e : Snapshot F) : bool :=
  let rr := Fx.stampedRate r in
  let er := Fx.stampedRate e in
  if fltb f0 rr && fltb f0 er && String.eqb (Fx.stampedDenomination r) (Fx.stampedDenomination e)
  then RealizedMerge.reproduces (fdiv (sn_TotalEquity r) rr) (fdiv (sn_TotalEquity e) er)
  else RealizedMerge.reproduces (sn_TotalEquity r) (sn_TotalEquity e).

(** The measured days: the last live row of a day with positive equity. *)
Definition add_witness (m : gmap Z (Snapshot F)) (e : Snapshot F) : gmap Z (Snapshot F) :=
  if sn_IsHistorical e || sn_FromExternalRebuilder e then m
  else if fleb (sn_TotalEquity e) f0 then m
  else <[sn_day e := e]> m.

Definition witness_days (existing : list (Snapshot F)) : gmap Z (Snapshot F) := foldl add_witness ∅ existing.

(** Whether a stored day contradicts the rebuilt row [r], [prev] being the
    row before it. *)
Definition contradicts (lagged : bool) (measured : gmap Z (Snapshot F)) (prev : option (Snapshot F))
    (r : Snapshot F) : option (Snapshot F) :=
  match measured !! sn_day r with
  | None => None
  | Some e =>
      let d := Fx.stampedDenomination r in
      if negb (String.eqb d "") && negb (String.eqb (Fx.storedDayDenomination e) d) then None
      else if statesStoredEquity r e then None
      else if lagged && match prev with Some p => statesStoredEquity p e | None => false end then None
      else Some e
  end.

Fixpoint contradicted_from (lagged : bool) (measured : gmap Z (Snapshot F)) (prev : option (Snapshot F))
    (l : list (Snapshot F)) : option (Snapshot F * Snapshot F) :=
  match l with
  | [] => None
  | r :: l' =>
      match contradicts lagged measured prev r with
      | Some e => Some (r, e)
      | None => contradicted_from lagged measured (Some r) l'
      end
  end.

(** The first rebuilt row a measured day contradicts, and that day. *)
Definition contradictedDayOf (rebuilt existing : list (Snapshot F)) (lagged : bool) :
    option (Snapshot F * Snapshot F) :=
  contradicted_from lagged (witness_days existing) None (sort_by sn_Timestamp rebuilt).

(** ** Persisting a reconstruction *)

Inductive source := InEnclave | ExternalRebuilder.

#[export] Instance source_eq_dec : EqDecision source.
Proof. solve_decision. Defined.

(** [reconstructOpts]; the two callbacks are the outputs [ps_collected] and
    [ps_written] below. *)
Record reconstructOpts := mkOpts {
  ro_window : Window.dayWindow;
  ro_dryRun : bool;
  ro_rewrite : bool;
  ro_coveredFrom : time;
}.

(** [mergesRealized]: the check replaces the batch by a merge. *)
Definition mergesRealized (src : source) (c : ExchangeConnection) : bool :=
  bool_decide (src = InEnclave) && RealizedMerge.realizedOnlyReconstruction (ec_Exchange c).

(** [awaitsRepin] is the answer of the connection service. *)
Definition checkAgainstStoredDays (awaitsRepin : res bool) (c : ExchangeConnection)
    (existing : res (list (Snapshot F))) (snapshots : list (Snapshot F)) (src : source)
    (opts : reconstructOpts) (todayKey : time) : res (list (Snapshot F)) :=
  let gate mine :=
    match contradictedDayOf snapshots mine (liveHoldsPreviousStatement (ec_Exchange c)) with
    | None => Ok snapshots
    | Some (day, _) =>
        if ro_dryRun opts then Ok snapshots
        else Err ("reconstruction contradicts the measured equity on " +:+ FormatDate (sn_Timestamp day))%string
    end in
  if mergesRealized src c then
    match existing with
    | Err e => Err ("read stored snapshots before merging the reconstruction: " +:+ e)%string
    | Ok rows => RealizedMerge.mergeRealizedReconstruction snapshots (of_connection c rows) (ro_dryRun opts) todayKey
    end
  else match existing with
  | Err _ => Ok snapshots
  | Ok rows =>
      let mine := of_connection c rows in
      if (Fx.rewritesInAnotherCurrency snapshots mine (ec_Exchange c) (ec_Label c)).2 then Ok snapshots
      else if ro_rewrite opts then
        match awaitsRepin with
        | Err e => Err e
        | Ok true => Ok snapshots
        | Ok false => gate mine
        end
      else gate mine
  end.

(** [retryWithBackoff] around a call that may change the state [S]; [done k]
    is the context's error after the k-th failure, if it was cancelled. *)
Fixpoint retryWithBackoff {S} (left : nat) (attempt : nat) (done_ : nat → option string)
    (fn : nat → S → S * res unit) (s : S) : S * res unit :=
  match left with
  | O => (s, Ok tt)
  | Datatypes.S left' =>
      let '(s', r) := fn attempt s in
      match r with
      | Ok _ => (s', Ok tt)
      | Err e =>
          match left' with
          | O => (s', Err e)
          | _ => match done_ attempt with
                 | Some ce => (s', Err ce)
                 | None => retryWithBackoff left' (Datatypes.S attempt) done_ fn s'
                 end
          end
      end
  end.

Record persisted := mkPersisted {
  ps_repo : Window.snapshot_repo F;
  ps_result : res unit;
  ps_collected : option (list (Snapshot F));
  ps_written : option (list (Snapshot F));
}.

(** How the database answers during the call: the faults of each attempt at
    the batch, the cancellation of the context, the error of the prune. *)
Record persist_env := mkPersistEnv {
  pe_newid : Snapshot F → string;
  pe_faults : nat → Store.tx_faults (F := F);
  pe_cancelled : nat → option string;
  pe_prune_fault : option string;
}.

Definition with_table (repo : Window.snapshot_repo F) (t : list (Snapshot F)) : Window.snapshot_repo F :=
  Window.mkSnapshotRepo (Window.sp_schema repo) t (Window.sp_fault repo).

(** The transaction and the prune that follow a check that let [snapshots]
    through; [written] is what the [written] callback is given. *)
Definition write_history (env : persist_env) (repo : Window.snapshot_repo F) (c : ExchangeConnection) (src : source)
    (opts : reconstructOpts) (written snapshots : list (Snapshot F)) : persisted :=
  let sch := Window.sp_schema repo in
  let '(t, r) := retryWithBackoff 3 1 (pe_cancelled env)
    (λ k t, Store.UpsertBatch sch (pe_newid env) (pe_faults env k) t snapshots) (Window.sp_table repo) in
  match r with
  | Err e => mkPersisted (with_table repo t) (Err e) None None
  | Ok _ =>
      let t :=
        if bool_decide (src = ExternalRebuilder) then
          match pe_prune_fault env with
          | Some _ => t
          | None =>
              let from := if Window.isSet (ro_window opts) then Window.dw_from (ro_window opts)
                          else ro_coveredFrom opts in
              (Store.PruneRebuiltDaysOutside sch t (ec_UserUID c) (ec_Exchange c) (ec_Label c) from
                 (sn_Timestamp <$> snapshots)).1
          end
        else t in
      mkPersisted (with_table repo t) (Ok tt) None (Some written)
  end.

(** The [written] callback gets the batch without the superseded row, which
    is last when the check keeps the batch as it is, and which a merge
    replaces by a corrected copy of the stored row. *)
Definition persistHistoricalSnapshots (env : persist_env) (awaitsRepin : res bool) (repo : Window.snapshot_repo F)
    (c : ExchangeConnection) (hs : list (HistoricalSnapshot F)) (src : source) (opts : reconstructOpts) (now : time) :
    persisted :=
  let nothing r := mkPersisted repo r None None in
  let todayKey := truncDay now in
  let windowed := Window.isSet (ro_window opts) in
  let hs := Window.dw_filter (ro_window opts) hs in
  if windowed && bool_decide (length hs = 0%nat) then nothing (Ok tt)
  else
    let built := (buildHistoricalSnapshots c hs todayKey (bool_decide (src = ExternalRebuilder))).1 in
    match built with
    | [] => nothing (Ok tt)
    | _ =>
        let existing := Fx.storedRows repo (ec_UserUID c) now in
        let '(rebuilt, superseded) :=
          if windowed then (built, None) else applyInceptionDeposit c existing built in
        match checkAgainstStoredDays awaitsRepin c existing (rebuilt ++ option_list superseded) src opts todayKey with
        | Err e => nothing (Err e)
        | Ok snapshots =>
            if ro_dryRun opts then mkPersisted repo (Ok tt) (Some snapshots) None
            else match snapshots with
                 | [] => nothing (Ok tt)
                 | _ => write_history env repo c src opts
                          (if mergesRealized src c then snapshots else rebuilt) snapshots
                 end
        end
    end.

(** ** The caller *)

Definition isFirstSync (syncStatus : option Window.status_repo) (repo : option (Window.snapshot_repo F))
    (c : ExchangeConnection) : bool :=
  match syncStatus with
  | None => false
  | Some st =>
      match Window.GetByUserExchangeLabel st (ec_UserUID c) (ec_Exchange c) (ec_Label c) with
      | Ok _ => false
      | Err e =>
          if negb (String.eqb e Store.ErrNotFound) then false
          else match repo with
               | None => true
               | Some r =>
                   match Window.query r (λ sch t, Ok (Store.ExistsForUserExchangeLabel sch t
                           (ec_UserUID c) (ec_Exchange c) (ec_Label c))) with
                   | Ok true => false
                   | _ => true
                   end
               end
      end
  end.

Definition noteReconstructionFailure (warnings : list string) (failed : bool) : list string :=
  if failed then warnings ++ ["history_reconstruction_failed"] else warnings.

(** ** Lemmas *)

Lemma earliest_from_spec l i acc :
  (∀ j e, acc = Some (j, e) → fleb (sn_TotalEquity e) f0 = false) →
  match earliest_from i acc l with
  | None => acc = None ∧ Forall (λ s, fleb (sn_TotalEquity s) f0 = true) l
  | Some (j, e) =>
      fleb (sn_TotalEquity e) f0 = false ∧
      (acc = Some (j, e) ∨ (i ≤ j)%nat ∧ l !! (j - i)%nat = Some e) ∧
      (∀ k a, acc = Some (k, a) → sn_Timestamp e ≤ sn_Timestamp a) ∧
      Forall (λ s, fleb (sn_TotalEquity s) f0 = false → sn_Timestamp e ≤ sn_Timestamp s) l
  end.
Proof.
  revert i acc. induction l as [|s l IH]; intros i acc Hacc; cbn [earliest_from].
  - destruct acc as [[j e]|]; [|by split]. split_and!; [eauto|auto|intros; by simplify_eq|constructor].
  - destruct (fleb (sn_TotalEquity s) f0) eqn:Ef.
    + specialize (IH (S i) acc Hacc). destruct (earliest_from _ _ _) as [[j e]|].
      * destruct IH as (? & Hpos & ? & ?). split_and!; [done| |done|constructor; [congruence|done]].
        destruct Hpos as [?|[? Hl]]; [by left|right]. split; [lia|].
        replace (j - i)%nat with (S (j - S i)) by lia. done.
      * destruct IH as [-> ?]. split; [done|by constructor].
    + set (acc' := match acc with None => Some (i, s) | Some (_, e) => _ end).
      assert (∀ j e, acc' = Some (j, e) → fleb (sn_TotalEquity e) f0 = false) as Hacc'.
      { subst acc'. destruct acc as [[j0 e0]|]; [|intros; by simplify_eq].
        destruct (Before _ _); intros; simplify_eq; eauto. }
      specialize (IH (S i) acc' Hacc'). destruct (earliest_from (S i) acc' l) as [[j e]|].
      * destruct IH as (? & Hpos & Hle & Hall). split_and!; [done| | |].
        -- destruct Hpos as [Hp|[? Hl]].
           ++ subst acc'. destruct acc as [[j0 e0]|].
              ** destruct (Before _ _); simplify_eq; [right|by left].
                 split; [lia|]. by rewrite Nat.sub_diag.
              ** simplify_eq. right. split; [lia|]. by rewrite Nat.sub_diag.
           ++ right. split; [lia|]. replace (j - i)%nat with (S (j - S i)) by lia. done.
        -- intros k a ->. subst acc'. cbn in *. unfold Before in *.
           destruct (sn_Timestamp s <? sn_Timestamp a) eqn:E; go_bool.
           ++ specialize (Hle _ _ eq_refl). lia.
           ++ by apply (Hle k a).
        -- constructor; [|done]. intros _. subst acc'. destruct acc as [[j0 e0]|]; cbn in *.
           ++ unfold Before in *. destruct (sn_Timestamp s <? sn_Timestamp e0) eqn:E; go_bool.
              ** by apply (Hle i s).
              ** specialize (Hle _ _ eq_refl). lia.
           ++ by apply (Hle i s).
      * destruct IH as [Hn _]. subst acc'. destruct acc as [[j0 e0]|]; [destruct (Before _ _)|]; done.
Qed.

Lemma earliest_spec l i e :
  earliestFundedDay l = Some (i, e) →
  l !! i = Some e ∧ fleb (sn_TotalEquity e) f0 = false ∧
  ∀ s, s ∈ l → fleb (sn_TotalEquity s) f0 = false → sn_Timestamp e ≤ sn_Timestamp s.
Proof.
  intros He. pose proof (earliest_from_spec l 0 None) as Hs. unfold earliestFundedDay in He. rewrite He in Hs.
  destruct Hs as (? & [?|[_ Hl]] & _ & Hall); [done|done|].
  rewrite Nat.sub_0_r in Hl. rewrite Forall_forall in Hall. auto.
Qed.

Lemma earliest_in l i e : earliestFundedDay l = Some (i, e) → e ∈ l.
Proof. intros (Hl & _)%earliest_spec. by eapply list_elem_of_lookup_2. Qed.

(** [s] is a row of the connection [c]. *)
Definition belongs (c : ExchangeConnection) (s : Snapshot F) : Prop :=
  sn_UserUID s = ec_UserUID c ∧ sn_Exchange s = ec_Exchange c ∧ sn_Label s = ec_Label c.

Lemma belongs_set_flows c dep wd s : belongs c (set_flows dep wd s) ↔ belongs c s.
Proof. done. Qed.

Lemma belongs_key sch c (s r : Snapshot F) :
  belongs c s → Store.row_key sch r = Store.row_key sch s →
  Store.of_conn sch (ec_UserUID c) (ec_Exchange c) (ec_Label c) r = true.
Proof.
  intros (Hu & Hx & Hl) Hk. apply Store.of_conn_key. rewrite Hk. unfold Store.row_key in *.
  injection Hk as _ _ _ ->. by rewrite Hu, Hx, Hl.
Qed.

Lemma built_belongs c hs today ext s : s ∈ (buildHistoricalSnapshots c hs today ext).1 → belongs c s.
Proof. intros (h & -> & _)%list_elem_of_fmap. done. Qed.

Lemma stored_belongs repo c now rows s :
  Fx.storedRows repo (ec_UserUID c) now = Ok rows → s ∈ of_connection c rows → belongs c s.
Proof.
  unfold Fx.storedRows, Window.query. destruct (Window.sp_fault repo); [done|].
  intros [= <-] [Hc Hs]%list_elem_of_filter. go_bool.
  apply list_elem_of_fmap in Hs as (r & -> & Hr%sort_by_elem%list_elem_of_filter).
  destruct Hr as [Hr _]. go_bool. unfold Store.scan_range in *.
  destruct (Store.isTSSchema (Window.sp_schema repo)); done.
Qed.

Lemma superseded_some existing inception s :
  supersededConnectStamp existing inception = Some s →
  ∃ live, existing = [live] ∧ inception < sn_Timestamp live ∧ s = set_flows f0 (sn_Withdrawals live) live.
Proof.
  unfold supersededConnectStamp. destruct existing as [|live [|? ?]]; [done| |done].
  unfold After. destruct (inception <? sn_Timestamp live) eqn:E; cbn [negb]; [|done]. go_bool.
  destruct (_ || _); [done|]. intros; simplify_eq. eauto.
Qed.

Lemma inception_belongs repo c now built rebuilt superseded :
  (∀ s, s ∈ built → belongs c s) →
  applyInceptionDeposit c (Fx.storedRows repo (ec_UserUID c) now) built = (rebuilt, superseded) →
  ∀ s, s ∈ rebuilt ++ option_list superseded → belongs c s.
Proof.
  intros Hb. unfold applyInceptionDeposit.
  destruct (earliestFundedDay built) as [[i e]|] eqn:Ee.
  2: { intros [= <- <-]. cbn. rewrite app_nil_r. done. }
  destruct (Fx.storedRows _ _ _) as [rows|] eqn:Er.
  2: { intros [= <- <-]. cbn. rewrite app_nil_r. done. }
  unfold resolveInception. destruct (existsb _ _).
  { intros [= <- <-]. cbn. rewrite app_nil_r. done. }
  intros [= <- <-] s [Hs|Hs]%elem_of_app.
  - destruct (feqb _ _); [|by apply Hb].
    apply list_insert_elem_inv in Hs as [->|Hs]; [|by apply Hb].
    apply belongs_set_flows, Hb. by eapply earliest_in.
  - destruct (supersededConnectStamp _ _) as [sup|] eqn:Es; [|set_solver].
    apply list_elem_of_singleton in Hs as ->.
    apply superseded_some in Es as (live & Hl & _ & ->). apply belongs_set_flows.
    eapply stored_belongs; [exact Er|]. rewrite Hl. set_solver.
Qed.

Lemma merge_belongs c rebuilt stored dry today l :
  (∀ s, s ∈ rebuilt → belongs c s) → (∀ s, s ∈ stored → belongs c s) →
  RealizedMerge.mergeRealizedReconstruction rebuilt stored dry today = Ok l → ∀ s, s ∈ l → belongs c s.
Proof.
  intros Hr Hs. set (m := RealizedMerge.mergeRealizedOnly rebuilt stored today).
  assert (∀ s, s ∈ RealizedMerge.rm_write m → belongs c s) as Hm.
  { intros s Hin. subst m. unfold RealizedMerge.mergeRealizedOnly in Hin.
    pose proof (RealizedMerge.merge_loop_inv (RealizedMerge.is_fresh stored today) (RealizedMerge.stored_days stored)
      (sort_by sn_Timestamp rebuilt)) as Hinv.
    destruct Hinv as [Hsound _ _ _ _ _ _].
    { intros d e He. by apply RealizedMerge.stored_days_some in He as [_ ?]. }
    rewrite Forall_forall in Hsound. destruct (Hsound s Hin) as (r & Hr' & Hw).
    apply sort_by_elem in Hr'. destruct Hw as [|e|e He]; [by apply Hr..|].
    apply belongs_set_flows, Hs. by apply RealizedMerge.stored_days_some in He as [? _]. }
  unfold RealizedMerge.mergeRealizedReconstruction. fold m.
  destruct (negb _); [intros [= <-]; apply Hm|]. destruct dry; [intros [= <-]; apply Hm|].
  destruct (_ =? 1); [|done]. intros [= <-]. set_solver.
Qed.

Lemma check_same repin c existing snapshots src opts today l :
  mergesRealized src c = false →
  checkAgainstStoredDays repin c existing snapshots src opts today = Ok l → l = snapshots.
Proof.
  intros Hm. unfold checkAgainstStoredDays. rewrite Hm. intros Hc.
  repeat (case_match; simplify_eq; try done).
Qed.

Lemma check_belongs repin repo c now snapshots src opts today l :
  (∀ s, s ∈ snapshots → belongs c s) →
  checkAgainstStoredDays repin c (Fx.storedRows repo (ec_UserUID c) now) snapshots src opts today = Ok l →
  ∀ s, s ∈ l → belongs c s.
Proof.
  intros Hs Hc. destruct (mergesRealized src c) eqn:Em.
  - unfold checkAgainstStoredDays in Hc. rewrite Em in Hc.
    destruct (Fx.storedRows _ _ _) as [rows|] eqn:Er; [|done].
    eapply merge_belongs; [exact Hs| |exact Hc]. intros s. by eapply stored_belongs.
  - apply check_same in Hc as ->; done.
Qed.

(** A retried call that either fails without effect or does [g] has the same
    two outcomes. *)
Lemma retry_cases {S} n k done_ (g : S → S) fn s :
  (∀ k, (∃ e, fn k s = (s, Err e)) ∨ fn k s = (g s, Ok tt)) →
  (∃ e, retryWithBackoff (Datatypes.S n) k done_ fn s = (s, Err e)) ∨
  retryWithBackoff (Datatypes.S n) k done_ fn s = (g s, Ok tt).
Proof.
  intros Hfn. revert k. induction n as [|n IH]; intros k; cbn [retryWithBackoff];
    destruct (Hfn k) as [[e ->] | ->]; [left; eauto|by right| |by right].
  destruct (done_ k); [left; eauto|]. apply IH.
Qed.

Lemma with_table_same repo : with_table repo (Window.sp_table repo) = repo.
Proof. by destruct repo. Qed.

(** The write itself: nothing, or the batch and the prune. *)
Lemma write_history_cases env repo c src opts written snapshots :
  let p := write_history env repo c src opts written snapshots in
  let sch := Window.sp_schema repo in
  (∃ e, p = mkPersisted repo (Err e) None None) ∨
  ps_result p = Ok tt ∧ ps_collected p = None ∧ ps_written p = Some written ∧
  ∃ t, ps_repo p = with_table repo t ∧
    let t1 := foldl (Store.Upsert sch (pe_newid env)) (Window.sp_table repo) snapshots in
    (t = t1 ∨ ∃ from, t = (Store.PruneRebuiltDaysOutside sch t1 (ec_UserUID c) (ec_Exchange c) (ec_Label c)
                             from (sn_Timestamp <$> snapshots)).1).
Proof.
  cbn zeta. unfold write_history.
  set (fn := λ k t, Store.UpsertBatch _ _ _ t snapshots).
  destruct (retry_cases 2 1 (pe_cancelled env)
    (λ t, foldl (Store.Upsert (Window.sp_schema repo) (pe_newid env)) t snapshots) fn (Window.sp_table repo))
    as [[e ->] | ->].
  - intros k. apply Store.UpsertBatch_cases.
  - left. exists e. by rewrite with_table_same.
  - right. split_and!; [done..|]. eexists. split; [done|].
    destruct (bool_decide _); [|by left]. destruct (pe_prune_fault env); [by left|right]. eauto.
Qed.

(** A call changes nothing, or writes a batch of its connection's rows. *)
Lemma persist_cases env repin repo c hs src opts now :
  let p := persistHistoricalSnapshots env repin repo c hs src opts now in
  let sch := Window.sp_schema repo in
  (ps_repo p = repo ∧ ps_written p = None) ∨
  (ps_result p = Ok tt ∧ ro_dryRun opts = false ∧
   ∃ written snapshots t, ps_written p = Some written ∧
     (∀ s, s ∈ snapshots → belongs c s) ∧ (∀ s, s ∈ written → s ∈ snapshots) ∧ ps_repo p = with_table repo t ∧
     let t1 := foldl (Store.Upsert sch (pe_newid env)) (Window.sp_table repo) snapshots in
     (t = t1 ∨ ∃ from, t = (Store.PruneRebuiltDaysOutside sch t1 (ec_UserUID c) (ec_Exchange c) (ec_Label c)
                              from (sn_Timestamp <$> snapshots)).1)).
Proof.
  cbn zeta. unfold persistHistoricalSnapshots. cbn zeta.
  destruct (Window.isSet _ && _); [by left|].
  set (built := (buildHistoricalSnapshots _ _ _ _).1).
  destruct built as [|b0 built'] eqn:Eb; [by left|]. rewrite <- Eb. clear Eb b0 built'.
  destruct (if Window.isSet (ro_window opts) then _ else _) as [rebuilt superseded] eqn:Ei.
  assert (∀ s, s ∈ rebuilt ++ option_list superseded → belongs c s) as Hb.
  { destruct (Window.isSet _); [|eapply inception_belongs; [|exact Ei]; apply built_belongs].
    injection Ei as <- <-. cbn. rewrite app_nil_r. apply built_belongs. }
  destruct (checkAgainstStoredDays _ _ _ _ _ _ _) as [snapshots|] eqn:Ec; [|by left].
  destruct (ro_dryRun opts) eqn:Ed; [by left|].
  destruct snapshots as [|s0 snapshots'] eqn:Es; [by left|]. rewrite <- Es in *. clear Es s0 snapshots'.
  pose proof (check_belongs _ _ _ _ _ _ _ _ _ Hb Ec) as Hbs.
  set (written := if mergesRealized src c then snapshots else rebuilt).
  assert (∀ s, s ∈ written → s ∈ snapshots) as Hsub.
  { subst written. destruct (mergesRealized src c) eqn:Em; [done|].
    apply check_same in Ec as ->; [|done]. intros s Hs. apply elem_of_app. by left. }
  destruct (write_history_cases env repo c src opts written snapshots) as [[e ->]|(Hr & _ & Hw & t & Ht & Hcase)];
    [by left|right].
  split_and!; [done|done|]. exists written, snapshots, t. by split_and!.
Qed.

(** The rows of the other connections stay. *)
Lemma persist_keeps_others env repin repo c hs src opts now r :
  let p := persistHistoricalSnapshots env repin repo c hs src opts now in
  r ∈ Window.sp_table repo →
  Store.of_conn (Window.sp_schema repo) (ec_UserUID c) (ec_Exchange c) (ec_Label c) r = false →
  r ∈ Window.sp_table (ps_repo p).
Proof.
  cbn zeta. intros Hin Hc.
  destruct (persist_cases env repin repo c hs src opts now) as [[-> _]|(_ & _ & w & l & t & _ & Hbs & _ & -> & Hcase)]; [done|].
  cbn [Window.sp_table with_table].
  assert (Store.row_key (Window.sp_schema repo) r ∉ Store.row_key (Window.sp_schema repo) <$> l) as Hk.
  { intros (s & Hk & Hs)%list_elem_of_fmap. apply (belongs_key _ c s r) in Hk; [congruence|by apply Hbs]. }
  pose proof (Store.foldl_Upsert_keeps _ (pe_newid env) _ _ _ Hin Hk) as Hkeep.
  destruct Hcase as [->|[from ->]]; [done|]. apply Store.Prune_keeps; [done|by left].
Qed.

(** Nor is one made up. *)
Lemma persist_only_own env repin repo c hs src opts now r :
  let p := persistHistoricalSnapshots env repin repo c hs src opts now in
  r ∈ Window.sp_table (ps_repo p) →
  Store.of_conn (Window.sp_schema repo) (ec_UserUID c) (ec_Exchange c) (ec_Label c) r = false → r ∈ Window.sp_table repo.
Proof.
  cbn zeta. intros Hin Hc.
  destruct (persist_cases env repin repo c hs src opts now) as [[<- _]|(_ & _ & w & l & t & _ & Hbs & _ & E & Hcase)]; [done|].
  rewrite E in Hin. cbn [Window.sp_table with_table] in Hin.
  assert (r ∈ foldl (Store.Upsert (Window.sp_schema repo) (pe_newid env)) (Window.sp_table repo) l) as Hr.
  { destruct Hcase as [<-|[from ->]]; [done|]. revert Hin. unfold Store.PruneRebuiltDaysOutside. destruct (sn_Timestamp <$> l); [done|].
    destruct (negb _); [done|]. cbn [fst]. by intros [_ ?]%list_elem_of_filter. }
  apply Store.foldl_Upsert_origin in Hr as [?|(s & Hs & Hk & _)]; [done|]. apply (belongs_key _ c s r) in Hk; [congruence|by apply Hbs].
Qed.

Lemma persist_same_schema env repin repo c hs src opts now :
  let p := persistHistoricalSnapshots env repin repo c hs src opts now in
  Window.sp_schema (ps_repo p) = Window.sp_schema repo ∧ Window.sp_fault (ps_repo p) = Window.sp_fault repo.
Proof.
  cbn zeta.
  by destruct (persist_cases env repin repo c hs src opts now) as [[-> _]|(_ & _ & w & l & t & _ & _ & _ & -> & _)].
Qed.

(** A witness of a day is a live row of that day with positive equity. *)
Definition is_witness (e : Snapshot F) : bool :=
  negb (sn_IsHistorical e || sn_FromExternalRebuilder e) && negb (fleb (sn_TotalEquity e) f0).

Lemma witness_days_gen (m : gmap Z (Snapshot F)) existing d :
  foldl add_witness m existing !! d =
  match last (filter (λ e, is_witness e = true ∧ sn_day e = d) existing) with
  | Some e => Some e
  | None => m !! d
  end.
Proof.
  revert m. induction existing as [|e existing IH]; intros m; [done|].
  cbn [foldl]. rewrite IH, filter_cons. unfold add_witness at 1.
  case_decide as Hd; [rewrite last_cons|]; destruct (last _) as [e'|]; try done.
  - destruct Hd as [Hw <-]. unfold is_witness in Hw. apply andb_true_iff in Hw as [Hh Hp].
    apply negb_true_iff in Hh, Hp. rewrite Hh, Hp. by rewrite lookup_insert_eq.
  - destruct (_ || _) eqn:E1; [done|]. destruct (fleb _ _) eqn:E2; [done|].
    rewrite lookup_insert_ne; [done|]. intros <-. apply Hd. unfold is_witness. by rewrite E1, E2.
Qed.

Lemma witness_days_some existing d e :
  witness_days existing !! d = Some e → e ∈ existing ∧ is_witness e = true ∧ sn_day e = d.
Proof.
  unfold witness_days. rewrite witness_days_gen, lookup_empty.
  destruct (last _) eqn:E; intros; simplify_eq.
  apply last_Some_elem_of, list_elem_of_filter in E. naive_solver.
Qed.

Lemma contradicted_from_spec lagged measured prev l :
  match contradicted_from lagged measured prev l with
  | None => ∀ i r, l !! i = Some r →
      contradicts lagged measured (if decide (i = 0%nat) then prev else l !! (i - 1)%nat) r = None
  | Some (r, e) => ∃ i, l !! i = Some r ∧
      contradicts lagged measured (if decide (i = 0%nat) then prev else l !! (i - 1)%nat) r = Some e
  end.
Proof.
  revert prev. induction l as [|r l IH]; intros prev; cbn [contradicted_from]; [by intros []|].
  destruct (contradicts lagged measured prev r) as [e|] eqn:E.
  - exists 0%nat. done.
  - specialize (IH (Some r)). destruct (contradicted_from _ _ _ l) as [[r' e]|].
    + destruct IH as (i & Hi & Hc). exists (S i). split; [done|].
      rewrite decide_False by done. cbn [Nat.sub]. rewrite Nat.sub_0_r.
      destruct i as [|i]; [done|]. rewrite decide_False in Hc by done.
      by replace (S i - 1)%nat with i in Hc by lia.
    + intros [|i] r' Hi; cbn in Hi; [by simplify_eq|].
      rewrite decide_False by done. cbn [Nat.sub]. rewrite Nat.sub_0_r.
      specialize (IH i r' Hi). destruct i as [|i]; [done|]. rewrite decide_False in IH by done.
      by replace (S i - 1)%nat with i in IH by lia.
Qed.

(** The rebuilt row [r], at place [i] of the ordered series, agrees with the
    day [e] measured on its date: it is in another currency, states the same
    equity, or, on a venue whose live row holds the previous statement, the
    row before it does. *)
Definition agrees (lagged : bool) (ordered : list (Snapshot F)) (i : nat) (r e : Snapshot F) : Prop :=
  (Fx.stampedDenomination r ≠ "" ∧ Fx.storedDayDenomination e ≠ Fx.stampedDenomination r) ∨
  statesStoredEquity r e = true ∨
  (lagged = true ∧ (0 < i)%nat ∧ ∃ p, ordered !! (i - 1)%nat = Some p ∧ statesStoredEquity p e = true).

Lemma contradicts_agrees lagged measured ordered i r e :
  measured !! sn_day r = Some e →
  contradicts lagged measured (if decide (i = 0%nat) then None else ordered !! (i - 1)%nat) r = None →
  agrees lagged ordered i r e.
Proof.
  intros He. unfold contradicts, agrees. rewrite He.
  destruct (negb _ && negb _) eqn:E1; [go_bool; auto|].
  destruct (statesStoredEquity r e) eqn:E2; [auto|].
  destruct lagged; cbn [andb]; [|done].
  destruct (decide (i = 0%nat)) as [->|Hi]; [done|].
  destruct (ordered !! (i - 1)%nat) as [p|] eqn:Ep; [|done].
  destruct (statesStoredEquity p e) eqn:E3; [|done]. intros _. right; right.
  split_and!; [done|lia|eauto].
Qed.

(** ** Properties *)

(** C20: a reconstruction is all or nothing and stays in its connection.
    Whatever the provider returned and the database answered (three attempts,
    a cancelled context, a failed prune): a call that fails or is a dry run
    leaves the table as it was; no row of another connection is changed or
    removed; and every day reported as written is stored. *)
Theorem persist_history_safe env repin repo c hs src opts now :
  let p := persistHistoricalSnapshots env repin repo c hs src opts now in
  let sch := Window.sp_schema repo in
  (is_ok (ps_result p) = false ∨ ro_dryRun opts = true → ps_repo p = repo) ∧
  (∀ r, r ∈ Window.sp_table repo →
        Store.of_conn sch (ec_UserUID c) (ec_Exchange c) (ec_Label c) r = false →
        r ∈ Window.sp_table (ps_repo p)) ∧
  (∀ w s, ps_written p = Some w → s ∈ w →
        ∃ r, r ∈ Window.sp_table (ps_repo p) ∧ Store.row_key sch r = Store.row_key sch s).
Proof.
  cbn zeta. split; [|split; [intros r; apply persist_keeps_others|]];
    destruct (persist_cases env repin repo c hs src opts now) as
      [[Hr Hw]|(Hok & Hdry & w & l & t & Hw & _ & Hsub & Hrepo & Hcase)].
  - done.
  - rewrite Hok, Hdry. intros [?|?]; done.
  - intros w s. by rewrite Hw.
  - intros w' s. rewrite Hw. intros [= <-] Hs%Hsub. rewrite Hrepo. cbn [Window.sp_table with_table].
    destruct (Store.foldl_Upsert_has (Window.sp_schema repo) (pe_newid env) (Window.sp_table repo) l s Hs)
      as (r & Hr' & Hk & Hts).
    exists r. split; [|done].
    destruct Hcase as [->|[from ->]]; [done|]. apply Store.Prune_keeps; [done|right].
    rewrite Hts. by apply list_elem_of_fmap_2.
Qed.

(** No history that contradicts a measurement is written.  For a
    reconstruction that is neither a realized-only merge, nor a rewrite in
    another currency or after a repin, nor a dry run, the check lets the batch
    through unchanged exactly when every rebuilt row agrees with the live day
    measured on its date, and refuses it whole otherwise. *)
Theorem gate_reproduces repin c rows snapshots src opts today :
  mergesRealized src c = false → ro_dryRun opts = false →
  (Fx.rewritesInAnotherCurrency snapshots (of_connection c rows) (ec_Exchange c) (ec_Label c)).2 = false →
  ro_rewrite opts = false ∨ repin = Ok false →
  let ordered := sort_by sn_Timestamp snapshots in
  let lagged := liveHoldsPreviousStatement (ec_Exchange c) in
  match checkAgainstStoredDays repin c (Ok rows) snapshots src opts today with
  | Ok l => l = snapshots ∧
      ∀ i r e, ordered !! i = Some r → witness_days (of_connection c rows) !! sn_day r = Some e →
               agrees lagged ordered i r e
  | Err _ => ∃ r e, r ∈ snapshots ∧ e ∈ of_connection c rows ∧ is_witness e = true ∧ sn_day e = sn_day r ∧
               statesStoredEquity r e = false
  end.
Proof.
  intros Hm Hd Hc Hr ordered lagged. unfold checkAgainstStoredDays. rewrite Hm, Hc, Hd.
  pose proof (contradicted_from_spec lagged (witness_days (of_connection c rows)) None ordered) as Hspec.
  unfold contradictedDayOf. fold lagged ordered.
  destruct (contradicted_from _ _ _ _) as [[r e]|].
  - assert (∃ r e, r ∈ snapshots ∧ e ∈ of_connection c rows ∧ is_witness e = true ∧ sn_day e = sn_day r ∧
               statesStoredEquity r e = false) as Hbad.
    { destruct Hspec as (i & Hi & Hcon). exists r, e.
      assert (r ∈ snapshots) by (by apply sort_by_elem with (key := sn_Timestamp), list_elem_of_lookup_2 with i).
      unfold contradicts in Hcon. destruct (witness_days _ !! sn_day r) as [e'|] eqn:Ew; [|done].
      apply witness_days_some in Ew as (? & ? & ?).
      repeat (case_match; simplify_eq; try done). }
    destruct (ro_rewrite opts); [|exact Hbad]. destruct Hr as [|Hr]; [done|]. by rewrite Hr.
  - assert (∀ i r e, ordered !! i = Some r → witness_days (of_connection c rows) !! sn_day r = Some e →
               agrees lagged ordered i r e) as Hgood.
    { intros i r e Hi He. eapply contradicts_agrees; [exact He|by apply Hspec]. }
    destruct (ro_rewrite opts); [|done]. destruct Hr as [|Hr]; [done|]. by rewrite Hr.
Qed.

(** The starting capital is booked once.  On a reconstructed series
    landing on the stored rows [mine] of its connection, at most one row
    changes, the first funded day [e]: it takes its equity as deposit when it
    carries none and nothing older is stored.  When something older is
    stored nothing changes; otherwise a connect-time stamp above [e] (the
    single stored row, its deposit its whole equity) is handed back with its
    deposit cleared, so the two never both count. *)
Theorem inception_booked_once c rows snapshots :
  let mine := of_connection c rows in
  let '(out, superseded) := applyInceptionDeposit c (Ok rows) snapshots in
  (out = snapshots ∨
   ∃ i e, snapshots !! i = Some e ∧ fleb (sn_TotalEquity e) f0 = false ∧ feqb (sn_Deposits e) f0 = true ∧
     (∀ s, s ∈ snapshots → fleb (sn_TotalEquity s) f0 = false → sn_Timestamp e ≤ sn_Timestamp s) ∧
     (∀ p, p ∈ mine → sn_Timestamp e ≤ sn_Timestamp p) ∧
     out = <[i := set_flows (sn_TotalEquity e) (sn_Withdrawals e) e]> snapshots) ∧
  (∀ p s, p ∈ mine → (∀ x, x ∈ snapshots → fleb (sn_TotalEquity x) f0 = false → sn_Timestamp p < sn_Timestamp x) →
     s ∈ out ++ option_list superseded → s ∈ snapshots) ∧
  (∀ s, superseded = Some s →
     ∃ live, mine = [live] ∧ s = set_flows f0 (sn_Withdrawals live) live ∧
       ∃ e, e ∈ snapshots ∧ fleb (sn_TotalEquity e) f0 = false ∧ sn_Timestamp e < sn_Timestamp live).
Proof.
  intros mine. unfold applyInceptionDeposit. fold mine.
  destruct (earliestFundedDay snapshots) as [[i e]|] eqn:Ee.
  2: { split_and!; [by left| |done]. intros p s _ _. cbn. by rewrite app_nil_r. }
  destruct (earliest_spec _ _ _ Ee) as (Hi & Hpos & Hmin).
  pose proof (earliest_in _ _ _ Ee) as Hin.
  unfold resolveInception. destruct (existsb _ mine) eqn:Eo.
  { split_and!; [by left| |done]. intros p s _ _. cbn. by rewrite app_nil_r. }
  assert (∀ p, p ∈ mine → sn_Timestamp e ≤ sn_Timestamp p) as Hold.
  { intros p Hp. destruct (Z.le_gt_cases (sn_Timestamp e) (sn_Timestamp p)) as [?|Hlt]; [done|].
    assert (existsb (λ p, Before (sn_Timestamp p) (sn_Timestamp e)) mine = true) as Ht; [|congruence].
    apply existsb_exists. exists p. split; [by apply list_elem_of_In|]. by apply Z.ltb_lt. }
  split_and!.
  - destruct (feqb (sn_Deposits e) f0) eqn:Ez; [right|by left]. exists i, e. by split_and!.
  - intros p s Hp Hlt _. specialize (Hlt e Hin Hpos). specialize (Hold p Hp). lia.
  - intros s Hs. apply superseded_some in Hs as (live & -> & Hlt & ->). exists live. eauto 10.
Qed.

(** Which rebuilt days become rows.  The days are taken in date order;
    what is left out is the leading run of empty days and today, which the
    live sync owns; every other day, empty ones inside the history included,
    becomes one row of the connection, dated at its midnight. *)
Theorem history_rows c hs today ext :
  let rows := (buildHistoricalSnapshots c hs today ext).1 in
  ∃ lead rest, lead ++ rest ≡ₚ hs ∧ StronglySorted (key_le hs_Date) (lead ++ rest) ∧
    Forall (λ h, isEmptyReconstructedDay h = true) lead ∧
    (∀ h, head rest = Some h → isEmptyReconstructedDay h = false) ∧
    rows = historical_snapshot c ext <$> filter (λ h, truncDay (hs_Date h) ≠ today) rest ∧
    (∀ s, s ∈ rows → sn_Timestamp s ≠ today ∧ is_midnight (sn_Timestamp s) ∧ belongs c s ∧
                     sn_IsHistorical s = true ∧ sn_FromExternalRebuilder s = ext).
Proof.
  intros rows. destruct (drop_while_suffix isEmptyReconstructedDay (sort_by hs_Date hs)) as (lead & Heq & Hlead).
  exists lead, (withoutLeadingEmptyDays hs). unfold withoutLeadingEmptyDays. rewrite <- Heq. split_and!.
  - apply sort_by_perm.
  - apply sort_by_sorted.
  - done.
  - intros h Hh. destruct (drop_while _ _) as [|h' l] eqn:E; [done|]. cbn in Hh. simplify_eq.
    by apply drop_while_head in E.
  - done.
  - intros s (h & -> & [Hne _]%list_elem_of_filter)%list_elem_of_fmap. split_and!; try done.
    apply truncDay_midnight.
Qed.

End history.
Arguments persisted F : clear implicits.
Arguments persist_env F : clear implicits.

(** *** Concrete instances *)

Definition plain_opts : reconstructOpts := mkOpts Window.no_window false false zero_time.

(** A rebuilt day that repeats the measured one is let through. *)
Lemma gate_reproduces_witness :
  let rows := [sample_row 1 1000 1000 0 0 true] in
  let rebuilt := [sample_row 0 990 990 0 0 false; sample_row 1 1000 1000 0 0 false] in
  ∃ l, checkAgainstStoredDays (Ok false) Fx.sample_fx_conn (Ok rows) rebuilt ExternalRebuilder plain_opts (sample_day 5)
         = Ok l ∧ l = rebuilt.
Proof.
  intros rows rebuilt.
  pose proof (gate_reproduces (Ok false) Fx.sample_fx_conn rows rebuilt ExternalRebuilder plain_opts (sample_day 5)
    eq_refl eq_refl (ltac:(vm_compute; reflexivity)) (or_introl eq_refl)) as H. cbn zeta in H.
  assert (checkAgainstStoredDays (Ok false) Fx.sample_fx_conn (Ok rows) rebuilt ExternalRebuilder plain_opts (sample_day 5)
    = Ok rebuilt) as E by (vm_compute; reflexivity).
  exists rebuilt. rewrite E in H. split; [exact E|apply H].
Defined.

End History.
