(* ===== verification/Backfill.v ===== *)
(** * The statement backfill and the deep reconstruction
    (internal/service/statement_backfill.go, internal/service/deep_history.go)

    A statement broker's history is read a month per statement, newest month
    first, each statement the broker cut short being followed by one for the
    rest of its month.  The broker's answers, the clock and the cancellation
    of the context are parameters, indexed by statement and attempt. *)

From S2P Require Import Prelude Num GoTime Types Store Window Activity Fx Connections History.
From stdpp Require Import base gmap strings tactics list.
From Stdlib Require Import ZArith Lia.
Local Open Scope Z_scope.

Module Backfill.

Definition IBKRStatementWindowDays : Z := 5.
Definition IBKRStatementMaxDays : Z := 365.
Definition statementBackfillPeriodDays : Z := 31.
Definition statementBackfillMaxReads : nat := 80.
Definition statementBackfillMaxWait : duration := 15 * Minute.
Definition statementHolidayTailDays : Z := 3.

(** ** Periods *)

Definition statementWindowFrom (now newest : time) : time :=
  let start := Window.LastStatementDay now - (IBKRStatementWindowDays - 1) * Day in
  if IsZero newest then start
  else
    let resume := truncDay newest - 3 * Day in
    if Before resume start then resume else start.

Definition statementWindowStart {F} {NF : Num F} (repo : option (Window.snapshot_repo F)) (c : ExchangeConnection)
    (now : time) : time :=
  statementWindowFrom now (Window.lastSnapshotTime repo (Some c)).

Definition statementBackfillRange (now : time) : time * time :=
  let last := Window.LastStatementDay now in
  (last - (IBKRStatementMaxDays - 1) * Day, Window.LastStatementDay last).

(** The callers pass midnights, for which the division of hours is exact. *)
Definition historyYears (from to : time) : nat :=
  let days := Z.quot (Sub to from) Day + 1 in
  if days <=? IBKRStatementMaxDays then 1%nat
  else Z.to_nat ((days + IBKRStatementMaxDays - 1) / IBKRStatementMaxDays).

(** ** The connections whose backfill is running *)

Definition claimBackfill (running : gset string) (c : ExchangeConnection) : gset string * bool :=
  let key := Fx.stored_key c in
  if bool_decide (key ∈ running) then (running, false) else ({[key]} ∪ running, true).

Definition releaseBackfill (running : gset string) (c : ExchangeConnection) : gset string :=
  running ∖ {[Fx.stored_key c]}.

(** A state that is not read keeps the daily window. *)
Definition historyBackfilled (conns : Connections.conn_repo) (c : ExchangeConnection) : bool :=
  match Connections.HistoryBackfilled conns (ec_ID c) with Ok done_ => done_ | Err _ => true end.

Section backfill.
Context {F : Type} {NF : Num F}.

(** How the clock, the context and the database answer a backfill. *)
Record backfill_env := mkBackfillEnv {
  be_now : time;
  (** the time after attempt [k] at statement [n] *)
  be_clock : nat → nat → time;
  (** the context's error while pacing statement [n], or waiting after
      attempt [k] at it *)
  be_pacing : nat → option string;
  be_waiting : nat → nat → option string;
  be_fx : option (Fx.fx_source F);
  be_fx_faults : Store.tx_faults (F := F);
  be_persist : History.persist_env F;
  be_awaitsRepin : res bool;
}.

Context (env : backfill_env) (provider : Activity.period_provider F).

(** ** Reading statements *)

Fixpoint read_attempts (left attempt n : nat) (p : Window.dayWindow) :
    list (HistoricalSnapshot F) * option Activity.period_error :=
  let '(days, err) := provider n attempt (Window.dw_from p) (Window.dw_to p) in
  match err with
  | Some (Activity.PeriodBusy retryAt _) =>
      match left with
      | O => (days, err)
      | S left' =>
          let wait := Sub retryAt (be_clock env n attempt) + Second in
          if statementBackfillMaxWait <? wait then ([], err)
          else match be_waiting env n attempt with
               | Some e => ([], Some (Activity.PeriodOther e))
               | None => read_attempts left' (S attempt) n p
               end
      end
  | _ => (days, err)
  end.

Definition readStatementPeriod (n : nat) (p : Window.dayWindow) :
    list (HistoricalSnapshot F) * option Activity.period_error := read_attempts 5 0 n p.

Definition period_text (p : Window.dayWindow) : string :=
  (FormatDate (Window.dw_from p) +:+ ".." +:+ FormatDate (Window.dw_to p))%string.

(** [statementReader.read]: the statements read so far, then the days. *)
Definition read (maxReads reads : nat) (p : Window.dayWindow) : nat * res (list (HistoricalSnapshot F)) :=
  if (reads =? maxReads)%nat then (reads, Err ("history not read in " +:+ pretty.pretty reads +:+ " statements")%string)
  else match (if (0 <? reads)%nat then be_pacing env reads else None) with
  | Some e => (reads, Err e)
  | None =>
      let '(days, err) := readStatementPeriod reads p in
      match err with
      | None | Some (Activity.PeriodUnavailable _) => (S reads, Ok days)
      | Some e => (S reads, Err ("read statement " +:+ period_text p +:+ ": " +:+ Activity.period_err_text e)%string)
      end
  end.

Definition holidayTail (cursor end_ : time) : bool := After (cursor + statementHolidayTailDays * Day) end_.

(** The newest date of a non-empty statement. *)
Definition newest_day (d : HistoricalSnapshot F) (days : list (HistoricalSnapshot F)) : time :=
  foldl (λ last d, if After (hs_Date d) last then hs_Date d else last) (hs_Date d) days.

Definition nextBackfillCursor (d : HistoricalSnapshot F) (days : list (HistoricalSnapshot F)) (end_ : time) : time :=
  let last := newest_day d days in
  if Before last (Window.LastStatementDay (end_ + Day)) then truncDay last + Day else end_ + Day.

(** [statementReader.month]; [None] when the fuel runs out. *)
Fixpoint month_from (fuel maxReads reads : nat) (cursor to : time) (out : list (list (HistoricalSnapshot F))) :
    option (nat * res (list (list (HistoricalSnapshot F)))) :=
  if After cursor to then Some (reads, Ok out)
  else match fuel with
  | O => None
  | S fuel' =>
      match read maxReads reads (Window.mkDayWindow cursor to) with
      | (reads', Err e) => Some (reads', Err e)
      | (reads', Ok []) =>
          if negb (bool_decide (out = [])) && negb (holidayTail cursor to) then
            Some (reads', Err ("statement " +:+ period_text (Window.mkDayWindow cursor to)
                               +:+ " has no day, after the first days of its month")%string)
          else Some (reads', Ok out)
      | (reads', Ok (d :: days)) =>
          month_from fuel' maxReads reads' (nextBackfillCursor d days to) to (out ++ [d :: days])
      end
  end.

Definition month (maxReads reads : nat) (m : Window.dayWindow) :
    option (nat * res (list (list (HistoricalSnapshot F)))) :=
  month_from (S (maxReads - reads)) maxReads reads (Window.dw_from m) (Window.dw_to m) [].

Definition historyStartsAfter (repo : Window.snapshot_repo F) (c : ExchangeConnection) (m : Window.dayWindow)
    (newest : bool) : res unit :=
  if newest then Err ("no statement for " +:+ period_text m +:+ ", the newest month")%string
  else match Window.query repo (λ sch t, Store.GetEarliestTimestamp sch t (ec_UserUID c) (ec_Exchange c) (ec_Label c)) with
  | Err e => if String.eqb e Store.ErrNotFound then Ok tt else Err ("read earliest stored day: " +:+ e)%string
  | Ok earliest =>
      if negb (After earliest (Window.dw_to m))
      then Err ("no statement for " +:+ period_text m +:+ ", yet days from " +:+ FormatDate earliest +:+ " are stored")%string
      else Ok tt
  end.

(** The loop of [backfillStatements] over the months, newest first. *)
Fixpoint months_from (fuel maxReads reads : nat) (repo : Window.snapshot_repo F) (c : ExchangeConnection)
    (from end_ : time) (acc : list (list (HistoricalSnapshot F))) :
    option (nat * res (list (list (HistoricalSnapshot F)))) :=
  if Before end_ from then Some (reads, Ok acc)
  else match fuel with
  | O => None
  | S fuel' =>
      let start := end_ - (statementBackfillPeriodDays - 1) * Day in
      let m := Window.mkDayWindow (if Before start from then from else start) end_ in
      match month maxReads reads m with
      | None => None
      | Some (reads', Err e) => Some (reads', Err e)
      | Some (reads', Ok []) =>
          match historyStartsAfter repo c m (bool_decide (acc = [])) with
          | Err e => Some (reads', Err e)
          | Ok _ => Some (reads', Ok acc)
          end
      | Some (reads', Ok got) =>
          months_from fuel' maxReads reads' repo c from (Window.dw_from m - Day) (got ++ acc)
      end
  end.

Fixpoint merge_from (seen : gset Z) (l : list (HistoricalSnapshot F)) : list (HistoricalSnapshot F) :=
  match l with
  | [] => []
  | d :: l => if bool_decide (hs_Date d ∈ seen) then merge_from seen l
              else d :: merge_from ({[hs_Date d]} ∪ seen) l
  end.

Definition mergePeriodSnapshots (periods : list (list (HistoricalSnapshot F))) : list (HistoricalSnapshot F) :=
  merge_from ∅ (concat periods).

(** ** The backfill *)

Record backfill_out := mkBackfillOut {
  bo_repo : Window.snapshot_repo F;
  bo_fxDone : gset string;
  bo_conns : Connections.conn_repo;
  bo_result : res unit;
  bo_reads : nat;
  (** the days read, before conversion *)
  bo_series : list (HistoricalSnapshot F);
  bo_collected : option (list (Snapshot F));
}.

Definition backfillStatements (repo : Window.snapshot_repo F) (fxDone : gset string) (conns : Connections.conn_repo)
    (c : ExchangeConnection) (from to : time) (opts : History.reconstructOpts) : option backfill_out :=
  let maxReads := (statementBackfillMaxReads * historyYears from to)%nat in
  match months_from (S maxReads) maxReads 0 repo c from to [] with
  | None => None
  | Some (reads, Err e) => Some (mkBackfillOut repo fxDone conns (Err e) reads [] None)
  | Some (reads, Ok got) =>
      let series := mergePeriodSnapshots got in
      let '(repo, fxDone, r) :=
        Fx.convertHistoryToUSD (History.pe_newid (be_persist env)) (be_fx_faults env) repo fxDone (be_fx env) c series
          (be_now env) in
      Some match r with
      | Err e => mkBackfillOut repo fxDone conns (Err ("convert backfill to USD: " +:+ e)%string) reads series None
      | Ok usd =>
          let ps := History.persistHistoricalSnapshots (be_persist env) (be_awaitsRepin env) repo c usd
                      History.InEnclave opts (be_now env) in
          let repo := History.ps_repo ps in
          match History.ps_result ps with
          | Err e => mkBackfillOut repo fxDone conns (Err e) reads series (History.ps_collected ps)
          | Ok _ =>
              if History.ro_dryRun opts || Window.isSet (History.ro_window opts)
              then mkBackfillOut repo fxDone conns (Ok tt) reads series (History.ps_collected ps)
              else match Connections.MarkRebuildFinalized conns (ec_ID c) (be_now env) with
                   | (conns, Err e) => mkBackfillOut repo fxDone conns (Err ("record the backfill: " +:+ e)%string) reads
                                         series (History.ps_collected ps)
                   | (conns, Ok _) => mkBackfillOut repo fxDone conns (Ok tt) reads series (History.ps_collected ps)
                   end
          end
      end
  end.

(** [None]: a backfill is already running, and nothing is done. *)
Definition reconstructFromStatements (running : gset string) (repo : Window.snapshot_repo F) (fxDone : gset string)
    (conns : Connections.conn_repo) (c : ExchangeConnection) (opts : History.reconstructOpts) :
    gset string * option (option backfill_out) :=
  let '(running, claimed) := claimBackfill running c in
  if negb claimed then (running, None)
  else
    let '(from, to) := if Window.isSet (History.ro_window opts)
                       then (Window.dw_from (History.ro_window opts), Window.dw_to (History.ro_window opts))
                       else statementBackfillRange (be_now env) in
    (releaseBackfill running c, Some (backfillStatements repo fxDone conns c from to opts)).

(** ** The deep reconstruction *)

Definition deepHistoryEnd (repo : Window.snapshot_repo F) (c : ExchangeConnection) : res time :=
  match Window.query repo (λ sch t, Store.GetEarliestTimestamp sch t (ec_UserUID c) (ec_Exchange c) (ec_Label c)) with
  | Err e => if String.eqb e Store.ErrNotFound then Ok (truncDay (be_now env) - Day)
             else Err ("read earliest stored day: " +:+ e)%string
  | Ok earliest => Ok (truncDay earliest)
  end.

(** A refusal is [inr]. *)
Definition deepHistoryFrom (running : gset string) (repo : Window.snapshot_repo F) (fxDone : gset string)
    (conns : Connections.conn_repo) (c : ExchangeConnection) (from : time) (opts : History.reconstructOpts) :
    gset string * (option backfill_out + string) :=
  let from := truncDay from in
  match deepHistoryEnd repo c with
  | Err e => (running, inr e)
  | Ok to =>
      let to := if History.ro_rewrite opts then truncDay (be_now env) - Day else to in
      if negb (Before from to) then (running, inr ("stored history already starts on " +:+ FormatDate to)%string)
      else
        let '(running, claimed) := claimBackfill running c in
        if negb claimed then (running, inr "a statement backfill is already running for this connection")
        else (releaseBackfill running c, inl (backfillStatements repo fxDone conns c from to opts))
  end.

(** ** Termination *)

Lemma read_bound maxReads reads p reads' r :
  read maxReads reads p = (reads', r) → (reads ≤ maxReads)%nat →
  (reads ≤ reads' ≤ maxReads)%nat ∧ (is_ok r = true → reads' = S reads).
Proof.
  unfold read. destruct (Nat.eqb_spec reads maxReads) as [->|Hne]; [intros [= <- <-]; by split; [lia|]|].
  intros H Hle. destruct (if (0 <? reads)%nat then be_pacing env reads else None); [injection H as <- <-; by split; [lia|]|].
  destruct (readStatementPeriod reads p) as [days [[ | | ]|]]; injection H as <- <-; split; done || lia.
Qed.

(** Every statement but the last of a month counts against [maxReads]. *)
Lemma month_from_total fuel maxReads reads cursor to out :
  (reads ≤ maxReads)%nat → (maxReads - reads < fuel)%nat →
  ∃ reads' r, month_from fuel maxReads reads cursor to out = Some (reads', r) ∧ (reads ≤ reads' ≤ maxReads)%nat ∧
    (∀ got, r = Ok got → got ≠ out → (reads < reads')%nat).
Proof.
  revert reads cursor out. induction fuel as [|fuel IH]; intros reads cursor out Hle Hf; [lia|].
  cbn [month_from]. destruct (After cursor to); [by eexists _, _; split_and!; naive_solver lia|].
  destruct (read _ _ _) as [reads' r] eqn:E. destruct (read_bound _ _ _ _ _ E Hle) as [Hb Hs].
  destruct r as [[|d days]|e]; [ | |by eexists _, _; split_and!; naive_solver lia].
  - case_match; eexists _, _; split_and!; naive_solver lia.
  - specialize (Hs eq_refl). destruct (IH reads' (nextBackfillCursor d days to) (out ++ [d :: days])) as (n & r & -> & Hn & _);
      [lia|lia|]. eexists _, _. split_and!; [done|lia|lia|]. intros. lia.
Qed.

Lemma months_from_total fuel maxReads reads repo c from end_ acc :
  (reads ≤ maxReads)%nat → (maxReads - reads < fuel)%nat →
  ∃ reads' r, months_from fuel maxReads reads repo c from end_ acc = Some (reads', r) ∧ (reads' ≤ maxReads)%nat.
Proof.
  revert reads end_ acc. induction fuel as [|fuel IH]; intros reads end_ acc Hle Hf; [lia|].
  cbn [months_from]. destruct (Before end_ from); [by eexists _, _; split; [done|]|].
  cbn zeta. set (m := Window.mkDayWindow _ end_). unfold month.
  destruct (month_from_total (S (maxReads - reads)) maxReads reads (Window.dw_from m) (Window.dw_to m) [])
    as (reads' & r & -> & Hb & Hnew); [lia|lia|].
  destruct r as [[|g got]|e]; [| |by eexists _, _; split; [done|lia]].
  - destruct (historyStartsAfter _ _ _ _); eexists _, _; (split; [done|lia]).
  - assert (reads < reads')%nat by by apply (Hnew _ eq_refl). apply IH; lia.
Qed.

(** ** What a successful read covers *)

(** What the backfill relies on of the broker, [stated] being the days it has
    a statement for: dates are midnights, a statement cut short keeps its
    oldest days, and a refusal carries no day. *)
Class StatementBroker (stated : time → Prop) : Prop := {
  sb_midnight : ∀ n k from to days h,
    provider n k from to = (days, None) → h ∈ days → is_midnight (hs_Date h);
  sb_oldest_kept : ∀ n k from to days h d,
    provider n k from to = (days, None) → h ∈ days → is_midnight d → stated d → from <= d <= hs_Date h →
    ∃ h', h' ∈ days ∧ hs_Date h' = d;
  sb_unavailable : ∀ n k from to days msg,
    provider n k from to = (days, Some (Activity.PeriodUnavailable msg)) → days = [];
}.

Lemma read_attempts_answer left k n p days :
  read_attempts left k n p = (days, None) → ∃ k', provider n k' (Window.dw_from p) (Window.dw_to p) = (days, None).
Proof.
  revert k. induction left as [|left IH]; intros k; cbn [read_attempts];
    destruct (provider n k _ _) as [ds [[ | | ]|]] eqn:E; try done; try (intros [= <-]; by eauto).
  case_match; [done|]. case_match; [done|]. apply IH.
Qed.

Lemma read_attempts_unavailable `{!StatementBroker stated} left k n p days msg :
  read_attempts left k n p = (days, Some (Activity.PeriodUnavailable msg)) → days = [].
Proof.
  revert k. induction left as [|left IH]; intros k; cbn [read_attempts];
    destruct (provider n k _ _) as [ds [[ | | ]|]] eqn:E; try done;
    try (intros [= <- <-]; by eapply sb_unavailable).
  case_match; [done|]. case_match; [done|]. apply IH.
Qed.

Lemma read_answer `{!StatementBroker stated} maxReads reads p reads' h days :
  read maxReads reads p = (reads', Ok (h :: days)) →
  ∃ k, provider reads k (Window.dw_from p) (Window.dw_to p) = (h :: days, None).
Proof.
  unfold read. case_match; [done|]. case_match; [done|].
  destruct (readStatementPeriod reads p) as [ds [[ | | ]|]] eqn:E; try done; intros [= _ ->].
  - by apply read_attempts_unavailable in E.
  - by eapply read_attempts_answer.
Qed.

(** The broker has no day for a period. *)
Definition no_statement (from to : time) : Prop :=
  ∃ n k, provider n k from to = ([], None) ∨ ∃ msg, provider n k from to = ([], Some (Activity.PeriodUnavailable msg)).

Lemma read_attempts_empty `{!StatementBroker stated} left k n p msg :
  read_attempts left k n p = ([], Some (Activity.PeriodUnavailable msg)) → no_statement (Window.dw_from p) (Window.dw_to p).
Proof.
  revert k. induction left as [|left IH]; intros k; cbn [read_attempts];
    destruct (provider n k _ _) as [ds [[ | | ]|]] eqn:E; try done;
    try (intros [= -> ->]; by exists n, k; eauto).
  case_match; [done|]. case_match; [done|]. apply IH.
Qed.

Lemma read_empty `{!StatementBroker stated} maxReads reads p reads' :
  read maxReads reads p = (reads', Ok []) → no_statement (Window.dw_from p) (Window.dw_to p).
Proof.
  unfold read. case_match; [done|]. case_match; [done|].
  destruct (readStatementPeriod reads p) as [ds [[ | | ]|]] eqn:E; try done; intros [= _ ->].
  - by eapply read_attempts_empty.
  - apply read_attempts_answer in E as [k E]. exists reads, k. by left.
Qed.

Lemma newest_day_in d days : ∃ h, h ∈ d :: days ∧ hs_Date h = newest_day d days.
Proof.
  unfold newest_day. change (hs_Date d) with (id (hs_Date d)).
  assert (∀ l last, (∃ h, h ∈ d :: days ∧ hs_Date h = last) → l ⊆ d :: days →
    ∃ h, h ∈ d :: days ∧ hs_Date h = foldl (λ last d, if After (hs_Date d) last then hs_Date d else last) last l) as H.
  { induction l as [|x l IH]; intros last Hl Hsub; [done|]. cbn [foldl]. apply IH; [|set_solver].
    case_match; [|done]. exists x. split; [apply Hsub; set_solver|done]. }
  apply H; [exists d; split; [set_solver|done]|set_solver].
Qed.

(** A date of one of the statements. *)
Definition dated (d : time) (l : list (list (HistoricalSnapshot F))) : Prop :=
  ∃ h, h ∈ concat l ∧ hs_Date h = d.

Lemma dated_app d l1 l2 : dated d (l1 ++ l2) ↔ dated d l1 ∨ dated d l2.
Proof. unfold dated. rewrite concat_app. setoid_rewrite elem_of_app. naive_solver. Qed.

Lemma last_statement_day_near end_ : is_midnight end_ → end_ - 2 * Day <= Window.LastStatementDay (end_ + Day).
Proof.
  intros Hm. unfold Window.LastStatementDay. destruct (Window.back_to_weekday_spec (truncDay (end_ + Day) - Day)) as (_ & k & Hk & -> & _).
  pose proof (truncDay_add end_ 1) as H1. rewrite Z.mul_1_l, Hm in H1. rewrite H1. pose proof Day_pos. nia.
Qed.

(** A month that came back holds every stated day from its cursor on, but for
    its last three calendar days. *)
Lemma month_covers `{!StatementBroker stated} fuel maxReads reads cursor to out reads' got :
  is_midnight to →
  month_from fuel maxReads reads cursor to out = Some (reads', Ok got) →
  (∃ rest, got = out ++ rest) ∧
  (got ≠ [] → ∀ d, is_midnight d → stated d → cursor <= d <= to - statementHolidayTailDays * Day → dated d got).
Proof.
  intros Hto. unfold statementHolidayTailDays. pose proof Day_pos as HD.
  revert reads cursor out. induction fuel as [|fuel IH]; intros reads cursor out; cbn [month_from];
    (destruct (After cursor to) eqn:Hc; [intros [= <- <-]; unfold After in Hc; split; [exists []; by rewrite app_nil_r|lia]|]);
    [done|].
  destruct (read _ _ _) as [reads1 [[|d0 days]|e]] eqn:Hr; [ | |done].
  - unfold holidayTail, statementHolidayTailDays, After in *.
    destruct (bool_decide_reflect (out = [])) as [->|Ho]; cbn [negb andb].
    + intros [= <- <-]. split; [by exists []|done].
    + destruct (to <? cursor + 3 * Day) eqn:Ht; cbn [negb]; [|done]. intros [= <- <-].
      split; [exists []; by rewrite app_nil_r|lia].
  - intros Hm. destruct (IH _ _ _ Hm) as [[rest ->] Hcov]. split; [exists ([d0 :: days] ++ rest); by rewrite app_assoc|].
    intros Hne d Hd Hst Hrange. apply read_answer in Hr as [k Hk]. cbn in Hk.
    destruct (newest_day_in d0 days) as (h & Hh & Hlast).
    destruct (Z_le_gt_dec d (newest_day d0 days)) as [Hle|Hgt].
    { destruct (sb_oldest_kept _ _ _ _ _ h d Hk Hh Hd Hst ltac:(lia)) as (h' & Hh' & Hd').
      rewrite !dated_app. left. right. exists h'. cbn. by rewrite app_nil_r. }
    apply (Hcov Hne d Hd Hst). split; [|lia].
    pose proof (sb_midnight _ _ _ _ _ h Hk Hh) as Hmh. rewrite Hlast in Hmh.
    pose proof (last_statement_day_near to Hto). unfold nextBackfillCursor, Before.
    destruct (Z.ltb_spec (newest_day d0 days) (Window.LastStatementDay (to + Day))); [|lia].
    rewrite Hmh. apply midnight_lt; [done|done|lia].
Qed.

(** A month that came back with nothing is one the broker has no day for. *)
Lemma month_empty `{!StatementBroker stated} fuel maxReads reads cursor to reads' :
  is_midnight to → cursor <= to → month_from fuel maxReads reads cursor to [] = Some (reads', Ok []) → no_statement cursor to.
Proof.
  intros Hto Hle. destruct fuel as [|fuel]; cbn [month_from]; unfold After; (destruct (Z.ltb_spec to cursor); [lia|]); [done|].
  destruct (read _ _ _) as [reads1 [[|d days]|e]] eqn:Hr; [ | |done].
  - intros _. by apply read_empty in Hr.
  - intros [[rest Hrest] _]%month_covers; [done|done].
Qed.

(** The rows of a connection. *)
Definition rows_of (repo : Window.snapshot_repo F) (c : ExchangeConnection) : list (Snapshot F) :=
  filter (λ r, Store.of_conn (Window.sp_schema repo) (ec_UserUID c) (ec_Exchange c) (ec_Label c) r = true)
    (Window.sp_table repo).

Lemma starts_after_rows repo c m :
  historyStartsAfter repo c m false = Ok tt →
  Window.sp_fault repo = None → ∀ r, r ∈ rows_of repo c → Window.dw_to m < sn_Timestamp r.
Proof.
  unfold historyStartsAfter, Window.query, Store.GetEarliestTimestamp, rows_of. intros H Hf r Hr.
  rewrite Hf in H. destruct (Store.earliest_of _) as [ts|] eqn:E; cbn in H.
  - unfold After in H. destruct (Z.ltb_spec (Window.dw_to m) ts); [|done].
    pose proof (Store.earliest_of_le _ _ E r Hr). lia.
  - apply Store.earliest_of_none in E. rewrite E in Hr. by apply not_elem_of_nil in Hr.
Qed.

(** The range is cut into months of 31 days counted back from its end.  The
    three last calendar days of one. *)
Definition month_tail (to d : time) : Prop :=
  ∃ k, 0 <= k ∧ to - k * (31 * Day) - 3 * Day < d <= to - k * (31 * Day).

(** The first day of a month after which the account has no statement, and
    before which it has no row. *)
Definition opens_at (repo : Window.snapshot_repo F) (c : ExchangeConnection) (from to start : time) (k : Z) : Prop :=
  from < start ∧ start = to + Day - k * (31 * Day) ∧ no_statement (Z.max from (start - 31 * Day)) (start - Day) ∧
  ∀ r, r ∈ rows_of repo c → start - Day < sn_Timestamp r.

Lemma months_cover `{!StatementBroker stated} fuel maxReads reads repo c from end_ acc reads' got :
  is_midnight end_ → is_midnight from → Window.sp_fault repo = None →
  months_from fuel maxReads reads repo c from end_ acc = Some (reads', Ok got) →
  ∃ pre start, got = pre ++ acc ∧
    (start = from ∨ ∃ k, 0 <= k ∧ (acc = [] → 1 <= k) ∧ opens_at repo c from end_ start k) ∧
    ∀ d, is_midnight d → stated d → start <= d <= end_ → dated d pre ∨ month_tail end_ d.
Proof.
  intros Hend Hfrom Hf. pose proof Day_pos as HD.
  revert reads end_ acc Hend. induction fuel as [|fuel IH]; intros reads end_ acc Hend; cbn [months_from];
    unfold Before; (destruct (Z.ltb_spec end_ from) as [Hb|Hb]; [intros [= <- <-]; exists [], from; split_and!; [done|by left|lia]|]);
    [done|].
  set (start := end_ - (statementBackfillPeriodDays - 1) * Day).
  set (m := Window.mkDayWindow _ end_). unfold month.
  destruct (month_from _ _ _ _ _ []) as [[reads1 [[|g gs]|e]]|] eqn:Hm; [ | |done|done].
  - destruct (historyStartsAfter repo c m (bool_decide (acc = []))) as [[]|] eqn:Hs; [|done]. intros [= <- <-].
    destruct (bool_decide_reflect (acc = [])) as [|Hacc]; [done|].
    exists [], (end_ + Day). split_and!; [done| |lia]. right. exists 0. split_and!; [lia|done|]. split_and!; [lia|lia| |].
    + apply month_empty in Hm; [|done|subst m start; cbn; unfold statementBackfillPeriodDays; destruct (Z.ltb_spec (end_ - (31 - 1) * Day) from); lia].
      replace (end_ + Day - Day) with end_ by lia. replace (Z.max from _) with (Window.dw_from m); [done|].
      subst m start. cbn. unfold statementBackfillPeriodDays. destruct (Z.ltb_spec (end_ - (31 - 1) * Day) from); lia.
    + intros r Hr. pose proof (starts_after_rows _ _ _ Hs Hf r Hr) as Hlt. cbn in Hlt. lia.
  - destruct (month_covers _ _ _ _ _ _ _ _ Hend Hm) as [_ Hcov]. specialize (Hcov ltac:(done)). unfold statementHolidayTailDays in Hcov.
    assert (∀ d, is_midnight d → stated d → Window.dw_from m <= d <= end_ → dated d (g :: gs) ∨ month_tail end_ d) as Hhere.
    { intros d Hd Hst Hrange. destruct (Z_le_gt_dec d (end_ - 3 * Day)).
      - left. apply Hcov; [done|done|split; [apply Hrange|done]].
      - right. exists 0. lia. }
    clear Hcov Hm. subst m. cbn in *. destruct (Z.ltb_spec start from).
    + intros Hrec. exists (g :: gs), from. split_and!; [|by left|done].
      destruct fuel; cbn [months_from] in Hrec; unfold Before in Hrec;
        (destruct (Z.ltb_spec (from - Day) from); [by injection Hrec|lia]).
    + intros Hrec. apply IH in Hrec as (pre & s & -> & Hstop & Hc).
      2:{ subst start. replace (end_ - _ - Day) with (end_ + (- statementBackfillPeriodDays) * Day) by lia. by apply midnight_add. }
      exists (pre ++ g :: gs), s. split_and!; [by rewrite <- app_assoc| |].
      { destruct Hstop as [->|(k & Hk & _ & H1 & H2 & H3 & H4)]; [by left|]. right. exists (k + 1). split_and!; [lia|lia|].
        split_and!; [done| |done|done]. subst start. unfold statementBackfillPeriodDays in *. lia. }
      intros d Hd Hst Hrange. rewrite dated_app.
      destruct (Z_le_gt_dec start d); [destruct (Hhere d Hd Hst ltac:(lia)); tauto|].
      destruct (Hc d Hd Hst) as [?|(k & Hk & Hkd)]; [|tauto|].
      * split; [lia|]. pose proof (midnight_lt d start Hd) as Hlt.
        assert (is_midnight start); [|specialize (Hlt ltac:(done) ltac:(lia)); lia].
        subst start. replace (end_ - _) with (end_ + (- (statementBackfillPeriodDays - 1)) * Day) by lia. by apply midnight_add.
      * right. exists (k + 1). subst start. unfold statementBackfillPeriodDays in *. lia.
Qed.

Lemma merge_from_dates seen l d :
  d ∈ hs_Date <$> merge_from seen l ↔ d ∉ seen ∧ d ∈ hs_Date <$> l.
Proof.
  revert seen. induction l as [|h l IH]; intros seen; cbn [merge_from]; [set_solver|].
  destruct (bool_decide_reflect (hs_Date h ∈ seen)) as [Hs|Hs]; rewrite !fmap_cons, !elem_of_cons, !IH.
  - set_solver.
  - rewrite not_elem_of_union, not_elem_of_singleton. destruct (decide (d = hs_Date h)); naive_solver.
Qed.

Lemma merge_from_nodup seen l : NoDup (hs_Date <$> merge_from seen l).
Proof.
  revert seen. induction l as [|h l IH]; intros seen; cbn [merge_from]; [constructor|].
  case_match; [done|]. rewrite fmap_cons. constructor; [|done].
  rewrite merge_from_dates. set_solver.
Qed.

Lemma dated_series d l : dated d l → d ∈ hs_Date <$> mergePeriodSnapshots l.
Proof.
  intros (h & Hh & <-). unfold mergePeriodSnapshots. rewrite merge_from_dates.
  split; [set_solver|]. by apply list_elem_of_fmap_2.
Qed.

Lemma convert_keeps_repo newid flt (repo : Window.snapshot_repo F) done_ fx c rows now :
  Fx.backfillsStoredRows (ec_Exchange c) = false →
  (Fx.convertHistoryToUSD newid flt repo done_ fx c rows now).1.1 = repo.
Proof.
  intros Hb. unfold Fx.convertHistoryToUSD. case_match; [done|]. cbn zeta.
  destruct (Fx.historyFXWindow _ _) as [[[|ccy ccys] ?] ?]; [done|]. destruct fx; [|done].
  destruct (Fx.loadFXRates _ _ _ _ _); [|done]. rewrite Hb, andb_false_r. done.
Qed.

(** ** Properties *)

(** A backfill always ends, within its budget of statements: eighty per
    year of the range, whatever the broker answers, a statement whose days
    never advance included. *)
Theorem backfill_terminates repo fxDone conns c from to opts :
  ∃ out, backfillStatements repo fxDone conns c from to opts = Some out ∧
    (bo_reads out ≤ statementBackfillMaxReads * historyYears from to)%nat.
Proof.
  unfold backfillStatements. cbn zeta. set (maxReads := (statementBackfillMaxReads * _)%nat).
  destruct (months_from_total (S maxReads) maxReads 0 repo c from to []) as (reads & r & -> & Hr); [lia|lia|].
  destruct r; [|eauto]. destruct (Fx.convertHistoryToUSD _ _ _ _ _ _ _ _) as [[? ?] [|]]; [|eauto].
  destruct (History.ps_result _); [|eauto]. destruct (_ || _); [eauto|].
  destruct (Connections.MarkRebuildFinalized _ _ _) as [? [|]]; eauto.
Qed.

(** A full backfill that succeeds is recorded, so no sync runs it again;
    one that fails is not, so the next sync does.  A failed backfill of a
    connection whose stored rows are not converted leaves the stored rows as
    they were, unless only its recording failed. *)
Theorem backfill_recorded repo fxDone conns c from to opts :
  match backfillStatements repo fxDone conns c from to opts with
  | None => False
  | Some out =>
      match bo_result out with
      | Ok _ =>
          if History.ro_dryRun opts || Window.isSet (History.ro_window opts) then bo_conns out = conns
          else Connections.HistoryBackfilled (bo_conns out) (ec_ID c) = Ok true
      | Err _ =>
          bo_conns out = conns ∧
          (Fx.backfillsStoredRows (ec_Exchange c) = false →
           bo_repo out = repo ∨ is_ok (Connections.MarkRebuildFinalized conns (ec_ID c) (be_now env)).2 = false)
      end
  end.
Proof.
  unfold backfillStatements. cbn zeta. set (maxReads := (statementBackfillMaxReads * _)%nat).
  destruct (months_from_total (S maxReads) maxReads 0 repo c from to []) as (reads & r & -> & Hr); [lia|lia|].
  destruct r as [got|]; [|by split; [|auto]].
  pose proof (convert_keeps_repo (History.pe_newid (be_persist env)) (be_fx_faults env) repo fxDone (be_fx env) c
    (mergePeriodSnapshots got) (be_now env)) as Hk.
  destruct (Fx.convertHistoryToUSD _ _ _ _ _ _ _ _) as [[repo1 done1] [usd|e]]; cbn [fst] in Hk; [|by split; [|auto]].
  destruct (History.persist_cases (be_persist env) (be_awaitsRepin env) repo1 c usd History.InEnclave opts (be_now env))
    as [[Hps _]|(Hps & _)].
  - destruct (History.ps_result _); [|cbn; by rewrite Hps; split; [|auto]].
    destruct (_ || _) eqn:Ho; [done|].
    destruct (Connections.MarkRebuildFinalized conns (ec_ID c) (be_now env)) as [conns' [[]|e]] eqn:Em;
      [by eapply Connections.mark_finalized_backfilled|]. cbn.
    split; [by eapply Connections.mark_finalized_failed|by auto].
  - rewrite Hps. destruct (_ || _) eqn:Ho; [done|].
    destruct (Connections.MarkRebuildFinalized conns (ec_ID c) (be_now env)) as [conns' [[]|e]] eqn:Em;
      [by eapply Connections.mark_finalized_backfilled|]. cbn.
    split; [by eapply Connections.mark_finalized_failed|by auto].
Qed.

(** C23: a successful backfill leaves no silent hole.  Against a broker that
    keeps the oldest days of a statement it cuts short, the series read holds
    each of its days once, and every day the broker has a statement for, from
    the first day of the history up to the end of the range, is in it, save
    for the three last calendar days of a month, months being the 31-day ones
    counted back from the end of the range.  The first day of the history is
    the beginning of the range; or it is the first day of a month, the newest
    one at the latest, when the broker answered the month before without a day
    and every stored row of the connection is from that day on. *)
Theorem backfill_no_hole `{!StatementBroker stated} repo fxDone conns c from to opts out :
  is_midnight to → is_midnight from → Window.sp_fault repo = None →
  backfillStatements repo fxDone conns c from to opts = Some out → bo_result out = Ok tt →
  NoDup (hs_Date <$> bo_series out) ∧
  ∃ start, (start = from ∨ ∃ k, 1 <= k ∧ opens_at repo c from to start k) ∧
    ∀ d, is_midnight d → stated d → start <= d <= to → d ∈ hs_Date <$> bo_series out ∨ month_tail to d.
Proof.
  intros Hto Hfrom Hf H Hok.
  assert (∃ n got reads, months_from n (statementBackfillMaxReads * historyYears from to) 0 repo c from to [] = Some (reads, Ok got) ∧
    bo_series out = mergePeriodSnapshots got) as (n & got & reads & Hm & ->).
  { revert H. unfold backfillStatements. cbn zeta.
    destruct (months_from _ _ _ _ _ _ _ _) as [[reads [got|e]]|] eqn:E; [|intros [= <-]; done|done].
    intros H. exists (S (statementBackfillMaxReads * historyYears from to)), got, reads. split; [exact E|].
    destruct (Fx.convertHistoryToUSD _ _ _ _ _ _ _ _) as [[? ?] [|]]; injection H as <-; [|done].
    destruct (History.ps_result _); [|done]. destruct (_ || _); [done|].
    by destruct (Connections.MarkRebuildFinalized _ _ _) as [? [|]]. }
  split; [apply merge_from_nodup|].
  apply months_cover in Hm as (pre & start & Hgot & Hstop & Hc); [|done..]. rewrite app_nil_r in Hgot. subst got.
  exists start. split_and!; [destruct Hstop as [->|(k & _ & Hk & Ho)]; [by left|right; exists k; by split; [apply Hk|]]|]. intros d Hd Hst Hrange.
  destruct (Hc d Hd Hst Hrange); [left; by apply dated_series|by right].
Qed.

End backfill.
Arguments backfill_env F : clear implicits.
Arguments backfill_out F : clear implicits.

(** *** Concrete instances *)

(** An account opened on day 60 of 2024 (1 March), with a statement for every
    weekday since, served by a broker that cuts each statement seven days
    after its first possible day. *)
Definition sample_days : list time := (λ k, sample_day (60 + Z.of_nat k)) <$> seq 0 60.

Definition sample_stated (d : time) : bool :=
  bool_decide (d ∈ sample_days) && negb (Window.is_weekend d).

Definition sample_statement (d : time) : HistoricalSnapshot float64 :=
  mkHistorical d (b64 1000) (b64 1000) (b64 0) (b64 0) 0 (b64 0) (b64 0) (b64 0) 0 0 (b64 0) (b64 0) [] "USD" d None
    (b64 0) ∅.

Definition sample_served (from to d : time) : bool :=
  negb (Window.is_weekend d) && (from <=? d) && (d <=? to) && (d <? Z.max from (sample_day 60) + 7 * Day).

Definition sample_broker : Activity.period_provider float64 := λ _ _ from to,
  let days := filter (λ d, sample_served from to d = true) sample_days in
  (sample_statement <$> days, None).

#[export] Instance sample_statement_broker : StatementBroker sample_broker (λ d, sample_stated d = true).
Proof.
  split.
  - intros n k from to days h [<- _]%pair_equal_spec (d & -> & [_ (j & -> & _)%list_elem_of_fmap]%list_elem_of_filter)%list_elem_of_fmap.
    cbn. unfold is_midnight, sample_day. replace ((19723 + (60 + Z.of_nat j)) * Day) with (0 + (19723 + (60 + Z.of_nat j)) * Day) by lia.
    by rewrite truncDay_add.
  - intros n k from to days h d [<- _]%pair_equal_spec (d' & -> & [Hs _]%list_elem_of_filter)%list_elem_of_fmap _ Hst Hr. cbn in Hr.
    exists (sample_statement d). split; [|done]. apply list_elem_of_fmap_2.
    unfold sample_stated, sample_served in *. apply andb_true_iff in Hst as [Hd%bool_decide_eq_true Hw].
    apply list_elem_of_filter. split; [|done]. rewrite Hw in *. rewrite !andb_true_iff in *. lia.
  - intros n k from to days msg. intros [_ ?]%pair_equal_spec. done.
Qed.

Definition sample_backfill_env : backfill_env float64 :=
  mkBackfillEnv (sample_day 100 + 3 * Hour) (λ _ _, sample_day 100) (λ _, None) (λ _ _, None) None Store.no_faults
    (History.mkPersistEnv (λ _, "id") (λ _, Store.no_faults) (λ _, None) None) (Ok false).

Definition sample_range : time * time := statementBackfillRange (sample_day 100 + 3 * Hour).

Definition sample_backfill : option (backfill_out float64) :=
  backfillStatements sample_backfill_env sample_broker (Window.mkSnapshotRepo Store.prod_schema [] None) ∅
    (Connections.mkConnRepo true true true [Connections.mkConnRow Fx.sample_fx_conn None None] None)
    Fx.sample_fx_conn sample_range.1 sample_range.2 History.plain_opts.

(** The months of the sample end on days 98, 67 and 36; the one ending on
    day 36 has no statement, the one before the end has. *)
Lemma sample_opens start k :
  1 <= k → opens_at sample_broker (Window.mkSnapshotRepo Store.prod_schema [] None) Fx.sample_fx_conn sample_range.1 sample_range.2 start k →
  start <= sample_day 60.
Proof.
  intros Hk (_ & -> & Hno & _). replace sample_range.2 with (sample_day 98) in * by (vm_compute; reflexivity).
  replace sample_range.1 with (sample_day (-265)) in * by (vm_compute; reflexivity). unfold sample_day in *. pose proof Day_pos.
  destruct (decide (k = 1)) as [->|]; [|nia]. exfalso.
  replace (Z.max _ _) with (sample_day 37) in Hno by (vm_compute; reflexivity).
  replace (_ - Day) with (sample_day 67) in Hno by (vm_compute; reflexivity).
  destruct Hno as (n & j & [E|[msg E]]); vm_compute in E; discriminate E.
Qed.

Lemma backfill_no_hole_witness :
  sample_range = (sample_day (-265), sample_day 98) ∧
  ∃ out, sample_backfill = Some out ∧ bo_reads out = 8%nat ∧ length (bo_series out) = 27%nat ∧
    NoDup (hs_Date <$> bo_series out) ∧
    ∀ d, is_midnight d → sample_stated d = true → d <= sample_day 98 →
      d ∈ hs_Date <$> bo_series out ∨ month_tail (sample_day 98) d.
Proof.
  assert (sample_range = (sample_day (-265), sample_day 98)) as Hr by (vm_compute; reflexivity). split; [exact Hr|].
  destruct sample_backfill as [out|] eqn:E; [|vm_compute in E; discriminate].
  exists out.
  assert (bo_result out = Ok tt ∧ bo_reads out = 8%nat ∧ length (bo_series out) = 27%nat) as (Hok & Hn & Hl).
  { vm_compute in E. injection E as <-. split_and!; vm_compute; reflexivity. }
  unfold sample_backfill in E.
  assert (is_midnight sample_range.2) as Hm by (vm_compute; reflexivity).
  assert (is_midnight sample_range.1) as Hm1 by (vm_compute; reflexivity).
  pose proof (backfill_no_hole sample_backfill_env sample_broker (stated := λ d, sample_stated d = true)
      (Window.mkSnapshotRepo Store.prod_schema [] None) _ _ _ sample_range.1 sample_range.2 _ out Hm Hm1 eq_refl E Hok) as [H1 (start & Hs & H2)].
  split_and!; [reflexivity|exact Hn|exact Hl|exact H1|]. intros d Hd Hst Hle.
  assert (start <= sample_day 60) as Hstart.
  { destruct Hs as [->|(k & Hk & Ho)]; [rewrite Hr; vm_compute; discriminate|by eapply sample_opens]. }
  rewrite Hr in H2. apply (H2 d Hd Hst). split; [|exact Hle].
  apply andb_true_iff in Hst as [(j & -> & _)%bool_decide_eq_true%list_elem_of_fmap _].
  etrans; [exact Hstart|]. unfold sample_day. pose proof Day_pos. nia.
Defined.

End Backfill.
