(* ===== verification/Rebuild.v ===== *)
(** * Rebuilding a connection's history
    (internal/service/sync.go: syncFromHistoricalProvider, reconstructHistory,
    recalibrateOne, RecalibrateRebuiltHistories, DeleteRebuiltHistory)

    A history is rebuilt inside the enclave when the connector can, and by an
    external service otherwise.  The call to that service carries plaintext
    credentials out of the enclave: the requests sent are part of the state. *)

From S2P Require Import Prelude Num GoTime Types Store Window Activity Fx Connections History Backfill.
From stdpp Require Import base gmap strings tactics list.
From Stdlib Require Import ZArith Lia.
Local Open Scope Z_scope.

Module Rebuild.

Record Credentials := mkCredentials {
  cd_APIKey : string;
  cd_APISecret : string;
  cd_Passphrase : string;
  cd_Demo : bool;
}.

Definition externalRebuilderExchanges : list string :=
  ["hyperliquid"; "bitget"; "binance"; "okx"; "alpaca"; "bybit"; "kraken"; "mexc"; "lighter"].

Definition externalRebuilderSupports (exchange : string) : bool :=
  bool_decide (ToLower (TrimSpace exchange) ∈ externalRebuilderExchanges).

(** Empty when the credential can rebuild. *)
Definition rebuildCredentialGap (exchange apiKey : string) : string :=
  if negb (String.eqb (ToLower (TrimSpace exchange)) "lighter") then ""
  else if String.prefix "ro:" (ToLower (TrimSpace apiKey)) then ""
  else "lighter_history_needs_ro_token".

Definition historyReconstructedInEnclave (exchange : string) : bool :=
  let e := ToLower exchange in String.eqb e "ibkr" || String.eqb e "ctrader".

Definition maxRebuildRetryDays : Z := 7.

Definition ErrHistoryNotDeletable : string := "history reconstruction is not deletable for this exchange".

Section rebuild.
Context {F : Type} {NF : Num F}.

Record RebuildRequest := mkRequest {
  rq_UserUID : string;
  rq_Exchange : string;
  rq_Label : string;
  rq_WalletAddress : string;
  rq_APIKey : string;
  rq_APISecret : string;
  rq_Passphrase : string;
  rq_EndEquityOverride : F;
}.

Record RebuildResult := mkRebuildResult {
  rr_Snapshots : list (HistoricalSnapshot F);
  rr_CoveredFrom : time;
}.

Record world := mkWorld {
  w_repo : Window.snapshot_repo F;
  w_fxDone : gset string;
  w_conns : Connections.conn_repo;
  (** the connections whose statement backfill is running *)
  w_running : gset string;
  (** the requests sent to the external rebuilder, oldest first *)
  w_egress : list RebuildRequest;
  (** the users whose analytics were pinged *)
  w_notified : list string;
}.

Definition with_repo (w : world) (r : Window.snapshot_repo F) : world :=
  mkWorld r (w_fxDone w) (w_conns w) (w_running w) (w_egress w) (w_notified w).
Definition with_conns (w : world) (c : Connections.conn_repo) : world :=
  mkWorld (w_repo w) (w_fxDone w) c (w_running w) (w_egress w) (w_notified w).
Definition with_egress (w : world) (rq : RebuildRequest) : world :=
  mkWorld (w_repo w) (w_fxDone w) (w_conns w) (w_running w) (w_egress w ++ [rq]) (w_notified w).

(** [historyNotifyURL] is set *)
Context (notifies : bool).

Definition notifyHistoryRebuilt (w : world) (user : string) : world :=
  if notifies
  then mkWorld (w_repo w) (w_fxDone w) (w_conns w) (w_running w) (w_egress w) (w_notified w ++ [user])
  else w.

(** The external rebuilder, [None] when there is none or it is not
    configured: its answer to the n-th request. *)
Context (rebuilder : option (nat → RebuildRequest → res RebuildResult)).

(** The decrypted credentials of a connection, and the connector built from
    them. *)
Context (credentialsOf : string → string → string → res Credentials).
Context (createConnector : string → string → string → Credentials → res (Activity.connector F)).

(** ** In the enclave *)

Record provided := mkProvided {
  pv_repo : Window.snapshot_repo F;
  pv_fxDone : gset string;
  pv_error : option Activity.conn_error;
  pv_written : option (list (Snapshot F));
  pv_collected : option (list (Snapshot F));
}.

(** The error of [persistHistoricalSnapshots] is not returned. *)
Definition syncFromHistoricalProvider (env : Backfill.backfill_env F) (repo : Window.snapshot_repo F)
    (fxDone : gset string) (c : ExchangeConnection)
    (provider : time → list (HistoricalSnapshot F) + Activity.conn_error) (since : time)
    (opts : History.reconstructOpts) : provided :=
  match provider since with
  | inr (Activity.FlexTokenBusy _) => mkProvided repo fxDone None None None
  | inr e => mkProvided repo fxDone (Some e) None None
  | inl hs =>
      let '(repo, fxDone, r) :=
        Fx.convertHistoryToUSD (History.pe_newid (Backfill.be_persist env)) (Backfill.be_fx_faults env) repo fxDone
          (Backfill.be_fx env) c hs (Backfill.be_now env) in
      match r with
      | Err e => mkProvided repo fxDone (Some (Activity.OtherError e)) None None
      | Ok usd =>
          let ps := History.persistHistoricalSnapshots (Backfill.be_persist env) (Backfill.be_awaitsRepin env) repo c usd
                      History.InEnclave opts (Backfill.be_now env) in
          mkProvided (History.ps_repo ps) fxDone None (History.ps_written ps) (History.ps_collected ps)
      end
  end.

(** ** Routing *)

Definition request_of (c : ExchangeConnection) (creds : Credentials) (endEquity : F) : RebuildRequest :=
  mkRequest (ec_UserUID c) (ec_Exchange c) (ec_Label c) (cd_APIKey creds) (cd_APIKey creds) (cd_APISecret creds)
    (cd_Passphrase creds) endEquity.

Definition latest_row (w : world) (c : ExchangeConnection) : res (Snapshot F) :=
  Window.query (w_repo w) (λ sch t,
    Store.GetLatestByUserExchangeLabel sch t (ec_UserUID c) (ec_Exchange c) (ec_Label c)).

Definition with_coveredFrom (opts : History.reconstructOpts) (t : time) : History.reconstructOpts :=
  History.mkOpts (History.ro_window opts) (History.ro_dryRun opts) (History.ro_rewrite opts) t.

(** The world left, and the days a dry run collected. *)
Definition reconstructHistory (env : Backfill.backfill_env F) (w : world) (c : ExchangeConnection)
    (conn : Activity.connector F) (creds : Credentials) (opts : History.reconstructOpts) :
    world * option (list (Snapshot F)) :=
  match Activity.cn_GetHistoricalSnapshotsForPeriod conn with
  | Some pp =>
      match Backfill.reconstructFromStatements env pp (w_running w) (w_repo w) (w_fxDone w) (w_conns w) c opts with
      | (running, Some (Some out)) =>
          let w' := mkWorld (Backfill.bo_repo out) (Backfill.bo_fxDone out) (Backfill.bo_conns out) running (w_egress w)
                      (w_notified w) in
          (if is_ok (Backfill.bo_result out) then notifyHistoryRebuilt w' (ec_UserUID c) else w',
           Backfill.bo_collected out)
      | _ => (w, None)
      end
  | None =>
      match Activity.cn_GetHistoricalSnapshots conn with
      | Some hsp =>
          let p := syncFromHistoricalProvider env (w_repo w) (w_fxDone w) c hsp zero_time opts in
          (notifyHistoryRebuilt
             (mkWorld (pv_repo p) (pv_fxDone p) (w_conns w) (w_running w) (w_egress w) (w_notified w)) (ec_UserUID c),
           pv_collected p)
      | None =>
          match rebuilder with
          | None => (w, None)
          | Some rebuild =>
              if negb (externalRebuilderSupports (ec_Exchange c)) then (w, None)
              else
                let endEquity := match latest_row w c with Ok latest => sn_TotalEquity latest | Err _ => f0 end in
                if negb (String.eqb (rebuildCredentialGap (ec_Exchange c) (cd_APIKey creds)) "") then (w, None)
                else
                  let rq := request_of c creds endEquity in
                  let w' := with_egress w rq in
                  match rebuild (length (w_egress w)) rq with
                  | Err _ => (w', None)
                  | Ok r =>
                      let ps := History.persistHistoricalSnapshots (Backfill.be_persist env) (Backfill.be_awaitsRepin env)
                                  (w_repo w') c (rr_Snapshots r) History.ExternalRebuilder
                                  (with_coveredFrom opts (rr_CoveredFrom r)) (Backfill.be_now env) in
                      (notifyHistoryRebuilt (with_repo w' (History.ps_repo ps)) (ec_UserUID c), History.ps_collected ps)
                  end
          end
      end
  end.

Definition reconstructHistoryFor (env : Backfill.backfill_env F) (w : world) (user exchange label : string)
    (opts : History.reconstructOpts) : world * option (list (Snapshot F)) :=
  match Connections.GetActiveConnectionByLabel (w_conns w) user exchange label with
  | Err _ => (w, None)
  | Ok c =>
      match credentialsOf user exchange label with
      | Err _ => (w, None)
      | Ok creds =>
          match createConnector (ec_Exchange c) (ec_UserUID c) label creds with
          | Err _ => (w, None)
          | Ok conn => reconstructHistory env w c conn creds opts
          end
      end
  end.

Definition ReconstructHistoryOnConnect env w user exchange label : world :=
  (reconstructHistoryFor env w user exchange label (History.mkOpts Window.no_window false false zero_time)).1.

Definition ReconstructHistoryRange env w user exchange label (from to : time) (dryRun : bool) : world :=
  (reconstructHistoryFor env w user exchange label
     (History.mkOpts (Window.mkDayWindow (truncDay from) (truncDay to)) dryRun false zero_time)).1.

Definition DryRunReconstructRange env w user exchange label (from to : time) : world * option (list (Snapshot F)) :=
  reconstructHistoryFor env w user exchange label
    (History.mkOpts (Window.mkDayWindow (truncDay from) (truncDay to)) true false zero_time).

(** ** Deletion *)

Definition DeleteRebuiltHistory (w : world) (user exchange label : string) (delete_fault : option string) :
    world * res Z :=
  if historyReconstructedInEnclave exchange then (w, Err ErrHistoryNotDeletable)
  else match Connections.GetHistoryTarget (w_conns w) user (Window.normalizeExchange exchange) (TrimSpace label) with
  | Err e => (w, Err ("load connection: " +:+ e)%string)
  | Ok (id, createdAt) =>
      match Connections.ClearRebuildConsent (w_conns w) id with
      | (conns, Err e) => (with_conns w conns, Err ("withdraw rebuild consent: " +:+ e)%string)
      | (conns, Ok _) =>
          let w := with_conns w conns in
          match delete_fault with
          | Some e => (w, Err e)
          | None =>
              let repo := w_repo w in
              let '(t, r) := Store.DeleteExternalRebuilderHistory (Window.sp_schema repo) (Window.sp_table repo)
                               user exchange label (truncDay createdAt) in
              (with_repo w (History.with_table repo t), r)
          end
      end
  end.

(** ** The midnight recalibration *)

Inductive recalibrate_error := CredentialGap (gap : string) | RecalibrateFailed (msg : string).

Definition recalibrateOne (env : Backfill.backfill_env F)
    (rebuild : nat → RebuildRequest → res RebuildResult) (w : world) (c : ExchangeConnection) :
    world * (unit + recalibrate_error) :=
  match latest_row w c with
  | Err e => (w, inr (RecalibrateFailed ("get latest snapshot: " +:+ e)%string))
  | Ok latest =>
      if fleb (sn_TotalEquity latest) f0 then
        (w, inr (RecalibrateFailed "no usable midnight snapshot (equity zero or missing)"))
      else match credentialsOf (ec_UserUID c) (ec_Exchange c) (ec_Label c) with
      | Err e => (w, inr (RecalibrateFailed ("decrypt credentials: " +:+ e)%string))
      | Ok creds =>
          let gap := rebuildCredentialGap (ec_Exchange c) (cd_APIKey creds) in
          if negb (String.eqb gap "") then (w, inr (CredentialGap gap))
          else
            let rq := request_of c creds (sn_TotalEquity latest) in
            let w' := with_egress w rq in
            match rebuild (length (w_egress w)) rq with
            | Err e => (w', inr (RecalibrateFailed ("rebuilder request: " +:+ e)%string))
            | Ok r =>
                let ps := History.persistHistoricalSnapshots (Backfill.be_persist env) (Backfill.be_awaitsRepin env)
                            (w_repo w') c (rr_Snapshots r) History.ExternalRebuilder
                            (History.mkOpts Window.no_window false false (rr_CoveredFrom r)) (Backfill.be_now env) in
                let w' := with_repo w' (History.ps_repo ps) in
                match History.ps_result ps with
                | Err e => (w', inr (RecalibrateFailed ("persist recalibrated snapshots: " +:+ e)%string))
                | Ok _ =>
                    match Connections.MarkRebuildFinalized (w_conns w') (ec_ID c) (Backfill.be_now env) with
                    | (conns, Err e) => (with_conns w' conns, inr (RecalibrateFailed ("mark finalized: " +:+ e)%string))
                    | (conns, Ok _) => (notifyHistoryRebuilt (with_conns w' conns) (ec_UserUID c), inl tt)
                    end
                end
            end
      end
  end.

(** The counters logged at the end: success, failed, skipped. *)
Record counts := mkCounts { ct_success : Z; ct_failed : Z; ct_skipped : Z }.

Fixpoint recalibrate_all (env : ExchangeConnection → Backfill.backfill_env F)
    (rebuild : nat → RebuildRequest → res RebuildResult) (w : world) (conns : list ExchangeConnection) (n : counts) :
    world * counts :=
  match conns with
  | [] => (w, n)
  | c :: conns =>
      let '(w', r) := recalibrateOne (env c) rebuild w c in
      recalibrate_all env rebuild w' conns
        match r with
        | inl _ => mkCounts (ct_success n + 1) (ct_failed n) (ct_skipped n)
        | inr (CredentialGap _) => mkCounts (ct_success n) (ct_failed n) (ct_skipped n + 1)
        | inr (RecalibrateFailed _) => mkCounts (ct_success n) (ct_failed n + 1) (ct_skipped n)
        end
  end.

Definition RecalibrateRebuiltHistories (env : ExchangeConnection → Backfill.backfill_env F) (w : world) (now : time) :
    world * counts :=
  let none := mkCounts 0 0 0 in
  match rebuilder with
  | None => (w, none)
  | Some rebuild =>
      let cutoff := truncDay now in
      match Connections.ListUnfinalizedExternalRebuilds (w_conns w) cutoff (cutoff - maxRebuildRetryDays * Day)
              externalRebuilderExchanges with
      | Err _ => (w, none)
      | Ok conns => recalibrate_all env rebuild w conns none
      end
  end.

(** ** Lemmas *)

(** What a request for [c] carries, and what let it leave. *)
Definition sent_for (c : ExchangeConnection) (rq : RebuildRequest) : Prop :=
  ∃ creds anchor, credentialsOf (ec_UserUID c) (ec_Exchange c) (ec_Label c) = Ok creds ∧
    rebuildCredentialGap (ec_Exchange c) (cd_APIKey creds) = "" ∧ fleb anchor f0 = false ∧
    rq = request_of c creds anchor.

Lemma notify_egress w user : w_egress (notifyHistoryRebuilt w user) = w_egress w.
Proof. unfold notifyHistoryRebuilt. by destruct notifies. Qed.

Lemma notify_repo w user : w_repo (notifyHistoryRebuilt w user) = w_repo w.
Proof. unfold notifyHistoryRebuilt. by destruct notifies. Qed.

Lemma recalibrateOne_egress env rebuild w c :
  let w' := (recalibrateOne env rebuild w c).1 in
  w_egress w' = w_egress w ∨ ∃ rq, sent_for c rq ∧ w_egress w' = w_egress w ++ [rq].
Proof.
  cbn zeta. unfold recalibrateOne. destruct (latest_row w c) as [latest|]; [|by left].
  destruct (fleb _ _) eqn:He; [by left|]. destruct (credentialsOf _ _ _) as [creds|] eqn:Hc; [|by left].
  cbn zeta. destruct (String.eqb_spec (rebuildCredentialGap (ec_Exchange c) (cd_APIKey creds)) "") as [Hg|]; [|by left].
  right. exists (request_of c creds (sn_TotalEquity latest)). split; [by eexists _, _|]. cbn [negb].
  destruct (rebuild _ _); [|done]. destruct (History.ps_result _); [|done].
  destruct (Connections.MarkRebuildFinalized _ _ _) as [? [|]]; cbn [fst]; rewrite ?notify_egress; done.
Qed.

Lemma recalibrateOne_others env rebuild w c r :
  r ∈ Window.sp_table (w_repo w) →
  Store.of_conn (Window.sp_schema (w_repo w)) (ec_UserUID c) (ec_Exchange c) (ec_Label c) r = false →
  let w' := (recalibrateOne env rebuild w c).1 in
  r ∈ Window.sp_table (w_repo w') ∧ Window.sp_schema (w_repo w') = Window.sp_schema (w_repo w).
Proof.
  intros Hr Ho. cbn zeta. unfold recalibrateOne. destruct (latest_row w c) as [latest|]; [|done].
  destruct (fleb _ _); [done|]. destruct (credentialsOf _ _ _) as [creds|]; [|done].
  cbn zeta. destruct (negb _); [done|]. destruct (rebuild _ _) as [res|]; [|done].
  set (opts := History.mkOpts _ _ _ _).
  pose proof (History.persist_keeps_others (Backfill.be_persist env) (Backfill.be_awaitsRepin env) (w_repo w) c
    (rr_Snapshots res) History.ExternalRebuilder opts (Backfill.be_now env) r Hr Ho) as Hk.
  pose proof (History.persist_same_schema (Backfill.be_persist env) (Backfill.be_awaitsRepin env) (w_repo w) c
    (rr_Snapshots res) History.ExternalRebuilder opts (Backfill.be_now env)) as [Hs _].
  destruct (History.ps_result _); [|done].
  destruct (Connections.MarkRebuildFinalized _ _ _) as [? [|]]; cbn [fst]; rewrite ?notify_repo; done.
Qed.

Lemma recalibrate_all_egress env rebuild w conns n :
  ∃ sent, w_egress (recalibrate_all env rebuild w conns n).1 = w_egress w ++ sent ∧
    (length sent ≤ length conns)%nat ∧ ∀ rq, rq ∈ sent → ∃ c, c ∈ conns ∧ sent_for c rq.
Proof.
  revert w n. induction conns as [|c conns IH]; intros w n; cbn [recalibrate_all].
  { exists []. rewrite app_nil_r. split_and!; [done|done|set_solver]. }
  pose proof (recalibrateOne_egress (env c) rebuild w c) as Hone.
  destruct (recalibrateOne (env c) rebuild w c) as [w1 r]. cbn [fst] in Hone.
  match goal with |- context [recalibrate_all env rebuild w1 conns ?m] => destruct (IH w1 m) as (sent & -> & Hl & Hs) end.
  destruct Hone as [->|(rq & Hrq & ->)].
  - exists sent. split_and!; [done|cbn; lia|]. intros rq (c' & ? & ?)%Hs. exists c'. split; [|done]. by right.
  - exists (rq :: sent). rewrite <- app_assoc. split_and!; [done|cbn; lia|].
    intros rq' [->|(c' & ? & ?)%Hs]%elem_of_cons; [exists c|exists c']; (split; [|done]); [by left|by right].
Qed.

Lemma recalibrate_all_others env rebuild w conns n r :
  r ∈ Window.sp_table (w_repo w) →
  (∀ c, c ∈ conns →
     Store.of_conn (Window.sp_schema (w_repo w)) (ec_UserUID c) (ec_Exchange c) (ec_Label c) r = false) →
  r ∈ Window.sp_table (w_repo (recalibrate_all env rebuild w conns n).1).
Proof.
  revert w n. induction conns as [|c conns IH]; intros w n Hr Ho; cbn [recalibrate_all]; [done|].
  destruct (recalibrateOne_others (env c) rebuild w c r Hr) as [Hr1 Hs1]; [by apply Ho; left|].
  destruct (recalibrateOne (env c) rebuild w c) as [w1 res]. cbn [fst] in *.
  apply IH; [done|]. intros c' Hc'. rewrite Hs1. apply Ho. by right.
Qed.

(** The rows the midnight pass may send credentials for: the holder asked
    for the rebuild, it is not finalized, and the active connection was
    created in the seven days before today. *)
Definition consents (now : time) (x : Connections.conn_row) : Prop :=
  is_Some (Connections.cr_requestedAt x) ∧ Connections.cr_finalizedAt x = None ∧
  ec_IsActive (Connections.cr_conn x) = true ∧
  truncDay now - 7 * Day < ec_CreatedAt (Connections.cr_conn x) ∧
  ec_CreatedAt (Connections.cr_conn x) < truncDay now.

#[export] Instance consents_dec now x : Decision (consents now x).
Proof. unfold consents. apply _. Defined.

Definition consenting (w : world) (now : time) : list Connections.conn_row :=
  filter (consents now) (Connections.cp_rows (w_conns w)).

Lemma unfinalized_consents now exchanges x :
  Connections.unfinalized (truncDay now) (truncDay now - maxRebuildRetryDays * Day) exchanges x = true →
  consents now x ∧ ToLower (ec_Exchange (Connections.cr_conn x)) ∈ exchanges.
Proof.
  unfold Connections.unfinalized, consents. intros H. go_bool.
  repeat match goal with H : bool_decide _ = true |- _ => apply bool_decide_eq_true in H end. by split_and!.
Qed.

Lemma supports_lower e : ToLower e ∈ externalRebuilderExchanges → externalRebuilderSupports e = true.
Proof.
  intros He. unfold externalRebuilderSupports. apply bool_decide_eq_true. rewrite <- TrimSpace_lower.
  assert (Forall (λ x, TrimSpace x = x) externalRebuilderExchanges) as Hall by (repeat constructor).
  rewrite Forall_forall in Hall. by rewrite (Hall _ He).
Qed.

Lemma listed_consenting w now cs :
  Connections.ListUnfinalizedExternalRebuilds (w_conns w) (truncDay now) (truncDay now - maxRebuildRetryDays * Day)
    externalRebuilderExchanges = Ok cs →
  (length cs ≤ length (consenting w now))%nat ∧
  ∀ c, c ∈ cs → Connections.cp_hasRequestedCol (w_conns w) = true ∧
    ∃ x, x ∈ consenting w now ∧ externalRebuilderSupports (ec_Exchange (Connections.cr_conn x)) = true ∧
         c = Connections.unfinalized_columns (Connections.cr_conn x).
Proof.
  intros H. split.
  - revert H. unfold Connections.ListUnfinalizedExternalRebuilds. case_match; [intros [= <-]; cbn; lia|].
    cbn [externalRebuilderExchanges]. case_match; [done|]. intros [= <-].
    rewrite length_fmap, sort_by_length, length_fmap. apply sublist_length, filter_sub.
    by intros x [? _]%unfinalized_consents.
  - intros c Hc. destruct (Connections.ListUnfinalized_elem _ _ _ _ _ _ H Hc) as (Hcol & x & Hx & -> & Hu).
    split; [done|]. apply unfinalized_consents in Hu as [Hu He]. exists x. split_and!; [by apply list_elem_of_filter| |done].
    by apply supports_lower.
Qed.

Lemma pass_egress env w now :
  ∃ sent, w_egress (RecalibrateRebuiltHistories env w now).1 = w_egress w ++ sent ∧
    (length sent ≤ length (consenting w now))%nat ∧
    ∀ rq, rq ∈ sent → Connections.cp_hasRequestedCol (w_conns w) = true ∧ ∃ x, x ∈ consenting w now ∧
      externalRebuilderSupports (ec_Exchange (Connections.cr_conn x)) = true ∧ sent_for (Connections.cr_conn x) rq.
Proof.
  unfold RecalibrateRebuiltHistories.
  assert (∃ sent, w_egress w = w_egress w ++ sent ∧ (length sent ≤ length (consenting w now))%nat ∧
    ∀ rq, rq ∈ sent → Connections.cp_hasRequestedCol (w_conns w) = true ∧ ∃ x, x ∈ consenting w now ∧
      externalRebuilderSupports (ec_Exchange (Connections.cr_conn x)) = true ∧ sent_for (Connections.cr_conn x) rq) as Hnone.
  { exists []. rewrite app_nil_r. split_and!; [done|cbn; lia|]. intros rq []%not_elem_of_nil. }
  destruct rebuilder as [rebuild|]; [|done]. cbn zeta.
  destruct (Connections.ListUnfinalizedExternalRebuilds _ _ _ _) as [cs|] eqn:Hl; [|done].
  apply listed_consenting in Hl as [Hlen Hin].
  destruct (recalibrate_all_egress env rebuild w cs (mkCounts 0 0 0)) as (sent & -> & Hn & Hs).
  exists sent. split_and!; [done|lia|]. intros rq (c & (Hcol & x & Hx & Hsup & ->)%Hin & Hsent)%Hs. eauto 10.
Qed.

(** ** What a pass owes

    Stated of the tables before the pass, and not of what the pass computes. *)

(** The exchanges the external service can rebuild. *)
Definition rebuildable : list string :=
  ["hyperliquid"; "bitget"; "binance"; "okx"; "alpaca"; "bybit"; "kraken"; "mexc"; "lighter"].

(** The newest stored row of a connection. *)
Definition newest (sch : Store.schema) (t : list (Snapshot F)) (c : ExchangeConnection) (r : Snapshot F) : Prop :=
  let own := Store.of_conn sch (ec_UserUID c) (ec_Exchange c) (ec_Label c) in
  r ∈ t ∧ own r = true ∧ ∀ r', r' ∈ t → own r' = true → sn_Timestamp r' <= sn_Timestamp r.

(** The request owed to a connection: its own credentials, which can rebuild
    (Lighter needs a read-only token), and its newest equity, positive. *)
Definition owed (sch : Store.schema) (t : list (Snapshot F)) (c : ExchangeConnection) (rq : RebuildRequest) : Prop :=
  ∃ creds r, credentialsOf (ec_UserUID c) (ec_Exchange c) (ec_Label c) = Ok creds ∧
    (ToLower (TrimSpace (ec_Exchange c)) = "lighter" → String.prefix "ro:" (ToLower (TrimSpace (cd_APIKey creds))) = true) ∧
    newest sch t c r ∧ fleb (sn_TotalEquity r) f0 = false ∧
    rq = mkRequest (ec_UserUID c) (ec_Exchange c) (ec_Label c) (cd_APIKey creds) (cd_APIKey creds) (cd_APISecret creds)
           (cd_Passphrase creds) (sn_TotalEquity r).

(** Connections the snapshot table tells apart. *)
Definition conn_key (sch : Store.schema) (c : ExchangeConnection) : string * string * string :=
  (ec_UserUID c, ec_Exchange c, if Store.hasLabelCol sch then ec_Label c else "").

Lemma gap_spec exchange key :
  rebuildCredentialGap exchange key = "" ↔
  (ToLower (TrimSpace exchange) = "lighter" → String.prefix "ro:" (ToLower (TrimSpace key)) = true).
Proof.
  clear. unfold rebuildCredentialGap. destruct (String.eqb_spec (ToLower (TrimSpace exchange)) "lighter") as [E|E]; cbn [negb]; [|naive_solver].
  destruct (String.prefix _ _); naive_solver.
Qed.

Lemma latest_newest w c s : latest_row w c = Ok s → ∃ r, newest (Window.sp_schema (w_repo w)) (Window.sp_table (w_repo w)) c r ∧ sn_TotalEquity s = sn_TotalEquity r.
Proof.
  unfold latest_row, Window.query. destruct (Window.sp_fault _); [done|]. intros E.
  pose proof (Store.GetLatest_spec (Window.sp_schema (w_repo w)) (Window.sp_table (w_repo w)) (ec_UserUID c) (ec_Exchange c) (ec_Label c)) as H. rewrite E in H.
  destruct H as (r & -> & Hr & Ho & Hn). exists r. rewrite Store.sn_Timestamp_scan in Hn. split; [by split_and!|]. unfold Store.scan. by destruct (Store.isTSSchema _).
Qed.

Lemma newest_latest w c r : Window.sp_fault (w_repo w) = None → newest (Window.sp_schema (w_repo w)) (Window.sp_table (w_repo w)) c r → ∃ s, latest_row w c = Ok s.
Proof.
  intros Hf (Hr & Ho & _). unfold latest_row, Window.query. rewrite Hf.
  pose proof (Store.GetLatest_spec (Window.sp_schema (w_repo w)) (Window.sp_table (w_repo w)) (ec_UserUID c) (ec_Exchange c) (ec_Label c)) as H.
  destruct (Store.GetLatestByUserExchangeLabel _ _ _ _ _) as [s|]; [eauto|]. destruct H as [_ H]. by rewrite (H r Hr) in Ho.
Qed.

(** Two tables with the same rows of a connection owe it the same. *)
Lemma owed_same_rows sch t t' c rq :
  (∀ r, Store.of_conn sch (ec_UserUID c) (ec_Exchange c) (ec_Label c) r = true → r ∈ t ↔ r ∈ t') → owed sch t c rq → owed sch t' c rq.
Proof.
  intros H (creds & r & Hc & Hg & (Hr & Ho & Hn) & He & ->). exists creds, r. split_and!; try done. split_and!; [by apply H|done|].
  intros r' Hr' Ho'. apply Hn; [by apply H|done].
Qed.

Lemma other_key sch c c' (r : Snapshot F) :
  conn_key sch c ≠ conn_key sch c' → Store.of_conn sch (ec_UserUID c') (ec_Exchange c') (ec_Label c') r = true →
  Store.of_conn sch (ec_UserUID c) (ec_Exchange c) (ec_Label c) r = false.
Proof.
  intros Hk H'. apply not_true_is_false. intros H. apply Store.of_conn_key in H, H'. rewrite H in H'. apply Hk. unfold conn_key. by injection H' as -> -> ->.
Qed.

(** The rows of a connection are told apart by their time. *)
Definition one_per_time (sch : Store.schema) (t : list (Snapshot F)) (c : ExchangeConnection) : Prop :=
  let own := Store.of_conn sch (ec_UserUID c) (ec_Exchange c) (ec_Label c) in
  ∀ r r', r ∈ t → r' ∈ t → own r = true → own r' = true → sn_Timestamp r = sn_Timestamp r' → r = r'.

Lemma one_per_time_same_rows sch t t' c :
  (∀ r, Store.of_conn sch (ec_UserUID c) (ec_Exchange c) (ec_Label c) r = true → r ∈ t ↔ r ∈ t') → one_per_time sch t c → one_per_time sch t' c.
Proof. intros H Hu r r' Hr Hr' Ho Ho'. apply Hu; [by apply H|by apply H|done|done]. Qed.

Lemma unique_one_per_time sch t c : NoDup (Store.row_key sch <$> t) → one_per_time sch t c.
Proof.
  intros Hu r r' Hr Hr' Ho Ho' Ht. apply Store.of_conn_key in Ho, Ho'.
  apply (NoDup_fmap_key (Store.row_key sch) t); [done..|]. congruence.
Qed.

Lemma newest_one sch t c r r' : one_per_time sch t c → newest sch t c r → newest sch t c r' → r = r'.
Proof. intros Hu (Hr & Ho & Hn) (Hr' & Ho' & Hn'). apply Hu; [done..|]. specialize (Hn r' Hr' Ho'). specialize (Hn' r Hr Ho). lia. Qed.

(** One connection: the request owed to it, or nothing, when the table cannot
    be read or nothing is owed. *)
Lemma recalibrateOne_owed env rebuild w c :
  let w' := (recalibrateOne env rebuild w c).1 in
  let sch := Window.sp_schema (w_repo w) in
  one_per_time sch (Window.sp_table (w_repo w)) c →
  (∃ rq, owed sch (Window.sp_table (w_repo w)) c rq ∧ w_egress w' = w_egress w ++ [rq]) ∨
  (w_egress w' = w_egress w ∧ (Window.sp_fault (w_repo w) = None → ∀ rq, ¬ owed sch (Window.sp_table (w_repo w)) c rq)).
Proof.
  cbn zeta. intros Hu. unfold recalibrateOne. destruct (latest_row w c) as [latest|] eqn:El.
  2:{ right. split; [done|]. intros Hf rq (creds & r & _ & _ & Hn & _). destruct (newest_latest w c r Hf Hn) as [s Hs]. congruence. }
  destruct (latest_newest _ _ _ El) as (r0 & Hr0 & Ee). rewrite Ee. destruct (fleb _ _) eqn:He.
  { right. split; [done|]. intros _ rq (creds & r & _ & _ & Hn & He' & _). rewrite (newest_one _ _ _ _ _ Hu Hn Hr0) in He'. congruence. }
  destruct (credentialsOf _ _ _) as [creds|] eqn:Hc; [|right; split; [done|]; intros _ rq (creds & r & Hc' & _); congruence].
  cbn zeta. destruct (String.eqb_spec (rebuildCredentialGap (ec_Exchange c) (cd_APIKey creds)) "") as [Hg|Hg]; cbn [negb].
  2:{ right. split; [done|]. intros _ rq (creds' & r & Hc' & Hg' & _). apply Hg, gap_spec. assert (creds' = creds) as -> by congruence. done. }
  left. exists (request_of c creds (sn_TotalEquity r0)). split; [exists creds, r0; split_and!; try done; by apply gap_spec|].
  destruct (rebuild _ _); [|done]. destruct (History.ps_result _); [|done].
  destruct (Connections.MarkRebuildFinalized _ _ _) as [? [|]]; cbn [fst]; rewrite ?notify_egress; done.
Qed.

Lemma recalibrateOne_rows env rebuild w c :
  let w' := (recalibrateOne env rebuild w c).1 in
  let sch := Window.sp_schema (w_repo w) in
  Window.sp_schema (w_repo w') = sch ∧ Window.sp_fault (w_repo w') = Window.sp_fault (w_repo w) ∧
  ∀ r, Store.of_conn sch (ec_UserUID c) (ec_Exchange c) (ec_Label c) r = false → r ∈ Window.sp_table (w_repo w) ↔ r ∈ Window.sp_table (w_repo w').
Proof.
  cbn zeta. unfold recalibrateOne. destruct (latest_row w c) as [latest|]; [|done].
  destruct (fleb _ _); [done|]. destruct (credentialsOf _ _ _) as [creds|]; [|done].
  cbn zeta. destruct (negb _); [done|]. destruct (rebuild _ _) as [res|]; [|done]. set (opts := History.mkOpts _ _ _ _).
  pose proof (History.persist_same_schema (Backfill.be_persist env) (Backfill.be_awaitsRepin env) (w_repo w) c
    (rr_Snapshots res) History.ExternalRebuilder opts (Backfill.be_now env)) as [Hs Hf].
  assert (∀ r, Store.of_conn (Window.sp_schema (w_repo w)) (ec_UserUID c) (ec_Exchange c) (ec_Label c) r = false →
    r ∈ Window.sp_table (w_repo w) ↔ r ∈ Window.sp_table (History.ps_repo (History.persistHistoricalSnapshots (Backfill.be_persist env)
      (Backfill.be_awaitsRepin env) (w_repo w) c (rr_Snapshots res) History.ExternalRebuilder opts (Backfill.be_now env)))) as Hr
    by (intros r Ho; split; intros Hin; [by apply History.persist_keeps_others|by eapply History.persist_only_own]).
  destruct (History.ps_result _); [|done].
  destruct (Connections.MarkRebuildFinalized _ _ _) as [? [|]]; cbn [fst]; rewrite ?notify_repo; done.
Qed.

(** The pass over connections the table tells apart: each gets what was owed
    to it before the pass, once, in the order of the list. *)
Lemma recalibrate_all_owed env rebuild w cs n :
  let sch := Window.sp_schema (w_repo w) in let t := Window.sp_table (w_repo w) in
  NoDup (conn_key sch <$> cs) → (∀ c, c ∈ cs → one_per_time sch t c) →
  ∃ served sent, w_egress (recalibrate_all env rebuild w cs n).1 = w_egress w ++ sent ∧ served `sublist_of` cs ∧
    Forall2 (owed sch t) served sent ∧
    (Window.sp_fault (w_repo w) = None → ∀ c rq, c ∈ cs → owed sch t c rq → c ∈ served).
Proof.
  cbn zeta. revert w n. induction cs as [|c cs IH]; intros w n; cbn [recalibrate_all].
  { intros _ _. exists [], []. rewrite app_nil_r. split_and!; [done..|constructor|]. by intros _ c rq ?%elem_of_nil. }
  rewrite fmap_cons, NoDup_cons. intros [Hnew Hnd] Hu.
  pose proof (recalibrateOne_owed (env c) rebuild w c (Hu c ltac:(by left))) as Hone.
  pose proof (recalibrateOne_rows (env c) rebuild w c) as (Hs & Hf & Hrows).
  destruct (recalibrateOne (env c) rebuild w c) as [w1 r]. cbn [fst] in *.
  assert (∀ c', c' ∈ cs → ∀ r, Store.of_conn (Window.sp_schema (w_repo w)) (ec_UserUID c') (ec_Exchange c') (ec_Label c') r = true →
    r ∈ Window.sp_table (w_repo w) ↔ r ∈ Window.sp_table (w_repo w1)) as Hsame.
  { intros c' Hc' r0 Ho. apply Hrows. eapply other_key; [|exact Ho]. intros E. apply Hnew. rewrite E. by apply list_elem_of_fmap_2. }
  match goal with |- context [recalibrate_all env rebuild w1 cs ?m] => destruct (IH w1 m) as (served & sent & -> & Hsub & H2 & Hall) end.
  { by rewrite Hs. }
  { intros c' Hc'. rewrite Hs. eapply one_per_time_same_rows; [by apply Hsame|]. apply Hu. by right. }
  rewrite Hs in H2, Hall.
  assert (Forall2 (owed (Window.sp_schema (w_repo w)) (Window.sp_table (w_repo w))) served sent) as H2'.
  { eapply Forall2_impl_in; [exact H2|]. intros c' rq Hc' Ho. eapply owed_same_rows; [|exact Ho]. intros r0 Hr0. symmetry.
    apply (Hsame c'); [|done]. by eapply elem_of_sublist. }
  assert (Window.sp_fault (w_repo w) = None → ∀ c' rq, c' ∈ cs → owed (Window.sp_schema (w_repo w)) (Window.sp_table (w_repo w)) c' rq → c' ∈ served) as Hall'.
  { intros Hn c' rq Hc' Ho. apply (Hall ltac:(by rewrite Hf) c' rq Hc'). eapply owed_same_rows; [|exact Ho]. by apply Hsame. }
  destruct Hone as [(rq & Ho & ->)|[-> Hnot]].
  - exists (c :: served), (rq :: sent). rewrite <- app_assoc. split_and!; [done|by constructor|by constructor|].
    intros Hn c' rq' [->|Hc']%elem_of_cons Ho'; [by left|right; by eapply Hall'].
  - exists served, sent. split_and!; [done|by constructor|done|].
    intros Hn c' rq' [->|Hc']%elem_of_cons Ho'; [by destruct (Hnot Hn rq')|by eapply Hall'].
Qed.

Lemma owed_columns sch t c rq : owed sch t (Connections.unfinalized_columns c) rq ↔ owed sch t c rq.
Proof. done. Qed.

(** The list of the pass: rows of the consenting ones, without repetition, on
    a rebuildable exchange, and all of those when the columns are there. *)
Lemma listed_rows w now cs :
  Connections.ListUnfinalizedExternalRebuilds (w_conns w) (truncDay now) (truncDay now - maxRebuildRetryDays * Day)
    externalRebuilderExchanges = Ok cs →
  ∃ rows, rows ⊆+ consenting w now ∧ cs = (Connections.unfinalized_columns ∘ Connections.cr_conn) <$> rows ∧
    (∀ x, x ∈ rows → ToLower (ec_Exchange (Connections.cr_conn x)) ∈ rebuildable) ∧
    (Connections.cp_hasFinalizedCol (w_conns w) = true → Connections.cp_hasRequestedCol (w_conns w) = true →
     ∀ x, x ∈ consenting w now → ToLower (ec_Exchange (Connections.cr_conn x)) ∈ rebuildable → x ∈ rows).
Proof.
  unfold Connections.ListUnfinalizedExternalRebuilds.
  destruct (Connections.cp_hasFinalizedCol (w_conns w)) eqn:H1, (Connections.cp_hasRequestedCol (w_conns w)) eqn:H2; cbn [negb orb];
    [|intros [= <-]; exists []; split_and!; [apply submseteq_nil_l|done|by intros x ?%elem_of_nil|done]..].
  change externalRebuilderExchanges with rebuildable.
  assert (((λ e, ToLower (TrimSpace e)) <$> rebuildable) = rebuildable) as -> by reflexivity.
  destruct rebuildable as [|e es] eqn:Er; [done|]. rewrite <- Er. destruct (Connections.cp_fault _); [done|]. intros [= <-].
  set (P := λ x, Connections.unfinalized (truncDay now) (truncDay now - maxRebuildRetryDays * Day) rebuildable x = true).
  pose proof (sort_by_perm ec_CreatedAt (Connections.cr_conn <$> filter P (Connections.cp_rows (w_conns w)))) as Hp.
  apply Permutation_map_inv in Hp as (rows & Eq & Hp).
  exists rows. split_and!.
  - rewrite <- Hp. apply sublist_submseteq. unfold consenting. apply filter_sub. by intros x [? _]%unfinalized_consents.
  - rewrite Eq. by rewrite list_fmap_compose.
  - intros x Hx. rewrite <- Hp in Hx. apply list_elem_of_filter in Hx as [Hu _]. by apply unfinalized_consents in Hu as [_ ?].
  - intros _ _ x [Hc Hx]%list_elem_of_filter He. rewrite <- Hp. apply list_elem_of_filter. split; [|done]. unfold P, Connections.unfinalized.
    destruct Hc as (? & ? & ? & ? & ?). rewrite !bool_decide_eq_true_2 by done. unfold maxRebuildRetryDays. rewrite !andb_true_iff. split_and!; try done; lia.
Qed.

(** ** Properties *)

(** C5: the midnight pass sends credentials with a recorded consent only, and
    sends what it owes.  The requests of a pass are, one for one, those of
    distinct rows of exchange_connections that are active, whose holder asked
    for a rebuild that is not finalized yet, created within the last seven
    days and before today, on one of the nine exchanges the service rebuilds.
    Each carries that row's own credentials, which can rebuild, and is
    anchored on the equity of the newest row the connection had in
    user_snapshots before the pass, which is positive.  With a rebuilder, the
    consent columns and a table that can be read, no such row that has such
    credentials and such an equity is left out.  The rows of every other
    connection stay.  Two rows for the same connection and time, or two
    consenting rows for the same snapshots, are excluded by the unique
    indexes of the two tables. *)
Theorem recalibration_consented env w now :
  let w' := (RecalibrateRebuiltHistories env w now).1 in
  let sch := Window.sp_schema (w_repo w) in let t := Window.sp_table (w_repo w) in
  NoDup (Store.row_key sch <$> t) →
  NoDup (conn_key sch ∘ Connections.cr_conn <$> consenting w now) →
  (∃ rows sent, w_egress w' = w_egress w ++ sent ∧ rows ⊆+ consenting w now ∧
    Forall2 (λ x rq, ToLower (ec_Exchange (Connections.cr_conn x)) ∈ rebuildable ∧ owed sch t (Connections.cr_conn x) rq) rows sent ∧
    (is_Some rebuilder → Connections.cp_hasFinalizedCol (w_conns w) = true → Connections.cp_hasRequestedCol (w_conns w) = true →
     Connections.cp_fault (w_conns w) = None → Window.sp_fault (w_repo w) = None →
     ∀ x rq, x ∈ consenting w now → ToLower (ec_Exchange (Connections.cr_conn x)) ∈ rebuildable →
       owed sch t (Connections.cr_conn x) rq → x ∈ rows)) ∧
  ∀ r, r ∈ t →
    (∀ x, x ∈ consenting w now → let c := Connections.cr_conn x in
       Store.of_conn sch (ec_UserUID c) (ec_Exchange c) (ec_Label c) r = false) →
    r ∈ Window.sp_table (w_repo w').
Proof.
  cbn zeta. intros Ht Hk. unfold RecalibrateRebuiltHistories. destruct rebuilder as [rebuild|].
  2:{ split; [|done]. exists [], []. rewrite app_nil_r. split_and!; [done|apply submseteq_nil_l|constructor|by intros [? ?]]. }
  cbn zeta. destruct (Connections.ListUnfinalizedExternalRebuilds _ _ _ _) as [cs|] eqn:Hl.
  2:{ split; [|done]. exists [], []. rewrite app_nil_r. split_and!; [done|apply submseteq_nil_l|constructor|].
      intros _ H1 H2 H3 _. exfalso. revert Hl. unfold Connections.ListUnfinalizedExternalRebuilds. by rewrite H1, H2, H3. }
  destruct (listed_rows _ _ _ Hl) as (rows & Hsub & -> & Hreb & Hlisted). clear Hl. split.
  - destruct (recalibrate_all_owed env rebuild w (Connections.unfinalized_columns ∘ Connections.cr_conn <$> rows) (mkCounts 0 0 0))
      as (served & sent & Es & Hserved & H2 & Hall).
    { rewrite <- list_fmap_compose. apply (NoDup_submseteq_l _ (conn_key (Window.sp_schema (w_repo w)) ∘ Connections.cr_conn <$> consenting w now)); [done|].
      by apply fmap_submseteq. }
    { intros c _. by apply unique_one_per_time. }
    apply sublist_fmap_inv in Hserved as (rows' & -> & Hr').
    exists rows', sent. rewrite Forall2_fmap_l in H2. split_and!; [done| |apply (Forall2_impl_in _ _ _ _ H2)|].
    + etrans; [by apply sublist_submseteq|done].
    + intros x rq Hx Ho. split; [apply Hreb; by eapply elem_of_sublist|by apply owed_columns].
    + intros _ H1 H2' _ Hf x rq Hx He Ho. specialize (Hlisted H1 H2' x Hx He).
      assert (Connections.unfinalized_columns (Connections.cr_conn x) ∈ Connections.unfinalized_columns ∘ Connections.cr_conn <$> rows') as Hin
        by (apply (Hall Hf _ rq); [by apply (list_elem_of_fmap_2 (Connections.unfinalized_columns ∘ Connections.cr_conn))|done]).
      apply list_elem_of_fmap in Hin as (y & Ey & Hy). assert (y ∈ rows) as Hyr by by eapply elem_of_sublist.
      enough (x = y) as -> by done. apply (NoDup_fmap_key (conn_key (Window.sp_schema (w_repo w)) ∘ Connections.cr_conn) (consenting w now)); [done|done| |].
      * by eapply elem_of_submseteq.
      * cbn in Ey |- *. unfold conn_key. by injection Ey as _ -> -> -> _.
  - intros r Hr Ho. apply recalibrate_all_others; [done|]. intros c (x & -> & Hx)%list_elem_of_fmap. apply Ho. by eapply elem_of_submseteq.
Qed.

(** Which path a reconstruction takes.  Credentials leave the enclave
    only when the connector cannot rebuild inside it, a rebuilder is
    configured and supports the exchange, and the credential can rebuild; then
    one request leaves, anchored on the latest stored equity (zero without
    one). *)
Theorem egress_gate env w c conn creds opts :
  let w' := (reconstructHistory env w c conn creds opts).1 in
  w_egress w' = w_egress w ∨
  (Activity.cn_GetHistoricalSnapshotsForPeriod conn = None ∧ Activity.cn_GetHistoricalSnapshots conn = None ∧
   is_Some rebuilder ∧ externalRebuilderSupports (ec_Exchange c) = true ∧
   rebuildCredentialGap (ec_Exchange c) (cd_APIKey creds) = "" ∧
   w_egress w' = w_egress w ++ [request_of c creds
     (match latest_row w c with Ok latest => sn_TotalEquity latest | Err _ => f0 end)]).
Proof.
  cbn zeta. unfold reconstructHistory.
  destruct (Activity.cn_GetHistoricalSnapshotsForPeriod conn).
  { destruct (Backfill.reconstructFromStatements _ _ _ _ _ _ _ _) as [? [[out|]|]]; [|by left|by left].
    left. cbn [fst]. by destruct (is_ok _); rewrite ?notify_egress. }
  destruct (Activity.cn_GetHistoricalSnapshots conn); [left; cbn [fst]; by rewrite notify_egress|].
  destruct rebuilder as [rebuild|]; [|by left].
  destruct (externalRebuilderSupports (ec_Exchange c)); cbn [negb]; [|by left]. cbn zeta.
  destruct (String.eqb_spec (rebuildCredentialGap (ec_Exchange c) (cd_APIKey creds)) "") as [Hg|]; cbn [negb]; [|by left].
  right. split_and!; [done..|]. destruct (rebuild _ _); cbn [fst]; by rewrite ?notify_egress.
Qed.

(** The requests a request for the label [user/exchange/label] is one of. *)
Definition asks_for (user exchange label : string) (rq : RebuildRequest) : Prop :=
  rq_UserUID rq = user ∧ rq_Exchange rq = Window.normalizeExchange exchange ∧
  Connections.TRIM (rq_Label rq) = Connections.TRIM (TrimSpace label).

Lemma target_is_labelled conns user exchange label id at_ :
  Connections.GetHistoryTarget conns user exchange label = Ok (id, at_) →
  ∃ x, x ∈ Connections.cp_rows conns ∧ ec_ID (Connections.cr_conn x) = id ∧
       Connections.has_label user exchange label (Connections.cr_conn x) = true.
Proof.
  unfold Connections.GetHistoryTarget. destruct (Connections.cp_fault conns); [done|].
  destruct (sort_by _ _) as [|c l] eqn:E; [done|]. intros [= <- <-].
  assert (c ∈ c :: l) as Hc by by left. rewrite <- E in Hc. apply sort_by_elem, list_elem_of_filter in Hc as [Hl Hc].
  apply list_elem_of_fmap in Hc as (x & -> & Hx). eauto.
Qed.

(** Once the consent of its only row is withdrawn, a label is not sent. *)
Lemma cleared_not_sent conns conns' id at_ user exchange label env w now sent rq :
  Connections.GetHistoryTarget conns user (Window.normalizeExchange exchange) (TrimSpace label) = Ok (id, at_) →
  (∀ x y, x ∈ Connections.cp_rows conns → y ∈ Connections.cp_rows conns →
     Connections.has_label user (Window.normalizeExchange exchange) (TrimSpace label) (Connections.cr_conn x) = true →
     Connections.has_label user (Window.normalizeExchange exchange) (TrimSpace label) (Connections.cr_conn y) = true →
     ec_ID (Connections.cr_conn x) = ec_ID (Connections.cr_conn y)) →
  Connections.ClearRebuildConsent conns id = (conns', Ok tt) → w_conns w = conns' →
  w_egress (RecalibrateRebuiltHistories env w now).1 = w_egress w ++ sent → rq ∈ sent →
  ¬ asks_for user exchange label rq.
Proof.
  intros Ht Huniq Hc Hw Hsent Hrq (Hu & Hx & Hl).
  destruct (pass_egress env w now) as (sent' & Hs' & _ & Hall).
  rewrite Hs' in Hsent. apply app_inv_head in Hsent as ->.
  destruct (Hall rq Hrq) as (Hcol & x & Hin & _ & (creds & anchor & _ & _ & _ & ->)).
  cbn [request_of rq_UserUID rq_Exchange rq_Label] in Hu, Hx, Hl.
  apply list_elem_of_filter in Hin as [Hunf Hrow]. rewrite Hw in Hrow, Hcol.
  destruct (Connections.clear_consent_origin _ _ _ _ Hc) as [Hsame Horigin]. rewrite Hsame in Hcol.
  destruct (Horigin x Hrow) as (y & Hy & Exy). apply target_is_labelled in Ht as (z & Hz & <- & Hlz).
  assert (cr : Connections.has_label user (Window.normalizeExchange exchange) (TrimSpace label) (Connections.cr_conn x) = true).
  { unfold Connections.has_label. rewrite Hu, Hx, Hl. by rewrite !String.eqb_refl. }
  assert (ec_ID (Connections.cr_conn x) = ec_ID (Connections.cr_conn z)) as Hid.
  { rewrite Exy in *. by apply Huniq. }
  pose proof (Connections.clear_consent_rows _ _ _ Hc Hcol x Hrow Hid) as Hnone.
  destruct Hunf as [Hask _]. rewrite Hnone in Hask. by destruct Hask.
Qed.

(** A deleted history stays deleted.  The deletion is refused for a
    history reconstructed in the enclave; a deletion that fails removes no
    row; one that succeeds removes only rows of the external rebuilder older
    than the connection's first day.  Where the label names one connection,
    no midnight pass after it sends that connection's credentials, so the pass
    cannot write the deleted days again. *)
Theorem delete_withdraws_consent w user exchange label flt w' r :
  DeleteRebuiltHistory w user exchange label flt = (w', r) →
  (∀ x y, x ∈ Connections.cp_rows (w_conns w) → y ∈ Connections.cp_rows (w_conns w) →
     Connections.has_label user (Window.normalizeExchange exchange) (TrimSpace label) (Connections.cr_conn x) = true →
     Connections.has_label user (Window.normalizeExchange exchange) (TrimSpace label) (Connections.cr_conn y) = true →
     ec_ID (Connections.cr_conn x) = ec_ID (Connections.cr_conn y)) →
  (historyReconstructedInEnclave exchange = true → r = Err ErrHistoryNotDeletable ∧ w' = w) ∧
  (is_ok r = false → w_repo w' = w_repo w) ∧
  (∀ s, s ∈ Window.sp_table (w_repo w) → sn_FromExternalRebuilder s = false → s ∈ Window.sp_table (w_repo w')) ∧
  (is_ok r = true → ∀ env now rq sent,
     w_egress (RecalibrateRebuiltHistories env w' now).1 = w_egress w' ++ sent → rq ∈ sent →
     ¬ asks_for user exchange label rq).
Proof.
  intros H Huniq.
  destruct (historyReconstructedInEnclave exchange) eqn:Hin; [unfold DeleteRebuiltHistory in H; rewrite Hin in H; by injection H as <- <-|].
  split; [done|]. unfold DeleteRebuiltHistory in H. rewrite Hin in H.
  destruct (Connections.GetHistoryTarget _ _ _ _) as [[id at_]|] eqn:Ht; [|injection H as <- <-; by split_and!].
  destruct (Connections.ClearRebuildConsent (w_conns w) id) as [conns [[]|e]] eqn:Hc; [|injection H as <- <-; by split_and!].
  destruct flt; [injection H as <- <-; by split_and!|].
  cbn zeta in H. cbn [w_repo with_conns] in H.
  destruct (Store.DeleteExternalRebuilderHistory _ _ _ _ _ _) as [t r0] eqn:Hd. injection H as <- ->.
  revert Hd. unfold Store.DeleteExternalRebuilderHistory.
  destruct (Store.hasFromExternalRebuilderCol _) eqn:Hcol; cbn [negb]; intros [= <- <-].
  2:{ split_and!; [by cbn; rewrite History.with_table_same|by cbn|done]. }
  split_and!; [done| |].
  { intros s Hs Ho. cbn. apply list_elem_of_filter. split; [|done]. unfold Store.rebuilt_before. by rewrite Ho, andb_false_r. }
  intros _ env now rq sent Hsent Hrq Hasks. eapply cleared_not_sent; [exact Ht|exact Huniq|exact Hc| |exact Hsent|exact Hrq|exact Hasks]; done.
Qed.

End rebuild.
Arguments RebuildRequest F : clear implicits.
Arguments RebuildResult F : clear implicits.
Arguments world F : clear implicits.
Arguments provided F : clear implicits.

(** *** Concrete instances *)

(** A Kraken connection created on day 3 of 2024, whose holder asked for a
    rebuild, with a rebuilt row of day 2 and a live row of day 4. *)
Definition kraken_conn : ExchangeConnection :=
  mkConnection "k1" "user1" "kraken" "main" 1440 true (sample_day 3 + Hour).

Definition kraken_row (n equity : Z) (rebuilt : bool) : Snapshot float64 :=
  mkSnapshot "id" "user1" "kraken" "main" (sample_day n) (b64 equity) (b64 equity) (b64 0) (b64 0) (b64 0) 0 (b64 0)
    (b64 0) None rebuilt rebuilt.

Definition kraken_world : world float64 :=
  mkWorld (Window.mkSnapshotRepo Store.prod_schema [kraken_row 2 900 true; kraken_row 4 1000 false] None) ∅
    (Connections.mkConnRepo true true true [Connections.mkConnRow kraken_conn (Some (sample_day 3)) None] None) ∅ [] [].

Definition kraken_credentials : Credentials := mkCredentials "key" "secret" "" false.

Lemma kraken_newest c r :
  Connections.cr_conn <$> consenting kraken_world (sample_day 5) = [c] →
  newest Store.prod_schema (Window.sp_table (w_repo kraken_world)) c r → r = kraken_row 4 1000 false.
Proof.
  replace (consenting kraken_world (sample_day 5)) with [Connections.mkConnRow kraken_conn (Some (sample_day 3)) None] by (vm_compute; reflexivity).
  intros [= <-] (Hr & _ & Hn). apply elem_of_cons in Hr as [->|Hr]; [|by apply list_elem_of_singleton in Hr].
  exfalso. specialize (Hn (kraken_row 4 1000 false) ltac:(right; left) eq_refl). revert Hn. vm_compute. auto.
Qed.

(** The pass of day 5 sends one request, anchored on the live row of day 4. *)
Lemma recalibration_consented_witness :
  (∃ x, consenting kraken_world (sample_day 5) = [x]) ∧
  ∀ rebuild env, ∃ rq,
    w_egress (RecalibrateRebuiltHistories false (Some rebuild) (λ _ _ _, Ok kraken_credentials) env kraken_world (sample_day 5)).1 = [rq] ∧
    rq_UserUID rq = "user1" ∧ rq_APISecret rq = "secret" ∧ rq_EndEquityOverride rq = b64 1000.
Proof.
  set (x := Connections.mkConnRow kraken_conn (Some (sample_day 3)) None).
  assert (consenting kraken_world (sample_day 5) = [x]) as Hx by (vm_compute; reflexivity). split; [by exists x|]. intros rebuild env.
  destruct (recalibration_consented false (Some rebuild) (λ _ _ _, Ok kraken_credentials) env kraken_world (sample_day 5)) as [(rows & sent & Es & Hsub & H2 & Hall) _].
  { apply (bool_decide_unpack _). vm_compute. exact I. }
  { rewrite Hx. cbn [fmap list_fmap]. apply NoDup_singleton. }
  rewrite Hx in Hsub, Hall.
  assert (x ∈ rows) as Hin.
  { eapply (Hall ltac:(by eexists) eq_refl eq_refl eq_refl eq_refl x); [by left|by apply list_elem_of_In; vm_compute; tauto|].
    exists kraken_credentials, (kraken_row 4 1000 false). split; [reflexivity|]. split; [intros E; discriminate E|]. split; [|split; [vm_compute; reflexivity|reflexivity]].
    split; [right; left|]. split; [reflexivity|]. intros r' [->|Hr']%elem_of_cons _; [|apply list_elem_of_singleton in Hr' as ->]; vm_compute; discriminate. }
  assert (rows = [x]) as ->.
  { apply submseteq_length in Hsub as Hl. destruct rows as [|y [|z rows]]; [by apply elem_of_nil in Hin| |cbn in Hl; lia]. by apply list_elem_of_singleton in Hin as ->. }
  apply Forall2_cons_inv_l in H2 as (rq & sent' & [_ Ho] & Hnil & ->). apply Forall2_nil_inv_l in Hnil as ->. exists rq. split; [exact Es|].
  destruct Ho as (creds & r & [= <-] & _ & Hn & _ & ->). cbn [rq_UserUID rq_APISecret rq_EndEquityOverride].
  rewrite (kraken_newest kraken_conn r); [by split_and!|by rewrite Hx|exact Hn].
Defined.

Lemma delete_withdraws_consent_witness :
  let w' := (DeleteRebuiltHistory kraken_world "user1" "kraken" "main" None).1 in
  (DeleteRebuiltHistory kraken_world "user1" "kraken" "main" None).2 = Ok 1 ∧
  Window.sp_table (w_repo w') = [kraken_row 4 1000 false] ∧
  ∀ rebuild creds env rq sent,
    w_egress (RecalibrateRebuiltHistories false (Some rebuild) creds env w' (sample_day 5)).1 = w_egress w' ++ sent →
    rq ∈ sent → ¬ asks_for "user1" "kraken" "main" rq.
Proof.
  cbn zeta.
  destruct (DeleteRebuiltHistory kraken_world "user1" "kraken" "main" None) as [w' r] eqn:E.
  assert (r = Ok 1 ∧ Window.sp_table (w_repo w') = [kraken_row 4 1000 false]) as [Hr Ht].
  { vm_compute in E. injection E as <- <-. split; vm_compute; reflexivity. }
  split; [exact Hr|]. split; [exact Ht|]. intros rebuild creds env rq sent Hs Hrq.
  refine (proj2 (proj2 (proj2 (delete_withdraws_consent false (Some rebuild) creds kraken_world "user1" "kraken" "main" None
    w' r E _))) _ env (sample_day 5) rq sent Hs Hrq).
  - intros x y Hx Hy _ _. apply list_elem_of_singleton in Hx as ->. by apply list_elem_of_singleton in Hy as ->.
  - by rewrite Hr.
Defined.

End Rebuild.
