(* ===== verification/Cashflow.v ===== *)
(** * Capital flows inferred from the settled balance
    (internal/service/cashflowinfer.go, and [reconcileCapitalFlow] of
    internal/service/sync.go) *)

From S2P Require Import Prelude Num GoTime Types Store Window.
From stdpp Require Import base gmap strings list.
From Stdlib Require Import ZArith.

Module Cashflow.

Definition balanceReconciledExchanges : list string := ["ig"].

Definition isBalanceReconciled (exchange : string) : bool :=
  existsb (String.eqb (ToLower exchange)) balanceReconciledExchanges.

Section infer.
Context {F : Type} {NF : Num F}.

(** [0.50] and [0.00005] *)
Definition reconThresholdAbs : F := flit 50 2.
Definition reconThresholdRel : F := flit 5 5.

Definition reconThreshold (equity : F) : F := fmax reconThresholdAbs (fmul reconThresholdRel (fabs equity)).

Record ReconInputs := mkRecon {
  ri_SettledBalance : F;
  ri_RealizedPnL : F;
  ri_Charges : F;
  ri_ReportedFlow : F;
}.

Definition InferCapitalFlow (prev cur : ReconInputs) (threshold : F) : F * F :=
  let inferred := fsub (fsub (fsub (ri_SettledBalance cur) (ri_SettledBalance prev)) (ri_RealizedPnL cur)) (ri_Charges cur) in
  let residual := fsub inferred (ri_ReportedFlow cur) in
  let residual := if fltb (fabs residual) threshold then f0 else residual in
  let total := fadd (ri_ReportedFlow cur) residual in
  if fleb f0 total then (total, f0) else (f0, fopp total).

Definition reconcileCapitalFlow (repo : Window.snapshot_repo F) (c : ExchangeConnection) (before : time)
    (trades : list (Trade F)) (equity unrealizedPnL fundingCharges reportedDeposits reportedWithdrawals : F) : F * F :=
  if negb (isBalanceReconciled (ec_Exchange c)) then (reportedDeposits, reportedWithdrawals)
  else match Window.query repo (λ sch t, Store.GetLatestByUserExchangeLabelBefore sch t
               (ec_UserUID c) (ec_Exchange c) (ec_Label c) before) with
       | Err _ => (reportedDeposits, reportedWithdrawals)
       | Ok prev =>
           InferCapitalFlow
             (mkRecon (sn_RealizedBalance prev) f0 f0 f0)
             (mkRecon (fsub equity unrealizedPnL) (fsum (tr_RealizedPnL <$> trades)) fundingCharges
                (fsub reportedDeposits reportedWithdrawals))
             (reconThreshold equity)
       end.

End infer.
End Cashflow.
