(* ===== verification/Sync.v ===== *)
(** * The sync of a connection, and the daily pass
    (internal/service/sync.go, startBackfillIfDue and startStatementBackfill
    of internal/service/statement_backfill.go)

    The service's state is the two repositories it writes and the four things
    it keeps in memory: the currencies already converted, the deferred retries,
    the running backfills and the jobs it left to the runtime (timers, a
    goroutine).  What the outside world answers during a call is the
    environment of that call: the clock, credentials, connector, rates and the
    faults of the database. *)

From S2P Require Import Prelude Num GoTime Types Store SyncError Window Breakdown Activity Fx Connections History Backfill Rebuild Cashflow.
From stdpp Require Import base gmap strings tactics list.
From Stdlib Require Import ZArith Lia.
Local Open Scope Z_scope.

Module Sync.

Definition collapseGuardLookback : duration := 5 * 24 * Hour.
Definition ctraderRecurringReconstructDays : Z := 14.
Definition rateLimitRetryDelay : duration := 6 * Hour.
Definition deferredRetrySpacing : duration := 5 * Minute.

Definition reconstructsEverySync (exchange : string) : bool :=
  let e := ToLower exchange in String.eqb e "ibkr" || String.eqb e "ctrader".

Definition statementNotPublishedReason (now : time) : string :=
  ("stale statement: statement for " +:+ FormatDate (Window.LastStatementDay now) +:+ " not published yet")%string.

Section sync.
Context {F : Type} {NF : Num F}.

Definition collapseGuardRatio : F := flit 5 1.
Definition collapseGuardFloorUSD : F := fofZ 100.

(** ** State and environment *)

Record world := mkWorld {
  w_repo : Window.snapshot_repo F;
  w_status : option Window.status_repo;
  w_conns : Connections.conn_repo;
  w_fxDone : gset string;
  (** the connections with a pending retry, by ID *)
  w_deferred : gset string;
  (** the retries armed, oldest first, and the delay of each *)
  w_timers : list (ExchangeConnection * duration);
  (** sync_rate_limit_logs, [None] when not configured *)
  w_rateHits : option (list ExchangeConnection);
  (** [backfills], and the backfill goroutines started *)
  w_running : gset string;
  w_jobs : list ExchangeConnection;
}.

Record sync_env := mkSyncEnv {
  se_history : Backfill.backfill_env F;
  se_credentials : string → string → string → res Rebuild.Credentials;
  se_create : string → string → string → Rebuild.Credentials → res (Activity.connector F);
  (** the context's error during the collapse guard's wait *)
  se_cancelled : option string;
  (** the error of [SnapshotRepo.Upsert] *)
  se_upsert_fault : option string;
  (** the faults of the batch a retry or the daily pass writes *)
  se_batch_faults : Store.tx_faults (F := F);
}.

Definition se_now (env : sync_env) : time := Backfill.be_now (se_history env).
Definition se_newid (env : sync_env) : Snapshot F → string := History.pe_newid (Backfill.be_persist (se_history env)).

Definition with_repo (w : world) (r : Window.snapshot_repo F) : world :=
  mkWorld r (w_status w) (w_conns w) (w_fxDone w) (w_deferred w) (w_timers w) (w_rateHits w) (w_running w) (w_jobs w).
Definition with_converted (w : world) (r : Window.snapshot_repo F) (d : gset string) : world :=
  mkWorld r (w_status w) (w_conns w) d (w_deferred w) (w_timers w) (w_rateHits w) (w_running w) (w_jobs w).
Definition with_status (w : world) (s : option Window.status_repo) : world :=
  mkWorld (w_repo w) s (w_conns w) (w_fxDone w) (w_deferred w) (w_timers w) (w_rateHits w) (w_running w) (w_jobs w).

(** ** Results *)

Definition new_result (c : ExchangeConnection) : SyncResult F :=
  mkResult (ec_UserUID c) (ec_Exchange c) (ec_Label c) false 0 f0 zero_time "" false [] false false "" None false.

Definition set_error (e : string) (rateLimited : bool) (r : SyncResult F) : SyncResult F :=
  mkResult (sr_UserUID r) (sr_Exchange r) (sr_Label r) (sr_Success r) (sr_TradeCount r) (sr_SnapshotEquity r)
    (sr_SnapshotTimestamp r) e rateLimited (sr_CapabilityWarnings r) (sr_RetryArmed r) (sr_Skipped r) (sr_SkipReason r)
    (sr_snapshot r) (sr_backfillDue r).
Definition set_warnings (ws : list string) (r : SyncResult F) : SyncResult F :=
  mkResult (sr_UserUID r) (sr_Exchange r) (sr_Label r) (sr_Success r) (sr_TradeCount r) (sr_SnapshotEquity r)
    (sr_SnapshotTimestamp r) (sr_Error r) (sr_RateLimited r) ws (sr_RetryArmed r) (sr_Skipped r) (sr_SkipReason r)
    (sr_snapshot r) (sr_backfillDue r).
Definition set_skipped (reason : string) (r : SyncResult F) : SyncResult F :=
  mkResult (sr_UserUID r) (sr_Exchange r) (sr_Label r) (sr_Success r) (sr_TradeCount r) (sr_SnapshotEquity r)
    (sr_SnapshotTimestamp r) (sr_Error r) (sr_RateLimited r) (sr_CapabilityWarnings r) (sr_RetryArmed r) true reason
    (sr_snapshot r) (sr_backfillDue r).
Definition set_backfillDue (due : bool) (r : SyncResult F) : SyncResult F :=
  mkResult (sr_UserUID r) (sr_Exchange r) (sr_Label r) (sr_Success r) (sr_TradeCount r) (sr_SnapshotEquity r)
    (sr_SnapshotTimestamp r) (sr_Error r) (sr_RateLimited r) (sr_CapabilityWarnings r) (sr_RetryArmed r) (sr_Skipped r)
    (sr_SkipReason r) (sr_snapshot r) due.
Definition set_success (ok : bool) (e : string) (r : SyncResult F) : SyncResult F :=
  mkResult (sr_UserUID r) (sr_Exchange r) (sr_Label r) ok (sr_TradeCount r) (sr_SnapshotEquity r)
    (sr_SnapshotTimestamp r) e (sr_RateLimited r) (sr_CapabilityWarnings r) (sr_RetryArmed r) (sr_Skipped r)
    (sr_SkipReason r) (sr_snapshot r) (sr_backfillDue r).
Definition set_retryArmed (r : SyncResult F) : SyncResult F :=
  mkResult (sr_UserUID r) (sr_Exchange r) (sr_Label r) (sr_Success r) (sr_TradeCount r) (sr_SnapshotEquity r)
    (sr_SnapshotTimestamp r) (sr_Error r) (sr_RateLimited r) (sr_CapabilityWarnings r) true (sr_Skipped r)
    (sr_SkipReason r) (sr_snapshot r) (sr_backfillDue r).
Definition set_snapshot (s : Snapshot F) (r : SyncResult F) : SyncResult F :=
  mkResult (sr_UserUID r) (sr_Exchange r) (sr_Label r) (sr_Success r) (sn_TotalTrades s) (sn_TotalEquity s)
    (sn_Timestamp s) (sr_Error r) (sr_RateLimited r) (sr_CapabilityWarnings r) (sr_RetryArmed r) (sr_Skipped r)
    (sr_SkipReason r) (Some s) (sr_backfillDue r).

(** ** Deferred retries *)

Definition recordRateLimitHit (w : world) (c : ExchangeConnection) : world :=
  mkWorld (w_repo w) (w_status w) (w_conns w) (w_fxDone w) (w_deferred w) (w_timers w) ((λ l, l ++ [c]) <$> w_rateHits w) (w_running w)
    (w_jobs w).

Definition scheduleDeferredRetry (w : world) (c : ExchangeConnection) (delay : duration) : world :=
  if bool_decide (ec_ID c ∈ w_deferred w) then w
  else
    let delay := delay + Z.of_nat (size (w_deferred w)) * deferredRetrySpacing in
    mkWorld (w_repo w) (w_status w) (w_conns w) (w_fxDone w) ({[ec_ID c]} ∪ w_deferred w) (w_timers w ++ [(c, delay)])
      (w_rateHits w) (w_running w) (w_jobs w).

(** [deferStatement], on the result and the state. *)
Definition deferStatement (w : world) (conn : Activity.connector F) (c : ExchangeConnection) (reason : string)
    (r : SyncResult F) : world * SyncResult F :=
  let r := set_skipped reason r in
  let r := set_warnings (Activity.collectCapabilityWarnings conn (sr_CapabilityWarnings r)) r in
  (scheduleDeferredRetry (recordRateLimitHit w c) c rateLimitRetryDelay, r).

(** ** Reading the balance *)

Definition last_equity (c : ExchangeConnection) (startOfDay : time) (prior : list (Snapshot F)) : F :=
  (foldl (λ '(eq, at_) snap,
            if negb (String.eqb (sn_Exchange snap) (ec_Exchange c)) || negb (String.eqb (sn_Label snap) (ec_Label c))
               || negb (Before (sn_Timestamp snap) startOfDay)
            then (eq, at_)
            else if After (sn_Timestamp snap) at_ then (sn_TotalEquity snap, sn_Timestamp snap) else (eq, at_))
     (f0, zero_time) prior).1.

Definition fetchBalanceWithCollapseGuard (env : sync_env) (repo : Window.snapshot_repo F)
    (conn : Activity.connector F) (c : ExchangeConnection) : Balance F + Activity.conn_error :=
  match Activity.cn_GetBalance conn 0 with
  | inr e => inr e
  | inl balance =>
      let now := se_now env in
      match Window.query repo (λ sch t, Ok (Store.getByUserAndDateRange sch t (ec_UserUID c)
                                              (now - collapseGuardLookback) now)) with
      | Err _ => inl balance
      | Ok prior =>
          let lastEquity := last_equity c (truncDay now) prior in
          if fltb lastEquity collapseGuardFloorUSD || fleb (fmul lastEquity collapseGuardRatio) (bal_Equity balance)
          then inl balance
          else match se_cancelled env with
          | Some e => inr (Activity.OtherError e)
          | None =>
              match Activity.cn_GetBalance conn 1 with
              | inr e => inr (Activity.err_wrap "collapse-guard re-read: " e)
              | inl second => inl second
              end
          end
      end
  end.

(** The balance, or the result that ends the sync. *)
Definition liveBalance (env : sync_env) (w : world) (conn : Activity.connector F) (c : ExchangeConnection)
    (r : SyncResult F) : world * SyncResult F * option (Balance F) :=
  match fetchBalanceWithCollapseGuard env (w_repo w) conn c with
  | inl balance => (w, r, Some balance)
  | inr (Activity.StatementNotPublished _) =>
      (deferStatement w conn c (statementNotPublishedReason (se_now env)) r, None)
  | inr e =>
      (w, set_error (SyncError.egressSyncError "get balance" (Activity.err_text e))
            (SyncError.isRateLimitError (Activity.err_text e)) r, None)
  end.

Definition connectorFor (env : sync_env) (c : ExchangeConnection) : Activity.connector F + string :=
  match se_credentials env (ec_UserUID c) (ec_Exchange c) (ec_Label c) with
  | Err e => inr (SyncError.egressSyncError "get credentials" e)
  | Ok creds =>
      match se_create env (ec_Exchange c) (ec_UserUID c) (ec_Label c) creds with
      | Err e => inr (SyncError.egressSyncError "create connector" e)
      | Ok conn => inl conn
      end
  end.

(** ** The every-sync reconstruction *)

Definition everySyncReconstructSince (repo : Window.snapshot_repo F) (c : ExchangeConnection) (now : time) : time :=
  let e := ToLower (ec_Exchange c) in
  if String.eqb e "ctrader" then now - ctraderRecurringReconstructDays * Day
  else if String.eqb e "ibkr" then Backfill.statementWindowStart (Some repo) c now
  else zero_time.

Definition is_not_published (e : option Activity.conn_error) : bool :=
  match e with Some (Activity.StatementNotPublished _) => true | _ => false end.

(** The days written, whether the backfill is due, the error, and the result
    with its warnings. *)
Definition reconstructIfEverySync (env : sync_env) (w : world) (c : ExchangeConnection) (conn : Activity.connector F)
    (r : SyncResult F) : world * gset Z * bool * option Activity.conn_error * SyncResult F :=
  match Activity.cn_GetHistoricalSnapshots conn with
  | None => (w, ∅, false, None, r)
  | Some hsp =>
      if negb (reconstructsEverySync (ec_Exchange c)) then (w, ∅, false, None, r)
      else if bool_decide (is_Some (Activity.cn_GetHistoricalSnapshotsForPeriod conn))
              && negb (Backfill.historyBackfilled (w_conns w) c) then (w, ∅, true, None, r)
      else
        let p := Rebuild.syncFromHistoricalProvider (se_history env) (w_repo w) (w_fxDone w) c hsp
                   (everySyncReconstructSince (w_repo w) c (se_now env)) History.plain_opts in
        let e := Rebuild.pv_error p in
        let r := if is_not_published e then r
                 else set_warnings (History.noteReconstructionFailure (sr_CapabilityWarnings r) (bool_decide (is_Some e))) r in
        (with_converted w (Rebuild.pv_repo p) (Rebuild.pv_fxDone p),
         match Rebuild.pv_written p with
         | Some days => Activity.rebuiltDays_add ∅ days
         | None => ∅
         end, false, e, r)
  end.

(** ** The live snapshot *)

(** The snapshot literal of [buildConnectionSnapshot], with its FX stamp. *)
Definition live_snapshot (c : ExchangeConnection) (startOfDay : time) (balance : Balance F)
    (act : Activity.liveActivity F) (deposits withdrawals : F) (fx : Fx.liveFX F) : Snapshot F :=
  let b := Activity.la_breakdown act in
  let n := Z.of_nat (length (Activity.la_trades act)) in
  mkSnapshot "" (ec_UserUID c) (ec_Exchange c) (ec_Label c) startOfDay
    (bal_Equity balance) (fsub (bal_Equity balance) (bal_UnrealizedPnL balance)) (bal_UnrealizedPnL balance)
    deposits withdrawals n (Breakdown.totalVolume b) (Breakdown.totalFees b)
    (Some (Fx.stampFX (Breakdown.toRepo b (bal_Equity balance) (bal_Available balance) n) (Fx.fx_currency fx) (Fx.fx_rate fx)))
    false false.

Definition with_breakdown (act : Activity.liveActivity F) (b : Breakdown.aggregatedBreakdown) : Activity.liveActivity F :=
  Activity.mkActivity (Activity.la_trades act) b (Activity.la_fundingCharges act) (Activity.la_deposits act)
    (Activity.la_withdrawals act) (Activity.la_cashflows act).

(** The part that follows the balance. *)
Definition build_live (env : sync_env) (w : world) (c : ExchangeConnection) (conn : Activity.connector F)
    (rebuilt : gset Z) (balance : Balance F) (r : SyncResult F) : world * SyncResult F :=
  let now := se_now env in
  let startOfDay := truncDay now in
  let stale := Window.staleBalanceSkipReason (Activity.cn_BalanceAsOf conn) startOfDay in
  if negb (String.eqb stale "") then deferStatement w conn c stale r
  else
    let rebuilt := if History.liveHoldsPreviousStatement (ec_Exchange c) then rebuilt else ∅ in
    let from := Window.activityWindowStart (Some (w_repo w)) (w_status w) (Some c) startOfDay in
    let act := Activity.readActivity conn (ec_Exchange c) from now rebuilt in
    let r := set_warnings (Activity.collectCapabilityWarnings conn (sr_CapabilityWarnings r)) r in
    let act := with_breakdown act (Breakdown.completeBreakdown (Activity.cn_GetBalanceByMarket conn) (ec_Exchange c)
                                     (Activity.la_breakdown act) balance) in
    let lo := Fx.convertLive (se_newid env) (Backfill.be_fx_faults (se_history env)) (w_repo w) (w_fxDone w)
                (Backfill.be_fx (se_history env)) conn c balance act startOfDay now in
    let w := with_converted w (Fx.lo_repo lo) (Fx.lo_done lo) in
    match Fx.lo_fx lo with
    | None =>
        (if Fx.lo_retry lo then scheduleDeferredRetry w c rateLimitRetryDelay else w, set_skipped (Fx.lo_skip lo) r)
    | Some fx =>
        let balance := Fx.lo_balance lo in
        let act := Fx.lo_act lo in
        let '(deposits, withdrawals) :=
          Cashflow.reconcileCapitalFlow (w_repo w) c startOfDay (Activity.la_trades act) (bal_Equity balance)
            (bal_UnrealizedPnL balance) (Activity.la_fundingCharges act) (Activity.la_deposits act)
            (Activity.la_withdrawals act) in
        let deposits :=
          if feqb deposits f0 && fltb f0 (bal_Equity balance) && History.isFirstSync (w_status w) (Some (w_repo w)) c
          then bal_Equity balance else deposits in
        (w, set_snapshot (live_snapshot c startOfDay balance act deposits withdrawals fx) r)
    end.

Definition buildConnectionSnapshot (env : sync_env) (w : world) (c : ExchangeConnection) : world * SyncResult F :=
  let r := new_result c in
  match connectorFor env c with
  | inr e => (w, set_error e false r)
  | inl conn =>
      let '(w, rebuilt, backfill, rerr, r) := reconstructIfEverySync env w c conn r in
      let r := set_backfillDue backfill r in
      if is_not_published rerr then deferStatement w conn c (statementNotPublishedReason (se_now env)) r
      else match liveBalance env w conn c r with
           | (w, r, None) => (w, r)
           | (w, r, Some balance) => build_live env w c conn rebuilt balance r
           end
  end.

(** ** The statement backfill a sync leaves to run *)

Definition startStatementBackfill (w : world) (c : ExchangeConnection) : world :=
  let '(running, claimed) := Backfill.claimBackfill (w_running w) c in
  if negb claimed then w
  else mkWorld (w_repo w) (w_status w) (w_conns w) (w_fxDone w) (w_deferred w) (w_timers w) (w_rateHits w) running
         (w_jobs w ++ [c]).

Definition startBackfillIfDue (w : world) (c : ExchangeConnection) (r : SyncResult F) : world :=
  if sr_backfillDue r then startStatementBackfill w c else w.

(** The goroutine of [startStatementBackfill], run to its end; the users
    pinged are outside this state. *)
Definition run_backfill_job (env : sync_env) (w : world) (c : ExchangeConnection) : world :=
  let running := Backfill.releaseBackfill (w_running w) c in
  let done_ repo fxDone conns :=
    mkWorld repo (w_status w) conns fxDone (w_deferred w) (w_timers w) (w_rateHits w) running
      (filter (λ j, Fx.stored_key j ≠ Fx.stored_key c) (w_jobs w)) in
  let nothing := done_ (w_repo w) (w_fxDone w) (w_conns w) in
  match se_credentials env (ec_UserUID c) (ec_Exchange c) (ec_Label c) with
  | Err _ => nothing
  | Ok creds =>
      match se_create env (ec_Exchange c) (ec_UserUID c) (ec_Label c) creds with
      | Err _ => nothing
      | Ok conn =>
          match Activity.cn_GetHistoricalSnapshotsForPeriod conn with
          | None => nothing
          | Some provider =>
              let '(from, to) := Backfill.statementBackfillRange (se_now env) in
              match Backfill.backfillStatements (se_history env) provider (w_repo w) (w_fxDone w) (w_conns w) c from to
                      History.plain_opts with
              | Some out => done_ (Backfill.bo_repo out) (Backfill.bo_fxDone out) (Backfill.bo_conns out)
              | None => nothing
              end
          end
      end
  end.

(** ** One connection *)

Definition record (w : world) (c : ExchangeConnection) (r : SyncResult F) (at_ : time) : world :=
  with_status w (Window.recordSyncStatus (w_status w) (Some c) (Some r) at_).

(** The deferred calls run last: the status, then the backfill. *)
Definition syncConnection (env : sync_env) (w : world) (c : ExchangeConnection) : world * SyncResult F :=
  let finish w r := (startBackfillIfDue (record w c r (se_now env)) c r, r) in
  let '(w, r) := buildConnectionSnapshot env w c in
  match sr_snapshot r with
  | Some s =>
      if negb (String.eqb (sr_Error r) "") then finish w r
      else match se_upsert_fault env with
      | Some e => finish w (set_error (SyncError.egressSyncError "save snapshot" e) (sr_RateLimited r) r)
      | None =>
          let repo := w_repo w in
          let t := Store.Upsert (Window.sp_schema repo) (se_newid env) (Window.sp_table repo) s in
          finish (with_repo w (History.with_table repo t)) (set_success true (sr_Error r) r)
      end
  | None => finish w r
  end.

(** The timer of a deferred retry: the sync, then the retry is forgotten. *)
Definition retryConnectionDeferred (env : sync_env) (w : world) (c : ExchangeConnection) : world :=
  let '(w, r) := buildConnectionSnapshot env w c in
  let w :=
    match sr_snapshot r with
    | Some s =>
        if negb (String.eqb (sr_Error r) "") then w
        else
          let repo := w_repo w in
          match Store.UpsertBatch (Window.sp_schema repo) (se_newid env) (se_batch_faults env) (Window.sp_table repo) [s] with
          | (t, Err _) => with_repo w (History.with_table repo t)
          | (t, Ok _) => record (with_repo w (History.with_table repo t)) c (set_success true (sr_Error r) r) (se_now env)
          end
    | None => w
    end in
  startBackfillIfDue w c r.

Definition fire_timer (env : sync_env) (w : world) (i : nat) : world :=
  match w_timers w !! i with
  | None => w
  | Some (c, _) =>
      let w := mkWorld (w_repo w) (w_status w) (w_conns w) (w_fxDone w) (w_deferred w) (delete i (w_timers w))
                 (w_rateHits w) (w_running w) (w_jobs w) in
      let w := retryConnectionDeferred env w c in
      mkWorld (w_repo w) (w_status w) (w_conns w) (w_fxDone w) (w_deferred w ∖ {[ec_ID c]}) (w_timers w) (w_rateHits w)
        (w_running w) (w_jobs w)
  end.

(** ** Manual syncs *)

Definition blocked : string :=
  "manual sync blocked: snapshot already exists. Only the hourly scheduler can sync after initial snapshot.".

Definition isManualSyncAllowed (repo : Window.snapshot_repo F) (user exchange label : string) : res bool :=
  match Window.query repo (λ sch t, Ok (Store.ExistsForUserExchangeLabel sch t user exchange label)) with
  | Err e => Err ("anti-cherry-pick check failed: " +:+ e)%string
  | Ok exists_ => Ok (negb exists_)
  end.

Definition failed (user exchange label e : string) : SyncResult F :=
  mkResult user exchange label false 0 f0 zero_time e false [] false false "" None false.

(** The result that refuses a manual sync, if any. *)
Definition manual_refusal (w : world) (user : string) (c : ExchangeConnection) : option (SyncResult F) :=
  match isManualSyncAllowed (w_repo w) user (ec_Exchange c) (ec_Label c) with
  | Err e => Some (failed user (ec_Exchange c) (ec_Label c) (SyncError.egressSyncError "manual sync blocked" e))
  | Ok false => Some (failed user (ec_Exchange c) (ec_Label c) blocked)
  | Ok true => None
  end.

(** A list of syncs, in the order they complete. *)
Fixpoint run_all (f : world → ExchangeConnection → world * SyncResult F) (w : world) (cs : list ExchangeConnection) :
    world * list (SyncResult F) :=
  match cs with
  | [] => (w, [])
  | c :: cs =>
      let '(w, r) := f w c in
      let '(w, rs) := run_all f w cs in
      (w, r :: rs)
  end.

(** [completion] is the order the goroutines end in. *)
Definition SyncUser (env : ExchangeConnection → sync_env) (completion : list ExchangeConnection → list ExchangeConnection)
    (w : world) (user : string) : world * res (list (SyncResult F)) :=
  match Connections.GetActiveByUser (w_conns w) user with
  | Err e => (w, Err ("get connections: " +:+ e)%string)
  | Ok [] => (w, Err ("no active connections for user " +:+ user)%string)
  | Ok cs =>
      let '(w, rs) := run_all (λ w c, match manual_refusal w user c with
                                      | Some r => (w, r)
                                      | None => syncConnection (env c) w c
                                      end) w (completion cs) in
      (w, Ok rs)
  end.

Definition getConnectionsByExchange (conns : Connections.conn_repo) (user exchange : string) :
    res (list ExchangeConnection) :=
  match Connections.GetActiveByUser conns user with
  | Err e => Err ("get connections: " +:+ e)%string
  | Ok cs => Ok (filter (λ c, Window.normalizeExchange (ec_Exchange c) = Window.normalizeExchange exchange) cs)
  end.

(** The errors, and the latest success, in one result. *)
Definition aggregateSyncResults (user exchange : string) (rs : list (SyncResult F)) : SyncResult F :=
  match rs with
  | [] => failed user exchange "" "no sync results"
  | _ =>
      let latest := foldl (λ acc r, if sr_Success r then
                                      match acc with
                                      | None => Some r
                                      | Some l => if After (sr_SnapshotTimestamp r) (sr_SnapshotTimestamp l) then Some r else acc
                                      end
                                    else acc) None rs in
      let errs := omap (λ r, if String.eqb (sr_Error r) "" then None
                             else Some (sr_Exchange r +:+ "/" +:+ sr_Label r +:+ ": " +:+ sr_Error r)%string) rs in
      let success := existsb sr_Success rs in
      let e := Prelude.Join " | " errs in
      mkResult user exchange "" success (foldl Z.add 0 (sr_TradeCount <$> rs))
        (from_option sr_SnapshotEquity f0 latest) (from_option sr_SnapshotTimestamp zero_time latest)
        (if negb success && String.eqb e "" then "sync failed for all connections" else e) false [] false false "" None false
  end.

Definition SyncExchange (env : ExchangeConnection → sync_env) (w : world) (user exchange : string) :
    world * SyncResult F :=
  match getConnectionsByExchange (w_conns w) user exchange with
  | Err e => (w, failed user exchange "" (SyncError.egressSyncError "" e))
  | Ok [] => (w, failed user exchange "" ("no active connection for exchange " +:+ exchange)%string)
  | Ok cs =>
      match omap (manual_refusal w user) cs with
      | r :: _ => (w, r)
      | [] =>
          let '(w, rs) := run_all (λ w c, syncConnection (env c) w c) w cs in
          (w, aggregateSyncResults user exchange rs)
      end
  end.

Definition SyncConnectionScheduledByLabel (env : sync_env) (w : world) (user exchange label : string) :
    world * SyncResult F :=
  match Connections.GetActiveConnectionByLabel (w_conns w) user exchange label with
  | Err e => (w, failed user exchange label (SyncError.egressSyncError "lookup connection" e))
  | Ok c => syncConnection env w c
  end.

(** ** The daily pass *)

Definition findConnection (cs : list ExchangeConnection) (exchange label : string) : option ExchangeConnection :=
  find_first (λ c, String.eqb (ec_Exchange c) exchange && String.eqb (ec_Label c) label) cs.

(** The newest sync of each connection of the user; none when the statuses
    are not read. *)
Definition last_syncs (status : option Window.status_repo) (user : string) : gmap string time :=
  match status with
  | None => ∅
  | Some s =>
      match Window.st_fault s with
      | Some _ => ∅
      | None =>
          foldl (λ m st, match st_LastSyncTime st with
                         | Some t => <[(st_Exchange st +:+ "|" +:+ st_Label st)%string := t]> m
                         | None => m
                         end) ∅
            (filter (λ st, st_UserUID st = user) (snd <$> map_to_list (Window.st_table s)))
      end
  end.

Definition stalest_first (status : option Window.status_repo) (user : string) (cs : list ExchangeConnection) :
    list ExchangeConnection :=
  match status with
  | None => cs
  | Some _ =>
      let last := last_syncs status user in
      sort_by (λ c, default zero_time (last !! (ec_Exchange c +:+ "|" +:+ ec_Label c)%string)) cs
  end.

(** Phases 2 and 3: the batch of the built snapshots, and what the
    transaction's answer makes of each result. *)
Definition saved (r : SyncResult F) : bool := bool_decide (is_Some (sr_snapshot r)) && String.eqb (sr_Error r) "".

Definition batch_of (rs : list (SyncResult F)) : list (Snapshot F) :=
  omap (λ r, if String.eqb (sr_Error r) "" then sr_snapshot r else None) rs.

Definition mark (answer : res unit) (r : SyncResult F) : SyncResult F :=
  if saved r then
    match answer with
    | Err e => set_success false (SyncError.egressSyncError "atomic save failed" e) r
    | Ok _ => set_success true (sr_Error r) r
    end
  else r.

Definition save_pass (newid : Snapshot F → string) (flt : Store.tx_faults (F := F)) (w : world)
    (rs : list (SyncResult F)) : world * list (SyncResult F) :=
  match batch_of rs with
  | [] => (w, rs)
  | snapshots =>
      let repo := w_repo w in
      let '(t, r) := Store.UpsertBatch (Window.sp_schema repo) newid flt (Window.sp_table repo) snapshots in
      (with_repo w (History.with_table repo t), mark r <$> rs)
  end.

Definition arm (r : SyncResult F) : SyncResult F := if Window.rateLimited r then set_retryArmed r else r.

(** Phase 4: a status for every result. *)
Definition record_pass (cs : list ExchangeConnection) (now : time) (w : world) (r : SyncResult F) : world :=
  match findConnection cs (sr_Exchange r) (sr_Label r) with
  | Some c => startBackfillIfDue (record w c r now) c r
  | None => w
  end.

(** Phase 5: a retry for every rate-limited result. *)
Definition retry_pass (cs : list ExchangeConnection) (w : world) (r : SyncResult F) : world :=
  if Window.rateLimited r then
    match findConnection cs (sr_Exchange r) (sr_Label r) with
    | Some c => scheduleDeferredRetry (recordRateLimitHit w c) c rateLimitRetryDelay
    | None => w
    end
  else w.

(** [env] answers the build of each connection, [batch] the transaction. *)
Definition SyncUserScheduledDueAtomic (env : ExchangeConnection → sync_env) (newid : Snapshot F → string)
    (batch : Store.tx_faults (F := F)) (completion : list ExchangeConnection → list ExchangeConnection)
    (w : world) (user : string) (now : time) : world * res (list (SyncResult F)) :=
  match Connections.GetActiveByUser (w_conns w) user with
  | Err e => (w, Err ("get connections: " +:+ e)%string)
  | Ok [] => (w, Err ("no active connections for user " +:+ user)%string)
  | Ok cs =>
      let cs := stalest_first (w_status w) user cs in
      let due := filter (λ c, Window.isConnectionDue (w_status w) c now = true) cs in
      let '(w, rs) := run_all (λ w c, buildConnectionSnapshot (env c) w c) w (completion due) in
      let '(w, rs) := save_pass newid batch w rs in
      let rs := arm <$> rs in
      let w := foldl (record_pass cs now) w rs in
      (foldl (retry_pass cs) w rs, Ok rs)
  end.

(** ** Lemmas: what a step arms *)

(** The IDs of a list of timers. *)
Definition timer_ids (l : list (ExchangeConnection * duration)) : gset string := list_to_set (ec_ID <$> l.*1).

(** [w'] is [w] with more retries armed: one per connection that had none,
    each five minutes after the one before. *)
Definition arms (w w' : world) : Prop :=
  ∃ new, w_timers w' = w_timers w ++ new ∧ w_deferred w' = timer_ids new ∪ w_deferred w ∧
    NoDup (ec_ID <$> new.*1) ∧ timer_ids new ## w_deferred w ∧
    ∀ i x, new !! i = Some x →
      x.2 = rateLimitRetryDelay + Z.of_nat (size (w_deferred w) + i) * deferredRetrySpacing.

Lemma timer_ids_app l1 l2 : timer_ids (l1 ++ l2) = timer_ids l1 ∪ timer_ids l2.
Proof. unfold timer_ids. by rewrite !fmap_app, list_to_set_app_L. Qed.

Lemma timer_ids_size l : NoDup (ec_ID <$> l.*1) → size (timer_ids l) = length l.
Proof. intros H. unfold timer_ids. by rewrite size_list_to_set, !length_fmap. Qed.

Lemma timer_ids_elem l id : id ∈ timer_ids l ↔ id ∈ ec_ID <$> l.*1.
Proof. unfold timer_ids. by rewrite elem_of_list_to_set. Qed.

Lemma timer_ids_perm l1 l2 : l1 ≡ₚ l2 → timer_ids l1 = timer_ids l2.
Proof. intros H. apply set_eq. intros id. by rewrite !timer_ids_elem, H. Qed.

#[export] Instance arms_preorder : PreOrder arms.
Proof.
  split.
  - intros w. exists []. rewrite app_nil_r. split_and!; [done|set_solver|constructor|set_solver|done].
  - intros w1 w2 w3 (l1 & T1 & D1 & N1 & X1 & S1) (l2 & T2 & D2 & N2 & X2 & S2).
    exists (l1 ++ l2). rewrite D1 in D2, X2, S2. split_and!.
    + by rewrite T2, T1, app_assoc.
    + rewrite D2, timer_ids_app. set_solver.
    + rewrite !fmap_app. apply NoDup_app. split_and!; [done| |done].
      intros id H1%timer_ids_elem H2%timer_ids_elem. set_solver.
    + rewrite timer_ids_app. set_solver.
    + intros i x Hi. apply lookup_app_Some in Hi as [Hi|[Hl Hi]]; [by apply S1|].
      rewrite (S2 _ _ Hi), size_union, timer_ids_size by done. do 2 f_equal. lia.
Qed.

Lemma arms_same w w' : w_timers w' = w_timers w → w_deferred w' = w_deferred w → arms w w'.
Proof.
  intros HT HD. exists []. rewrite app_nil_r. split_and!; [done|rewrite HD; set_solver|constructor|set_solver|done].
Qed.

Lemma schedule_arms w c : arms w (scheduleDeferredRetry w c rateLimitRetryDelay).
Proof.
  unfold scheduleDeferredRetry. case_bool_decide as Hin; [reflexivity|].
  exists [(c, rateLimitRetryDelay + Z.of_nat (size (w_deferred w)) * deferredRetrySpacing)]. cbn.
  unfold timer_ids. cbn. split_and!; [done|set_solver|by apply NoDup_singleton|set_solver|].
  intros i x Hi. apply list_lookup_singleton_Some in Hi as [-> <-]. cbn. by rewrite Nat.add_0_r.
Qed.

Lemma schedule_pending w c d : ec_ID c ∈ w_deferred (scheduleDeferredRetry w c d).
Proof. unfold scheduleDeferredRetry. case_bool_decide; [done|]. cbn. set_solver. Qed.

(** What a build leaves alone, and the retries it arms. *)
Definition builds (w w' : world) : Prop :=
  w_status w' = w_status w ∧ w_conns w' = w_conns w ∧ w_running w' = w_running w ∧ w_jobs w' = w_jobs w ∧ arms w w'.

#[export] Instance builds_preorder : PreOrder builds.
Proof.
  split; [intros w; by split_and!|].
  intros w1 w2 w3 (?&?&?&?&?) (?&?&?&?&?). split_and!; [congruence..|by transitivity w2].
Qed.

Lemma builds_converted w r d : builds w (with_converted w r d).
Proof. split_and!; try done. by apply arms_same. Qed.

Lemma builds_scheduled w c : builds w (scheduleDeferredRetry w c rateLimitRetryDelay).
Proof.
  split_and!; [..|apply schedule_arms]; unfold scheduleDeferredRetry; by case_bool_decide.
Qed.

Lemma builds_deferred w conn c reason r : builds w (deferStatement w conn c reason r).1.
Proof.
  unfold deferStatement. cbn [fst]. transitivity (recordRateLimitHit w c); [|apply builds_scheduled].
  split_and!; try done. by apply arms_same.
Qed.

Lemma live_balance_builds env w conn c r : builds w (liveBalance env w conn c r).1.1.
Proof.
  unfold liveBalance. destruct (fetchBalanceWithCollapseGuard _ _ _ _) as [|[]]; try reflexivity. apply builds_deferred.
Qed.

Lemma build_live_builds env w c conn rebuilt balance r : builds w (build_live env w c conn rebuilt balance r).1.
Proof.
  unfold build_live. cbn zeta. case_match; [apply builds_deferred|].
  set (lo := Fx.convertLive _ _ _ _ _ _ _ _ _ _ _).
  destruct (Fx.lo_fx lo).
  - destruct (Cashflow.reconcileCapitalFlow _ _ _ _ _ _ _ _ _). apply builds_converted.
  - cbn [fst]. destruct (Fx.lo_retry lo); [|apply builds_converted].
    etransitivity; [apply builds_converted|apply builds_scheduled].
Qed.

Lemma reconstruct_builds env w c conn r : builds w (reconstructIfEverySync env w c conn r).1.1.1.1.
Proof.
  unfold reconstructIfEverySync. destruct (Activity.cn_GetHistoricalSnapshots conn); [|reflexivity].
  destruct (negb _); [reflexivity|]. destruct (_ && _); [reflexivity|]. apply builds_converted.
Qed.

Lemma build_builds env w c : builds w (buildConnectionSnapshot env w c).1.
Proof.
  unfold buildConnectionSnapshot. destruct (connectorFor env c) as [conn|]; [|reflexivity].
  pose proof (reconstruct_builds env w c conn (new_result c)) as H1.
  destruct (reconstructIfEverySync _ _ _ _ _) as [[[[w1 rebuilt] due] rerr] r1]. cbn [fst] in H1.
  destruct (is_not_published rerr); [etransitivity; [exact H1|apply builds_deferred]|].
  pose proof (live_balance_builds env w1 conn c (set_backfillDue due r1)) as H2.
  destruct (liveBalance _ _ _ _ _) as [[w2 r2] [balance|]]; cbn [fst] in H2; [|by transitivity w1].
  transitivity w1; [done|]. transitivity w2; [done|apply build_live_builds].
Qed.

(** ** Lemmas: what a build answers *)

Definition identifies (c : ExchangeConnection) (r : SyncResult F) : Prop :=
  sr_UserUID r = ec_UserUID c ∧ sr_Exchange r = ec_Exchange c ∧ sr_Label r = ec_Label c ∧ sr_Success r = false ∧
  sr_RetryArmed r = false.

(** A result nothing was decided on yet. *)
Definition pending (c : ExchangeConnection) (r : SyncResult F) : Prop :=
  identifies c r ∧ sr_Error r = "" ∧ sr_Skipped r = false ∧ sr_snapshot r = None.

(** The live row a build may produce for [c] at [now]. *)
Definition live_row (c : ExchangeConnection) (now : time) (s : Snapshot F) : Prop :=
  History.belongs c s ∧ sn_Timestamp s = truncDay now ∧ sn_IsHistorical s = false ∧ sn_FromExternalRebuilder s = false ∧
  sn_RealizedBalance s = fsub (sn_TotalEquity s) (sn_UnrealizedPnL s).

Definition outcome (c : ExchangeConnection) (conn : Activity.connector F) (now : time) (r : SyncResult F) : Prop :=
  identifies c r ∧
  match sr_snapshot r with
  | Some s => sr_Error r = "" ∧ sr_Skipped r = false ∧ live_row c now s ∧
              Window.staleBalanceSkipReason (Activity.cn_BalanceAsOf conn) (truncDay now) = "" ∧
              sr_SnapshotEquity r = sn_TotalEquity s ∧ sr_SnapshotTimestamp r = sn_Timestamp s
  | None => sr_Error r ≠ "" ∨ sr_Skipped r = true
  end.

Lemma deferred_outcome w conn c reason now r :
  pending c r → outcome c conn now (deferStatement w conn c reason r).2.
Proof. intros (Hid & _ & _ & Hs). unfold outcome. cbn. rewrite Hs. split; [exact Hid|by right]. Qed.

Lemma build_live_outcome env w c conn rebuilt balance r :
  pending c r → outcome c conn (se_now env) (build_live env w c conn rebuilt balance r).2.
Proof.
  intros Hp. pose proof Hp as (Hid & He & Hk & Hs). unfold build_live. cbn zeta.
  destruct (String.eqb_spec (Window.staleBalanceSkipReason (Activity.cn_BalanceAsOf conn) (truncDay (se_now env))) "") as [Hst|];
    cbn [negb]; [|by apply deferred_outcome].
  set (lo := Fx.convertLive _ _ _ _ _ _ _ _ _ _ _). destruct (Fx.lo_fx lo) as [fx|].
  - destruct (Cashflow.reconcileCapitalFlow _ _ _ _ _ _ _ _ _) as [dep wd]. unfold outcome. cbn.
    by split_and!.
  - unfold outcome. cbn. rewrite Hs. split; [exact Hid|by right].
Qed.

Lemma reconstruct_pending env w c conn r :
  pending c r → pending c (set_backfillDue (reconstructIfEverySync env w c conn r).1.1.2
                             (reconstructIfEverySync env w c conn r).2).
Proof.
  intros Hp. unfold reconstructIfEverySync. destruct (Activity.cn_GetHistoricalSnapshots conn); [|exact Hp].
  destruct (negb _); [exact Hp|]. destruct (_ && _); [exact Hp|]. cbn [fst snd]. by destruct (is_not_published _).
Qed.

Lemma build_outcome_cases env w c :
  (∃ e, connectorFor env c = inr e ∧ buildConnectionSnapshot env w c = (w, set_error e false (new_result c))) ∨
  ∃ conn, connectorFor env c = inl conn ∧ outcome c conn (se_now env) (buildConnectionSnapshot env w c).2.
Proof.
  unfold buildConnectionSnapshot. destruct (connectorFor env c) as [conn|e]; [right|left; eauto].
  exists conn. split; [done|].
  pose proof (reconstruct_pending env w c conn (new_result c)) as Hp.
  destruct (reconstructIfEverySync _ _ _ _ _) as [[[[w1 rebuilt] due] rerr] r1]. cbn [fst snd] in Hp.
  specialize (Hp ltac:(by split_and!)).
  destruct (is_not_published rerr); [by apply deferred_outcome|].
  unfold liveBalance. destruct (fetchBalanceWithCollapseGuard _ _ _ _) as [balance|[msg|msg|msg]];
    [by apply build_live_outcome|by apply deferred_outcome|..];
    destruct Hp as (Hid & _ & _ & Hs); unfold outcome; cbn; cbn in Hs; rewrite Hs; (split; [exact Hid|by left]).
Qed.

Lemma build_identifies env w c : identifies c (buildConnectionSnapshot env w c).2.
Proof. destruct (build_outcome_cases env w c) as [(e & _ & ->)|(conn & _ & [H _])]; [by split_and!|done]. Qed.

Lemma build_snapshot_row env w c s :
  sr_snapshot (buildConnectionSnapshot env w c).2 = Some s →
  sr_Error (buildConnectionSnapshot env w c).2 = "" ∧ live_row c (se_now env) s.
Proof.
  destruct (build_outcome_cases env w c) as [(e & _ & ->)|(conn & _ & [_ H])]; [done|].
  intros E. rewrite E in H. by destruct H as (? & _ & ? & _).
Qed.

(** ** Lemmas: the daily pass *)

(** The active connections of a pass, stalest first, and those due. *)
Definition pass_connections (w : world) (user : string) (cs : list ExchangeConnection) : list ExchangeConnection :=
  stalest_first (w_status w) user cs.

Definition pass_due (w : world) (user : string) (cs : list ExchangeConnection) (now : time) : list ExchangeConnection :=
  filter (λ c, Window.isConnectionDue (w_status w) c now = true) (pass_connections w user cs).

Definition build_all (env : ExchangeConnection → sync_env) (w : world) (cs : list ExchangeConnection) :
    world * list (SyncResult F) :=
  run_all (λ w c, buildConnectionSnapshot (env c) w c) w cs.

(** What a build answered for [c]. *)
Definition built_for (env : ExchangeConnection → sync_env) (c : ExchangeConnection) (r : SyncResult F) : Prop :=
  identifies c r ∧
  match sr_snapshot r with
  | Some s => sr_Error r = "" ∧ live_row c (se_now (env c)) s
  | None => sr_Error r ≠ "" ∨ sr_Skipped r = true
  end.

Lemma connectorFor_error env c e : connectorFor env c = inr e → e ≠ "".
Proof.
  unfold connectorFor. destruct (se_credentials _ _ _ _); [|by intros [= <-]].
  destruct (se_create _ _ _ _ _); by intros [= <-].
Qed.

Lemma build_built env w c : built_for env c (buildConnectionSnapshot (env c) w c).2.
Proof.
  destruct (build_outcome_cases (env c) w c) as [(e & He & ->)|(conn & _ & [Hid H])].
  - apply connectorFor_error in He. split; [by split_and!|by left].
  - split; [done|]. destruct (sr_snapshot _); [by destruct H as (? & _ & ? & _)|done].
Qed.

Lemma build_all_spec env w cs :
  builds w (build_all env w cs).1 ∧ Forall2 (built_for env) cs (build_all env w cs).2.
Proof.
  unfold build_all. revert w. induction cs as [|c cs IH]; intros w; cbn [run_all]; [split; [reflexivity|constructor]|].
  pose proof (build_builds (env c) w c) as Hb. pose proof (build_built env w c) as Hr.
  destruct (buildConnectionSnapshot (env c) w c) as [w1 r]. cbn [fst snd] in *.
  destruct (IH w1) as [Hb' Hr']. destruct (run_all _ w1 cs) as [w2 rs]. cbn [fst snd] in *.
  split; [by transitivity w1|by constructor].
Qed.


Lemma start_backfill_status w c r : w_status (startBackfillIfDue w c r) = w_status w.
Proof. unfold startBackfillIfDue, startStatementBackfill. repeat case_match; done. Qed.

Lemma start_backfill_arms w c r : arms w (startBackfillIfDue w c r).
Proof. apply arms_same; unfold startBackfillIfDue, startStatementBackfill; repeat case_match; done. Qed.


Lemma record_pass_arms cs now w rs : arms w (foldl (record_pass cs now) w rs).
Proof.
  revert w. induction rs as [|r rs IH]; intros w; [reflexivity|]. cbn [foldl]. etransitivity; [|apply IH].
  unfold record_pass. destruct (findConnection _ _ _) as [c|]; [|reflexivity].
  etransitivity; [by apply (arms_same w (record w c r now))|apply start_backfill_arms].
Qed.

Lemma retry_pass_builds cs w r : builds w (retry_pass cs w r) ∧ w_repo (retry_pass cs w r) = w_repo w.
Proof.
  unfold retry_pass. case_match; [|by split]. case_match; [|by split].
  split; [|unfold scheduleDeferredRetry; by case_bool_decide].
  etransitivity; [|apply builds_scheduled]. split_and!; try done. by apply arms_same.
Qed.

Lemma retry_passes_builds cs w rs :
  builds w (foldl (retry_pass cs) w rs) ∧ w_repo (foldl (retry_pass cs) w rs) = w_repo w.
Proof.
  revert w. induction rs as [|r rs IH]; intros w; [by split|]. cbn [foldl].
  destruct (retry_pass_builds cs w r) as [Hb Hr]. destruct (IH (retry_pass cs w r)) as [Hb' Hr'].
  split; [by transitivity (retry_pass cs w r)|congruence].
Qed.

Lemma with_repo_same w : with_repo w (w_repo w) = w.
Proof. by destruct w. Qed.

(** The batch: all the built snapshots, or none. *)
Lemma save_pass_cases newid flt w rs :
  (∃ e, save_pass newid flt w rs = (w, mark (Err e) <$> rs)) ∨
  save_pass newid flt w rs =
    (with_repo w (History.with_table (w_repo w)
       (foldl (Store.Upsert (Window.sp_schema (w_repo w)) newid) (Window.sp_table (w_repo w)) (batch_of rs))),
     mark (Ok tt) <$> rs).
Proof.
  unfold save_pass. destruct (batch_of rs) as [|s l] eqn:E.
  - right. cbn [foldl]. rewrite History.with_table_same, with_repo_same. f_equal.
    rewrite <- (list_fmap_id rs) at 1. apply list_fmap_ext. intros i r Hr. cbn. unfold mark, saved.
    destruct (sr_snapshot r) as [s|] eqn:Es; [|done]. destruct (String.eqb (sr_Error r) "") eqn:Ee; [|done].
    exfalso. assert (s ∈ batch_of rs) as Hs; [|rewrite E in Hs; by apply not_elem_of_nil in Hs].
    apply list_elem_of_omap. exists r. split; [by eapply list_elem_of_lookup_2|]. by rewrite Ee.
  - destruct (Store.UpsertBatch_cases (Window.sp_schema (w_repo w)) newid flt (Window.sp_table (w_repo w)) (s :: l))
      as [[e ->] | ->]; [left|by right].
    exists e. by rewrite History.with_table_same, with_repo_same.
Qed.

Lemma arm_same r :
  let r' := arm r in
  sr_UserUID r' = sr_UserUID r ∧ sr_Exchange r' = sr_Exchange r ∧ sr_Label r' = sr_Label r ∧ sr_Success r' = sr_Success r ∧
  sr_Error r' = sr_Error r ∧ sr_Skipped r' = sr_Skipped r ∧ sr_snapshot r' = sr_snapshot r ∧
  Window.rateLimited r' = Window.rateLimited r.
Proof. cbn zeta. unfold arm. by destruct (Window.rateLimited r) eqn:E; split_and!. Qed.

(** What the daily pass answers for a connection. *)
Definition answered (env : ExchangeConnection → sync_env) (c : ExchangeConnection) (r : SyncResult F) : Prop :=
  sr_UserUID r = ec_UserUID c ∧ sr_Exchange r = ec_Exchange c ∧ sr_Label r = ec_Label c ∧
  (∀ s, sr_snapshot r = Some s → live_row c (se_now (env c)) s) ∧
  (sr_Success r = true → is_Some (sr_snapshot r)) ∧
  (sr_Success r = false → sr_Error r ≠ "" ∨ sr_Skipped r = true).

Lemma marked_answered env a c r : built_for env c r → answered env c (arm (mark a r)).
Proof.
  intros [(Hu & Hx & Hl & Hf & _) Hs].
  destruct (arm_same (mark a r)) as (Eu & Ex & El & Es & Ee & Ek & En & _).
  unfold answered. rewrite Eu, Ex, El, Es, Ee, Ek, En. unfold mark, saved.
  destruct (sr_snapshot r) as [s|] eqn:E.
  - destruct Hs as [He Hrow]. rewrite He. cbn. destruct a; cbn; rewrite ?E; split_and!; try done; naive_solver.
  - cbn. rewrite E. split_and!; try done. by rewrite Hf.
Qed.

(** The row of sync_statuses a result leaves. *)
Definition status_key (user : string) (r : SyncResult F) : string * string * string := (user, sr_Exchange r, sr_Label r).

Definition status_row (user : string) (now : time) (table : gmap (string * string * string) SyncStatus)
    (r : SyncResult F) : SyncStatus :=
  let '(status, msg) := Window.status_of r in
  mkStatus user (sr_Exchange r) (sr_Label r)
    (match Window.syncStatusStamp status now with
     | Some t => Some t
     | None => table !! status_key user r ≫= st_LastSyncTime
     end) status (sr_TradeCount r) msg.

Lemma findConnection_some cs x l c :
  findConnection cs x l = Some c → c ∈ cs ∧ ec_Exchange c = x ∧ ec_Label c = l.
Proof.
  intros (l1 & l2 & -> & Hp & _)%find_first_some. go_bool. split_and!; [set_solver|done|done].
Qed.

Lemma findConnection_in cs c : c ∈ cs → is_Some (findConnection cs (ec_Exchange c) (ec_Label c)).
Proof.
  intros Hc. destruct (findConnection _ _ _) eqn:E; [eauto|]. apply find_first_none in E.
  rewrite Forall_forall in E. specialize (E c Hc). cbn in E. by rewrite !String.eqb_refl in E.
Qed.

Lemma record_pass_table cs now user w st c r :
  w_status w = Some st → Window.st_fault st = None →
  findConnection cs (sr_Exchange r) (sr_Label r) = Some c → ec_UserUID c = user →
  ∃ st', w_status (record_pass cs now w r) = Some st' ∧ Window.st_fault st' = None ∧
    Window.st_table st' = <[status_key user r := status_row user now (Window.st_table st) r]> (Window.st_table st).
Proof.
  intros Hst Hf Hc Hu. unfold record_pass. rewrite Hc, start_backfill_status. unfold record. cbn [w_status with_status].
  rewrite Hst. unfold Window.recordSyncStatus. destruct (findConnection_some _ _ _ _ Hc) as (_ & Hx & Hl).
  unfold status_row. destruct (Window.status_of r) as [status msg]. eexists. split; [done|].
  unfold Window.Upsert. rewrite Hf. cbn. unfold status_key. by rewrite Hu, Hx, Hl.
Qed.

Lemma record_passes_table cs now user w st rs :
  w_status w = Some st → Window.st_fault st = None → (∀ c, c ∈ cs → ec_UserUID c = user) →
  (∀ r, r ∈ rs → is_Some (findConnection cs (sr_Exchange r) (sr_Label r))) → NoDup (status_key user <$> rs) →
  ∃ st', w_status (foldl (record_pass cs now) w rs) = Some st' ∧
    (∀ k, k ∉ status_key user <$> rs → Window.st_table st' !! k = Window.st_table st !! k) ∧
    ∀ r, r ∈ rs → Window.st_table st' !! status_key user r = Some (status_row user now (Window.st_table st) r).
Proof.
  intros Hst Hf Hu. revert w st Hst Hf. induction rs as [|r rs IH]; intros w st Hst Hf Hfound Hnd.
  { exists st. split_and!; [done|done|]. intros r []%not_elem_of_nil. }
  rewrite fmap_cons in Hnd. apply NoDup_cons in Hnd as [Hnew Hnd]. cbn [foldl].
  destruct (Hfound r ltac:(by left)) as [c Hc]. destruct (findConnection_some _ _ _ _ Hc) as (Hin & _ & _).
  destruct (record_pass_table cs now user w st c r Hst Hf Hc (Hu c Hin)) as (st1 & Hst1 & Hf1 & Ht1).
  destruct (IH _ st1 Hst1 Hf1) as (st' & Hst' & Hother & Hrows); [intros; apply Hfound; by right|done|].
  exists st'. split; [done|]. split.
  - intros k Hk. rewrite fmap_cons, not_elem_of_cons in Hk. destruct Hk as [Hne Hk].
    by rewrite (Hother k Hk), Ht1, lookup_insert_ne.
  - intros r' [->|Hr']%elem_of_cons; [by rewrite (Hother _ Hnew), Ht1, lookup_insert_eq|].
    rewrite (Hrows r' Hr'). f_equal. unfold status_row. rewrite Ht1, lookup_insert_ne; [done|].
    intros E. apply Hnew. rewrite E. by apply list_elem_of_fmap_2.
Qed.

Lemma stalest_first_perm status user cs : stalest_first status user cs ≡ₚ cs.
Proof. unfold stalest_first. destruct status; [apply sort_by_perm|done]. Qed.

Lemma pass_due_active w user cs now c : c ∈ pass_due w user cs now → c ∈ pass_connections w user cs.
Proof. intros Hc. by apply list_elem_of_filter in Hc as [_ Hc]. Qed.

(** ** Lemmas: what any operation arms and starts *)

Definition job_keys (l : list ExchangeConnection) : gset string := list_to_set (Fx.stored_key <$> l).

(** [w'] is [w] with more backfills started, one per connection that had none
    running. *)
Definition starts (w w' : world) : Prop :=
  ∃ new, w_jobs w' = w_jobs w ++ new ∧ w_running w' = job_keys new ∪ w_running w ∧
    NoDup (Fx.stored_key <$> new) ∧ job_keys new ## w_running w.

Lemma job_keys_app l1 l2 : job_keys (l1 ++ l2) = job_keys l1 ∪ job_keys l2.
Proof. unfold job_keys. by rewrite fmap_app, list_to_set_app_L. Qed.

#[export] Instance starts_preorder : PreOrder starts.
Proof.
  split.
  - intros w. exists []. rewrite app_nil_r. split_and!; [done|set_solver|constructor|set_solver].
  - intros w1 w2 w3 (l1 & T1 & D1 & N1 & X1) (l2 & T2 & D2 & N2 & X2).
    exists (l1 ++ l2). rewrite D1 in D2, X2. split_and!.
    + by rewrite T2, T1, app_assoc.
    + rewrite D2, job_keys_app. set_solver.
    + rewrite fmap_app. apply NoDup_app. split_and!; [done| |done].
      intros k H1 H2. apply (X2 k); [by apply elem_of_list_to_set|]. apply elem_of_union_l. by apply elem_of_list_to_set.
    + rewrite job_keys_app. set_solver.
Qed.

Definition grows (w w' : world) : Prop := arms w w' ∧ starts w w'.

#[export] Instance grows_preorder : PreOrder grows.
Proof.
  split; [intros w; split; reflexivity|]. intros w1 w2 w3 [A1 S1] [A2 S2]. split; [by transitivity w2|by transitivity w2].
Qed.

Lemma starts_same w w' : w_jobs w' = w_jobs w → w_running w' = w_running w → starts w w'.
Proof.
  intros HJ HR. exists []. rewrite app_nil_r. split_and!; [done|rewrite HR; set_solver|constructor|set_solver].
Qed.

Lemma builds_grows w w' : builds w w' → grows w w'.
Proof. intros (_ & _ & Hr & Hj & Ha). split; [done|]. by apply starts_same. Qed.

Lemma with_repo_grows w r : grows w (with_repo w r).
Proof. split; [by apply arms_same|by apply starts_same]. Qed.

Lemma record_grows w c r at_ : grows w (record w c r at_).
Proof. split; [by apply arms_same|by apply starts_same]. Qed.

Lemma start_backfill_grows w c r : grows w (startBackfillIfDue w c r).
Proof.
  split; [apply start_backfill_arms|]. unfold startBackfillIfDue, startStatementBackfill, Backfill.claimBackfill.
  destruct (sr_backfillDue r); [|reflexivity]. case_bool_decide as Hin; cbn; [reflexivity|].
  exists [c]. unfold job_keys. cbn. split_and!; [done|set_solver|by apply NoDup_singleton|set_solver].
Qed.

Lemma finish_grows w c r at_ : grows w (startBackfillIfDue (record w c r at_) c r).
Proof. etransitivity; [apply record_grows|apply start_backfill_grows]. Qed.

Lemma syncConnection_grows env w c : grows w (syncConnection env w c).1.
Proof.
  unfold syncConnection. pose proof (builds_grows _ _ (build_builds env w c)) as Hb.
  destruct (buildConnectionSnapshot env w c) as [w1 r]. cbn [fst] in Hb. transitivity w1; [done|].
  destruct (sr_snapshot r); [|apply finish_grows]. destruct (negb _); [apply finish_grows|].
  destruct (se_upsert_fault env); [apply finish_grows|]. cbn [fst].
  etransitivity; [apply with_repo_grows|apply finish_grows].
Qed.

Lemma run_all_grows f w cs : (∀ w c, grows w (f w c).1) → grows w (run_all f w cs).1.
Proof.
  intros Hf. revert w. induction cs as [|c cs IH]; intros w; cbn [run_all]; [reflexivity|].
  specialize (Hf w c). destruct (f w c) as [w1 r]. cbn [fst] in Hf. specialize (IH w1).
  destruct (run_all f w1 cs) as [w2 rs]. cbn [fst] in *. by transitivity w1.
Qed.

Lemma SyncUser_grows env completion w user : grows w (SyncUser env completion w user).1.
Proof.
  unfold SyncUser. destruct (Connections.GetActiveByUser _ _) as [[|c cs]|]; [reflexivity| |reflexivity].
  match goal with |- context [run_all ?f w ?l] => pose proof (run_all_grows f w l) as H; destruct (run_all f w l) end.
  apply H. intros w' c'. destruct (manual_refusal w' user c'); [reflexivity|apply syncConnection_grows].
Qed.

Lemma SyncExchange_grows env w user exchange : grows w (SyncExchange env w user exchange).1.
Proof.
  unfold SyncExchange. destruct (getConnectionsByExchange _ _ _) as [[|c cs]|]; [reflexivity| |reflexivity].
  destruct (omap _ _); [|reflexivity].
  match goal with |- context [run_all ?f w ?l] => pose proof (run_all_grows f w l) as H; destruct (run_all f w l) end.
  apply H. intros. apply syncConnection_grows.
Qed.

Lemma SyncScheduled_grows env w user exchange label :
  grows w (SyncConnectionScheduledByLabel env w user exchange label).1.
Proof.
  unfold SyncConnectionScheduledByLabel. destruct (Connections.GetActiveConnectionByLabel _ _ _ _); [|reflexivity].
  apply syncConnection_grows.
Qed.

Lemma retryConnection_grows env w c : grows w (retryConnectionDeferred env w c).
Proof.
  unfold retryConnectionDeferred. pose proof (builds_grows _ _ (build_builds env w c)) as Hb.
  destruct (buildConnectionSnapshot env w c) as [w1 r]. cbn [fst] in Hb. transitivity w1; [done|].
  cbn zeta. destruct (sr_snapshot r); [|apply start_backfill_grows]. destruct (negb _); [apply start_backfill_grows|].
  destruct (Store.UpsertBatch _ _ _ _ _) as [t [[]|]].
  - etransitivity; [apply with_repo_grows|]. etransitivity; [apply record_grows|apply start_backfill_grows].
  - etransitivity; [apply with_repo_grows|apply start_backfill_grows].
Qed.

Lemma record_passes_grows cs now w rs : grows w (foldl (record_pass cs now) w rs).
Proof.
  revert w. induction rs as [|r rs IH]; intros w; [reflexivity|]. cbn [foldl]. etransitivity; [|apply IH].
  unfold record_pass. destruct (findConnection _ _ _); [apply finish_grows|reflexivity].
Qed.

Lemma pass_grows env newid batch completion w user now :
  grows w (SyncUserScheduledDueAtomic env newid batch completion w user now).1.
Proof.
  unfold SyncUserScheduledDueAtomic. destruct (Connections.GetActiveByUser _ _) as [[|c cs]|]; [reflexivity| |reflexivity].
  cbn zeta. set (conns := stalest_first _ _ _). set (due := completion _).
  destruct (build_all_spec env w due) as [Hb _]. unfold build_all in Hb.
  destruct (run_all _ w due) as [w1 rs]. cbn [fst] in Hb.
  transitivity w1; [by apply builds_grows|].
  destruct (save_pass_cases newid batch w1 rs) as [[e ->] | ->];
    [|etransitivity; [apply with_repo_grows|]]; cbn [fst];
    (etransitivity; [apply record_passes_grows|]); apply builds_grows, retry_passes_builds.
Qed.

(** ** The service as a transition system *)

Inductive step : world → world → Prop :=
| step_user env completion w user : step w (SyncUser env completion w user).1
| step_exchange env w user exchange : step w (SyncExchange env w user exchange).1
| step_label env w user exchange label : step w (SyncConnectionScheduledByLabel env w user exchange label).1
| step_pass env newid batch completion w user now :
    step w (SyncUserScheduledDueAtomic env newid batch completion w user now).1
| step_timer env w i : step w (fire_timer env w i)
| step_job env w c : c ∈ w_jobs w → step w (run_backfill_job env w c).

(** The state between steps: the pending retries are the armed timers, the
    running backfills the started jobs, one of each per connection. *)
Definition consistent (w : world) : Prop :=
  NoDup (ec_ID <$> (w_timers w).*1) ∧ w_deferred w = timer_ids (w_timers w) ∧
  NoDup (Fx.stored_key <$> w_jobs w) ∧ w_running w = job_keys (w_jobs w).

Lemma grows_consistent w w' : consistent w → grows w w' → consistent w'.
Proof.
  intros (NT & DT & NJ & DJ) [(tl & T & D & N & X & _) (jl & J & R & NJ' & XJ)]. rewrite DT in X, D. rewrite DJ in XJ, R.
  unfold consistent. rewrite T, D, J, R, timer_ids_app, job_keys_app, !fmap_app. split_and!; [|set_solver| |set_solver].
  - apply NoDup_app. split_and!; [done| |done]. intros id H1%timer_ids_elem H2%timer_ids_elem. set_solver.
  - apply NoDup_app. split_and!; [done| |done]. intros k H1 H2.
    apply (XJ k); by apply elem_of_list_to_set.
Qed.

Lemma fire_consistent env w i : consistent w → consistent (fire_timer env w i).
Proof.
  intros (NT & DT & NJ & DJ). unfold fire_timer. destruct (w_timers w !! i) as [[c d]|] eqn:Hi; [|by split_and!].
  cbn zeta. match goal with |- context [retryConnectionDeferred env ?x c] => set (w1 := x) end.
  destruct (retryConnection_grows env w1 c) as [(tl & T & D & N & X & _) (jl & J & R & NJ' & XJ)].
  revert T D X J R XJ. generalize (retryConnectionDeferred env w1 c) as w2. subst w1. intros w2.
  unfold consistent. cbn [w_timers w_deferred w_jobs w_running]. intros T D X J R XJ.
  rewrite T, D, J, R, DJ, timer_ids_app, job_keys_app, !fmap_app. rewrite DT in X.
  pose proof (delete_Permutation _ _ _ Hi) as Hp.
  assert (ec_ID c ∉ timer_ids (delete i (w_timers w)) ∧ NoDup (ec_ID <$> (delete i (w_timers w)).*1)) as [Hout Hnd].
  { rewrite Hp in NT. cbn in NT. apply NoDup_cons in NT as [H1 H2]. split; [|done]. by rewrite timer_ids_elem. }
  assert (timer_ids (w_timers w) = {[ec_ID c]} ∪ timer_ids (delete i (w_timers w))) as Hids.
  { by rewrite (timer_ids_perm _ _ Hp). }
  rewrite DT, Hids in *. split_and!; [|set_solver| |set_solver].
  - apply NoDup_app. split_and!; [done| |done]. intros id H1%timer_ids_elem H2%timer_ids_elem. set_solver.
  - rewrite DJ in XJ. apply NoDup_app. split_and!; [done| |done]. intros k H1 H2. apply (XJ k); by apply elem_of_list_to_set.
Qed.

Lemma job_consistent env w c : consistent w → c ∈ w_jobs w → consistent (run_backfill_job env w c).
Proof.
  intros (NT & DT & NJ & DJ) Hc.
  assert (∀ repo fxDone conns, consistent (mkWorld repo (w_status w) conns fxDone (w_deferred w) (w_timers w) (w_rateHits w)
    (Backfill.releaseBackfill (w_running w) c) (filter (λ j, Fx.stored_key j ≠ Fx.stored_key c) (w_jobs w)))) as Hd.
  { intros repo fxDone conns. split_and!; cbn; [done|done| |].
    - eapply sublist_NoDup; [exact NJ|]. apply fmap_sublist, sublist_filter.
    - unfold Backfill.releaseBackfill. rewrite DJ. apply set_eq. intros k. unfold job_keys.
      rewrite elem_of_difference, !elem_of_list_to_set, !list_elem_of_fmap, elem_of_singleton.
      setoid_rewrite list_elem_of_filter. naive_solver. }
  unfold run_backfill_job. cbn zeta. repeat case_match; apply Hd.
Qed.

(** ** Properties *)

(** No business day is missing from a dated statement: every Monday to
    Friday before today is at or before its date. *)
Definition up_to_date (asOf : option time) (now : time) : Prop :=
  ∀ t d, asOf = Some t → t ≠ zero_time → is_midnight d → 1 <= Window.Weekday d <= 5 → d < truncDay now → d <= t.

Lemma not_stale asOf now : Window.staleBalanceSkipReason asOf (truncDay now) = "" → up_to_date asOf now.
Proof.
  intros Hs t d -> Ht Hd Hw Hlt. destruct (Z.le_gt_cases d t) as [|Hgt]; [done|]. exfalso.
  destruct (Window.last_statement_day (truncDay now)) as (Hwd & Hm & _ & Hbetween & Hstale). rewrite truncDay_idem in Hbetween.
  destruct (Z.le_gt_cases d (Window.LastStatementDay (truncDay now))) as [Hle|Hgt2]; [by apply (Hstale t Ht); [lia|]|].
  specialize (Hbetween d Hd ltac:(lia)). unfold Window.is_weekend in Hbetween. go_bool. lia.
Qed.

(** C22: what one sync of a connection produces.  Whatever the venue, the
    rates and the database answer, a build never reports success by itself
    and ends with an error, a skip, or a snapshot, which excludes the other
    two.  The snapshot is the connection's own live row of today's UTC midnight, its
    realized balance being equity less unrealized P&L; and when the connector
    dates its balance, no Monday to Friday before today is later than that
    date: a statement that lacks a business day is never stamped. *)
Theorem build_outcome env w c :
  let r := (buildConnectionSnapshot env w c).2 in
  identifies c r ∧
  match sr_snapshot r with
  | Some s => sr_Error r = "" ∧ sr_Skipped r = false ∧ live_row c (se_now env) s ∧
      ∃ conn, connectorFor env c = inl conn ∧ up_to_date (Activity.cn_BalanceAsOf conn) (se_now env)
  | None => sr_Error r ≠ "" ∨ sr_Skipped r = true
  end.
Proof.
  cbn zeta. destruct (build_outcome_cases env w c) as [(e & He & ->)|(conn & Hc & [Hid H])].
  - apply connectorFor_error in He. split; [by split_and!|by left].
  - split; [done|]. destruct (sr_snapshot _); [|done]. destruct H as (? & ? & ? & ?%not_stale & _). eauto 10.
Qed.







(** Every attempt of the daily pass leaves its status.  When the statuses
    can be written and the user's connections have distinct exchange/label
    pairs, then after the pass each result has its row in sync_statuses: the
    status and message of that result, the pass's instant when the attempt is
    not an error, and otherwise the last sync time it had.  The rows of the
    connections that were not due are left as they were. *)
Theorem pass_statuses env newid batch completion w user now st cs :
  w_status w = Some st → Window.st_fault st = None → (∀ l, completion l ≡ₚ l) →
  Connections.GetActiveByUser (w_conns w) user = Ok cs → NoDup ((λ c, (ec_Exchange c, ec_Label c)) <$> cs) →
  match SyncUserScheduledDueAtomic env newid batch completion w user now with
  | (_, Err _) => cs = []
  | (w', Ok rs) =>
      ∃ st', w_status w' = Some st' ∧
        (∀ k, k ∉ status_key user <$> rs → Window.st_table st' !! k = Window.st_table st !! k) ∧
        ∀ r, r ∈ rs → Window.st_table st' !! status_key user r = Some (status_row user now (Window.st_table st) r)
  end.
Proof.
  intros Hst Hf Hperm Hcs Hnd. unfold SyncUserScheduledDueAtomic. rewrite Hcs.
  destruct cs as [|c0 cs0]; [done|]. remember (c0 :: cs0) as cs. clear Heqcs c0 cs0.
  cbn zeta. fold (pass_connections w user cs). fold (pass_due w user cs now).
  fold (build_all env w (completion (pass_due w user cs now))).
  destruct (build_all_spec env w (completion (pass_due w user cs now))) as [Hb Hbuilt].
  destruct (build_all env w _) as [w1 rs] eqn:Hall. cbn [fst snd] in *.
  pose proof (save_pass_cases newid batch w1 rs) as Hsave.
  destruct (save_pass newid batch w1 rs) as [w2 rs2].
  assert (w_status w2 = Some st ∧ ∃ a, rs2 = mark a <$> rs) as [Hst2 [a ->]].
  { destruct Hb as (Hs & _). destruct Hsave as [[e [= -> ->]] | [= -> ->]]; (split; [cbn; congruence|eauto]). }
  assert (Forall2 (answered env) (completion (pass_due w user cs now)) (arm <$> (mark a <$> rs))) as Hans.
  { apply Forall2_fmap_r, Forall2_fmap_r. eapply Forall2_impl; [exact Hbuilt|intros; by apply marked_answered]. }
  set (rs' := arm <$> (mark a <$> rs)) in *. clearbody rs'.
  assert (∀ c, c ∈ pass_connections w user cs → ec_UserUID c = user) as Hu.
  { intros c Hc. unfold pass_connections in Hc. rewrite stalest_first_perm in Hc.
    by eapply Connections.GetActiveByUser_elem. }
  destruct (record_passes_table (pass_connections w user cs) now user w2 st rs') as (st' & Hst' & H1 & H2); [done..| | |].
  - intros r Hr. apply list_elem_of_lookup in Hr as [i Hi].
    destruct (Forall2_lookup_r _ _ _ _ _ Hans Hi) as (c & Hci & (_ & Hx & Hl & _)). rewrite Hx, Hl.
    apply findConnection_in, (pass_due_active _ _ _ now). rewrite <- Hperm. by eapply list_elem_of_lookup_2.
  - assert (status_key user <$> rs' = (λ c, (user, ec_Exchange c, ec_Label c)) <$> completion (pass_due w user cs now)) as ->.
    { clear -Hans. induction Hans as [|c r l rs (_ & Hx & Hl & _) _ IH]; [done|]. cbn. unfold status_key at 1. by rewrite Hx, Hl, IH. }
    rewrite Hperm. unfold pass_due, pass_connections.
    apply (NoDup_fmap_1 (λ k : string * string * string, (k.1.2, k.2))). rewrite <- list_fmap_compose.
    eapply sublist_NoDup; [|apply fmap_sublist, sublist_filter].
    by rewrite stalest_first_perm.
  - exists st'. split; [|done]. destruct (proj1 (retry_passes_builds (pass_connections w user cs) (foldl (record_pass (pass_connections w user cs) now) w2 rs') rs')) as (-> & _). done.
Qed.

(** C21: the pending retries and running backfills are never lost nor doubled.
    In every state the service can reach from an empty one, by manual syncs,
    daily passes, timers and backfills in any order, each connection has at
    most one retry armed and at most one backfill started; the connections
    marked as awaiting a retry are exactly those with an armed timer, and
    those marked as being backfilled exactly those with a started job, so no
    mark outlives its timer or job and none blocks a later retry. *)
Theorem reachable_consistent w0 w :
  w_timers w0 = [] → w_deferred w0 = ∅ → w_jobs w0 = [] → w_running w0 = ∅ → rtc step w0 w → consistent w.
Proof.
  intros HT HD HJ HR Hsteps. assert (consistent w0) as H0.
  { unfold consistent. rewrite HT, HD, HJ, HR. split_and!; [constructor|done|constructor|done]. }
  clear HT HD HJ HR. induction Hsteps as [|w1 w2 w3 Hs _ IH]; [done|]. apply IH. clear IH.
  destruct Hs; [..|by apply fire_consistent|by apply job_consistent]; eapply grows_consistent; try exact H0.
  - apply SyncUser_grows.
  - apply SyncExchange_grows.
  - apply SyncScheduled_grows.
  - apply pass_grows.
Qed.

Lemma arms_deferred w w' : arms w w' → w_deferred w ⊆ w_deferred w'.
Proof. intros (l & _ & -> & _). set_solver. Qed.

Lemma retry_passes_pending cs w rs r :
  r ∈ rs → Window.rateLimited r = true → is_Some (findConnection cs (sr_Exchange r) (sr_Label r)) →
  ∃ c, findConnection cs (sr_Exchange r) (sr_Label r) = Some c ∧ ec_ID c ∈ w_deferred (foldl (retry_pass cs) w rs).
Proof.
  intros Hr Hl [c Hc]. exists c. split; [done|]. revert w. induction rs as [|r' rs IH]; intros w; [by apply not_elem_of_nil in Hr|].
  cbn [foldl]. apply elem_of_cons in Hr as [<-|Hr]; [|by apply IH].
  destruct (retry_passes_builds cs (retry_pass cs w r) rs) as [(_ & _ & _ & _ & Ha) _]. apply (arms_deferred _ _ Ha).
  unfold retry_pass. rewrite Hl, Hc. apply schedule_pending.
Qed.

(** A rate-limited connection is retried the same day, and the retries of
    a pass do not collide.  The pass only adds timers, each for a connection
    that had none pending, the k-th of them five minutes times k after the
    first free slot six hours out; and every rate-limited result is marked as
    retried and has its connection's retry pending. *)
Theorem pass_retries env newid batch completion w user now :
  let '(w', res) := SyncUserScheduledDueAtomic env newid batch completion w user now in
  arms w w' ∧
  match res with
  | Err _ => w' = w
  | Ok rs => (∀ l, completion l ≡ₚ l) → ∀ r, r ∈ rs → Window.rateLimited r = true →
      sr_RetryArmed r = true ∧ ∃ c, ec_Exchange c = sr_Exchange r ∧ ec_Label c = sr_Label r ∧ ec_ID c ∈ w_deferred w'
  end.
Proof.
  pose proof (pass_grows env newid batch completion w user now) as [Ha _].
  destruct (SyncUserScheduledDueAtomic _ _ _ _ _ _ _) as [w' res] eqn:E. split; [exact Ha|]. clear Ha. revert E.
  unfold SyncUserScheduledDueAtomic. destruct (Connections.GetActiveByUser _ _) as [[|c0 cs0]|]; try (by intros [= <- <-]).
  remember (c0 :: cs0) as cs. clear Heqcs c0 cs0. cbn zeta. fold (pass_connections w user cs). fold (pass_due w user cs now).
  fold (build_all env w (completion (pass_due w user cs now))).
  destruct (build_all_spec env w (completion (pass_due w user cs now))) as [_ Hbuilt].
  destruct (build_all env w _) as [w1 rs]. cbn [snd] in Hbuilt.
  assert (∃ w2 a, save_pass newid batch w1 rs = (w2, mark a <$> rs)) as (w2 & a & ->).
  { destruct (save_pass_cases newid batch w1 rs) as [[e ->] | ->]; eauto. }
  intros [= <- <-] Hperm r Hr Hl.
  assert (is_Some (findConnection (pass_connections w user cs) (sr_Exchange r) (sr_Label r))) as Hfound.
  { assert (Forall2 (answered env) (completion (pass_due w user cs now)) (arm <$> (mark a <$> rs))) as Hans.
    { apply Forall2_fmap_r, Forall2_fmap_r. eapply Forall2_impl; [exact Hbuilt|intros; by apply marked_answered]. }
    apply list_elem_of_lookup in Hr as [i Hi].
    destruct (Forall2_lookup_r _ _ _ _ _ Hans Hi) as (c & Hci & (_ & Hx & Hlb & _)). rewrite Hx, Hlb.
    apply findConnection_in, (pass_due_active _ _ _ now). rewrite <- Hperm. by eapply list_elem_of_lookup_2. }
  split.
  - apply list_elem_of_fmap in Hr as (r0 & -> & _). rewrite (proj2 (proj2 (proj2 (proj2 (proj2 (proj2 (proj2 (arm_same r0)))))))) in Hl.
    unfold arm. by rewrite Hl.
  - destruct (retry_passes_pending (pass_connections w user cs)
      (foldl (record_pass (pass_connections w user cs) now) w2 (arm <$> (mark a <$> rs))) _ r Hr Hl Hfound) as (c & Hc & Hin).
    exists c. destruct (findConnection_some _ _ _ _ Hc) as (_ & ? & ?). by split_and!.
Qed.

(** The connection has a stored row. *)
Definition has_rows (w : world) (user : string) (c : ExchangeConnection) : bool :=
  Store.ExistsForUserExchangeLabel (Window.sp_schema (w_repo w)) (Window.sp_table (w_repo w)) user (ec_Exchange c) (ec_Label c).

Lemma manual_refusal_spec w user c :
  match manual_refusal w user c with
  | None => Window.sp_fault (w_repo w) = None ∧ has_rows w user c = false
  | Some r => (is_Some (Window.sp_fault (w_repo w)) ∨ has_rows w user c = true) ∧ sr_Success r = false ∧ sr_Error r ≠ ""
  end.
Proof.
  unfold manual_refusal, isManualSyncAllowed, Window.query, has_rows.
  destruct (Window.sp_fault (w_repo w)); [by split_and!; [left| |]|].
  destruct (Store.ExistsForUserExchangeLabel _ _ _ _ _); cbn; [by split_and!; [right| |]|done].
Qed.

(** A manual sync cannot pick its moment.  When a connection of the
    exchange already has a stored row, or the check cannot be made, the whole
    request is refused: nothing is written, nothing is scheduled, and the
    result is an error.  For any user and connection the
    refusal is exactly that: a stored row, or a failed check. *)
Theorem manual_sync_guard env w user exchange :
  (∀ c, match manual_refusal w user c with
        | None => Window.sp_fault (w_repo w) = None ∧ has_rows w user c = false
        | Some r => (is_Some (Window.sp_fault (w_repo w)) ∨ has_rows w user c = true) ∧ sr_Success r = false ∧ sr_Error r ≠ ""
        end) ∧
  let '(w', r) := SyncExchange env w user exchange in
  match getConnectionsByExchange (w_conns w) user exchange with
  | Ok (c0 :: cs) =>
      (∃ c, c ∈ c0 :: cs ∧ (is_Some (Window.sp_fault (w_repo w)) ∨ has_rows w user c = true)) →
      w' = w ∧ sr_Success r = false ∧ sr_Error r ≠ ""
  | _ => w' = w ∧ sr_Success r = false ∧ sr_Error r ≠ ""
  end.
Proof.
  split; [intros c; apply manual_refusal_spec|]. unfold SyncExchange.
  destruct (getConnectionsByExchange _ _ _) as [[|c0 cs0]|e]; [by split_and!| |].
  - destruct (omap (manual_refusal w user) (c0 :: cs0)) as [|r rs] eqn:E.
    + destruct (run_all _ _ _) as [w1 rs]. intros (c & Hc & Hbad). exfalso.
      pose proof (manual_refusal_spec w user c) as Hspec. destruct (manual_refusal w user c) as [r|] eqn:Er.
      * assert (r ∈ omap (manual_refusal w user) (c0 :: cs0)) as Hin by (apply list_elem_of_omap; eauto).
        rewrite E in Hin. by apply not_elem_of_nil in Hin.
      * destruct Hspec as [Hf Hrows]. rewrite Hf, Hrows in Hbad. destruct Hbad as [[? ?]|?]; done.
    + intros _. assert (r ∈ omap (manual_refusal w user) (c0 :: cs0)) as Hin by (rewrite E; by left).
      apply list_elem_of_omap in Hin as (c & _ & Hc). pose proof (manual_refusal_spec w user c) as Hspec.
      rewrite Hc in Hspec. by destruct Hspec as [_ ?].
  - split_and!; [done|done|]. cbn [sr_Error failed]. unfold SyncError.egressSyncError. cbn zeta.
    destruct (String.eqb_spec (SyncError.Category e) "") as [_|Hm]; [done|exact Hm].
Qed.

End sync.
Arguments world F : clear implicits.
Arguments sync_env F : clear implicits.

(** *** Concrete instances *)

(** One Kraken connection, nothing stored yet; the venue reports 100. *)
Definition sample_world : world float64 :=
  mkWorld (Window.mkSnapshotRepo Store.prod_schema [] None) (Some (Window.mkStatusRepo ∅ None))
    (Connections.mkConnRepo true true true [Connections.mkConnRow Rebuild.kraken_conn None None] None)
    ∅ ∅ [] None ∅ [].

(** A venue that answers, and one whose key is throttled. *)
Definition sample_env (answer : Balance float64 + Activity.conn_error) : sync_env float64 :=
  mkSyncEnv Backfill.sample_backfill_env (λ _ _ _, Ok (Rebuild.mkCredentials "key" "secret" "" false))
    (λ _ _ _ _, Ok (Activity.mkConnector (λ _, answer) (λ _ _, ([], None)) None None None None None None None))
    None None Store.no_faults.

Definition answers : ExchangeConnection → sync_env float64 := λ _, sample_env (inl (Breakdown.sample_balance 100 100)).
Definition throttled : ExchangeConnection → sync_env float64 :=
  λ _, sample_env (inr (Activity.OtherError "Too many requests")).

Definition sample_pass (env : ExchangeConnection → sync_env float64) : world float64 * res (list (SyncResult float64)) :=
  SyncUserScheduledDueAtomic env (λ _, "id") Store.no_faults id sample_world "user1" (sample_day 100 + 3 * Hour).

Lemma pass_statuses_witness :
  ∃ rs st', (sample_pass answers).2 = Ok rs ∧ w_status (sample_pass answers).1 = Some st' ∧ length rs = 1%nat ∧
    ∀ r, r ∈ rs → Window.st_table st' !! status_key "user1" r
                  = Some (status_row "user1" (sample_day 100 + 3 * Hour) ∅ r).
Proof.
  pose proof (pass_statuses answers (λ _, "id") Store.no_faults id sample_world "user1" (sample_day 100 + 3 * Hour)
    (Window.mkStatusRepo ∅ None) [Rebuild.kraken_conn] eq_refl eq_refl (λ l, reflexivity l)
    (ltac:(vm_compute; reflexivity)) (NoDup_singleton _)) as H.
  change (SyncUserScheduledDueAtomic answers _ _ _ _ _ _) with (sample_pass answers) in H.
  destruct (sample_pass answers) as [w' [rs|e]] eqn:E; [|discriminate H].
  destruct H as (st' & Hst & _ & Hrows). exists rs, st'. split_and!; [reflexivity|exact Hst| |exact Hrows].
  vm_compute in E. injection E as _ <-. reflexivity.
Defined.

(** A throttled pass arms one retry; firing it against an answering venue
    stores the day and clears the mark. *)
Definition sample_recovered : world float64 := fire_timer (answers Rebuild.kraken_conn) (sample_pass throttled).1 0.

Lemma reachable_consistent_witness :
  length (w_timers (sample_pass throttled).1) = 1%nat ∧ w_timers sample_recovered = [] ∧
  length (Window.sp_table (w_repo sample_recovered)) = 1%nat ∧ consistent sample_recovered.
Proof.
  split; [vm_compute; reflexivity|]. split; [vm_compute; reflexivity|]. split; [vm_compute; reflexivity|].
  apply (reachable_consistent sample_world sample_recovered eq_refl eq_refl eq_refl eq_refl).
  eapply rtc_l; [apply (step_pass throttled (λ _, "id") Store.no_faults id sample_world "user1" (sample_day 100 + 3 * Hour))|].
  eapply rtc_l; [apply (step_timer (answers Rebuild.kraken_conn) _ 0)|]. apply rtc_refl.
Defined.

End Sync.
