(* ===== verification/NumReal.v ===== *)
(** * Exact arithmetic

    The instance of [Num] over the real numbers: what the program computes
    when every operation is exact.  Theorems stated at this instance are
    about the formulas of the code, not about their rounding. *)

From S2P Require Import Prelude Num.
From stdpp Require Import base tactics list.
From Stdlib Require Import ZArith Reals Lra.

(** [Int_part (Rabs x)] with the sign of [x]. *)
Definition R_trunc (x : R) : Z :=
  if Rlt_dec x 0 then (- Int_part (- x))%Z else Int_part x.

(** Round half away from zero. *)
Definition R_round (x : R) : Z :=
  if Rlt_dec x 0 then (- Int_part (- x + / 2))%Z else Int_part (x + / 2).

#[export] Instance num_R : Num R := {|
  fadd := Rplus;
  fsub := Rminus;
  fmul := Rmult;
  fdiv := Rdiv;
  fopp := Ropp;
  fabs := Rabs;
  fsqrt := R_sqrt.sqrt;
  fltb x y := if Rlt_dec x y then true else false;
  fleb x y := if Rle_dec x y then true else false;
  feqb x y := if Req_dec_T x y then true else false;
  fofZ := IZR;
  ftrunc := R_trunc;
  fround := R_round;
  fis_nan _ := false;
  fis_inf _ := false;
|}.

Lemma R_ltb x y : fltb (F := R) x y = true ↔ (x < y)%R.
Proof. cbn. destruct (Rlt_dec x y); split; done. Qed.

Lemma R_ltb_false x y : fltb (F := R) x y = false ↔ (y <= x)%R.
Proof. cbn. destruct (Rlt_dec x y); split; try done; lra. Qed.

Lemma R_leb x y : fleb (F := R) x y = true ↔ (x <= y)%R.
Proof. cbn. destruct (Rle_dec x y); split; done. Qed.

Lemma R_leb_false x y : fleb (F := R) x y = false ↔ (y < x)%R.
Proof. cbn. destruct (Rle_dec x y); split; try done; lra. Qed.

Lemma R_eqb x y : feqb (F := R) x y = true ↔ x = y.
Proof. cbn. destruct (Req_dec_T x y); split; done. Qed.

Lemma R_eqb_false x y : feqb (F := R) x y = false ↔ x ≠ y.
Proof. cbn. destruct (Req_dec_T x y); split; done. Qed.

Lemma R_f0 : (f0 : R) = 0%R.
Proof. done. Qed.

Lemma R_f1 : (f1 : R) = 1%R.
Proof. done. Qed.

#[export] Instance num_ord_R : NumOrd R.
Proof.
  split.
  - intros x. apply R_ltb_false. lra.
  - intros x y z. rewrite !R_ltb. lra.
  - intros x y z. rewrite !R_leb. lra.
  - intros x y z. rewrite !R_ltb, R_leb. lra.
  - intros x y z. rewrite !R_ltb, R_leb. lra.
  - intros x y. rewrite R_ltb, R_leb. lra.
  - intros x. by apply R_eqb.
  - done.
  - intros x y _ _. rewrite R_ltb_false, R_leb. done.
  - done.
Qed.

(** Turn the tests of the code into inequalities on reals. *)
Ltac R_tests :=
  repeat match goal with
  | H : fltb _ _ = true |- _ => apply R_ltb in H
  | H : fltb _ _ = false |- _ => apply R_ltb_false in H
  | H : fleb _ _ = true |- _ => apply R_leb in H
  | H : fleb _ _ = false |- _ => apply R_leb_false in H
  | H : feqb _ _ = true |- _ => apply R_eqb in H
  | H : feqb _ _ = false |- _ => apply R_eqb_false in H
  end.

(** ** Sums *)

Section sums.
Local Open Scope R_scope.

Definition sumR (l : list R) : R := foldr Rplus 0 l.

Lemma sumR_cons {A} (f : A → R) x l : sumR (f <$> x :: l) = f x + sumR (f <$> l).
Proof. done. Qed.

Lemma foldl_sum {A} (f : A → R) acc l : foldl (λ acc x, acc + f x) acc l = acc + sumR (f <$> l).
Proof.
  revert acc. induction l as [|x l IH]; intros acc; [cbn; lra|]. cbn [foldl]. rewrite IH, sumR_cons. lra.
Qed.

Lemma sumR_perm l1 l2 : l1 ≡ₚ l2 → sumR l1 = sumR l2.
Proof. unfold sumR. induction 1; cbn [foldr]; lra. Qed.

Lemma sumR_app l k : sumR (l ++ k) = sumR l + sumR k.
Proof. unfold sumR. induction l as [|x l IH]; cbn [app foldr]; [lra|]. rewrite IH. lra. Qed.

Lemma sumR_ext {A} (f g : A → R) l : (∀ x, x ∈ l → f x = g x) → sumR (f <$> l) = sumR (g <$> l).
Proof. induction l as [|x l IH]; intros E; [done|]. rewrite !sumR_cons, (E x), IH; [done| |by left]. intros y Hy. apply E. by right. Qed.

Lemma sumR_plus {A} (f g : A → R) l : sumR ((λ x, f x + g x) <$> l) = sumR (f <$> l) + sumR (g <$> l).
Proof. induction l as [|x l IH]; [cbn; lra|]. rewrite !sumR_cons, IH. lra. Qed.

End sums.
