(* ===== verification/CashflowExact.v ===== *)
(** * The capital flow a balance implies, in exact arithmetic *)

From S2P Require Import Prelude Num NumReal Cashflow.
From stdpp Require Import base tactics.
From Stdlib Require Import ZArith Reals Lra.
Local Open Scope R_scope.

Module CashflowExact.
Import Cashflow.

(** A hidden flow is found and a reported one is never counted twice.
    When the settled balance moved by the realized P&L, the charges and a
    true capital flow, the inferred deposit and withdrawal are non-negative
    and never both positive; their difference is the true flow as soon as the
    broker's report misses it by the threshold, the reported one otherwise,
    and always within the threshold of the true flow. *)
Theorem inferred_flow (prev cur : ReconInputs (F := R)) threshold flow :
  0 < threshold →
  ri_SettledBalance cur = ri_SettledBalance prev + ri_RealizedPnL cur + ri_Charges cur + flow →
  let '(dep, wd) := InferCapitalFlow prev cur threshold in
  0 <= dep ∧ 0 <= wd ∧ (dep = 0 ∨ wd = 0) ∧
  (Rabs (flow - ri_ReportedFlow cur) < threshold → dep - wd = ri_ReportedFlow cur) ∧
  (threshold <= Rabs (flow - ri_ReportedFlow cur) → dep - wd = flow) ∧
  Rabs (dep - wd - flow) < threshold.
Proof.
  intros Hth Hbal. unfold InferCapitalFlow.
  set (residual := fsub _ (ri_ReportedFlow cur)).
  assert (residual = flow - ri_ReportedFlow cur) as Hres by (subst residual; cbn; lra).
  set (total := fadd _ _).
  assert (Rabs (flow - ri_ReportedFlow cur) < threshold ∧ total = ri_ReportedFlow cur ∨
          threshold <= Rabs (flow - ri_ReportedFlow cur) ∧ total = flow) as Htot.
  { subst total. destruct (fltb (fabs residual) threshold) eqn:E; R_tests; cbn in *;
      rewrite Hres in *; [left|right]; split; lra. }
  clearbody total. rewrite R_f0.
  assert (Rabs (total - flow) < threshold) as Hclose.
  { destruct Htot as [[H1 ->]|[H1 ->]].
    - rewrite <- Rabs_Ropp. by replace (- (ri_ReportedFlow cur - flow)) with (flow - ri_ReportedFlow cur) by lra.
    - rewrite Rminus_diag, Rabs_R0. lra. }
  destruct (fleb 0 total) eqn:E; R_tests; cbn.
  - replace (total - 0) with total by lra. split_and!; [lra|lra|by right|lra|lra|done].
  - replace (0 - - total) with total by lra. split_and!; [lra|lra|by left|lra|lra|done].
Qed.

(** A demo account topped up by 100 that the broker does not report. *)
Lemma inferred_flow_witness :
  let '(dep, wd) := InferCapitalFlow (mkRecon 1000 0 0 0) (mkRecon 1150 60 (-10) 0) (1 / 2) in dep - wd = 100.
Proof.
  pose proof (inferred_flow (mkRecon 1000 0 0 0) (mkRecon 1150 60 (-10) 0) (1 / 2) 100) as H.
  destruct (InferCapitalFlow _ _ _) as [dep wd]. apply H; cbn; [lra|lra|].
  rewrite Rabs_right; lra.
Defined.

End CashflowExact.
