(* ===== verification/Returns.v ===== *)
(** * Daily and monthly returns of a report (internal/service/report.go)

    The time-weighted return over all the connections of a report.  Dates are
    kept as day numbers, which [FormatDate] maps one to one to the strings of
    the code, in the same order.  Go visits a map in an unspecified order:
    [order d site] is the order chosen on day [d] by each of the three loops. *)

From S2P Require Import Prelude Num GoTime Types.
From stdpp Require Import base gmap strings tactics list.
From Stdlib Require Import ZArith Lia.
Local Open Scope Z_scope.

Module Returns.

Definition staleConnectionDays : Z := 5.

Definition withdrawalsAtOpen (exchange : string) : bool := String.eqb exchange "ibkr".

Definition snapshotConnectionKey (exchange label : string) : string :=
  let ex := ToLower (TrimSpace exchange) in
  let lb := ToLower (TrimSpace label) in
  if String.eqb lb "" then ex else (ex +:+ "/" +:+ lb)%string.

(** [days] holds the connection's own dates, sorted: the silence runs to the
    first of them from [day] on, or to the end of the series. *)
Definition silentDays (last day : Z) (days : list Z) (seriesEnd : Z) : Z :=
  default seriesEnd (find_first (λ d, day <=? d) days) - last.

Section returns.
Context {F : Type} {NF : Num F}.

Definition minTWRBaseUSD : F := fofZ 1.
Definition flowDominanceRatio : F := fofZ 10.

Record dailyReturn := mkDaily {
  dr_date : Z;
  dr_netReturn : F;
  dr_benchmarkReturn : F;
  dr_outperformance : F;
  dr_cumulativeReturn : F;
  dr_nav : F;
}.

Record monthlyReturn := mkMonthly {
  mr_date : Z * Z;
  mr_netReturn : F;
  mr_benchmarkReturn : F;
  mr_outperformance : F;
  mr_aum : F;
}.

(** ** The leading dust *)

Definition day_of (s : Snapshot F) : Z := day_index (sn_Timestamp s).

(** The first day's rows, and the rest. *)
Fixpoint span_day (d : Z) (l : list (Snapshot F)) : list (Snapshot F) * list (Snapshot F) :=
  match l with
  | [] => ([], [])
  | s :: l' => if day_of s =? d then let '(a, b) := span_day d l' in (s :: a, b) else ([], l)
  end.

Definition material (day : list (Snapshot F)) : bool :=
  let equity := fsum (sn_TotalEquity <$> day) in
  let flows := foldl (λ acc s, fadd acc (fadd (fabs (sn_Deposits s)) (fabs (sn_Withdrawals s)))) f0 day in
  fleb minTWRBaseUSD equity || fleb minTWRBaseUSD flows.

(** Each round drops at least one row: [length] rounds are enough. *)
Fixpoint drop_dust (fuel : nat) (l : list (Snapshot F)) : list (Snapshot F) :=
  match fuel, l with
  | S n, s :: _ =>
      let '(day, rest) := span_day (day_of s) l in
      if material day then l else drop_dust n rest
  | _, _ => l
  end.

Definition dropLeadingDustDays (l : list (Snapshot F)) : list (Snapshot F) := drop_dust (length l) l.

Lemma span_day_app d l : l = (span_day d l).1 ++ (span_day d l).2.
Proof.
  induction l as [|s l IH]; cbn [span_day]; [done|]. destruct (day_of s =? d); [|done].
  destruct (span_day d l) as [a b]. cbn in *. by rewrite <- IH.
Qed.

Lemma drop_dust_spec n l :
  (length l <= n)%nat →
  (∃ dust, l = dust ++ drop_dust n l) ∧
  match drop_dust n l with [] => True | s :: _ => material (span_day (day_of s) (drop_dust n l)).1 = true end.
Proof.
  revert l. induction n as [|n IH]; intros [|s l] Hl; cbn [length] in Hl; [by split; [exists []|]|lia|by split; [exists []|]|].
  cbn [drop_dust]. pose proof (span_day_app (day_of s) (s :: l)) as Happ.
  destruct (span_day (day_of s) (s :: l)) as [day rest] eqn:E. cbn [fst snd] in Happ.
  destruct (material day) eqn:Hm; [split; [by exists []|by rewrite E]|].
  destruct day as [|s' day]; [cbn [span_day] in E; rewrite Z.eqb_refl in E; by destruct (span_day _ l)|].
  assert (length rest <= n)%nat as Hn by (apply (f_equal length) in Happ; rewrite length_app in Happ; cbn in Happ; lia).
  destruct (IH rest Hn) as [[dust Hd] Hr]. split; [|done]. exists ((s' :: day) ++ dust). by rewrite <- app_assoc, <- Hd.
Qed.

(** The rounds are enough: what is left starts on a material day, or is empty. *)
Lemma dropLeadingDustDays_spec l :
  (∃ dust, l = dust ++ dropLeadingDustDays l) ∧
  match dropLeadingDustDays l with
  | [] => True
  | s :: _ => material (span_day (day_of s) (dropLeadingDustDays l)).1 = true
  end.
Proof. by apply drop_dust_spec. Qed.

(** ** Grouping *)

(** The rows of each day by connection; a later row of the same key wins. *)
Definition group_days (snapshots : list (Snapshot F)) : gmap Z (gmap string (Snapshot F)) :=
  foldl (λ m s, <[day_of s := <[snapshotConnectionKey (sn_Exchange s) (sn_Label s) := s]> (default ∅ (m !! day_of s))]> m)
    ∅ snapshots.

Definition keys {A} (m : gmap string A) : list string := (map_to_list m).*1.

Definition date_order (groups : gmap Z (gmap string (Snapshot F))) : list Z := sort_by id ((map_to_list groups).*1).

(** [connDays]: the dates of one connection, in order. *)
Definition conn_days (groups : gmap Z (gmap string (Snapshot F))) (dates : list Z) (ex : string) : list Z :=
  filter (λ d, is_Some (groups !! d ≫= λ g, g !! ex)) dates.

(** ** One day *)

Record series := mkSeries {
  se_known : gmap string F;
  se_lastSeen : gmap string Z;
  se_cumulative : F;
  se_nav : F;
}.

Record day_sums := mkSums {
  ds_current : F;
  ds_close : F;
  ds_deposits : F;
  ds_withdrawals : F;
  ds_open : F;
  ds_known : gmap string F;
  ds_lastSeen : gmap string Z;
}.

Context (order : Z → nat → list string → list string).

(** [for ex, snap := range dg.exchanges { known[ex] = snap.TotalEquity }] *)
Definition absorb (d : Z) (g : gmap string (Snapshot F)) (st : series) : series :=
  mkSeries (foldl (λ m ex, match g !! ex with Some s => <[ex := sn_TotalEquity s]> m | None => m end)
              (se_known st) (keys g))
    (foldl (λ m ex, <[ex := d]> m) (se_lastSeen st) (keys g)) (se_cumulative st) (se_nav st).

(** A known connection on day [d]: measured, leaving, or carried forward. *)
Definition visit_known (d : Z) (g : gmap string (Snapshot F)) (silent : string → Z → Z) (a : day_sums) (ex : string) :
    day_sums :=
  let lastEq := default f0 (ds_known a !! ex) in
  match g !! ex with
  | Some s =>
      mkSums (fadd (ds_current a) (fadd (fsub (sn_TotalEquity s) (sn_Deposits s)) (sn_Withdrawals s)))
        (fadd (ds_close a) (sn_TotalEquity s)) (fadd (ds_deposits a) (fabs (sn_Deposits s)))
        (fadd (ds_withdrawals a) (fabs (sn_Withdrawals s)))
        (if withdrawalsAtOpen (sn_Exchange s) then fadd (ds_open a) (fabs (sn_Withdrawals s)) else ds_open a)
        (<[ex := sn_TotalEquity s]> (ds_known a)) (<[ex := d]> (ds_lastSeen a))
  | None =>
      if staleConnectionDays <? silent ex (default 0 (ds_lastSeen a !! ex)) then
        mkSums (fadd (ds_current a) lastEq) (ds_close a) (ds_deposits a) (fadd (ds_withdrawals a) lastEq) (ds_open a)
          (delete ex (ds_known a)) (ds_lastSeen a)
      else
        mkSums (fadd (ds_current a) lastEq) (fadd (ds_close a) lastEq) (ds_deposits a) (ds_withdrawals a) (ds_open a)
          (ds_known a) (ds_lastSeen a)
  end.

(** A connection that appears: the virtual deposits, and the sums. *)
Definition visit_new (d : Z) (g : gmap string (Snapshot F)) (p : F * day_sums) (ex : string) : F * day_sums :=
  let '(virtual, a) := p in
  match g !! ex, ds_known a !! ex with
  | Some s, None =>
      (fadd virtual (sn_TotalEquity s),
       mkSums (ds_current a) (fadd (ds_close a) (sn_TotalEquity s)) (ds_deposits a) (ds_withdrawals a) (ds_open a)
         (<[ex := sn_TotalEquity s]> (ds_known a)) (<[ex := d]> (ds_lastSeen a)))
  | _, _ => p
  end.

(** The scoring rules. *)
Definition score (totalPrev virtual : F) (a : day_sums) : F :=
  let adjustedPrev := fadd totalPrev virtual in
  let netFlow := fsub (ds_deposits a) (ds_withdrawals a) in
  let base := fsub (fadd adjustedPrev (ds_deposits a)) (ds_open a) in
  if fltb f0 netFlow && fleb (ds_close a) netFlow then f0
  else if fleb minTWRBaseUSD adjustedPrev && fleb minTWRBaseUSD base
          && fleb (fadd (ds_deposits a) (ds_withdrawals a)) (fmul flowDominanceRatio adjustedPrev)
  then fdiv (fsub (fadd (ds_current a) virtual) adjustedPrev) base
  else f0.

Definition known_total (d : Z) (known : gmap string F) : F :=
  foldl (λ acc ex, fadd acc (default f0 (known !! ex))) f0 (order d 0 (keys known)).

(** The sums of a day, and its virtual deposits. *)
Definition day_pass (d : Z) (g : gmap string (Snapshot F)) (silent : string → Z → Z) (st : series) : F * day_sums :=
  let a := foldl (visit_known d g silent) (mkSums f0 f0 f0 f0 f0 (se_known st) (se_lastSeen st))
             (order d 1 (keys (se_known st))) in
  foldl (visit_new d g) (f0, a) (order d 2 (keys g)).

Definition day_step (d : Z) (g : gmap string (Snapshot F)) (silent : string → Z → Z) (st : series) :
    series * option dailyReturn :=
  let totalPrev := known_total d (se_known st) in
  if feqb totalPrev f0 then (absorb d g st, None)
  else
    let '(virtual, a) := day_pass d g silent st in
    let r := score totalPrev virtual a in
    let cumulative := fsub (fmul (fadd f1 (se_cumulative st)) (fadd f1 r)) f1 in
    let nav := fmul (se_nav st) (fadd f1 r) in
    (mkSeries (ds_known a) (ds_lastSeen a) cumulative nav, Some (mkDaily d r f0 r cumulative nav)).

(** ** The series *)

Fixpoint days_from (step : Z → series → series * option dailyReturn) (dates : list Z) (st : series) : list dailyReturn :=
  match dates with
  | [] => []
  | d :: dates =>
      let '(st', r) := step d st in
      option_list r ++ days_from step dates st'
  end.

Definition empty_series : series := mkSeries ∅ ∅ f0 f1.

Definition convertSnapshotsToDailyReturns (snapshots : list (Snapshot F)) : list dailyReturn :=
  let groups := group_days snapshots in
  let dates := date_order groups in
  let group d := default ∅ (groups !! d) in
  match dates, last dates with
  | d0 :: d1 :: rest, Some seriesEnd =>
      let silent d ex lastSeen := silentDays lastSeen d (conn_days groups dates ex) seriesEnd in
      days_from (λ d st, day_step d (group d) (silent d) st) (d1 :: rest) (absorb d0 (group d0) empty_series)
  | _, _ => []
  end.

(** ** Months *)

(** [date[:7]]: year and month. *)
Definition month_of (d : Z) : Z * Z := let '(y, m, _) := civil d in (y, m).

(** The months of a series, in order, and the last return of each. *)
Definition months (daily : list (dailyReturn)) : list (Z * Z) :=
  sort_by (λ '(y, m), 12 * y + m) (remove_dups ((λ r, month_of (dr_date r)) <$> daily)).

Definition month_ends (daily : list dailyReturn) : list dailyReturn :=
  omap (λ m, last (filter (λ r, month_of (dr_date r) = m) daily)) (months daily).

Definition monthly_return (prev e : F) : F :=
  if feqb prev f0 && feqb e f0 then f0 else fsub (fdiv (fadd f1 e) (fadd f1 prev)) f1.

Fixpoint monthly_from (prev : F) (ends : list dailyReturn) : list monthlyReturn :=
  match ends with
  | [] => []
  | r :: ends =>
      let ret := monthly_return prev (dr_cumulativeReturn r) in
      mkMonthly (month_of (dr_date r)) ret f0 ret (dr_nav r) :: monthly_from (dr_cumulativeReturn r) ends
  end.

Definition aggregateToMonthlyReturns (daily : list dailyReturn) : list monthlyReturn :=
  monthly_from f0 (month_ends daily).

End returns.
Arguments dailyReturn F : clear implicits.
Arguments monthlyReturn F : clear implicits.
Arguments series F : clear implicits.

(** ** A total loss, at float64 *)

(** An equity reading of one account on day [d]. *)
Definition sample_row {F} `{Num F} (d equity : Z) : Snapshot F :=
  mkSnapshot "" "u" "kraken" "" (d * Day) (fofZ equity) (fofZ equity) f0 f0 f0 0 f0 f0 None false false.

(** An account at 100 that is empty on 31 January, funded with 50 on 1 February
    and seen again the day after. *)
Definition wiped_out : list (Snapshot float64) := [sample_row 29 100; sample_row 30 0; sample_row 31 50; sample_row 32 50].

(** January reads -100%, and February is 0/0. *)
Lemma month_after_total_loss_nan :
  (λ m : monthlyReturn float64, (mr_date m, feqb (mr_netReturn m) (fofZ (-1)), fis_nan (mr_netReturn m))) <$>
    aggregateToMonthlyReturns (convertSnapshotsToDailyReturns (λ _ _ l, l) wiped_out)
  = [((1970, 1), true, false); ((1970, 2), false, true)].
Proof. vm_compute. reflexivity. Qed.

End Returns.
