(* ===== verification/ReturnsExact.v ===== *)
(** * The returns of a report, in exact arithmetic

    The formulas of [Returns] at the real numbers: what a report states, the
    rounding of float64 aside. *)

From S2P Require Import Prelude Num GoTime Types NumReal Returns.
From stdpp Require Import base gmap strings tactics sorting list.
From Stdlib Require Import ZArith Reals Lra Lia.
Import Returns.

Module ReturnsExact.
Local Open Scope R_scope.

(** ** Compounding *)

Definition prodR (l : list R) : R := foldr Rmult 1 l.

Definition factors (l : list (dailyReturn R)) : list R := (λ r, 1 + dr_netReturn r) <$> l.

Lemma prodR_app l1 l2 : prodR (l1 ++ l2) = prodR l1 * prodR l2.
Proof.
  induction l1 as [|x l1 IH]; [symmetry; apply Rmult_1_l|].
  change (x * prodR (l1 ++ l2) = x * prodR l1 * prodR l2). rewrite IH. lra.
Qed.

Lemma prodR_cons x l : prodR (x :: l) = x * prodR l.
Proof. done. Qed.

(** Every return of the series compounds the ones before it. *)
Definition compounds (start : R) (l : list (dailyReturn R)) : Prop :=
  ∀ i r, l !! i = Some r →
    dr_nav r = start * prodR (factors (take (S i) l)) ∧ dr_cumulativeReturn r = dr_nav r - 1.

Lemma day_step_compounds order d g silent st st' o :
  day_step (F := R) order d g silent st = (st', o) → se_cumulative st = se_nav st - 1 →
  se_cumulative st' = se_nav st' - 1 ∧
  match o with
  | None => se_nav st' = se_nav st
  | Some r => dr_nav r = se_nav st * (1 + dr_netReturn r) ∧ se_nav st' = dr_nav r ∧ dr_cumulativeReturn r = dr_nav r - 1
  end.
Proof.
  unfold day_step. cbn zeta. destruct (feqb _ _); [by intros [= <- <-]|].
  destruct (day_pass _ _ _ _ _) as [virtual a]. intros [= <- <-] Hc. cbn -[score]. rewrite Hc. cbn -[score]. lra.
Qed.

Lemma days_from_compounds step dates st :
  (∀ d st st' o, step d st = (st', o) → se_cumulative st = se_nav st - 1 →
     se_cumulative st' = se_nav st' - 1 ∧
     match o with
     | None => se_nav st' = se_nav st
     | Some r => dr_nav r = se_nav st * (1 + dr_netReturn r) ∧ se_nav st' = dr_nav r ∧ dr_cumulativeReturn r = dr_nav r - 1
     end) →
  se_cumulative st = se_nav st - 1 → compounds (se_nav st) (days_from (F := R) step dates st).
Proof.
  intros Hstep. revert st. induction dates as [|d dates IH]; intros st Hc; cbn [days_from]; [done|].
  destruct (step d st) as [st' o] eqn:E. destruct (Hstep _ _ _ _ E Hc) as [Hc' Ho]. specialize (IH st' Hc').
  destruct o as [r|]; cbn [option_list app].
  - destruct Ho as (Hn & Hn' & Hcr). intros [|i] x Hx; cbn in Hx.
    + injection Hx as <-. cbn. rewrite take_0. cbn. split; [rewrite Hn; lra|done].
    + destruct (IH i x Hx) as [H1 H2]. split; [|done]. rewrite H1, Hn', Hn.
      set (rest := days_from step dates st').
      assert (∀ n, prodR (factors (take (S n) (r :: rest))) = (1 + dr_netReturn r) * prodR (factors (take n rest))) as Hp by done.
      rewrite Hp. lra.
  - by rewrite <- Ho.
Qed.

(** ** Months *)

Definition month_factors (l : list (monthlyReturn R)) : list R := (λ m, 1 + mr_netReturn m) <$> l.

Lemma monthly_return_factor prev e : 1 + prev ≠ 0 → (1 + monthly_return (F := R) prev e) * (1 + prev) = 1 + e.
Proof.
  intros Hp. unfold monthly_return. destruct (feqb prev f0 && feqb e f0) eqn:E.
  - apply andb_true_iff in E as [->%R_eqb ->%R_eqb]. cbn. lra.
  - cbn. field. exact Hp.
Qed.

Lemma monthly_from_compounds prev ends :
  1 + prev ≠ 0 → Forall (λ r, 1 + dr_cumulativeReturn r ≠ 0) ends →
  prodR (month_factors (monthly_from (F := R) prev ends)) * (1 + prev)
  = 1 + default prev (dr_cumulativeReturn <$> last ends).
Proof.
  intros Hp H. revert prev Hp. induction H as [|r ends Hr _ IH]; intros prev Hp; [cbn; lra|].
  cbn [monthly_from]. cbn zeta.
  assert (∀ m l, month_factors (m :: l) = (1 + mr_netReturn m) :: month_factors l) as Hf by done.
  rewrite Hf, prodR_cons. cbn [mr_netReturn].
  replace (_ * _ * _) with (prodR (month_factors (monthly_from (dr_cumulativeReturn r) ends))
    * ((1 + monthly_return prev (dr_cumulativeReturn r)) * (1 + prev))) by lra.
  rewrite monthly_return_factor by done. rewrite IH by done. rewrite last_cons. by destruct (last ends).
Qed.

(** ** Dates *)

Lemma date_order_sorted groups : StronglySorted Z.lt (date_order (F := R) groups).
Proof.
  unfold date_order. assert (NoDup (sort_by Datatypes.id (map_to_list groups).*1)) as Hnd.
  { rewrite sort_by_perm. apply NoDup_fst_map_to_list. }
  pose proof (sort_by_sorted Datatypes.id (map_to_list groups).*1) as Hs.
  induction Hs as [|x l _ IH Hx]; [constructor|]. apply NoDup_cons in Hnd as [Hn Hnd].
  constructor; [by apply IH|]. rewrite Forall_forall in Hx |- *. intros y Hy. specialize (Hx y Hy).
  unfold key_le, Datatypes.id in Hx. assert (x ≠ y) by congruence. lia.
Qed.

Lemma day_step_date order d g silent st st' r :
  day_step (F := R) order d g silent st = (st', Some r) → dr_date r = d.
Proof.
  unfold day_step. cbn zeta. destruct (feqb _ _); [done|]. destruct (day_pass _ _ _ _ _). by intros [= <- <-].
Qed.

Lemma days_from_dates step dates st :
  (∀ d st st' r, step d st = (st', Some r) → dr_date r = d) → StronglySorted Z.lt dates →
  StronglySorted Z.lt (dr_date <$> days_from (F := R) step dates st) ∧
  (∀ r, r ∈ days_from (F := R) step dates st → dr_date r ∈ dates).
Proof.
  intros Hstep Hs. revert st. induction Hs as [|d dates _ IH Hd]; intros st; cbn [days_from].
  { split; [constructor|]. by intros r ?%not_elem_of_nil. }
  destruct (step d st) as [st' o] eqn:E. destruct (IH st') as [IH1 IH2]. unfold option_list.
  destruct o as [r|]; cbn [option_rect app].
  - rewrite fmap_cons. rewrite (Hstep _ _ _ _ E). split.
    + constructor; [done|]. rewrite Forall_forall in Hd |- *. intros x (r' & -> & Hr')%list_elem_of_fmap. auto.
    + intros r' [->|Hr']%elem_of_cons; [|right; auto]. rewrite (Hstep _ _ _ _ E). by left.
  - split; [done|]. intros r' Hr'. right. auto.
Qed.

Lemma convert_dates order snapshots :
  StronglySorted Z.lt (dr_date <$> convertSnapshotsToDailyReturns (F := R) order snapshots).
Proof.
  unfold convertSnapshotsToDailyReturns. pose proof (date_order_sorted (group_days snapshots)) as Hs. cbn zeta.
  destruct (date_order _) as [|d0 [|d1 rest]]; [constructor..|]. destruct (last _); [|constructor].
  apply days_from_dates; [intros ????; apply day_step_date|]. by inversion Hs.
Qed.

(** The last month ends on the last day. *)
Lemma month_of_key d d' : month_of d = month_of d' ↔
  (λ '(y, m), 12 * y + m)%Z (month_of d) = (λ '(y, m), 12 * y + m)%Z (month_of d').
Proof.
  unfold month_of. destruct (civil d) as [[y m] k] eqn:E, (civil d') as [[y' m'] k'] eqn:E'.
  apply civil_spec in E as (? & _ & _), E' as (? & _ & _). split; [by intros [= -> ->]|]. intros. f_equal; lia.
Qed.

Lemma month_of_mono d d' : (d <= d')%Z →
  ((λ '(y, m), 12 * y + m) (month_of d) <= (λ '(y, m), 12 * y + m) (month_of d'))%Z.
Proof.
  unfold month_of. destruct (civil d) as [[y m] k] eqn:E, (civil d') as [[y' m'] k'] eqn:E'. 
  by eapply civil_month_mono.
Qed.

Lemma sorted_snoc_le l (r : dailyReturn R) x :
  StronglySorted Z.lt (dr_date <$> (l ++ [r])) → x ∈ l ++ [r] → (dr_date x <= dr_date r)%Z.
Proof.
  intros Hs [Hx| ->%list_elem_of_singleton]%elem_of_app; [|lia]. apply Z.lt_le_incl. rewrite fmap_app in Hs.
  apply (StronglySorted_app_1_elem_of _ _ _ _ _ Hs); [by apply list_elem_of_fmap_2|by left].
Qed.

Lemma months_last l r :
  StronglySorted Z.lt (dr_date <$> (l ++ [r])) → last (months (F := R) (l ++ [r])) = Some (month_of (dr_date r)).
Proof.
  intros Hs. unfold months. set (key := λ '(y, m), (12 * y + m)%Z).
  set (ms := remove_dups _). pose proof (sort_by_sorted key ms) as Hsort.
  assert (month_of (dr_date r) ∈ sort_by key ms) as Hin.
  { rewrite sort_by_elem. subst ms. apply elem_of_remove_dups, list_elem_of_fmap. exists r. split; [done|].
    apply elem_of_app. right. by left. }
  destruct (last (sort_by key ms)) as [z|] eqn:E; [|apply last_None in E; rewrite E in Hin; by apply not_elem_of_nil in Hin].
  apply last_Some in E as [l' E]. rewrite E in Hsort, Hin. f_equal.
  assert (z ∈ ms) as (x & -> & Hx)%elem_of_remove_dups%list_elem_of_fmap.
  { rewrite <- (sort_by_elem key), E. apply elem_of_app. right. by left. }
  apply month_of_key. apply Z.le_antisymm; [by apply month_of_mono, (sorted_snoc_le l)|].
  apply elem_of_app in Hin as [Hin| ->%list_elem_of_singleton]; [|done].
  by apply (StronglySorted_app_1_elem_of _ _ _ _ _ Hsort Hin); left.
Qed.

Lemma month_ends_last l r :
  StronglySorted Z.lt (dr_date <$> (l ++ [r])) → last (month_ends (F := R) (l ++ [r])) = Some r.
Proof.
  intros Hs. unfold month_ends. apply months_last in Hs. apply last_Some in Hs as [ms ->].
  assert (last (filter (λ x, month_of (dr_date x) = month_of (dr_date r)) (l ++ [r])) = Some r) as Hf.
  { rewrite filter_app, filter_cons_True, filter_nil by done. apply last_snoc. }
  rewrite omap_app. unfold omap at 2. cbn [list_omap]. rewrite Hf. apply last_snoc.
Qed.

Lemma month_ends_elem l r : r ∈ month_ends (F := R) l → r ∈ l.
Proof.
  unfold month_ends. intros (m & _ & Hr)%list_elem_of_omap. apply last_Some_elem_of in Hr.
  by apply list_elem_of_filter in Hr as [_ ?].
Qed.

Lemma prodR_nonzero l : Forall (λ x, x ≠ 0) l → prodR l ≠ 0.
Proof. unfold prodR. induction 1; cbn [foldr]; [lra|]. by apply Rmult_integral_contrapositive_currified. Qed.

(** No day lost everything. *)
Definition no_total_loss (l : list (dailyReturn R)) : Prop := Forall (λ r, 1 + dr_netReturn r ≠ 0) l.

Lemma compounds_nonzero l : compounds 1 l → no_total_loss l → Forall (λ r, 1 + dr_cumulativeReturn r ≠ 0) l.
Proof.
  intros Hc Hn. rewrite Forall_forall. intros r [i Hi]%list_elem_of_lookup. destruct (Hc i r Hi) as [Hnav Hcum].
  rewrite Hcum, Hnav. replace (1 + _) with (prodR (factors (take (S i) l))) by lra.
  apply prodR_nonzero. unfold factors. apply Forall_fmap. by apply Forall_take.
Qed.

Lemma compounds_last l r : compounds 1 (l ++ [r]) → 1 + dr_cumulativeReturn r = prodR (factors (l ++ [r])).
Proof.
  intros Hc. destruct (Hc (length l) r) as [Hnav ->]; [by apply list_lookup_middle|].
  rewrite Hnav, take_ge by (rewrite length_app; cbn; lia). lra.
Qed.

Lemma monthly_compounds l :
  compounds 1 l → StronglySorted Z.lt (dr_date <$> l) → no_total_loss l →
  prodR (month_factors (aggregateToMonthlyReturns (F := R) l)) = prodR (factors l).
Proof.
  intros Hc Hs Hn. pose proof (compounds_nonzero l Hc Hn) as Hnz.
  pose proof (monthly_from_compounds 0 (month_ends l)) as Hm. destruct l as [|r l _] using rev_ind; [done|].
  rewrite month_ends_last in Hm by done. rewrite <- compounds_last by done.
  unfold aggregateToMonthlyReturns. change (@f0 R num_R) with 0. rewrite <- Rmult_1_r at 1.
  replace 1 with (1 + 0) at 1 by lra. rewrite Hm; [done|lra|].
  rewrite Forall_forall in Hnz |- *. intros x Hx. by apply Hnz, month_ends_elem.
Qed.

Lemma convert_compounds order snapshots : compounds 1 (convertSnapshotsToDailyReturns (F := R) order snapshots).
Proof.
  unfold convertSnapshotsToDailyReturns. cbn zeta. destruct (date_order _) as [|d0 [|d1 rest]]; [done..|].
  destruct (last _); [|done].
  match goal with |- compounds 1 (days_from _ _ ?st) => change 1 with (se_nav st) end.
  apply days_from_compounds; [|cbn; lra]. intros *. apply day_step_compounds.
Qed.

(** C27: in exact (real) arithmetic, the formulas of the return series of a
    report compound, whatever the snapshots and the iteration orders: the days
    come in strictly increasing order, the NAV of each day is the product of
    the growth factors up to it, the cumulative return is that NAV less one,
    and as long as no day lost everything the monthly returns compound to the
    same growth as the daily ones.  The code computes these formulas in
    float64, each operation rounded; the rounding is not bounded here. *)
Theorem returns_compound order snapshots :
  let daily := convertSnapshotsToDailyReturns (F := R) order snapshots in
  StronglySorted Z.lt (dr_date <$> daily) ∧ compounds 1 daily ∧
  (no_total_loss daily → prodR (month_factors (aggregateToMonthlyReturns daily)) = prodR (factors daily)).
Proof.
  cbn zeta. pose proof (convert_compounds order snapshots) as Hc. pose proof (convert_dates order snapshots) as Hs.
  split_and!; [done..|]. by apply monthly_compounds.
Qed.

(** An account at 100 on the first day and 110 on the next. *)
Definition one_gain : list (Snapshot R) := [sample_row 29 100; sample_row 30 110].

Lemma one_gain_daily :
  ∃ r, convertSnapshotsToDailyReturns (F := R) (λ _ _ l, l) one_gain = [r] ∧ dr_netReturn r = 1 / 10.
Proof.
  unfold convertSnapshotsToDailyReturns. cbn zeta.
  replace (date_order (group_days one_gain)) with [29; 30]%Z by (vm_compute; reflexivity). cbn [last].
  replace (default ∅ (group_days one_gain !! 29%Z)) with ({["kraken" := sample_row (F := R) 29 100]} : gmap string (Snapshot R)) by (vm_compute; reflexivity).
  cbn [days_from].
  replace (default ∅ (group_days one_gain !! 30%Z)) with ({["kraken" := sample_row (F := R) 30 110]} : gmap string (Snapshot R)) by (vm_compute; reflexivity).
  replace (absorb 29 {["kraken" := sample_row 29 100]} empty_series) with (mkSeries ({["kraken" := 100]} : gmap string R) {["kraken" := 29%Z]} 0 1)
    by (vm_compute; reflexivity).
  unfold day_step. cbn zeta.
  assert (known_total (F := R) (λ _ _ l, l) 30 {["kraken" := 100]} = 100) as Ht.
  { unfold known_total. replace (keys _) with ["kraken"] by (vm_compute; reflexivity). cbn [foldl]. rewrite lookup_singleton_eq. cbn. lra. }
  cbn [se_known]. rewrite Ht. replace (feqb 100 f0) with false by (symmetry; apply R_eqb_false; cbn; lra).
  unfold day_pass. cbn [se_known se_lastSeen]. replace (keys {["kraken" := 100]}) with ["kraken"] by (vm_compute; reflexivity).
  replace (keys {["kraken" := sample_row (F := R) 30 110]}) with ["kraken"] by (vm_compute; reflexivity). cbn [foldl].
  unfold visit_known. cbn [ds_known]. rewrite !lookup_singleton_eq. unfold visit_new. cbn [ds_known].
  rewrite lookup_singleton_eq, lookup_insert_eq. cbn [option_list app]. eexists. split; [reflexivity|]. cbn [dr_netReturn].
  unfold score. cbn [ds_deposits ds_withdrawals ds_open ds_close ds_current].
  unfold minTWRBaseUSD, flowDominanceRatio, sample_row. cbn -[fltb fleb].
  rewrite (proj2 (R_ltb_false _ _)) by (cbn; lra). cbn [andb].
  rewrite Rabs_R0, !(proj2 (R_leb _ _)) by (cbn; lra). cbn [andb]. lra.
Qed.

Lemma returns_compound_witness :
  ∃ r, convertSnapshotsToDailyReturns (F := R) (λ _ _ l, l) one_gain = [r] ∧ dr_nav r = 11 / 10 ∧ dr_cumulativeReturn r = 1 / 10 ∧
    prodR (month_factors (aggregateToMonthlyReturns [r])) = 11 / 10.
Proof.
  destruct one_gain_daily as (r & E & Hr). exists r. split; [exact E|].
  destruct (returns_compound (λ _ _ l, l) one_gain) as (_ & Hc & Hm). rewrite E in Hc, Hm.
  destruct (Hc 0%nat r eq_refl) as [Hn Hcum]. cbn in Hn. rewrite Hr in Hn. split; [rewrite Hn; lra|].
  split; [rewrite Hcum, Hn; lra|].
  rewrite Hm; [cbn; rewrite Hr; lra|]. apply Forall_singleton. rewrite Hr. lra.
Defined.

(** ** Orders *)

Lemma foldl_perm {A B} (f : A → B → A) l1 l2 a :
  (∀ a x y, x ≠ y → f (f a x) y = f (f a y) x) → l1 ≡ₚ l2 → NoDup l1 → foldl f a l1 = foldl f a l2.
Proof.
  intros Hf Hp. revert a. induction Hp as [|x l1 l2 _ IH|x y l|l1 l2 l3 H12 IH12 _ IH23]; intros a Hnd; cbn [foldl].
  - done.
  - apply NoDup_cons in Hnd as [_ Hnd]. by apply IH.
  - apply NoDup_cons in Hnd as [Hx _]. rewrite Hf; [done|]. intros ->. apply Hx. by left.
  - rewrite IH12, IH23; [done| |done]. by rewrite <- H12.
Qed.

(** Two of the day's map updates at different keys commute. *)
Ltac swap_sums :=
  cbn [ds_known ds_lastSeen ds_current ds_close ds_deposits ds_withdrawals ds_open];
  f_equal; first [done | cbn [fadd num_R]; lra | by apply insert_insert_ne | by apply delete_delete
                 | by apply delete_insert_ne | by symmetry; apply delete_insert_ne].

Lemma visit_known_comm d g silent a x y :
  x ≠ y →
  visit_known (F := R) d g silent (visit_known d g silent a x) y = visit_known d g silent (visit_known d g silent a y) x.
Proof.
  intros Hne. destruct a as [cur cl dep wd op known seen]. unfold visit_known. cbn zeta.
  destruct (g !! x) as [sx|] eqn:Ex, (g !! y) as [sy|] eqn:Ey; cbn [ds_known ds_lastSeen].
  - destruct (withdrawalsAtOpen _), (withdrawalsAtOpen _); swap_sums.
  - rewrite !lookup_insert_ne by done. destruct (_ <? _)%Z; swap_sums.
  - rewrite !lookup_insert_ne by done. destruct (_ <? _)%Z; swap_sums.
  - destruct (staleConnectionDays <? silent x _)%Z eqn:Sx, (staleConnectionDays <? silent y _)%Z eqn:Sy;
      cbn [ds_known ds_lastSeen]; rewrite ?Sx, ?Sy, ?lookup_delete_ne by done; swap_sums.
Qed.

Lemma visit_new_comm d g p x y :
  x ≠ y → visit_new (F := R) d g (visit_new d g p x) y = visit_new d g (visit_new d g p y) x.
Proof.
  intros Hne. destruct p as [v [cur cl dep wd op known seen]]. unfold visit_new. cbn [ds_known].
  destruct (g !! x) as [sx|] eqn:Ex, (g !! y) as [sy|] eqn:Ey, (known !! x) as [kx|] eqn:Kx, (known !! y) as [ky|] eqn:Ky;
    cbn [ds_known]; rewrite ?lookup_insert_ne, ?Kx, ?Ky by done; try done.
  f_equal; [cbn; lra|swap_sums].
Qed.

Lemma NoDup_keys {A} (m : gmap string A) : NoDup (keys m).
Proof. apply NoDup_fst_map_to_list. Qed.

(** Go promises an order of the keys, and nothing else. *)
Definition iterates (order : Z → nat → list string → list string) : Prop := ∀ d site l, order d site l ≡ₚ l.

Lemma foldl_order {A B} order d site (m : gmap string B) (f : A → string → A) a :
  iterates order → (∀ a x y, x ≠ y → f (f a x) y = f (f a y) x) →
  foldl f a (order d site (keys m)) = foldl f a (keys m).
Proof. intros Ho Hf. symmetry. apply foldl_perm; [done| |apply NoDup_keys]. symmetry. apply Ho. Qed.

Lemma day_step_order order d g silent st :
  iterates order → day_step (F := R) order d g silent st = day_step (λ _ _ l, l) d g silent st.
Proof.
  intros Ho. unfold day_step, day_pass, known_total.
  rewrite !(foldl_order order) by (done || auto using visit_known_comm, visit_new_comm || (intros; cbn; lra)). done.
Qed.

Lemma days_from_ext step1 step2 dates st :
  (∀ d st, step1 d st = step2 d st) → days_from (F := R) step1 dates st = days_from step2 dates st.
Proof.
  intros H. revert st. induction dates as [|d dates IH]; intros st; cbn [days_from]; [done|].
  rewrite H. destruct (step2 d st) as [st' o]. by rewrite IH.
Qed.

Lemma convert_order order snapshots :
  iterates order →
  convertSnapshotsToDailyReturns (F := R) order snapshots = convertSnapshotsToDailyReturns (λ _ _ l, l) snapshots.
Proof.
  intros Ho. unfold convertSnapshotsToDailyReturns. destruct (date_order _) as [|d0 [|d1 rest]]; [done..|].
  destruct (last _); [|done]. apply days_from_ext. intros. by apply day_step_order.
Qed.

(** In exact arithmetic the daily returns of a report do not depend on the order in which Go iterates over the
    connection maps, whichever orders the loops of convertSnapshotsToDailyReturns take on each day. *)
Theorem returns_order_irrelevant order1 order2 snapshots :
  iterates order1 → iterates order2 →
  convertSnapshotsToDailyReturns (F := R) order1 snapshots = convertSnapshotsToDailyReturns order2 snapshots.
Proof. intros H1 H2. by rewrite (convert_order order1), (convert_order order2). Qed.

Lemma iterates_id : iterates (λ _ _ l, l).
Proof. intros d site l. reflexivity. Qed.

Lemma iterates_rev : iterates (λ _ _ l, reverse l).
Proof. intros d site l. apply reverse_Permutation. Qed.

Definition two_accounts (d e1 e2 : Z) : list (Snapshot R) :=
  [sample_row d e1; mkSnapshot "" "u" "binance" "main" (d * Day)%Z (IZR e2) (IZR e2) 0 0 0 0 0 0 None false false].

Lemma returns_order_irrelevant_witness :
  convertSnapshotsToDailyReturns (F := R) (λ _ _ l, l) (two_accounts 29 100 50 ++ two_accounts 30 110 40)
  = convertSnapshotsToDailyReturns (λ _ _ l, reverse l) (two_accounts 29 100 50 ++ two_accounts 30 110 40).
Proof. exact (returns_order_irrelevant _ _ _ iterates_id iterates_rev). Defined.

(** ** A day without gain *)

(** Nothing but the flows moved a known connection's equity. *)
Definition no_gain (g : gmap string (Snapshot R)) (known : gmap string R) : Prop :=
  ∀ ex s e, g !! ex = Some s → known !! ex = Some e → sn_TotalEquity s = e + sn_Deposits s - sn_Withdrawals s.

Lemma visit_known_ne d g silent a x y :
  x ≠ y → ds_known (visit_known (F := R) d g silent a x) !! y = ds_known a !! y.
Proof.
  intros Hne. unfold visit_known. cbn zeta.
  destruct (g !! x); [|destruct (_ <? _)%Z]; cbn [ds_known]; by rewrite ?lookup_insert_ne, ?lookup_delete_ne.
Qed.

Lemma visit_known_current d g silent known a x e :
  no_gain g known → ds_known a !! x = Some e → known !! x = Some e →
  ds_current (visit_known (F := R) d g silent a x) = ds_current a + e.
Proof.
  intros Hg Hx He. unfold visit_known. cbn zeta. rewrite Hx.
  destruct (g !! x) as [s|] eqn:E; [|by destruct (_ <? _)%Z]. cbn [ds_current]. specialize (Hg x s e E He).
  cbn [fadd fsub num_R]. lra.
Qed.

Lemma known_current d g silent (known : gmap string R) a l :
  no_gain g known → NoDup l → (∀ ex, ex ∈ l → ds_known a !! ex = known !! ex ∧ is_Some (known !! ex)) →
  ds_current (foldl (visit_known (F := R) d g silent) a l)
  = ds_current a + sumR ((λ ex, default 0 (known !! ex)) <$> l).
Proof.
  intros Hg Hnd. revert a. induction Hnd as [|x l Hx _ IH]; intros a Hk; [cbn; lra|].
  cbn [foldl]. destruct (Hk x) as [Hax [e He]]; [by left|].
  rewrite IH.
  - rewrite (visit_known_current d g silent known a x e) by first [done|congruence]. 
    rewrite sumR_cons, He. unfold default, Datatypes.id. lra.
  - intros ex Hex. rewrite visit_known_ne by (intros ->; done). apply Hk. by right.
Qed.

Lemma visit_new_current d g p ex : ds_current (visit_new (F := R) d g p ex).2 = ds_current p.2.
Proof. destruct p as [v a]. unfold visit_new. destruct (g !! ex), (ds_known a !! ex); done. Qed.

Lemma new_current d g p l : ds_current (foldl (visit_new (F := R) d g) p l).2 = ds_current p.2.
Proof. revert p. induction l as [|x l IH]; intros p; cbn [foldl]; [done|]. by rewrite IH, visit_new_current. Qed.

Lemma score_neutral totalPrev virtual a : ds_current a = totalPrev → score (F := R) totalPrev virtual a = 0.
Proof.
  intros H. unfold score. cbn zeta. destruct (_ && _); [done|]. destruct (_ && _); [|done].
  rewrite H. cbn. unfold Rdiv. replace (_ + _ - _) with 0 by lra. lra.
Qed.

Lemma day_pass_current order d g silent st :
  iterates order → no_gain g (se_known st) →
  ds_current (day_pass (F := R) order d g silent st).2 = known_total order d (se_known st).
Proof.
  intros Ho Hg. unfold day_pass, known_total. rewrite new_current. cbn [snd].
  rewrite (known_current d g silent (se_known st)); [|done| |].
  - cbn [ds_current]. change (@f0 R num_R) with 0. change (@fadd R num_R) with Rplus. rewrite foldl_sum.
    f_equal. apply sumR_perm. apply fmap_Permutation. etrans; [apply Ho|symmetry; apply Ho].
  - unfold iterates in Ho. rewrite Ho. apply NoDup_keys.
  - intros ex. unfold iterates in Ho. rewrite Ho. intros (p & -> & Hp)%list_elem_of_fmap. split; [done|].
    apply elem_of_map_to_list' in Hp. by eexists.
Qed.

(** C26: in exact (real) arithmetic, a day on which only external flows moved
    the known connections scores 0%, whatever joined that day, left as stale,
    or was carried forward, and in every iteration order: deposits,
    withdrawals, arrivals and departures are never performance.  The
    compounded return and the NAV stay as they were.  The code computes this
    in float64, where the rounding of equities that are not exact can leave a
    residue ([flow_day_rounds]). *)
Theorem flows_score_nothing order d g silent st st' r :
  iterates order → no_gain g (se_known st) → day_step (F := R) order d g silent st = (st', Some r) →
  dr_netReturn r = 0 ∧ dr_cumulativeReturn r = se_cumulative st ∧ dr_nav r = se_nav st.
Proof.
  intros Ho Hg. pose proof (day_pass_current order d g silent st Ho Hg) as Hc. unfold day_step. cbn zeta.
  destruct (feqb _ _); [done|]. destruct (day_pass order d g silent st) as [virtual a]. cbn [snd] in Hc.
  rewrite score_neutral by done. intros [= <- <-]. cbn. lra.
Qed.

(** Two accounts at 100 and 40: 50 come in on the first, the second is silent, a third appears with 30. *)
Definition flow_day : gmap string (Snapshot R) :=
  {[ "kraken" := mkSnapshot "" "u" "kraken" "" (30 * Day)%Z 150 150 0 50 0 0 0 0 None false false;
     "okx" := mkSnapshot "" "u" "okx" "" (30 * Day)%Z 30 30 0 0 0 0 0 0 None false false ]}.

Definition before_flow : series R := mkSeries {[ "kraken" := 100; "binance" := 40 ]} {[ "kraken" := 29%Z; "binance" := 29%Z ]} 0 1.

Lemma flow_day_no_gain : no_gain flow_day (se_known before_flow).
Proof.
  intros ex s e. unfold flow_day, before_flow. cbn [se_known]. intros Hs He.
  apply lookup_insert_Some in Hs as [[<- <-]|[_ Hs]].
  - rewrite lookup_insert_eq in He. injection He as <-. cbn. lra.
  - apply lookup_singleton_Some in Hs as [<- <-]. by rewrite lookup_insert_ne, lookup_singleton_ne in He.
Qed.

Lemma flow_day_scored :
  (day_step (F := R) (λ _ _ l, l) 30%Z flow_day (λ _ _, 1%Z) before_flow).2 ≠ None.
Proof.
  unfold day_step. cbn zeta. assert (feqb (known_total (λ _ _ l, l) 30%Z (se_known before_flow)) f0 = false) as ->.
  { apply R_eqb_false. unfold known_total.
    replace (keys (se_known before_flow)) with ["kraken"; "binance"] by (vm_compute; reflexivity). cbn [foldl].
    replace (se_known before_flow !! "kraken") with (Some 100) by done.
    replace (se_known before_flow !! "binance") with (Some 40) by done. cbn. lra. }
  by destruct (day_pass _ _ _ _ _).
Qed.

(** In float64: 143.02 in the account, 423.87 come in, 566.89 are found.  The
    return of the day is not zero, and below 10^-15. *)
Definition cents (n : Z) : float64 := fdiv (fofZ n) (fofZ 100).

Definition rounded_day : gmap string (Snapshot float64) :=
  {[ "kraken" := mkSnapshot "" "u" "kraken" "" (30 * Day)%Z (cents 56689) (cents 56689) f0 (cents 42387) f0 0 f0 f0 None false false ]}.

Lemma flow_day_rounds :
  (λ r, (feqb (dr_netReturn r) f0, fltb (fofZ (-1)) (fmul (dr_netReturn r) (fofZ (10 ^ 15))), fltb (fmul (dr_netReturn r) (fofZ (10 ^ 15))) f1)) <$>
    (day_step (F := float64) (λ _ _ l, l) 30%Z rounded_day (λ _ _, 1%Z)
       (mkSeries {[ "kraken" := cents 14302 ]} {[ "kraken" := 29%Z ]} f0 f1)).2
  = Some (false, true, true).
Proof. vm_compute. reflexivity. Qed.

Lemma flows_score_nothing_witness :
  ∃ st' r, day_step (F := R) (λ _ _ l, l) 30%Z flow_day (λ _ _, 1%Z) before_flow = (st', Some r) ∧
    dr_netReturn r = 0 ∧ dr_cumulativeReturn r = 0 ∧ dr_nav r = 1.
Proof.
  pose proof flow_day_scored as H.
  destruct (day_step (F := R) (λ _ _ l, l) 30%Z flow_day (λ _ _, 1%Z) before_flow) as [st' [r|]] eqn:E; [|done].
  exists st', r. split; [done|].
  exact (flows_score_nothing _ _ _ _ _ _ _ iterates_id flow_day_no_gain E).
Defined.

End ReturnsExact.
