(* ===== verification/Reflow.v ===== *)
(** * Re-deriving stored flows (internal/service/reflow.go)

    An operator re-reads a connection's cashflows and rewrites the deposits
    and withdrawals of its live rows from them, each row from its own
    window. *)

From S2P Require Import Prelude Num GoTime Types Store Breakdown Window Activity Fx.
From stdpp Require Import base gmap strings list sorting pretty.
From Stdlib Require Import ZArith Lia.
Local Open Scope Z_scope.

Module Reflow.
Import Window.

Definition maxReflowWindow : duration := 90 * 24 * Hour.

Definition checkReflowWindow (from to : time) : res unit :=
  if Before to from then Err "reflow: to precedes from"
  else if maxReflowWindow <? Sub to from
  then Err ("reflow: window longer than " +:+ pretty (Z.quot maxReflowWindow (24 * Hour)) +:+ " days")%string
  else Ok tt.

Section reflow.
Context {F : Type} {NF : Num F}.

Record ReflowDay := mkReflowDay {
  rd_Day : time;
  rd_OldDeposits : F;
  rd_OldWithdrawals : F;
  rd_NewDeposits : F;
  rd_NewWithdrawals : F;
  rd_Kept : string;
  rd_Written : bool;
}.

Definition changed (d : ReflowDay) : bool :=
  fltb (flit 1 9) (fabs (fsub (rd_NewDeposits d) (rd_OldDeposits d))) ||
  fltb (flit 1 9) (fabs (fsub (rd_NewWithdrawals d) (rd_OldWithdrawals d))).

(** The flows in [start, end). *)
Definition in_span (start end_ : time) (f : Cashflow F) : bool :=
  negb (Before (cf_Timestamp f) start || negb (Before (cf_Timestamp f) end_)).

Definition sumFlows (flows : list (Cashflow F)) (start end_ : time) : F * F :=
  foldl (λ acc f, if in_span start end_ f then Activity.add_flow acc f else acc) (f0, f0) flows.

Definition reflowWindowStart (rows : list (Snapshot F)) (i : nat) : time :=
  match rows !! i with
  | None => zero_time
  | Some r =>
      let day := sn_Timestamp r in
      let start := day - defaultActivityWindow in
      let start :=
        match i with
        | O => start
        | S j => match rows !! j with
                 | Some p => if Before (sn_Timestamp p) start then sn_Timestamp p else start
                 | None => start
                 end
        end in
      let floor := day - maxActivityLookback in
      if Before start floor then floor else start
  end.

(** The first row at or after [from] decides. *)
Fixpoint reflowSince_from (rows : list (Snapshot F)) (i : nat) (l : list (Snapshot F)) (from since : time) : time :=
  match l with
  | [] => since
  | r :: l' =>
      if Before (sn_Timestamp r) from then reflowSince_from rows (S i) l' from since
      else let ws := reflowWindowStart rows i in if Before ws since then ws else since
  end.

Definition reflowSince (rows : list (Snapshot F)) (from : time) : time :=
  reflowSince_from rows 0 rows from (from - defaultActivityWindow).

Definition kept_reason (r : Snapshot F) (earliest : time) : string :=
  if sn_FromExternalRebuilder r || sn_IsHistorical r then "reconstructed day"
  else if sn_Timestamp r =? earliest then "first snapshot, may carry the inception deposit"
  else "".

Definition reflowDay (rows : list (Snapshot F)) (i : nat) (r : Snapshot F) (earliest : time)
    (flows : list (Cashflow F)) : ReflowDay :=
  let kept := kept_reason r earliest in
  let '(dep, wd) :=
    if String.eqb kept "" then sumFlows flows (reflowWindowStart rows i) (sn_Timestamp r)
    else (sn_Deposits r, sn_Withdrawals r) in
  mkReflowDay (sn_Timestamp r) (sn_Deposits r) (sn_Withdrawals r) dep wd kept false.

(** The loop over the rows from place [i] on; [flt i] is the error the
    database gives to the i-th update, if any.  Returns the table, the days
    and the number of rows written, or the error with the days so far. *)
Fixpoint reflowDays_from (sch : Store.schema) (flt : nat → option string) (rows : list (Snapshot F))
    (from to earliest : time) (flows : list (Cashflow F)) (apply : bool) (i : nat) (l : list (Snapshot F))
    (t : list (Snapshot F)) : list (Snapshot F) * list ReflowDay * res Z :=
  match l with
  | [] => (t, [], Ok 0)
  | r :: l' =>
      let next := reflowDays_from sch flt rows from to earliest flows apply (S i) l' in
      if Before (sn_Timestamp r) from || After (sn_Timestamp r) to then next t
      else
        let d := reflowDay rows i r earliest flows in
        if apply && String.eqb (rd_Kept d) "" && changed d then
          let '(t', ok) :=
            match flt i with
            | Some e => (t, Err ("update snapshot flows: " +:+ e)%string)
            | None => Store.UpdateFlows sch t (sn_ID r) (sn_Deposits r) (sn_Withdrawals r)
                        (rd_NewDeposits d) (rd_NewWithdrawals d)
            end in
          match ok with
          | Err e => (t', [], Err e)
          | Ok ok =>
              let '(t'', out, n) := next t' in
              (t'',
               mkReflowDay (rd_Day d) (rd_OldDeposits d) (rd_OldWithdrawals d) (rd_NewDeposits d)
                 (rd_NewWithdrawals d) (rd_Kept d) ok :: out,
               n ← n; Ok (if ok then n + 1 else n))
          end
        else let '(t', out, n) := next t in (t', d :: out, n)
  end.

Definition reflowDays (sch : Store.schema) (flt : nat → option string) (rows : list (Snapshot F))
    (from to earliest : time) (flows : list (Cashflow F)) (apply : bool) (t : list (Snapshot F)) :
    list (Snapshot F) * list ReflowDay * res Z :=
  reflowDays_from sch flt rows from to earliest flows apply 0 rows t.

Definition reflowRows (repo : snapshot_repo F) (c : ExchangeConnection) (from to : time) :
    res (list (Snapshot F) * time) :=
  match query repo (λ sch t, Ok (Store.getByUserAndDateRange sch t (ec_UserUID c) (from - maxActivityLookback) to)) with
  | Err e => Err ("read snapshots: " +:+ e)%string
  | Ok all =>
      let rows := sort_by sn_Timestamp
        (filter (λ r, String.eqb (sn_Exchange r) (ec_Exchange c) && String.eqb (sn_Label r) (ec_Label c) = true) all) in
      match query repo (λ sch t, Store.GetEarliestTimestamp sch t (ec_UserUID c) (ec_Exchange c) (ec_Label c)) with
      | Err e => Err ("read earliest snapshot: " +:+ e)%string
      | Ok earliest => Ok (rows, earliest)
      end
  end.

(** The steps of [reflowSource]: the connection, its connector, and the
    currency of the balance it reads. *)
Definition reflowSource (lookup : res ExchangeConnection) (build : ExchangeConnection → res (Activity.connector F)) :
    res (ExchangeConnection * (time → res (option (list (Cashflow F)))) * string) :=
  match lookup with
  | Err e => Err ("look up connection: " +:+ e)%string
  | Ok c =>
      match build c with
      | Err e => Err e
      | Ok conn =>
          match Activity.cn_GetCashflows conn with
          | None => Err ("reflow: " +:+ ec_Exchange c +:+ " reports no cashflows")%string
          | Some get =>
              match Activity.cn_GetBalance conn 0 with
              | inr e => Err ("read balance: " +:+ Activity.err_text e)%string
              | inl balance => Ok (c, get, bal_Currency balance)
              end
          end
      end
  end.

Definition ReflowCashflows (lookup : res ExchangeConnection) (build : ExchangeConnection → res (Activity.connector F))
    (fx : option (Fx.fx_source F)) (flt : nat → option string) (repo : snapshot_repo F)
    (from to : time) (apply : bool) (now : time) : snapshot_repo F * list ReflowDay * res unit :=
  let from := truncDay from in let to := truncDay to in
  let prepared :=
    _ ← checkReflowWindow from to;
    '(c, get, currency) ← reflowSource lookup build;
    '(rows, earliest) ← reflowRows repo c from to;
    flows ← match get (reflowSince rows from) with
            | Ok flows => Ok (default [] flows)
            | Err e => Err ("read cashflows: " +:+ e)%string
            end;
    flows ← Fx.flowsInUSD fx c currency flows now;
    Ok (rows, earliest, flows) in
  match prepared with
  | Err e => (repo, [], Err e)
  | Ok (rows, earliest, flows) =>
      let '(t, out, n) := reflowDays (sp_schema repo) flt rows from to earliest flows apply (sp_table repo) in
      (mkSnapshotRepo (sp_schema repo) t (sp_fault repo), out,
       match n with Ok _ => Ok tt | Err e => Err e end)
  end.

(** ** Lemmas *)

(** The span of row [i]. *)
Definition span_of (rows : list (Snapshot F)) (i : nat) (r : Snapshot F) : Cashflow F → bool :=
  in_span (reflowWindowStart rows i) (sn_Timestamp r).

Lemma in_span_iff start end_ f : in_span start end_ f = true ↔ start ≤ cf_Timestamp f < end_.
Proof.
  unfold in_span, Before. destruct (cf_Timestamp f <? start) eqn:E1, (cf_Timestamp f <? end_) eqn:E2;
    cbn; go_bool; split; intros; (done || lia).
Qed.

Lemma sumFlows_filter flows start end_ :
  sumFlows flows start end_ = Activity.sum_flows (filter (λ f, in_span start end_ f = true) flows).
Proof.
  unfold sumFlows, Activity.sum_flows. generalize (f0 : F, f0 : F) as acc.
  induction flows as [|f flows IH]; intros acc; [done|]. rewrite filter_cons. cbn [foldl].
  case_decide as Hs; rewrite IH.
  - by rewrite Hs.
  - by destruct (in_span start end_ f).
Qed.

(** Rows at increasing midnights, no two more than 30 days apart. *)
Definition daily (rows : list (Snapshot F)) : Prop :=
  (∀ i r, rows !! i = Some r → is_midnight (sn_Timestamp r)) ∧
  (∀ i p r, rows !! i = Some p → rows !! S i = Some r →
     sn_Timestamp p < sn_Timestamp r ≤ sn_Timestamp p + maxActivityLookback).

Lemma window_start_prev rows i p r :
  daily rows → rows !! i = Some p → rows !! S i = Some r → reflowWindowStart rows (S i) = sn_Timestamp p.
Proof.
  intros [Hm Hg] Hp Hr. unfold reflowWindowStart. rewrite Hr, Hp. unfold Before.
  destruct (Hg _ _ _ Hp Hr) as [Hlt Hle].
  pose proof (midnight_lt _ _ (Hm _ _ Hp) (Hm _ _ Hr) Hlt) as Hday.
  change (24 * Hour) with Day in *.
  assert (defaultActivityWindow = Day) as Hd by done. rewrite Hd.
  assert (Day < maxActivityLookback) by (vm_compute; done).
  go_arith.
Qed.

Lemma daily_lt rows i j r s :
  daily rows → (i < j)%nat → rows !! i = Some r → rows !! j = Some s → sn_Timestamp r < sn_Timestamp s.
Proof.
  intros [Hm Hg] Hij Hr. revert s. induction Hij as [|j Hij IH]; intros s Hs.
  - by apply (Hg _ _ _ Hr Hs).
  - destruct (rows !! j) as [q|] eqn:Hq.
    + specialize (IH q eq_refl). destruct (Hg _ _ _ Hq Hs). lia.
    + apply lookup_ge_None in Hq. apply lookup_lt_Some in Hs. lia.
Qed.

(** The update of one row leaves everything but flows. *)
Definition same_but_flows (r r' : Snapshot F) : Prop := set_flows (sn_Deposits r) (sn_Withdrawals r) r' = r.

Lemma same_but_flows_refl r : same_but_flows r r.
Proof. by destruct r. Qed.

Lemma same_but_flows_trans r1 r2 r3 : same_but_flows r1 r2 → same_but_flows r2 r3 → same_but_flows r1 r3.
Proof. unfold same_but_flows, set_flows. intros <- <-. by destruct r3. Qed.

Lemma UpdateFlows_same sch t id od ow d w :
  Forall2 (λ r r', same_but_flows r r' ∧ (sn_ID r ≠ id → r' = r)) t (Store.UpdateFlows sch t id od ow d w).1.
Proof.
  unfold Store.UpdateFlows. destruct (negb _); cbn [fst].
  - apply Forall_Forall2_diag, Forall_true. intros r. split; [apply same_but_flows_refl|done].
  - apply Forall2_fmap_r, Forall_Forall2_diag, Forall_true. intros r.
    cbn [compose].
    destruct (String.eqb (sn_ID r) id) eqn:E; cbn [andb]; [|split; [apply same_but_flows_refl|done]].
    apply String.eqb_eq in E. split; [|done].
    case_match; [by destruct r|apply same_but_flows_refl].
Qed.

Lemma rd_Kept_reflowDay rows i r earliest flows : rd_Kept (reflowDay rows i r earliest flows) = kept_reason r earliest.
Proof. unfold reflowDay. by destruct (if String.eqb (kept_reason r earliest) "" then _ else _). Qed.

(** The rows of [l] a reflow may write: live, not the first day, in range. *)
Definition writable (from to earliest : time) (r : Snapshot F) : Prop :=
  from ≤ sn_Timestamp r ≤ to ∧ kept_reason r earliest = "".

Lemma reflowDays_frame sch flt rows from to earliest flows apply i l t :
  Forall2 (λ r r', same_but_flows r r' ∧
      ((∀ x, x ∈ l → writable from to earliest x → sn_ID x ≠ sn_ID r) → r' = r) ∧ (apply = false → r' = r))
    t (reflowDays_from sch flt rows from to earliest flows apply i l t).1.1.
Proof.
  assert (∀ t, Forall2 (λ r r' : Snapshot F, same_but_flows r r' ∧
    ((∀ x, x ∈ l → writable from to earliest x → sn_ID x ≠ sn_ID r) → r' = r) ∧ (apply = false → r' = r)) t t) as Hrefl.
  { intros t'. apply Forall_Forall2_diag, Forall_true. intros r. split; [apply same_but_flows_refl|done]. }
  revert i t Hrefl. induction l as [|x l IH]; intros i t Hrefl; cbn [reflowDays_from]; [apply Hrefl|].
  assert (∀ i t, Forall2 (λ r r', same_but_flows r r' ∧
      ((∀ y, y ∈ x :: l → writable from to earliest y → sn_ID y ≠ sn_ID r) → r' = r) ∧ (apply = false → r' = r))
    t (reflowDays_from sch flt rows from to earliest flows apply i l t).1.1) as IH'.
  { intros i' t'. eapply Forall2_impl; [apply IH|].
    - intros t''. apply Forall_Forall2_diag, Forall_true. intros r. split; [apply same_but_flows_refl|done].
    - cbn. intros r r' (? & Hn & ?). split_and!; [done| |done]. intros Hx. apply Hn. intros y Hy. apply Hx. set_solver. }
  destruct (Before _ _ || _) eqn:Er; [apply IH'|].
  destruct (apply && String.eqb (rd_Kept (reflowDay rows i x earliest flows)) "" && _) eqn:Ea.
  2: { specialize (IH' (S i) t). by destruct (reflowDays_from _ _ _ _ _ _ _ _ (S i) l t) as [[? ?] ?]. }
  apply andb_true_iff in Ea as [[Happly Hkept]%andb_true_iff _].
  destruct (flt i); [apply Hrefl|].
  pose proof (UpdateFlows_same sch t (sn_ID x) (sn_Deposits x) (sn_Withdrawals x)
    (rd_NewDeposits (reflowDay rows i x earliest flows)) (rd_NewWithdrawals (reflowDay rows i x earliest flows))) as Hu.
  destruct (Store.UpdateFlows _ _ _ _ _ _ _) as [t' [ok|e]]; cbn [fst] in Hu.
  - specialize (IH' (S i) t'). destruct (reflowDays_from _ _ _ _ _ _ _ _ (S i) l t') as [[t'' out] n].
    cbn [fst] in *. eapply Forall2_trans; [|exact Hu|exact IH'].
    cbn. intros r1 r2 r3 [Hs1 He1] (Hs2 & He2 & _). split_and!; [by eapply same_but_flows_trans| |congruence].
    intros Hx. assert (r2 = r1) as ->.
    { apply He1. apply not_eq_sym, Hx; [set_solver|]. unfold writable, Before, After in *.
      apply orb_false_iff in Er as [E1 E2]. go_bool. split; [lia|].
      by rewrite rd_Kept_reflowDay in Hkept. }
    by apply He2.
  - cbn [fst]. eapply Forall2_impl; [exact Hu|]. cbn. intros r r' [Hs He]. split_and!; [done| |congruence].
    intros Hx. apply He, not_eq_sym, Hx; [set_solver|].
    unfold writable, Before, After in *. apply orb_false_iff in Er as [E1 E2]. go_bool. split; [lia|].
    by rewrite rd_Kept_reflowDay in Hkept.
Qed.

(** The windows of the rows tile the period they cover. *)
Lemma windows_tile rows r0 last_ n ts :
  daily rows → rows !! 0%nat = Some r0 → rows !! n = Some last_ →
  reflowWindowStart rows 0 ≤ ts < sn_Timestamp last_ →
  ∃ i r, (i ≤ n)%nat ∧ rows !! i = Some r ∧ reflowWindowStart rows i ≤ ts < sn_Timestamp r ∧
    ∀ j s, rows !! j = Some s → reflowWindowStart rows j ≤ ts < sn_Timestamp s → j = i.
Proof.
  intros Hd H0 Hn Ht.
  assert (∀ m s, rows !! m = Some s → ts < sn_Timestamp s →
    ∃ i r, (i ≤ m)%nat ∧ rows !! i = Some r ∧ reflowWindowStart rows i ≤ ts < sn_Timestamp r) as Hex.
  { induction m as [|m IH]; intros s Hs Hlt.
    - exists 0%nat, s. split_and!; [lia|done|lia|done].
    - destruct (rows !! m) as [p|] eqn:Hp; [|apply lookup_ge_None in Hp; apply lookup_lt_Some in Hs; lia].
      destruct (Z.lt_ge_cases ts (sn_Timestamp p)) as [Hl|Hg].
      + destruct (IH p eq_refl Hl) as (i & r & ? & ? & ?). exists i, r. split_and!; [lia|done|lia|lia].
      + exists (S m), s. rewrite (window_start_prev _ _ _ _ Hd Hp Hs). split_and!; [lia|done|lia|done]. }
  destruct (Hex n last_ Hn) as (i & r & Hi & Hr & Hs); [lia|].
  exists i, r. split_and!; [done..|lia|lia|]. intros j s Hj Hjs.
  assert (∀ a b x y, (a < b)%nat → rows !! a = Some x → rows !! b = Some y →
    ts < sn_Timestamp x → reflowWindowStart rows b ≤ ts → False) as Hno.
  { intros a [|b] x y Hab Hx Hy Hlt Hge; [lia|].
    destruct (rows !! b) as [p|] eqn:Hp; [|apply lookup_ge_None in Hp; apply lookup_lt_Some in Hy; lia].
    rewrite (window_start_prev _ _ _ _ Hd Hp Hy) in Hge.
    destruct (decide (a = b)) as [->|]; [simplify_eq; lia|].
    assert (sn_Timestamp x < sn_Timestamp p) by (apply (daily_lt rows a b); [done|lia|done|done]). lia. }
  destruct (Nat.lt_trichotomy j i) as [Hlt|[->|Hlt]]; [|done|].
  - exfalso. by apply (Hno j i s r Hlt Hj Hr); lia.
  - exfalso. by apply (Hno i j r s Hlt Hr Hj); lia.
Qed.

(** ** Properties *)

(** Every flow is booked on one day.  For rows at increasing midnights
    with no gap beyond the 30-day lookback, the windows of the rows tile the
    period they cover: a flow between the first row's window and the last row
    is in the window of exactly one row, and a row's new deposits and
    withdrawals are the running sums of the flows of its window. *)
Theorem reflow_partition rows flows earliest r0 last_ n :
  daily rows → rows !! 0%nat = Some r0 → rows !! n = Some last_ →
  (∀ f, f ∈ flows → reflowWindowStart rows 0 ≤ cf_Timestamp f < sn_Timestamp last_ →
     ∃ i r, (i ≤ n)%nat ∧ rows !! i = Some r ∧ span_of rows i r f = true ∧
       ∀ j s, rows !! j = Some s → span_of rows j s f = true → j = i) ∧
  (∀ i r, rows !! i = Some r → kept_reason r earliest = "" →
     let d := reflowDay rows i r earliest flows in
     (rd_NewDeposits d, rd_NewWithdrawals d) = Activity.sum_flows (filter (λ f, span_of rows i r f = true) flows)).
Proof.
  intros Hd H0 Hn. split.
  - intros f _ Ht. destruct (windows_tile _ _ _ _ _ Hd H0 Hn Ht) as (i & r & ? & ? & Hs & Hu).
    exists i, r. split_and!; [done..|by apply in_span_iff|].
    intros j s Hj Hjs%in_span_iff. by apply (Hu j s).
  - intros i r Hr Hk d. subst d. unfold reflowDay. rewrite Hk. cbn [String.eqb].
    rewrite sumFlows_filter. unfold span_of. by destruct (Activity.sum_flows _).
Qed.

(** A reflow changes flows only.  Whatever the connector and the
    database answer, the table keeps its rows in place and every column but
    deposits and withdrawals; a reconstructed row, the connection's first row,
    a row outside the days asked for or of another connection keeps its flows
    too; and a run without [apply] changes nothing. *)
Theorem reflow_only_flows lookup build fx flt repo from to apply now :
  let repo' := (ReflowCashflows lookup build fx flt repo from to apply now).1.1 in
  Forall2 same_but_flows (sp_table repo) (sp_table repo') ∧
  (apply = false → sp_table repo' = sp_table repo) ∧
  (∀ c rows earliest, lookup = Ok c → reflowRows repo c (truncDay from) (truncDay to) = Ok (rows, earliest) →
     ∀ i r r', sp_table repo !! i = Some r → sp_table repo' !! i = Some r' →
     (∀ x, x ∈ rows → writable (truncDay from) (truncDay to) earliest x → sn_ID x ≠ sn_ID r) → r' = r).
Proof.
  intros repo'. subst repo'. unfold ReflowCashflows.
  set (prepared := mbind _ _).
  destruct prepared as [[[rows earliest] flows]|e] eqn:Ep.
  2: { cbn [fst]. split_and!; [|done|intros; by simplify_eq].
       apply Forall_Forall2_diag, Forall_true, same_but_flows_refl. }
  pose proof (reflowDays_frame (sp_schema repo) flt rows (truncDay from) (truncDay to) earliest flows apply 0 rows
    (sp_table repo)) as Hf.
  fold (reflowDays (sp_schema repo) flt rows (truncDay from) (truncDay to) earliest flows apply (sp_table repo)) in Hf.
  destruct (reflowDays _ _ _ _ _ _ _ _ _) as [[t out] n]. cbn [fst sp_table] in *. split_and!.
  - eapply Forall2_impl; [exact Hf|]. naive_solver.
  - intros ->. symmetry. apply list_eq_Forall2. eapply Forall2_impl; [exact Hf|]. cbn. intros r r' (_ & _ & Hr). symmetry. auto.
  - intros c rows' earliest' Hl Hrr i r r' Hr Hr' Hx.
    eapply Forall2_lookup_lr in Hf; [|exact Hr|exact Hr']. destruct Hf as (_ & Hn & _). apply Hn.
    assert (rows' = rows ∧ earliest' = earliest) as [-> ->]; [|exact Hx].
    { subst prepared. apply res_bind_ok in Ep as (? & _ & Ep).
      apply res_bind_ok in Ep as ([[c' get] cur] & Hsrc & Ep). unfold reflowSource in Hsrc. rewrite Hl in Hsrc.
      repeat (case_match; simplify_eq).
      apply res_bind_ok in Ep as ([rows1 earliest1] & Hrows & Ep). rewrite Hrr in Hrows. injection Hrows as <- <-.
      apply res_bind_ok in Ep as (? & _ & Ep). apply res_bind_ok in Ep as (? & _ & Ep).
      by injection Ep as -> -> _. }
Qed.

End reflow.

(** *** Concrete instances *)

Definition sample_rows : list (Snapshot float64) :=
  [sample_row 0 1000 1000 1000 0 true; sample_row 1 1010 1010 0 0 true; sample_row 4 1200 1200 0 0 true].

(** A deposit of 150 made on the third day, while no sync ran. *)
Definition sample_flow : Cashflow float64 := mkCashflow (b64 150) "USD" (sample_day 2 + 5 * Hour).

Lemma reflow_partition_witness :
  (let d := reflowDay sample_rows 2 (sample_row 4 1200 1200 0 0 true) (sample_day 0) [sample_flow] in
   (rd_NewDeposits d, rd_NewWithdrawals d) = (b64 150, b64 0)) ∧
  ∃ i r, sample_rows !! i = Some r ∧ span_of sample_rows i r sample_flow = true ∧
         ∀ j s, sample_rows !! j = Some s → span_of sample_rows j s sample_flow = true → j = i.
Proof.
  assert (daily sample_rows) as Hd.
  { split.
    - intros [|[|[|i]]] r Hr; cbn in Hr; try discriminate; injection Hr as <-; vm_compute; reflexivity.
    - intros [|[|[|i]]] p r Hp Hr; cbn in Hp, Hr; try discriminate; injection Hp as <-; injection Hr as <-;
        split; vm_compute; congruence. }
  destruct (reflow_partition sample_rows [sample_flow] (sample_day 0) (sample_row 0 1000 1000 1000 0 true)
    (sample_row 4 1200 1200 0 0 true) 2 Hd eq_refl eq_refl) as [Hone Hsum]. split.
  - cbn zeta. rewrite (Hsum 2%nat (sample_row 4 1200 1200 0 0 true) eq_refl eq_refl). vm_compute. reflexivity.
  - destruct (Hone sample_flow) as (i & r & _ & Hr & Hs & Hu).
    + set_solver.
    + split; vm_compute; congruence.
    + exists i, r. split; [exact Hr|]. split; [exact Hs|exact Hu].
Defined.

End Reflow.
