(* ===== verification/Encoding.v ===== *)
(** * Bytes as text: hex, base64, length prefixes

    encoding/hex, encoding/base64 (StdEncoding) and the big-endian length
    prefixes of internal/attestation and internal/bootstrap.  A byte string is
    a [string]. *)

From S2P Require Import Prelude.
From stdpp Require Import base strings list tactics.
From Stdlib Require Import ZArith Lia Ascii.

Module Encoding.
Local Open Scope N_scope.

(** ** Bytes *)

Definition byte_of (n : N) : ascii := ascii_of_N (n mod 256).

Lemma N_of_byte_of n : n < 256 → N_of_ascii (byte_of n) = n.
Proof. intros. unfold byte_of. rewrite N.mod_small by done. by apply N_ascii_embedding. Qed.

Lemma byte_of_N_of c : byte_of (N_of_ascii c) = c.
Proof. unfold byte_of. rewrite N.mod_small by apply N_ascii_bounded. apply ascii_N_embedding. Qed.

(** A decidable fact about the numbers below a bound. *)
Lemma below_spec (m : nat) (P : N → Prop) `{∀ n, Decision (P n)} :
  forallb (λ k, bool_decide (P (N.of_nat k))) (seq 0 m) = true → ∀ n, n < N.of_nat m → P n.
Proof.
  intros Hf n Hn. rewrite forallb_forall in Hf. specialize (Hf (N.to_nat n)). rewrite N2Nat.id in Hf.
  apply bool_decide_eq_true in Hf; [done|]. apply in_seq. lia.
Qed.

(** ** Strings *)

Lemma string_app_cons c (a b : string) : (String c a +:+ b = String c (a +:+ b))%string.
Proof. done. Qed.

Lemma string_app_assoc (a b c : string) : (a +:+ (b +:+ c) = (a +:+ b) +:+ c)%string.
Proof. induction a as [|x a IH]; [done|]. by rewrite !string_app_cons, IH. Qed.

Lemma string_app_nil_r (a : string) : (a +:+ "" = a)%string.
Proof. induction a as [|x a IH]; [done|]. by rewrite string_app_cons, IH. Qed.

Lemma string_length_app (a b : string) : String.length (a +:+ b) = (String.length a + String.length b)%nat.
Proof. induction a as [|x a IH]; [done|]. rewrite string_app_cons. cbn [String.length]. by rewrite IH. Qed.

Lemma string_app_inj_l (a b c d : string) :
  String.length a = String.length b → (a +:+ c = b +:+ d)%string → a = b ∧ c = d.
Proof.
  revert b. induction a as [|x a IH]; intros [|y b] Hl He; try done.
  rewrite !string_app_cons in He. injection He as -> He. injection Hl as Hl. by destruct (IH b Hl He) as [-> ->].
Qed.

(** ** hex *)

Definition hex_digit (n : N) : ascii := if n <? 10 then byte_of (48 + n) else byte_of (87 + n).

Definition hex_value (c : ascii) : option N :=
  let n := N_of_ascii c in
  if (48 <=? n) && (n <=? 57) then Some (n - 48)
  else if (97 <=? n) && (n <=? 102) then Some (n - 87)
  else if (65 <=? n) && (n <=? 70) then Some (n - 55)
  else None.

(** [hex.EncodeToString] *)
Fixpoint hex_encode (s : string) : string :=
  match s with
  | EmptyString => EmptyString
  | String c s' =>
      let n := N_of_ascii c in String (hex_digit (n / 16)) (String (hex_digit (n mod 16)) (hex_encode s'))
  end.

(** [hex.DecodeString]; [None] stands for its error. *)
Fixpoint hex_decode (s : string) : option string :=
  match s with
  | EmptyString => Some EmptyString
  | String a (String b s') =>
      x ← hex_value a; y ← hex_value b; t ← hex_decode s'; Some (String (byte_of (16 * x + y)) t)
  | String _ EmptyString => None
  end.

Lemma hex_value_digit n : n < 16 → hex_value (hex_digit n) = Some n.
Proof. apply (below_spec 16 (λ n, hex_value (hex_digit n) = Some n)). vm_compute. reflexivity. Qed.

Lemma hex_roundtrip s : hex_decode (hex_encode s) = Some s.
Proof.
  induction s as [|c s IH]; [done|]. cbn [hex_encode hex_decode].
  pose proof (N_ascii_bounded c).
  rewrite !hex_value_digit by (apply N.Div0.div_lt_upper_bound || apply N.mod_lt; lia). cbn. rewrite IH. cbn.
  rewrite <- (N.div_mod (N_of_ascii c) 16) by done. by rewrite byte_of_N_of.
Qed.

Lemma hex_encode_inj s t : hex_encode s = hex_encode t → s = t.
Proof. intros H. apply (f_equal hex_decode) in H. rewrite !hex_roundtrip in H. by injection H. Qed.

Lemma hex_encode_length s : String.length (hex_encode s) = (2 * String.length s)%nat.
Proof. induction s as [|c s IH]; cbn [hex_encode String.length]; [done|]. rewrite IH. lia. Qed.

Lemma hex_digit_lower n : n < 16 → lower_ascii (hex_digit n) = hex_digit n ∧ is_space (hex_digit n) = false.
Proof. apply (below_spec 16 (λ n, lower_ascii (hex_digit n) = hex_digit n ∧ is_space (hex_digit n) = false)). vm_compute. reflexivity. Qed.

(** ** base64, standard alphabet with padding *)

Definition b64_char (n : N) : ascii :=
  if n <? 26 then byte_of (65 + n) else if n <? 52 then byte_of (71 + n) else if n <? 62 then byte_of (n - 4)
  else if n =? 62 then "+"%char else "/"%char.

Definition b64_value (c : ascii) : option N :=
  let n := N_of_ascii c in
  if (65 <=? n) && (n <=? 90) then Some (n - 65)
  else if (97 <=? n) && (n <=? 122) then Some (n - 71)
  else if (48 <=? n) && (n <=? 57) then Some (n + 4)
  else if n =? 43 then Some 62 else if n =? 47 then Some 63 else None.

(** [base64.StdEncoding.EncodeToString] *)
Fixpoint b64_encode (s : string) : string :=
  match s with
  | String a (String b (String c s')) =>
      let n := 65536 * N_of_ascii a + 256 * N_of_ascii b + N_of_ascii c in
      String (b64_char (n / 262144)) (String (b64_char (n / 4096 mod 64)) (String (b64_char (n / 64 mod 64))
        (String (b64_char (n mod 64)) (b64_encode s'))))
  | String a (String b EmptyString) =>
      let n := 65536 * N_of_ascii a + 256 * N_of_ascii b in
      String (b64_char (n / 262144)) (String (b64_char (n / 4096 mod 64)) (String (b64_char (n / 64 mod 64)) "="))
  | String a EmptyString =>
      let n := 65536 * N_of_ascii a in
      String (b64_char (n / 262144)) (String (b64_char (n / 4096 mod 64)) "==")
  | EmptyString => EmptyString
  end.

Definition is_pad (c : ascii) : bool := Ascii.eqb c "="%char.

Fixpoint b64_quads (s : string) : option string :=
  match s with
  | EmptyString => Some EmptyString
  | String a (String b (String c (String d s'))) =>
      x ← b64_value a; y ← b64_value b;
      if is_pad d then
        if negb (String.eqb s' "") then None
        else if is_pad c then Some (String (byte_of (4 * x + y / 16)) "")
        else z ← b64_value c;
             Some (String (byte_of (4 * x + y / 16)) (String (byte_of (16 * (y mod 16) + z / 4)) ""))
      else
        z ← b64_value c; w ← b64_value d; t ← b64_quads s';
        Some (String (byte_of (4 * x + y / 16)) (String (byte_of (16 * (y mod 16) + z / 4))
          (String (byte_of (64 * (z mod 4) + w)) t)))
  | _ => None
  end.

Definition is_newline (c : ascii) : bool := let n := N_of_ascii c in (n =? 10) || (n =? 13).

Fixpoint strip_newlines (s : string) : string :=
  match s with
  | EmptyString => EmptyString
  | String c s' => if is_newline c then strip_newlines s' else String c (strip_newlines s')
  end.

(** [base64.StdEncoding.DecodeString]: line breaks are skipped, the unused
    bits of the last character are not checked. *)
Definition b64_decode (s : string) : option string := b64_quads (strip_newlines s).

Lemma b64_char_spec n :
  n < 64 → b64_value (b64_char n) = Some n ∧ is_pad (b64_char n) = false ∧ is_newline (b64_char n) = false.
Proof.
  apply (below_spec 64 (λ n, b64_value (b64_char n) = Some n ∧ is_pad (b64_char n) = false ∧ is_newline (b64_char n) = false)).
  vm_compute. reflexivity.
Qed.

Lemma N_split m a : m ≠ 0 → ∃ q r, a = m * q + r ∧ r < m.
Proof. intros Hm. exists (a / m), (a mod m). split; [by apply N.div_mod|by apply N.mod_lt]. Qed.

Lemma b64_quad_a a b c : a < 256 → b < 256 → c < 256 →
  let n := 65536 * a + 256 * b + c in
  n / 262144 < 64 ∧ n / 4096 mod 64 < 64 ∧ n / 64 mod 64 < 64 ∧ n mod 64 < 64 ∧
  4 * (n / 262144) + n / 4096 mod 64 / 16 = a ∧
  16 * (n / 4096 mod 64 mod 16) + n / 64 mod 64 / 4 = b ∧
  64 * (n / 64 mod 64 mod 4) + n mod 64 = c.
Proof.
  intros Ha Hb Hc n. subst n.
  destruct (N_split 4 a) as (a1 & a0 & -> & ?); [done|]. assert (a1 < 64) by lia.
  destruct (N_split 16 b) as (b1 & b0 & -> & ?); [done|]. assert (b1 < 16) by lia.
  destruct (N_split 64 c) as (c1 & c0 & -> & ?); [done|]. assert (c1 < 4) by lia.
  assert ((65536 * (4 * a1 + a0) + 256 * (16 * b1 + b0) + (64 * c1 + c0)) / 262144 = a1) as ->
    by (symmetry; apply (N.div_unique _ _ _ (65536 * a0 + 256 * (16 * b1 + b0) + (64 * c1 + c0))); lia).
  assert ((65536 * (4 * a1 + a0) + 256 * (16 * b1 + b0) + (64 * c1 + c0)) / 4096 = 64 * a1 + (16 * a0 + b1)) as ->
    by (symmetry; apply (N.div_unique _ _ _ (256 * b0 + (64 * c1 + c0))); lia).
  assert ((65536 * (4 * a1 + a0) + 256 * (16 * b1 + b0) + (64 * c1 + c0)) / 64 = 64 * (64 * a1 + (16 * a0 + b1)) + (4 * b0 + c1)) as ->
    by (symmetry; apply (N.div_unique _ _ _ c0); lia).
  assert ((65536 * (4 * a1 + a0) + 256 * (16 * b1 + b0) + (64 * c1 + c0)) mod 64 = c0) as ->
    by (symmetry; apply (N.mod_unique _ _ (64 * (64 * a1 + (16 * a0 + b1)) + (4 * b0 + c1))); lia).
  assert ((64 * a1 + (16 * a0 + b1)) mod 64 = 16 * a0 + b1) as -> by (symmetry; apply (N.mod_unique _ _ a1); lia).
  assert ((64 * (64 * a1 + (16 * a0 + b1)) + (4 * b0 + c1)) mod 64 = 4 * b0 + c1) as ->
    by (symmetry; apply (N.mod_unique _ _ (64 * a1 + (16 * a0 + b1))); lia).
  assert ((16 * a0 + b1) / 16 = a0) as -> by (symmetry; apply (N.div_unique _ _ _ b1); lia).
  assert ((16 * a0 + b1) mod 16 = b1) as -> by (symmetry; apply (N.mod_unique _ _ a0); lia).
  assert ((4 * b0 + c1) / 4 = b0) as -> by (symmetry; apply (N.div_unique _ _ _ c1); lia).
  assert ((4 * b0 + c1) mod 4 = c1) as -> by (symmetry; apply (N.mod_unique _ _ b0); lia).
  lia.
Qed.

Lemma string_ind2 (P : string → Prop) :
  P "" → (∀ a, P (String a "")) → (∀ a b s, P s → P (String a (String b s))) → ∀ s, P s.
Proof. intros H0 H1 H2. fix IH 1. intros [|a [|b s]]; [done|apply H1|]. apply H2, IH. Qed.

Lemma string_ind3 (P : string → Prop) :
  P "" → (∀ a, P (String a "")) → (∀ a b, P (String a (String b ""))) →
  (∀ a b c s, P s → P (String a (String b (String c s)))) → ∀ s, P s.
Proof.
  intros H0 H1 H2 H3. fix IH 1. intros [|a [|b [|c s]]]; [done|apply H1|apply H2|]. apply H3, IH.
Qed.

(** The four characters of three bytes. *)
Ltac b64_quad a b c :=
  let H := fresh in
  pose proof (b64_quad_a a b c) as H; cbn zeta in H; rewrite ?N.mul_0_r, ?N.add_0_r in H;
  destruct H as (? & ? & ? & ? & ? & ? & ?);
    [first [apply N_ascii_bounded|done]..|];
  repeat match goal with
  | Hn : ?n < 64 |- _ => destruct (b64_char_spec n Hn) as (? & ? & ?); clear Hn
  end;
  repeat match goal with
  | He : is_newline (b64_char _) = false |- _ => rewrite ?He; clear He
  | He : is_pad (b64_char _) = false |- _ => rewrite ?He; clear He
  | He : b64_value (b64_char _) = Some _ |- _ => rewrite ?He; clear He
  end.

Lemma b64_strip s : strip_newlines (b64_encode s) = b64_encode s.
Proof.
  induction s as [|a|a b|a b c s IH] using string_ind3; [done|..]; cbn [b64_encode strip_newlines]; cbn zeta.
  - by b64_quad (N_of_ascii a) 0 0.
  - by b64_quad (N_of_ascii a) (N_of_ascii b) 0.
  - b64_quad (N_of_ascii a) (N_of_ascii b) (N_of_ascii c). by rewrite IH.
Qed.

Lemma b64_roundtrip s : b64_decode (b64_encode s) = Some s.
Proof.
  unfold b64_decode. rewrite b64_strip.
  induction s as [|a|a b|a b c s IH] using string_ind3; [done|..]; cbn [b64_encode b64_quads]; cbn zeta.
  - b64_quad (N_of_ascii a) 0 0. cbn [mbind option_bind]. change (is_pad "=") with true. cbn iota.
    change (String.eqb "" "") with true. cbn iota. cbn [negb]. rewrite H3. by rewrite byte_of_N_of.
  - b64_quad (N_of_ascii a) (N_of_ascii b) 0. cbn [mbind option_bind]. change (is_pad "=") with true.
    change (String.eqb "" "") with true. cbn [negb]. rewrite H3, H4. by rewrite !byte_of_N_of.
  - b64_quad (N_of_ascii a) (N_of_ascii b) (N_of_ascii c). cbn [mbind option_bind]. rewrite IH. cbn [mbind option_bind].
    rewrite H3, H4, H5. by rewrite !byte_of_N_of.
Qed.

Lemma b64_encode_length s : String.length (b64_encode s) = (4 * ((String.length s + 2) / 3))%nat.
Proof.
  induction s as [|a|a b|a b c s IH] using string_ind3; [done..|]. cbn [b64_encode String.length]. cbn zeta.
  cbn [String.length]. rewrite IH. replace (S (S (S (String.length s))) + 2)%nat with (1 * 3 + (String.length s + 2))%nat by lia.
  rewrite Nat.div_add_l by done. lia.
Qed.

Lemma hex_decode_length s t : hex_decode s = Some t → String.length s = (2 * String.length t)%nat.
Proof.
  revert t. induction s as [| |a b s IH] using string_ind2; intros t; cbn [hex_decode]; [by intros [= <-]|done|].
  destruct (hex_value a); [|done]. destruct (hex_value b); [|done]. cbn. destruct (hex_decode s) as [u|] eqn:E; [|done].
  intros [= <-]. cbn [String.length]. rewrite (IH u) by done. lia.
Qed.

(** ** Big-endian length prefixes *)

(** The [k] low bytes of [n], most significant first. *)
Fixpoint be_bytes (k : nat) (n : N) : string :=
  match k with
  | O => EmptyString
  | S k' => String (byte_of (n / 256 ^ N.of_nat k')) (be_bytes k' n)
  end.

Fixpoint be_value (s : string) : N :=
  match s with
  | EmptyString => 0
  | String c s' => N_of_ascii c * 256 ^ N.of_nat (String.length s') + be_value s'
  end.

Lemma be_bytes_length k n : String.length (be_bytes k n) = k.
Proof. induction k as [|k IH]; cbn; [done|]. by rewrite IH. Qed.

Lemma be_value_bytes k n : be_value (be_bytes k n) = n mod 256 ^ N.of_nat k.
Proof.
  induction k as [|k IH]; cbn [be_bytes be_value]; [by rewrite N.mod_1_r|].
  rewrite IH, be_bytes_length. unfold byte_of. rewrite N_ascii_embedding by (by apply N.mod_lt).
  replace (256 ^ N.of_nat (S k)) with (256 ^ N.of_nat k * 256) by (rewrite Nat2N.inj_succ, N.pow_succ_r'; lia).
  rewrite N.Div0.mod_mul_r. lia.
Qed.

(** [writeLenPrefixed] with a prefix of [k] bytes: the length wraps at [256^k]. *)
Definition len_prefixed (k : nat) (b : string) : string :=
  be_bytes k (N.of_nat (String.length b)) +:+ b.

(** A string of a length the prefix can hold. *)
Definition fits (k : nat) (b : string) : Prop := N.of_nat (String.length b) < 256 ^ N.of_nat k.

Lemma substring_short s n : (String.length s ≤ n)%nat → String.substring 0 n s = s.
Proof. revert n. induction s as [|c s IH]; intros [|n] H; cbn in *; [done..|lia|]. by rewrite IH by lia. Qed.

Lemma len_prefixed_inj k a b r1 r2 :
  fits k a → fits k b → (len_prefixed k a +:+ r1 = len_prefixed k b +:+ r2)%string → a = b ∧ r1 = r2.
Proof.
  unfold len_prefixed, fits. intros Ha Hb. rewrite <- !string_app_assoc.
  intros [He Hr]%string_app_inj_l; [|by rewrite !be_bytes_length].
  apply (f_equal be_value) in He. rewrite !be_value_bytes, !N.mod_small in He by done.
  apply string_app_inj_l in Hr; [done|lia].
Qed.

Lemma len_prefixed_length k b : String.length (len_prefixed k b) = (k + String.length b)%nat.
Proof. unfold len_prefixed. by rewrite string_length_app, be_bytes_length. Qed.

End Encoding.
