(* ===== verification/Json.v ===== *)
(** * Canonical JSON (encoding/json strings, and marshalSortedJSON of
    internal/signing/report.go)

    [value] is what a Go [any] of a signed payload may hold; a map is the list
    of its entries, whose order the writer does not look at.  The second half
    is a reader, which shows that the writer loses nothing. *)

From S2P Require Import Prelude Num Encoding.
From stdpp Require Import base strings sorting pretty tactics list.
From Stdlib Require Import ZArith Lia Ascii.
Import Encoding.

Module Json.
Local Open Scope N_scope.

(** ** Strings, as json.Marshal writes them *)

Definition in_range (lo hi : N) (c : ascii) : bool := let n := N_of_ascii c in (lo <=? n) && (n <=? hi).

(** The number of continuation bytes of the rune that starts [s], for a first
    byte outside ASCII; [None] when [utf8.DecodeRuneInString] reports an
    encoding error, which takes one byte. *)
Definition rune_tail (s : string) : option nat :=
  match s with
  | String a (String b s') =>
      if in_range 194 223 a && in_range 128 191 b then Some 1%nat else
      match s' with
      | String c s'' =>
          if (in_range 224 224 a && in_range 160 191 b || in_range 225 236 a && in_range 128 191 b
              || in_range 237 237 a && in_range 128 159 b || in_range 238 239 a && in_range 128 191 b)
             && in_range 128 191 c then Some 2%nat else
          match s'' with
          | String d _ =>
              if (in_range 240 240 a && in_range 144 191 b || in_range 241 243 a && in_range 128 191 b
                  || in_range 244 244 a && in_range 128 143 b) && in_range 128 191 c && in_range 128 191 d
              then Some 3%nat else None
          | EmptyString => None
          end
      | EmptyString => None
      end
  | _ => None
  end.

Definition backslash : ascii := ascii_of_N 92.
Definition quote : ascii := ascii_of_N 34.

Definition is_ascii (c : ascii) : bool := N_of_ascii c <? 128.

(** A byte below 128. *)
Definition escape (c : ascii) : string :=
  let n := N_of_ascii c in
  if (n =? 34) || (n =? 92) then String backslash (String c "")
  else if n =? 8 then String backslash "b" else if n =? 12 then String backslash "f"
  else if n =? 10 then String backslash "n" else if n =? 13 then String backslash "r"
  else if n =? 9 then String backslash "t"
  else if (n <? 32) || (n =? 60) || (n =? 62) || (n =? 38) then
    String backslash ("u00" +:+ String (hex_digit (n / 16)) (String (hex_digit (n mod 16)) ""))
  else String c "".

Definition unicode_escape (last : string) : string := String backslash last.

(** [copy] continuation bytes are still to be copied. *)
Fixpoint escape_from (copy : nat) (s : string) : string :=
  match s with
  | EmptyString => EmptyString
  | String c s' =>
      match copy with
      | S k => String c (escape_from k s')
      | O =>
          if is_ascii c then escape c +:+ escape_from O s'
          else match rune_tail s with
          | None => unicode_escape "ufffd" +:+ escape_from O s'
          | Some k =>
              match s' with
              | String b (String d s'') =>
                  if in_range 226 226 c && in_range 128 128 b && in_range 168 169 d then
                    unicode_escape (if in_range 168 168 d then "u2028" else "u2029") +:+ escape_from O s''
                  else String c (escape_from k s')
              | _ => String c (escape_from k s')
              end
          end
      end
  end.

Definition json_body (s : string) : string := escape_from O s.

Definition json_string (s : string) : string := String quote (json_body s +:+ String quote "").

(** [utf8.ValidString] *)
Fixpoint utf8_from (copy : nat) (s : string) : bool :=
  match s with
  | EmptyString => Nat.eqb copy 0
  | String c s' =>
      match copy with
      | S k => utf8_from k s'
      | O => if is_ascii c then utf8_from O s'
             else match rune_tail s with None => false | Some k => utf8_from k s' end
      end
  end.

Definition utf8_valid (s : string) : bool := utf8_from O s.

(** ** Reading a string back *)

Definition unescape_char (c : ascii) : option ascii :=
  if Ascii.eqb c quote || Ascii.eqb c backslash then Some c
  else if Ascii.eqb c "b" then Some (ascii_of_N 8) else if Ascii.eqb c "f" then Some (ascii_of_N 12)
  else if Ascii.eqb c "n" then Some (ascii_of_N 10) else if Ascii.eqb c "r" then Some (ascii_of_N 13)
  else if Ascii.eqb c "t" then Some (ascii_of_N 9) else None.

(** The inverse of [json_body] on well-formed text. *)
Fixpoint unescape (s : string) : string :=
  match s with
  | EmptyString => EmptyString
  | String a s1 =>
      if negb (Ascii.eqb a backslash) then String a (unescape s1)
      else match s1 with
      | String b s2 =>
          match unescape_char b with
          | Some c => String c (unescape s2)
          | None =>
              match s2 with
              | String h1 (String h2 (String h3 (String h4 s3))) =>
                  if String.eqb (String h1 (String h2 (String h3 (String h4 "")))) "2028" then
                    String (byte_of 226) (String (byte_of 128) (String (byte_of 168) (unescape s3)))
                  else if String.eqb (String h1 (String h2 (String h3 (String h4 "")))) "2029" then
                    String (byte_of 226) (String (byte_of 128) (String (byte_of 169) (unescape s3)))
                  else match hex_decode (String h3 (String h4 "")) with
                  | Some (String c _) => String c (unescape s3)
                  | _ => EmptyString
                  end
              | _ => EmptyString
              end
          end
      | EmptyString => EmptyString
      end
  end.

Lemma unescape_escape c s : is_ascii c = true → unescape (escape c +:+ s) = String c (unescape s).
Proof. destruct c as [[] [] [] [] [] [] [] []]; intros H; first [discriminate H|reflexivity]. Qed.

Lemma unescape_high c s : is_ascii c = false → unescape (String c s) = String c (unescape s).
Proof. destruct c as [[] [] [] [] [] [] [] []]; intros H; first [discriminate H|reflexivity]. Qed.

Lemma in_range_high lo hi c : 128 <= lo → in_range lo hi c = true → is_ascii c = false.
Proof. unfold in_range, is_ascii. intros Hlo [?%N.leb_le _]%andb_true_iff. apply N.ltb_ge. lia. Qed.

Lemma in_range_single n c : n < 256 → in_range n n c = true → c = byte_of n.
Proof.
  unfold in_range. cbn zeta. intros Hn [?%N.leb_le ?%N.leb_le]%andb_true_iff.
  rewrite <- (byte_of_N_of c). f_equal. lia.
Qed.

(** The bytes a valid rune goes on with are not ASCII. *)
Inductive tail_ok : nat → string → Prop :=
| tail_0 s : tail_ok O s
| tail_S k c s : is_ascii c = false → tail_ok k s → tail_ok (S k) (String c s).

Lemma rune_tail_ok c s k : rune_tail (String c s) = Some k → tail_ok k s.
Proof.
  cbn [rune_tail]. destruct s as [|b s]; [done|].
  destruct (_ && _) eqn:E1.
  { intros [= <-]. go_bool. constructor; [by eapply in_range_high; [|done]|constructor]. }
  destruct s as [|d s]; [done|]. destruct (_ && _) eqn:E2 in |- *.
  { intros [= <-]. apply andb_true_iff in E2 as [Hb Hd].
    assert (is_ascii b = false) as Hb'.
    { repeat (apply orb_true_iff in Hb as [Hb|Hb]); apply andb_true_iff in Hb as [_ Hb]; by eapply in_range_high; [|done]. }
    repeat constructor; [done|by eapply in_range_high; [|done]]. }
  destruct s as [|e s]; [done|]. destruct (_ && _) eqn:E3 in |- *; [|done].
  intros [= <-]. apply andb_true_iff in E3 as [E3 He]. apply andb_true_iff in E3 as [Hb Hd].
  assert (is_ascii b = false) as Hb'.
  { repeat (apply orb_true_iff in Hb as [Hb|Hb]); apply andb_true_iff in Hb as [_ Hb]; by eapply in_range_high; [|done]. }
  repeat constructor; [done|by eapply in_range_high; [|done]..].
Qed.

Lemma tail_ok_skip c b d s k :
  rune_tail (String c (String b (String d s))) = Some k → in_range 226 226 c = true → k = 2%nat.
Proof.
  intros Hr Hc. apply in_range_single in Hc as ->; [|done]. revert Hr. cbn [rune_tail].
  change (in_range 194 223 (byte_of 226)) with false. cbn [andb].
  destruct (_ && in_range 128 191 d); [by intros [= <-]|]. destruct s; [done|].
  change (in_range 240 240 (byte_of 226)) with false. change (in_range 241 243 (byte_of 226)) with false.
  change (in_range 244 244 (byte_of 226)) with false. done.
Qed.

Lemma unescape_body_from n k s :
  (String.length s <= n)%nat → tail_ok k s → utf8_from k s = true → unescape (escape_from k s) = s.
Proof.
  revert k s. induction n as [|n IH]; intros k [|c s] Hn Ht Hv; cbn [String.length] in Hn; [done|lia|by destruct k|].
  destruct k as [|k]; cbn [escape_from utf8_from] in *.
  2: { inversion Ht; subst. rewrite unescape_high by done. f_equal. apply IH; [lia|done..]. }
  destruct (is_ascii c) eqn:Ec.
  { rewrite unescape_escape by done. f_equal. apply IH; [lia|constructor|done]. }
  destruct (rune_tail (String c s)) as [k|] eqn:Er; [|done]. pose proof (rune_tail_ok _ _ _ Er) as Hk.
  assert (unescape (String c (escape_from k s)) = String c s) as Hraw.
  { rewrite unescape_high by done. f_equal. apply IH; [lia|done..]. }
  destruct s as [|b [|d s]]; [done..|].
  destruct (_ && in_range 168 169 d) eqn:El; [|done]. apply andb_true_iff in El as [Hcb Hd].
  apply andb_true_iff in Hcb as [Hc Hb]. pose proof (tail_ok_skip _ _ _ _ _ Er Hc) as ->.
  apply in_range_single in Hc as ->; [|done]. apply in_range_single in Hb as ->; [|done].
  cbn [utf8_from] in Hv. cbn [String.length] in Hn.
  destruct (in_range 168 168 d) eqn:E8.
  - apply in_range_single in E8 as ->; [|done].
    change (unescape (unicode_escape "u2028" +:+ escape_from 0 s)) with
      (String (byte_of 226) (String (byte_of 128) (String (byte_of 168) (unescape (escape_from 0 s))))).
    do 3 f_equal. apply IH; [lia|constructor|done].
  - assert (d = byte_of 169) as ->.
    { unfold in_range in Hd, E8. apply andb_true_iff in Hd as [?%N.leb_le ?%N.leb_le].
      apply andb_false_iff in E8 as [?%N.leb_gt|?%N.leb_gt]; [lia|]. rewrite <- (byte_of_N_of d). f_equal. lia. }
    change (unescape (unicode_escape "u2029" +:+ escape_from 0 s)) with
      (String (byte_of 226) (String (byte_of 128) (String (byte_of 169) (unescape (escape_from 0 s))))).
    do 3 f_equal. apply IH; [lia|constructor|done].
Qed.

Lemma unescape_body s : utf8_valid s = true → unescape (json_body s) = s.
Proof. apply (unescape_body_from (String.length s)); [done|constructor]. Qed.

Lemma json_body_inj s t : utf8_valid s = true → utf8_valid t = true → json_body s = json_body t → s = t.
Proof. intros Hs Ht H. rewrite <- (unescape_body s), <- (unescape_body t) by done. by rewrite H. Qed.

(** Up to the closing quote. *)
Fixpoint read_body (s : string) : option (string * string) :=
  match s with
  | EmptyString => None
  | String c s1 =>
      if Ascii.eqb c quote then Some (EmptyString, s1)
      else if Ascii.eqb c backslash then
        match s1 with
        | String d s2 => p ← read_body s2; Some (String c (String d p.1), p.2)
        | EmptyString => None
        end
      else p ← read_body s1; Some (String c p.1, p.2)
  end.

Ltac eval_escape :=
  match goal with |- context [escape ?c] => let e := eval vm_compute in (escape c) in change (escape c) with e end.

Lemma read_escape c s body rest :
  is_ascii c = true → read_body s = Some (body, rest) → read_body (escape c +:+ s) = Some (escape c +:+ body, rest).
Proof.
  destruct c as [[] [] [] [] [] [] [] []]; intros H Hs;
    first [discriminate H|eval_escape; unfold String.append; cbn; rewrite Hs; reflexivity].
Qed.

Lemma read_high c s body rest :
  is_ascii c = false → read_body s = Some (body, rest) → read_body (String c s) = Some (String c body, rest).
Proof.
  destruct c as [[] [] [] [] [] [] [] []]; intros H Hs; first [discriminate H|unfold String.append; cbn; rewrite Hs; reflexivity].
Qed.

Lemma read_unicode (a b c d : ascii) s body rest :
  Ascii.eqb a quote = false ∧ Ascii.eqb a backslash = false ∧ Ascii.eqb b quote = false ∧ Ascii.eqb b backslash = false ∧
  Ascii.eqb c quote = false ∧ Ascii.eqb c backslash = false ∧ Ascii.eqb d quote = false ∧ Ascii.eqb d backslash = false →
  read_body s = Some (body, rest) →
  let u := unicode_escape (String "u" (String a (String b (String c (String d ""))))) in
  read_body (u +:+ s) = Some (u +:+ body, rest).
Proof.
  intros (Ha & Ha' & Hb & Hb' & Hc & Hc' & Hd & Hd') Hs. unfold unicode_escape, String.append, quote, backslash in *.
  cbn in *. by rewrite Ha, Ha', Hb, Hb', Hc, Hc', Hd, Hd', Hs.
Qed.

Lemma read_body_from n k s rest :
  (String.length s <= n)%nat → tail_ok k s →
  read_body (escape_from k s +:+ String quote rest) = Some (escape_from k s, rest).
Proof.
  revert k s. induction n as [|n IH]; intros k [|c s] Hn Ht; cbn [String.length] in Hn; [done|lia|done|].
  destruct k as [|k]; cbn [escape_from].
  2: { inversion Ht; subst. apply read_high; [done|]. apply IH; [lia|done]. }
  destruct (is_ascii c) eqn:Ec.
  { rewrite <- string_app_assoc. apply read_escape; [done|]. apply IH; [lia|constructor]. }
  destruct (rune_tail (String c s)) as [k|] eqn:Er.
  2: { rewrite <- string_app_assoc. apply read_unicode; [by repeat split|]. apply IH; [lia|constructor]. }
  pose proof (rune_tail_ok _ _ _ Er) as Hk.
  assert (read_body (String c (escape_from k s) +:+ String quote rest) = Some (String c (escape_from k s), rest)) as Hraw.
  { rewrite string_app_cons. apply read_high; [done|]. apply IH; [lia|done]. }
  destruct s as [|b [|d s]]; [done..|]. destruct (_ && in_range 168 169 d); [|done].
  rewrite <- string_app_assoc. cbn [String.length] in Hn.
  destruct (in_range 168 168 d); (apply read_unicode; [by repeat split|]; apply IH; [lia|constructor]).
Qed.

Lemma read_json_body s rest : read_body (json_body s +:+ String quote rest) = Some (json_body s, rest).
Proof. apply (read_body_from (String.length s)); [done|constructor]. Qed.

(** ** Scalars *)

(** What a number is written with. *)
Definition number_char (c : ascii) : bool :=
  in_range 48 57 c || Ascii.eqb c "-" || Ascii.eqb c "+" || Ascii.eqb c "." || Ascii.eqb c "e" || Ascii.eqb c "E".

Definition number_token (s : string) : Prop := s ≠ "" ∧ all_chars number_char s = true.

Lemma pretty_N_go_token (n : N) s : all_chars number_char s = true → all_chars number_char (pretty_N_go n s) = true.
Proof.
  revert s. induction (N.lt_wf_0 n) as [n _ IH]; intros s Hs.
  destruct (decide (n = 0)) as [->|]; [done|]. rewrite pretty_N_go_step by lia.
  apply IH; [apply N.div_lt; lia|]. cbn [all_chars]. rewrite Hs, andb_true_r.
  unfold pretty_N_char. by repeat case_match.
Qed.

Lemma pretty_N_token (n : N) : number_token (pretty n).
Proof.
  unfold pretty, pretty_N. split.
  - case_decide; [done|]. rewrite pretty_N_go_step by lia. intros He.
    assert (∀ k t, String.length t <= String.length (pretty_N_go k t))%nat as Hl.
    { intros k. induction (N.lt_wf_0 k) as [k _ IH]; intros t. destruct (decide (k = 0)) as [->|]; [done|].
      rewrite pretty_N_go_step by lia. etrans; [|apply IH; apply N.div_lt; lia]. cbn. lia. }
    specialize (Hl (n / 10) (String (pretty_N_char (n mod 10)) "")). rewrite He in Hl. cbn in Hl. lia.
  - case_decide; [done|]. by apply pretty_N_go_token.
Qed.

Lemma pretty_Z_token (z : Z) : number_token (pretty z).
Proof.
  destruct z as [|q|q]; [by split|apply pretty_N_token|].
  destruct (pretty_N_token (Npos q)) as [_ Hq]. by split.
Qed.

(** How encoding/json writes a number of type [F]: not a NaN or an infinity,
    and never two numbers alike (the shortest text that reads back). *)
Class JsonNumber (F : Type) : Type := {
  json_number : F → option string;
  json_number_token : ∀ x t, json_number x = Some t → number_token t;
  json_number_inj : ∀ x y t, json_number x = Some t → json_number y = Some t → x = y;
}.

(** ** Values and their canonical form *)

Section values.
Context {F : Type} {JF : JsonNumber F}.

Inductive value :=
| VNil
| VString (s : string)
| VBool (b : bool)
| VInt (z : Z)
| VFloat (x : F)
| VStrings (l : option (list string))
| VSlice (l : list value)
| VMap (m : list (string * value))
| VMaps (l : option (list (list (string * value)))).

(** [sort.Strings] on the keys; the keys of a Go map are distinct. *)
Fixpoint insert_key {A} (p : string * A) (l : list (string * A)) : list (string * A) :=
  match l with
  | [] => [p]
  | q :: l' => if String.leb p.1 q.1 then p :: l else q :: insert_key p l'
  end.

Definition sort_keys {A} (m : list (string * A)) : list (string * A) := foldr insert_key [] m.

Fixpoint write_seq (l : list (res string)) : res string :=
  match l with
  | [] => Ok ""
  | [x] => x
  | x :: l' => a ← x; b ← write_seq l'; Ok (a +:+ "," +:+ b)
  end.

Definition write_list (l : list (res string)) : res string := t ← write_seq l; Ok ("[" +:+ t +:+ "]").

Definition write_entry (p : string * res string) : res string := t ← p.2; Ok (json_string p.1 +:+ ":" +:+ t).

(** An object, its entries in the order given. *)
Definition write_object (l : list (string * res string)) : res string :=
  t ← write_seq (write_entry <$> l); Ok ("{" +:+ t +:+ "}").

Definition writeSortedMap (m : list (string * res string)) : res string := write_object (sort_keys m).

Definition write_float (x : F) : res string :=
  match json_number x with Some t => Ok t | None => Err "json: unsupported value" end.

Fixpoint writeSortedJSON (v : value) : res string :=
  match v with
  | VNil => Ok "null"
  | VString s => Ok (json_string s)
  | VBool b => Ok (if b then "true" else "false")
  | VInt z => Ok (pretty z)
  | VFloat x => write_float x
  | VStrings None => Ok "null"
  | VStrings (Some l) => write_list ((λ s, Ok (json_string s)) <$> l)
  | VSlice l => write_list (map writeSortedJSON l)
  | VMap m => writeSortedMap (map (λ p, (p.1, writeSortedJSON p.2)) m)
  | VMaps None => Ok "null"
  | VMaps (Some l) => write_list (map (λ m, writeSortedMap (map (λ p, (p.1, writeSortedJSON p.2)) m)) l)
  end.

Definition marshalSortedJSON (m : list (string * value)) : res string := writeSortedJSON (VMap m).

(** The tree the text holds: scalars as they are written, objects in the order
    of their keys. *)
Inductive tree :=
| TTok (s : string)
| TStr (body : string)
| TArr (l : list tree)
| TObj (m : list (string * tree)).

Definition obj (m : list (string * tree)) : tree := TObj ((λ p, (json_body p.1, p.2)) <$> sort_keys m).

Fixpoint tree_of (v : value) : tree :=
  match v with
  | VNil => TTok "null"
  | VString s => TStr (json_body s)
  | VBool b => TTok (if b then "true" else "false")
  | VInt z => TTok (pretty z)
  | VFloat x => TTok (default "" (json_number x))
  | VStrings None => TTok "null"
  | VStrings (Some l) => TArr ((λ s, TStr (json_body s)) <$> l)
  | VSlice l => TArr (map tree_of l)
  | VMap m => obj (map (λ p, (p.1, tree_of p.2)) m)
  | VMaps None => TTok "null"
  | VMaps (Some l) => TArr (map (λ m, obj (map (λ p, (p.1, tree_of p.2)) m)) l)
  end.

Lemma value_ind' (P : value → Prop) :
  P VNil → (∀ s, P (VString s)) → (∀ b, P (VBool b)) → (∀ z, P (VInt z)) → (∀ x, P (VFloat x)) →
  (∀ l, P (VStrings l)) → (∀ l, Forall P l → P (VSlice l)) → (∀ m, Forall (λ p, P p.2) m → P (VMap m)) →
  P (VMaps None) → (∀ l, Forall (λ m, Forall (λ p, P p.2) m) l → P (VMaps (Some l))) → ∀ v, P v.
Proof.
  intros H1 H2 H3 H4 H5 H6 H7 H8 H9 H10. fix IH 1.
  intros [|s|b|z|x|l|l|m|[l|]]; [done|auto..| | | |done].
  - apply H7. revert l. fix IHl 1. intros [|v l]; constructor; [apply IH|apply IHl].
  - apply H8. revert m. fix IHm 1. intros [|p m]; constructor; [apply IH|apply IHm].
  - apply H10. revert l. fix IHl 1. intros [|m l]; constructor; [|apply IHl].
    revert m. fix IHm 1. intros [|p m]; constructor; [apply IH|apply IHm].
Qed.

(** ** The reader *)

Definition delimiter (c : ascii) : bool := Ascii.eqb c "," || Ascii.eqb c "]" || Ascii.eqb c "}".

(** A scalar, up to the next delimiter. *)
Fixpoint read_token (s : string) : string * string :=
  match s with
  | EmptyString => (EmptyString, EmptyString)
  | String c s' => if delimiter c then (EmptyString, s) else let p := read_token s' in (String c p.1, p.2)
  end.

Definition read_key (s : string) : option (string * string) :=
  match s with
  | String c s' =>
      if Ascii.eqb c quote then
        p ← read_body s';
        match p.2 with String d r => if Ascii.eqb d ":" then Some (p.1, r) else None | EmptyString => None end
      else None
  | EmptyString => None
  end.

Fixpoint read (n : nat) (s : string) : option (tree * string) :=
  match n with
  | O => None
  | S n =>
      match s with
      | EmptyString => None
      | String c s' =>
          if Ascii.eqb c quote then p ← read_body s'; Some (TStr p.1, p.2)
          else if Ascii.eqb c "[" then p ← read_items n s'; Some (TArr p.1, p.2)
          else if Ascii.eqb c "{" then p ← read_fields n s'; Some (TObj p.1, p.2)
          else let p := read_token s in Some (TTok p.1, p.2)
      end
  end
with read_items (n : nat) (s : string) : option (list tree * string) :=
  match n with
  | O => None
  | S n =>
      match s with
      | String c s' =>
          if Ascii.eqb c "]" then Some ([], s')
          else
            p ← read n s;
            match p.2 with
            | String d r =>
                if Ascii.eqb d "]" then Some ([p.1], r) else q ← read_items n r; Some (p.1 :: q.1, q.2)
            | EmptyString => None
            end
      | EmptyString => None
      end
  end
with read_fields (n : nat) (s : string) : option (list (string * tree) * string) :=
  match n with
  | O => None
  | S n =>
      match s with
      | String c s' =>
          if Ascii.eqb c "}" then Some ([], s')
          else
            k ← read_key s;
            p ← read n k.2;
            match p.2 with
            | String d r =>
                if Ascii.eqb d "}" then Some ([(k.1, p.1)], r)
                else q ← read_fields n r; Some ((k.1, p.1) :: q.1, q.2)
            | EmptyString => None
            end
      | EmptyString => None
      end
  end.

(** [s] is read as [t], whatever follows it. *)
Definition reads (s : string) (t : tree) : Prop :=
  (∃ c s', s = String c s' ∧ delimiter c = false) ∧
  ∃ n0, ∀ n d rest, (n0 <= n)%nat → delimiter d = true →
    read n (s +:+ String d rest) = Some (t, String d rest).

Lemma reads_token s :
  s ≠ "" → all_chars (λ c, negb (delimiter c)) s = true →
  match s with String c _ => Ascii.eqb c quote || Ascii.eqb c "[" || Ascii.eqb c "{" | _ => false end = false →
  reads s (TTok s).
Proof.
  intros Hne Hall Hc. destruct s as [|c s]; [done|]. split.
  { exists c, s. split; [done|]. cbn in Hall. by apply andb_true_iff in Hall as [->%negb_true_iff _]. }
  exists 1%nat. intros [|n] d rest Hn Hd; [lia|]. cbn [read]. apply orb_false_iff in Hc as [Hc H3].
  apply orb_false_iff in Hc as [H1 H2]. rewrite string_app_cons. rewrite H1, H2, H3, <- string_app_cons.
  assert (∀ t, all_chars (λ c, negb (delimiter c)) t = true →
    read_token (t +:+ String d rest) = (t, String d rest)) as Ht.
  { induction t as [|a t IH].
    { intros _. change (read_token (String d rest) = ("", String d rest)). cbn [read_token]. by rewrite Hd. }
    cbn [all_chars].
    intros [Ha Hall']%andb_true_iff. rewrite string_app_cons. cbn [read_token]. apply negb_true_iff in Ha.
    rewrite Ha, IH by done. done. }
  cbn zeta. by rewrite Ht.
Qed.

Lemma number_chars_plain s : all_chars number_char s = true → all_chars (λ c, negb (delimiter c)) s = true.
Proof.
  induction s as [|c s IH]; [done|]. cbn [all_chars]. intros [Hc Hs]%andb_true_iff. rewrite IH by done.
  rewrite andb_true_r. clear -Hc. destruct c as [[] [] [] [] [] [] [] []]; first [discriminate Hc|reflexivity].
Qed.

Lemma reads_number s : number_token s → reads s (TTok s).
Proof.
  intros [Hne Hall]. apply reads_token; [done|by apply number_chars_plain|].
  destruct s as [|c s]; [done|]. cbn in Hall. apply andb_true_iff in Hall as [Hc _]. clear -Hc.
  destruct c as [[] [] [] [] [] [] [] []]; first [discriminate Hc|reflexivity].
Qed.

Lemma reads_string s : reads (json_string s) (TStr (json_body s)).
Proof.
  unfold json_string. split; [by eexists _, _|]. exists 1%nat. intros [|n] d rest Hn Hd; [lia|].
  rewrite string_app_cons. cbn [read]. change (Ascii.eqb quote quote) with true. cbn iota.
  rewrite <- string_app_assoc, (string_app_cons quote), read_json_body. done.
Qed.

(** Lists of values, each written by an entry of [l]. *)
Lemma reads_items l ts s :
  Forall2 (λ r t, ∀ x, r = Ok x → reads x t) l ts → write_seq l = Ok s → l ≠ [] →
  (∃ c s', s = String c s' ∧ delimiter c = false) ∧
  ∃ n0, ∀ n rest, (n0 <= n)%nat → read_items n (s +:+ String "]" rest) = Some (ts, rest).
Proof.
  intros H. revert s. induction H as [|r t l ts Hr Hl IH]; intros s Hs Hne; [done|].
  destruct l as [|r' l].
  - cbn in Hs. inversion Hl; subst. destruct (Hr s eq_refl) as [Hh [n0 Hn]]. split; [done|].
    exists (S n0). intros [|n] rest Hle; [lia|]. destruct Hh as (c & s' & -> & Hc).
    rewrite string_app_cons. cbn [read_items].
    assert (Ascii.eqb c "]" = false) as ->.
    { unfold delimiter in Hc. by apply orb_false_iff in Hc as [[_ ?]%orb_false_iff _]. }
    rewrite <- string_app_cons, Hn by (lia || done). done.
  - change (write_seq (r :: r' :: l)) with (a ← r; b ← write_seq (r' :: l); Ok (a +:+ "," +:+ b)) in Hs.
    apply res_bind_ok in Hs as (a & -> & (b & Hb & [= <-])%res_bind_ok).
    destruct (Hr a eq_refl) as [Hh [n0 Hn]]. destruct (IH b Hb) as [_ [n1 Hn1]]; [done|].
    split. { destruct Hh as (c & s' & -> & Hc). eexists _, _. by rewrite string_app_cons. }
    exists (S (max n0 n1)). intros [|n] rest Hle; [lia|]. destruct Hh as (c & s' & -> & Hc).
    rewrite !string_app_cons. cbn [read_items].
    assert (Ascii.eqb c "]" = false) as ->.
    { unfold delimiter in Hc. by apply orb_false_iff in Hc as [[_ ?]%orb_false_iff _]. }
    rewrite <- !string_app_cons, <- !string_app_assoc.
    change ("," +:+ b +:+ String "]" rest) with (String "," (b +:+ String "]" rest)).
    rewrite Hn by (lia || done). cbn. rewrite Hn1 by lia. done.
Qed.

Lemma insert_key_fmap {A B} (f : string * A → string * B) p l :
  (∀ p, (f p).1 = p.1) → insert_key (f p) (f <$> l) = f <$> insert_key p l.
Proof.
  intros Hf. induction l as [|q l IH]; cbn; [done|]. rewrite !Hf. destruct (String.leb _ _); [done|]. cbn. by rewrite IH.
Qed.

Lemma sort_keys_fmap {A B} (f : string * A → string * B) l :
  (∀ p, (f p).1 = p.1) → sort_keys (f <$> l) = f <$> sort_keys l.
Proof.
  intros Hf. induction l as [|p l IH]; [done|]. change (sort_keys (f <$> p :: l)) with (insert_key (f p) (sort_keys (f <$> l))).
  rewrite IH. by apply insert_key_fmap.
Qed.

Lemma insert_key_perm {A} (p : string * A) l : insert_key p l ≡ₚ p :: l.
Proof.
  induction l as [|q l IH]; cbn; [done|]. destruct (String.leb _ _); [done|]. rewrite IH. apply Permutation_swap.
Qed.

Lemma sort_keys_perm {A} (l : list (string * A)) : sort_keys l ≡ₚ l.
Proof. induction l as [|p l IH]; [done|]. cbn. by rewrite insert_key_perm, IH. Qed.

Definition key_order {A} (p q : string * A) : Prop := String.le p.1 q.1.

Lemma insert_key_sorted {A} (p : string * A) l :
  StronglySorted key_order l → StronglySorted key_order (insert_key p l).
Proof.
  induction 1 as [|q l Hl IH Hq]; cbn; [by repeat constructor|].
  destruct (String.leb p.1 q.1) eqn:E.
  - constructor; [by constructor|]. assert (key_order p q) as Hpq by (unfold key_order, String.le; by rewrite E).
    constructor; [done|]. eapply Forall_impl; [done|]. intros x Hx. unfold key_order in *. by etrans.
  - constructor; [done|]. rewrite insert_key_perm. constructor; [|done].
    unfold key_order, String.le. destruct (String.leb_total p.1 q.1) as [H|H]; [congruence|by rewrite H].
Qed.

Lemma sort_keys_sorted {A} (l : list (string * A)) : StronglySorted key_order (sort_keys l).
Proof. induction l as [|p l IH]; [constructor|]. by apply insert_key_sorted. Qed.

(** The order of the entries does not matter. *)
Lemma sort_keys_unique {A} (l1 l2 : list (string * A)) : l1 ≡ₚ l2 → NoDup l1.*1 → sort_keys l1 = sort_keys l2.
Proof.
  intros Hp Hnd. apply (StronglySorted_unique_strong key_order); [|apply sort_keys_sorted..|by rewrite !sort_keys_perm].
  intros [k x] [k' y] Hx Hy Hle Hge. unfold key_order in *. cbn in *.
  assert (k = k') as -> by (by apply (anti_symm String.le)).
  rewrite sort_keys_perm in Hx. rewrite sort_keys_perm, <- Hp in Hy.
  apply list_elem_of_lookup in Hx as [i Hi], Hy as [j Hj].
  assert (i = j) as ->; [|congruence].
  apply (NoDup_lookup l1.*1 i j k'); [done|by rewrite list_lookup_fmap, Hi|by rewrite list_lookup_fmap, Hj].
Qed.

Lemma read_key_string k x : read_key (json_string k +:+ ":" +:+ x) = Some (json_body k, x).
Proof.
  unfold json_string. rewrite string_app_cons. cbn [read_key]. change (Ascii.eqb quote quote) with true. cbn iota.
  rewrite <- string_app_assoc, (string_app_cons quote), read_json_body. done.
Qed.

Lemma reads_fields (l : list (string * res string)) ts s :
  Forall2 (λ p q, q.1 = json_body p.1 ∧ ∀ x, p.2 = Ok x → reads x q.2) l ts → write_seq (write_entry <$> l) = Ok s → l ≠ [] →
  (∃ s', s = String quote s') ∧
  ∃ n0, ∀ n rest, (n0 <= n)%nat → read_fields n (s +:+ String "}" rest) = Some (ts, rest).
Proof.
  intros H. revert s. induction H as [|[k r] [k' t] l ts [Hk Hr] Hl IH]; intros s Hs Hne; [done|]. cbn in Hk, Hr. subst k'.
  destruct l as [|p l].
  - cbn in Hs. apply res_bind_ok in Hs as (x & -> & [= <-]). inversion Hl; subst. destruct (Hr x eq_refl) as [_ [n0 Hn]].
    split; [by eexists|]. exists (S n0). intros [|n] rest Hle; [lia|].
    pose proof (read_key_string k (x +:+ String "}" rest)) as Hkey. rewrite <- !string_app_assoc.
    unfold json_string in Hkey |- *. rewrite string_app_cons in Hkey |- *.
    cbn [read_fields]. change (Ascii.eqb quote "}") with false. cbn iota. rewrite Hkey. cbn [mbind option_bind fst snd].
    rewrite Hn by (lia || done). done.
  - change (write_seq (write_entry <$> (k, r) :: p :: l)) with
      (a ← write_entry (k, r); b ← write_seq (write_entry <$> p :: l); Ok (a +:+ "," +:+ b)) in Hs.
    apply res_bind_ok in Hs as (a & Ha & (b & Hb & [= <-])%res_bind_ok). apply res_bind_ok in Ha as (x & Hx & [= <-]).
    cbn in Hx. subst r. destruct (Hr x eq_refl) as [_ [n0 Hn]]. destruct (IH b Hb) as [_ [n1 Hn1]]; [done|].
    split; [by eexists|]. exists (S (max n0 n1)). intros [|n] rest Hle; [lia|]. rewrite <- !string_app_assoc. cbn [fst].
    pose proof (read_key_string k (x +:+ String "," (b +:+ String "}" rest))) as Hkey.
    change ("," +:+ b +:+ String "}" rest) with (String "," (b +:+ String "}" rest)).
    unfold json_string in Hkey |- *. rewrite string_app_cons in Hkey |- *.
    cbn [read_fields]. change (Ascii.eqb quote "}") with false. cbn iota. rewrite Hkey. cbn [mbind option_bind fst snd].
    rewrite Hn by (lia || done). cbn. rewrite Hn1 by lia. done.
Qed.

Lemma reads_list l ts s :
  Forall2 (λ r t, ∀ x, r = Ok x → reads x t) l ts → write_list l = Ok s → reads s (TArr ts).
Proof.
  intros H (b & Hb & [= <-])%res_bind_ok. split; [by eexists _, _|]. destruct (decide (l = [])) as [->|Hne].
  - inversion H; subst. cbn in Hb. injection Hb as <-. exists 2%nat. intros [|[|n]] d rest Hn Hd; [lia..|]. done.
  - destruct (reads_items l ts b H Hb Hne) as [_ [n0 Hn]]. exists (S n0). intros [|n] d rest Hle Hd; [lia|].
    change (("[" +:+ b +:+ "]") +:+ String d rest) with (String "[" ((b +:+ "]") +:+ String d rest)).
    rewrite <- string_app_assoc. change ("]" +:+ String d rest) with (String "]" (String d rest)).
    cbn [read]. change (Ascii.eqb "[" quote) with false. cbn iota. change (Ascii.eqb "[" "[") with true. cbn iota.
    rewrite Hn by lia. done.
Qed.

Lemma reads_object l ts s :
  Forall2 (λ p q, q.1 = json_body p.1 ∧ ∀ x, p.2 = Ok x → reads x q.2) l ts → write_object l = Ok s → reads s (TObj ts).
Proof.
  intros H (b & Hb & [= <-])%res_bind_ok. split; [by eexists _, _|]. destruct (decide (l = [])) as [->|Hne].
  - inversion H; subst. injection Hb as <-. exists 2%nat. intros [|[|n]] d rest Hn Hd; [lia..|]. done.
  - destruct (reads_fields l ts b H Hb Hne) as [_ [n0 Hn]]. exists (S n0). intros [|n] d rest Hle Hd; [lia|].
    change (("{" +:+ b +:+ "}") +:+ String d rest) with (String "{" ((b +:+ "}") +:+ String d rest)).
    rewrite <- string_app_assoc. change ("}" +:+ String d rest) with (String "}" (String d rest)).
    cbn [read]. change (Ascii.eqb "{" quote) with false. cbn iota. change (Ascii.eqb "{" "[") with false. cbn iota.
    change (Ascii.eqb "{" "{") with true. cbn iota. rewrite Hn by lia. done.
Qed.

(** A text is read one way. *)
Lemma reads_unique s t1 t2 : reads s t1 → reads s t2 → t1 = t2.
Proof.
  intros [_ [n1 H1]] [_ [n2 H2]].
  specialize (H1 (max n1 n2) ","%char "" ltac:(lia) eq_refl). specialize (H2 (max n1 n2) ","%char "" ltac:(lia) eq_refl).
  congruence.
Qed.

Lemma reads_map (m : list (string * value)) s :
  Forall (λ p, ∀ x, writeSortedJSON p.2 = Ok x → reads x (tree_of p.2)) m →
  writeSortedMap (map (λ p, (p.1, writeSortedJSON p.2)) m) = Ok s →
  reads s (obj (map (λ p, (p.1, tree_of p.2)) m)).
Proof.
  intros H. unfold obj, writeSortedMap. apply reads_object.
  change (map (λ p, (p.1, writeSortedJSON p.2)) m) with ((λ p : string * value, (p.1, writeSortedJSON p.2)) <$> m).
  change (map (λ p, (p.1, tree_of p.2)) m) with ((λ p : string * value, (p.1, tree_of p.2)) <$> m).
  rewrite (sort_keys_fmap (λ p : string * value, (p.1, writeSortedJSON p.2))) by done.
  rewrite (sort_keys_fmap (λ p : string * value, (p.1, tree_of p.2))) by done. rewrite <- list_fmap_compose.
  rewrite <- (sort_keys_perm m) in H. apply Forall2_fmap, Forall_Forall2_diag. eapply Forall_impl; [done|]. intros p Hp. done.
Qed.

(** What is written is read back as the tree of the value. *)
Lemma write_reads v s : writeSortedJSON v = Ok s → reads s (tree_of v).
Proof.
  revert s. induction v as [|x|b|z|x|l|l IH|m IH| |l IH] using value_ind'; intros s; cbn [writeSortedJSON tree_of].
  - intros [= <-]. by apply reads_token.
  - intros [= <-]. apply reads_string.
  - intros [= <-]. destruct b; by apply reads_token.
  - intros [= <-]. apply reads_number, pretty_Z_token.
  - unfold write_float. destruct (json_number x) as [t|] eqn:E; [|done]. intros [= <-].
    eapply reads_number, json_number_token, E.
  - destruct l as [l|]; [|intros [= <-]; by apply reads_token]. apply reads_list.
    apply Forall2_fmap, Forall_Forall2_diag, Forall_true. intros y t [= <-]. apply reads_string.
  - apply reads_list. apply (Forall2_fmap _ _ _ _), Forall_Forall2_diag. eapply Forall_impl; [done|]. auto.
  - by apply reads_map.
  - intros [= <-]. by apply reads_token.
  - apply reads_list. apply (Forall2_fmap _ _ _ _), Forall_Forall2_diag. eapply Forall_impl; [done|].
    intros m Hm t. by apply reads_map.
Qed.

(** The writer loses nothing but the order of the entries. *)
Lemma writeSortedJSON_inj v1 v2 s : writeSortedJSON v1 = Ok s → writeSortedJSON v2 = Ok s → tree_of v1 = tree_of v2.
Proof.
  intros H1%write_reads H2%write_reads. by eapply reads_unique.
Qed.

(** ** Fields *)

(** [m[k]]: the keys are distinct, the first entry is the only one. *)
Fixpoint field {A} (k : string) (m : list (string * A)) : option A :=
  match m with
  | [] => None
  | (k', x) :: m' => if String.eqb k k' then Some x else field k m'
  end.

Lemma field_app {A} k (m1 m2 : list (string * A)) :
  field k (m1 ++ m2) = match field k m1 with Some x => Some x | None => field k m2 end.
Proof. induction m1 as [|[k' x] m1 IH]; cbn; [done|]. by destruct (String.eqb k k'). Qed.

Lemma field_fmap {A B} (f : A → B) k m : field k ((λ p, (p.1, f p.2)) <$> m) = f <$> field k m.
Proof. induction m as [|[k' x] m IH]; cbn; [done|]. by destruct (String.eqb k k'). Qed.

Lemma field_elem {A} k x (m : list (string * A)) : NoDup m.*1 → field k m = Some x ↔ (k, x) ∈ m.
Proof.
  induction m as [|[k' y] m IH]; cbn [fmap list_fmap fst field].
  { split; [done|]. by intros ?%not_elem_of_nil. }
  intros [Hn Hnd]%NoDup_cons. destruct (String.eqb_spec k k') as [->|Hne].
  - split; [intros [= ->]; by left|]. intros [[= ->]|Hin]%elem_of_cons; [done|].
    destruct Hn. apply list_elem_of_fmap. by exists (k', x).
  - rewrite IH by done. rewrite elem_of_cons. naive_solver.
Qed.

Lemma field_perm {A} k (m1 m2 : list (string * A)) : m1 ≡ₚ m2 → NoDup m1.*1 → field k m1 = field k m2.
Proof.
  intros Hp Hnd. assert (NoDup m2.*1) by (by rewrite <- Hp). apply option_eq. intros x. rewrite !field_elem by done.
  by rewrite Hp.
Qed.

(** Two objects written alike have the same fields. *)
Lemma obj_field (m1 m2 : list (string * tree)) k :
  obj m1 = obj m2 → NoDup m1.*1 → NoDup m2.*1 → (∀ k, k ∈ m1.*1 ∨ k ∈ m2.*1 → json_body k = k) → field k m1 = field k m2.
Proof.
  unfold obj. intros [= H] Hnd1 Hnd2 Hk.
  assert (∀ m : list (string * tree), (∀ k, k ∈ m.*1 → json_body k = k) →
    (λ p : string * tree, (json_body p.1, p.2)) <$> sort_keys m = sort_keys m) as Hid.
  { intros m Hm. transitivity (Datatypes.id <$> sort_keys m); [|apply list_fmap_id]. apply list_fmap_ext. intros i [k' x] Hi.
    cbn. f_equal. apply Hm. apply list_elem_of_lookup_2 in Hi. rewrite sort_keys_perm in Hi.
    apply list_elem_of_fmap. by exists (k', x). }
  rewrite !Hid in H by auto. rewrite <- (field_perm k (sort_keys m1) m1), <- (field_perm k (sort_keys m2) m2).
  - by rewrite H.
  - apply sort_keys_perm.
  - by rewrite sort_keys_perm.
  - apply sort_keys_perm.
  - by rewrite sort_keys_perm.
Qed.

(** ** Values written alike *)

Definition written (v : value) : Prop := ∃ s, writeSortedJSON v = Ok s.

Definition same (v1 v2 : value) : Prop := tree_of v1 = tree_of v2 ∧ written v1 ∧ written v2.

Lemma same_write v1 v2 s : writeSortedJSON v1 = Ok s → writeSortedJSON v2 = Ok s → same v1 v2.
Proof. intros H1 H2. split; [by eapply writeSortedJSON_inj|]. split; by eexists. Qed.

Lemma same_string a b : same (VString a) (VString b) → utf8_valid a = true → utf8_valid b = true → a = b.
Proof. intros [[= H] _] Ha Hb. by apply json_body_inj. Qed.

Lemma same_bool a b : same (VBool a) (VBool b) → a = b.
Proof. intros [[= H] _]. by destruct a, b. Qed.

Lemma same_int a b : same (VInt a) (VInt b) → a = b.
Proof. intros [[= H] _]. by apply (inj pretty). Qed.

Lemma same_float x y : same (VFloat x) (VFloat y) → x = y.
Proof.
  intros ([= H] & [s Hx] & [t Hy]). cbn in Hx, Hy. unfold write_float in *.
  destruct (json_number x) as [a|] eqn:Ea, (json_number y) as [b|] eqn:Eb; try done.
  cbn in H. subst b. by eapply json_number_inj.
Qed.

Lemma same_strings o1 o2 :
  same (VStrings o1) (VStrings o2) → (∀ l s, o1 = Some l ∨ o2 = Some l → s ∈ l → utf8_valid s = true) → o1 = o2.
Proof.
  intros [H _] Hv. destruct o1 as [l1|], o2 as [l2|]; cbn in H; try done. injection H as H. f_equal.
  assert (∀ s, s ∈ l1 → utf8_valid s = true) as Hv1 by eauto.
  assert (∀ s, s ∈ l2 → utf8_valid s = true) as Hv2 by eauto. clear Hv.
  revert l2 H Hv2. induction l1 as [|a l1 IH]; intros [|b l2]; cbn; try done. intros [= Hab H] Hv2. f_equal.
  - apply json_body_inj; [apply Hv1; by left|apply Hv2; by left|done].
  - apply IH; [|done|]; intros s Hs; [apply Hv1|apply Hv2]; by right.
Qed.

Lemma write_seq_ok l s : write_seq l = Ok s → Forall (λ r, ∃ x, r = Ok x) l.
Proof.
  revert s. induction l as [|r l IH]; intros s; [constructor|]. destruct l as [|r' l].
  - cbn. intros ->. repeat constructor. by eexists.
  - change (write_seq (r :: r' :: l)) with (a ← r; b ← write_seq (r' :: l); Ok (a +:+ "," +:+ b)).
    intros (a & -> & (b & Hb & _)%res_bind_ok)%res_bind_ok. constructor; [by eexists|eauto].
Qed.

Lemma written_map m : written (VMap m) → Forall (λ p, written p.2) m.
Proof.
  intros [s Hs]. cbn in Hs. apply res_bind_ok in Hs as (t & Ht & _). apply write_seq_ok in Ht.
  apply (Forall_fmap write_entry (λ r, ∃ x, r = Ok x)) in Ht. rewrite sort_keys_perm in Ht.
  apply (Forall_fmap (λ p : string * value, (p.1, writeSortedJSON p.2))) in Ht. eapply Forall_impl; [done|].
  intros [k v] [x (y & Hy & _)%res_bind_ok]. by exists y.
Qed.

Lemma written_maps l : written (VMaps (Some l)) → Forall (λ m, written (VMap m)) l.
Proof.
  intros [s Hs]. cbn in Hs. apply res_bind_ok in Hs as (t & Ht & _). apply write_seq_ok in Ht.
  apply (Forall_fmap (λ m, writeSortedMap (map (λ p, (p.1, writeSortedJSON p.2)) m))) in Ht.
  eapply Forall_impl; [done|]. done.
Qed.

(** Distinct keys, written as they are. *)
Definition plain_keys (ks : list string) : Prop := NoDup ks ∧ Forall (λ k, json_body k = k) ks.

#[export] Instance plain_keys_dec ks : Decision (plain_keys ks).
Proof. unfold plain_keys. apply _. Defined.

(** What the two maps hold at a key. *)
Definition same_at (o1 o2 : option value) : Prop :=
  match o1, o2 with Some a, Some b => same a b | None, None => True | _, _ => False end.

Lemma same_map m1 m2 k :
  same (VMap m1) (VMap m2) → plain_keys m1.*1 → plain_keys m2.*1 → same_at (field k m1) (field k m2).
Proof.
  intros (H & H1%written_map & H2%written_map) [Hn1 Hp1] [Hn2 Hp2]. cbn in H.
  assert (∀ m, map (λ p : string * value, (p.1, tree_of p.2)) m = (λ p, (p.1, tree_of p.2)) <$> m) as Hf by done.
  rewrite !Hf in H.
  assert (∀ m : list (string * value), ((λ p, (p.1, tree_of p.2)) <$> m).*1 = m.*1) as Hkeys.
  { intros m. rewrite <- list_fmap_compose. by apply list_fmap_ext. }
  apply (obj_field _ _ k) in H; [|by rewrite Hkeys..|].
  2: { intros k'. rewrite !Hkeys. rewrite Forall_forall in Hp1, Hp2. naive_solver. }
  rewrite !field_fmap in H. unfold same_at.
  destruct (field k m1) as [a|] eqn:Ea, (field k m2) as [b|] eqn:Eb; cbn in H; try done. injection H as H.
  apply field_elem in Ea, Eb; [|done..]. rewrite Forall_forall in H1, H2. split; [done|]. split.
  - by apply (H1 (k, a)).
  - by apply (H2 (k, b)).
Qed.

Lemma same_maps l1 l2 : same (VMaps (Some l1)) (VMaps (Some l2)) → Forall2 (λ m1 m2, same (VMap m1) (VMap m2)) l1 l2.
Proof.
  intros (H & H1%written_maps & H2%written_maps). cbn in H. injection H as H.
  revert l2 H H2. induction H1 as [|m1 l1 Hm1 _ IH]; intros [|m2 l2]; cbn; try done.
  intros [= Hm Hl] [Hm2 H2]%Forall_cons. constructor; [|by apply IH]. split; [exact (f_equal TObj Hm)|done].
Qed.

End values.
Arguments value F : clear implicits.

(** ** A text for every float64 *)

Definition digit_char (c : ascii) : bool := in_range 48 57 c.

Lemma pretty_N_digits n : all_chars digit_char (pretty (n : N)) = true.
Proof.
  assert (∀ m s, all_chars digit_char s = true → all_chars digit_char (pretty_N_go m s) = true) as Hgo.
  { intros m. induction (N.lt_wf_0 m) as [m _ IH]; intros s Hs. destruct (decide (m = 0)) as [->|]; [done|].
    rewrite pretty_N_go_step by lia. apply IH; [apply N.div_lt; lia|]. cbn [all_chars]. rewrite Hs, andb_true_r.
    unfold pretty_N_char. by repeat case_match. }
  unfold pretty, pretty_N. case_decide; [done|]. by apply Hgo.
Qed.

Lemma digits_split a a' c b b' :
  digit_char c = false → all_chars digit_char a = true → all_chars digit_char a' = true →
  a +:+ String c b = a' +:+ String c b' → a = a' ∧ b = b'.
Proof.
  intros Hc. revert a'. induction a as [|x a IH]; intros [|y a'] Ha Ha' H; cbn in Ha, Ha'; go_bool.
  - by injection H as ->.
  - injection H as -> H. congruence.
  - injection H as -> H. congruence.
  - injection H as -> H. by destruct (IH a') as [-> ->].
Qed.

(** Sign, mantissa and binary exponent. *)
Definition exact_text (x : float64) : option string :=
  match x with
  | SpecFloat.S754_zero s => Some (if s then "-0" else "0")
  | SpecFloat.S754_finite s m e => Some ((if s then "-" else "") +:+ pretty (Npos m) +:+ String "e" (pretty e))
  | _ => None
  end.

Lemma exact_text_token x t : exact_text x = Some t → number_token t.
Proof.
  destruct x as [[]| | |s m e]; intros [= <-]; [by split..|].
  destruct (pretty_N_token (Npos m)) as [Hm Hm'], (pretty_Z_token e) as [_ He]. split.
  - destruct s; [done|]. change ("" +:+ ?x) with x. destruct (pretty (Npos m)); [done|]. by rewrite string_app_cons.
  - rewrite !all_chars_app. cbn [all_chars]. rewrite Hm', He. by destruct s.
Qed.

(** The digits of a mantissa are not empty and are no sign. *)
Lemma exact_text_inj x y t : exact_text x = Some t → exact_text y = Some t → x = y.
Proof.
  pose proof pretty_N_digits as Hd.
  assert (∀ m e, pretty (Npos m) +:+ String "e" (pretty (e : Z)) ≠ "0") as Hz.
  { intros m e H. specialize (Hd (Npos m)). destruct (pretty (Npos m)) as [|a d] eqn:E; [by destruct (pretty_N_token (Npos m))|].
    rewrite string_app_cons in H. injection H as -> H. destruct d; [done|]. by rewrite string_app_cons in H. }
  assert (∀ m r s, pretty (Npos m) +:+ r ≠ String "-" s) as Hs.
  { intros m r s H. specialize (Hd (Npos m)). destruct (pretty (Npos m)) as [|a d] eqn:E; [by destruct (pretty_N_token (Npos m))|].
    rewrite string_app_cons in H. injection H as -> H. done. }
  assert (∀ m m' e e', pretty (Npos m) +:+ String "e" (pretty (e : Z)) = pretty (Npos m') +:+ String "e" (pretty (e' : Z)) →
    m = m' ∧ e = e') as Hme.
  { intros m m' e e' H. apply digits_split in H as [H1 H2]; [|done|apply Hd..]. apply (inj pretty) in H1, H2. by injection H1 as ->. }
  intros Hx Hy. destruct x as [[]| | |[] m e], y as [[]| | |[] m' e']; cbn in Hx, Hy; try discriminate; try done;
    rewrite <- Hx in Hy; clear Hx; try discriminate; injection Hy as Hy;
    repeat change ("" +:+ ?a) with a in Hy.
  - by apply Hz in Hy.
  - by apply Hs in Hy.
  - by apply Hz in Hy.
  - symmetry in Hy. by apply Hz in Hy.
  - by apply Hme in Hy as [-> ->].
  - by apply Hs in Hy.
  - symmetry in Hy. by apply Hs in Hy.
  - symmetry in Hy. by apply Hz in Hy.
  - symmetry in Hy. by apply Hs in Hy.
  - by apply Hme in Hy as [-> ->].
Qed.

Definition exact_number : JsonNumber float64 :=
  {| json_number := exact_text; json_number_token := exact_text_token; json_number_inj := exact_text_inj |}.

End Json.
