(* ===== verification/Rfc3339.v ===== *)
(** * Times as encoding/json writes them

    time.Time.MarshalJSON: RFC 3339 with the fraction of a second cut of its
    trailing zeros.  A text determines its UTC instant. *)

From S2P Require Import Prelude GoTime Encoding Json.
From stdpp Require Import base strings tactics list.
From Stdlib Require Import Ascii ZArith Lia.
Import Encoding Json.

Module Rfc3339.
Local Open Scope Z_scope.

(** An instant and the offset, in minutes, it is written with. *)
Record stamp := mkStamp { st_instant : time; st_offset : Z }.

Definition UTC (s : stamp) : stamp := mkStamp (st_instant s) 0.

(** [k] decimal digits, the most significant first. *)
Fixpoint digits (k : nat) (n : Z) : string :=
  match k with
  | O => ""
  | S k => String (digit (n / 10 ^ Z.of_nat k mod 10)) (digits k n)
  end.

Definition zero_char : ascii := ascii_of_N 48.

Fixpoint strip_zeros (s : string) : string :=
  match s with
  | EmptyString => EmptyString
  | String c s' =>
      match strip_zeros s' with
      | EmptyString => if Ascii.eqb c zero_char then EmptyString else String c EmptyString
      | t => String c t
      end
  end.

Definition fraction (n : Z) : string := if n =? 0 then "" else "." +:+ strip_zeros (digits 9 n).

Definition clock (t : time) : string :=
  let r := t mod Day / Second in
  pad2 (r / 3600) +:+ ":" +:+ pad2 (r / 60 mod 60) +:+ ":" +:+ pad2 (r mod 60).

Definition zone (off : Z) : string :=
  if off =? 0 then "Z"
  else (if off <? 0 then "-" else "+") +:+ pad2 (Z.abs off / 60) +:+ ":" +:+ pad2 (Z.abs off mod 60).

Definition formatRFC3339Nano (s : stamp) : string :=
  let l := st_instant s + st_offset s * Minute in
  FormatDate l +:+ "T" +:+ clock l +:+ fraction (l mod Second) +:+ zone (st_offset s).

Definition is_modern (t : time) : bool := (day_of_civil 0 1 1 <=? day_index t) && (day_index t <? day_of_civil 10000 1 1).

(** What MarshalJSON puts between the quotes. *)
Definition marshal_time (s : stamp) : res string :=
  if negb (is_modern (st_instant s + st_offset s * Minute)) then Err "Time.MarshalJSON: year outside of range [0,9999]"
  else if 24 <=? Z.abs (st_offset s) / 60 then Err "Time.MarshalJSON: timezone hour outside of range [0,23]"
  else Ok (formatRFC3339Nano s).

(** ** The text determines the instant *)

Lemma is_modern_spec t : is_modern t = true ↔ modern t.
Proof. unfold is_modern, modern. rewrite andb_true_iff, Z.leb_le, Z.ltb_lt. done. Qed.

Lemma digit_undigit k : 0 <= k < 10 → undigit (digit k) = Some k.
Proof.
  intros H. assert (k = 0 ∨ k = 1 ∨ k = 2 ∨ k = 3 ∨ k = 4 ∨ k = 5 ∨ k = 6 ∨ k = 7 ∨ k = 8 ∨ k = 9) as Hk by lia.
  repeat destruct Hk as [-> |Hk]; try reflexivity. by subst.
Qed.

Lemma digit_inj a b : 0 <= a < 10 → 0 <= b < 10 → digit a = digit b → a = b.
Proof. intros Ha Hb H. apply (f_equal undigit) in H. rewrite !digit_undigit in H by done. congruence. Qed.

Lemma digits_length k n : String.length (digits k n) = k.
Proof. induction k; cbn; congruence. Qed.

Lemma digits_inj k n m : digits k n = digits k m → n mod 10 ^ Z.of_nat k = m mod 10 ^ Z.of_nat k.
Proof.
  induction k as [|k IH]; cbn [digits]; [by rewrite !Z.mod_1_r|]. intros [= Hd Hr%IH].
  apply digit_inj in Hd; [|by apply Z.mod_pos_bound..].
  rewrite Nat2Z.inj_succ, Z.pow_succ_r by lia. rewrite (Z.mul_comm 10), !Z.rem_mul_r by lia. by rewrite Hd, Hr.
Qed.

Lemma pad2_length n : String.length (pad2 n) = 2%nat.
Proof. done. Qed.

Lemma pad2_inj a b : 0 <= a < 100 → 0 <= b < 100 → pad2 a = pad2 b → a = b.
Proof.
  intros Ha Hb H. unfold pad2 in H. injection H as H1 H2. pose proof (FormatDay_digits a Ha) as Da. pose proof (FormatDay_digits b Hb) as Db.
  rewrite H1, H2 in Da. congruence.
Qed.

(** The digits that were cut are zeros. *)
Lemma strip_zeros_spec s : s = strip_zeros s +:+ Nat.iter (String.length s - String.length (strip_zeros s)) (String zero_char) "".
Proof.
  induction s as [|c s IH]; [done|]. cbn [strip_zeros]. destruct (strip_zeros s) as [|d t] eqn:E.
  - destruct (Ascii.eqb_spec c zero_char) as [->|Hc].
    + cbn [String.length]. rewrite Nat.sub_0_r. cbn [Nat.iter nat_rect]. change ("" +:+ ?x) with x in *. f_equal.
      cbn [String.length] in IH. rewrite Nat.sub_0_r in IH. exact IH.
    + rewrite string_app_cons. cbn [String.length]. change ("" +:+ ?x) with x in *. cbn [String.length] in IH.
      rewrite Nat.sub_0_r in IH. replace (S (String.length s) - 1)%nat with (String.length s) by lia. by f_equal.
  - rewrite string_app_cons. cbn [String.length] in *. f_equal.
    replace (S (String.length s) - S (S (String.length t)))%nat with (String.length s - S (String.length t))%nat by lia. exact IH.
Qed.

Lemma strip_zeros_inj a b : String.length a = String.length b → strip_zeros a = strip_zeros b → a = b.
Proof. intros Hl H. rewrite (strip_zeros_spec a), (strip_zeros_spec b), Hl, H. done. Qed.

(** A fraction is cut off by the zone that follows. *)
Lemma fraction_inj n m : 0 <= n < Second → 0 <= m < Second → fraction n +:+ "Z" = fraction m +:+ "Z" → n = m.
Proof.
  intros Hn Hm. unfold fraction. destruct (Z.eqb_spec n 0) as [->|En], (Z.eqb_spec m 0) as [->|Em]; try done.
  intros H.
  assert (∀ a b, ("." +:+ a) +:+ "Z" = ("." +:+ b) +:+ "Z" → a = b) as Hz.
  { intros a b E. change ("." +:+ ?x) with (String "." x) in E. rewrite !string_app_cons in E. injection E as E. pose proof (f_equal String.length E) as El. rewrite !string_length_app in El. cbn in El.
    by apply string_app_inj_l in E as [-> _]; [|lia]. }
  apply Hz, strip_zeros_inj in H; [|by rewrite !digits_length]. apply digits_inj in H.
  change (10 ^ Z.of_nat 9) with Second in H. by rewrite !Z.mod_small in H.
Qed.

Lemma FormatDate_length t : String.length (FormatDate t) = 10%nat.
Proof. unfold FormatDate, FormatDay. destruct (civil _) as [[y m] d]. done. Qed.

Lemma clock_length t : String.length (clock t) = 8%nat.
Proof. done. Qed.

Lemma clock_inj t u : clock t = clock u → t mod Day / Second = u mod Day / Second.
Proof.
  unfold clock. cbn zeta. assert (∀ t, 0 <= t mod Day / Second < 86400) as Hr.
  { intros v. pose proof (Z.mod_pos_bound v Day Day_pos). split; [apply Z.div_pos; [lia|done]|]. apply Z.div_lt_upper_bound; [done|]. 
    change (Second * 86400) with Day. lia. }
  pose proof (Hr t) as Ht. pose proof (Hr u) as Hu. revert Ht Hu. generalize (t mod Day / Second) (u mod Day / Second). intros a b Ha Hb H.
  apply string_app_inj_l in H as [H1 H]; [|done]. apply (string_app_inj_l ":" ":") in H as [_ H]; [|done].
  apply string_app_inj_l in H as [H2 H]; [|done]. apply (string_app_inj_l ":" ":") in H as [_ H]; [|done].
  apply pad2_inj in H1; [|dlia..]. apply pad2_inj in H2; [|dlia..]. apply pad2_inj in H; [|dlia..]. dlia.
Qed.

Lemma format_utc_inj t u : modern t → modern u → formatRFC3339Nano (mkStamp t 0) = formatRFC3339Nano (mkStamp u 0) → t = u.
Proof.
  unfold formatRFC3339Nano. cbn [st_instant st_offset]. rewrite !Z.mul_0_l, !Z.add_0_r. intros Ht Hu H.
  apply string_app_inj_l in H as [H1 H]; [|by rewrite !FormatDate_length]. apply (string_app_inj_l "T" "T") in H as [_ H]; [|done].
  apply string_app_inj_l in H as [H2%clock_inj H]; [|done]. change (zone 0) with "Z" in H.
  apply fraction_inj in H; [|by apply Z.mod_pos_bound..]. apply FormatDate_inj in H1; [|done..].
  unfold truncDay in H1. pose proof (Z.div_mod t Day ltac:(done)) as Dt. pose proof (Z.div_mod u Day ltac:(done)) as Du.
  assert (∀ v, v mod Day = Second * (v mod Day / Second) + v mod Second) as Hs.
  { intros v. rewrite (Z.div_mod (v mod Day) Second) at 1 by done. f_equal.
    change Day with (Second * 86400). rewrite Z.rem_mul_r by done. rewrite Z.mul_comm, Z.mod_add by done. by rewrite Z.mod_mod. }
  rewrite (Hs t), H2, H in Dt. rewrite (Hs u) in Du. lia.
Qed.

(** The text is ASCII. *)
Lemma ascii_valid s : all_chars is_ascii s = true → utf8_valid s = true.
Proof.
  unfold utf8_valid. induction s as [|c s IH]; [done|]. cbn [all_chars utf8_from]. intros [-> H]%andb_true_iff. by apply IH.
Qed.

Lemma digit_ascii k : 0 <= k < 10 → is_ascii (digit k) = true.
Proof.
  intros H. assert (k = 0 ∨ k = 1 ∨ k = 2 ∨ k = 3 ∨ k = 4 ∨ k = 5 ∨ k = 6 ∨ k = 7 ∨ k = 8 ∨ k = 9) as Hk by lia.
  repeat destruct Hk as [-> |Hk]; try reflexivity. by subst.
Qed.

Lemma pad2_ascii n : all_chars is_ascii (pad2 n) = true.
Proof. unfold pad2. cbn [all_chars]. rewrite !digit_ascii by (apply Z.mod_pos_bound; lia). done. Qed.

Lemma digits_ascii k n : all_chars is_ascii (digits k n) = true.
Proof. induction k as [|k IH]; [done|]. cbn [digits all_chars]. rewrite digit_ascii, IH by (apply Z.mod_pos_bound; lia). done. Qed.

Lemma strip_zeros_ascii s : all_chars is_ascii s = true → all_chars is_ascii (strip_zeros s) = true.
Proof. intros H. rewrite (strip_zeros_spec s), all_chars_app in H. by apply andb_true_iff in H as [H _]. Qed.

Lemma format_ascii s : all_chars is_ascii (formatRFC3339Nano s) = true.
Proof.
  unfold formatRFC3339Nano, FormatDate, FormatDay, clock, fraction, zone. destruct (civil _) as [[y m] d]. unfold pad4.
  destruct (_ =? 0); destruct (st_offset s =? 0); rewrite !all_chars_app, !pad2_ascii; try done.
  - destruct (_ <? _); by rewrite ?all_chars_app, ?pad2_ascii.
  - by rewrite (strip_zeros_ascii (digits 9 _) (digits_ascii _ _)).
  - rewrite (strip_zeros_ascii (digits 9 _) (digits_ascii _ _)). destruct (_ <? _); by rewrite ?all_chars_app, ?pad2_ascii.
Qed.

End Rfc3339.
