(* ===== verification/Signing.v ===== *)
(** * Signed reports (internal/signing/report.go)

    The report, its canonical payload at every payload version, the view with
    the amounts withheld, signing and the two verifiers.  SHA-256, ECDSA,
    Ed25519 and the public-key encodings are the parameter [Crypto]. *)

From S2P Require Import Prelude Num GoTime Encoding Json.
From stdpp Require Import base strings pretty tactics list.
From Stdlib Require Import ZArith Lia.
Import Encoding Json.

Module Signing.

Definition SignatureAlgorithm : string := "ECDSA-P256-SHA256".
Definition EnclaveVersion : string := "1.1.3-go".
Definition AnnualizationDays : Z := 365.
Definition PayloadVersion : string := "1.8".

Definition payloadVersionsWithoutWinRate : list string := [""; "1.0"; "1.1"].
Definition payloadVersionsWithoutVerifiabilityClass : list string := [""; "1.0"; "1.1"; "1.2"].
Definition payloadVersionsWithoutRiskFreeRate : list string := [""; "1.0"; "1.1"; "1.2"; "1.3"].
Definition payloadVersionsWithoutReportName : list string := [""; "1.0"; "1.1"; "1.2"; "1.3"; "1.4"].
Definition payloadVersionsWithoutAnnualizationBasis : list string := [""; "1.0"; "1.1"; "1.2"; "1.3"; "1.4"; "1.5"].
Definition payloadVersionsWithoutAnnualizationDays : list string :=
  [""; "1.0"; "1.1"; "1.2"; "1.3"; "1.4"; "1.5"; "1.6"].

(** [_, legacy := versions[v]] *)
Definition legacy (versions : list string) (v : string) : bool := existsb (String.eqb v) versions.

Definition VerifiabilityClassLive : string := "live".
Definition VerifiabilityClassInEnclave : string := "in-enclave".
Definition VerifiabilityClassRebuilderService : string := "rebuilder-service".

Record EnclaveAttestation := mkAttestation {
  ea_Measurement : string;
  ea_ReportData : string;
  ea_Platform : string;
  ea_Attested : bool;
  ea_ReportDataBoundToRequest : bool;
  ea_VcekVerified : bool;
}.

Record ExchangeInfo := mkExchangeInfo {
  ei_Name : string;
  ei_KYCLevel : string;
  ei_IsPaper : bool;
}.

Section report.
Context {F : Type} {JF : JsonNumber F}.

Record DailyReturn := mkDailyReturn {
  sd_Date : string;
  sd_NetReturn : F;
  sd_BenchmarkReturn : F;
  sd_Outperformance : F;
  sd_CumulativeReturn : F;
  sd_NAV : F;
  sd_VerifiabilityClass : string;
}.

Record MonthlyReturn := mkMonthlyReturn {
  sm_Date : string;
  sm_NetReturn : F;
  sm_BenchmarkReturn : F;
  sm_Outperformance : F;
  sm_AUM : F;
}.

Record RiskMetrics := mkRisk {
  rm_VaR95 : F;
  rm_VaR99 : F;
  rm_ExpectedShortfall : F;
  rm_Skewness : F;
  rm_Kurtosis : F;
}.

Record DrawdownPeriod := mkPeriod {
  dp_StartDate : string;
  dp_EndDate : string;
  dp_Depth : F;
  dp_Duration : Z;
  dp_Recovered : bool;
}.

Record DrawdownData := mkDrawdown {
  dd_CurrentDrawdown : F;
  dd_MaxDrawdownDuration : Z;
  dd_Periods : list DrawdownPeriod;
}.

Record BenchmarkMetrics := mkBenchmark {
  bm_BenchmarkName : string;
  bm_BenchmarkReturn : F;
  bm_Alpha : F;
  bm_Beta : F;
  bm_InformationRatio : F;
  bm_TrackingError : F;
  bm_Correlation : F;
}.

(** The metrics a report states, shared by [ReportInput] and [SignedReport]. *)
Record Metrics := mkReportMetrics {
  me_TotalReturn : F;
  me_AnnualizedReturn : F;
  me_Annualized : bool;
  me_PeriodDays : Z;
  me_SharpeRatio : F;
  me_SortinoRatio : F;
  me_CalmarRatio : F;
  me_MaxDrawdown : F;
  me_Volatility : F;
  me_WinRate : F;
  me_ProfitFactor : F;
  me_DataPoints : Z;
  me_BaseCurrency : string;
  me_Benchmark : string;
  me_RiskFreeRate : F;
}.

(** The extended data, shared likewise.  A nil [Exchanges] is [None]. *)
Record Extended := mkExtended {
  ex_Exchanges : option (list string);
  ex_ExchangeDetails : list ExchangeInfo;
  ex_DailyReturns : list DailyReturn;
  ex_MonthlyReturns : list MonthlyReturn;
  ex_RiskMetrics : option RiskMetrics;
  ex_DrawdownData : option DrawdownData;
  ex_BenchmarkMetrics : option BenchmarkMetrics;
}.

Record ReportInput := mkInput {
  in_UserUID : string;
  in_ReportName : string;
  in_PeriodStart : time;
  in_PeriodEnd : time;
  in_Metrics : Metrics;
  in_Extended : Extended;
}.

Record SignedReport := mkReport {
  sr_ReportID : string;
  sr_UserUID : string;
  sr_ReportName : string;
  sr_GeneratedAt : string;
  sr_PeriodStart : string;
  sr_PeriodEnd : string;
  sr_AnnualizationDays : Z;
  sr_Metrics : Metrics;
  sr_Extended : Extended;
  sr_Manager : string;
  sr_Firm : string;
  sr_EnclaveAttestation : option EnclaveAttestation;
  sr_Signature : string;
  sr_PublicKey : string;
  sr_SignatureAlgorithm : string;
  sr_ReportHash : string;
  sr_EnclaveVersion : string;
  sr_PayloadVersion : string;
  sr_PercentReportHash : string;
  sr_PercentSignature : string;
}.

(** ** The payload *)

Abbreviation entries := (list (string * value F)).

(** [m[k] = v], when the condition holds. *)
Definition entry_if (b : bool) (m : entries) : entries := if b then m else [].

Definition toExchangeDetailsPayload (l : list ExchangeInfo) : list entries :=
  (λ ex, [("name", VString (ei_Name ex)); ("kycLevel", VString (ei_KYCLevel ex)); ("isPaper", VBool (ei_IsPaper ex))]) <$> l.

Definition daily_entry (payloadVersion : string) (dr : DailyReturn) : entries :=
  [("date", VString (sd_Date dr)); ("netReturn", VFloat (sd_NetReturn dr));
   ("benchmarkReturn", VFloat (sd_BenchmarkReturn dr)); ("outperformance", VFloat (sd_Outperformance dr));
   ("cumulativeReturn", VFloat (sd_CumulativeReturn dr)); ("nav", VFloat (sd_NAV dr))] ++
  entry_if (negb (legacy payloadVersionsWithoutVerifiabilityClass payloadVersion))
    [("verifiabilityClass", VString (sd_VerifiabilityClass dr))].

Definition toDailyReturnsPayload (l : list DailyReturn) (payloadVersion : string) : list entries :=
  daily_entry payloadVersion <$> l.

Definition monthly_entry (mr : MonthlyReturn) : entries :=
  [("date", VString (sm_Date mr)); ("netReturn", VFloat (sm_NetReturn mr));
   ("benchmarkReturn", VFloat (sm_BenchmarkReturn mr)); ("outperformance", VFloat (sm_Outperformance mr));
   ("aum", VFloat (sm_AUM mr))].

Definition toMonthlyReturnsPayload (l : list MonthlyReturn) : list entries := monthly_entry <$> l.

Definition period_entry (p : DrawdownPeriod) : entries :=
  [("startDate", VString (dp_StartDate p)); ("endDate", VString (dp_EndDate p)); ("depth", VFloat (dp_Depth p));
   ("duration", VInt (dp_Duration p)); ("recovered", VBool (dp_Recovered p))].

Definition toDrawdownPeriodsPayload (l : list DrawdownPeriod) : list entries := period_entry <$> l.

Definition risk_entries (r : RiskMetrics) : entries :=
  [("var95", VFloat (rm_VaR95 r)); ("var99", VFloat (rm_VaR99 r)); ("expectedShortfall", VFloat (rm_ExpectedShortfall r));
   ("skewness", VFloat (rm_Skewness r)); ("kurtosis", VFloat (rm_Kurtosis r))].

Definition benchmark_entries (b : BenchmarkMetrics) : entries :=
  [("alpha", VFloat (bm_Alpha b)); ("beta", VFloat (bm_Beta b)); ("informationRatio", VFloat (bm_InformationRatio b));
   ("trackingError", VFloat (bm_TrackingError b)); ("correlation", VFloat (bm_Correlation b))].

Definition drawdown_entries (d : DrawdownData) : entries :=
  [("maxDrawdownDuration", VInt (dd_MaxDrawdownDuration d)); ("currentDrawdown", VFloat (dd_CurrentDrawdown d));
   ("drawdownPeriods", VMaps (Some (toDrawdownPeriodsPayload (dd_Periods d))))].

Definition attestation_entries (a : EnclaveAttestation) : entries :=
  [("measurement", VString (ea_Measurement a)); ("reportData", VString (ea_ReportData a));
   ("platform", VString (ea_Platform a)); ("attested", VBool (ea_Attested a));
   ("reportDataBoundToRequest", VBool (ea_ReportDataBoundToRequest a)); ("vcekVerified", VBool (ea_VcekVerified a))].

(** An entry for a non-nil pointer. *)
Definition entry_for {A} (k : string) (f : A → entries) (o : option A) : entries :=
  match o with Some x => [(k, VMap (f x))] | None => [] end.

(** [payload["metrics"]] *)
Definition metrics_entries (r : SignedReport) : entries :=
  let m := sr_Metrics r in
  let v := sr_PayloadVersion r in
  [("totalReturn", VFloat (me_TotalReturn m)); ("annualizedReturn", VFloat (me_AnnualizedReturn m));
   ("volatility", VFloat (me_Volatility m)); ("sharpeRatio", VFloat (me_SharpeRatio m));
   ("sortinoRatio", VFloat (me_SortinoRatio m)); ("maxDrawdown", VFloat (me_MaxDrawdown m));
   ("calmarRatio", VFloat (me_CalmarRatio m))] ++
  entry_if (negb (legacy payloadVersionsWithoutWinRate v))
    [("winRate", VFloat (me_WinRate m)); ("profitFactor", VFloat (me_ProfitFactor m))] ++
  entry_if (negb (legacy payloadVersionsWithoutRiskFreeRate v)) [("riskFreeRate", VFloat (me_RiskFreeRate m))] ++
  entry_if (negb (legacy payloadVersionsWithoutAnnualizationBasis v))
    [("annualized", VBool (me_Annualized m)); ("periodDays", VInt (me_PeriodDays m))] ++
  entry_if (negb (legacy payloadVersionsWithoutAnnualizationDays v))
    [("annualizationDays", VInt (sr_AnnualizationDays r))] ++
  entry_for "riskMetrics" risk_entries (ex_RiskMetrics (sr_Extended r)) ++
  entry_for "benchmarkMetrics" benchmark_entries (ex_BenchmarkMetrics (sr_Extended r)) ++
  entry_for "drawdownData" drawdown_entries (ex_DrawdownData (sr_Extended r)).

Definition buildFinancialPayload (r : SignedReport) : entries :=
  [("payloadVersion", VString (sr_PayloadVersion r)); ("reportId", VString (sr_ReportID r));
   ("userUid", VString (sr_UserUID r)); ("generatedAt", VString (sr_GeneratedAt r));
   ("periodStart", VString (sr_PeriodStart r)); ("periodEnd", VString (sr_PeriodEnd r));
   ("baseCurrency", VString (me_BaseCurrency (sr_Metrics r))); ("dataPoints", VInt (me_DataPoints (sr_Metrics r)));
   ("exchanges", VStrings (ex_Exchanges (sr_Extended r))); ("metrics", VMap (metrics_entries r));
   ("dailyReturns", VMaps (Some (toDailyReturnsPayload (ex_DailyReturns (sr_Extended r)) (sr_PayloadVersion r))));
   ("monthlyReturns", VMaps (Some (toMonthlyReturnsPayload (ex_MonthlyReturns (sr_Extended r)))))] ++
  entry_if (negb (legacy payloadVersionsWithoutReportName (sr_PayloadVersion r))) [("reportName", VString (sr_ReportName r))] ++
  entry_for "enclaveAttestation" attestation_entries (sr_EnclaveAttestation r) ++
  entry_if (negb (String.eqb (me_Benchmark (sr_Metrics r)) "")) [("benchmark", VString (me_Benchmark (sr_Metrics r)))] ++
  entry_if (match ex_ExchangeDetails (sr_Extended r) with [] => false | _ => true end)
    [("exchangeDetails", VMaps (Some (toExchangeDetailsPayload (ex_ExchangeDetails (sr_Extended r)))))].

Definition CanonicalPayload (r : SignedReport) : res string := marshalSortedJSON (buildFinancialPayload r).

(** [delete(m, k)] *)
Definition delete_key (k : string) (m : entries) : entries := filter (λ p, p.1 ≠ k) m.

(** [for _, m := range payload[key] { delete(m, k) }] *)
Definition delete_in (key k : string) (p : string * value F) : string * value F :=
  match p with
  | (key', VMaps (Some l)) => if String.eqb key key' then (key', VMaps (Some (delete_key k <$> l))) else p
  | _ => p
  end.

Definition percent_entries (r : SignedReport) : entries :=
  ((λ p, delete_in "monthlyReturns" "aum" (delete_in "dailyReturns" "nav" p)) <$> buildFinancialPayload r) ++
  [("amountsWithheld", VBool true)].

Definition PercentPayload (r : SignedReport) : res string := marshalSortedJSON (percent_entries r).

End report.
Arguments DailyReturn F : clear implicits.
Arguments MonthlyReturn F : clear implicits.
Arguments RiskMetrics F : clear implicits.
Arguments DrawdownPeriod F : clear implicits.
Arguments DrawdownData F : clear implicits.
Arguments BenchmarkMetrics F : clear implicits.
Arguments Metrics F : clear implicits.
Arguments Extended F : clear implicits.
Arguments ReportInput F : clear implicits.
Arguments SignedReport F : clear implicits.

(** ** Signing *)

(** The standard library's cryptography.  [ecdsa_sign] takes the random bytes
    it reads; [parse_pkix] answers [None] for a key of another algorithm. *)
Class Crypto : Type := {
  PrivateKey : Type;
  ECDSAKey : Type;
  public : PrivateKey → ECDSAKey;
  sha256 : string → string;
  ecdsa_sign : nat → PrivateKey → string → res string;
  ecdsa_verify : ECDSAKey → string → string → bool;
  marshal_pkix : ECDSAKey → res string;
  parse_pkix : string → res (option ECDSAKey);
  ed25519_verify : string → string → string → bool;
}.

(** What is documented of it: the size of a hash and of a P-256 key in DER, a
    key parses back, a signature verifies and is not empty. *)
Class CryptoLaws (C : Crypto) : Prop := {
  sha256_length x : String.length (sha256 x) = 32%nat;
  pkix_length p d : marshal_pkix p = Ok d → String.length d = 91%nat;
  pkix_parse p d : marshal_pkix p = Ok d → parse_pkix d = Ok (Some p);
  ecdsa_correct rnd k d sg : ecdsa_sign rnd k d = Ok sg → ecdsa_verify (public k) d sg = true;
  ecdsa_nonempty rnd k d sg : ecdsa_sign rnd k d = Ok sg → sg ≠ "";
}.

(** Milliseconds are cut, not rounded. *)
Definition formatISO8601 (t : time) : string :=
  let ms := (t mod Day / 1000000)%Z in
  FormatDate t +:+ "T" +:+ pad2 (ms / 3600000) +:+ ":" +:+ pad2 (ms / 60000 mod 60) +:+ ":" +:+
  pad2 (ms / 1000 mod 60) +:+ "." +:+ String (digit (ms / 100 mod 10)) (pad2 (ms mod 100)) +:+ "Z".

Section signing.
Context {F : Type} {JF : JsonNumber F} {C : Crypto}.

Record ReportSigner := mkSigner {
  sg_privateKey : PrivateKey;
  sg_publicKeyBase64 : string;
  sg_attestation : option EnclaveAttestation;
}.

Definition newReportSignerFromPrivateKey (k : PrivateKey) : res ReportSigner :=
  match marshal_pkix (public k) with
  | Ok der => Ok (mkSigner k (b64_encode der) None)
  | Err e => Err ("marshal public key: " +:+ e)
  end.

Definition SetAttestation (s : ReportSigner) (att : option EnclaveAttestation) : ReportSigner :=
  mkSigner (sg_privateKey s) (sg_publicKeyBase64 s) att.

Definition signPayload (rnd : nat) (s : ReportSigner) (payload : string) : res (string * string) :=
  let hash := hex_encode (sha256 payload) in
  sg ← ecdsa_sign rnd (sg_privateKey s) (sha256 hash); Ok (hash, b64_encode sg).

(** The report before it is signed. *)
Definition draft (uuid : string) (now : time) (s : ReportSigner) (input : ReportInput F) : SignedReport F :=
  mkReport uuid (in_UserUID input) (in_ReportName input) (formatISO8601 now) (formatISO8601 (in_PeriodStart input))
    (formatISO8601 (in_PeriodEnd input)) AnnualizationDays (in_Metrics input) (in_Extended input) "" ""
    (sg_attestation s) "" (sg_publicKeyBase64 s) SignatureAlgorithm "" EnclaveVersion PayloadVersion "" "".

Definition with_signature (r : SignedReport F) (hash sg phash psg : string) : SignedReport F :=
  mkReport (sr_ReportID r) (sr_UserUID r) (sr_ReportName r) (sr_GeneratedAt r) (sr_PeriodStart r) (sr_PeriodEnd r)
    (sr_AnnualizationDays r) (sr_Metrics r) (sr_Extended r) (sr_Manager r) (sr_Firm r) (sr_EnclaveAttestation r) sg
    (sr_PublicKey r) (sr_SignatureAlgorithm r) hash (sr_EnclaveVersion r) (sr_PayloadVersion r) phash psg.

Definition wrap {A} (prefix : string) (r : res A) : res A :=
  match r with Ok a => Ok a | Err e => Err (prefix +:+ ": " +:+ e) end.

Definition Sign (uuid : string) (now : time) (rnd : nat) (s : ReportSigner) (input : ReportInput F) : res (SignedReport F) :=
  let report := draft uuid now s input in
  financialJSON ← wrap "serialize financial payload" (CanonicalPayload report);
  p ← wrap "sign report hash" (signPayload rnd s financialJSON);
  percentJSON ← wrap "serialize percent payload" (PercentPayload report);
  q ← wrap "sign percent report hash" (signPayload (S rnd) s percentJSON);
  Ok (with_signature report p.1 p.2 q.1 q.2).

(** ** Verifying *)

Inductive verify_error :=
| ErrUnknownAlgorithm
| ErrPublicKeyMismatch
| ErrAttestationNotBound
| ErrVcekUnverified
| ErrOther (msg : string).

(** [(bool, error)] *)
Inductive verdict := Verdict (b : bool) | Failed (e : verify_error).

Definition verifyECDSA (reportHash signatureB64 publicKey : string) : verdict :=
  match b64_decode signatureB64 with
  | None => Failed (ErrOther "decode ecdsa signature")
  | Some signatureDER =>
      match b64_decode publicKey with
      | None => Failed (ErrOther "decode ecdsa public key (base64)")
      | Some publicKeyDER =>
          match parse_pkix publicKeyDER with
          | Err e => Failed (ErrOther ("parse ecdsa public key: " +:+ e))
          | Ok None => Failed (ErrOther "public key is not ECDSA")
          | Ok (Some key) => Verdict (ecdsa_verify key (sha256 reportHash) signatureDER)
          end
      end
  end.

Definition verifyEd25519Legacy (reportHash signatureB64 publicKey : string) : verdict :=
  match hex_decode reportHash with
  | None => Failed (ErrOther "invalid report hash")
  | Some hash =>
      match b64_decode signatureB64 with
      | None => Failed (ErrOther "invalid signature")
      | Some signature =>
          match hex_decode publicKey with
          | None => Failed (ErrOther "invalid public key")
          | Some pk =>
              if negb (Nat.eqb (String.length pk) 32) then Failed (ErrOther "invalid public key format")
              else Verdict (ed25519_verify pk hash signature)
          end
      end
  end.

Definition Verify (reportHash signatureB64 publicKey algorithm : string) : verdict :=
  if String.eqb algorithm "" || String.eqb algorithm SignatureAlgorithm then
    verifyECDSA reportHash signatureB64 publicKey
  else if String.eqb algorithm "Ed25519" then verifyEd25519Legacy reportHash signatureB64 publicKey
  else Failed ErrUnknownAlgorithm.

(** The two views differ in their payload, hash and signature only. *)
Definition verify_view (payload : res string) (what hash signature : string) (r : SignedReport F) : verdict :=
  match payload with
  | Err e => Failed (ErrOther ("rebuild " +:+ what +:+ " payload: " +:+ e))
  | Ok canonical =>
      if negb (String.eqb (hex_encode (sha256 canonical)) hash) then Verdict false
      else Verify hash signature (sr_PublicKey r) (sr_SignatureAlgorithm r)
  end.

Definition VerifyReport (report : option (SignedReport F)) : verdict :=
  match report with
  | None => Failed (ErrOther "nil report")
  | Some r => verify_view (CanonicalPayload r) "canonical" (sr_ReportHash r) (sr_Signature r) r
  end.

Definition VerifyPercentReport (report : option (SignedReport F)) : verdict :=
  match report with
  | None => Failed (ErrOther "nil report")
  | Some r =>
      if String.eqb (sr_PercentReportHash r) "" || String.eqb (sr_PercentSignature r) "" then Verdict false
      else verify_view (PercentPayload r) "percent" (sr_PercentReportHash r) (sr_PercentSignature r) r
  end.

(** [subtle.ConstantTimeCompare] on strings of one length is equality. *)
Definition subtleConstantTimeStringEqual (a b : string) : Z :=
  if negb (Nat.eqb (String.length a) (String.length b)) then 0 else if String.eqb a b then 1 else 0.

(** The attestation posture of a report. *)
Definition posture (attestation : option EnclaveAttestation) : verdict :=
  match attestation with
  | None => Failed (ErrOther "signed report has no enclaveAttestation block")
  | Some att =>
      if negb (String.eqb (ea_Platform att) "sev-snp") || negb (ea_Attested att) then
        Failed (ErrOther "signed report is not attested by sev-snp")
      else if negb (ea_ReportDataBoundToRequest att) then Failed ErrAttestationNotBound
      else if negb (ea_VcekVerified att) then Failed ErrVcekUnverified
      else Verdict true
  end.

Definition VerifyReportStrict (report : option (SignedReport F)) (expectedPubKey : string) (expectSevSnp : bool) : verdict :=
  match report with
  | None => Failed (ErrOther "nil report")
  | Some r =>
      if String.eqb expectedPubKey "" then Failed (ErrOther "expectedPubKey is required")
      else if negb (subtleConstantTimeStringEqual (sr_PublicKey r) expectedPubKey =? 1)%Z then Failed ErrPublicKeyMismatch
      else match VerifyReport (Some r) with
      | Failed e => Failed e
      | Verdict false => Verdict false
      | Verdict true =>
          if expectSevSnp then posture (sr_EnclaveAttestation r)
          else Verdict true
      end
  end.

End signing.

(** ** Concrete cryptography for samples

    A polynomial hash and a signature that anybody can check: it keeps the
    documented laws, not the secrecy. *)

Definition toy_hash (x : string) : string :=
  be_bytes 32 (N.shiftl (foldl (λ h c, (h * 257 + Ascii.N_of_ascii c + 1) mod 18446744073709551616)%N 0%N (String.list_ascii_of_string x)) 192).

Definition toy_der : string := Nat.iter 91 (String (Ascii.ascii_of_N 107)) "".

Definition toy_crypto : Crypto := {|
  PrivateKey := unit; ECDSAKey := unit; public := λ k, k; sha256 := toy_hash;
  ecdsa_sign := λ _ _ d, Ok ("sig" +:+ d); ecdsa_verify := λ _ d sg, String.eqb sg ("sig" +:+ d);
  marshal_pkix := λ _, Ok toy_der;
  parse_pkix := λ d, if String.eqb d toy_der then Ok (Some tt) else Err "asn1"; ed25519_verify := λ pk m sg, String.eqb sg (pk +:+ m) |}.

Lemma toy_laws : CryptoLaws toy_crypto.
Proof.
  split; cbn -[toy_hash toy_der].
  - intros x. apply be_bytes_length.
  - by intros p d [= <-].
  - intros [] d [= <-]. done.
  - intros _ k d sg [= <-]. apply String.eqb_refl.
  - by intros _ k d sg [= <-].
Qed.

End Signing.
