(* ===== verification/SignedReports.v ===== *)
(** * What a signature covers

    The canonical payload determines every signed field of a report, a report
    that is signed verifies, and a report accepted under a pinned key is one
    its signer issued, up to the fields the signature does not cover. *)

From S2P Require Import Prelude Num GoTime Encoding Json Signing.
From stdpp Require Import base strings pretty tactics sets list.
From Stdlib Require Import ZArith Lia.
Import Encoding Json Signing.

Module SignedReports.

Section covered.
Context {F : Type} {NF : Num F} {JF : JsonNumber F}.

(** ** The signed fields *)

(** Text that encoding/json writes as it is, not with replacement characters. *)
Definition texts (l : list string) : Prop := ∀ s, s ∈ l → utf8_valid s = true.

Lemma texts_app l1 l2 : texts l1 → texts l2 → texts (l1 ++ l2).
Proof. intros H1 H2 s [Hs|Hs]%elem_of_app; auto. Qed.

Lemma texts_cons x l : texts (x :: l) ↔ utf8_valid x = true ∧ texts l.
Proof.
  split; [intros H; split; [apply H; by left|]; intros s Hs; apply H; by right|].
  intros [Hx Hl] s [->|Hs]%elem_of_cons; auto.
Qed.

Definition scalar_strings (r : SignedReport F) : list string :=
  [sr_PayloadVersion r; sr_ReportID r; sr_UserUID r; sr_GeneratedAt r; sr_PeriodStart r; sr_PeriodEnd r; sr_ReportName r;
   me_BaseCurrency (sr_Metrics r); me_Benchmark (sr_Metrics r)].

Record well_formed (r : SignedReport F) : Prop := {
  wf_scalars : texts (scalar_strings r);
  wf_exchanges : texts (default [] (ex_Exchanges (sr_Extended r)));
  wf_details : texts (ex_ExchangeDetails (sr_Extended r) ≫= λ e, [ei_Name e; ei_KYCLevel e]);
  wf_daily : texts (ex_DailyReturns (sr_Extended r) ≫= λ d, [sd_Date d; sd_VerifiabilityClass d]);
  wf_monthly : texts (ex_MonthlyReturns (sr_Extended r) ≫= λ m, [sm_Date m]);
  wf_drawdown d : ex_DrawdownData (sr_Extended r) = Some d → texts (dd_Periods d ≫= λ p, [dp_StartDate p; dp_EndDate p]);
  wf_attestation a : sr_EnclaveAttestation r = Some a → texts [ea_Measurement a; ea_ReportData a; ea_Platform a];
}.

(** [x] when the version covers it. *)
Definition covered {A} (versions : list string) (v : string) (x blank : A) : A := if legacy versions v then blank else x.

Definition view_metrics (v : string) (m : Metrics F) : Metrics F :=
  mkReportMetrics (me_TotalReturn m) (me_AnnualizedReturn m)
    (covered payloadVersionsWithoutAnnualizationBasis v (me_Annualized m) false)
    (covered payloadVersionsWithoutAnnualizationBasis v (me_PeriodDays m) 0%Z)
    (me_SharpeRatio m) (me_SortinoRatio m) (me_CalmarRatio m) (me_MaxDrawdown m) (me_Volatility m)
    (covered payloadVersionsWithoutWinRate v (me_WinRate m) f0)
    (covered payloadVersionsWithoutWinRate v (me_ProfitFactor m) f0)
    (me_DataPoints m) (me_BaseCurrency m) (me_Benchmark m)
    (covered payloadVersionsWithoutRiskFreeRate v (me_RiskFreeRate m) f0).

Definition view_daily (v : string) (d : DailyReturn F) : DailyReturn F :=
  mkDailyReturn (sd_Date d) (sd_NetReturn d) (sd_BenchmarkReturn d) (sd_Outperformance d) (sd_CumulativeReturn d) (sd_NAV d)
    (covered payloadVersionsWithoutVerifiabilityClass v (sd_VerifiabilityClass d) "").

(** The benchmark's name and its own return are not in the payload. *)
Definition view_benchmark (b : BenchmarkMetrics F) : BenchmarkMetrics F :=
  mkBenchmark "" f0 (bm_Alpha b) (bm_Beta b) (bm_InformationRatio b) (bm_TrackingError b) (bm_Correlation b).

Definition view_extended (v : string) (e : Extended F) : Extended F :=
  mkExtended (ex_Exchanges e) (ex_ExchangeDetails e) (view_daily v <$> ex_DailyReturns e) (ex_MonthlyReturns e)
    (ex_RiskMetrics e) (ex_DrawdownData e) (view_benchmark <$> ex_BenchmarkMetrics e).

(** The report with every field the signature does not cover left blank. *)
Definition signed_view (r : SignedReport F) : SignedReport F :=
  let v := sr_PayloadVersion r in
  mkReport (sr_ReportID r) (sr_UserUID r) (covered payloadVersionsWithoutReportName v (sr_ReportName r) "")
    (sr_GeneratedAt r) (sr_PeriodStart r) (sr_PeriodEnd r)
    (covered payloadVersionsWithoutAnnualizationDays v (sr_AnnualizationDays r) 0%Z)
    (view_metrics v (sr_Metrics r)) (view_extended v (sr_Extended r)) "" "" (sr_EnclaveAttestation r) "" "" "" "" "" v "" "".

(** ** Keys *)

Ltac all_cases :=
  repeat match goal with
  | |- context [entry_if ?b _] => destruct b; cbn [entry_if]
  | |- context [entry_for _ _ ?o] => destruct o; cbn [entry_for]
  end.

Lemma payload_keys r : plain_keys (buildFinancialPayload (F := F) r).*1.
Proof. unfold buildFinancialPayload. all_cases; apply (bool_decide_unpack _); vm_compute; exact I. Qed.

Lemma metrics_keys r : plain_keys (metrics_entries (F := F) r).*1.
Proof. unfold metrics_entries. cbn zeta. all_cases; apply (bool_decide_unpack _); vm_compute; exact I. Qed.

Lemma daily_keys v d : plain_keys (daily_entry (F := F) v d).*1.
Proof. unfold daily_entry. all_cases; apply (bool_decide_unpack _); vm_compute; exact I. Qed.

Ltac plain_entries := unfold plain_keys; apply (bool_decide_unpack _); vm_compute; exact I.

Lemma monthly_keys m : plain_keys (monthly_entry (F := F) m).*1.
Proof. plain_entries. Qed.

Lemma period_keys p : plain_keys (period_entry (F := F) p).*1.
Proof. plain_entries. Qed.

Lemma risk_keys r : plain_keys (risk_entries (F := F) r).*1.
Proof. plain_entries. Qed.

Lemma benchmark_keys b : plain_keys (benchmark_entries (F := F) b).*1.
Proof. plain_entries. Qed.

Lemma drawdown_keys d : plain_keys (drawdown_entries (F := F) d).*1.
Proof. plain_entries. Qed.

Lemma attestation_keys a : plain_keys (attestation_entries (F := F) a).*1.
Proof. plain_entries. Qed.

Lemma exchange_keys l m : m ∈ toExchangeDetailsPayload (F := F) l → plain_keys m.*1.
Proof. intros (e & -> & _)%list_elem_of_fmap. plain_entries. Qed.

#[local] Hint Resolve payload_keys metrics_keys daily_keys monthly_keys period_keys risk_keys benchmark_keys drawdown_keys
  attestation_keys : core.

(** ** The fields, one by one *)

(** The field [k] of two maps written alike. *)
Ltac at_key H k :=
  let Hk := fresh "Hk" in
  pose proof (same_map _ _ k H ltac:(auto) ltac:(auto)) as Hk; cbn -[legacy] in Hk;
  first [apply same_float in Hk | apply same_int in Hk | apply same_bool in Hk | idtac].

Lemma same_risk a b : same (VMap (risk_entries a)) (VMap (risk_entries b)) → a = b.
Proof.
  intros H. at_key H "var95". at_key H "var99". at_key H "expectedShortfall". at_key H "skewness". at_key H "kurtosis".
  destruct a, b. cbn in *. by subst.
Qed.

Lemma same_benchmark a b :
  same (VMap (benchmark_entries a)) (VMap (benchmark_entries b)) → view_benchmark a = view_benchmark b.
Proof.
  intros H. at_key H "alpha". at_key H "beta". at_key H "informationRatio". at_key H "trackingError". at_key H "correlation".
  unfold view_benchmark. congruence.
Qed.

Lemma same_monthly a b :
  same (VMap (monthly_entry a)) (VMap (monthly_entry b)) → utf8_valid (sm_Date a) = true → utf8_valid (sm_Date b) = true →
  a = b.
Proof.
  intros H Ha Hb. at_key H "date". at_key H "netReturn". at_key H "benchmarkReturn". at_key H "outperformance". at_key H "aum".
  apply same_string in Hk; [|done..]. destruct a, b. cbn in *. by subst.
Qed.

Lemma same_period a b :
  same (VMap (period_entry a)) (VMap (period_entry b)) →
  texts [dp_StartDate a; dp_EndDate a; dp_StartDate b; dp_EndDate b] → a = b.
Proof.
  intros H Hv. at_key H "startDate". at_key H "endDate". at_key H "depth". at_key H "duration". at_key H "recovered".
  apply same_string in Hk; [|apply Hv; set_solver..]. apply same_string in Hk0; [|apply Hv; set_solver..].
  destruct a, b. cbn in *. by subst.
Qed.

Lemma same_attestation a b :
  same (VMap (attestation_entries a)) (VMap (attestation_entries b)) →
  texts ([ea_Measurement a; ea_ReportData a; ea_Platform a; ea_Measurement b; ea_ReportData b; ea_Platform b]) → a = b.
Proof.
  intros H Hv. at_key H "measurement". at_key H "reportData". at_key H "platform". at_key H "attested".
  at_key H "reportDataBoundToRequest". at_key H "vcekVerified".
  apply same_string in Hk; [|apply Hv; set_solver..]. apply same_string in Hk0; [|apply Hv; set_solver..].
  apply same_string in Hk1; [|apply Hv; set_solver..]. destruct a, b. cbn in *. by subst.
Qed.

Lemma same_daily v a b :
  same (VMap (daily_entry v a)) (VMap (daily_entry v b)) →
  texts ([sd_Date a; sd_VerifiabilityClass a; sd_Date b; sd_VerifiabilityClass b]) →
  view_daily v a = view_daily v b.
Proof.
  intros H Hv. at_key H "date". at_key H "netReturn". at_key H "benchmarkReturn". at_key H "outperformance".
  at_key H "cumulativeReturn". at_key H "nav". at_key H "verifiabilityClass".
  apply same_string in Hk; [|apply Hv; set_solver..]. unfold view_daily, covered.
  destruct (legacy _ v); cbn in Hk5; [congruence|]. apply same_string in Hk5; [|apply Hv; set_solver..]. congruence.
Qed.

(** Lists of entries, element by element. *)
Lemma same_list {A B} (e : A → list (string * value F)) (f : A → B) (strings : A → list string) (l1 l2 : list A) :
  same (VMaps (Some (e <$> l1))) (VMaps (Some (e <$> l2))) →
  (∀ a b, same (VMap (e a)) (VMap (e b)) → texts (strings a ++ strings b) → f a = f b) →
  texts ((l1 ≫= strings) ++ (l2 ≫= strings)) → f <$> l1 = f <$> l2.
Proof.
  intros H%same_maps He. revert l2 H. induction l1 as [|a l1 IH]; intros [|b l2] H Hv; inversion H; subst; [done|].
  rewrite !fmap_cons. cbn in Hv. f_equal.
  - apply He; [done|]. intros s Hs. apply Hv. set_solver.
  - apply IH; [done|]. intros s Hs. apply Hv. set_solver.
Qed.

Lemma same_drawdown a b :
  same (VMap (drawdown_entries a)) (VMap (drawdown_entries b)) →
  texts ((dd_Periods a ≫= λ p, [dp_StartDate p; dp_EndDate p]) ++ (dd_Periods b ≫= λ p, [dp_StartDate p; dp_EndDate p])) → a = b.
Proof.
  intros H Hv. at_key H "maxDrawdownDuration". at_key H "currentDrawdown". at_key H "drawdownPeriods".
  apply (same_list _ Datatypes.id (λ p, [dp_StartDate p; dp_EndDate p])) in Hk1; [|by intros; apply same_period|done].
  rewrite !list_fmap_id in Hk1. destruct a, b. cbn in *. by subst.
Qed.

Lemma same_details l1 l2 :
  same (VMaps (Some (toExchangeDetailsPayload l1))) (VMaps (Some (toExchangeDetailsPayload l2))) →
  texts ((l1 ≫= λ e, [ei_Name e; ei_KYCLevel e]) ++ (l2 ≫= λ e, [ei_Name e; ei_KYCLevel e])) →
  l1 = l2.
Proof.
  intros H Hv. unfold toExchangeDetailsPayload in H.
  apply (same_list _ Datatypes.id (λ e, [ei_Name e; ei_KYCLevel e])) in H; [by rewrite !list_fmap_id in H| |done].
  intros a b Hab Hs. pose proof (exchange_keys [a]) as Ha. pose proof (exchange_keys [b]) as Hb.
  specialize (Ha _ (list_elem_of_here _ _)). specialize (Hb _ (list_elem_of_here _ _)). cbn in Ha, Hb.
  at_key Hab "name". at_key Hab "kycLevel". at_key Hab "isPaper".
  apply same_string in Hk; [|apply Hs; set_solver..]. apply same_string in Hk0; [|apply Hs; set_solver..].
  destruct a, b. cbn in *. by subst.
Qed.

(** Both or neither. *)
Lemma same_pointer {A B} k (e : A → list (string * value F)) (f : A → B) o1 o2 :
  same_at (field k (entry_for k e o1)) (field k (entry_for k e o2)) →
  (∀ a b, o1 = Some a → o2 = Some b → same (VMap (e a)) (VMap (e b)) → f a = f b) → f <$> o1 = f <$> o2.
Proof.
  intros H He. destruct o1 as [a|], o2 as [b|]; cbn in H; rewrite ?String.eqb_refl in H; try done.
  cbn. f_equal. by apply He.
Qed.

(** The entries that depend on the version or on a pointer. *)
Lemma field_entry_if k b (m : list (string * value F)) : field k (entry_if b m) = if b then field k m else None.
Proof. by destruct b. Qed.

Lemma field_entry_for {A} k k' (e : A → list (string * value F)) o :
  field k (entry_for k' e o) = if String.eqb k k' then VMap ∘ e <$> o else None.
Proof. destruct o; cbn; by destruct (String.eqb k k'). Qed.

Ltac payload_field :=
  unfold metrics_entries, buildFinancialPayload; cbn zeta; rewrite !field_app, !field_entry_if, ?field_entry_for;
  cbn -[legacy String.eqb entry_for];
  repeat (match goal with
          | |- context [if negb ?b then _ else _] => destruct b
          | |- context [match ?l with [] => false | _ :: _ => true end] => destruct l
          end; cbn -[legacy]); try done;
  repeat match goal with |- context [match ?o with Some _ => _ | None => _ end] => destruct o end; done.

Lemma field_winRate r : field "winRate" (metrics_entries r) =
  if legacy payloadVersionsWithoutWinRate (sr_PayloadVersion r) then None else Some (VFloat (F := F) (me_WinRate (sr_Metrics r))).
Proof. payload_field. Qed.

Lemma field_profitFactor r : field "profitFactor" (metrics_entries r) =
  if legacy payloadVersionsWithoutWinRate (sr_PayloadVersion r) then None else Some (VFloat (F := F) (me_ProfitFactor (sr_Metrics r))).
Proof. payload_field. Qed.

Lemma field_riskFreeRate r : field "riskFreeRate" (metrics_entries r) =
  if legacy payloadVersionsWithoutRiskFreeRate (sr_PayloadVersion r) then None
  else Some (VFloat (F := F) (me_RiskFreeRate (sr_Metrics r))).
Proof. payload_field. Qed.

Lemma field_annualized r : field "annualized" (metrics_entries (F := F) r) =
  if legacy payloadVersionsWithoutAnnualizationBasis (sr_PayloadVersion r) then None else Some (VBool (me_Annualized (sr_Metrics r))).
Proof. payload_field. Qed.

Lemma field_periodDays r : field "periodDays" (metrics_entries (F := F) r) =
  if legacy payloadVersionsWithoutAnnualizationBasis (sr_PayloadVersion r) then None else Some (VInt (me_PeriodDays (sr_Metrics r))).
Proof. payload_field. Qed.

Lemma field_annualizationDays r : field "annualizationDays" (metrics_entries (F := F) r) =
  if legacy payloadVersionsWithoutAnnualizationDays (sr_PayloadVersion r) then None else Some (VInt (sr_AnnualizationDays r)).
Proof. payload_field. Qed.

Lemma field_riskMetrics r :
  field "riskMetrics" (metrics_entries (F := F) r) = VMap ∘ risk_entries <$> ex_RiskMetrics (sr_Extended r).
Proof. payload_field. Qed.

Lemma field_benchmarkMetrics r :
  field "benchmarkMetrics" (metrics_entries (F := F) r) = VMap ∘ benchmark_entries <$> ex_BenchmarkMetrics (sr_Extended r).
Proof. payload_field. Qed.

Lemma field_drawdownData r :
  field "drawdownData" (metrics_entries (F := F) r) = VMap ∘ drawdown_entries <$> ex_DrawdownData (sr_Extended r).
Proof. payload_field. Qed.

Lemma same_covered {A} versions v (x y blank : A) (f : A → value F) :
  same_at (if legacy versions v then None else Some (f x)) (if legacy versions v then None else Some (f y)) →
  (same (f x) (f y) → x = y) → covered versions v x blank = covered versions v y blank.
Proof. unfold covered. destruct (legacy _ _); [done|]. auto. Qed.

(** The entry [k] of two metrics blocks written alike. *)
Ltac at_metric H k lem Hn :=
  pose proof (same_map _ _ k H ltac:(auto) ltac:(auto)) as Hn; rewrite !lem in Hn.

(** The covered part of the metrics block. *)
Lemma same_metrics r1 r2 :
  same (VMap (metrics_entries r1)) (VMap (metrics_entries r2)) → sr_PayloadVersion r1 = sr_PayloadVersion r2 →
  me_DataPoints (sr_Metrics r1) = me_DataPoints (sr_Metrics r2) →
  me_BaseCurrency (sr_Metrics r1) = me_BaseCurrency (sr_Metrics r2) →
  me_Benchmark (sr_Metrics r1) = me_Benchmark (sr_Metrics r2) →
  let v := sr_PayloadVersion r1 in
  view_metrics v (sr_Metrics r1) = view_metrics v (sr_Metrics r2) ∧
  covered payloadVersionsWithoutAnnualizationDays v (sr_AnnualizationDays r1) 0%Z =
    covered payloadVersionsWithoutAnnualizationDays v (sr_AnnualizationDays r2) 0%Z.
Proof.
  intros H Hv Hd Hc Hb v. subst v.
  at_key H "totalReturn". at_key H "annualizedReturn". at_key H "volatility". at_key H "sharpeRatio". at_key H "sortinoRatio".
  at_key H "maxDrawdown". at_key H "calmarRatio".
  at_metric H "winRate" field_winRate Hw. at_metric H "profitFactor" field_profitFactor Hp.
  at_metric H "riskFreeRate" field_riskFreeRate Hr. at_metric H "annualized" field_annualized Ha.
  at_metric H "periodDays" field_periodDays Hpd. at_metric H "annualizationDays" field_annualizationDays Had.
  rewrite <- Hv in *.
  split; [|by eapply same_covered; [exact Had|apply same_int]].
  unfold view_metrics. f_equal; try done.
  - by eapply same_covered; [exact Ha|apply same_bool].
  - by eapply same_covered; [exact Hpd|apply same_int].
  - by eapply same_covered; [exact Hw|apply same_float].
  - by eapply same_covered; [exact Hp|apply same_float].
  - by eapply same_covered; [exact Hr|apply same_float].
Qed.

(** The pointers of the metrics block. *)
Lemma same_pointers r1 r2 :
  same (VMap (metrics_entries r1)) (VMap (metrics_entries r2)) → well_formed r1 → well_formed r2 →
  ex_RiskMetrics (sr_Extended r1) = ex_RiskMetrics (sr_Extended r2) ∧
  view_benchmark <$> ex_BenchmarkMetrics (sr_Extended r1) = view_benchmark <$> ex_BenchmarkMetrics (sr_Extended r2) ∧
  ex_DrawdownData (sr_Extended r1) = ex_DrawdownData (sr_Extended r2).
Proof.
  intros H W1 W2. at_metric H "riskMetrics" field_riskMetrics Hr. at_metric H "benchmarkMetrics" field_benchmarkMetrics Hb.
  at_metric H "drawdownData" field_drawdownData Hd. split_and!.
  - destruct (ex_RiskMetrics _), (ex_RiskMetrics _); try done. f_equal. by apply same_risk.
  - destruct (ex_BenchmarkMetrics _), (ex_BenchmarkMetrics _); try done. cbn. f_equal. by apply same_benchmark.
  - destruct (ex_DrawdownData (sr_Extended r1)) as [d1|] eqn:E1, (ex_DrawdownData (sr_Extended r2)) as [d2|] eqn:E2; try done.
    f_equal. apply same_drawdown; [done|]. by apply texts_app; [apply (wf_drawdown _ W1)|apply (wf_drawdown _ W2)].
Qed.

Lemma field_reportName r : field "reportName" (buildFinancialPayload (F := F) r) =
  if legacy payloadVersionsWithoutReportName (sr_PayloadVersion r) then None else Some (VString (sr_ReportName r)).
Proof. payload_field. Qed.

Lemma field_attestation r : field "enclaveAttestation" (buildFinancialPayload (F := F) r) =
  VMap ∘ attestation_entries <$> sr_EnclaveAttestation r.
Proof. payload_field. Qed.

Lemma field_benchmark r : field "benchmark" (buildFinancialPayload (F := F) r) =
  if String.eqb (me_Benchmark (sr_Metrics r)) "" then None else Some (VString (me_Benchmark (sr_Metrics r))).
Proof. payload_field. Qed.

Lemma field_details r : field "exchangeDetails" (buildFinancialPayload (F := F) r) =
  match ex_ExchangeDetails (sr_Extended r) with
  | [] => None
  | l => Some (VMaps (Some (toExchangeDetailsPayload l)))
  end.
Proof.
  unfold buildFinancialPayload. rewrite !field_app, !field_entry_if, field_entry_for. cbn -[legacy].
  destruct (negb (legacy _ _)), (negb (String.eqb _ _)); by destruct (ex_ExchangeDetails _).
Qed.

(** The list-valued entries. *)
Lemma same_lists v l1 l2 m1 m2 :
  same (VMaps (Some (toDailyReturnsPayload l1 v))) (VMaps (Some (toDailyReturnsPayload l2 v))) →
  same (VMaps (Some (toMonthlyReturnsPayload m1))) (VMaps (Some (toMonthlyReturnsPayload m2))) →
  texts ((l1 ++ l2) ≫= λ d, [sd_Date d; sd_VerifiabilityClass d]) → texts ((m1 ++ m2) ≫= λ m, [sm_Date m]) →
  view_daily v <$> l1 = view_daily v <$> l2 ∧ m1 = m2.
Proof.
  rewrite !bind_app. intros Hd Hm Wd Wm. split.
  - apply (same_list _ (view_daily v) (λ d, [sd_Date d; sd_VerifiabilityClass d]) _ _ Hd); [|done]. intros. by apply same_daily.
  - apply (same_list _ Datatypes.id (λ m, [sm_Date m])) in Hm; [by rewrite !list_fmap_id in Hm| |done].
    intros a b Hab Ht. apply same_monthly; [done|apply Ht; by left|apply Ht; right; by left].
Qed.

(** The scalars at the top of the payload. *)
Lemma same_scalars r1 r2 :
  well_formed r1 → well_formed r2 → same (VMap (buildFinancialPayload r1)) (VMap (buildFinancialPayload r2)) →
  (sr_PayloadVersion r1, sr_ReportID r1, sr_UserUID r1, sr_GeneratedAt r1, sr_PeriodStart r1, sr_PeriodEnd r1) =
  (sr_PayloadVersion r2, sr_ReportID r2, sr_UserUID r2, sr_GeneratedAt r2, sr_PeriodStart r2, sr_PeriodEnd r2) ∧
  me_BaseCurrency (sr_Metrics r1) = me_BaseCurrency (sr_Metrics r2) ∧
  me_DataPoints (sr_Metrics r1) = me_DataPoints (sr_Metrics r2) ∧
  me_Benchmark (sr_Metrics r1) = me_Benchmark (sr_Metrics r2).
Proof.
  intros [W1 _ _ _ _ _ _] [W2 _ _ _ _ _ _] H. unfold scalar_strings in W1, W2.
  rewrite !texts_cons in W1, W2. destruct W1 as (A1 & A2 & A3 & A4 & A5 & A6 & _ & A8 & A9 & _).
  destruct W2 as (B1 & B2 & B3 & B4 & B5 & B6 & _ & B8 & B9 & _).
  at_key H "payloadVersion". at_key H "reportId". at_key H "userUid". at_key H "generatedAt". at_key H "periodStart".
  at_key H "periodEnd". at_key H "baseCurrency". at_key H "dataPoints". at_metric H "benchmark" field_benchmark Hb.
  repeat match goal with Hk : same (VString _) (VString _) |- _ => apply same_string in Hk; [|done..] end.
  split_and!; [congruence..|]. destruct (String.eqb_spec (me_Benchmark (sr_Metrics r1)) "") as [E1|E1],
    (String.eqb_spec (me_Benchmark (sr_Metrics r2)) "") as [E2|E2]; try done; [congruence|]. by apply same_string in Hb.
Qed.

(** Two payloads written alike state the same signed fields. *)
Lemma payload_covers r1 r2 :
  well_formed r1 → well_formed r2 → same (VMap (buildFinancialPayload r1)) (VMap (buildFinancialPayload r2)) →
  signed_view r1 = signed_view r2.
Proof.
  intros W1 W2 H. destruct (same_scalars r1 r2 W1 W2 H) as ([= Hv Hid Hu Hg Hs He] & Hc & Hp & Hb).
  at_key H "exchanges". apply same_strings in Hk as Hex.
  2: { intros l s [E|E] Hl; [apply (wf_exchanges _ W1)|apply (wf_exchanges _ W2)]; by rewrite E. }
  pose proof (same_map _ _ "metrics" H ltac:(auto) ltac:(auto)) as Hm.
  change (same (VMap (metrics_entries r1)) (VMap (metrics_entries r2))) in Hm.
  destruct (same_metrics r1 r2 Hm Hv Hp Hc Hb) as [Hmet Hdays].
  destruct (same_pointers r1 r2 Hm W1 W2) as (Hrisk & Hbm & Hdd).
  pose proof (same_map _ _ "dailyReturns" H ltac:(auto) ltac:(auto)) as Hd.
  pose proof (same_map _ _ "monthlyReturns" H ltac:(auto) ltac:(auto)) as Hmo.
  cbn -[toDailyReturnsPayload toMonthlyReturnsPayload] in Hd, Hmo. rewrite <- Hv in Hd.
  destruct (same_lists _ _ _ _ _ Hd Hmo) as [Hdaily Hmonthly];
    [rewrite bind_app; apply texts_app; by apply wf_daily|rewrite bind_app; apply texts_app; by apply wf_monthly|].
  at_metric H "exchangeDetails" field_details Hdet. at_metric H "enclaveAttestation" field_attestation Hatt.
  at_metric H "reportName" field_reportName Hname.
  assert (ex_ExchangeDetails (sr_Extended r1) = ex_ExchangeDetails (sr_Extended r2)) as Hdetails.
  { pose proof (texts_app _ _ (wf_details _ W1) (wf_details _ W2)) as Ht.
    destruct (ex_ExchangeDetails (sr_Extended r1)), (ex_ExchangeDetails (sr_Extended r2)); try done. by apply same_details. }
  assert (sr_EnclaveAttestation r1 = sr_EnclaveAttestation r2) as Hea.
  { pose proof (wf_attestation _ W1) as T1. pose proof (wf_attestation _ W2) as T2.
    destruct (sr_EnclaveAttestation r1), (sr_EnclaveAttestation r2); try done. f_equal. apply same_attestation; [done|].
    apply (texts_app _ _ (T1 _ eq_refl) (T2 _ eq_refl)). }
  unfold signed_view. cbn zeta. rewrite Hid, Hu, Hg, Hs, He, Hea, <- Hv, Hmet, Hdays. f_equal.
  - rewrite <- Hv in Hname. eapply same_covered; [exact Hname|]. intros Hsn. apply same_string; [done| |].
    + apply (wf_scalars _ W1). do 6 right. by left.
    + apply (wf_scalars _ W2). do 6 right. by left.
  - unfold view_extended. by rewrite Hex, Hdetails, Hdaily, Hmonthly, Hrisk, Hbm, Hdd.
Qed.

(** ** The view without amounts *)

Lemma delete_in_key key k p : (delete_in (F := F) key k p).1 = p.1.
Proof. destruct p as [key' [| | | | | | | |[l|]]]; cbn; try done. by destruct (String.eqb key key'). Qed.

Lemma percent_keys r : plain_keys (percent_entries (F := F) r).*1.
Proof.
  unfold percent_entries. rewrite fmap_app, <- list_fmap_compose.
  assert (fst ∘ (λ p, delete_in (F := F) "monthlyReturns" "aum" (delete_in "dailyReturns" "nav" p)) <$> buildFinancialPayload r
    = (buildFinancialPayload r).*1) as ->.
  { apply list_fmap_ext. intros i p _. unfold compose. by rewrite !delete_in_key. }
  unfold buildFinancialPayload. all_cases; apply (bool_decide_unpack _); vm_compute; exact I.
Qed.

Lemma field_withheld r : field "amountsWithheld" (buildFinancialPayload (F := F) r) = None.
Proof. payload_field. Qed.

Lemma field_percent_withheld r : field "amountsWithheld" (percent_entries (F := F) r) = Some (VBool true).
Proof.
  apply field_elem; [apply percent_keys|]. unfold percent_entries. apply elem_of_app. right. by left.
Qed.

(** No text is the payload of both views. *)
Lemma views_disjoint r1 r2 payload : CanonicalPayload (F := F) r1 = Ok payload → PercentPayload r2 = Ok payload → False.
Proof.
  intros H1 H2. pose proof (same_write _ _ _ H1 H2) as H.
  pose proof (same_map _ _ "amountsWithheld" H (payload_keys r1) (percent_keys r2)) as Hk.
  by rewrite field_withheld, field_percent_withheld in Hk.
Qed.

End covered.

(** ** Signing and verifying *)

Section signed.
Context {F : Type} {NF : Num F} {JF : JsonNumber F} {C : Crypto}.

(** A signer holds its own public key. *)
Definition own_key (s : ReportSigner) : Prop :=
  ∃ der, marshal_pkix (public (sg_privateKey s)) = Ok der ∧ sg_publicKeyBase64 s = b64_encode der.

Lemma new_signer_own_key k s : newReportSignerFromPrivateKey k = Ok s → own_key s.
Proof.
  unfold newReportSignerFromPrivateKey, own_key. destruct (marshal_pkix (public k)) as [der|] eqn:E; [|done].
  intros [= <-]. cbn. eauto.
Qed.

Lemma wrap_ok {A} prefix (r : res A) a : wrap prefix r = Ok a ↔ r = Ok a.
Proof. destruct r; cbn; naive_solver. Qed.

Lemma Sign_ok uuid now rnd s input r :
  Sign (F := F) uuid now rnd s input = Ok r →
  ∃ payload percent sg psg,
    r = with_signature (draft uuid now s input) (hex_encode (sha256 payload)) (b64_encode sg)
          (hex_encode (sha256 percent)) (b64_encode psg) ∧
    CanonicalPayload r = Ok payload ∧ PercentPayload r = Ok percent ∧
    ecdsa_sign rnd (sg_privateKey s) (sha256 (hex_encode (sha256 payload))) = Ok sg ∧
    ecdsa_sign (S rnd) (sg_privateKey s) (sha256 (hex_encode (sha256 percent))) = Ok psg.
Proof.
  unfold Sign. cbn zeta. intros (payload & Hp%wrap_ok & Hr)%res_bind_ok.
  apply res_bind_ok in Hr as (p & Hs%wrap_ok & Hr). apply res_bind_ok in Hr as (percent & Hpp%wrap_ok & Hr).
  apply res_bind_ok in Hr as (q & Hq%wrap_ok & [= <-]).
  apply res_bind_ok in Hs as (sg & Hsg & [= <-]). apply res_bind_ok in Hq as (psg & Hpsg & [= <-]).
  exists payload, percent, sg, psg. done.
Qed.

Lemma verify_own s rnd hash sg :
  CryptoLaws C → own_key s → ecdsa_sign rnd (sg_privateKey s) (sha256 hash) = Ok sg →
  Verify hash (b64_encode sg) (sg_publicKeyBase64 s) SignatureAlgorithm = Verdict true.
Proof.
  intros L (der & Hder & Hpub) Hsg. unfold Verify. cbn [orb]. change (String.eqb SignatureAlgorithm "") with false.
  rewrite String.eqb_refl. cbn [orb]. unfold verifyECDSA.
  rewrite b64_roundtrip, Hpub, b64_roundtrip, (pkix_parse _ _ Hder), (ecdsa_correct _ _ _ _ Hsg). done.
Qed.

Lemma hex_nonempty x : String.length x = 32%nat → String.eqb (hex_encode x) "" = false.
Proof. intros H. apply String.eqb_neq. intros E. apply (f_equal String.length) in E. rewrite hex_encode_length in E. cbn in E. lia. Qed.

Lemma b64_nonempty x : x ≠ "" → String.eqb (b64_encode x) "" = false.
Proof.
  intros H. apply String.eqb_neq. intros E. pose proof (b64_roundtrip x) as Hr. rewrite E in Hr. cbn in Hr. congruence.
Qed.

Lemma equal_strings a : subtleConstantTimeStringEqual a a = 1%Z.
Proof. unfold subtleConstantTimeStringEqual. by rewrite Nat.eqb_refl, String.eqb_refl. Qed.

Lemma posture_spec o :
  posture o = Verdict true ↔
  ∃ att, o = Some att ∧ ea_Platform att = "sev-snp" ∧ ea_Attested att = true ∧
    ea_ReportDataBoundToRequest att = true ∧ ea_VcekVerified att = true.
Proof.
  destruct o as [att|]; cbn [posture]; [|by split; [|intros (? & ? & _)]].
  transitivity (ea_Platform att = "sev-snp" ∧ ea_Attested att = true ∧ ea_ReportDataBoundToRequest att = true ∧
    ea_VcekVerified att = true); [|by split; [intros H; exists att|intros (a & [= <-] & H)]].
  destruct (String.eqb_spec (ea_Platform att) "sev-snp") as [E|E]; cbn [negb orb]; [|by split; [|intros [? _]]].
  destruct (ea_Attested att), (ea_ReportDataBoundToRequest att), (ea_VcekVerified att); cbn [negb];
    by split; [|intros (? & ? & ? & ?)].
Qed.

Lemma signed_accepted uuid now rnd s input r :
  CryptoLaws C → own_key s → Sign (F := F) uuid now rnd s input = Ok r →
  VerifyReport (Some r) = Verdict true ∧ VerifyPercentReport (Some r) = Verdict true ∧
  VerifyReportStrict (Some r) (sg_publicKeyBase64 s) false = Verdict true ∧
  (VerifyReportStrict (Some r) (sg_publicKeyBase64 s) true = Verdict true ↔
     ∃ att, sg_attestation s = Some att ∧ ea_Platform att = "sev-snp" ∧ ea_Attested att = true ∧
       ea_ReportDataBoundToRequest att = true ∧ ea_VcekVerified att = true).
Proof.
  intros L Hown (payload & percent & sg & psg & Hr & Hc & Hp & Hsg & Hpsg)%Sign_ok.
  assert (VerifyReport (Some r) = Verdict true) as HV.
  { unfold VerifyReport. rewrite Hc. cbn [verify_view]. subst r. cbn [with_signature sr_ReportHash sr_Signature sr_PublicKey sr_SignatureAlgorithm draft].
    rewrite String.eqb_refl. cbn [negb]. by apply (verify_own s rnd). }
  assert (sg_publicKeyBase64 s ≠ "") as Hne.
  { destruct Hown as (der & Hder & ->). intros E. pose proof (pkix_length _ _ Hder) as Hl. pose proof (b64_roundtrip der) as Hb.
    rewrite E in Hb. injection Hb as <-. done. }
  apply String.eqb_neq in Hne.
  assert (sr_PublicKey r = sg_publicKeyBase64 s) as Hpk by (by subst r).
  assert (sr_EnclaveAttestation r = sg_attestation s) as Hatt by (by subst r).
  split_and!; [done| | |].
  - unfold VerifyPercentReport. rewrite Hp. subst r.
    cbn [with_signature sr_PercentReportHash sr_PercentSignature sr_PublicKey sr_SignatureAlgorithm draft verify_view].
    pose proof (hex_nonempty (sha256 percent) (sha256_length _)) as N1.
    pose proof (b64_nonempty psg (ecdsa_nonempty _ _ _ _ Hpsg)) as N2. rewrite N1, N2. cbn [orb].
    rewrite String.eqb_refl. cbn [negb]. by apply (verify_own s (S rnd)).
  - unfold VerifyReportStrict. rewrite Hne, Hpk, equal_strings. cbn [Z.eqb Pos.eqb negb]. by rewrite HV.
  - unfold VerifyReportStrict. rewrite Hne, Hpk, equal_strings. cbn [Z.eqb Pos.eqb negb]. rewrite HV, Hatt.
    apply posture_spec.
Qed.

(** What the enclave signs, it and everybody else accepts.  A report produced by Sign verifies, its view without
    amounts verifies, and the strict verifier accepts it under the signer's published key; with the hardware posture
    required it does so exactly when the attestation signed into the report is a bound and verified SEV-SNP one. *)
Theorem sign_verifies uuid now rnd s input r :
  CryptoLaws C → own_key s → Sign (F := F) uuid now rnd s input = Ok r →
  VerifyReport (Some r) = Verdict true ∧ VerifyPercentReport (Some r) = Verdict true ∧
  VerifyReportStrict (Some r) (sg_publicKeyBase64 s) false = Verdict true ∧
  (VerifyReportStrict (Some r) (sg_publicKeyBase64 s) true = Verdict true ↔
     ∃ att, sg_attestation s = Some att ∧ ea_Platform att = "sev-snp" ∧ ea_Attested att = true ∧
       ea_ReportDataBoundToRequest att = true ∧ ea_VcekVerified att = true).
Proof. apply signed_accepted. Qed.

(** *** Accepted reports *)

Definition issued (s : ReportSigner) (r : SignedReport F) : Prop :=
  ∃ uuid now rnd input, Sign uuid now rnd s input = Ok r.

(** The strings whose hashes a report rests on. *)
Definition hashed (r : SignedReport F) (x : string) : Prop :=
  CanonicalPayload r = Ok x ∨ PercentPayload r = Ok x ∨ x = sr_ReportHash r ∨ x = sr_PercentReportHash r.

(** The cryptography holds for the report [r] and the reports [log] the signer
    has issued: no signature on it is forged, and no two of their strings
    collide. *)
Record unbroken (s : ReportSigner) (log : list (SignedReport F)) (r : SignedReport F) : Prop := {
  not_forged sg : b64_decode (sr_Signature r) = Some sg → ecdsa_verify (public (sg_privateKey s)) (sha256 (sr_ReportHash r)) sg = true →
    ∃ r0, r0 ∈ log ∧
      (sha256 (sr_ReportHash r) = sha256 (sr_ReportHash r0) ∨ sha256 (sr_ReportHash r) = sha256 (sr_PercentReportHash r0));
  no_collision r0 x y : r0 ∈ log → hashed r x → hashed r0 y → sha256 x = sha256 y → x = y;
}.

(** A P-256 key in base64 is not an Ed25519 key in hex. *)
Lemma no_downgrade hash sg s alg :
  CryptoLaws C → own_key s → Verify hash sg (sg_publicKeyBase64 s) alg = Verdict true →
  ∃ der, b64_decode sg = Some der ∧ ecdsa_verify (public (sg_privateKey s)) (sha256 hash) der = true.
Proof.
  intros L (der & Hder & Hpub). unfold Verify. destruct (_ || _).
  - unfold verifyECDSA. destruct (b64_decode sg) as [x|] eqn:Eb; [|done].
    rewrite Hpub, b64_roundtrip, (pkix_parse _ _ Hder). intros [= H]. by exists x.
  - destruct (String.eqb alg "Ed25519"); [|done]. unfold verifyEd25519Legacy.
    destruct (hex_decode hash); [|done]. destruct (b64_decode sg); [|done].
    destruct (hex_decode (sg_publicKeyBase64 s)) as [pk|] eqn:E; [|done]. apply hex_decode_length in E.
    rewrite Hpub, b64_encode_length, (pkix_length _ _ Hder) in E. change (4 * ((91 + 2) / 3))%nat with 124%nat in E.
    destruct (Nat.eqb_spec (String.length pk) 32); [lia|done].
Qed.

Lemma issued_hashes s r :
  issued s r → ∃ payload percent, CanonicalPayload r = Ok payload ∧ PercentPayload r = Ok percent ∧
    sr_ReportHash r = hex_encode (sha256 payload) ∧ sr_PercentReportHash r = hex_encode (sha256 percent).
Proof.
  intros (uuid & now & rnd & input & (payload & percent & sg & psg & Hr & Hc & Hp & _)%Sign_ok).
  exists payload, percent. split_and!; [done..| |]; by subst r.
Qed.

(** C2: a report accepted under the enclave's key is one the enclave issued.  Whatever algorithm, hash or signature
    the report under test carries, if the strict verifier accepts it under the signer's published key, and the
    cryptography is not broken for it, then it states the same signed fields as a report the signer issued: no figure,
    date, currency, name, provenance label or attestation of it was changed, and the signature of the view without
    amounts was not passed off as that of the full one. *)
Theorem accepted_report_issued s log r snp :
  CryptoLaws C → own_key s → (∀ r0, r0 ∈ log → issued s r0 ∧ well_formed r0) → unbroken s log r → well_formed r →
  VerifyReportStrict (Some r) (sg_publicKeyBase64 s) snp = Verdict true →
  ∃ r0, r0 ∈ log ∧ signed_view r = signed_view r0.
Proof.
  intros L Hown Hlog [Hforge Hcol] Hwf. unfold VerifyReportStrict.
  destruct (String.eqb _ ""); [done|]. unfold subtleConstantTimeStringEqual.
  destruct (Nat.eqb _ _); cbn [negb]; [|done]. destruct (String.eqb_spec (sr_PublicKey r) (sg_publicKeyBase64 s)) as [Hpk|]; [|done].
  cbn [Z.eqb Pos.eqb negb]. intros HV.
  assert (VerifyReport (Some r) = Verdict true) as HR by (by destruct (VerifyReport (Some r)) as [[]|]). clear HV.
  unfold VerifyReport, verify_view in HR. destruct (CanonicalPayload r) as [payload|] eqn:Hc; [|done].
  destruct (String.eqb_spec (hex_encode (sha256 payload)) (sr_ReportHash r)) as [Hh|]; cbn [negb] in HR; [|done].
  rewrite Hpk in HR. apply no_downgrade in HR as (der & Hder & Hsig); [|done..].
  destruct (Hforge der Hder Hsig) as (r0 & Hr0 & Hdig). destruct (Hlog r0 Hr0) as [Hiss Hwf0].
  destruct (issued_hashes s r0 Hiss) as (payload0 & percent0 & Hc0 & Hp0 & Hh0 & Hph0). exists r0. split; [done|].
  destruct Hdig as [Hd|Hd]; apply (Hcol r0) in Hd; try (done || (unfold hashed; tauto)).
  - rewrite <- Hh, Hh0 in Hd. apply hex_encode_inj, (Hcol r0) in Hd; [|done|unfold hashed; tauto..]. subst payload0.
    apply payload_covers; [done..|]. by eapply same_write.
  - rewrite <- Hh, Hph0 in Hd. apply hex_encode_inj, (Hcol r0) in Hd; [|done|unfold hashed; tauto..]. subst percent0.
    destruct (views_disjoint r r0 payload Hc Hp0).
Qed.

End signed.

(** ** A sample *)

Definition sample_attestation : EnclaveAttestation := mkAttestation "1206" "ab" "sev-snp" true true true.

Definition sample_signer : ReportSigner (C := toy_crypto) :=
  @mkSigner toy_crypto tt (b64_encode toy_der) (Some sample_attestation).

Definition sample_input : ReportInput float64 :=
  mkInput "user-1" "Fund <A> & B" (1000 * Day) (1002 * Day)
    (mkReportMetrics (fofZ 1) f0 false 2 f0 f0 f0 f0 f0 f1 f0 2 "USD" "BTC-USD" f0)
    (mkExtended (Some ["ibkr"]) [mkExchangeInfo "ibkr" "full" false]
       [mkDailyReturn "1972-09-28" f1 f0 f1 f1 (fofZ 2) "live"] [mkMonthlyReturn "1972-09" f1 f0 f1 (fofZ 2)]
       None (Some (mkDrawdown f0 0 [])) (Some (mkBenchmark "BTC-USD" f1 f0 f1 f0 f0 f0))).

Definition sample_signed : res (SignedReport float64) :=
  Sign (JF := exact_number) (C := toy_crypto) "r-1" (1003 * Day) 0 sample_signer sample_input.

Definition sample_report : SignedReport float64 :=
  match sample_signed with Ok r => r | Err _ => draft (C := toy_crypto) "r-1" 0 sample_signer sample_input end.

Lemma sample_signed_ok : sample_signed = Ok sample_report.
Proof. vm_compute. reflexivity. Qed.

Lemma sample_own_key : own_key (C := toy_crypto) sample_signer.
Proof. by exists toy_der. Qed.

Lemma sign_verifies_witness :
  VerifyReport (JF := exact_number) (C := toy_crypto) (Some sample_report) = Verdict true ∧
  VerifyReportStrict (JF := exact_number) (C := toy_crypto) (Some sample_report) (b64_encode toy_der) true = Verdict true.
Proof.
  destruct (sign_verifies (JF := exact_number) (C := toy_crypto) "r-1" (1003 * Day) 0 sample_signer sample_input sample_report
    toy_laws sample_own_key sample_signed_ok) as (H1 & _ & _ & H2).
  split; [exact H1|]. apply H2. exists sample_attestation. by split_and!.
Defined.

(** The same report, with another manager's name on it. *)
Definition relabelled : SignedReport float64 :=
  let r := sample_report in
  mkReport (sr_ReportID r) (sr_UserUID r) (sr_ReportName r) (sr_GeneratedAt r) (sr_PeriodStart r) (sr_PeriodEnd r)
    (sr_AnnualizationDays r) (sr_Metrics r) (sr_Extended r) "Somebody" "Else" (sr_EnclaveAttestation r) (sr_Signature r)
    (sr_PublicKey r) "" (sr_ReportHash r) (sr_EnclaveVersion r) (sr_PayloadVersion r) "" "".

Lemma texts_check l : forallb utf8_valid l = true → texts l.
Proof. rewrite forallb_forall. intros H s Hs. apply H. by apply list_elem_of_In. Qed.

Lemma sample_well_formed : well_formed sample_report ∧ well_formed relabelled.
Proof.
  split; split; try (apply texts_check; vm_compute; reflexivity); intros x Hx; vm_compute in Hx; injection Hx as <-;
    apply texts_check; vm_compute; reflexivity.
Qed.

Definition ok_list (r : res string) : list string := match r with Ok x => [x] | Err _ => [] end.

Definition hashed_list (r : SignedReport float64) : list string :=
  ok_list (CanonicalPayload (JF := exact_number) r) ++ ok_list (PercentPayload (JF := exact_number) r) ++
  [sr_ReportHash r; sr_PercentReportHash r].

Lemma hashed_elem r x : hashed (JF := exact_number) r x → x ∈ hashed_list r.
Proof.
  unfold hashed, hashed_list. rewrite !elem_of_app, !elem_of_cons.
  intros [H|[H|[H|H]]]; [left|right; left|tauto..]; rewrite H; by left.
Qed.

Lemma toy_no_collision :
  forallb (λ x, forallb (λ y, String.eqb x y || negb (String.eqb (toy_hash x) (toy_hash y))) (hashed_list sample_report))
    (hashed_list relabelled) = true.
Proof. vm_compute. reflexivity. Qed.

Lemma relabelled_unbroken : unbroken (JF := exact_number) (C := toy_crypto) sample_signer [sample_report] relabelled.
Proof.
  split.
  - intros sg _ _. exists sample_report. split; [by left|]. by left.
  - intros r0 x y Hr0 Hx%hashed_elem%list_elem_of_In Hy He. apply list_elem_of_singleton in Hr0 as ->.
    apply hashed_elem, list_elem_of_In in Hy. pose proof toy_no_collision as H. rewrite forallb_forall in H.
    specialize (H x Hx). rewrite forallb_forall in H. specialize (H y Hy).
    apply orb_true_iff in H as [H|H]; [by apply String.eqb_eq|]. apply negb_true_iff, String.eqb_neq in H. by destruct H.
Qed.

Lemma accepted_report_issued_witness :
  VerifyReportStrict (JF := exact_number) (C := toy_crypto) (Some relabelled) (b64_encode toy_der) true = Verdict true ∧
  ∃ r0, r0 ∈ [sample_report] ∧ signed_view relabelled = signed_view r0.
Proof.
  split; [vm_compute; reflexivity|].
  apply (accepted_report_issued (JF := exact_number) (C := toy_crypto) sample_signer [sample_report] relabelled true toy_laws
    sample_own_key).
  - intros r0 H. apply list_elem_of_singleton in H as ->.
    split; [|apply sample_well_formed]. exists "r-1", (1003 * Day)%Z, 0%nat, sample_input. apply sample_signed_ok.
  - apply relabelled_unbroken.
  - apply sample_well_formed.
  - vm_compute. reflexivity.
Defined.

End SignedReports.
