(* ===== verification/Attestation.v ===== *)
(** * Attestation service (internal/attestation/attestation.go)

    The data bound into a quote, the run of the snpguest tool with its
    certificate cache and fallbacks, the parser of its display output and the
    cached and nonce-bound entry points.  The tool and the failures of the
    file system are the parameters [Snpguest] and [Host]. *)

From S2P Require Import Prelude GoTime Encoding Signing.
From stdpp Require Import base strings gmap tactics list.
From Stdlib Require Import Ascii ZArith Lia.
Import Encoding Signing.

Module Attestation.

Definition PlatformSevSnp : string := "sev-snp".
Definition PlatformUnattestedDev : string := "unattested-dev".

Definition vcekPEMFile : string := "vcek.pem".
Definition vlekPEMFile : string := "vlek.pem".
Definition askPEMFile : string := "ask.pem".

Record SevSnpReport := mkSev {
  sv_Verified : bool;
  sv_SevSnpEnabled : bool;
  sv_Measurement : string;
  sv_ReportData : string;
  sv_ReportDataBoundToRequest : bool;
  sv_PlatformVersion : string;
  sv_VcekVerified : bool;
}.

Record TLSBinding := mkTLSBinding { tb_Fingerprint : string; tb_Bound : bool; tb_Algorithm : string }.
Record E2EInfo := mkE2E { e2_PublicKey : string; e2_Algorithm : string }.
Record SigningInfo := mkSigningInfo { si_PublicKey : string; si_Algorithm : string }.
Record SecurityInfo := mkSecurity { se_TLSMitm : bool; se_E2EMitm : bool; se_HardwareAttested : bool }.

Record AttestationReport := mkAttReport {
  ar_Attestation : option SevSnpReport;
  ar_TLSBinding : option TLSBinding;
  ar_E2EEncryption : option E2EInfo;
  ar_ReportSigning : option SigningInfo;
  ar_Security : option SecurityInfo;
  ar_Platform : string;
}.

(** The service less its logger and its lock. *)
Record Service := mkService {
  as_tlsFingerprint : string;
  as_e2ePublicKey : string;
  as_signingPubKey : string;
  as_devMode : bool;
  as_snpguestPath : string;
  as_vcekTTL : duration;
  as_attestCache : option AttestationReport;
  as_attestCachedAt : time;
  as_attestTTL : duration;
}.

Record Options := mkOptions {
  op_TLSFingerprint : string;
  op_E2EPublicKey : string;
  op_SigningPubKey : string;
  op_DevMode : bool;
}.

(** [resolved] is what snpguest.ResolvePath answers. *)
Definition NewService (resolved : string) (opts : Options) : Service :=
  mkService (op_TLSFingerprint opts) (op_E2EPublicKey opts) (op_SigningPubKey opts) (op_DevMode opts) resolved
    (7 * 24 * Hour) None zero_time (5 * Second).

(** ** The bound data *)

Section binding.
Context {C : Crypto}.

Definition writeLenPrefixed (b : string) : string := len_prefixed 8 b.

(** What is hashed. *)
Definition bound_bytes (tls e2e signing nonce : string) : string :=
  writeLenPrefixed tls +:+ writeLenPrefixed e2e +:+ writeLenPrefixed signing +:+ writeLenPrefixed nonce.

(** A nil nonce is the empty one. *)
Definition buildReportData (s : Service) (nonce : string) : string :=
  hex_encode (sha256 (bound_bytes (as_tlsFingerprint s) (as_e2ePublicKey s) (as_signingPubKey s) nonce)).

End binding.

(** ** The display output *)

Definition newline : ascii := ascii_of_N 10.

(** [strings.Split(s, "\n")] *)
Fixpoint split_lines (s : string) : list string :=
  match s with
  | EmptyString => [""]
  | String c s' =>
      if Ascii.eqb c newline then "" :: split_lines s'
      else match split_lines s' with
           | l :: ls => String c l :: ls
           | [] => [String c ""]
           end
  end.

(** [\s] of a regular expression *)
Definition re_space (c : ascii) : bool :=
  let n := N_of_ascii c in ((n =? 9) || (n =? 10) || (n =? 12) || (n =? 13) || (n =? 32))%N.

Definition is_hex (c : ascii) : bool := match hex_value c with Some _ => true | None => false end.

(** Where the matcher of hexLineRegex stands: before the first or the second
    digit of a byte, right after a byte, or after white space. *)
Inductive hex_pos := FirstDigit | SecondDigit | AfterByte | InGap.

(** [k] bytes have been read. *)
Fixpoint hex_match (p : hex_pos) (k : nat) (s : string) : bool :=
  match s, p with
  | EmptyString, (FirstDigit | SecondDigit) => false
  | EmptyString, (AfterByte | InGap) => Nat.leb 2 k
  | String c s', FirstDigit => is_hex c && hex_match SecondDigit k s'
  | String c s', SecondDigit => is_hex c && hex_match AfterByte (S k) s'
  | String c s', AfterByte => re_space c && hex_match InGap k s'
  | String c s', InGap => if re_space c then hex_match InGap k s' else is_hex c && hex_match SecondDigit k s'
  end.

(** [(?i)^[0-9a-f]{2}(\s+[0-9a-f]{2})+\s*$] *)
Definition hexLineRegex (s : string) : bool := hex_match FirstDigit 0 s.

(** [strings.ReplaceAll(s, c, "")] for one character *)
Fixpoint remove_char (c : ascii) (s : string) : string :=
  match s with
  | EmptyString => EmptyString
  | String d s' => if Ascii.eqb d c then remove_char c s' else String d (remove_char c s')
  end.

(** The tracked fields; no field is the empty name. *)
Inductive report_field := FMeasurement | FReportData | FPlatformVersion.

#[global] Instance report_field_dec : EqDecision report_field.
Proof. solve_decision. Defined.

Definition set_field (f : report_field) (v : string) (r : SevSnpReport) : SevSnpReport :=
  match f with
  | FMeasurement => mkSev (sv_Verified r) (sv_SevSnpEnabled r) v (sv_ReportData r) (sv_ReportDataBoundToRequest r)
      (sv_PlatformVersion r) (sv_VcekVerified r)
  | FReportData => mkSev (sv_Verified r) (sv_SevSnpEnabled r) (sv_Measurement r) v (sv_ReportDataBoundToRequest r)
      (sv_PlatformVersion r) (sv_VcekVerified r)
  | FPlatformVersion => mkSev (sv_Verified r) (sv_SevSnpEnabled r) (sv_Measurement r) (sv_ReportData r)
      (sv_ReportDataBoundToRequest r) v (sv_VcekVerified r)
  end.

Record parser := mkParser {
  ps_field : option report_field;
  ps_buffer : list string;
  ps_report : SevSnpReport;
}.

Definition tab : ascii := ascii_of_N 9.
Definition blank : ascii := ascii_of_N 32.

Definition strip (rows : list string) : string := remove_char tab (remove_char blank (Prelude.Join "" rows)).

Definition flush (p : parser) : parser :=
  match ps_field p, ps_buffer p with
  | None, _ | _, [] => p
  | Some f, rows => mkParser (Some f) [] (set_field f (strip rows) (ps_report p))
  end.

(** The field a header line starts. *)
Definition header_field (line : string) : option report_field :=
  if String.prefix "Measurement:" line then Some FMeasurement
  else if String.prefix "Report Data:" line then Some FReportData
  else if String.prefix "Platform Version:" line || String.prefix "Platform_version:" line then Some FPlatformVersion
  else None.

Definition parse_line (p : parser) (rawLine : string) : parser :=
  let line := TrimSpace rawLine in
  if String.eqb line "" then p
  else if match ps_field p with Some _ => hexLineRegex line | None => false end then
    mkParser (ps_field p) (ps_buffer p ++ [line]) (ps_report p)
  else
    let p := flush p in
    match header_field line with
    | Some f => mkParser (Some f) (ps_buffer p) (ps_report p)
    | None => if Contains line ":" then mkParser None (ps_buffer p) (ps_report p) else p
    end.

Definition parseSnpguestReport (output : string) (report : SevSnpReport) : SevSnpReport :=
  ps_report (flush (foldl parse_line (mkParser None [] report) (split_lines output))).

(** ** The snpguest tool and the certificate cache *)

Inductive endorser := VCEK | VLEK.

Definition vek_file (e : endorser) : string := match e with VCEK => vcekPEMFile | VLEK => vlekPEMFile end.

(** The files of a directory. *)
Notation dir := (gmap string string).

(** The commands of the tool, by the number of calls made so far.  A fetch
    answers whether it succeeded and the files it left in the directory. *)
Record Snpguest := {
  run_report : nat → string → bool → res string;
  run_fetch : nat → endorser → string → bool * dir;
  run_fetch_ca : nat → endorser → string → bool * dir;
  run_verify : nat → dir → string → bool;
  run_display : nat → string → res string;
}.

(** Which file operations succeed, by the same count. *)
Record Host := {
  mkdir_temp : nat → res unit;
  write_request : nat → res unit;
  read_request : nat → bool;
  write_file : nat → bool;
  rename_file : nat → bool;
  remove_file : nat → bool;
  mkdir_cache : nat → bool;
}.

(** The cache directory with modification times, the certificates of the run
    at hand, and the calls made. *)
Record world := mkWorld {
  w_cache : gmap string (string * time);
  w_certs : dir;
  w_calls : nat;
}.

Definition tick (w : world) : world := mkWorld (w_cache w) (w_certs w) (S (w_calls w)).
Definition set_certs (d : dir) (w : world) : world := mkWorld (w_cache w) d (w_calls w).
Definition set_cache (c : gmap string (string * time)) (w : world) : world := mkWorld c (w_certs w) (w_calls w).

Section run.
Context (tool : Snpguest) (host : Host) (now : time).

(** copyFile from the cache to the certificates, and back. *)
Definition copy_to_certs (name : string) (w : world) : bool * world :=
  match w_cache w !! name with
  | None => (false, w)
  | Some (data, _) =>
      if write_file host (w_calls w) then (true, tick (set_certs (<[name := data]> (w_certs w)) w)) else (false, tick w)
  end.

Definition copy_to_cache (name : string) (w : world) : bool * world :=
  match w_certs w !! name with
  | None => (false, w)
  | Some data =>
      if write_file host (w_calls w) then (true, tick (set_cache (<[name := (data, now)]> (w_cache w)) w)) else (false, tick w)
  end.

(** os.Stat, the age below the limit *)
Definition fresh (ttl : duration) (name : string) (w : world) : bool :=
  match w_cache w !! name with
  | Some (_, modified) => (Sub now modified <? ttl)%Z
  | None => false
  end.

Definition in_cache (name : string) (w : world) : bool := bool_decide (is_Some (w_cache w !! name)).
Definition in_certs (name : string) (w : world) : bool := bool_decide (is_Some (w_certs w !! name)).

(** A fetch command: the files it leaves are there whether it succeeds or not. *)
Definition fetch (cmd : nat → endorser → string → bool * dir) (e : endorser) (report : string) (w : world) : bool * world :=
  let r := cmd (w_calls w) e report in (r.1, tick (set_certs (r.2 ∪ w_certs w) w)).

Definition fetch_from_kds (s : Service) (report : string) (w : world) : (bool * bool) * world :=
  let w := tick w in (* os.MkdirAll of the cache: a failure is logged *)
  if String.eqb (as_snpguestPath s) "" then ((false, false), w)
  else
    let '(ok, w) := fetch (run_fetch tool) VCEK report w in
    if negb ok then ((false, false), w)
    else
      let w := (fetch (run_fetch_ca tool) VCEK report w).2 in
      let w := (copy_to_cache vcekPEMFile w).2 in
      let w := if in_certs askPEMFile w then (copy_to_cache askPEMFile w).2 else w in
      ((true, false), w).

Definition cached_vlek (s : Service) (report : string) (w : world) : (bool * bool) * world :=
  if fresh (as_vcekTTL s) vlekPEMFile w then
    let '(ok, w) := copy_to_certs vlekPEMFile w in
    if ok then
      let w := if in_cache askPEMFile w then (copy_to_certs askPEMFile w).2 else w in
      ((true, true), w)
    else fetch_from_kds s report w
  else fetch_from_kds s report w.

(** [(ok, fromCache)] *)
Definition fetchAndCacheVCEK (s : Service) (report : string) (w : world) : (bool * bool) * world :=
  if fresh (as_vcekTTL s) vcekPEMFile w then
    let '(ok, w) := copy_to_certs vcekPEMFile w in
    if negb ok then ((false, false), w)
    else if in_cache askPEMFile w then
      let '(ok, w) := copy_to_certs askPEMFile w in
      if negb ok then ((false, false), w) else ((true, true), w)
    else ((true, true), w)
  else cached_vlek s report w.

Definition verifyReport (report : string) (w : world) : bool * world :=
  (run_verify tool (w_calls w) (w_certs w) report, tick w).

Definition invalidate (w : world) (name : string) : world :=
  match w_cache w !! name with
  | None => w
  | Some f =>
      let stale := name +:+ ".stale" in
      let c := delete stale (w_cache w) in
      if rename_file host (w_calls w) then tick (set_cache (<[stale := f]> (delete name c)) w)
      else if remove_file host (w_calls w) then tick (set_cache (delete name c) w)
      else tick (set_cache c w)
  end.

Definition invalidateVEKCache (w : world) : world := foldl invalidate w [vcekPEMFile; vlekPEMFile].

Definition fetchVLEKCerts (s : Service) (report : string) (w : world) : bool * world :=
  if String.eqb (as_snpguestPath s) "" then (false, w)
  else
    let '(ok, w) := fetch (run_fetch tool) VLEK report w in
    if negb ok then (false, w)
    else
      let w := (fetch (run_fetch_ca tool) VLEK report w).2 in
      if in_certs vlekPEMFile w && mkdir_cache host (w_calls w) then
        let w := (copy_to_cache vlekPEMFile w).2 in
        (true, if in_certs askPEMFile w then (copy_to_cache askPEMFile w).2 else w)
      else (true, w).

(** os.RemoveAll and os.MkdirAll of the run's own directory *)
Definition clear_certs (w : world) : world := set_certs ∅ w.

(** Step 3: the chain in the directory, a fresh one when the cached one no
    longer verifies, then the cloud provider's. *)
Definition refetch (s : Service) (report : string) (w : world) : bool * world :=
  let w := clear_certs (invalidateVEKCache w) in
  let '((refetched, _), w) := fetchAndCacheVCEK s report w in
  if refetched then verifyReport report w else (false, w).

Definition try_vlek (s : Service) (report : string) (w : world) : bool * world :=
  let '(ok, w) := fetchVLEKCerts s report (clear_certs w) in
  if ok then verifyReport report w else (false, w).

Definition verify_chain (s : Service) (report : string) (w : world) : bool * world :=
  let '((vcekVerified, fromCache), w) := fetchAndCacheVCEK s report w in
  if negb vcekVerified then (false, w)
  else
    let '(ok, w) := verifyReport report w in
    if ok then (true, w)
    else
      let '(recovered, w) := if fromCache then refetch s report w else (false, w) in
      if recovered then (true, w) else try_vlek s report w.

(** The 64 bytes handed to the hardware: the decoded hash, zero padded. *)
Definition zeros (n : nat) : string := Nat.iter n (String (byte_of 0)) "".

Definition request_bytes (reportData : string) : string :=
  match hex_decode reportData with
  | Some d => String.substring 0 64 d +:+ zeros (64 - String.length d)
  | None => zeros 64
  end.

(** Step 1: a bound quote, or a random one. *)
Definition run_quote (request : string) (w : world) : res (string * bool) * world :=
  match run_report tool (w_calls w) request false with
  | Ok report => (Ok (report, true), tick w)
  | Err _ =>
      let w := tick w in
      match run_report tool (w_calls w) request true with
      | Ok report => (Ok (report, false), tick w)
      | Err e => (Err ("snpguest report: " +:+ e), tick w)
      end
  end.

(** Step 4 *)
Definition display_quote (request report : string) (bound vcekVerified : bool) (w : world) : res SevSnpReport * world :=
  match run_display tool (w_calls w) report with
  | Err e => (Err ("snpguest display: " +:+ e), tick w)
  | Ok output =>
      let w := tick w in
      let r := parseSnpguestReport output (mkSev true true "" "" bound "" vcekVerified) in
      if String.eqb (sv_Measurement r) "" then (Err "parse snpguest output: no measurement found", w)
      else if String.eqb (sv_ReportData r) "" && bound && read_request host (w_calls w) then
        (Ok (set_field FReportData (hex_encode request) r), tick w)
      else (Ok r, w)
  end.

(** The directory of the run starts empty and is removed at the end. *)
Definition fetchWithSnpguest (s : Service) (reportData : string) (w : world) : res SevSnpReport * world :=
  if String.eqb (as_snpguestPath s) "" then (Err "snpguest not found on this system", w)
  else match mkdir_temp host (w_calls w) with
  | Err e => (Err ("create temp dir: " +:+ e), tick w)
  | Ok _ =>
      let w := clear_certs (tick w) in
      let request := request_bytes reportData in
      match write_request host (w_calls w) with
      | Err e => (Err ("write request data: " +:+ e), tick w)
      | Ok _ =>
          match run_quote request (tick w) with
          | (Err e, w) => (Err e, w)
          | (Ok (report, bound), w) =>
              let '(vcekVerified, w) := verify_chain s report w in
              display_quote request report bound vcekVerified w
          end
      end
  end.

(** ** The entry points *)

Context {C : Crypto}.

Definition fetchSevSnpAttestation (s : Service) (nonce : string) (w : world) : res SevSnpReport * world :=
  fetchWithSnpguest s (buildReportData s nonce) w.

Definition nonempty (s : string) : bool := negb (String.eqb s "").

(** The report for the platform, the quote and whether hardware attests it. *)
Definition report_of (s : Service) (platform : string) (sev : SevSnpReport) (hardware : bool) : AttestationReport :=
  mkAttReport (Some sev)
    (Some (mkTLSBinding (as_tlsFingerprint s) (nonempty (as_tlsFingerprint s)) "SHA-256"))
    (Some (mkE2E (as_e2ePublicKey s) "ECIES-P256-HKDF-AES256GCM"))
    (Some (mkSigningInfo (as_signingPubKey s) "ECDSA-P256-SHA256"))
    (Some (mkSecurity (nonempty (as_tlsFingerprint s)) (nonempty (as_e2ePublicKey s)) hardware))
    platform.

Definition unattested (s : Service) : AttestationReport :=
  report_of s PlatformUnattestedDev (mkSev false false "" "" false "" false) false.

Definition generateAttestation (s : Service) (nonce : string) (w : world) : AttestationReport * world :=
  if as_devMode s then (unattested s, w)
  else match fetchSevSnpAttestation s nonce w with
  | (Err _, w) => (unattested s, w)
  | (Ok sev, w) => (report_of s PlatformSevSnp sev (sv_Verified sev), w)
  end.

Definition set_attest_cache (s : Service) (r : AttestationReport) (at_ : time) : Service :=
  mkService (as_tlsFingerprint s) (as_e2ePublicKey s) (as_signingPubKey s) (as_devMode s) (as_snpguestPath s)
    (as_vcekTTL s) (Some r) at_ (as_attestTTL s).

(** [now] is when the call starts and [after] when the quote is there. *)
Definition GetAttestation (after : time) (s : Service) (w : world) : AttestationReport * Service * world :=
  match as_attestCache s with
  | Some cached =>
      if (Sub now (as_attestCachedAt s) <? as_attestTTL s)%Z then (cached, s, w)
      else let '(r, w) := generateAttestation s "" w in (r, set_attest_cache s r after, w)
  | None => let '(r, w) := generateAttestation s "" w in (r, set_attest_cache s r after, w)
  end.

Definition GetAttestationWithNonce (s : Service) (nonce : string) (w : world) : res AttestationReport * world :=
  if String.eqb nonce "" then (Err "nonce is required", w)
  else let '(r, w) := generateAttestation s nonce w in (Ok r, w).

End run.

(** ** What the flags of a quote mean *)

Definition flags (r : SevSnpReport) : bool * bool * bool * bool :=
  (sv_Verified r, sv_SevSnpEnabled r, sv_ReportDataBoundToRequest r, sv_VcekVerified r).

Lemma set_field_flags f v r : flags (set_field f v r) = flags r.
Proof. by destruct f. Qed.

Lemma flush_flags p : flags (ps_report (flush p)) = flags (ps_report p).
Proof. unfold flush. destruct (ps_field p), (ps_buffer p); cbn; by rewrite ?set_field_flags. Qed.

Lemma parse_line_flags p l : flags (ps_report (parse_line p l)) = flags (ps_report p).
Proof.
  unfold parse_line. cbn zeta. destruct (String.eqb _ ""); [done|].
  destruct (match ps_field p with Some _ => _ | None => _ end); [done|].
  destruct (header_field _); cbn; [apply flush_flags|]. destruct (Contains _ _); cbn; apply flush_flags.
Qed.

Lemma parse_flags output r : flags (parseSnpguestReport output r) = flags r.
Proof.
  unfold parseSnpguestReport. rewrite flush_flags. change r with (ps_report (mkParser None [] r)) at 2.
  generalize (mkParser None [] r). induction (split_lines output) as [|l ls IH]; intros p; cbn; [done|].
  rewrite IH. apply parse_line_flags.
Qed.

Section honest.
Context (tool : Snpguest) (host : Host) (now : time).

(** The calls of a run are numbered as they are made: no step goes back. *)
Lemma copy_to_certs_calls name w : w_calls w ≤ w_calls (copy_to_certs host name w).2.
Proof. unfold copy_to_certs. repeat case_match; cbn; lia. Qed.

Lemma copy_to_cache_calls name w : w_calls w ≤ w_calls (copy_to_cache host now name w).2.
Proof. unfold copy_to_cache. repeat case_match; cbn; lia. Qed.

Lemma invalidate_calls name w : w_calls w ≤ w_calls (invalidate host w name).
Proof. unfold invalidate. repeat case_match; cbn; lia. Qed.

Lemma fetch_calls cmd e report w ok w' : fetch cmd e report w = (ok, w') → w_calls w' = S (w_calls w).
Proof. by intros [= <- <-]. Qed.

Lemma keep_ask_calls (b : bool) w : w_calls w ≤ w_calls (if b then (copy_to_cache host now askPEMFile w).2 else w).
Proof. destruct b; [apply copy_to_cache_calls|done]. Qed.

Lemma fetch_from_kds_calls s report w : w_calls w ≤ w_calls (fetch_from_kds tool host now s report w).2.
Proof.
  unfold fetch_from_kds. cbn zeta. destruct (String.eqb _ ""); [cbn; lia|]. destruct (fetch _ _ _ (tick w)) as [ok w1] eqn:E1.
  apply fetch_calls in E1. cbn [w_calls tick] in E1. destruct ok; cbn [negb]; [|cbn; lia].
  destruct (fetch (run_fetch_ca tool) VCEK report w1) as [ok2 w2] eqn:E2. apply fetch_calls in E2. cbn [snd].
  etrans; [|apply keep_ask_calls]. etrans; [|apply copy_to_cache_calls]. lia.
Qed.

Lemma fetchAndCacheVCEK_calls s report w : w_calls w ≤ w_calls (fetchAndCacheVCEK tool host now s report w).2.
Proof.
  unfold fetchAndCacheVCEK, cached_vlek. pose proof (fetch_from_kds_calls s report) as Hk.
  destruct (fresh _ _ vcekPEMFile w).
  - pose proof (copy_to_certs_calls vcekPEMFile w) as H1. destruct (copy_to_certs host vcekPEMFile w) as [[] w1]; cbn [negb snd] in *; [|done].
    destruct (in_cache _ _); [|done]. pose proof (copy_to_certs_calls askPEMFile w1) as H2.
    destruct (copy_to_certs host askPEMFile w1) as [[] w2]; cbn in *; lia.
  - destruct (fresh _ _ vlekPEMFile w); [|apply Hk]. pose proof (copy_to_certs_calls vlekPEMFile w) as H1.
    destruct (copy_to_certs host vlekPEMFile w) as [[] w1]; cbn [snd] in *; [|specialize (Hk w1); lia].
    destruct (in_cache _ _); [|done]. cbn [snd]. etrans; [exact H1|]. apply copy_to_certs_calls.
Qed.

Lemma fetchVLEKCerts_calls s report w : w_calls w ≤ w_calls (fetchVLEKCerts tool host now s report w).2.
Proof.
  unfold fetchVLEKCerts. destruct (String.eqb _ ""); [done|]. destruct (fetch _ _ _ w) as [ok w1] eqn:E1. apply fetch_calls in E1.
  destruct ok; cbn [negb]; [|cbn; lia].
  destruct (fetch (run_fetch_ca tool) VLEK report w1) as [ok2 w2] eqn:E2. apply fetch_calls in E2. cbn [snd].
  destruct (_ && _); cbn [snd]; [|lia]. etrans; [|apply keep_ask_calls]. etrans; [|apply copy_to_cache_calls]. lia.
Qed.

(** A verification made between two points of a run. *)
Definition verified_in (lo hi : nat) (report : string) : Prop :=
  ∃ t certs, lo ≤ t < hi ∧ run_verify tool t certs report = true.

Lemma verifyReport_sound report lo w ok w' :
  lo ≤ w_calls w → verifyReport tool report w = (ok, w') →
  lo ≤ w_calls w' ∧ (ok = true → verified_in lo (w_calls w') report).
Proof. intros Hlo [= <- <-]. cbn. split; [lia|]. intros H. exists (w_calls w), (w_certs w). split; [cbn; lia|done]. Qed.

Lemma refetch_sound s report w ok w' :
  refetch tool host now s report w = (ok, w') → w_calls w ≤ w_calls w' ∧ (ok = true → verified_in (w_calls w) (w_calls w') report).
Proof.
  unfold refetch. cbn zeta. set (w1 := clear_certs _).
  assert (w_calls w ≤ w_calls w1) as H1 by (cbn; etrans; apply invalidate_calls).
  pose proof (fetchAndCacheVCEK_calls s report w1) as H2.
  destruct (fetchAndCacheVCEK _ _ _ _ _ w1) as [[[] ?] w2]; cbn [snd] in H2; [|intros [= <- <-]; split; [lia|done]].
  apply verifyReport_sound. lia.
Qed.

Lemma try_vlek_sound s report w ok w' :
  try_vlek tool host now s report w = (ok, w') → w_calls w ≤ w_calls w' ∧ (ok = true → verified_in (w_calls w) (w_calls w') report).
Proof.
  unfold try_vlek. pose proof (fetchVLEKCerts_calls s report (clear_certs w)) as H2.
  destruct (fetchVLEKCerts _ _ _ _ _ _) as [[] w2]; cbn in H2; [|intros [= <- <-]; split; [lia|done]].
  apply verifyReport_sound. lia.
Qed.

Lemma verified_in_mono lo lo' hi hi' report : lo' ≤ lo → hi ≤ hi' → verified_in lo hi report → verified_in lo' hi' report.
Proof. intros H1 H2 (t & certs & Ht & H). exists t, certs. split; [lia|done]. Qed.

Lemma verify_chain_sound s report w ok w' :
  verify_chain tool host now s report w = (ok, w') → w_calls w ≤ w_calls w' ∧ (ok = true → verified_in (w_calls w) (w_calls w') report).
Proof.
  unfold verify_chain. pose proof (fetchAndCacheVCEK_calls s report w) as H0.
  destruct (fetchAndCacheVCEK _ _ _ _ _ _) as [[[] fc] w1]; cbn [negb snd] in *; [|intros [= <- <-]; split; [lia|done]].
  destruct (verifyReport tool report w1) as [ok1 w2] eqn:E. apply (verifyReport_sound _ (w_calls w)) in E as [H1 V1]; [|lia].
  destruct ok1; [intros [= <- <-]; by split; [lia|]|].
  destruct (if fc then _ else _) as [ok2 w3] eqn:E2.
  assert (w_calls w2 ≤ w_calls w3 ∧ (ok2 = true → verified_in (w_calls w2) (w_calls w3) report)) as [H2 V2].
  { destruct fc; [by eapply refetch_sound|]. injection E2 as <- <-. by split. }
  destruct ok2; [intros [= <- <-]; split; [lia|]; intros _; eapply verified_in_mono; [| |by apply V2]; lia|].
  intros [H3 V3]%try_vlek_sound. split; [lia|]. intros Ht. eapply verified_in_mono; [| |by apply V3]; lia.
Qed.

Lemma run_quote_sound request w report bound w' :
  run_quote tool request w = (Ok (report, bound), w') →
  ∃ t, w_calls w ≤ t < w_calls w' ∧ run_report tool t request (negb bound) = Ok report.
Proof.
  unfold run_quote. destruct (run_report _ _ _ false) eqn:E1; [intros [= -> <- <-]; eexists; (split; [|exact E1]); cbn; lia|]. cbn zeta.
  destruct (run_report _ _ _ true) eqn:E2; [intros [= -> <- <-]; eexists; (split; [|exact E2]); cbn; lia|done].
Qed.

(** A quote returned by the run that makes the calls from [lo] to [hi]: the
    run asked the hardware for the report [bin], with the request or at random
    as the flag says; then verified that report if the other flag says so; then
    displayed it and read the measurement off what was displayed. *)
Record quote_of (lo hi : nat) (request : string) (r : SevSnpReport) (bin : string) : Prop := {
  quote_measured : sv_Measurement r ≠ "";
  quote_read : ∃ asked displayed output, lo ≤ asked < displayed ∧ displayed < hi ∧
    run_report tool asked request (negb (sv_ReportDataBoundToRequest r)) = Ok bin ∧
    (sv_VcekVerified r = true → verified_in (S asked) displayed bin) ∧
    run_display tool displayed bin = Ok output ∧
    sv_Measurement r = sv_Measurement (parseSnpguestReport output (mkSev true true "" "" false "" false));
}.

Definition contents (r : SevSnpReport) : string * string * string := (sv_Measurement r, sv_ReportData r, sv_PlatformVersion r).

Lemma set_field_contents f v r1 r2 : contents r1 = contents r2 → contents (set_field f v r1) = contents (set_field f v r2).
Proof. destruct f; unfold contents; cbn; congruence. Qed.

Definition same_state (p q : parser) : Prop :=
  ps_field p = ps_field q ∧ ps_buffer p = ps_buffer q ∧ contents (ps_report p) = contents (ps_report q).

Lemma flush_same p q : same_state p q → same_state (flush p) (flush q).
Proof.
  intros (Hf & Hb & Hc). unfold flush. rewrite <- Hf, <- Hb. destruct (ps_field p) eqn:E1; [|by repeat split; congruence].
  destruct (ps_buffer p) eqn:E2; [by repeat split; congruence|]. repeat split. by apply set_field_contents.
Qed.

Lemma parse_line_same p q l : same_state p q → same_state (parse_line p l) (parse_line q l).
Proof.
  intros H. pose proof (flush_same p q H) as (Hf & Hb & Hc). pose proof H as (Hf0 & Hb0 & Hc0).
  unfold parse_line. cbn zeta. destruct (String.eqb _ ""); [done|]. rewrite <- Hf0.
  destruct (match ps_field p with Some _ => _ | None => _ end); [by repeat split; cbn; congruence|].
  destruct (header_field _); [by repeat split|]. destruct (Contains _ _); by repeat split.
Qed.

(** What is read does not depend on the flags. *)
Lemma parse_contents output r1 r2 :
  contents r1 = contents r2 → contents (parseSnpguestReport output r1) = contents (parseSnpguestReport output r2).
Proof.
  intros H. unfold parseSnpguestReport. apply flush_same.
  assert (same_state (mkParser None [] r1) (mkParser None [] r2)) as Hs by (by repeat split). revert Hs.
  generalize (mkParser None [] r1) (mkParser None [] r2).
  induction (split_lines output) as [|l ls IH]; intros p q Hs; cbn; [done|]. apply IH. by apply parse_line_same.
Qed.

Lemma display_sound request bin bound v w r w' :
  display_quote tool host request bin bound v w = (Ok r, w') →
  flags r = (true, true, bound, v) ∧ sv_Measurement r ≠ "" ∧ w_calls w < w_calls w' ∧
  ∃ output, run_display tool (w_calls w) bin = Ok output ∧
    sv_Measurement r = sv_Measurement (parseSnpguestReport output (mkSev true true "" "" false "" false)).
Proof.
  unfold display_quote. destruct (run_display _ _ _) as [output|] eqn:E; [|done]. cbn zeta.
  pose proof (parse_flags output (mkSev true true "" "" bound "" v)) as Hf.
  pose proof (parse_contents output (mkSev true true "" "" bound "" v) (mkSev true true "" "" false "" false) eq_refl) as Hc.
  destruct (String.eqb_spec (sv_Measurement (parseSnpguestReport output (mkSev true true "" "" bound "" v))) "") as [|Hm]; [done|].
  injection Hc as Hc1 Hc2 Hc3.
  destruct (_ && _ && _); intros [= <- <-]; (split; [by rewrite ?set_field_flags|]); split_and!; try done; try (cbn; lia); eauto.
Qed.

Lemma fetch_sound s data w r w' :
  fetchWithSnpguest tool host now s data w = (Ok r, w') →
  flags r = (true, true, sv_ReportDataBoundToRequest r, sv_VcekVerified r) ∧ ∃ bin, quote_of (w_calls w) (w_calls w') (request_bytes data) r bin.
Proof.
  unfold fetchWithSnpguest. destruct (String.eqb _ ""); [done|]. destruct (mkdir_temp _ _); [|done]. cbn zeta.
  destruct (write_request _ _); [|done]. destruct (run_quote _ _ _) as [[[bin bound]|] w1] eqn:Eq; [|done].
  destruct (verify_chain _ _ _ _ _ _) as [v w2] eqn:Ev. intros (Hf & Hm & Hlt & output & Hd & Hr)%display_sound.
  injection Hf as H1 H2 H3 H4. subst bound v. split; [by unfold flags; rewrite H1, H2|]. exists bin. split; [done|].
  apply run_quote_sound in Eq as (t & Ht & Hrep). apply verify_chain_sound in Ev as [Hle Hv]. cbn in Ht.
  exists t, (w_calls w2), output. split_and!; [lia|lia|lia|done| |done|done].
  intros E. eapply verified_in_mono; [| |by apply Hv]; lia.
Qed.

(** The 64 bytes that commit a quote to the keys of the service and to a
    nonce: the 32 of the hash of the four texts, each after its length in eight
    bytes, and 32 zeros. *)
Definition commitment {C : Crypto} (s : Service) (nonce : string) : string :=
  sha256 (len_prefixed 8 (as_tlsFingerprint s) +:+ len_prefixed 8 (as_e2ePublicKey s) +:+
          len_prefixed 8 (as_signingPubKey s) +:+ len_prefixed 8 nonce) +:+ zeros 32.

Lemma request_commitment `{!CryptoLaws C} s nonce : request_bytes (buildReportData s nonce) = commitment s nonce.
Proof.
  unfold request_bytes, buildReportData. rewrite hex_roundtrip. unfold commitment.
  rewrite substring_short by (rewrite sha256_length; lia). by rewrite sha256_length.
Qed.

(** C24: a report that claims hardware attests to it.  When the service says
    the platform is SEV-SNP, or that hardware attests it, it is not in
    development mode, the snpguest tool is there, and one hardware report
    stands behind the answer, obtained by the calls of the tool this very
    request made and by none before it: the request asked the hardware for it,
    with the hash of the service's own keys and of the caller's nonce unless
    the flag says at random; after that it had the tool verify this report
    against a certificate chain, successfully, if the other flag says so; and
    last it displayed this report and read off the measurement, which is not
    empty.  In every other case the answer is the unattested one. *)
Theorem hardware_claim_honest `{!CryptoLaws C} s nonce w r w' :
  generateAttestation tool host now s nonce w = (r, w') →
  (r = unattested s ∧ ar_Platform r ≠ PlatformSevSnp) ∨
  (as_devMode s = false ∧ as_snpguestPath s ≠ "" ∧
   ∃ sev bin, r = report_of s PlatformSevSnp sev true ∧
     quote_of (w_calls w) (w_calls w') (commitment s nonce) sev bin).
Proof.
  rewrite <- request_commitment.
  unfold generateAttestation. destruct (as_devMode s); [intros [= <- _]; by left|].
  destruct (fetchSevSnpAttestation _ _ _ _ _ _) as [[sev|e] w1] eqn:E; [|intros [= <- _]; by left].
  intros [= <- <-]. right. pose proof E as E0. unfold fetchSevSnpAttestation in E.
  apply fetch_sound in E as ([= H1 H2] & bin & Hq).
  split_and!; [done| |].
  - intros Hp. unfold fetchSevSnpAttestation, fetchWithSnpguest in E0. by rewrite Hp in E0.
  - exists sev, bin. by rewrite H1.
Qed.

(** *** A host migration *)

Lemma invalidate_other w name k :
  k ≠ name → k ≠ name +:+ ".stale" → w_cache (invalidate host w name) !! k = w_cache w !! k.
Proof.
  intros H1 H2. unfold invalidate. destruct (w_cache w !! name); [|done]. cbn zeta.
  destruct (rename_file _ _); [|destruct (remove_file _ _)]; cbn; rewrite ?lookup_insert_ne, ?lookup_delete_ne by done; done.
Qed.

Lemma invalidate_gone w name :
  (∀ t, rename_file host t = true) → w_cache (invalidate host w name) !! name = None ∧
  (∀ f, w_cache w !! name = Some f → w_cache (invalidate host w name) !! (name +:+ ".stale") = Some f).
Proof.
  intros Hr. unfold invalidate. destruct (w_cache w !! name) as [f|] eqn:E; [|done]. cbn zeta. rewrite Hr. cbn [tick set_cache w_cache].
  assert (name ≠ name +:+ ".stale") as Hne.
  { intros H. apply (f_equal String.length) in H. rewrite string_length_app in H. cbn in H. lia. }
  split; [by rewrite lookup_insert_ne, lookup_delete_eq by done|]. intros f' [= <-]. by rewrite lookup_insert_eq.
Qed.

Lemma invalidated w f :
  (∀ t, rename_file host t = true) → w_cache w !! vcekPEMFile = Some f →
  let w' := invalidateVEKCache host w in
  w_cache w' !! vcekPEMFile = None ∧ w_cache w' !! vlekPEMFile = None ∧
  w_cache w' !! (vcekPEMFile +:+ ".stale") = Some f ∧ w_cache w' !! askPEMFile = w_cache w !! askPEMFile.
Proof.
  intros Hr Hf. unfold invalidateVEKCache. cbn [foldl].
  destruct (invalidate_gone w vcekPEMFile Hr) as [H1 H2].
  destruct (invalidate_gone (invalidate host w vcekPEMFile) vlekPEMFile Hr) as [H3 _].
  split_and!; [|done| |]; rewrite invalidate_other by done; [done|by apply H2|].
  by rewrite invalidate_other by done.
Qed.

End honest.

Section recovery.
Context (tool : Snpguest) (host : Host) (now : time) (bin : string) (stale good : string).
Context (writes : ∀ t, write_file host t = true) (renames : ∀ t, rename_file host t = true).
(** The chip endorses the report with the key [good] and no longer with [stale]; the key service knows [good]. *)
Context (endorses : ∀ t certs, certs !! vcekPEMFile = Some good → run_verify tool t certs bin = true).
Context (rejects : ∀ t certs, certs !! vcekPEMFile = Some stale → run_verify tool t certs bin = false).
Context (serves : ∀ t, (run_fetch tool t VCEK bin).1 = true ∧ (run_fetch tool t VCEK bin).2 !! vcekPEMFile = Some good).
Context (serves_ca : ∀ t, (run_fetch_ca tool t VCEK bin).2 !! vcekPEMFile = None).

Lemma copy_ask w : in_cache askPEMFile w = true → ∃ w', copy_to_certs host askPEMFile w = (true, w') ∧
  w_cache w' = w_cache w ∧ w_certs w' !! vcekPEMFile = w_certs w !! vcekPEMFile.
Proof.
  intros H%bool_decide_eq_true. destruct H as [[d m] H]. unfold copy_to_certs. rewrite H, writes. eexists. split; [done|].
  cbn. by rewrite lookup_insert_ne.
Qed.

Lemma from_cache s w m :
  w_cache w !! vcekPEMFile = Some (stale, m) → (Sub now m <? as_vcekTTL s)%Z = true →
  ∃ w', fetchAndCacheVCEK tool host now s bin w = ((true, true), w') ∧ w_cache w' = w_cache w ∧
    w_certs w' !! vcekPEMFile = Some stale.
Proof.
  intros Hc Hm. unfold fetchAndCacheVCEK, fresh. rewrite Hc, Hm. unfold copy_to_certs at 1. rewrite Hc, writes. cbn [negb].
  set (w1 := tick _). assert (w_cache w1 = w_cache w) as Hw by done.
  assert (w_certs w1 !! vcekPEMFile = Some stale) as Hs by (cbn; by rewrite lookup_insert_eq).
  destruct (in_cache askPEMFile w1) eqn:E; [|by exists w1].
  destruct (copy_ask w1 E) as (w2 & -> & H1 & H2). exists w2. cbn [negb]. split_and!; congruence.
Qed.

Lemma from_kds s w :
  as_snpguestPath s ≠ "" → w_cache w !! vcekPEMFile = None → w_cache w !! vlekPEMFile = None →
  ∃ w', fetchAndCacheVCEK tool host now s bin w = ((true, false), w') ∧ w_certs w' !! vcekPEMFile = Some good ∧
    w_cache w' !! vcekPEMFile = Some (good, now) ∧ ∀ k, k ≠ vcekPEMFile → k ≠ askPEMFile → w_cache w' !! k = w_cache w !! k.
Proof.
  intros Hp H1 H2. unfold fetchAndCacheVCEK, fresh. rewrite H1. unfold cached_vlek, fresh. rewrite H2. unfold fetch_from_kds. cbn zeta.
  apply String.eqb_neq in Hp. rewrite Hp. unfold fetch at 1.
  destruct (serves (w_calls (tick w))) as [-> Hg]. cbn [negb]. set (w1 := tick (set_certs _ _)).
  assert (w_certs (fetch (run_fetch_ca tool) VCEK bin w1).2 !! vcekPEMFile = Some good) as Hca.
  { cbn -[run_fetch_ca]. rewrite lookup_union_r by apply serves_ca. by apply lookup_union_Some_l. }
  set (w2 := (fetch _ _ _ w1).2) in *. assert (w_cache w2 = w_cache w) as Hw2 by done. clearbody w2.
  assert (copy_to_cache host now vcekPEMFile w2 = (true, tick (set_cache (<[vcekPEMFile := (good, now)]> (w_cache w2)) w2))) as ->.
  { unfold copy_to_cache. by rewrite Hca, writes. }
  cbn [snd]. set (w3 := tick _).
  assert (w_cache w3 = <[vcekPEMFile := (good, now)]> (w_cache w)) as Hw3 by (by rewrite <- Hw2).
  assert (w_certs w3 !! vcekPEMFile = Some good) as Hc3 by done. clearbody w3.
  destruct (in_certs askPEMFile w3) eqn:E.
  - apply bool_decide_eq_true in E as [d Hd]. unfold copy_to_cache. rewrite Hd, writes. cbn [snd]. eexists. split; [done|].
    cbn. rewrite Hw3. split; [done|]. split; [by rewrite lookup_insert_ne, lookup_insert_eq by done|].
    intros k Hk1 Hk2. by rewrite !lookup_insert_ne by done.
  - eexists. split; [done|]. rewrite Hw3. split; [done|]. split; [by rewrite lookup_insert_eq|].
    intros k Hk1 Hk2. by rewrite lookup_insert_ne by done.
Qed.

(** After a host migration.  The cached endorsement key, still within its lifetime, no longer signs the chip's
    reports; AMD's service has the new one.  The run discards the cached key, fetches the new one and verifies with it:
    the quote counts as verified at once, the new key is in the cache and the old one is kept aside for diagnosis. *)
Theorem stale_key_recovered s w m :
  as_snpguestPath s ≠ "" → w_cache w !! vcekPEMFile = Some (stale, m) → (Sub now m <? as_vcekTTL s)%Z = true →
  ∃ w', verify_chain tool host now s bin w = (true, w') ∧ w_cache w' !! vcekPEMFile = Some (good, now) ∧
    w_cache w' !! (vcekPEMFile +:+ ".stale") = Some (stale, m) ∧ w_cache w' !! vlekPEMFile = None.
Proof.
  intros Hp Hc Hm. unfold verify_chain. destruct (from_cache s w m Hc Hm) as (w1 & -> & Hw1 & Hs1). cbn [negb].
  unfold verifyReport at 1. rewrite (rejects _ _ Hs1). cbn iota.
  unfold refetch. cbn zeta. rewrite <- Hw1 in Hc.
  destruct (invalidated host (tick w1) (stale, m) renames Hc) as (I1 & I2 & I3 & _).
  set (w2 := clear_certs _).
  destruct (from_kds s w2 Hp I1 I2) as (w3 & -> & Hg & Hc3 & Hother). unfold verifyReport.
  rewrite (endorses _ _ Hg). eexists. split; [done|]. cbn. split; [done|]. split; rewrite Hother; done.
Qed.

End recovery.

(** *** A sample host *)

(** A tool whose key service has the key ["new"], on a host where every file
    operation succeeds. *)
Definition sample_tool : Snpguest := {|
  run_report := λ _ request random, if random then Err "no device" else Ok request;
  run_fetch := λ _ e _, (true, {[ vek_file e := "new" ]});
  run_fetch_ca := λ _ _ _, (true, {[ askPEMFile := "amd" ]});
  run_verify := λ _ certs _, bool_decide (certs !! vcekPEMFile = Some "new");
  run_display := λ _ _, Ok ("Measurement:" +:+ String newline "12 06 83"); |}.

Definition sample_host : Host := {|
  mkdir_temp := λ _, Ok tt; write_request := λ _, Ok tt; read_request := λ _, true; write_file := λ _, true;
  rename_file := λ _, true; remove_file := λ _, true; mkdir_cache := λ _, true |}.

Definition sample_service : Service := NewService "/usr/bin/snpguest" (mkOptions "AB:CD" "pem" "key" false).

Definition sample_world : world := mkWorld {[ vcekPEMFile := ("old", 0%Z) ]} ∅ 0.

Lemma stale_key_recovered_witness :
  ∃ w', verify_chain sample_tool sample_host Hour sample_service "bin" sample_world = (true, w') ∧
    w_cache w' !! vcekPEMFile = Some ("new", Hour) ∧
    w_cache w' !! (vcekPEMFile +:+ ".stale") = Some ("old", 0%Z) ∧ w_cache w' !! vlekPEMFile = None.
Proof.
  apply (stale_key_recovered sample_tool sample_host Hour "bin" "old" "new").
  - reflexivity.
  - reflexivity.
  - intros t certs H. by apply bool_decide_eq_true.
  - intros t certs H. apply bool_decide_eq_false. by rewrite H.
  - intros t. by split.
  - reflexivity.
  - discriminate.
  - reflexivity.
  - reflexivity.
Defined.

Lemma hardware_claim_honest_witness :
  ∃ sev bin, (generateAttestation (C := toy_crypto) sample_tool sample_host Hour sample_service "n" sample_world).1 =
    report_of sample_service PlatformSevSnp sev true ∧ sv_ReportDataBoundToRequest sev = true ∧ sv_VcekVerified sev = true ∧
    quote_of sample_tool 0 (w_calls (generateAttestation (C := toy_crypto) sample_tool sample_host Hour sample_service "n" sample_world).2)
      (commitment (C := toy_crypto) sample_service "n") sev bin.
Proof.
  pose proof toy_laws as Hlaws.
  destruct (hardware_claim_honest (C := toy_crypto) sample_tool sample_host Hour sample_service "n" sample_world
    (generateAttestation (C := toy_crypto) sample_tool sample_host Hour sample_service "n" sample_world).1
    (generateAttestation (C := toy_crypto) sample_tool sample_host Hour sample_service "n" sample_world).2
    ltac:(by destruct (generateAttestation _ _ _ _ _ _))) as [[_ H]|(_ & _ & sev & bin & H & Hq)].
  - exfalso. apply H. vm_compute. reflexivity.
  - exists sev, bin. split; [exact H|]. apply (f_equal ar_Attestation) in H. vm_compute in H. injection H as <-. by split_and!.
Defined.

(** The fallback to the cloud provider's key is only reached through a key of
    the chip: with an empty cache, a host for which AMD's service has no such
    key stays unverified even when the provider's would verify. *)
Theorem vlek_unreachable tool host now s bin w :
  w_cache w = ∅ → (∀ t, (run_fetch tool t VCEK bin).1 = false) → (verify_chain tool host now s bin w).1 = false.
Proof.
  intros Hw Hf. unfold verify_chain, fetchAndCacheVCEK, fresh, cached_vlek, fresh, fetch_from_kds, fetch.
  rewrite Hw, !lookup_empty. cbn zeta. by destruct (String.eqb _ ""); rewrite ?Hf.
Qed.

End Attestation.
