(* ===== verification/AttestationParse.v ===== *)
(** * Reading what snpguest displays

    The parser of internal/attestation/attestation.go recovers, byte for byte,
    a field printed as a header and rows of hex bytes, whatever else the
    output holds. *)

From S2P Require Import Prelude Encoding Attestation.
From stdpp Require Import base strings tactics list.
From Stdlib Require Import Ascii ZArith Lia.
Import Encoding Attestation.

Module AttestationParse.

Definition get_field (f : report_field) (r : SevSnpReport) : string :=
  match f with
  | FMeasurement => sv_Measurement r
  | FReportData => sv_ReportData r
  | FPlatformVersion => sv_PlatformVersion r
  end.

(** The output as the tool prints it: lines without a newline, joined. *)
Definition text (ls : list string) : string := Prelude.Join (String newline "") ls.

Fixpoint one_line (s : string) : bool :=
  match s with EmptyString => true | String c s' => negb (Ascii.eqb c newline) && one_line s' end.

(** A row: the bytes in hex, a blank between two. *)
Fixpoint hex_row (b : string) : string :=
  match b with
  | EmptyString => ""
  | String c EmptyString => hex_encode (String c "")
  | String c b' => hex_encode (String c "") +:+ String blank (hex_row b')
  end.

Definition bytes_of (chunks : list string) : string := foldr String.append "" chunks.

(** ** Lines *)

Lemma split_one_line l : one_line l = true → split_lines l = [l].
Proof.
  induction l as [|c l IH]; cbn; [done|]. intros [H1 H2]%andb_true_iff. apply negb_true_iff in H1. by rewrite H1, IH.
Qed.

Lemma split_join l rest : one_line l = true → split_lines (l +:+ String newline rest) = l :: split_lines rest.
Proof.
  induction l as [|c l IH]; [done|]. cbn [one_line]. intros [H1 H2]%andb_true_iff. apply negb_true_iff in H1.
  rewrite string_app_cons. cbn [split_lines]. by rewrite H1, IH.
Qed.

Lemma split_text ls : ls ≠ [] → forallb one_line ls = true → split_lines (text ls) = ls.
Proof.
  induction ls as [|l ls IH]; [done|]. intros _. cbn [forallb]. intros [H1 H2]%andb_true_iff. unfold text. cbn [Prelude.Join].
  destruct ls as [|l' ls]; [by apply split_one_line|]. change (String newline "" +:+ ?x) with (String newline x).
  rewrite split_join by done. f_equal. by apply IH.
Qed.

(** ** Rows *)

Definition row_char (c : ascii) : Prop := is_space c = false ∧ Ascii.eqb c blank = false ∧ Ascii.eqb c tab = false ∧
  Ascii.eqb c newline = false ∧ is_hex c = true ∧ re_space c = false.

#[global] Instance row_char_dec c : Decision (row_char c) := _.

Lemma hex_digit_row n : (n < 16)%N → row_char (hex_digit n).
Proof. intros H. apply (below_spec 16 (λ n, row_char (hex_digit n))); [vm_compute; reflexivity|done]. Qed.

Lemma hex_byte c : ∃ a d, hex_encode (String c "") = String a (String d "") ∧ row_char a ∧ row_char d ∧
  ∀ b, hex_encode (String c b) = String a (String d (hex_encode b)).
Proof.
  pose proof (N_ascii_bounded c) as Hb. eexists _, _. split_and!; [done| | |done]; apply hex_digit_row.
  - apply N.Div0.div_lt_upper_bound. lia.
  - by apply N.mod_lt.
Qed.

Lemma hex_row_cons c d b : ∃ x y, hex_row (String c (String d b)) = String x (String y (String blank (hex_row (String d b)))) ∧
  row_char x ∧ row_char y ∧ ∀ b, hex_encode (String c b) = String x (String y (hex_encode b)).
Proof. destruct (hex_byte c) as (x & y & H & Hx & Hy & Ha). exists x, y. split_and!; try done. cbn [hex_row]. by rewrite H. Qed.

Lemma hex_row_ind (P : string → string → Prop) :
  (∀ c x y, row_char x → row_char y → (∀ b, hex_encode (String c b) = String x (String y (hex_encode b))) →
     P (String c "") (String x (String y ""))) →
  (∀ c d b x y, row_char x → row_char y → (∀ b, hex_encode (String c b) = String x (String y (hex_encode b))) →
     P (String d b) (hex_row (String d b)) → P (String c (String d b)) (String x (String y (String blank (hex_row (String d b)))))) →
  ∀ c b, P (String c b) (hex_row (String c b)).
Proof.
  intros H1 H2 c b. revert c. induction b as [|d b IH]; intros c.
  - destruct (hex_byte c) as (x & y & H & Hx & Hy & Ha). cbn [hex_row]. rewrite H. by apply H1.
  - destruct (hex_row_cons c d b) as (x & y & -> & Hx & Hy & Ha). by apply H2.
Qed.

Lemma hex_row_line b : one_line (hex_row b) = true.
Proof.
  destruct b as [|c b]; [done|]. revert c b. apply (hex_row_ind (λ _ r, one_line r = true)).
  - intros c x y (_ & _ & _ & Hx & _) (_ & _ & _ & Hy & _) _. cbn [one_line]. by rewrite Hx, Hy.
  - intros c d b x y (_ & _ & _ & Hx & _) (_ & _ & _ & Hy & _) _ IH. cbn [one_line]. by rewrite Hx, Hy, IH.
Qed.

Lemma hex_row_trim b : TrimSpace (hex_row b) = hex_row b.
Proof.
  destruct b as [|c b]; [done|]. unfold TrimSpace.
  assert (trim_left (hex_row (String c b)) = hex_row (String c b)) as ->.
  { revert c b. apply (hex_row_ind (λ _ r, trim_left r = r)); intros; cbn [trim_left];
      match goal with H : row_char _ |- _ => by rewrite (proj1 H) end. }
  enough (trim_right (hex_row (String c b)) = hex_row (String c b) ∧ hex_row (String c b) ≠ "") as [H _] by done.
  revert c b. apply (hex_row_ind (λ _ r, trim_right r = r ∧ r ≠ "")).
  - intros c x y [Hx _] [Hy _] _. cbn [trim_right]. by rewrite Hy.
  - intros c d b x y [Hx _] [Hy _] _ [IH Hne]. split; [|done]. cbn [trim_right]. rewrite IH. by destruct (hex_row (String d b)).
Qed.

Lemma hex_row_nonempty c b : String.eqb (hex_row (String c b)) "" = false.
Proof. revert c b. by apply (hex_row_ind (λ _ r, String.eqb r "" = false)). Qed.

(** The matcher reads a row to its end. *)
Lemma hex_row_match c b : ∀ k, hex_match FirstDigit k (hex_row (String c b)) = Nat.leb 2 (k + String.length (String c b)).
Proof.
  revert c b. apply (hex_row_ind (λ b r, ∀ k, hex_match FirstDigit k r = Nat.leb 2 (k + String.length b))).
  - intros c x y (_ & _ & _ & _ & Hx & _) (_ & _ & _ & _ & Hy & _) _ k. cbn [hex_match String.length]. rewrite Hx, Hy.
    cbn [andb]. f_equal. lia.
  - intros c d b x y (_ & _ & _ & _ & Hx & _) (_ & _ & _ & _ & Hy & _) _ IH k. cbn [hex_match]. rewrite Hx, Hy. cbn [andb].
    change (re_space blank) with true. cbn [andb].
    assert (∀ k, hex_match InGap k (hex_row (String d b)) = hex_match FirstDigit k (hex_row (String d b))) as ->.
    { clear. intros k. revert d b k. apply (hex_row_ind (λ _ r, ∀ k, hex_match InGap k r = hex_match FirstDigit k r));
        intros; cbn [hex_match]; match goal with H : row_char _ |- _ => destruct H as (_ & _ & _ & _ & _ & H); by rewrite H end. }
    rewrite IH. f_equal. cbn [String.length]. lia.
Qed.

Lemma hex_row_regex b : (2 ≤ String.length b)%nat → hexLineRegex (hex_row b) = true.
Proof.
  intros H. destruct b as [|c b]; [cbn in H; lia|]. unfold hexLineRegex. rewrite hex_row_match. apply Nat.leb_le. lia.
Qed.

(** Removing the blanks of a row leaves the bytes in hex. *)
Lemma remove_app c a b : remove_char c (a +:+ b) = remove_char c a +:+ remove_char c b.
Proof.
  induction a as [|d a IH]; [done|]. rewrite string_app_cons. cbn [remove_char].
  destruct (Ascii.eqb d c); [done|]. by rewrite IH, string_app_cons.
Qed.

Lemma hex_row_strip b : remove_char tab (remove_char blank (hex_row b)) = hex_encode b.
Proof.
  destruct b as [|c b]; [done|]. revert c b. apply (hex_row_ind (λ b r, remove_char tab (remove_char blank r) = hex_encode b)).
  - intros c x y (_ & Hx1 & Hx2 & _) (_ & Hy1 & Hy2 & _) Ha. rewrite Ha. cbn [remove_char]. rewrite Hx1, Hy1. cbn [remove_char]. by rewrite Hx2, Hy2.
  - intros c d b x y (_ & Hx1 & Hx2 & _) (_ & Hy1 & Hy2 & _) Ha IH. rewrite Ha. cbn [remove_char]. rewrite Hx1, Hy1, Ascii.eqb_refl.
    cbn [remove_char]. by rewrite Hx2, Hy2, IH.
Qed.

Lemma hex_row_blanks b : remove_char blank (hex_row b) = hex_encode b.
Proof.
  destruct b as [|c b]; [done|]. revert c b. apply (hex_row_ind (λ b r, remove_char blank r = hex_encode b)).
  - intros c x y (_ & Hx1 & _) (_ & Hy1 & _) Ha. rewrite Ha. cbn [remove_char]. by rewrite Hx1, Hy1.
  - intros c d b x y (_ & Hx1 & _) (_ & Hy1 & _) Ha IH. rewrite Ha. cbn [remove_char]. rewrite Hx1, Hy1, Ascii.eqb_refl.
    by rewrite IH.
Qed.

Lemma hex_encode_app a b : hex_encode (a +:+ b) = hex_encode a +:+ hex_encode b.
Proof.
  induction a as [|c a IH]; [done|]. rewrite string_app_cons. destruct (hex_byte c) as (x & y & _ & _ & _ & H).
  by rewrite !H, !string_app_cons, IH.
Qed.

Lemma strip_rows chunks : strip (hex_row <$> chunks) = hex_encode (bytes_of chunks).
Proof.
  unfold strip. induction chunks as [|b chunks IH]; [done|]. cbn [fmap list_fmap bytes_of foldr].
  fold (bytes_of chunks). rewrite hex_encode_app, <- IH, <- hex_row_strip.
  assert (Prelude.Join "" (hex_row b :: (hex_row <$> chunks)) = hex_row b +:+ Prelude.Join "" (hex_row <$> chunks)) as ->.
  { destruct chunks; cbn; [by rewrite string_app_nil_r|done]. }
  by rewrite !remove_app.
Qed.

(** ** Headers *)

Lemma contains_cons c s : Contains (String c s) ":" = Ascii.eqb c ":" || Contains s ":".
Proof.
  cbn [Contains String.prefix]. destruct (ascii_dec ":" c) as [<-|H]; [by destruct s|].
  destruct (Ascii.eqb_spec c ":") as [->|]; [done|]. done.
Qed.

Lemma hex_char_no_colon c : is_hex c = true ∨ re_space c = true → Ascii.eqb c ":" = false.
Proof. destruct c as [[] [] [] [] [] [] [] []]; vm_compute; intros [H|H]; try discriminate H; reflexivity. Qed.

(** A row holds no colon. *)
Lemma hex_match_no_colon s : ∀ p k, hex_match p k s = true → Contains s ":" = false.
Proof.
  induction s as [|c s IH]; intros p k H; [done|]. rewrite contains_cons.
  assert ((is_hex c = true ∨ re_space c = true) ∧ ∃ p' k', hex_match p' k' s = true) as [Hc (p' & k' & Hs)].
  { destruct p; cbn [hex_match] in H; try (apply andb_true_iff in H as [H1 H2]; eauto).
    destruct (re_space c) eqn:E; [eauto|]. apply andb_true_iff in H as [H1 H2]; eauto. }
  by rewrite (hex_char_no_colon c Hc), (IH p' k').
Qed.

Lemma colon_no_row line : Contains line ":" = true → hexLineRegex line = false.
Proof.
  intros H. destruct (hexLineRegex line) eqn:E; [|done]. apply hex_match_no_colon in E. congruence.
Qed.

Lemma header_no_row line f : header_field line = Some f → hexLineRegex line = false ∧ String.eqb line "" = false.
Proof.
  unfold header_field, hexLineRegex. destruct line as [|c s]; [done|]. cbn [hex_match].
  destruct (ascii_dec "M" c) as [<-|H1]; [done|]. destruct (ascii_dec "R" c) as [<-|H2]; [done|].
  destruct (ascii_dec "P" c) as [<-|H3]; [done|]. cbn [String.prefix].
  destruct (ascii_dec "M" c); [done|]. destruct (ascii_dec "R" c); [done|]. by destruct (ascii_dec "P" c).
Qed.

(** ** The state of the parser *)

(** Rows are only held for a field. *)
Definition tidy (p : parser) : Prop := ps_field p = None → ps_buffer p = [].

Lemma flush_empty p : tidy p → ps_buffer (flush p) = [] ∧ ps_field (flush p) = ps_field p.
Proof. unfold tidy, flush. destruct p as [[f|] [|x buffer] r]; cbn; try done. by intros H; specialize (H eq_refl). Qed.

Lemma parse_line_tidy p l : tidy p → tidy (parse_line p l).
Proof.
  intros Ht. destruct (flush_empty p Ht) as [He Hf]. unfold parse_line. cbn zeta. destruct (String.eqb _ ""); [done|].
  destruct (ps_field p) eqn:E.
  - destruct (hexLineRegex _); [done|]. destruct (header_field _); [done|]. destruct (Contains _ _); intros ?; cbn; try done.
  - destruct (header_field _); [done|]. destruct (Contains _ _); intros ?; cbn; done.
Qed.

Lemma parse_lines_tidy ls p : tidy p → tidy (foldl parse_line p ls).
Proof. revert p. induction ls as [|l ls IH]; intros p H; cbn; [done|]. by apply IH, parse_line_tidy. Qed.

Lemma get_set f v r : get_field f (set_field f v r) = v.
Proof. by destruct f. Qed.

Lemma get_set_ne f g v r : f ≠ g → get_field f (set_field g v r) = get_field f r.
Proof. by destruct f, g. Qed.

(** A field keeps its value until a header of its own. *)
Definition settled (f : report_field) (v : string) (p : parser) : Prop := ps_field p ≠ Some f ∧ get_field f (ps_report p) = v.

Lemma flush_settled f v p : settled f v p → settled f v (flush p).
Proof.
  intros [H1 H2]. unfold settled, flush. destruct (ps_field p) as [g|] eqn:E; [|by rewrite E].
  destruct (ps_buffer p); [by rewrite E|]. cbn. by rewrite get_set_ne by congruence.
Qed.

Lemma parse_line_settled f v p l : header_field (TrimSpace l) ≠ Some f → settled f v p → settled f v (parse_line p l).
Proof.
  intros Hl Hs. pose proof (flush_settled f v p Hs) as [F1 F2]. unfold parse_line. cbn zeta.
  destruct (String.eqb _ ""); [done|]. destruct (match ps_field p with Some _ => _ | None => _ end); [done|].
  destruct (header_field _) as [g|] eqn:E; [split; cbn; [congruence|done]|]. by destruct (Contains _ _).
Qed.

Lemma parse_lines_settled f v ls p :
  Forall (λ l, header_field (TrimSpace l) ≠ Some f) ls → settled f v p → settled f v (foldl parse_line p ls).
Proof.
  intros H. revert p. induction H as [|l ls Hl _ IH]; intros p Hp; cbn; [done|]. by apply IH, parse_line_settled.
Qed.

(** ** The field that is read *)

Lemma parse_header p f l :
  tidy p → header_field (TrimSpace l) = Some f → ∃ r, parse_line p l = mkParser (Some f) [] r.
Proof.
  intros Ht Hl. destruct (header_no_row _ _ Hl) as [Hr Hn]. destruct (flush_empty p Ht) as [He _].
  unfold parse_line. cbn zeta. rewrite Hn, Hr, Hl, He. destruct (ps_field p); eauto.
Qed.

Lemma parse_rows f chunks : ∀ buffer r, Forall (λ b, 2 ≤ String.length b)%nat chunks →
  foldl parse_line (mkParser (Some f) buffer r) (hex_row <$> chunks) = mkParser (Some f) (buffer ++ (hex_row <$> chunks)) r.
Proof.
  induction chunks as [|b chunks IH]; intros buffer r H; cbn [fmap list_fmap foldl]; [by rewrite app_nil_r|].
  apply Forall_cons in H as [Hb H]. unfold parse_line at 2. cbn zeta. rewrite hex_row_trim. destruct b as [|c b]; [cbn in Hb; lia|].
  rewrite hex_row_nonempty. cbn [ps_field ps_buffer ps_report]. rewrite hex_row_regex by done. rewrite IH by done.
  by rewrite <- app_assoc.
Qed.

Lemma flush_rows f rows r : rows ≠ [] → flush (mkParser (Some f) rows r) = mkParser (Some f) [] (set_field f (strip rows) r).
Proof. by destruct rows. Qed.

(** The line that ends a field. *)
Lemma parse_end f rows r l :
  rows ≠ [] → Contains (TrimSpace l) ":" = true → header_field (TrimSpace l) ≠ Some f →
  settled f (strip rows) (parse_line (mkParser (Some f) rows r) l).
Proof.
  intros Hrows Hc Hh. unfold parse_line. cbn zeta.
  assert (String.eqb (TrimSpace l) "" = false) as -> by (by destruct (TrimSpace l)).
  cbn [ps_field]. rewrite (colon_no_row _ Hc), flush_rows by done.
  destruct (header_field _) as [g|] eqn:E; [|rewrite Hc]; split; cbn; try congruence; apply get_set.
Qed.

Lemma displayed_field f before header chunks after r :
  header_field (TrimSpace header) = Some f →
  chunks ≠ [] → Forall (λ b, 2 ≤ String.length b)%nat chunks →
  match after with [] => True | l :: _ => Contains (TrimSpace l) ":" = true end →
  Forall (λ l, header_field (TrimSpace l) ≠ Some f) after →
  forallb one_line (before ++ header :: after) = true →
  get_field f (parseSnpguestReport (text (before ++ header :: (hex_row <$> chunks) ++ after)) r) = hex_encode (bytes_of chunks).
Proof.
  intros Hh Hne Hch Hnext Hafter Hlines. unfold parseSnpguestReport. rewrite split_text.
  - rewrite foldl_app. cbn [foldl]. destruct (parse_header (foldl parse_line (mkParser None [] r) before) f header) as [r1 ->];
      [by apply parse_lines_tidy|done|].
    rewrite foldl_app, parse_rows, app_nil_l, <- strip_rows by done.
    assert (hex_row <$> chunks ≠ []) as Hrows by (by destruct chunks).
    destruct after as [|l after]; [cbn [foldl]; rewrite flush_rows by done; apply get_set|].
    apply Forall_cons in Hafter as [Hl Hafter]. cbn [foldl]. apply flush_settled, parse_lines_settled; [done|].
    by apply parse_end.
  - by destruct before.
  - rewrite !forallb_app in *. cbn [forallb] in *. rewrite forallb_app. apply andb_true_iff in Hlines as [-> H2].
    apply andb_true_iff in H2 as [-> ->]. rewrite andb_true_r. cbn [andb]. apply forallb_forall. intros x Hx%list_elem_of_In.
    apply list_elem_of_fmap in Hx as (b & -> & _). apply hex_row_line.
Qed.

(** Reading back a displayed field.  In any display output, whatever precedes it, a field printed as its header
    followed by rows of two or more hex bytes is read back as exactly those bytes in hex, when the rows end with the
    output or with another header and no later line is a header of the same field.  This holds for the measurement,
    for the report data and for the platform version. *)
Theorem displayed_field_read f before header chunks after r :
  header_field (TrimSpace header) = Some f →
  chunks ≠ [] → Forall (λ b, 2 ≤ String.length b)%nat chunks →
  match after with [] => True | l :: _ => Contains (TrimSpace l) ":" = true end →
  Forall (λ l, header_field (TrimSpace l) ≠ Some f) after →
  forallb one_line (before ++ header :: after) = true →
  get_field f (parseSnpguestReport (text (before ++ header :: (hex_row <$> chunks) ++ after)) r) = hex_encode (bytes_of chunks).
Proof. apply displayed_field. Qed.

(** The output of the tool on a real machine, cut to its first sections. *)
Lemma displayed_field_read_witness :
  get_field FMeasurement
    (parseSnpguestReport
      (text (["Version: 2"; "Report Data:"; "aa bb cc dd"] ++ "Measurement:" :: (hex_row <$> ["AUDIT"; "ZK"]) ++ ["Host Data:"; "00 00"]))
      (mkSev true true "" "" true "" true)) = "41554449545a4b".
Proof.
  rewrite (displayed_field_read FMeasurement ["Version: 2"; "Report Data:"; "aa bb cc dd"] "Measurement:" ["AUDIT"; "ZK"]
    ["Host Data:"; "00 00"]); [reflexivity|reflexivity|discriminate| |reflexivity| |reflexivity].
  - repeat constructor.
  - repeat constructor; discriminate.
Defined.

End AttestationParse.
