(* ===== verification/ReportVerify.v ===== *)
(** * The integrator's verifier (pkg/reportverify/verifier.go)

    The six checks a third party runs on a signed report, and what their
    success means against the service that produced the attestation. *)

From S2P Require Import Prelude Num GoTime Encoding Json Signing SignedReports Attestation.
From stdpp Require Import base strings tactics list.
From Stdlib Require Import Ascii ZArith Lia.
Import Encoding Json Signing SignedReports.

Module ReportVerify.

Inductive error :=
| ErrNilReport
| ErrSignatureInvalid
| ErrPublicKeyMismatch
| ErrNoAttestation
| ErrNotAttested
| ErrReportDataNotBound
| ErrMeasurementNotAllowed
| ErrReportDataMismatch
| ErrVcekUnverified
| ErrMissingExpectedInput (field : string)
| ErrSigning (e : verify_error)
| ErrVcekChecker (e : string).

(** [vf_VCEK] is the caller's own chain validator, if any. *)
Record Verifier := mkVerifier {
  vf_ExpectedSigningPublicKey : string;
  vf_AllowedMeasurements : list string;
  vf_ExpectedTLSFingerprint : string;
  vf_ExpectedE2EPublicKey : string;
  vf_Nonce : string;
  vf_RequireSevSnp : bool;
  vf_VCEK : option (string → res unit);
}.

Definition lower_hex (c : ascii) : ascii :=
  let n := N_of_ascii c in if (65 <=? n)%N && (n <=? 70)%N then byte_of (n + 32) else c.

Fixpoint lowerHex (s : string) : string :=
  match s with EmptyString => EmptyString | String c s' => String (lower_hex c) (lowerHex s') end.

(** The loop: [diff] collects the bits in which the bytes differ. *)
Fixpoint hex_diff (diff : N) (a b : string) : N :=
  match a, b with
  | String x a', String y b' =>
      hex_diff (N.lor diff (N.lxor (N_of_ascii (lower_hex x)) (N_of_ascii (lower_hex y)))) a' b'
  | _, _ => diff
  end.

Definition constantTimeHexEqual (a b : string) : bool :=
  if negb (Nat.eqb (String.length a) (String.length b)) then false else (hex_diff 0 a b =? 0)%N.

Definition checkMeasurement (v : Verifier) (got : string) : option error :=
  match vf_AllowedMeasurements v with
  | [] => Some (ErrMissingExpectedInput "AllowedMeasurements")
  | allowed => if existsb (λ a, String.eqb (lowerHex a) (lowerHex got)) allowed then None else Some ErrMeasurementNotAllowed
  end.

Section verify.
Context {F : Type} {JF : JsonNumber F} {C : Crypto}.

Definition writeLenPrefixed (b : string) : string := len_prefixed 8 b.

Definition expectedReportData (tls e2e signing nonce : string) : string :=
  hex_encode (sha256 (writeLenPrefixed tls +:+ writeLenPrefixed e2e +:+ writeLenPrefixed signing +:+ writeLenPrefixed nonce)).

Definition ExpectedReportData (tls e2e signing nonce : string) : string := expectedReportData tls e2e signing nonce.

(** Steps 4 to 6. *)
Definition check_attestation (v : Verifier) (att : EnclaveAttestation) : option error :=
  if negb (String.eqb (ea_Platform att) "sev-snp") || negb (ea_Attested att) then Some ErrNotAttested
  else if negb (ea_ReportDataBoundToRequest att) then Some ErrReportDataNotBound
  else match checkMeasurement v (ea_Measurement att) with
  | Some e => Some e
  | None =>
      if String.eqb (vf_ExpectedTLSFingerprint v) "" then Some (ErrMissingExpectedInput "ExpectedTLSFingerprint")
      else if String.eqb (vf_ExpectedE2EPublicKey v) "" then Some (ErrMissingExpectedInput "ExpectedE2EPublicKey")
      else
        let expected := expectedReportData (vf_ExpectedTLSFingerprint v) (vf_ExpectedE2EPublicKey v)
                          (vf_ExpectedSigningPublicKey v) (vf_Nonce v) in
        if negb (constantTimeHexEqual (ea_ReportData att) expected) then Some ErrReportDataMismatch
        else match vf_VCEK v with
        | Some check => match check (ea_Measurement att) with Ok _ => None | Err e => Some (ErrVcekChecker e) end
        | None => if ea_VcekVerified att then None else Some ErrVcekUnverified
        end
  end.

(** [None] is a nil error: the report can be trusted. *)
Definition Verify (v : Verifier) (report : option (SignedReport F)) : option error :=
  match report with
  | None => Some ErrNilReport
  | Some r =>
      if String.eqb (vf_ExpectedSigningPublicKey v) "" then Some (ErrMissingExpectedInput "ExpectedSigningPublicKey")
      else match VerifyReportStrict (Some r) (vf_ExpectedSigningPublicKey v) false with
      | Failed Signing.ErrPublicKeyMismatch => Some ErrPublicKeyMismatch
      | Failed ErrAttestationNotBound => Some ErrReportDataNotBound
      | Failed e => Some (ErrSigning e)
      | Verdict false => Some ErrSignatureInvalid
      | Verdict true =>
          if negb (vf_RequireSevSnp v) then None
          else match sr_EnclaveAttestation r with
          | None => Some ErrNoAttestation
          | Some att => check_attestation v att
          end
      end
  end.

(** ** The comparison is equality of the bytes, case of hex aside *)

Lemma hex_diff_acc a : ∀ b diff, hex_diff diff a b = 0%N ↔ diff = 0%N ∧ hex_diff 0 a b = 0%N.
Proof.
  induction a as [|x a IH]; intros [|y b] diff; cbn [hex_diff]; try tauto.
  rewrite (IH b (N.lor diff _)), (IH b (N.lor 0 _)), N.lor_0_l, N.lor_eq_0_iff. tauto.
Qed.

Lemma lowerHex_length a : String.length (lowerHex a) = String.length a.
Proof. induction a; cbn; congruence. Qed.

Lemma constantTimeHexEqual_spec a b : constantTimeHexEqual a b = String.eqb (lowerHex a) (lowerHex b).
Proof.
  apply eq_true_iff_eq. rewrite String.eqb_eq. unfold constantTimeHexEqual.
  destruct (Nat.eqb_spec (String.length a) (String.length b)) as [Hl|Hl]; cbn [negb].
  2: { split; [done|]. intros H. apply (f_equal String.length) in H. by rewrite !lowerHex_length in H. }
  rewrite N.eqb_eq. revert b Hl. induction a as [|x a IH]; intros [|y b] Hl; try done. cbn [hex_diff lowerHex].
  rewrite hex_diff_acc, N.lor_0_l, N.lxor_eq_0_iff. cbn in Hl. injection Hl as Hl. rewrite (IH b Hl).
  split; [intros [H1 H2]|intros [= H1 H2]; by rewrite H1, H2]. f_equal; [|done].
  by rewrite <- (ascii_N_embedding (lower_hex x)), H1, ascii_N_embedding.
Qed.

Lemma lowerHex_encode x : lowerHex (hex_encode x) = hex_encode x.
Proof.
  assert (∀ n, (n < 16)%N → lower_hex (hex_digit n) = hex_digit n) as Hd.
  { intros n Hn. apply (below_spec 16 (λ n, lower_hex (hex_digit n) = hex_digit n)); [vm_compute; reflexivity|done]. }
  induction x as [|c x IH]; [done|]. cbn [hex_encode lowerHex]. pose proof (N_ascii_bounded c) as Hb.
  rewrite IH, !Hd; [done|by apply N.mod_lt|apply N.Div0.div_lt_upper_bound; lia].
Qed.

(** ** What success means *)

(** The hardware part of an accepted report. *)
Record attested (v : Verifier) (att : EnclaveAttestation) : Prop := {
  at_platform : ea_Platform att = "sev-snp" ∧ ea_Attested att = true;
  at_bound : ea_ReportDataBoundToRequest att = true;
  at_measurement : ∃ m, m ∈ vf_AllowedMeasurements v ∧ lowerHex m = lowerHex (ea_Measurement att);
  at_inputs : vf_ExpectedTLSFingerprint v ≠ "" ∧ vf_ExpectedE2EPublicKey v ≠ "";
  at_data : lowerHex (ea_ReportData att) =
    expectedReportData (vf_ExpectedTLSFingerprint v) (vf_ExpectedE2EPublicKey v) (vf_ExpectedSigningPublicKey v) (vf_Nonce v);
  at_chain : match vf_VCEK v with
             | Some check => ∃ u, check (ea_Measurement att) = Ok u
             | None => ea_VcekVerified att = true
             end;
}.

Lemma checkMeasurement_spec v m :
  checkMeasurement v m = None ↔ ∃ a, a ∈ vf_AllowedMeasurements v ∧ lowerHex a = lowerHex m.
Proof.
  unfold checkMeasurement. assert (existsb (λ a, String.eqb (lowerHex a) (lowerHex m)) (vf_AllowedMeasurements v) = true ↔
    ∃ a, a ∈ vf_AllowedMeasurements v ∧ lowerHex a = lowerHex m) as H.
  { rewrite existsb_exists. split; intros (a & H1 & H2); exists a; [rewrite list_elem_of_In|rewrite <- list_elem_of_In];
      (split; [done|]); by apply String.eqb_eq. }
  destruct (vf_AllowedMeasurements v) as [|a l]; [split; [done|by intros (x & ?%not_elem_of_nil & _)]|].
  rewrite <- H. by destruct (existsb _ _).
Qed.

Lemma check_attestation_spec v att : check_attestation v att = None ↔ attested v att.
Proof.
  unfold check_attestation. split.
  - destruct (String.eqb_spec (ea_Platform att) "sev-snp"); cbn [negb orb]; [|done].
    destruct (ea_Attested att) eqn:E1; cbn [negb]; [|done]. destruct (ea_ReportDataBoundToRequest att) eqn:E2; cbn [negb]; [|done].
    destruct (checkMeasurement v _) eqn:E3; [done|]. destruct (String.eqb_spec (vf_ExpectedTLSFingerprint v) ""); [done|].
    destruct (String.eqb_spec (vf_ExpectedE2EPublicKey v) ""); [done|]. cbn zeta.
    rewrite constantTimeHexEqual_spec. unfold expectedReportData. rewrite lowerHex_encode.
    destruct (String.eqb_spec (lowerHex (ea_ReportData att)) (hex_encode (sha256 (writeLenPrefixed (vf_ExpectedTLSFingerprint v) +:+
      writeLenPrefixed (vf_ExpectedE2EPublicKey v) +:+ writeLenPrefixed (vf_ExpectedSigningPublicKey v) +:+ writeLenPrefixed (vf_Nonce v))))); [|done].
    cbn [negb]. intros H. split; try done; [by apply checkMeasurement_spec|].
    destruct (vf_VCEK v) as [check|]; [|by destruct (ea_VcekVerified att)]. destruct (check (ea_Measurement att)); eauto; done.
  - intros [[H1 H2] H3 H4%checkMeasurement_spec [H5 H6] H7 H8].
    rewrite H1, H2, H3, H4. cbn [String.eqb negb orb]. change (String.eqb "sev-snp" "sev-snp") with true. cbn [negb orb].
    apply String.eqb_neq in H5, H6. rewrite H5, H6. cbn zeta. rewrite constantTimeHexEqual_spec, H7. unfold expectedReportData.
    rewrite lowerHex_encode, String.eqb_refl. cbn [negb]. destruct (vf_VCEK v) as [check|]; [|by rewrite H8]. by destruct H8 as [u ->].
Qed.

(** The verifier accepts exactly the reports it should.  Verify answers nil if and only if a report is given, the
    pinned key is not empty, the report carries that key and verifies under it, and, when hardware is required, the
    report has an attestation of the SEV-SNP platform that is attested and bound, of an allowed measurement, whose
    report data is the hash of the pinned TLS fingerprint, encryption key, signing key and nonce, and whose
    endorsement chain was verified by the caller's own checker or, without one, by the enclave. *)
Theorem verifier_accepts v report :
  Verify v report = None ↔
  ∃ r, report = Some r ∧ vf_ExpectedSigningPublicKey v ≠ "" ∧ sr_PublicKey r = vf_ExpectedSigningPublicKey v ∧
    VerifyReport (Some r) = Verdict true ∧
    (vf_RequireSevSnp v = true → ∃ att, sr_EnclaveAttestation r = Some att ∧ attested v att).
Proof.
  unfold Verify. destruct report as [r|]; [|by split; [|intros (? & ? & _)]].
  transitivity (vf_ExpectedSigningPublicKey v ≠ "" ∧ sr_PublicKey r = vf_ExpectedSigningPublicKey v ∧
    VerifyReport (Some r) = Verdict true ∧
    (vf_RequireSevSnp v = true → ∃ att, sr_EnclaveAttestation r = Some att ∧ attested v att));
    [|by split; [intros H; exists r|intros (? & [= <-] & H)]].
  unfold VerifyReportStrict. destruct (String.eqb_spec (vf_ExpectedSigningPublicKey v) "") as [|Hk]; [by split; [|intros [? _]]|].
  unfold subtleConstantTimeStringEqual. destruct (Nat.eqb_spec (String.length (sr_PublicKey r)) (String.length (vf_ExpectedSigningPublicKey v)))
    as [|Hl]; cbn [negb].
  2: { split; [done|]. by intros (_ & H & _); rewrite H in Hl. }
  destruct (String.eqb_spec (sr_PublicKey r) (vf_ExpectedSigningPublicKey v)) as [Hp|Hp]; [|by split; [|intros (_ & ? & _)]].
  cbn [Z.eqb Pos.eqb negb]. destruct (VerifyReport (Some r)) as [[]|err]; [| |by split; [destruct err|intros (_ & _ & ? & _)]].
  - destruct (vf_RequireSevSnp v); cbn [negb]; [|by split].
    destruct (sr_EnclaveAttestation r) as [att|].
    + rewrite check_attestation_spec. split; [intros H; split_and!; try done; eauto|].
      intros (_ & _ & _ & H). by destruct (H eq_refl) as (a & [= <-] & Ha).
    + split; [done|]. intros (_ & _ & _ & H). by destruct (H eq_refl) as (a & ? & _).
  - by split; [|intros (_ & _ & ? & _)].
Qed.

(** ** Against the enclave *)

(** The verifier hashes what the enclave hashes, and the length prefixes leave
    one reading of it: without a collision between the two texts, the same hash
    means the same four values. *)
Lemma binding_inj tls e2e signing nonce tls' e2e' signing' nonce' :
  Forall (fits 8) [tls; e2e; signing; tls'; e2e'; signing'] →
  Attestation.bound_bytes tls e2e signing nonce = Attestation.bound_bytes tls' e2e' signing' nonce' →
  (tls, e2e, signing, nonce) = (tls', e2e', signing', nonce').
Proof.
  rewrite !Forall_cons. intros (F1 & F2 & F3 & F4 & F5 & F6 & _) H. unfold Attestation.bound_bytes, Attestation.writeLenPrefixed in H.
  apply len_prefixed_inj in H as [-> H]; [|done..]. apply len_prefixed_inj in H as [-> H]; [|done..].
  apply len_prefixed_inj in H as [-> H]; [|done..]. unfold len_prefixed in H.
  assert (nonce = nonce') as ->; [|done].
  apply string_app_inj_l in H as [_ H]; [done|]. by rewrite !be_bytes_length.
Qed.

(** The hash binds the keys.  When the verifier accepts a report whose attestation carries the data an enclave's
    attestation service binds, and SHA-256 does not collide on the two texts hashed, then the TLS fingerprint, the
    encryption key, the signing key and the nonce the verifier pinned are the enclave's own and the nonce it was asked
    for: no other split of the same bytes is accepted. *)
Theorem accepted_binds_enclave v r att s nonce :
  Verify v (Some r) = None → vf_RequireSevSnp v = true → sr_EnclaveAttestation r = Some att →
  ea_ReportData att = Attestation.buildReportData s nonce →
  (∀ x y, x = Attestation.bound_bytes (vf_ExpectedTLSFingerprint v) (vf_ExpectedE2EPublicKey v) (vf_ExpectedSigningPublicKey v) (vf_Nonce v) →
     y = Attestation.bound_bytes (Attestation.as_tlsFingerprint s) (Attestation.as_e2ePublicKey s) (Attestation.as_signingPubKey s) nonce →
     sha256 x = sha256 y → x = y) →
  Forall (fits 8) [vf_ExpectedTLSFingerprint v; vf_ExpectedE2EPublicKey v; vf_ExpectedSigningPublicKey v;
    Attestation.as_tlsFingerprint s; Attestation.as_e2ePublicKey s; Attestation.as_signingPubKey s] →
  vf_ExpectedTLSFingerprint v = Attestation.as_tlsFingerprint s ∧ vf_ExpectedE2EPublicKey v = Attestation.as_e2ePublicKey s ∧
  vf_ExpectedSigningPublicKey v = Attestation.as_signingPubKey s ∧ vf_Nonce v = nonce.
Proof.
  intros (r0 & [= <-] & _ & _ & _ & H)%verifier_accepts Hreq Hatt Hdata Hcol Hfit.
  destruct (H Hreq) as (a & Ha & [_ _ _ _ Hd _]). rewrite Hatt in Ha. injection Ha as <-.
  rewrite Hdata in Hd. unfold Attestation.buildReportData in Hd. rewrite lowerHex_encode in Hd. apply hex_encode_inj in Hd.
  symmetry in Hd. apply Hcol in Hd; [|done..]. by apply binding_inj in Hd as [= -> -> -> ->].
Qed.

(** A report whose attestation carries the 64 bytes of the hardware's field is
    never accepted: the verifier compares them with the 32 bytes of a hash. *)
Theorem hardware_report_refused v r att data :
  CryptoLaws C → vf_RequireSevSnp v = true → sr_EnclaveAttestation r = Some att →
  ea_ReportData att = hex_encode data → String.length data = 64%nat → Verify v (Some r) ≠ None.
Proof.
  intros L Hreq Hatt Hdata Hlen (r0 & [= <-] & _ & _ & _ & H)%verifier_accepts.
  destruct (H Hreq) as (a & Ha & [_ _ _ _ Hd _]). rewrite Hatt in Ha. injection Ha as <-.
  apply (f_equal String.length) in Hd. unfold expectedReportData in Hd.
  rewrite lowerHex_length, Hdata, !hex_encode_length, sha256_length, Hlen in Hd. lia.
Qed.

End verify.

(** ** A sample *)

Definition sample_service : Attestation.Service :=
  Attestation.NewService "/usr/bin/snpguest" (Attestation.mkOptions "AB:CD" "pem" (b64_encode toy_der) false).

Definition sample_bound : EnclaveAttestation :=
  mkAttestation "1206" (Attestation.buildReportData (C := toy_crypto) sample_service "n0") "sev-snp" true true true.

Definition sample_bound_report : SignedReport float64 :=
  match Sign (JF := exact_number) (C := toy_crypto) "r-2" (1003 * Day) 0
          (SetAttestation (C := toy_crypto) sample_signer (Some sample_bound)) sample_input with
  | Ok r => r
  | Err _ => sample_report
  end.

Definition sample_verifier : Verifier := mkVerifier (b64_encode toy_der) ["12060"; "1206"] "AB:CD" "pem" "n0" true None.

Lemma accepted_binds_enclave_witness :
  vf_ExpectedTLSFingerprint sample_verifier = Attestation.as_tlsFingerprint sample_service ∧ vf_Nonce sample_verifier = "n0".
Proof.
  destruct (accepted_binds_enclave (JF := exact_number) (C := toy_crypto) sample_verifier sample_bound_report sample_bound
    sample_service "n0") as (H1 & _ & _ & H4).
  - vm_compute. reflexivity.
  - reflexivity.
  - vm_compute. reflexivity.
  - reflexivity.
  - intros x y -> -> _. reflexivity.
  - repeat (apply List.Forall_cons; [vm_compute; reflexivity|]). apply List.Forall_nil.
  - split; [exact H1|exact H4].
Defined.

End ReportVerify.
