(* ===== verification/Posture.v ===== *)
(** * The production posture (cmd/enclave/main.go, internal/config/config.go)

    What the enclave requires of its attestation before it signs and at every
    re-attestation, and the production checks of its configuration. *)

From S2P Require Import Prelude Num GoTime Encoding Json Signing SignedReports Attestation.
From stdpp Require Import base strings tactics list.
From Stdlib Require Import Ascii ZArith Lia.
Import Encoding Json Signing SignedReports Attestation.

Module Posture.

(** ** Configuration *)

(** [strings.Split(s, sep)] for one character *)
Fixpoint split_on (sep : ascii) (s : string) : list string :=
  match s with
  | EmptyString => [""]
  | String c s' =>
      if Ascii.eqb c sep then "" :: split_on sep s'
      else match split_on sep s' with l :: ls => String c l :: ls | [] => [String c ""] end
  end.

Definition nonempty (s : string) : Prop := s ≠ "".

Definition parseCommaList (raw : string) : list string :=
  let raw := TrimSpace raw in
  if String.eqb raw "" then [] else filter nonempty (TrimSpace <$> split_on (ascii_of_N 44) raw).

Definition parseMeasurementAllowlist (raw : string) : list string :=
  let raw := TrimSpace raw in
  if String.eqb raw "" then [] else filter nonempty ((λ p, ToLower (TrimSpace p)) <$> split_on (ascii_of_N 44) raw).

(** The fields of Config the checks below read. *)
Record Config := mkConfig {
  cf_Env : string;
  cf_NodeEnv : string;
  cf_MeasurementAllowlist : list string;
}.

Definition isProduction (env nodeEnv : string) : bool :=
  EqualFold (TrimSpace env) "production" || EqualFold (TrimSpace nodeEnv) "production".

Definition IsDevelopment (c : Config) : bool := negb (isProduction (cf_Env c) (cf_NodeEnv c)).

Definition isHTTPSURL (url : string) : bool := String.prefix "https://" (ToLower url).

Definition mtBridgeMinSecretLen : nat := 24.

Definition checkMTBridgeConfig (url secret : string) (isDev : bool) : res unit :=
  if String.eqb url "" || isDev then Ok tt
  else if negb (isHTTPSURL url) then Err "MT_BRIDGE_URL must be https:// in production"
  else if Nat.ltb (String.length secret) mtBridgeMinSecretLen then Err "MT_BRIDGE_HMAC_SECRET must be at least 24 characters"
  else Ok tt.

Definition checkBenchmarkConfig (url token : string) (isDev : bool) : res unit :=
  if String.eqb url "" || isDev then Ok tt
  else if negb (isHTTPSURL url) then Err "BENCHMARK_SERVICE_URL must be https:// in production"
  else if String.eqb token "" then Err "BENCHMARK_INTERNAL_TOKEN is required"
  else Ok tt.

(** The callback, nil without an allowlist; a verified chain is the list of the
    common names of its certificates, the leaf first. *)
Definition buildClientCNVerifier (allowlist : list string) : option (list (list string) → res unit) :=
  match allowlist with
  | [] => None
  | _ => Some (λ chains,
      match chains with
      | (leafCN :: _) :: _ => if existsb (String.eqb leafCN) allowlist then Ok tt else Err "client cert CN is not on the allowlist"
      | _ => Err "client cert allowlist enforced but no verified chain present"
      end)
  end.

(** ** The gate *)

(** logger.Fatal ends the process. *)
Inductive gate := Proceed | Keep | Fatal (reason : string).

Definition refusal (report : option AttestationReport) : option string :=
  match report with
  | None => Some "missing SEV-SNP attestation block"
  | Some r =>
      match ar_Attestation r with
      | None => Some "missing SEV-SNP attestation block"
      | Some a =>
          if negb (String.eqb (ar_Platform r) PlatformSevSnp) then Some ("non-sev-snp platform=" +:+ ar_Platform r)
          else if negb (sv_Verified a) then Some "snpguest report not verified"
          else if negb (sv_VcekVerified a) then Some "VCEK/VLEK certificate chain not verified against AMD root"
          else if negb (sv_ReportDataBoundToRequest a) then Some "snpguest --random fallback used"
          else None
      end
  end.

Definition enforceProductionAttestation (cfg : Config) (report : option AttestationReport) (initial : bool) : gate :=
  if negb (String.eqb (cf_Env cfg) "production") then Proceed
  else match refusal report with
  | None => Proceed
  | Some reason => if initial then Fatal reason else Keep
  end.

Definition enforceMeasurementAllowlist (cfg : Config) (report : AttestationReport) : gate :=
  match cf_MeasurementAllowlist cfg, ar_Attestation report with
  | [], _ | _, None => Proceed
  | allowlist, Some a =>
      if negb (String.eqb (ar_Platform report) "sev-snp") || negb (sv_Verified a) then Proceed
      else
        let measured := ToLower (TrimSpace (sv_Measurement a)) in
        if String.eqb measured "" then Fatal "attestation returned attested=true but empty measurement"
        else if existsb (String.eqb measured) allowlist then Proceed
        else if String.eqb (cf_Env cfg) "production" then Fatal "SEV-SNP measurement not in allowlist"
        else Proceed
  end.

Section refresh.
Context {C : Crypto}.

Inductive process := Running (s : ReportSigner) | Exited (reason : string).

Definition to_signing (r : AttestationReport) (a : SevSnpReport) : EnclaveAttestation :=
  mkAttestation (sv_Measurement a) (sv_ReportData a) (ar_Platform r) (sv_Verified a) (sv_ReportDataBoundToRequest a)
    (sv_VcekVerified a).

(** [fetched] is the answer of GetAttestation. *)
Definition refreshSignerAttestation (cfg : Config) (initial : bool) (fetched : res AttestationReport) (s : ReportSigner) : process :=
  match fetched with
  | Err e =>
      if initial && String.eqb (cf_Env cfg) "production"
      then Exited "production refuses to start without a fetched SEV-SNP attestation"
      else Running s
  | Ok report =>
      match enforceProductionAttestation cfg (Some report) initial with
      | Fatal reason => Exited reason
      | Keep => Running s
      | Proceed =>
          match ar_Attestation report with
          | None => Running s
          | Some a =>
              match enforceMeasurementAllowlist cfg report with
              | Fatal reason => Exited reason
              | _ => Running (SetAttestation s (Some (to_signing report a)))
              end
          end
      end
  end.

(** The first binding, then the periodic ones. *)
Definition reattest (cfg : Config) (p : process) (fetched : res AttestationReport) : process :=
  match p with
  | Running s => refreshSignerAttestation cfg false fetched s
  | Exited reason => Exited reason
  end.

Definition boot (cfg : Config) (fetched : res AttestationReport) (s : ReportSigner) : process :=
  refreshSignerAttestation cfg true fetched s.

(** ** In production the signer is bound to attested hardware *)

Definition on_allowlist (cfg : Config) (measurement : string) : Prop :=
  cf_MeasurementAllowlist cfg = [] ∨ ToLower (TrimSpace measurement) ∈ cf_MeasurementAllowlist cfg.

Record bound_signer (cfg : Config) (k : PrivateKey) (pub : string) (s : ReportSigner) : Prop := {
  bs_key : sg_privateKey s = k ∧ sg_publicKeyBase64 s = pub;
  bs_attested : ∃ att, sg_attestation s = Some att ∧ ea_Platform att = "sev-snp" ∧ ea_Attested att = true ∧
    ea_ReportDataBoundToRequest att = true ∧ ea_VcekVerified att = true ∧ on_allowlist cfg (ea_Measurement att);
}.

Lemma refusal_none r a :
  refusal (Some r) = None → ar_Attestation r = Some a →
  ar_Platform r = "sev-snp" ∧ sv_Verified a = true ∧ sv_VcekVerified a = true ∧ sv_ReportDataBoundToRequest a = true.
Proof.
  unfold refusal. intros H Ha. rewrite Ha in H. destruct (String.eqb_spec (ar_Platform r) PlatformSevSnp) as [->|]; [|done].
  cbn [negb] in H. destruct (sv_Verified a), (sv_VcekVerified a), (sv_ReportDataBoundToRequest a); done.
Qed.

Lemma allowlist_proceed cfg r a :
  cf_Env cfg = "production" → ar_Attestation r = Some a → ar_Platform r = "sev-snp" → sv_Verified a = true →
  (∀ reason, enforceMeasurementAllowlist cfg r ≠ Fatal reason) → on_allowlist cfg (sv_Measurement a).
Proof.
  intros He Ha Hp Hv. unfold enforceMeasurementAllowlist, on_allowlist. rewrite Ha, Hp, Hv, He.
  destruct (cf_MeasurementAllowlist cfg) as [|m l]; [by left|]. cbn [negb orb]. change (String.eqb "sev-snp" "sev-snp") with true.
  cbn [negb orb]. destruct (String.eqb _ ""); [intros H; by destruct (H _ eq_refl)|].
  destruct (existsb _ _) eqn:E; [|intros H; by destruct (H _ eq_refl)]. intros _. right.
  apply existsb_exists in E as (x & Hx & <-%String.eqb_eq). by apply list_elem_of_In.
Qed.

Lemma refresh_bound cfg initial fetched s s' k pub :
  cf_Env cfg = "production" → sg_privateKey s = k ∧ sg_publicKeyBase64 s = pub →
  (initial = false → bound_signer cfg k pub s) →
  refreshSignerAttestation cfg initial fetched s = Running s' → bound_signer cfg k pub s'.
Proof.
  intros He Hk Hs. unfold refreshSignerAttestation. destruct fetched as [r|e].
  2: { rewrite He. destruct initial; [done|]. intros [= <-]. by apply Hs. }
  unfold enforceProductionAttestation. rewrite He. change (String.eqb "production" "production") with true. cbn [negb].
  destruct (refusal (Some r)) as [reason|] eqn:Er; [destruct initial; [done|]; intros [= <-]; by apply Hs|].
  destruct (ar_Attestation r) as [a|] eqn:Ea; [|by unfold refusal in Er; rewrite Ea in Er].
  destruct (refusal_none r a Er Ea) as (Hp & Hv & Hvc & Hb).
  pose proof (allowlist_proceed cfg r a He Ea Hp Hv) as Hal.
  destruct (enforceMeasurementAllowlist cfg r) eqn:Eg; [| |done]; intros [= <-]; split; try done;
    eexists; (split; [done|]); cbn; split_and!; try done; by apply Hal.
Qed.

Lemma reattest_bound cfg fetches s0 k pub s :
  cf_Env cfg = "production" → bound_signer cfg k pub s0 →
  foldl (reattest cfg) (Running s0) fetches = Running s → bound_signer cfg k pub s.
Proof.
  intros He. revert s0. induction fetches as [|f fetches IH]; intros s0 H0; cbn [foldl]; [by intros [= <-]|].
  destruct (reattest cfg (Running s0) f) as [s1|reason] eqn:E.
  - apply IH. cbn in E. eapply refresh_bound; [done| |intros _; exact H0|exact E]. apply H0.
  - clear. intros H. exfalso. revert H. induction fetches as [|g fetches IH]; cbn; [done|exact IH].
Qed.

End refresh.

Section production.
Context {F : Type} {NF : Num F} {JF : JsonNumber F} {C : Crypto}.

(** C3: a production enclave only signs as attested hardware.  Whatever the attestation service answers at the first
    binding and at any number of later ones, an enclave with ENV=production that is still running has its signer bound
    to a verified SEV-SNP report, chained to AMD and bound to its keys, with a measurement of the allowlist if there is
    one; and so every report it signs is accepted by the strict verifier with the hardware posture required. *)
Theorem production_reports_attested cfg first later k s0 s uuid now rnd input r :
  CryptoLaws C → cf_Env cfg = "production" → newReportSignerFromPrivateKey k = Ok s0 →
  foldl (reattest cfg) (boot cfg first s0) later = Running s → Sign (F := F) uuid now rnd s input = Ok r →
  VerifyReportStrict (Some r) (sg_publicKeyBase64 s0) true = Verdict true ∧
  ∃ att, sr_EnclaveAttestation r = Some att ∧ ea_Platform att = "sev-snp" ∧ ea_VcekVerified att = true ∧
    on_allowlist cfg (ea_Measurement att).
Proof.
  intros L He Hk Hrun Hsign. pose proof (new_signer_own_key k s0 Hk) as Hown.
  assert (bound_signer cfg (sg_privateKey s0) (sg_publicKeyBase64 s0) s) as [[Hp Hpub] (att & Ha & H1 & H2 & H3 & H4 & H5)].
  { destruct (boot cfg first s0) as [s1|reason] eqn:Eb.
    - eapply reattest_bound; [done| |exact Hrun]. eapply (refresh_bound cfg true first s0); done.
    - exfalso. revert Hrun. clear. induction later as [|g later IH]; cbn; [done|exact IH]. }
  assert (own_key s) as Hown' by (unfold own_key in *; by rewrite Hp, Hpub).
  destruct (signed_accepted uuid now rnd s input r L Hown' Hsign) as (_ & _ & _ & Hstrict). rewrite <- Hpub. split.
  - apply Hstrict. by exists att.
  - apply Sign_ok in Hsign as (payload & percent & sg & psg & -> & _). exists att. cbn. by split_and!.
Qed.

End production.

(** The gate reads ENV as it is written, the rest of the program does not: with
    ENV=Production the configuration is the production one and an enclave
    without attestation still starts and signs. *)
Theorem gate_reads_env_exactly {C : Crypto} service k s0 :
  let cfg := mkConfig "Production" "" [] in
  newReportSignerFromPrivateKey k = Ok s0 →
  IsDevelopment cfg = false ∧
  ∃ s att, boot cfg (Ok (unattested service)) s0 = Running s ∧ sg_attestation s = Some att ∧ ea_Attested att = false.
Proof. intros cfg H. split; [reflexivity|]. do 2 eexists. split_and!; reflexivity. Qed.

(** ** A sample *)

Definition sample_config : Config := mkConfig "production" "" ["120683"].

Definition sample_fetched : AttestationReport :=
  report_of sample_service PlatformSevSnp (mkSev true true "120683" "ab" true "" true) true.

Definition sample_bound_signer : ReportSigner (C := toy_crypto) :=
  @mkSigner toy_crypto tt (b64_encode toy_der) (Some (mkAttestation "120683" "ab" "sev-snp" true true true)).

Definition sample_production_report : SignedReport float64 :=
  match Sign (JF := exact_number) (C := toy_crypto) "r-3" (1003 * Day) 0 sample_bound_signer sample_input with
  | Ok r => r
  | Err _ => sample_report
  end.

Lemma production_reports_attested_witness :
  VerifyReportStrict (JF := exact_number) (C := toy_crypto) (Some sample_production_report) (b64_encode toy_der) true = Verdict true.
Proof.
  apply (production_reports_attested (JF := exact_number) (C := toy_crypto) sample_config (Ok sample_fetched)
    [Err "timeout"; Ok (unattested sample_service)] tt (@mkSigner toy_crypto tt (b64_encode toy_der) None) sample_bound_signer
    "r-3" (1003 * Day) 0 sample_input sample_production_report toy_laws).
  - reflexivity.
  - reflexivity.
  - reflexivity.
  - vm_compute. reflexivity.
Defined.

End Posture.
