(* ===== verification/Vault.v ===== *)
(** * Credentials at rest (internal/encryption/aes.go, internal/service/connection.go)

    AES-256-GCM in the two layouts the table holds, the binding of a
    ciphertext to its row, and the reading of a connection's credentials with
    the rewrite of those bound to nothing.  The cipher is the parameter
    [Aead]. *)

From S2P Require Import Prelude Encoding.
From stdpp Require Import base strings tactics list.
From Stdlib Require Import Ascii ZArith Lia.
Import Encoding.

Module Vault.

(** ** The cipher *)

(** GCM under a key: [seal key nonce plaintext aad] and [unseal]. *)
Class Aead : Type := {
  seal : string → string → string → string → string;
  unseal : string → string → string → string → option string;
}.

(** What is documented of it: what is sealed opens, a sealed text is 16 bytes
    longer, and what opens is what sealing gives. *)
Class AeadLaws (A : Aead) : Prop := {
  unseal_seal k n p a : unseal k n (seal k n p a) a = Some p;
  seal_length k n p a : String.length (seal k n p a) = (String.length p + 16)%nat;
  unseal_sealed k n c a p : unseal k n c a = Some p → c = seal k n p a;
}.

(** A call returns, or panics: Open on a nonce of the wrong length does. *)
Inductive call (A : Type) : Type :=
| Ret (r : res A)
| Panic.
Arguments Ret {A} r.
Arguments Panic {A}.

Definition call_bind {A B} (c : call A) (k : A → call B) : call B :=
  match c with
  | Ret (Ok a) => k a
  | Ret (Err e) => Ret (Err e)
  | Panic => Panic
  end.

Definition call_wrap {A} (prefix : string) (c : call A) : call A :=
  match c with
  | Ret (Err e) => Ret (Err (prefix +:+ ": " +:+ e))
  | _ => c
  end.

(** [s[i:j]] within bounds *)
Definition slice (s : string) (i j : nat) : string := String.substring i (j - i) s.

Definition ErrDecryptionFailed : string := "decryption failed: authentication error".

Section aes.
Context {A : Aead}.

(** The cached wrappers are functions of the key. *)
Record Service := mkService { sv_key : string }.

Definition New (key : string) : res Service :=
  if negb (Nat.eqb (String.length key) 32) then Err "key must be 32 bytes" else Ok (mkService key).

Record EncryptedData := mkEncrypted { ed_Ciphertext : string; ed_IV : string; ed_AuthTag : string }.

Definition tsIVLen : nat := 16.
Definition tsTagLen : nat := 16.

(** Seal with the tag apart. *)
Definition seal_parts (key iv plaintext aad : string) : string * string :=
  let sealed := seal key iv plaintext aad in
  let n := String.length sealed in
  (slice sealed 0 (n - 16), slice sealed (n - 16) n).

Definition gcm_open (nonceSize : nat) (key iv sealed aad : string) : call string :=
  if negb (Nat.eqb (String.length iv) nonceSize) then Panic
  else match unseal key iv sealed aad with
  | Some p => Ret (Ok p)
  | None => Ret (Err ErrDecryptionFailed)
  end.

Definition decode (what : string) (d : option string) : call string :=
  match d with Some x => Ret (Ok x) | None => Ret (Err what) end.

(** [iv] is what rand.Read answers. *)
Definition EncryptWithAAD (iv : res string) (s : Service) (plaintext aad : string) : res EncryptedData :=
  match iv with
  | Err e => Err ("generate iv: " +:+ e)
  | Ok iv =>
      let p := seal_parts (sv_key s) iv plaintext aad in
      Ok (mkEncrypted (b64_encode p.1) (b64_encode iv) (b64_encode p.2))
  end.

Definition Encrypt (iv : res string) (s : Service) (plaintext : string) : res EncryptedData := EncryptWithAAD iv s plaintext "".

Definition DecryptWithAAD (s : Service) (data : EncryptedData) (aad : string) : call string :=
  call_bind (decode "decode ciphertext" (b64_decode (ed_Ciphertext data))) (λ ciphertext,
  call_bind (decode "decode iv" (b64_decode (ed_IV data))) (λ iv,
  call_bind (decode "decode auth tag" (b64_decode (ed_AuthTag data))) (λ authTag,
  gcm_open 12 (sv_key s) iv (ciphertext +:+ authTag) aad))).

Definition Decrypt (s : Service) (data : EncryptedData) : call string := DecryptWithAAD s data "".

(** An empty AAD is a nil one. *)
Definition ConnectionFieldAAD (userUID connectionID field : string) : string :=
  if String.eqb userUID "" || String.eqb connectionID "" || String.eqb field "" then ""
  else userUID +:+ "|" +:+ connectionID +:+ "|" +:+ field.

Definition sealTS (iv : res string) (s : Service) (plaintext aad : string) : res string :=
  match iv with
  | Err e => Err ("generate iv: " +:+ e)
  | Ok iv =>
      let p := seal_parts (sv_key s) iv plaintext aad in
      Ok (hex_encode iv +:+ hex_encode p.2 +:+ hex_encode p.1)
  end.

Definition openTS (s : Service) (hexData aad : string) : call string :=
  if Nat.ltb (String.length hexData) ((tsIVLen + tsTagLen) * 2) then Ret (Err "ts encrypted data too short")
  else
    let ivHex := slice hexData 0 (tsIVLen * 2) in
    let tagHex := slice hexData (tsIVLen * 2) ((tsIVLen + tsTagLen) * 2) in
    let ciphertextHex := slice hexData ((tsIVLen + tsTagLen) * 2) (String.length hexData) in
    call_bind (decode "decode ts iv" (hex_decode ivHex)) (λ iv,
    call_bind (decode "decode ts auth tag" (hex_decode tagHex)) (λ authTag,
    call_bind (decode "decode ts ciphertext" (hex_decode ciphertextHex)) (λ ciphertext,
    gcm_open tsIVLen (sv_key s) iv (ciphertext +:+ authTag) aad))).

Definition EncryptTSFormat (iv : res string) (s : Service) (plaintext : string) : res string := sealTS iv s plaintext "".
Definition DecryptTSFormat (s : Service) (hexData : string) : call string := openTS s hexData "".
Definition DecryptTSString (s : Service) (hexData : string) : call string := DecryptTSFormat s hexData.

Definition boundTSPrefix : string := "v2:".

Definition IsBoundTS (stored : string) : bool := String.prefix boundTSPrefix stored.

(** [strings.TrimPrefix(stored, boundTSPrefix)] *)
Definition trim_bound (stored : string) : string :=
  if IsBoundTS stored then slice stored 3 (String.length stored) else stored.

Definition EncryptTSBound (iv : res string) (s : Service) (plaintext aad : string) : res string :=
  if String.eqb aad "" then Err "encrypt bound credential: empty aad"
  else sealed ← sealTS iv s plaintext aad; Ok (boundTSPrefix +:+ sealed).

Definition DecryptTSBound (s : Service) (stored aad : string) : call string :=
  if negb (IsBoundTS stored) || String.eqb aad "" then Ret (Err ErrDecryptionFailed)
  else openTS s (trim_bound stored) aad.

(** ** A connection's credentials *)

Definition FieldAPIKey : string := "api_key".
Definition FieldAPISecret : string := "api_secret".
Definition FieldPassphrase : string := "passphrase".

(** The row less what the reading does not use. *)
Record Connection := mkConn {
  cn_ID : string;
  cn_UserUID : string;
  cn_Exchange : string;
  cn_IsPaper : bool;
  cn_EncryptedAPIKey : string;
  cn_APIKeyIV : string;
  cn_APIKeyAuthTag : string;
  cn_EncryptedAPISecret : string;
  cn_APISecretIV : string;
  cn_APISecretAuthTag : string;
  cn_EncryptedPassphrase : string;
  cn_PassphraseIV : string;
  cn_PassphraseAuthTag : string;
}.

Record Credentials := mkCredentials {
  cr_UserUID : string;
  cr_Exchange : string;
  cr_APIKey : string;
  cr_APISecret : string;
  cr_Passphrase : string;
  cr_Demo : bool;
}.

Record StoredCredentials := mkStored { sc_APIKey : string; sc_APISecret : string; sc_Passphrase : string }.

(** Three draws of random bytes, one per field. *)
Definition bindCredentials (iv : nat → res string) (s : Service) (conn : Connection) (apiKey apiSecret passphrase : string) : res StoredCredentials :=
  let seal_field (n : nat) (field plaintext : string) :=
    match EncryptTSBound (iv n) s plaintext (ConnectionFieldAAD (cn_UserUID conn) (cn_ID conn) field) with
    | Ok v => Ok v
    | Err e => Err ("encrypt " +:+ field +:+ ": " +:+ e)
    end in
  k ← seal_field 0%nat FieldAPIKey apiKey;
  x ← seal_field 1%nat FieldAPISecret apiSecret;
  if negb (String.eqb passphrase "") then p ← seal_field 2%nat FieldPassphrase passphrase; Ok (mkStored k x p)
  else Ok (mkStored k x "").

Definition decryptField (s : Service) (ciphertext iv authTag : string) : call string :=
  if negb (String.eqb iv "") && negb (String.eqb authTag "") then Decrypt s (mkEncrypted ciphertext iv authTag)
  else DecryptTSString s ciphertext.

(** The field, and whether it was bound to nothing. *)
Definition open_field (s : Service) (conn : Connection) (field ciphertext iv authTag : string) : call (string * bool) :=
  if IsBoundTS ciphertext then
    call_bind (DecryptTSBound s ciphertext (ConnectionFieldAAD (cn_UserUID conn) (cn_ID conn) field)) (λ p, Ret (Ok (p, false)))
  else call_bind (decryptField s ciphertext iv authTag) (λ p, Ret (Ok (p, true))).

Definition decryptConnection (s : Service) (conn : Connection) : call (Credentials * bool) :=
  call_bind (call_wrap "decrypt api key" (open_field s conn FieldAPIKey (cn_EncryptedAPIKey conn) (cn_APIKeyIV conn) (cn_APIKeyAuthTag conn))) (λ k,
  call_bind (call_wrap "decrypt api secret" (open_field s conn FieldAPISecret (cn_EncryptedAPISecret conn) (cn_APISecretIV conn) (cn_APISecretAuthTag conn))) (λ x,
  call_bind (if negb (String.eqb (cn_EncryptedPassphrase conn) "")
             then call_wrap "decrypt passphrase" (open_field s conn FieldPassphrase (cn_EncryptedPassphrase conn) (cn_PassphraseIV conn) (cn_PassphraseAuthTag conn))
             else Ret (Ok ("", false))) (λ p,
  Ret (Ok (mkCredentials (cn_UserUID conn) (cn_Exchange conn) k.1 x.1 p.1 (cn_IsPaper conn), k.2 || x.2 || p.2))))).

(** ** Reading a row of the table *)

(** The production schema keeps each ciphertext in one column. *)
Definition set_stored (c : StoredCredentials) (conn : Connection) : Connection :=
  mkConn (cn_ID conn) (cn_UserUID conn) (cn_Exchange conn) (cn_IsPaper conn) (sc_APIKey c) (cn_APIKeyIV conn)
    (cn_APIKeyAuthTag conn) (sc_APISecret c) (cn_APISecretIV conn) (cn_APISecretAuthTag conn) (sc_Passphrase c)
    (cn_PassphraseIV conn) (cn_PassphraseAuthTag conn).

Definition stored_of (conn : Connection) : StoredCredentials :=
  mkStored (cn_EncryptedAPIKey conn) (cn_EncryptedAPISecret conn) (cn_EncryptedPassphrase conn).

#[global] Instance stored_dec : EqDecision StoredCredentials.
Proof. solve_decision. Defined.

(** UPDATE ... WHERE id = $4 and the three ciphertexts are the ones that were
    read; the second component counts the rows that matched. *)
Definition RebindCredentials (table : list Connection) (connID : string) (old bound : StoredCredentials) : list Connection * nat :=
  let hit (c : Connection) := bool_decide (cn_ID c = connID ∧ stored_of c = old) in
  ((λ c, if hit c then set_stored bound c else c) <$> table, length (filter (λ c, hit c = true) table)).

(** [query] is false when the update fails in the database. *)
Definition openConnection (iv : nat → res string) (tsSchema query : bool) (s : Service) (table : list Connection) (conn : Connection)
  : call Credentials * list Connection :=
  match decryptConnection s conn with
  | Panic => (Panic, table)
  | Ret (Err e) => (Ret (Err e), table)
  | Ret (Ok (creds, legacy)) =>
      if negb legacy || negb tsSchema then (Ret (Ok creds), table)
      else match bindCredentials iv s conn (cr_APIKey creds) (cr_APISecret creds) (cr_Passphrase creds) with
      | Err _ => (Ret (Ok creds), table)
      | Ok bound =>
          if query then (Ret (Ok creds), (RebindCredentials table (cn_ID conn) (stored_of conn) bound).1)
          else (Ret (Ok creds), table)
      end
  end.

(** ** Slices *)

Lemma substring_app_l a b : String.substring 0 (String.length a) (a +:+ b) = a.
Proof. induction a as [|c a IH]; [by destruct b|]. rewrite string_app_cons. cbn [String.length String.substring]. by rewrite IH. Qed.

Lemma substring_app_r a b m : String.substring (String.length a) m (a +:+ b) = String.substring 0 m b.
Proof. induction a as [|c a IH]; [done|]. rewrite string_app_cons. cbn [String.length String.substring]. apply IH. Qed.

Lemma substring_all a : String.substring 0 (String.length a) a = a.
Proof. rewrite <- (string_app_nil_r a) at 2. apply substring_app_l. Qed.

Lemma slice_left a b n : n = String.length a → slice (a +:+ b) 0 n = a.
Proof. intros ->. unfold slice. rewrite Nat.sub_0_r. apply substring_app_l. Qed.

Lemma slice_right a b n m : n = String.length a → m = String.length (a +:+ b) → slice (a +:+ b) n m = b.
Proof.
  intros -> ->. unfold slice. rewrite substring_app_r, string_length_app.
  replace (_ + _ - _)%nat with (String.length b) by lia. apply substring_all.
Qed.

Lemma slice_middle a b c n m :
  n = String.length a → m = (String.length a + String.length b)%nat → slice (a +:+ (b +:+ c)) n m = b.
Proof.
  intros -> ->. unfold slice. rewrite substring_app_r. replace (_ + _ - _)%nat with (String.length b) by lia. apply substring_app_l.
Qed.

(** A string cut in two. *)
Lemma substring_prefix s n : (n ≤ String.length s)%nat → String.length (String.substring 0 n s) = n.
Proof.
  revert n. induction s as [|c s IH]; intros [|n] H; cbn in *; try lia. rewrite IH; lia.
Qed.

Lemma substring_cut s n : (n ≤ String.length s)%nat → s = String.substring 0 n s +:+ String.substring n (String.length s - n) s.
Proof.
  revert n. induction s as [|c s IH]; intros [|n] H; cbn [String.length] in *; try lia; try done.
  - cbn [String.substring]. change ("" +:+ ?x) with x. rewrite Nat.sub_0_r. cbn [String.substring]. by rewrite substring_all.
  - cbn [String.substring]. rewrite string_app_cons. f_equal. apply IH. lia.
Qed.

Lemma seal_parts_spec key iv p aad `{!AeadLaws A} :
  String.length (seal_parts key iv p aad).2 = 16%nat ∧
  (seal_parts key iv p aad).1 +:+ (seal_parts key iv p aad).2 = seal key iv p aad.
Proof.
  unfold seal_parts, slice. cbn [fst snd]. pose proof (seal_length key iv p aad) as Hl.
  set (x := seal key iv p aad) in *. rewrite Nat.sub_0_r.
  pose proof (substring_cut x (String.length x - 16) ltac:(lia)) as Hc.
  pose proof (substring_prefix x (String.length x - 16) ltac:(lia)) as Hp.
  split; [|done]. apply (f_equal String.length) in Hc. rewrite string_length_app, Hp in Hc. lia.
Qed.

(** ** Round trips *)

Lemma prefix_bound x : IsBoundTS (boundTSPrefix +:+ x) = true ∧ trim_bound (boundTSPrefix +:+ x) = x.
Proof.
  unfold IsBoundTS, trim_bound, IsBoundTS. change (boundTSPrefix +:+ x) with (String "v" (String "2" (String ":" x))).
  assert (String.prefix boundTSPrefix (String "v" (String "2" (String ":" x))) = true) as -> by (by destruct x).
  split; [done|]. apply (slice_right boundTSPrefix x); done.
Qed.

Section trips.
Context `{!AeadLaws A}.

Lemma openTS_sealTS iv s p aad v :
  String.length iv = 16%nat → sealTS (Ok iv) s p aad = Ok v → openTS s v aad = Ret (Ok p).
Proof.
  intros Hiv H. unfold sealTS in H. cbn zeta in H. destruct (seal_parts_spec (sv_key s) iv p aad) as [Ht He].
  set (c := (seal_parts (sv_key s) iv p aad).1) in *. set (g := (seal_parts (sv_key s) iv p aad).2) in *. clearbody c g. injection H as <-.
  unfold openTS, tsIVLen, tsTagLen. rewrite !string_length_app, !hex_encode_length, Hiv, Ht.
  destruct (Nat.ltb_spec (2 * 16 + (2 * 16 + 2 * String.length c)) ((16 + 16) * 2)); [lia|]. cbn zeta.
  rewrite slice_left by (by rewrite hex_encode_length, Hiv).
  rewrite slice_middle by (by rewrite !hex_encode_length, Hiv, ?Ht).
  rewrite (string_app_assoc (hex_encode iv)), slice_right.
  - rewrite !hex_roundtrip. cbn [decode call_bind]. unfold gcm_open. rewrite Hiv. change (Nat.eqb 16 16) with true. cbn [negb].
    by rewrite He, unseal_seal.
  - by rewrite string_length_app, !hex_encode_length, Hiv, Ht.
  - rewrite !string_length_app, !hex_encode_length, Hiv, Ht. lia.
Qed.

Lemma bound_roundtrip iv s p aad v :
  String.length iv = 16%nat → EncryptTSBound (Ok iv) s p aad = Ok v →
  IsBoundTS v = true ∧ DecryptTSBound s v aad = Ret (Ok p) ∧ v ≠ "".
Proof.
  intros Hiv. unfold EncryptTSBound, DecryptTSBound. destruct (String.eqb_spec aad "") as [|Ha]; [done|].
  intros (x & Hx & [= <-])%res_bind_ok. destruct (prefix_bound x) as [-> ->].
  split; [done|]. split; [by eapply openTS_sealTS|done].
Qed.

(** The bytes drawn are as many as asked for. *)
Definition draws (iv : nat → res string) : Prop := ∀ n, ∃ b, iv n = Ok b ∧ String.length b = 16%nat.

Lemma open_bound iv n s conn field p v g tag :
  draws iv → EncryptTSBound (iv n) s p (ConnectionFieldAAD (cn_UserUID conn) (cn_ID conn) field) = Ok v →
  open_field s conn field v g tag = Ret (Ok (p, false)) ∧ v ≠ "".
Proof.
  intros Hd H. destruct (Hd n) as (b & Hb & Hl). rewrite Hb in H. destruct (bound_roundtrip b s p _ v Hl H) as (H1 & H2 & H3).
  unfold open_field. by rewrite H1, H2.
Qed.

Lemma bound_credentials_open iv s conn k x p b :
  draws iv → bindCredentials iv s conn k x p = Ok b →
  decryptConnection s (set_stored b conn) = Ret (Ok (mkCredentials (cn_UserUID conn) (cn_Exchange conn) k x p (cn_IsPaper conn), false)).
Proof.
  intros Hd. unfold bindCredentials. cbn zeta. intros (vk & Hk & H)%res_bind_ok. apply res_bind_ok in H as (vx & Hx & H).
  destruct (EncryptTSBound (iv 0) _ _ _) as [vk'|] eqn:Ek; [injection Hk as ->|done].
  destruct (EncryptTSBound (iv 1) _ _ _) as [vx'|] eqn:Ex; [injection Hx as ->|done].
  unfold decryptConnection. destruct (String.eqb_spec p "") as [->|Hp]; cbn [negb] in H.
  - injection H as <-. cbn [cn_EncryptedAPIKey cn_EncryptedAPISecret cn_EncryptedPassphrase set_stored sc_APIKey sc_APISecret sc_Passphrase].
    rewrite (proj1 (open_bound iv 0 s (set_stored (mkStored vk vx "") conn) FieldAPIKey k vk _ _ Hd Ek)). cbn [call_wrap call_bind].
    rewrite (proj1 (open_bound iv 1 s (set_stored (mkStored vk vx "") conn) FieldAPISecret x vx _ _ Hd Ex)). done.
  - apply res_bind_ok in H as (vp & Hvp & [= <-]). destruct (EncryptTSBound (iv 2) _ _ _) as [vp'|] eqn:Ep; [injection Hvp as ->|done].
    cbn [cn_EncryptedAPIKey cn_EncryptedAPISecret cn_EncryptedPassphrase set_stored sc_APIKey sc_APISecret sc_Passphrase].
    rewrite (proj1 (open_bound iv 0 s (set_stored (mkStored vk vx vp) conn) FieldAPIKey k vk _ _ Hd Ek)). cbn [call_wrap call_bind].
    rewrite (proj1 (open_bound iv 1 s (set_stored (mkStored vk vx vp) conn) FieldAPISecret x vx _ _ Hd Ex)). cbn [call_wrap call_bind].
    destruct (open_bound iv 2 s (set_stored (mkStored vk vx vp) conn) FieldPassphrase p vp
      (cn_PassphraseIV conn) (cn_PassphraseAuthTag conn) Hd Ep) as [Ho Hne].
    apply String.eqb_neq in Hne. cbn [cn_EncryptedPassphrase cn_PassphraseIV cn_PassphraseAuthTag set_stored sc_Passphrase] in *.
    rewrite Hne. cbn [negb]. rewrite Ho. done.
Qed.

(** *** Rewriting a row *)

Lemma bind_ok iv s conn k x p :
  draws iv → cn_UserUID conn ≠ "" → cn_ID conn ≠ "" → ∃ b, bindCredentials iv s conn k x p = Ok b.
Proof.
  intros Hd Hu Hi.
  assert (∀ n f q, f ≠ "" → ∃ v, EncryptTSBound (iv n) s q (ConnectionFieldAAD (cn_UserUID conn) (cn_ID conn) f) = Ok v) as He.
  { intros n f q Hf. destruct (Hd n) as (b & -> & _). unfold EncryptTSBound, ConnectionFieldAAD.
    apply String.eqb_neq in Hu, Hi, Hf. rewrite Hu, Hi, Hf. cbn [orb].
    destruct (String.eqb_spec (cn_UserUID conn +:+ "|" +:+ cn_ID conn +:+ "|" +:+ f) "") as [E|_]; [|by eexists].
    exfalso. apply (f_equal String.length) in E. rewrite !string_length_app in E. cbn in E. lia. }
  unfold bindCredentials. cbn zeta. destruct (He 0%nat FieldAPIKey k ltac:(done)) as [vk ->].
  destruct (He 1%nat FieldAPISecret x ltac:(done)) as [vx ->]. cbn [mbind res_bind].
  destruct (String.eqb p ""); cbn [negb]; [by eexists|]. destruct (He 2%nat FieldPassphrase p ltac:(done)) as [vp ->]. by eexists.
Qed.

Lemma decrypt_identity s conn creds legacy :
  decryptConnection s conn = Ret (Ok (creds, legacy)) →
  cr_UserUID creds = cn_UserUID conn ∧ cr_Exchange creds = cn_Exchange conn ∧ cr_Demo creds = cn_IsPaper conn.
Proof.
  unfold decryptConnection. destruct (call_wrap _ _) as [[k|]|]; cbn [call_bind]; try done.
  destruct (call_wrap "decrypt api secret" _) as [[x|]|]; cbn [call_bind]; try done.
  destruct (if negb _ then _ else _) as [[y|]|]; cbn [call_bind]; try done. by intros [= <- _].
Qed.

(** C9: credentials survive their rewriting.  Reading a connection returns its credentials and may rewrite the row with
    the ciphertexts bound to it.  A row of the table that is not the one read, or whose ciphertexts changed since (a
    token rotation), is left as it is; the row that was read still opens to the very same credentials, and in the
    production schema, when the update goes through, it is then bound to its user and id. *)
Theorem credentials_survive_rebinding iv query s table conn creds table' :
  draws iv → openConnection iv true query s table conn = (Ret (Ok creds), table') →
  ∀ i row, table !! i = Some row → ∃ row', table' !! i = Some row' ∧
    (cn_ID row ≠ cn_ID conn ∨ stored_of row ≠ stored_of conn → row' = row) ∧
    (row = conn → ∃ legacy, decryptConnection s row' = Ret (Ok (creds, legacy)) ∧
       (query = true → cn_UserUID conn ≠ "" → cn_ID conn ≠ "" → legacy = false)).
Proof.
  intros Hd H i row Hi. unfold openConnection in H.
  destruct (decryptConnection s conn) as [[[creds0 legacy]|]|] eqn:E; [|done..]. rewrite orb_false_r in H.
  destruct (decrypt_identity _ _ _ _ E) as (Eu & Ee & Ed).
  destruct legacy; cbn [negb] in H.
  2: { injection H as <- <-. exists row. split; [done|]. split; [done|]. intros ->. eauto. }
  destruct (bindCredentials iv s conn _ _ _) as [b|] eqn:Eb.
  2: { injection H as <- <-. exists row. split; [done|]. split; [done|]. intros ->. exists true. split; [done|].
       intros _ Hu Hid. destruct (bind_ok iv s conn (cr_APIKey creds0) (cr_APISecret creds0) (cr_Passphrase creds0) Hd Hu Hid). congruence. }
  destruct query; injection H as <- <-; [|exists row; split; [done|]; split; [done|]; intros ->; eauto].
  eexists. split; [by apply list_lookup_fmap_Some; exists row|]. split.
  - intros Hne. rewrite bool_decide_false; [done|]. tauto.
  - intros ->. rewrite bool_decide_true by done. exists false. split; [|done].
    rewrite (bound_credentials_open iv s conn _ _ _ b Hd Eb). destruct creds0. cbn in *. by subst.
Qed.

(** *** A ciphertext moved elsewhere *)

Fixpoint no_bar (s : string) : bool :=
  match s with EmptyString => true | String c s' => negb (Ascii.eqb c "|") && no_bar s' end.

Lemma bar_inj a b r1 r2 : no_bar a = true → no_bar b = true → a +:+ String "|" r1 = b +:+ String "|" r2 → a = b ∧ r1 = r2.
Proof.
  revert b. induction a as [|x a IH]; intros [|y b] Ha Hb H; cbn [no_bar] in *.
  - by injection H as ->.
  - exfalso. rewrite string_app_cons in H. injection H as <- _. done.
  - exfalso. rewrite string_app_cons in H. injection H as -> _. done.
  - apply andb_true_iff in Ha as [_ Ha], Hb as [_ Hb]. rewrite !string_app_cons in H. injection H as -> H.
    by destruct (IH b Ha Hb H) as [-> ->].
Qed.

Lemma aad_inj u c f u' c' f' :
  no_bar u = true → no_bar c = true → no_bar u' = true → no_bar c' = true →
  ConnectionFieldAAD u c f ≠ "" → ConnectionFieldAAD u c f = ConnectionFieldAAD u' c' f' → (u, c, f) = (u', c', f').
Proof.
  intros H1 H2 H3 H4 Hne H. unfold ConnectionFieldAAD in *. destruct (_ || _); [done|]. destruct (_ || _); [by rewrite H in Hne|].
  change ("|" +:+ ?x) with (String "|" x) in H. apply bar_inj in H as [-> H]; [|done..].
  by apply bar_inj in H as [-> ->].
Qed.

(** What opens was sealed with the same bytes. *)
Lemma openTS_sealed iv s p aad v aad' p' :
  String.length iv = 16%nat → sealTS (Ok iv) s p aad = Ok v → openTS s v aad' = Ret (Ok p') →
  seal (sv_key s) iv p aad = seal (sv_key s) iv p' aad'.
Proof.
  intros Hiv H. unfold sealTS in H. cbn zeta in H. destruct (seal_parts_spec (sv_key s) iv p aad) as [Ht He].
  set (c := (seal_parts (sv_key s) iv p aad).1) in *. set (g := (seal_parts (sv_key s) iv p aad).2) in *. clearbody c g.
  injection H as <-. unfold openTS, tsIVLen, tsTagLen. rewrite !string_length_app, !hex_encode_length, Hiv, Ht.
  destruct (Nat.ltb_spec (2 * 16 + (2 * 16 + 2 * String.length c)) ((16 + 16) * 2)); [lia|]. cbn zeta.
  rewrite slice_left by (by rewrite hex_encode_length, Hiv).
  rewrite slice_middle by (by rewrite !hex_encode_length, Hiv, ?Ht).
  rewrite (string_app_assoc (hex_encode iv)), slice_right.
  - rewrite !hex_roundtrip. cbn [decode call_bind]. unfold gcm_open. rewrite Hiv. change (Nat.eqb 16 16) with true. cbn [negb].
    destruct (unseal _ _ _ _) as [q|] eqn:Eq; [|done]. intros [= <-]. apply unseal_sealed in Eq. congruence.
  - by rewrite string_length_app, !hex_encode_length, Hiv, Ht.
  - rewrite !string_length_app, !hex_encode_length, Hiv, Ht. lia.
Qed.

Lemma hex_not_bound x y : IsBoundTS (hex_encode x +:+ y) = true → x = "".
Proof.
  destruct x as [|c x]; [done|]. intros H. exfalso. unfold IsBoundTS, boundTSPrefix in H. cbn [hex_encode] in H.
  rewrite string_app_cons in H. cbn [String.prefix] in H. destruct (ascii_dec "v" _) as [E|]; [|done].
  pose proof (N_ascii_bounded c) as Hb.
  assert (∀ n, (n < 16)%N → hex_digit n ≠ "v"%char) as Hd.
  { intros n Hn. apply (below_spec 16 (λ n, hex_digit n ≠ "v"%char)); [vm_compute; reflexivity|done]. }
  apply (Hd (N_of_ascii c / 16)%N); [apply N.Div0.div_lt_upper_bound; lia|done].
Qed.

(** A bound ciphertext opens in its own place only.  A credential sealed for a field of a user's connection and
    copied, as it is or with the mark of its layout cut off, into any row and field of the table, opens there only if
    that row and field are its own, and then to the same plaintext; the hypothesis is that the cipher's tag does not
    collide on the two pieces of associated data. *)
Theorem bound_credential_stays iv s u c f p v stored conn' field' p' legacy :
  String.length iv = 16%nat → no_bar u = true → no_bar c = true → no_bar (cn_UserUID conn') = true → no_bar (cn_ID conn') = true →
  EncryptTSBound (Ok iv) s p (ConnectionFieldAAD u c f) = Ok v → (stored = v ∨ stored = trim_bound v) →
  (∀ aad, aad = ConnectionFieldAAD (cn_UserUID conn') (cn_ID conn') field' ∨ aad = "" →
     seal (sv_key s) iv p (ConnectionFieldAAD u c f) = seal (sv_key s) iv p' aad → ConnectionFieldAAD u c f = aad) →
  open_field s conn' field' stored "" "" = Ret (Ok (p', legacy)) →
  (u, c, f) = (cn_UserUID conn', cn_ID conn', field') ∧ p' = p ∧ legacy = false.
Proof.
  intros Hiv Hu Hc Hu' Hc' He Hst Hcommit. unfold EncryptTSBound in He. destruct (String.eqb_spec (ConnectionFieldAAD u c f) "") as [|Hne]; [done|].
  apply res_bind_ok in He as (x & Hx & [= <-]). destruct (prefix_bound x) as [Hb Ht]. unfold open_field.
  destruct Hst as [->| ->].
  - rewrite Hb. unfold DecryptTSBound. rewrite Hb, Ht. cbn [negb orb]. destruct (String.eqb _ ""); [done|].
    destruct (openTS s x _) as [[q|]|] eqn:Eo; cbn [call_bind]; [|done..]. intros [= <- <-].
    eapply openTS_sealed in Eo; [|done..]. pose proof (Hcommit _ (or_introl eq_refl) Eo) as Ea. split; [by apply aad_inj|].
    split; [|done]. rewrite <- Ea in Eo. apply (f_equal (λ x, unseal (sv_key s) iv x (ConnectionFieldAAD u c f))) in Eo.
    rewrite !unseal_seal in Eo. by injection Eo.
  - rewrite Ht. destruct (IsBoundTS x) eqn:Ex.
    + exfalso. unfold sealTS in Hx. injection Hx as <-. apply hex_not_bound in Ex. by subst.
    + unfold decryptField, DecryptTSString, DecryptTSFormat. cbn [String.eqb negb andb].
      destruct (openTS s x "") as [[q|]|] eqn:Eo; cbn [call_bind]; [|done..].
      intros [= <- <-]. eapply openTS_sealed in Eo; [|done..]. pose proof (Hcommit _ (or_intror eq_refl) Eo) as Ea. by destruct Hne.
Qed.

End trips.
End aes.

(** ** A cipher for samples

    The plaintext in the clear, followed by 16 bytes of a polynomial of the
    key and the associated data: it keeps the laws, not the secrecy. *)
Definition toy_tag (a : string) : string := be_bytes 16 (foldl (λ h c, h * 257 + N_of_ascii c + 1)%N 0%N (String.list_ascii_of_string a)).

Lemma toy_tag_length a : String.length (toy_tag a) = 16%nat.
Proof. apply be_bytes_length. Qed.

Definition toy_aead : Aead := {|
  seal := λ k n p a, p +:+ toy_tag (k +:+ a);
  unseal := λ k n c a,
    let p := String.substring 0 (String.length c - 16) c in if String.eqb c (p +:+ toy_tag (k +:+ a)) then Some p else None |}.

Lemma toy_aead_laws : AeadLaws toy_aead.
Proof.
  split; cbn -[toy_tag].
  - intros k _ p a. rewrite string_length_app, toy_tag_length.
    replace (String.length p + 16 - 16)%nat with (String.length p) by lia. by rewrite substring_app_l, String.eqb_refl.
  - intros k _ p a. by rewrite string_length_app, toy_tag_length.
  - intros k _ c a p. destruct (String.eqb_spec c (String.substring 0 (String.length c - 16) c +:+ toy_tag (k +:+ a))) as [E|]; [|done].
    by intros [= <-].
Qed.

Definition sample_iv : string := Nat.iter 16 (String (ascii_of_N 105)) "".
Definition sample_service : Service := mkService (Nat.iter 32 (String (ascii_of_N 107)) "").

(** A row of the previous enclave, bound to nothing. *)
Definition sample_row : Connection :=
  let seal_ts p := match EncryptTSFormat (A := toy_aead) (Ok sample_iv) sample_service p with Ok v => v | Err _ => "" end in
  mkConn "cuid_1" "user-1" "binance" false (seal_ts "key") "" "" (seal_ts "secret") "" "" "" "" "".

Lemma credentials_survive_rebinding_witness :
  ∃ row', (openConnection (A := toy_aead) (λ _, Ok sample_iv) true true sample_service [sample_row] sample_row).2 !! 0%nat = Some row' ∧
    row' ≠ sample_row ∧
    decryptConnection (A := toy_aead) sample_service row' =
      Ret (Ok (mkCredentials "user-1" "binance" "key" "secret" "" false, false)).
Proof.
  destruct (credentials_survive_rebinding (A := toy_aead) (AeadLaws0 := toy_aead_laws) (λ _, Ok sample_iv) true sample_service [sample_row]
    sample_row (mkCredentials "user-1" "binance" "key" "secret" "" false)
    (openConnection (A := toy_aead) (λ _, Ok sample_iv) true true sample_service [sample_row] sample_row).2
    ltac:(intros n; by eexists) ltac:(vm_compute; reflexivity) 0%nat sample_row eq_refl) as (row' & Hi & _ & H).
  exists row'. split; [exact Hi|]. destruct (H eq_refl) as (legacy & Hd & Hl).
  rewrite (Hl eq_refl ltac:(discriminate) ltac:(discriminate)) in Hd. split; [|exact Hd].
  intros ->. vm_compute in Hi. discriminate Hi.
Defined.

Definition sample_bound : string :=
  match EncryptTSBound (A := toy_aead) (Ok sample_iv) sample_service "k" (ConnectionFieldAAD "user-1" "cuid_1" FieldAPIKey) with
  | Ok v => v
  | Err _ => ""
  end.

Lemma bound_credential_stays_witness :
  open_field (A := toy_aead) sample_service sample_row FieldAPIKey sample_bound "" "" = Ret (Ok ("k", false)) ∧
  ("user-1", "cuid_1", FieldAPIKey) = (cn_UserUID sample_row, cn_ID sample_row, FieldAPIKey).
Proof.
  split; [vm_compute; reflexivity|].
  apply (bound_credential_stays (A := toy_aead) (AeadLaws0 := toy_aead_laws) sample_iv sample_service "user-1" "cuid_1" FieldAPIKey "k"
    sample_bound sample_bound sample_row FieldAPIKey "k" false); try (vm_compute; reflexivity); [by left|].
  intros aad [-> | ->] H; [reflexivity|]. vm_compute in H. discriminate H.
Defined.

End Vault.
