(* ===== verification/KeyManagement.v ===== *)
(** * The data encryption key (internal/encryption/key_derivation.go,
    key_management.go, measurement_recovery.go)

    The master key derived from the launch measurement, the wrapped data key
    in the table, its loading at boot with the recovery after a change of
    measurement, the rewrap and the rotation.  The tool, the cipher, HKDF and
    the database's failures are parameters. *)

From S2P Require Import Prelude GoTime Encoding Signing Attestation Vault.
From stdpp Require Import base strings tactics sets list.
From Stdlib Require Import Ascii ZArith Lia.
Import Encoding Signing Vault.

Module KeyManagement.

Definition masterKeySize : nat := 32.
Definition hkdfInfoMasterKey : string := "track-record-enclave-dek".

(** HKDF-SHA256 of a secret, a salt and an info string: 32 bytes. *)
Class Kdf : Type := { hkdf : string → string → string → string }.
Class KdfLaws (K : Kdf) : Prop := { hkdf_length s salt info : String.length (hkdf s salt info) = masterKeySize }.

(** ** Reading the measurement *)

(** [(?i)^measurement:\s*$] *)
Fixpoint all_space (s : string) : bool :=
  match s with EmptyString => true | String c s' => Attestation.re_space c && all_space s' end.

Definition measurementHeaderRegex (line : string) : bool :=
  String.prefix "measurement:" (ToLower line) && all_space (slice line 12 (String.length line)).

Definition hexDumpLineRegex : string → bool := Attestation.hexLineRegex.

(** The loop: inside the section, what is read so far, the lines left. *)
Fixpoint collect (inMeasurement : bool) (buffer : string) (lines : list string) : string :=
  match lines with
  | [] => buffer
  | rawLine :: rest =>
      let line := TrimSpace rawLine in
      if String.eqb line "" then collect inMeasurement buffer rest
      else if measurementHeaderRegex line then collect true buffer rest
      else if inMeasurement then
        if hexDumpLineRegex line then collect true (buffer +:+ Attestation.remove_char Attestation.blank line) rest
        else buffer
      else collect false buffer rest
  end.

Definition parseMeasurementFromDisplay (output : string) : string :=
  let hexBuffer := collect false "" (Attestation.split_lines output) in
  if String.eqb hexBuffer "" then "" else default "" (hex_decode hexBuffer).

(** The device is there, the tool's path and its answers. *)
Definition getSEVMeasurement (device : bool) (path : string) (tool : Attestation.Snpguest) (tmp write : res unit) : res (string * string) :=
  if negb device then Err "sev-snp not available: /dev/sev-guest missing"
  else if String.eqb path "" then Err "snpguest binary not found"
  else match tmp with
  | Err e => Err ("create temp dir: " +:+ e)
  | Ok _ =>
      match write with
      | Err e => Err ("write request data: " +:+ e)
      | Ok _ =>
          let request := Attestation.zeros 64 in
          let report := match Attestation.run_report tool 0 request false with
                        | Ok r => Ok r
                        | Err e => match Attestation.run_report tool 1 request true with
                                   | Ok r => Ok r
                                   | Err e' => Err ("snpguest report: " +:+ e +:+ " / " +:+ e')
                                   end
                        end in
          bin ← report;
          match Attestation.run_display tool 2 bin with
          | Err e => Err ("snpguest display: " +:+ e)
          | Ok output =>
              let measurement := parseMeasurementFromDisplay output in
              if String.eqb measurement "" then Err "measurement not found in snpguest output" else Ok (measurement, "")
          end
      end
  end.

Section keys.
Context {C : Crypto} {A : Aead} {K : Kdf}.

(** ** The master key *)

Record KeyDerivationService := mkDerivation { kd_masterKey : string; kd_isHardware : bool }.

(** The fallback: the variable ENCRYPTION_KEY is the master key. *)
Definition env_master_key (reason envKey : string) : res KeyDerivationService :=
  let envKey := TrimSpace envKey in
  if String.eqb envKey "" then Err ("cannot derive master key: sev-snp unavailable" +:+ reason +:+ " and ENCRYPTION_KEY not set")
  else match hex_decode envKey with
  | None => Err "ENCRYPTION_KEY is not valid hex"
  | Some key =>
      if negb (Nat.eqb (String.length key) masterKeySize) then Err "ENCRYPTION_KEY must decode to 32 bytes"
      else Ok (mkDerivation key false)
  end.

(** [sev] is what getSEVMeasurement answers. *)
Definition deriveMasterKey (sev : res (string * string)) (envKey : string) : res KeyDerivationService :=
  match sev with
  | Ok (measurement, platformVersion) =>
      if negb (String.eqb measurement "") then Ok (mkDerivation (hkdf measurement platformVersion hkdfInfoMasterKey) true)
      else env_master_key "" envKey
  | Err e => env_master_key (" (" +:+ e +:+ ")") envKey
  end.

Definition NewKeyDerivationService (sev : res (string * string)) (envKey : string) : res KeyDerivationService :=
  deriveMasterKey sev envKey.

Definition newKeyDerivationServiceFromMeasurementBytes (measurement : string) : res KeyDerivationService :=
  if String.eqb measurement "" then Err "measurement is empty"
  else Ok (mkDerivation (hkdf measurement "" hkdfInfoMasterKey) false).

Definition WrapKey (iv : res string) (d : KeyDerivationService) (dek : string) : res EncryptedData :=
  s ← New (kd_masterKey d); Encrypt iv s dek.

Definition UnwrapKey (d : KeyDerivationService) (wrapped : EncryptedData) : call string :=
  match New (kd_masterKey d) with
  | Err e => Ret (Err e)
  | Ok s => Decrypt s wrapped
  end.

Definition GetMasterKeyID (d : KeyDerivationService) : string := hex_encode (slice (sha256 (kd_masterKey d)) 0 8).

(** ** The table *)

Inductive schema := GoSnake | TsCamel.

#[global] Instance schema_dec : EqDecision schema.
Proof. solve_decision. Defined.

Record DEK := mkDEK {
  dk_ID : string;
  dk_EncryptedDEK : string;
  dk_IV : string;
  dk_AuthTag : string;
  dk_MasterKeyID : string;
  dk_IsActive : bool;
  dk_CreatedAt : time;
}.

Definition wrapped_of (d : DEK) : EncryptedData := mkEncrypted (dk_EncryptedDEK d) (dk_IV d) (dk_AuthTag d).

(** Which columns the table has ([None]: there is no table) and its rows. *)
Record Db := mkDb { db_schema : option schema; db_rows : list DEK }.

(** ORDER BY created_at DESC LIMIT 1 among the active rows *)
Fixpoint latest (l : list DEK) : option DEK :=
  match l with
  | [] => None
  | d :: l' =>
      match latest l' with
      | Some d' => if (dk_CreatedAt d <? dk_CreatedAt d')%Z then Some d' else Some d
      | None => Some d
      end
  end.

Definition active_row (db : Db) : option DEK := latest (filter (λ d, dk_IsActive d = true) (db_rows db)).

(** The queries fail on their own account when [fails] says so, by number. *)
Inductive query := QRow (d : DEK) | QNoRows | QNoColumn | QFailed (e : string).

Definition select_active (s : schema) (fail : option string) (db : Db) : query :=
  match fail with
  | Some e => QFailed e
  | None =>
      if decide (db_schema db = Some s) then match active_row db with Some d => QRow d | None => QNoRows end
      else QNoColumn
  end.

Definition loadActiveDEK (fails : nat → option string) (db : Db) : res (option (DEK * schema)) :=
  match select_active GoSnake (fails 0%nat) db with
  | QRow d => Ok (Some (d, GoSnake))
  | _ =>
      match select_active TsCamel (fails 1%nat) db with
      | QRow d => Ok (Some (d, TsCamel))
      | QNoRows | QNoColumn => Ok None
      | QFailed e => Err e
      end
  end.

(** ** The service *)

Record KeyManagementService := mkKM {
  km_derivation : KeyDerivationService;
  km_currentDEK : option string;
  km_dekID : string;
  km_dekSchema : option schema;
  km_allowAutoInit : bool;
  km_legacyMasterKeyApplied : bool;
  km_measurementMasterKeyID : string;
  km_autoRecovery : bool;
  km_recoveryLookbackDays : Z;
}.

Definition set_dek (s : KeyManagementService) (dek id : string) (sch : option schema) : KeyManagementService :=
  mkKM (km_derivation s) (Some dek) id sch (km_allowAutoInit s) (km_legacyMasterKeyApplied s) (km_measurementMasterKeyID s)
    (km_autoRecovery s) (km_recoveryLookbackDays s).

Definition set_derivation (s : KeyManagementService) (d : KeyDerivationService) (legacy : bool) : KeyManagementService :=
  mkKM d (km_currentDEK s) (km_dekID s) (km_dekSchema s) (km_allowAutoInit s) legacy (km_measurementMasterKeyID s)
    (km_autoRecovery s) (km_recoveryLookbackDays s).

(** The random bytes, the new row's id and time, and the failures of a rotation. *)
Record Draw := mkDraw {
  dr_dek : res string;
  dr_iv : res string;
  dr_id : string;
  dr_now : time;
  dr_probe : option string;
  dr_tx : option string;
}.

Definition deactivate (id : string) (d : DEK) : DEK :=
  if String.eqb (dk_ID d) id then
    mkDEK (dk_ID d) (dk_EncryptedDEK d) (dk_IV d) (dk_AuthTag d) (dk_MasterKeyID d) false (dk_CreatedAt d)
  else d.

(** One transaction: a failure at any point of it leaves the table as it was. *)
Definition rotateDEKLocked (draw : Draw) (s : KeyManagementService) (db : Db) : res KeyManagementService * Db :=
  match dr_dek draw with
  | Err e => (Err ("generate DEK: " +:+ e), db)
  | Ok newDEK =>
      match WrapKey (dr_iv draw) (km_derivation s) newDEK with
      | Err e => (Err ("wrap DEK: " +:+ e), db)
      | Ok wrapped =>
          match (match km_dekSchema s with
                 | Some sch => Ok sch
                 | None => match dr_probe draw with
                           | Some e => Err ("probe data_encryption_keys schema: " +:+ e)
                           | None => Ok (if decide (db_schema db = Some TsCamel) then TsCamel else GoSnake)
                           end
                 end) with
          | Err e => (Err e, db)
          | Ok sch =>
              match dr_tx draw with
              | Some e => (Err e, db)
              | None =>
                  if decide (db_schema db = Some sch) then
                    let rows := if String.eqb (km_dekID s) "" then db_rows db else deactivate (km_dekID s) <$> db_rows db in
                    let row := mkDEK (dr_id draw) (ed_Ciphertext wrapped) (ed_IV wrapped) (ed_AuthTag wrapped)
                                 (GetMasterKeyID (km_derivation s)) true (dr_now draw) in
                    (Ok (set_dek s newDEK (dr_id draw) (Some sch)), mkDb (db_schema db) (rows ++ [row]))
                  else (Err "store new DEK: undefined column", db)
              end
          end
      end
  end.

Definition RotateDEK := rotateDEKLocked.

(** The row of the active key with a new wrap. *)
Definition rewrite_row (id keyID : string) (w : EncryptedData) (d : DEK) : DEK :=
  if String.eqb (dk_ID d) id then
    mkDEK (dk_ID d) (ed_Ciphertext w) (ed_IV w) (ed_AuthTag w) keyID (dk_IsActive d) (dk_CreatedAt d)
  else d.

(** [fresh] is a new derivation on this host, [update] the failure of the UPDATE. *)
Definition rewrapActiveDEKWithMeasurementKey (fresh : res KeyDerivationService) (iv : res string) (update : option string)
    (s : KeyManagementService) (db : Db) : res KeyManagementService * Db :=
  match km_currentDEK s with
  | None => (Err "currentDEK not loaded", db)
  | Some dek =>
      if String.eqb (km_dekID s) "" then (Err "dekID not loaded", db)
      else if String.eqb (km_measurementMasterKeyID s) "" then (Err "measurementMasterKeyID empty", db)
      else match fresh with
      | Err e => (Err ("re-derive measurement master key: " +:+ e), db)
      | Ok d =>
          if negb (String.eqb (GetMasterKeyID d) (km_measurementMasterKeyID s)) then (Err "freshly-derived master_key_id != captured", db)
          else match WrapKey iv d dek with
          | Err e => (Err ("wrap DEK with measurement master: " +:+ e), db)
          | Ok w =>
              match update with
              | Some e => (Err ("update wrap in DB: " +:+ e), db)
              | None =>
                  if decide (db_schema db = Some (default GoSnake (km_dekSchema s))) then
                    (Ok (set_derivation s d false),
                     mkDb (db_schema db) (rewrite_row (km_dekID s) (km_measurementMasterKeyID s) w <$> db_rows db))
                  else (Err "update wrap in DB: undefined column", db)
              end
          end
      end
  end.

(** ** Recovery *)

(** A signed report of the table: its measurement, hash, signature, key and
    algorithm as the query reads them, its time, and whether the row scans
    (no column it needs is NULL). *)
Record Candidate := mkCandidate {
  ca_measurement : string;
  ca_reportHash : string;
  ca_signature : string;
  ca_publicKey : string;
  ca_algorithm : string;
  ca_createdAt : time;
  ca_scans : bool;
}.

(** DISTINCT ON (measurement) ... ORDER BY measurement, "createdAt" DESC *)
Fixpoint insert_candidate (c : Candidate) (l : list Candidate) : list Candidate :=
  match l with
  | [] => [c]
  | d :: l' =>
      if String.eqb (ca_measurement c) (ca_measurement d) then
        (if (ca_createdAt d <? ca_createdAt c)%Z then c else d) :: l'
      else if String.ltb (ca_measurement c) (ca_measurement d) then c :: l
      else d :: insert_candidate c l'
  end.

Definition select_candidates (now : time) (lookbackDays : Z) (reports : list Candidate) : list Candidate :=
  take 20 (foldr insert_candidate [] (filter (λ c, (now - lookbackDays * Day < ca_createdAt c)%Z ∧ ca_measurement c ≠ "") reports)).

(** [None] is a malformed input. *)
Definition verifyECDSAReportSignature (reportHash signatureB64 publicKey algorithm : string) : option bool :=
  if String.eqb algorithm "" || String.eqb algorithm "ECDSA-P256-SHA256" then
    sigDER ← b64_decode signatureB64;
    pubDER ← b64_decode publicKey;
    match parse_pkix pubDER with
    | Ok (Some key) => Some (ecdsa_verify key (sha256 reportHash) sigDER)
    | _ => None
    end
  else None.

(** The master key a candidate gives, if it is to be tried. *)
Definition candidate_key (s : KeyManagementService) (c : Candidate) : option KeyDerivationService :=
  match verifyECDSAReportSignature (ca_reportHash c) (ca_signature c) (ca_publicKey c) (ca_algorithm c) with
  | Some true =>
      match hex_decode (ca_measurement c) with
      | None => None
      | Some m =>
          match newKeyDerivationServiceFromMeasurementBytes m with
          | Err _ => None
          | Ok d => if String.eqb (GetMasterKeyID d) (GetMasterKeyID (km_derivation s)) then None else Some d
          end
      end
  | _ => None
  end.

(** The service after the first candidate that opens the key, if there is one. *)
Fixpoint try_candidates (s : KeyManagementService) (wrapped : EncryptedData) (cs : list Candidate) : call (option KeyManagementService) :=
  match cs with
  | [] => Ret (Ok None)
  | c :: cs' =>
      match candidate_key s c with
      | None => try_candidates s wrapped cs'
      | Some d =>
          match UnwrapKey d wrapped with
          | Panic => Panic
          | Ret (Err _) => try_candidates s wrapped cs'
          | Ret (Ok dek) =>
              Ret (Ok (Some (mkKM d (Some dek) (km_dekID s) (km_dekSchema s) (km_allowAutoInit s) true
                (km_measurementMasterKeyID s) (km_autoRecovery s) (km_recoveryLookbackDays s))))
          end
      end
  end.

(** [reports] is the table of signed reports, or the failure of the query. *)
Definition tryMeasurementRecovery (now : time) (s : KeyManagementService) (wrapped : EncryptedData) (reports : res (list Candidate))
  : call (option KeyManagementService) :=
  match reports with
  | Err e => Ret (Err ("query historical measurements: " +:+ e))
  | Ok table =>
      try_candidates s wrapped (filter (λ c, ca_scans c = true) (select_candidates now (km_recoveryLookbackDays s) table))
  end.

Definition handleUnwrapFailure (now : time) (s : KeyManagementService) (wrapped : EncryptedData) (dek : DEK) (sch : schema) (unwrapErr : string)
    (reports : res (list Candidate)) : call KeyManagementService :=
  if negb (km_autoRecovery s) then Ret (Err ("unwrap active DEK: " +:+ unwrapErr +:+ ": auto-recovery is disabled"))
  else match tryMeasurementRecovery now s wrapped reports with
  | Panic => Panic
  | Ret (Err e) => Ret (Err ("unwrap DEK: " +:+ unwrapErr +:+ "; measurement auto-recovery query failed: " +:+ e))
  | Ret (Ok None) => Ret (Err ("unwrap DEK: " +:+ unwrapErr +:+ ": no matching historical measurement"))
  | Ret (Ok (Some s')) =>
      match km_currentDEK s' with
      | Some d => Ret (Ok (set_dek s' d (dk_ID dek) (Some sch)))
      | None => Ret (Ok s')
      end
  end.

(** ** Boot *)

(** What the outside answers during a boot. *)
Record Boot := mkBoot {
  bt_now : time;
  bt_load : nat → option string;
  bt_reports : res (list Candidate);
  bt_fresh : res KeyDerivationService;
  bt_rewrap_iv : res string;
  bt_update : option string;
  bt_seed : Draw;
}.

(** The migration at the end of initializeDEK: a failure is only logged. *)
Definition migrate (b : Boot) (dek : DEK) (s : KeyManagementService) (db : Db) : KeyManagementService * Db :=
  if km_legacyMasterKeyApplied s && negb (String.eqb (dk_MasterKeyID dek) (km_measurementMasterKeyID s)) then
    match rewrapActiveDEKWithMeasurementKey (bt_fresh b) (bt_rewrap_iv b) (bt_update b) s db with
    | (Ok s', db') => (s', db')
    | (Err _, db') => (s, db')
    end
  else (s, db).

Definition initializeDEK (b : Boot) (s : KeyManagementService) (db : Db) : call KeyManagementService * Db :=
  match loadActiveDEK (bt_load b) db with
  | Err e => (Ret (Err ("load active dek: " +:+ e)), db)
  | Ok None =>
      if negb (km_allowAutoInit s) then (Ret (Err "no active DEK in data_encryption_keys and AllowAutoInit=false"), db)
      else let '(r, db') := rotateDEKLocked (bt_seed b) s db in (Ret r, db')
  | Ok (Some (dek, sch)) =>
      let wrapped := wrapped_of dek in
      match UnwrapKey (km_derivation s) wrapped with
      | Panic => (Panic, db)
      | Ret (Ok plain) => let '(s', db') := migrate b dek (set_dek s plain (dk_ID dek) (Some sch)) db in (Ret (Ok s'), db')
      | Ret (Err e) =>
          match handleUnwrapFailure (bt_now b) s wrapped dek sch e (bt_reports b) with
          | Panic => (Panic, db)
          | Ret (Err e) => (Ret (Err e), db)
          | Ret (Ok s') => let '(s'', db') := migrate b dek s' db in (Ret (Ok s''), db')
          end
      end
  end.

Record KeyManagementOptions := mkKMOptions {
  ko_Derivation : KeyDerivationService;
  ko_AllowAutoInit : bool;
  ko_ExternalMasterKey : string;
  ko_AutoRecovery : bool;
  ko_RecoveryLookbackDays : Z;
}.

Definition NewKeyManagementService (b : Boot) (opts : KeyManagementOptions) (db : Db) : call KeyManagementService * Db :=
  let measurementMasterKeyID := GetMasterKeyID (ko_Derivation opts) in
  let ext := ko_ExternalMasterKey opts in
  if negb (String.eqb ext "") && negb (Nat.eqb (String.length ext) 32) then (Ret (Err "ExternalMasterKey must be 32 bytes"), db)
  else
    let legacy := negb (String.eqb ext "") in
    let d := if legacy then mkDerivation ext false else ko_Derivation opts in
    let '(r, db') := initializeDEK b
      (mkKM d None "" None (ko_AllowAutoInit opts) legacy measurementMasterKeyID (ko_AutoRecovery opts)
         (if (ko_RecoveryLookbackDays opts <=? 0)%Z then 180 else ko_RecoveryLookbackDays opts)%Z) db in
    (call_wrap "init DEK" r, db').

Definition ExportMasterKey (s : KeyManagementService) : res string := Ok (kd_masterKey (km_derivation s)).

Definition GetCurrentDEK (s : KeyManagementService) : res string :=
  match km_currentDEK s with Some d => Ok d | None => Err "no active DEK" end.

Definition GetEncryptionService (s : KeyManagementService) : res Service := dek ← GetCurrentDEK s; New dek.

End keys.
End KeyManagement.
