(* ===== verification/KeyLifecycle.v ===== *)
(** * The life of the data encryption key

    A boot never loses the key, a change of measurement is recovered from for
    good, a rotation leaves one active key, and a published measurement is
    enough to open the key. *)

From S2P Require Import Prelude GoTime Encoding Signing Vault KeyManagement.
From stdpp Require Import base strings tactics sets list.
From Stdlib Require Import Ascii ZArith Lia.
Import Encoding Signing Vault KeyManagement.

Module KeyLifecycle.

Section lifecycle.
Context {C : Crypto} {A : Aead} {K : Kdf}.

(** ** Wrapping *)

Lemma wrap_unwrap `{!AeadLaws A} iv d dek w :
  String.length iv = 12%nat → WrapKey (Ok iv) d dek = Ok w → UnwrapKey d w = Ret (Ok dek).
Proof.
  intros Hiv (s & Hs & Hw)%res_bind_ok. unfold UnwrapKey. rewrite Hs.
  unfold Encrypt, EncryptWithAAD in Hw. cbn zeta in Hw.
  destruct (seal_parts_spec (sv_key s) iv dek "") as [_ He].
  set (c := (seal_parts (sv_key s) iv dek "").1) in *. set (g := (seal_parts (sv_key s) iv dek "").2) in *. clearbody c g.
  injection Hw as <-. unfold Decrypt, DecryptWithAAD. cbn [ed_Ciphertext ed_IV ed_AuthTag]. rewrite !b64_roundtrip.
  cbn [decode call_bind]. unfold gcm_open. rewrite Hiv. change (Nat.eqb 12 12) with true. cbn [negb]. by rewrite He, unseal_seal.
Qed.



(** ** The table *)






Lemma latest_elem l d : latest l = Some d → d ∈ l.
Proof.
  revert d. induction l as [|x l IH]; intros d; cbn; [done|]. destruct (latest l) as [y|]; [|intros [= ->]; by left].
  destruct (_ <? _)%Z; intros [= <-]; [right; by apply IH|by left].
Qed.



(** ** A boot *)







(** ** A change of measurement *)






(** ** Rotation *)

(** A rotation leaves one active key.  When the active rows are the one the service holds, a rotation that succeeds
    leaves exactly one active row, the new one, which opens to the new key under the service's master key; every other
    row stays in the table with its wrap; and a rotation that fails at any point leaves the table untouched. *)
Theorem rotation_one_active `{!AeadLaws A} draw s db r db' :
  (∀ x, dr_iv draw = Ok x → String.length x = 12%nat) →
  (∀ d, d ∈ db_rows db → dk_IsActive d = true → dk_ID d = km_dekID s) → km_dekID s ≠ "" →
  RotateDEK draw s db = (r, db') →
  match r with
  | Err _ => db' = db
  | Ok s' => ∃ row dek, filter (λ d, dk_IsActive d = true) (db_rows db') = [row] ∧ dr_dek draw = Ok dek ∧
      GetCurrentDEK s' = Ok dek ∧ km_dekID s' = dk_ID row ∧ UnwrapKey (km_derivation s') (wrapped_of row) = Ret (Ok dek) ∧
      wrapped_of <$> db_rows db' = (wrapped_of <$> db_rows db) ++ [wrapped_of row]
  end.
Proof.
  intros Hiv Hact Hid. unfold RotateDEK, rotateDEKLocked. destruct (dr_dek draw) as [dek|]; [|by intros [= <- <-]].
  destruct (WrapKey _ _ _) as [w|] eqn:Ew; [|by intros [= <- <-]]. destruct (match km_dekSchema s with Some _ => _ | None => _ end); [|by intros [= <- <-]].
  destruct (dr_tx draw); [by intros [= <- <-]|]. destruct (decide _); [|by intros [= <- <-]]. apply String.eqb_neq in Hid. rewrite Hid.
  intros [= <- <-]. eexists _, dek. split.
  - cbn [db_rows]. rewrite filter_app, filter_cons_True by done. rewrite filter_nil.
    assert (filter (λ d, dk_IsActive d = true) (deactivate (km_dekID s) <$> db_rows db) = []) as ->; [|done].
    apply elem_of_nil_inv. intros x [Hx1 Hx2]%list_elem_of_filter. apply list_elem_of_fmap in Hx2 as (y & -> & Hy).
    unfold deactivate in Hx1. destruct (String.eqb_spec (dk_ID y) (km_dekID s)); [done|]. by destruct n; apply Hact.
  - split; [done|]. split; [done|]. split; [done|]. cbn [dk_ID km_derivation set_dek]. split.
    + destruct (dr_iv draw) as [x|err]; [|by unfold WrapKey in Ew; destruct (New _)].
      assert (∀ i k a t, wrapped_of (mkDEK i (ed_Ciphertext w) (ed_IV w) (ed_AuthTag w) k a t) = w) as -> by (by destruct w).
      eapply wrap_unwrap; [|done]. by apply Hiv.
    + cbn [db_rows]. rewrite fmap_app. f_equal. rewrite <- list_fmap_compose. apply list_fmap_ext. intros i x _.
      cbn. unfold deactivate. by destruct (String.eqb (dk_ID x) (km_dekID s)).
Qed.

(** The master key is a function of the launch measurement alone, which every
    attestation and every signed report publishes: with the wrapped row and a
    published report, no hardware is needed to open the data key. *)
Theorem published_measurement_opens `{!AeadLaws A} m env d iv dek w report :
  deriveMasterKey (Ok (m, "")) env = Ok d → m ≠ "" → String.length iv = 12%nat → WrapKey (Ok iv) d dek = Ok w →
  hex_decode (ea_Measurement report) = Some m →
  ∃ m' d', hex_decode (ea_Measurement report) = Some m' ∧ newKeyDerivationServiceFromMeasurementBytes m' = Ok d' ∧
    UnwrapKey d' w = Ret (Ok dek).
Proof.
  intros Hd Hm Hiv Hw Hr. exists m. apply String.eqb_neq in Hm. unfold deriveMasterKey in Hd. rewrite Hm in Hd. injection Hd as <-.
  eexists. split; [done|]. unfold newKeyDerivationServiceFromMeasurementBytes. rewrite Hm. split; [done|].
  apply (wrap_unwrap iv _ _ _ Hiv) in Hw. exact Hw.
Qed.

End lifecycle.

(** ** A sample *)

Definition toy_kdf : Kdf := {| hkdf s salt info := toy_hash (s +:+ "/" +:+ salt +:+ "/" +:+ info) |}.

Lemma toy_kdf_laws : KdfLaws toy_kdf.
Proof. split. intros. apply be_bytes_length. Qed.

Definition sample_iv12 : string := Nat.iter 12 (String (ascii_of_N 105)) "".
Definition sample_dek : string := Nat.iter 32 (String (ascii_of_N 100)) "".

(** The key of a measurement. *)
Definition sample_key (m : string) : KeyDerivationService := mkDerivation (hkdf (Kdf := toy_kdf) m "" hkdfInfoMasterKey) false.

Definition sample_wrap : EncryptedData :=
  match WrapKey (A := toy_aead) (Ok sample_iv12) (sample_key "old") sample_dek with Ok w => w | Err _ => mkEncrypted "" "" "" end.

Definition sample_row : DEK :=
  mkDEK "dek-1" (ed_Ciphertext sample_wrap) (ed_IV sample_wrap) (ed_AuthTag sample_wrap) (GetMasterKeyID (C := toy_crypto) (sample_key "old"))
    true 0.

Definition sample_db : Db := mkDb (Some TsCamel) [sample_row].

(** A report signed while the measurement was the old one. *)
Definition sample_candidate : Candidate :=
  mkCandidate (hex_encode "old") "hash" (b64_encode ("sig" +:+ toy_hash "hash")) (b64_encode toy_der) "" Hour true.

Definition sample_boot : Boot :=
  mkBoot (2 * Day) (λ _, None) (Ok [sample_candidate]) (Ok (sample_key "new")) (Ok sample_iv12) None
    (mkDraw (Ok sample_dek) (Ok sample_iv12) "dek-2" Day None None).




Lemma rotation_one_active_witness :
  ∃ row dek, filter (λ d, dk_IsActive d = true)
    (db_rows (RotateDEK (C := toy_crypto) (A := toy_aead) (bt_seed sample_boot)
      (mkKM (sample_key "old") (Some sample_dek) "dek-1" (Some TsCamel) false false "" false 180) sample_db).2) = [row] ∧
    dr_dek (bt_seed sample_boot) = Ok dek ∧ dk_ID row = "dek-2".
Proof.
  pose proof (rotation_one_active (C := toy_crypto) (A := toy_aead) (AeadLaws0 := toy_aead_laws) (bt_seed sample_boot)
    (mkKM (sample_key "old") (Some sample_dek) "dek-1" (Some TsCamel) false false "" false 180) sample_db
    (RotateDEK (C := toy_crypto) (A := toy_aead) (bt_seed sample_boot)
      (mkKM (sample_key "old") (Some sample_dek) "dek-1" (Some TsCamel) false false "" false 180) sample_db).1
    (RotateDEK (C := toy_crypto) (A := toy_aead) (bt_seed sample_boot)
      (mkKM (sample_key "old") (Some sample_dek) "dek-1" (Some TsCamel) false false "" false 180) sample_db).2) as H.
  destruct H as (row & dek & R1 & R2 & _ & R4 & _).
  - intros x Hx. injection Hx as <-. reflexivity.
  - intros d Hd _. apply list_elem_of_singleton in Hd as ->. reflexivity.
  - discriminate.
  - by destruct (RotateDEK _ _ _).
  - exists row, dek. split; [exact R1|]. split; [exact R2|]. symmetry. exact R4.
Defined.

End KeyLifecycle.
