(* ===== verification/DisplayAgree.v ===== *)
(** * Two readers of one output

    The attestation service and the key derivation each parse what snpguest
    displays; on a displayed report they read the same measurement. *)

From S2P Require Import Prelude Encoding Attestation AttestationParse Vault KeyManagement.
From stdpp Require Import base strings tactics list.
From Stdlib Require Import Ascii ZArith Lia.
Import Encoding Attestation AttestationParse KeyManagement.

Module DisplayAgree.

(** A header is no row. *)
Lemma row_no_header b : measurementHeaderRegex (hex_row b) = false.
Proof.
  destruct b as [|c b]; [done|]. unfold measurementHeaderRegex. apply andb_false_iff. left. revert c b.
  assert (∀ x s, row_char x → String.prefix "measurement:" (ToLower (String x s)) = false) as H.
  { intros x s (_ & _ & _ & _ & Hh & _). cbn [ToLower String.prefix]. destruct (ascii_dec "m" (lower_ascii x)) as [E|]; [|done].
    exfalso. clear s. destruct x as [[] [] [] [] [] [] [] []]; first [discriminate Hh|discriminate E]. }
  apply (hex_row_ind (λ _ r, String.prefix "measurement:" (ToLower r) = false)); auto.
Qed.

Lemma collect_before buffer before rest :
  Forall (λ l, measurementHeaderRegex (TrimSpace l) = false) before →
  collect false buffer (before ++ rest) = collect false buffer rest.
Proof.
  induction 1 as [|l before Hl _ IH]; [done|]. cbn [app collect]. cbn zeta. rewrite Hl. by destruct (String.eqb _ "").
Qed.

Lemma collect_rows chunks : ∀ buffer rest, Forall (λ b, 2 ≤ String.length b)%nat chunks →
  collect true buffer ((hex_row <$> chunks) ++ rest) = collect true (buffer +:+ hex_encode (bytes_of chunks)) rest.
Proof.
  induction chunks as [|b chunks IH]; intros buffer rest H; [by rewrite string_app_nil_r|].
  apply Forall_cons in H as [Hb H]. rewrite fmap_cons. cbn [app collect]. cbn zeta. rewrite hex_row_trim, row_no_header.
  destruct b as [|c b]; [cbn in Hb; lia|]. rewrite hex_row_nonempty. unfold hexDumpLineRegex. rewrite hex_row_regex by done.
  rewrite hex_row_blanks, IH by done. cbn [bytes_of foldr]. fold (bytes_of chunks). by rewrite hex_encode_app, string_app_assoc.
Qed.

Lemma collect_end buffer after :
  match after with [] => True | l :: _ => Contains (TrimSpace l) ":" = true ∧ measurementHeaderRegex (TrimSpace l) = false end →
  collect true buffer after = buffer.
Proof.
  destruct after as [|l after]; [done|]. intros [Hc Hh]. cbn [collect]. cbn zeta. rewrite Hh. unfold hexDumpLineRegex.
  rewrite (colon_no_row _ Hc). by destruct (TrimSpace l).
Qed.

(** The key is derived from the measurement that is attested.  On a display output whose measurement section is the
    header and rows of hex bytes, ended by another header or by the end of the output, with no other line that either
    parser takes for the header, the parser of the key derivation returns the bytes of the rows and the parser of the
    attestation service the same bytes in hex. *)
Theorem parsers_agree before chunks after r :
  let output := text (before ++ "Measurement:" :: (hex_row <$> chunks) ++ after) in
  chunks ≠ [] → Forall (λ b, 2 ≤ String.length b)%nat chunks →
  Forall (λ l, measurementHeaderRegex (TrimSpace l) = false) (before ++ after) →
  Forall (λ l, header_field (TrimSpace l) ≠ Some FMeasurement) after →
  match after with [] => True | l :: _ => Contains (TrimSpace l) ":" = true end →
  forallb one_line (before ++ after) = true →
  parseMeasurementFromDisplay output = bytes_of chunks ∧
  sv_Measurement (parseSnpguestReport output r) = hex_encode (parseMeasurementFromDisplay output).
Proof.
  intros output Hne Hch Hhead Hfield Hnext Hlines.
  assert (parseMeasurementFromDisplay output = bytes_of chunks) as Hp.
  { unfold parseMeasurementFromDisplay, output. rewrite split_text; [|by destruct before|].
    - apply Forall_app in Hhead as [Hb Ha]. rewrite collect_before by done. cbn [collect]. cbn zeta.
      change (TrimSpace "Measurement:") with "Measurement:". change (String.eqb "Measurement:" "") with false.
      change (measurementHeaderRegex "Measurement:") with true. cbn iota. rewrite collect_rows by done. rewrite collect_end.
      + change ("" +:+ ?x) with x. destruct (String.eqb_spec (hex_encode (bytes_of chunks)) "") as [E|]; [|by rewrite hex_roundtrip].
        exfalso. apply (f_equal String.length) in E. rewrite hex_encode_length in E. destruct chunks as [|b chunks]; [done|].
        apply Forall_cons in Hch as [Hb2 _]. cbn [bytes_of foldr] in E. rewrite string_length_app in E. cbn in E. lia.
      + destruct after; [done|]. by apply Forall_cons in Ha as [Ha _].
    - rewrite !forallb_app in *. cbn [forallb]. rewrite forallb_app. apply andb_true_iff in Hlines as [-> ->].
      rewrite andb_true_r. cbn [andb]. apply forallb_forall. intros x Hx%list_elem_of_In.
      apply list_elem_of_fmap in Hx as (b & -> & _). apply hex_row_line. }
  split; [done|]. rewrite Hp. apply (displayed_field FMeasurement); try done.
  rewrite forallb_app in *. cbn [forallb]. by apply andb_true_iff in Hlines as [-> ->].
Qed.

Lemma parsers_agree_witness :
  parseMeasurementFromDisplay (text (["Version: 2"; "Report Data:"; "aa bb cc dd"] ++ "Measurement:" :: (hex_row <$> ["AUDIT"; "ZK"]) ++ ["Host Data:"; "00 00"]))
  = "AUDITZK".
Proof.
  destruct (parsers_agree ["Version: 2"; "Report Data:"; "aa bb cc dd"] ["AUDIT"; "ZK"] ["Host Data:"; "00 00"]
    (mkSev true true "" "" true "" true)) as [H _]; [discriminate| | | |reflexivity|reflexivity|exact H].
  - repeat constructor.
  - repeat constructor.
  - repeat constructor; discriminate.
Defined.

End DisplayAgree.
