(* ===== verification/Allowlist.v ===== *)
(** * The operator's allowlist (internal/bootstrap/signed_allowlist.go)

    The signed list of measurements, its canonical text, its verification and
    the lookup.  The decoding of the JSON body is a parameter; the operator's
    key is an argument, as it is a variable of the package. *)

From S2P Require Import Prelude GoTime Encoding Json Rfc3339 Signing Vault.
From stdpp Require Import base strings pretty tactics sets sorting list.
From Stdlib Require Import Ascii ZArith Lia.
Import Encoding Json Rfc3339 Signing.

Module Allowlist.

Record AllowlistEntry := mkEntry { al_Measurement : string; al_Label : string; al_AddedAt : stamp }.

Record SignedAllowlistPayload := mkPayload { ap_Version : Z; ap_IssuedAt : stamp; ap_Entries : list AllowlistEntry }.

Record SignedAllowlist := mkAllowlist { sa_Payload : SignedAllowlistPayload; sa_Signature : string }.

Definition MaxAllowlistAge : duration := 90 * 24 * Hour.

Definition operatorPubkey : string := "AAAAC3NzaC1lZDI1NTE5AAAAIPLACEHOLDERPLACEHOLDERPLACEHOLDERPLACEHO".

Inductive allowlist_error :=
| ErrAllowlistInvalidJSON
| ErrAllowlistInvalidSignature
| ErrAllowlistTooOld
| ErrAllowlistInTheFuture
| ErrAllowlistEmpty
| ErrAllowlistOperatorPubkey
| ErrCanonicalize.

(** ** The operator's key *)

Definition readBigEndianU32 (b : string) : N := be_value b.

Definition algName : string := "ssh-ed25519".

(** The two length-prefixed fields of the ssh wire format. *)
Definition DecodeOperatorPubkey (key : string) : option string :=
  raw ← b64_decode key;
  if Nat.ltb (String.length raw) (4 + 11) then None
  else if negb (readBigEndianU32 (Vault.slice raw 0 4) =? 11)%N then None
  else if negb (String.eqb (Vault.slice raw 4 15) algName) then None
  else
    let rest := Vault.slice raw 15 (String.length raw) in
    if Nat.ltb (String.length rest) (4 + 32) then None
    else if negb (readBigEndianU32 (Vault.slice rest 0 4) =? 32)%N then None
    else Some (Vault.slice rest 4 36).

(** ** The canonical text *)

Definition normal (m : string) : string := ToLower (TrimSpace m).

Definition normalize_entry (e : AllowlistEntry) : AllowlistEntry := mkEntry (normal (al_Measurement e)) (al_Label e) (al_AddedAt e).

(** One step of the insertion sort on the reversed sorted prefix: the entry
    moves left while the one before it is greater. *)
Fixpoint sink (e : AllowlistEntry) (prefix : list AllowlistEntry) : list AllowlistEntry :=
  match prefix with
  | [] => [e]
  | x :: l => if String.ltb (al_Measurement e) (al_Measurement x) then x :: sink e l else e :: prefix
  end.

Definition sortAllowlistEntries (entries : list AllowlistEntry) : list AllowlistEntry :=
  rev (foldl (λ prefix e, sink e prefix) [] entries).

Definition json_time (s : stamp) : res string := t ← marshal_time s; Ok (json_string t).

Definition entry_json (e : AllowlistEntry) : res string :=
  write_object [("measurement", Ok (json_string (al_Measurement e))); ("label", Ok (json_string (al_Label e)));
    ("added_at", json_time (al_AddedAt e))].

Definition is_hex_text (m : string) : bool := match hex_decode m with Some _ => true | None => false end.

Definition canonicalPayloadJSON (p : SignedAllowlistPayload) : res string :=
  let entries := normalize_entry <$> ap_Entries p in
  if negb (forallb (λ e, is_hex_text (al_Measurement e)) entries) then Err "measurement not hex"
  else
    write_object [("version", Ok (pretty (ap_Version p))); ("issued_at", json_time (UTC (ap_IssuedAt p)));
      ("entries", write_list (entry_json <$> sortAllowlistEntries entries))].

(** ** Verification *)

Section verify.
Context {C : Crypto}.

(** [decode] is json.Unmarshal into a SignedAllowlist. *)
Definition VerifyAllowlist (decode : string → option SignedAllowlist) (key raw : string) (now : time)
  : SignedAllowlistPayload + allowlist_error :=
  match decode raw with
  | None => inr ErrAllowlistInvalidJSON
  | Some sa =>
      match ap_Entries (sa_Payload sa) with
      | [] => inr ErrAllowlistEmpty
      | _ =>
          match DecodeOperatorPubkey key with
          | None => inr ErrAllowlistOperatorPubkey
          | Some pubkey =>
              match canonicalPayloadJSON (sa_Payload sa) with
              | Err _ => inr ErrCanonicalize
              | Ok canonical =>
                  match b64_decode (sa_Signature sa) with
                  | None => inr ErrAllowlistInvalidSignature
                  | Some sig =>
                      if negb (ed25519_verify pubkey canonical sig) then inr ErrAllowlistInvalidSignature
                      else if After (st_instant (ap_IssuedAt (sa_Payload sa))) (now + 5 * Minute) then inr ErrAllowlistInTheFuture
                      else if (MaxAllowlistAge <? Sub now (st_instant (ap_IssuedAt (sa_Payload sa))))%Z then inr ErrAllowlistTooOld
                      else inl (sa_Payload sa)
                  end
              end
          end
      end
  end.

End verify.

Definition IsAllowed (p : SignedAllowlistPayload) (measurement : string) : bool :=
  let target := normal measurement in
  if String.eqb target "" then false else existsb (λ e, String.eqb (normal (al_Measurement e)) target) (ap_Entries p).

(** ** The order of the entries *)

Definition entry_le (a b : AllowlistEntry) : Prop := String.le (al_Measurement a) (al_Measurement b).

Lemma sink_perm e l : sink e l ≡ₚ e :: l.
Proof. induction l as [|x l IH]; cbn; [done|]. destruct (String.ltb _ _); [|done]. rewrite IH. apply Permutation_swap. Qed.

Lemma sort_entries_perm l : sortAllowlistEntries l ≡ₚ l.
Proof.
  unfold sortAllowlistEntries. rewrite <- Permutation_rev.
  assert (∀ p, foldl (λ prefix e, sink e prefix) p l ≡ₚ p ++ l) as H; [|by rewrite H].
  induction l as [|e l IH]; intros p; cbn [foldl]; [by rewrite app_nil_r|]. rewrite IH, sink_perm. cbn. by rewrite Permutation_middle.
Qed.

Lemma string_ltb_lt a b : String.ltb a b = true → String.le a b.
Proof. unfold String.ltb, String.le, String.leb. by destruct (String.compare a b). Qed.

Lemma string_ltb_ge a b : String.ltb a b = false → String.le b a.
Proof.
  unfold String.ltb. intros H. destruct (String.leb_total b a) as [E|E]; [unfold String.le; by rewrite E|].
  unfold String.leb in E. destruct (String.compare a b) eqn:Ec; [|done|done]. apply String.compare_eq_iff in Ec as ->.
  reflexivity.
Qed.

Lemma sink_sorted e l :
  StronglySorted (flip entry_le) l → StronglySorted (flip entry_le) (sink e l).
Proof.
  induction 1 as [|x l Hl IH Hx]; cbn; [by repeat constructor|]. destruct (String.ltb _ _) eqn:E.
  - constructor; [done|]. rewrite sink_perm. constructor; [|done]. by apply string_ltb_lt.
  - constructor; [by constructor|]. apply string_ltb_ge in E. constructor; [done|].
    eapply Forall_impl; [done|]. intros y Hy. unfold flip, entry_le in *. by etrans.
Qed.

Lemma sort_entries_sorted l : StronglySorted entry_le (sortAllowlistEntries l).
Proof.
  unfold sortAllowlistEntries. assert (∀ p, StronglySorted (flip entry_le) p → StronglySorted (flip entry_le) (foldl (λ prefix e, sink e prefix) p l)) as H.
  { induction l as [|e l IH]; intros p Hp; cbn [foldl]; [done|]. by apply IH, sink_sorted. }
  specialize (H [] (SSorted_nil _)). revert H. generalize (foldl (λ prefix e, sink e prefix) [] l). clear l.
  intros l H. induction H as [|x l Hl IH Hx]; [constructor|]. cbn [rev]. apply StronglySorted_app_2; [|done|apply SSorted_cons; constructor].
  rewrite Forall_forall in Hx. intros y z Hy Hz%list_elem_of_singleton. subst z. apply Hx. rewrite list_elem_of_In, <- in_rev, <- list_elem_of_In in Hy. done.
Qed.

(** The list the operator's tool serialised in any order gives one text. *)
Theorem canonical_order_free p q :
  ap_Version p = ap_Version q → st_instant (ap_IssuedAt p) = st_instant (ap_IssuedAt q) → ap_Entries p ≡ₚ ap_Entries q →
  NoDup ((λ e, normal (al_Measurement e)) <$> ap_Entries p) → canonicalPayloadJSON p = canonicalPayloadJSON q.
Proof.
  intros Hv Ht Hp Hnd. unfold canonicalPayloadJSON, UTC. cbn zeta. rewrite Hv, Ht.
  assert (sortAllowlistEntries (normalize_entry <$> ap_Entries p) = sortAllowlistEntries (normalize_entry <$> ap_Entries q)) as ->.
  { apply (StronglySorted_unique_strong entry_le); [|apply sort_entries_sorted..|by rewrite !sort_entries_perm, Hp].
    intros x y Hx Hy H1 H2. rewrite sort_entries_perm in Hx. rewrite sort_entries_perm, <- Hp in Hy.
    assert (al_Measurement x = al_Measurement y) as E by (by apply (anti_symm String.le)).
    apply list_elem_of_lookup in Hx as [i Hi], Hy as [j Hj]. assert (i = j) as ->; [|congruence].
    rewrite list_lookup_fmap in Hi, Hj. destruct (ap_Entries p !! i) as [ei|] eqn:Ei; [|done].
    destruct (ap_Entries p !! j) as [ej|] eqn:Ej; [|done]. cbn in Hi, Hj. injection Hi as <-. injection Hj as <-. cbn in E.
    apply (NoDup_lookup ((λ e, normal (al_Measurement e)) <$> ap_Entries p) i j (normal (al_Measurement ei))); [done|..];
      rewrite list_lookup_fmap, ?Ei, ?Ej; cbn; congruence. }
  assert (forallb (λ e, is_hex_text (al_Measurement e)) (normalize_entry <$> ap_Entries p) =
          forallb (λ e, is_hex_text (al_Measurement e)) (normalize_entry <$> ap_Entries q)) as ->; [|done].
  apply eq_true_iff_eq. rewrite !forallb_forall. setoid_rewrite <- list_elem_of_In. by setoid_rewrite Hp.
Qed.

(** ** What the canonical text determines *)

Definition time_text (s : stamp) : string := match marshal_time s with Ok t => t | Err _ => "" end.

Definition entry_tree (e : AllowlistEntry) : tree :=
  TObj [("measurement", TStr (json_body (al_Measurement e))); ("label", TStr (json_body (al_Label e)));
    ("added_at", TStr (json_body (time_text (al_AddedAt e))))].

Lemma json_time_reads s x : json_time s = Ok x → reads x (TStr (json_body (time_text s))).
Proof. unfold json_time, time_text. intros (t & -> & [= <-])%res_bind_ok. apply reads_string. Qed.

Lemma entry_reads e x : entry_json e = Ok x → reads x (entry_tree e).
Proof.
  apply reads_object. repeat (apply Forall2_cons_2; [split; [reflexivity|]|]); [..|apply Forall2_nil_2]; cbn.
  - intros y [= <-]. apply reads_string.
  - intros y [= <-]. apply reads_string.
  - apply json_time_reads.
Qed.

Definition payload_tree (p : SignedAllowlistPayload) : tree :=
  TObj [("version", TTok (pretty (ap_Version p))); ("issued_at", TStr (json_body (time_text (UTC (ap_IssuedAt p)))));
    ("entries", TArr (entry_tree <$> sortAllowlistEntries (normalize_entry <$> ap_Entries p)))].

Lemma canonical_spec p x :
  canonicalPayloadJSON p = Ok x →
  reads x (payload_tree p) ∧ is_modern (st_instant (ap_IssuedAt p)) = true ∧
  (∀ e, e ∈ ap_Entries p → is_hex_text (normal (al_Measurement e)) = true).
Proof.
  unfold canonicalPayloadJSON. cbn zeta. destruct (forallb _ _) eqn:Ef; cbn [negb]; [|done]. intros H. split_and!.
  - revert H. apply reads_object. repeat (apply Forall2_cons_2; [split; [reflexivity|]|]); [..|apply Forall2_nil_2]; cbn.
    + intros y [= <-]. apply reads_number, pretty_Z_token.
    + apply json_time_reads.
    + intros y. apply reads_list. apply Forall2_fmap, Forall_Forall2_diag, Forall_true. apply entry_reads.
  - apply res_bind_ok in H as (y & H & _). cbn [fmap list_fmap write_seq] in H. unfold write_entry at 1 in H. cbn in H.
    unfold json_time, marshal_time, UTC in H. cbn [st_instant st_offset] in H.
    rewrite Z.mul_0_l, Z.add_0_r in H. by destruct (is_modern _).
  - rewrite forallb_forall in Ef. intros e He. apply (Ef (normalize_entry e)), list_elem_of_In, list_elem_of_fmap. by exists e.
Qed.

Lemma hex_text_valid m : is_hex_text m = true → utf8_valid m = true.
Proof.
  unfold is_hex_text. intros H. apply ascii_valid. destruct (hex_decode m) as [d|] eqn:E; [|done]. clear H. revert m d E.
  induction m as [| |a b m IH] using string_ind2; intros d E; [done..|]. cbn [hex_decode] in E.
  destruct (hex_value a) as [x|] eqn:Ea; [|done]. destruct (hex_value b) as [y|] eqn:Eb; [|done]. cbn in E.
  destruct (hex_decode m) as [d'|] eqn:Ed; [|done]. cbn [all_chars]. rewrite (IH d' eq_refl), andb_true_r.
  assert (∀ c z, hex_value c = Some z → is_ascii c = true) as Hc.
  { intros c z. destruct c as [[] [] [] [] [] [] [] []]; vm_compute; intros H; first [discriminate H|reflexivity]. }
  by rewrite (Hc a x), (Hc b y).
Qed.

Lemma UTC_text_inj s u :
  is_modern (st_instant s) = true → is_modern (st_instant u) = true →
  json_body (time_text (UTC s)) = json_body (time_text (UTC u)) → st_instant s = st_instant u.
Proof.
  intros Hs Hu. unfold time_text, marshal_time, UTC. cbn [st_instant st_offset]. rewrite !Z.mul_0_l, !Z.add_0_r, Hs, Hu. cbn [negb].
  change (24 <=? Z.abs 0 / 60)%Z with false. cbn iota. intros H.
  apply json_body_inj in H; [|apply ascii_valid, format_ascii..]. apply format_utc_inj in H; [done|by apply is_modern_spec..].
Qed.

Lemma measurements_inj (l1 l2 : list AllowlistEntry) :
  entry_tree <$> l1 = entry_tree <$> l2 →
  (∀ e, e ∈ l1 → utf8_valid (al_Measurement e) = true) → (∀ e, e ∈ l2 → utf8_valid (al_Measurement e) = true) →
  al_Measurement <$> l1 = al_Measurement <$> l2.
Proof.
  revert l2. induction l1 as [|a l1 IH]; intros [|b l2] H H1 H2; try done. rewrite !fmap_cons in *. injection H as Hm _ _ H. f_equal.
  - apply json_body_inj; [apply H1|apply H2|done]; by left.
  - apply IH; [done|..]; intros e He; [apply H1|apply H2]; by right.
Qed.

(** Two payloads with one canonical text: the same version, time and measurements. *)
Lemma canonical_inj p q x :
  canonicalPayloadJSON p = Ok x → canonicalPayloadJSON q = Ok x →
  ap_Version p = ap_Version q ∧ st_instant (ap_IssuedAt p) = st_instant (ap_IssuedAt q) ∧
  (λ e, normal (al_Measurement e)) <$> ap_Entries p ≡ₚ (λ e, normal (al_Measurement e)) <$> ap_Entries q.
Proof.
  intros (R1 & M1 & X1)%canonical_spec (R2 & M2 & X2)%canonical_spec. pose proof (reads_unique _ _ _ R1 R2) as H.
  injection H as Hv Hi He. split; [by apply (inj pretty) in Hv|]. split; [by apply UTC_text_inj|].
  apply measurements_inj in He.
  - assert (∀ l : list AllowlistEntry, al_Measurement <$> sortAllowlistEntries (normalize_entry <$> l) ≡ₚ (λ e, normal (al_Measurement e)) <$> l) as Hl.
    { intros l. rewrite sort_entries_perm, <- list_fmap_compose. done. }
    by rewrite <- (Hl (ap_Entries p)), He, Hl.
  - intros e. rewrite sort_entries_perm. intros (y & -> & Hy)%list_elem_of_fmap. by apply hex_text_valid, X1.
  - intros e. rewrite sort_entries_perm. intros (y & -> & Hy)%list_elem_of_fmap. by apply hex_text_valid, X2.
Qed.

Lemma IsAllowed_spec p m :
  IsAllowed p m = true ↔ normal m ≠ "" ∧ normal m ∈ (λ e, normal (al_Measurement e)) <$> ap_Entries p.
Proof.
  unfold IsAllowed. cbn zeta. destruct (String.eqb_spec (normal m) "") as [E|E]; [by split; [|intros [? _]]|].
  rewrite existsb_exists, list_elem_of_fmap. split.
  - intros (e & He & Hm%String.eqb_eq). split; [done|]. exists e. by rewrite list_elem_of_In.
  - intros (_ & e & -> & He). exists e. rewrite <- list_elem_of_In. by rewrite String.eqb_refl.
Qed.

Section authentic.
Context {C : Crypto}.

Lemma verify_spec decode key raw now p :
  VerifyAllowlist decode key raw now = inl p →
  ∃ pk sa text sig, DecodeOperatorPubkey key = Some pk ∧ decode raw = Some sa ∧ p = sa_Payload sa ∧ b64_decode (sa_Signature sa) = Some sig ∧
    canonicalPayloadJSON p = Ok text ∧ ed25519_verify pk text sig = true ∧
    ap_Entries p ≠ [] ∧ (st_instant (ap_IssuedAt p) <= now + 5 * Minute)%Z ∧ (now - st_instant (ap_IssuedAt p) <= MaxAllowlistAge)%Z.
Proof.
  unfold VerifyAllowlist. destruct (decode raw) as [sa|]; [|done]. destruct (ap_Entries (sa_Payload sa)) as [|e l] eqn:Ee; [done|].
  destruct (DecodeOperatorPubkey key) as [pk|]; [|done]. destruct (canonicalPayloadJSON _) as [text|] eqn:Ec; [|done].
  destruct (b64_decode _) as [sig|] eqn:Eb; [|done]. destruct (ed25519_verify pk text sig) eqn:Ev; [|done]. cbn [negb].
  destruct (After _ _) eqn:Ea; [done|]. destruct (MaxAllowlistAge <? _)%Z eqn:Em; [done|]. intros [= <-].
  exists pk, sa, text, sig. split_and!; try done; [by rewrite Ee|unfold After in Ea; by apply Z.ltb_ge|].
  apply Z.ltb_ge in Em. unfold Sub in Em. assert (MaxAllowlistAge < maxDuration)%Z by done. lia.
Qed.

(** Only what the operator signed is allowed.  When the allowlist that came with a request verifies, and its
    signature is not a forgery but one the operator made of the canonical text of a list of its own, the list says what one of those says: the
    same version, the same time of issue and the same measurements, whatever the order and the case they are sent in.
    It is not empty, it is at most ninety days old and not from the future beyond five minutes, so an old list cannot be
    passed off as a fresh one, nor a measurement added. *)
Theorem allowlist_authentic decode key raw now p (issued : list SignedAllowlistPayload) :
  VerifyAllowlist decode key raw now = inl p →
  (∀ pk sa text sig, DecodeOperatorPubkey key = Some pk → decode raw = Some sa → canonicalPayloadJSON (sa_Payload sa) = Ok text →
     b64_decode (sa_Signature sa) = Some sig → ed25519_verify pk text sig = true →
     ∃ q, q ∈ issued ∧ canonicalPayloadJSON q = Ok text) →
  ∃ q, q ∈ issued ∧ ap_Version p = ap_Version q ∧ st_instant (ap_IssuedAt p) = st_instant (ap_IssuedAt q) ∧
    (∀ m, IsAllowed p m = IsAllowed q m) ∧ ap_Entries p ≠ [] ∧
    (st_instant (ap_IssuedAt q) <= now + 5 * Minute)%Z ∧ (now - st_instant (ap_IssuedAt q) <= MaxAllowlistAge)%Z.
Proof.
  intros (pk & sa & text & sig & Hk & Hd & -> & Hb & Hc & Hv & Hne & H1 & H2)%verify_spec Hforge.
  destruct (Hforge pk sa text sig Hk Hd Hc Hb Hv) as (q & Hq & Hcq). exists q. split; [done|].
  destruct (canonical_inj (sa_Payload sa) q text Hc Hcq) as (Ev & Et & Em). split; [done|]. split; [done|]. rewrite <- Et. split_and!; try done.
  intros m. apply eq_true_iff_eq. rewrite !IsAllowed_spec. by setoid_rewrite Em.
Qed.

End authentic.

(** ** A sample *)

Definition sample_key : string := Nat.iter 32 (String (ascii_of_N 111)) "".

Definition sample_operator : string :=
  b64_encode (be_bytes 4 11 +:+ algName +:+ be_bytes 4 32 +:+ sample_key).

Definition sample_payload : SignedAllowlistPayload := mkPayload 1 (mkStamp 0 0) [mkEntry "ABCD" "v1" (mkStamp 0 0)].

Definition sample_list : SignedAllowlist :=
  let text := match canonicalPayloadJSON sample_payload with Ok x => x | Err _ => "" end in
  mkAllowlist sample_payload (b64_encode (sample_key +:+ text)).

Lemma allowlist_authentic_witness :
  ∃ q, q ∈ [sample_payload] ∧ IsAllowed q "abcd" = true ∧ IsAllowed q "ffff" = false.
Proof.
  destruct (allowlist_authentic (C := toy_crypto) (λ _, Some sample_list) sample_operator "list" Hour sample_payload [sample_payload])
    as (q & Hq & _ & _ & Hm & _); [vm_compute; reflexivity| |].
  - intros pk sa text sig _ [= <-] Ht _ _. exists sample_payload. split; [by left|exact Ht].
  - exists q. split; [done|]. rewrite <- !Hm. by split; vm_compute.
Defined.

End Allowlist.
