(* ===== verification/Handoff.v ===== *)
(** * The key hand-off (internal/bootstrap/handoff_server.go, handoff_client.go,
    handoff_pin.go, internal/encryption/ecies.go, internal/tls)

    The predecessor's checks, the ECIES envelope of the master key, the
    successor's request and the pinned connection.  JSON bodies, P-256, PEM
    and the random bytes are parameters. *)

From S2P Require Import Prelude GoTime Encoding Json Rfc3339 Signing Attestation Vault KeyManagement Allowlist.
From stdpp Require Import base strings gmap tactics list.
From Stdlib Require Import Ascii ZArith Lia.
Import Encoding Signing Vault KeyManagement Allowlist.

Module Handoff.

(** ** The envelope *)

(** ECDH on P-256 and the encodings of its keys: [point_of_pkix] answers
    [None] for bytes that are no EC key in SPKI, [Some None] for one that ECDH
    refuses. *)
Class Ecdh : Type := {
  EcdhKey : Type;
  ecdh_public : EcdhKey → string;
  ecdh_valid : string → bool;
  ecdh_shared : EcdhKey → string → option string;
  pem_decode : string → option string;
  point_of_pkix : string → option (option string);
  pem_of_point : string → string;
}.

(** What is documented of it: both sides get one secret, a public key is a
    valid point, and the PEM of a point is read back. *)
Class EcdhLaws (E : Ecdh) : Prop := {
  shared_sym a b : ecdh_shared a (ecdh_public b) = ecdh_shared b (ecdh_public a);
  public_valid a : ecdh_valid (ecdh_public a) = true;
  pem_point a : ∃ der, pem_decode (pem_of_point (ecdh_public a)) = Some der ∧ point_of_pkix der = Some (Some (ecdh_public a));
  pem_nonempty a : pem_of_point (ecdh_public a) ≠ "";
}.

Section ecies.
Context {A : Aead} {K : Kdf} {E : Ecdh}.

Definition eciesInfoString : string := "enclave-e2e-encryption".

Definition ParseEphemeralPublicKey (data : string) : res string :=
  let data := match pem_decode data with Some block => block | None => data end in
  match point_of_pkix data with
  | Some (Some raw) => Ok raw
  | Some None => Err "ec public key to ecdh"
  | None => Ok data
  end.

(** The AES key both sides derive. *)
Definition ecies_key (priv : EcdhKey) (pub : string) : res string :=
  if negb (ecdh_valid pub) then Err "parse public key"
  else match ecdh_shared priv pub with
  | None => Err "ecdh"
  | Some shared => Ok (hkdf shared "" eciesInfoString)
  end.

(** [eph] and [iv] are drawn at random. *)
Definition EncryptToPubkey (eph : res EcdhKey) (iv : res string) (recipient plaintext : string) : res (string * string * string) :=
  rawKey ← ParseEphemeralPublicKey recipient;
  if negb (ecdh_valid rawKey) then Err "parse recipient pubkey"
  else
    e ← eph;
    key ← ecies_key e rawKey;
    n ← iv;
    Ok (ecdh_public e, n, seal key n plaintext "").

Definition Decrypt (priv : EcdhKey) (ephemeralPubKeyBytes iv ciphertext : string) : call string :=
  match ParseEphemeralPublicKey ephemeralPubKeyBytes with
  | Err e => Ret (Err ("parse ephemeral public key format: " +:+ e))
  | Ok rawKey =>
      match ecies_key priv rawKey with
      | Err e => Ret (Err e)
      | Ok key => gcm_open 12 key iv ciphertext ""
      end
  end.

End ecies.

(** ** The server *)

Definition NonceTTL : duration := 5 * Minute.
Definition MaxRequestBytes : nat := 262144.

Record HandoffRequest := mkRequest {
  hq_Attestation : option Attestation.AttestationReport;
  hq_SignedAllowlist : string;
  hq_ChallengeNonceHex : string;
  hq_ClientVersion : string;
}.

Record HandoffResponse := mkResponse {
  hp_EphemeralPubkeyBase64 : string;
  hp_IVBase64 : string;
  hp_MasterKeyCiphertextBase64 : string;
  hp_Algorithm : string;
  hp_ServedAt : time;
}.

(** An error body holds a vague text only. *)
Inductive response := Rejected (status : Z) (error : string) | Served (r : HandoffResponse).

Definition handoffAlgorithm : string := "ECIES-P256-HKDF-SHA256-AES256GCM".

Notation nonces := (gmap string time).

(** The expired nonces are swept before the lookup. *)
Definition acceptNonce (now : time) (nonceHex : string) (seen : nonces) : bool * nonces :=
  let swept := filter (λ p, (Sub now p.2 <= NonceTTL)%Z) seen in
  match swept !! nonceHex with
  | Some _ => (false, swept)
  | None => (true, <[nonceHex := now]> swept)
  end.

Definition writeLenPrefixed (b : string) : string := len_prefixed 4 b.

(** A missing block is written as the empty string. *)
Definition bound_bytes (r : Attestation.AttestationReport) (nonce : string) : string :=
  writeLenPrefixed (match Attestation.ar_TLSBinding r with Some b => Attestation.tb_Fingerprint b | None => "" end) +:+
  writeLenPrefixed (match Attestation.ar_E2EEncryption r with Some e => Attestation.e2_PublicKey e | None => "" end) +:+
  writeLenPrefixed (match Attestation.ar_ReportSigning r with Some s => Attestation.si_PublicKey s | None => "" end) +:+
  (if String.eqb nonce "" then "" else writeLenPrefixed nonce).

Section server.
Context {C : Crypto} {A : Aead} {K : Kdf} {E : Ecdh}.

Definition computeExpectedReportData (r : Attestation.AttestationReport) (nonce : string) : string :=
  let digest := sha256 (bound_bytes r nonce) in
  ToLower (hex_encode (String.substring 0 64 digest +:+ Attestation.zeros (64 - String.length digest))).

(** The loop over strings of one length. *)
Fixpoint byte_diff (diff : N) (a b : string) : N :=
  match a, b with
  | String x a', String y b' => byte_diff (N.lor diff (N.lxor (N_of_ascii x) (N_of_ascii y))) a' b'
  | _, _ => diff
  end.

Definition constantTimeStringsEqualLowerHex (a b : string) : bool :=
  let la := ToLower (TrimSpace a) in
  let lb := ToLower (TrimSpace b) in
  if negb (Nat.eqb (String.length la) (String.length lb)) then false else (byte_diff 0 la lb =? 0)%N.

Definition verifyAttestationChain (r : Attestation.AttestationReport) : res unit :=
  match Attestation.ar_Attestation r with
  | None => Err "attestation block missing"
  | Some a =>
      if negb (EqualFold (Attestation.ar_Platform r) Attestation.PlatformSevSnp) then Err "platform (need sev-snp)"
      else if negb (Attestation.sv_Verified a) then Err "attestation.verified = false"
      else if negb (Attestation.sv_VcekVerified a) then Err "vcek_verified = false"
      else if negb (Attestation.sv_ReportDataBoundToRequest a) then Err "report_data not bound to request"
      else Ok tt
  end.

(** What the server is configured with and draws: the JSON decoders, the
    operator's key, ExportMasterKey's answer, the ephemeral key and the IV. *)
Record Server := mkServer {
  hs_decode_request : string → option HandoffRequest;
  hs_decode_allowlist : string → option SignedAllowlist;
  hs_operatorPubkey : string;
  hs_export : res string;
  hs_ephemeral : res EcdhKey;
  hs_iv : res string;
}.

(** Step 7. *)
Definition serve_key (s : Server) (now : time) (r : Attestation.AttestationReport) : response :=
  match hs_export s with
  | Err _ => Rejected 500 "internal error"
  | Ok masterKey =>
      match Attestation.ar_E2EEncryption r with
      | None => Rejected 400 "request rejected"
      | Some e2e =>
          if String.eqb (Attestation.e2_PublicKey e2e) "" then Rejected 400 "request rejected"
          else match EncryptToPubkey (hs_ephemeral s) (hs_iv s) (Attestation.e2_PublicKey e2e) masterKey with
          | Err _ => Rejected 500 "internal error"
          | Ok (ephPub, iv, ct) =>
              Served (mkResponse (b64_encode ephPub) (b64_encode iv) (b64_encode ct) handoffAlgorithm now)
          end
      end
  end.

(** Steps 3 to 7, once the measurement is allowed. *)
Definition serve_allowed (s : Server) (now : time) (req : HandoffRequest) (r : Attestation.AttestationReport)
    (a : Attestation.SevSnpReport) (seen : nonces) : response * nonces :=
  if negb (Nat.eqb (String.length (hq_ChallengeNonceHex req)) 64) then (Rejected 400 "request rejected", seen)
  else match hex_decode (hq_ChallengeNonceHex req) with
  | None => (Rejected 400 "request rejected", seen)
  | Some nonceBytes =>
      if negb (Nat.eqb (String.length nonceBytes) 32) then (Rejected 400 "request rejected", seen)
      else
        let '(fresh, seen) := acceptNonce now (hq_ChallengeNonceHex req) seen in
        if negb fresh then (Rejected 403 "replay rejected", seen)
        else if negb (constantTimeStringsEqualLowerHex (Attestation.sv_ReportData a) (computeExpectedReportData r nonceBytes)) then
          (Rejected 403 "binding rejected", seen)
        else match verifyAttestationChain r with
        | Err _ => (Rejected 403 "attestation rejected", seen)
        | Ok _ => (serve_key s now r, seen)
        end
  end.

(** [body] is what reading at most MaxRequestBytes answers. *)
Definition ServeHTTP (s : Server) (now : time) (method : string) (body : res string) (seen : nonces) : response * nonces :=
  if negb (String.eqb method "POST") then (Rejected 405 "POST only", seen)
  else match body with
  | Err _ => (Rejected 400 "request rejected", seen)
  | Ok body =>
      match hs_decode_request s body with
      | None => (Rejected 400 "request rejected", seen)
      | Some req =>
          match VerifyAllowlist (hs_decode_allowlist s) (hs_operatorPubkey s) (hq_SignedAllowlist req) now with
          | inr _ => (Rejected 403 "allowlist rejected", seen)
          | inl allowlist =>
              match hq_Attestation req with
              | None => (Rejected 400 "request rejected", seen)
              | Some r =>
                  match Attestation.ar_Attestation r with
                  | None => (Rejected 400 "request rejected", seen)
                  | Some a =>
                      let measurement := ToLower (TrimSpace (Attestation.sv_Measurement a)) in
                      if negb (IsAllowed allowlist measurement) then (Rejected 403 "measurement rejected", seen)
                      else serve_allowed s now req r a seen
                  end
              end
          end
      end
  end.

(** ** The client *)

Definition decryptHandoffPayload (priv : EcdhKey) (resp : HandoffResponse) : call string :=
  if negb (EqualFold (hp_Algorithm resp) handoffAlgorithm) then Ret (Err "unsupported algorithm")
  else
    call_bind (decode "decode ephemeral_pub" (b64_decode (hp_EphemeralPubkeyBase64 resp))) (λ ephBytes,
    call_bind (decode "decode iv" (b64_decode (hp_IVBase64 resp))) (λ iv,
    call_bind (decode "decode ciphertext" (b64_decode (hp_MasterKeyCiphertextBase64 resp))) (λ ct,
    match ecies_key priv ephBytes with
    | Err e => Ret (Err e)
    | Ok key => gcm_open 12 key iv ct ""
    end))).

Definition ErrMissingPeerTLSFingerprint : string := "PeerTLSFingerprint is required when HTTPClient is not provided".

(** [strings.ReplaceAll(t, ":", "")], lower case, 64 hex digits *)
Definition normalizeFingerprint (s : string) : res string :=
  let t := TrimSpace s in
  if String.eqb t "" then Err ErrMissingPeerTLSFingerprint
  else
    let t := ToLower (Attestation.remove_char (ascii_of_N 58) t) in
    if negb (Nat.eqb (String.length t) 64) then Err "parse peer TLS fingerprint: expected 64 hex chars"
    else match hex_decode t with
    | None => Err "parse peer TLS fingerprint: not valid hex"
    | Some raw => Ok raw
    end.

(** VerifyConnection of the pinned client, on the raw certificates presented. *)
Definition NewPinnedHTTPClient (expected : string) : res (list string → bool) :=
  want ← normalizeFingerprint expected;
  Ok (λ certs, match certs with [] => false | c :: _ => String.eqb (sha256 c) want end).

(** [%02X] joined with colons *)
Definition upper_hex (n : N) : ascii := upper_ascii (hex_digit n).

Fixpoint colon_upper (h : string) : string :=
  match h with
  | EmptyString => ""
  | String c h' =>
      let n := N_of_ascii c in
      String (upper_hex (n / 16)) (String (upper_hex (n mod 16))
        (match h' with EmptyString => "" | _ => String (ascii_of_N 58) (colon_upper h') end))
  end.

Definition sha256FingerprintColonUpper (der : string) : string := colon_upper (sha256 der).

Record ClientOptions := mkClientOptions {
  hc_PeerURL : string;
  hc_SignedAllowlist : string;
  hc_GetAttestationWithNonce : option (string → res Attestation.AttestationReport);
  hc_ECIESPriv : option EcdhKey;
  hc_ClientVersion : string;
  hc_PeerTLSFingerprint : string;
  hc_HTTPClient : option (string → res (Z * string));
  hc_transport : (list string → bool) → string → res (Z * string);
}.

(** [post] sends the body and answers the status and the body of the response. *)
Definition client_of (opts : ClientOptions) : res (string → res (Z * string)) :=
  match hc_HTTPClient opts with
  | Some post => Ok post
  | None =>
      if String.eqb (hc_PeerTLSFingerprint opts) "" then Err ErrMissingPeerTLSFingerprint
      else match NewPinnedHTTPClient (hc_PeerTLSFingerprint opts) with
      | Err e => Err ("build pinned handoff transport: " +:+ e)
      | Ok verify => Ok (hc_transport opts verify)
      end
  end.

Definition FetchMasterKey (marshal : HandoffRequest → res string) (unmarshal : string → option HandoffResponse)
    (nonce : res string) (opts : ClientOptions) : call string :=
  if String.eqb (hc_PeerURL opts) "" then Ret (Err "PeerURL is required")
  else match hc_GetAttestationWithNonce opts with
  | None => Ret (Err "AttestationSvc is required")
  | Some attest =>
      match hc_ECIESPriv opts with
      | None => Ret (Err "ECIESPriv is required")
      | Some priv =>
          if String.eqb (hc_SignedAllowlist opts) "" then Ret (Err "SignedAllowlist is required")
          else
            call_bind (Ret (client_of opts)) (λ post,
            call_bind (call_wrap "generate nonce" (Ret nonce)) (λ nonce,
            call_bind (call_wrap "fetch attestation" (Ret (attest nonce))) (λ att,
            match Attestation.ar_Attestation att with
            | None => Ret (Err "attestation service returned no attestation")
            | Some _ =>
                call_bind (call_wrap "marshal request"
                  (Ret (marshal (mkRequest (Some att) (hc_SignedAllowlist opts) (hex_encode nonce) (hc_ClientVersion opts))))) (λ body,
                call_bind (call_wrap "post handoff" (Ret (post body))) (λ reply,
                if negb (reply.1 =? 200)%Z then Ret (Err "handoff peer rejected request")
                else match unmarshal reply.2 with
                | None => Ret (Err "decode response")
                | Some resp =>
                    call_bind (call_wrap "decrypt master key" (decryptHandoffPayload priv resp)) (λ masterKey,
                    if negb (Nat.eqb (String.length masterKey) 32) then Ret (Err "decrypted master key length, want 32")
                    else Ret (Ok masterKey))
                end))
            end)))
      end
  end.

End server.
End Handoff.
