(* ===== verification/HandoffSafe.v ===== *)
(** * What the hand-off guarantees

    The checks behind a served key, the single use of a nonce, the delivery
    of the key to the successor, the pin on the connection, and what the
    checks do not establish. *)

From S2P Require Import Prelude GoTime Encoding Json Rfc3339 Signing Attestation Vault KeyManagement KeyLifecycle Allowlist Handoff.
From stdpp Require Import base strings pretty gmap tactics sorting list.
From Stdlib Require Import Ascii ZArith Lia.
Import Encoding Rfc3339 Signing Vault KeyManagement Allowlist Handoff.

Module HandoffSafe.

(** ** The comparison of hex texts *)

Lemma byte_diff_acc a b d : byte_diff d a b = 0%N ↔ d = 0%N ∧ byte_diff 0 a b = 0%N.
Proof.
  revert b d. induction a as [|x a IH]; intros [|y b] d; cbn [byte_diff]; try (split; [done|by intros [? _]]).
  rewrite IH, (IH b (N.lor 0 _)), N.lor_0_l, N.lor_eq_0_iff. tauto.
Qed.

Lemma byte_diff_spec a b : String.length a = String.length b → byte_diff 0 a b = 0%N ↔ a = b.
Proof.
  revert b. induction a as [|x a IH]; intros [|y b] Hl; try done. cbn [byte_diff]. injection Hl as Hl.
  rewrite byte_diff_acc, N.lor_0_l, N.lxor_eq_0_iff, IH by done. split; [|by intros [= -> ->]]. intros [H ->]. f_equal.
  by rewrite <- (ascii_N_embedding x), H, ascii_N_embedding.
Qed.

Lemma constantTime_spec a b :
  constantTimeStringsEqualLowerHex a b = true ↔ ToLower (TrimSpace a) = ToLower (TrimSpace b).
Proof.
  unfold constantTimeStringsEqualLowerHex. cbn zeta. destruct (Nat.eqb_spec (String.length (ToLower (TrimSpace a))) (String.length (ToLower (TrimSpace b)))) as [H|H];
    cbn [negb].
  - by rewrite N.eqb_eq, byte_diff_spec.
  - split; [done|]. by intros E; rewrite E in H.
Qed.

(** Hex text has no upper case and no blanks. *)
Fixpoint no_space (s : string) : bool :=
  match s with EmptyString => true | String c s' => negb (is_space c) && no_space s' end.

Lemma nibbles c : (N_of_ascii c / 16 < 16)%N ∧ (N_of_ascii c mod 16 < 16)%N.
Proof. pose proof (N_ascii_bounded c). split; [apply N.Div0.div_lt_upper_bound; lia|by apply N.mod_lt]. Qed.

Lemma hex_plain x : ToLower (hex_encode x) = hex_encode x ∧ no_space (hex_encode x) = true.
Proof.
  induction x as [|c x [IH1 IH2]]; [done|]. cbn [hex_encode ToLower no_space]. destruct (nibbles c) as [H1 H2].
  destruct (hex_digit_lower _ H1) as [-> ->], (hex_digit_lower _ H2) as [-> ->]. by rewrite IH1, IH2.
Qed.

Lemma no_space_trim s : no_space s = true → TrimSpace s = s.
Proof.
  intros H. unfold TrimSpace. assert (trim_left s = s) as ->.
  { destruct s as [|c s]; [done|]. cbn in *. by destruct (is_space c). }
  induction s as [|c s IH]; [done|]. cbn in *. apply andb_true_iff in H as [Hc Hs]. rewrite IH by done.
  destruct s; [|done]. by destruct (is_space c).
Qed.

Lemma hex_normal x : ToLower (TrimSpace (hex_encode x)) = hex_encode x.
Proof. destruct (hex_plain x) as [H1 H2]. by rewrite (no_space_trim _ H2). Qed.

(** ** The checks behind a served key *)

Section safe.
Context {C : Crypto} {A : Aead} {K : Kdf} {E : Ecdh}.

(** The checks the handler has passed when it serves its key, by their names
    in the code. *)
Record checked (s : Server) (now : time) (seen seen' : nonces) (req : HandoffRequest) (resp : HandoffResponse)
    (p : SignedAllowlistPayload) (r : Attestation.AttestationReport) (a : Attestation.SevSnpReport) (nonce : string) : Prop := {
  ho_allowlist : VerifyAllowlist (hs_decode_allowlist s) (hs_operatorPubkey s) (hq_SignedAllowlist req) now = inl p;
  ho_report : hq_Attestation req = Some r ∧ Attestation.ar_Attestation r = Some a;
  ho_measurement : IsAllowed p (normal (Attestation.sv_Measurement a)) = true;
  ho_nonce : hex_decode (hq_ChallengeNonceHex req) = Some nonce ∧ String.length nonce = 32%nat;
  ho_unused : ∀ t, seen !! hq_ChallengeNonceHex req = Some t → (NonceTTL < Sub now t)%Z;
  ho_recorded : seen' = (acceptNonce now (hq_ChallengeNonceHex req) seen).2 ∧ seen' !! hq_ChallengeNonceHex req = Some now;
  ho_binding : ToLower (TrimSpace (Attestation.sv_ReportData a)) = computeExpectedReportData r nonce;
  ho_flags : EqualFold (Attestation.ar_Platform r) Attestation.PlatformSevSnp = true ∧ Attestation.sv_Verified a = true ∧
    Attestation.sv_VcekVerified a = true ∧ Attestation.sv_ReportDataBoundToRequest a = true;
  ho_sealed : serve_key s now r = Served resp ∧ ∃ e2e masterKey eph iv ct, Attestation.ar_E2EEncryption r = Some e2e ∧ hs_export s = Ok masterKey ∧
    EncryptToPubkey (hs_ephemeral s) (hs_iv s) (Attestation.e2_PublicKey e2e) masterKey = Ok (eph, iv, ct) ∧
    resp = mkResponse (b64_encode eph) (b64_encode iv) (b64_encode ct) handoffAlgorithm now;
}.

Lemma accept_spec now n (seen : nonces) seen' :
  acceptNonce now n seen = (true, seen') →
  (∀ t, seen !! n = Some t → (NonceTTL < Sub now t)%Z) ∧ seen' !! n = Some now.
Proof.
  unfold acceptNonce. cbn zeta. destruct (filter _ seen !! n) eqn:Ef; [done|]. intros [= <-]. split; [|by rewrite lookup_insert_eq].
  intros t Ht. rewrite map_lookup_filter_None in Ef. destruct Ef as [Ef|Ef]; [congruence|]. specialize (Ef t Ht). cbn in Ef. lia.
Qed.

Lemma expected_normal r n : ToLower (TrimSpace (computeExpectedReportData r n)) = computeExpectedReportData r n.
Proof. unfold computeExpectedReportData. cbn zeta. by rewrite (proj1 (hex_plain _)), hex_normal. Qed.

Lemma serve_key_spec s now r resp :
  serve_key s now r = Served resp →
  ∃ e2e masterKey eph iv ct, Attestation.ar_E2EEncryption r = Some e2e ∧ hs_export s = Ok masterKey ∧
    EncryptToPubkey (hs_ephemeral s) (hs_iv s) (Attestation.e2_PublicKey e2e) masterKey = Ok (eph, iv, ct) ∧
    resp = mkResponse (b64_encode eph) (b64_encode iv) (b64_encode ct) handoffAlgorithm now.
Proof.
  unfold serve_key. destruct (hs_export s) as [mk|]; [|done]. destruct (Attestation.ar_E2EEncryption r) as [e2e|]; [|done].
  destruct (String.eqb _ ""); [done|]. destruct (EncryptToPubkey _ _ _ _) as [[[eph iv] ct]|] eqn:Ee; [|done].
  intros [= <-]. by exists e2e, mk, eph, iv, ct.
Qed.

Lemma chain_spec r a u :
  Attestation.ar_Attestation r = Some a → verifyAttestationChain r = Ok u →
  EqualFold (Attestation.ar_Platform r) Attestation.PlatformSevSnp = true ∧ Attestation.sv_Verified a = true ∧
  Attestation.sv_VcekVerified a = true ∧ Attestation.sv_ReportDataBoundToRequest a = true.
Proof.
  intros Ha. unfold verifyAttestationChain. rewrite Ha. destruct (EqualFold _ _); [|done].
  by destruct (Attestation.sv_Verified a), (Attestation.sv_VcekVerified a), (Attestation.sv_ReportDataBoundToRequest a).
Qed.

Lemma serve_spec s now method body seen resp seen' :
  ServeHTTP s now method body seen = (Served resp, seen') →
  method = "POST" ∧ ∃ raw req p r a nonce, body = Ok raw ∧ hs_decode_request s raw = Some req ∧
    checked s now seen seen' req resp p r a nonce.
Proof.
  unfold ServeHTTP. destruct (String.eqb_spec method "POST") as [->|]; [|done]. cbn [negb]. destruct body as [raw|]; [|done].
  destruct (hs_decode_request s raw) as [req|] eqn:Ed; [|done]. destruct (VerifyAllowlist _ _ _ _) as [p|] eqn:Ep; [|done].
  destruct (hq_Attestation req) as [r|] eqn:Er; [|done]. destruct (Attestation.ar_Attestation r) as [a|] eqn:Ea; [|done]. cbn zeta.
  destruct (IsAllowed p _) eqn:Em; [|done]. cbn [negb]. unfold serve_allowed. destruct (Nat.eqb _ 64); [|done]. cbn [negb].
  destruct (hex_decode _) as [nonce|] eqn:En; [|done]. destruct (Nat.eqb_spec (String.length nonce) 32) as [Hn|]; [|done]. cbn [negb].
  destruct (acceptNonce now _ seen) as [fresh seen1] eqn:Es. destruct fresh; [|done]. cbn [negb].
  destruct (constantTimeStringsEqualLowerHex _ _) eqn:Ec; [|done]. cbn [negb]. destruct (verifyAttestationChain r) as [u|] eqn:Eh; [|done].
  intros [= Hk <-]. split; [done|]. exists raw, req, p, r, a, nonce. split; [done|]. split; [done|].
  destruct (accept_spec _ _ _ _ Es) as [H1 H2]. split; try done.
  - by rewrite Es.
  - rewrite <- expected_normal. by apply constantTime_spec.
  - by eapply chain_spec.
  - split; [done|]. by apply serve_key_spec.
Qed.

(** What a served key means, in terms of the request and of the
    cryptography alone.  [handed_over] is what the operator is promised. *)

(** The list the request carries is signed by the operator and in force: it
    was issued at most ninety days ago and at most five minutes ahead. *)
Definition operator_listed (s : Server) (now : time) (req : HandoffRequest) (p : SignedAllowlistPayload) : Prop :=
  (∃ pk sa text sig, DecodeOperatorPubkey (hs_operatorPubkey s) = Some pk ∧
    hs_decode_allowlist s (hq_SignedAllowlist req) = Some sa ∧ sa_Payload sa = p ∧ b64_decode (sa_Signature sa) = Some sig ∧
    canonicalPayloadJSON p = Ok text ∧ ed25519_verify pk text sig = true) ∧
  (now - 90 * 24 * Hour <= st_instant (ap_IssuedAt p) <= now + 5 * Minute)%Z.

(** The report data is the hash of the three keys of the report and of the
    nonce, each behind its length, padded to 64 bytes. *)
Definition binds (r : Attestation.AttestationReport) (data nonce : string) : Prop :=
  let digest := sha256 (
    len_prefixed 4 (from_option Attestation.tb_Fingerprint "" (Attestation.ar_TLSBinding r)) +:+
    len_prefixed 4 (from_option Attestation.e2_PublicKey "" (Attestation.ar_E2EEncryption r)) +:+
    len_prefixed 4 (from_option Attestation.si_PublicKey "" (Attestation.ar_ReportSigning r)) +:+ len_prefixed 4 nonce) in
  normal data = hex_encode (String.substring 0 64 digest +:+ Attestation.zeros (64 - String.length digest)).

(** The response is the exported key, sealed under a secret shared with the
    encryption key of the report. *)
Definition sealed_to (s : Server) (now : time) (r : Attestation.AttestationReport) (resp : HandoffResponse) : Prop :=
  ∃ e2e point masterKey eph iv secret, Attestation.ar_E2EEncryption r = Some e2e ∧ Attestation.e2_PublicKey e2e ≠ "" ∧
    ParseEphemeralPublicKey (Attestation.e2_PublicKey e2e) = Ok point ∧ ecdh_valid point = true ∧
    hs_export s = Ok masterKey ∧ hs_ephemeral s = Ok eph ∧ hs_iv s = Ok iv ∧ ecdh_shared eph point = Some secret ∧
    resp = mkResponse (b64_encode (ecdh_public eph)) (b64_encode iv)
      (b64_encode (seal (hkdf secret "" "enclave-e2e-encryption") iv masterKey "")) "ECIES-P256-HKDF-SHA256-AES256GCM" now.

Record handed_over (s : Server) (now : time) (seen seen' : nonces) (req : HandoffRequest) (resp : HandoffResponse)
    (p : SignedAllowlistPayload) (r : Attestation.AttestationReport) (a : Attestation.SevSnpReport) (nonce : string) : Prop := {
  hg_listed : operator_listed s now req p;
  hg_report : hq_Attestation req = Some r ∧ Attestation.ar_Attestation r = Some a;
  hg_measurement : normal (Attestation.sv_Measurement a) ≠ "" ∧
    ∃ e, e ∈ ap_Entries p ∧ normal (al_Measurement e) = normal (Attestation.sv_Measurement a);
  hg_nonce : hex_decode (hq_ChallengeNonceHex req) = Some nonce ∧ String.length nonce = 32%nat;
  hg_unused : ∀ t, seen !! hq_ChallengeNonceHex req = Some t → (5 * Minute < now - t)%Z;
  hg_recorded : seen' !! hq_ChallengeNonceHex req = Some now ∧
    ∀ n t, seen !! n = Some t → (now - t <= 5 * Minute)%Z → is_Some (seen' !! n);
  hg_binding : binds r (Attestation.sv_ReportData a) nonce;
  hg_claims : EqualFold (Attestation.ar_Platform r) "sev-snp" = true ∧ Attestation.sv_Verified a = true ∧
    Attestation.sv_VcekVerified a = true ∧ Attestation.sv_ReportDataBoundToRequest a = true;
  hg_sealed : sealed_to s now r resp;
}.

Lemma Sub_le_ttl now t : (Sub now t <= NonceTTL)%Z ↔ (now - t <= 5 * Minute)%Z.
Proof. unfold Sub, NonceTTL. assert (minDuration <= 5 * Minute < maxDuration)%Z by done. lia. Qed.

(** A recorded nonce stays until it expires. *)
Lemma accept_keeps now n (seen : nonces) x t :
  seen !! x = Some t → (Sub now t <= NonceTTL)%Z → ∃ t', (acceptNonce now n seen).2 !! x = Some t' ∧ (t' = t ∨ t' = now).
Proof.
  intros Hx Ht. unfold acceptNonce. cbn zeta. assert (filter (λ p, (Sub now p.2 <= NonceTTL)%Z) seen !! x = Some t) as Hf.
  { apply map_lookup_filter_Some. by split. }
  destruct (filter _ seen !! n) eqn:En; cbn [snd]; [by exists t; split; [|left]|].
  destruct (decide (n = x)) as [->|Hne]; [congruence|]. exists t. rewrite lookup_insert_ne by done. auto.
Qed.

Lemma normal_idem m : normal (normal m) = normal m.
Proof. unfold normal. by rewrite TrimSpace_lower, TrimSpace_idem, ToLower_idem. Qed.

Lemma computed_binds r data nonce :
  nonce ≠ "" → ToLower (TrimSpace data) = computeExpectedReportData r nonce → binds r data nonce.
Proof.
  intros Hn%String.eqb_neq. unfold binds, normal, computeExpectedReportData, bound_bytes, writeLenPrefixed. cbn zeta. rewrite Hn, (proj1 (hex_plain _)).
  intros ->. by destruct (Attestation.ar_TLSBinding r), (Attestation.ar_E2EEncryption r), (Attestation.ar_ReportSigning r).
Qed.

Lemma encrypt_sealed eph iv recipient plaintext out :
  EncryptToPubkey eph iv recipient plaintext = Ok out →
  ∃ point e n secret, ParseEphemeralPublicKey recipient = Ok point ∧ ecdh_valid point = true ∧ eph = Ok e ∧ iv = Ok n ∧
    ecdh_shared e point = Some secret ∧ out = (ecdh_public e, n, seal (hkdf secret "" eciesInfoString) n plaintext "").
Proof.
  unfold EncryptToPubkey, ecies_key. intros (point & Hp & H)%res_bind_ok. destruct (ecdh_valid point) eqn:Hv; [|done]. cbn [negb] in H.
  apply res_bind_ok in H as (e & -> & H). destruct (ecdh_shared e point) as [secret|] eqn:Es; [|done]. cbn [mbind res_bind] in H.
  apply res_bind_ok in H as (n & -> & [= <-]). by exists point, e, n, secret.
Qed.

Lemma serve_key_sealed s now r resp : serve_key s now r = Served resp → sealed_to s now r resp.
Proof.
  unfold serve_key, sealed_to. destruct (hs_export s) as [mk|]; [|done]. destruct (Attestation.ar_E2EEncryption r) as [e2e|]; [|done].
  destruct (String.eqb_spec (Attestation.e2_PublicKey e2e) "") as [|Hne]; [done|].
  destruct (EncryptToPubkey _ _ _ _) as [[[eph iv] ct]|] eqn:Ee; [|done]. intros [= <-].
  apply encrypt_sealed in Ee as (point & e & n & secret & Hp & Hv & He & Hi & Hs & [= -> -> ->]). by exists e2e, point, mk, e, n, secret.
Qed.

Lemma checked_handed_over s now seen seen' req resp p r a nonce :
  checked s now seen seen' req resp p r a nonce → handed_over s now seen seen' req resp p r a nonce.
Proof.
  intros [Ha Hr Hm [Hn Hl] Hu [-> Hrec] Hb Hf [Hk Hs]].
  destruct (verify_spec _ _ _ _ _ Ha) as (pk & sa & text & sig & V1 & V2 & V3 & V4 & V5 & V6 & _ & V7 & V8).
  split; try done.
  - split; [by exists pk, sa, text, sig|unfold MaxAllowlistAge in V8; lia].
  - apply IsAllowed_spec in Hm as [Hm1 (e & Hm2 & He)%list_elem_of_fmap]. rewrite normal_idem in Hm1, Hm2. split; [done|]. by exists e.
  - intros t Ht. pose proof (Hu t Ht). pose proof (Sub_le_ttl now t). lia.
  - split; [done|]. intros n t Hx Ht%Sub_le_ttl. destruct (accept_keeps now (hq_ChallengeNonceHex req) seen n t Hx Ht) as (t' & -> & _). eauto.
  - apply computed_binds; [|done]. intros ->. done.
  - by apply serve_key_sealed.
Qed.

(** C7: what a hand-off has checked.  The predecessor answers a request with its master key only if it is a POST that
    carries a list signed by the operator, issued at most ninety days ago (and not more than five minutes ahead), which
    names the measurement of the request's report; whose nonce is 32 bytes and its text was not on record from the last
    five minutes, and is on record from now on, as are the others of that time; whose report data is the hash of the
    report's own three keys and that nonce; and whose report says of itself that it is a verified SEV-SNP quote, chained
    to AMD and bound to the request.  The response is the exported key, sealed under a secret shared with the encryption
    key the report data binds. *)
Theorem handoff_gate s now method body seen resp seen' :
  ServeHTTP s now method body seen = (Served resp, seen') →
  method = "POST" ∧ ∃ raw req p r a nonce, body = Ok raw ∧ hs_decode_request s raw = Some req ∧
    handed_over s now seen seen' req resp p r a nonce.
Proof.
  intros (Hp & raw & req & p & r & a & nonce & Hb & Hd & H)%serve_spec. split; [done|]. exists raw, req, p, r, a, nonce.
  split; [done|]. split; [done|]. by apply checked_handed_over.
Qed.

(** ** One use of a nonce *)

Record delivery := mkDelivery { dl_server : Server; dl_now : time; dl_method : string; dl_body : res string }.

(** The requests in the order the lock lets them in. *)
Fixpoint serve_all (qs : list delivery) (seen : nonces) : list response :=
  match qs with
  | [] => []
  | q :: qs' =>
      let '(out, seen) := ServeHTTP (dl_server q) (dl_now q) (dl_method q) (dl_body q) seen in
      out :: serve_all qs' seen
  end.

Definition nonce_of (q : delivery) : option string :=
  match dl_body q with Ok raw => hq_ChallengeNonceHex <$> hs_decode_request (dl_server q) raw | Err _ => None end.

Definition is_served (o : response) : bool := match o with Served _ => true | Rejected _ _ => false end.

Lemma serve_seen s now method body seen :
  (ServeHTTP s now method body seen).2 = seen ∨ ∃ n, (ServeHTTP s now method body seen).2 = (acceptNonce now n seen).2.
Proof.
  unfold ServeHTTP. destruct (String.eqb _ _); [|by left]. cbn [negb]. destruct body as [raw|]; [|by left].
  destruct (hs_decode_request s raw) as [req|]; [|by left]. destruct (VerifyAllowlist _ _ _ _); [|by left].
  destruct (hq_Attestation req) as [r|]; [|by left]. destruct (Attestation.ar_Attestation r) as [a|]; [|by left]. cbn zeta.
  destruct (IsAllowed _ _); [|by left]. cbn [negb]. unfold serve_allowed. destruct (Nat.eqb _ 64); [|by left]. cbn [negb].
  destruct (hex_decode _) as [nonce|]; [|by left]. destruct (Nat.eqb _ 32); [|by left]. cbn [negb]. right. exists (hq_ChallengeNonceHex req).
  destruct (acceptNonce _ _ _) as [[] seen1]; cbn [negb snd]; [|done]. destruct (constantTimeStringsEqualLowerHex _ _); [|done]. cbn [negb].
  by destruct (verifyAttestationChain r).
Qed.

Lemma served_nonce q (seen : nonces) resp seen' :
  ServeHTTP (dl_server q) (dl_now q) (dl_method q) (dl_body q) seen = (Served resp, seen') →
  ∃ n, nonce_of q = Some n ∧ (∀ t, seen !! n = Some t → (NonceTTL < Sub (dl_now q) t)%Z) ∧ seen' !! n = Some (dl_now q).
Proof.
  intros (_ & raw & req & p & r & a & nonce & Hb & Hd & H)%serve_spec. exists (hq_ChallengeNonceHex req).
  unfold nonce_of. rewrite Hb, Hd. split_and!; [done|apply H|apply H].
Qed.

Lemma reuse_after_expiry qs (seen : nonces) x t j q o :
  seen !! x = Some t → Forall (λ q, (t <= dl_now q)%Z) qs → StronglySorted (λ a b, (dl_now a <= dl_now b)%Z) qs →
  qs !! j = Some q → serve_all qs seen !! j = Some (Served o) → nonce_of q = Some x → (NonceTTL < dl_now q - t)%Z.
Proof.
  intros Hx Hle Hs. revert seen t j Hx Hle. induction Hs as [|q0 qs Hs IH Hq0]; intros seen t j Hx Hle Hj Ho Hn; [done|].
  cbn [serve_all] in Ho. destruct (ServeHTTP _ _ _ _ seen) as [out seen'] eqn:Eo. apply Forall_cons in Hle as [Hle0 Hle].
  destruct j as [|j]; cbn in Hj, Ho.
  - injection Hj as ->. injection Ho as ->. apply served_nonce in Eo as (n & Hn' & H & _). rewrite Hn in Hn'. injection Hn' as <-.
    specialize (H t Hx). pose proof (Sub_le_ttl (dl_now q) t). unfold NonceTTL in *. lia.
  - assert (dl_now q0 <= dl_now q)%Z as Hq.
    { by apply (Forall_lookup_1 _ _ _ _ Hq0 Hj). }
    destruct (decide (Sub (dl_now q0) t <= NonceTTL)%Z) as [Ht|Ht%Z.nle_gt]; [|pose proof (Sub_le_ttl (dl_now q0) t); unfold NonceTTL in *; lia].
    assert (∃ t', seen' !! x = Some t' ∧ (t' = t ∨ t' = dl_now q0)) as (t' & Hx' & Ht').
    { pose proof (serve_seen (dl_server q0) (dl_now q0) (dl_method q0) (dl_body q0) seen) as Hk. rewrite Eo in Hk. cbn in Hk.
      destruct Hk as [->|[n ->]]; [by exists t; auto|]. by eapply accept_keeps. }
    cut (NonceTTL < dl_now q - t')%Z; [destruct Ht' as [->| ->]; lia|]. apply (IH seen' t' j); try done.
    destruct Ht' as [->| ->]; done.
Qed.

(** C8: a nonce hands over one key.  Over any sequence of requests, in the order the server takes them and with a clock
    that does not go back, two requests with one nonce text that are both served are more than five minutes apart:
    within the life of a nonce a captured request cannot be replayed. *)
Theorem nonce_single_use qs (seen : nonces) i j q1 q2 o1 o2 :
  StronglySorted (λ a b, (dl_now a <= dl_now b)%Z) qs → (i < j)%nat → qs !! i = Some q1 → qs !! j = Some q2 →
  nonce_of q1 = nonce_of q2 → serve_all qs seen !! i = Some (Served o1) → serve_all qs seen !! j = Some (Served o2) →
  (NonceTTL < dl_now q2 - dl_now q1)%Z.
Proof.
  intros Hs. revert seen i j. induction Hs as [|q qs Hs IH Hq]; intros seen i j Hij H1 H2 Hn Ho1 Ho2; [done|].
  cbn [serve_all] in Ho1, Ho2. destruct (ServeHTTP _ _ _ _ seen) as [out seen'] eqn:Eo. destruct j as [|j]; [lia|].
  destruct i as [|i]; cbn in H1, H2, Ho1, Ho2.
  - injection H1 as ->. injection Ho1 as ->. apply served_nonce in Eo as (n & Hn' & _ & Hx). rewrite Hn' in Hn.
    by apply (reuse_after_expiry qs seen' n (dl_now q1) j q2 o2).
  - apply (IH seen' i j); try done. lia.
Qed.

(** ** The key reaches the successor *)

Lemma parse_point {EL : EcdhLaws E} priv : ParseEphemeralPublicKey (pem_of_point (ecdh_public priv)) = Ok (ecdh_public priv).
Proof. unfold ParseEphemeralPublicKey. destruct (pem_point priv) as (der & -> & ->). done. Qed.

Lemma sealed_opens {EL : EcdhLaws E} {AL : AeadLaws A} eph iv priv mk ep n ct now :
  EncryptToPubkey eph iv (pem_of_point (ecdh_public priv)) mk = Ok (ep, n, ct) → String.length n = 12%nat →
  decryptHandoffPayload priv (mkResponse (b64_encode ep) (b64_encode n) (b64_encode ct) handoffAlgorithm now) = Ret (Ok mk).
Proof.
  unfold EncryptToPubkey. rewrite parse_point. cbn [mbind res_bind]. rewrite public_valid. cbn [negb].
  destruct eph as [k|]; [|done]. cbn [mbind res_bind]. unfold ecies_key at 1. rewrite public_valid. cbn [negb].
  destruct (ecdh_shared k (ecdh_public priv)) as [shared|] eqn:Es; [|done]. cbn [mbind res_bind]. destruct iv as [n'|]; [|done].
  cbn [mbind res_bind]. intros [= <- <- <-] Hn. unfold decryptHandoffPayload. cbn [hp_Algorithm hp_EphemeralPubkeyBase64 hp_IVBase64 hp_MasterKeyCiphertextBase64].
  rewrite EqualFold_refl, !b64_roundtrip. cbn [negb decode call_bind]. unfold ecies_key. rewrite public_valid, shared_sym, Es. cbn [negb].
  unfold gcm_open. by rewrite Hn, unseal_seal.
Qed.

(** C25: the successor receives the key of the predecessor.  When the enclave that asks has put the public half of its
    own encryption key in its report, and the server answers the request it sent with a key sealed to it, the client
    ends with exactly the bytes the server exported. *)
Theorem successor_receives {EL : EcdhLaws E} {AL : AeadLaws A} s now seen marshal unmarshal encode nonce opts attest priv att e2e body resp mk :
  hc_PeerURL opts ≠ "" → hc_SignedAllowlist opts ≠ "" → hc_GetAttestationWithNonce opts = Some attest → hc_ECIESPriv opts = Some priv →
  attest nonce = Ok att → Attestation.ar_E2EEncryption att = Some e2e → Attestation.e2_PublicKey e2e = pem_of_point (ecdh_public priv) →
  marshal (mkRequest (Some att) (hc_SignedAllowlist opts) (hex_encode nonce) (hc_ClientVersion opts)) = Ok body →
  hs_decode_request s body = Some (mkRequest (Some att) (hc_SignedAllowlist opts) (hex_encode nonce) (hc_ClientVersion opts)) →
  client_of opts = Ok (λ body, Ok (encode (ServeHTTP s now "POST" (Ok body) seen).1)) →
  (encode (Served resp)).1 = 200%Z → unmarshal (encode (Served resp)).2 = Some resp →
  (∀ n, hs_iv s = Ok n → String.length n = 12%nat) → hs_export s = Ok mk → String.length mk = 32%nat →
  (ServeHTTP s now "POST" (Ok body) seen).1 = Served resp →
  FetchMasterKey marshal unmarshal (Ok nonce) opts = Ret (Ok mk).
Proof.
  intros Hu Ha Hatt Hpriv Hn He Hp Hm Hdec Hc H200 Hun Hiv Hx Hmk Hs. unfold FetchMasterKey. apply String.eqb_neq in Hu, Ha.
  rewrite Hu, Ha, Hatt, Hpriv, Hc. cbn [call_bind call_wrap]. rewrite Hn. cbn [call_bind call_wrap].
  destruct (ServeHTTP s now "POST" (Ok body) seen) as [out seen'] eqn:Eo. cbn in Hs. subst out. pose proof Eo as Eo'.
  apply serve_spec in Eo as (_ & raw & req & p & r & a & nb & [= <-] & Hd & H). rewrite Hdec in Hd. injection Hd as <-.
  destruct (ho_report _ _ _ _ _ _ _ _ _ _ H) as [[= <-] Hra]. rewrite Hra, Hm. cbn [call_bind call_wrap]. rewrite Eo'. cbn [fst].
  rewrite H200, Hun. cbn [negb]. change (negb (200 =? 200)%Z) with false. cbn iota.
  destruct (ho_sealed _ _ _ _ _ _ _ _ _ _ H) as (_ & e2e' & mk' & ep & n & ct & He' & Hx' & Hseal & ->).
  rewrite He in He'. injection He' as <-. rewrite Hx in Hx'. injection Hx' as <-. rewrite Hp in Hseal.
  assert (hs_iv s = Ok n) as Hn'.
  { unfold EncryptToPubkey in Hseal. destruct (ParseEphemeralPublicKey _); cbn in Hseal; [|done]. destruct (ecdh_valid _); cbn in Hseal; [|done].
    destruct (hs_ephemeral s); cbn in Hseal; [|done]. destruct (ecies_key _ _); cbn in Hseal; [|done]. destruct (hs_iv s); cbn in Hseal; congruence. }
  rewrite (sealed_opens _ _ _ _ _ _ _ _ Hseal (Hiv n Hn')). cbn [call_bind call_wrap]. by rewrite Hmk.
Qed.

(** ** The pin *)

Lemma upper_digit n : (n < 16)%N →
  lower_ascii (upper_hex n) = hex_digit n ∧ is_space (upper_hex n) = false ∧ Ascii.eqb (upper_hex n) (ascii_of_N 58) = false.
Proof.
  apply (below_spec 16 (λ n, lower_ascii (upper_hex n) = hex_digit n ∧ is_space (upper_hex n) = false ∧ Ascii.eqb (upper_hex n) (ascii_of_N 58) = false)).
  vm_compute. reflexivity.
Qed.

Lemma colon_upper_plain h :
  no_space (colon_upper h) = true ∧ ToLower (Attestation.remove_char (ascii_of_N 58) (colon_upper h)) = hex_encode h.
Proof.
  induction h as [|c h [IH1 IH2]]; [done|]. cbn [colon_upper no_space Attestation.remove_char]. destruct (nibbles c) as [H1 H2].
  destruct (upper_digit _ H1) as (L1 & S1 & E1), (upper_digit _ H2) as (L2 & S2 & E2). rewrite S1, S2, E1, E2.
  cbn [negb andb ToLower hex_encode]. rewrite L1, L2. destruct h as [|d h']; [done|].
  cbn [no_space Attestation.remove_char]. rewrite IH1, Ascii.eqb_refl, IH2. done.
Qed.

Lemma normalize_colon h : String.length h = 32%nat → normalizeFingerprint (colon_upper h) = Ok h.
Proof.
  intros Hl. destruct (colon_upper_plain h) as [H1 H2]. unfold normalizeFingerprint. cbn zeta. rewrite (no_space_trim _ H1), H2.
  destruct (String.eqb_spec (colon_upper h) "") as [E0|_]; [by destruct h|]. by rewrite hex_encode_length, Hl, hex_roundtrip.
Qed.

(** The pin a predecessor publishes is the pin a successor enforces.  The fingerprint of a certificate, printed the
    way the enclave publishes it, is accepted as a pin, and a connection pinned to it is opened if and only if the
    first certificate of the peer has the same hash; with no certificate it is refused. *)
Theorem pinned_to_certificate {CL : CryptoLaws C} der certs :
  ∃ verify, NewPinnedHTTPClient (sha256FingerprintColonUpper der) = Ok verify ∧
    (verify certs = true ↔ ∃ c rest, certs = c :: rest ∧ sha256 c = sha256 der).
Proof.
  unfold NewPinnedHTTPClient, sha256FingerprintColonUpper. rewrite normalize_colon by apply sha256_length. eexists. split; [done|].
  destruct certs as [|c rest]; [split; [done|by intros (? & ? & ? & ?)]|]. rewrite String.eqb_eq. split; [by exists c, rest|].
  by intros (? & ? & [= <- <-] & ?).
Qed.

(** ** What the checks do not establish *)

(** The attestation service binds its fields with eight-byte lengths, the
    server expects four-byte ones: the report of a genuine enclave is refused,
    whatever its keys and the nonce, unless the two texts collide. *)
Theorem genuine_successor_refused {CL : CryptoLaws C} sv s now req platform sev hw nonce seen :
  hex_decode (hq_ChallengeNonceHex req) = Some nonce → nonce ≠ "" →
  Attestation.sv_ReportData sev = hex_encode (Attestation.request_bytes (Attestation.buildReportData sv nonce)) →
  let r := Attestation.report_of sv platform sev hw in
  (sha256 (Attestation.bound_bytes (Attestation.as_tlsFingerprint sv) (Attestation.as_e2ePublicKey sv) (Attestation.as_signingPubKey sv) nonce) =
   sha256 (bound_bytes r nonce) → Attestation.bound_bytes (Attestation.as_tlsFingerprint sv) (Attestation.as_e2ePublicKey sv)
     (Attestation.as_signingPubKey sv) nonce = bound_bytes r nonce) →
  is_served (serve_allowed s now req r sev seen).1 = false.
Proof.
  intros Hn Hne Hd r Hcol. unfold serve_allowed. destruct (Nat.eqb _ 64); [|done]. cbn [negb]. rewrite Hn. destruct (Nat.eqb _ 32); [|done].
  cbn [negb]. destruct (acceptNonce _ _ _) as [[] seen1]; [|done]. cbn [negb].
  destruct (constantTimeStringsEqualLowerHex _ _) eqn:Ec; [|done]. exfalso. apply constantTime_spec in Ec.
  rewrite expected_normal, Hd, hex_normal in Ec. unfold computeExpectedReportData, Attestation.request_bytes, Attestation.buildReportData in Ec.
  cbn zeta in Ec. rewrite (proj1 (hex_plain _)), hex_roundtrip in Ec. apply hex_encode_inj in Ec.
  apply string_app_inj_l in Ec as [Ec _]; [|rewrite !substring_short; rewrite !sha256_length; lia].
  rewrite !substring_short in Ec by (rewrite sha256_length; lia). apply Hcol in Ec. apply (f_equal String.length) in Ec.
  unfold Attestation.bound_bytes, bound_bytes, Attestation.writeLenPrefixed, writeLenPrefixed in Ec. apply String.eqb_neq in Hne. rewrite Hne in Ec.
  rewrite !string_length_app, !len_prefixed_length in Ec. cbn in Ec. lia.
Qed.

(** The letter case of a nonce is part of its text but not of its bytes: the
    request that was served is served again with the nonce in upper case. *)
Theorem nonce_case_replayed now n n' seen :
  n ≠ n' → hex_decode n = hex_decode n' → seen !! n = None → seen !! n' = None →
  let '(first, seen1) := acceptNonce now n seen in
  let '(second, _) := acceptNonce now n' seen1 in first = true ∧ second = true.
Proof.
  intros Hne _ H1 H2. unfold acceptNonce. cbn zeta. rewrite (map_lookup_filter_None_2 _ seen n) by (by left). cbn iota.
  rewrite map_lookup_filter_None_2; [done|]. left. by rewrite lookup_insert_ne, map_lookup_filter_None_2 by (done || by left).
Qed.

(** What an attacker can write down: a report of its own for a measurement of
    the list, with the fields the server reads. *)
Definition forged_report (measurement pem nonce : string) : Attestation.AttestationReport :=
  let blank sev := Attestation.mkAttReport (Some sev) None (Some (Attestation.mkE2E pem "")) None None Attestation.PlatformSevSnp in
  let data := computeExpectedReportData (blank (Attestation.mkSev true true measurement "" true "" true)) nonce in
  blank (Attestation.mkSev true true measurement data true "" true).

(** Nothing the server checks is signed by hardware: a report that anybody can
    write, for a measurement of the public list and a key of its own, is
    served. *)
Theorem forged_report_served s now req measurement pem nonce seen mk eph iv ct :
  hex_decode (hq_ChallengeNonceHex req) = Some nonce → String.length nonce = 32%nat → seen !! hq_ChallengeNonceHex req = None →
  hs_export s = Ok mk → pem ≠ "" → EncryptToPubkey (hs_ephemeral s) (hs_iv s) pem mk = Ok (eph, iv, ct) →
  match Attestation.ar_Attestation (forged_report measurement pem nonce) with
  | Some a => is_served (serve_allowed s now req (forged_report measurement pem nonce) a seen).1 = true
  | None => False
  end.
Proof.
  intros Hn Hl Hs Hx Hp He. cbn [forged_report Attestation.ar_Attestation]. unfold serve_allowed.
  rewrite (hex_decode_length _ _ Hn), Hl, Hn, Hl. cbn [Nat.eqb Nat.mul Nat.add negb]. unfold acceptNonce. cbn zeta.
  rewrite map_lookup_filter_None_2 by (by left). cbn [negb].
  replace (constantTimeStringsEqualLowerHex _ _) with true by (by symmetry; apply constantTime_spec). cbn [negb].
  change (verifyAttestationChain (forged_report measurement pem nonce)) with (Ok tt). cbn iota.
  unfold serve_key. rewrite Hx. cbn [forged_report Attestation.ar_E2EEncryption Attestation.e2_PublicKey]. apply String.eqb_neq in Hp.
  by rewrite Hp, He.
Qed.

End safe.

(** ** A sample *)

(** One group element: every key is its own public half and secrets are the
    two keys in order. *)
Definition toy_ecdh : Ecdh := {|
  EcdhKey := nat; ecdh_public := λ k, pretty k; ecdh_valid := λ _, true;
  ecdh_shared := λ a b, Some "s"; pem_decode := λ s, if String.prefix "P" s then Some (String.substring 1 (String.length s) s) else None;
  point_of_pkix := λ s, Some (Some s); pem_of_point := λ s, "P" +:+ s |}.

Lemma toy_ecdh_laws : EcdhLaws toy_ecdh.
Proof.
  split; try done. intros a. exists (pretty a). split; [|done]. change (pem_of_point (Ecdh := toy_ecdh) (ecdh_public (Ecdh := toy_ecdh) a)) with (String (ascii_of_N 80) (pretty (a : nat))).
  cbn [pem_decode toy_ecdh]. change (String.prefix "P" (String (ascii_of_N 80) (pretty (a : nat)))) with (String.prefix "" (pretty (a : nat))).
  replace (String.prefix "" (pretty (a : nat))) with true by (by destruct (pretty (a : nat))).
  change (String.substring 1 (String.length (String (ascii_of_N 80) (pretty (a : nat)))) (String (ascii_of_N 80) (pretty (a : nat))))
    with (String.substring 0 (S (String.length (pretty (a : nat)))) (pretty (a : nat))).
  by rewrite substring_short by lia.
Qed.

Definition sample_nonce : string := Nat.iter 32 (String (ascii_of_N 110)) "".

Definition sample_report : Attestation.AttestationReport := forged_report (C := toy_crypto) "abcd" "P7" sample_nonce.

Definition sample_request : HandoffRequest := mkRequest (Some sample_report) "list" (hex_encode sample_nonce) "v".

Definition sample_server : Server (E := toy_ecdh) :=
  mkServer (E := toy_ecdh) (λ b, if String.eqb b "body" then Some sample_request else None) (λ b, if String.eqb b "list" then Some sample_list else None) sample_operator
    (Ok KeyLifecycle.sample_dek) (Ok (3%nat : EcdhKey (Ecdh := toy_ecdh))) (Ok KeyLifecycle.sample_iv12).

Notation sample_serve := (ServeHTTP (C := toy_crypto) (A := toy_aead) (K := KeyLifecycle.toy_kdf) (E := toy_ecdh)).

Lemma handoff_gate_witness :
  ∃ p r a nonce resp, handed_over (C := toy_crypto) (A := toy_aead) (K := KeyLifecycle.toy_kdf) sample_server Hour ∅
    (sample_serve sample_server Hour "POST" (Ok "body") ∅).2 sample_request resp p r a nonce.
Proof.
  destruct (sample_serve sample_server Hour "POST" (Ok "body") ∅) as [out seen] eqn:Eo.
  assert (is_served out = true) as Hs.
  { change out with (out, seen).1. rewrite <- Eo. vm_compute. reflexivity. }
  destruct out as [|resp]; [done|].
  destruct (handoff_gate (C := toy_crypto) (A := toy_aead) (K := KeyLifecycle.toy_kdf) sample_server Hour "POST" (Ok "body") ∅ resp seen Eo)
    as (_ & raw & req & p & r & a & nonce & [= <-] & Hd & H).
  injection Hd as <-. by exists p, r, a, nonce, resp.
Defined.

Lemma nonce_single_use_witness :
  ∃ o1 o2, serve_all (C := toy_crypto) (A := toy_aead) (K := KeyLifecycle.toy_kdf) [mkDelivery sample_server Hour "POST" (Ok "body");
      mkDelivery sample_server (Hour + 6 * Minute) "POST" (Ok "body")] ∅ = [Served o1; Served o2] ∧ (NonceTTL < Hour + 6 * Minute - Hour)%Z.
Proof.
  destruct (serve_all (C := toy_crypto) (A := toy_aead) (K := KeyLifecycle.toy_kdf) [mkDelivery sample_server Hour "POST" (Ok "body");
      mkDelivery sample_server (Hour + 6 * Minute) "POST" (Ok "body")] ∅) as [|x [|y [|z l]]] eqn:Eo; vm_compute in Eo; try discriminate Eo.
  injection Eo as <- <-. do 2 eexists. split; [reflexivity|].
  eapply (nonce_single_use (C := toy_crypto) (A := toy_aead) (K := KeyLifecycle.toy_kdf) [mkDelivery sample_server Hour "POST" (Ok "body");
      mkDelivery sample_server (Hour + 6 * Minute) "POST" (Ok "body")] ∅ 0 1 (mkDelivery sample_server Hour "POST" (Ok "body"))
      (mkDelivery sample_server (Hour + 6 * Minute) "POST" (Ok "body"))); [|lia|reflexivity..|vm_compute; reflexivity|vm_compute; reflexivity].
  repeat constructor; vm_compute; discriminate.
Defined.

Definition sample_options : ClientOptions (E := toy_ecdh) :=
  mkClientOptions (E := toy_ecdh) "https://peer" "list" (Some (λ _, Ok sample_report)) (Some (7%nat : EcdhKey (Ecdh := toy_ecdh))) "v" ""
    (Some (λ b, let out := (sample_serve sample_server Hour "POST" (Ok b) ∅).1 in
      Ok (match out with Served _ => 200%Z | Rejected st _ => st end, "reply"))) (λ _ _, Err "unused").

Lemma successor_receives_witness :
  FetchMasterKey (C := toy_crypto) (A := toy_aead) (K := KeyLifecycle.toy_kdf) (E := toy_ecdh) (λ _, Ok "body")
    (λ _, match (sample_serve sample_server Hour "POST" (Ok "body") ∅).1 with Served r => Some r | Rejected _ _ => None end)
    (Ok sample_nonce) sample_options = Ret (Ok KeyLifecycle.sample_dek).
Proof.
  destruct (sample_serve sample_server Hour "POST" (Ok "body") ∅).1 as [|resp] eqn:Eo; [vm_compute in Eo; discriminate Eo|].
  apply (successor_receives (C := toy_crypto) (A := toy_aead) (K := KeyLifecycle.toy_kdf) (EL := toy_ecdh_laws) (AL := toy_aead_laws)
    sample_server Hour ∅ (λ _, Ok "body") (λ _, Some resp) (λ out, (match out with Served _ => 200%Z | Rejected st _ => st end, "reply"))
    sample_nonce sample_options (λ _, Ok sample_report) (7%nat : EcdhKey (Ecdh := toy_ecdh)) sample_report (Attestation.mkE2E "P7" "") "body" resp);
    [discriminate|discriminate|reflexivity|reflexivity|reflexivity|reflexivity|vm_compute; reflexivity|reflexivity|
     reflexivity|reflexivity|reflexivity|reflexivity| |reflexivity|vm_compute; reflexivity|exact Eo].
  intros n [= <-]. vm_compute. reflexivity.
Defined.

Lemma pinned_to_certificate_witness :
  ∃ verify, NewPinnedHTTPClient (C := toy_crypto) (sha256FingerprintColonUpper (C := toy_crypto) "der") = Ok verify ∧
    verify ["der"; "issuer"] = true ∧ verify ["rogue"; "der"] = false ∧ verify [] = false.
Proof.
  destruct (pinned_to_certificate (C := toy_crypto) (CL := toy_laws) "der" ["der"; "issuer"]) as (verify & Hv & H1).
  exists verify. split; [exact Hv|]. split; [apply H1; exists "der", ["issuer"]; split; reflexivity|].
  destruct (pinned_to_certificate (C := toy_crypto) (CL := toy_laws) "der" ["rogue"; "der"]) as (v2 & Hv2 & H2). rewrite Hv in Hv2. injection Hv2 as <-.
  destruct (pinned_to_certificate (C := toy_crypto) (CL := toy_laws) "der" []) as (v3 & Hv3 & H3). rewrite Hv in Hv3. injection Hv3 as <-.
  split; apply not_true_is_false; [rewrite H2; intros (c & rest & [= <- <-] & E); vm_compute in E; discriminate E|rewrite H3; by intros (c & rest & E & _)].
Defined.

End HandoffSafe.
