(* ===== verification/Metrics.v ===== *)
(** * Performance metrics (internal/service/metrics.go)

    Ratios, volatility, drawdown and win rates over the daily returns of a
    report.  [math.Pow] is the operation [fpow]. *)

From S2P Require Import Prelude Num GoTime Types Store Returns Signing.
From stdpp Require Import base gmap strings tactics list.
From Stdlib Require Import ZArith Lia.
Import Returns.
Local Open Scope Z_scope.

Module Metrics.

(** [math.Pow] *)
Class Pow (F : Type) : Type := fpow : F → F → F.

Section metrics.
Context {F : Type} {NF : Num F} {PF : Pow F}.

Definition daysPerYear : F := fofZ Signing.AnnualizationDays.

Record PerformanceMetrics := mkMetrics {
  pm_SharpeRatio : F;
  pm_SortinoRatio : F;
  pm_CalmarRatio : F;
  pm_Volatility : F;
  pm_DownsideDeviation : F;
  pm_MaxDrawdown : F;
  pm_MaxDrawdownDuration : Z;
  pm_CurrentDrawdown : F;
  pm_WinRate : F;
  pm_ProfitFactor : F;
  pm_AvgWin : F;
  pm_AvgLoss : F;
  pm_TotalReturn : F;
  pm_AnnualizedReturn : F;
  pm_Annualized : bool;
  pm_PeriodDays : Z;
  pm_PeriodStart : time;
  pm_PeriodEnd : time;
  pm_DataPoints : Z;
}.

(** ** Statistics *)

Definition count (l : list F) : F := fofZ (Z.of_nat (length l)).

Definition mean (values : list F) : F :=
  match values with [] => f0 | _ => fdiv (fsum values) (count values) end.

Definition sum_squares (avg : F) (values : list F) : F :=
  foldl (λ acc v, fadd acc (fmul (fsub v avg) (fsub v avg))) f0 values.

Definition stddev (values : list F) : F :=
  match values with
  | [] | [_] => f0
  | _ => fsqrt (fdiv (sum_squares (mean values) values) (fofZ (Z.of_nat (length values) - 1)))
  end.

Definition downsideDeviation (returns : list F) (target : F) : F :=
  match returns with
  | [] => f0
  | _ =>
      let sumSquares := foldl (λ acc r, if fltb r target then fadd acc (fmul (fsub r target) (fsub r target)) else acc) f0 returns in
      fsqrt (fdiv sumSquares (count returns))
  end.

(** ** Drawdown *)

(** The loop at index [i]: the peak and its index, the deepest fall and its length. *)
Record drawdown := mkDrawdown { dw_peak : F; dw_peakIdx : Z; dw_max : F; dw_duration : Z }.

Definition drawdown_step (i : Z) (nav : F) (s : drawdown) : drawdown :=
  let s := if fltb (dw_peak s) nav then mkDrawdown nav i (dw_max s) (dw_duration s) else s in
  let dd := fdiv (fsub (dw_peak s) nav) (dw_peak s) in
  if fltb (dw_max s) dd then mkDrawdown (dw_peak s) (dw_peakIdx s) dd (i - dw_peakIdx s) else s.

Fixpoint drawdown_from (i : Z) (navs : list F) (s : drawdown) : drawdown :=
  match navs with [] => s | nav :: navs => drawdown_from (i + 1) navs (drawdown_step i nav s) end.

(** maxDD, maxDDDuration and currentDD *)
Definition analyzeDrawdownNAV (navSeries : list F) : F * Z * F :=
  match navSeries with
  | [] => (f0, 0, f0)
  | nav0 :: _ =>
      let s := drawdown_from 0 navSeries (mkDrawdown nav0 0 f0 0) in
      let lastNAV := default f0 (last navSeries) in
      let currentDD := fdiv (fsub (dw_peak s) lastNAV) (dw_peak s) in
      (dw_max s, dw_duration s, if fltb currentDD f0 then f0 else currentDD)
  end.

(** ** Wins and losses *)

Record win_loss := mkWinLoss { wl_wins : Z; wl_losses : Z; wl_win : F; wl_loss : F }.

Definition win_step (s : win_loss) (r : F) : win_loss :=
  if fltb f0 r then mkWinLoss (wl_wins s + 1) (wl_losses s) (fadd (wl_win s) r) (wl_loss s)
  else if fltb r f0 then mkWinLoss (wl_wins s) (wl_losses s + 1) (wl_win s) (fadd (wl_loss s) (fabs r))
  else s.

(** winRate, profitFactor, avgWin and avgLoss; the gross and the total sums of
    the code are the same sums. *)
Definition analyzeWinLoss (returns : list F) : F * F * F * F :=
  let s := foldl win_step (mkWinLoss 0 0 f0 f0) returns in
  let total := wl_wins s + wl_losses s in
  (if 0 <? total then fdiv (fofZ (wl_wins s)) (fofZ total) else f0,
   if fltb f0 (wl_loss s) then fdiv (wl_win s) (wl_loss s) else f0,
   if 0 <? wl_wins s then fdiv (wl_win s) (fofZ (wl_wins s)) else f0,
   if 0 <? wl_losses s then fdiv (wl_loss s) (fofZ (wl_losses s)) else f0).

(** ** The period *)

(** [d.Hours()] *)
Definition Hours (d : duration) : F :=
  fadd (fofZ (Z.quot d Hour)) (fdiv (fofZ (Z.rem d Hour)) (fofZ Hour)).

Definition elapsedDays (start end_ : time) : Z :=
  let days := fround (fdiv (Hours (Sub end_ start)) (fofZ 24)) in
  if days <? 1 then 1 else days.

Definition annualizeReturn (total : F) (days : Z) : F * bool :=
  if fltb (fofZ days) daysPerYear then (f0, false)
  else
    let growth := fadd f1 total in
    if fleb growth f0 then (f0, false)
    else
      let annual := fsub (fpow growth (fdiv daysPerYear (fofZ days))) f1 in
      if fis_nan annual || fis_inf annual then (f0, false) else (annual, true).

Definition summarizePeriod (snapshots : list (Snapshot F)) : time * time * Z :=
  match snapshots, last snapshots with
  | s0 :: _, Some s1 => (sn_Timestamp s0, sn_Timestamp s1, Z.of_nat (size (list_to_set (C := gset Z) (day_of <$> snapshots))))
  | _, _ => (0, 0, 0)
  end.

(** ** The metrics of a list of snapshots *)

(** [order] is the order in which Go visits the maps of the conversion. *)
Definition calculateFromSnapshots (order : Z → nat → list string → list string) (snapshots : list (Snapshot F)) (riskFreeRatePct : F)
  : res PerformanceMetrics :=
  if Nat.ltb (length snapshots) 2 then Err "insufficient data: need at least 2 snapshots"
  else
    let snapshots := dropLeadingDustDays (sort_by sn_Timestamp snapshots) in
    let dailyReturns := convertSnapshotsToDailyReturns order snapshots in
    match last dailyReturns with
    | None => Err "insufficient data: need at least 2 daily data points"
    | Some lastDay =>
        let returns := dr_netReturn <$> dailyReturns in
        let navSeries := f1 :: (dr_nav <$> dailyReturns) in
        let rfDaily := fdiv (fdiv riskFreeRatePct (fofZ 100)) daysPerYear in
        let avgReturn := mean returns in
        let stdDev := stddev returns in
        let downsideDev := downsideDeviation returns rfDaily in
        let '(maxDD, maxDDDuration, currentDD) := analyzeDrawdownNAV navSeries in
        let '(winRate, profitFactor, avgWin, avgLoss) := analyzeWinLoss returns in
        let totalReturn := dr_cumulativeReturn lastDay in
        let '(periodStart, periodEnd, dataPoints) := summarizePeriod snapshots in
        let periodDays := elapsedDays periodStart periodEnd in
        let '(annualizedReturn, annualized) := annualizeReturn totalReturn periodDays in
        let sharpe := if fltb f0 stdDev then fmul (fdiv (fsub avgReturn rfDaily) stdDev) (fsqrt daysPerYear) else f0 in
        let sortino := if fltb f0 downsideDev then fmul (fdiv (fsub avgReturn rfDaily) downsideDev) (fsqrt daysPerYear) else f0 in
        let calmar := if annualized && fltb f0 maxDD then fdiv annualizedReturn maxDD else f0 in
        Ok (mkMetrics sharpe sortino calmar (fmul stdDev (fsqrt daysPerYear)) (fmul downsideDev (fsqrt daysPerYear)) maxDD maxDDDuration
              currentDD winRate profitFactor avgWin avgLoss totalReturn annualizedReturn annualized periodDays periodStart periodEnd dataPoints)
    end.

(** ** Selection *)

Definition filterSnapshots (snapshots : list (Snapshot F)) (exchange : string) (excluded : gset string) : list (Snapshot F) :=
  let normalizedExchange := ToLower exchange in
  filter (λ s, let snapshotExchange := ToLower (sn_Exchange s) in
    (String.eqb normalizedExchange "" || String.eqb snapshotExchange normalizedExchange) &&
    negb (bool_decide (snapshotConnectionKey (sn_Exchange s) (sn_Label s) ∈ excluded)) &&
    negb (bool_decide (snapshotExchange ∈ excluded)) = true) snapshots.

Definition filterSnapshotsByExcludedExchanges (snapshots : list (Snapshot F)) (excluded : gset string) : list (Snapshot F) :=
  filterSnapshots snapshots "" excluded.

(** [GetByUserAndDateRange] is getByUserAndDateRange on the stored rows. *)
Definition CalculateWithFilters (order : Z → nat → list string → list string) (sch : Store.schema) (t : list (Snapshot F)) (userUID : string)
    (start end_ : time) (exchange : string) (excluded : gset string) : res PerformanceMetrics :=
  calculateFromSnapshots order (filterSnapshots (Store.getByUserAndDateRange sch t userUID start end_) exchange excluded) f0.

(** ** Annualisation *)

Lemma annualize_cases total days a b :
  annualizeReturn total days = (a, b) →
  if b then fltb (fofZ days) daysPerYear = false ∧ fleb (fadd f1 total) f0 = false ∧ fis_nan a = false ∧ fis_inf a = false else a = f0.
Proof.
  unfold annualizeReturn. destruct (fltb _ _) eqn:E1; [by intros [= <- <-]|]. cbn zeta. destruct (fleb _ _) eqn:E2; [by intros [= <- <-]|].
  destruct (fis_nan _ || fis_inf _) eqn:E3; intros [= <- <-]; [done|]. apply orb_false_iff in E3 as [E3 E4]. done.
Qed.

(** Nothing is annualised under a year.  Whatever the snapshots and the arithmetic, a report's annualised return
    and its Calmar ratio are zero unless the record spans at least the 365 days the report declares and did not lose
    everything; the flag that says so is what the reader sees, and a flagged figure is a finite number. *)
Theorem annualized_only_full_year order snapshots rf m :
  calculateFromSnapshots order snapshots rf = Ok m →
  if pm_Annualized m then
    fltb (fofZ (pm_PeriodDays m)) daysPerYear = false ∧ fleb (fadd f1 (pm_TotalReturn m)) f0 = false ∧
    fis_nan (pm_AnnualizedReturn m) = false ∧ fis_inf (pm_AnnualizedReturn m) = false
  else pm_AnnualizedReturn m = f0 ∧ pm_CalmarRatio m = f0.
Proof.
  unfold calculateFromSnapshots. destruct (Nat.ltb _ _); [done|]. cbn zeta. destruct (last _) as [z|]; [|done].
  destruct (analyzeDrawdownNAV _) as [[maxDD dur] cur]. destruct (analyzeWinLoss _) as [[[wr pf] aw] al].
  destruct (summarizePeriod _) as [[ps pe] dp]. destruct (annualizeReturn _ _) as [a b] eqn:E. intros [= <-].
  cbn [pm_Annualized pm_PeriodDays pm_TotalReturn pm_AnnualizedReturn pm_CalmarRatio]. apply annualize_cases in E. by destruct b.
Qed.

End metrics.
Arguments PerformanceMetrics F : clear implicits.
Arguments drawdown F : clear implicits.
Arguments win_loss F : clear implicits.

(** ** A sample *)

#[local] Instance sample_pow : Pow float64 := λ x _, x.

Definition sample_year : list (Snapshot float64) := [sample_row 0 100; sample_row 1 110; sample_row 400 121].

Lemma annualized_only_full_year_witness :
  ∃ m, calculateFromSnapshots (λ _ _ l, l) sample_year f0 = Ok m ∧ pm_Annualized m = true ∧
    fltb (fofZ (pm_PeriodDays m)) daysPerYear = false.
Proof.
  destruct (calculateFromSnapshots (λ _ _ l, l) sample_year f0) as [m|] eqn:E; [|vm_compute in E; discriminate E].
  assert (pm_Annualized m = true) as Ha.
  { replace m with (match calculateFromSnapshots (λ _ _ l, l) sample_year f0 with Ok m => m | Err _ => m end) by (by rewrite E).
    vm_compute. reflexivity. }
  pose proof (annualized_only_full_year (λ _ _ l, l) sample_year f0 m E) as H. rewrite Ha in H. destruct H as [H _].
  exists m. split; [reflexivity|]. split; [exact Ha|exact H].
Defined.

End Metrics.
