(* ===== verification/Risk.v ===== *)
(** * Risk, drawdown periods and benchmark of a report (internal/service/report.go, benchmark.go)

    The tail of the distribution of daily returns, the drawdown periods with
    their recovery, and the comparison with a benchmark.  The response of the
    benchmark service is answered by a parameter, and decoded into
    [bench_response] by another. *)

From S2P Require Import Prelude Num GoTime Types Fx Returns Encoding Signing Metrics.
From stdpp Require Import base gmap strings pretty tactics list.
From Stdlib Require Import ZArith Ascii Lia.
Import Returns Encoding Metrics.
Local Open Scope Z_scope.

Module Risk.

Section risk.
Context {F : Type} {NF : Num F}.

(** ** Tail and moments *)

Record riskMetrics := mkRiskMetrics {
  ri_var95 : F;
  ri_var99 : F;
  ri_expectedShortfall : F;
  ri_skewness : F;
  ri_kurtosis : F;
}.

(** [sort.Float64s]: a NaN comes before every number. *)
Definition float_less (x y : F) : bool := fltb x y || (fis_nan x && negb (fis_nan y)).

Fixpoint float_insert (x : F) (l : list F) : list F :=
  match l with
  | [] => [x]
  | y :: l' => if float_less y x then y :: float_insert x l' else x :: l
  end.

Definition Float64s (l : list F) : list F := foldr float_insert [] l.

(** [sorted[int(math.Floor(float64(n)*p))]], the last one past the end *)
Definition percentile_index (n : nat) (p : F) : nat :=
  let idx := Z.to_nat (ftrunc (fmul (fofZ (Z.of_nat n)) p)) in
  if Nat.leb n idx then n - 1 else idx.

Definition tail_sum (threshold : F) (sorted : list F) : F * Z :=
  foldl (λ '(sum, n) r, if fleb r threshold then (fadd sum r, n + 1) else (sum, n)) (f0, 0) sorted.

(** [sum((r - avg) / sd)^k / n], the product taken as the code writes it *)
Definition moment (power : F → F) (avg sd : F) (returns : list F) : F :=
  fdiv (foldl (λ acc r, fadd acc (power (fdiv (fsub r avg) sd))) f0 returns) (count returns).

Definition cube (x : F) : F := fmul (fmul x x) x.
Definition fourth (x : F) : F := fmul (fmul (fmul x x) x) x.

Definition calculateRiskMetrics (returns : list F) : riskMetrics :=
  if Nat.ltb (length returns) 5 then mkRiskMetrics f0 f0 f0 f0 f0
  else
    let sorted := Float64s returns in
    let n := length sorted in
    let threshold := default f0 (sorted !! percentile_index n (flit 5 2)) in
    let var99 := fopp (default f0 (sorted !! percentile_index n (flit 1 2))) in
    let '(cvarSum, cvarCount) := tail_sum threshold sorted in
    let expectedShortfall := if 0 <? cvarCount then fdiv (fopp cvarSum) (fofZ cvarCount) else f0 in
    let avg := fdiv (fsum returns) (fofZ (Z.of_nat n)) in
    let sd := fsqrt (fdiv (sum_squares avg returns) (fofZ (Z.of_nat n))) in
    let skewness := if fltb f0 sd then moment cube avg sd returns else f0 in
    let kurtosis := if fltb f0 sd then fsub (moment fourth avg sd returns) (fofZ 3) else f0 in
    mkRiskMetrics (fopp threshold) var99 expectedShortfall skewness kurtosis.

(** ** Drawdown periods *)

Record drawdownPeriod := mkPeriod {
  pe_startDate : Z;
  pe_endDate : Z;
  pe_depth : F;
  pe_duration : Z;
  pe_recovered : bool;
}.

Record drawdownData := mkData {
  da_currentDrawdown : F;
  da_maxDrawdownDuration : Z;
  da_periods : list drawdownPeriod;
}.

Record dd_state := mkDD {
  st_periods : list drawdownPeriod;
  st_current : option drawdownPeriod;
  st_peak : F;
  st_maxDuration : Z;
  st_startIdx : Z;
}.

Definition dd_step (i : Z) (dr : dailyReturn F) (s : dd_state) : dd_state :=
  let nav := dr_nav dr in
  if fltb (st_peak s) nav then
    mkDD (st_periods s ++
            match st_current s with
            | Some p => [mkPeriod (pe_startDate p) (dr_date dr) (pe_depth p) (pe_duration p) true]
            | None => []
            end) None nav (st_maxDuration s) (-1)
  else if fltb nav (st_peak s) then
    let dd := fdiv (fsub (st_peak s) nav) (st_peak s) in
    let '(p, startIdx) :=
      match st_current s with
      | None => (mkPeriod (dr_date dr) (dr_date dr) dd 1 false, i)
      | Some p =>
          (mkPeriod (pe_startDate p) (dr_date dr) (if fltb (pe_depth p) dd then dd else pe_depth p) (i - st_startIdx s + 1) (pe_recovered p),
           st_startIdx s)
      end in
    mkDD (st_periods s) (Some p) (st_peak s) (if st_maxDuration s <? pe_duration p then pe_duration p else st_maxDuration s) startIdx
  else s.

Fixpoint dd_from (i : Z) (daily : list (dailyReturn F)) (s : dd_state) : dd_state :=
  match daily with [] => s | dr :: daily => dd_from (i + 1) daily (dd_step i dr s) end.

(** [periods[len(periods)-5:]] when there are more than five *)
Definition last_five (l : list drawdownPeriod) : list drawdownPeriod :=
  if Nat.ltb 5 (length l) then drop (length l - 5) l else l.

Definition calculateDrawdownData (daily : list (dailyReturn F)) : drawdownData :=
  match last daily with
  | None => mkData f0 0 []
  | Some lastDay =>
      let s := dd_from 0 daily (mkDD [] None f1 0 (-1)) in
      let periods := st_periods s ++ option_list (st_current s) in
      let lastNav := dr_nav lastDay in
      let currentDD := if fltb f0 (st_peak s) && fltb lastNav (st_peak s) then fdiv (fsub (st_peak s) lastNav) (st_peak s) else f0 in
      mkData currentDD (st_maxDuration s) (last_five periods)
  end.

(** ** The benchmark *)

Record BenchmarkMetrics := mkBench {
  be_BenchmarkName : string;
  be_BenchmarkReturn : F;
  be_Alpha : F;
  be_Beta : F;
  be_InformationRatio : F;
  be_TrackingError : F;
  be_Correlation : F;
}.

Record benchPoint := mkPoint { bp_date : string; bp_close : F }.

Definition maxBenchmarkResponseBytes : nat := N.to_nat 4194304.

Record bench_row := mkRow { br_Date : string; br_Close : F; br_AdjustedClose : F }.

Record bench_response := mkResponse { bs_Success : bool; bs_Error : string; bs_Data : list bench_row }.

(** A row without a positive price is left out. *)
Definition bench_point (p : bench_row) : option benchPoint :=
  let price := if fleb (br_AdjustedClose p) f0 then br_Close p else br_AdjustedClose p in
  if fltb f0 price then Some (mkPoint (br_Date p) price) else None.

(** [url.PathEscape]: the unreserved characters and the delimiters a path
    segment may hold stay. *)
Definition path_safe (c : ascii) : bool :=
  let n := N_of_ascii c in
  ((48 <=? n) && (n <=? 57) || (65 <=? n) && (n <=? 90) || (97 <=? n) && (n <=? 122))%N ||
  existsb (Ascii.eqb c) ["-"; "_"; "."; "~"; "$"; "&"; "+"; ":"; "="; "@"]%char.

Fixpoint PathEscape (s : string) : string :=
  match s with
  | EmptyString => EmptyString
  | String c s' =>
      if path_safe c then String c (PathEscape s')
      else let n := N_of_ascii c in
           String "%" (String (upper_ascii (hex_digit (n / 16)%N)) (String (upper_ascii (hex_digit (n mod 16)%N)) (PathEscape s')))
  end.

(** The request that leaves the enclave. *)
Record http_request := mkHttpRequest { hr_URL : string; hr_Header : list (string * string) }.

(** The service, with what answers its requests (the status and the body, an
    error of the read apart) and json.Unmarshal. *)
Record BenchmarkService := mkBenchmarkService {
  bk_baseURL : string;
  bk_internalToken : string;
  bk_Do : http_request → res (Z * res string);
  bk_unmarshal : string → res bench_response;
}.

Definition bench_request (s : BenchmarkService) (benchmark : string) (startDate endDate : time) : http_request :=
  mkHttpRequest
    (bk_baseURL s +:+ "/api/v1/benchmarks/" +:+ PathEscape benchmark +:+ "/daily?startDate=" +:+ FormatDate startDate +:+ "&endDate=" +:+ FormatDate endDate)
    ([("User-Agent", "TrackRecord-Enclave/1.0"); ("Accept", "application/json")] ++
     if String.eqb (bk_internalToken s) "" then [] else [("X-Internal-Token", bk_internalToken s)]).

(** The body is read up to one byte beyond the limit. *)
Definition LimitReader (n : nat) (body : string) : string := String.substring 0 n body.

Definition fetchBenchmarkSeries (s : BenchmarkService) (benchmark : string) (startDate endDate : time) : res (list benchPoint) :=
  if String.eqb (bk_baseURL s) "" then Err "BENCHMARK_SERVICE_URL not configured"
  else match bk_Do s (bench_request s benchmark startDate endDate) with
  | Err e => Err ("benchmark-service request: " +:+ e)
  | Ok (status, body) =>
      if negb (status =? 200) then Err ("benchmark-service returned " +:+ pretty status +:+ " for " +:+ benchmark)
      else match body with
      | Err e => Err ("benchmark-service read: " +:+ e)
      | Ok body =>
          let body := LimitReader (maxBenchmarkResponseBytes + 1) body in
          if Nat.ltb maxBenchmarkResponseBytes (String.length body)
          then Err ("benchmark-service response exceeds " +:+ pretty (N.of_nat maxBenchmarkResponseBytes) +:+ " bytes for " +:+ benchmark)
          else match bk_unmarshal s body with
          | Err e => Err ("benchmark-service decode: " +:+ e)
          | Ok r =>
              if negb (bs_Success r) then Err ("benchmark-service error for " +:+ benchmark +:+ ": " +:+ bs_Error r)
              else if Fx.maxBenchmarkPoints <? Z.of_nat (length (bs_Data r))
              then Err ("benchmark-service returned too many points (" +:+ pretty (length (bs_Data r)) +:+ " > " +:+ pretty Fx.maxBenchmarkPoints
                        +:+ ") for " +:+ benchmark)
              else if Nat.ltb (length (bs_Data r)) 2 then Err ("insufficient benchmark data for " +:+ benchmark)
              else Ok (omap bench_point (bs_Data r))
          end
      end
  end.

(** The return realised on each date; a later point of the same date wins. *)
Fixpoint returns_from (prev : benchPoint) (points : list benchPoint) (series : gmap string F) : gmap string F :=
  match points with
  | [] => series
  | p :: points =>
      returns_from p points
        (if fltb f0 (bp_close prev) then <[bp_date p := fdiv (fsub (bp_close p) (bp_close prev)) (bp_close prev)]> series else series)
  end.

Definition series_of (benchmark : string) (points : list benchPoint) : res (gmap string F) :=
  match points with
  | p0 :: ((_ :: _) as rest) => Ok (returns_from p0 rest ∅)
  | _ => Err ("insufficient benchmark data for " +:+ benchmark)
  end.

Definition co_moment (pMean bMean : F) (p b : list F) : F * F :=
  foldl (λ '(cov, var) '(x, y), (fadd cov (fmul (fsub x pMean) (fsub y bMean)), fadd var (fmul (fsub y bMean) (fsub y bMean))))
    (f0, f0) (zip p b).

Definition CalculateFromSeries (portfolioReturns benchReturns : list F) (benchmark : string) : res BenchmarkMetrics :=
  if Nat.ltb (length portfolioReturns) 5 || Nat.ltb (length benchReturns) 5 then Err "need at least 5 aligned data points for benchmark comparison"
  else
    let n := Nat.min (length portfolioReturns) (length benchReturns) in
    let pReturns := take n portfolioReturns in
    let bReturns := take n benchReturns in
    let pMean := mean pReturns in
    let bMean := mean bReturns in
    let '(cov, var) := co_moment pMean bMean pReturns bReturns in
    let covPB := fdiv cov (fofZ (Z.of_nat n)) in
    let varB := fdiv var (fofZ (Z.of_nat n)) in
    let beta := if fltb f0 varB then fdiv covPB varB else f0 in
    let alpha := fsub (fmul pMean daysPerYear) (fmul beta (fmul bMean daysPerYear)) in
    let excess := zip_with fsub pReturns bReturns in
    let te := fmul (stddev excess) (fsqrt daysPerYear) in
    let ir := if fltb f0 te then fmul (fdiv (mean excess) (stddev excess)) (fsqrt daysPerYear) else f0 in
    let sdP := stddev pReturns in
    let sdB := stddev bReturns in
    let corr := if fltb f0 sdP && fltb f0 sdB then fdiv covPB (fmul sdP sdB) else f0 in
    let benchTotal := fsub (foldl (λ acc r, fmul acc (fadd f1 r)) f1 bReturns) f1 in
    Ok (mkBench benchmark benchTotal alpha beta ir te corr).

End risk.
Arguments riskMetrics F : clear implicits.
Arguments drawdownPeriod F : clear implicits.
Arguments drawdownData F : clear implicits.
Arguments dd_state F : clear implicits.
Arguments BenchmarkMetrics F : clear implicits.
Arguments benchPoint F : clear implicits.
Arguments BenchmarkService F : clear implicits.
Arguments bench_row F : clear implicits.
Arguments bench_response F : clear implicits.

End Risk.
