(* ===== verification/MetricsExact.v ===== *)
(** * The metrics over exact arithmetic

    What the loops of the drawdown, of the tail and of the benchmark compute,
    against their definitions, over the real numbers. *)

From S2P Require Import Prelude Num NumReal GoTime Types Returns Metrics Risk.
From stdpp Require Import base strings tactics sorting list.
From Stdlib Require Import ZArith Reals Lra Lia.
Import Returns Metrics Risk.
Local Open Scope R_scope.

Module MetricsExact.

(** ** Drawdown *)

(** The fall from [x] to [y]. *)
Definition fall (x y : R) : R := (x - y) / x.

Lemma fall_mono x p y : 0 < x → x <= p → 0 < y → fall x y <= fall p y.
Proof.
  intros Hx Hp Hy. unfold fall. replace ((x - y) / x) with (1 - y * / x) by (field; lra).
  replace ((p - y) / p) with (1 - y * / p) by (field; lra).
  assert (/ p <= / x) by (apply Rinv_le_contravar; lra). nra.
Qed.

Lemma fall_self x : fall x x = 0.
Proof. unfold fall, Rdiv. rewrite Rminus_diag. apply Rmult_0_l. Qed.

Lemma fall_nonpos x y : 0 < x → x <= y → fall x y <= 0.
Proof. intros Hx Hy. unfold fall, Rdiv. assert (0 < / x) by (by apply Rinv_0_lt_compat). nra. Qed.

(** What the loop knows of the navs it has read. *)
Record reads_navs (l : list R) (s : drawdown R) : Prop := {
  rn_idx : (0 <= dw_peakIdx s)%Z;
  rn_peak : l !! Z.to_nat (dw_peakIdx s) = Some (dw_peak s);
  rn_highest : Forall (λ x, x <= dw_peak s) l;
  rn_bound : ∀ (i j : nat) x y, (i <= j)%nat → l !! i = Some x → l !! j = Some y → fall x y <= dw_max s;
  rn_reached : dw_max s = 0 ∧ dw_duration s = 0%Z ∨
    ∃ (i j : nat) x y, (i <= j)%nat ∧ l !! i = Some x ∧ l !! j = Some y ∧ dw_max s = fall x y ∧ dw_duration s = (Z.of_nat j - Z.of_nat i)%Z;
  rn_nonneg : 0 <= dw_max s;
}.

(** The peak is raised, or not: the next nav is at most the peak. *)
Definition raise (i : Z) (nav : R) (s : drawdown R) : drawdown R :=
  if fltb (dw_peak s) nav then mkDrawdown nav i (dw_max s) (dw_duration s) else s.

Lemma raise_spec l s nav :
  reads_navs l s →
  let s1 := raise (Z.of_nat (length l)) nav s in
  (0 <= dw_peakIdx s1)%Z ∧ (l ++ [nav]) !! Z.to_nat (dw_peakIdx s1) = Some (dw_peak s1) ∧
  Forall (λ x, x <= dw_peak s1) (l ++ [nav]) ∧ dw_max s1 = dw_max s ∧ dw_duration s1 = dw_duration s.
Proof.
  intros [H1 H2 H3 H4 H5 H6]. unfold raise. destruct (fltb (dw_peak s) nav) eqn:E; R_tests; cbn [dw_peak dw_peakIdx dw_max dw_duration].
  - split_and!; [lia|rewrite Nat2Z.id; by apply list_lookup_middle| |done..]. apply Forall_app. split; [|apply Forall_singleton; lra].
    eapply Forall_impl; [done|]. intros x Hx. cbn in Hx. lra.
  - split_and!; [done|by apply lookup_app_l_Some| |done..]. apply Forall_app. split; [done|]. by apply Forall_singleton.
Qed.

Lemma lookup_snoc {A} (l : list A) x i y : (l ++ [x]) !! i = Some y → l !! i = Some y ∨ i = length l ∧ y = x.
Proof.
  intros H. apply lookup_app_Some in H as [H|[Hi H]]; [by left|]. right. destruct (i - length l)%nat eqn:E; [|done]. injection H as ->.
  split; [lia|done].
Qed.

Lemma reads_snoc l s nav :
  Forall (λ x, 0 < x) (l ++ [nav]) → reads_navs l s → reads_navs (l ++ [nav]) (drawdown_step (Z.of_nat (length l)) nav s).
Proof.
  intros Hpos Hs. destruct (raise_spec l s nav Hs) as (R1 & R2 & R3 & R4 & R5). destruct Hs as [_ _ _ H4 H5 H6].
  unfold drawdown_step. change (if fltb (dw_peak s) nav then _ else s) with (raise (Z.of_nat (length l)) nav s). cbn zeta.
  set (s1 := raise (Z.of_nat (length l)) nav s) in *. change (fdiv (fsub (dw_peak s1) nav) (dw_peak s1)) with (fall (dw_peak s1) nav).
  assert ((l ++ [nav]) !! length l = Some nav) as Hn by (by apply list_lookup_middle).
  assert (0 < nav) as Hnav by (by eapply (Forall_lookup_1 _ _ _ _ Hpos)).
  assert (∀ (i j : nat) x y, (i <= j)%nat → (l ++ [nav]) !! i = Some x → (l ++ [nav]) !! j = Some y →
    fall x y <= dw_max s ∨ fall x y <= fall (dw_peak s1) nav) as Hb.
  { intros i j x y Hij Hi Hj. pose proof (Forall_lookup_1 _ _ _ _ Hpos Hi) as Hx. pose proof (Forall_lookup_1 _ _ _ _ R3 Hi) as Hp.
    destruct (lookup_snoc _ _ _ _ Hj) as [Hj'|[-> ->]]; [|right; by apply fall_mono].
    left. apply lookup_app_Some in Hi as [Hi|[Hi _]]; [by eapply H4|]. apply lookup_lt_Some in Hj'. lia. }
  destruct (fltb (dw_max s1) (fall (dw_peak s1) nav)) eqn:Ed; R_tests; rewrite ?R4 in Ed; split;
    cbn [dw_peak dw_peakIdx dw_max dw_duration]; try done; try (rewrite R4); try lra.
  - intros i j x y Hij Hi Hj. destruct (Hb i j x y Hij Hi Hj); lra.
  - right. exists (Z.to_nat (dw_peakIdx s1)), (length l), (dw_peak s1), nav. split_and!; try done; [|by rewrite Z2Nat.id].
    apply lookup_lt_Some in R2. rewrite length_app in R2. cbn in R2. lia.
  - intros i j x y Hij Hi Hj. destruct (Hb i j x y Hij Hi Hj); lra.
  - rewrite R5. destruct H5 as [H5|(i & j & x & y & Hij & Hi & Hj & Hm)]; [by left|right]. exists i, j, x, y.
    split_and!; [done|by apply lookup_app_l_Some..|apply Hm|apply Hm].
Qed.

Lemma reads_from navs : ∀ l s,
  Forall (λ x, 0 < x) (l ++ navs) → reads_navs l s → reads_navs (l ++ navs) (drawdown_from (Z.of_nat (length l)) navs s).
Proof.
  induction navs as [|nav navs IH]; intros l s Hp Hs; cbn [drawdown_from]; [by rewrite app_nil_r|].
  rewrite cons_middle, app_assoc in Hp |- *. replace (Z.of_nat (length l) + 1)%Z with (Z.of_nat (length (l ++ [nav]))) by (rewrite length_app; cbn; lia).
  apply IH; [done|]. apply reads_snoc; [|done]. by apply Forall_app in Hp as [Hp _].
Qed.

Lemma drawdown_first nav0 : 0 < nav0 → drawdown_step 0 nav0 (mkDrawdown nav0 0 f0 0) = mkDrawdown nav0 0 f0 0.
Proof.
  intros H0. unfold drawdown_step. cbn [dw_peak dw_peakIdx dw_max dw_duration]. rewrite (proj2 (R_ltb_false nav0 nav0)) by lra.
  cbn [dw_peak dw_peakIdx dw_max dw_duration]. change (fdiv (fsub nav0 nav0) nav0) with (fall nav0 nav0). rewrite fall_self.
  by rewrite (proj2 (R_ltb_false f0 0)) by (rewrite R_f0; lra).
Qed.

Lemma reads_series nav0 navs :
  Forall (λ x, 0 < x) (nav0 :: navs) → reads_navs (nav0 :: navs) (drawdown_from 0 (nav0 :: navs) (mkDrawdown nav0 0 f0 0)).
Proof.
  intros Hp. assert (0 < nav0) as H0 by (by apply Forall_cons in Hp as [? _]). cbn [drawdown_from]. rewrite (drawdown_first nav0 H0).
  apply (reads_from navs [nav0]); [done|]. split; cbn; try done; try (rewrite R_f0; lra).
  - apply Forall_singleton. lra.
  - intros [|i] [|j] x y Hij Hi Hj; try done. injection Hi as <-. injection Hj as <-. rewrite fall_self. lra.
  - by left.
Qed.

(** C35: in exact (real) arithmetic, the maximum drawdown of a report is the
    deepest fall of its record.  For a series of positive net asset values the
    single pass over it computes what the definition asks for: no later value
    lies further below an earlier one than maxDD says, some pair reaches it,
    the duration is the distance of that pair, the current drawdown is the
    fall from the highest value to the last one, and
    0 <= current <= maximum < 1.  In float64, where the code runs, the falls
    are rounded, and one of more than 16 digits rounds to 1 ([fall_rounds]). *)
Theorem drawdown_is_deepest_fall nav0 navs maxDD duration currentDD :
  Forall (λ x, 0 < x) (nav0 :: navs) → analyzeDrawdownNAV (nav0 :: navs) = (maxDD, duration, currentDD) →
  (∀ (i j : nat) x y, (i <= j)%nat → (nav0 :: navs) !! i = Some x → (nav0 :: navs) !! j = Some y → fall x y <= maxDD) ∧
  (maxDD = 0 ∧ duration = 0%Z ∨
   ∃ (i j : nat) x y, (i <= j)%nat ∧ (nav0 :: navs) !! i = Some x ∧ (nav0 :: navs) !! j = Some y ∧ maxDD = fall x y ∧
     duration = (Z.of_nat j - Z.of_nat i)%Z) ∧
  (∃ peak, peak ∈ nav0 :: navs ∧ Forall (λ x, x <= peak) (nav0 :: navs) ∧ currentDD = fall peak (default 0 (last (nav0 :: navs)))) ∧
  0 <= currentDD <= maxDD ∧ maxDD < 1.
Proof.
  intros Hp H. pose proof (reads_series nav0 navs Hp) as [H1 H2 H3 H4 H5 H6]. unfold analyzeDrawdownNAV in H.
  set (s := drawdown_from 0 (nav0 :: navs) (mkDrawdown nav0 0 f0 0)) in *.
  destruct (last (nav0 :: navs)) as [z|] eqn:El; [|by apply last_None in El]. change (default f0 (Some z)) with z in H.
  change (default 0 (Some z)) with z. change (fdiv (fsub (dw_peak s) z) (dw_peak s)) with (fall (dw_peak s) z) in H. cbn zeta in H.
  pose proof (Forall_lookup_1 _ _ _ _ Hp H2) as Hpk. rewrite last_lookup in El. pose proof (Forall_lookup_1 _ _ _ _ H3 El) as Hz.
  cbn beta in Hpk, Hz. assert (0 <= fall (dw_peak s) z) as Hc.
  { unfold fall, Rdiv. assert (0 < / dw_peak s) by (by apply Rinv_0_lt_compat). nra. }
  rewrite (proj2 (R_ltb_false (fall (dw_peak s) z) f0)) in H by (rewrite R_f0; lra). injection H as <- <- <-. split_and!; try done.
  - exists (dw_peak s). split_and!; [by eapply list_elem_of_lookup_2|done|done].
  - eapply H4; [|exact H2|exact El]. apply lookup_lt_Some in H2. cbn in *. lia.
  - destruct H5 as [[-> _]|(i & j & x & y & _ & Hi & Hj & -> & _)]; [lra|].
    pose proof (Forall_lookup_1 _ _ _ _ Hp Hi). pose proof (Forall_lookup_1 _ _ _ _ Hp Hj). unfold fall.
    replace ((x - y) / x) with (1 - y * / x) by (field; lra). assert (0 < / x) by (by apply Rinv_0_lt_compat). nra.
Qed.

(** In float64, from 1 to 10^-17: the maximum drawdown is 1. *)
Lemma fall_rounds :
  (let '(maxDD, _, _) := analyzeDrawdownNAV (F := float64) [f1; fdiv f1 (fofZ (10 ^ 17))] in feqb maxDD f1) = true.
Proof. vm_compute. reflexivity. Qed.

(** ** The periods of a drawdown *)

Definition deepest (l : list (drawdownPeriod R)) : R := foldr (λ p m, Rmax (pe_depth p) m) 0 l.

Lemma deepest_cons p l : deepest (p :: l) = Rmax (pe_depth p) (deepest l).
Proof. done. Qed.

Lemma deepest_nonneg l : 0 <= deepest l.
Proof. induction l as [|p l IH]; [apply Rle_refl|]. rewrite deepest_cons. pose proof (Rmax_r (pe_depth p) (deepest l)). lra. Qed.

Lemma deepest_snoc l p : deepest (l ++ [p]) = Rmax (deepest l) (pe_depth p).
Proof. induction l as [|q l IH]; [apply Rmax_comm|]. rewrite <- app_comm_cons, !deepest_cons, IH. by rewrite Rmax_assoc. Qed.

Lemma deepest_elem l p : p ∈ l → pe_depth p <= deepest l.
Proof.
  induction l as [|q l IH]; [by intros ?%not_elem_of_nil|]. rewrite deepest_cons. intros [->|Hp]%elem_of_cons; [apply Rmax_l|].
  pose proof (Rmax_r (pe_depth q) (deepest l)). specialize (IH Hp). lra.
Qed.

Lemma deepest_reached l : deepest l = 0 ∨ ∃ p, p ∈ l ∧ pe_depth p = deepest l.
Proof.
  induction l as [|q l IH]; [by left|]. rewrite deepest_cons. unfold Rmax. destruct (Rle_dec _ _).
  - destruct IH as [->|(p & Hp & E)]; [by left|right]. exists p. split; [by right|done].
  - right. exists q. split; [by left|done].
Qed.

(** The two loops read the same navs in step. *)
Definition open_and_closed (s : dd_state R) : list (drawdownPeriod R) := st_periods s ++ option_list (st_current s).

Record in_step (d : drawdown R) (s : dd_state R) : Prop := {
  is_peak : st_peak s = dw_peak d;
  is_positive : 0 < dw_peak d;
  is_deepest : deepest (open_and_closed s) = dw_max d;
  is_depths : Forall (λ p, 0 < pe_depth p) (open_and_closed s);
}.

Lemma fall_pos x y : 0 < x → y < x → 0 < fall x y.
Proof. intros Hx Hy. unfold fall, Rdiv. assert (0 < / x) by (by apply Rinv_0_lt_compat). nra. Qed.

Lemma note_fall d x : (if fltb (dw_max d) x then x else dw_max d) = Rmax (dw_max d) x.
Proof. unfold Rmax. destruct (fltb _ _) eqn:Ef; R_tests; destruct (Rle_dec _ _); lra. Qed.

Lemma dw_step_below i nav d :
  nav <= dw_peak d → dw_peak (drawdown_step i nav d) = dw_peak d ∧ dw_max (drawdown_step i nav d) = Rmax (dw_max d) (fall (dw_peak d) nav).
Proof.
  intros Hle. unfold drawdown_step. rewrite (proj2 (R_ltb_false (dw_peak d) nav)) by done. cbn zeta.
  change (fdiv (fsub (dw_peak d) nav) (dw_peak d)) with (fall (dw_peak d) nav). rewrite <- note_fall. by destruct (fltb _ _).
Qed.

Lemma dw_step_above i nav d :
  dw_peak d < nav → 0 <= dw_max d → dw_peak (drawdown_step i nav d) = nav ∧ dw_max (drawdown_step i nav d) = dw_max d.
Proof.
  intros Hlt Hm. unfold drawdown_step. rewrite (proj2 (R_ltb (dw_peak d) nav)) by done. cbn [dw_peak dw_max].
  change (fdiv (fsub nav nav) nav) with (fall nav nav). rewrite fall_self. by rewrite (proj2 (R_ltb_false (dw_max d) 0)).
Qed.

Lemma in_step_next i j dr d s : 0 < dr_nav dr → in_step d s → in_step (drawdown_step i (dr_nav dr) d) (dd_step j dr s).
Proof.
  intros Hnav [H1 H2 H3 H4]. unfold dd_step. cbn zeta. rewrite H1. pose proof (deepest_nonneg (open_and_closed s)) as Hm. rewrite H3 in Hm.
  destruct (Rtotal_order (dr_nav dr) (dw_peak d)) as [Hlt|[Heq|Hgt]].
  - rewrite (proj2 (R_ltb_false (dw_peak d) _)), (proj2 (R_ltb (dr_nav dr) _)) by lra.
    destruct (dw_step_below i (dr_nav dr) d) as [P1 P2]; [lra|].
    change (fdiv (fsub (dw_peak d) (dr_nav dr)) (dw_peak d)) with (fall (dw_peak d) (dr_nav dr)).
    pose proof (fall_pos (dw_peak d) (dr_nav dr) H2 Hlt) as Hf. unfold open_and_closed in *.
    destruct (st_current s) as [p|]; cbn [option_list option_rect] in *; split; unfold open_and_closed; cbn [st_peak st_periods st_current option_list option_rect]; rewrite ?P1, ?P2; try done.
    + rewrite deepest_snoc in H3 |- *. cbn [pe_depth]. rewrite <- H3, <- Rmax_assoc. f_equal.
      unfold Rmax. destruct (fltb _ _) eqn:Ef; R_tests; destruct (Rle_dec _ _); lra.
    + apply Forall_app in H4 as [H4 H5]. apply Forall_cons in H5 as [H5 _]. apply Forall_app. split; [done|]. apply Forall_singleton. cbn [pe_depth].
      destruct (fltb _ _); [exact Hf|exact H5].
    + rewrite app_nil_r in H3. by rewrite deepest_snoc, H3.
    + rewrite app_nil_r in H4. apply Forall_app. split; [done|]. by apply Forall_singleton.
  - rewrite (proj2 (R_ltb_false (dw_peak d) _)), (proj2 (R_ltb_false (dr_nav dr) _)) by lra.
    destruct (dw_step_below i (dr_nav dr) d) as [P1 P2]; [lra|]. rewrite Heq, fall_self, Rmax_left in P2 by done. rewrite Heq in *.
    split; rewrite ?P1, ?P2; done.
  - rewrite (proj2 (R_ltb (dw_peak d) _)) by lra. destruct (dw_step_above i (dr_nav dr) d) as [P1 P2]; [lra|done|].
    unfold open_and_closed in *. destruct (st_current s) as [p|]; cbn [option_list option_rect] in *;
      split; unfold open_and_closed; cbn [st_peak st_periods st_current option_list option_rect]; rewrite ?P1, ?P2, ?app_nil_r in *; try done; try lra.
    + rewrite deepest_snoc in H3 |- *. exact H3.
    + apply Forall_app in H4 as [H4 H5]. apply Forall_cons in H5 as [H5 _]. apply Forall_app. split; [done|]. by apply Forall_singleton.
Qed.

Lemma in_step_from daily : ∀ i j d s,
  Forall (λ dr, 0 < dr_nav dr) daily → in_step d s → in_step (drawdown_from i (dr_nav <$> daily) d) (dd_from j daily s).
Proof.
  induction daily as [|dr daily IH]; intros i j d s Hp Hs; [done|]. rewrite fmap_cons. cbn [drawdown_from dd_from].
  apply Forall_cons in Hp as [H1 H2]. apply IH; [done|]. by apply in_step_next.
Qed.

Lemma last_five_sub (l : list (drawdownPeriod R)) p : p ∈ last_five l → p ∈ l.
Proof.
  unfold last_five. destruct (Nat.ltb _ _); [|done]. intros H. rewrite <- (take_drop (length l - 5) l). apply elem_of_app. by right.
Qed.

Lemma last_five_all (l : list (drawdownPeriod R)) : (length (last_five l) < 5)%nat → last_five l = l.
Proof. unfold last_five. destruct (Nat.ltb_spec 5 (length l)); [|done]. rewrite length_drop. lia. Qed.

(** The two drawdowns that are signed side by side agree.  On a record of positive values the current drawdown of
    the drawdown section is the one of the metrics, every period listed is a real fall no deeper than the maximum
    drawdown, and when the list was not cut to its last five periods one of them is the maximum drawdown. *)
Theorem drawdowns_agree daily maxDD duration currentDD :
  daily ≠ [] → Forall (λ dr, 0 < dr_nav dr) daily →
  analyzeDrawdownNAV (f1 :: (dr_nav <$> daily)) = (maxDD, duration, currentDD) →
  let data := calculateDrawdownData daily in
  da_currentDrawdown data = currentDD ∧
  (∀ p, p ∈ da_periods data → 0 < pe_depth p <= maxDD) ∧
  ((length (da_periods data) < 5)%nat → maxDD = 0 ∨ ∃ p, p ∈ da_periods data ∧ pe_depth p = maxDD).
Proof.
  intros Hne Hp H data. assert (0 < f1) as H1 by (rewrite R_f1; lra).
  assert (in_step (mkDrawdown f1 0 f0 0) (mkDD [] None f1 0 (-1))) as H0 by (split; done).
  pose proof (rn_highest _ _ (reads_series f1 (dr_nav <$> daily) ltac:(constructor; [done|by apply Forall_fmap]))) as Hh.
  apply (in_step_from daily 1 0 _ _ Hp) in H0. unfold analyzeDrawdownNAV in H. cbn [drawdown_from] in H, Hh. rewrite (drawdown_first f1 H1) in H, Hh.
  change (0 + 1)%Z with 1%Z in H, Hh. set (d := drawdown_from 1 _ _) in *. unfold data, calculateDrawdownData.
  set (s := dd_from 0 daily _) in *. destruct H0 as [I1 I2 I3 I4].
  destruct (last daily) as [z|] eqn:El; [|by apply last_None in El]. cbn zeta. rewrite last_cons, fmap_last, El in H.
  change (default f0 match dr_nav <$> Some z with Some y => Some y | None => Some f1 end) with (dr_nav z) in H. cbn zeta in H.
  change (fdiv (fsub (dw_peak d) (dr_nav z)) (dw_peak d)) with (fall (dw_peak d) (dr_nav z)) in H.
  assert (dr_nav z <= dw_peak d) as Hz.
  { rewrite last_lookup in El. apply Forall_cons in Hh as [_ Hh]. apply (Forall_lookup_1 _ _ (Init.Nat.pred (length daily)) _ Hh). by rewrite list_lookup_fmap, El. }
  cbn [da_currentDrawdown da_periods]. rewrite I1, (proj2 (R_ltb f0 (dw_peak d))) by (rewrite R_f0; lra). cbn [andb].
  change (fdiv (fsub (dw_peak d) (dr_nav z)) (dw_peak d)) with (fall (dw_peak d) (dr_nav z)).
  assert ((if fltb (fall (dw_peak d) (dr_nav z)) f0 then f0 else fall (dw_peak d) (dr_nav z)) =
          (if fltb (dr_nav z) (dw_peak d) then fall (dw_peak d) (dr_nav z) else f0)) as Ec.
  { destruct (fltb (dr_nav z) (dw_peak d)) eqn:Ez; R_tests.
    - pose proof (fall_pos _ _ I2 Ez). by rewrite (proj2 (R_ltb_false _ f0)) by (rewrite R_f0; lra).
    - replace (dr_nav z) with (dw_peak d) by lra. rewrite fall_self. by rewrite (proj2 (R_ltb_false 0 f0)) by (rewrite R_f0; lra). }
  rewrite Ec in H. clear Ec. assert (maxDD = dw_max d) as -> by congruence.
  assert (currentDD = if fltb (dr_nav z) (dw_peak d) then fall (dw_peak d) (dr_nav z) else f0) as -> by congruence. fold (open_and_closed s). split; [done|]. split.
  - intros p Hp'%last_five_sub. rewrite <- I3. split; [|by apply deepest_elem]. rewrite Forall_forall in I4. by apply I4.
  - intros Hl%last_five_all. rewrite Hl, <- I3. apply deepest_reached.
Qed.

(** ** The tail *)

Lemma float_insert_perm (x : R) l : float_insert x l ≡ₚ x :: l.
Proof. induction l as [|y l IH]; cbn [float_insert]; [done|]. destruct (float_less y x); [|done]. rewrite IH. apply Permutation_swap. Qed.

Lemma Float64s_perm (l : list R) : Float64s l ≡ₚ l.
Proof. unfold Float64s. induction l as [|x l IH]; cbn; [done|]. by rewrite float_insert_perm, IH. Qed.

Lemma float_less_R (x y : R) : float_less x y = fltb x y.
Proof. unfold float_less. cbn [fis_nan num_R andb]. apply orb_false_r. Qed.

Lemma float_insert_sorted (x : R) l : StronglySorted Rle l → StronglySorted Rle (float_insert x l).
Proof.
  induction 1 as [|y l Hl IH Hy]; cbn [float_insert]; [by repeat constructor|]. rewrite float_less_R. destruct (fltb y x) eqn:Ef; R_tests.
  - constructor; [done|]. rewrite float_insert_perm. constructor; [lra|done].
  - constructor; [by constructor|]. constructor; [done|]. eapply Forall_impl; [done|]. intros z Hz. lra.
Qed.

Lemma Float64s_sorted (l : list R) : StronglySorted Rle (Float64s l).
Proof. unfold Float64s. induction l as [|x l IH]; cbn; [constructor|]. by apply float_insert_sorted. Qed.

Lemma sorted_lookup (l : list R) i j x y : StronglySorted Rle l → (i <= j)%nat → l !! i = Some x → l !! j = Some y → x <= y.
Proof.
  intros Hs. revert i j. induction Hs as [|z l Hl IH Hz]; intros [|i] [|j] Hij Hi Hj; try done; try lia.
  - injection Hi as <-. injection Hj as <-. lra.
  - injection Hi as <-. by eapply (Forall_lookup_1 _ _ _ _ Hz).
  - cbn in Hi, Hj. eapply (IH i j); [lia|done..].
Qed.

Lemma Int_part_mono x y : x <= y → (Int_part x <= Int_part y)%Z.
Proof.
  intros H. destruct (base_Int_part x) as [H1 H2], (base_Int_part y) as [H3 H4]. apply Z.lt_succ_r, lt_IZR. rewrite succ_IZR. lra.
Qed.

Lemma percentile_mono n (p q : R) : 0 <= p → p <= q → (percentile_index n p <= percentile_index n q)%nat.
Proof.
  intros Hp Hq. unfold percentile_index. cbn zeta. cbn [ftrunc fmul fofZ num_R]. pose proof (pos_INR n) as Hn. rewrite INR_IZR_INZ in Hn.
  assert (∀ r, 0 <= r → R_trunc (IZR (Z.of_nat n) * r) = Int_part (IZR (Z.of_nat n) * r)) as Ht.
  { intros r Hr. unfold R_trunc. destruct (Rlt_dec _ _); [nra|done]. }
  rewrite !Ht by lra. assert (Int_part (IZR (Z.of_nat n) * p) <= Int_part (IZR (Z.of_nat n) * q))%Z by (apply Int_part_mono; nra).
  destruct (Nat.leb_spec n (Z.to_nat (Int_part (IZR (Z.of_nat n) * p)))), (Nat.leb_spec n (Z.to_nat (Int_part (IZR (Z.of_nat n) * q)))); lia.
Qed.

Lemma percentile_bound n (p : R) : (0 < n)%nat → (percentile_index n p < n)%nat.
Proof. intros H. unfold percentile_index. cbn zeta. destruct (Nat.leb_spec n (Z.to_nat (ftrunc (fmul (fofZ (Z.of_nat n)) p)))); lia. Qed.

(** The returns at or below the threshold, summed. *)
Lemma tail_sum_spec (threshold worst : R) (l : list R) : ∀ (s : R) (k : Z), Forall (λ r, worst <= r) l →
  ∃ s' k', foldl (λ '(sum, n) r, if fleb r threshold then (fadd sum r, (n + 1)%Z) else (sum, n)) (s, k) l = (s + s', (k + k')%Z) ∧
    (0 <= k')%Z ∧ worst * IZR k' <= s' <= threshold * IZR k' ∧ ((∃ r, r ∈ l ∧ r <= threshold) → (0 < k')%Z).
Proof.
  induction l as [|r l IH]; intros s k Hw; cbn [foldl].
  - exists 0, 0%Z. rewrite Rplus_0_r, Z.add_0_r. split_and!; [done|done|lra|lra|]. intros (r & Hr & _). by apply not_elem_of_nil in Hr.
  - apply Forall_cons in Hw as [Hr Hw]. destruct (fleb r threshold) eqn:Ef; R_tests.
    + destruct (IH (s + r) (k + 1)%Z Hw) as (s' & k' & Hf & Hk & [B1 B2] & _). exists (r + s'), (1 + k')%Z.
      rewrite plus_IZR. change (fadd s r) with (s + r). rewrite Hf. split_and!; [f_equal; [lra|lia]|lia|lra|lra|lia].
    + destruct (IH s k Hw) as (s' & k' & Hf & Hk & Hb & Hp). exists s', k'. split_and!; [done|done|apply Hb|apply Hb|].
      intros (x & [->|Hx]%elem_of_cons & Hle); [lra|]. apply Hp. by exists x.
Qed.

(** The tail figures of a report are coherent.  Over five returns or more the loss at 99% is at least the loss at
    95%, the expected shortfall is at least the loss at 95%, and neither exceeds the worst day of the record. *)
Theorem tail_coherent returns worst :
  (5 <= length returns)%nat → Forall (λ r, worst <= r) returns →
  let m := calculateRiskMetrics returns in
  ri_var95 m <= ri_var99 m <= - worst ∧ ri_var95 m <= ri_expectedShortfall m <= - worst.
Proof.
  intros Hl Hw. unfold calculateRiskMetrics. destruct (Nat.ltb_spec (length returns) 5); [lia|]. cbn zeta.
  set (sorted := Float64s returns). assert (length sorted = length returns) as Hn by (by unfold sorted; rewrite Float64s_perm).
  assert (Forall (λ r, worst <= r) sorted) as Hws by (by unfold sorted; rewrite Float64s_perm).
  pose proof (Float64s_sorted returns) as Hs. fold sorted in Hs. assert (0 < length sorted)%nat as Hpos by lia.
  destruct (lookup_lt_is_Some_2 sorted _ (percentile_bound (length sorted) (flit 5 2) Hpos)) as [t Ht].
  destruct (lookup_lt_is_Some_2 sorted _ (percentile_bound (length sorted) (flit 1 2) Hpos)) as [u Hu]. rewrite Ht, Hu.
  change (default f0 (Some t)) with t. change (default f0 (Some u)) with u.
  assert (u <= t) as Hut.
  { eapply (sorted_lookup sorted _ _ u t Hs); [|exact Hu|exact Ht]. apply percentile_mono; unfold flit; change (10 ^ 2)%Z with 100%Z; cbn [fdiv fofZ num_R]; lra. }
  pose proof (Forall_lookup_1 _ _ _ _ Hws Hu) as Hwu. cbn beta in Hwu.
  destruct (tail_sum_spec t worst sorted f0 0 Hws) as (s' & k' & Hf & Hk & [B1 B2] & Hp).
  unfold tail_sum. rewrite Hf, R_f0, Rplus_0_l, Z.add_0_l.
  assert (0 < k')%Z as Hk' by (apply Hp; exists t; split; [by eapply list_elem_of_lookup_2|lra]).
  destruct (Z.ltb_spec 0 k'); [|lia]. cbn [ri_var95 ri_var99 ri_expectedShortfall fopp fdiv fofZ num_R].
  assert (0 < IZR k') as Hk0 by (by apply IZR_lt). split; [lra|]. unfold Rdiv.
  assert (0 < / IZR k') as Hi by (by apply Rinv_0_lt_compat). 
  assert (s' * / IZR k' <= t * IZR k' * / IZR k') by (apply Rmult_le_compat_r; lra).
  assert (worst * IZR k' * / IZR k' <= s' * / IZR k') by (apply Rmult_le_compat_r; lra).
  rewrite !Rmult_assoc, !Rinv_r, !Rmult_1_r in * by lra. lra.
Qed.

(** ** The benchmark *)

(** Sums of products of two series about their means. *)
Definition products (a b : R) (l : list (R * R)) : R := foldr (λ '(x, y) s, (x - a) * (y - b) + s) 0 l.

Lemma products_cons a b x y l : products a b ((x, y) :: l) = (x - a) * (y - b) + products a b l.
Proof. done. Qed.

Lemma products_nil a b : products a b [] = 0.
Proof. done. Qed.

Lemma co_moment_spec a b (p q : list R) :
  co_moment a b p q = (products a b (zip p q), products b b (zip q q)) ∨ length p ≠ length q.
Proof.
  destruct (decide (length p = length q)) as [Hl|]; [left|by right]. unfold co_moment.
  assert (∀ c v, foldl (λ '(cov, var) '(x, y), (fadd cov (fmul (fsub x a) (fsub y b)), fadd var (fmul (fsub y b) (fsub y b)))) (c, v) (zip p q) =
    (c + products a b (zip p q), v + products b b (zip q q))) as H.
  { revert q Hl. induction p as [|x p IH]; intros [|y q] Hl c v; try done; cbn [zip zip_with foldl].
    - by rewrite !products_nil, !Rplus_0_r.
    - injection Hl as Hl. rewrite IH by done. rewrite !products_cons. cbn [fadd fmul fsub num_R]. by rewrite !Rplus_assoc. }
  rewrite H, R_f0. by rewrite !Rplus_0_l.
Qed.

Lemma sum_squares_products a (p : list R) : sum_squares a p = products a a (zip p p).
Proof.
  unfold sum_squares. assert (∀ s, foldl (λ acc v, fadd acc (fmul (fsub v a) (fsub v a))) s p = s + products a a (zip p p)) as H.
  { induction p as [|x p IH]; intros s; cbn [foldl zip zip_with]; [by rewrite products_nil, Rplus_0_r|]. rewrite IH, products_cons.
    cbn [fadd fmul fsub num_R]. lra. }
  rewrite H, R_f0. apply Rplus_0_l.
Qed.

Lemma products_nonneg a (p : list R) : 0 <= products a a (zip p p).
Proof. induction p as [|x p IH]; cbn [zip zip_with]; [rewrite products_nil; lra|]. rewrite products_cons. pose proof (Rle_0_sqr (x - a)). unfold Rsqr in *. lra. Qed.

(** Cauchy and Schwarz: the quadratic in [t] is a sum of squares. *)
Lemma products_quadratic a b t (p q : list R) :
  length p = length q → 0 <= products a a (zip p p) - 2 * t * products a b (zip p q) + t * t * products b b (zip q q).
Proof.
  revert q. induction p as [|x p IH]; intros [|y q] Hl; try done; cbn [zip zip_with]; [rewrite !products_nil; lra|]. injection Hl as Hl.
  specialize (IH q Hl). rewrite !products_cons. pose proof (Rle_0_sqr ((x - a) - t * (y - b))). unfold Rsqr in *. lra.
Qed.

Lemma cauchy_schwarz a b (p q : list R) :
  length p = length q → 0 < products b b (zip q q) →
  products a b (zip p q) * products a b (zip p q) <= products a a (zip p p) * products b b (zip q q).
Proof.
  intros Hl Hq. set (B := products b b (zip q q)) in *. set (C := products a b (zip p q)). pose proof (products_quadratic a b (C / B) p q Hl) as H.
  fold B C in H. set (Aa := products a a (zip p p)) in *. assert (0 <= (Aa - 2 * (C / B) * C + C / B * (C / B) * B) * B) as H' by nra.
  replace ((Aa - 2 * (C / B) * C + C / B * (C / B) * B) * B) with (Aa * B - C * C) in H' by (field; lra). lra.
Qed.

Definition spread (p : list R) : R := products (mean p) (mean p) (zip p p).

Lemma stddev_spread (p : list R) : (2 <= length p)%nat → stddev p = sqrt (spread p / (INR (length p) - 1)).
Proof.
  intros Hl. destruct p as [|x [|y p]]; cbn [length] in Hl; [lia..|]. unfold stddev. rewrite sum_squares_products. unfold spread.
  cbn [fsqrt fdiv fofZ num_R]. rewrite minus_IZR, <- INR_IZR_INZ. done.
Qed.

Lemma spread_sqrt_mult (p q : R) N1 : 0 <= p → 0 <= q → 0 < N1 → sqrt (p / N1) * sqrt (q / N1) = sqrt (p * q) / N1.
Proof.
  intros Hp Hq HN. rewrite !sqrt_div_alt, sqrt_mult by lra. pose proof (sqrt_lt_R0 N1 HN).
  transitivity (sqrt p * sqrt q / (sqrt N1 * sqrt N1)); [field; lra|]. by rewrite sqrt_sqrt by lra.
Qed.

Lemma stddev_pos (p : list R) : (2 <= length p)%nat → fltb f0 (stddev p) = true ↔ 0 < spread p.
Proof.
  intros Hl. rewrite R_ltb, R_f0, (stddev_spread p Hl). assert (0 < INR (length p) - 1) as Hn by (apply (le_INR 2) in Hl; cbn in Hl; lra). split.
  - intros H. destruct (Rle_lt_dec (spread p) 0) as [Hs|]; [|done]. exfalso.
    assert (spread p = 0) as E by (apply Rle_antisym; [done|apply products_nonneg]). rewrite E in H. unfold Rdiv in H. rewrite Rmult_0_l, sqrt_0 in H. lra.
  - intros H. by apply sqrt_lt_R0, Rdiv_lt_0_compat.
Qed.

(** The correlation the code computes: covariance over [n], deviations over [n - 1]. *)
Lemma correlation_spec (p b : list R) name m :
  length p = length b → CalculateFromSeries p b name = Ok m →
  (5 <= length p)%nat ∧
  (be_Correlation m = 0 ∧ ¬ (0 < spread p ∧ 0 < spread b) ∨
   0 < spread p ∧ 0 < spread b ∧
   be_Correlation m = products (mean p) (mean b) (zip p b) / sqrt (spread p * spread b) * ((INR (length p) - 1) / INR (length p))).
Proof.
  intros Hl. unfold CalculateFromSeries. destruct (Nat.ltb_spec (length p) 5) as [|H5]; [done|]. destruct (Nat.ltb (length b) 5); [done|].
  cbn [orb]. cbn zeta. rewrite <- Hl, Nat.min_id, firstn_all. replace (take (length p) b) with b by (by rewrite Hl, firstn_all).
  destruct (co_moment_spec (mean p) (mean b) p b) as [->|]; [|done]. intros H.
  apply (f_equal (λ r, match r with Ok x => be_Correlation x | Err _ => 0 end)) in H. cbn beta iota in H. cbn [be_Correlation] in H. rewrite <- H.
  clear H. split; [done|].
  assert ((fltb f0 (stddev p) && fltb f0 (stddev b)) = true ↔ 0 < spread p ∧ 0 < spread b) as Hsd by (rewrite andb_true_iff, !stddev_pos by lia; done).
  destruct (fltb f0 (stddev p) && fltb f0 (stddev b)); [|left; split; [done|]; by rewrite <- Hsd]. right.
  destruct (proj1 Hsd eq_refl) as [Ep Eb]. split; [done|]. split; [done|]. rewrite !stddev_spread, <- Hl by lia. cbn [fdiv fmul fofZ num_R].
  rewrite <- INR_IZR_INZ. assert (5 <= INR (length p)) as Hn by (apply (le_INR 5) in H5; cbn in H5; lra).
  rewrite spread_sqrt_mult by lra. pose proof (sqrt_lt_R0 (spread p * spread b) ltac:(nra)). field. lra.
Qed.

(** The correlation printed in a report never reaches one. *)
Theorem correlation_bounded (p b : list R) name m :
  length p = length b → CalculateFromSeries p b name = Ok m →
  Rabs (be_Correlation m) <= (INR (length p) - 1) / INR (length p).
Proof.
  intros Hl (H5 & Hc)%correlation_spec; [|done]. assert (5 <= INR (length p)) as Hn by (apply (le_INR 5) in H5; cbn in H5; lra).
  assert (0 <= (INR (length p) - 1) / INR (length p)) as Hr.
  { unfold Rdiv. assert (0 < / INR (length p)) by (apply Rinv_0_lt_compat; lra). nra. }
  destruct Hc as [[-> _]|(Hp & Hb & ->)]; [by rewrite Rabs_R0|]. rewrite Rabs_mult, (Rabs_pos_eq _ Hr).
  rewrite <- (Rmult_1_l ((INR (length p) - 1) / INR (length p))) at 2. apply Rmult_le_compat_r; [done|].
  pose proof (cauchy_schwarz (mean p) (mean b) p b Hl Hb) as Hcs. fold (spread p) (spread b) in Hcs.
  assert (0 < sqrt (spread p * spread b)) as Hs by (apply sqrt_lt_R0; nra). unfold Rdiv. rewrite Rabs_mult, Rabs_inv, (Rabs_pos_eq (sqrt _)) by lra.
  apply (Rmult_le_reg_r (sqrt (spread p * spread b))); [done|]. rewrite Rmult_assoc, Rinv_l, Rmult_1_r, Rmult_1_l by lra.
  rewrite <- sqrt_Rsqr_abs. apply sqrt_le_1_alt. exact Hcs.
Qed.

Lemma excess_self (p : list R) : zip_with fsub p p = replicate (length p) 0.
Proof. induction p as [|x p IH]; [done|]. cbn [zip_with length replicate]. rewrite IH. f_equal. cbn [fsub num_R]. lra. Qed.

Lemma fsum_zeros n : fsum (replicate n (0 : R)) = 0.
Proof.
  unfold fsum. assert (∀ s, foldl fadd s (replicate n (0 : R)) = s) as H; [|by rewrite H].
  induction n as [|n IH]; intros s; cbn [replicate foldl]; [done|]. rewrite IH. cbn. lra.
Qed.

Lemma mean_zeros n : mean (replicate n (0 : R)) = 0.
Proof.
  destruct n as [|n]; [done|]. unfold mean. cbn [replicate]. change (0 :: replicate n 0) with (replicate (S n) 0). rewrite fsum_zeros.
  cbn [fdiv num_R]. unfold Rdiv. apply Rmult_0_l.
Qed.

Lemma stddev_zeros n : (2 <= n)%nat → stddev (replicate n (0 : R)) = 0.
Proof.
  intros Hn. rewrite stddev_spread by (by rewrite length_replicate). unfold spread. rewrite mean_zeros.
  assert (∀ k, products 0 0 (zip (replicate k 0) (replicate k 0)) = 0) as ->.
  { intros k. induction k as [|k IH]; cbn [replicate zip zip_with]; [done|]. rewrite products_cons, IH. lra. }
  unfold Rdiv. rewrite Rmult_0_l. apply sqrt_0.
Qed.

(** A portfolio compared with itself.  Against its own series, of five days or more and not constant, a record has
    a beta of one, no alpha, no tracking error and no information ratio; the correlation the code reports, though, is
    (n - 1) / n and not one, because the covariance is divided by n and the deviations by n - 1. *)
Theorem benchmark_of_itself (p : list R) name m :
  CalculateFromSeries p p name = Ok m → 0 < spread p →
  be_Beta m = 1 ∧ be_Alpha m = 0 ∧ be_TrackingError m = 0 ∧ be_InformationRatio m = 0 ∧
  be_Correlation m = (INR (length p) - 1) / INR (length p).
Proof.
  intros H Hs. pose proof (correlation_spec p p name m eq_refl H) as (H5 & Hc).
  assert (5 <= INR (length p)) as Hn by (apply (le_INR 5) in H5; cbn in H5; lra).
  unfold CalculateFromSeries in H. destruct (Nat.ltb_spec (length p) 5); [lia|]. cbn [orb] in H. cbn zeta in H. rewrite Nat.min_id, firstn_all in H.
  destruct (co_moment_spec (mean p) (mean p) p p) as [E|]; [|done]. rewrite E, excess_self, stddev_zeros, mean_zeros in H by lia. clear E.
  fold (spread p) in H. cbn [fdiv fofZ num_R] in H. rewrite <- INR_IZR_INZ in H.
  assert (0 < spread p / INR (length p)) as Hv by (by apply Rdiv_lt_0_compat; lra).
  rewrite (proj2 (R_ltb f0 (spread p / INR (length p)))) in H by (by rewrite R_f0). cbn [fmul fsub fsqrt num_R] in H.
  replace (spread p / INR (length p) / (spread p / INR (length p))) with 1 in H by (field; lra). rewrite Rmult_0_l in H.
  rewrite (proj2 (R_ltb_false f0 0)) in H by (rewrite R_f0; lra). destruct Hc as [[_ Hc]|(_ & _ & Hc)]; [by destruct Hc|].
  split_and!.
  1-4: apply (f_equal (λ r, match r with Ok x => x | Err _ => m end)) in H; cbn beta iota in H; rewrite <- H;
    cbn [be_Beta be_Alpha be_TrackingError be_InformationRatio]; cbn; lra.
  rewrite Hc. fold (spread p). rewrite sqrt_square by lra. field. lra.
Qed.

(** ** Samples *)

Lemma drawdown_is_deepest_fall_witness :
  ∃ maxDD duration currentDD, analyzeDrawdownNAV [1; 2; 1] = (maxDD, duration, currentDD) ∧ 1 / 2 <= maxDD < 1.
Proof.
  destruct (analyzeDrawdownNAV [1; 2; 1]) as [[m d] c] eqn:E. exists m, d, c. split; [reflexivity|].
  destruct (drawdown_is_deepest_fall 1 [2; 1] m d c) as (H & _ & _ & _ & H1); [repeat constructor; lra|exact E|].
  split; [|exact H1]. specialize (H 1%nat 2%nat 2 1 ltac:(lia) eq_refl eq_refl). unfold fall in H. lra.
Defined.

Definition sample_days : list (dailyReturn R) := [mkDaily 1 1 0 1 1 2; mkDaily 2 (- (1 / 2)) 0 (- (1 / 2)) 0 1].

Lemma drawdowns_agree_witness :
  ∃ maxDD duration currentDD, analyzeDrawdownNAV (f1 :: (dr_nav <$> sample_days)) = (maxDD, duration, currentDD) ∧
    da_currentDrawdown (calculateDrawdownData sample_days) = currentDD.
Proof.
  destruct (analyzeDrawdownNAV (f1 :: (dr_nav <$> sample_days))) as [[m d] c] eqn:E. exists m, d, c. split; [reflexivity|].
  destruct (drawdowns_agree sample_days m d c) as (H & _); [discriminate|repeat constructor; cbn; lra|exact E|exact H].
Defined.

Lemma tail_coherent_witness :
  let m := calculateRiskMetrics [1; -3; 2; -1; 0] in ri_var95 m <= ri_expectedShortfall m <= 3.
Proof.
  destruct (tail_coherent [1; -3; 2; -1; 0] (-3)) as (_ & H1 & H2); [cbn; lia|repeat constructor; lra|]. cbn zeta.
  split; [exact H1|]. replace 3 with (- -3) by lra. exact H2.
Defined.

Lemma benchmark_of_itself_witness :
  ∃ m, CalculateFromSeries [0; 1; 0; 1; 0] [0; 1; 0; 1; 0] "b" = Ok m ∧ be_Beta m = 1 ∧ be_Correlation m = (5 - 1) / 5.
Proof.
  destruct (CalculateFromSeries [0; 1; 0; 1; 0] [0; 1; 0; 1; 0] "b") as [m|] eqn:E.
  - destruct (benchmark_of_itself [0; 1; 0; 1; 0] "b" m) as (H1 & _ & _ & _ & H2); [exact E| |].
    + unfold spread. set (a := mean _). cbn [zip zip_with]. rewrite !products_cons, products_nil.
      clearbody a. pose proof (Rle_0_sqr (2 * a - 1)). unfold Rsqr in *. nra.
    + exists m. split; [reflexivity|]. split; [exact H1|]. rewrite H2. cbn. lra.
  - exfalso. unfold CalculateFromSeries in E. cbn [length Nat.ltb Nat.leb orb] in E. by destruct (co_moment _ _ _ _).
Defined.

End MetricsExact.
