(* ===== verification/Report.v ===== *)
(** * The signed report (internal/service/report.go, report_currency.go, internal/repository/signed_report.go)

    GenerateReport from the stored snapshots to the signature: the currency
    of the report, the labels of its days, the optional sections and the
    cache of signed reports.  JSON of a report, the benchmark service and the
    metadata of the exchanges are parameters. *)

From S2P Require Import Prelude Num GoTime Types Store Window Fx Returns Json Signing Metrics Risk.
From stdpp Require Import base gmap strings pretty tactics sorting list.
From Stdlib Require Import ZArith Lia.
Import Json Signing Returns Metrics Risk.
Local Open Scope Z_scope.

Module Report.

(** ** The currency *)

Definition fxTailGrace : duration := 7 * 24 * Hour.

Definition reportCurrency (c : string) : string :=
  let c := ToUpper (TrimSpace c) in if String.eqb c "" then "USD" else c.

Section report.
Context {F : Type} {NF : Num F} {PF : Pow F} {JF : JsonNumber F} {C : Crypto}.

Abbreviation fxRates := (gmap string (gmap string F)).

(** [fx] is nil without a benchmark service; the zero time is no bound. *)
Definition loadReportRates (fx : option (@Fx.fx_source F)) (ccy : string) (snapshots : list (Snapshot F)) (start end_ : time)
  : res fxRates :=
  if negb (existsb (String.eqb ccy) Fx.fxConvertible) then Err ("report currency not supported: " +:+ ccy)
  else match fx, snapshots, last snapshots with
  | None, _, _ => Err ("report in " +:+ ccy +:+ ": fx service not available")
  | Some src, s0 :: _, Some s1 =>
      let from := Fx.storedMeasuredOn (sn_Exchange s0) (sn_Timestamp s0) in
      let to := truncDay (sn_Timestamp s1) in
      let from := if negb (IsZero start) && Before (truncDay start) from then truncDay start else from in
      let to := if negb (IsZero end_) && After (truncDay end_) to then truncDay end_ else to in
      Fx.loadFXRates src [ccy] from to ∅
  | Some _, _, _ => Ok ∅
  end.

Definition snapshotRate (snap : Snapshot F) (rates : fxRates) (ccy : string) : option F :=
  let fallback := Fx.rate rates ccy (Fx.storedMeasuredOn (sn_Exchange snap) (sn_Timestamp snap)) in
  match Fx.global_of snap with
  | Some g => if fltb f0 (mm_FXRateToUSD g) && EqualFold (mm_NativeCurrency g) ccy then Some (mm_FXRateToUSD g) else fallback
  | None => fallback
  end.

Definition in_currency (r : F) (s : Snapshot F) : Snapshot F :=
  mkSnapshot (sn_ID s) (sn_UserUID s) (sn_Exchange s) (sn_Label s) (sn_Timestamp s) (fdiv (sn_TotalEquity s) r) (fdiv (sn_RealizedBalance s) r)
    (fdiv (sn_UnrealizedPnL s) r) (fdiv (sn_Deposits s) r) (fdiv (sn_Withdrawals s) r) (sn_TotalTrades s) (fdiv (sn_TotalVolume s) r)
    (fdiv (sn_TotalFees s) r) (sn_Breakdown s) (sn_IsHistorical s) (sn_FromExternalRebuilder s).

Definition beforeDay (snapshots : list (Snapshot F)) (day : time) : list (Snapshot F) :=
  filter (λ s, Before (truncDay (sn_Timestamp s)) day = true) snapshots.

(** The loop, [out] holding the rows already valued. *)
Fixpoint in_currency_from (snapshots : list (Snapshot F)) (rates : fxRates) (ccy : string) (now : time) (out : list (Snapshot F))
  : res (list (Snapshot F)) :=
  match snapshots with
  | [] => Ok out
  | snap :: rest =>
      match snapshotRate snap rates ccy with
      | None =>
          let cut := truncDay (sn_Timestamp snap) in
          if fxTailGrace <? Sub now cut then
            Err ("no final exchange rate for " +:+ ccy +:+ " on " +:+ Fx.dayKey (Fx.storedMeasuredOn (sn_Exchange snap) (sn_Timestamp snap)))
          else Ok (beforeDay out cut)
      | Some r => in_currency_from rest rates ccy now (out ++ [in_currency r snap])
      end
  end.

Definition snapshotsInCurrency (snapshots : list (Snapshot F)) (rates : fxRates) (ccy : string) (now : time) : res (list (Snapshot F)) :=
  in_currency_from snapshots rates ccy now [].

Definition benchPointsIn (points : list (benchPoint F)) (rates : fxRates) (ccy : string) : list (benchPoint F) :=
  omap (λ p, day ← ParseDate (bp_date p); r ← Fx.rate rates ccy day; Some (mkPoint (bp_date p) (fdiv (bp_close p) r))) points.

Definition dailyReturnsIn (s : BenchmarkService F) (benchmark : string) (startDate endDate : time) (rates : fxRates) (ccy : string)
  : res (gmap string F) :=
  match fetchBenchmarkSeries s benchmark startDate endDate with
  | Err e => Err ("fetch benchmark data: " +:+ e)
  | Ok points => series_of benchmark (if String.eqb ccy "USD" then points else benchPointsIn points rates ccy)
  end.

(** ** Conversion to the signed shape *)

Definition inEnclaveDays (snapshots : list (Snapshot F)) : gset Z :=
  list_to_set (day_of <$> filter (λ s, sn_IsHistorical s && negb (sn_FromExternalRebuilder s) = true) snapshots).

(** A day number always parses as a date; the set holds the midnights. *)
Definition class_of (snapshots : list (Snapshot F)) (externalRebuilderDays : gset time) (day : Z) : string :=
  if bool_decide (day * Day ∈ externalRebuilderDays) then VerifiabilityClassRebuilderService
  else if bool_decide (day ∈ inEnclaveDays snapshots) then VerifiabilityClassInEnclave
  else VerifiabilityClassLive.

Definition toSigningDailyReturns (daily : list (dailyReturn F)) (snapshots : list (Snapshot F)) (externalRebuilderDays : gset time)
  : list (DailyReturn F) :=
  (λ dr, mkDailyReturn (FormatDay (dr_date dr)) (dr_netReturn dr) (dr_benchmarkReturn dr) (dr_outperformance dr) (dr_cumulativeReturn dr)
     (dr_nav dr) (class_of snapshots externalRebuilderDays (dr_date dr))) <$> daily.

(** [2006-01] *)
Definition FormatMonth (m : Z * Z) : string := pad4 m.1 +:+ "-" +:+ pad2 m.2.

Definition toSigningMonthlyReturns (monthly : list (monthlyReturn F)) : list (MonthlyReturn F) :=
  (λ mr, mkMonthlyReturn (FormatMonth (mr_date mr)) (mr_netReturn mr) (mr_benchmarkReturn mr) (mr_outperformance mr) (mr_aum mr)) <$> monthly.

Definition toSigningRiskMetrics (rm : riskMetrics F) : RiskMetrics F :=
  mkRisk (ri_var95 rm) (ri_var99 rm) (ri_expectedShortfall rm) (ri_skewness rm) (ri_kurtosis rm).

Definition toSigningDrawdownData (dd : drawdownData F) : DrawdownData F :=
  Signing.mkDrawdown (da_currentDrawdown dd) (da_maxDrawdownDuration dd)
    ((λ p, Signing.mkPeriod (FormatDay (pe_startDate p)) (FormatDay (pe_endDate p)) (pe_depth p) (pe_duration p) (pe_recovered p)) <$> da_periods dd).

Record ExchangeMetadata := mkMetadata { xm_Exchange : string; xm_KYCLevel : string; xm_IsPaper : bool }.

Definition buildDefaultExchangeDetails (exchanges : list string) : list ExchangeInfo :=
  (λ ex, mkExchangeInfo ex "" false) <$> exchanges.

(** [metadata] is nil without a connection service; a later entry of the same
    exchange wins. *)
Definition buildExchangeDetails (metadata : option (res (list ExchangeMetadata))) (exchanges : list string) : list ExchangeInfo :=
  match metadata with
  | None | Some (Err _) | Some (Ok []) => buildDefaultExchangeDetails exchanges
  | Some (Ok l) =>
      let byExchange : gmap string ExchangeMetadata := foldl (λ m x, <[ToLower (TrimSpace (xm_Exchange x)) := x]> m) ∅ l in
      (λ ex, match byExchange !! ToLower (TrimSpace ex) with
             | Some md => mkExchangeInfo ex (xm_KYCLevel md) (xm_IsPaper md)
             | None => mkExchangeInfo ex "" false
             end) <$> exchanges
  end.

(** ** The cache *)

Record SignedReportRecord := mkRecord {
  rr_ReportID : string;
  rr_UserUID : string;
  rr_StartDate : time;
  rr_EndDate : time;
  rr_Benchmark : string;
  rr_ReportData : string;
  rr_Signature : string;
  rr_ReportHash : string;
  rr_EnclaveVersion : string;
  rr_CreatedAt : time;
}.

Definition cache_key (r : SignedReportRecord) : string * time * time * string := (rr_UserUID r, rr_StartDate r, rr_EndDate r, rr_Benchmark r).

(** The upsert on the period key: the stored row takes the new content and the
    time of the write. *)
Definition Create (now : time) (rec : SignedReportRecord) (table : list SignedReportRecord) : list SignedReportRecord :=
  let row := mkRecord (rr_ReportID rec) (rr_UserUID rec) (rr_StartDate rec) (rr_EndDate rec) (rr_Benchmark rec) (rr_ReportData rec)
    (rr_Signature rec) (rr_ReportHash rec) (rr_EnclaveVersion rec) now in
  if existsb (λ r, bool_decide (cache_key r = cache_key rec)) table
  then (λ r, if bool_decide (cache_key r = cache_key rec) then row else r) <$> table
  else table ++ [row].

Definition GetCached (table : list SignedReportRecord) (user : string) (start end_ : time) (benchmark version : string) : option SignedReportRecord :=
  find_first (λ r, bool_decide (cache_key r = (user, start, end_, benchmark)) && String.eqb (rr_EnclaveVersion r) version) table.

Record GenerateReportRequest := mkReportRequest {
  gr_UserUID : string;
  gr_StartDate : time;
  gr_EndDate : time;
  gr_ReportName : string;
  gr_Benchmark : string;
  gr_BaseCurrency : string;
  gr_RiskFreeRate : F;
  gr_IncludeRiskMetrics : bool;
  gr_IncludeDrawdown : bool;
  gr_ExcludedExchanges : gset string;
  gr_Manager : string;
  gr_Firm : string;
}.

(** The two columns that date the writes of snapshot rows: which of them the
    schema has, what they hold for a row, and the failure of their query. *)
Record write_stamps := mkStamps {
  ws_hasUpdated : bool;
  ws_hasCreated : bool;
  ws_updated : Snapshot F → option time;
  ws_created : Snapshot F → option time;
  ws_fault : option string;
}.

(** [None] is the empty expression. *)
Definition snapshotChangeStampExpr (st : write_stamps) : option (Snapshot F → option time) :=
  match ws_hasUpdated st, ws_hasCreated st with
  | true, true => Some (λ r, match ws_updated st r with Some t => Some t | None => ws_created st r end)
  | true, false => Some (ws_updated st)
  | false, true => Some (ws_created st)
  | false, false => None
  end.

(** MAX over the values that are not null; [None] is null. *)
Definition max_stamp (l : list time) : option time :=
  match l with [] => None | t :: l => Some (foldl Z.max t l) end.

Definition GetLatestSnapshotChange (st : write_stamps) (table : list (Snapshot F)) (user : string) (start end_ : time) : res time :=
  match snapshotChangeStampExpr st with
  | None => Ok zero_time
  | Some stamp =>
      match ws_fault st with
      | Some e => Err ("read latest snapshot change: " +:+ e)
      | None =>
          let rows := filter (λ r, String.eqb (sn_UserUID r) user && (start <=? sn_Timestamp r) && (sn_Timestamp r <=? end_) = true) table in
          Ok (default zero_time (max_stamp (omap stamp rows)))
      end
  end.

(** What surrounds the service: the stored snapshots, the failures of its
    queries, the signer, the services and the clock. *)
Record surroundings := mkSurroundings {
  su_repo : Window.snapshot_repo F;
  su_days_fault : option string;
  su_stamps : write_stamps;
  su_cache : option (list SignedReportRecord);
  su_cache_read : bool;
  su_cache_write : bool;
  su_benchmark : option (BenchmarkService F);
  su_fx : option (@Fx.fx_source F);
  su_metadata : option (res (list ExchangeMetadata));
  su_signer : ReportSigner;
  su_marshal : SignedReport F → res string;
  su_unmarshal : string → option (SignedReport F);
  su_now : time;
  su_uuid : string;
  su_rnd : nat;
  su_order : nat → Z → nat → list string → list string;
}.

Definition cacheIsFresh (cachedAt latestSnapshotChange : time) : bool :=
  if IsZero latestSnapshotChange then true else negb (After latestSnapshotChange cachedAt).

(** The requests the key of the cache can tell apart. *)
Definition cacheable (req : GenerateReportRequest) : bool :=
  bool_decide (gr_ExcludedExchanges req = ∅) && feqb (gr_RiskFreeRate req) f0 && String.eqb (reportCurrency (gr_BaseCurrency req)) "USD".

Definition checkReportCache (w : surroundings) (req : GenerateReportRequest) : option (SignedReport F) :=
  match su_cache w with
  | None => None
  | Some table =>
      if negb (cacheable req) || negb (su_cache_read w) then None
      else
        cached ← GetCached table (gr_UserUID req) (gr_StartDate req) (gr_EndDate req) (gr_Benchmark req) EnclaveVersion;
        match GetLatestSnapshotChange (su_stamps w) (Window.sp_table (su_repo w)) (gr_UserUID req) (gr_StartDate req) (gr_EndDate req) with
        | Err _ => None
        | Ok latestChange =>
            if negb (cacheIsFresh (rr_CreatedAt cached) latestChange) then None
            else
              report ← su_unmarshal w (rr_ReportData cached);
              if negb (String.eqb (reportCurrency (me_BaseCurrency (sr_Metrics report))) "USD") then None else Some report
        end
  end.

Definition cacheReport (w : surroundings) (req : GenerateReportRequest) (report : SignedReport F) : option (list SignedReportRecord) :=
  match su_cache w with
  | None => None
  | Some table =>
      if negb (cacheable req) then Some table
      else match su_marshal w report with
      | Err _ => Some table
      | Ok data =>
          if su_cache_write w then
            Some (Create (su_now w) (mkRecord (sr_ReportID report) (gr_UserUID req) (gr_StartDate req) (gr_EndDate req) (gr_Benchmark req) data
              (sr_Signature report) (sr_ReportHash report) (sr_EnclaveVersion report) 0) table)
          else Some table
      end
  end.

(** ** GenerateReport *)

Definition with_display (r : SignedReport F) (manager firm : string) : SignedReport F :=
  mkReport (sr_ReportID r) (sr_UserUID r) (sr_ReportName r) (sr_GeneratedAt r) (sr_PeriodStart r) (sr_PeriodEnd r)
    (sr_AnnualizationDays r) (sr_Metrics r) (sr_Extended r) manager firm (sr_EnclaveAttestation r) (sr_Signature r)
    (sr_PublicKey r) (sr_SignatureAlgorithm r) (sr_ReportHash r) (sr_EnclaveVersion r) (sr_PayloadVersion r)
    (sr_PercentReportHash r) (sr_PercentSignature r).

(** Step 1b. *)
Definition value_snapshots (w : surroundings) (req : GenerateReportRequest) (ccy : string) (snapshots : list (Snapshot F))
  : res (list (Snapshot F) * fxRates) :=
  if String.eqb ccy "USD" then Ok (snapshots, ∅)
  else
    fx ← loadReportRates (su_fx w) ccy snapshots (gr_StartDate req) (gr_EndDate req);
    snapshots ← snapshotsInCurrency snapshots fx ccy (su_now w);
    if Nat.ltb (length snapshots) 2 then Err ("insufficient data: need at least 2 snapshots with a final " +:+ ccy +:+ " rate, got " +:+ pretty (length snapshots)) else Ok (snapshots, fx).

(** Step 2b: the series, when there is one. *)
Definition benchmark_series (w : surroundings) (req : GenerateReportRequest) (fx : fxRates) (ccy : string) (daily : list (dailyReturn F))
  : option (gmap string F) :=
  if String.eqb (gr_Benchmark req) "" || match daily with [] => true | _ => false end then None
  else match su_benchmark w with
  | None => None
  | Some svc => match dailyReturnsIn svc (gr_Benchmark req) (gr_StartDate req) (gr_EndDate req) fx ccy with Ok series => Some series | Err _ => None end
  end.

Definition enrich (series : gmap string F) (dr : dailyReturn F) : dailyReturn F :=
  match series !! FormatDay (dr_date dr) with
  | Some br => mkDaily (dr_date dr) (dr_netReturn dr) br (fsub (dr_netReturn dr) br) (dr_cumulativeReturn dr) (dr_nav dr)
  | None => dr
  end.

(** Step 9. *)
Definition benchmark_metrics (series : option (gmap string F)) (daily : list (dailyReturn F)) (name : string) : option (Signing.BenchmarkMetrics F) :=
  match series with
  | None => None
  | Some series =>
      let aligned := omap (λ dr, (λ br, (dr_netReturn dr, br)) <$> series !! FormatDay (dr_date dr)) daily in
      match CalculateFromSeries aligned.*1 aligned.*2 name with
      | Err _ => None
      | Ok bm => Some (mkBenchmark (be_BenchmarkName bm) (be_BenchmarkReturn bm) (be_Alpha bm) (be_Beta bm) (be_InformationRatio bm)
                         (be_TrackingError bm) (be_Correlation bm))
      end
  end.

Definition exchanges_of (snapshots : list (Snapshot F)) : list string := merge_sort String.le (remove_dups (sn_Exchange <$> snapshots)).

(** Steps 4 to 9, from the valued snapshots and their returns. *)
Definition report_input (w : surroundings) (req : GenerateReportRequest) (ccy : string) (series : option (gmap string F))
    (snapshots : list (Snapshot F)) (daily : list (dailyReturn F)) (days : gset time) (m : PerformanceMetrics F) : ReportInput F :=
  let exchanges := exchanges_of snapshots in
  let name := if String.eqb (gr_ReportName req) ""
              then "Performance Report " +:+ FormatDate (pm_PeriodStart m) +:+ " to " +:+ FormatDate (pm_PeriodEnd m) else gr_ReportName req in
  let some_days := match daily with [] => false | _ => true end in
  mkInput (gr_UserUID req) name (pm_PeriodStart m) (pm_PeriodEnd m)
    (mkReportMetrics (pm_TotalReturn m) (pm_AnnualizedReturn m) (pm_Annualized m) (pm_PeriodDays m) (pm_SharpeRatio m) (pm_SortinoRatio m)
       (pm_CalmarRatio m) (pm_MaxDrawdown m) (pm_Volatility m) (pm_WinRate m) (pm_ProfitFactor m) (pm_DataPoints m) ccy (gr_Benchmark req)
       (gr_RiskFreeRate req))
    (mkExtended (match exchanges with [] => None | _ => Some exchanges end) (buildExchangeDetails (su_metadata w) exchanges)
       (toSigningDailyReturns daily snapshots days) (toSigningMonthlyReturns (aggregateToMonthlyReturns daily))
       (if gr_IncludeRiskMetrics req && some_days then Some (toSigningRiskMetrics (calculateRiskMetrics (dr_netReturn <$> daily))) else None)
       (if gr_IncludeDrawdown req && some_days then Some (toSigningDrawdownData (calculateDrawdownData daily)) else None)
       (benchmark_metrics series daily (gr_Benchmark req))).

Definition GenerateReport (w : surroundings) (req : GenerateReportRequest) : res (SignedReport F) * option (list SignedReportRecord) :=
  match checkReportCache w req with
  | Some cached => (Ok (with_display cached (gr_Manager req) (gr_Firm req)), su_cache w)
  | None =>
      let report :=
        snapshots ← wrap "fetch snapshots" (Window.query (su_repo w)
          (λ sch t, Ok (Store.getByUserAndDateRange sch t (gr_UserUID req) (gr_StartDate req) (gr_EndDate req))));
        days ← wrap "resolve external-rebuilder day set"
          match su_days_fault w with
          | Some e => Err e
          | None => Ok (Store.GetExternalRebuilderDays (Window.sp_schema (su_repo w)) (Window.sp_table (su_repo w)) (gr_UserUID req)
                         (gr_StartDate req) (gr_EndDate req))
          end;
        let snapshots := filterSnapshotsByExcludedExchanges snapshots (gr_ExcludedExchanges req) in
        if Nat.ltb (length snapshots) 2 then Err ("insufficient data: need at least 2 snapshots, got " +:+ pretty (length snapshots))
        else
          let ccy := reportCurrency (gr_BaseCurrency req) in
          v ← value_snapshots w req ccy (sort_by sn_Timestamp snapshots);
          let snapshots := dropLeadingDustDays v.1 in
          let daily := convertSnapshotsToDailyReturns (su_order w 0) snapshots in
          let series := benchmark_series w req v.2 ccy daily in
          let daily := match series with Some s => enrich s <$> daily | None => daily end in
          m ← wrap "calculate metrics" (calculateFromSnapshots (su_order w 1) snapshots (gr_RiskFreeRate req));
          Sign (su_uuid w) (su_now w) (su_rnd w) (su_signer w) (report_input w req ccy series snapshots daily days m) in
      match report with
      | Err e => (Err e, su_cache w)
      | Ok r => (Ok (with_display r (gr_Manager req) (gr_Firm req)), cacheReport w req r)
      end
  end.

End report.
End Report.
