(* ===== verification/ReportSafe.v ===== *)
(** * What a signed report guarantees

    The rows a report in another currency may leave out, the labels of its
    days, the figures that must agree, and what the cache can serve. *)

From S2P Require Import Prelude Num NumReal GoTime Types Store Window Fx Returns ReturnsExact Json Signing SignedReports Metrics Risk MetricsExact Report.
From stdpp Require Import base gmap strings tactics sorting list.
From Stdlib Require Import ZArith Lia.
Import Json Signing Returns Metrics Risk Report.
Local Open Scope Z_scope.

Module ReportSafe.

Section safe.
Context {F : Type} {NF : Num F}.

Abbreviation fxRates := (gmap string (gmap string F)).

(** In the order of their days. *)
Definition in_order (l : list (Snapshot F)) : Prop := StronglySorted (λ a b, sn_Timestamp a <= sn_Timestamp b) l.

Lemma day_mono (a b : Snapshot F) : sn_Timestamp a <= sn_Timestamp b → day_of a <= day_of b.
Proof. intros H. unfold day_of, day_index. apply Z.div_le_mono; [apply Day_pos|done]. Qed.

Lemma before_day (s : Snapshot F) t : Before (truncDay (sn_Timestamp s)) (truncDay t) = true ↔ day_of s < day_index t.
Proof.
  unfold Before, truncDay, day_of, day_index. rewrite Z.ltb_lt. pose proof Day_pos as Hd. split; intros H; [|by apply Z.mul_lt_mono_pos_r].
  by apply Z.mul_lt_mono_pos_r in H.
Qed.

(** ** The tail of a report in another currency *)

(** Where the loop stops: everything was valued, or the first row without a
    rate is recent and its day is cut. *)
Lemma currency_from_spec snapshots rates ccy now : ∀ out valued,
  in_currency_from snapshots rates ccy now out = Ok valued →
  ∃ done_ rest rs, snapshots = done_ ++ rest ∧ Forall2 (λ s r, snapshotRate s rates ccy = Some r) done_ rs ∧
    (rest = [] ∧ valued = out ++ zip_with (λ s r, in_currency r s) done_ rs ∨
     ∃ s rest', rest = s :: rest' ∧ Sub now (truncDay (sn_Timestamp s)) <= fxTailGrace ∧
       valued = beforeDay (out ++ zip_with (λ s r, in_currency r s) done_ rs) (truncDay (sn_Timestamp s))).
Proof.
  induction snapshots as [|s l IH]; intros out valued; cbn [in_currency_from].
  - intros [= <-]. exists [], [], []. split; [done|]. split; [constructor|]. left. by rewrite app_nil_r.
  - destruct (snapshotRate s rates ccy) as [r|] eqn:Er.
    + intros (done_ & rest & rs & -> & Hrs & H)%IH. exists (s :: done_), rest, (r :: rs). split; [done|]. split; [by constructor|].
      cbn [zip_with]. rewrite cons_middle, app_assoc. exact H.
    + destruct (Z.ltb_spec fxTailGrace (Sub now (truncDay (sn_Timestamp s)))); [done|]. intros [= <-]. exists [], (s :: l), [].
      split; [done|]. split; [constructor|]. right. exists s, l. split; [done|]. split; [done|]. by rewrite app_nil_r.
Qed.

Lemma in_currency_day r (s : Snapshot F) : day_of (in_currency r s) = day_of s.
Proof. done. Qed.

Lemma zip_rates_elem (l : list (Snapshot F)) rates ccy rs s :
  Forall2 (λ s r, snapshotRate s rates ccy = Some r) l rs → s ∈ l →
  ∃ r, snapshotRate s rates ccy = Some r ∧ in_currency r s ∈ zip_with (λ s r, in_currency r s) l rs.
Proof.
  induction 1 as [|x r l rs Hr _ IH]; [by intros ?%not_elem_of_nil|]. intros [->|Hs]%elem_of_cons; cbn [zip_with].
  - exists r. split; [done|]. by left.
  - destruct (IH Hs) as (r' & H1 & H2). exists r'. split; [done|]. by right.
Qed.

Lemma zip_rates_origin (l : list (Snapshot F)) rates ccy rs x :
  Forall2 (λ s r, snapshotRate s rates ccy = Some r) l rs → x ∈ zip_with (λ s r, in_currency r s) l rs →
  ∃ s r, s ∈ l ∧ snapshotRate s rates ccy = Some r ∧ x = in_currency r s.
Proof.
  induction 1 as [|y r l rs Hr _ IH]; cbn [zip_with]; [by intros ?%not_elem_of_nil|]. intros [->|Hs]%elem_of_cons.
  - exists y, r. split; [by left|done].
  - destruct (IH Hs) as (s & r' & H1 & H2 & H3). exists s, r'. split; [by right|done].
Qed.

Lemma beforeDay_elem (l : list (Snapshot F)) t s : s ∈ beforeDay l (truncDay t) ↔ s ∈ l ∧ day_of s < day_index t.
Proof. unfold beforeDay. rewrite list_elem_of_filter, before_day. tauto. Qed.

(** A row of the input, by the day it has. *)
Lemma currency_rows snapshots rates ccy now valued :
  in_order snapshots → snapshotsInCurrency snapshots rates ccy now = Ok valued →
  (∀ x, x ∈ valued → ∃ s r, s ∈ snapshots ∧ snapshotRate s rates ccy = Some r ∧ x = in_currency r s) ∧
  ∃ cut : option Z,
    (∀ s, s ∈ snapshots → (∀ c, cut = Some c → day_of s < c) → ∃ r, snapshotRate s rates ccy = Some r ∧ in_currency r s ∈ valued) ∧
    (∀ x c, cut = Some c → x ∈ valued → day_of x < c) ∧
    (∀ c, cut = Some c → Sub now (c * Day) <= fxTailGrace).
Proof.
  intros Ho (done_ & rest & rs & -> & Hrs & H)%currency_from_spec. cbn [app] in H. destruct H as [[-> ->]|(s0 & rest' & -> & Hg & ->)].
  - split.
    + intros x (s & r & H1 & H2 & H3)%(zip_rates_origin _ _ _ _ _ Hrs). exists s, r. split; [|done]. apply elem_of_app. by left.
    + exists None. split; [|done]. intros s Hs _. rewrite app_nil_r in Hs. by apply (zip_rates_elem _ _ _ _ _ Hrs).
  - split.
    + intros x [(s & r & H1 & H2 & H3)%(zip_rates_origin _ _ _ _ _ Hrs) _]%beforeDay_elem. exists s, r. split; [|done]. apply elem_of_app. by left.
    + exists (Some (day_of s0)). split; [|split].
      * intros s Hs Hc. specialize (Hc _ eq_refl). apply elem_of_app in Hs as [Hs|Hs].
        -- destruct (zip_rates_elem _ _ _ _ _ Hrs Hs) as (r & Hr & Hin). exists r. split; [done|]. by apply beforeDay_elem.
        -- exfalso. apply StronglySorted_app_1_r in Ho. apply elem_of_cons in Hs as [->|Hs]; [lia|].
           inversion Ho as [|? ? _ Hall]; subst. rewrite Forall_forall in Hall. specialize (Hall s Hs). apply day_mono in Hall. lia.
      * by intros x c [= <-] [_ H]%beforeDay_elem.
      * by intros c [= <-].
Qed.

(** A report in another currency is cut at its end only.  Of snapshots in order of time, every one measured on a day
    before the last week is in the report, valued at the rate of its day; a day is stated for all its connections or
    for none; and nothing is in it that was not stored.  A missing rate further back refuses the report instead. *)
Theorem currency_cut_at_tail snapshots rates ccy now valued :
  in_order snapshots → snapshotsInCurrency snapshots rates ccy now = Ok valued →
  (∀ s, s ∈ snapshots → fxTailGrace < Sub now (truncDay (sn_Timestamp s)) →
     ∃ r, snapshotRate s rates ccy = Some r ∧ in_currency r s ∈ valued) ∧
  (∀ s x, s ∈ snapshots → x ∈ valued → day_of x = day_of s → ∃ r, snapshotRate s rates ccy = Some r ∧ in_currency r s ∈ valued) ∧
  (∀ x, x ∈ valued → ∃ s r, s ∈ snapshots ∧ snapshotRate s rates ccy = Some r ∧ x = in_currency r s).
Proof.
  intros Ho H. destruct (currency_rows _ _ _ _ _ Ho H) as (H1 & cut & H2 & H3 & H4). split_and!; [| |done].
  - intros s Hs Hg. apply H2; [done|]. intros c Hc. apply H4 in Hc. unfold day_of, day_index. unfold truncDay in Hg. unfold Sub in Hc, Hg.
    pose proof Day_pos as Hday. destruct (Z.lt_ge_cases (sn_Timestamp s / Day) c) as [|Hle]; [done|exfalso]. assert (c * Day <= sn_Timestamp s / Day * Day) by nia. lia.
  - intros s x Hs Hx Hd. apply H2; [done|]. intros c Hc. specialize (H3 x c Hc Hx). lia.
Qed.

(** ** Whole days *)

Lemma span_day_spec d (l : list (Snapshot F)) :
  in_order l → Forall (λ s, d <= day_of s) l →
  Forall (λ s, day_of s = d) (span_day d l).1 ∧ Forall (λ s, d < day_of s) (span_day d l).2.
Proof.
  induction 1 as [|s l Hl IH Hs]; intros Hd; [by split|]. apply Forall_cons in Hd as [Hd1 Hd2]. cbn [span_day].
  destruct (Z.eqb_spec (day_of s) d) as [E|E].
  - destruct (IH Hd2) as [H1 H2]. destruct (span_day d l) as [a b]. cbn in *. split; [by constructor|done].
  - cbn [fst snd]. split; [done|]. constructor; [lia|]. rewrite Forall_forall in Hs |- *. intros y Hy. specialize (Hs y Hy). apply day_mono in Hs. lia.
Qed.

Lemma in_order_app_r (a b : list (Snapshot F)) : in_order (a ++ b) → in_order b.
Proof. apply StronglySorted_app_1_r. Qed.

Lemma head_day s (l : list (Snapshot F)) : in_order (s :: l) → Forall (λ x, day_of s <= day_of x) (s :: l).
Proof.
  intros H. inversion H as [|? ? _ Hall]; subst. constructor; [lia|]. eapply Forall_impl; [done|]. intros x Hx. by apply day_mono.
Qed.

Lemma drop_dust_suffix n (l : list (Snapshot F)) : ∃ pre, l = pre ++ drop_dust n l.
Proof.
  revert l. induction n as [|n IH]; intros [|x l]; [by exists []..|]. cbn [drop_dust]. pose proof (span_day_app (day_of x) (x :: l)) as Happ.
  destruct (span_day (day_of x) (x :: l)) as [day rest]. cbn [fst snd] in Happ. destruct (material day); [by exists []|].
  destruct (IH rest) as [pre Hpre]. exists (day ++ pre). by rewrite <- app_assoc, <- Hpre.
Qed.

(** The leading dust is dropped by whole days. *)
Lemma dust_whole_days (l : list (Snapshot F)) s s' :
  in_order l → s ∈ l → s' ∈ dropLeadingDustDays l → day_of s = day_of s' → s ∈ dropLeadingDustDays l.
Proof.
  unfold dropLeadingDustDays. generalize (length l) as n. intros n. revert l. induction n as [|n IH]; intros [|x l] Ho Hs Hs' Hd; try done.
  cbn [drop_dust] in *. pose proof (span_day_app (day_of x) (x :: l)) as Happ. pose proof (span_day_spec (day_of x) (x :: l) Ho (head_day x l Ho)) as [H1 H2].
  destruct (span_day (day_of x) (x :: l)) as [day rest]. cbn [fst snd] in *. destruct (material day); [done|].
  assert (∀ y, y ∈ drop_dust n rest → y ∈ rest) as Hsub.
  { intros y Hy. pose proof (drop_dust_suffix n rest) as [pre Hpre]. rewrite Hpre. apply elem_of_app. by right. }
  apply IH; [rewrite Happ in Ho; by apply in_order_app_r in Ho| |done|done].
  rewrite Happ in Hs. apply elem_of_app in Hs as [Hs|Hs]; [exfalso|done]. rewrite Forall_forall in H1, H2.
  specialize (H1 s Hs). specialize (H2 s' (Hsub s' Hs')). lia.
Qed.

Lemma dust_sub (l : list (Snapshot F)) s : s ∈ dropLeadingDustDays l → s ∈ l.
Proof. intros H. destruct (drop_dust_suffix (length l) l) as [pre ->]. apply elem_of_app. by right. Qed.

(** ** The days of the returns *)

Lemma days_from_in step dates (st : series F) r :
  (∀ d st st' r, step d st = (st', Some r) → dr_date r = d) → r ∈ days_from step dates st → dr_date r ∈ dates.
Proof.
  intros Hstep. revert st. induction dates as [|d dates IH]; intros st; cbn [days_from]; [by intros ?%not_elem_of_nil|].
  destruct (step d st) as [st' o] eqn:E. intros [Hr|Hr]%elem_of_app; [|right; by eapply IH]. destruct o as [x|]; [|by apply not_elem_of_nil in Hr].
  apply list_elem_of_singleton in Hr as ->. apply Hstep in E. rewrite E. by left.
Qed.

Lemma group_days_in (l : list (Snapshot F)) d g : group_days l !! d = Some g → ∃ s, s ∈ l ∧ day_of s = d.
Proof.
  unfold group_days.
  enough (∀ m, foldl (λ m s, <[day_of s := <[snapshotConnectionKey (sn_Exchange s) (sn_Label s) := s]> (default ∅ (m !! day_of s))]> m) m l !! d = Some g →
    (∃ s, s ∈ l ∧ day_of s = d) ∨ m !! d = Some g) as H by (intros Hg; destruct (H _ Hg) as [|Hn]; [done|by rewrite lookup_empty in Hn]).
  induction l as [|x l IH]; intros m; cbn [foldl]; [by right|]. intros [(s & Hs & Hd)|Hm]%IH; [left; exists s; split; [by right|done]|].
  destruct (decide (day_of x = d)) as [E|E]; [left; exists x; split; [by left|done]|]. right. by rewrite lookup_insert_ne in Hm.
Qed.

Lemma return_has_row order (l : list (Snapshot F)) r :
  r ∈ convertSnapshotsToDailyReturns order l → ∃ s, s ∈ l ∧ day_of s = dr_date r.
Proof.
  unfold convertSnapshotsToDailyReturns. cbn zeta. destruct (date_order (group_days l)) as [|d0 [|d1 rest]] eqn:Ed; [by intros ?%not_elem_of_nil..|].
  destruct (last _); [|by intros ?%not_elem_of_nil]. intros H. apply days_from_in in H.
  - assert (dr_date r ∈ date_order (group_days l)) as Hin by (rewrite Ed; by right). unfold date_order in Hin.
    rewrite sort_by_elem in Hin. apply list_elem_of_fmap in Hin as ([d g] & -> & Hg). apply elem_of_map_to_list in Hg. by eapply group_days_in.
  - intros d st st' x. unfold day_step. destruct (feqb _ _); [done|]. destruct (day_pass _ _ _ _ _). by intros [= _ <-].
Qed.

End safe.
Section generated.
Context {F : Type} {NF : Num F} {PF : Pow F} {JF : JsonNumber F} {C : Crypto}.

(** The selected rows of a request, in order. *)
Definition selected (w : surroundings (F := F)) (req : GenerateReportRequest (F := F)) : list (Snapshot F) :=
  sort_by sn_Timestamp (filterSnapshotsByExcludedExchanges
    (Store.getByUserAndDateRange (Window.sp_schema (su_repo w)) (Window.sp_table (su_repo w)) (gr_UserUID req) (gr_StartDate req) (gr_EndDate req))
    (gr_ExcludedExchanges req)).

Definition rebuilder_days (w : surroundings (F := F)) (req : GenerateReportRequest (F := F)) : gset time :=
  Store.GetExternalRebuilderDays (Window.sp_schema (su_repo w)) (Window.sp_table (su_repo w)) (gr_UserUID req) (gr_StartDate req) (gr_EndDate req).

(** How a report that was not cached came about. *)
Record generated (w : surroundings) (req : GenerateReportRequest) (valued : list (Snapshot F)) (fx : gmap string (gmap string F))
    (series : option (gmap string F)) (daily : list (dailyReturn F)) (m : PerformanceMetrics F) (r0 : SignedReport F) : Prop := {
  ge_valued : value_snapshots w req (reportCurrency (gr_BaseCurrency req)) (selected w req) = Ok (valued, fx);
  ge_daily : daily = match series with
                     | Some s => enrich s <$> convertSnapshotsToDailyReturns (su_order w 0) (dropLeadingDustDays valued)
                     | None => convertSnapshotsToDailyReturns (su_order w 0) (dropLeadingDustDays valued)
                     end;
  ge_metrics : calculateFromSnapshots (su_order w 1) (dropLeadingDustDays valued) (gr_RiskFreeRate req) = Ok m;
  ge_signed : Sign (su_uuid w) (su_now w) (su_rnd w) (su_signer w)
    (report_input w req (reportCurrency (gr_BaseCurrency req)) series (dropLeadingDustDays valued) daily (rebuilder_days w req) m) = Ok r0;
}.

Lemma generate_spec w req r cache :
  checkReportCache w req = None → GenerateReport w req = (Ok r, cache) →
  ∃ valued fx series daily m r0, generated w req valued fx series daily m r0 ∧
    r = with_display r0 (gr_Manager req) (gr_Firm req) ∧ cache = cacheReport w req r0.
Proof.
  intros Hc. unfold GenerateReport. rewrite Hc. unfold Window.query. destruct (Window.sp_fault (su_repo w)); [done|]. cbn [wrap mbind res_bind].
  destruct (su_days_fault w); [done|]. cbn [wrap mbind res_bind]. destruct (Nat.ltb _ 2); [done|]. cbn zeta. fold (selected w req) (rebuilder_days w req).
  destruct (value_snapshots _ _ _ _) as [[valued fx]|] eqn:Ev; [|done]. cbn [mbind res_bind fst snd].
  set (series := benchmark_series _ _ _ _ _). set (daily := match series with Some s => _ | None => _ end).
  destruct (calculateFromSnapshots _ _ _) as [m|] eqn:Em; [|done]. cbn [wrap mbind res_bind].
  destruct (Sign _ _ _ _ _) as [r0|] eqn:Es; [|done]. intros [= <- <-]. exists valued, fx, series, daily, m, r0. split; [|done]. by split.
Qed.

Lemma signed_extended uuid now rnd s (input : ReportInput F) r :
  Sign uuid now rnd s input = Ok r → sr_Extended r = in_Extended input ∧ sr_Metrics r = in_Metrics input.
Proof.
  unfold Sign. cbn zeta. destruct (wrap _ (CanonicalPayload _)); cbn [mbind res_bind]; [|done]. destruct (wrap _ (signPayload _ _ _)); cbn [mbind res_bind]; [|done].
  destruct (wrap _ (PercentPayload _)); cbn [mbind res_bind]; [|done]. destruct (wrap _ (signPayload _ _ _)); cbn [mbind res_bind]; [|done].
  intros [= <-]. done.
Qed.

Lemma enrich_date s (dr : dailyReturn F) : dr_date (enrich s dr) = dr_date dr.
Proof. unfold enrich. by destruct (s !! _). Qed.

Lemma selected_in_order w req : in_order (selected w req).
Proof. apply sort_by_sorted. Qed.

Lemma in_order_valued (l : list (Snapshot F)) rates ccy rs :
  in_order l → Forall2 (λ s r, snapshotRate s rates ccy = Some r) l rs → in_order (zip_with (λ s r, in_currency r s) l rs).
Proof.
  intros Ho. revert rs. induction Ho as [|s l Hl IH Hs]; intros rs Hrs; inversion Hrs as [|? r ? rs' Hr Hrs']; subst; cbn [zip_with]; [constructor|].
  constructor; [by apply IH|]. rewrite Forall_forall in Hs |- *. intros x (y & r' & Hy & _ & ->)%(zip_rates_origin _ _ _ _ _ Hrs'). exact (Hs y Hy).
Qed.

Lemma in_order_filter (P : Snapshot F → Prop) `{∀ x, Decision (P x)} l : in_order l → in_order (filter P l).
Proof.
  induction 1 as [|s l Hl IH Hs]; [constructor|]. cbn [filter list_filter]. destruct (decide (P s)); [|done]. constructor; [done|].
  rewrite Forall_forall in Hs |- *. intros x [_ Hx]%list_elem_of_filter. by apply Hs.
Qed.

(** The valued rows keep their days and flags, and a day of theirs has every row selected for it. *)
Lemma valued_rows w req ccy valued fx :
  value_snapshots w req ccy (selected w req) = Ok (valued, fx) →
  in_order valued ∧
  (∀ s x, s ∈ selected w req → x ∈ valued → day_of x = day_of s →
     ∃ y, y ∈ valued ∧ day_of y = day_of s ∧ sn_IsHistorical y = sn_IsHistorical s ∧ sn_FromExternalRebuilder y = sn_FromExternalRebuilder s).
Proof.
  unfold value_snapshots. pose proof (selected_in_order w req) as Ho. destruct (String.eqb ccy "USD").
  - intros [= <- <-]. split; [done|]. intros s x Hs _ _. by exists s.
  - intros (rates & _ & H)%res_bind_ok. apply res_bind_ok in H as (l & Hl & H). destruct (Nat.ltb _ _); [done|]. injection H as <- <-. split.
    + unfold snapshotsInCurrency in Hl. apply currency_from_spec in Hl as (done_ & rest & rs & Heq & Hrs & Hv). rewrite Heq in Ho.
      apply StronglySorted_app_1_l in Ho. pose proof (in_order_valued _ _ _ _ Ho Hrs) as Hz.
      destruct Hv as [[_ ->]|(? & ? & _ & _ & ->)]; [done|]. by apply in_order_filter.
    + intros s x Hs Hx Hd. destruct (currency_rows _ _ _ _ _ Ho Hl) as (_ & cut & H2 & H3 & _).
      destruct (H2 s Hs) as (r & _ & Hin); [intros c Hc; specialize (H3 x c Hc Hx); lia|]. by exists (in_currency r s).
Qed.

Lemma valued_origin w req ccy valued fx y :
  value_snapshots w req ccy (selected w req) = Ok (valued, fx) → y ∈ valued → ∃ s, s ∈ selected w req ∧ sn_IsHistorical y = sn_IsHistorical s.
Proof.
  unfold value_snapshots. destruct (String.eqb ccy "USD"); [intros [= <- <-]; by exists y|].
  intros (rates & _ & H)%res_bind_ok. apply res_bind_ok in H as (l & Hl & H). destruct (Nat.ltb _ _); [done|]. injection H as <- <-.
  intros Hy. destruct (currency_rows _ _ _ _ _ (selected_in_order w req) Hl) as (H1 & _). destruct (H1 y Hy) as (s & r & Hs & _ & ->). by exists s.
Qed.

Lemma selected_ts w req s :
  Store.isTSSchema (Window.sp_schema (su_repo w)) = true → s ∈ selected w req → sn_IsHistorical s = false.
Proof.
  intros Hts Hs. unfold selected in Hs. rewrite sort_by_elem in Hs. unfold filterSnapshotsByExcludedExchanges in Hs.
  assert (s ∈ Store.getByUserAndDateRange (Window.sp_schema (su_repo w)) (Window.sp_table (su_repo w)) (gr_UserUID req) (gr_StartDate req) (gr_EndDate req)) as Hin.
  { repeat case_match; try done; by apply list_elem_of_filter in Hs as [_ ?]. }
  unfold Store.getByUserAndDateRange in Hin. apply list_elem_of_fmap in Hin as (x & -> & _). unfold Store.scan_range. by rewrite Hts.
Qed.

(** A reconstructed row of a day that is in the report marks that day. *)
Lemma enclave_day_marked w req ccy valued fx s x :
  value_snapshots w req ccy (selected w req) = Ok (valued, fx) → x ∈ dropLeadingDustDays valued →
  s ∈ selected w req → day_of s = day_of x → sn_IsHistorical s = true → sn_FromExternalRebuilder s = false →
  day_of x ∈ inEnclaveDays (dropLeadingDustDays valued).
Proof.
  intros [Ho Hrows]%valued_rows Hx Hs Hd Hh Hf. destruct (Hrows s x Hs (dust_sub _ _ Hx)) as (y & Hy & Hyd & Hyh & Hyf); [done|].
  unfold inEnclaveDays. apply elem_of_list_to_set, list_elem_of_fmap. exists y. split; [congruence|]. apply list_elem_of_filter. split.
  - by rewrite Hyh, Hyf, Hh, Hf.
  - apply (dust_whole_days valued y x); [done..|congruence].
Qed.

(** A row of the rebuilder marks its day. *)
Lemma rebuilder_day_marked w req s :
  Store.hasFromExternalRebuilderCol (Window.sp_schema (su_repo w)) = true → s ∈ Window.sp_table (su_repo w) → sn_UserUID s = gr_UserUID req →
  gr_StartDate req <= sn_Timestamp s <= gr_EndDate req → sn_FromExternalRebuilder s = true → day_of s * Day ∈ rebuilder_days w req.
Proof.
  intros Hcol Hs Hu Ht Hf. unfold rebuilder_days, Store.GetExternalRebuilderDays. rewrite Hcol. cbn [negb].
  apply elem_of_list_to_set, list_elem_of_fmap. exists s. split; [done|]. apply list_elem_of_filter. split; [|done].
  rewrite Hu, String.eqb_refl, Hf. cbn [andb]. destruct (Z.leb_spec (gr_StartDate req) (sn_Timestamp s)); [|lia].
  destruct (Z.leb_spec (sn_Timestamp s) (gr_EndDate req)); [done|lia].
Qed.

(** C28: the label of a signed day follows the stored markers.  In a report
    that is generated, and whatever was excluded, valued in another currency or
    dropped as dust: where the table has the from_external_rebuilder column, a
    day on which a stored row of the user is marked as the external
    rebuilder's is labelled rebuilder-service; and a day on which a selected
    row is read as historical, and not the rebuilder's, is not labelled live.
    The second part is about what is read: on the schema production runs on no
    row is read as historical, so that there a day reconstructed inside the
    enclave is labelled live ([ts_never_in_enclave]). *)
Theorem labels_not_optimistic w req r cache d :
  checkReportCache w req = None → GenerateReport w req = (Ok r, cache) → d ∈ ex_DailyReturns (sr_Extended r) →
  ∃ day, sd_Date d = FormatDay day ∧ ∀ s, day_of s = day →
    (Store.hasFromExternalRebuilderCol (Window.sp_schema (su_repo w)) = true → s ∈ Window.sp_table (su_repo w) → sn_UserUID s = gr_UserUID req →
     gr_StartDate req <= sn_Timestamp s <= gr_EndDate req → sn_FromExternalRebuilder s = true →
     sd_VerifiabilityClass d = VerifiabilityClassRebuilderService) ∧
    (s ∈ selected w req → sn_IsHistorical s = true → sn_FromExternalRebuilder s = false → sd_VerifiabilityClass d ≠ VerifiabilityClassLive).
Proof.
  intros Hc (valued & fx & series & daily & m & r0 & [Hv Hd _ Hs] & -> & _)%generate_spec Hin; [|done]. apply signed_extended in Hs as [He _].
  cbn [with_display sr_Extended] in Hin. rewrite He in Hin. cbn [report_input in_Extended ex_DailyReturns] in Hin. unfold toSigningDailyReturns in Hin.
  apply list_elem_of_fmap in Hin as (dr & -> & Hdr). cbn [sd_Date sd_VerifiabilityClass].
  assert (∃ x, x ∈ dropLeadingDustDays valued ∧ day_of x = dr_date dr) as (x & Hx & Hxd).
  { rewrite Hd in Hdr. destruct series as [sr|]; [|by eapply return_has_row]. apply list_elem_of_fmap in Hdr as (dr' & -> & Hdr').
    rewrite enrich_date. by eapply return_has_row. }
  exists (dr_date dr). split; [done|]. intros s Hday. unfold class_of. split.
  - intros Hcol Hst Hu Ht Hf. rewrite bool_decide_true; [done|]. rewrite <- Hday. by apply rebuilder_day_marked.
  - intros Hsel Hh Hf. case_bool_decide; [done|]. rewrite bool_decide_true; [done|]. rewrite <- Hxd. apply (enclave_day_marked w req _ _ fx s x Hv Hx Hsel); [by rewrite Hday, Hxd|done|done].
Qed.

(** On the schema production runs on, no day is ever labelled in-enclave: the reads of that schema have no historical
    marker, and a day reconstructed inside the enclave is signed as live. *)
Theorem ts_never_in_enclave w req r cache d :
  Store.isTSSchema (Window.sp_schema (su_repo w)) = true →
  checkReportCache w req = None → GenerateReport w req = (Ok r, cache) → d ∈ ex_DailyReturns (sr_Extended r) →
  sd_VerifiabilityClass d ≠ VerifiabilityClassInEnclave.
Proof.
  intros Hts Hc (valued & fx & series & daily & m & r0 & [Hv Hd _ Hs] & -> & _)%generate_spec Hin; [|done]. apply signed_extended in Hs as [He _].
  cbn [with_display sr_Extended] in Hin. rewrite He in Hin. cbn [report_input in_Extended ex_DailyReturns] in Hin. unfold toSigningDailyReturns in Hin.
  apply list_elem_of_fmap in Hin as (dr & -> & _). cbn [sd_VerifiabilityClass]. unfold class_of. case_bool_decide; [done|].
  rewrite bool_decide_false; [done|]. unfold inEnclaveDays. intros (y & _ & Hy)%elem_of_list_to_set%list_elem_of_fmap.
  apply list_elem_of_filter in Hy as [Hh Hy%dust_sub]. destruct (valued_origin _ _ _ _ _ _ Hv Hy) as (s & Hsel & Heq).
  rewrite Heq, (selected_ts w req s Hts Hsel) in Hh. done.
Qed.

(** ** The cache *)

Section cache.
Context (enc : SignedReport F → res string) (dec : string → option (SignedReport F)).

(** The tables the service can leave behind, whatever it was asked and whatever its surroundings answered. *)
Inductive cache_after : list SignedReportRecord → Prop :=
| cache_empty : cache_after []
| cache_request w req r t t' :
    su_cache w = Some t → cache_after t → su_marshal w = enc → su_unmarshal w = dec →
    GenerateReport w req = (r, Some t') → cache_after t'.

(** The report [r0] was generated for [req], and its row was written at [at_]. *)
Definition issued_for (req : GenerateReportRequest) (r0 : SignedReport F) (at_ : time) : Prop :=
  ∃ w valued fx series daily m, generated w req valued fx series daily m r0 ∧ su_now w = at_.

Definition backed (rec : SignedReportRecord) : Prop :=
  ∃ req r0, issued_for req r0 (rr_CreatedAt rec) ∧ cacheable req = true ∧
    cache_key rec = (gr_UserUID req, gr_StartDate req, gr_EndDate req, gr_Benchmark req) ∧ enc r0 = Ok (rr_ReportData rec).

Lemma create_rows now rec t x :
  x ∈ Create now rec t → x ∈ t ∨ cache_key x = cache_key rec ∧ rr_ReportData x = rr_ReportData rec ∧ rr_CreatedAt x = now.
Proof.
  unfold Create. destruct (existsb _ t); [|by intros [H| ->%list_elem_of_singleton]%elem_of_app; [left|right]].
  intros (y & -> & Hy)%list_elem_of_fmap. case_bool_decide; [by right|by left].
Qed.

Lemma written_rows w req r0 t t' x :
  su_cache w = Some t → cacheReport w req r0 = Some t' → x ∈ t' →
  x ∈ t ∨ cacheable req = true ∧ su_marshal w r0 = Ok (rr_ReportData x) ∧ rr_CreatedAt x = su_now w ∧
    cache_key x = (gr_UserUID req, gr_StartDate req, gr_EndDate req, gr_Benchmark req).
Proof.
  intros Ht. unfold cacheReport. rewrite Ht. destruct (cacheable req); cbn [negb]; [|intros [= <-]; by left].
  destruct (su_marshal w r0) as [data|] eqn:Em; [|intros [= <-]; by left]. destruct (su_cache_write w); intros [= <-]; [|by left].
  intros [H|(Hk & Hd & Hc)]%create_rows; [by left|right]. by rewrite Hk, Hd.
Qed.

Lemma cache_rows_backed t : cache_after t → Forall backed t.
Proof.
  induction 1 as [|w req r t t' Ht _ IH Hm Hu Hg]; [constructor|]. rewrite Forall_forall in IH |- *. intros x Hx.
  destruct (checkReportCache w req) as [c|] eqn:Ec.
  - unfold GenerateReport in Hg. rewrite Ec in Hg. injection Hg as _ Hg. apply IH. congruence.
  - destruct r as [r|e].
    + destruct (generate_spec w req r _ Ec Hg) as (valued & fx & series & daily & m & r0 & Hgen & _ & Hcache). symmetry in Hcache.
      destruct (written_rows _ _ _ _ _ _ Ht Hcache Hx) as [H|(Hok & Hs & Hat & Hk)]; [by apply IH|].
      exists req, r0. rewrite <- Hm. split_and!; [|done..]. exists w, valued, fx, series, daily, m. done.
    + unfold GenerateReport in Hg. rewrite Ec in Hg. cbn zeta in Hg. destruct (mbind _ _) as [r0|]; [done|]. injection Hg as _ Hg. apply IH. congruence.
Qed.

(** A stored row was last written at [t], as far as the schema tells: the
    update stamp, or the creation stamp where there is no update stamp. *)
Definition last_written (st : write_stamps) (s : Snapshot F) (t : time) : Prop :=
  (ws_hasUpdated st = true ∧ ws_updated st s = Some t) ∨
  (ws_hasCreated st = true ∧ ws_created st s = Some t ∧ (ws_hasUpdated st = true → ws_updated st s = None)).

Lemma last_written_stamp st s t : last_written st s t → ∃ stamp, snapshotChangeStampExpr st = Some stamp ∧ stamp s = Some t.
Proof.
  unfold last_written, snapshotChangeStampExpr. destruct (ws_hasUpdated st), (ws_hasCreated st); intros [[? E]|(? & E & Hn)]; try done;
    eexists; (split; [done|]); cbn; try done; [by rewrite E|by rewrite Hn].
Qed.

Lemma max_stamp_ge l t : t ∈ l → ∃ m, max_stamp l = Some m ∧ t <= m.
Proof.
  destruct l as [|x l]; [by intros ?%elem_of_nil|]. intros Ht. exists (foldl Z.max x l). split; [done|].
  assert (∀ l x y, y <= x ∨ y ∈ l → y <= foldl Z.max x l) as H; [|apply H; apply elem_of_cons in Ht as [->|]; [left; lia|by right]].
  clear. induction l as [|z l IH]; intros x y [Hy|Hy]; cbn [foldl]; [done|by apply elem_of_nil in Hy|apply IH; left; lia|].
  apply IH. apply elem_of_cons in Hy as [->|]; [left; lia|by right].
Qed.

Lemma latest_change_ge st table user start end_ latest s t :
  GetLatestSnapshotChange st table user start end_ = Ok latest → s ∈ table → sn_UserUID s = user → start <= sn_Timestamp s <= end_ →
  last_written st s t → t <= latest.
Proof.
  intros H Hs Hu Hr (stamp & Est & Et)%last_written_stamp. unfold GetLatestSnapshotChange in H. rewrite Est in H.
  destruct (ws_fault st); [done|]. cbn zeta in H. injection H as <-.
  destruct (max_stamp_ge (omap stamp (filter (λ r, String.eqb (sn_UserUID r) user && (start <=? sn_Timestamp r) && (sn_Timestamp r <=? end_) = true) table)) t)
    as (m & -> & ?); [|done].
  apply list_elem_of_omap. exists s. split; [|done]. apply list_elem_of_filter. split; [|done].
  rewrite Hu, String.eqb_refl. cbn [andb]. apply andb_true_iff. lia.
Qed.

(** A request for the plain report: nothing excluded, a risk-free rate of
    zero, and dollars, by name or by default. *)
Definition plain_request (req : GenerateReportRequest (F := F)) : Prop :=
  gr_ExcludedExchanges req = ∅ ∧ feqb (gr_RiskFreeRate req) f0 = true ∧ ToUpper (TrimSpace (gr_BaseCurrency req)) ∈ [""; "USD"].

Lemma cacheable_plain req : cacheable req = true ↔ plain_request req.
Proof.
  unfold cacheable, plain_request, reportCurrency. cbn zeta. rewrite !andb_true_iff, bool_decide_eq_true, String.eqb_eq.
  destruct (String.eqb_spec (ToUpper (TrimSpace (gr_BaseCurrency req))) "") as [->|Hn].
  - split; [intros [[? ?] _]; split_and!; [done..|by left]|by intros (? & ? & _)].
  - split; [intros [[? ?] ->]; split_and!; [done..|by right; left]|]. intros (? & ? & [?|Hu%list_elem_of_singleton]%elem_of_cons); [done|by rewrite Hu].
Qed.

(** C29: what the cache can serve.  After any sequence of requests, a report
    answered from the cache is one the service generated and signed before for
    the same user, period and benchmark; neither request excludes an exchange,
    has a risk-free rate or asks for a currency but dollars; and every stored
    snapshot of the user in the period was last written no later than that
    report's row, by the stamp its row carries.  A row without a stamp proves
    nothing, and on a schema without an update stamp the stamp is that of the
    row's creation.  The encoding of reports is assumed to decode to the report
    it encodes. *)
Theorem cached_report_was_issued t w req r :
  (∀ r s, enc r = Ok s → dec s = Some r) → cache_after t → su_cache w = Some t → su_unmarshal w = dec →
  checkReportCache w req = Some r →
  ∃ req' at_, issued_for req' r at_ ∧
    (gr_UserUID req', gr_StartDate req', gr_EndDate req', gr_Benchmark req') = (gr_UserUID req, gr_StartDate req, gr_EndDate req, gr_Benchmark req) ∧
    plain_request req ∧ plain_request req' ∧
    ∀ s written, s ∈ Window.sp_table (su_repo w) → sn_UserUID s = gr_UserUID req → gr_StartDate req <= sn_Timestamp s <= gr_EndDate req →
      last_written (su_stamps w) s written → zero_time < written → written <= at_.
Proof.
  intros Hrt Ht%cache_rows_backed Hw Hd. unfold checkReportCache. rewrite Hw, Hd. destruct (cacheable req) eqn:Hcq; [|done].
  destruct (su_cache_read w); [|done]. cbn [negb orb]. unfold GetCached. destruct (find_first _ t) as [rec|] eqn:Ef; [|done]. cbn [mbind option_bind].
  destruct (GetLatestSnapshotChange _ _ _ _ _) as [latest|] eqn:El; [|done]. destruct (cacheIsFresh _ _) eqn:Efr; [|done]. cbn [negb].
  destruct (dec _) as [r'|] eqn:Er; [|done]. cbn [mbind option_bind]. destruct (String.eqb _ _); [|done]. intros [= ->].
  apply find_first_some in Ef as (l1 & l2 & -> & Hk & _). apply andb_prop in Hk as [Hk _]. apply bool_decide_eq_true in Hk.
  apply Forall_app in Ht as [_ [Hb _]%Forall_cons]. destruct Hb as (req' & r0 & Hi & Hc & Hk' & He). apply Hrt in He. rewrite He in Er. injection Er as ->.
  exists req', (rr_CreatedAt rec). rewrite <- Hk', Hk. split_and!; [done|done|by apply cacheable_plain..|]. intros s written Hs Hu Hr Hwr Hz.
  pose proof (latest_change_ge _ _ _ _ _ _ _ _ El Hs Hu Hr Hwr) as Hle. unfold cacheIsFresh, After, IsZero in Efr.
  destruct (Z.eqb_spec latest zero_time); [lia|]. destruct (Z.ltb_spec (rr_CreatedAt rec) latest); [done|lia].
Qed.

End cache.
End generated.

(** ** Samples *)

(** Four days of an account, in dollars, the second of the rebuilder and the third reconstructed in the enclave. *)
Definition sample_stored : list (Snapshot float64) :=
  let row d equity hist reb :=
    mkSnapshot "" "u" "kraken" "" (d * Day) (b64 equity) (b64 equity) f0 f0 f0 0 f0 f0 None hist reb in
  [row 100 1000 false false; row 101 2000 true true; row 102 1000 true false; row 103 4000 false false].

Definition sample_request : GenerateReportRequest (F := float64) :=
  mkReportRequest "u" (100 * Day) (103 * Day) "Fund" "" "" f0 true true ∅ "" "".

Definition full_schema : Store.schema := Store.mkSchema false true true true.

Abbreviation sample_generate := (GenerateReport (PF := sample_pow) (JF := exact_number) (C := toy_crypto)).

(** Each row was written on its own day. *)
Definition sample_stamps : write_stamps (F := float64) := mkStamps true true (λ r, Some (sn_Timestamp r)) (λ _, None) None.

Definition sample_world (enc : SignedReport float64 → res string) (dec : string → option (SignedReport float64)) (cache : list SignedReportRecord)
    (now : time) : surroundings (F := float64) (C := toy_crypto) :=
  mkSurroundings (F := float64) (C := toy_crypto) (Window.mkSnapshotRepo full_schema sample_stored None) None sample_stamps (Some cache) true true None None None SignedReports.sample_signer enc dec now "r-1" 0
    (λ _ _ _ l, l).

Definition first_world : surroundings (F := float64) (C := toy_crypto) := sample_world (λ _, Err "no encoder") (λ _, None) [] (104 * Day).

Definition first_report : SignedReport float64 :=
  match (sample_generate first_world sample_request).1 with Ok r => r | Err _ => SignedReports.sample_report end.

Lemma first_generated : sample_generate first_world sample_request = (Ok first_report, Some []).
Proof. vm_compute. reflexivity. Qed.

Lemma first_uncached : checkReportCache first_world sample_request = None.
Proof. vm_compute. reflexivity. Qed.

Lemma labels_not_optimistic_witness :
  sd_VerifiabilityClass <$> ex_DailyReturns (sr_Extended first_report) = [VerifiabilityClassRebuilderService; VerifiabilityClassInEnclave; VerifiabilityClassLive] ∧
  ∀ d, d ∈ ex_DailyReturns (sr_Extended first_report) → ∃ day, sd_Date d = FormatDay day ∧
    (day = 101 → sd_VerifiabilityClass d = VerifiabilityClassRebuilderService) ∧ (day = 102 → sd_VerifiabilityClass d ≠ VerifiabilityClassLive).
Proof.
  split; [vm_compute; reflexivity|]. intros d Hd.
  destruct (labels_not_optimistic (PF := sample_pow) (JF := exact_number) (C := toy_crypto) first_world sample_request first_report (Some []) d first_uncached
    first_generated Hd) as (day & Hday & H).
  exists day. split; [exact Hday|]. split; intros ->.
  - destruct (H (nth 1 sample_stored (sample_row 0 0)) eq_refl) as [H1 _]. apply H1; [reflexivity|right; left|reflexivity|vm_compute; split; discriminate|reflexivity].
  - destruct (nth_lookup_or_length (selected first_world sample_request) 2 (sample_row 0 0)) as [Hn|Hn]; [|vm_compute in Hn; lia].
    destruct (H (nth 2 (selected first_world sample_request) (sample_row 0 0)) ltac:(vm_compute; reflexivity)) as [_ H2].
    apply H2; [exact (list_elem_of_lookup_2 _ _ _ Hn)|vm_compute; reflexivity|vm_compute; reflexivity].
Defined.

(** *** The same request again, answered from the cache *)

#[local] Instance float_dec : EqDecision float64.
Proof. intros x y. unfold Decision. decide equality; (apply Pos.eq_dec || apply Z.eq_dec || apply Bool.bool_dec). Defined.
#[local] Instance attestation_dec : EqDecision EnclaveAttestation.
Proof. solve_decision. Defined.
#[local] Instance exchange_dec : EqDecision ExchangeInfo.
Proof. solve_decision. Defined.
#[local] Instance daily_dec : EqDecision (DailyReturn float64).
Proof. solve_decision. Defined.
#[local] Instance monthly_dec : EqDecision (MonthlyReturn float64).
Proof. solve_decision. Defined.
#[local] Instance risk_dec : EqDecision (RiskMetrics float64).
Proof. solve_decision. Defined.
#[local] Instance period_dec : EqDecision (Signing.DrawdownPeriod float64).
Proof. solve_decision. Defined.
#[local] Instance drawdown_dec : EqDecision (DrawdownData float64).
Proof. solve_decision. Defined.
#[local] Instance benchmark_dec : EqDecision (Signing.BenchmarkMetrics float64).
Proof. solve_decision. Defined.
#[local] Instance metrics_dec : EqDecision (Signing.Metrics float64).
Proof. solve_decision. Defined.
#[local] Instance extended_dec : EqDecision (Extended float64).
Proof. solve_decision. Defined.
#[local] Instance report_dec : EqDecision (SignedReport float64).
Proof. solve_decision. Defined.

(** An encoder that knows the one report. *)
Definition sample_enc (r : SignedReport float64) : res string := if decide (r = first_report) then Ok "{}" else Err "another report".
Definition sample_dec (s : string) : option (SignedReport float64) := if String.eqb s "{}" then Some first_report else None.

Lemma sample_enc_dec r s : sample_enc r = Ok s → sample_dec s = Some r.
Proof. unfold sample_enc. destruct (decide _) as [->|]; [|done]. by intros [= <-]. Qed.

Definition writing_world : surroundings (F := float64) (C := toy_crypto) := sample_world sample_enc sample_dec [] (104 * Day).

Definition written : list SignedReportRecord := default [] (sample_generate writing_world sample_request).2.

Lemma sample_written : sample_generate writing_world sample_request = (Ok first_report, Some written).
Proof. vm_compute. reflexivity. Qed.

Definition reading_world : surroundings (F := float64) (C := toy_crypto) := sample_world sample_enc sample_dec written (110 * Day).

Lemma sample_served : checkReportCache reading_world sample_request = Some first_report.
Proof. vm_compute. reflexivity. Qed.

Lemma cached_report_was_issued_witness :
  ∃ req' at_, issued_for (PF := sample_pow) (JF := exact_number) (C := toy_crypto) req' first_report at_ ∧ gr_UserUID req' = "u" ∧
    plain_request req' ∧ 103 * Day <= at_.
Proof.
  destruct (cached_report_was_issued (PF := sample_pow) (JF := exact_number) (C := toy_crypto) sample_enc sample_dec written reading_world sample_request
    first_report sample_enc_dec) as (req' & at_ & Hi & Hk & _ & Hp & Hat).
  - exact (cache_request _ _ writing_world sample_request _ [] written eq_refl (cache_empty _ _) eq_refl eq_refl sample_written).
  - reflexivity.
  - reflexivity.
  - exact sample_served.
  - exists req', at_. split; [exact Hi|]. split; [exact (f_equal (λ x, x.1.1.1) Hk)|]. split; [exact Hp|].
    apply (Hat (nth 3 sample_stored (sample_row 0 0)) (103 * Day)); [right; right; right; left|reflexivity|vm_compute; split; discriminate|by left|vm_compute; reflexivity].
Defined.

(** *** Euros: the rate of the last day is not final yet *)

Definition euro_rates : gmap string (gmap string float64) :=
  {[ "EUR" := {[ FormatDay 99 := b64 2; FormatDay 100 := b64 2; FormatDay 101 := b64 2 ]} ]}.

Definition euro_valued : list (Snapshot float64) :=
  match snapshotsInCurrency sample_stored euro_rates "EUR" (104 * Day) with Ok l => l | Err _ => [] end.

Lemma sample_in_order : in_order sample_stored.
Proof. repeat first [constructor | vm_compute; discriminate]. Qed.

Lemma euro_ok : snapshotsInCurrency sample_stored euro_rates "EUR" (104 * Day) = Ok euro_valued.
Proof. vm_compute. reflexivity. Qed.

Lemma currency_cut_at_tail_witness :
  length euro_valued = 3%nat ∧
  ∃ r, snapshotRate (nth 2 sample_stored (sample_row 0 0)) euro_rates "EUR" = Some r ∧ in_currency r (nth 2 sample_stored (sample_row 0 0)) ∈ euro_valued.
Proof.
  split; [vm_compute; reflexivity|].
  destruct (currency_cut_at_tail sample_stored euro_rates "EUR" (104 * Day) euro_valued sample_in_order euro_ok) as (_ & H & _).
  apply (H _ (nth 2 euro_valued (sample_row 0 0))); [right; right; left|apply list_elem_of_In, nth_In; vm_compute; lia|vm_compute; reflexivity].
Defined.

End ReportSafe.
