(* ===== verification/GoText.v ===== *)
(** * Text and numbers of the Go standard library

    What the connectors use of [strings], [strconv], [sort] and of the compact
    dates of package [time].  The conversion between float64 and text is the
    class [FloatText]. *)

From S2P Require Import Prelude Num GoTime.
From stdpp Require Import base strings sorting tactics list.
From Stdlib Require Import ZArith Ascii Lia.
Local Open Scope Z_scope.

(** ** strings *)

Definition HasPrefix (s prefix : string) : bool := String.prefix prefix s.

Definition HasSuffix (s suffix : string) : bool :=
  let n := String.length s in let k := String.length suffix in
  Nat.leb k n && String.eqb (String.substring (n - k) k s) suffix.

(** [s[:len(s)-1]] *)
Definition drop_last (s : string) : string := String.substring 0 (String.length s - 1) s.

Lemma substring_length n s : String.length (String.substring 0 n s) = Nat.min n (String.length s).
Proof. revert n. induction s as [|c s IH]; intros [|n]; cbn; [done..|]. by rewrite IH. Qed.

(** [s[n:]] *)
Fixpoint drop_str (n : nat) (s : string) : string :=
  match n, s with S n, String _ s' => drop_str n s' | _, _ => s end.

(** [strings.TrimPrefix] *)
Definition TrimPrefix (s prefix : string) : string := if HasPrefix s prefix then drop_str (String.length prefix) s else s.

(** [strings.ReplaceAll] for a non-empty [old]: the leftmost occurrences, from
    left to right.  Each step consumes a character, so the length is enough
    fuel. *)
Fixpoint replace_from (fuel : nat) (s old new : string) : string :=
  match fuel, s with
  | O, _ | _, EmptyString => s
  | S n, String c s' =>
      if String.prefix old s then new +:+ replace_from n (drop_str (String.length old) s) old new
      else String c (replace_from n s' old new)
  end.

Definition ReplaceAll (s old new : string) : string := replace_from (String.length s) s old new.

(** *** A text without its secret *)

Lemma drop_str_length n s : (String.length (drop_str n s) <= String.length s - n)%nat.
Proof. revert n. induction s as [|c s IH]; intros [|n]; cbn; [lia..|]. specialize (IH n). lia. Qed.

Definition star_free (s : string) : Prop := ¬ List.In "*"%char (String.list_ascii_of_string s).

Lemma star_free_cons c s : star_free (String c s) → c ≠ "*"%char ∧ star_free s.
Proof. unfold star_free. cbn. tauto. Qed.

Lemma prefix_star p t : star_free p → String.prefix p (String "*" t) = true → p = "".
Proof. destruct p as [|a p]; [done|]. intros [Ha _]%star_free_cons. cbn. destruct (ascii_dec a "*"); [done|done]. Qed.

Lemma prefix_replace n p s old : star_free p → String.prefix p (replace_from n s old "***") = true → String.prefix p s = true.
Proof.
  revert p s. induction n as [|n IH]; intros p [|c s] Hp; cbn [replace_from]; [done..|]. destruct (String.prefix old (String c s)).
  - intros ->%prefix_star; [by destruct s|done].
  - destruct p as [|a p]; [done|]. apply star_free_cons in Hp as [_ Hp]. cbn. destruct (ascii_dec a c); [|done]. by apply IH.
Qed.

Lemma contains_stars t p : star_free p → p ≠ "" → Contains ("***" +:+ t) p = true → Contains t p = true.
Proof.
  intros Hp Hne. change ("***" +:+ t) with (String "*" (String "*" (String "*" t))).
  do 3 (cbn [Contains]; match goal with |- context [String.prefix p (String "*" ?u)] => let H := fresh in destruct (String.prefix p (String "*" u)) eqn:H; [by apply prefix_star in H|clear H; cbn [orb]] end).
  done.
Qed.

Lemma contains_drop n s p : Contains (drop_str n s) p = true → Contains s p = true.
Proof.
  revert n. induction s as [|c s IH]; intros [|n]; cbn [drop_str]; [done..|]. intros H%IH. cbn [Contains]. rewrite H. apply orb_true_r.
Qed.

(** Only what was there before is in the text after. *)
Lemma contains_replace n s old p : star_free p → p ≠ "" → Contains (replace_from n s old "***") p = true → Contains s p = true.
Proof.
  intros Hp Hne. revert s. induction n as [|n IH]; intros [|c s]; [done..|]. intros H. destruct (String.prefix old (String c s)) eqn:E; cbn [replace_from] in H; rewrite E in H.
  - apply contains_stars in H; [|done..]. apply IH in H. by eapply contains_drop.
  - cbn [Contains] in H |- *. apply orb_true_iff in H as [H|H]; apply orb_true_iff; [left|right; by apply IH].
    apply (prefix_replace (S n) p (String c s) old Hp). cbn [replace_from]. by rewrite E.
Qed.

Lemma prefix_nil_false p : p ≠ "" → String.prefix p "" = false.
Proof. by destruct p. Qed.

Lemma replace_removes n s old :
  star_free old → old ≠ "" → (String.length s <= n)%nat → Contains (replace_from n s old "***") old = false.
Proof.
  intros Hs Hne. revert s. induction n as [|n IH]; intros [|c s] Hl; cbn [replace_from]; try (cbn [Contains]; by rewrite prefix_nil_false); [cbn in Hl; lia|].
  destruct (String.prefix old (String c s)) eqn:E.
  - destruct (Contains _ old) eqn:Ec; [|done]. apply contains_stars in Ec; [|done..]. rewrite IH in Ec; [done|].
    pose proof (drop_str_length (String.length old) (String c s)). cbn [String.length] in *. destruct old; [done|]. cbn [String.length] in *. lia.
  - cbn [Contains]. rewrite IH by (cbn [String.length] in Hl; lia). rewrite orb_false_r. destruct (String.prefix old (String c (replace_from n s old "***"))) eqn:Ep; [|done].
    assert (String.prefix old (String c s) = true); [|congruence]. apply (prefix_replace (S n) old _ old Hs). cbn [replace_from]. by rewrite E.
Qed.

Lemma ReplaceAll_removes s old : star_free old → old ≠ "" → Contains (ReplaceAll s old "***") old = false.
Proof. intros. by apply replace_removes. Qed.

Lemma ReplaceAll_absent s old p : star_free p → p ≠ "" → Contains s p = false → Contains (ReplaceAll s old "***") p = false.
Proof. intros Hp Hne H. destruct (Contains (ReplaceAll s old "***") p) eqn:E; [|done]. apply contains_replace in E; congruence. Qed.

(** ** strconv *)

Definition all_digits (s : string) : bool :=
  negb (String.eqb s "") && forallb (λ c, bool_decide (is_Some (undigit c))) (String.list_ascii_of_string s).

(** [strconv.Atoi] succeeds on a text too short to overflow. *)
Definition atoi_ok (s : string) : bool :=
  match s with
  | String c s' => if Ascii.eqb c "+" || Ascii.eqb c "-" then all_digits s' else all_digits s
  | EmptyString => false
  end.

Fixpoint digits_from (acc : Z) (s : string) : option Z :=
  match s with
  | EmptyString => Some acc
  | String c s' => d ← undigit c; digits_from (10 * acc + d) s'
  end.

(** [strconv.ParseInt(s, 10, 64)], and [strconv.Atoi] on 64 bits *)
Definition ParseInt (s : string) : option Z :=
  let parse (neg : bool) (t : string) :=
    if String.eqb t "" then None
    else n ← digits_from 0 t; let n := if neg then - n else n in if (- 2 ^ 63 <=? n) && (n <? 2 ^ 63) then Some n else None in
  match s with
  | EmptyString => None
  | String c t => if Ascii.eqb c "+" then parse false t else if Ascii.eqb c "-" then parse true t else parse false s
  end.

(** [strings.Split(s, sep)], for a separator of one byte. *)
Fixpoint Split (sep : Ascii.ascii) (s : string) : list string :=
  match s with
  | EmptyString => [""]
  | String c s' =>
      if Ascii.eqb c sep then "" :: Split sep s'
      else match Split sep s' with x :: l => String c x :: l | [] => [String c ""] end
  end.

Fixpoint lacks (sep : Ascii.ascii) (s : string) : bool :=
  match s with EmptyString => true | String c s' => negb (Ascii.eqb c sep) && lacks sep s' end.

Lemma split_plain sep s : lacks sep s = true → Split sep s = [s].
Proof. induction s as [|c s IH]; [done|]. cbn. intros [Hc Hs]%andb_true_iff. apply negb_true_iff in Hc. rewrite Hc, IH by done. done. Qed.

Lemma split_app sep s t : lacks sep s = true → Split sep (s +:+ String sep t) = s :: Split sep t.
Proof.
  induction s as [|c s IH]; [intros _; change ("" +:+ String sep t) with (String sep t); cbn [Split]; by rewrite Ascii.eqb_refl|]. change (String c s +:+ String sep t) with (String c (s +:+ String sep t)). cbn [Split lacks]. intros [Hc Hs]%andb_true_iff. apply negb_true_iff in Hc. rewrite Hc, IH by done. done.
Qed.

Lemma Split_cons sep s : ∃ x l, Split sep s = x :: l.
Proof. destruct s as [|c s]; cbn; [by eexists _, _|]. destruct (Ascii.eqb c sep); [by eexists _, _|]. destruct (Split sep s); by eexists _, _. Qed.

(** [strings.Join] of the parts is the text. *)
Lemma Join_Split sep s : Prelude.Join (String sep "") (Split sep s) = s.
Proof.
  induction s as [|c s IH]; [done|]. cbn [Split]. destruct (Split_cons sep s) as (x & l & E). rewrite E in *. destruct (Ascii.eqb_spec c sep) as [->|].
  - change (Prelude.Join (String sep "") ("" :: x :: l)) with (String sep (Prelude.Join (String sep "") (x :: l))). by rewrite IH.
  - rewrite <- IH. by destruct l.
Qed.

(** [strconv.ParseFloat(s, 64)]: the value it returns, and whether it returns
    no error; [strconv.FormatFloat(x, 'f', -1, 64)]. *)
Class FloatText (F : Type) := {
  ParseFloat : string → F * bool;
  FormatFloat : F → string;
}.

(** [v, _ := strconv.ParseFloat(s, 64)] *)
Definition float_of {F} `{FloatText F} (s : string) : F := (ParseFloat s).1.

(** ** sort *)

(** [sort.SliceStable] by a string key. *)
Section string_sort.
Context {A : Type} (key : A → string).

Definition skey_le (x y : A) : Prop := String.le (key x) (key y).

Fixpoint insert_str (x : A) (l : list A) : list A :=
  match l with
  | [] => [x]
  | y :: l' => if String.leb (key x) (key y) then x :: y :: l' else y :: insert_str x l'
  end.

Definition sort_str (l : list A) : list A := foldr insert_str [] l.

Lemma leb_false_le s t : String.leb s t = false → String.le t s.
Proof. intros H. destruct (total String.le t s) as [|Hs]; [done|]. unfold String.le in Hs. by rewrite H in Hs. Qed.

Lemma insert_str_perm x l : insert_str x l ≡ₚ x :: l.
Proof. induction l as [|y l IH]; cbn; [done|]. destruct (String.leb _ _); [done|]. rewrite IH. by rewrite Permutation_swap. Qed.

Lemma sort_str_perm l : sort_str l ≡ₚ l.
Proof. induction l as [|x l IH]; cbn; [done|]. by rewrite insert_str_perm, IH. Qed.

Lemma insert_str_sorted x l : StronglySorted skey_le l → StronglySorted skey_le (insert_str x l).
Proof.
  induction 1 as [|y l Hl IH Hy]; cbn; [by repeat constructor|]. destruct (String.leb (key x) (key y)) eqn:E.
  - constructor; [by constructor|]. assert (skey_le x y) as Hxy by (unfold skey_le, String.le; by rewrite E).
    constructor; [done|]. eapply Forall_impl; [exact Hy|]. intros z Hz. unfold skey_le in *. by etrans.
  - constructor; [done|]. rewrite insert_str_perm. constructor; [|done]. by apply leb_false_le.
Qed.

Lemma sort_str_sorted l : StronglySorted skey_le (sort_str l).
Proof. induction l; cbn; [constructor|]. by apply insert_str_sorted. Qed.

Lemma sort_str_elem x l : x ∈ sort_str l ↔ x ∈ l.
Proof. by rewrite (sort_str_perm l). Qed.

(** Equal keys keep their order. *)
Lemma insert_str_filter k x l :
  StronglySorted skey_le l →
  filter (λ y, key y = k) (insert_str x l) = filter (λ y, key y = k) (x :: l).
Proof.
  induction 1 as [|y l Hl IH Hy]; [done|]. cbn [insert_str]. destruct (String.leb (key x) (key y)) eqn:E; [done|].
  rewrite !filter_cons, IH, filter_cons. destruct (decide (key y = k)) as [<-|]; [|by destruct (decide (key x = k))].
  destruct (decide (key x = key y)) as [Hk|]; [|by repeat case_decide]. exfalso.
  rewrite Hk in E. apply leb_false_le in E as E'. unfold String.le in E'. by rewrite E in E'.
Qed.

Lemma sort_str_filter k l : filter (λ y, key y = k) (sort_str l) = filter (λ y, key y = k) l.
Proof.
  induction l as [|x l IH]; [done|]. cbn [sort_str foldr]. fold (sort_str l). rewrite insert_str_filter by apply sort_str_sorted.
  rewrite !filter_cons, IH. done.
Qed.

Lemma sort_str_id l : StronglySorted skey_le l → sort_str l = l.
Proof.
  induction 1 as [|x l Hl IH Hx]; [done|]. cbn [sort_str foldr]. fold (sort_str l). rewrite IH.
  destruct l as [|y l]; [done|]. cbn. apply Forall_cons in Hx as [Hxy _]. unfold skey_le, String.le in Hxy. by destruct (String.leb _ _).
Qed.

End string_sort.

(** [sort.Strings] *)
Definition Strings (l : list string) : list string := sort_str id l.

(** ** time *)

(** [t.Format("20060102")] *)
Definition FormatCompact (t : time) : string :=
  let '(y, m, d) := civil (day_index t) in pad4 y +:+ pad2 m +:+ pad2 d.

(** [time.Parse("20060102", s)] *)
Definition ParseCompact (s : string) : option time :=
  match s with
  | String y1 (String y2 (String y3 (String y4 (String m1 (String m2 (String d1 (String d2 EmptyString))))))) =>
      ParseDate (String y1 (String y2 (String y3 (String y4 (String dash (String m1 (String m2 (String dash (String d1 (String d2 EmptyString))))))))))
  | _ => None
  end.

(** The nanoseconds of a fraction's digits: nine are read, the others are
    dropped. *)
Fixpoint fraction (digits : nat) (scale acc : Z) (s : string) : option Z :=
  match s with
  | EmptyString => Some acc
  | String c s' =>
      x ← undigit c;
      match digits with
      | O => fraction O scale acc s'
      | S n => fraction n (scale / 10) (acc + x * scale) s'
      end
  end.

(** What may follow the seconds of a value whose layout ends with them. *)
Definition after_seconds (s : string) : option Z :=
  match s with
  | EmptyString => Some 0
  | String c s' => if (Ascii.eqb c "." || Ascii.eqb c ",") && negb (String.eqb s' "") then fraction 9 100000000 0 s' else None
  end.

(** [time.Parse("20060102;150405", s)] *)
Definition ParseCompactTime (s : string) : option time :=
  day ← ParseCompact (String.substring 0 8 s);
  match String.substring 8 (String.length s) s with
  | String semi (String h1 (String h2 (String m1 (String m2 (String s1 (String s2 rest)))))) =>
      h ← num2 h1 h2; m ← num2 m1 m2; sec ← num2 s1 s2; ns ← after_seconds rest;
      if Ascii.eqb semi ";" && (h <? 24) && (m <? 60) && (sec <? 60)
      then Some (day + h * Hour + m * Minute + sec * Second + ns) else None
  | _ => None
  end.

Lemma FormatCompact_shape t : modern t → ∃ y1 y2 y3 y4 m1 m2 d1 d2,
  FormatCompact t = String y1 (String y2 (String y3 (String y4 (String m1 (String m2 (String d1 (String d2 EmptyString))))))) ∧
  FormatDate t = String y1 (String y2 (String y3 (String y4 (String dash (String m1 (String m2 (String dash (String d1 (String d2 EmptyString))))))))).
Proof.
  intros _. unfold FormatCompact, FormatDate, FormatDay. destruct (civil (day_index t)) as [[y m] d].
  unfold pad4, pad2. eexists _, _, _, _, _, _, _, _. split; reflexivity.
Qed.

Lemma ParseCompact_FormatCompact t : modern t → ParseCompact (FormatCompact t) = Some (truncDay t).
Proof.
  intros Ht. destruct (FormatCompact_shape t Ht) as (y1 & y2 & y3 & y4 & m1 & m2 & d1 & d2 & -> & E). cbn [ParseCompact].
  rewrite <- E. by apply ParseDate_FormatDate.
Qed.

Lemma FormatCompact_trunc t : FormatCompact (truncDay t) = FormatCompact t.
Proof. unfold FormatCompact. by rewrite truncDay_index. Qed.

Lemma civil_of_day y m d : 1 <= m <= 12 → 1 <= d <= days_in_month y m → civil (day_of_civil y m d) = (y, m, d).
Proof.
  intros Hm Hd. destruct (civil (day_of_civil y m d)) as [[y' m'] d'] eqn:E. apply civil_spec in E as (Hm' & Hd' & Hday).
  pose proof (day_of_civil_month y m d y' m' d' Hm Hm' Hd Hd'). pose proof (day_of_civil_month y' m' d' y m d Hm' Hm Hd' Hd).
  assert (y' = y ∧ m' = m) as [-> ->] by lia. unfold day_of_civil in Hday. assert (d' = d) as -> by lia. done.
Qed.

Lemma digit_of_undigit c n : undigit c = Some n → digit n = c ∧ 0 <= n <= 9.
Proof.
  unfold undigit. destruct (_ && _) eqn:E; [|done]. intros [= <-]. split; [|go_bool; lia]. unfold digit.
  replace (Z.to_N (48 + (Z.of_N (Ascii.N_of_ascii c) - 48))) with (Ascii.N_of_ascii c) by lia. apply Ascii.ascii_N_embedding.
Qed.

Lemma pad2_of_num2 a b n : num2 a b = Some n → pad2 n = String a (String b "") ∧ 0 <= n <= 99.
Proof.
  unfold num2, mbind, option_bind. destruct (undigit a) as [x|] eqn:Ea; [|done]. destruct (undigit b) as [y|] eqn:Eb; [|done]. intros [= <-].
  apply digit_of_undigit in Ea as [<- Hx], Eb as [<- Hy]. split; [|lia]. unfold pad2.
  replace ((10 * x + y) / 10 mod 10) with x by dlia. by replace ((10 * x + y) mod 10) with y by dlia.
Qed.

(** A date that is read prints as it was written. *)
Lemma FormatCompact_ParseCompact s t : ParseCompact s = Some t → FormatCompact t = s ∧ truncDay t = t.
Proof.
  unfold ParseCompact. repeat (destruct s as [|? s]; [done|]). destruct s; [|done]. unfold ParseDate, mbind, option_bind.
  repeat (match goal with |- context [num2 ?a ?b] => destruct (num2 a b) eqn:?; [|done] end). destruct (_ && _) eqn:E; [|done]. intros [= <-].
  repeat (match goal with H : num2 _ _ = Some _ |- _ => apply pad2_of_num2 in H as [? ?] end). go_bool.
  unfold FormatCompact. assert (∀ k, day_index (k * Day) = k) as Hk by (intros; unfold day_index; apply Z.div_mul; done).
  rewrite Hk, civil_of_day by lia. split; [|unfold truncDay; fold (day_index (day_of_civil (100 * z + z0) z1 z2 * Day)); by rewrite Hk].
  unfold pad4. match goal with |- context [100 * ?a + ?b] => replace ((100 * a + b) / 100) with a by dlia; replace ((100 * a + b) mod 100) with b by dlia end.
  repeat (match goal with H : pad2 _ = _ |- _ => rewrite H; clear H end). done.
Qed.
