(* ===== verification/Flex.v ===== *)
(** * The Flex statement of one account (internal/connector/ibkr_statement.go)

    A report of Interactive Brokers narrowed to the account a connection
    measures: the largest group of accounts, its daily statements merged, its
    segments added.  A report is the tree encoding/xml reads from it: what
    writeFlexOpen writes reads back as the same tree. *)

From S2P Require Import Prelude Num GoTime GoText Types.
From stdpp Require Import base gmap strings tactics sorting list.
From Stdlib Require Import ZArith Ascii Lia.
Local Open Scope Z_scope.

Module Flex.

(** ** The document *)

Abbreviation attrs := (list (string * string)).

Record flexRow := mkRow { fr_XMLName : string; fr_Attrs : attrs; fr_Inner : string }.

Record flexSection := mkSection { fs_XMLName : string; fs_Attrs : attrs; fs_Rows : list flexRow }.

(** One FlexStatement: [Inner] is the list of its sections. *)
Record flexStatementBlock := mkBlock { bl_Attrs : attrs; bl_Inner : list flexSection }.

(** [Unreadable] is a body xml.Unmarshal refuses. *)
Inductive report :=
| Unreadable (raw : string)
| FlexQueryResponse (statements : list flexStatementBlock).

(** The methods [attr]: the first attribute of the name. *)
Definition attr (l : attrs) (name : string) : string :=
  match find_first (λ a, String.eqb a.1 name) l with Some a => a.2 | None => "" end.

(** A struct field that reads an attribute holds the last one of the name. *)
Definition field_opt (l : attrs) (name : string) : option string :=
  foldl (λ acc a, if String.eqb a.1 name then Some a.2 else acc) None l.

Definition field (l : attrs) (name : string) : string := default "" (field_opt l name).

(** The rows [row] of the sections [section] of a statement. *)
Definition block_rows (b : flexStatementBlock) (section row : string) : list flexRow :=
  sec ← filter (λ s, fs_XMLName s = section) (bl_Inner b); filter (λ r, fr_XMLName r = row) (fs_Rows sec).

(** encoding/xml folds the statements of a report into one struct: the rows of
    each are appended. *)
Definition report_rows (rep : list flexStatementBlock) (section row : string) : list flexRow :=
  b ← rep; block_rows b section row.

(** The attribute of the folded statement: the last statement that has it. *)
Definition report_attr (rep : list flexStatementBlock) (name : string) : string :=
  foldl (λ acc b, default acc (field_opt (bl_Attrs b) name)) "" rep.

Definition nav_rows (b : flexStatementBlock) : list flexRow := block_rows b "EquitySummaryInBase" "EquitySummaryByReportDateInBase".

(** ** Dates *)

Definition flexDay (v : string) : option string :=
  let d := ReplaceAll v "-" "" in
  if negb (String.length d =? 8)%nat then None else if atoi_ok d then Some d else None.

Section flex.
Context {F : Type} {NF : Num F} {TF : FloatText F}.

(** ** The account with the equity *)

Definition later_row (acc : string * F) (r : flexRow) : string * F :=
  let date := field (fr_Attrs r) "reportDate" in
  if String.leb acc.1 date then (date, float_of (field (fr_Attrs r) "total")) else acc.

Definition latest (b : flexStatementBlock) : string * F := foldl later_row ("", f0) (nav_rows b).

Definition accountEquity (blocks : list flexStatementBlock) : F :=
  (foldl (λ acc b, let d := latest b in if String.leb acc.1 d.1 then d else acc) ("", f0) blocks).2.

Definition namedAccounts (ids : list string) : list string := filter (λ id, TrimSpace id ≠ "") ids.

(** ** Segments *)

(** [segmentOf], for the upper-case ids [present] in the report. *)
Definition segmentOf (present : gset string) (id : string) : option string :=
  let up := ToUpper id in
  if Nat.ltb (String.length up) 2 || negb (HasSuffix up "F") then None
  else let base := drop_last up in if bool_decide (base ∈ present) then Some base else None.

Definition present_ids (order : list string) : gset string := list_to_set (ToUpper <$> order).

(** The first loop: every account that is no segment opens a group. *)
Definition open_group (present : gset string) (acc : list (list string) * gmap string nat) (id : string) : list (list string) * gmap string nat :=
  match segmentOf present id with
  | Some _ => acc
  | None => (acc.1 ++ [[id]], <[ToUpper id := length acc.1]> acc.2)
  end.

Definition open_groups (present : gset string) (order : list string) : list (list string) * gmap string nat :=
  foldl (open_group present) ([], ∅) order.

(** The second: a segment joins the group of its base; an absent key of a Go
    map reads as zero. *)
Definition join_segments (present : gset string) (index : gmap string nat) (order : list string) (groups : list (list string)) : list (list string) :=
  foldl (λ groups id,
    match segmentOf present id with
    | Some base => alter (λ g, g ++ [id]) (default 0%nat (index !! base)) groups
    | None => groups
    end) groups order.

Definition segmentGroups (order : list string) : list (list string) :=
  let present := present_ids order in
  let '(groups, index) := open_groups present order in
  join_segments present index order groups.

(** ** Daily statements *)

Record datedStatement := mkDated { ds_block : flexStatementBlock; ds_from : string; ds_to : string }.

Definition dated (b : flexStatementBlock) : option datedStatement :=
  from ← flexDay (attr (bl_Attrs b) "fromDate"); to ← flexDay (attr (bl_Attrs b) "toDate");
  if String.ltb to from then None else Some (mkDated b from to).

Fixpoint dates_overlap (days : list datedStatement) : option (datedStatement * datedStatement) :=
  match days with
  | a :: ((b :: _) as rest) => if String.leb (ds_from b) (ds_to a) then Some (a, b) else dates_overlap rest
  | _ => None
  end.

Definition consecutiveDays (blocks : list flexStatementBlock) : res (list datedStatement) :=
  match mapM dated blocks with
  | None => Err "merge daily flex statements: a statement has no readable period"
  | Some days =>
      let days := sort_str ds_from days in
      match dates_overlap days with
      | Some (a, b) => Err ("merge daily flex statements: periods " +:+ ds_from a +:+ "-" +:+ ds_to a +:+ " and " +:+ ds_from b +:+ "-" +:+ ds_to b +:+ " overlap")
      | None => Ok days
      end
  end.

Definition nul : string := String (ascii_of_nat 0) "".
Definition soh : string := String (ascii_of_nat 1) "".

(** A row by its name and every attribute, in order. *)
Definition row_key (r : flexRow) : string :=
  fr_XMLName r +:+ foldr (λ a acc, nul +:+ a.1 +:+ "=" +:+ a.2 +:+ acc) "" (fr_Attrs r) +:+ nul +:+ fr_Inner r.

Record flexMerge := mkMerge {
  fm_order : list string;
  fm_sections : gmap string flexSection;
  fm_nav : gmap string flexRow;
  fm_seen : gset string;
}.

(** A Cash Report row is stamped with the dates of its statement. *)
Definition stamp (d : datedStatement) (name : string) (r : flexRow) : flexRow :=
  if String.eqb name "CashReport" && String.eqb (attr (fr_Attrs r) "fromDate") "" && String.eqb (attr (fr_Attrs r) "toDate") ""
  then mkRow (fr_XMLName r) (fr_Attrs r ++ [("fromDate", ds_from d); ("toDate", ds_to d)]) (fr_Inner r) else r.

(** [addRows]: the rows of the section, what was seen before and what was seen
    today. *)
Definition add_row (d : datedStatement) (name : string) (acc : list flexRow * gset string * gset string) (r : flexRow)
  : list flexRow * gset string * gset string :=
  let '(rows, seen, dayKeys) := acc in
  let r := stamp d name r in
  let k := name +:+ soh +:+ row_key r in
  if bool_decide (k ∈ seen) && negb (bool_decide (k ∈ dayKeys)) then acc
  else (rows ++ [r], {[k]} ∪ seen, {[k]} ∪ dayKeys).

Definition addRows (d : datedStatement) (name : string) (rows : list flexRow) (out : list flexRow) (seen dayKeys : gset string)
  : list flexRow * gset string * gset string := foldl (add_row d name) (out, seen, dayKeys) rows.

Definition with_rows (s : flexSection) (rows : list flexRow) : flexSection := mkSection (fs_XMLName s) (fs_Attrs s) rows.

Definition open_section (m : flexMerge) (sec : flexSection) : flexMerge * flexSection :=
  match fm_sections m !! fs_XMLName sec with
  | Some out => (m, out)
  | None =>
      let out := mkSection (fs_XMLName sec) (fs_Attrs sec) [] in
      (mkMerge (fm_order m ++ [fs_XMLName sec]) (<[fs_XMLName sec := out]> (fm_sections m)) (fm_nav m) (fm_seen m), out)
  end.

Definition add_section (d : datedStatement) (acc : flexMerge * gset string) (sec : flexSection) : flexMerge * gset string :=
  let '(m, dayKeys) := acc in
  let name := fs_XMLName sec in
  let '(m, out) := open_section m sec in
  if String.eqb name "EquitySummaryInBase" then
    (mkMerge (fm_order m) (fm_sections m) (foldl (λ nav r, <[attr (fr_Attrs r) "reportDate" := r]> nav) (fm_nav m) (fs_Rows sec)) (fm_seen m), dayKeys)
  else if String.eqb name "OpenPositions" then
    (mkMerge (fm_order m) (<[name := with_rows out (fs_Rows sec)]> (fm_sections m)) (fm_nav m) (fm_seen m), dayKeys)
  else
    let '(rows, seen, dayKeys) := addRows d name (fs_Rows sec) (fs_Rows out) (fm_seen m) dayKeys in
    (mkMerge (fm_order m) (<[name := with_rows out rows]> (fm_sections m)) (fm_nav m) seen, dayKeys).

Definition addDay (m : flexMerge) (d : datedStatement) : flexMerge := (foldl (add_section d) (m, ∅) (bl_Inner (ds_block d))).1.

Definition settleNAV (m : flexMerge) : flexMerge :=
  match fm_sections m !! "EquitySummaryInBase" with
  | None => m
  | Some nav =>
      let dates := Strings ((map_to_list (fm_nav m)).*1) in
      mkMerge (fm_order m)
        (<["EquitySummaryInBase" := with_rows nav (fs_Rows nav ++ omap (λ d, fm_nav m !! d) dates)]> (fm_sections m))
        (fm_nav m) (fm_seen m)
  end.

(** [write] and its reading back. *)
Definition merged_sections (m : flexMerge) : list flexSection := omap (λ name, fm_sections m !! name) (fm_order m).

Definition set_attr (name value : string) (l : attrs) : attrs :=
  (λ a, if String.eqb a.1 name then (a.1, value) else a) <$> l.

Definition empty_merge : flexMerge := mkMerge [] ∅ ∅ ∅.

Definition mergeDailyStatements (blocks : list flexStatementBlock) : res flexStatementBlock :=
  days ← consecutiveDays blocks;
  let m := settleNAV (foldl addDay empty_merge days) in
  match head days, last days with
  | Some first, Some last_ =>
      Ok (mkBlock (set_attr "fromDate" (attr (bl_Attrs (ds_block first)) "fromDate") (bl_Attrs (ds_block last_))) (merged_sections m))
  | _, _ => Err "index out of range"
  end.

Definition accountStatement (blocks : list flexStatementBlock) : res flexStatementBlock :=
  match blocks with
  | [b] => Ok b
  | _ => mergeDailyStatements blocks
  end.

(** ** Segments added *)

Definition segmentRowSections : gset string :=
  {[ "Trades"; "OpenPositions"; "CashTransactions"; "Transfers"; "CashReport" ]}.

Definition navTextAttrs : gset string := {[ "reportDate"; "currency"; "accountId"; "acctAlias"; "model" ]}.

(** The attributes of one date met so far: their order, the first value of
    each, the sums, and which are text. *)
Record nav_sum := mkNavSum {
  ns_names : list string;
  ns_first : gmap string string;
  ns_sums : gmap string F;
  ns_text : gset string;
}.

Definition meet (st : nav_sum) (name value : string) : nav_sum :=
  match ns_first st !! name with
  | Some _ => st
  | None => mkNavSum (ns_names st ++ [name]) (<[name := value]> (ns_first st)) (ns_sums st)
              (if bool_decide (name ∈ navTextAttrs) then {[name]} ∪ ns_text st else ns_text st)
  end.

Definition add_attr (date : string) (st : nav_sum) (a : string * string) : res nav_sum :=
  let '(name, value) := a in
  let st := meet st name value in
  let first := default "" (ns_first st !! name) in
  if String.eqb name "currency" && negb (String.eqb value "") && negb (String.eqb first "") && negb (String.eqb value first)
  then Err ("consolidate segment statements: NAV in " +:+ first +:+ " and " +:+ value +:+ " on " +:+ date)
  else if bool_decide (name ∈ ns_text st) || String.eqb value "" then Ok st
  else match ParseFloat value with
  | (_, false) => Ok (mkNavSum (ns_names st) (ns_first st) (ns_sums st) ({[name]} ∪ ns_text st))
  | (v, true) => Ok (mkNavSum (ns_names st) (ns_first st) (<[name := fadd (default f0 (ns_sums st !! name)) v]> (ns_sums st)) (ns_text st))
  end.

Fixpoint add_attrs (date : string) (st : nav_sum) (l : attrs) : res nav_sum :=
  match l with
  | [] => Ok st
  | a :: l => st ← add_attr date st a; add_attrs date st l
  end.

Definition nav_value (date : string) (st : nav_sum) (name : string) : string :=
  if String.eqb name "reportDate" then date
  else if bool_decide (name ∈ ns_text st) then default "" (ns_first st !! name)
  else FormatFloat (default f0 (ns_sums st !! name)).

Definition sumNAVRows (date : string) (rows : list flexRow) : res flexRow :=
  st ← add_attrs date (mkNavSum [] ∅ ∅ ∅) (r ← rows; fr_Attrs r);
  match rows with
  | [] => Err "index out of range"
  | r0 :: _ => Ok (mkRow (fr_XMLName r0) ((λ name, (name, nav_value date st name)) <$> ns_names st) "")
  end.

Definition report_date (r : flexRow) : string := attr (fr_Attrs r) "reportDate".

(** The dated rows of a section, oldest first. *)
Definition nav_side (s : flexSection) : list flexRow := sort_str report_date (filter (λ r, report_date r ≠ "") (fs_Rows s)).

Definition nav_dates (sides : list (list flexRow)) : list string :=
  Strings (elements (list_to_set (report_date <$> concat sides) : gset string)).

(** A segment between two dates: the row it carries, and the rows that are
    still to come. *)
Abbreviation cursor := (option flexRow * list flexRow)%type.

Fixpoint advance (date : string) (carried : option flexRow) (next : list flexRow) : cursor :=
  match next with
  | r :: rest => if String.leb (report_date r) date then advance date (Some r) rest else (carried, next)
  | [] => (carried, next)
  end.

Fixpoint sum_dates (dates : list string) (sides : list cursor) : res (list flexRow) :=
  match dates with
  | [] => Ok []
  | date :: dates =>
      let sides := (λ c : cursor, advance date c.1 c.2) <$> sides in
      row ← sumNAVRows date (omap fst sides);
      rows ← sum_dates dates sides;
      Ok (row :: rows)
  end.

Definition sumSegmentNAV (secs : list flexSection) : res (list flexRow) :=
  let sides := nav_side <$> secs in
  sum_dates (nav_dates sides) ((λ l, (None, l)) <$> sides).

(** The sections of the statements by name, in the order they are met. *)
Definition section_order (docs : list flexStatementBlock) : list string :=
  foldl (λ order name, if bool_decide (name ∈ order) then order else order ++ [name]) [] (fs_XMLName <$> (d ← docs; bl_Inner d)).

Definition sections_named (docs : list flexStatementBlock) (name : string) : list flexSection :=
  filter (λ s, fs_XMLName s = name) (d ← docs; bl_Inner d).

Definition consolidate_section (docs : list flexStatementBlock) (name : string) : res flexSection :=
  match sections_named docs name with
  | [] => Err "index out of range"
  | (s0 :: _) as secs =>
      if String.eqb name "EquitySummaryInBase" then rows ← sumSegmentNAV secs; Ok (mkSection name (fs_Attrs s0) rows)
      else if bool_decide (name ∈ segmentRowSections) then Ok (mkSection name (fs_Attrs s0) (s ← secs; fs_Rows s))
      else Ok (mkSection name (fs_Attrs s0) (fs_Rows s0))
  end.

Fixpoint consolidate_all (docs : list flexStatementBlock) (names : list string) : res (list flexSection) :=
  match names with
  | [] => Ok []
  | name :: names => s ← consolidate_section docs name; l ← consolidate_all docs names; Ok (s :: l)
  end.

Definition earliest (docs : list flexStatementBlock) : string :=
  foldl (λ from d, match flexDay (attr (bl_Attrs d) "fromDate") with
    | Some f => if String.eqb from "" || String.ltb f from then f else from
    | None => from
    end) "" docs.

Definition latest_day (docs : list flexStatementBlock) : string :=
  foldl (λ to d, match flexDay (attr (bl_Attrs d) "toDate") with
    | Some t => if String.ltb to t then t else to
    | None => to
    end) "" docs.

Definition consolidateSegments (stmts : list flexStatementBlock) : res flexStatementBlock :=
  match stmts with
  | [] => Err "index out of range"
  | d0 :: _ =>
      let from := earliest stmts in
      let to := latest_day stmts in
      let attrs := bl_Attrs d0 in
      let attrs := if String.eqb from "" then attrs else set_attr "fromDate" from attrs in
      let attrs := if String.eqb to "" then attrs else set_attr "toDate" to attrs in
      sections ← consolidate_all stmts (section_order stmts);
      Ok (mkBlock attrs sections)
  end.

(** ** Narrowing *)

Record narrowedStatement := mkNarrowed { nw_report : report; nw_accounts : list string; nw_carried : nat }.

Definition account_of (b : flexStatementBlock) : string := attr (bl_Attrs b) "accountId".

(** [byAccount[id]] *)
Definition blocks_of (blocks : list flexStatementBlock) (id : string) : list flexStatementBlock :=
  filter (λ b, account_of b = id) blocks.

Definition account_order (blocks : list flexStatementBlock) : list string :=
  foldl (λ order id, if bool_decide (id ∈ order) then order else order ++ [id]) [] (account_of <$> blocks).

Definition groupEquity (blocks : list flexStatementBlock) (g : list string) : F :=
  foldl (λ total id, fadd total (accountEquity (blocks_of blocks id))) f0 g.

Definition keep_group (blocks : list flexStatementBlock) (g0 : list string) (groups : list (list string)) : list string :=
  foldl (λ keep g, if fltb (groupEquity blocks keep) (groupEquity blocks g) then g else keep) g0 groups.

Fixpoint account_statements (blocks : list flexStatementBlock) (ids : list string) : res (list flexStatementBlock) :=
  match ids with
  | [] => Ok []
  | id :: ids => s ← accountStatement (blocks_of blocks id); l ← account_statements blocks ids; Ok (s :: l)
  end.

Definition group_statement (blocks : list flexStatementBlock) (keep : list string) : res flexStatementBlock :=
  stmts ← account_statements blocks keep;
  match stmts with
  | [s] => Ok s
  | _ => consolidateSegments stmts
  end.

Definition narrowFlexStatement (rep : report) : res narrowedStatement :=
  match rep with
  | Unreadable _ | FlexQueryResponse [] => Ok (mkNarrowed rep [] 0)
  | FlexQueryResponse [b] => Ok (mkNarrowed rep (namedAccounts [account_of b]) 1)
  | FlexQueryResponse blocks =>
      let order := account_order blocks in
      match segmentGroups order with
      | [] => Err "index out of range"
      | g0 :: groups =>
          let keep := keep_group blocks g0 groups in
          stmt ← group_statement blocks keep;
          Ok (mkNarrowed (FlexQueryResponse [stmt]) (namedAccounts keep) (length order))
      end
  end.

(** ** The connector *)

(** [accountGuard] is nil before it is set. *)
Definition narrow (accountGuard : option (list string → bool → option string)) (rep : report) (past : bool) : res narrowedStatement :=
  n ← narrowFlexStatement rep;
  match accountGuard, nw_accounts n with
  | Some guard, _ :: _ => match guard (nw_accounts n) past with Some e => Err e | None => Ok n end
  | _, _ => Ok n
  end.

End flex.
End Flex.
