(* ===== verification/FlexRead.v ===== *)
(** * What is read from a Flex statement (internal/connector/ibkr.go, ibkr_statement.go)

    The balance, the positions, the capital flows, the trades and the daily
    history of a narrowed report, and the raw ledger of a whole one. *)

From S2P Require Import Prelude Num GoTime GoText Types Breakdown Flex.
From stdpp Require Import base gmap strings pretty tactics sorting list.
From Stdlib Require Import ZArith Ascii Lia.
Import Flex.
Local Open Scope Z_scope.

Module FlexRead.

(** ** Vocabulary *)

Definition flexCapitalTypes : gset string := {[ "Deposits"; "Withdrawals"; "Deposits/Withdrawals"; "Deposits & Withdrawals" ]}.

Definition flexPerformanceTypes : gset string :=
  {[ "Dividends"; "Payment In Lieu Of Dividends"; "Withholding Tax"; "Broker Interest Paid"; "Broker Interest Received";
     "Bond Interest Paid"; "Bond Interest Received"; "Other Fees"; "Commission Adjustments"; "Advisor Fees" ]}.

Record flexCashLevels := mkLevels { lv_hasDetail : bool; lv_hasPlain : bool }.

Definition see (l : flexCashLevels) (levelOfDetail currency : string) : flexCashLevels :=
  mkLevels (lv_hasDetail l || EqualFold levelOfDetail "DETAIL") (lv_hasPlain l || negb (String.eqb currency "BASE_SUMMARY")).

Definition restates (l : flexCashLevels) (levelOfDetail currency : string) : bool :=
  if String.eqb currency "BASE_SUMMARY" then lv_hasPlain l
  else lv_hasDetail l && negb (String.eqb levelOfDetail "") && negb (EqualFold levelOfDetail "DETAIL").

Definition parseFlexTimestamp (v : string) : option time :=
  match ParseCompactTime v with Some t => Some t | None => ParseCompact v end.

Definition capitalFlowDate (dateTime reportDate : string) : string := if String.eqb reportDate "" then dateTime else reportDate.

(** An attribute of a row. *)
Definition col (r : flexRow) (name : string) : string := field (fr_Attrs r) name.

Definition row_levels (rows : list flexRow) : flexCashLevels :=
  foldl (λ l r, see l (col r "levelOfDetail") (col r "currency")) (mkLevels false false) rows.

Definition row_restated (l : flexCashLevels) (r : flexRow) : bool := restates l (col r "levelOfDetail") (col r "currency").

Section read.
Context {F : Type} {NF : Num F} {TF : FloatText F}.

Abbreviation statements := (list flexStatementBlock).

Definition num (r : flexRow) (name : string) : F := float_of (col r name).

Definition cash_rows (rep : statements) : list flexRow := report_rows rep "CashTransactions" "CashTransaction".
Definition transfer_rows (rep : statements) : list flexRow := report_rows rep "Transfers" "Transfer".
Definition summary_rows (rep : statements) : list flexRow := report_rows rep "EquitySummaryInBase" "EquitySummaryByReportDateInBase".
Definition position_rows (rep : statements) : list flexRow := report_rows rep "OpenPositions" "OpenPosition".
Definition trade_rows (rep : statements) : list flexRow := report_rows rep "Trades" "Trade".

(** ** The currency of the account *)

(** The currencies of the funding rows: [None] is a disagreement, [Some ""]
    that no row names one. *)
Definition agree (acc : option string) (ccy : string) : option string :=
  seen ← acc; if negb (String.eqb seen "") && negb (String.eqb seen ccy) then None else Some ccy.

Definition funding_currencies (rep : statements) : list string :=
  let levels := row_levels (cash_rows rep) in
  (r ← cash_rows rep;
   if negb (bool_decide (col r "type" ∈ flexCapitalTypes)) || String.eqb (col r "currency") "BASE_SUMMARY" || row_restated levels r
   then [] else if String.eqb (col r "currency") "" then [] else [col r "currency"]) ++
  (r ← transfer_rows rep;
   if feqb (num r "cashTransfer") f0 || String.eqb (col r "currency") "" then [] else [col r "currency"]).

(** The currency, and whether it was inferred. *)
Definition accountCurrency (declared : string) (rep : report) : string * bool :=
  if negb (String.eqb declared "") then (declared, false)
  else match rep with
  | Unreadable _ => ("", false)
  | FlexQueryResponse rep =>
      match foldl agree (Some "") (funding_currencies rep) with
      | None => ("", false)
      | Some seen => if String.eqb seen "" then ("", false) else (seen, true)
      end
  end.

Definition declared_currency (rep : statements) : string :=
  match last (summary_rows rep) with Some r => col r "currency" | None => "" end.

Definition statementCurrency (rep : report) : string :=
  match rep with
  | Unreadable _ => ""
  | FlexQueryResponse stmts => (accountCurrency (declared_currency stmts) rep).1
  end.

(** ** Conversion rates *)

Definition add_rate (base : string) (out : gmap string (gmap string F)) (r : flexRow) : gmap string (gmap string F) :=
  let rate := num r "rate" in
  if fleb rate f0 || negb (String.eqb (col r "toCurrency") base) || String.eqb (col r "fromCurrency") "" then out
  else let day := ReplaceAll (col r "reportDate") "-" "" in
       <[day := <[col r "fromCurrency" := rate]> (default ∅ (out !! day))]> out.

Definition flexConversionRates (rep : report) (base : string) : gmap string (gmap string F) :=
  match rep with
  | Unreadable _ => ∅
  | FlexQueryResponse stmts =>
      if String.eqb base "" then ∅ else foldl (add_rate base) ∅ (report_rows stmts "ConversionRates" "ConversionRate")
  end.

(** ** The transfers of the Cash Report *)

Record cashReportTransfers := mkTransfers { ct_days : gmap string F; ct_datesDeposits : bool }.

Definition add_cash_row (out : cashReportTransfers) (r : flexRow) : cashReportTransfers :=
  if negb (String.eqb (col r "currency") "BASE_SUMMARY") then out
  else match flexDay (col r "fromDate"), flexDay (col r "toDate") with
  | Some from, Some to =>
      if negb (String.eqb from to) then out
      else
        let moved := fadd (num r "internalTransfers") (num r "accountTransfers") in
        let day := fadd (default f0 (ct_days out !! from)) moved in
        match field_opt (fr_Attrs r) "depositWithdrawals" with
        | None => mkTransfers (<[from := day]> (ct_days out)) (ct_datesDeposits out)
        | Some d => mkTransfers (<[from := fadd day (float_of d)]> (ct_days out)) true
        end
  | _, _ => out
  end.

Definition dailyCashReportTransfers (rows : list flexRow) : cashReportTransfers := foldl add_cash_row (mkTransfers ∅ false) rows.

Definition covers (c : cashReportTransfers) (day : string) : bool := bool_decide (is_Some (ct_days c !! day)).

Definition flows (c : cashReportTransfers) (since : time) : list (Cashflow F) :=
  let days := Strings ((filter (λ p, feqb p.2 f0 = false) (map_to_list (ct_days c))).*1) in
  omap (λ day, ts ← ParseCompact day; if Before ts since then None
                else amount ← ct_days c !! day; Some (mkCashflow amount "BASE_SUMMARY" ts)) days.

(** ** Capital flows *)

Definition inBaseCurrency (amount : F) (currency fxRateToBase base : string) (ts : time) : Cashflow F :=
  let rate := float_of fxRateToBase in
  if negb (String.eqb base "") && negb (String.eqb currency "") && negb (String.eqb currency base) && negb (String.eqb currency "BASE_SUMMARY") && fltb f0 rate
  then mkCashflow (fmul amount rate) base ts else mkCashflow amount currency ts.

(** What the loop over CashTransactions does with a row: nothing, a count of
    an unknown type, or a flow. *)
Inductive reading := Left_out | Unknown (typ : string) | Flow (cf : Cashflow F).

Definition read_cash (levels : flexCashLevels) (datesDeposits : bool) (base : string) (since : time) (r : flexRow) : reading :=
  if row_restated levels r then Left_out
  else match parseFlexTimestamp (capitalFlowDate (col r "dateTime") (col r "reportDate")) with
  | None => Left_out
  | Some ts =>
      if Before ts since then Left_out
      else
        let amount := num r "amount" in
        if feqb amount f0 then Left_out
        else if negb (bool_decide (col r "type" ∈ flexCapitalTypes)) then
          if bool_decide (col r "type" ∈ flexPerformanceTypes) then Left_out else Unknown (col r "type")
        else if datesDeposits then Left_out
        else
          let amount := if String.eqb (col r "type") "Deposits" && fltb amount f0 then fopp amount else amount in
          let amount := if String.eqb (col r "type") "Withdrawals" && fltb f0 amount then fopp amount else amount in
          Flow (inBaseCurrency amount (col r "currency") (col r "fxRateToBase") base ts)
  end.

Definition transfer_date (r : flexRow) : string := if String.eqb (col r "dateTime") "" then col r "date" else col r "dateTime".

Definition read_transfer (c : cashReportTransfers) (base : string) (since : time) (r : flexRow) : reading :=
  match parseFlexTimestamp (transfer_date r) with
  | None => Left_out
  | Some ts =>
      if Before ts since then Left_out
      else if covers c (FormatCompact ts) then Left_out
      else
        let cash := num r "cashTransfer" in
        if feqb cash f0 then Left_out
        else
          let flow cash := Flow (inBaseCurrency cash (col r "currency") (col r "fxRateToBase") base ts) in
          if String.eqb (col r "direction") "IN" then flow (if fltb cash f0 then fopp cash else cash)
          else if String.eqb (col r "direction") "OUT" then flow (if fltb f0 cash then fopp cash else cash)
          else Unknown ("Transfer:" +:+ col r "direction")
  end.

Definition flow_of (x : reading) : option (Cashflow F) := match x with Flow cf => Some cf | _ => None end.
Definition unknown_of (x : reading) : option string := match x with Unknown t => Some t | _ => None end.

Definition warnings_of (unknown : list string) : list string :=
  let counts : gmap string nat := foldl (λ m t, <[t := S (default 0%nat (m !! t))]> m) ∅ unknown in
  Strings ((λ '(typ, n), "ibkr_unclassified_cash_type:" +:+ typ +:+ "(x" +:+ pretty n +:+ ")") <$> map_to_list counts).

Definition readings (stmts : statements) (since : time) : cashReportTransfers * list reading :=
  let transfers := dailyCashReportTransfers (report_rows stmts "CashReport" "CashReportCurrency") in
  let base := statementCurrency (FlexQueryResponse stmts) in
  (transfers, (read_cash (row_levels (cash_rows stmts)) (ct_datesDeposits transfers) base since <$> cash_rows stmts) ++
              (read_transfer transfers base since <$> transfer_rows stmts)).

Definition cashflowsFromReport (rep : report) (since : time) : res (list (Cashflow F) * list string) :=
  match rep with
  | Unreadable e => Err ("parse flex cashflows: " +:+ e)
  | FlexQueryResponse stmts =>
      let '(transfers, l) := readings stmts since in
      Ok (omap flow_of l ++ flows transfers since, warnings_of (omap unknown_of l))
  end.

(** ** Balance *)

Record IBKR := mkIBKR {
  ib_token : string;
  ib_queryID : string;
  ib_capabilityWarnings : list string;
  ib_currencyWarning : string;
  ib_accountCurrency : string;
  ib_statementWarning : string;
  ib_measuredAccounts : list string;
  ib_cachedBreakdown : list (MarketBalance F);
  ib_cachedIsPaper : option bool;
  ib_cachedBalanceAsOf : time;
}.

Definition summary_level (r : flexRow) : bool := EqualFold (col r "levelOfDetail") "SUMMARY".

(** The rows that are positions: the totals when there are any. *)
Definition held_rows (rows : list flexRow) : list flexRow :=
  if existsb summary_level rows then filter (λ r, summary_level r = true) rows else rows.

Definition unrealized_of (summary : flexRow) (positions : list flexRow) : F :=
  let unrealized := num summary "unrealizedPnL" in
  let unrealized := if feqb unrealized f0 then foldl (λ u r, fadd u (num r "fifoPnlUnrealized")) unrealized (held_rows positions) else unrealized in
  if feqb unrealized f0 then fadd (num summary "cfdUnrealizedPl") (num summary "forexCfdUnrealizedPl") else unrealized.

Definition market_rows (r : flexRow) : list (MarketBalance F) :=
  (if feqb (num r "stock") f0 then [] else [mkMarketBalance (market_name MStocks) (num r "stock") (num r "cash")]) ++
  (if feqb (num r "options") f0 then [] else [mkMarketBalance (market_name MOptions) (num r "options") f0]) ++
  (if feqb (num r "commodities") f0 then [] else [mkMarketBalance (market_name MFutures) (num r "commodities") f0]).

Definition currency_warning (currency : string) (inferred : bool) : string :=
  if String.eqb currency "" then "ibkr_account_currency_unknown"
  else if String.eqb currency "USD" then ""
  else if inferred then "ibkr_account_currency_" +:+ ToLower currency +:+ "_inferred"
  else "ibkr_account_currency_" +:+ ToLower currency.

Definition paper_of (rep : statements) (cached : option bool) : option bool :=
  let id := ToUpper (TrimSpace (report_attr rep "accountId")) in
  if String.eqb id "" then cached else Some (HasPrefix id "DU" || HasPrefix id "DF").

Definition set_asof (i : IBKR) (t : time) : IBKR :=
  mkIBKR (ib_token i) (ib_queryID i) (ib_capabilityWarnings i) (ib_currencyWarning i) (ib_accountCurrency i) (ib_statementWarning i)
    (ib_measuredAccounts i) (ib_cachedBreakdown i) (ib_cachedIsPaper i) t.

Definition parseBalanceFromReport (i : IBKR) (rep : report) : IBKR * res (Balance F) :=
  match rep with
  | Unreadable e => (i, Err ("parse flex report: " +:+ e))
  | FlexQueryResponse stmts =>
      match last (summary_rows stmts) with
      | None => (set_asof i zero_time, Ok (mkBalance f0 f0 f0 "USD" ∅))
      | Some summary =>
          let asOf := default zero_time (ParseCompact (col summary "reportDate")) in
          let '(ccy, inferred) := accountCurrency (col summary "currency") rep in
          let currency := if String.eqb ccy "" then "USD" else ccy in
          (mkIBKR (ib_token i) (ib_queryID i) (ib_capabilityWarnings i) (currency_warning ccy inferred) currency (ib_statementWarning i)
             (ib_measuredAccounts i) (market_rows summary) (paper_of stmts (ib_cachedIsPaper i)) asOf,
           Ok (mkBalance (num summary "cash") (num summary "total") (unrealized_of summary (position_rows stmts)) currency
                 (default ∅ (flexConversionRates rep currency !! col summary "reportDate"))))
      end
  end.

Definition CapabilityWarnings (i : IBKR) : list string :=
  ib_capabilityWarnings i ++ filter (λ w, w ≠ "") [ib_currencyWarning i; ib_statementWarning i].

(** ** Positions *)

Definition marketType_of (assetCategory : string) : string :=
  market_name (if String.eqb assetCategory "FUT" then MFutures else if String.eqb assetCategory "OPT" then MOptions
               else if String.eqb assetCategory "CFD" then MCFD else if String.eqb assetCategory "CASH" then MForex else MStocks).

Definition position_of (r : flexRow) : option (Position F) :=
  let size := num r "position" in
  if feqb size f0 then None
  else
    let short := fltb size f0 in
    let size := if short then fopp size else size in
    let entry := if fltb f0 size then fdiv (num r "costBasisMoney") size else f0 in
    Some (mkPosition (col r "symbol") (if short then "short" else "long") size entry (num r "markPrice") (num r "fifoPnlUnrealized")
            (marketType_of (col r "assetCategory"))).

Definition parsePositionsFromReport (rep : report) : res (list (Position F)) :=
  match rep with
  | Unreadable e => Err ("parse flex positions: " +:+ e)
  | FlexQueryResponse stmts => Ok (omap position_of (held_rows (position_rows stmts)))
  end.

(** ** Trades *)

Definition flexDefaultOptionMultiplier : F := fofZ 100.

Definition execution_level (r : flexRow) : bool := EqualFold (col r "levelOfDetail") "EXECUTION".

Definition fabs_of (x : F) : F := if fltb x f0 then fopp x else x.

Definition trade_of (start end_ : time) (r : flexRow) : option (Trade F) :=
  ts ← ParseCompactTime (col r "dateTime");
  if Before ts start || After ts end_ then None
  else
    let multiplier := num r "multiplier" in
    let multiplier := if fleb multiplier f0 && String.eqb (col r "assetCategory") "OPT" then flexDefaultOptionMultiplier else multiplier in
    Some (mkTrade (col r "symbol") (if String.eqb (col r "buySell") "SELL" then "sell" else "buy") (num r "tradePrice") (fabs_of (num r "quantity"))
            multiplier f0 (fabs_of (num r "ibCommission")) (num r "fifoPnlRealized") ts (marketType_of (col r "assetCategory"))).

Definition executed_rows (rows : list flexRow) : list flexRow :=
  if existsb execution_level rows then filter (λ r, String.eqb (col r "levelOfDetail") "" || execution_level r = true) rows else rows.

Definition parseTradesFromReport (rep : report) (start end_ : time) : res (list (Trade F)) :=
  match rep with
  | Unreadable e => Err ("parse flex trades: " +:+ e)
  | FlexQueryResponse stmts => Ok (omap (trade_of start end_) (executed_rows (trade_rows stmts)))
  end.

Record flexDayTrades := mkDayTrades {
  dt_count : Z; dt_volume : F; dt_fees : F; dt_longTrades : Z; dt_shortTrades : Z; dt_longVolume : F; dt_shortVolume : F;
}.

Definition no_trades : flexDayTrades := mkDayTrades 0 f0 f0 0 0 f0 f0.

Definition add_trade (e : flexDayTrades) (t : Trade F) : flexDayTrades :=
  let notional := Breakdown.Notional t in
  if String.eqb (tr_Side t) "sell"
  then mkDayTrades (dt_count e + 1) (fadd (dt_volume e) notional) (fadd (dt_fees e) (tr_Fee t)) (dt_longTrades e) (dt_shortTrades e + 1)
         (dt_longVolume e) (fadd (dt_shortVolume e) notional)
  else mkDayTrades (dt_count e + 1) (fadd (dt_volume e) notional) (fadd (dt_fees e) (tr_Fee t)) (dt_longTrades e + 1) (dt_shortTrades e)
         (fadd (dt_longVolume e) notional) (dt_shortVolume e).

Definition aggregateFlexTradesByDate (trades : list (Trade F)) : gmap string flexDayTrades :=
  foldl (λ m t, let k := FormatCompact (tr_Timestamp t) in <[k := add_trade (default no_trades (m !! k)) t]> m) ∅ trades.

(** ** History *)

Record dayFlows := mkDayFlows { df_deposits : F; df_withdrawals : F; df_flows : list (Cashflow F) }.

Definition no_flows : dayFlows := mkDayFlows f0 f0 [].

Definition add_day_flow (e : dayFlows) (cf : Cashflow F) : dayFlows :=
  if fltb f0 (cf_Amount cf) then mkDayFlows (fadd (df_deposits e) (cf_Amount cf)) (df_withdrawals e) (df_flows e ++ [cf])
  else mkDayFlows (df_deposits e) (fadd (df_withdrawals e) (fopp (cf_Amount cf))) (df_flows e ++ [cf]).

Definition flows_by_date (cfs : list (Cashflow F)) : gmap string dayFlows :=
  foldl (λ m cf, let k := FormatCompact (cf_Timestamp cf) in <[k := add_day_flow (default no_flows (m !! k)) cf]> m) ∅ cfs.

Definition history_day (since : time) (baseCurrency : string) (baseRates : gmap string (gmap string F)) (flows : gmap string dayFlows)
    (trades : gmap string flexDayTrades) (r : flexRow) : option (HistoricalSnapshot F) :=
  date ← ParseCompact (col r "reportDate");
  if Before date since || feqb (num r "total") f0 then None
  else
    let day := col r "reportDate" in
    let cf := default no_flows (flows !! day) in
    let tr := default no_trades (trades !! day) in
    let total := num r "total" in
    Some (mkHistorical (truncDay date) total (fsub total (num r "unrealizedPnL")) (df_deposits cf) (df_withdrawals cf)
            (dt_count tr) (dt_volume tr) (dt_fees tr) f0 (dt_longTrades tr) (dt_shortTrades tr) (dt_longVolume tr) (dt_shortVolume tr)
            ((λ b, (mbal_MarketType b, b)) <$> market_rows r) baseCurrency zero_time
            (match df_flows cf with [] => None | l => Some l end) f0 (default ∅ (baseRates !! day))).

(** [now] closes the window of the trades a day later. *)
Definition historicalSnapshotsFromReport (rep : report) (since now : time) : res (list (HistoricalSnapshot F) * list string) :=
  match rep with
  | Unreadable e => Err ("parse flex historical: " +:+ e)
  | FlexQueryResponse stmts =>
      let baseCurrency := match last (summary_rows stmts) with Some r => (accountCurrency (col r "currency") rep).1 | None => "" end in
      let '(cfs, warnings) := match cashflowsFromReport rep since with Ok x => x | Err _ => ([], []) end in
      let trades := match parseTradesFromReport rep since (now + 24 * Hour) with Ok l => l | Err _ => [] end in
      Ok (omap (history_day since baseCurrency (flexConversionRates rep baseCurrency) (flows_by_date cfs) (aggregateFlexTradesByDate trades))
            (summary_rows stmts), warnings)
  end.

(** ** The raw ledger *)

Definition raw_cash (since : time) (r : flexRow) : option (RawBalanceOp F) :=
  ts ← parseFlexTimestamp (col r "dateTime");
  if Before ts since then None else Some (mkRawOp 0 ("cash:" +:+ col r "type") (num r "amount") f0 f0 (col r "currency") (col r "symbol") ts).

Definition raw_transfer (since : time) (r : flexRow) : option (RawBalanceOp F) :=
  ts ← parseFlexTimestamp (transfer_date r);
  if Before ts since then None
  else
    let label := "transfer:" +:+ col r "type" in
    let label := if String.eqb (col r "direction") "" then label else label +:+ "/" +:+ col r "direction" in
    let label := if String.eqb (col r "assetCategory") "" then label else label +:+ "/" +:+ col r "assetCategory" in
    Some (mkRawOp 0 label (num r "cashTransfer") f0 (num r "positionAmount") (col r "currency") (col r "symbol") ts).

Definition parseRawLedgerFromReport (rep : report) (since : time) : res (list (RawBalanceOp F)) :=
  match rep with
  | Unreadable e => Err ("parse flex raw ledger: " +:+ e)
  | FlexQueryResponse stmts =>
      Ok (sort_by ro_Timestamp (omap (raw_cash since) (cash_rows stmts) ++ omap (raw_transfer since) (transfer_rows stmts)))
  end.

End read.
Arguments IBKR F : clear implicits.
Arguments cashReportTransfers F : clear implicits.
Arguments reading F : clear implicits.
Arguments dayFlows F : clear implicits.
Arguments flexDayTrades F : clear implicits.
End FlexRead.
