(* ===== verification/FlexToken.v ===== *)
(** * Asking Interactive Brokers for a statement (internal/connector/ibkr.go)

    The gate that paces one Flex token, the cache of statements shared by the
    connections, and the two requests behind a statement: the broker's answers
    and the parser of its small response are parameters. *)

From S2P Require Import Prelude Num GoTime GoText Types Window Encoding Flex FlexRead.
From stdpp Require Import base gmap strings pretty tactics sorting list.
From Stdlib Require Import ZArith Ascii Lia.
Import Flex FlexRead Encoding.
Local Open Scope Z_scope.

Module FlexToken.

(** ** Constants *)

Definition IBKRStatementWindowDays : Z := 5.
Definition IBKRStatementMaxDays : Z := 365.
Definition flexReportCacheTTL : duration := 5 * Minute.
Definition flexTokenCooldown : duration := Minute.
Definition flexTokenMaxBackoff : duration := 2 * Hour.
Definition flexTokenDailyFailures : nat := 6.
Definition flexStaleReuseWindow : duration := 3 * Hour.
Definition flexTokenWaitMax : duration := 2 * Minute.
Definition flexReportCacheMaxEntries : nat := 256.

(** ** Errors *)

(** The sentinel an error wraps; a locked or busy token and a statement that
    is not published yet are transient. *)
Inductive flex_kind := Transient | TokenBusy (retryAt : time) | ConfigLocked | NotPublished | Unavailable | IPRestricted | OtherKind.

Record flex_error := mkFlexError { fe_kind : flex_kind; fe_text : string }.

Definition errTransient : string := "transient connector error".

Definition is_transient (e : flex_error) : bool :=
  match fe_kind e with Transient | TokenBusy _ | ConfigLocked | NotPublished => true | Unavailable | IPRestricted | OtherKind => false end.

Definition month_names : list string := ["Jan"; "Feb"; "Mar"; "Apr"; "May"; "Jun"; "Jul"; "Aug"; "Sep"; "Oct"; "Nov"; "Dec"].

(** [t.Format("Jan 2 15:04")] *)
Definition FormatStamp (t : time) : string :=
  let '(_, m, d) := civil (day_index t) in
  let s := (t mod Day) / Minute in
  default "" (month_names !! Z.to_nat (m - 1)) +:+ " " +:+ pretty d +:+ " " +:+ pad2 (s / 60) +:+ ":" +:+ pad2 (s mod 60).

Definition flexBusyError (retryAt : time) : flex_error :=
  mkFlexError (TokenBusy retryAt) (errTransient +:+ ": shared flex token cooling down (retry after ~" +:+ FormatStamp retryAt +:+ " UTC)").

Definition FlexRetryAt (e : flex_error) : option time := match fe_kind e with TokenBusy t => Some t | _ => None end.

(** ** The gate of a token *)

Record flexTokenState := mkToken {
  tk_lastReq : time;
  tk_failures : nat;
  tk_budgetDay : string;
  tk_budgetSpent : nat;
  tk_lockedUntil : time;
}.

Abbreviation tokens := (gmap string flexTokenState).

Definition new_token : flexTokenState := mkToken zero_time 0 "" 0 zero_time.

Definition nextUTCDay (now : time) : time := truncDay now + 24 * Hour.

(** The wait after [failures] consecutive failures, from [wait]. *)
Fixpoint backoff (failures : nat) (wait : duration) : duration :=
  match failures with
  | O => wait
  | S n => if flexTokenMaxBackoff <=? wait then flexTokenMaxBackoff else backoff n (wait * 2)
  end.

Definition flexTokenWait (failures : nat) : duration := backoff failures flexTokenCooldown.

(** The budget is counted on the UTC day. *)
Definition roll_day (st : flexTokenState) (now : time) : flexTokenState :=
  if String.eqb (tk_budgetDay st) (FormatDate now) then st
  else mkToken (tk_lastReq st) (tk_failures st) (FormatDate now) 0 (tk_lockedUntil st).

(** When a token may not be used: the time it reopens. *)
Definition refused_until (st : flexTokenState) (now : time) : option time :=
  if Before now (tk_lockedUntil st) then Some (tk_lockedUntil st)
  else if Nat.leb flexTokenDailyFailures (tk_budgetSpent st) then Some (nextUTCDay now)
  else let wait := flexTokenWait (tk_failures st) in
       if negb (IsZero (tk_lastReq st)) && (Sub now (tk_lastReq st) <? wait) then Some (tk_lastReq st + wait) else None.

Definition claim (st : flexTokenState) (now : time) : flexTokenState * option time :=
  let st := roll_day st now in
  match refused_until st now with
  | Some t => (st, Some t)
  | None => (mkToken now (tk_failures st) (tk_budgetDay st) (tk_budgetSpent st) (tk_lockedUntil st), None)
  end.

(** The states after, and the time the token reopens when it is refused. *)
Definition claimFlexToken (token : string) (now : time) (ts : tokens) : tokens * option time :=
  let '(st, r) := claim (default new_token (ts !! token)) now in (<[token := st]> ts, r).

Definition note (st : flexTokenState) (now : time) (err : option flex_error) : flexTokenState :=
  match err with
  | None => mkToken (tk_lastReq st) 0 (tk_budgetDay st) (tk_budgetSpent st) (tk_lockedUntil st)
  | Some e =>
      mkToken now (S (tk_failures st)) (tk_budgetDay st) (S (tk_budgetSpent st))
        (match fe_kind e with ConfigLocked => nextUTCDay now | _ => tk_lockedUntil st end)
  end.

Definition noteFlexOutcome (token : string) (now : time) (err : option flex_error) (ts : tokens) : tokens :=
  match ts !! token with None => ts | Some st => <[token := note st now err]> ts end.

(** One turn of the waiting loop: the states as the other requests left them,
    the clock at its three readings, and whether the context ends the wait. *)
Record turn := mkTurn {
  tu_tokens : tokens;
  tu_now : time;
  tu_until : time;
  tu_add : time;
  tu_cancelled : option string;
}.

(** [None] is out of fuel. *)
Fixpoint claimFlexTokenWaiting (fuel : nat) (turns : nat → turn) (k : nat) (deadline : option time) (token : string)
  : option (tokens * option flex_error) :=
  match fuel with
  | O => None
  | S fuel =>
      let t := turns k in
      match claimFlexToken token (tu_now t) (tu_tokens t) with
      | (ts, None) => Some (ts, None)
      | (ts, Some retryAt) =>
          let wait := Sub retryAt (tu_until t) + Second in
          let busy := Some (ts, Some (flexBusyError retryAt)) in
          match deadline with
          | None => busy
          | Some d =>
              if (flexTokenWaitMax <? wait) || After (tu_add t + wait) d then busy
              else match tu_cancelled t with
              | Some e => Some (ts, Some (mkFlexError OtherKind e))
              | None => claimFlexTokenWaiting fuel turns (S k) deadline token
              end
          end
      end
  end.

(** ** The shared cache of statements *)

Record flexReportEntry := mkEntry { en_xml : report; en_from : time; en_to : time; en_fetchedAt : time }.

Abbreviation cache := (gmap string flexReportEntry).

Definition cachedStatement (key : string) (from to : time) (maxAge : duration) (now : time) (c : cache) : option report :=
  e ← c !! key;
  if (maxAge <=? Sub now (en_fetchedAt e)) || negb (en_to e =? to) || After (en_from e) from then None else Some (en_xml e).

(** The oldest entry, for the order in which the Go map is visited. *)
Definition oldest (entries : list (string * flexReportEntry)) : option (string * flexReportEntry) :=
  foldl (λ acc p, match acc with
    | None => Some p
    | Some q => if String.eqb q.1 "" || Before (en_fetchedAt p.2) (en_fetchedAt q.2) then Some p else Some q
    end) None entries.

(** Each turn removes an entry: the number of entries is enough fuel. *)
Fixpoint trim_cache (fuel : nat) (c : cache) : cache :=
  match fuel with
  | O => c
  | S n =>
      if Nat.leb (size c) flexReportCacheMaxEntries then c
      else match oldest (map_to_list c) with Some p => trim_cache n (delete p.1 c) | None => c end
  end.

Definition evictFlexReportCache (now : time) (c : cache) : cache :=
  let c := filter (λ p : string * flexReportEntry, (flexStaleReuseWindow <=? Sub now (en_fetchedAt p.2)) = false) c in
  trim_cache (size c) c.

(** ** The requests *)

Definition unreserved (c : ascii) : bool :=
  let n := N_of_ascii c in
  ((48 <=? n) && (n <=? 57) || (65 <=? n) && (n <=? 90) || (97 <=? n) && (n <=? 122))%N ||
  existsb (Ascii.eqb c) ["-"; "_"; "."; "~"]%char.

Fixpoint QueryEscape (s : string) : string :=
  match s with
  | EmptyString => EmptyString
  | String c s' =>
      if unreserved c then String c (QueryEscape s')
      else if Ascii.eqb c " " then String "+" (QueryEscape s')
      else let n := N_of_ascii c in
           String "%" (String (upper_ascii (hex_digit (n / 16)%N)) (String (upper_ascii (hex_digit (n mod 16)%N)) (QueryEscape s')))
  end.

Definition ibkrFlexWSSendURL : string := "https://ndcdyn.interactivebrokers.com/AccountManagement/FlexWebService/SendRequest".
Definition ibkrFlexWSGetURL : string := "https://ndcdyn.interactivebrokers.com/AccountManagement/FlexWebService/GetStatement".

(** [url.Values.Encode]: the keys in order. *)
Definition Encode (values : list (string * string)) : string :=
  Prelude.Join "&" ((λ p, QueryEscape p.1 +:+ "=" +:+ QueryEscape p.2) <$> values).

Definition flexURL (base token query : string) : string := base +:+ "?" +:+ Encode [("q", query); ("t", token); ("v", "3")].

Definition flexPeriodURL (base token query : string) (from to : time) : string :=
  base +:+ "?" +:+ Encode [("fd", FormatCompact from); ("q", query); ("t", token); ("td", FormatCompact to); ("v", "3")].

Definition scrubSecret (s secret : string) : string := if String.eqb secret "" then s else ReplaceAll s secret "***".

Definition transportErr (token err : string) : string :=
  let msg := scrubSecret err token in
  let esc := QueryEscape token in
  if String.eqb esc token then msg else scrubSecret msg esc.

Definition preview (s : string) (n : nat) : string :=
  if Nat.leb (String.length s) n then s else String.substring 0 n s +:+ "...".

Definition transientFlexErrorCodes : gset string :=
  {[ "1001"; "1004"; "1005"; "1006"; "1007"; "1008"; "1009"; "1018"; "1019"; "1021" ]}.

Definition flexIPRestrictionCode : string := "1013".
Definition flexRepeatedFailureCode : string := "1025".
Definition flexUnavailableCode : string := "1003".

Definition isTransientFlexErrorCode (code : string) : bool := bool_decide (code ∈ transientFlexErrorCodes).

(** FlexStatementResponse *)
Record flex_response := mkFlexResponse { rs_Status : string; rs_ReferenceCode : string; rs_ErrorCode : string; rs_ErrorMessage : string }.

(** What client.Do and ReadCappedBody answer: the status and the body. *)
Inductive http_answer := Transport (err : string) | ReadError (err : string) | Body (status : Z) (body : string).

Definition flex_failure (r : flex_response) : flex_error :=
  let base := "flex request failed: " +:+ rs_ErrorCode r +:+ " - " +:+ rs_ErrorMessage r in
  if String.eqb (rs_ErrorCode r) flexIPRestrictionCode then mkFlexError IPRestricted ("ip not whitelisted: " +:+ base)
  else if String.eqb (rs_ErrorCode r) flexRepeatedFailureCode then mkFlexError ConfigLocked (errTransient +:+ ": flex token locked after repeated failures: " +:+ base)
  else if String.eqb (rs_ErrorCode r) flexUnavailableCode then mkFlexError Unavailable ("flex statement not available: " +:+ base)
  else if isTransientFlexErrorCode (rs_ErrorCode r) then mkFlexError Transient (errTransient +:+ ": " +:+ base)
  else mkFlexError OtherKind base.

(** [unmarshal] is xml.Unmarshal of the response, [quote] the verb %q. *)
Definition sendFlexRequest (unmarshal : string → flex_response + string) (quote : string → string) (token : string) (answer : http_answer)
  : string + flex_error :=
  match answer with
  | Transport e => inr (mkFlexError OtherKind (transportErr token e))
  | ReadError e => inr (mkFlexError OtherKind e)
  | Body status body =>
      if String.eqb body "" then
        inr (mkFlexError OtherKind ("flex SendRequest returned empty body (HTTP " +:+ pretty status +:+ ") — likely rate-limited or network blip"))
      else match unmarshal body with
      | inr e =>
          let snippet := scrubSecret body token in
          let snippet := if Nat.ltb 300 (String.length snippet) then String.substring 0 300 snippet +:+ "..." else snippet in
          inr (mkFlexError OtherKind ("parse flex response (body=" +:+ quote snippet +:+ "): " +:+ e))
      | inl r => if String.eqb (rs_Status r) "Success" then inl (rs_ReferenceCode r) else inr (flex_failure r)
      end
  end.

Definition flexPollDelays : list duration :=
  (λ s, s * Second) <$> [3; 5; 5; 10; 10; 15; 15; 20; 30; 30; 30; 30; 30; 30; 60; 60; 60; 60; 60; 60].

Definition FlexPollBudget : duration := foldl Z.add 0 flexPollDelays.

(** The poll answers [get n] at its [n]-th request, and [cancelled n] ends the
    wait after it. *)
Fixpoint poll (get : nat → http_answer) (cancelled : nat → option string) (token : string) (n : nat) (delays : list duration) : string + flex_error :=
  match delays with
  | [] => inr (mkFlexError Transient (errTransient +:+ ": flex statement still generating after " +:+ pretty n +:+ " polls"))
  | _ :: delays =>
      match get n with
      | Transport e => inr (mkFlexError OtherKind (transportErr token e))
      | ReadError e => inr (mkFlexError OtherKind e)
      | Body _ body =>
          let trimmed := TrimSpace body in
          if HasPrefix trimmed "<FlexQueryResponse" then inl body
          else if HasPrefix trimmed "<FlexStatementResponse" then
            if Contains trimmed "<Status>Error</Status>"
            then inr (mkFlexError OtherKind ("flex report error: " +:+ preview (scrubSecret trimmed token) 300))
            else match cancelled n with
            | Some e => inr (mkFlexError OtherKind e)
            | None => poll get cancelled token (S n) delays
            end
          else inr (mkFlexError OtherKind ("unexpected flex response: " +:+ preview (scrubSecret trimmed token) 300))
      end
  end.

Definition pollFlexReport (get : nat → http_answer) (cancelled : nat → option string) (token : string) : string + flex_error :=
  poll get cancelled token 0 flexPollDelays.

(** The broker as a connector meets it in one request: its answer to a URL,
    and its answers to the polls of another. *)
Record flex_broker := mkBroker {
  bk_send : string → http_answer;
  bk_get : string → nat → http_answer;
  bk_cancelled : nat → option string;
  bk_response : string → flex_response + string;
  bk_quote : string → string;
  (** xml.Unmarshal of a statement *)
  bk_read : string → report;
}.

Definition requestStatement (b : flex_broker) (token queryID : string) (from to : time) : report + flex_error :=
  let '(from, to, ok) := Window.statementPeriod from to in
  if negb ok then inr (mkFlexError Unavailable "flex statement not available")
  else match sendFlexRequest (bk_response b) (bk_quote b) token (bk_send b (flexPeriodURL ibkrFlexWSSendURL token queryID from to)) with
  | inr e => inr e
  | inl refCode =>
      match pollFlexReport (bk_get b (flexURL ibkrFlexWSGetURL token refCode)) (bk_cancelled b) token with
      | inr e => inr e
      | inl body => inl (bk_read b body)
      end
  end.

(** ** statement *)

(** The readings of the clock in one call, the turns of its wait, and the
    broker it reaches.  Calls for the same statement run one at a time, as
    under flexSingleflight. *)
Record statement_call := mkCall {
  sa_first : time;
  sa_second : time;
  sa_stale : time;
  sa_claim : time;
  sa_turns : nat → turn;
  sa_fuel : nat;
  sa_deadline : option time;
  sa_noted : time;
  sa_stored : time;
  sa_evicted : time;
  sa_broker : flex_broker;
}.

Definition error_of {A} (r : A + flex_error) : option flex_error := match r with inr e => Some e | inl _ => None end.

(** The request behind a claimed token: the outcome is noted, a statement is
    cached. *)
Definition fetch (call : statement_call) (token queryID : string) (from to : time) (ts : tokens) (c : cache)
  : tokens * cache * (report + flex_error) :=
  let r := requestStatement (sa_broker call) token queryID from to in
  let ts := noteFlexOutcome token (sa_noted call) (error_of r) ts in
  match r with
  | inr e => (ts, c, inr e)
  | inl xml =>
      (ts, evictFlexReportCache (sa_evicted call) (<[token +:+ ":" +:+ queryID := mkEntry xml from to (sa_stored call)]> c), inl xml)
  end.

(** [before] is the cache at the first look, [c] once the flight before this
    one is over; [None] is a wait out of fuel. *)
Definition statement (call : statement_call) (token queryID : string) (from to : time) (before : cache) (ts : tokens) (c : cache)
  : option (tokens * cache * (report + flex_error)) :=
  let key := token +:+ ":" +:+ queryID in
  match cachedStatement key from to flexReportCacheTTL (sa_first call) before with
  | Some xml => Some (ts, c, inl xml)
  | None =>
      match cachedStatement key from to flexReportCacheTTL (sa_second call) c with
      | Some xml => Some (ts, c, inl xml)
      | None =>
          match cachedStatement key from to flexStaleReuseWindow (sa_stale call) c with
          | Some stale =>
              match claimFlexToken token (sa_claim call) ts with
              | (ts, Some _) => Some (ts, c, inl stale)
              | (ts, None) => Some (fetch call token queryID from to ts c)
              end
          | None =>
              match claimFlexTokenWaiting (sa_fuel call) (sa_turns call) 0 (sa_deadline call) token with
              | None => None
              | Some (ts, Some e) => Some (ts, c, inr e)
              | Some (ts, None) => Some (fetch call token queryID from to ts c)
              end
          end
      end
  end.

Definition dailyStatementFrom (from to : time) : time :=
  let earliest := to - (IBKRStatementWindowDays - 1) * Day in
  let from := if IsZero from || After from earliest then earliest else from in
  let floor := to - (IBKRStatementMaxDays - 1) * Day in
  truncDay (if Before from floor then floor else from).

Definition dailyStatement (call : statement_call) (now : time) (token queryID : string) (from : time) (before : cache) (ts : tokens) (c : cache)
  : option (tokens * cache * (report + flex_error)) :=
  let to := Window.LastStatementDay now in
  let from := dailyStatementFrom from to in
  '(ts, c, r) ← statement call token queryID from to before ts c;
  Some (ts, c, match r with
    | inr (mkFlexError Unavailable e) =>
        inr (mkFlexError NotPublished (errTransient +:+ ": flex statement not published yet: statement to " +:+ FormatDate to +:+ ": " +:+ e))
    | r => r
    end).

(** Uncached: the daily syncs keep their statement. *)
Definition fetchPeriodStatement (call : statement_call) (token queryID : string) (from to : time) (ts : tokens)
  : option (tokens * (report + flex_error)) :=
  if negb (Window.statementPeriod from to).2 then Some (ts, inr (mkFlexError Unavailable "flex statement not available"))
  else match claimFlexTokenWaiting (sa_fuel call) (sa_turns call) 0 (sa_deadline call) token with
  | None => None
  | Some (ts, Some e) => Some (ts, inr e)
  | Some (ts, None) =>
      let r := requestStatement (sa_broker call) token queryID from to in
      Some (noteFlexOutcome token (sa_noted call) (error_of r) ts, r)
  end.

(** ** The connector's reads *)

Section reads.
Context {F : Type} {NF : Num F} {TF : FloatText F}.

Abbreviation guard := (option (list string → bool → option string)).

Definition warn_accounts (i : IBKR F) (n : narrowedStatement) : IBKR F :=
  mkIBKR (ib_token i) (ib_queryID i) (ib_capabilityWarnings i) (ib_currencyWarning i) (ib_accountCurrency i)
    (if Nat.ltb (length (nw_accounts n)) (nw_carried n) then "ibkr_multi_account_statement(x" +:+ pretty (nw_carried n) +:+ ")" else "")
    (nw_accounts n) (ib_cachedBreakdown i) (ib_cachedIsPaper i) (ib_cachedBalanceAsOf i).

(** [statementReport] from the answer of dailyStatement. *)
Definition statementReport (g : guard) (i : IBKR F) (daily : report + flex_error) : IBKR F * (report + flex_error) :=
  match daily with
  | inr e => (i, inr e)
  | inl rep =>
      match narrow g rep false with
      | Err e => (i, inr (mkFlexError OtherKind e))
      | Ok n => (warn_accounts i n, inl (nw_report n))
      end
  end.

Definition lift {A} (r : res A) : A + flex_error := match r with Ok a => inl a | Err e => inr (mkFlexError OtherKind e) end.

Definition GetBalance (g : guard) (i : IBKR F) (daily : report + flex_error) : IBKR F * (Balance F + flex_error) :=
  match statementReport g i daily with
  | (i, inr e) => (i, inr e)
  | (i, inl rep) => let '(i, r) := parseBalanceFromReport i rep in (i, lift r)
  end.

Definition with_warnings (i : IBKR F) (w : list string) : IBKR F :=
  mkIBKR (ib_token i) (ib_queryID i) w (ib_currencyWarning i) (ib_accountCurrency i) (ib_statementWarning i) (ib_measuredAccounts i)
    (ib_cachedBreakdown i) (ib_cachedIsPaper i) (ib_cachedBalanceAsOf i).

Definition GetCashflows (g : guard) (i : IBKR F) (daily : report + flex_error) (since : time) : IBKR F * (list (Cashflow F) + flex_error) :=
  match statementReport g i daily with
  | (i, inr e) => (i, inr e)
  | (i, inl rep) =>
      match cashflowsFromReport rep since with
      | Ok (flows, warnings) => (with_warnings i warnings, inl flows)
      | Err e => (i, inr (mkFlexError OtherKind e))
      end
  end.

Definition GetHistoricalSnapshots (g : guard) (i : IBKR F) (daily : report + flex_error) (since now : time)
  : IBKR F * (list (HistoricalSnapshot F) + flex_error) :=
  match statementReport g i daily with
  | (i, inr e) => (i, inr e)
  | (i, inl rep) =>
      match historicalSnapshotsFromReport rep since now with
      | Ok (l, warnings) => (with_warnings i warnings, inl l)
      | Err e => (i, inr (mkFlexError OtherKind e))
      end
  end.

(** The start [GetHistoricalSnapshots] asks dailyStatement for. *)
Definition history_since (since now : time) : time :=
  if IsZero since then Window.LastStatementDay now - (IBKRStatementMaxDays - 1) * Day else since.

Definition GetTrades (g : guard) (i : IBKR F) (daily : report + flex_error) (start end_ : time) : IBKR F * (list (Trade F) + flex_error) :=
  match statementReport g i daily with
  | (i, inr e) => (i, inr e)
  | (i, inl rep) => (i, lift (parseTradesFromReport rep start end_))
  end.

Definition GetPositions (g : guard) (i : IBKR F) (daily : report + flex_error) : IBKR F * (list (Position F) + flex_error) :=
  match statementReport g i daily with
  | (i, inr e) => (i, inr e)
  | (i, inl rep) => (i, lift (parsePositionsFromReport rep))
  end.

Definition DetectIsPaper (g : guard) (i : IBKR F) (daily : report + flex_error) : IBKR F * (bool + flex_error) :=
  match ib_cachedIsPaper i with
  | Some b => (i, inl b)
  | None =>
      match GetBalance g i daily with
      | (i, inr e) => (i, inr e)
      | (i, inl _) => (i, inl (default false (ib_cachedIsPaper i)))
      end
  end.

Definition GetHistoricalSnapshotsForPeriod (g : guard) (period : report + flex_error) (from to now : time) : list (HistoricalSnapshot F) + flex_error :=
  match period with
  | inr e => inr e
  | inl rep =>
      match narrow g rep true with
      | Err e => inr (mkFlexError OtherKind e)
      | Ok n =>
          match historicalSnapshotsFromReport (nw_report n) from now with
          | Err e => inr (mkFlexError OtherKind e)
          | Ok (l, _) => inl (filter (λ h, After (hs_Date h) to = false) l)
          end
      end
  end.

End reads.
End FlexToken.
