(* ===== verification/FlexGate.v ===== *)
(** * What the gate and the cache of Flex statements guarantee

    Whatever the connections ask and whenever: the requests of one token are
    apart, a locked token is left alone, the day's failures are bounded, the
    wait for a token ends, a cached statement answers the question that was
    asked, and no error text carries the token. *)

From S2P Require Import Prelude Num GoTime GoText Types Window Encoding Flex FlexRead FlexToken.
From stdpp Require Import base gmap strings tactics sorting list.
From Stdlib Require Import ZArith Ascii Lia.
Import Encoding Flex FlexRead FlexToken.
Local Open Scope Z_scope.

Module FlexGate.

(** ** Back-off *)

Lemma backoff_ge n w : flexTokenCooldown <= w → flexTokenCooldown <= backoff n w.
Proof.
  revert w. induction n as [|n IH]; intros w Hw; cbn [backoff]; [done|].
  destruct (flexTokenMaxBackoff <=? w); [unfold flexTokenCooldown, flexTokenMaxBackoff, Hour, Minute, Second; lia|]. apply IH.
  unfold flexTokenCooldown, Minute, Second in *. lia.
Qed.

Lemma wait_ge n : flexTokenCooldown <= flexTokenWait n.
Proof. apply backoff_ge. lia. Qed.

Lemma wait_le n : flexTokenWait n <= 128 * Minute.
Proof. do 8 (destruct n as [|n]; [vm_compute; discriminate|]). vm_compute. discriminate. Qed.

(** The wait is meant to stop at two hours; after exactly seven failures it is longer, and then two hours again. *)
Theorem backoff_exceeds_maximum : flexTokenWait 7 = 128 * Minute ∧ flexTokenMaxBackoff < flexTokenWait 7 ∧ flexTokenWait 8 = flexTokenMaxBackoff.
Proof. vm_compute. done. Qed.

(** ** The uses of the tokens *)

Inductive event := Claim (now : time) | Outcome (now : time) (err : option flex_error).

Definition event_time (e : event) : time := match e with Claim t | Outcome t _ => t end.

(** The states after an event, and the time of the claim it granted. *)
Definition step (ts : gmap string flexTokenState) (u : string * event) : gmap string flexTokenState * option time :=
  match u.2 with
  | Claim now => let '(ts, r) := claimFlexToken u.1 now ts in (ts, match r with None => Some now | Some _ => None end)
  | Outcome now err => (noteFlexOutcome u.1 now err ts, None)
  end.

Fixpoint final (ts : gmap string flexTokenState) (us : list (string * event)) : gmap string flexTokenState :=
  match us with [] => ts | u :: us => final (step ts u).1 us end.

(** The times at which [token] was granted. *)
Fixpoint grants (token : string) (ts : gmap string flexTokenState) (us : list (string * event)) : list time :=
  match us with
  | [] => []
  | u :: us =>
      let '(ts', g) := step ts u in
      (if String.eqb u.1 token then option_list g else []) ++ grants token ts' us
  end.

(** In order of time, from [t0] and within the range of a duration. *)
Fixpoint chronological (t0 : time) (us : list (string * event)) : Prop :=
  match us with
  | [] => True
  | u :: us => t0 <= event_time u.2 <= maxDuration ∧ chronological (event_time u.2) us
  end.

Lemma step_other ts u token : u.1 ≠ token → (step ts u).1 !! token = ts !! token.
Proof.
  intros Hne. unfold step. destruct (u.2) as [now|now err].
  - unfold claimFlexToken. destruct (claim _ _) as [st r]. cbn [fst]. by rewrite lookup_insert_ne.
  - cbn [fst]. unfold noteFlexOutcome. destruct (ts !! u.1); [|done]. by rewrite lookup_insert_ne.
Qed.

(** The last request of a token is not later than [t], and its lock ends with the day of [t] at the latest. *)
Definition used_by (t : time) (st : flexTokenState) : Prop :=
  (tk_lastReq st = zero_time ∨ 0 <= tk_lastReq st <= t) ∧ tk_lockedUntil st <= nextUTCDay t.

Definition ready (st : flexTokenState) (t : time) : Prop :=
  tk_lockedUntil st <= t ∧ (tk_budgetSpent (roll_day st t) < flexTokenDailyFailures)%nat ∧
  (tk_lastReq st = zero_time ∨ tk_lastReq st + flexTokenCooldown <= t).

Lemma roll_fields st now : tk_lastReq (roll_day st now) = tk_lastReq st ∧ tk_failures (roll_day st now) = tk_failures st ∧ tk_lockedUntil (roll_day st now) = tk_lockedUntil st.
Proof. unfold roll_day. by destruct (String.eqb _ _). Qed.

Lemma claim_spec st now st' r :
  0 <= now <= maxDuration → used_by now st → claim st now = (st', r) →
  tk_lockedUntil st' = tk_lockedUntil st ∧ tk_failures st' = tk_failures st ∧
  tk_budgetDay st' = FormatDate now ∧ tk_budgetSpent st' = tk_budgetSpent (roll_day st now) ∧
  match r with
  | Some _ => tk_lastReq st' = tk_lastReq st
  | None => tk_lastReq st' = now ∧ ready st now
  end.
Proof.
  intros Hn Hu. unfold claim. destruct (roll_fields st now) as (HL & Hf & Hl).
  assert (tk_budgetDay (roll_day st now) = FormatDate now) as Hd.
  { unfold roll_day. destruct (String.eqb_spec (tk_budgetDay st) (FormatDate now)); done. }
  destruct (refused_until (roll_day st now) now) as [t|] eqn:E; intros [= <- <-]; cbn [tk_lockedUntil tk_failures tk_lastReq tk_budgetDay tk_budgetSpent]; [done|].
  split_and!; [done..|]. revert E. unfold refused_until. rewrite HL, Hf, Hl. unfold Before.
  destruct (Z.ltb_spec now (tk_lockedUntil st)) as [|H1]; [done|]. destruct (Nat.leb_spec flexTokenDailyFailures (tk_budgetSpent (roll_day st now))) as [|H2]; [done|].
  unfold IsZero. destruct (Z.eqb_spec (tk_lastReq st) zero_time) as [Hz|Hz]; [intros _; split_and!; [done..|by left]|]. cbn [negb andb].
  destruct (Z.ltb_spec (Sub now (tk_lastReq st)) (flexTokenWait (tk_failures st))) as [|H3]; [done|]. intros _. split_and!; [done..|]. right.
  destruct Hu as [[|Hu] _]; [done|]. rewrite Sub_exact in H3 by (unfold minDuration, maxDuration in *; lia). pose proof (wait_ge (tk_failures st)). lia.
Qed.

Lemma note_spec st now err : used_by now st → 0 <= now →
  used_by now (note st now err) ∧ (tk_lastReq st ≠ zero_time → tk_lastReq st <= tk_lastReq (note st now err) ∧ tk_lastReq (note st now err) ≠ zero_time).
Proof.
  unfold used_by, note, zero_time, Second. intros Hu Hn. destruct err as [e|]; cbn [tk_lastReq tk_lockedUntil]; [|split; [lia|intros; lia]].
  split; [|intros; lia]. split; [lia|]. destruct Hu as [_ Hu]. destruct (fe_kind e); (exact Hu || reflexivity || lia).
Qed.

Definition all_used (t : time) (ts : gmap string flexTokenState) : Prop := ∀ k st, ts !! k = Some st → used_by t st.

Lemma next_day_mono t t' : t <= t' → nextUTCDay t <= nextUTCDay t'.
Proof. intros H. unfold nextUTCDay. pose proof (truncDay_mono t t' H). lia. Qed.

Lemma used_mono t t' st : t <= t' → used_by t st → used_by t' st.
Proof. unfold used_by. intros H [H1 H2]. pose proof (next_day_mono t t' H). lia. Qed.

Lemma new_used t : 0 <= t → used_by t new_token.
Proof. intros H. split; [by left|]. cbn [new_token tk_lockedUntil]. pose proof (next_day_mono 0 t H) as Hm. unfold zero_time, Second. change (nextUTCDay 0) with (24 * Hour) in Hm. unfold Hour, Minute, Second in Hm. lia. Qed.

Lemma step_used t0 ts u : 0 <= t0 → t0 <= event_time u.2 <= maxDuration → all_used t0 ts → all_used (event_time u.2) (step ts u).1.
Proof.
  intros H0 Ht Hall k st Hk. destruct (decide (u.1 = k)) as [<-|Hne]; [|rewrite step_other in Hk by done; eapply used_mono; [|by eapply Hall]; lia].
  unfold step in Hk. destruct (u.2) as [now|now err]; cbn [event_time] in *.
  - unfold claimFlexToken in Hk. destruct (claim _ _) as [st' r] eqn:Ec. cbn [fst] in Hk. rewrite lookup_insert_eq in Hk. injection Hk as ->.
    assert (used_by now (default new_token (ts !! u.1))) as Hu.
    { destruct (ts !! u.1) as [s0|] eqn:Es; [|apply new_used; cbn; lia]. eapply used_mono; [|by eapply Hall]. lia. }
    destruct (claim_spec _ now _ _ ltac:(lia) Hu Ec) as (Hl & _ & _ & _ & Hr). destruct Hu as [Hu1 Hu2]. split; [|by rewrite Hl].
    destruct r; [rewrite Hr; done|destruct Hr as [-> _]]; lia.
  - cbn [fst] in Hk. unfold noteFlexOutcome in Hk. destruct (ts !! u.1) as [s0|] eqn:Es; [|congruence]. rewrite lookup_insert_eq in Hk. injection Hk as <-.
    apply note_spec; [|lia]. eapply used_mono; [|by eapply Hall]. lia.
Qed.

(** A lower bound on the next grant that no event takes back. *)
Definition holds_back (st : flexTokenState) (b : time) : Prop :=
  tk_lockedUntil st >= b ∨ (tk_lastReq st ≠ zero_time ∧ tk_lastReq st + flexTokenCooldown >= b).

Lemma step_holds t0 ts u token st b :
  0 <= t0 → t0 <= event_time u.2 <= maxDuration → all_used t0 ts → ts !! token = Some st → holds_back st b →
  (∃ st', (step ts u).1 !! token = Some st' ∧ holds_back st' b) ∧ (u.1 = token → ∀ t, (step ts u).2 = Some t → b <= t).
Proof.
  intros H0 Ht Hall Hst Hb. destruct (decide (u.1 = token)) as [Heq|Hne].
  2:{ rewrite step_other by done. split; [by exists st|done]. }
  assert (used_by (event_time u.2) st) as Hu by (eapply used_mono; [|by eapply Hall]; lia).
  unfold step. rewrite Heq. destruct (u.2) as [now|now err]; cbn [event_time] in *.
  - unfold claimFlexToken. rewrite Hst. change (default new_token (Some st)) with st. destruct (claim st now) as [st' r] eqn:Ec.
    destruct (claim_spec st now _ _ ltac:(lia) Hu Ec) as (Hl & _ & _ & _ & Hr). cbn [fst snd]. rewrite lookup_insert_eq. split.
    + exists st'. split; [done|]. unfold holds_back, used_by, zero_time, Second in *. rewrite Hl. destruct r; [rewrite Hr; done|]. destruct Hr as [-> _]. lia.
    + intros _ t. destruct r; [done|]. intros [= <-]. destruct Hr as [_ (H1 & _ & H3)]. unfold holds_back in Hb. lia.
  - unfold noteFlexOutcome. rewrite Hst. cbn [fst snd]. rewrite lookup_insert_eq. split; [|done]. eexists. split; [done|].
    destruct (note_spec st now err Hu ltac:(lia)) as [_ Hn]. destruct Hb as [Hb|[Hz Hb]].
    + left. unfold note. destruct err as [e|]; [|done]. cbn [tk_lockedUntil]. destruct (fe_kind e); try done. destruct Hu as [_ Hu]. lia.
    + right. specialize (Hn Hz). lia.
Qed.

Lemma grants_bound t0 ts us token st b :
  0 <= t0 → chronological t0 us → all_used t0 ts → ts !! token = Some st → holds_back st b → Forall (λ g, b <= g) (grants token ts us).
Proof.
  revert t0 ts st. induction us as [|u us IH]; intros t0 ts st H0 Hc Hall Hst Hb; cbn [grants]; [constructor|]. destruct Hc as [Ht Hc].
  destruct (step_holds t0 ts u token st b H0 Ht Hall Hst Hb) as [(st' & Hst' & Hb') Hg]. pose proof (step_used t0 ts u H0 Ht Hall) as Hall'.
  destruct (step ts u) as [ts' g]. cbn [fst snd] in *. apply Forall_app. split; [|eapply IH; [|exact Hc|exact Hall'|exact Hst'|exact Hb']; lia].
  destruct (String.eqb_spec u.1 token) as [Heq|]; [|constructor]. destruct g as [t|]; [|constructor]. constructor; [by apply Hg|constructor].
Qed.

Lemma grant_state t0 ts u t :
  0 <= t0 → t0 <= event_time u.2 <= maxDuration → all_used t0 ts → (step ts u).2 = Some t →
  ∃ st', (step ts u).1 !! u.1 = Some st' ∧ holds_back st' (t + flexTokenCooldown).
Proof.
  intros H0 Ht Hall. unfold step. destruct (u.2) as [now|]; [|done]. cbn [event_time] in Ht. unfold claimFlexToken.
  destruct (claim _ _) as [st' r] eqn:Ec. cbn [fst snd]. destruct r; [done|]. intros [= <-]. exists st'. split; [apply lookup_insert_eq|].
  assert (used_by now (default new_token (ts !! u.1))) as Hu.
  { destruct (ts !! u.1) as [s0|] eqn:Es; [|apply new_used; lia]. eapply used_mono; [|by eapply Hall]. lia. }
  destruct (claim_spec _ now _ _ ltac:(lia) Hu Ec) as (_ & _ & _ & _ & Hl & _). right. rewrite Hl. unfold zero_time, Second. lia.
Qed.

Lemma grants_spaced t0 ts us token :
  0 <= t0 → chronological t0 us → all_used t0 ts → StronglySorted (λ a b, a + flexTokenCooldown <= b) (grants token ts us).
Proof.
  revert t0 ts. induction us as [|u us IH]; intros t0 ts H0 Hc Hall; cbn [grants]; [constructor|]. destruct Hc as [Ht Hc].
  pose proof (step_used t0 ts u H0 Ht Hall) as Hall'. pose proof (grant_state t0 ts u) as Hg.
  destruct (step ts u) as [ts' g]. cbn [fst snd] in *. assert (0 <= event_time u.2) as H0' by lia. pose proof (IH _ _ H0' Hc Hall') as Hs.
  destruct (String.eqb_spec u.1 token) as [Heq|]; [|done]. destruct g as [t|]; [|done]. cbn [option_list option_rect app].
  destruct (Hg t H0 Ht Hall eq_refl) as (st' & Hst' & Hb). rewrite Heq in Hst'. constructor; [done|]. by eapply grants_bound.
Qed.

Lemma final_used t0 ts us : 0 <= t0 → chronological t0 us → all_used t0 ts → ∃ t1, t0 <= t1 ∧ all_used t1 (final ts us) ∧ (∀ us', chronological t0 (us ++ us') → chronological t1 us').
Proof.
  revert t0 ts. induction us as [|u us IH]; intros t0 ts H0 Hc Hall; cbn [final app]; [exists t0; split; [lia|]; by split|]. destruct Hc as [Ht Hc].
  assert (0 <= event_time u.2) as H0' by lia. destruct (IH _ _ H0' Hc (step_used t0 ts u H0 Ht Hall)) as (t1 & H1 & H2 & H3).
  exists t1. split; [lia|]. split; [done|]. intros us' [_ Hc']. by apply H3.
Qed.

Lemma chronological_app_l t0 us us' : chronological t0 (us ++ us') → chronological t0 us.
Proof. revert t0. induction us as [|u us IH]; intros t0; cbn [app chronological]; [done|]. intros [H1 H2]. split; [done|]. by apply IH. Qed.

(** A Flex token is spared.  Whatever the connections that share it ask, and in whatever order their requests end:
    two requests on one token are at least a minute apart, and once the broker answered that the token made too many
    failed attempts, nothing is sent with it before the next UTC day. *)
Theorem token_spared token us :
  chronological 0 us →
  StronglySorted (λ a b, a + flexTokenCooldown <= b) (grants token ∅ us) ∧
  ∀ pre t e post, us = pre ++ (token, Outcome t (Some e)) :: post → fe_kind e = ConfigLocked → is_Some (final ∅ pre !! token) →
    Forall (λ g, nextUTCDay t <= g) (grants token (final ∅ (pre ++ [(token, Outcome t (Some e))])) post).
Proof.
  intros Hc. assert (all_used 0 ∅) as H0 by (intros k st Hk; by rewrite lookup_empty in Hk). split; [by apply (grants_spaced 0)|].
  intros pre t e post -> Hk [st Hst]. pose proof (chronological_app_l _ _ _ Hc) as Hpre. destruct (final_used 0 ∅ pre) as (t1 & H1 & Hall & Hrest); [lia|done..|].
  apply Hrest in Hc as [Ht Hc]. cbn [snd event_time] in Ht, Hc. set (u := (token, Outcome t (Some e))).
  assert (final ∅ (pre ++ [u]) = (step (final ∅ pre) u).1) as ->. { clear. generalize (∅ : gmap string flexTokenState). induction pre as [|x pre IH]; intros ts; cbn [final app]; [done|apply IH]. }
  pose proof (step_used t1 (final ∅ pre) u ltac:(lia) Ht Hall) as Hall'.
  apply (grants_bound t _ _ _ (note st t (Some e))); [lia|exact Hc|exact Hall'| |].
  - unfold step, noteFlexOutcome. cbn [snd fst u]. rewrite Hst. cbn [fst]. apply lookup_insert_eq.
  - left. unfold note. rewrite Hk. cbn [tk_lockedUntil]. lia.
Qed.

(** Two requests on a token, one locked out until the next day. *)
Definition sample_uses : list (string * event) :=
  [("tok", Claim (10 * Hour)); ("tok", Claim (10 * Hour + Second)); ("tok", Outcome (10 * Hour + 2 * Second) None); ("tok", Claim (10 * Hour + Minute));
   ("tok", Outcome (11 * Hour) (Some (mkFlexError ConfigLocked "1025"))); ("tok", Claim (20 * Hour)); ("tok", Claim (25 * Hour))].

Lemma token_spared_witness :
  grants "tok" ∅ sample_uses = [10 * Hour; 10 * Hour + Minute; 25 * Hour] ∧
  StronglySorted (λ a b, a + flexTokenCooldown <= b) (grants "tok" ∅ sample_uses).
Proof.
  split; [vm_compute; reflexivity|]. destruct (token_spared "tok" sample_uses) as [H _]; [|exact H].
  cbn [chronological sample_uses event_time snd]. unfold Hour, Minute, Second, maxDuration. lia.
Defined.

(** ** The budget of a day *)

(** One use of the token from the claim to the outcome. *)
Record attempt := mkAttempt { am_claim : time; am_end : time; am_err : option flex_error }.

(** The failed requests of attempts made one after the other, by the time they
    were claimed. *)
Fixpoint failures (st : flexTokenState) (l : list attempt) : list time :=
  match l with
  | [] => []
  | a :: l =>
      match claim st (am_claim a) with
      | (st, Some _) => failures st l
      | (st, None) =>
          (match am_err a with Some _ => [am_claim a] | None => [] end) ++ failures (note st (am_end a) (am_err a)) l
      end
  end.

Fixpoint one_by_one (t0 : time) (l : list attempt) : Prop :=
  match l with
  | [] => True
  | a :: l => t0 <= am_claim a ∧ am_claim a <= am_end a <= maxDuration ∧ one_by_one (am_end a) l
  end.

Lemma duration_modern t : 0 <= t <= maxDuration → modern t.
Proof.
  intros H. unfold modern, day_index. change (day_of_civil 0 1 1) with (-719528). change (day_of_civil 10000 1 1) with 2932897.
  unfold maxDuration, Day, Hour, Minute, Second in *. split; [assert (0 <= t / (24 * (60 * (60 * 1000000000)))) by (apply Z.div_pos; lia); lia|]. apply Z.div_lt_upper_bound; lia.
Qed.

Lemma same_date t u : 0 <= t <= maxDuration → 0 <= u <= maxDuration → FormatDate t = FormatDate u → day_index t = day_index u.
Proof.
  intros Ht Hu E. apply FormatDate_inj in E; [|by apply duration_modern..]. apply (f_equal day_index) in E. by rewrite !truncDay_index in E.
Qed.

(** The attempts of the day of [d] that are still allowed. *)
Definition left_on (st : flexTokenState) (d : time) : nat :=
  if String.eqb (tk_budgetDay st) (FormatDate d) then flexTokenDailyFailures - tk_budgetSpent st else flexTokenDailyFailures.

Definition on_day (d t : time) : bool := day_index t =? day_index d.

Lemma failures_later t0 st l g : one_by_one t0 l → g ∈ failures st l → t0 <= g.
Proof.
  revert t0 st. induction l as [|a l IH]; intros t0 st; cbn [failures one_by_one]; [by intros _ ?%not_elem_of_nil|]. intros (H1 & H2 & H3).
  destruct (claim st (am_claim a)) as [st' [t|]]; [intros Hg; specialize (IH _ _ H3 Hg); lia|].
  intros [Hg|Hg]%elem_of_app; [|specialize (IH _ _ H3 Hg); lia]. destruct (am_err a); [|by apply not_elem_of_nil in Hg].
  apply list_elem_of_singleton in Hg as ->. lia.
Qed.

Lemma count_past t0 st l d : one_by_one t0 l → day_index d < day_index t0 → filter (λ g, on_day d g = true) (failures st l) = [].
Proof.
  intros Hl Hd. apply filter_none. intros g Hg. pose proof (failures_later _ _ _ _ Hl Hg) as Hle. unfold on_day.
  assert (day_index t0 <= day_index g) by (unfold day_index; apply Z.div_le_mono; [apply Day_pos|done]). intros Heq%Z.eqb_eq. lia.
Qed.

(** The day of the budget is not in the future. *)
Definition budget_past (st : flexTokenState) (t0 : time) : Prop :=
  ∀ u, 0 <= u <= maxDuration → tk_budgetDay st = FormatDate u → day_index u <= day_index t0.

Lemma day_index_mono t u : t <= u → day_index t <= day_index u.
Proof. intros H. unfold day_index. by apply Z.div_le_mono; [apply Day_pos|]. Qed.

Lemma left_same st st' d a :
  0 <= d <= maxDuration → 0 <= a <= maxDuration → day_index a = day_index d →
  tk_budgetDay st' = FormatDate a → tk_budgetSpent st' = tk_budgetSpent (roll_day st a) →
  left_on st' d = left_on st d ∧ tk_budgetDay st' = FormatDate d.
Proof.
  intros Hd Ha E Hday Hsp. assert (FormatDate a = FormatDate d) as Ef by (unfold FormatDate; by rewrite E).
  unfold left_on. rewrite Hday, Hsp, Ef, String.eqb_refl. split; [|done]. unfold roll_day. rewrite Ef.
  destruct (String.eqb_spec (tk_budgetDay st) (FormatDate d)); [done|]. cbn [tk_budgetSpent]. lia.
Qed.

Lemma left_other st d a :
  0 <= d <= maxDuration → 0 <= a <= maxDuration → tk_budgetDay st = FormatDate a → day_index a ≠ day_index d → left_on st d = flexTokenDailyFailures.
Proof.
  intros Hd Ha Hday Hn. unfold left_on. rewrite Hday. destruct (String.eqb_spec (FormatDate a) (FormatDate d)) as [E|]; [|done].
  by destruct (Hn (same_date a d Ha Hd E)).
Qed.

Lemma budget_past_at st a t : 0 <= a <= maxDuration → a <= t → tk_budgetDay st = FormatDate a → budget_past st t.
Proof. intros Ha Ht Hd u Hu Hu'. rewrite Hd in Hu'. rewrite <- (same_date a u Ha Hu Hu'). by apply day_index_mono. Qed.

Lemma failures_day t0 st l d :
  0 <= t0 → 0 <= d <= maxDuration → one_by_one t0 l → used_by t0 st → budget_past st t0 →
  (length (filter (λ g, on_day d g = true) (failures st l)) <= left_on st d)%nat.
Proof.
  intros H0 Hd. revert t0 st H0. induction l as [|a l IH]; intros t0 st H0 Hl Hu Hp; cbn [failures]; [cbn; lia|].
  destruct Hl as (H1 & H2 & H3). assert (0 <= am_claim a <= maxDuration) as Ha by lia.
  destruct (claim st (am_claim a)) as [st' r] eqn:Ec. assert (used_by (am_claim a) st) as Hu' by (by eapply used_mono).
  destruct (claim_spec _ (am_claim a) _ _ Ha Hu' Ec) as (Hlock & _ & Hday & Hspent & Hr).
  assert (used_by (am_end a) st') as Hust.
  { apply (used_mono (am_claim a)); [lia|]. destruct Hu' as [Hu1 Hu2]. split; [destruct r; [by rewrite Hr|destruct Hr as [-> _]; right; lia]|by rewrite Hlock]. }
  pose proof (budget_past_at st' _ (am_end a) Ha ltac:(lia) Hday) as Hpast.
  assert (0 <= am_end a) as He by lia. destruct (Z.lt_trichotomy (day_index d) (day_index (am_claim a))) as [Hlt|[E|Hgt]].
  - assert (day_index d < day_index (am_end a)) as Hlt' by (pose proof (day_index_mono (am_claim a) (am_end a)); lia).
    destruct r; [by rewrite (count_past (am_end a)); [cbn; lia|..]|]. rewrite filter_app, (count_past (am_end a)), app_nil_r by done.
    destruct (am_err a); [|cbn; lia]. rewrite filter_cons, decide_False by (unfold on_day; intros ?%Z.eqb_eq; lia). cbn. lia.
  - symmetry in E. destruct (left_same st st' d (am_claim a) Hd Ha E Hday Hspent) as [Hleft Hday']. rewrite <- Hleft.
    destruct r as [t|]; [by apply (IH (am_end a))|]. destruct Hr as [_ (_ & Hb & _)]. rewrite <- Hspent in Hb.
    pose proof (IH (am_end a) (note st' (am_end a) (am_err a)) He H3 (proj1 (note_spec _ _ _ Hust He))) as Hih.
    destruct (am_err a) as [e|].
    + assert (budget_past (note st' (am_end a) (Some e)) (am_end a)) as Hp' by (intros u; apply Hpast).
      specialize (Hih Hp'). rewrite filter_app, length_app, filter_cons, decide_True by (unfold on_day; by apply Z.eqb_eq).
      assert (left_on (note st' (am_end a) (Some e)) d = flexTokenDailyFailures - S (tk_budgetSpent st'))%nat as Hln
        by (unfold left_on; cbn [note tk_budgetDay tk_budgetSpent]; by rewrite Hday', String.eqb_refl).
      rewrite Hln in Hih. unfold left_on. rewrite Hday', String.eqb_refl. change (filter (λ g, on_day d g = true) []) with (@nil Z). cbn [length]. lia.
    + cbn [app]. apply Hih. intros u. apply Hpast.
  - assert (day_index (am_claim a) ≠ day_index d) as Hn by lia.
    assert (left_on st d = flexTokenDailyFailures) as ->.
    { unfold left_on. destruct (String.eqb_spec (tk_budgetDay st) (FormatDate d)) as [E|]; [|done].
      specialize (Hp d Hd E). pose proof (day_index_mono t0 (am_claim a) H1). lia. }
    destruct r as [t|]; [rewrite <- (left_other st' d (am_claim a)) by done; by apply (IH (am_end a))|].
    pose proof (IH (am_end a) (note st' (am_end a) (am_err a)) He H3 (proj1 (note_spec _ _ _ Hust He))) as Hih.
    rewrite (left_other (note st' (am_end a) (am_err a)) d (am_claim a)) in Hih by (done || (by destruct (am_err a))).
    rewrite filter_app, length_app. destruct (am_err a); [rewrite filter_cons, decide_False by (unfold on_day; intros ?%Z.eqb_eq; lia)|]; cbn [length filter list_filter plus];
      apply Hih; intros u; apply Hpast.
Qed.

(** A day has a budget of failures.  Of the requests made on one token one after the other, at most six of those
    sent on the same UTC day fail, whatever the broker answers and however often the connections ask. *)
Theorem failures_budgeted l d :
  one_by_one 0 l → 0 <= d <= maxDuration →
  (length (filter (λ g, on_day d g = true) (failures new_token l)) <= flexTokenDailyFailures)%nat.
Proof.
  intros Hl Hd. etrans; [apply (failures_day 0 new_token l d); [lia|done..|by apply new_used|]|unfold left_on; destruct (String.eqb _ _); lia].
  intros u Hu Hu'. pose proof (ParseDate_FormatDate u (duration_modern u Hu)) as Hp. by rewrite <- Hu' in Hp.
Qed.

(** Eight attempts in a row on one day, each failing at once. *)
Definition failing_day : list attempt :=
  (λ n, mkAttempt (Z.of_nat n * (2 * Hour + 10 * Minute)) (Z.of_nat n * (2 * Hour + 10 * Minute)) (Some (mkFlexError Transient "1001"))) <$> seq 0 9.

Lemma failures_budgeted_witness :
  length (failures new_token failing_day) = 6%nat ∧ (length (filter (λ g, on_day 0 g = true) (failures new_token failing_day)) <= flexTokenDailyFailures)%nat.
Proof.
  split; [vm_compute; reflexivity|]. apply failures_budgeted; [|unfold maxDuration; lia].
  cbn [failing_day seq fmap list_fmap one_by_one am_claim am_end]. unfold Hour, Minute, Second, maxDuration. lia.
Defined.

(** Requests that overlap are not held to the budget: each is claimed before the failure of the one before is known. *)
Definition overlapping : list (string * event) :=
  ((λ n, ("tok", Claim (Z.of_nat n * Minute))) <$> seq 0 10) ++
  ((λ n, ("tok", Outcome (Z.of_nat (10 + n) * Minute) (Some (mkFlexError Transient "1001")))) <$> seq 0 10).

Theorem overlapping_overruns :
  length (grants "tok" ∅ overlapping) = 10%nat ∧ (tk_budgetSpent <$> final ∅ overlapping !! "tok") = Some 10%nat.
Proof. vm_compute. done. Qed.

(** ** Waiting for a token *)

Lemma refused_later st now t :
  0 <= now <= maxDuration → used_by now st → (claim st now).2 = Some t → now < t.
Proof.
  intros Hn [Hu _]. unfold claim. destruct (roll_fields st now) as (HL & Hf & Hl).
  destruct (refused_until (roll_day st now) now) as [t'|] eqn:E; [|done]. intros [= <-]. revert E. unfold refused_until, Before. rewrite HL, Hf, Hl.
  destruct (Z.ltb_spec now (tk_lockedUntil st)); [by intros [= <-]|]. destruct (Nat.leb _ _).
  - intros [= <-]. unfold nextUTCDay. pose proof (truncDay_le now). unfold Day in *. lia.
  - unfold IsZero. destruct (Z.eqb_spec (tk_lastReq st) zero_time) as [|Hz]; [done|]. cbn [negb andb]. destruct Hu as [|Hu]; [done|].
    destruct (Z.ltb_spec (Sub now (tk_lastReq st)) (flexTokenWait (tk_failures st))) as [Hlt|]; [|done]. intros [= <-].
    rewrite Sub_exact in Hlt by (unfold minDuration, maxDuration in *; lia). lia.
Qed.

(** A clock that does not go back: the readings of a turn follow each other,
    the next turn comes after the pause, which lasts as long as was asked at
    least, and no request of the token is dated after the reading. *)
Record paced (turns : nat → turn) (token : string) : Prop := {
  pc_clock : ∀ k, 0 <= tu_now (turns k) ∧ tu_now (turns k) <= tu_until (turns k) ∧ tu_until (turns k) <= tu_add (turns k) ∧ tu_add (turns k) <= maxDuration;
  pc_used : ∀ k, all_used (tu_now (turns k)) (tu_tokens (turns k));
  pc_pause : ∀ k t, (claimFlexToken token (tu_now (turns k)) (tu_tokens (turns k))).2 = Some t →
    tu_add (turns k) + Z.max 0 (Sub t (tu_until (turns k)) + Second) <= tu_now (turns (S k));
}.

Lemma claim_later token now ts t : 0 <= now <= maxDuration → all_used now ts → (claimFlexToken token now ts).2 = Some t → now < t.
Proof.
  intros Hn Hall. unfold claimFlexToken. destruct (claim (default new_token (ts !! token)) now) as [st r] eqn:Ec. cbn [snd]. intros ->.
  apply (refused_later (default new_token (ts !! token))); [done| |by rewrite Ec]. destruct (ts !! token) eqn:E; [by eapply Hall|apply new_used; lia].
Qed.

Lemma waiting_fuel fuel turns k d token :
  paced turns token → (Z.to_nat ((d - tu_now (turns k)) / Second) < fuel)%nat → is_Some (claimFlexTokenWaiting fuel turns k (Some d) token).
Proof.
  intros Hp. revert k. induction fuel as [|fuel IH]; intros k Hf; [lia|]. cbn [claimFlexTokenWaiting].
  destruct (pc_clock _ _ Hp k) as (Hc0 & Hc1 & Hc2 & Hc3).
  pose proof (pc_pause _ _ Hp k) as Hpause. pose proof (λ t, claim_later token _ _ t (conj Hc0 (Z.le_trans _ _ _ Hc1 (Z.le_trans _ _ _ Hc2 Hc3))) (pc_used _ _ Hp k)) as Hlater.
  destruct (claimFlexToken token (tu_now (turns k)) (tu_tokens (turns k))) as [ts [t|]]; [|done]. cbn [snd] in *.
  specialize (Hpause t eq_refl). specialize (Hlater t eq_refl).
  destruct ((flexTokenWaitMax <? _) || _) eqn:Eb; [done|]. destruct (tu_cancelled _); [done|]. apply orb_false_iff in Eb as [Hw Ha].
  unfold After in Ha. apply Z.ltb_ge in Ha, Hw. assert (0 < Second) as HS by done.
  set (now := tu_now (turns k)) in *. set (next := tu_now (turns (S k))) in *. set (until := tu_until (turns k)) in *. set (add := tu_add (turns k)) in *.
  assert (Sub t until = t - until) as Es.
  { unfold flexTokenWaitMax, Minute, Second, Sub, minDuration, maxDuration in *. lia. }
  rewrite Es in *. apply IH. fold next.
  assert ((d - next) / Second <= (d - now) / Second - 1) as Hm.
  { replace ((d - now) / Second - 1) with ((d - now + -1 * Second) / Second) by (rewrite Z.div_add by lia; lia). apply Z.div_le_mono; lia. }
  assert (1 <= (d - now) / Second) as H1 by (apply Z.div_le_lower_bound; lia). lia.
Qed.

(** C39: the wait for a token ends.  Over a clock that does not go back, a
    request with a deadline has an answer after at most one turn more than
    there are whole seconds to the deadline, whatever the other requests do
    meanwhile and however long its own turns take; one without a deadline is
    answered in its first turn. *)
Theorem waiting_ends turns d token :
  paced turns token →
  is_Some (claimFlexTokenWaiting (S (Z.to_nat ((d - tu_now (turns 0%nat)) / Second))) turns 0 (Some d) token) ∧
  is_Some (claimFlexTokenWaiting 1 turns 0 None token).
Proof.
  intros Hp. split; [apply waiting_fuel; [done|lia]|]. cbn [claimFlexTokenWaiting].
  by destruct (claimFlexToken token (tu_now (turns 0%nat)) (tu_tokens (turns 0%nat))) as [ts [t|]].
Qed.

(** ** The cache *)

(** What was fetched: the statement of [from, to], by the key of its token and query. *)
Definition fetched (key : string) (from to at_ : time) (xml : report) : Prop :=
  ∃ call token queryID, key = token +:+ ":" +:+ queryID ∧ requestStatement (sa_broker call) token queryID from to = inl xml ∧ sa_stored call = at_.

Definition entries_fetched (c : gmap string flexReportEntry) : Prop :=
  ∀ key e, c !! key = Some e → fetched key (en_from e) (en_to e) (en_fetchedAt e) (en_xml e).

(** The caches any sequence of calls can leave. *)
Inductive cache_run : gmap string flexReportEntry → Prop :=
| run_empty : cache_run ∅
| run_call call token queryID from to before ts c ts' c' r :
    cache_run before → cache_run c → statement call token queryID from to before ts c = Some (ts', c', r) → cache_run c'.

Lemma oldest_in l p : oldest l = Some p → p ∈ l.
Proof.
  unfold oldest. enough (∀ acc, foldl (λ acc p, match acc with None => Some p | Some q => if String.eqb q.1 "" || Before (en_fetchedAt p.2) (en_fetchedAt q.2) then Some p else Some q end) acc l = Some p → acc = Some p ∨ p ∈ l) as H.
  { intros E. destruct (H _ E); [done|done]. }
  induction l as [|x l IH]; intros acc; cbn [foldl]; [by left|]. intros [E|E]%IH; [|by right; right].
  destruct acc as [q|]; [|injection E as <-; right; by left]. destruct (_ || _); [injection E as <-; right; by left|by left].
Qed.

Lemma oldest_some l : l ≠ [] → is_Some (oldest l).
Proof.
  unfold oldest. destruct l as [|x l]; [done|]. intros _. cbn [foldl].
  enough (∀ q, is_Some (foldl (λ acc p, match acc with None => Some p | Some q => if String.eqb q.1 "" || Before (en_fetchedAt p.2) (en_fetchedAt q.2) then Some p else Some q end) (Some q) l)) as H by apply H.
  induction l as [|y l IH]; intros q; cbn [foldl]; [done|]. destruct (_ || _); apply IH.
Qed.

Lemma trim_sub n c : trim_cache n c ⊆ c.
Proof.
  revert c. induction n as [|n IH]; intros c; cbn [trim_cache]; [done|]. destruct (Nat.leb _ _); [done|]. destruct (oldest _) as [p|]; [|done].
  etrans; [apply IH|]. apply delete_subseteq.
Qed.

Lemma trim_size n c : (size c <= n)%nat → (size (trim_cache n c) <= flexReportCacheMaxEntries)%nat.
Proof.
  revert c. induction n as [|n IH]; intros c Hn; cbn [trim_cache]; [lia|]. destruct (Nat.leb_spec (size c) flexReportCacheMaxEntries) as [|Hlt]; [done|].
  destruct (oldest (map_to_list c)) as [p|] eqn:Eo.
  - apply IH. apply oldest_in in Eo. destruct p as [k e]. apply elem_of_map_to_list in Eo. rewrite map_size_delete_Some by done. lia.
  - destruct (oldest_some (map_to_list c)) as [p Hp]; [|congruence]. rewrite map_to_list_empty_iff. intros ->. rewrite map_size_empty in Hlt. lia.
Qed.

Lemma evict_cache_spec now c : evictFlexReportCache now c ⊆ c ∧ (size (evictFlexReportCache now c) <= flexReportCacheMaxEntries)%nat.
Proof.
  unfold evictFlexReportCache. split; [|by apply trim_size]. etrans; [apply trim_sub|]. apply map_filter_subseteq.
Qed.

Lemma fetch_spec call token queryID from to ts c ts' c' r :
  fetch call token queryID from to ts c = (ts', c', r) → entries_fetched c →
  entries_fetched c' ∧ ((size c <= flexReportCacheMaxEntries)%nat → (size c' <= flexReportCacheMaxEntries)%nat) ∧
  ∀ xml, r = inl xml → fetched (token +:+ ":" +:+ queryID) from to (sa_stored call) xml.
Proof.
  unfold fetch. destruct (requestStatement _ _ _ _ _) as [xml|e] eqn:Er; intros [= <- <- <-] Hc; [|done].
  assert (fetched (token +:+ ":" +:+ queryID) from to (sa_stored call) xml) as Hf by (by exists call, token, queryID).
  split_and!.
  - intros k e' Hk. pose proof (lookup_weaken _ _ _ _ Hk (proj1 (evict_cache_spec _ _))) as Hk'.
    apply lookup_insert_Some in Hk' as [[<- <-]|[_ Hk']]; [exact Hf|by apply Hc].
  - intros _. apply evict_cache_spec.
  - by intros xml' [= <-].
Qed.

(** What [statement] may answer: a statement fetched for the key, of a period that ends on the day asked and starts no
    later, by this very call or less than three hours before one of its looks at the clock. *)
Definition answers (call : statement_call) (key : string) (from to : time) (xml : report) : Prop :=
  ∃ f at_, fetched key f to at_ xml ∧ f <= from ∧
    (f = from ∧ at_ = sa_stored call ∨ ∃ now, now ∈ [sa_first call; sa_second call; sa_stale call] ∧ Sub now at_ < flexStaleReuseWindow).

Lemma cached_answers call key from to maxAge now c xml :
  entries_fetched c → maxAge <= flexStaleReuseWindow → now ∈ [sa_first call; sa_second call; sa_stale call] →
  cachedStatement key from to maxAge now c = Some xml → answers call key from to xml.
Proof.
  intros Hc Hm Hn. unfold cachedStatement. destruct (c !! key) as [e|] eqn:Ee; [|done]. cbn [mbind option_bind].
  destruct (_ || _) eqn:Eb; [done|]. intros [= <-]. apply orb_false_iff in Eb as [[E1 E2]%orb_false_iff E3].
  apply Z.leb_gt in E1. apply negb_false_iff, Z.eqb_eq in E2. unfold After in E3. apply Z.ltb_ge in E3. specialize (Hc _ _ Ee). rewrite E2 in Hc.
  exists (en_from e), (en_fetchedAt e). split; [exact Hc|]. split; [lia|]. right. exists now. split; [done|lia].
Qed.

Lemma statement_spec call token queryID from to before ts c ts' c' r :
  entries_fetched before → entries_fetched c → statement call token queryID from to before ts c = Some (ts', c', r) →
  entries_fetched c' ∧ ((size c <= flexReportCacheMaxEntries)%nat → (size c' <= flexReportCacheMaxEntries)%nat) ∧
  ∀ xml, r = inl xml → answers call (token +:+ ":" +:+ queryID) from to xml.
Proof.
  intros Hb Hc. unfold statement. assert (flexReportCacheTTL <= flexStaleReuseWindow) as Httl by done.
  destruct (cachedStatement _ _ _ _ (sa_first call) before) as [x|] eqn:E1.
  { intros [= <- <- <-]. split_and!; [done|done|]. intros xml [= <-]. by eapply cached_answers in E1; [|done|done|left]. }
  destruct (cachedStatement _ _ _ _ (sa_second call) c) as [x|] eqn:E2.
  { intros [= <- <- <-]. split_and!; [done|done|]. intros xml [= <-]. by eapply cached_answers in E2; [|done|done|right; left]. }
  assert (∀ ts0, Some (fetch call token queryID from to ts0 c) = Some (ts', c', r) →
    entries_fetched c' ∧ ((size c <= flexReportCacheMaxEntries)%nat → (size c' <= flexReportCacheMaxEntries)%nat) ∧
    ∀ xml, r = inl xml → answers call (token +:+ ":" +:+ queryID) from to xml) as Hf.
  { intros ts0 [= Hf]. destruct (fetch_spec _ _ _ _ _ _ _ _ _ _ Hf Hc) as (F1 & F2 & F3). split_and!; [done|done|]. intros xml Hx.
    exists from, (sa_stored call). split; [by apply F3|]. split; [lia|by left]. }
  destruct (cachedStatement _ _ _ _ (sa_stale call) c) as [x|] eqn:E3.
  - destruct (claimFlexToken _ _ _) as [ts0 [t|]]; [|apply Hf]. intros [= <- <- <-]. split_and!; [done|done|]. intros xml [= <-].
    by eapply cached_answers in E3; [|done|done|right; right; left].
  - destruct (claimFlexTokenWaiting _ _ _ _ _) as [[ts0 [e|]]|]; [|apply Hf|done]. by intros [= <- <- <-].
Qed.

Lemma run_fetched c : cache_run c → entries_fetched c ∧ (size c <= flexReportCacheMaxEntries)%nat.
Proof.
  induction 1 as [|call token queryID from to before ts c ts' c' r _ [IHb _] _ [IH1 IH2] Hs].
  - split; [intros k e Hk; by rewrite lookup_empty in Hk|rewrite map_size_empty; unfold flexReportCacheMaxEntries; lia].
  - destruct (statement_spec _ _ _ _ _ _ _ _ _ _ _ IHb IH1 Hs) as (H1 & H2 & _). split; [done|by apply H2].
Qed.

(** A cached statement answers the question asked.  After any sequence of calls the process-wide cache holds at most
    256 statements, and whatever [statement] hands out was fetched with the same token and query, for a period that ends
    on the day asked and starts no later, in this call or less than three hours before. *)
Theorem cached_statement_answers call token queryID from to before ts c ts' c' r :
  cache_run before → cache_run c → statement call token queryID from to before ts c = Some (ts', c', r) →
  (size c' <= flexReportCacheMaxEntries)%nat ∧ ∀ xml, r = inl xml → answers call (token +:+ ":" +:+ queryID) from to xml.
Proof.
  intros [Hb _]%run_fetched [Hc Hs]%run_fetched H. destruct (statement_spec _ _ _ _ _ _ _ _ _ _ _ Hb Hc H) as (_ & H2 & H3). split; [by apply H2|done].
Qed.

(** ** The token and the texts of errors *)

Lemma QueryEscape_star_free s : star_free (QueryEscape s).
Proof.
  unfold star_free. induction s as [|c s IH]; cbn [QueryEscape]; [by intros []|]. destruct (unreserved c) eqn:E.
  - intros [H|H]; [|done]. subst c. vm_compute in E. discriminate.
  - destruct (Ascii.eqb c " "); [intros [H|H]; [discriminate|done]|]. cbn [String.list_ascii_of_string].
    pose proof (N_ascii_bounded c) as Hb. intros [H|[H|[H|H]]]; [discriminate| | |done].
    + revert H. apply (below_spec 16 (λ n, upper_ascii (hex_digit n) ≠ "*"%char)); [vm_compute; reflexivity|]. apply N.Div0.div_lt_upper_bound. lia.
    + revert H. apply (below_spec 16 (λ n, upper_ascii (hex_digit n) ≠ "*"%char)); [vm_compute; reflexivity|]. apply N.mod_lt. lia.
Qed.

Lemma QueryEscape_nonempty s : s ≠ "" → QueryEscape s ≠ "".
Proof. destruct s as [|c s]; [done|]. intros _. cbn [QueryEscape]. by destruct (unreserved c), (Ascii.eqb c " "). Qed.

Lemma scrub_removes s secret : star_free secret → secret ≠ "" → Contains (scrubSecret s secret) secret = false.
Proof. intros H Hne. unfold scrubSecret. destruct (String.eqb_spec secret ""); [done|]. by apply ReplaceAll_removes. Qed.

(** A transport error never carries the token.  http.Client prints the whole URL of the request it failed on; what
    is left of that text holds neither the Flex token nor the form it has in a query string. *)
Theorem transport_error_hides_token token e :
  star_free token → token ≠ "" →
  Contains (transportErr token e) token = false ∧ Contains (transportErr token e) (QueryEscape token) = false.
Proof.
  intros Hs Hne. unfold transportErr. destruct (String.eqb_spec (QueryEscape token) token) as [->|].
  - split; by apply scrub_removes.
  - split; [|apply scrub_removes; [apply QueryEscape_star_free|by apply QueryEscape_nonempty]].
    unfold scrubSecret at 1. destruct (String.eqb _ _); [by apply scrub_removes|]. apply ReplaceAll_absent; [done..|]. by apply scrub_removes.
Qed.

Definition leaking : string := "Get https://x?q=1&t=a%2Fb&v=3: a/b refused".

Lemma transport_error_hides_token_witness :
  transportErr "a/b" leaking = "Get https://x?q=1&t=***&v=3: *** refused" ∧ Contains (transportErr "a/b" leaking) (QueryEscape "a/b") = false.
Proof.
  split; [vm_compute; reflexivity|]. apply (transport_error_hides_token "a/b" leaking); [|discriminate]. unfold star_free. cbn. intros [H|[H|[H|[]]]]; discriminate H.
Defined.

(** ** A statement fetched, then served again *)

Definition sample_body : string := "<FlexQueryResponse/>".

Definition sample_broker : flex_broker :=
  mkBroker (λ _, Body 200 "ok") (λ _ _, Body 200 sample_body) (λ _, None) (λ _, inl (mkFlexResponse "Success" "42" "" "")) (λ s, s) (λ _, FlexQueryResponse []).

Definition sample_call (now : time) : statement_call :=
  mkCall now now now now (λ _, mkTurn ∅ now now now None) 1 None now now now sample_broker.

Definition sample_from : time := 100 * Day.
Definition sample_to : time := 104 * Day.

Definition first_run := statement (sample_call (110 * Day)) "tok" "q" sample_from sample_to ∅ ∅ ∅.

Definition sample_cache : gmap string flexReportEntry := match first_run with Some (_, c, _) => c | None => ∅ end.
Definition sample_tokens : gmap string flexTokenState := match first_run with Some (ts, _, _) => ts | None => ∅ end.

Lemma first_run_ok : first_run = Some (sample_tokens, sample_cache, inl (FlexQueryResponse [])).
Proof. vm_compute. reflexivity. Qed.

Lemma sample_run : cache_run sample_cache.
Proof. exact (run_call _ _ _ _ _ _ _ _ _ _ _ run_empty run_empty first_run_ok). Qed.

(** A narrower question two minutes later: no request is sent. *)
Lemma cached_statement_answers_witness :
  statement (sample_call (110 * Day + 2 * Minute)) "tok" "q" (101 * Day) sample_to sample_cache sample_tokens sample_cache =
    Some (sample_tokens, sample_cache, inl (FlexQueryResponse [])) ∧
  answers (sample_call (110 * Day + 2 * Minute)) "tok:q" (101 * Day) sample_to (FlexQueryResponse []).
Proof.
  assert (statement (sample_call (110 * Day + 2 * Minute)) "tok" "q" (101 * Day) sample_to sample_cache sample_tokens sample_cache =
    Some (sample_tokens, sample_cache, inl (FlexQueryResponse []))) as E by (vm_compute; reflexivity).
  split; [exact E|]. destruct (cached_statement_answers _ _ _ _ _ _ _ _ _ _ _ sample_run sample_run E) as [_ H]. exact (H _ eq_refl).
Defined.

(** A token in use, and a caller that may wait for an hour. *)
Definition busy_turns (k : nat) : turn :=
  match k with
  | O => mkTurn {[ "tok" := mkToken (10 * Hour) 0 "" 0 zero_time ]} (10 * Hour) (10 * Hour + 5) (10 * Hour + 9) None
  | _ => let now := 10 * Hour + Minute + Second + 4 in mkTurn ∅ now (now + 1) (now + 2) None
  end.

Lemma busy_paced : paced busy_turns "tok".
Proof.
  split; [intros [|k]; vm_compute; split_and!; discriminate| |].
  - intros [|k] key st Hk; cbn [busy_turns tu_tokens tu_now] in *; [|by rewrite lookup_empty in Hk]. apply lookup_singleton_Some in Hk as [<- <-].
    split; [right; vm_compute; split; discriminate|vm_compute; discriminate].
  - intros [|k] t Hk; [|vm_compute in Hk; discriminate Hk]. cbn [busy_turns tu_tokens tu_now] in *. vm_compute in Hk. injection Hk as <-. vm_compute. discriminate.
Qed.

Lemma waiting_ends_witness :
  match claimFlexTokenWaiting (S (Z.to_nat ((11 * Hour - 10 * Hour) / Second))) busy_turns 0 (Some (11 * Hour)) "tok" with
  | Some (ts, e) => e = None ∧ (tk_lastReq <$> ts !! "tok") = Some (10 * Hour + Minute + Second + 4)
  | None => False
  end.
Proof.
  destruct (waiting_ends busy_turns (11 * Hour) "tok" busy_paced) as [[x Hx] _].
  change (tu_now (busy_turns 0)) with (10 * Hour) in Hx. rewrite Hx. vm_compute in Hx. injection Hx as <-. vm_compute. split; reflexivity.
Defined.

End FlexGate.
