(* ===== verification/FlexMerge.v ===== *)
(** * Merging the daily statements of an account

    mergeDailyStatements against what it should mean: each day's rows less
    those an earlier day already stated, the last word on each day's net
    asset value, and the positions of the last day. *)

From S2P Require Import Prelude Num GoTime GoText Types Encoding Flex.
From stdpp Require Import base gmap strings tactics sorting list.
From Stdlib Require Import ZArith Ascii Lia.
Import Flex.
Local Open Scope Z_scope.

Module FlexMerge.

(** ** What the merge should state *)

Definition sections_rows (b : flexStatementBlock) (name : string) : list flexRow :=
  sec ← filter (λ s, fs_XMLName s = name) (bl_Inner b); fs_Rows sec.

(** The rows of a day, as they are kept. *)
Definition day_rows (d : datedStatement) (name : string) : list flexRow := stamp d name <$> sections_rows (ds_block d) name.

(** Each day's rows, less those with the key of a row of an earlier day. *)
Fixpoint fresh_rows (earlier : list flexRow) (days : list datedStatement) (name : string) : list flexRow :=
  match days with
  | [] => []
  | d :: days => filter (λ r, row_key r ∉ row_key <$> earlier) (day_rows d name) ++ fresh_rows (earlier ++ day_rows d name) days name
  end.

(** The sections whose rows are events. *)
Definition event_section (name : string) : bool := negb (String.eqb name "EquitySummaryInBase") && negb (String.eqb name "OpenPositions").

(** The name of an XML element holds no control character. *)
Definition plain (name : string) : Prop := ¬ List.In (ascii_of_nat 1) (String.list_ascii_of_string name).

Definition full_key (name : string) (r : flexRow) : string := name +:+ soh +:+ row_key r.

Lemma full_key_inj n1 n2 r1 r2 : plain n1 → plain n2 → full_key n1 r1 = full_key n2 r2 → n1 = n2 ∧ row_key r1 = row_key r2.
Proof.
  unfold full_key. revert n2. induction n1 as [|c n1 IH]; intros [|c' n2] H1 H2 E.
  - by injection E as E.
  - injection E as E _. subst c'. exfalso. apply H2. by left.
  - injection E as E _. subst c. exfalso. apply H1. by left.
  - injection E as -> E. destruct (IH n2) as [-> ->]; [|by intros H; apply H2; right|exact E|done]. intros H. apply H1. by right.
Qed.

(** ** One section of one day *)

(** The rows of a section in a merge. *)
Definition rows_of (m : flexMerge) (name : string) : list flexRow := from_option fs_Rows [] (fm_sections m !! name).

(** [E] is what the days before stated, [D] what the day itself did so far. *)
Lemma add_rows_spec d name E rows out D :
  D ## E →
  ∃ D', addRows d name rows out (E ∪ D) D = (out ++ filter (λ r, full_key name r ∉ E) (stamp d name <$> rows), E ∪ D', D') ∧
    D' ## E ∧ E ∪ D' = E ∪ D ∪ list_to_set (full_key name <$> (stamp d name <$> rows)).
Proof.
  unfold addRows. revert out D. induction rows as [|r rows IH]; intros out D HD; cbn [foldl].
  { exists D. rewrite app_nil_r. split; [done|]. split; [done|set_solver]. }
  assert (add_row d name (out, E ∪ D, D) r =
    if decide (full_key name (stamp d name r) ∈ E) then (out, E ∪ D, D)
    else (out ++ [stamp d name r], E ∪ ({[full_key name (stamp d name r)]} ∪ D), {[full_key name (stamp d name r)]} ∪ D)) as ->.
  { unfold add_row. fold (full_key name (stamp d name r)). set (k := full_key name (stamp d name r)). destruct (decide (k ∈ E)) as [Hk|Hk].
    - rewrite bool_decide_true by set_solver. rewrite bool_decide_false by set_solver. done.
    - replace (E ∪ ({[k]} ∪ D)) with ({[k]} ∪ (E ∪ D)) by set_solver.
      destruct (decide (k ∈ D)) as [Hd|Hd]; [rewrite (bool_decide_true (k ∈ D)) by done|rewrite bool_decide_false by set_solver]; by rewrite ?andb_false_r. }
  rewrite fmap_cons, filter_cons. set (k := full_key name (stamp d name r)) in *. destruct (decide (k ∈ E)) as [Hk|Hk].
  - destruct (IH out D HD) as (D' & -> & H1 & H2). exists D'. rewrite decide_False by tauto. split; [done|]. split; [done|]. rewrite fmap_cons, list_to_set_cons. fold k. rewrite H2. generalize (list_to_set (full_key name <$> (stamp d name <$> rows)) : gset string). clear -Hk. set_solver.
  - destruct (IH (out ++ [stamp d name r]) ({[k]} ∪ D)) as (D' & -> & H1 & H2); [set_solver|]. exists D'. rewrite decide_True by done. rewrite <- app_assoc.
    split; [done|]. split; [done|]. rewrite fmap_cons, list_to_set_cons. fold k. rewrite H2. generalize (list_to_set (full_key name <$> (stamp d name <$> rows)) : gset string). clear. set_solver.
Qed.

Record well_formed (m : flexMerge) : Prop := {
  wf_nodup : NoDup (fm_order m);
  wf_dom : ∀ name, name ∈ fm_order m ↔ is_Some (fm_sections m !! name);
  wf_names : ∀ name s, fm_sections m !! name = Some s → fs_XMLName s = name;
}.

Lemma open_spec m sec m' out :
  well_formed m → open_section m sec = (m', out) →
  well_formed m' ∧ fm_sections m' !! fs_XMLName sec = Some out ∧ fs_XMLName out = fs_XMLName sec ∧ fs_Rows out = rows_of m (fs_XMLName sec) ∧
  (∀ n, rows_of m' n = rows_of m n) ∧ fm_nav m' = fm_nav m ∧ fm_seen m' = fm_seen m ∧
  (∀ n, is_Some (fm_sections m' !! n) ↔ is_Some (fm_sections m !! n) ∨ n = fs_XMLName sec).
Proof.
  intros [W1 W2 W3]. unfold open_section, rows_of. destruct (fm_sections m !! fs_XMLName sec) as [o|] eqn:E; intros [= <- <-].
  - split_and!; try done; [by apply W3|]. intros n. split; [by left|]. intros [H|H]; [done|]. subst n. by rewrite E.
  - cbn [fm_sections fm_nav fm_seen fs_XMLName fs_Rows]. split_and!; try done; [|by rewrite lookup_insert_eq| |].
    + split; cbn [fm_order fm_sections].
      * apply NoDup_app. split; [done|]. split; [|apply NoDup_singleton]. intros n Hn ->%list_elem_of_singleton. apply W2 in Hn. rewrite E in Hn. by destruct Hn.
      * intros n. rewrite elem_of_app, list_elem_of_singleton, W2. destruct (decide (n = fs_XMLName sec)) as [->|Hn]; [rewrite lookup_insert_eq; naive_solver|rewrite lookup_insert_ne by done; naive_solver].
      * intros n s [[<- <-]|[_ H]]%lookup_insert_Some; [done|by apply W3].
    + intros n. destruct (decide (n = fs_XMLName sec)) as [->|Hn]; [by rewrite lookup_insert_eq, E|by rewrite lookup_insert_ne].
    + intros n. destruct (decide (n = fs_XMLName sec)) as [->|Hn]; [rewrite lookup_insert_eq; naive_solver|rewrite lookup_insert_ne by done; naive_solver].
Qed.

(** Replacing the rows of a section that is open. *)
Lemma set_rows_wf m out rows nav seen :
  well_formed m → fm_sections m !! fs_XMLName out = Some out →
  well_formed (mkMerge (fm_order m) (<[fs_XMLName out := with_rows out rows]> (fm_sections m)) nav seen).
Proof.
  intros [W1 W2 W3] Ho. split; cbn [fm_order fm_sections]; [done| |].
  - intros n. rewrite W2. destruct (decide (n = fs_XMLName out)) as [->|]; [rewrite lookup_insert_eq, Ho; naive_solver|by rewrite lookup_insert_ne].
  - intros n s [[<- <-]|[_ H]]%lookup_insert_Some; [done|by apply W3].
Qed.

Definition put_nav (nav : gmap string flexRow) (rows : list flexRow) : gmap string flexRow :=
  foldl (λ nav r, <[report_date r := r]> nav) nav rows.

(** What one section does to a merge, [E] being what the days before stated. *)
Record section_done (E : gset string) (d : datedStatement) (sec : flexSection) (m : flexMerge) (D : gset string) (m' : flexMerge) (D' : gset string) : Prop := {
  sd_wf : well_formed m';
  sd_seen : fm_seen m' = E ∪ D' ∧ D' ## E;
  sd_keys : E ∪ D' = E ∪ D ∪ (if event_section (fs_XMLName sec) then list_to_set (full_key (fs_XMLName sec) <$> (stamp d (fs_XMLName sec) <$> fs_Rows sec)) else ∅);
  sd_open : ∀ n, is_Some (fm_sections m' !! n) ↔ is_Some (fm_sections m !! n) ∨ n = fs_XMLName sec;
  sd_rows : ∀ n, event_section n = true → rows_of m' n =
    rows_of m n ++ (if decide (n = fs_XMLName sec) then filter (λ r, full_key n r ∉ E) (stamp d n <$> fs_Rows sec) else []);
  sd_nav : fm_nav m' = (if String.eqb (fs_XMLName sec) "EquitySummaryInBase" then put_nav (fm_nav m) (fs_Rows sec) else fm_nav m);
  sd_nav_rows : rows_of m' "EquitySummaryInBase" = rows_of m "EquitySummaryInBase";
  sd_positions : rows_of m' "OpenPositions" = (if String.eqb (fs_XMLName sec) "OpenPositions" then fs_Rows sec else rows_of m "OpenPositions");
}.

Lemma rows_of_insert order secs name out rows nav seen n :
  rows_of (mkMerge order (<[name := with_rows out rows]> secs) nav seen) n = (if decide (n = name) then rows else from_option fs_Rows [] (secs !! n)).
Proof. unfold rows_of. cbn [fm_sections]. destruct (decide (n = name)) as [->|]; [by rewrite lookup_insert_eq|by rewrite lookup_insert_ne]. Qed.

Lemma add_section_spec E d sec m D :
  well_formed m → fm_seen m = E ∪ D → D ## E →
  ∃ m' D', add_section d (m, D) sec = (m', D') ∧ section_done E d sec m D m' D'.
Proof.
  intros Hwf Hseen HD. unfold add_section. destruct (open_section m sec) as [m1 out] eqn:Eo.
  destruct (open_spec m sec m1 out Hwf Eo) as (W & Ho & Hn & Hr & Hrows & Hnav & Hs & Hopen).
  destruct (String.eqb_spec (fs_XMLName sec) "EquitySummaryInBase") as [E1|E1].
  - eexists _, D. split; [done|]. split; cbn [fm_seen fm_sections fm_nav]; rewrite ?E1.
    + destruct W as [W1 W2 W3]. by split.
    + split; [by rewrite Hs, Hseen|done].
    + change (event_section "EquitySummaryInBase") with false. set_solver.
    + rewrite <- E1. done.
    + intros n Hev. rewrite decide_False; [|intros ->; vm_compute in Hev; discriminate]. rewrite app_nil_r. apply Hrows.
    + cbn [String.eqb]. by rewrite Hnav.
    + apply Hrows.
    + apply Hrows.
  - destruct (String.eqb_spec (fs_XMLName sec) "OpenPositions") as [E2|E2].
    + eexists _, D. split; [done|]. pose proof (set_rows_wf m1 out (fs_Rows sec) (fm_nav m1) (fm_seen m1) W) as Hw. rewrite Hn in Hw. specialize (Hw Ho).
      split; cbn [fm_seen fm_sections fm_nav]; [exact Hw|by rewrite Hs, Hseen| | | |by rewrite (proj2 (String.eqb_neq _ _) E1), Hnav| |].
      * rewrite E2. change (event_section "OpenPositions") with false. set_solver.
      * intros n. rewrite <- Hopen. destruct (decide (n = fs_XMLName sec)) as [->|]; [rewrite lookup_insert_eq, Ho; naive_solver|by rewrite lookup_insert_ne].
      * intros n Hev. rewrite rows_of_insert. rewrite decide_False; [|intros ->; rewrite E2 in Hev; vm_compute in Hev; discriminate]. rewrite decide_False, app_nil_r; [apply Hrows|intros ->; rewrite E2 in Hev; vm_compute in Hev; discriminate].
      * rewrite rows_of_insert, decide_False; [apply Hrows|by intros H].
      * rewrite rows_of_insert, decide_True by done. by rewrite E2.
    + destruct (add_rows_spec d (fs_XMLName sec) E (fs_Rows sec) (fs_Rows out) D HD) as (D' & Ea & HD' & Hk). rewrite Hs, Hseen, Ea.
      eexists _, D'. split; [done|]. pose proof (set_rows_wf m1 out (fs_Rows out ++ filter (λ r, full_key (fs_XMLName sec) r ∉ E) (stamp d (fs_XMLName sec) <$> fs_Rows sec)) (fm_nav m1) (E ∪ D') W) as Hw.
      rewrite Hn in Hw. specialize (Hw Ho).
      assert (event_section (fs_XMLName sec) = true) as Hev by (unfold event_section; by rewrite (proj2 (String.eqb_neq _ _) E1), (proj2 (String.eqb_neq _ _) E2)).
      split; cbn [fm_seen fm_sections fm_nav]; [exact Hw|done|by rewrite Hev| | |by rewrite (proj2 (String.eqb_neq _ _) E1), Hnav| |].
      * intros n. rewrite <- Hopen. destruct (decide (n = fs_XMLName sec)) as [->|]; [rewrite lookup_insert_eq, Ho; naive_solver|by rewrite lookup_insert_ne].
      * intros n _. rewrite rows_of_insert. destruct (decide (n = fs_XMLName sec)) as [->|]; [by rewrite Hr|rewrite app_nil_r; apply Hrows].
      * rewrite rows_of_insert, decide_False; [apply Hrows|congruence].
      * rewrite rows_of_insert, (proj2 (String.eqb_neq _ _) E2), decide_False; [apply Hrows|congruence].
Qed.

(** ** One day *)

Definition rows_in (secs : list flexSection) (name : string) : list flexRow := sec ← filter (λ s, fs_XMLName s = name) secs; fs_Rows sec.

Definition event_keys (d : datedStatement) (secs : list flexSection) : list string :=
  sec ← filter (λ s, event_section (fs_XMLName s) = true) secs; full_key (fs_XMLName sec) <$> (stamp d (fs_XMLName sec) <$> fs_Rows sec).

Definition last_positions (secs : list flexSection) (before : list flexRow) : list flexRow :=
  foldl (λ acc sec, if String.eqb (fs_XMLName sec) "OpenPositions" then fs_Rows sec else acc) before secs.

Lemma put_nav_app nav a b : put_nav nav (a ++ b) = put_nav (put_nav nav a) b.
Proof. unfold put_nav. apply foldl_app. Qed.

Lemma rows_in_cons sec secs n : rows_in (sec :: secs) n = (if decide (fs_XMLName sec = n) then fs_Rows sec else []) ++ rows_in secs n.
Proof. unfold rows_in. rewrite filter_cons. by destruct (decide (fs_XMLName sec = n)). Qed.

Lemma event_keys_cons d sec secs :
  event_keys d (sec :: secs) = (if event_section (fs_XMLName sec) then full_key (fs_XMLName sec) <$> (stamp d (fs_XMLName sec) <$> fs_Rows sec) else []) ++ event_keys d secs.
Proof. unfold event_keys. rewrite filter_cons. by destruct (event_section (fs_XMLName sec)). Qed.

(** What the sections of a day do to a merge. *)
Record day_done (E : gset string) (d : datedStatement) (secs : list flexSection) (m m' : flexMerge) : Prop := {
  dd_wf : well_formed m';
  dd_rows : ∀ n, event_section n = true → rows_of m' n = rows_of m n ++ filter (λ r, full_key n r ∉ E) (stamp d n <$> rows_in secs n);
  dd_nav : fm_nav m' = put_nav (fm_nav m) (rows_in secs "EquitySummaryInBase");
  dd_nav_rows : rows_of m' "EquitySummaryInBase" = rows_of m "EquitySummaryInBase";
  dd_positions : rows_of m' "OpenPositions" = last_positions secs (rows_of m "OpenPositions");
  dd_open : ∀ n, is_Some (fm_sections m' !! n) ↔ is_Some (fm_sections m !! n) ∨ n ∈ fs_XMLName <$> secs;
}.

Lemma sections_spec E d secs m D :
  well_formed m → fm_seen m = E ∪ D → D ## E →
  ∃ m' D', foldl (add_section d) (m, D) secs = (m', D') ∧ day_done E d secs m m' ∧ fm_seen m' = E ∪ D' ∧ D' ## E ∧ E ∪ D' = E ∪ D ∪ list_to_set (event_keys d secs).
Proof.
  revert m D. induction secs as [|sec secs IH]; intros m D Hwf Hs HD; cbn [foldl].
  { exists m, D. split; [done|]. split; [|split_and!; [done..|cbn; set_solver]]. split; try done; [intros n _; by rewrite app_nil_r|]. intros n. set_solver. }
  destruct (add_section_spec E d sec m D Hwf Hs HD) as (m1 & D1 & -> & [W [S1 S2] K O R N NR P]).
  destruct (IH m1 D1 W S1 S2) as (m2 & D2 & -> & [W' R' N' NR' P' O'] & S1' & S2' & K'). exists m2, D2. split; [done|]. split; [|split_and!; [done..|]].
  - split; [done| | |congruence| |].
    + intros n Hn. rewrite (R' n Hn), (R n Hn), rows_in_cons, fmap_app, filter_app, app_assoc. f_equal. f_equal.
      destruct (decide (n = fs_XMLName sec)) as [->|Hne]; [by rewrite decide_True|by rewrite decide_False].
    + rewrite N', N, rows_in_cons, put_nav_app. destruct (String.eqb_spec (fs_XMLName sec) "EquitySummaryInBase"); [by rewrite decide_True|by rewrite decide_False].
    + rewrite P', P. unfold last_positions. cbn [foldl]. done.
    + intros n. rewrite O', O, fmap_cons, elem_of_cons. tauto.
  - rewrite K', K, event_keys_cons, list_to_set_app_L. destruct (event_section _); cbn [list_to_set]; [|rewrite (right_id_L ∅ (∪)), (left_id_L ∅ (∪))]; by rewrite ?(assoc_L (∪)).
Qed.

Lemma add_day_spec m d :
  well_formed m →
  day_done (fm_seen m) d (bl_Inner (ds_block d)) m (addDay m d) ∧
  fm_seen (addDay m d) = fm_seen m ∪ list_to_set (event_keys d (bl_Inner (ds_block d))).
Proof.
  intros Hwf. unfold addDay. destruct (sections_spec (fm_seen m) d (bl_Inner (ds_block d)) m ∅ Hwf) as (m' & D' & -> & Hd & Hs & _ & Hk); [set_solver..|].
  cbn [fst]. split; [done|]. rewrite Hs, Hk. set_solver.
Qed.

(** ** The days *)

Definition named (d : datedStatement) : Prop := Forall (λ s, plain (fs_XMLName s)) (bl_Inner (ds_block d)).

Lemma event_keys_elem d n r :
  named d → plain n → event_section n = true →
  full_key n r ∈ event_keys d (bl_Inner (ds_block d)) ↔ row_key r ∈ row_key <$> day_rows d n.
Proof.
  intros Hd Hn He. unfold event_keys, day_rows, sections_rows. setoid_rewrite list_elem_of_bind. split.
  - intros (sec & Hk & Hsec). apply list_elem_of_filter in Hsec as [_ Hsec]. apply list_elem_of_fmap in Hk as (r' & Hk & Hr').
    unfold named in Hd. rewrite Forall_forall in Hd. destruct (full_key_inj n (fs_XMLName sec) r r' Hn (Hd sec Hsec) Hk) as [-> ->].
    apply list_elem_of_fmap. exists r'. split; [done|]. apply list_elem_of_fmap in Hr' as (x & -> & Hx). apply list_elem_of_fmap. exists x. split; [done|].
    apply list_elem_of_bind. exists sec. split; [done|]. by apply list_elem_of_filter.
  - intros (r' & Hk & Hr')%list_elem_of_fmap. apply list_elem_of_fmap in Hr' as (x & -> & Hx). apply list_elem_of_bind in Hx as (sec & Hx & Hsec).
    apply list_elem_of_filter in Hsec as [Hname Hsec]. exists sec. rewrite Hname. split; [|by apply list_elem_of_filter; rewrite Hname].
    apply list_elem_of_fmap. exists (stamp d n x). split; [unfold full_key; by rewrite Hk|]. apply list_elem_of_fmap. by exists x.
Qed.

(** What was stated before, section by section. *)
Definition stated (E : gset string) (earlier : string → list flexRow) : Prop :=
  ∀ n r, plain n → event_section n = true → full_key n r ∈ E ↔ row_key r ∈ row_key <$> earlier n.

Lemma stated_day E earlier d : named d → stated E earlier →
  stated (E ∪ list_to_set (event_keys d (bl_Inner (ds_block d)))) (λ n, earlier n ++ day_rows d n).
Proof.
  intros Hd Hs n r Hn He. rewrite elem_of_union, elem_of_list_to_set, fmap_app, elem_of_app, (Hs n r Hn He), event_keys_elem by done. done.
Qed.

Record days_done (earlier : string → list flexRow) (days : list datedStatement) (m m' : flexMerge) : Prop := {
  ds_wf : well_formed m';
  ds_rows : ∀ n, plain n → event_section n = true → rows_of m' n = rows_of m n ++ fresh_rows (earlier n) days n;
  ds_nav : fm_nav m' = put_nav (fm_nav m) (d ← days; sections_rows (ds_block d) "EquitySummaryInBase");
  ds_nav_rows : rows_of m' "EquitySummaryInBase" = rows_of m "EquitySummaryInBase";
  ds_positions : rows_of m' "OpenPositions" = last_positions (d ← days; bl_Inner (ds_block d)) (rows_of m "OpenPositions");
  ds_open : ∀ n, is_Some (fm_sections m' !! n) ↔ is_Some (fm_sections m !! n) ∨ ∃ d, d ∈ days ∧ n ∈ fs_XMLName <$> bl_Inner (ds_block d);
}.

Lemma days_spec days : ∀ m earlier,
  Forall named days → well_formed m → stated (fm_seen m) earlier → days_done earlier days m (foldl addDay m days).
Proof.
  induction days as [|d days IH]; intros m earlier Hn Hwf Hs; cbn [foldl].
  - split; try done; [intros n _ _; cbn; by rewrite app_nil_r|]. intros n. split; [by left|]. intros [H|(d & Hd & _)]; [done|by apply not_elem_of_nil in Hd].
  - apply Forall_cons in Hn as [Hd Hn]. destruct (add_day_spec m d Hwf) as [[W R N NR P O] Hseen].
    destruct (IH (addDay m d) (λ n, earlier n ++ day_rows d n) Hn W) as [W' R' N' NR' P' O']; [rewrite Hseen; by apply stated_day|].
    split; [done| | |congruence| |].
    + intros n Hp He. rewrite (R' n Hp He), (R n He), <- app_assoc. f_equal. cbn [fresh_rows]. f_equal. apply list_filter_iff. intros r. by rewrite (Hs n r Hp He).
    + rewrite N', N. cbn [mbind list_bind]. by rewrite put_nav_app.
    + rewrite P', P. cbn [mbind list_bind]. unfold last_positions. by rewrite foldl_app.
    + intros n. rewrite O', O. setoid_rewrite elem_of_cons. naive_solver.
Qed.

(** ** The merged statement *)

Lemma filter_key_single {A} (key : A → string) (l : list string) (f : string → option A) n :
  NoDup l → (∀ k s, f k = Some s → key s = k) → (n ∈ l ↔ is_Some (f n)) →
  filter (λ s, key s = n) (omap f l) = option_list (f n).
Proof.
  intros Hd Hf. induction Hd as [|k l Hk Hd IH]; intros Hn.
  - cbn. destruct (f n) as [s|] eqn:E; [|done]. assert (n ∈ (@nil string)) as H by (apply Hn; by exists s). by apply not_elem_of_nil in H.
  - cbn [omap list_omap]. destruct (decide (k = n)) as [->|Hne].
    + assert (∀ l', n ∉ l' → filter (λ s, key s = n) (omap f l') = []) as Hnone.
      { clear -Hf. induction l' as [|x l' IHl]; intros Hx; [done|]. apply not_elem_of_cons in Hx as [Hx Hl]. cbn [omap list_omap]. destruct (f x) as [s|] eqn:E; [|by apply IHl].
        rewrite filter_cons, decide_False; [by apply IHl|]. rewrite (Hf _ _ E). congruence. }
      destruct (f n) as [s|] eqn:E; [rewrite filter_cons, decide_True by (by apply Hf); by rewrite Hnone|by rewrite Hnone].
    + destruct (f k) as [s|] eqn:E; [rewrite filter_cons, decide_False by (rewrite (Hf _ _ E); congruence)|]; apply IH; rewrite <- Hn, elem_of_cons; naive_solver.
Qed.

Lemma merged_rows m attrs n : well_formed m → sections_rows (mkBlock attrs (merged_sections m)) n = rows_of m n.
Proof.
  intros [W1 W2 W3]. unfold sections_rows, merged_sections, rows_of. cbn [bl_Inner]. rewrite (filter_key_single fs_XMLName _ (λ k, fm_sections m !! k)) by done.
  destruct (fm_sections m !! n); cbn [option_list option_rect mbind list_bind from_option]; [by rewrite app_nil_r|done].
Qed.

Lemma empty_wf : well_formed empty_merge.
Proof. split; [apply NoDup_nil_2|intros n; cbn; rewrite lookup_empty; split; [by intros ?%not_elem_of_nil|by intros []]|intros n s H; cbn in H; by rewrite lookup_empty in H]. Qed.

Lemma settle_wf m : well_formed m → well_formed (settleNAV m).
Proof.
  intros Hw. unfold settleNAV. destruct (fm_sections m !! "EquitySummaryInBase") as [nav|] eqn:E; [|done].
  pose proof (wf_names m Hw _ _ E) as Hn. rewrite <- Hn at 1. apply set_rows_wf; [done|by rewrite Hn].
Qed.

Lemma settle_rows m n :
  rows_of (settleNAV m) n = if decide (n = "EquitySummaryInBase" ∧ is_Some (fm_sections m !! n))
    then rows_of m n ++ omap (λ d, fm_nav m !! d) (Strings ((map_to_list (fm_nav m)).*1)) else rows_of m n.
Proof.
  unfold settleNAV. destruct (fm_sections m !! "EquitySummaryInBase") as [nav|] eqn:E.
  - unfold rows_of. cbn [fm_sections]. destruct (decide (n = "EquitySummaryInBase")) as [->|Hn].
    + rewrite decide_True by (by rewrite E). by rewrite lookup_insert_eq, E.
    + rewrite decide_False by naive_solver. by rewrite lookup_insert_ne.
  - rewrite decide_False; [done|]. intros [-> H]. rewrite E in H. by destruct H.
Qed.

Lemma put_nav_lookup nav l d : put_nav nav l !! d = match last (filter (λ r, report_date r = d) l) with Some r => Some r | None => nav !! d end.
Proof.
  unfold put_nav. revert nav. induction l as [|r l IH]; intros nav; cbn [foldl]; [done|]. rewrite IH, filter_cons. destruct (decide (report_date r = d)) as [Hd|Hd].
  - destruct (last (filter (λ x, report_date x = d) l)) as [x|] eqn:El; [by rewrite last_cons, El|rewrite last_cons, El, Hd; apply lookup_insert_eq].
  - destruct (last _); [done|by rewrite lookup_insert_ne].
Qed.

(** The net asset values the days state. *)
Definition day_navs (days : list datedStatement) : list flexRow := d ← days; sections_rows (ds_block d) "EquitySummaryInBase".

Lemma nav_dates_spec (nav : gmap string flexRow) d :
  (∀ k r, nav !! k = Some r → report_date r = k) →
  filter (λ r, report_date r = d) (omap (λ k, nav !! k) (Strings ((map_to_list nav).*1))) = option_list (nav !! d).
Proof.
  intros Hk. apply (filter_key_single report_date _ (λ k, nav !! k)); [| |].
  - unfold Strings. rewrite sort_str_perm. apply NoDup_fst_map_to_list.
  - exact Hk.
  - unfold Strings. rewrite sort_str_elem. split.
    + intros ([k r] & -> & H)%list_elem_of_fmap. apply elem_of_map_to_list in H. by exists r.
    + intros [r Hr]. apply list_elem_of_fmap. exists (d, r). split; [done|]. by apply elem_of_map_to_list.
Qed.

Lemma put_nav_dates l : ∀ k r, put_nav ∅ l !! k = Some r → report_date r = k.
Proof.
  intros k r. rewrite put_nav_lookup, lookup_empty. destruct (last _) as [x|] eqn:E; [|done]. intros [= <-].
  apply last_Some_elem_of in E. by apply list_elem_of_filter in E as [? _].
Qed.

Lemma in_order_dates (nav : gmap string flexRow) : StronglySorted String.le (Strings ((map_to_list nav).*1)).
Proof. apply (sort_str_sorted id). Qed.

Lemma sorted_navs (nav : gmap string flexRow) l :
  (∀ k r, nav !! k = Some r → report_date r = k) → StronglySorted String.le l →
  StronglySorted (λ a b, String.le (report_date a) (report_date b)) (omap (λ k, nav !! k) l).
Proof.
  intros Hk. induction 1 as [|k l Hl IH Hall]; [constructor|]. cbn [omap list_omap]. destruct (nav !! k) as [r|] eqn:E; [|done]. constructor; [done|].
  rewrite Forall_forall in Hall. apply Forall_forall. intros x (k' & Hk' & Hx)%list_elem_of_omap. rewrite (Hk _ _ E), (Hk _ _ Hx). by apply Hall.
Qed.

Lemma merge_rows_once blocks days stmt :
  consecutiveDays blocks = Ok days → Forall named days → mergeDailyStatements blocks = Ok stmt →
  (∀ n, plain n → event_section n = true → sections_rows stmt n = fresh_rows [] days n) ∧
  (∀ date, filter (λ r, report_date r = date) (sections_rows stmt "EquitySummaryInBase") =
    option_list (last (filter (λ r, report_date r = date) (day_navs days)))) ∧
  StronglySorted (λ a b, String.le (report_date a) (report_date b)) (sections_rows stmt "EquitySummaryInBase") ∧
  sections_rows stmt "OpenPositions" = last_positions (d ← days; bl_Inner (ds_block d)) [] ∧
  ∀ sec, sec ∈ bl_Inner stmt → ∃ d, d ∈ days ∧ fs_XMLName sec ∈ fs_XMLName <$> bl_Inner (ds_block d).
Proof.
  intros Hc Hn. unfold mergeDailyStatements. rewrite Hc. cbn [mbind res_bind]. destruct (head days) as [a|], (last days) as [z|]; try done. intros [= <-].
  set (m := foldl addDay empty_merge days).
  destruct (days_spec days empty_merge (λ _, []) Hn empty_wf) as [W R N NR P O]; [intros n r _ _; cbn; set_solver|]. fold m in W, R, N, NR, P, O.
  rewrite !(λ x, merged_rows _ x _ (settle_wf m W)). setoid_rewrite (λ x n, merged_rows _ x n (settle_wf m W)). split_and!.
  - intros n Hp He. rewrite settle_rows, decide_False; [by rewrite (R n Hp He)|]. intros [-> _]. vm_compute in He. discriminate.
  - intros date. rewrite settle_rows, NR. cbn [app]. change (rows_of empty_merge "EquitySummaryInBase") with (@nil flexRow). cbn [app].
    assert (fm_nav m = put_nav ∅ (day_navs days)) as Hnav by exact N.
    destruct (decide _) as [_|Hno].
    + rewrite Hnav, nav_dates_spec by apply put_nav_dates. rewrite put_nav_lookup, lookup_empty. by destruct (last _).
    + assert (day_navs days = []) as ->; [|done]. destruct (day_navs days) as [|r l] eqn:E; [done|]. exfalso. apply Hno. split; [done|]. apply O. right.
      assert (r ∈ day_navs days) as Hr by (rewrite E; by left). unfold day_navs in Hr. apply list_elem_of_bind in Hr as (d & Hr & Hd). exists d. split; [done|].
      unfold sections_rows in Hr. apply list_elem_of_bind in Hr as (sec & _ & Hsec). apply list_elem_of_filter in Hsec as [<- Hsec]. by apply list_elem_of_fmap_2.
  - rewrite settle_rows, NR. change (rows_of empty_merge "EquitySummaryInBase") with (@nil flexRow). cbn [app]. destruct (decide _); [|constructor].
    assert (fm_nav m = put_nav ∅ (day_navs days)) as -> by exact N. apply sorted_navs; [apply put_nav_dates|apply in_order_dates].
  - rewrite settle_rows, decide_False by (by intros [? _]). exact P.
  - cbn [bl_Inner]. intros sec (name & Hname & Hs)%list_elem_of_omap. pose proof (wf_names _ (settle_wf m W) _ _ Hs) as ->.
    assert (is_Some (fm_sections m !! name)) as Hopen.
    { apply (wf_dom m W). unfold settleNAV in Hname. by destruct (fm_sections m !! "EquitySummaryInBase"). }
    apply O in Hopen as [[x Hx]|Hd]; [cbn in Hx; by rewrite lookup_empty in Hx|done].
Qed.

(** *** Rows that are the same *)

Definition without (c : ascii) (s : string) : Prop := ¬ List.In c (String.list_ascii_of_string s).

Lemma cut_inj c a b x y : without c a → without c b → a +:+ String c x = b +:+ String c y → a = b ∧ x = y.
Proof.
  revert b. induction a as [|h a IH]; intros [|h' b] H1 H2 E.
  - by injection E as E.
  - injection E as E _. subst h'. exfalso. apply H2. by left.
  - injection E as E _. subst h. exfalso. apply H1. by left.
  - injection E as -> E. destruct (IH b) as [-> ->]; [|by intros H; apply H2; right|exact E|done]. intros H. apply H1. by right.
Qed.

Definition NUL : ascii := ascii_of_nat 0.

(** The text of an XML row holds no NUL, and the name of an attribute no [=]. *)
Record xml_row (r : flexRow) : Prop := {
  xr_name : without NUL (fr_XMLName r);
  xr_attrs k v : (k, v) ∈ fr_Attrs r → without NUL k ∧ without "=" k ∧ without NUL v;
  xr_inner : without NUL (fr_Inner r);
}.

Definition attrs_text (l : attrs) (inner : string) : string := foldr (λ a acc, nul +:+ a.1 +:+ "=" +:+ a.2 +:+ acc) "" l +:+ nul +:+ inner.

Lemma attrs_text_cons k v l inner : attrs_text ((k, v) :: l) inner = String NUL (k +:+ String "=" (v +:+ attrs_text l inner)).
Proof. unfold attrs_text. cbn [foldr fst snd]. unfold nul. cbn. by rewrite <- !Encoding.string_app_assoc. Qed.

Lemma attrs_text_nul l inner : ∃ t, attrs_text l inner = String NUL t.
Proof. destruct l as [|[k v] l]; [by exists inner|]. rewrite attrs_text_cons. by eexists. Qed.

Lemma list_ascii_app s t : String.list_ascii_of_string (s +:+ t) = (String.list_ascii_of_string s ++ String.list_ascii_of_string t)%list.
Proof. induction s as [|c s IH]; [done|]. change (c :: String.list_ascii_of_string (s +:+ t) = c :: (String.list_ascii_of_string s ++ String.list_ascii_of_string t))%list. by rewrite IH. Qed.

Lemma no_tail inner k v l i : without NUL inner → inner ≠ k +:+ String "=" (v +:+ attrs_text l i).
Proof.
  intros H ->. apply H. destruct (attrs_text_nul l i) as [t ->]. rewrite list_ascii_app. cbn. rewrite list_ascii_app. cbn.
  rewrite !in_app_iff. cbn. rewrite in_app_iff. cbn. tauto.
Qed.

Lemma attrs_text_inj l1 l2 i1 i2 :
  (∀ k v, (k, v) ∈ l1 → without NUL k ∧ without "=" k ∧ without NUL v) → (∀ k v, (k, v) ∈ l2 → without NUL k ∧ without "=" k ∧ without NUL v) →
  without NUL i1 → without NUL i2 → attrs_text l1 i1 = attrs_text l2 i2 → l1 = l2 ∧ i1 = i2.
Proof.
  revert l2. induction l1 as [|[k v] l1 IH]; intros [|[k' v'] l2] H1 H2 Hi1 Hi2 E; rewrite ?attrs_text_cons in E.
  - by injection E as E.
  - injection E as E. by apply no_tail in E.
  - injection E as E. symmetry in E. by apply no_tail in E.
  - injection E as E. destruct (H1 k v ltac:(by left)) as (_ & Hk & Hv), (H2 k' v' ltac:(by left)) as (_ & Hk' & Hv').
    apply cut_inj in E as [-> E]; [|done..]. destruct (attrs_text_nul l1 i1) as [t1 E1], (attrs_text_nul l2 i2) as [t2 E2]. rewrite E1, E2 in E.
    apply cut_inj in E as [-> E]; [|done..]. subst t2. destruct (IH l2) as [-> ->]; [| |done..|congruence|done].
    + intros k v Hkv. apply H1. by right.
    + intros k v Hkv. apply H2. by right.
Qed.

(** The key of a row tells it from every other one. *)
Lemma row_key_inj r1 r2 : xml_row r1 → xml_row r2 → row_key r1 = row_key r2 → r1 = r2.
Proof.
  intros [N1 A1 I1] [N2 A2 I2] E. change (fr_XMLName r1 +:+ attrs_text (fr_Attrs r1) (fr_Inner r1) = fr_XMLName r2 +:+ attrs_text (fr_Attrs r2) (fr_Inner r2)) in E.
  destruct (attrs_text_nul (fr_Attrs r1) (fr_Inner r1)) as [t1 E1], (attrs_text_nul (fr_Attrs r2) (fr_Inner r2)) as [t2 E2]. rewrite E1, E2 in E.
  apply cut_inj in E as [En Et]; [|done..]. destruct (attrs_text_inj (fr_Attrs r1) (fr_Attrs r2) (fr_Inner r1) (fr_Inner r2)) as [Ea Ei]; [done..|congruence|].
  destruct r1, r2. cbn in *. congruence.
Qed.

#[export] Instance flexRow_dec : EqDecision flexRow.
Proof. solve_decision. Defined.

Lemma filter_same {A} (P Q : A → Prop) `{!∀ x, Decision (P x), !∀ x, Decision (Q x)} (l : list A) :
  (∀ x, x ∈ l → P x ↔ Q x) → filter P l = filter Q l.
Proof.
  induction l as [|x l IH]; intros HPQ; [done|]. rewrite !filter_cons, IH by (intros y Hy; apply HPQ; by right).
  destruct (HPQ x ltac:(by left)). by destruct (decide (P x)), (decide (Q x)); tauto || done.
Qed.

Lemma sorted_pair {A} (R : A → A → Prop) (l : list A) (i j : nat) a b : StronglySorted R l → (i < j)%nat → l !! i = Some a → l !! j = Some b → R a b.
Proof.
  intros Hs. revert i j. induction Hs as [|x l Hs IH Hx]; intros i j Hij Hi Hj; [done|]. destruct j as [|j]; [lia|]. cbn in Hj. destruct i as [|i]; cbn in Hi.
  - injection Hi as ->. rewrite Forall_forall in Hx. apply Hx. by eapply list_elem_of_lookup_2.
  - apply (IH i j); [lia|done|done].
Qed.

(** Each day's rows, less those an earlier day has. *)
Fixpoint new_rows (earlier : list flexRow) (days : list datedStatement) (name : string) : list flexRow :=
  match days with
  | [] => []
  | d :: days => filter (λ r, r ∉ earlier) (day_rows d name) ++ new_rows (earlier ++ day_rows d name) days name
  end.

Lemma fresh_new earlier days name :
  (∀ r, r ∈ earlier → xml_row r) → (∀ d r, d ∈ days → r ∈ day_rows d name → xml_row r) → fresh_rows earlier days name = new_rows earlier days name.
Proof.
  revert earlier. induction days as [|d days IH]; intros earlier He Hd; [done|]. cbn [fresh_rows new_rows]. f_equal.
  - apply filter_same. intros r Hr. assert (xml_row r) as Hx by (eapply Hd; [by left|done]).
    rewrite list_elem_of_fmap. split; [intros H Hin; apply H; by exists r|]. intros H (r' & Ek & Hr'). apply H. by rewrite (row_key_inj r r' Hx (He r' Hr') Ek).
  - apply IH; [|intros d' r Hd'; apply Hd; by right]. intros r [Hr|Hr]%elem_of_app; [by apply He|]. eapply Hd; [by left|done].
Qed.

(** *** The statements, day after day *)

(** The statements, each with the dates it states, in order: every later one
    begins after every earlier one has ended. *)
Record in_daily_order (blocks : list flexStatementBlock) (days : list datedStatement) : Prop := {
  do_all : ds_block <$> days ≡ₚ blocks;
  do_dates d : d ∈ days →
    flexDay (attr (bl_Attrs (ds_block d)) "fromDate") = Some (ds_from d) ∧ flexDay (attr (bl_Attrs (ds_block d)) "toDate") = Some (ds_to d) ∧
    String.le (ds_from d) (ds_to d);
  do_apart : StronglySorted (λ a b, ¬ String.le (ds_from b) (ds_to a)) days;
}.

Lemma dated_block b d : dated b = Some d → ds_block d = b.
Proof. unfold dated, mbind, option_bind. repeat case_match; congruence || intros [= <-]; done. Qed.

Lemma dated_dates b d : dated b = Some d →
  flexDay (attr (bl_Attrs b) "fromDate") = Some (ds_from d) ∧ flexDay (attr (bl_Attrs b) "toDate") = Some (ds_to d) ∧ String.le (ds_from d) (ds_to d).
Proof.
  unfold dated, mbind, option_bind. destruct (flexDay _) as [f|]; [|done]. destruct (flexDay _) as [t|]; [|done].
  destruct (String.ltb t f) eqn:E; [done|]. intros [= <-]. cbn. split_and!; [done..|]. destruct (total String.le f t) as [|H]; [done|].
  unfold String.le in *. unfold String.ltb, String.leb in *. rewrite String.compare_antisym in H |- *. by destruct (String.compare t f).
Qed.

Lemma no_overlap days : StronglySorted (λ a b, String.le (ds_from a) (ds_from b)) days → dates_overlap days = None →
  StronglySorted (λ a b, ¬ String.le (ds_from b) (ds_to a)) days.
Proof.
  induction 1 as [|a days Hs IH Ha]; [constructor|]. destruct days as [|b days]; [by repeat constructor|]. cbn [dates_overlap].
  destruct (String.leb (ds_from b) (ds_to a)) eqn:E; [done|]. intros Hn. constructor; [by apply IH|].
  assert (¬ String.le (ds_from b) (ds_to a)) as Hb by (unfold String.le; intros Hle; by rewrite E in Hle).
  apply Forall_cons. split; [done|]. apply Forall_forall. intros c Hc Hle. apply Hb. etrans; [|exact Hle].
  apply StronglySorted_inv in Hs as [_ Hbc]. rewrite Forall_forall in Hbc. by apply Hbc.
Qed.

Lemma consecutive_order blocks days : consecutiveDays blocks = Ok days → in_daily_order blocks days.
Proof.
  unfold consecutiveDays. destruct (mapM dated blocks) as [l|] eqn:E; [|done]. cbn zeta. destruct (dates_overlap _) as [[? ?]|] eqn:Eo; [done|]. intros [= <-].
  apply mapM_Some in E. split.
  - rewrite (sort_str_perm ds_from l). clear Eo. induction E as [|b d blocks l Hd _ IH]; [done|]. rewrite fmap_cons. by rewrite IH, (dated_block b d Hd).
  - intros d Hd. rewrite sort_str_elem in Hd. apply list_elem_of_lookup_1 in Hd as [i Hi]. destruct (Forall2_lookup_r _ _ _ _ _ E Hi) as (b & _ & Hb).
    rewrite (dated_block b d Hb). by apply dated_dates.
  - by apply no_overlap; [apply (sort_str_sorted ds_from l)|].
Qed.

(** Statements that are XML. *)
Definition xml_text (blocks : list flexStatementBlock) : Prop :=
  ∀ b sec, b ∈ blocks → sec ∈ bl_Inner b → plain (fs_XMLName sec) ∧ ∀ r, r ∈ fs_Rows sec → xml_row r.

Lemma digits_without s : all_digits s = true → without NUL s.
Proof. intros [_ H]%andb_true_iff Hin. rewrite forallb_forall in H. specialize (H NUL Hin). vm_compute in H. discriminate H. Qed.

Lemma flexDay_text v d : flexDay v = Some d → without NUL d.
Proof.
  unfold flexDay. cbn zeta. destruct (negb _); [done|]. destruct (atoi_ok _) eqn:E; [|done]. intros [= <-]. revert E. generalize (ReplaceAll v "-" ""). intros s.
  destruct s as [|c s]; [done|]. cbn [atoi_ok]. destruct (Ascii.eqb c "+" || Ascii.eqb c "-") eqn:Ec; [|apply digits_without].
  intros H%digits_without [->|Hin]; [vm_compute in Ec; discriminate Ec|by apply H].
Qed.

Lemma stamp_xml d name r : without NUL (ds_from d) → without NUL (ds_to d) → xml_row r → xml_row (stamp d name r).
Proof.
  intros Hf Ht [H1 H2 H3]. unfold stamp. destruct (_ && _ && _); [|done]. split; cbn; [done| |done].
  intros k v [Hkv|Hkv]%elem_of_app; [by apply H2|]. rewrite !elem_of_cons, elem_of_nil in Hkv.
  destruct Hkv as [[= -> ->]|[[= -> ->]|[]]]; (split_and!; [| |done]); intros H; repeat destruct H as [H|H]; discriminate H || done.
Qed.

Lemma order_rows_xml blocks days d name r : xml_text blocks → in_daily_order blocks days → d ∈ days → r ∈ day_rows d name → xml_row r.
Proof.
  intros Hx [Ha Hd _] Hin Hr. unfold day_rows, sections_rows in Hr. apply list_elem_of_fmap in Hr as (r0 & -> & Hr0).
  apply list_elem_of_bind in Hr0 as (sec & Hr0 & Hs). apply list_elem_of_filter in Hs as [_ Hs]. destruct (Hd d Hin) as (H1 & H2 & _).
  apply stamp_xml; [by eapply flexDay_text..|]. apply (Hx (ds_block d) sec); [|done|done]. rewrite <- Ha. by apply list_elem_of_fmap_2.
Qed.

Lemma order_distinct blocks days : in_daily_order blocks days → NoDup days.
Proof.
  intros [_ Hd Hs]. induction Hs as [|a days Hs IH Ha]; [constructor|]. constructor; [|apply IH; intros d Hin; apply Hd; by right].
  intros Hin. rewrite Forall_forall in Ha. apply (Ha a Hin). by apply Hd; left.
Qed.

(** Statements that can be put in order are. *)
Lemma order_consecutive blocks days : in_daily_order blocks days → ∃ days', consecutiveDays blocks = Ok days'.
Proof.
  intros Ho. pose proof (order_distinct _ _ Ho) as Hnd. destruct Ho as [Ha Hd Hs].
  assert (∃ l, mapM dated blocks = Some l ∧ l ≡ₚ days) as (l & El & Hl).
  { assert (Forall (λ d, dated (ds_block d) = Some d) days) as Hdd.
    { apply Forall_forall. intros d Hin. destruct (Hd d Hin) as (H1 & H2 & H3). unfold dated. rewrite H1, H2. cbn.
      replace (String.ltb (ds_to d) (ds_from d)) with false; [by destruct d|]. symmetry. unfold String.le, String.leb, String.ltb in *.
      rewrite String.compare_antisym in H3. by destruct (String.compare (ds_to d) (ds_from d)). }
    clear Hd Hs Hnd. symmetry in Ha. apply Permutation_map_inv in Ha as (l & -> & Hl).
    exists l. split; [|by symmetry]. apply mapM_Some. rewrite Hl in Hdd. clear Hl. induction Hdd; constructor; done. }
  unfold consecutiveDays. rewrite El. cbn zeta. enough (dates_overlap (sort_str ds_from l) = None) as -> by eauto.
  assert (∀ a b, a ∈ days → b ∈ days → a ≠ b → String.le (ds_from a) (ds_from b) → ¬ String.le (ds_from b) (ds_to a)) as Hpair.
  { intros a b Hia Hib Hne Hle. apply list_elem_of_lookup in Hia as [i Hi], Hib as [j Hj].
    destruct (Nat.lt_trichotomy i j) as [Hij|[->|Hij]]; [by apply (sorted_pair _ days i j a b Hs)|congruence|].
    exfalso. apply (sorted_pair _ days j i b a Hs Hij Hj Hi). etrans; [exact Hle|]. apply Hd. by eapply list_elem_of_lookup_2. }
  assert (NoDup (sort_str ds_from l)) as Hndl by (by rewrite sort_str_perm, Hl).
  assert (∀ d, d ∈ sort_str ds_from l → d ∈ days) as Hin by (intros d; by rewrite sort_str_elem, Hl).
  pose proof (sort_str_sorted ds_from l) as Hsl. revert Hndl Hin Hsl. generalize (sort_str ds_from l). clear -Hpair. intros k.
  induction k as [|a k IH]; intros Hnd Hin Hs; [done|]. destruct k as [|b k]; [done|]. cbn [dates_overlap].
  apply NoDup_cons in Hnd as [Hab Hnd]. apply StronglySorted_inv in Hs as [Hs Ha]. destruct (String.leb (ds_from b) (ds_to a)) eqn:E.
  - exfalso. apply (Hpair a b); [apply Hin; by left|apply Hin; right; by left|intros ->; apply Hab; by left|by apply Forall_cons in Ha as [Ha _]|]. unfold String.le. by rewrite E.
  - apply IH; [done|intros d Hd; apply Hin; by right|done].
Qed.

(** C36: merging the daily statements of an account loses no day and no row,
    and repeats none.  Of statements that are XML, the merge succeeds when,
    and only when, there is one at least and they can be put in an order in
    which each begins after the one before it has ended, by the dates they
    state.  It then has, over all the statements in that order: for every
    section of events, each day's rows less those an earlier day has (a row
    stated twice on one day stays twice; a row of the Cash Report without dates
    is given its statement's); for every report date one net asset value, the
    one stated last, in the order of the dates; and the positions stated last. *)
Theorem merge_states_rows_once blocks :
  xml_text blocks →
  ((∃ stmt, mergeDailyStatements blocks = Ok stmt) ↔ blocks ≠ [] ∧ ∃ days, in_daily_order blocks days) ∧
  ∀ stmt, mergeDailyStatements blocks = Ok stmt → ∃ days, in_daily_order blocks days ∧
    (∀ n, plain n → event_section n = true → sections_rows stmt n = new_rows [] days n) ∧
    (∀ date, filter (λ r, report_date r = date) (sections_rows stmt "EquitySummaryInBase") =
      option_list (last (filter (λ r, report_date r = date) (day_navs days)))) ∧
    StronglySorted (λ a b, String.le (report_date a) (report_date b)) (sections_rows stmt "EquitySummaryInBase") ∧
    sections_rows stmt "OpenPositions" = last_positions (d ← days; bl_Inner (ds_block d)) [].
Proof.
  intros Hx.
  assert (∀ stmt, mergeDailyStatements blocks = Ok stmt → ∃ days, days ≠ [] ∧ consecutiveDays blocks = Ok days ∧ in_daily_order blocks days) as Hdays.
  { intros stmt H. unfold mergeDailyStatements in H. destruct (consecutiveDays blocks) as [days|] eqn:Ec; [|done]. exists days. split; [by intros ->|].
    split; [done|by apply consecutive_order]. }
  split; [split|].
  - intros [stmt H]. destruct (Hdays stmt H) as (days & Hne & _ & Ho). split; [|by exists days]. intros ->. destruct Ho as [Ha _ _].
    apply Permutation_nil_r in Ha. by destruct days.
  - intros [Hne [days Ho]]. destruct (order_consecutive _ _ Ho) as [days' Ec]. unfold mergeDailyStatements. rewrite Ec. cbn [mbind res_bind].
    apply consecutive_order in Ec as [Ha _ _]. destruct days' as [|d days']; [by apply Permutation_nil_l in Ha|]. cbn zeta. cbn [head].
    destruct (last (d :: days')) as [z|] eqn:El; [by eexists|by apply last_None in El].
  - intros stmt H. destruct (Hdays stmt H) as (days & _ & Hc & Ho). exists days. split; [done|].
    assert (Forall named days) as Hn.
    { apply Forall_forall. intros d Hd. apply Forall_forall. intros sec Hs. apply (Hx (ds_block d) sec); [|done]. rewrite <- (do_all _ _ Ho). by apply list_elem_of_fmap_2. }
    destruct (merge_rows_once blocks days stmt Hc Hn H) as (H1 & H2 & H3 & H4 & _). split_and!; [|done..].
    intros n Hp He. rewrite H1 by done. apply fresh_new; [by intros r ?%elem_of_nil|]. intros d r. by apply (order_rows_xml blocks).
Qed.

(** ** A sample *)

Definition sample_cash (id : string) : flexRow := mkRow "CashTransaction" [("transactionID", id)] "".
Definition sample_nav (date total : string) : flexRow := mkRow "EquitySummaryByReportDateInBase" [("reportDate", date); ("total", total)] "".

Definition sample_day (date : string) (cash : list flexRow) (navs : list flexRow) : flexStatementBlock :=
  mkBlock [("accountId", "U1"); ("fromDate", date); ("toDate", date)]
    [mkSection "EquitySummaryInBase" [] navs; mkSection "CashTransactions" [] cash].

(** The second day, given first, repeats a row of the first and opens with its value restated. *)
Definition two_days : list flexStatementBlock :=
  [sample_day "20260106" [sample_cash "b"; sample_cash "c"; sample_cash "c"] [sample_nav "20260105" "101"; sample_nav "20260106" "110"];
   sample_day "20260105" [sample_cash "a"; sample_cash "b"] [sample_nav "20260105" "100"]].

Definition two_merged : flexStatementBlock := match mergeDailyStatements two_days with Ok b => b | Err _ => mkBlock [] [] end.

Lemma two_xml : xml_text two_days.
Proof.
  intros b sec Hb Hs. unfold two_days in Hb. rewrite !elem_of_cons, elem_of_nil in Hb.
  destruct Hb as [->|[->|[]]]; cbn in Hs; rewrite !elem_of_cons, elem_of_nil in Hs; destruct Hs as [->|[->|[]]];
    (split; [vm_compute; intros H; repeat destruct H as [H|H]; discriminate H || done|]); cbn; intros r Hr; rewrite !elem_of_cons, elem_of_nil in Hr;
    repeat (destruct Hr as [->|Hr]; [split; [vm_compute; intros H; repeat destruct H as [H|H]; discriminate H || done| |vm_compute; done];
      cbn; intros k v Hkv; rewrite !elem_of_cons, elem_of_nil in Hkv; repeat (destruct Hkv as [[= -> ->]|Hkv]; [split_and!; vm_compute; intros H; repeat destruct H as [H|H]; discriminate H || done|]); done|]); done.
Qed.

Lemma merge_states_rows_once_witness :
  ∃ days, in_daily_order two_days days ∧ sections_rows two_merged "CashTransactions" = new_rows [] days "CashTransactions" ∧
    sections_rows two_merged "CashTransactions" = sample_cash <$> ["a"; "b"; "c"; "c"].
Proof.
  destruct (merge_states_rows_once two_days two_xml) as [_ H]. destruct (H two_merged eq_refl) as (days & Ho & H1 & _).
  exists days. split; [exact Ho|]. split; [|vm_compute; reflexivity].
  apply H1; [|reflexivity]. vm_compute. intros Hin. repeat destruct Hin as [Hin|Hin]; discriminate Hin || done.
Defined.

End FlexMerge.
