(* ===== verification/FlexNarrow.v ===== *)
(** * A report narrowed to one account

    Which accounts a narrowed report measures, where its rows come from, and
    the net asset value of an account with its segment. *)

From S2P Require Import Prelude Num NumReal GoTime GoText Types Flex FlexMerge.
From stdpp Require Import base gmap strings pretty tactics sorting list.
From Stdlib Require Import ZArith Ascii Lia.
Import Flex FlexMerge.
Local Open Scope Z_scope.

Module FlexNarrow.

(** ** Groups of accounts *)

Lemma drop_last_length s : (1 <= String.length s)%nat → String.length (drop_last s) = (String.length s - 1)%nat.
Proof. intros H. unfold drop_last. rewrite substring_length. lia. Qed.

(** A base is shorter than its segment and is present. *)
Lemma segment_base order id base :
  segmentOf (present_ids order) id = Some base →
  (String.length base < String.length (ToUpper id))%nat ∧ ∃ id', id' ∈ order ∧ ToUpper id' = base.
Proof.
  unfold segmentOf. destruct (Nat.ltb_spec (String.length (ToUpper id)) 2); [done|]. cbn [orb]. destruct (HasSuffix _ _); [|done]. cbn [negb].
  case_bool_decide as Hin; [|done]. intros [= <-]. rewrite drop_last_length by lia. split; [lia|]. unfold present_ids in Hin.
  apply elem_of_list_to_set, list_elem_of_fmap in Hin as (id' & Hid & Hin). by exists id'.
Qed.

Lemma some_base order : order ≠ [] → ∃ id, id ∈ order ∧ segmentOf (present_ids order) id = None.
Proof.
  intros Hne. destruct order as [|x l] eqn:Eo; [done|]. rewrite <- Eo in *. assert (x ∈ order) as Hx by (rewrite Eo; by left). clear Eo.
  remember (String.length (ToUpper x)) as n eqn:En. revert x Hx En. induction (lt_wf n) as [n _ IH]. intros x Hx ->.
  destruct (segmentOf (present_ids order) x) as [base|] eqn:E; [|by exists x]. apply segment_base in E as (Hlt & id' & Hid & Hb).
  apply (IH (String.length base) Hlt id' Hid). by rewrite Hb.
Qed.

Definition bases (order l : list string) : list string := filter (λ id, segmentOf (present_ids order) id = None) l.
Definition segments (order l : list string) : list string := filter (λ id, segmentOf (present_ids order) id ≠ None) l.

Lemma open_groups_spec order l acc :
  let acc' := foldl (open_group (present_ids order)) acc l in
  acc'.1 = acc.1 ++ ((λ id, [id]) <$> bases order l) ∧
  ((∀ b n, acc.2 !! b = Some n → (n < length acc.1)%nat) → ∀ b n, acc'.2 !! b = Some n → (n < length acc'.1)%nat).
Proof.
  unfold bases. revert acc. induction l as [|id l IH]; intros acc; cbn [foldl]; [cbn; by rewrite app_nil_r|]. cbn zeta. rewrite filter_cons.
  destruct (IH (open_group (present_ids order) acc id)) as [IH1 IH2]. unfold open_group in *. destruct (segmentOf (present_ids order) id) as [base|] eqn:E.
  - rewrite decide_False by done. done.
  - rewrite decide_True by done. split; [rewrite IH1; cbn [fst]; rewrite fmap_cons, <- app_assoc; done|]. intros H. apply IH2. cbn [fst snd].
    intros b n. rewrite length_app. cbn [length]. intros [[_ <-]|[_ Hb]]%lookup_insert_Some; [lia|]. specialize (H _ _ Hb). lia.
Qed.

Lemma concat_alter (l : list (list string)) n x : (n < length l)%nat → concat (alter (λ g, g ++ [x]) n l) ≡ₚ x :: concat l.
Proof.
  revert n. induction l as [|g l IH]; intros [|n] Hn; cbn in *; [lia..| |].
  - rewrite <- app_assoc. cbn. by rewrite <- Permutation_middle.
  - change (list_alter (λ g, g ++ [x]) n l) with (alter (λ g, g ++ [x]) n l). rewrite (IH n) by lia. by rewrite Permutation_middle.
Qed.

Lemma join_spec order index l groups :
  groups ≠ [] → (∀ b n, index !! b = Some n → (n < length groups)%nat) →
  concat (join_segments (present_ids order) index l groups) ≡ₚ concat groups ++ segments order l.
Proof.
  unfold join_segments, segments. revert groups. induction l as [|id l IH]; intros groups Hg Hi; cbn [foldl]; [by rewrite app_nil_r|]. rewrite filter_cons.
  destruct (segmentOf (present_ids order) id) as [base|] eqn:E; [rewrite decide_True by done|by rewrite decide_False; [apply IH|congruence]].
  set (n := default 0%nat (index !! base)). assert (n < length groups)%nat as Hn.
  { unfold n. destruct (index !! base) eqn:Ei; cbn [default from_option]; [by eapply Hi|]. destruct groups; [done|cbn; lia]. }
  rewrite IH; [|intros E'; apply (f_equal length) in E'; rewrite length_alter in E'; by destruct groups|intros b k Hb; rewrite length_alter; by eapply Hi].
  rewrite concat_alter by done. cbn [app]. by rewrite Permutation_middle.
Qed.

Lemma bases_segments order l : bases order l ++ segments order l ≡ₚ l.
Proof.
  unfold bases, segments. induction l as [|x l IH]; [done|]. rewrite !filter_cons. destruct (segmentOf (present_ids order) x).
  - rewrite decide_False by done. rewrite decide_True by done. rewrite <- Permutation_middle. by rewrite IH.
  - rewrite decide_True by done. rewrite decide_False by (intros H; by apply H). cbn. by rewrite IH.
Qed.

(** Every account of the report is in exactly one group. *)
Lemma groups_partition order : order ≠ [] → concat (segmentGroups order) ≡ₚ order.
Proof.
  intros Hne. unfold segmentGroups, open_groups. destruct (open_groups_spec order order ([], ∅)) as [H1 H2].
  destruct (foldl (open_group (present_ids order)) ([], ∅) order) as [groups index]. cbn [fst snd app] in H1, H2. rewrite join_spec.
  - rewrite H1. transitivity (bases order order ++ segments order order); [|apply bases_segments]. apply Permutation_app_tail. clear. induction (bases order order) as [|x l IH]; [done|]. cbn. by rewrite IH.
  - rewrite H1. destruct (some_base order Hne) as (id & Hid & Hb). intros E. assert (id ∈ bases order order) as Hin by (by apply list_elem_of_filter).
    destruct (bases order order); [by apply not_elem_of_nil in Hin|done].
  - apply H2. intros b n Hb. by rewrite lookup_empty in Hb.
Qed.

(** No segment of a segment. *)
Definition no_chain (order : list string) : Prop :=
  ∀ id id', id ∈ order → id' ∈ order → segmentOf (present_ids order) id = Some (ToUpper id') → segmentOf (present_ids order) id' = None.

(** An account, and the segments that have its id and a final F. *)
Definition one_account (order g : list string) : Prop :=
  ∃ id rest, g = id :: rest ∧ segmentOf (present_ids order) id = None ∧ ∀ s, s ∈ rest → segmentOf (present_ids order) s = Some (ToUpper id).

(** The groups, and for each base the group it opened. *)
Definition indexed (order : list string) (acc : list (list string) * gmap string nat) : Prop :=
  (∀ g, g ∈ acc.1 → one_account order g) ∧
  ∀ b n, acc.2 !! b = Some n → ∃ id rest, acc.1 !! n = Some (id :: rest) ∧ ToUpper id = b.

Lemma open_indexed order l acc :
  indexed order acc → let acc' := foldl (open_group (present_ids order)) acc l in
  indexed order acc' ∧ (∀ b, is_Some (acc.2 !! b) → is_Some (acc'.2 !! b)) ∧
  ∀ id, id ∈ l → segmentOf (present_ids order) id = None → is_Some (acc'.2 !! ToUpper id).
Proof.
  revert acc. induction l as [|x l IH]; intros acc Hi; cbn [foldl]; cbn zeta; [split_and!; [done..|by intros ? []%not_elem_of_nil]|].
  assert (indexed order (open_group (present_ids order) acc x)) as Hi'.
  { unfold open_group. destruct (segmentOf _ x) eqn:E; [done|]. destruct Hi as [H1 H2]. split; cbn [fst snd].
    - intros g [?| ->%list_elem_of_singleton]%elem_of_app; [by apply H1|]. exists x, []. split_and!; [done..|by intros ? []%not_elem_of_nil].
    - intros b n [[<- <-]|[_ Hb]]%lookup_insert_Some; [exists x, []; split; [by rewrite lookup_app_r, Nat.sub_diag by lia|done]|].
      destruct (H2 _ _ Hb) as (id & rest & Hl & Hu). exists id, rest. split; [by apply lookup_app_l_Some|done]. }
  destruct (IH _ Hi') as (H1 & H2 & H3). split_and!; [done| |].
  - intros b Hb. apply H2. unfold open_group. destruct (segmentOf _ x); [done|]. cbn [snd]. destruct (decide (ToUpper x = b)) as [->|]; [by rewrite lookup_insert_eq|by rewrite lookup_insert_ne].
  - intros id [->|Hid]%elem_of_cons Hn; [|by apply H3]. apply H2. unfold open_group. rewrite Hn. cbn [snd]. by rewrite lookup_insert_eq.
Qed.

Lemma join_indexed order index l groups :
  (∀ id base, id ∈ l → segmentOf (present_ids order) id = Some base → is_Some (index !! base)) →
  indexed order (groups, index) → indexed order (join_segments (present_ids order) index l groups, index).
Proof.
  unfold join_segments. revert groups. induction l as [|x l IH]; intros groups Hl Hi; cbn [foldl]; [done|]. apply IH; [intros id base Hid; apply Hl; by right|].
  destruct (segmentOf (present_ids order) x) as [base|] eqn:E; [|done]. destruct (Hl x base ltac:(by left) E) as [n Hn]. rewrite Hn. change (default 0%nat (Some n)) with n.
  destruct Hi as [H1 H2]. cbn [fst snd] in *. destruct (H2 _ _ Hn) as (id & rest & Hg & Hu). split; cbn [fst snd].
  - intros g [i Hgi]%list_elem_of_lookup. rewrite list_lookup_alter in Hgi. destruct (decide (n = i)) as [<-|]; [|by apply H1; eapply list_elem_of_lookup_2].
    rewrite Hg in Hgi. injection Hgi as <-. destruct (H1 (id :: rest) ltac:(by eapply list_elem_of_lookup_2)) as (id0 & rest0 & [= <- <-] & Hb & Hs).
    exists id, (rest ++ [x]). split_and!; [done..|]. intros s [?| ->%list_elem_of_singleton]%elem_of_app; [by apply Hs|by rewrite Hu].
  - intros b k Hb. destruct (H2 _ _ Hb) as (id' & rest' & Hg' & Hu'). destruct (decide (k = n)) as [->|].
    + rewrite list_lookup_alter_eq, Hg'. by exists id', (rest' ++ [x]).
    + rewrite list_lookup_alter_ne by done. by exists id', rest'.
Qed.

(** Each group is one account and its segments. *)
Lemma groups_one_account order g : no_chain order → g ∈ segmentGroups order → one_account order g.
Proof.
  intros Hc. unfold segmentGroups, open_groups.
  destruct (open_indexed order order ([], ∅)) as (H1 & _ & H3); [split; cbn; [by intros ? []%not_elem_of_nil|intros b n Hb; by rewrite lookup_empty in Hb]|].
  destruct (foldl (open_group (present_ids order)) ([], ∅) order) as [groups index]. cbn [fst snd] in *.
  apply (join_indexed order index order groups); [|done]. intros id base Hid Hs. destruct (segment_base _ _ _ Hs) as (_ & id' & Hid' & <-). apply H3; [done|]. by apply (Hc id id').
Qed.

(** *** Segments, by the form of their ids *)

(** The id of a segment is its base's with a final F, whatever the case. *)
Definition segment_of (base seg : string) : Prop := ToUpper base ≠ "" ∧ ToUpper seg = ToUpper base +:+ "F".

(** Among the accounts [ids], no segment of a segment. *)
Definition no_nested (ids : list string) : Prop := ∀ a b c, a ∈ ids → b ∈ ids → c ∈ ids → segment_of a b → ¬ segment_of b c.

(** An account that is no segment of another, and segments of it. *)
Definition with_segments (ids g : list string) : Prop :=
  ∃ id rest, g = id :: rest ∧ (∀ b, b ∈ ids → ¬ segment_of b id) ∧ ∀ s, s ∈ rest → segment_of id s.

Lemma substring_last n s : String.length s = S n → s = String.substring 0 n s +:+ String.substring n 1 s.
Proof.
  revert s. induction n as [|n IH]; intros [|c s] H; try done; injection H as H; [by destruct s|].
  change (String c s = String c (String.substring 0 n s +:+ String.substring n 1 s)). f_equal. by apply IH.
Qed.

Lemma suffix_F s : (2 <= String.length s)%nat → HasSuffix s "F" = true ↔ s = drop_last s +:+ "F".
Proof.
  intros Hl. unfold HasSuffix, drop_last. change (String.length "F") with 1%nat. rewrite (proj2 (Nat.leb_le 1 _)) by lia. cbn [andb].
  pose proof (substring_last (String.length s - 1) s ltac:(lia)) as E. split.
  - intros H%String.eqb_eq. by rewrite H in E.
  - intros H. apply String.eqb_eq. rewrite E in H at 1. set (a := String.substring 0 _ s) in H. clear -H.
    induction a as [|c a IH]; [done|]. injection H as H. by apply IH.
Qed.

Lemma length_app_F b : String.length (b +:+ "F") = S (String.length b).
Proof. induction b as [|c b IH]; [done|]. change (S (String.length (b +:+ "F")) = S (S (String.length b))). by rewrite IH. Qed.

Lemma substring_front b t : String.substring 0 (String.length b) (b +:+ t) = b.
Proof. induction b as [|c b IH]; [by destruct t|]. change (String c (String.substring 0 (String.length b) (b +:+ t)) = String c b). by rewrite IH. Qed.

Lemma drop_last_F b : drop_last (b +:+ "F") = b.
Proof. unfold drop_last. rewrite length_app_F. replace (S (String.length b) - 1)%nat with (String.length b) by lia. apply substring_front. Qed.

Lemma segmentOf_spec ids id base :
  segmentOf (present_ids ids) id = Some base ↔ ∃ b, b ∈ ids ∧ ToUpper b = base ∧ segment_of b id.
Proof.
  unfold segmentOf, segment_of, present_ids. cbn zeta. split.
  - destruct (Nat.ltb_spec (String.length (ToUpper id)) 2) as [|Hl]; [done|]. cbn [orb]. destruct (HasSuffix (ToUpper id) "F") eqn:E; [|done]. cbn [negb].
    apply suffix_F in E; [|done]. case_bool_decide as Hin; [|done]. intros [= <-].
    apply elem_of_list_to_set, list_elem_of_fmap in Hin as (b & Hb & Hin). exists b. split_and!; [done|done| |by rewrite <- Hb].
    rewrite <- Hb. intros H0. assert (String.length (ToUpper id) = 1%nat) by (rewrite E, H0; done). lia.
  - intros (b & Hb & <- & Hne & E). rewrite E. rewrite length_app_F. destruct (Nat.ltb_spec (S (String.length (ToUpper b))) 2) as [Hl|_].
    { destruct (ToUpper b); [done|cbn in Hl; lia]. }
    assert (HasSuffix (ToUpper b +:+ "F") "F" = true) as Hs.
    { apply suffix_F; [|by rewrite drop_last_F]. rewrite length_app_F. destruct (ToUpper b); [done|cbn; lia]. }
    cbn [orb]. rewrite Hs. cbn [negb]. rewrite drop_last_F, bool_decide_true; [done|].
    apply elem_of_list_to_set, list_elem_of_fmap. by exists b.
Qed.

Lemma segmentOf_none ids id : segmentOf (present_ids ids) id = None ↔ ∀ b, b ∈ ids → ¬ segment_of b id.
Proof.
  split.
  - intros H b Hb Hs. assert (segmentOf (present_ids ids) id = Some (ToUpper b)) as H' by (apply segmentOf_spec; by exists b). congruence.
  - intros H. destruct (segmentOf (present_ids ids) id) as [base|] eqn:E; [|done]. apply segmentOf_spec in E as (b & Hb & _ & Hs). by apply (H b Hb) in Hs.
Qed.

Lemma nested_chain ids : no_nested ids → no_chain ids.
Proof.
  intros Hn id id' Hid Hid' (b & Hb & E & Hs)%segmentOf_spec. apply segmentOf_none. intros a Ha Has. apply (Hn a id' id Ha Hid' Hid Has).
  destruct Hs as [H1 H2]. split; [by rewrite <- E|by rewrite <- E].
Qed.

Lemma one_account_form ids g : one_account ids g → with_segments ids g.
Proof.
  intros (id & rest & -> & H1 & H2). exists id, rest. split_and!; [done|by apply segmentOf_none|]. intros s Hs.
  apply H2 in Hs as (b & _ & E & H3 & H4)%segmentOf_spec. split; by rewrite <- E.
Qed.

(** ** Where the rows of a narrowed report come from *)

(** The row, or the row with the dates of its statement on it. *)
Definition same_row (name : string) (r r0 : flexRow) : Prop := r = r0 ∨ ∃ d, r = stamp d name r0.

(** [r] is a row of section [name] of one of the statements. *)
Definition from_blocks (blocks : list flexStatementBlock) (name : string) (r : flexRow) : Prop :=
  ∃ b sec r0, b ∈ blocks ∧ sec ∈ bl_Inner b ∧ fs_XMLName sec = name ∧ r0 ∈ fs_Rows sec ∧ same_row name r r0.

(** Every row of an event section of the statement is one of the statements. *)
Definition made_of (blocks : list flexStatementBlock) (stmt : flexStatementBlock) : Prop :=
  ∀ sec r, sec ∈ bl_Inner stmt → fs_XMLName sec ≠ "EquitySummaryInBase" → r ∈ fs_Rows sec → from_blocks blocks (fs_XMLName sec) r.

Lemma made_of_self b blocks : b ∈ blocks → made_of blocks b.
Proof. intros Hb sec r Hs _ Hr. exists b, sec, r. split_and!; [done..|by left]. Qed.

Lemma fresh_rows_in earlier days n r : r ∈ fresh_rows earlier days n → ∃ d, d ∈ days ∧ r ∈ day_rows d n.
Proof.
  revert earlier. induction days as [|d days IH]; intros earlier; cbn [fresh_rows]; [by intros ?%not_elem_of_nil|]. intros [[_ H]%list_elem_of_filter|H]%elem_of_app.
  - exists d. split; [by left|done].
  - destruct (IH _ H) as (d' & Hd & Hr). exists d'. split; [by right|done].
Qed.

Lemma last_positions_in secs before r : r ∈ last_positions secs before → r ∈ before ∨ ∃ sec, sec ∈ secs ∧ fs_XMLName sec = "OpenPositions" ∧ r ∈ fs_Rows sec.
Proof.
  unfold last_positions. revert before. induction secs as [|sec secs IH]; intros before; cbn [foldl]; [by left|]. intros [H|(s' & H1 & H2 & H3)]%IH.
  - destruct (String.eqb_spec (fs_XMLName sec) "OpenPositions"); [right|by left]. exists sec. split; [by left|done].
  - right. exists s'. split; [by right|done].
Qed.

Lemma consecutive_blocks blocks days d : consecutiveDays blocks = Ok days → d ∈ days → ds_block d ∈ blocks.
Proof.
  unfold consecutiveDays. destruct (mapM dated blocks) as [l|] eqn:E; [|done]. destruct (dates_overlap _) as [[? ?]|]; [done|]. intros [= <-] Hd.
  rewrite sort_str_elem in Hd. apply mapM_Some in E. apply list_elem_of_lookup_1 in Hd as [i Hi]. destruct (Forall2_lookup_r _ _ _ _ _ E Hi) as (b & Hb & Hdb).
  apply dated_block in Hdb as ->. by eapply list_elem_of_lookup_2.
Qed.

Definition all_named (blocks : list flexStatementBlock) : Prop := ∀ b sec, b ∈ blocks → sec ∈ bl_Inner b → plain (fs_XMLName sec).

Lemma sections_rows_in b n r : r ∈ sections_rows b n ↔ ∃ sec, sec ∈ bl_Inner b ∧ fs_XMLName sec = n ∧ r ∈ fs_Rows sec.
Proof.
  unfold sections_rows. rewrite list_elem_of_bind. split.
  - intros (sec & Hr & [Hn Hs]%list_elem_of_filter). by exists sec.
  - intros (sec & Hs & Hn & Hr). exists sec. split; [done|]. by apply list_elem_of_filter.
Qed.

Lemma merge_made_of blocks stmt : all_named blocks → mergeDailyStatements blocks = Ok stmt → made_of blocks stmt.
Proof.
  intros Hn H. destruct (consecutiveDays blocks) as [days|e] eqn:Ec; [|by unfold mergeDailyStatements in H; rewrite Ec in H].
  assert (Forall named days) as Hd. { apply Forall_forall. intros d Hd. apply Forall_forall. intros sec Hs. eapply Hn; [by eapply consecutive_blocks|done]. }
  destruct (merge_rows_once blocks days stmt Ec Hd H) as (H1 & _ & _ & H4 & H5). intros sec r Hs Hne Hr.
  assert (plain (fs_XMLName sec)) as Hplain.
  { destruct (H5 sec Hs) as (d & Hdd & Hname). apply list_elem_of_fmap in Hname as (s' & -> & Hs'). eapply Hn; [by eapply consecutive_blocks|done]. }
  assert (r ∈ sections_rows stmt (fs_XMLName sec)) as Hin by (apply sections_rows_in; by exists sec).
  destruct (String.eqb_spec (fs_XMLName sec) "OpenPositions") as [Ho|Ho].
  - rewrite Ho in Hin |- *. rewrite H4 in Hin. apply last_positions_in in Hin as [Hin|(s' & Hs' & Hn' & Hr')]; [by apply not_elem_of_nil in Hin|].
    apply list_elem_of_bind in Hs' as (d & Hs' & Hdd). exists (ds_block d), s', r. split_and!; [by eapply consecutive_blocks|done..|by left].
  - assert (event_section (fs_XMLName sec) = true) as He by (unfold event_section; by rewrite (proj2 (String.eqb_neq _ _) Hne), (proj2 (String.eqb_neq _ _) Ho)).
    rewrite H1 in Hin by done. apply fresh_rows_in in Hin as (d & Hdd & Hin). unfold day_rows in Hin. apply list_elem_of_fmap in Hin as (r0 & -> & Hr0).
    apply sections_rows_in in Hr0 as (s' & Hs' & Hn' & Hr'). exists (ds_block d), s', r0. split_and!; [by eapply consecutive_blocks|done..|]. right. by exists d.
Qed.

Lemma all_named_sub (blocks blocks' : list flexStatementBlock) : blocks ⊆ blocks' → all_named blocks' → all_named blocks.
Proof. intros Hs Hn b sec Hb. apply Hn. by apply Hs. Qed.

Lemma made_of_sub blocks blocks' stmt : blocks ⊆ blocks' → made_of blocks stmt → made_of blocks' stmt.
Proof. intros Hs Hm sec r H1 H2 H3. destruct (Hm sec r H1 H2 H3) as (b & s & r0 & Hb & H). exists b, s, r0. split; [by apply Hs|done]. Qed.

Lemma account_made_of blocks stmt : all_named blocks → accountStatement blocks = Ok stmt → made_of blocks stmt.
Proof.
  intros Hn. unfold accountStatement. destruct blocks as [|b [|b' blocks]]; [by apply merge_made_of| |by apply merge_made_of].
  intros [= ->]. apply made_of_self. by left.
Qed.

Section narrow.
Context {F : Type} {NF : Num F} {TF : FloatText F}.

(** The statements of the accounts that are kept. *)
Definition kept_blocks (blocks : list flexStatementBlock) (keep : list string) : list flexStatementBlock := filter (λ b, account_of b ∈ keep) blocks.

Lemma kept_sub blocks keep : kept_blocks blocks keep ⊆ blocks.
Proof. intros b Hb. by apply list_elem_of_filter in Hb as [_ ?]. Qed.

Lemma accounts_made_of blocks keep ids stmts :
  all_named blocks → ids ⊆ keep → account_statements blocks ids = Ok stmts → ∀ s, s ∈ stmts → made_of (kept_blocks blocks keep) s.
Proof.
  intros Hn. revert stmts. induction ids as [|id ids IH]; intros stmts Hsub; cbn [account_statements]; [intros [= <-] s []%not_elem_of_nil|].
  destruct (accountStatement _) as [st|] eqn:E; [|done]. cbn [mbind res_bind]. destruct (account_statements blocks ids) as [l|] eqn:El; [|done]. cbn [mbind res_bind]. intros [= <-] s [->|Hs]%elem_of_cons.
  - assert (blocks_of blocks id ⊆ kept_blocks blocks keep) as Hin.
    { intros b [Hb ?]%list_elem_of_filter. apply list_elem_of_filter. rewrite Hb. split; [apply Hsub; by left|done]. }
    eapply made_of_sub; [exact Hin|]. eapply account_made_of; [|done]. eapply all_named_sub; [|done]. intros b Hb. by apply (kept_sub blocks keep), Hin.
  - apply (IH l); [|done..]. intros x Hx. apply Hsub. by right.
Qed.

Lemma consolidate_all_in docs names secs sec :
  consolidate_all docs names = Ok secs → sec ∈ secs → ∃ name, consolidate_section docs name = Ok sec.
Proof.
  revert secs. induction names as [|n names IH]; intros secs; cbn [consolidate_all]; [intros [= <-] []%not_elem_of_nil|].
  destruct (consolidate_section docs n) as [s|] eqn:E; [|done]. cbn [mbind res_bind]. destruct (consolidate_all docs names) as [l|] eqn:El; [|done]. cbn [mbind res_bind]. intros [= <-] [->|Hs]%elem_of_cons; [by exists n|by apply (IH l)].
Qed.

Lemma sections_named_in docs name s : s ∈ sections_named docs name → fs_XMLName s = name ∧ ∃ d, d ∈ docs ∧ s ∈ bl_Inner d.
Proof. intros [Hn (d & Hs & Hd)%list_elem_of_bind]%list_elem_of_filter. split; [done|]. by exists d. Qed.

Lemma consolidate_rows docs name sec r :
  consolidate_section docs name = Ok sec → fs_XMLName sec ≠ "EquitySummaryInBase" → r ∈ fs_Rows sec →
  ∃ d s, d ∈ docs ∧ s ∈ bl_Inner d ∧ fs_XMLName s = fs_XMLName sec ∧ r ∈ fs_Rows s.
Proof.
  unfold consolidate_section. destruct (sections_named docs name) as [|s0 secs] eqn:E; [done|].
  assert (∀ s, s ∈ s0 :: secs → fs_XMLName s = name ∧ ∃ d, d ∈ docs ∧ s ∈ bl_Inner d) as Hin by (intros s Hs; apply sections_named_in; by rewrite E).
  destruct (String.eqb_spec name "EquitySummaryInBase") as [->|Hne].
  - destruct (sumSegmentNAV _); [|done]. cbn [mbind res_bind]. by intros [= <-] [].
  - case_bool_decide; intros [= <-] _; cbn [fs_XMLName fs_Rows].
    + change (r ∈ (s0 :: secs) ≫= (λ s, fs_Rows s) → ∃ d s, d ∈ docs ∧ s ∈ bl_Inner d ∧ fs_XMLName s = name ∧ r ∈ fs_Rows s).
      intros (s & Hr & Hs)%list_elem_of_bind. destruct (Hin s Hs) as (Hn & d & Hd & Hsd). by exists d, s.
    + intros Hr. destruct (Hin s0 ltac:(by left)) as (Hn & d & Hd & Hsd). by exists d, s0.
Qed.

Lemma consolidate_made_of blocks stmts stmt :
  (∀ s, s ∈ stmts → made_of blocks s) → consolidateSegments stmts = Ok stmt → made_of blocks stmt.
Proof.
  intros Hm. unfold consolidateSegments. destruct stmts as [|d0 stmts]; [done|]. destruct (consolidate_all _ _) as [secs|] eqn:E; [|done]. cbn [mbind res_bind].
  intros [= <-] sec r Hs Hne Hr. destruct (consolidate_all_in _ _ _ _ E Hs) as [name Hc]. destruct (consolidate_rows _ _ _ _ Hc Hne Hr) as (d & s & Hd & Hsd & Hn & Hrs).
  rewrite <- Hn in Hne |- *. by apply (Hm d Hd s r).
Qed.

Lemma group_made_of blocks keep stmt : all_named blocks → group_statement blocks keep = Ok stmt → made_of (kept_blocks blocks keep) stmt.
Proof.
  intros Hn. unfold group_statement. destruct (account_statements blocks keep) as [stmts|] eqn:E; [|done]. cbn [mbind res_bind].
  pose proof (accounts_made_of blocks keep keep stmts Hn ltac:(done) E) as Hm. destruct stmts as [|s [|s' l]]; [done| |by apply consolidate_made_of]. intros [= <-]. apply Hm. by left.
Qed.

(** ** Which group is kept *)

Lemma keep_group_spec `{OF : !NumOrd F} blocks g0 groups :
  let keep := keep_group blocks g0 groups in
  keep ∈ g0 :: groups ∧ (keep = g0 ∨ fltb (groupEquity blocks g0) (groupEquity blocks keep) = true) ∧
  ∀ g, g ∈ g0 :: groups → fltb (groupEquity blocks keep) (groupEquity blocks g) = false.
Proof.
  unfold keep_group. revert g0. induction groups as [|g' groups IH]; intros g0; cbn [foldl]; cbn zeta.
  - split_and!; [by left|by left|]. intros g ->%list_elem_of_singleton. apply fltb_irrefl.
  - specialize (IH (if fltb (groupEquity blocks g0) (groupEquity blocks g') then g' else g0)). cbn zeta in IH.
    destruct (fltb (groupEquity blocks g0) (groupEquity blocks g')) eqn:E; destruct IH as (Hin & Hfrom & Hmax); set (k := foldl _ _ groups) in *.
    + assert (fltb (groupEquity blocks g0) (groupEquity blocks k) = true) as Hk by (destruct Hfrom as [->|Hf]; [done|by eapply fltb_trans]).
      split_and!; [by right|by right|]. intros g [->|Hg]%elem_of_cons; [by apply fltb_asym|by apply Hmax].
    + split_and!; [set_solver|done|]. intros g [->|[->|Hg]%elem_of_cons]%elem_of_cons; [by apply Hmax; left| |by apply Hmax; right].
      destruct Hfrom as [->|Hf]; [done|]. destruct (fltb (groupEquity blocks k) (groupEquity blocks g')) eqn:E'; [|done]. by rewrite (fltb_trans _ _ _ Hf E') in E.
Qed.

Lemma distinct_spec (l : list string) acc :
  NoDup acc → let order := foldl (λ order id, if bool_decide (id ∈ order) then order else order ++ [id]) acc l in
  NoDup order ∧ ∀ id, id ∈ order ↔ id ∈ acc ∨ id ∈ l.
Proof.
  revert acc. induction l as [|x l IH]; intros acc Hd; cbn [foldl]; cbn zeta; [split; [done|set_solver]|]. case_bool_decide as Hx.
  - destruct (IH acc Hd) as [H1 H2]. split; [done|]. intros id. rewrite H2. set_solver.
  - destruct (IH (acc ++ [x])) as [H1 H2]; [apply NoDup_app; split_and!; [done|set_solver|apply NoDup_singleton]|]. split; [done|]. intros id. rewrite H2. set_solver.
Qed.

Lemma account_order_spec blocks : NoDup (account_order blocks) ∧ ∀ id, id ∈ account_order blocks ↔ ∃ b, b ∈ blocks ∧ account_of b = id.
Proof.
  destruct (distinct_spec (account_of <$> blocks) [] (NoDup_nil_2)) as [H1 H2]. split; [done|]. intros id. unfold account_order. rewrite H2, list_elem_of_fmap. set_solver.
Qed.

Lemma narrow_spec rep n blocks :
  rep = FlexQueryResponse blocks → (2 <= length blocks)%nat → narrowFlexStatement rep = Ok n →
  ∃ g0 groups stmt, segmentGroups (account_order blocks) = g0 :: groups ∧ group_statement blocks (keep_group blocks g0 groups) = Ok stmt ∧
    n = mkNarrowed (FlexQueryResponse [stmt]) (namedAccounts (keep_group blocks g0 groups)) (length (account_order blocks)).
Proof.
  intros -> Hl. unfold narrowFlexStatement. destruct blocks as [|b [|b' blocks]]; [cbn in Hl; lia..|]. set (bs := b :: b' :: blocks) in *.
  destruct (segmentGroups (account_order bs)) as [|g0 groups]; [done|]. destruct (group_statement bs _) as [stmt|] eqn:E; [|done]. cbn [mbind res_bind]. intros [= <-]. by exists g0, groups, stmt.
Qed.

(** C37: a report of several statements is narrowed to one statement of one
    account, provided no account of the report is the segment of a segment.
    The accounts of the report fall into groups, each account in exactly one;
    every group is an account that is no segment, with accounts that have its
    id and a final F; the group that is kept is one no other group's equity
    exceeds, the accounts reported are those of that group, and every row of an
    event section, position or transfer of the statement is a row some
    statement of a kept account has in that section.  Without the proviso a
    segment of a segment joins the first group ([chain_misgrouped]). *)
Theorem narrow_one_account `{OF : !NumOrd F} blocks n :
  (2 <= length blocks)%nat → all_named blocks → no_nested (account_of <$> blocks) →
  narrowFlexStatement (FlexQueryResponse blocks) = Ok n →
  ∃ groups stmt keep,
    NoDup (concat groups) ∧ (∀ id, id ∈ concat groups ↔ ∃ b, b ∈ blocks ∧ account_of b = id) ∧
    (∀ g, g ∈ groups → with_segments (account_of <$> blocks) g) ∧
    nw_report n = FlexQueryResponse [stmt] ∧ nw_accounts n = namedAccounts keep ∧
    keep ∈ groups ∧ (∀ g, g ∈ groups → fltb (groupEquity blocks keep) (groupEquity blocks g) = false) ∧
    made_of (kept_blocks blocks keep) stmt.
Proof.
  intros Hl Hn Hc H. destruct (narrow_spec _ _ _ eq_refl Hl H) as (g0 & groups & stmt & Hg & Hs & ->). destruct (account_order_spec blocks) as [Hd Ho].
  assert (account_order blocks ≠ []) as Hne by (destruct blocks as [|b bs]; [cbn in Hl; lia|]; intros E; assert (account_of b ∈ account_order (b :: bs)) as Hin by (apply Ho; exists b; split; [by left|done]); rewrite E in Hin; by apply not_elem_of_nil in Hin).
  assert (∀ id, id ∈ account_order blocks ↔ id ∈ account_of <$> blocks) as Hids by (intros id; rewrite Ho, list_elem_of_fmap; naive_solver).
  assert (no_chain (account_order blocks)) as Hc' by (apply nested_chain; intros a b c Ha Hb Hc'; apply Hc; by apply Hids).
  pose proof (groups_partition _ Hne) as Hp. destruct (keep_group_spec blocks g0 groups) as (Hin & _ & Hmax). rewrite <- Hg in Hin, Hmax.
  exists (segmentGroups (account_order blocks)), stmt, (keep_group blocks g0 groups). cbn [nw_report nw_accounts]. split_and!; [by rewrite Hp|intros id; by rewrite Hp| |done|done|done|done|by apply group_made_of].
  intros g Hgin. destruct (one_account_form _ _ (groups_one_account _ _ Hc' Hgin)) as (id & rest & -> & H1 & H2). exists id, rest. split_and!; [done| |done].
  intros b Hb. apply H1. by apply Hids.
Qed.

(** ** The value of an account with its segments *)

(** The row a segment is worth on a date: the last it states up to it. *)
Definition carried_rows (secs : list flexSection) (date : string) : list flexRow :=
  omap (λ s, last (filter (λ r, String.le (report_date r) date) (nav_side s))) secs.

(** A row that states its total once, as a number. *)
Definition one_total (r : flexRow) : Prop :=
  ∃ v, filter (λ a, a.1 = "total") (fr_Attrs r) = [("total", v)] ∧ v ≠ "" ∧ (ParseFloat (F := F) v).2 = true.

Definition total_of (r : flexRow) : F := float_of (attr (fr_Attrs r) "total").

Lemma find_first_filter {A} (f : A → bool) l : find_first f l = head (filter (λ x, f x = true) l).
Proof. induction l as [|x l IH]; [done|]. rewrite filter_cons. cbn [find_first]. destruct (f x) eqn:E; [by rewrite decide_True|by rewrite decide_False]. Qed.

Lemma attr_filter l name : attr l name = match head (filter (λ a, a.1 = name) l) with Some a => a.2 | None => "" end.
Proof.
  unfold attr. rewrite find_first_filter. assert (filter (λ x, String.eqb x.1 name = true) l = filter (λ a, a.1 = name) l) as ->; [|done].
  apply list_filter_iff. intros a. apply String.eqb_eq.
Qed.

Lemma attr_names (f : string → string) names name : name ∈ names → attr ((λ n, (n, f n)) <$> names) name = f name.
Proof.
  intros Hin. unfold attr. induction names as [|n names IH]; [by apply not_elem_of_nil in Hin|]. cbn. destruct (String.eqb_spec n name) as [->|]; [done|]. apply IH. by apply elem_of_cons in Hin as [|].
Qed.

(** What is added: the values of the attribute, in order. *)
Definition add_total (acc : F) (a : string * string) : F := if String.eqb a.1 "total" then fadd acc (float_of a.2) else acc.

Definition number_attr (a : string * string) : Prop := a.1 = "total" → a.2 ≠ "" ∧ (ParseFloat (F := F) a.2).2 = true.

Record summing (st st' : nav_sum (F := F)) (l : attrs) : Prop := {
  sm_total : default f0 (ns_sums st' !! "total") = foldl add_total (default f0 (ns_sums st !! "total")) l;
  sm_text : "total" ∉ ns_text st';
  sm_names : ∀ n, n ∈ ns_names st' ↔ n ∈ ns_names st ∨ n ∈ l.*1;
}.

Lemma add_attr_spec date st st' a :
  (∀ n, n ∈ ns_names st ↔ is_Some (ns_first st !! n)) → "total" ∉ ns_text st → number_attr a → add_attr date st a = Ok st' →
  (∀ n, n ∈ ns_names st' ↔ is_Some (ns_first st' !! n)) ∧ summing st st' [a].
Proof.
  destruct a as [name value]. intros Hw Ht Hn. unfold add_attr. set (st1 := meet st name value).
  assert (ns_sums st1 = ns_sums st ∧ "total" ∉ ns_text st1 ∧ (∀ n, n ∈ ns_names st1 ↔ n ∈ ns_names st ∨ n = name) ∧ ∀ n, n ∈ ns_names st1 ↔ is_Some (ns_first st1 !! n)) as (E1 & E2 & E3 & E4).
  { unfold st1, meet. destruct (ns_first st !! name) eqn:E; [split_and!; [done..| |done]; intros n; split; [by left|intros [?| ->]; [done|by apply Hw; rewrite E]]|]. cbn. split_and!; [done| |set_solver|].
    - case_bool_decide as Hb; [|done]. apply not_elem_of_union. split; [|done]. intros <-%elem_of_singleton. vm_compute in Hb. discriminate Hb.
    - intros n. destruct (decide (n = name)) as [->|Hne]; [rewrite lookup_insert_eq; split; [done|set_solver]|]. rewrite lookup_insert_ne by done. rewrite elem_of_app, list_elem_of_singleton, Hw. naive_solver. }
  destruct (_ && _ && _ && _)%bool; [done|]. clearbody st1. unfold number_attr in Hn. cbn [fst snd] in Hn.
  destruct (_ || _)%bool eqn:Eb; [|destruct (ParseFloat value) as [v [|]] eqn:Ep]; intros [= <-]; (split; [done|]); split; cbn [ns_names ns_text ns_sums foldl]; unfold add_total; cbn [fst snd];
    try (intros n; rewrite E3; rewrite fmap_cons; cbn; set_solver).
  - rewrite E1. destruct (String.eqb_spec name "total") as [->|]; [|done]. exfalso. destruct (Hn eq_refl) as [Hv _]. apply orb_true_iff in Eb as [Eb|Eb]; [by apply bool_decide_eq_true in Eb|by apply String.eqb_eq in Eb].
  - done.
  - rewrite E1. destruct (String.eqb_spec name "total") as [->|]; [rewrite lookup_insert_eq; unfold float_of; by rewrite Ep|by rewrite lookup_insert_ne].
  - done.
  - rewrite E1. destruct (String.eqb_spec name "total") as [->|]; [|done]. destruct (Hn eq_refl) as [_ Hv]. done.
  - apply not_elem_of_union. split; [|done]. intros <-%elem_of_singleton. destruct (Hn eq_refl) as [_ Hv]. done.
Qed.

Lemma summing_trans st1 st2 st3 l1 l2 : summing st1 st2 l1 → summing st2 st3 l2 → summing st1 st3 (l1 ++ l2).
Proof.
  intros [A1 A2 A3] [B1 B2 B3]. split; [by rewrite B1, A1, foldl_app|done|]. intros n. rewrite B3, A3, fmap_app, elem_of_app. tauto.
Qed.

Lemma add_attrs_spec date l st st' :
  (∀ n, n ∈ ns_names st ↔ is_Some (ns_first st !! n)) → "total" ∉ ns_text st → (∀ a, a ∈ l → number_attr a) → add_attrs date st l = Ok st' → summing st st' l.
Proof.
  revert st. induction l as [|a l IH]; intros st Hw Ht Hn; cbn [add_attrs]; [intros [= <-]; split; [done..|]; intros n; rewrite fmap_nil; set_solver|].
  destruct (add_attr date st a) as [st1|] eqn:E; [|done]. cbn [mbind res_bind]. intros H. destruct (add_attr_spec _ _ _ _ Hw Ht (Hn a ltac:(by left)) E) as [Hw1 Hs1].
  apply (summing_trans _ st1 _ [a] l Hs1). apply IH; [done|apply Hs1| |done]. intros a' Ha. apply Hn. by right.
Qed.

Lemma add_totals l (acc : F) : foldl add_total acc l = foldl (λ acc a, fadd acc (float_of a.2)) acc (filter (λ a, a.1 = "total") l).
Proof.
  revert acc. induction l as [|a l IH]; intros acc; [done|]. rewrite filter_cons. cbn [foldl]. unfold add_total at 2. destruct (String.eqb_spec a.1 "total"); [rewrite decide_True by done|rewrite decide_False by done]; by rewrite IH.
Qed.

Lemma totals_of_rows rows (acc : F) :
  (∀ r, r ∈ rows → one_total r) → foldl add_total acc (r ← rows; fr_Attrs r) = foldl (λ acc r, fadd acc (total_of r)) acc rows.
Proof.
  revert acc. induction rows as [|r rows IH]; intros acc Ho; [done|]. rewrite bind_cons, foldl_app, IH by (intros; apply Ho; by right). cbn [foldl]. f_equal.
  destruct (Ho r ltac:(by left)) as (v & Hv & _). rewrite add_totals, Hv. unfold total_of. by rewrite attr_filter, Hv.
Qed.

Lemma attr_in l name : attr l name ≠ "" → name ∈ l.*1.
Proof.
  rewrite attr_filter. destruct (filter _ l) as [|a l'] eqn:E; [done|]. intros _. assert (a ∈ filter (λ a, a.1 = name) l) as [<- Ha]%list_elem_of_filter by (rewrite E; by left).
  by apply list_elem_of_fmap_2.
Qed.

Lemma number_attrs rows : (∀ r, r ∈ rows → one_total r) → ∀ a, a ∈ (r ← rows; fr_Attrs r) → number_attr a.
Proof.
  intros Ho a (r & Ha & Hr)%list_elem_of_bind Hname. destruct (Ho r Hr) as (v & Hv & H1 & H2).
  assert (a ∈ filter (λ a, a.1 = "total") (fr_Attrs r)) as Hin by (by apply list_elem_of_filter). rewrite Hv in Hin. apply list_elem_of_singleton in Hin as ->. done.
Qed.

(** The row of a date is dated to it, and its total is the sum of the totals. *)
Lemma sum_row_spec date rows row :
  (∀ r, r ∈ rows → one_total r ∧ report_date r ≠ "") → sumNAVRows date rows = Ok row →
  report_date row = date ∧ attr (fr_Attrs row) "total" = FormatFloat (foldl (λ acc r, fadd acc (total_of r)) f0 rows).
Proof.
  intros Ho. unfold sumNAVRows. destruct (add_attrs _ _ _) as [st|] eqn:E; [|done]. cbn [mbind res_bind]. destruct rows as [|r0 rows]; [done|]. intros [= <-]. set (rs := r0 :: rows) in *.
  apply add_attrs_spec in E as [H1 H2 H3]; [|intros n; cbn; rewrite lookup_empty; split; [by intros ?%not_elem_of_nil|by intros [??]]|cbn; set_solver|apply number_attrs; intros; by apply Ho].
  destruct (Ho r0 ltac:(by left)) as [(v & Hv & Hv0 & _) Hd]. cbn [ns_sums] in H1. rewrite lookup_empty in H1. change (default f0 None) with (f0 : F) in H1.
  assert (∀ name, name ∈ (fr_Attrs r0).*1 → name ∈ ns_names st) as Hin.
  { intros name Hname. apply H3. right. unfold rs. rewrite bind_cons, fmap_app, elem_of_app. by left. }
  unfold report_date at 1. cbn [fr_Attrs]. rewrite !attr_names.
  - split; [done|]. unfold nav_value. rewrite bool_decide_eq_false_2 by done. cbn [String.eqb Ascii.eqb Bool.eqb]. rewrite H1, totals_of_rows by (intros; by apply Ho). done.
  - apply Hin, attr_in. by rewrite attr_filter, Hv.
  - by apply Hin, attr_in.
Qed.

(** ** Carrying the last value of a segment *)

Abbreviation up_to date := (filter (λ r, String.le (report_date r) date)).
Abbreviation after date := (filter (λ r, ¬ String.le (report_date r) date)).

Lemma sorted_after date l : StronglySorted (skey_le report_date) l → match l with [] => True | r :: _ => ¬ String.le (report_date r) date → up_to date l = [] ∧ after date l = l end.
Proof.
  destruct 1 as [|r l Hl Hr]; [done|]. intros Hn. assert (∀ x, x ∈ r :: l → ¬ String.le (report_date x) date) as Hall.
  { rewrite Forall_forall in Hr. intros x [->|Hx]%elem_of_cons; [done|]. intros Hle. apply Hn. specialize (Hr _ Hx). unfold skey_le in Hr. by etrans. }
  split; [by apply filter_none|by apply filter_every].
Qed.

Lemma advance_spec date c next :
  StronglySorted (skey_le report_date) next →
  advance date c next = (match last (up_to date next) with Some r => Some r | None => c end, after date next).
Proof.
  intros Hs. revert c. induction next as [|r next IH]; intros c; [done|]. cbn [advance]. destruct (String.leb (report_date r) date) eqn:E.
  - assert (String.le (report_date r) date) as Hle by (unfold String.le; by rewrite E). apply StronglySorted_inv in Hs as [Hs _]. rewrite IH by done. rewrite !filter_cons, decide_True, decide_False by auto.
    f_equal. rewrite last_cons. by destruct (last (up_to date next)).
  - assert (¬ String.le (report_date r) date) as Hn by (unfold String.le; rewrite E; by intros []). destruct (sorted_after date _ Hs Hn) as [-> ->]. done.
Qed.

Lemma sorted_split date l : StronglySorted (skey_le report_date) l → l = up_to date l ++ after date l.
Proof.
  intros Hs. induction Hs as [|r l Hl IH Hr]; [done|]. destruct (decide (String.le (report_date r) date)) as [Hle|Hn].
  - rewrite !filter_cons, decide_True, decide_False by auto. cbn. by rewrite <- IH.
  - destruct (sorted_after date (r :: l) ltac:(by constructor) Hn) as [-> ->]. done.
Qed.

Definition carried_at (date : string) (c : option flexRow * list flexRow) : option flexRow := match last (up_to date c.2) with Some r => Some r | None => c.1 end.

Lemma carried_later d d' c :
  StronglySorted (skey_le report_date) c.2 → String.le d d' → carried_at d' (advance d c.1 c.2) = carried_at d' c.
Proof.
  intros Hs Hle. rewrite advance_spec by done. unfold carried_at. cbn [fst snd].
  assert (up_to d' c.2 = up_to d c.2 ++ up_to d' (after d c.2)) as ->.
  { rewrite (sorted_split d c.2 Hs) at 1. rewrite filter_app. f_equal. apply filter_every. intros r [Hr _]%list_elem_of_filter. by etrans. }
  rewrite last_app. by destruct (last (up_to d' (after d c.2))), (last (up_to d c.2)).
Qed.

Lemma sum_dates_spec dates sides rows :
  StronglySorted String.le dates → (∀ c, c ∈ sides → StronglySorted (skey_le report_date) c.2) → sum_dates dates sides = Ok rows →
  Forall2 (λ d row, sumNAVRows d (omap (carried_at d) sides) = Ok row) dates rows.
Proof.
  intros Hd. revert sides rows. induction Hd as [|d dates Hd IH Hall]; intros sides rows Hs; cbn [sum_dates]; [intros [= <-]; constructor|].
  set (sides' := (λ c : option flexRow * list flexRow, advance d c.1 c.2) <$> sides). destruct (sumNAVRows d _) as [row|] eqn:E; [|done]. cbn [mbind res_bind].
  destruct (sum_dates dates sides') as [rows'|] eqn:E'; [|done]. cbn [mbind res_bind]. intros [= <-].
  assert (∀ d', String.le d d' → omap (carried_at d') sides' = omap (carried_at d') sides) as Hcar.
  { intros d' Hle. unfold sides'. clear E E' IH. induction sides as [|c sides IHs]; [done|]. rewrite fmap_cons. cbn [omap list_omap]. rewrite carried_later by (try done; apply Hs; by left).
    rewrite IHs by (intros; apply Hs; by right). done. }
  constructor.
  - rewrite <- E. f_equal. unfold sides'. clear - Hs. induction sides as [|c sides IHs]; [done|]. rewrite fmap_cons. cbn [omap list_omap]. rewrite IHs by (intros; apply Hs; by right).
    rewrite (advance_spec d c.1 c.2) by (apply Hs; by left). done.
  - rewrite Forall_forall in Hall. eapply Forall2_impl_in; [apply IH; [|exact E']|].
    + intros c (c0 & -> & Hc)%list_elem_of_fmap. rewrite advance_spec by (by apply Hs). cbn [snd]. apply sorted_filter. by apply Hs.
    + intros d' r' Hd' H. cbn beta in H. by rewrite Hcar in H by (by apply Hall).
Qed.

Lemma sides_sorted s : StronglySorted (skey_le report_date) (nav_side s).
Proof. apply sort_str_sorted. Qed.

Lemma carried_omap (sides : list (list flexRow)) date :
  omap (carried_at date) ((λ l, (None, l)) <$> sides) = omap (λ l, last (up_to date l)) sides.
Proof. induction sides as [|l sides IH]; [done|]. rewrite fmap_cons. cbn [omap list_omap]. rewrite IH. unfold carried_at. cbn [fst snd]. by destruct (last (up_to date l)). Qed.

Lemma omap_sides secs date : omap (λ l, last (up_to date l)) (nav_side <$> secs) = carried_rows secs date.
Proof. unfold carried_rows. induction secs as [|s secs IH]; [done|]. rewrite fmap_cons. cbn [omap list_omap]. by rewrite IH. Qed.

Lemma carried_in secs date r : r ∈ carried_rows secs date → ∃ s, s ∈ secs ∧ r ∈ fs_Rows s ∧ report_date r ≠ "".
Proof.
  intros (s & Hs & Hr)%list_elem_of_omap. apply last_Some_elem_of in Hr. apply list_elem_of_filter in Hr as [_ Hr]. unfold nav_side in Hr. rewrite sort_str_elem in Hr.
  apply list_elem_of_filter in Hr as [Hd Hr]. by exists s.
Qed.

(** An account and its segments are valued together.  Every date that any of them states has one row, in the order
    of the dates, dated to it, and its total is the sum, over the segments that have stated a value by then, of the
    last value each stated up to that date. *)
Theorem segments_valued_together secs rows :
  (∀ s r, s ∈ secs → r ∈ fs_Rows s → report_date r ≠ "" → one_total r) → sumSegmentNAV secs = Ok rows →
  report_date <$> rows = nav_dates (nav_side <$> secs) ∧ StronglySorted String.le (report_date <$> rows) ∧
  ∀ row, row ∈ rows → attr (fr_Attrs row) "total" = FormatFloat (foldl (λ acc r, fadd acc (total_of r)) f0 (carried_rows secs (report_date row))).
Proof.
  intros Ho H. unfold sumSegmentNAV in H. apply sum_dates_spec in H as HF; [|apply (sort_str_sorted id)|intros c (l & -> & (s & -> & Hs)%list_elem_of_fmap)%list_elem_of_fmap; apply sides_sorted].
  assert (Forall2 (λ d row, report_date row = d ∧ attr (fr_Attrs row) "total" = FormatFloat (foldl (λ acc r, fadd acc (total_of r)) f0 (carried_rows secs d)))
    (nav_dates (nav_side <$> secs)) rows) as HR.
  { eapply Forall2_impl; [exact HF|]. intros d row Hrow. cbn beta in Hrow. rewrite carried_omap, omap_sides in Hrow. apply sum_row_spec; [|done].
    intros r Hr. destruct (carried_in _ _ _ Hr) as (s & Hs & Hrs & Hd). split; [by apply (Ho s)|done]. }
  assert (report_date <$> rows = nav_dates (nav_side <$> secs)) as Hdates. { clear -HR. induction HR as [|d row ds rs [Hd _] _ IH]; [done|]. rewrite fmap_cons. by f_equal. }
  split_and!; [done|rewrite Hdates; apply (sort_str_sorted id)|].
  intros row [i Hi]%list_elem_of_lookup. destruct (Forall2_lookup_r _ _ _ _ _ HR Hi) as (d & _ & <- & Ht). done.
Qed.

End narrow.

(** A segment of a segment joins the first group of the report. *)
Lemma chain_misgrouped : segmentGroups ["U1"; "X"; "XF"; "XFF"] = [["U1"; "XFF"]; ["X"; "XF"]].
Proof. vm_compute. reflexivity. Qed.

(** ** A sample *)

(** Whole numbers as text. *)
Definition whole_text : FloatText float64 := {|
  ParseFloat s := if all_digits s then (fofZ (foldl (λ n c, 10 * n + (Z.of_nat (nat_of_ascii c) - 48)) 0 (String.list_ascii_of_string s)), true) else (f0, false);
  FormatFloat x := pretty (ftrunc x);
|}.
#[local] Existing Instance whole_text.

Definition sample_statement (id date total : string) (cash : list string) : flexStatementBlock :=
  mkBlock [("accountId", id); ("fromDate", date); ("toDate", date)]
    [mkSection "EquitySummaryInBase" [] [sample_nav date total]; mkSection "CashTransactions" [] (sample_cash <$> cash)].

(** Two accounts; the second has a segment, and only with it is it the larger. *)
Definition three_accounts : list flexStatementBlock :=
  [sample_statement "U1" "20260105" "100" ["a"]; sample_statement "U2" "20260105" "60" ["b"]; sample_statement "U2F" "20260105" "50" ["c"]].

Definition three_narrowed : narrowedStatement :=
  match narrowFlexStatement (F := float64) (FlexQueryResponse three_accounts) with Ok n => n | Err _ => mkNarrowed (Unreadable "") [] 0 end.

Lemma three_named : all_named three_accounts.
Proof.
  assert (Forall (λ b, Forall (λ s, plain (fs_XMLName s)) (bl_Inner b)) three_accounts) as H.
  { repeat constructor; vm_compute; intros H; repeat destruct H as [H|H]; discriminate H || done. }
  rewrite Forall_forall in H. intros b sec Hb Hs. specialize (H b Hb). rewrite Forall_forall in H. by apply H.
Qed.

Lemma three_no_nested : no_nested (account_of <$> three_accounts).
Proof.
  replace (account_of <$> three_accounts) with ["U1"; "U2"; "U2F"] by (vm_compute; reflexivity). intros a b c Ha Hb Hc [_ H1] [_ H2].
  repeat (apply elem_of_cons in Ha as [->|Ha]); [..|by apply elem_of_nil in Ha];
    repeat (apply elem_of_cons in Hb as [->|Hb]); try (by apply elem_of_nil in Hb);
    repeat (apply elem_of_cons in Hc as [->|Hc]); try (by apply elem_of_nil in Hc); vm_compute in H1, H2; congruence.
Qed.

Lemma narrow_one_account_witness :
  nw_accounts three_narrowed = ["U2"; "U2F"] ∧
  ∃ stmt, nw_report three_narrowed = FlexQueryResponse [stmt] ∧ sections_rows stmt "CashTransactions" = sample_cash <$> ["b"; "c"] ∧
    ∃ keep, namedAccounts keep = ["U2"; "U2F"] ∧ with_segments ["U1"; "U2"; "U2F"] keep ∧ made_of (kept_blocks three_accounts keep) stmt.
Proof.
  destruct (narrow_one_account (F := float64) three_accounts three_narrowed ltac:(cbn; lia) three_named three_no_nested eq_refl) as (groups & stmt & keep & _ & _ & Hg & Hr & Ha & Hk & _ & Hm).
  split; [vm_compute; reflexivity|]. exists stmt. split; [exact Hr|]. split; [clear -Hr; vm_compute in Hr; injection Hr as <-; vm_compute; reflexivity|].
  exists keep. split; [|split; [|exact Hm]].
  - rewrite <- Ha. vm_compute. reflexivity.
  - replace ["U1"; "U2"; "U2F"] with (account_of <$> three_accounts) by (vm_compute; reflexivity). by apply Hg.
Defined.

(** A segment that is silent on the second day counts with its first. *)
Definition two_sides : list flexSection :=
  [mkSection "EquitySummaryInBase" [] [sample_nav "20260105" "60"; sample_nav "20260106" "70"]; mkSection "EquitySummaryInBase" [] [sample_nav "20260105" "50"]].

Definition two_summed : list flexRow := match sumSegmentNAV (F := float64) two_sides with Ok l => l | Err _ => [] end.

Lemma two_sides_total s r : s ∈ two_sides → r ∈ fs_Rows s → report_date r ≠ "" → one_total (F := float64) r.
Proof.
  intros Hs Hr _. assert (∃ date total, r = sample_nav date total ∧ total ≠ "" ∧ (ParseFloat (F := float64) total).2 = true) as (date & total & -> & H1 & H2).
  { apply elem_of_cons in Hs as [->|[->|[]%not_elem_of_nil]%elem_of_cons]; cbn [fs_Rows] in Hr;
      repeat (apply elem_of_cons in Hr as [->|Hr]; [eexists _, _; split; [reflexivity|split; [discriminate|vm_compute; reflexivity]]|]); by apply not_elem_of_nil in Hr. }
  exists total. done.
Qed.

Lemma segments_valued_together_witness :
  (λ r, (report_date r, attr (fr_Attrs r) "total")) <$> two_summed = [("20260105", "110"); ("20260106", "120")].
Proof.
  destruct (segments_valued_together (F := float64) two_sides two_summed two_sides_total eq_refl) as (Hd & _ & Ht).
  change (nav_dates (nav_side <$> two_sides)) with ["20260105"; "20260106"] in Hd. destruct two_summed as [|r1 [|r2 [|]]]; try discriminate Hd. injection Hd as H1 H2.
  cbn [fmap list_fmap]. rewrite (Ht r1), (Ht r2), H1, H2 by set_solver. vm_compute. reflexivity.
Defined.

End FlexNarrow.
