(* ===== verification/FlexFlows.v ===== *)
(** * The capital flows of a Flex statement

    A day the Cash Report states is read from it alone, and the currency an
    account is given when it declares none. *)

From S2P Require Import Prelude Num GoTime GoText Types Flex FlexRead FlexMerge FlexNarrow.
From stdpp Require Import base gmap strings pretty tactics sorting list.
From Stdlib Require Import ZArith Ascii Lia.
Import Flex FlexRead FlexMerge FlexNarrow.
Local Open Scope Z_scope.

Module FlexFlows.

Section flows.
Context {F : Type} {NF : Num F} {TF : FloatText F}.

(** ** What the Cash Report states of a day *)

(** The day of a row in the base currency that covers one day. *)
Definition row_day (r : flexRow) : option string :=
  if String.eqb (col r "currency") "BASE_SUMMARY" then
    from ← flexDay (col r "fromDate"); to ← flexDay (col r "toDate"); if String.eqb from to then Some from else None
  else None.

Definition states_deposits (r : flexRow) : bool := match row_day r, field_opt (fr_Attrs r) "depositWithdrawals" with Some _, Some _ => true | _, _ => false end.

(** The rows of a day, and the cash they move. *)
Definition rows_of_day (rows : list flexRow) (day : string) : list flexRow := filter (λ r, row_day r = Some day) rows.

Definition move (acc : F) (r : flexRow) : F :=
  let acc := fadd acc (fadd (num r "internalTransfers") (num r "accountTransfers")) in
  match field_opt (fr_Attrs r) "depositWithdrawals" with Some d => fadd acc (float_of d) | None => acc end.

Lemma add_cash_row_spec c r :
  add_cash_row c r = match row_day r with
    | None => c
    | Some day => mkTransfers (<[day := move (default f0 (ct_days c !! day)) r]> (ct_days c)) (ct_datesDeposits c || states_deposits r)
    end.
Proof.
  unfold add_cash_row, row_day, states_deposits, row_day, move, mbind, option_bind. destruct (String.eqb (col r "currency") "BASE_SUMMARY"); [|done]. cbn [negb].
  destruct (flexDay (col r "fromDate")) as [from|]; [|done]. destruct (flexDay (col r "toDate")) as [to|]; [|done]. destruct (String.eqb from to); [|done]. cbn [negb].
  destruct (field_opt _ _); [by rewrite orb_true_r|by rewrite orb_false_r].
Qed.

Lemma transfers_spec rows c :
  (∀ day, ct_days (foldl add_cash_row c rows) !! day =
    match rows_of_day rows day with [] => ct_days c !! day | l => Some (foldl move (default f0 (ct_days c !! day)) l) end) ∧
  ct_datesDeposits (foldl add_cash_row c rows) = ct_datesDeposits c || existsb states_deposits rows.
Proof.
  revert c. induction rows as [|r rows IH]; intros c; cbn [foldl existsb]; [by rewrite orb_false_r|]. destruct (IH (add_cash_row c r)) as [IH1 IH2]. split.
  - intros day. rewrite IH1. unfold rows_of_day at 2. rewrite filter_cons. fold (rows_of_day rows day). rewrite add_cash_row_spec. destruct (row_day r) as [d|] eqn:Er.
    + destruct (decide (d = day)) as [->|Hne].
      * rewrite decide_True by done. cbn [ct_days]. rewrite lookup_insert_eq. by destruct (rows_of_day rows day).
      * rewrite decide_False by congruence. cbn [ct_days]. by rewrite lookup_insert_ne.
    + by rewrite decide_False by done.
  - rewrite IH2, add_cash_row_spec. destruct (row_day r) eqn:Er; cbn [ct_datesDeposits]; [by rewrite orb_assoc|].
    replace (states_deposits r) with false; [done|]. unfold states_deposits. by rewrite Er.
Qed.

(** ** One flow a day *)

Lemma NoDup_fst_filter {A B} (P : A * B → Prop) `{∀ x, Decision (P x)} (l : list (A * B)) : NoDup l.*1 → NoDup (filter P l).*1.
Proof.
  induction l as [|p l IH]; [done|]. rewrite fmap_cons, filter_cons. intros [Hp Hl]%NoDup_cons. destruct (decide (P p)); [|by apply IH]. rewrite fmap_cons. apply NoDup_cons. split; [|by apply IH].
  intros (q & Hq & [_ Hin]%list_elem_of_filter)%list_elem_of_fmap. apply Hp. rewrite Hq. by apply list_elem_of_fmap_2.
Qed.

Lemma filter_one (k : string) l : NoDup l → filter (λ d, d = k) l = if decide (k ∈ l) then [k] else [].
Proof.
  induction 1 as [|d l Hd Hl IH]; [done|]. rewrite filter_cons, IH. destruct (decide (d = k)) as [->|Hne].
  - rewrite decide_False by done. rewrite decide_True by (by left). done.
  - destruct (decide (k ∈ l)); [by rewrite decide_True by (by right)|]. rewrite decide_False; [done|]. intros [?|?]%elem_of_cons; congruence.
Qed.

Lemma flows_of_day c since t :
  modern t → filter (λ cf, FormatCompact (cf_Timestamp cf) = FormatCompact t) (flows c since) =
    match ct_days c !! FormatCompact t with
    | Some total => if feqb total f0 || Before (truncDay t) since then [] else [mkCashflow total "BASE_SUMMARY" (truncDay t)]
    | None => []
    end.
Proof.
  intros Ht. unfold flows. set (pairs := filter _ (map_to_list (ct_days c))). match goal with |- context [omap ?f _] => set (flow := f) end.
  assert (∀ l : list string, filter (λ cf, FormatCompact (cf_Timestamp cf) = FormatCompact t) (omap flow l) = omap flow (filter (λ d, d = FormatCompact t) l)) as Hf.
  { intros l. induction l as [|d l IH]; [done|]. rewrite filter_cons. cbn [omap list_omap].
    assert (∀ cf, flow d = Some cf → FormatCompact (cf_Timestamp cf) = d) as Hd.
    { intros cf. unfold flow, mbind, option_bind. destruct (ParseCompact d) as [ts|] eqn:Ep; [|done]. destruct (Before ts since); [done|]. destruct (ct_days c !! d); [|done]. intros [= <-]. by apply FormatCompact_ParseCompact in Ep as [? _]. }
    destruct (flow d) as [cf|] eqn:E.
    - rewrite filter_cons, (Hd cf eq_refl). destruct (decide (d = FormatCompact t)); [cbn [omap list_omap]; by rewrite E, IH|done].
    - destruct (decide (d = FormatCompact t)); [cbn [omap list_omap]; by rewrite E|done]. }
  rewrite Hf. unfold Strings. change (λ d, d = FormatCompact t) with (λ d : string, id d = FormatCompact t). rewrite sort_str_filter. unfold id.
  rewrite filter_one by apply NoDup_fst_filter, NoDup_fst_map_to_list.
  assert (FormatCompact t ∈ pairs.*1 ↔ ∃ total, ct_days c !! FormatCompact t = Some total ∧ feqb total f0 = false) as Hin.
  { unfold pairs. rewrite list_elem_of_fmap. split.
    - intros ([k v] & -> & [Hv Hm]%list_elem_of_filter). apply elem_of_map_to_list in Hm. by exists v.
    - intros (v & Hm & Hv). exists (FormatCompact t, v). split; [done|]. apply list_elem_of_filter. split; [done|]. by apply elem_of_map_to_list. }
  destruct (ct_days c !! FormatCompact t) as [total|] eqn:Et.
  - destruct (feqb total f0) eqn:E0; cbn [orb].
    + rewrite decide_False; [done|]. intros (v & [= <-] & Hv)%Hin. congruence.
    + rewrite decide_True by (apply Hin; by exists total). cbn [omap list_omap]. unfold flow. rewrite ParseCompact_FormatCompact by done. cbn [mbind option_bind].
      destruct (Before (truncDay t) since); [done|]. by rewrite Et.
  - rewrite decide_False; [done|]. intros (v & ? & _)%Hin. done.
Qed.

Lemma dated_cash_silent levels base since r : flow_of (F := F) (read_cash levels true base since r) = None.
Proof. unfold read_cash. repeat (case_match; try done). Qed.

Lemma inBase_timestamp (amount : F) ccy rate base ts : cf_Timestamp (inBaseCurrency amount ccy rate base ts) = ts.
Proof. unfold inBaseCurrency. by destruct (_ && _)%bool. Qed.

Lemma transfer_uncovered c base since r (cf : Cashflow F) :
  flow_of (read_transfer c base since r) = Some cf → covers c (FormatCompact (cf_Timestamp cf)) = false.
Proof.
  unfold read_transfer. destruct (parseFlexTimestamp _) as [ts|]; [|done]. destruct (Before ts since); [done|]. destruct (covers c (FormatCompact ts)) eqn:E; [done|].
  repeat (case_match; try done); intros [= <-]; by rewrite inBase_timestamp.
Qed.

Lemma omap_none {A B} (f : A → option B) (l : list A) : (∀ x, x ∈ l → f x = None) → omap f l = [].
Proof. induction l as [|x l IH]; intros H; [done|]. cbn [omap list_omap]. rewrite H by (by left). apply IH. intros y Hy. apply H. by right. Qed.

Lemma day_states_deposits rows day :
  rows_of_day rows day ≠ [] → (∀ r, r ∈ rows_of_day rows day → is_Some (field_opt (fr_Attrs r) "depositWithdrawals")) → existsb states_deposits rows = true.
Proof.
  intros Hne Hcol. destruct (rows_of_day rows day) as [|r l] eqn:E; [done|]. assert (r ∈ rows_of_day rows day) as Hr by (rewrite E; by left).
  destruct (Hcol r ltac:(by left)) as [d Hd]. apply existsb_exists. exists r. apply list_elem_of_filter in Hr as [Hday Hr]. split; [by apply list_elem_of_In|].
  unfold states_deposits. by rewrite Hday, Hd.
Qed.

Lemma day_total (l : list flexRow) (acc : F) :
  (∀ r, r ∈ l → is_Some (field_opt (fr_Attrs r) "depositWithdrawals")) →
  foldl (λ acc r, fadd (fadd acc (fadd (num r "internalTransfers") (num r "accountTransfers"))) (num r "depositWithdrawals")) acc l = foldl move acc l.
Proof.
  revert acc. induction l as [|r l IH]; intros acc H; [done|]. cbn [foldl]. rewrite IH by (intros; apply H; by right). f_equal. unfold move. cbn zeta.
  destruct (H r ltac:(by left)) as [d Hd]. rewrite Hd. unfold num, col, field. by rewrite Hd.
Qed.

(** C38: a day whose deposits the Cash Report states is counted once.  For a
    day that has rows of its own in the Cash Report, in the base currency and
    over that one day, each with the column depositWithdrawals: the flows of
    the day are exactly one, of the internal transfers, the account transfers
    and the deposits its rows add up to (none when they add up to zero or the
    day is before the window), and no row of Cash Transactions or Transfers
    adds to it.  A day whose own rows lack the column is not claimed: it loses
    its deposits when another day's row has it ([undated_deposit_lost]). *)
Theorem covered_day_counted_once stmts since t (cfs : list (Cashflow F)) warnings :
  modern t → cashflowsFromReport (FlexQueryResponse stmts) since = Ok (cfs, warnings) →
  let rows := report_rows stmts "CashReport" "CashReportCurrency" in
  let day := FormatCompact t in
  rows_of_day rows day ≠ [] → (∀ r, r ∈ rows_of_day rows day → is_Some (field_opt (fr_Attrs r) "depositWithdrawals")) →
  let total := foldl (λ acc r, fadd (fadd acc (fadd (num r "internalTransfers") (num r "accountTransfers"))) (num r "depositWithdrawals")) f0
                 (rows_of_day rows day) in
  filter (λ cf, FormatCompact (cf_Timestamp cf) = day) cfs =
    if feqb total f0 || Before (truncDay t) since then [] else [mkCashflow total "BASE_SUMMARY" (truncDay t)].
Proof.
  intros Ht H rows day Hrows Hcol total0.
  assert (existsb states_deposits rows = true) as Hdep by (by apply (day_states_deposits rows day)).
  set (total := foldl move f0 (rows_of_day rows day)). assert (total0 = total) as -> by (by apply day_total). unfold cashflowsFromReport, readings in H. fold rows in H. set (c := dailyCashReportTransfers rows) in H. set (base := statementCurrency _) in H.
  injection H as <- <-. destruct (transfers_spec rows (mkTransfers ∅ false)) as [Hdays Hdates]. fold (dailyCashReportTransfers rows) in Hdays, Hdates. fold c in Hdays, Hdates. cbn [ct_datesDeposits orb] in Hdates.
  assert (ct_days c !! day = Some total) as Hday.
  { rewrite Hdays. cbn [ct_days]. rewrite lookup_empty. unfold total. destruct (rows_of_day rows day); done. }
  subst day. rewrite omap_app, !filter_app, flows_of_day by done. rewrite Hday, Hdates, Hdep.
  rewrite (omap_none flow_of (_ <$> cash_rows stmts)) by (intros x (r & -> & _)%list_elem_of_fmap; apply dated_cash_silent).
  rewrite (filter_none _ (omap flow_of (_ <$> transfer_rows stmts))); [done|].
  intros cf (x & (r & -> & _)%list_elem_of_fmap & Hcf)%list_elem_of_omap E. apply transfer_uncovered in Hcf. rewrite E in Hcf. unfold covers in Hcf. rewrite Hday in Hcf. by vm_compute in Hcf.
Qed.

(** ** The currency of an account that declares none *)

Lemma agree_spec l seen : seen ≠ "" → (∀ x, x ∈ l → x ≠ "") → foldl agree (Some seen) l = if decide (Forall (λ x, x = seen) l) then Some seen else None.
Proof.
  intros Hs. assert (∀ l, foldl agree None l = None) as Hnone by (intros l'; by induction l').
  induction l as [|x l IH]; intros Hl; cbn [foldl]; [done|].
  unfold agree at 2. cbn [mbind option_bind]. rewrite (proj2 (String.eqb_neq _ _) Hs). cbn [negb andb]. destruct (String.eqb_spec seen x) as [<-|Hne]; cbn [negb].
  - rewrite IH by (intros; apply Hl; by right). destruct (decide (Forall (λ x, x = seen) l)) as [Hall|Hno].
    + by rewrite decide_True by (by constructor).
    + rewrite decide_False; [done|]. by intros [_ ?]%Forall_cons.
  - rewrite Hnone, decide_False; [done|]. by intros [? _]%Forall_cons.
Qed.

Lemma funding_named stmts x : x ∈ funding_currencies (F := F) stmts → x ≠ "".
Proof.
  unfold funding_currencies. intros [(r & Hx & _)%list_elem_of_bind|(r & Hx & _)%list_elem_of_bind]%elem_of_app.
  - destruct (_ || _)%bool; [by apply not_elem_of_nil in Hx|]. destruct (String.eqb_spec (col r "currency") ""); [by apply not_elem_of_nil in Hx|]. by apply list_elem_of_singleton in Hx as ->.
  - destruct (feqb _ _ || String.eqb (col r "currency") "") eqn:E; [by apply not_elem_of_nil in Hx|]. apply orb_false_iff in E as [_ E%String.eqb_neq]. by apply list_elem_of_singleton in Hx as ->.
Qed.

(** A currency is inferred only from unanimous funding.  An account that declares no currency is given one exactly
    when some deposit, withdrawal or transfer of cash names a currency and all of them name that one. *)
Theorem inferred_currency_unanimous stmts ccy :
  accountCurrency (F := F) "" (FlexQueryResponse stmts) = (ccy, true) ↔
    funding_currencies (F := F) stmts ≠ [] ∧ ∀ x, x ∈ funding_currencies (F := F) stmts → x = ccy.
Proof.
  unfold accountCurrency. cbn [String.eqb negb]. pose proof (funding_named stmts) as Hn. destruct (funding_currencies stmts) as [|x l]; [cbn; split; [done|by intros []]|].
  assert (x ≠ "") as Hx by (apply Hn; by left). cbn [foldl]. unfold agree at 2. cbn [mbind option_bind String.eqb negb andb]. rewrite agree_spec; [|done|intros; apply Hn; by right].
  destruct (decide (Forall (λ y, y = x) l)) as [Hall|Hno].
  - rewrite Forall_forall in Hall. rewrite (proj2 (String.eqb_neq _ _) Hx). split.
    + intros [= <-]. split; [done|]. by intros y [->|Hy%Hall]%elem_of_cons.
    + intros [_ H]. by rewrite (H x) by (by left).
  - split; [done|]. intros [_ H]. destruct Hno. apply Forall_forall. intros y Hy. rewrite (H y), (H x); [done|by left|by right].
Qed.

(** ** The live balance and the history *)

(** The live balance of a report is the last day of its history.  When the last row is dated inside the window, has a
    value and the account has a currency, the history ends with that day at that value, in the currency, with the
    rates and the breakdown of the balance. *)
Theorem live_is_last_day (i i' : IBKR F) stmts since now b hs warnings r d :
  last (summary_rows stmts) = Some r → ParseCompact (col r "reportDate") = Some d → Before d since = false → feqb (num r "total" : F) f0 = false →
  (accountCurrency (F := F) (col r "currency") (FlexQueryResponse stmts)).1 ≠ "" →
  parseBalanceFromReport i (FlexQueryResponse stmts) = (i', Ok b) → historicalSnapshotsFromReport (FlexQueryResponse stmts) since now = Ok (hs, warnings) →
  ∃ h, last hs = Some h ∧ hs_TotalEquity h = bal_Equity b ∧ hs_Currency h = bal_Currency b ∧ hs_BaseRates h = bal_BaseRates b ∧
    hs_Date h = ib_cachedBalanceAsOf i' ∧ (hs_Breakdown h).*2 = ib_cachedBreakdown i'.
Proof.
  intros Hr Hd Hb Hz Hccy HB HH. unfold parseBalanceFromReport in HB. unfold historicalSnapshotsFromReport in HH. rewrite Hr in HB, HH. rewrite Hd in HB. change (default zero_time (Some d)) with d in HB.
  destruct (accountCurrency (col r "currency") (FlexQueryResponse stmts)) as [ccy inferred]. cbn [fst] in Hccy, HH. rewrite (proj2 (String.eqb_neq _ _) Hccy) in HB. injection HB as <- <-.
  destruct (match cashflowsFromReport _ _ with Ok x => x | Err _ => _ end) as [cfs ws]. injection HH as <- _.
  set (f := history_day _ _ _ _ _). assert (∃ h, f r = Some h) as [h Hh].
  { unfold f, history_day. rewrite Hd. cbn [mbind option_bind]. rewrite Hb, Hz. cbn [orb]. by eexists. }
  exists h. assert (last (omap f (summary_rows stmts)) = Some h) as ->.
  { apply last_Some in Hr as [l ->]. rewrite omap_app, last_app. cbn [omap list_omap]. by rewrite Hh. }
  unfold f, history_day in Hh. rewrite Hd in Hh. cbn [mbind option_bind] in Hh. rewrite Hb, Hz in Hh. cbn [orb] in Hh. injection Hh as <-.
  split_and!; [done..| |].
  - cbn [hs_Date ib_cachedBalanceAsOf]. by apply FormatCompact_ParseCompact in Hd as [_ ?].
  - cbn [hs_Breakdown ib_cachedBreakdown]. rewrite <- list_fmap_compose. by apply list_fmap_id.
Qed.

End flows.

(** ** Samples *)

#[local] Existing Instance whole_text.

Definition report_day (date deposits : string) : flexRow :=
  mkRow "CashReportCurrency" [("currency", "BASE_SUMMARY"); ("fromDate", date); ("toDate", date); ("internalTransfers", "5"); ("accountTransfers", "0"); ("depositWithdrawals", deposits)] "".

Definition deposit_on (date amount : string) : flexRow :=
  mkRow "CashTransaction" [("type", "Deposits/Withdrawals"); ("currency", "EUR"); ("amount", amount); ("reportDate", date)] "".

Definition valued_on (date total : string) : flexRow :=
  mkRow "EquitySummaryByReportDateInBase" [("reportDate", date); ("currency", "EUR"); ("total", total)] "".

(** The Cash Report of the first day, and a deposit on each. *)
Definition two_days_funded : list flexStatementBlock :=
  [mkBlock [("accountId", "U1")]
    [mkSection "EquitySummaryInBase" [] [valued_on "20260105" "100"; valued_on "20260106" "160"];
     mkSection "CashReport" [] [report_day "20260105" "40"];
     mkSection "CashTransactions" [] [deposit_on "20260105" "40"; deposit_on "20260106" "50"]]].

Definition jan5 : time := default 0 (ParseCompact "20260105").

Definition funded_flows : list (Cashflow float64) := match cashflowsFromReport (FlexQueryResponse two_days_funded) 0 with Ok (l, _) => l | Err _ => [] end.

Lemma covered_day_counted_once_witness :
  filter (λ cf, FormatCompact (cf_Timestamp cf) = "20260105") funded_flows = [mkCashflow (fofZ 45) "BASE_SUMMARY" jan5].
Proof.
  assert (modern jan5) as Hm by (vm_compute; split; [discriminate|reflexivity]).
  pose proof (covered_day_counted_once (F := float64) two_days_funded 0 jan5 funded_flows [] Hm eq_refl ltac:(vm_compute; discriminate)
    ltac:(replace (rows_of_day _ _) with [report_day "20260105" "40"] by (vm_compute; reflexivity); intros r ->%list_elem_of_singleton; vm_compute; by eexists)) as H.
  change (FormatCompact jan5) with "20260105" in H. rewrite H. vm_compute. reflexivity.
Defined.

(** Once one row of the Cash Report has a column of deposits, a deposit on a day
    the Cash Report does not cover is in no flow. *)
Lemma deposit_lost : omap (λ cf, Some (FormatCompact (cf_Timestamp cf))) funded_flows = ["20260105"].
Proof. vm_compute. reflexivity. Qed.

(** A row without the column, and a deposit on its day, beside another day's row
    that has it: the deposit is in no flow. *)
Definition column_missing : list flexStatementBlock :=
  [mkBlock [("accountId", "U1")]
    [mkSection "EquitySummaryInBase" [] [valued_on "20260105" "100"; valued_on "20260106" "160"];
     mkSection "CashReport" [] [report_day "20260105" "40";
       mkRow "CashReportCurrency" [("currency", "BASE_SUMMARY"); ("fromDate", "20260106"); ("toDate", "20260106"); ("internalTransfers", "0"); ("accountTransfers", "0")] ""];
     mkSection "CashTransactions" [] [deposit_on "20260106" "50"]]].

Lemma undated_deposit_lost :
  match cashflowsFromReport (F := float64) (FlexQueryResponse column_missing) 0 with
  | Ok (l, _) => omap (λ cf, Some (FormatCompact (cf_Timestamp cf))) l
  | Err _ => []
  end = ["20260105"].
Proof. vm_compute. reflexivity. Qed.

Definition sample_ibkr : IBKR float64 := mkIBKR "token" "query" [] "" "" "" [] [] None 0.

Lemma live_is_last_day_witness :
  ∃ i b hs warnings h, parseBalanceFromReport sample_ibkr (FlexQueryResponse two_days_funded) = (i, Ok b) ∧
    historicalSnapshotsFromReport (FlexQueryResponse two_days_funded) 0 jan5 = Ok (hs, warnings) ∧
    last hs = Some h ∧ hs_TotalEquity h = fofZ 160 ∧ bal_Currency b = "EUR" ∧ hs_Currency h = bal_Currency b.
Proof.
  pose (p := parseBalanceFromReport sample_ibkr (FlexQueryResponse two_days_funded)).
  pose (h := historicalSnapshotsFromReport (F := float64) (FlexQueryResponse two_days_funded) 0 jan5).
  pose (b := match p.2 with Ok b => b | Err _ => mkBalance f0 f0 f0 "" ∅ end). pose (hw := match h with Ok x => x | Err _ => ([], []) end).
  destruct (live_is_last_day sample_ibkr p.1 two_days_funded 0 jan5 b hw.1 hw.2 (valued_on "20260106" "160") (jan5 + Day)) as (x & Hx & He & Hc & _);
    [vm_compute; reflexivity..|vm_compute; discriminate|vm_compute; reflexivity|vm_compute; reflexivity|].
  exists p.1, b, hw.1, hw.2, x. split_and!; [vm_compute; reflexivity|vm_compute; reflexivity|done|rewrite He; vm_compute; reflexivity|vm_compute; reflexivity|done].
Defined.

End FlexFlows.
