(* ===== verification/Connect.v ===== *)
(** * Connecting an account (internal/service/connection.go, broker_accounts.go,
    internal/repository/connection.go, internal/connector/connect_error.go)

    What happens when a user connects a broker: the credentials are tried, the
    accounts they measure are compared with those of the user's other
    connections, and the row is written with its secrets encrypted.  A
    connection is then pinned to the accounts its history was built from.

    The connectors are a parameter ([factory]), and so is SHA-256. *)

From S2P Require Import Prelude Num GoTime GoText Types Returns Store Window Connections Encoding Vault.
From stdpp Require Import base gmap strings pretty tactics sorting list.
From Stdlib Require Import ZArith Ascii Lia.
Import Encoding.
Local Open Scope Z_scope.

Module Connect.

(** ** Why a credential test failed (connect_error.go, iprestriction.go) *)

(** An error of a connector: its text and the sentinels it wraps. *)
Record conn_error := mkConnError { ce_text : string; ce_transient : bool; ce_ipRestricted : bool }.

Definition ErrIPRestricted : string := "ip not whitelisted".
Definition ErrUnknownServer : string := "broker server name not recognized".

Definition ipRestrictionMarkers : list string :=
  ["ip, or permissions"; "invalid ip"; "ip mismatch"; "ip not in whitelist"; "ip is not in"; "not in the whitelist"; "unmatched ip"; "ip address is not"].

Definition IsIPRestriction (e : conn_error) : bool :=
  ce_ipRestricted e || existsb (Contains (ToLower (ce_text e))) ipRestrictionMarkers.

Inductive ConnectFailure :=
| ConnectFailureCredentials
| ConnectFailureUpstream
| ConnectFailureNotConfigured
| ConnectFailureNoAccount
| ConnectFailureUnknownServer.

#[global] Instance connect_failure_dec : EqDecision ConnectFailure.
Proof. solve_decision. Defined.

Definition connectFailureMarkers : list (string * ConnectFailure) :=
  [("unknown_server", ConnectFailureUnknownServer);
   ("ctrader_client_id", ConnectFailureNotConfigured); ("ctrader client credentials", ConnectFailureNotConfigured);
   ("no ctrader accounts found", ConnectFailureNoAccount); ("no trading account", ConnectFailureNoAccount);
   ("access_denied", ConnectFailureCredentials); ("invalid_grant", ConnectFailureCredentials); ("token refresh rejected", ConnectFailureCredentials);
   ("access_token_invalid", ConnectFailureCredentials); ("cant_route_request", ConnectFailureCredentials); ("invalid credentials", ConnectFailureCredentials);
   ("invalid api key", ConnectFailureCredentials); ("invalid signature", ConnectFailureCredentials); ("unauthorized", ConnectFailureCredentials);
   ("permission denied", ConnectFailureCredentials);
   ("blocked_payload_type", ConnectFailureUpstream); ("rate limit", ConnectFailureUpstream); ("rate-limited", ConnectFailureUpstream);
   ("too many requests", ConnectFailureUpstream); ("http 429", ConnectFailureUpstream); ("(429)", ConnectFailureUpstream);
   ("no such host", ConnectFailureUpstream); ("connection refused", ConnectFailureUpstream); ("connection reset", ConnectFailureUpstream);
   ("i/o timeout", ConnectFailureUpstream); ("timeout", ConnectFailureUpstream); ("deadline exceeded", ConnectFailureUpstream);
   ("tls handshake", ConnectFailureUpstream); ("eof", ConnectFailureUpstream); ("websocket: bad handshake", ConnectFailureUpstream);
   ("dial tcp", ConnectFailureUpstream); ("bad gateway", ConnectFailureUpstream); ("service unavailable", ConnectFailureUpstream);
   ("http 502", ConnectFailureUpstream); ("http 503", ConnectFailureUpstream); ("http 504", ConnectFailureUpstream);
   ("maintenance", ConnectFailureUpstream)].

Definition ClassifyConnectFailure (e : conn_error) : ConnectFailure :=
  match find_first (λ m, Contains (ToLower (ce_text e)) m.1) connectFailureMarkers with
  | Some m => m.2
  | None => ConnectFailureCredentials
  end.

(** ** The table *)

Record row := mkRow {
  rw_vault : Vault.Connection;
  rw_label : string;
  rw_hash : string;
  rw_interval : Z;
  rw_exclude : bool;
  rw_active : bool;
  rw_createdAt : time;
  rw_updatedAt : time;
  rw_requestedAt : option time;
  rw_pinned : option string;
}.

Definition rw_id (x : row) : string := Vault.cn_ID (rw_vault x).
Definition rw_user (x : row) : string := Vault.cn_UserUID (rw_vault x).
Definition rw_exchange (x : row) : string := Vault.cn_Exchange (rw_vault x).

(** What the schema has: [capabilities] is what the probes of a process found. *)
Record capabilities := mkCaps {
  cap_isTSSchema : bool;
  cap_credentialsHash : bool;
  cap_syncIntervalMins : bool;
  cap_excludeFromReport : bool;
  cap_isPaper : bool;
  cap_rebuildRequestedAt : bool;
  cap_brokerAccounts : bool;
}.

Definition tsColumnMap : list (string * string) :=
  [("user_uid", "userUid"); ("encrypted_api_key", "encryptedApiKey"); ("encrypted_api_secret", "encryptedApiSecret");
   ("encrypted_passphrase", "encryptedPassphrase"); ("credentials_hash", "credentialsHash"); ("is_active", "isActive");
   ("sync_interval_minutes", "syncIntervalMinutes"); ("exclude_from_report", "excludeFromReport"); ("is_paper", "isPaper");
   ("kyc_level", "kycLevel"); ("created_at", "createdAt"); ("updated_at", "updatedAt"); ("rebuild_finalized_at", "rebuildFinalizedAt");
   ("rebuild_requested_at", "rebuildRequestedAt"); ("broker_accounts", "brokerAccounts")].

Definition colName (ts : bool) (snake : string) : string :=
  if negb ts then snake else match find_first (λ p, String.eqb p.1 snake) tsColumnMap with Some p => p.2 | None => snake end.

(** One round of probes: a probe that fails reads as an absent column, and the
    answers are kept only when none failed. *)
Definition getCapabilityFlags (probe : string → res bool) : capabilities * bool :=
  let found column := match probe column with Ok b => b | Err _ => false end in
  let ts := found "userUid" in
  let col name := found (colName ts name) in
  let probed := "userUid" :: (colName ts <$> ["credentials_hash"; "sync_interval_minutes"; "exclude_from_report"; "kyc_level"; "is_paper";
                                               "rebuild_finalized_at"; "rebuild_requested_at"; "broker_accounts"]) in
  (mkCaps ts (col "credentials_hash") (col "sync_interval_minutes") (col "exclude_from_report") (col "is_paper") (col "rebuild_requested_at") (col "broker_accounts"),
   forallb (λ c, is_ok (probe c)) probed).

(** The statements of a call, each of which may fail; [de_undefined] is the
    code 42703. *)
Inductive statement := SLookup | SDup | SOthers | SInsert | SSetPins | SReadPins | SPaper | SRotationLookup | SRotation | SHash | SConsent.

Record db_error := mkDbError { de_undefined : bool; de_text : string }.

Abbreviation faults := (statement → option db_error).

Inductive lookup := Found (x : row) | NotFound | Failed (e : string).

Definition has_label (user exchange label : string) (x : row) : bool :=
  String.eqb (rw_user x) user && String.eqb (rw_exchange x) exchange && String.eqb (Connections.TRIM (rw_label x)) (Connections.TRIM label) && rw_active x.

Definition with_vault (v : Vault.Connection) (x : row) : row :=
  mkRow v (rw_label x) (rw_hash x) (rw_interval x) (rw_exclude x) (rw_active x) (rw_createdAt x) (rw_updatedAt x) (rw_requestedAt x) (rw_pinned x).

Definition with_paper (b : bool) (v : Vault.Connection) : Vault.Connection :=
  Vault.mkConn (Vault.cn_ID v) (Vault.cn_UserUID v) (Vault.cn_Exchange v) b (Vault.cn_EncryptedAPIKey v) (Vault.cn_APIKeyIV v) (Vault.cn_APIKeyAuthTag v)
    (Vault.cn_EncryptedAPISecret v) (Vault.cn_APISecretIV v) (Vault.cn_APISecretAuthTag v) (Vault.cn_EncryptedPassphrase v) (Vault.cn_PassphraseIV v) (Vault.cn_PassphraseAuthTag v).

(** The columns the lookup reads: on the Go schema the paper flag is not one. *)
Definition read_columns (c : capabilities) (x : row) : row :=
  mkRow (with_paper (cap_isTSSchema c && cap_isPaper c && Vault.cn_IsPaper (rw_vault x)) (rw_vault x)) (rw_label x) "" 0 false (rw_active x)
    (rw_createdAt x) (rw_updatedAt x) None None.

Definition GetByUserExchangeLabel (st : statement) (db : faults) (c : capabilities) (rows : list row) (user exchange label : string) : lookup :=
  match db st with
  | Some e => Failed (de_text e)
  | None => match find_first (has_label user exchange label) rows with Some x => Found (read_columns c x) | None => NotFound end
  end.

Definition ExistsActiveByCredentialsHash (db : faults) (c : capabilities) (rows : list row) (user hash : string) : res bool :=
  if String.eqb user "" || String.eqb hash "" then Ok false
  else if negb (cap_credentialsHash c) then Ok false
  else match db SDup with
  | Some e => if de_undefined e then Ok false else Err (de_text e)
  | None => Ok (existsb (λ x, String.eqb (rw_user x) user && String.eqb (rw_hash x) hash && rw_active x) rows)
  end.

(** An UPDATE of the row with an id: the rows after, and how many matched. *)
Definition update_id (f : row → row) (id : string) (rows : list row) : list row := (λ x, if String.eqb (rw_id x) id then f x else x) <$> rows.

Definition matched (p : row → bool) (rows : list row) : nat := length (filter (λ x, p x = true) rows).

Definition update_one (what : string) (fault : option db_error) (f : row → row) (id : string) (rows : list row) : list row * res unit :=
  match fault with
  | Some e => (rows, Err (what +:+ ": " +:+ de_text e))
  | None => if Nat.eqb (matched (λ x, String.eqb (rw_id x) id) rows) 0 then (rows, Err Store.ErrNotFound) else (update_id f id rows, Ok tt)
  end.

Definition UpdateIsPaper (db : faults) (c : capabilities) (now : time) (id : string) (isPaper : bool) (rows : list row) : list row * res unit :=
  if String.eqb (TrimSpace id) "" then (rows, Ok tt)
  else if negb (cap_isPaper c) then (rows, Ok tt)
  else update_one "update is paper" (db SPaper)
         (λ x, mkRow (with_paper isPaper (rw_vault x)) (rw_label x) (rw_hash x) (rw_interval x) (rw_exclude x) (rw_active x) (rw_createdAt x) now (rw_requestedAt x) (rw_pinned x)) id rows.

Definition UpdateCredentialsHash (db : faults) (c : capabilities) (now : time) (id hash : string) (rows : list row) : list row * res unit :=
  if String.eqb (TrimSpace id) "" then (rows, Ok tt)
  else if negb (cap_credentialsHash c) then (rows, Ok tt)
  else if match db SHash with Some e => de_undefined e | None => false end then (rows, Ok tt)
  else update_one "update credentials hash" (db SHash)
         (λ x, mkRow (rw_vault x) (rw_label x) hash (rw_interval x) (rw_exclude x) (rw_active x) (rw_createdAt x) now (rw_requestedAt x) (rw_pinned x)) id rows.

Definition MarkRebuildRequested (db : faults) (c : capabilities) (id : string) (at_ : time) (rows : list row) : list row * res unit :=
  if negb (cap_rebuildRequestedAt c) then (rows, Ok tt)
  else update_one "mark rebuild requested" (db SConsent)
         (λ x, mkRow (rw_vault x) (rw_label x) (rw_hash x) (rw_interval x) (rw_exclude x) (rw_active x) (rw_createdAt x) (rw_updatedAt x) (Some at_) (rw_pinned x)) id rows.

Definition with_pin (pinned : string) (x : row) : row :=
  mkRow (rw_vault x) (rw_label x) (rw_hash x) (rw_interval x) (rw_exclude x) (rw_active x) (rw_createdAt x) (rw_updatedAt x) (rw_requestedAt x)
    (if String.eqb pinned "" then None else Some pinned).

Definition SetBrokerAccounts (db : faults) (c : capabilities) (id pinned : string) (rows : list row) : list row * res unit :=
  if negb (cap_brokerAccounts c) then (rows, Ok tt) else update_one "set broker accounts" (db SSetPins) (with_pin pinned) id rows.

Definition BrokerAccounts (db : faults) (c : capabilities) (id : string) (rows : list row) : res string :=
  if negb (cap_brokerAccounts c) then Ok ""
  else match db SReadPins with
  | Some e => Err ("read broker accounts: " +:+ de_text e)
  | None => match find_first (λ x, String.eqb (rw_id x) id) rows with Some x => Ok (default "" (rw_pinned x)) | None => Err Store.ErrNotFound end
  end.

(** By trimmed label; a later row of a label replaces an earlier one. *)
Definition pinned_labels (user exchange : string) (rows : list row) : gmap string string :=
  foldl (λ m x, match rw_pinned x with
    | Some p => if String.eqb (rw_user x) user && String.eqb (rw_exchange x) exchange && rw_active x then <[Connections.TRIM (rw_label x) := p]> m else m
    | None => m
    end) ∅ rows.

Definition BrokerAccountsByUser (db : faults) (c : capabilities) (user exchange : string) (rows : list row) : res (gmap string string) :=
  if negb (cap_brokerAccounts c) then Ok ∅
  else match db SOthers with Some e => Err ("list broker accounts: " +:+ de_text e) | None => Ok (pinned_labels user exchange rows) end.

(** The keys of the connections left out of reports, disconnected ones included. *)
Definition GetExcludedConnectionKeysByUser (fault : option string) (c : capabilities) (rows : list row) (user : string) : res (gset string) :=
  if negb (cap_excludeFromReport c) then Ok ∅
  else match fault with
  | Some e => Err e
  | None => Ok (list_to_set ((λ x, Returns.snapshotConnectionKey (rw_exchange x) (rw_label x)) <$> filter (λ x, String.eqb (rw_user x) user && rw_exclude x = true) rows))
  end.

Definition Deactivate (fault : option db_error) (now : time) (id : string) (rows : list row) : list row * res unit :=
  match fault with
  | Some e => (rows, Err (de_text e))
  | None => (update_id (λ x, mkRow (rw_vault x) (rw_label x) (rw_hash x) (rw_interval x) (rw_exclude x) false (rw_createdAt x) now (rw_requestedAt x) (rw_pinned x)) id rows, Ok tt)
  end.

(** ** Inserting a row *)

Inductive inserted := Inserted (id : string) (rows : list row) | Duplicate | InsertFailed (e : string).

(** [unique] is the unique constraint of the schema, [dbid] the id the database
    gives a row of the Go schema. *)
Definition create_row (db : faults) (c : capabilities) (unique : list row → row → bool) (dbid : string) (now : time) (rows : list row) (x : row) : inserted :=
  let v := rw_vault x in
  let iv_set := existsb (λ s, negb (String.eqb s ""))
    [Vault.cn_APIKeyIV v; Vault.cn_APIKeyAuthTag v; Vault.cn_APISecretIV v; Vault.cn_APISecretAuthTag v; Vault.cn_PassphraseIV v; Vault.cn_PassphraseAuthTag v] in
  if cap_isTSSchema c && (String.eqb (Vault.cn_EncryptedAPIKey v) "" || String.eqb (Vault.cn_EncryptedAPISecret v) "") then
    InsertFailed "createTS: encrypted credentials missing — service must encrypt with EncryptTSString before calling"
  else if cap_isTSSchema c && iv_set then InsertFailed "createTS: IV/AuthTag fields must be empty for TS schema (use EncryptTSString, not EncryptString)"
  else
    let id := if cap_isTSSchema c then Vault.cn_ID v else dbid in
    let v := Vault.mkConn id (Vault.cn_UserUID v) (Vault.cn_Exchange v) (cap_isPaper c && Vault.cn_IsPaper v) (Vault.cn_EncryptedAPIKey v) (Vault.cn_APIKeyIV v)
      (Vault.cn_APIKeyAuthTag v) (Vault.cn_EncryptedAPISecret v) (Vault.cn_APISecretIV v) (Vault.cn_APISecretAuthTag v) (Vault.cn_EncryptedPassphrase v)
      (Vault.cn_PassphraseIV v) (Vault.cn_PassphraseAuthTag v) in
    let x := mkRow v (rw_label x) (if cap_credentialsHash c then rw_hash x else "")
      (if cap_syncIntervalMins c then if rw_interval x <=? 0 then 1440 else rw_interval x else 1440)
      (cap_excludeFromReport c && rw_exclude x) true now now None None in
    match db SInsert with
    | Some e => InsertFailed (de_text e)
    | None => if unique rows x then Duplicate else Inserted id (rows ++ [x])
    end.

(** Migration 004: one active row for a user, an exchange and a label. *)
Definition go_unique (rows : list row) (x : row) : bool :=
  existsb (λ y, String.eqb (rw_user y) (rw_user x) && String.eqb (rw_exchange y) (rw_exchange x) && String.eqb (rw_label y) (rw_label x) && rw_active y) rows.

(** ** The service *)

(** The tokens replace the key and the secret; on the Go schema the columns of
    their nonces and tags are cleared. *)
Definition set_tokens (c : capabilities) (now : time) (access refresh : string) (x : row) : row :=
  let v := rw_vault x in
  let cleared old := if cap_isTSSchema c then old else "" in
  mkRow (Vault.mkConn (Vault.cn_ID v) (Vault.cn_UserUID v) (Vault.cn_Exchange v) (Vault.cn_IsPaper v) access (cleared (Vault.cn_APIKeyIV v)) (cleared (Vault.cn_APIKeyAuthTag v))
           refresh (cleared (Vault.cn_APISecretIV v)) (cleared (Vault.cn_APISecretAuthTag v)) (Vault.cn_EncryptedPassphrase v) (Vault.cn_PassphraseIV v) (Vault.cn_PassphraseAuthTag v))
    (rw_label x) (rw_hash x) (rw_interval x) (rw_exclude x) (rw_active x) (rw_createdAt x) now (rw_requestedAt x) (rw_pinned x).

(** The verb %q: a text between quotes, with what is not printable escaped; a
    byte of a rune above ASCII is kept, as the printable runes are. *)
Definition quote_byte (c : ascii) : string :=
  let n := N_of_ascii c in
  let esc d := String (ascii_of_N 92) (String d "") in
  match n with
  | 7%N => esc "a"%char | 8%N => esc "b"%char | 9%N => esc "t"%char | 10%N => esc "n"%char | 11%N => esc "v"%char | 12%N => esc "f"%char | 13%N => esc "r"%char
  | 34%N | 92%N => esc c
  | _ => if (n <? 32)%N || (n =? 127)%N then esc "x"%char +:+ hex_encode (String c "") else String c ""
  end.

Definition Quote (s : string) : string :=
  let q := String (ascii_of_N 34) "" in q +:+ String.concat "" (quote_byte <$> String.list_ascii_of_string s) +:+ q.

Definition UpdateOAuthTokens (db : faults) (c : capabilities) (now : time) (user exchange label access refresh : string) (rows : list row) : list row * res unit :=
  match db SRotation with
  | Some e => (rows, Err (de_text e))
  | None =>
      let n := matched (has_label user exchange label) rows in
      ((λ x, if has_label user exchange label x then set_tokens c now access refresh x else x) <$> rows,
       if Nat.eqb n 1 then Ok tt
       else Err ("update oauth tokens for " +:+ user +:+ "/" +:+ exchange +:+ "/" +:+ Quote label +:+ " matched " +:+ pretty n +:+ " active rows, want 1"))
  end.

Record CreateConnectionRequest := mkRequest {
  rq_UserUID : string;
  rq_Exchange : string;
  rq_Label : string;
  rq_APIKey : string;
  rq_APISecret : string;
  rq_Passphrase : string;
  rq_SyncIntervalMinutes : Z;
  rq_ExcludeFromReport : bool;
  rq_RebuildHistory : bool;
}.

(** A connector as the connect path sees it: the answer of TestConnection, then
    the accounts and tokens it holds, then the answer of DetectIsPaper and the
    tokens it holds after it.  [None] where it does not implement the interface. *)
Record test_conn := mkTestConn {
  tc_TestConnection : option conn_error;
  tc_MeasuredAccounts : option (list string);
  tc_CurrentCredentials : option (string * string);
  tc_DetectIsPaper : option (res bool);
  tc_CurrentCredentials_after : option (string * string);
}.

(** The callback after a connect: whom for, whether the first snapshot is taken
    and whether the history is rebuilt. *)
Record hooks := mkHooks { hk_user : string; hk_exchange : string; hk_label : string; hk_sync : bool; hk_rebuild : bool }.

Record MetadataCapture := mkCapture { mc_IsPaper : bool; mc_PaperProbed : bool; mc_Err : list string }.

Definition normalizeSyncIntervalMinutes (value : Z) : Z := if value <=? 0 then 1440 else value.

Definition isOAuthExchange (exchange : string) : bool := String.eqb exchange "ctrader".

Definition effectiveOAuthCredentials (held : option (string * string)) (access refresh : string) : string * string :=
  match held with
  | None => (access, refresh)
  | Some (a, r) => (if String.eqb (TrimSpace a) "" then access else a, if String.eqb (TrimSpace r) "" then refresh else r)
  end.

Definition ErrConnectionAlreadyExists : string := "connection already exists".
Definition ExistingConnectionNoopMessage : string := "User connection already exists (no action taken)".
Definition already_exists : string := ErrConnectionAlreadyExists +:+ ": " +:+ ExistingConnectionNoopMessage.

(** What a failed test means for a new connection: [None] saves it anyway. *)
Definition connect_refusal (exchange : string) (e : conn_error) : option string :=
  if ce_transient e then None
  else if IsIPRestriction e then Some (ErrIPRestricted +:+ ": " +:+ ce_text e)
  else match ClassifyConnectFailure e with
  | ConnectFailureUnknownServer => Some (ErrUnknownServer +:+ ": " +:+ ce_text e)
  | ConnectFailureCredentials => Some ("invalid credentials: " +:+ ce_text e)
  | ConnectFailureUpstream => if isOAuthExchange exchange then None else Some (ce_text e)
  | _ => Some (ce_text e)
  end.

(** And for new tokens of an existing one. *)
Definition reauthValidationOutcome (e : conn_error) : option string :=
  if IsIPRestriction e then Some (ErrIPRestricted +:+ ": " +:+ ce_text e)
  else if ce_transient e then None
  else match ClassifyConnectFailure e with
  | ConnectFailureUpstream => None
  | ConnectFailureCredentials => Some ("invalid credentials: " +:+ ce_text e)
  | _ => Some (ce_text e)
  end.

Definition dispatchPostCreateHooks (syncHook rebuildHook : bool) (user exchange label : string) (rebuild : bool) : option hooks :=
  let runRebuild := rebuild && rebuildHook in
  if negb syncHook && negb runRebuild then None else Some (mkHooks user exchange label syncHook runRebuild).

Definition ErrBrokerAccountsChanged : string := "broker_accounts_changed: the statement covers other accounts than this connection's history".
Definition ErrBrokerAccountMeasured : string := "broker_account_already_connected: an account in this statement is already measured by another connection".

Definition comma : Ascii.ascii := ascii_of_nat 44.

Definition pinCovers (pinned current : string) : bool := forallb (λ fp, bool_decide (fp ∈ Split comma pinned)) (Split comma current).

Definition pinsOverlap (a b : string) : bool :=
  if String.eqb a "" || String.eqb b "" then false else existsb (λ fp, bool_decide (fp ∈ Split comma a)) (Split comma b).

Section service.
Context {A : Vault.Aead} (sha256 : string → string).

Definition hashCredentials (apiKey apiSecret passphrase : string) : string := hex_encode (sha256 (apiKey +:+ ":" +:+ apiSecret +:+ ":" +:+ passphrase)).

(** ** The accounts a connection is pinned to *)

Definition nul : string := String (ascii_of_nat 0) "".

Definition fingerprint (user account : string) : string :=
  hex_encode (String.substring 0 16 (sha256 ("broker-account" +:+ nul +:+ user +:+ nul +:+ ToUpper (TrimSpace account)))).

Definition pinBrokerAccounts (user : string) (accounts : list string) : string := Prelude.Join "," (Strings (fingerprint user <$> accounts)).

(** [None] when they are free. *)
Definition checkBrokerAccountsFree (db : faults) (c : capabilities) (user exchange ownLabel pinned : string) (rows : list row) : option string :=
  match BrokerAccountsByUser db c user exchange rows with
  | Err e => Some ("read other pinned accounts: " +:+ e)
  | Ok others =>
      if existsb (λ p, negb (String.eqb p.1 (TrimSpace ownLabel)) && pinsOverlap pinned p.2) (map_to_list others) then Some ErrBrokerAccountMeasured else None
  end.

Definition lookup_error (l : lookup) : res row := match l with Found x => Ok x | NotFound => Err Store.ErrNotFound | Failed e => Err e end.

Definition wrap {X} (prefix : string) (r : res X) : res X := match r with Ok x => Ok x | Err e => Err (prefix +:+ ": " +:+ e) end.

Definition GuardBrokerAccounts (db : faults) (c : capabilities) (user exchange label : string) (accounts : list string) (past : bool) (rows : list row) : list row * res unit :=
  if bool_decide (accounts = []) || negb (cap_brokerAccounts c) then (rows, Ok tt)
  else match wrap "look up connection" (lookup_error (GetByUserExchangeLabel SLookup db c rows user exchange label)) with
  | Err e => (rows, Err e)
  | Ok conn =>
      let current := pinBrokerAccounts user accounts in
      match wrap "read pinned accounts" (BrokerAccounts db c (rw_id conn) rows) with
      | Err e => (rows, Err e)
      | Ok stored =>
          if String.eqb stored current then (rows, Ok tt)
          else if past && (String.eqb stored "" || pinCovers stored current) then (rows, Ok tt)
          else if String.eqb stored "" then
            match checkBrokerAccountsFree db c user exchange label current rows with
            | Some e => (rows, Err e)
            | None => let '(rows, r) := SetBrokerAccounts db c (rw_id conn) current rows in (rows, wrap "pin accounts" r)
            end
          else (rows, Err ErrBrokerAccountsChanged)
      end
  end.

Definition brokerAccountsAtConnect (db : faults) (c : capabilities) (measured : option (list string)) (user exchange label : string) (rows : list row) : res string :=
  match measured with
  | Some (a :: accounts) =>
      if negb (cap_brokerAccounts c) then Ok ""
      else let pinned := pinBrokerAccounts user (a :: accounts) in
           match checkBrokerAccountsFree db c user exchange label pinned rows with Some e => Err e | None => Ok pinned end
  | _ => Ok ""
  end.

Definition UnpinBrokerAccounts (db : faults) (c : capabilities) (user exchange label : string) (rows : list row) : list row * res unit :=
  match wrap "look up connection" (lookup_error (GetByUserExchangeLabel SLookup db c rows user exchange label)) with
  | Err e => (rows, Err e)
  | Ok conn => SetBrokerAccounts db c (rw_id conn) "" rows
  end.

Definition awaitsRepin (db : faults) (c : capabilities) (id : string) (rows : list row) : res bool :=
  if negb (cap_brokerAccounts c) then Ok false
  else pinned ← wrap "read pinned accounts" (BrokerAccounts db c id rows); Ok (String.eqb pinned "").

(** ** Tokens *)

Definition PersistOAuthTokens (db : faults) (c : capabilities) (now : time) (iv : nat → res string) (s : Vault.Service)
    (user exchange label access refresh : string) (rows : list row) : list row * res unit :=
  match wrap "look up connection for token rotation"
          (lookup_error (GetByUserExchangeLabel SRotationLookup db c rows user (Window.normalizeExchange exchange) (TrimSpace label))) with
  | Err e => (rows, Err e)
  | Ok conn =>
      match Vault.bindCredentials iv s (rw_vault conn) access refresh "" with
      | Err e => (rows, Err e)
      | Ok b => UpdateOAuthTokens db c now user exchange label (Vault.sc_APIKey b) (Vault.sc_APISecret b) rows
      end
  end.

Definition CaptureExchangeMetadata (db : faults) (c : capabilities) (now : time) (id : string) (detect : option (res bool)) (rows : list row) : list row * MetadataCapture :=
  if String.eqb (TrimSpace id) "" then (rows, mkCapture false false [])
  else match detect with
  | None => (rows, mkCapture false false [])
  | Some (Err e) => (rows, mkCapture false false ["detect paper account: " +:+ e])
  | Some (Ok isPaper) =>
      let '(rows, r) := UpdateIsPaper db c now id isPaper rows in
      (rows, match r with Ok _ => mkCapture isPaper true [] | Err e => mkCapture false false ["store paper account: " +:+ e] end)
  end.

(** ** Creating a connection *)

(** The service and what a call of it draws: nonces, an id, the clock. *)
Record service := mkConnService {
  cs_encryption : Vault.Service;
  cs_factory : string → string → string → string → res test_conn;
  cs_syncHook : bool;
  cs_rebuildHook : bool;
  cs_unique : list row → row → bool;
  cs_iv : nat → res string;
  cs_newid : string;
  cs_dbid : string;
  cs_now : time;
}.

Abbreviation outcome := (list row * res unit * option hooks)%type.

Definition persistSetupRotation (s : service) (db : faults) (c : capabilities) (id user exchange label key secret passphrase : string) (rows : list row) : list row :=
  match PersistOAuthTokens db c (cs_now s) (λ n, cs_iv s (3 + n)%nat) (cs_encryption s) user exchange label key secret rows with
  | (rows, Err _) => rows
  | (rows, Ok _) => (UpdateCredentialsHash db c (cs_now s) id (hashCredentials key secret passphrase) rows).1
  end.

Definition reauthorizeOAuthConnection (s : service) (db : faults) (c : capabilities) (existing : row) (req : CreateConnectionRequest) (exchange : string) (rows : list row) : outcome :=
  match cs_factory s exchange (rq_APIKey req) (rq_APISecret req) (rq_Passphrase req) with
  | Err e => (rows, Err ("create connector: " +:+ e), None)
  | Ok tc =>
      match (e ← tc_TestConnection tc; reauthValidationOutcome e) with
      | Some fatal => (rows, Err fatal, None)
      | None =>
          let '(access, refresh) := effectiveOAuthCredentials (tc_CurrentCredentials tc) (rq_APIKey req) (rq_APISecret req) in
          match PersistOAuthTokens db c (cs_now s) (cs_iv s) (cs_encryption s) (rw_user existing) exchange (rw_label existing) access refresh rows with
          | (rows, Err e) => (rows, Err ("persist re-authorized tokens: " +:+ e), None)
          | (rows, Ok _) =>
              let rows := (UpdateCredentialsHash db c (cs_now s) (rw_id existing) (hashCredentials access refresh (rq_Passphrase req)) rows).1 in
              let rows := (CaptureExchangeMetadata db c (cs_now s) (rw_id existing) (tc_DetectIsPaper tc) rows).1 in
              (rows, Ok tt, dispatchPostCreateHooks (cs_syncHook s) (cs_rebuildHook s) (rw_user existing) (rw_exchange existing) (rw_label existing) false)
          end
      end
  end.

(** The secrets of the new row, in the layout of the schema. *)
Definition encrypt_row (s : service) (c : capabilities) (v : Vault.Connection) (key secret passphrase : string) : res Vault.Connection :=
  if cap_isTSSchema c then
    bound ← Vault.bindCredentials (cs_iv s) (cs_encryption s) v key secret passphrase; Ok (Vault.set_stored bound v)
  else
    k ← wrap "encrypt api key" (Vault.Encrypt (cs_iv s 0%nat) (cs_encryption s) key);
    x ← wrap "encrypt api secret" (Vault.Encrypt (cs_iv s 1%nat) (cs_encryption s) secret);
    p ← (if String.eqb passphrase "" then Ok (Vault.mkEncrypted "" "" "") else wrap "encrypt passphrase" (Vault.Encrypt (cs_iv s 2%nat) (cs_encryption s) passphrase));
    Ok (Vault.mkConn (Vault.cn_ID v) (Vault.cn_UserUID v) (Vault.cn_Exchange v) (Vault.cn_IsPaper v)
          (Vault.ed_Ciphertext k) (Vault.ed_IV k) (Vault.ed_AuthTag k) (Vault.ed_Ciphertext x) (Vault.ed_IV x) (Vault.ed_AuthTag x)
          (Vault.ed_Ciphertext p) (Vault.ed_IV p) (Vault.ed_AuthTag p)).

(** After the row is written: the pin, the paper flag, a last rotation of the
    tokens and the consent; none of them can fail the call. *)
Definition after_insert (s : service) (db : faults) (c : capabilities) (req : CreateConnectionRequest) (exchange label id pinned key secret : string) (tc : test_conn) (rows : list row)
  : list row * option hooks :=
  let rows := if String.eqb pinned "" then rows else (SetBrokerAccounts db c id pinned rows).1 in
  let rows := (CaptureExchangeMetadata db c (cs_now s) id (tc_DetectIsPaper tc) rows).1 in
  let '(key', secret') := effectiveOAuthCredentials (tc_CurrentCredentials_after tc) key secret in
  let rows := if negb (String.eqb key' key) || negb (String.eqb secret' secret)
              then persistSetupRotation s db c id (rq_UserUID req) exchange label key' secret' (rq_Passphrase req) rows else rows in
  let rebuild := cs_rebuildHook s && rq_RebuildHistory req in
  let rows := if rebuild then (MarkRebuildRequested db c id (cs_now s) rows).1 else rows in
  (rows, dispatchPostCreateHooks (cs_syncHook s) (cs_rebuildHook s) (rq_UserUID req) exchange label rebuild).

(** The new row, once the credentials were tried and the pin was found free:
    every statement from here on writes.  Nothing holds the table between the
    reads before and these writes. *)
Definition create_pinned (s : service) (db : faults) (c : capabilities) (req : CreateConnectionRequest) (exchange label hash : string) (tc : test_conn) (pinned : string) (rows : list row) : outcome :=
  let '(key, secret) := effectiveOAuthCredentials (tc_CurrentCredentials tc) (rq_APIKey req) (rq_APISecret req) in
  let hash := if negb (String.eqb key (rq_APIKey req)) || negb (String.eqb secret (rq_APISecret req)) then hashCredentials key secret (rq_Passphrase req) else hash in
  match encrypt_row s c (Vault.mkConn (cs_newid s) (rq_UserUID req) exchange false "" "" "" "" "" "" "" "" "") key secret (rq_Passphrase req) with
  | Err e => (rows, Err e, None)
  | Ok v =>
      let x := mkRow v label hash (normalizeSyncIntervalMinutes (rq_SyncIntervalMinutes req)) (rq_ExcludeFromReport req) false zero_time zero_time None None in
      match create_row db c (cs_unique s) (cs_dbid s) (cs_now s) rows x with
      | Duplicate => (rows, Err already_exists, None)
      | InsertFailed e => (rows, Err e, None)
      | Inserted id rows => let '(rows, h) := after_insert s db c req exchange label id pinned key secret tc rows in (rows, Ok tt, h)
      end
  end.

Definition create_tested (s : service) (db : faults) (c : capabilities) (req : CreateConnectionRequest) (exchange label hash : string) (tc : test_conn) (rows : list row) : outcome :=
  match brokerAccountsAtConnect db c (tc_MeasuredAccounts tc) (rq_UserUID req) exchange label rows with
  | Err e => (rows, Err e, None)
  | Ok pinned => create_pinned s db c req exchange label hash tc pinned rows
  end.

Definition create_new (s : service) (db : faults) (c : capabilities) (req : CreateConnectionRequest) (exchange label : string) (rows : list row) : outcome :=
  let hash := hashCredentials (rq_APIKey req) (rq_APISecret req) (rq_Passphrase req) in
  match ExistsActiveByCredentialsHash db c rows (rq_UserUID req) hash with
  | Err e => (rows, Err ("check duplicate credentials: " +:+ e), None)
  | Ok true => (rows, Err (ErrConnectionAlreadyExists +:+ ": these exact credentials are already connected under another label"), None)
  | Ok false =>
      match cs_factory s exchange (rq_APIKey req) (rq_APISecret req) (rq_Passphrase req) with
      | Err e => (rows, Err ("create connector: " +:+ e), None)
      | Ok tc =>
          match (e ← tc_TestConnection tc; connect_refusal exchange e) with
          | Some e => (rows, Err e, None)
          | None => create_tested s db c req exchange label hash tc rows
          end
      end
  end.

Definition Create (s : service) (db : faults) (c : capabilities) (req : CreateConnectionRequest) (rows : list row) : outcome :=
  let exchange := Window.normalizeExchange (rq_Exchange req) in
  let label := TrimSpace (rq_Label req) in
  match GetByUserExchangeLabel SLookup db c rows (rq_UserUID req) exchange label with
  | Failed e => (rows, Err ("check existing connection: " +:+ e), None)
  | Found existing =>
      if isOAuthExchange exchange then reauthorizeOAuthConnection s db c existing req exchange rows else (rows, Err already_exists, None)
  | NotFound => create_new s db c req exchange label rows
  end.

End service.
End Connect.
