(* ===== verification/ConnectSafe.v ===== *)
(** * What connecting an account guarantees

    No account is measured by two connections of a user, a connection keeps to
    the accounts its history was built from, and a connect adds one row whose
    secrets are the ones the broker last accepted. *)

From S2P Require Import Prelude GoTime GoText Types Store Window Connections Encoding Vault Connect.
From stdpp Require Import base gmap strings pretty tactics sorting list.
From Stdlib Require Import ZArith Ascii Lia.
Import Encoding Connect.
Local Open Scope Z_scope.

Module ConnectSafe.

(** ** Trimmed labels *)

Lemma blank_space c : is_space c = false → Connections.is_blank c = false.
Proof.
  unfold is_space, Connections.is_blank. intros [_ H]%orb_false_iff. destruct (Ascii.eqb_spec c (ascii_of_N 32)) as [->|]; [|done]. by vm_compute in H.
Qed.

Lemma drop_trailing_trimmed s : Connections.drop_trailing_blanks (trim_right s) = trim_right s.
Proof.
  induction s as [|c s IH]; [done|]. cbn [trim_right]. destruct (trim_right s) as [|d t] eqn:E.
  - destruct (is_space c) eqn:Ec; [done|]. cbn. by rewrite blank_space.
  - change (Connections.drop_trailing_blanks (String c (String d t))) with
      (match Connections.drop_trailing_blanks (String d t) with EmptyString => if Connections.is_blank c then EmptyString else String c EmptyString | t => String c t end).
    by rewrite IH.
Qed.

(** A label without white space at its ends. *)
Definition clean (l : string) : Prop := TrimSpace l = l ∧ Connections.TRIM l = l.

Lemma trimmed_clean s : clean (TrimSpace s).
Proof.
  split; [apply TrimSpace_idem|]. unfold Connections.TRIM, TrimSpace. assert (head_ok (trim_right (trim_left s))) as Hh by apply head_trim_right, head_trim_left.
  assert (Connections.drop_blanks (trim_right (trim_left s)) = trim_right (trim_left s)) as ->; [|apply drop_trailing_trimmed].
  destruct (trim_right (trim_left s)) as [|c t]; [done|]. cbn. by rewrite (blank_space c Hh).
Qed.

(** ** Pins *)

Lemma overlap_spec a b : pinsOverlap a b = true ↔ a ≠ "" ∧ b ≠ "" ∧ ∃ fp, fp ∈ Split comma a ∧ fp ∈ Split comma b.
Proof.
  unfold pinsOverlap. destruct (String.eqb_spec a ""), (String.eqb_spec b ""); cbn [orb]; try (split; [done|by intros (? & ? & ?)]).
  rewrite existsb_exists. setoid_rewrite bool_decide_eq_true. setoid_rewrite <- list_elem_of_In. naive_solver.
Qed.

Lemma overlap_sym a b : pinsOverlap a b = pinsOverlap b a.
Proof. apply eq_true_iff_eq. rewrite !overlap_spec. naive_solver. Qed.

Definition disjoint_pins (x y : row) : Prop := match rw_pinned x, rw_pinned y with Some p, Some q => pinsOverlap p q = false | _, _ => True end.

(** Two rows the consolidated view of a user adds up. *)
Definition beside (x y : row) : Prop := rw_active x = true ∧ rw_active y = true ∧ rw_user x = rw_user y ∧ rw_exchange x = rw_exchange y.

Record apart (rows : list row) : Prop := {
  ap_ids : NoDup (rw_id <$> rows);
  ap_labels : ∀ x, x ∈ rows → clean (rw_label x);
  ap_pairs : ∀ i j x y, i ≠ j → rows !! i = Some x → rows !! j = Some y → beside x y → rw_label x ≠ rw_label y ∧ disjoint_pins x y;
  ap_pins : ∀ x, x ∈ rows → rw_pinned x ≠ Some "";
}.

(** A row after a statement that pins nothing. *)
Record weaker (x y : row) : Prop := {
  wk_id : rw_id y = rw_id x;
  wk_user : rw_user y = rw_user x;
  wk_exchange : rw_exchange y = rw_exchange x;
  wk_label : rw_label y = rw_label x;
  wk_active : rw_active y = true → rw_active x = true;
  wk_pinned : rw_pinned y = rw_pinned x;
}.

Lemma weaker_refl x : weaker x x.
Proof. split; auto. Qed.

Lemma weaker_trans x y z : weaker x y → weaker y z → weaker x z.
Proof. intros [] []. split; try congruence; auto. Qed.

Lemma weaker_apart rows rows' : Forall2 weaker rows rows' → apart rows → apart rows'.
Proof.
  intros HF [H1 H2 H3 H4]. split.
  - assert (rw_id <$> rows' = rw_id <$> rows) as ->; [|done]. clear -HF. induction HF as [|x y l k Hw _ IH]; [done|]. rewrite !fmap_cons, IH. by rewrite (wk_id _ _ Hw).
  - intros y [i Hi]%list_elem_of_lookup. destruct (Forall2_lookup_r _ _ _ _ _ HF Hi) as (x & Hx & Hw). rewrite (wk_label _ _ Hw). apply H2. by eapply list_elem_of_lookup_2.
  - intros i j x' y' Hij Hi Hj (B1 & B2 & B3 & B4). destruct (Forall2_lookup_r _ _ _ _ _ HF Hi) as (x & Hx & Wx), (Forall2_lookup_r _ _ _ _ _ HF Hj) as (y & Hy & Wy).
    destruct (H3 i j x y Hij Hx Hy) as [Hl Hd].
    { split_and!; [by apply (wk_active _ _ Wx)|by apply (wk_active _ _ Wy)|by rewrite <- (wk_user _ _ Wx), <- (wk_user _ _ Wy)|by rewrite <- (wk_exchange _ _ Wx), <- (wk_exchange _ _ Wy)]. }
    rewrite (wk_label _ _ Wx), (wk_label _ _ Wy). split; [done|]. unfold disjoint_pins in *. by rewrite (wk_pinned _ _ Wx), (wk_pinned _ _ Wy).
  - intros y [i Hi]%list_elem_of_lookup. destruct (Forall2_lookup_r _ _ _ _ _ HF Hi) as (x & Hx & Hw). rewrite (wk_pinned _ _ Hw). apply H4. by eapply list_elem_of_lookup_2.
Qed.

Lemma fmap_weaker (f : row → row) rows : (∀ x, x ∈ rows → weaker x (f x)) → Forall2 weaker rows (f <$> rows).
Proof. intros H. apply Forall2_fmap_r. apply Forall_Forall2_diag. apply Forall_forall. done. Qed.

Lemma Forall2_weaker_refl rows : Forall2 weaker rows rows.
Proof. induction rows; constructor; auto using weaker_refl. Qed.

Lemma update_id_weaker f id rows : (∀ x, weaker x (f x)) → Forall2 weaker rows (update_id f id rows).
Proof. intros H. apply fmap_weaker. intros x _. destruct (String.eqb _ _); auto using weaker_refl. Qed.

Lemma update_one_weaker what fault f id rows : (∀ x, weaker x (f x)) → Forall2 weaker rows (update_one what fault f id rows).1.
Proof.
  intros H. unfold update_one. destruct fault; [apply Forall2_weaker_refl|]. destruct (Nat.eqb _ _); [apply Forall2_weaker_refl|by apply update_id_weaker].
Qed.

Lemma not_pinning db c now id b rows : Forall2 weaker rows (UpdateIsPaper db c now id b rows).1.
Proof. unfold UpdateIsPaper. destruct (String.eqb _ _); [apply Forall2_weaker_refl|]. destruct (negb _); [apply Forall2_weaker_refl|]. apply update_one_weaker. intros x. split; auto. Qed.

Lemma hash_not_pinning db c now id h rows : Forall2 weaker rows (UpdateCredentialsHash db c now id h rows).1.
Proof.
  unfold UpdateCredentialsHash. destruct (String.eqb _ _); [apply Forall2_weaker_refl|]. destruct (negb _); [apply Forall2_weaker_refl|].
  destruct (match db SHash with Some e => _ | None => _ end); [apply Forall2_weaker_refl|]. apply update_one_weaker. intros x. split; auto.
Qed.

Lemma consent_not_pinning db c id t rows : Forall2 weaker rows (MarkRebuildRequested db c id t rows).1.
Proof. unfold MarkRebuildRequested. destruct (negb _); [apply Forall2_weaker_refl|]. apply update_one_weaker. intros x. split; auto. Qed.

Lemma tokens_not_pinning db c now u e l a r rows : Forall2 weaker rows (UpdateOAuthTokens db c now u e l a r rows).1.
Proof.
  unfold UpdateOAuthTokens. destruct (db SRotation); [apply Forall2_weaker_refl|]. cbn [fst]. apply fmap_weaker. intros x _. destruct (has_label u e l x); [split; auto|apply weaker_refl].
Qed.

Lemma metadata_not_pinning db c now id d rows : Forall2 weaker rows (CaptureExchangeMetadata db c now id d rows).1.
Proof.
  unfold CaptureExchangeMetadata. destruct (String.eqb _ _); [apply Forall2_weaker_refl|]. destruct d as [[b|e]|]; try apply Forall2_weaker_refl.
  pose proof (not_pinning db c now id b rows) as H. by destruct (UpdateIsPaper db c now id b rows).
Qed.

Lemma deactivate_not_pinning fault now id rows : Forall2 weaker rows (Deactivate fault now id rows).1.
Proof. unfold Deactivate. destruct fault; [apply Forall2_weaker_refl|]. apply update_id_weaker. intros x. split; auto. done. Qed.

(** ** Reading the table *)

Definition among (user exchange : string) (x : row) : bool := String.eqb (rw_user x) user && String.eqb (rw_exchange x) exchange && rw_active x.

Lemma has_label_spec u e l x : has_label u e l x = true ↔ among u e x = true ∧ Connections.TRIM (rw_label x) = Connections.TRIM l.
Proof. unfold has_label, among. rewrite !andb_true_iff, !String.eqb_eq. tauto. Qed.

Lemma pinned_labels_spec u e rows (m : gmap string string) x p :
  among u e x = true → rw_pinned x = Some p → (∀ y, y ∈ rows → among u e y = true → Connections.TRIM (rw_label y) = Connections.TRIM (rw_label x) → rw_pinned y = Some p) →
  x ∈ rows ∨ m !! Connections.TRIM (rw_label x) = Some p →
  foldl (λ m x, match rw_pinned x with
    | Some p => if String.eqb (rw_user x) u && String.eqb (rw_exchange x) e && rw_active x then <[Connections.TRIM (rw_label x) := p]> m else m
    | None => m end) m rows !! Connections.TRIM (rw_label x) = Some p.
Proof.
  intros Hx Hp. revert m. induction rows as [|y rows IH]; intros m Hall Hin; cbn [foldl]; [by destruct Hin as [?%not_elem_of_nil|]|]. apply IH; [intros z Hz; apply Hall; by right|].
  fold (among u e y). destruct Hin as [[<-|Hin]%elem_of_cons|Hm].
  - right. rewrite Hp, Hx. by rewrite lookup_insert_eq.
  - by left.
  - right. destruct (rw_pinned y) as [q|] eqn:Eq; [|done]. destruct (among u e y) eqn:Ea; [|done].
    destruct (decide (Connections.TRIM (rw_label y) = Connections.TRIM (rw_label x))) as [El|Hne]; [|by rewrite lookup_insert_ne].
    specialize (Hall y ltac:(by left) Ea El). rewrite Eq in Hall. injection Hall as ->. rewrite El. by rewrite lookup_insert_eq.
Qed.

Lemma same_row rows i x y : apart rows → rows !! i = Some x → y ∈ rows → rw_id y = rw_id x → y = x.
Proof.
  intros Hw Hi [j Hj]%list_elem_of_lookup Hid. assert (i = j) as ->; [|congruence].
  eapply (NoDup_lookup (rw_id <$> rows)); [apply Hw| |]; rewrite list_lookup_fmap; [by rewrite Hi|rewrite Hj; cbn; by rewrite Hid].
Qed.

(** Accounts found free overlap no other connection's pin. *)
Lemma free_spec db c u e own pin rows j y q :
  apart rows → cap_brokerAccounts c = true → checkBrokerAccountsFree db c u e own pin rows = None →
  rows !! j = Some y → among u e y = true → rw_pinned y = Some q → rw_label y ≠ TrimSpace own → pinsOverlap pin q = false.
Proof.
  intros Hw Hc Hf Hj Hy Hq Hl. unfold checkBrokerAccountsFree, BrokerAccountsByUser in Hf. rewrite Hc in Hf. cbn [negb] in Hf. destruct (db SOthers); [done|].
  destruct (existsb _ _) eqn:Ex; [done|]. clear Hf. destruct (pinsOverlap pin q) eqn:Eo; [|done]. exfalso.
  assert (pinned_labels u e rows !! Connections.TRIM (rw_label y) = Some q) as Hlook.
  { apply pinned_labels_spec; [done..| |left; by eapply list_elem_of_lookup_2]. intros z [k Hk]%list_elem_of_lookup Hz Hlz.
    destruct (decide (k = j)) as [->|Hkj]; [congruence|]. exfalso.
    assert (rw_label z ≠ rw_label y ∧ disjoint_pins z y) as [Hne _].
    { apply (ap_pairs rows Hw k j); [done..|]. unfold among in Hz, Hy. go_bool. repeat match goal with H : _ && _ = true |- _ => apply andb_true_iff in H as [? ?] end. go_bool. split_and!; congruence. }
    apply Hne. destruct (ap_labels rows Hw z ltac:(by eapply list_elem_of_lookup_2)) as [_ <-]. destruct (ap_labels rows Hw y ltac:(by eapply list_elem_of_lookup_2)) as [_ <-]. done. }
  assert (existsb (λ p, negb (String.eqb p.1 (TrimSpace own)) && pinsOverlap pin p.2) (map_to_list (pinned_labels u e rows)) = true) as Ht; [|congruence].
  apply existsb_exists. exists (Connections.TRIM (rw_label y), q). split; [by apply list_elem_of_In, elem_of_map_to_list|]. cbn [fst snd]. rewrite Eo, andb_true_r.
  apply negb_true_iff, String.eqb_neq. destruct (ap_labels rows Hw y ltac:(by eapply list_elem_of_lookup_2)) as [_ ->]. done.
Qed.

(** Pinning a row to accounts no other connection is pinned to. *)
Lemma pin_apart rows i x pin :
  apart rows → rows !! i = Some x →
  (∀ j y q, j ≠ i → rows !! j = Some y → beside x y → rw_pinned y = Some q → pinsOverlap pin q = false) →
  apart (update_id (with_pin pin) (rw_id x) rows).
Proof.
  intros Hw Hi Hfree. unfold update_id. set (f := λ x0 : row, if String.eqb (rw_id x0) (rw_id x) then with_pin pin x0 else x0).
  assert (∀ y, rw_id (f y) = rw_id y ∧ rw_label (f y) = rw_label y ∧ rw_user (f y) = rw_user y ∧ rw_exchange (f y) = rw_exchange y ∧ rw_active (f y) = rw_active y) as Hf
    by (intros y; unfold f; by destruct (String.eqb _ _)).
  assert (∀ j y, rows !! j = Some y → j ≠ i → f y = y) as Hother.
  { intros j y Hj Hne. unfold f. destruct (String.eqb_spec (rw_id y) (rw_id x)) as [E|]; [|done]. exfalso. apply Hne.
    eapply (NoDup_lookup (rw_id <$> rows)); [apply Hw| |]; rewrite list_lookup_fmap; [by rewrite Hj|rewrite Hi; cbn; by rewrite E]. }
  assert (∀ j y' , (f <$> rows) !! j = Some y' → ∃ y, rows !! j = Some y ∧ y' = f y) as Hback.
  { intros j y'. rewrite list_lookup_fmap. destruct (rows !! j) as [y|]; [|done]. intros [= <-]. by exists y. }
  assert (∀ j y q, j ≠ i → rows !! j = Some y → beside x y → rw_pinned y = Some q → ∀ p, rw_pinned (f x) = Some p → pinsOverlap p q = false) as Hx.
  { intros j y q Hne Hj Hb Hq p. unfold f. rewrite String.eqb_refl. cbn. destruct (String.eqb pin ""); [done|]. intros [= <-]. by eapply Hfree. }
  split.
  - rewrite <- list_fmap_compose. rewrite (list_fmap_ext _ rw_id) by (intros k y _; cbn; apply Hf). apply Hw.
  - intros y' [k Hk]%list_elem_of_lookup. apply Hback in Hk as (y & Hy & ->). destruct (Hf y) as (_ & -> & _). apply Hw. by eapply list_elem_of_lookup_2.
  - intros a b xa yb Hab (ya & Ha & ->)%Hback (zb & Hb & ->)%Hback (B1 & B2 & B3 & B4).
    destruct (Hf ya) as (_ & La & Ua & Ea & Aa), (Hf zb) as (_ & Lb & Ub & Eb & Ab). rewrite Aa in B1. rewrite Ab in B2. rewrite Ua, Ub in B3. rewrite Ea, Eb in B4.
    assert (beside ya zb) as Hbes by done. destruct (ap_pairs rows Hw a b ya zb Hab Ha Hb Hbes) as [Hl Hd]. rewrite La, Lb. split; [done|].
    unfold disjoint_pins in *. destruct (decide (a = i)) as [->|Ha'], (decide (b = i)) as [->|Hb']; [done|..].
    + assert (ya = x) as -> by congruence. rewrite (Hother b zb Hb Hb'). destruct (rw_pinned (f x)) as [p|] eqn:Ep; [|done]. destruct (rw_pinned zb) as [q|] eqn:Eq; [|done]. by eapply Hx.
    + assert (zb = x) as -> by congruence. rewrite (Hother a ya Ha Ha'). destruct (rw_pinned ya) as [q|] eqn:Eq; [|done]. destruct (rw_pinned (f x)) as [p|] eqn:Ep; [|done].
      rewrite overlap_sym. eapply Hx; done.
    + by rewrite (Hother a ya Ha Ha'), (Hother b zb Hb Hb').
  - intros y' [k Hk]%list_elem_of_lookup. apply Hback in Hk as (y & Hy & ->). unfold f. destruct (String.eqb _ _); [|apply Hw; by eapply list_elem_of_lookup_2].
    cbn. destruct (String.eqb_spec pin ""); [done|congruence].
Qed.

(** ** The operations *)

Lemma matched_some rows i x : rows !! i = Some x → Nat.eqb (matched (λ y, String.eqb (rw_id y) (rw_id x)) rows) 0 = false.
Proof.
  intros Hi. unfold matched. assert (x ∈ filter (λ y, String.eqb (rw_id y) (rw_id x) = true) rows) as Hin.
  { apply list_elem_of_filter. rewrite String.eqb_refl. split; [done|by eapply list_elem_of_lookup_2]. }
  destruct (filter _ rows); [by apply not_elem_of_nil in Hin|done].
Qed.

Lemma find_label st db c rows u e l y : GetByUserExchangeLabel st db c rows u e l = Found y → ∃ i x, rows !! i = Some x ∧ has_label u e l x = true ∧ y = read_columns c x.
Proof.
  unfold GetByUserExchangeLabel. destruct (db st); [done|]. destruct (find_first _ rows) as [x|] eqn:E; [|done]. intros [= <-].
  apply find_first_some in E as (l1 & l2 & -> & Hh & _). exists (length l1), x. split_and!; [|done..]. by rewrite list_lookup_middle.
Qed.

Lemma read_id db c rows i x : apart rows → rows !! i = Some x → cap_brokerAccounts c = true → ∀ p, BrokerAccounts db c (rw_id x) rows = Ok p → p = default "" (rw_pinned x).
Proof.
  intros Hw Hi Hc p. unfold BrokerAccounts. rewrite Hc. cbn [negb]. destruct (db SReadPins); [done|]. destruct (find_first _ rows) as [y|] eqn:E; [|done]. intros [= <-].
  apply find_first_some in E as (l1 & l2 & El & Hh & _). go_bool. assert (y ∈ rows) as Hin by (rewrite El; set_solver). by rewrite (same_row rows i x y Hw Hi Hin Hh).
Qed.

Section ops.
Context {A : Vault.Aead} (sha256 : string → string).

Lemma set_pin_apart db c rows i x pin :
  apart rows → rows !! i = Some x →
  (∀ j y q, j ≠ i → rows !! j = Some y → beside x y → rw_pinned y = Some q → pinsOverlap pin q = false) →
  apart (SetBrokerAccounts db c (rw_id x) pin rows).1.
Proof.
  intros Hw Hi Hfree. unfold SetBrokerAccounts. destruct (negb _); [done|]. unfold update_one. destruct (db SSetPins); [done|]. rewrite (matched_some rows i x Hi). by eapply pin_apart.
Qed.

Lemma beside_among u e x y : among u e x = true → beside x y → among u e y = true.
Proof.
  unfold among, beside. intros H (_ & Hy & Hu & He). rewrite !andb_true_iff, !String.eqb_eq in H |- *. destruct H as [[<- <-] _]. done.
Qed.

Lemma guard_apart db c u e l accounts past rows :
  clean l → apart rows → apart (GuardBrokerAccounts sha256 db c u e l accounts past rows).1.
Proof.
  intros [Hl1 Hl2] Hw. unfold GuardBrokerAccounts. destruct (_ || negb (cap_brokerAccounts c)) eqn:Ec; [done|]. apply orb_false_iff in Ec as [_ Hc%negb_false_iff].
  destruct (GetByUserExchangeLabel SLookup db c rows u e l) as [y| |] eqn:Ey; cbn [lookup_error wrap]; [|done..].
  apply find_label in Ey as (i & x & Hi & Hx & ->). change (rw_id (read_columns c x)) with (rw_id x).
  destruct (BrokerAccounts db c (rw_id x) rows) as [stored|] eqn:Es; cbn [wrap]; [|done]. destruct (String.eqb stored _); [done|]. destruct (past && _); [done|].
  destruct (String.eqb stored ""); [|done]. destruct (checkBrokerAccountsFree _ _ _ _ _ _ _) eqn:Ef; [done|].
  apply has_label_spec in Hx as [Ha Hlab].
  assert (apart (SetBrokerAccounts db c (rw_id x) (pinBrokerAccounts sha256 u accounts) rows).1) as H; [|by destruct (SetBrokerAccounts _ _ _ _ _)].
  apply (set_pin_apart db c rows i x); [done..|]. intros j y q Hj Hy Hb Hq. eapply (free_spec db c u e l); try done; [by eapply beside_among|].
  destruct (ap_pairs rows Hw j i y x Hj Hy Hi) as [Hne _]; [destruct Hb as (? & ? & ? & ?); split_and!; congruence|].
  rewrite Hl1. destruct (ap_labels rows Hw x ltac:(by eapply list_elem_of_lookup_2)) as [_ Hxl]. rewrite Hxl, Hl2 in Hlab. congruence.
Qed.

Lemma unpin_apart db c u e l rows : apart rows → apart (UnpinBrokerAccounts db c u e l rows).1.
Proof.
  intros Hw. unfold UnpinBrokerAccounts. destruct (GetByUserExchangeLabel _ _ _ _ _ _ _) as [y| |] eqn:Ey; cbn [lookup_error wrap]; [|done..].
  apply find_label in Ey as (i & x & Hi & _ & ->). change (rw_id (read_columns c x)) with (rw_id x). by apply (set_pin_apart db c rows i x).
Qed.

Lemma tokens_weaker db c now iv s u e l a r rows : Forall2 weaker rows (PersistOAuthTokens db c now iv s u e l a r rows).1.
Proof.
  unfold PersistOAuthTokens. destruct (wrap _ _); [|apply Forall2_weaker_refl]. destruct (Vault.bindCredentials _ _ _ _ _ _); [|apply Forall2_weaker_refl]. apply tokens_not_pinning.
Qed.

Lemma Forall2_weaker_trans l1 l2 l3 : Forall2 weaker l1 l2 → Forall2 weaker l2 l3 → Forall2 weaker l1 l3.
Proof.
  intros H. revert l3. induction H as [|x y l k Hxy _ IH]; intros l3 H3; inversion H3 as [|y' z k' l3' Hyz H4]; subst; constructor; [by eapply weaker_trans|by apply IH].
Qed.

Lemma rotation_weaker s db c id u e l k x p rows : Forall2 weaker rows (persistSetupRotation sha256 s db c id u e l k x p rows).
Proof.
  unfold persistSetupRotation. pose proof (tokens_weaker db c (cs_now s) (λ n, cs_iv s (3 + n)) (cs_encryption s) u e l k x rows) as H.
  destruct (PersistOAuthTokens _ _ _ _ _ _ _ _ _ _ _) as [rows1 [|]]; [|done]. eapply Forall2_weaker_trans; [exact H|apply hash_not_pinning].
Qed.

Lemma reauth_weaker s db c x req e rows : Forall2 weaker rows (reauthorizeOAuthConnection sha256 s db c x req e rows).1.1.
Proof.
  unfold reauthorizeOAuthConnection. destruct (cs_factory _ _ _ _ _) as [tc|]; [|apply Forall2_weaker_refl]. destruct (_ ≫= _); [apply Forall2_weaker_refl|].
  destruct (effectiveOAuthCredentials _ _ _) as [a r].
  pose proof (tokens_weaker db c (cs_now s) (cs_iv s) (cs_encryption s) (rw_user x) e (rw_label x) a r rows) as H. destruct (PersistOAuthTokens _ _ _ _ _ _ _ _ _ _ _) as [rows1 [|]]; [|done].
  cbn [fst]. eapply Forall2_weaker_trans; [exact H|]. eapply Forall2_weaker_trans; [apply hash_not_pinning|apply metadata_not_pinning].
Qed.

(** ** A new row *)

(** The row as the insert stores it. *)
Record stored_as (c : capabilities) (id : string) (now : time) (x0 x : row) : Prop := {
  sa_id : rw_id x = id;
  sa_vault : rw_vault x = Vault.mkConn id (rw_user x0) (rw_exchange x0) (cap_isPaper c && Vault.cn_IsPaper (rw_vault x0)) (Vault.cn_EncryptedAPIKey (rw_vault x0)) (Vault.cn_APIKeyIV (rw_vault x0))
      (Vault.cn_APIKeyAuthTag (rw_vault x0)) (Vault.cn_EncryptedAPISecret (rw_vault x0)) (Vault.cn_APISecretIV (rw_vault x0)) (Vault.cn_APISecretAuthTag (rw_vault x0)) (Vault.cn_EncryptedPassphrase (rw_vault x0))
      (Vault.cn_PassphraseIV (rw_vault x0)) (Vault.cn_PassphraseAuthTag (rw_vault x0));
  sa_label : rw_label x = rw_label x0;
  sa_hash : cap_credentialsHash c = true → rw_hash x = rw_hash x0;
  sa_active : rw_active x = true;
  sa_created : rw_createdAt x = now;
  sa_free : rw_pinned x = None ∧ rw_requestedAt x = None;
}.

Lemma insert_spec db c unique dbid now rows x0 id rows1 :
  create_row db c unique dbid now rows x0 = Inserted id rows1 →
  id = (if cap_isTSSchema c then rw_id x0 else dbid) ∧ ∃ x, rows1 = rows ++ [x] ∧ unique rows x = false ∧ stored_as c id now x0 x.
Proof.
  unfold create_row. destruct (cap_isTSSchema c && (_ || _)); [done|]. destruct (cap_isTSSchema c && _); [done|]. cbn zeta. destruct (db SInsert); [done|].
  destruct (unique rows _) eqn:Eu; [done|]. intros [= <- <-]. split; [done|]. eexists. split_and!; [done..|]. split; try done. intros Hh. cbn. by rewrite Hh.
Qed.

(** What a successful connect of a new account went through. *)
Record creation (s : service) (db : faults) (c : capabilities) (req : CreateConnectionRequest) (rows : list row) (tc : test_conn) (pinned key secret : string) (v : Vault.Connection) (id : string) (x : row) : Prop := {
  cr_new : ∀ y, y ∈ rows → has_label (rq_UserUID req) (Window.normalizeExchange (rq_Exchange req)) (TrimSpace (rq_Label req)) y = false;
  cr_single : ExistsActiveByCredentialsHash db c rows (rq_UserUID req) (hashCredentials sha256 (rq_APIKey req) (rq_APISecret req) (rq_Passphrase req)) = Ok false;
  cr_made : cs_factory s (Window.normalizeExchange (rq_Exchange req)) (rq_APIKey req) (rq_APISecret req) (rq_Passphrase req) = Ok tc;
  cr_tested : (e ← tc_TestConnection tc; connect_refusal (Window.normalizeExchange (rq_Exchange req)) e) = None;
  cr_pin : brokerAccountsAtConnect sha256 db c (tc_MeasuredAccounts tc) (rq_UserUID req) (Window.normalizeExchange (rq_Exchange req)) (TrimSpace (rq_Label req)) rows = Ok pinned;
  cr_held : effectiveOAuthCredentials (tc_CurrentCredentials tc) (rq_APIKey req) (rq_APISecret req) = (key, secret);
  cr_sealed : encrypt_row s c (Vault.mkConn (cs_newid s) (rq_UserUID req) (Window.normalizeExchange (rq_Exchange req)) false "" "" "" "" "" "" "" "" "") key secret (rq_Passphrase req) = Ok v;
  cr_id : id = if cap_isTSSchema c then cs_newid s else cs_dbid s;
  cr_stored : ∃ i b, stored_as c id (cs_now s) (mkRow v (TrimSpace (rq_Label req)) (hashCredentials sha256 key secret (rq_Passphrase req)) i b false zero_time zero_time None None) x;
}.

Lemma encrypt_row_id s c v k x p v' : encrypt_row s c v k x p = Ok v' →
  Vault.cn_ID v' = Vault.cn_ID v ∧ Vault.cn_UserUID v' = Vault.cn_UserUID v ∧ Vault.cn_Exchange v' = Vault.cn_Exchange v.
Proof.
  unfold encrypt_row. destruct (cap_isTSSchema c); [by intros (b & _ & [= <-])%res_bind_ok|].
  intros (b & _ & H)%res_bind_ok. apply res_bind_ok in H as (b2 & _ & H). by apply res_bind_ok in H as (b3 & _ & [= <-]).
Qed.

Lemma not_found st db c rows u e l : GetByUserExchangeLabel st db c rows u e l = NotFound → ∀ y, y ∈ rows → has_label u e l y = false.
Proof.
  unfold GetByUserExchangeLabel. destruct (db st); [done|]. destruct (find_first _ rows) eqn:E; [done|]. intros _ y Hy. apply find_first_none in E. rewrite Forall_forall in E. by apply E.
Qed.

Lemma create_cases s db c req rows rows' r h :
  Create sha256 s db c req rows = (rows', r, h) →
  match r with
  | Err _ => h = None ∧ Forall2 weaker rows rows' ∧ (isOAuthExchange (Window.normalizeExchange (rq_Exchange req)) = false → rows' = rows)
  | Ok _ =>
      (isOAuthExchange (Window.normalizeExchange (rq_Exchange req)) = true ∧ Forall2 weaker rows rows' ∧
       ∃ y, y ∈ rows ∧ has_label (rq_UserUID req) (Window.normalizeExchange (rq_Exchange req)) (TrimSpace (rq_Label req)) y = true) ∨
      ∃ tc pinned key secret v id x, creation s db c req rows tc pinned key secret v id x ∧
        after_insert sha256 s db c req (Window.normalizeExchange (rq_Exchange req)) (TrimSpace (rq_Label req)) id pinned key secret tc (rows ++ [x]) = (rows', h)
  end.
Proof.
  unfold Create. set (e := Window.normalizeExchange (rq_Exchange req)). set (l := TrimSpace (rq_Label req)).
  assert (∀ err : string, (rows, Err err, None) = (rows', r, h) → match r with Err _ => h = None ∧ Forall2 weaker rows rows' ∧ (isOAuthExchange e = false → rows' = rows) | Ok _ => 
      (isOAuthExchange e = true ∧ Forall2 weaker rows rows' ∧ ∃ y, y ∈ rows ∧ has_label (rq_UserUID req) e l y = true) ∨
      ∃ tc pinned key secret v id x, creation s db c req rows tc pinned key secret v id x ∧
        after_insert sha256 s db c req e l id pinned key secret tc (rows ++ [x]) = (rows', h) end) as Hfail
    by (intros err [= <- <- <-]; split_and!; [done|apply Forall2_weaker_refl|done]).
  destruct (GetByUserExchangeLabel SLookup db c rows (rq_UserUID req) e l) as [y| |err] eqn:El; [|..|apply Hfail].
  - destruct (isOAuthExchange e) eqn:Eo; [|apply Hfail]. intros H. pose proof (reauth_weaker s db c y req e rows) as Hw. rewrite H in Hw. cbn [fst] in Hw.
    destruct r as [[]|err]; [left; split_and!; [done..|]; apply find_label in El as (i & x & Hi & Hx & _); exists x; split; [by eapply list_elem_of_lookup_2|done]|]. split_and!; [|done..].
    unfold reauthorizeOAuthConnection in H. destruct (cs_factory _ _ _ _ _); [|by injection H]. destruct (_ ≫= _); [by injection H|]. destruct (effectiveOAuthCredentials _ _ _).
    destruct (PersistOAuthTokens _ _ _ _ _ _ _ _ _ _ _) as [? [|]]; by injection H.
  - unfold create_new. destruct (ExistsActiveByCredentialsHash _ _ _ _ _) as [[|]|] eqn:Ed; [apply Hfail| |apply Hfail].
    destruct (cs_factory _ _ _ _ _) as [tc|] eqn:Ef; [|apply Hfail]. destruct (_ ≫= _) eqn:Et; [apply Hfail|]. unfold create_tested, create_pinned.
    destruct (brokerAccountsAtConnect _ _ _ _ _ _ _ _) as [pinned|] eqn:Ep; [|apply Hfail]. destruct (effectiveOAuthCredentials _ _ _) as [key secret] eqn:Ek.
    destruct (encrypt_row _ _ _ _ _ _) as [v|] eqn:Ev; [|apply Hfail]. set (x0 := mkRow v l _ _ _ _ _ _ _ _).
    destruct (create_row _ _ _ _ _ _ x0) as [id rows1| |err] eqn:Ei; [|apply Hfail..]. intros H.
    destruct (after_insert _ _ _ _ _ _ _ _ _ _ _ _ _) as [rows2 h2] eqn:Ea. injection H as <- <- <-. right.
    apply insert_spec in Ei as (Hid & x & -> & _ & Hs). exists tc, pinned, key, secret, v, id, x. split; [|done].
    split; try done; [by eapply not_found| |].
    + rewrite Hid. unfold x0, rw_id. cbn [rw_vault]. by destruct (encrypt_row_id _ _ _ _ _ _ _ Ev) as [-> _].
    + exists (normalizeSyncIntervalMinutes (rq_SyncIntervalMinutes req)), (rq_ExcludeFromReport req). unfold x0 in Hs.
      assert ((if negb (String.eqb key (rq_APIKey req)) || negb (String.eqb secret (rq_APISecret req)) then hashCredentials sha256 key secret (rq_Passphrase req)
        else hashCredentials sha256 (rq_APIKey req) (rq_APISecret req) (rq_Passphrase req)) = hashCredentials sha256 key secret (rq_Passphrase req)) as Hh
        by (destruct (String.eqb_spec key (rq_APIKey req)) as [->|], (String.eqb_spec secret (rq_APISecret req)) as [->|]; done).
      rewrite Hh in Hs. exact Hs.
Qed.

Lemma after_insert_weaker s db c req e l id pinned key secret tc rows rows' h :
  after_insert sha256 s db c req e l id pinned key secret tc rows = (rows', h) →
  Forall2 weaker (if String.eqb pinned "" then rows else (SetBrokerAccounts db c id pinned rows).1) rows'.
Proof.
  unfold after_insert. set (rows1 := if String.eqb pinned "" then rows else _). destruct (effectiveOAuthCredentials _ _ _) as [k x]. intros [= <- _].
  eapply Forall2_weaker_trans; [apply (metadata_not_pinning db c (cs_now s) id (tc_DetectIsPaper tc) rows1)|].
  eapply Forall2_weaker_trans; [|destruct (cs_rebuildHook s && rq_RebuildHistory req); [apply consent_not_pinning|apply Forall2_weaker_refl]].
  destruct (_ || _)%bool; [apply rotation_weaker|apply Forall2_weaker_refl].
Qed.

Lemma append_apart rows x :
  apart rows → rw_id x ∉ rw_id <$> rows → clean (rw_label x) → rw_pinned x = None → (∀ y, y ∈ rows → beside x y → rw_label y ≠ rw_label x) → apart (rows ++ [x]).
Proof.
  intros [H1 H2 H3 H4] Hid Hl Hp Hne. split.
  - rewrite fmap_app. apply NoDup_app. split_and!; [done| |apply NoDup_singleton]. intros i Hi ->%list_elem_of_singleton. done.
  - intros y [Hy| ->%list_elem_of_singleton]%elem_of_app; [by apply H2|done].
  - intros i j a b Hij Ha Hb Hbes. apply lookup_app_Some in Ha as [Ha|[Hi Ha]], Hb as [Hb|[Hj Hb]].
    + by eapply H3.
    + apply list_lookup_singleton_Some in Hb as [Hb <-]. split; [apply Hne; [by eapply list_elem_of_lookup_2|destruct Hbes as (? & ? & ? & ?); done]|].
      unfold disjoint_pins. rewrite Hp. by destruct (rw_pinned a).
    + apply list_lookup_singleton_Some in Ha as [Ha <-]. split; [intros E; by apply (Hne b); [eapply list_elem_of_lookup_2|..]|]. unfold disjoint_pins. by rewrite Hp.
    + apply list_lookup_singleton_Some in Ha as [Ha <-], Hb as [Hb <-]. lia.
  - intros y [Hy| ->%list_elem_of_singleton]%elem_of_app; [by apply H4|by rewrite Hp].
Qed.

Lemma create_apart s db c req rows :
  cs_newid s ∉ rw_id <$> rows → cs_dbid s ∉ rw_id <$> rows → apart rows → apart (Create sha256 s db c req rows).1.1.
Proof.
  intros Hn Hd Hw. destruct (Create sha256 s db c req rows) as [[rows' r] h] eqn:E. cbn [fst]. apply create_cases in E. destruct r as [|err]; [|destruct E as (_ & E & _); by eapply weaker_apart].
  destruct E as [(_ & E & _)|(tc & pinned & key & secret & v & id & x & Hc & Ha)]; [by eapply weaker_apart|]. destruct Hc. destruct cr_stored0 as (iv & b & Hs).
  destruct (encrypt_row_id _ _ _ _ _ _ _ cr_sealed0) as (_ & Hu & He). cbn in Hu, He.
  assert (rw_user x = rq_UserUID req ∧ rw_exchange x = Window.normalizeExchange (rq_Exchange req) ∧ rw_label x = TrimSpace (rq_Label req)) as (Xu & Xe & Xl).
  { unfold rw_user, rw_exchange. rewrite (sa_vault _ _ _ _ _ Hs), (sa_label _ _ _ _ _ Hs). cbn. unfold rw_user, rw_exchange. cbn. by rewrite Hu, He. }
  assert (∀ y, y ∈ rows → beside x y → rw_label y ≠ rw_label x) as Hfresh.
  { intros y Hy (_ & B2 & B3 & B4) El. assert (has_label (rq_UserUID req) (Window.normalizeExchange (rq_Exchange req)) (TrimSpace (rq_Label req)) y = true) as Ht; [|by rewrite cr_new0 in Ht].
    apply has_label_spec. unfold among. rewrite <- B3, <- B4, B2, Xu, Xe, !String.eqb_refl, El, Xl. done. }
  assert (apart (rows ++ [x])) as Hx.
  { apply append_apart; [done| |rewrite Xl; apply trimmed_clean|apply Hs|done]. rewrite (sa_id _ _ _ _ _ Hs), cr_id0. by destruct (cap_isTSSchema c). }
  eapply weaker_apart; [by eapply after_insert_weaker|]. destruct (String.eqb_spec pinned "") as [|Hpin]; [done|].
  assert ((rows ++ [x]) !! length rows = Some x) as Hlast by (by rewrite list_lookup_middle).
  rewrite <- (sa_id _ _ _ _ _ Hs). apply (set_pin_apart db c _ (length rows) x); [done..|]. intros j y q Hj Hy Hb Hq.
  apply lookup_app_Some in Hy as [Hy|[Hle Hy]]; [|apply list_lookup_singleton_Some in Hy as [? _]; lia].
  unfold brokerAccountsAtConnect in cr_pin0. destruct (tc_MeasuredAccounts tc) as [[|acc accounts]|]; try (by injection cr_pin0). destruct (negb (cap_brokerAccounts c)) eqn:Ecap; [by injection cr_pin0|].
  apply negb_false_iff in Ecap. destruct (checkBrokerAccountsFree _ _ _ _ _ _ _) eqn:Ef; [done|]. injection cr_pin0 as <-.
  eapply (free_spec db c _ _ (TrimSpace (rq_Label req)) _ rows j y q Hw Ecap Ef Hy); [|done|].
  - apply (beside_among _ _ x); [|done]. unfold among. by rewrite Xu, Xe, (sa_active _ _ _ _ _ Hs), !String.eqb_refl.
  - rewrite TrimSpace_idem, <- Xl. apply Hfresh; [by eapply list_elem_of_lookup_2|done].
Qed.

(** ** Every reachable table *)

(** What may happen to the table: a connect, a statement vetted, an operator's
    unpin, a disconnect, a rotation of tokens.  The schema's columns and the
    faults of the database are those of the moment. *)
Inductive step : list row → list row → Prop :=
| step_create s db c req rows :
    cs_newid s ∉ rw_id <$> rows → cs_dbid s ∉ rw_id <$> rows → step rows (Create sha256 s db c req rows).1.1
| step_guard db c user exchange label accounts past rows :
    clean label → step rows (GuardBrokerAccounts sha256 db c user exchange label accounts past rows).1
| step_unpin db c user exchange label rows : step rows (UnpinBrokerAccounts db c user exchange label rows).1
| step_deactivate fault now id rows : step rows (Deactivate fault now id rows).1
| step_tokens db c now iv s user exchange label access refresh rows :
    step rows (PersistOAuthTokens db c now iv s user exchange label access refresh rows).1.

Lemma step_apart rows rows' : step rows rows' → apart rows → apart rows'.
Proof.
  intros [] Hw; [by apply create_apart|by apply guard_apart|by apply unpin_apart|eapply weaker_apart; [apply deactivate_not_pinning|done]|eapply weaker_apart; [apply tokens_weaker|done]].
Qed.

Lemma reachable_apart rows : rtc step [] rows → apart rows.
Proof.
  intros Hr. remember [] as start eqn:Es. assert (apart start) as H0 by (rewrite Es; split; [constructor|by intros ? ?%not_elem_of_nil|done|by intros ? ?%not_elem_of_nil]).
  clear Es. induction Hr as [|t1 t2 t3 H12 _ IH]; [done|]. apply IH. by eapply step_apart.
Qed.

(** The row is pinned to the account: its pin, a list of fingerprints
    separated by commas, has that of the account. *)
Definition measures (x : row) (account : string) : Prop :=
  ∃ p, rw_pinned x = Some p ∧ fingerprint sha256 (rw_user x) account ∈ Split comma p.

Lemma disjoint_accounts rows x y account :
  apart rows → x ∈ rows → y ∈ rows → rw_user x = rw_user y → disjoint_pins x y → measures x account → measures y account → False.
Proof.
  intros Hw Hx Hy Hu Hd (p & Hp & Hfp) (q & Hq & Hfq). unfold disjoint_pins in Hd. rewrite Hp, Hq in Hd. rewrite <- Hu in Hfq.
  assert (pinsOverlap p q = true); [|congruence]. apply overlap_spec. pose proof (ap_pins rows Hw x Hx). pose proof (ap_pins rows Hw y Hy). split_and!; [congruence..|eauto].
Qed.

(** C17: the pins of two connections do not overlap.  In every table reached from an empty one by connects, vetted
    statements, unpins, disconnects and token rotations, one call after another, whatever columns the probes found and
    whatever statements failed, two active connections of a user on an exchange have different labels, and there is no
    account whose fingerprint is in the pins of both.  Two calls at the same time are not covered: nothing holds the
    table between a call's reads and its writes, and [concurrent_connects_overlap] is what then happens. *)
Theorem no_account_measured_twice rows i j x y :
  rtc step [] rows → i ≠ j → rows !! i = Some x → rows !! j = Some y → beside x y →
  rw_label x ≠ rw_label y ∧ ∀ account, ¬ (measures x account ∧ measures y account).
Proof.
  intros Hr Hij Hi Hj Hb. pose proof (reachable_apart rows Hr) as Hw. destruct (ap_pairs rows Hw i j x y Hij Hi Hj Hb) as [Hl Hd]. split; [done|].
  intros account [H1 H2]. apply (disjoint_accounts rows x y account); try done; [by eapply list_elem_of_lookup_2..|apply Hb].
Qed.

(** ** A connection keeps to its accounts *)

(** The steps that do not unpin. *)
Inductive quiet : list row → list row → Prop :=
| quiet_create s db c req rows :
    cs_newid s ∉ rw_id <$> rows → cs_dbid s ∉ rw_id <$> rows → quiet rows (Create sha256 s db c req rows).1.1
| quiet_guard db c user exchange label accounts past rows :
    clean label → quiet rows (GuardBrokerAccounts sha256 db c user exchange label accounts past rows).1
| quiet_deactivate fault now id rows : quiet rows (Deactivate fault now id rows).1
| quiet_tokens db c now iv s user exchange label access refresh rows :
    quiet rows (PersistOAuthTokens db c now iv s user exchange label access refresh rows).1.

Lemma quiet_step rows rows' : quiet rows rows' → step rows rows'.
Proof. intros []; by constructor. Qed.

Lemma weaker_at rows rows' i x : Forall2 weaker rows rows' → rows !! i = Some x → ∃ y, rows' !! i = Some y ∧ weaker x y.
Proof. intros HF Hi. destruct (Forall2_lookup_l _ _ _ _ _ HF Hi) as (y & ? & ?). by exists y. Qed.

(** Setting the pin of another row leaves a row alone. *)
Lemma set_pin_other db c id pin rows i x : rows !! i = Some x → rw_id x ≠ id → (SetBrokerAccounts db c id pin rows).1 !! i = Some x.
Proof.
  intros Hi Hne. unfold SetBrokerAccounts. destruct (negb _); [done|]. unfold update_one. destruct (db SSetPins); [done|]. destruct (Nat.eqb _ _); [done|]. cbn [fst].
  unfold update_id. rewrite list_lookup_fmap, Hi. cbn. by rewrite (proj2 (String.eqb_neq _ _) Hne).
Qed.

Lemma quiet_keeps rows rows' i x p :
  apart rows → quiet rows rows' → rows !! i = Some x → rw_pinned x = Some p → p ≠ "" → ∃ y, rows' !! i = Some y ∧ weaker x y.
Proof.
  intros Hw Hq Hi Hp Hne. destruct Hq as [s db c req rows Hn Hd|db c u e l accounts past rows Hl|fault now id rows|].
  - destruct (Create sha256 s db c req rows) as [[rows' r] h] eqn:E. cbn [fst]. apply create_cases in E. destruct r as [|err]; [|by destruct E as (_ & E & _); eapply weaker_at].
    destruct E as [(_ & E & _)|(tc & pinned & key & secret & v & id & z & Hc & Ha)]; [by eapply weaker_at|]. apply after_insert_weaker in Ha. eapply weaker_at; [exact Ha|].
    destruct (String.eqb pinned ""); [by apply lookup_app_l_Some|]. apply set_pin_other; [by apply lookup_app_l_Some|]. intros E.
    assert (rw_id x ∈ rw_id <$> rows) as Hin by (apply list_elem_of_fmap_2; by eapply list_elem_of_lookup_2). rewrite E, (cr_id _ _ _ _ _ _ _ _ _ _ _ _ Hc) in Hin. by destruct (cap_isTSSchema c).
  - assert ((GuardBrokerAccounts sha256 db c u e l accounts past rows).1 = rows ∨ ∃ j y pin, rows !! j = Some y ∧ default "" (rw_pinned y) = "" ∧
      (GuardBrokerAccounts sha256 db c u e l accounts past rows).1 = (SetBrokerAccounts db c (rw_id y) pin rows).1) as [->|(j & y & pin & Hj & Hy & ->)]; [|by exists x; auto using weaker_refl|].
    { unfold GuardBrokerAccounts. destruct (_ || negb (cap_brokerAccounts c)) eqn:Ec; [by left|]. apply orb_false_iff in Ec as [_ Hc%negb_false_iff].
      destruct (GetByUserExchangeLabel SLookup db c rows u e l) as [y| |] eqn:Ey; cbn [lookup_error wrap]; [|by left..]. apply find_label in Ey as (j & y0 & Hj & _ & ->).
      change (rw_id (read_columns c y0)) with (rw_id y0). destruct (BrokerAccounts db c (rw_id y0) rows) as [stored|] eqn:Es; cbn [wrap]; [|by left].
      destruct (String.eqb stored _); [by left|]. destruct (past && _); [by left|]. destruct (String.eqb_spec stored "") as [E|]; [|by left].
      destruct (checkBrokerAccountsFree _ _ _ _ _ _ _); [by left|]. right. exists j, y0, (pinBrokerAccounts sha256 u accounts). split_and!; [done| |by destruct (SetBrokerAccounts _ _ _ _ _)].
      by rewrite <- (read_id db c rows j y0 Hw Hj Hc stored Es). }
    exists x. split; [|apply weaker_refl]. apply set_pin_other; [done|]. intros E. assert (x = y) as -> by (apply (same_row rows j y x Hw Hj); [by eapply list_elem_of_lookup_2|done]). by rewrite Hp in Hy.
  - eapply weaker_at; [apply deactivate_not_pinning|done].
  - eapply weaker_at; [apply tokens_weaker|done].
Qed.

Lemma quiets_keep rows rows' i x p :
  apart rows → rtc quiet rows rows' → rows !! i = Some x → rw_pinned x = Some p → p ≠ "" → apart rows' ∧ ∃ y, rows' !! i = Some y ∧ weaker x y.
Proof.
  intros Hw Hr. revert x Hw. induction Hr as [t|t1 t2 t3 H12 _ IH]; intros x Hw Hi Hp Hne; [split; [done|by exists x; auto using weaker_refl]|].
  destruct (quiet_keeps _ _ _ _ _ Hw H12 Hi Hp Hne) as (y & Hy & Hxy). destruct (IH y) as (Hw3 & z & Hz & Hyz); [eapply step_apart; [by apply quiet_step|done]|done|by rewrite (wk_pinned _ _ Hxy)|done|].
  split; [done|]. exists z. split; [done|by eapply weaker_trans].
Qed.

(** What an accepted statement says of the connection's pin: the table after
    the call, the connection's row and the accounts. *)
Lemma guard_accepts db c u e l accounts past rows rows' i x :
  apart rows → clean l → cap_brokerAccounts c = true → accounts ≠ [] → rows !! i = Some x → among u e x = true → rw_label x = l →
  GuardBrokerAccounts sha256 db c u e l accounts past rows = (rows', Ok tt) →
  let stored := default "" (rw_pinned x) in let current := pinBrokerAccounts sha256 u accounts in
  (stored = current ∧ rows' = rows) ∨ (past = true ∧ (stored = "" ∨ pinCovers stored current = true) ∧ rows' = rows) ∨
  (past = false ∧ stored = "" ∧ ∃ y, rows' !! i = Some y ∧ rw_pinned y = (if String.eqb current "" then None else Some current) ∧ rw_active y = rw_active x ∧ rw_label y = l ∧ among u e y = true).
Proof.
  intros Hw [Hl1 Hl2] Hc Ha Hi Hx Hlab. unfold GuardBrokerAccounts. rewrite Hc, bool_decide_eq_false_2 by done. cbn [orb negb].
  destruct (GetByUserExchangeLabel SLookup db c rows u e l) as [y| |] eqn:Ey; cbn [lookup_error wrap]; [|done..].
  apply find_label in Ey as (j & y0 & Hj & Hy & ->). apply has_label_spec in Hy as [Hya Hyl].
  assert (j = i) as ->.
  { destruct (decide (j = i)) as [|Hne]; [done|]. exfalso. destruct (ap_pairs rows Hw j i y0 x Hne Hj Hi) as [Hd _].
    - unfold among in Hya, Hx. rewrite !andb_true_iff, !String.eqb_eq in Hya, Hx. destruct Hya as [[? ?] ?], Hx as [[? ?] ?]. split_and!; congruence.
    - apply Hd. destruct (ap_labels rows Hw y0 ltac:(by eapply list_elem_of_lookup_2)) as [_ Hyc]. rewrite Hyc, Hl2 in Hyl. congruence. }
  assert (y0 = x) as -> by congruence. change (rw_id (read_columns c x)) with (rw_id x).
  destruct (BrokerAccounts db c (rw_id x) rows) as [stored|] eqn:Es; cbn [wrap]; [|done]. rewrite (read_id db c rows i x Hw Hi Hc stored Es).
  destruct (String.eqb_spec (default "" (rw_pinned x)) (pinBrokerAccounts sha256 u accounts)) as [E|]; [intros [= <-]; by left|].
  destruct past; cbn [andb].
  - destruct (_ || _) eqn:Eo; [intros [= <-]; right; left; split_and!; [done| |done]; apply orb_true_iff in Eo as [?%String.eqb_eq|?]; auto|].
    apply orb_false_iff in Eo as [-> _]. done.
  - destruct (String.eqb_spec (default "" (rw_pinned x)) "") as [E0|]; [|done]. destruct (checkBrokerAccountsFree _ _ _ _ _ _ _); [done|].
    unfold SetBrokerAccounts, update_one. rewrite Hc. cbn [negb]. destruct (db SSetPins); [done|]. rewrite (matched_some rows i x Hi). cbn [wrap]. intros [= <-]. right. right. split_and!; [done..|].
    exists (with_pin (pinBrokerAccounts sha256 u accounts) x). unfold update_id. rewrite list_lookup_fmap, Hi. cbn. rewrite String.eqb_refl. done.
Qed.

(** ** Fingerprints *)

Lemma pin_split_join l : l ≠ [] → (∀ s, s ∈ l → lacks comma s = true) → Split comma (Prelude.Join "," l) = l.
Proof.
  induction l as [|s [|s' l] IH]; intros Hne Hl; [done|by apply split_plain, Hl; left|]. change (Prelude.Join "," (s :: s' :: l)) with (s +:+ String comma (Prelude.Join "," (s' :: l))).
  rewrite split_app by (apply Hl; by left). rewrite IH; [done..|]. intros x Hx. apply Hl. by right.
Qed.

Lemma hex_no_comma x : lacks comma (hex_encode x) = true.
Proof.
  induction x as [|c x IH]; [done|]. cbn [hex_encode lacks]. rewrite IH. pose proof (N_ascii_bounded c) as Hb.
  assert (∀ n, (n < 16)%N → negb (Ascii.eqb (hex_digit n) comma) = true) as Hd by (apply (below_spec 16 (λ n, negb (Ascii.eqb (hex_digit n) comma) = true)); vm_compute; reflexivity).
  rewrite !Hd; [done|apply N.mod_lt; lia|apply N.Div0.div_lt_upper_bound; lia].
Qed.

Definition normal (account : string) : string := ToUpper (TrimSpace account).

Lemma pin_split u accounts fp : accounts ≠ [] → fp ∈ Split comma (pinBrokerAccounts sha256 u accounts) ↔ ∃ a, a ∈ accounts ∧ fp = fingerprint sha256 u a.
Proof.
  intros Hne. unfold pinBrokerAccounts, Strings. rewrite pin_split_join.
  - rewrite sort_str_elem, list_elem_of_fmap. naive_solver.
  - destruct accounts as [|a l]; [done|]. intros E. apply (f_equal length) in E. pose proof (sort_str_perm id (fingerprint sha256 u <$> a :: l)) as Hp. apply Permutation_length in Hp. rewrite E in Hp. done.
  - intros s Hs. rewrite sort_str_elem in Hs. apply list_elem_of_fmap in Hs as (a & -> & _). apply hex_no_comma.
Qed.

Lemma pin_nonempty u accounts : (∀ x, String.length (sha256 x) = 32%nat) → accounts ≠ [] → pinBrokerAccounts sha256 u accounts ≠ "".
Proof.
  intros Hsha Hne E. destruct accounts as [|a l]; [done|]. pose proof (proj2 (pin_split u (a :: l) (fingerprint sha256 u a) Hne)) as H. rewrite E in H.
  assert (fingerprint sha256 u a ∈ Split comma "") as Hin by (apply H; exists a; split; [by left|done]). cbn in Hin. apply list_elem_of_singleton in Hin.
  apply (f_equal String.length) in Hin. unfold fingerprint in Hin. rewrite hex_encode_length in Hin. rewrite Vault.substring_prefix in Hin by (rewrite Hsha; lia). done.
Qed.

(** C18: a connection keeps to the accounts of its history.  Once a daily statement was accepted for a connection, and as
    long as the connection stays active and no operator unpins it, whatever other calls change in the table, every
    statement that is accepted for it measures no account the first one did not, and a daily one measures all of them
    (account ids up to case and white space).  Both statements name an account, and at both calls the probe of the
    schema found the column of the pins: a call whose probe fails accepts any statement.  The hash is assumed not to
    confuse the accounts at hand. *)
Theorem history_keeps_accounts db1 db2 c1 c2 u e l a1 a2 past rows0 rows1 rows2 rows3 i x y :
  (∀ z, String.length (sha256 z) = 32%nat) → (∀ a b, a ∈ a1 → b ∈ a2 → fingerprint sha256 u a = fingerprint sha256 u b → normal a = normal b) →
  rtc step [] rows0 → clean l → cap_brokerAccounts c1 = true → cap_brokerAccounts c2 = true → a1 ≠ [] → a2 ≠ [] →
  rows0 !! i = Some x → among u e x = true → rw_label x = l →
  GuardBrokerAccounts sha256 db1 c1 u e l a1 false rows0 = (rows1, Ok tt) → rtc quiet rows1 rows2 →
  rows2 !! i = Some y → rw_active y = true → GuardBrokerAccounts sha256 db2 c2 u e l a2 past rows2 = (rows3, Ok tt) →
  (∀ b, b ∈ a2 → normal b ∈ normal <$> a1) ∧ (past = false → ∀ a, a ∈ a1 → normal a ∈ normal <$> a2).
Proof.
  intros Hsha Hinj Hr Hl Hc1 Hc2 Ha1 Ha2 Hi Hx Hlab H1 Hq Hi2 Hact H2.
  pose proof (reachable_apart rows0 Hr) as Hw0.
  assert (apart rows1) as Hw1 by (eapply step_apart; [|exact Hw0]; rewrite <- (f_equal fst H1 : _ = rows1); by apply step_guard).
  pose proof (pin_nonempty u a1 Hsha Ha1) as Hp1.
  assert (∃ x1, rows1 !! i = Some x1 ∧ rw_pinned x1 = Some (pinBrokerAccounts sha256 u a1) ∧ rw_label x1 = l ∧ among u e x1 = true) as (x1 & Hx1 & Hpin & Hl1 & Hm1).
  { destruct (guard_accepts _ _ _ _ _ _ _ _ _ i x Hw0 Hl Hc1 Ha1 Hi Hx Hlab H1) as [[E ->]|[(? & _)|(_ & _ & z & Hz & Ez & _ & ? & ?)]]; [|done|].
    - exists x. split_and!; [done| |done..]. destruct (rw_pinned x); cbn in E; by rewrite E in *.
    - exists z. split_and!; try done. by rewrite (proj2 (String.eqb_neq _ _) Hp1) in Ez. }
  destruct (quiets_keep rows1 rows2 i x1 _ Hw1 Hq Hx1 Hpin Hp1) as (Hw2 & y' & Hy' & Hk). assert (y' = y) as -> by congruence.
  assert (among u e y = true) as Hmy by (unfold among in *; rewrite (wk_user _ _ Hk), (wk_exchange _ _ Hk), Hact; by rewrite (wk_active _ _ Hk Hact) in Hm1).
  pose proof (pin_split u a1) as S1. pose proof (pin_split u a2) as S2.
  destruct (guard_accepts _ _ _ _ _ _ _ _ _ i y Hw2 Hl Hc2 Ha2 Hi2 Hmy ltac:(by rewrite (wk_label _ _ Hk)) H2) as [[E _]|[(-> & [E|E] & _)|(_ & E & _)]];
    rewrite (wk_pinned _ _ Hk), Hpin in E; cbn in E; [| done | |done].
  - assert (∀ fp, (∃ a, a ∈ a1 ∧ fp = fingerprint sha256 u a) ↔ ∃ b, b ∈ a2 ∧ fp = fingerprint sha256 u b) as Hsame by (intros fp; rewrite <- S1, <- S2 by done; by rewrite E). split.
    + intros b Hb. destruct (proj2 (Hsame _) (ex_intro _ b (conj Hb eq_refl))) as (a & Ha & Ef). rewrite <- (Hinj a b Ha Hb (eq_sym Ef)). by apply list_elem_of_fmap_2.
    + intros _ a Ha. destruct (proj1 (Hsame _) (ex_intro _ a (conj Ha eq_refl))) as (b & Hb & Ef). rewrite (Hinj a b Ha Hb Ef). by apply list_elem_of_fmap_2.
  - split; [|done]. intros b Hb. unfold pinCovers in E. rewrite forallb_forall in E. specialize (E (fingerprint sha256 u b)). rewrite bool_decide_eq_true in E.
    destruct (proj1 (S1 (fingerprint sha256 u b) Ha1)) as (a & Ha & Ef); [apply E, list_elem_of_In, S2; [done|by exists b]|]. rewrite <- (Hinj a b Ha Hb (eq_sym Ef)). by apply list_elem_of_fmap_2.
Qed.

(** ** The secrets of a new row *)

Lemma normalizeExchange_idem e : Window.normalizeExchange (Window.normalizeExchange e) = Window.normalizeExchange e.
Proof.
  unfold Window.normalizeExchange. set (x := ToLower (TrimSpace e)). destruct (String.eqb x "exness") eqn:Ee; [done|]. destruct (String.eqb x "binanceusdm") eqn:Eb; [done|].
  assert (ToLower (TrimSpace x) = x) as Hx by (unfold x; by rewrite TrimSpace_lower, TrimSpace_idem, ToLower_idem). by rewrite Hx, Ee, Eb.
Qed.

(** The three columns of a row open to the secrets, each bound to the row. *)
Definition opens_to (s : Vault.Service) (v : Vault.Connection) (k x p : string) : Prop :=
  Vault.open_field s v Vault.FieldAPIKey (Vault.cn_EncryptedAPIKey v) (Vault.cn_APIKeyIV v) (Vault.cn_APIKeyAuthTag v) = Vault.Ret (Ok (k, false)) ∧
  Vault.open_field s v Vault.FieldAPISecret (Vault.cn_EncryptedAPISecret v) (Vault.cn_APISecretIV v) (Vault.cn_APISecretAuthTag v) = Vault.Ret (Ok (x, false)) ∧
  (if String.eqb (Vault.cn_EncryptedPassphrase v) "" then p = ""
   else Vault.open_field s v Vault.FieldPassphrase (Vault.cn_EncryptedPassphrase v) (Vault.cn_PassphraseIV v) (Vault.cn_PassphraseAuthTag v) = Vault.Ret (Ok (p, false))).

Lemma opens_decrypt s v k x p : opens_to s v k x p →
  Vault.decryptConnection s v = Vault.Ret (Ok (Vault.mkCredentials (Vault.cn_UserUID v) (Vault.cn_Exchange v) k x p (Vault.cn_IsPaper v), false)).
Proof.
  intros (H1 & H2 & H3). unfold Vault.decryptConnection. rewrite H1. cbn [Vault.call_wrap Vault.call_bind]. rewrite H2. cbn [Vault.call_wrap Vault.call_bind].
  destruct (String.eqb (Vault.cn_EncryptedPassphrase v) ""); cbn [negb]; [by rewrite H3|]. by rewrite H3.
Qed.

Lemma bound_fields `{AL : !Vault.AeadLaws A} iv s v v0 k x p b g1 t1 g2 t2 g3 t3 :
  Vault.draws iv → Vault.bindCredentials iv s v k x p = Ok b → Vault.cn_UserUID v0 = Vault.cn_UserUID v → Vault.cn_ID v0 = Vault.cn_ID v →
  Vault.open_field s v0 Vault.FieldAPIKey (Vault.sc_APIKey b) g1 t1 = Vault.Ret (Ok (k, false)) ∧
  Vault.open_field s v0 Vault.FieldAPISecret (Vault.sc_APISecret b) g2 t2 = Vault.Ret (Ok (x, false)) ∧
  (if String.eqb (Vault.sc_Passphrase b) "" then p = "" else Vault.open_field s v0 Vault.FieldPassphrase (Vault.sc_Passphrase b) g3 t3 = Vault.Ret (Ok (p, false))).
Proof.
  intros Hd. unfold Vault.bindCredentials. cbn zeta. intros (vk & Hk & H)%res_bind_ok Hu Hi. apply res_bind_ok in H as (vx & Hx & H). rewrite <- Hu, <- Hi in Hk, Hx, H.
  destruct (Vault.EncryptTSBound (iv 0%nat) _ _ _) as [vk'|] eqn:Ek; [injection Hk as ->|done].
  destruct (Vault.EncryptTSBound (iv 1%nat) _ _ _) as [vx'|] eqn:Ex; [injection Hx as ->|done].
  pose proof (proj1 (Vault.open_bound iv 0 s v0 Vault.FieldAPIKey k vk g1 t1 Hd Ek)) as O1. pose proof (proj1 (Vault.open_bound iv 1 s v0 Vault.FieldAPISecret x vx g2 t2 Hd Ex)) as O2.
  destruct (String.eqb_spec p "") as [->|Hp]; cbn [negb] in H; [injection H as <-; done|].
  apply res_bind_ok in H as (vp & Hvp & [= <-]). destruct (Vault.EncryptTSBound (iv 2%nat) _ _ _) as [vp'|] eqn:Ep; [injection Hvp as ->|done].
  destruct (Vault.open_bound iv 2 s v0 Vault.FieldPassphrase p vp g3 t3 Hd Ep) as [O3 Hne]. cbn [Vault.sc_APIKey Vault.sc_APISecret Vault.sc_Passphrase].
  rewrite (proj2 (String.eqb_neq _ _) Hne). done.
Qed.

(** ** Statements on a table whose last row is the new one *)

Lemma update_id_last f rows x : rw_id x ∉ rw_id <$> rows → update_id f (rw_id x) (rows ++ [x]) = rows ++ [f x].
Proof.
  intros Hn. unfold update_id. rewrite fmap_app, fmap_cons, fmap_nil, String.eqb_refl. f_equal. rewrite <- (list_fmap_id rows) at 2. apply list_fmap_ext. intros i y Hi.
  destruct (String.eqb_spec (rw_id y) (rw_id x)) as [E|]; [|done]. exfalso. apply Hn. rewrite <- E. apply list_elem_of_fmap_2. by eapply list_elem_of_lookup_2.
Qed.

Lemma update_one_last what fault f rows x : rw_id x ∉ rw_id <$> rows →
  (update_one what fault f (rw_id x) (rows ++ [x])).1 = rows ++ [match fault with Some _ => x | None => f x end].
Proof.
  intros Hn. unfold update_one. destruct fault; [done|]. assert ((rows ++ [x]) !! length rows = Some x) as Hl by (by rewrite list_lookup_middle).
  rewrite (matched_some _ _ _ Hl). cbn [fst]. by apply update_id_last.
Qed.

Lemma label_last u e l rows x (f : row → row) : (∀ y, y ∈ rows → has_label u e l y = false) → has_label u e l x = true →
  ((λ y, if has_label u e l y then f y else y) <$> rows ++ [x]) = rows ++ [f x] ∧ matched (has_label u e l) (rows ++ [x]) = 1%nat ∧ find_first (has_label u e l) (rows ++ [x]) = Some x.
Proof.
  intros Hn Hx. split_and!.
  - rewrite fmap_app, fmap_cons, fmap_nil, Hx. f_equal. rewrite <- (list_fmap_id rows) at 2. apply list_fmap_ext. intros i y Hi. rewrite Hn; [done|by eapply list_elem_of_lookup_2].
  - unfold matched. rewrite filter_app, filter_none; [|intros y Hy; by rewrite Hn]. by rewrite filter_cons, decide_True.
  - induction rows as [|y rows IH]; [cbn; by rewrite Hx|]. cbn [app find_first]. rewrite Hn by (by left). apply IH. intros z Hz. apply Hn. by right.
Qed.

Section last.
Context `{AL : !Vault.AeadLaws A} (s : service) (db : faults) (c : capabilities) (u e l p : string) (rows : list row).
Hypothesis draws_iv : Vault.draws (cs_iv s).
Hypothesis ts : cap_isTSSchema c = true.
Hypothesis new_label : ∀ y, y ∈ rows → has_label u e l y = false.
Hypothesis normal_e : Window.normalizeExchange e = e.
Hypothesis trimmed_l : TrimSpace l = l.

(** The new row, as long as it holds a pair of tokens. *)
Record holds (id : string) (x : row) (k sct : string) : Prop := {
  ho_id : rw_id x = id;
  ho_fresh : id ∉ rw_id <$> rows;
  ho_label : has_label u e l x = true;
  ho_name : rw_label x = l;
  ho_opens : opens_to (cs_encryption s) (rw_vault x) k sct p;
  ho_hash : cap_credentialsHash c = true → db SHash = None → rw_hash x = hashCredentials sha256 k sct p;
}.

Lemma pin_last id pinned x k sct : holds id x k sct →
  ∃ x', (if String.eqb pinned "" then rows ++ [x] else (SetBrokerAccounts db c id pinned (rows ++ [x])).1) = rows ++ [x'] ∧ holds id x' k sct ∧ rw_requestedAt x' = rw_requestedAt x.
Proof.
  intros H. destruct (String.eqb pinned ""); [by exists x|]. unfold SetBrokerAccounts. destruct (negb _); [by exists x|]. destruct H as [<- Hf Hl Hn Ho Hh].
  rewrite update_one_last by done. destruct (db SSetPins); eexists; (split; [done|]); split; done.
Qed.

Lemma paper_last id detect x k sct : holds id x k sct →
  ∃ x', (CaptureExchangeMetadata db c (cs_now s) id detect (rows ++ [x])).1 = rows ++ [x'] ∧ holds id x' k sct ∧ rw_requestedAt x' = rw_requestedAt x.
Proof.
  intros H. unfold CaptureExchangeMetadata. destruct (String.eqb (TrimSpace id) "") eqn:Ei; [by exists x|]. destruct detect as [[b|]|]; [|by exists x..].
  unfold UpdateIsPaper. rewrite Ei. destruct (negb _); [by exists x|]. destruct H as [<- Hf Hl Hn Ho Hh].
  destruct (update_one _ _ _ _ _) as [r1 r2] eqn:Eu. apply (f_equal fst) in Eu. rewrite update_one_last in Eu by done. cbn [fst] in *. rewrite <- Eu.
  destruct (db SPaper); eexists; (split; [done|]); (split; [split|]); done.
Qed.

Lemma consent_last id x k sct : holds id x k sct →
  ∃ x', (MarkRebuildRequested db c id (cs_now s) (rows ++ [x])).1 = rows ++ [x'] ∧ holds id x' k sct.
Proof.
  intros H. unfold MarkRebuildRequested. destruct (negb _); [by exists x|]. destruct H as [<- Hf Hl Hn Ho Hh]. rewrite update_one_last by done.
  destruct (db SConsent); eexists; (split; [done|]); split; done.
Qed.

Lemma rotation_last id x k sct k' sct' : TrimSpace id ≠ "" → holds id x k sct →
  ∃ x' kk ss, persistSetupRotation sha256 s db c id u e l k' sct' p (rows ++ [x]) = rows ++ [x'] ∧ holds id x' kk ss ∧ rw_requestedAt x' = rw_requestedAt x ∧
    ((kk, ss) = (k, sct) ∨ (kk, ss) = (k', sct')) ∧ (db SRotationLookup = None → db SRotation = None → u ≠ "" → (kk, ss) = (k', sct')).
Proof.
  intros Hid H. unfold persistSetupRotation, PersistOAuthTokens, GetByUserExchangeLabel. rewrite normal_e, trimmed_l.
  destruct (label_last u e l rows x (set_tokens c (cs_now s) "" "") new_label (ho_label _ _ _ _ H)) as (_ & Hm & Hfind).
  destruct (db SRotationLookup) as [err|] eqn:El; cbn [lookup_error wrap]; [exists x, k, sct; split_and!; [done..|by left|done]|]. rewrite Hfind. cbn [lookup_error wrap].
  destruct (Vault.bindCredentials _ _ _ _ _ _) as [b|err] eqn:Eb.
  2: { exists x, k, sct. split_and!; [done..|by left|]. intros _ _ Hu. exfalso. destruct (Vault.bind_ok (λ n, cs_iv s (3 + n)%nat) (cs_encryption s) (rw_vault (read_columns c x)) k' sct' "") as [b Hb]; [|..|congruence].
       - intros n. apply (draws_iv (3 + n)%nat).
       - pose proof (ho_label _ _ _ _ H) as Hl. apply has_label_spec in Hl as [Ha _]. unfold among in Ha. rewrite !andb_true_iff, !String.eqb_eq in Ha. destruct Ha as [[<- _] _]. exact Hu.
       - intros E. apply Hid. rewrite <- (ho_id _ _ _ _ H). unfold rw_id. cbn in E. by rewrite E. }
  unfold UpdateOAuthTokens. destruct (db SRotation) eqn:Er; [exists x, k, sct; split_and!; [done..|by left|done]|]. rewrite Hm. cbn [Nat.eqb].
  set (x1 := set_tokens c (cs_now s) (Vault.sc_APIKey b) (Vault.sc_APISecret b) x).
  destruct (label_last u e l rows x (set_tokens c (cs_now s) (Vault.sc_APIKey b) (Vault.sc_APISecret b)) new_label (ho_label _ _ _ _ H)) as (-> & _ & _). fold x1.
  destruct H as [<- Hf Hl Hn (O1 & O2 & O3) Hh].
  assert (opens_to (cs_encryption s) (rw_vault x1) k' sct' p) as Ho.
  { destruct (bound_fields (λ n, cs_iv s (3 + n)%nat) (cs_encryption s) (rw_vault (read_columns c x)) (rw_vault x1) k' sct' "" b (Vault.cn_APIKeyIV (rw_vault x1)) (Vault.cn_APIKeyAuthTag (rw_vault x1))
      (Vault.cn_APISecretIV (rw_vault x1)) (Vault.cn_APISecretAuthTag (rw_vault x1)) "" "") as (B1 & B2 & _); [intros n; apply (draws_iv (3 + n)%nat)|done..|].
    split_and!; [exact B1|exact B2|]. exact O3. }
  unfold UpdateCredentialsHash. rewrite (proj2 (String.eqb_neq _ _) Hid). destruct (negb (cap_credentialsHash c)) eqn:Ec.
  { exists x1, k', sct'. split_and!; [done| |done|by right|done]. split; try done. apply negb_true_iff in Ec. congruence. }
  destruct (db SHash) as [err|] eqn:Eh.
  - destruct (de_undefined err); [|change (rw_id x) with (rw_id x1); rewrite update_one_last by done]; exists x1, k', sct'; (split_and!; [done| |done|by right|done]; split; try done; congruence).
  - change (rw_id x) with (rw_id x1). rewrite update_one_last by done. eexists _, k', sct'. split_and!; [done| |done|by right|done]. split; done.
Qed.

Lemma sealed_user iv sv v k sct q b : Vault.bindCredentials iv sv v k sct q = Ok b → Vault.cn_UserUID v ≠ "".
Proof.
  unfold Vault.bindCredentials. intros (vk & Hk & _)%res_bind_ok E. rewrite E in Hk. destruct (iv 0%nat); done.
Qed.

(** The row the insert wrote. *)
Lemma fresh_row req tc pinned key secret v x :
  creation s db c req rows tc pinned key secret v (cs_newid s) x → cs_newid s ∉ rw_id <$> rows →
  u = rq_UserUID req → e = Window.normalizeExchange (rq_Exchange req) → l = TrimSpace (rq_Label req) → p = rq_Passphrase req →
  holds (cs_newid s) x key secret ∧ rw_requestedAt x = None ∧ u ≠ "".
Proof.
  intros [Hnew _ _ _ _ _ Hs _ (i & b & Hst)] Hf Eu Ee El Ep. unfold encrypt_row in Hs. rewrite ts, <- Eu, <- Ee, <- Ep in Hs.
  apply res_bind_ok in Hs as (bd & Hb & [= <-]). pose proof (sealed_user _ _ _ _ _ _ _ Hb) as Hu. split_and!; [|by destruct (sa_free _ _ _ _ _ Hst)|done].
  pose proof (sa_vault _ _ _ _ _ Hst) as Hv. cbn in Hv.
  split; [by apply Hst|done| | | |].
  - unfold has_label, rw_user, rw_exchange. rewrite Hv, (sa_label _ _ _ _ _ Hst), (sa_active _ _ _ _ _ Hst). cbn. by rewrite <- El, !String.eqb_refl.
  - rewrite (sa_label _ _ _ _ _ Hst). cbn. done.
  - rewrite Hv. cbn. eapply (bound_fields (cs_iv s)); [done|exact Hb|done..].
  - intros Hc _. rewrite (sa_hash _ _ _ _ _ Hst Hc). cbn. by rewrite <- Ep.
Qed.

End last.

(** Connecting an account adds one row, and its secrets open to what the broker accepted.  On the schema of the previous
    enclave, when no active connection has the label, a successful connect only appends a row: active, with the user,
    the exchange and the label of the request; its columns decrypt to the passphrase and to the pair of tokens the
    connector held after the test, or after the paper probe when that rotated them, and always the latter when the
    statements of the rotation do not fail; the stored hash is that of the same pair, and the rebuild is recorded as
    asked for only when it was. *)
Theorem connect_adds_one_row `{AL : !Vault.AeadLaws A} s db c req tc rows rows' h :
  let user := rq_UserUID req in let exchange := Window.normalizeExchange (rq_Exchange req) in let label := TrimSpace (rq_Label req) in
  let held := effectiveOAuthCredentials (tc_CurrentCredentials tc) (rq_APIKey req) (rq_APISecret req) in
  let after := effectiveOAuthCredentials (tc_CurrentCredentials_after tc) held.1 held.2 in
  Vault.draws (cs_iv s) → cap_isTSSchema c = true → cs_newid s ∉ rw_id <$> rows → TrimSpace (cs_newid s) ≠ "" →
  (∀ y, y ∈ rows → has_label user exchange label y = false) →
  cs_factory s exchange (rq_APIKey req) (rq_APISecret req) (rq_Passphrase req) = Ok tc →
  Create sha256 s db c req rows = (rows', Ok tt, h) →
  ∃ x tokens, rows' = rows ++ [x] ∧ rw_id x = cs_newid s ∧ has_label user exchange label x = true ∧ rw_label x = label ∧
    Vault.decryptConnection (cs_encryption s) (rw_vault x) =
      Vault.Ret (Ok (Vault.mkCredentials user exchange tokens.1 tokens.2 (rq_Passphrase req) (Vault.cn_IsPaper (rw_vault x)), false)) ∧
    (cap_credentialsHash c = true → db SHash = None → rw_hash x = hashCredentials sha256 tokens.1 tokens.2 (rq_Passphrase req)) ∧
    (tokens = held ∨ tokens = after) ∧ (db SRotationLookup = None → db SRotation = None → tokens = after) ∧
    (rw_requestedAt x ≠ None → rq_RebuildHistory req = true).
Proof.
  intros user exchange label held after Hd Hts Hf Hid Hnew Hmade Hc.
  destruct (create_cases _ _ _ _ _ _ _ _ Hc) as [(_ & _ & y & Hy & Hl)|(tc' & pinned & key & secret & v & id & x & Hcr & Ha)].
  { specialize (Hnew y Hy). unfold user, exchange, label in Hnew. congruence. }
  fold user exchange label in Ha.
  assert (tc' = tc) as -> by (pose proof (cr_made _ _ _ _ _ _ _ _ _ _ _ _ Hcr) as Hm; unfold exchange in Hmade; congruence).
  assert (held = (key, secret)) as Hheld by exact (cr_held _ _ _ _ _ _ _ _ _ _ _ _ Hcr).
  assert (id = cs_newid s) as -> by (rewrite (cr_id _ _ _ _ _ _ _ _ _ _ _ _ Hcr), Hts; done).
  pose proof (normalizeExchange_idem (rq_Exchange req)) as He. pose proof (TrimSpace_idem (rq_Label req)) as Hl. fold exchange in He. fold label in Hl.
  destruct (fresh_row s db c user exchange label (rq_Passphrase req) rows Hd Hts req tc pinned key secret v x Hcr Hf eq_refl eq_refl eq_refl eq_refl) as (H0 & R0 & Hu).
  unfold after_insert in Ha. change (rq_UserUID req) with user in Ha. destruct (pin_last s db c user exchange label (rq_Passphrase req) rows (cs_newid s) pinned x key secret H0) as (x1 & E1 & H1 & R1). rewrite E1 in Ha.
  destruct (paper_last s db c user exchange label (rq_Passphrase req) rows (cs_newid s) (tc_DetectIsPaper tc) x1 key secret H1) as (x2 & E2 & H2 & R2). rewrite E2 in Ha.
  unfold after in *. rewrite Hheld. cbn [fst snd]. destruct (effectiveOAuthCredentials (tc_CurrentCredentials_after tc) key secret) as [key' secret'].
  assert (∃ x3 t, (if negb (String.eqb key' key) || negb (String.eqb secret' secret)
      then persistSetupRotation sha256 s db c (cs_newid s) user exchange label key' secret' (rq_Passphrase req) (rows ++ [x2]) else rows ++ [x2]) = rows ++ [x3] ∧
    holds s db c user exchange label (rq_Passphrase req) rows (cs_newid s) x3 t.1 t.2 ∧ rw_requestedAt x3 = rw_requestedAt x2 ∧
    (t = (key, secret) ∨ t = (key', secret')) ∧ (db SRotationLookup = None → db SRotation = None → t = (key', secret'))) as (x3 & t & E3 & H3 & R3 & Ht & Htr).
  { destruct (String.eqb_spec key' key) as [Ek|]; [destruct (String.eqb_spec secret' secret) as [Es|]|]; cbn [negb orb]; [exists x2, (key, secret); rewrite Ek, Es; split_and!; try done; by left|..];
    (edestruct (rotation_last s db c user exchange label (rq_Passphrase req) rows Hd Hnew He Hl (cs_newid s) x2 key secret) as (x3 & kk & ss & E3 & H3 & R3 & Ht & Htr); [done|exact H2|];
     exists x3, (kk, ss); split_and!; [exact E3|exact H3|done..|auto]). }
  rewrite E3 in Ha. set (rb := cs_rebuildHook s && rq_RebuildHistory req) in Ha.
  assert (∃ x4, (if rb then (MarkRebuildRequested db c (cs_newid s) (cs_now s) (rows ++ [x3])).1 else rows ++ [x3]) = rows ++ [x4] ∧
    holds s db c user exchange label (rq_Passphrase req) rows (cs_newid s) x4 t.1 t.2 ∧ (rw_requestedAt x4 ≠ None → rb = true)) as (x4 & E4 & H4 & R4).
  { destruct rb; [destruct (consent_last s db c user exchange label (rq_Passphrase req) rows (cs_newid s) x3 t.1 t.2 H3) as (x4 & E4 & H4); by exists x4|].
    exists x3. split_and!; [done..|]. intros []. congruence. }
  rewrite E4 in Ha. injection Ha as <- _. exists x4, t. pose proof (ho_label _ _ _ _ _ _ _ _ _ _ _ _ H4) as HL. split_and!; try done; try apply H4.
  - rewrite (opens_decrypt _ _ _ _ _ (ho_opens _ _ _ _ _ _ _ _ _ _ _ _ H4)). apply has_label_spec in HL as [Hm _]. unfold among in Hm. rewrite !andb_true_iff, !String.eqb_eq in Hm.
    destruct Hm as [[<- <-] _]. done.
  - intros HR. specialize (R4 HR). unfold rb in R4. by apply andb_true_iff in R4 as [_ ?].
Qed.

(** C19: a refused connect leaves no trace.  On an exchange whose credentials are not OAuth tokens, credentials the broker
    answered for and did not accept are never stored, whatever the answer said, and every refusal (a taken label, the
    same credentials under another label, an account already measured, a failed statement) leaves the table as it was
    and starts no sync. *)
Theorem refused_connect_leaves_no_trace s db c req rows rows' r h :
  Create sha256 s db c req rows = (rows', r, h) → isOAuthExchange (Window.normalizeExchange (rq_Exchange req)) = false →
  (∀ tc e, cs_factory s (Window.normalizeExchange (rq_Exchange req)) (rq_APIKey req) (rq_APISecret req) (rq_Passphrase req) = Ok tc →
     tc_TestConnection tc = Some e → ce_transient e = false → ∃ err, r = Err err) ∧
  (∀ err, r = Err err → rows' = rows ∧ h = None).
Proof.
  intros Hc Ho. pose proof (create_cases _ _ _ _ _ _ _ _ Hc) as H. split; [|by intros err ->; destruct H as (? & _ & ?); auto].
  intros tc e Hf Ht Hn. destruct r as [[]|err]; [|by exists err]. destruct H as [(? & _)|(tc' & pinned & key & secret & v & id & x & Hcr & _)]; [congruence|].
  pose proof (cr_made _ _ _ _ _ _ _ _ _ _ _ _ Hcr) as Hm. assert (tc' = tc) as -> by congruence.
  pose proof (cr_tested _ _ _ _ _ _ _ _ _ _ _ _ Hcr) as Hr. rewrite Ht in Hr. change (connect_refusal (Window.normalizeExchange (rq_Exchange req)) e = None) in Hr. unfold connect_refusal in Hr. rewrite Hn, Ho in Hr.
  destruct (IsIPRestriction e); [done|]. by destruct (ClassifyConnectFailure e).
Qed.

End ops.

(** ** A table *)

Definition toy_sha (x : string) : string := Vault.toy_tag x +:+ Vault.toy_tag x.

Lemma toy_sha_length x : String.length (toy_sha x) = 32%nat.
Proof. unfold toy_sha. by rewrite string_length_app, Vault.toy_tag_length. Qed.

Definition sample_caps : capabilities := mkCaps true true true true true true true.
Definition no_fault : faults := λ _, None.

(** An IBKR Flex statement of two accounts; a rotation of the tokens by the paper probe. *)
Definition sample_conn : test_conn := mkTestConn None (Some ["U1"; "U2"]) (Some ("k2", "s2")) (Some (Ok true)) (Some ("k3", "s3")).
Definition other_conn : test_conn := mkTestConn None (Some ["U7"]) None None None.

Definition sample_srv (id : string) (tc : test_conn) : service :=
  mkConnService Vault.sample_service (λ _ _ _ _, Ok tc) true true (λ _ _, false) (λ _, Ok Vault.sample_iv) id id zero_time.

Definition sample_req (label key : string) : CreateConnectionRequest := mkRequest "user-1" "ibkr" label key "s" "" 0 false true.

Definition create_sample (id : string) (tc : test_conn) (label key : string) (rows : list row) : list row * res unit * option hooks :=
  Create (A := Vault.toy_aead) toy_sha (sample_srv id tc) no_fault sample_caps (sample_req label key) rows.

Definition one_row : list row := Eval vm_compute in (create_sample "c1" sample_conn "main" "k" []).1.1.
Definition two_rows : list row := Eval vm_compute in (create_sample "c2" other_conn "second" "kk" one_row).1.1.

Lemma one_row_made : create_sample "c1" sample_conn "main" "k" [] = (one_row, Ok tt, Some (mkHooks "user-1" "ibkr" "main" true true)).
Proof. vm_compute. reflexivity. Qed.

Lemma two_rows_made : create_sample "c2" other_conn "second" "kk" one_row = (two_rows, Ok tt, Some (mkHooks "user-1" "ibkr" "second" true true)).
Proof. vm_compute. reflexivity. Qed.

Lemma sample_reached : rtc (step (A := Vault.toy_aead) toy_sha) [] two_rows.
Proof.
  eapply rtc_l; [eapply (step_create (A := Vault.toy_aead) toy_sha (sample_srv "c1" sample_conn) no_fault sample_caps (sample_req "main" "k") []); by intros ?%not_elem_of_nil|].
  change (rtc (step (A := Vault.toy_aead) toy_sha) (create_sample "c1" sample_conn "main" "k" []).1.1 two_rows). rewrite one_row_made. cbn [fst].
  eapply rtc_l; [eapply (step_create (A := Vault.toy_aead) toy_sha (sample_srv "c2" other_conn) no_fault sample_caps (sample_req "second" "kk") one_row);
    change (rw_id <$> one_row) with ["c1"]; cbn [cs_newid cs_dbid sample_srv]; by intros ?%list_elem_of_singleton|].
  change (rtc (step (A := Vault.toy_aead) toy_sha) (create_sample "c2" other_conn "second" "kk" one_row).1.1 two_rows). rewrite two_rows_made. apply rtc_refl.
Qed.

(** Two connects at the same time: both checks read the empty table, then both
    write.  The same account is then in the pins of two active connections. *)
Lemma concurrent_connects_overlap :
  let check label := brokerAccountsAtConnect toy_sha no_fault sample_caps (Some ["U1"]) "user-1" "ibkr" label [] in
  let write id label key pinned rows :=
    (create_pinned (A := Vault.toy_aead) toy_sha (sample_srv id (mkTestConn None (Some ["U1"]) None None None)) no_fault sample_caps (sample_req label key) "ibkr" label
      (hashCredentials toy_sha key "s" "") (mkTestConn None (Some ["U1"]) None None None) pinned rows).1.1 in
  ∃ pinned x y, check "main" = Ok pinned ∧ check "second" = Ok pinned ∧ write "c2" "second" "kk" pinned (write "c1" "main" "k" pinned []) = [x; y] ∧
    beside x y ∧ measures toy_sha x "U1" ∧ measures toy_sha y "U1".
Proof.
  cbn zeta. eexists _, _, _. split; [vm_compute; reflexivity|]. split; [vm_compute; reflexivity|]. split; [vm_compute; reflexivity|].
  split; [by split_and!|]. split; (eexists; split; [reflexivity|]; apply (bool_decide_unpack _); vm_compute; exact I).
Qed.

Lemma no_account_measured_twice_witness : ∃ x y, two_rows !! 0%nat = Some x ∧ two_rows !! 1%nat = Some y ∧ rw_label x ≠ rw_label y ∧
  measures toy_sha x "U1" ∧ ¬ (measures toy_sha x "U1" ∧ measures toy_sha y "U1").
Proof.
  eexists _, _. split_and!; [reflexivity|reflexivity|..]; [|eexists; split; [reflexivity|]; apply (bool_decide_unpack _); vm_compute; exact I|]; eapply (no_account_measured_twice (A := Vault.toy_aead) toy_sha two_rows 0 1); first [exact sample_reached|done|reflexivity|repeat split].
Defined.

Lemma refused_connect_leaves_no_trace_witness :
  (create_sample "c3" (mkTestConn (Some (mkConnError "HTTP 401 unauthorized" false false)) None None None None) "third" "kkk" two_rows).1.1 = two_rows.
Proof.
  destruct (create_sample "c3" (mkTestConn (Some (mkConnError "HTTP 401 unauthorized" false false)) None None None None) "third" "kkk" two_rows) as [[rows' r] h] eqn:E.
  destruct (refused_connect_leaves_no_trace (A := Vault.toy_aead) toy_sha _ _ _ _ _ _ _ _ E eq_refl) as [H1 H2].
  destruct (H1 _ _ eq_refl eq_refl eq_refl) as [err Hr]. exact (proj1 (H2 err Hr)).
Defined.

Lemma connect_adds_one_row_witness : ∃ x, one_row = [x] ∧
  Vault.decryptConnection (A := Vault.toy_aead) Vault.sample_service (rw_vault x) = Vault.Ret (Ok (Vault.mkCredentials "user-1" "ibkr" "k3" "s3" "" (Vault.cn_IsPaper (rw_vault x)), false)).
Proof.
  destruct (connect_adds_one_row (A := Vault.toy_aead) (AL := Vault.toy_aead_laws) toy_sha (sample_srv "c1" sample_conn) no_fault sample_caps (sample_req "main" "k") sample_conn [] one_row _
    ltac:(intros n; by eexists) eq_refl ltac:(by intros ?%not_elem_of_nil) ltac:(discriminate) ltac:(by intros ? ?%not_elem_of_nil) eq_refl one_row_made)
    as (x & t & Hr & _ & _ & _ & Hd & _ & _ & Ht & _).
  exists x. split; [exact Hr|]. rewrite (Ht eq_refl eq_refl) in Hd. exact Hd.
Defined.

(** A daily statement of the second connection pinned to U7, then a past one of it. *)
Lemma history_keeps_accounts_witness :
  (∀ b, b ∈ [" u7"] → normal b ∈ normal <$> ["U7"]) ∧ (false = false → ∀ a, a ∈ ["U7"] → normal a ∈ normal <$> [" u7"]).
Proof.
  eapply (history_keeps_accounts (A := Vault.toy_aead) toy_sha no_fault no_fault sample_caps sample_caps "user-1" "ibkr" "second" ["U7"] [" u7"] false two_rows two_rows two_rows two_rows 1).
  1: exact toy_sha_length.
  1: { intros a b Ha Hb _. apply list_elem_of_singleton in Ha as ->. apply list_elem_of_singleton in Hb as ->. reflexivity. }
  1: exact sample_reached.
  1: { split; vm_compute; reflexivity. }
  1-2: reflexivity.
  1-2: discriminate.
  1: reflexivity.
  1-3: vm_compute; reflexivity.
  1: apply rtc_refl.
  1: reflexivity.
  1-2: vm_compute; reflexivity.
Defined.

End ConnectSafe.
