(* ===== verification/Auth.v ===== *)
(** * Who may ask, and for what (internal/auth/jwt.go, internal/validation/validation.go)

    The verification of a bearer token, and the checks every request passes
    before it reaches a service.  The HMAC and the decoding of the two JSON
    objects of a token are parameters. *)

From S2P Require Import Prelude GoTime GoText Num Types Returns Encoding.
From stdpp Require Import base gmap strings pretty tactics list.
From Stdlib Require Import ZArith Ascii Lia.
Import Encoding Returns.
Local Open Scope Z_scope.

Module Auth.

(** ** base64, URL alphabet without padding *)

Definition url_char (c : ascii) : ascii := if Ascii.eqb c "+" then "-"%char else if Ascii.eqb c "/" then "_"%char else c.

Fixpoint to_url (s : string) : string :=
  match s with
  | EmptyString => ""
  | String c s' => if is_pad c then to_url s' else String (url_char c) (to_url s')
  end.

(** [base64.RawURLEncoding.EncodeToString] *)
Definition rawurl_encode (s : string) : string := to_url (b64_encode s).

Definition url_value (c : ascii) : option N :=
  if Ascii.eqb c "-" then Some 62%N else if Ascii.eqb c "_" then Some 63%N
  else if Ascii.eqb c "+" || Ascii.eqb c "/" then None else b64_value c.

Fixpoint url_quads (s : string) : option string :=
  match s with
  | EmptyString => Some ""
  | String a (String b EmptyString) => x ← url_value a; y ← url_value b; Some (String (byte_of (4 * x + y / 16)) "")
  | String a (String b (String c EmptyString)) =>
      x ← url_value a; y ← url_value b; z ← url_value c;
      Some (String (byte_of (4 * x + y / 16)) (String (byte_of (16 * (y mod 16) + z / 4)) ""))
  | String a (String b (String c (String d s'))) =>
      x ← url_value a; y ← url_value b; z ← url_value c; w ← url_value d; t ← url_quads s';
      Some (String (byte_of (4 * x + y / 16)) (String (byte_of (16 * (y mod 16) + z / 4)) (String (byte_of (64 * (z mod 4) + w)) t)))
  | _ => None
  end.

(** [base64.RawURLEncoding.DecodeString] *)
Definition rawurl_decode (s : string) : option string := url_quads (strip_newlines s).

(** ** Tokens *)

Inductive token_error :=
| ErrMalformedToken | ErrInvalidSignature | ErrTokenExpired | ErrMissingExp | ErrTokenNotYetValid
| ErrInvalidAudience | ErrInvalidIssuer | ErrInvalidAlgorithm | ErrInvalidType | ErrMissingSub.

Definition RequiredAudience : string := "go-enclave".
Definition defaultClockSkew : duration := 30 * Second.

Record Claims := mkClaims { cl_Sub : string; cl_Aud : string; cl_Iss : string; cl_Exp : Z; cl_Nbf : Z; cl_Iat : Z }.
Record header := mkHeader { hd_Alg : string; hd_Typ : string }.
Record VerifyOptions := mkOptions { vo_ExpectedIssuer : string; vo_ClockSkew : duration }.

(** [t.Unix()] *)
Definition Unix (t : time) : Z := t / Second.

Definition dot : ascii := ascii_of_nat 46.

Section jwt.
Context (hmac : string → string → string) (header_of : string → option header) (claims_of : string → option Claims).

(** The claims of a payload, at a time; the checks are in this order. *)
Definition check_claims (now : time) (opts : VerifyOptions) (claims : Claims) : token_error + Claims :=
  let skew := if vo_ClockSkew opts =? 0 then defaultClockSkew else vo_ClockSkew opts in
  let skew := if skew <? 0 then 0 else skew in
  if cl_Exp claims <=? 0 then inl ErrMissingExp
  else if cl_Exp claims <? Unix (now - skew) then inl ErrTokenExpired
  else if (0 <? cl_Nbf claims) && (Unix (now + skew) <? cl_Nbf claims) then inl ErrTokenNotYetValid
  else if negb (String.eqb (cl_Aud claims) RequiredAudience) then inl ErrInvalidAudience
  else if negb (String.eqb (vo_ExpectedIssuer opts) "") && negb (String.eqb (cl_Iss claims) (vo_ExpectedIssuer opts)) then inl ErrInvalidIssuer
  else if String.eqb (cl_Sub claims) "" then inl ErrMissingSub
  else inr claims.

Definition VerifyHS256WithOptions (now : time) (tokenStr secret : string) (opts : VerifyOptions) : token_error + Claims :=
  match Split dot tokenStr with
  | [h; p; s] =>
      match (b ← rawurl_decode h; header_of b) with
      | None => inl ErrMalformedToken
      | Some hdr =>
          if negb (String.eqb (hd_Alg hdr) "HS256") then inl ErrInvalidAlgorithm
          else if negb (String.eqb (hd_Typ hdr) "") && negb (String.eqb (hd_Typ hdr) "JWT") then inl ErrInvalidType
          else if negb (String.eqb (rawurl_encode (hmac secret (h +:+ "." +:+ p))) s) then inl ErrInvalidSignature
          else match (b ← rawurl_decode p; claims_of b) with
          | None => inl ErrMalformedToken
          | Some claims => check_claims now opts claims
          end
      end
  | _ => inl ErrMalformedToken
  end.

Definition VerifyHS256 (now : time) (tokenStr secret : string) : token_error + Claims := VerifyHS256WithOptions now tokenStr secret (mkOptions "" 0).

End jwt.

(** The context of a request carries the verified user, if any. *)
Abbreviation context := (option string).

Definition WithUserUID (ctx : context) (uid : string) : context := Some uid.

Definition UserUIDFromContext (ctx : context) : option string :=
  match ctx with Some uid => if String.eqb uid "" then None else Some uid | None => None end.

(** ** Validation; [None] is no error *)

Definition maxUserUIDLen : nat := 100.
Definition maxExchangeLen : nat := 50.
Definition maxLabelLen : nat := 100.
Definition maxAPIKeyLen : nat := 500.
Definition maxAPISecretLen : nat := 500.
Definition maxPassphraseLen : nat := 500.
Definition maxTimestampRangeYears : Z := 5.
Definition maxFutureTimestampSkew : duration := 24 * Hour.
Definition minSyncIntervalMinutes : Z := 5.
Definition maxSyncIntervalMinutes : Z := 10080.

Definition in_range (lo hi : N) (c : ascii) : bool := let n := N_of_ascii c in (lo <=? n)%N && (n <=? hi)%N.
Definition is_digit : ascii → bool := in_range 48 57.
Definition is_lower : ascii → bool := in_range 97 122.
Definition is_upper : ascii → bool := in_range 65 90.
Definition is_alnum (c : ascii) : bool := is_lower c || is_upper c || is_digit c.
Definition is_hex (c : ascii) : bool := is_digit c || in_range 97 102 c || in_range 65 70 c.

Definition counted (p : ascii → bool) (lo hi : nat) (s : string) : bool := Nat.leb lo (String.length s) && Nat.leb (String.length s) hi && all_chars p s.

Definition clerkIDRegex (s : string) : bool := HasPrefix s "user_" && counted is_alnum 10 50 (drop_str 5 s).

Definition uuidRegex (s : string) : bool :=
  match Split "-"%char s with
  | [a; b; c; d; e] => counted is_hex 8 8 a && counted is_hex 4 4 b && counted is_hex 4 4 c && counted is_hex 4 4 d && counted is_hex 12 12 e
  | _ => false
  end.

Definition cuidRegex (s : string) : bool := HasPrefix s "c" && counted (λ c, is_lower c || is_digit c) 20 30 (drop_str 1 s).

Definition exchange_char (c : ascii) : bool := is_lower c || is_digit c || Ascii.eqb c "_" || Ascii.eqb c "-".
Definition exchangeRegex (s : string) : bool := negb (String.eqb s "") && all_chars exchange_char s.
Definition benchmarkRegex (s : string) : bool := counted (λ c, is_alnum c || Ascii.eqb c "-") 1 16 s.
Definition currencyRegex (s : string) : bool := counted is_upper 3 3 s.

Definition too_long (field : string) (max : nat) : string := field +:+ " too long: max " +:+ pretty max +:+ " characters".

Definition ValidateUserUID (uid : string) : option string :=
  if String.eqb uid "" then Some "user_uid is required"
  else if Nat.ltb maxUserUIDLen (String.length uid) then Some (too_long "user_uid" maxUserUIDLen)
  else if clerkIDRegex uid || uuidRegex uid || cuidRegex uid then None
  else Some "invalid user_uid format: must be Clerk ID, UUID, or CUID".

Definition ValidateExchange (exchange : string) : option string :=
  if String.eqb exchange "" then Some "exchange is required"
  else if Nat.ltb maxExchangeLen (String.length exchange) then Some (too_long "exchange" maxExchangeLen)
  else if negb (exchangeRegex exchange) then Some "invalid exchange format: must match [a-z0-9_-]+"
  else None.

(** The runes it refuses are ASCII, so they are looked for by byte. *)
Definition illegal (c : ascii) : bool := Ascii.eqb c "/" || Ascii.eqb c (ascii_of_nat 92) || (N_of_ascii c <? 32)%N || (N_of_ascii c =? 127)%N.

Definition ValidateLabel (label : string) : option string :=
  if String.eqb (TrimSpace label) "" then Some "label is required"
  else if Nat.ltb maxLabelLen (String.length label) then Some (too_long "label" maxLabelLen)
  else if negb (all_chars (λ c, negb (illegal c)) label) then Some "label contains an illegal character (no '/', '\', or control characters)"
  else None.

Definition limit (field : string) (max : nat) (s : string) : option string := if Nat.ltb max (String.length s) then Some (too_long field max) else None.

Definition ValidateAPIKey : string → option string := limit "api_key" maxAPIKeyLen.
Definition ValidateAPISecret : string → option string := limit "api_secret" maxAPISecretLen.
Definition ValidatePassphrase : string → option string := limit "passphrase" maxPassphraseLen.

Definition ValidateSyncIntervalMinutes (minutes : Z) : option string :=
  if minutes =? 0 then None
  else if (minutes <? minSyncIntervalMinutes) || (maxSyncIntervalMinutes <? minutes) then
    Some ("sync_interval_minutes must be between " +:+ pretty minSyncIntervalMinutes +:+ " and " +:+ pretty maxSyncIntervalMinutes)
  else None.

(** [t.AddDate(years, 0, 0)] in UTC: a day the year lacks runs into the next month. *)
Definition AddYears (years : Z) (t : time) : time := let '(y, m, d) := civil (day_index t) in day_of_civil (y + years) m d * Day + (t - truncDay t).

Definition ValidateTimestampRange (start end_ : time) : option string :=
  if negb (IsZero start) && negb (IsZero end_) then
    if Before end_ start then Some "end_date must be after start_date"
    else if After end_ (AddYears maxTimestampRangeYears start) then Some ("date range too large: max " +:+ pretty maxTimestampRangeYears +:+ " years")
    else None
  else None.

Definition maxStatementPeriodDays : Z := 365.

Definition ParseStatementPeriod (fromStr toStr : string) (now : time) : res (time * time) :=
  if String.eqb fromStr "" || String.eqb toStr "" then Err "from and to are both required"
  else match ParseDate fromStr, ParseDate toStr with
  | None, _ => Err "invalid from format: use YYYY-MM-DD"
  | _, None => Err "invalid to format: use YYYY-MM-DD"
  | Some from, Some to =>
      if Before to from then Err "to must not be before from"
      else if After to (now + maxFutureTimestampSkew) then Err "to must not be in the future"
      else if maxStatementPeriodDays * 24 * Hour <=? Sub to from then Err ("period too long: max " +:+ pretty maxStatementPeriodDays +:+ " days")
      else Ok (from, to)
  end.

Definition maxHistoryYears : Z := 10.

Definition ParseHistoryStart (fromStr : string) (now : time) : res time :=
  if String.eqb fromStr "" then Err "from is required"
  else match ParseDate fromStr with
  | None => Err "invalid from format: use YYYY-MM-DD"
  | Some from =>
      if negb (Before from now) then Err "from must be in the past"
      else if Before from (AddYears (- maxHistoryYears) now) then Err ("from too far back: max " +:+ pretty maxHistoryYears +:+ " years")
      else Ok from
  end.

Definition Milli : duration := 1000000.

Definition ValidateOptionalTimestampMillis (now : time) (ts : Z) (field : string) : option string :=
  if ts =? 0 then None
  else if ts <? 0 then Some (field +:+ " must be a positive Unix timestamp in milliseconds")
  else if (now + maxFutureTimestampSkew) / Milli <=? ts then Some (field +:+ " must be less than 24h in the future")
  else None.

Record CreateConnectionInput := mkInput {
  in_UserUID : string; in_Exchange : string; in_Label : string; in_APIKey : string; in_APISecret : string; in_Passphrase : string; in_SyncIntervalMinutes : Z }.

(** [a <|> b]: the first error. *)
Definition or_else (a b : option string) : option string := match a with Some e => Some e | None => b end.
Infix "<|>" := or_else (at level 60, right associativity).

Definition ValidateCreateConnection (req : CreateConnectionInput) : option string :=
  ValidateUserUID (in_UserUID req) <|> ValidateExchange (in_Exchange req) <|> ValidateLabel (in_Label req) <|>
  ValidateAPIKey (in_APIKey req) <|> ValidateAPISecret (in_APISecret req) <|> ValidatePassphrase (in_Passphrase req) <|>
  ValidateSyncIntervalMinutes (in_SyncIntervalMinutes req) <|> (if String.eqb (in_APIKey req) "" then Some "api_key is required" else None).

Definition ValidateSyncRequest (userUID exchange : string) : option string :=
  ValidateUserUID userUID <|> (if String.eqb exchange "" then None else ValidateExchange exchange).

Section report.
Context {F : Type} `{Num F}.

Record ReportInput := mkReportInput { ri_UserUID : string; ri_StartDate : string; ri_EndDate : string; ri_Benchmark : string; ri_BaseCurrency : string; ri_RiskFreeRate : F }.

(** A date that is not given is the zero time. *)
Definition optional_date (s : string) : option time := if String.eqb s "" then Some zero_time else ParseDate s.

Definition ValidateReportRequest (req : ReportInput) : option string :=
  ValidateUserUID (ri_UserUID req) <|>
  match optional_date (ri_StartDate req), optional_date (ri_EndDate req) with
  | None, _ => Some "invalid start_date format: use YYYY-MM-DD"
  | _, None => Some "invalid end_date format: use YYYY-MM-DD"
  | Some start, Some end_ =>
      (if negb (IsZero start) && negb (IsZero end_) then ValidateTimestampRange start end_ else None) <|>
      (if negb (String.eqb (ri_Benchmark req) "") && negb (benchmarkRegex (ri_Benchmark req)) then Some "invalid benchmark symbol format" else None) <|>
      (if negb (String.eqb (ri_BaseCurrency req) "") && negb (currencyRegex (ri_BaseCurrency req)) then Some "invalid base_currency: use a three-letter ISO code" else None) <|>
      (if fltb (ri_RiskFreeRate req) f0 || fltb (fofZ 25) (ri_RiskFreeRate req) then Some "risk_free_rate must be between 0 and 25 (annual %)" else None)
  end.
End report.

(** ** Excluded connections *)

Definition isConnectionExcluded (excluded : gset string) (exchange label : string) : bool :=
  bool_decide (snapshotConnectionKey exchange label ∈ excluded) || bool_decide (ToLower (TrimSpace exchange) ∈ excluded).

(** ** Characters of a validated text *)

Fixpoint slash_free (s : string) : bool := match s with EmptyString => true | String c s' => negb (Ascii.eqb c "/") && slash_free s' end.

Lemma all_slash_free s : slash_free s = all_chars (λ c, negb (Ascii.eqb c "/")) s.
Proof. induction s as [|c s IH]; cbn; [done|by rewrite IH]. Qed.

Lemma by_byte (P : ascii → bool) : (∀ n, (n < 256)%N → P (ascii_of_N n) = true) → ∀ c, P c = true.
Proof. intros H c. rewrite <- (ascii_N_embedding c). apply H, N_ascii_bounded. Qed.

(** An exchange that passed is its own normal form. *)
Lemma exchange_char_spec c : implb (exchange_char c) (negb (Ascii.eqb c "/") && negb (is_space c) && Ascii.eqb (lower_ascii c) c) = true.
Proof.
  revert c. apply by_byte. apply (below_spec 256 (λ n, let c := ascii_of_N n in implb (exchange_char c) (negb (Ascii.eqb c "/") && negb (is_space c) && Ascii.eqb (lower_ascii c) c) = true)).
  vm_compute. reflexivity.
Qed.

Lemma exchange_id e : all_chars exchange_char e = true → ToLower e = e ∧ slash_free e = true ∧ all_chars (λ c, negb (is_space c)) e = true.
Proof.
  induction e as [|c e IH]; cbn; [done|]. intros [Hc He]%andb_true_iff. destruct (IH He) as (El & Es & Et). pose proof (exchange_char_spec c) as H. rewrite Hc in H. cbn in H.
  rewrite !andb_true_iff in H. destruct H as [[H1 H2] H3%Ascii.eqb_eq]. by rewrite El, Es, Et, H1, H2, H3.
Qed.

Lemma TrimSpace_no_space s : all_chars (λ c, negb (is_space c)) s = true → TrimSpace s = s.
Proof.
  intros H. unfold TrimSpace. assert (trim_left s = s) as -> by (destruct s as [|c s]; [done|]; cbn in *; apply andb_true_iff in H as [H%negb_true_iff _]; by rewrite H).
  induction s as [|c s IH]; [done|]. cbn in H. apply andb_true_iff in H as [Hc%negb_true_iff Hs]. cbn. rewrite (IH Hs). destruct s; [by rewrite Hc|done].
Qed.

Lemma valid_exchange e : ValidateExchange e = None → e ≠ "" ∧ ToLower (TrimSpace e) = e ∧ slash_free e = true.
Proof.
  unfold ValidateExchange. destruct (String.eqb_spec e "") as [|He]; [done|]. destruct (Nat.ltb _ _); [done|]. unfold exchangeRegex. rewrite (proj2 (String.eqb_neq _ _) He). cbn.
  destruct (all_chars exchange_char e) eqn:E; [|done]. intros _. destruct (exchange_id e E) as (El & Es & Et). by rewrite (TrimSpace_no_space e Et), El.
Qed.

Lemma lower_slash c : Ascii.eqb (lower_ascii c) "/" = Ascii.eqb c "/".
Proof.
  apply eqb_true_iff. revert c. apply (by_byte (λ c, Bool.eqb (Ascii.eqb (lower_ascii c) "/") (Ascii.eqb c "/"))).
  apply (below_spec 256 (λ n, Bool.eqb (Ascii.eqb (lower_ascii (ascii_of_N n)) "/") (Ascii.eqb (ascii_of_N n) "/") = true)). vm_compute. reflexivity.
Qed.

Lemma slash_free_lower s : slash_free (ToLower s) = slash_free s.
Proof. induction s as [|c s IH]; cbn; [done|]. by rewrite lower_slash, IH. Qed.

Lemma slash_free_trim s : slash_free s = true → slash_free (TrimSpace s) = true.
Proof.
  assert (∀ s, slash_free s = true → slash_free (trim_left s) = true) as Hl.
  { induction s0 as [|c s0 IH]; cbn; [done|]. intros [Hc Hs]%andb_true_iff. destruct (is_space c); [by apply IH|]. cbn. by rewrite Hc, Hs. }
  assert (∀ s, slash_free s = true → slash_free (trim_right s) = true) as Hr.
  { induction s0 as [|c s0 IH]; cbn; [done|]. intros [Hc Hs]%andb_true_iff. specialize (IH Hs). destruct (trim_right s0); [destruct (is_space c); [done|]|]; cbn in *; by rewrite Hc. }
  intros H. by apply Hr, Hl.
Qed.

Lemma valid_label l : ValidateLabel l = None → TrimSpace l ≠ "" ∧ slash_free (ToLower (TrimSpace l)) = true.
Proof.
  unfold ValidateLabel. destruct (String.eqb_spec (TrimSpace l) "") as [|Hl]; [done|]. destruct (Nat.ltb _ _); [done|]. destruct (all_chars _ l) eqn:E; [|done]. intros _. split; [done|].
  rewrite slash_free_lower. apply slash_free_trim. rewrite all_slash_free. eapply all_chars_impl; [|exact E]. intros c. unfold illegal. rewrite !negb_orb, !andb_true_iff. tauto.
Qed.

Lemma slash_split a b x y : slash_free a = true → slash_free b = true → a +:+ String "/" x = b +:+ String "/" y → a = b ∧ x = y.
Proof.
  revert b. induction a as [|c a IH]; intros [|d b]; cbn [slash_free]; rewrite ?string_app_cons; cbn.
  - by intros _ _ [= ->].
  - intros _ [Hd _]%andb_true_iff [= <- _]. done.
  - intros [Hc _]%andb_true_iff _ [= -> _]. done.
  - intros [_ Ha]%andb_true_iff [_ Hb]%andb_true_iff [= -> E]. destruct (IH b Ha Hb E) as [-> ->]. done.
Qed.

Lemma lower_empty s : ToLower s = "" → s = "".
Proof. by destruct s. Qed.

Lemma valid_key e l : ValidateExchange e = None → ValidateLabel l = None → snapshotConnectionKey e l = e +:+ String "/" (ToLower (TrimSpace l)).
Proof.
  intros (_ & He & _)%valid_exchange (Hl & _)%valid_label. unfold snapshotConnectionKey. rewrite He. destruct (String.eqb_spec (ToLower (TrimSpace l)) "") as [E|]; [|done]. by apply lower_empty in E.
Qed.

Lemma slash_free_app a x : slash_free (a +:+ String "/" x) = false.
Proof. induction a as [|c a IH]; [done|]. rewrite string_app_cons. cbn. rewrite IH. by rewrite andb_false_r. Qed.

(** Leaving a connection out of a report leaves out that connection and no other.  Over connections whose exchange and
    label passed validation, a connection is excluded by the keys of a list of them exactly when one of the list has
    its exchange and its label, up to the label's case and surrounding white space: no pair reads as another's key,
    and none as the name of an exchange. *)
Lemma exclusion_exact (cs : list (string * string)) e l :
  (∀ c, c ∈ cs → ValidateExchange c.1 = None ∧ ValidateLabel c.2 = None) → ValidateExchange e = None → ValidateLabel l = None →
  isConnectionExcluded (list_to_set ((λ c, snapshotConnectionKey c.1 c.2) <$> cs)) e l = true ↔
  ∃ c, c ∈ cs ∧ c.1 = e ∧ EqualFold (TrimSpace c.2) (TrimSpace l) = true.
Proof.
  intros Hcs He Hl. unfold isConnectionExcluded, EqualFold. rewrite orb_true_iff, !bool_decide_eq_true, !elem_of_list_to_set, !list_elem_of_fmap.
  pose proof (valid_exchange e He) as (_ & Ee & Es). rewrite Ee. split.
  - intros [(c & Hk & Hc)|(c & Hk & Hc)]; destruct (Hcs c Hc) as [H1 H2]; rewrite (valid_key c.1 c.2 H1 H2) in Hk.
    + rewrite (valid_key e l He Hl) in Hk. apply slash_split in Hk as [-> E]; [|done|by apply (valid_exchange _ H1)]. exists c. by rewrite String.eqb_eq.
    + rewrite Hk, slash_free_app in Es. done.
  - intros (c & Hc & <- & E%String.eqb_eq). left. exists c. destruct (Hcs c Hc) as [H1 H2]. by rewrite !valid_key, E.
Qed.

(** ** Round trip of the URL alphabet *)

Lemma url_char_spec n : (n < 64)%N → url_value (url_char (b64_char n)) = Some n ∧ is_newline (url_char (b64_char n)) = false ∧ Ascii.eqb (url_char (b64_char n)) dot = false.
Proof.
  apply (below_spec 64 (λ n, url_value (url_char (b64_char n)) = Some n ∧ is_newline (url_char (b64_char n)) = false ∧ Ascii.eqb (url_char (b64_char n)) dot = false)).
  vm_compute. reflexivity.
Qed.

(** The characters of three bytes. *)
Ltac url_quad a b c :=
  let H := fresh in
  pose proof (b64_quad_a a b c) as H; cbn zeta in H; rewrite ?N.mul_0_r, ?N.add_0_r in H;
  destruct H as (? & ? & ? & ? & Ea & Eb & Ec); [first [apply N_ascii_bounded|done]..|];
  repeat match goal with
  | Hn : (?n < 64)%N |- _ => destruct (url_char_spec n Hn) as (? & ? & ?); destruct (b64_char_spec n Hn) as (_ & ? & _); clear Hn
  end;
  repeat match goal with
  | He : is_pad (b64_char _) = false |- _ => rewrite ?He; clear He
  end; cbn [to_url strip_newlines url_quads lacks];
  repeat match goal with
  | He : is_newline (url_char (b64_char _)) = false |- _ => rewrite ?He; clear He
  | He : Ascii.eqb (url_char (b64_char _)) dot = false |- _ => rewrite ?He; clear He
  end; cbn [to_url strip_newlines url_quads lacks];
  repeat match goal with
  | He : url_value (url_char (b64_char _)) = Some _ |- _ => rewrite ?He; clear He
  end; cbn [mbind option_bind].

Lemma rawurl_strip s : strip_newlines (rawurl_encode s) = rawurl_encode s.
Proof.
  unfold rawurl_encode. induction s as [|a|a b|a b c s IH] using string_ind3; [done|..]; cbn [b64_encode to_url]; cbn zeta.
  - by url_quad (N_of_ascii a) 0%N 0%N.
  - by url_quad (N_of_ascii a) (N_of_ascii b) 0%N.
  - url_quad (N_of_ascii a) (N_of_ascii b) (N_of_ascii c). by rewrite IH.
Qed.

Lemma rawurl_dotless s : lacks dot (rawurl_encode s) = true.
Proof.
  unfold rawurl_encode. induction s as [|a|a b|a b c s IH] using string_ind3; [done|..]; cbn [b64_encode to_url]; cbn zeta.
  - by url_quad (N_of_ascii a) 0%N 0%N.
  - by url_quad (N_of_ascii a) (N_of_ascii b) 0%N.
  - url_quad (N_of_ascii a) (N_of_ascii b) (N_of_ascii c). by rewrite IH.
Qed.

Lemma rawurl_roundtrip s : rawurl_decode (rawurl_encode s) = Some s.
Proof.
  unfold rawurl_decode. rewrite rawurl_strip. unfold rawurl_encode. induction s as [|a|a b|a b c s IH] using string_ind3; [done|..]; cbn [b64_encode to_url]; cbn zeta.
  - url_quad (N_of_ascii a) 0%N 0%N. by rewrite Ea, byte_of_N_of.
  - url_quad (N_of_ascii a) (N_of_ascii b) 0%N. by rewrite Ea, Eb, !byte_of_N_of.
  - url_quad (N_of_ascii a) (N_of_ascii b) (N_of_ascii c). rewrite IH. cbn [mbind option_bind]. by rewrite Ea, Eb, Ec, !byte_of_N_of.
Qed.

(** ** What a token proves *)

Definition skew_of (opts : VerifyOptions) : duration := Z.max 0 (if vo_ClockSkew opts =? 0 then defaultClockSkew else vo_ClockSkew opts).

(** The claims hold at a time, for this enclave. *)
Definition valid_at (now : time) (opts : VerifyOptions) (cl : Claims) : Prop :=
  0 < cl_Exp cl ∧ Unix (now - skew_of opts) <= cl_Exp cl ∧ (0 < cl_Nbf cl → cl_Nbf cl <= Unix (now + skew_of opts)) ∧
  cl_Aud cl = RequiredAudience ∧ (vo_ExpectedIssuer opts ≠ "" → cl_Iss cl = vo_ExpectedIssuer opts) ∧ cl_Sub cl ≠ "".

Lemma check_claims_spec now opts cl cl' : check_claims now opts cl = inr cl' ↔ cl' = cl ∧ valid_at now opts cl.
Proof.
  unfold check_claims, valid_at. cbn zeta.
  assert ((if (if vo_ClockSkew opts =? 0 then defaultClockSkew else vo_ClockSkew opts) <? 0 then 0 else if vo_ClockSkew opts =? 0 then defaultClockSkew else vo_ClockSkew opts) = skew_of opts) as ->
    by (unfold skew_of; destruct (Z.ltb_spec (if vo_ClockSkew opts =? 0 then defaultClockSkew else vo_ClockSkew opts) 0); lia).
  destruct (Z.leb_spec (cl_Exp cl) 0); [split; [done|intros (_ & ? & _); lia]|].
  destruct (Z.ltb_spec (cl_Exp cl) (Unix (now - skew_of opts))); [split; [done|intros (_ & _ & ? & _); lia]|].
  destruct (Z.ltb_spec 0 (cl_Nbf cl)); destruct (Z.ltb_spec (Unix (now + skew_of opts)) (cl_Nbf cl)); cbn [andb]; try (split; [done|intros (_ & _ & _ & Hn & _); lia]);
  (destruct (String.eqb_spec (cl_Aud cl) RequiredAudience) as [Ha|]; cbn [negb]; [|split; [done|naive_solver]];
   destruct (String.eqb_spec (vo_ExpectedIssuer opts) "") as [E|E]; cbn [negb andb];
   [|destruct (String.eqb_spec (cl_Iss cl) (vo_ExpectedIssuer opts)) as [Ei|]; cbn [negb]; [|split; [done|naive_solver]]];
   (destruct (String.eqb_spec (cl_Sub cl) "") as [|Hs]; [split; [done|naive_solver]|]; split; [intros [= <-]; split_and!; done || lia|by intros [-> _]])).
Qed.

Section issuer.
Context (hmac : string → string → string) (header_of : string → option header) (claims_of : string → option Claims).

(** What the issuer signs, and the token it hands out. *)
Definition signed_text (hd pl : string) : string := rawurl_encode hd +:+ String dot (rawurl_encode pl).
Definition issue (secret hd pl : string) : string := signed_text hd pl +:+ String dot (rawurl_encode (hmac secret (signed_text hd pl))).

Lemma split_issue secret hd pl : Split dot (issue secret hd pl) = [rawurl_encode hd; rawurl_encode pl; rawurl_encode (hmac secret (signed_text hd pl))].
Proof.
  unfold issue, signed_text. rewrite <- string_app_assoc, string_app_cons. rewrite !split_app by apply rawurl_dotless. by rewrite split_plain by apply rawurl_dotless.
Qed.

Lemma token_spec now tok secret opts cl :
  VerifyHS256WithOptions hmac header_of claims_of now tok secret opts = inr cl ↔
  ∃ h p hd pl hdr, Split dot tok = [h; p; rawurl_encode (hmac secret (h +:+ String dot p))] ∧ rawurl_decode h = Some hd ∧ header_of hd = Some hdr ∧
    hd_Alg hdr = "HS256" ∧ (hd_Typ hdr = "" ∨ hd_Typ hdr = "JWT") ∧ rawurl_decode p = Some pl ∧ claims_of pl = Some cl ∧ valid_at now opts cl.
Proof.
  unfold VerifyHS256WithOptions. split.
  - destruct (Split dot tok) as [|h [|p [|s [|]]]] eqn:Es; try done. destruct (rawurl_decode h) as [hd|] eqn:Eh; [|done]. cbn [mbind option_bind].
    destruct (header_of hd) as [hdr|] eqn:Ehdr; [|done]. destruct (String.eqb_spec (hd_Alg hdr) "HS256") as [Ea|]; [|done]. cbn [negb].
    destruct (negb (String.eqb (hd_Typ hdr) "") && negb (String.eqb (hd_Typ hdr) "JWT")) eqn:Et; [done|]. destruct (String.eqb_spec (rawurl_encode (hmac secret (h +:+ "." +:+ p))) s) as [Hs|]; [|done].
    cbn [negb]. destruct (rawurl_decode p) as [pl|] eqn:Ep; [|done]. cbn [mbind option_bind]. destruct (claims_of pl) as [c|] eqn:Ec; [|done]. intros [-> Hv]%check_claims_spec.
    exists h, p, hd, pl, hdr. split_and!; try done; [by rewrite <- Hs|].
    destruct (String.eqb_spec (hd_Typ hdr) ""); [by left|]. destruct (String.eqb_spec (hd_Typ hdr) "JWT"); [by right|done].
  - intros (h & p & hd & pl & hdr & -> & Eh & Ehdr & Ea & Et & Ep & Ec & Hv). rewrite Eh. cbn [mbind option_bind]. rewrite Ehdr, Ea. cbn [negb String.eqb Ascii.eqb Bool.eqb].
    change (h +:+ "." +:+ p) with (h +:+ String dot p). rewrite String.eqb_refl, Ep. cbn [mbind option_bind negb]. rewrite Ec.
    assert (negb (String.eqb (hd_Typ hdr) "") && negb (String.eqb (hd_Typ hdr) "JWT") = false) as -> by (by destruct Et as [-> | ->]). by apply check_claims_spec.
Qed.

(** The cryptography holds for a token: if it carries the MAC of its text, the issuer signed that text. *)
Definition unforged (secret : string) (log : list (string * string)) (tok : string) : Prop :=
  ∀ h p, Split dot tok = [h; p; rawurl_encode (hmac secret (h +:+ String dot p))] → ∃ q, q ∈ log ∧ h = rawurl_encode q.1 ∧ p = rawurl_encode q.2.

Lemma issued_token secret log now tok opts cl :
  unforged secret log tok →
  VerifyHS256WithOptions hmac header_of claims_of now tok secret opts = inr cl →
  ∃ hd pl hdr, tok = issue secret hd pl ∧ (hd, pl) ∈ log ∧ header_of hd = Some hdr ∧ hd_Alg hdr = "HS256" ∧ (hd_Typ hdr = "" ∨ hd_Typ hdr = "JWT") ∧
    claims_of pl = Some cl ∧ valid_at now opts cl.
Proof.
  intros Hu (h & p & hd & pl & hdr & Es & Eh & Ehdr & Ea & Et & Ep & Ec & Hv)%token_spec. destruct (Hu h p Es) as ([hd' pl'] & Hq & -> & ->). cbn [fst snd] in *.
  rewrite rawurl_roundtrip in Eh, Ep. injection Eh as ->. injection Ep as ->. exists hd, pl, hdr. split_and!; try done.
  rewrite <- (Join_Split dot tok), Es. cbn [Prelude.Join]. unfold issue, signed_text. by rewrite <- !string_app_assoc.
Qed.

(** A bearer token is accepted exactly when the issuer made it for this enclave and it is in force.  Unless the MAC is
    forged, a token verifies with some claims if and only if it is one the issuer signed, under HS256, whose payload
    states those claims: an expiry that has not passed by more than the tolerated skew, a start that has come, the
    enclave as audience, the pinned issuer, and a subject. *)
Theorem token_accepted_iff_issued secret log now tok opts cl :
  unforged secret log tok →
  VerifyHS256WithOptions hmac header_of claims_of now tok secret opts = inr cl ↔
  ∃ hd pl hdr, tok = issue secret hd pl ∧ (hd, pl) ∈ log ∧ header_of hd = Some hdr ∧ hd_Alg hdr = "HS256" ∧ (hd_Typ hdr = "" ∨ hd_Typ hdr = "JWT") ∧
    claims_of pl = Some cl ∧ valid_at now opts cl.
Proof.
  intros Hu. split; [by apply issued_token|]. rewrite token_spec.
  intros (hd & pl & hdr & -> & _ & Ehdr & Ea & Et & Ec & Hv). exists (rawurl_encode hd), (rawurl_encode pl), hd, pl, hdr.
  split_and!; try done; [by rewrite split_issue|apply rawurl_roundtrip..].
Qed.
End issuer.

End Auth.
