(* ===== verification/Grpc.v ===== *)
(** * The gRPC server (internal/grpc/server.go, mappers.go)

    The interceptor that authenticates a call, the six methods that answer for
    a user and the two that answer for nobody.  The services behind it are a
    record of operations on a state of their own ([services]): the server is
    proved against it, whatever the services do. *)

From S2P Require Import Prelude GoTime GoText Num Types Returns Encoding SyncError Json Metrics Signing Connect Auth.
From stdpp Require Import base gmap strings pretty tactics list.
From Stdlib Require Import ZArith Ascii Lia.
Import Encoding Returns Auth.
Local Open Scope Z_scope.

Module Grpc.

(** ** Calls and answers *)

Inductive code := InvalidArgument | Unauthenticated | Unavailable | Internal.

(** [nil, status.Error(c, msg)] or a message. *)
Inductive reply (A : Type) := Status (c : code) (msg : string) | Reply (a : A).
Arguments Status {A}.
Arguments Reply {A}.

Definition int32 (n : Z) : Z := (n + 2 ^ 31) mod 2 ^ 32 - 2 ^ 31.

Definition UnixMilli (ms : Z) : time := ms * Milli.
Definition to_millis (t : time) : Z := t / Milli.

Definition version : string := "1.1.3-go".
Definition genericInternalError : string := "Internal server error".
Definition msgDatabaseNotConfigured : string := "database not configured".

Section server.
Context {F : Type} {NF : Num F} {JF : Json.JsonNumber F} {CR : Signing.Crypto}.

Record CreateUserConnectionRequest := mkCreateRequest {
  cq_UserUid : string; cq_Exchange : string; cq_Label : string; cq_ApiKey : string; cq_ApiSecret : string; cq_Passphrase : string;
  cq_ExcludeFromReport : bool; cq_RebuildHistory : bool }.
Record CreateUserConnectionResponse := mkCreateResponse { cp_Success : bool; cp_UserUid : string; cp_Error : string }.

Record SyncJobRequest := mkSyncRequest { sq_UserUid : string; sq_Exchange : string }.
Record SyncJobSnapshot := mkJobSnapshot { js_Balance : F; js_Equity : F; js_Timestamp : Z }.
Record SyncJobResponse := mkSyncResponse {
  sp_Success : bool; sp_UserUid : string; sp_Exchange : string; sp_Synced : Z; sp_SnapshotsGenerated : Z; sp_LatestSnapshot : option SyncJobSnapshot; sp_Error : string }.

Record RangeRequest := mkRangeRequest { rr_UserUid : string; rr_Exchange : string; rr_StartDate : Z; rr_EndDate : Z }.
Record PerformanceMetricsResponse := mkMetricsResponse {
  mp_SharpeRatio : F; mp_SortinoRatio : F; mp_CalmarRatio : F; mp_Volatility : F; mp_DownsideDeviation : F; mp_MaxDrawdown : F; mp_MaxDrawdownDuration : Z;
  mp_CurrentDrawdown : F; mp_WinRate : F; mp_ProfitFactor : F; mp_AvgWin : F; mp_AvgLoss : F; mp_PeriodStart : Z; mp_PeriodEnd : Z; mp_DataPoints : Z;
  mp_Success : bool; mp_Error : string }.

Record PbMetrics := mkPbMetrics {
  pb_Equity : F; pb_AvailableMargin : F; pb_Volume : F; pb_Trades : Z; pb_TradingFees : F; pb_FundingFees : F; pb_LongTrades : Z; pb_ShortTrades : Z;
  pb_LongVolume : F; pb_ShortVolume : F }.
Record PbBreakdown := mkPbBreakdown {
  bd_Global : option PbMetrics; bd_Spot : option PbMetrics; bd_Swap : option PbMetrics; bd_Options : option PbMetrics; bd_Stocks : option PbMetrics;
  bd_Futures : option PbMetrics; bd_Cfd : option PbMetrics; bd_Forex : option PbMetrics; bd_Commodities : option PbMetrics }.
Record DailySnapshot := mkDaily {
  dn_UserUid : string; dn_Exchange : string; dn_Timestamp : Z; dn_TotalEquity : F; dn_RealizedBalance : F; dn_UnrealizedPnl : F; dn_Deposits : F;
  dn_Withdrawals : F; dn_Breakdown : option PbBreakdown }.

Record AggregatedMetricsRequest := mkAggregatedRequest { aq_UserUid : string; aq_Exchange : string }.
Record AggregatedMetricsResponse := mkAggregated {
  ag_TotalBalance : F; ag_TotalEquity : F; ag_TotalUnrealizedPnl : F; ag_TotalFees : F; ag_TotalTrades : Z; ag_LastSync : Z }.

Record PbReportRequest := mkPbReportRequest {
  pq_UserUid : string; pq_StartDate : string; pq_EndDate : string; pq_ReportName : string; pq_Benchmark : string; pq_BaseCurrency : string; pq_RiskFreeRate : F;
  pq_IncludeRiskMetrics : bool; pq_IncludeDrawdown : bool }.
Record PbDailyReturn := mkPbDaily { pd_Date : string; pd_NetReturn : F; pd_BenchmarkReturn : F; pd_Outperformance : F; pd_CumulativeReturn : F; pd_Nav : F }.
Record PbMonthlyReturn := mkPbMonthly { pm_Date : string; pm_NetReturn : F; pm_BenchmarkReturn : F; pm_Outperformance : F; pm_Aum : F }.
Record PbPeriod := mkPbPeriod { pp_StartDate : string; pp_EndDate : string; pp_Depth : F; pp_Duration : Z; pp_Recovered : bool }.

(** The sections of the answer that a report may lack are zero without them. *)
Record SignedReportResponse := mkReportResponse {
  rp_Success : bool; rp_Error : string; rp_ReportId : string; rp_UserUid : string; rp_ReportName : string; rp_GeneratedAt : string; rp_PeriodStart : string;
  rp_PeriodEnd : string; rp_BaseCurrency : string; rp_Benchmark : string; rp_RiskFreeRate : F; rp_DataPoints : Z; rp_Exchanges : option (list string);
  rp_TotalReturn : F; rp_AnnualizedReturn : F; rp_Volatility : F; rp_SharpeRatio : F; rp_SortinoRatio : F; rp_MaxDrawdown : F; rp_CalmarRatio : F;
  rp_Signature : string; rp_PublicKey : string; rp_SignatureAlgorithm : string; rp_ReportHash : string; rp_EnclaveVersion : string; rp_EnclaveMode : string;
  rp_AnnualizationDays : Z; rp_ExchangeDetails : list Signing.ExchangeInfo; rp_SignedPayload : string; rp_PercentSignedPayload : string;
  rp_PercentReportHash : string; rp_PercentSignature : string; rp_DailyReturns : list PbDailyReturn; rp_MonthlyReturns : list PbMonthlyReturn;
  rp_Var_95 : F; rp_Var_99 : F; rp_ExpectedShortfall : F; rp_Skewness : F; rp_Kurtosis : F;
  rp_Alpha : F; rp_Beta : F; rp_InformationRatio : F; rp_TrackingError : F; rp_Correlation : F;
  rp_CurrentDrawdown : F; rp_MaxDrawdownDuration : Z; rp_DrawdownPeriods : list PbPeriod }.

Record VerifySignatureRequest := mkVerifyRequest { vq_ReportHash : string; vq_Signature : string; vq_PublicKey : string }.

(** ** The services, as the server calls them; [None] is one not configured *)

Inductive created := Created | AlreadyExists | CreateFailed (e : string).

(** The request of a report, as the report service takes it. *)
Record report_request := mkReportOf {
  ro_UserUID : string; ro_StartDate : time; ro_EndDate : time; ro_ReportName : string; ro_Benchmark : string; ro_BaseCurrency : string; ro_RiskFreeRate : F;
  ro_IncludeRiskMetrics : bool; ro_IncludeDrawdown : bool; ro_Excluded : gset string }.

Record connectionService (S : Type) := mkConnectionOps {
  co_Create : S → Connect.CreateConnectionRequest → S * created;
  co_GetExcludedConnectionKeys : S → string → res (gset string);
  co_GetActiveConnections : S → string → res (list ExchangeConnection) }.

Record syncService (S : Type) := mkSyncOps {
  sy_SyncExchange : S → string → string → S * SyncResult F;
  sy_SyncUser : S → string → S * res (list (SyncResult F)) }.

Record reportService (S : Type) := mkReportOps {
  re_GenerateReport : S → report_request → S * res (Signing.SignedReport F);
  re_VerifySignature : S → string → string → string → res bool }.

Record snapshotRepo (S : Type) := mkSnapshotOps {
  sn_GetByUserAndDateRange : S → string → time → time → res (list (Snapshot F));
  sn_GetLatestByUser : S → string → res (Snapshot F);
  sn_GetLatestByUserExchangeLabel : S → string → string → string → res (Snapshot F) }.

Record Services (S : Type) := mkServices {
  ConnSvc : option (connectionService S);
  SyncSvc : option (syncService S);
  MetricsSvc : option (S → string → time → time → string → gset string → res (Metrics.PerformanceMetrics F));
  ReportSvc : option (reportService S);
  SnapshotRepo : option (snapshotRepo S);
  UserRepo : option (S → string → S * res unit) }.

(** ** Messages of the repository as messages of the wire *)

Definition mapMarketMetrics (m : MarketMetrics F) : PbMetrics :=
  mkPbMetrics (mm_Equity m) (mm_AvailableMargin m) (mm_Volume m) (int32 (mm_Trades m)) (mm_TradingFees m) (mm_FundingFees m) (int32 (mm_LongTrades m))
    (int32 (mm_ShortTrades m)) (mm_LongVolume m) (mm_ShortVolume m).

Definition zero_metrics : PbMetrics := mkPbMetrics f0 f0 f0 0 f0 f0 0 0 f0 f0.

Definition add_metrics (out : PbMetrics) (m : MarketMetrics F) : PbMetrics :=
  mkPbMetrics (fadd (pb_Equity out) (mm_Equity m)) (fadd (pb_AvailableMargin out) (mm_AvailableMargin m)) (fadd (pb_Volume out) (mm_Volume m))
    (int32 (pb_Trades out + int32 (mm_Trades m))) (fadd (pb_TradingFees out) (mm_TradingFees m)) (fadd (pb_FundingFees out) (mm_FundingFees m))
    (int32 (pb_LongTrades out + int32 (mm_LongTrades m))) (int32 (pb_ShortTrades out + int32 (mm_ShortTrades m)))
    (fadd (pb_LongVolume out) (mm_LongVolume m)) (fadd (pb_ShortVolume out) (mm_ShortVolume m)).

Definition aggregateMarketMetrics (l : list (option (MarketMetrics F))) : option PbMetrics :=
  match omap id l with [] => None | present => Some (foldl add_metrics zero_metrics present) end.

Definition mapMarketBreakdown (b : MarketBreakdown F) : PbBreakdown :=
  mkPbBreakdown
    (aggregateMarketMetrics [mb_Stocks b; mb_Spot b; mb_Swap b; mb_Options b; mb_Futures b; mb_CFD b; mb_Forex b; mb_Commodities b; mb_Margin b; mb_Earn b])
    (mapMarketMetrics <$> mb_Spot b) (mapMarketMetrics <$> mb_Swap b) (mapMarketMetrics <$> mb_Options b) (mapMarketMetrics <$> mb_Stocks b)
    (mapMarketMetrics <$> mb_Futures b) (mapMarketMetrics <$> mb_CFD b) (mapMarketMetrics <$> mb_Forex b) (mapMarketMetrics <$> mb_Commodities b).

Definition mapExchangeDetails (details : list Signing.ExchangeInfo) (exchanges : list string) : list Signing.ExchangeInfo :=
  match details with [] => (λ ex, Signing.mkExchangeInfo ex "" false) <$> exchanges | _ => details end.

(** The results of a sync: success, trades, snapshots, the latest one with its time, and the errors. *)
Record sync_summary := mkSummary { su_success : bool; su_synced : Z; su_snapshots : Z; su_latest : option (SyncJobSnapshot * time); su_errors : list string }.

Definition add_result (a : sync_summary) (r : SyncResult F) : sync_summary :=
  let a :=
    if Types.sr_Success r then
      let newer := match su_latest a with None => true | Some (_, t) => After (Types.sr_SnapshotTimestamp r) t end in
      mkSummary true (int32 (su_synced a + int32 (Types.sr_TradeCount r))) (int32 (su_snapshots a + 1))
        (if newer then Some (mkJobSnapshot (Types.sr_SnapshotEquity r) (Types.sr_SnapshotEquity r) (to_millis (Types.sr_SnapshotTimestamp r)), Types.sr_SnapshotTimestamp r) else su_latest a)
        (su_errors a)
    else a in
  if String.eqb (Types.sr_Error r) "" then a
  else
    let text :=
      if negb (String.eqb (Types.sr_Label r) "") then Types.sr_Exchange r +:+ "/" +:+ Types.sr_Label r +:+ ": " +:+ Types.sr_Error r
      else if negb (String.eqb (Types.sr_Exchange r) "") then Types.sr_Exchange r +:+ ": " +:+ Types.sr_Error r
      else Types.sr_Error r in
    mkSummary (su_success a) (su_synced a) (su_snapshots a) (su_latest a) (su_errors a ++ [text]).

Definition aggregateSyncResultsForSyncJobResponse (results : list (SyncResult F)) : bool * Z * Z * option SyncJobSnapshot * string :=
  match results with
  | [] => (false, 0, 0, None, "no results")
  | _ =>
      let a := foldl add_result (mkSummary false 0 0 None []) results in
      let errors := if negb (su_success a) && bool_decide (su_errors a = []) then ["sync failed for all connections"] else su_errors a in
      (su_success a, su_synced a, su_snapshots a, fst <$> su_latest a, Prelude.Join " | " errors)
  end.

(** ** Authentication *)

Inductive method := HealthCheck_ | CreateUserConnection_ | ProcessSyncJob_ | GetPerformanceMetrics_ | GetSnapshotTimeSeries_ | GetAggregatedMetrics_ | GenerateSignedReport_ | VerifyReportSignature_.

Definition methodsRequireJWT (m : method) : bool :=
  match m with
  | GenerateSignedReport_ | CreateUserConnection_ | ProcessSyncJob_ | GetPerformanceMetrics_ | GetSnapshotTimeSeries_ | GetAggregatedMetrics_ => true
  | HealthCheck_ | VerifyReportSignature_ => false
  end.

Definition resolveUserUID (ctx : context) (reqUID : string) : string := match UserUIDFromContext ctx with Some uid => uid | None => reqUID end.


(** [verify] is VerifyHS256WithOptions on the clock and the keys of the
    process; [metadata] are the authorization values of the call, [None] when
    it carries no metadata. *)
Definition authInterceptor {A S} (verify : string → token_error + Claims) (secret : string) (m : method) (metadata : option (list string)) (ctx : context)
    (handler : context → S → S * reply A) (st : S) : S * reply A :=
  if negb (methodsRequireJWT m) then handler ctx st
  else if String.eqb secret "" then handler ctx st
  else match metadata with
  | None => (st, Status Unauthenticated "missing metadata")
  | Some [] => (st, Status Unauthenticated "missing authorization header")
  | Some (v :: _) =>
      let tokenStr := TrimPrefix v "Bearer " in
      if String.eqb tokenStr v then (st, Status Unauthenticated "authorization header must use Bearer scheme")
      else match verify tokenStr with
      | inl _ => (st, Status Unauthenticated "invalid or expired token")
      | inr claims => handler (WithUserUID ctx (cl_Sub claims)) st
      end
  end.

(** ** The methods *)

Section methods.
Context {S : Type} (svcs : Services S) (production : bool) (now : time).

Definition sanitizeMessageForClient (msg : string) : string :=
  if String.eqb msg "" then "" else if negb production then msg
  else let m := SyncError.Category msg in if String.eqb m "" then genericInternalError else m.

Definition currentEnclaveMode : string := if production then "production" else "development".

(** A snapshot-table probe that fails makes the enclave unhealthy. *)
Definition HealthCheck (st : S) : bool :=
  match SnapshotRepo S svcs with Some repo => is_ok (sn_GetByUserAndDateRange S repo st "__healthcheck__" (now - Hour) now) | None => true end.

(** The keys of the connections left out; none without a connection service. *)
Definition excluded_keys (st : S) (user : string) : res (gset string) :=
  match ConnSvc S svcs with Some co => co_GetExcludedConnectionKeys S co st user | None => Ok ∅ end.

Definition CreateUserConnection (req : CreateUserConnectionRequest) (ctx : context) (st : S) : S * reply CreateUserConnectionResponse :=
  let userUID := resolveUserUID ctx (cq_UserUid req) in
  match ValidateCreateConnection (mkInput userUID (cq_Exchange req) (cq_Label req) (cq_ApiKey req) (cq_ApiSecret req) (cq_Passphrase req) 0) with
  | Some e => (st, Status InvalidArgument e)
  | None =>
      match ConnSvc S svcs with
      | None => (st, Reply (mkCreateResponse false userUID (sanitizeMessageForClient msgDatabaseNotConfigured)))
      | Some co =>
          let '(st, r) := match UserRepo S svcs with Some getOrCreate => getOrCreate st userUID | None => (st, Ok tt) end in
          match r with
          | Err _ => (st, Reply (mkCreateResponse false userUID (sanitizeMessageForClient "failed to create user")))
          | Ok _ =>
              let '(st, r) := co_Create S co st (Connect.mkRequest userUID (cq_Exchange req) (cq_Label req) (cq_ApiKey req) (cq_ApiSecret req) (cq_Passphrase req) 0
                                                   (cq_ExcludeFromReport req) (cq_RebuildHistory req)) in
              (st, Reply match r with
                   | Created => mkCreateResponse true userUID ""
                   | AlreadyExists => mkCreateResponse true userUID Connect.ExistingConnectionNoopMessage
                   | CreateFailed e => mkCreateResponse false userUID (sanitizeMessageForClient e)
                   end)
          end
      end
  end.

Definition ProcessSyncJob (req : SyncJobRequest) (ctx : context) (st : S) : S * reply SyncJobResponse :=
  let userUID := resolveUserUID ctx (sq_UserUid req) in
  match ValidateSyncRequest userUID (sq_Exchange req) with
  | Some e => (st, Status InvalidArgument e)
  | None =>
      let exchange := ToLower (sq_Exchange req) in
      match SyncSvc S svcs with
      | None => (st, Reply (mkSyncResponse false userUID exchange 0 0 None (sanitizeMessageForClient "sync service not available")))
      | Some sy =>
          let '(st, results) :=
            if negb (String.eqb exchange "") then let '(st, r) := sy_SyncExchange S sy st userUID exchange in (st, Ok [r]) else sy_SyncUser S sy st userUID in
          (st, Reply match results with
               | Err e => mkSyncResponse false userUID exchange 0 0 None (sanitizeMessageForClient e)
               | Ok [] => mkSyncResponse false userUID "" 0 0 None "no results"
               | Ok results =>
                   let '(success, synced, generated, latest, err) := aggregateSyncResultsForSyncJobResponse results in
                   mkSyncResponse success userUID exchange synced generated latest (sanitizeMessageForClient err)
               end)
      end
  end.

(** The period of a request in milliseconds; zero is a year ago and now. *)
Definition period_of (req : RangeRequest) : time * time :=
  (if rr_StartDate req =? 0 then AddYears (-1) now else UnixMilli (rr_StartDate req), if rr_EndDate req =? 0 then now else UnixMilli (rr_EndDate req)).

(** What the two methods over a period refuse; [strict] also refuses an empty period. *)
Definition range_error (strict : bool) (userUID : string) (req : RangeRequest) : option string :=
  ValidateUserUID userUID <|> (if String.eqb (rr_Exchange req) "" then None else ValidateExchange (rr_Exchange req)) <|>
  ValidateOptionalTimestampMillis now (rr_StartDate req) "start_date" <|> ValidateOptionalTimestampMillis now (rr_EndDate req) "end_date" <|>
  (if negb (rr_StartDate req =? 0) && negb (rr_EndDate req =? 0) then
     (if strict && (rr_EndDate req <=? rr_StartDate req) then Some "end_date must be after start_date" else None) <|>
     ValidateTimestampRange (UnixMilli (rr_StartDate req)) (UnixMilli (rr_EndDate req))
   else None).

Definition failed_metrics (e : string) : PerformanceMetricsResponse := mkMetricsResponse f0 f0 f0 f0 f0 f0 0 f0 f0 f0 f0 f0 0 0 0 false e.

Definition GetPerformanceMetrics (req : RangeRequest) (ctx : context) (st : S) : S * reply PerformanceMetricsResponse :=
  (st, Reply match MetricsSvc S svcs with
       | None => failed_metrics "metrics service not available"
       | Some calculate =>
           let userUID := resolveUserUID ctx (rr_UserUid req) in
           match range_error false userUID req with
           | Some e => failed_metrics e
           | None =>
               let '(start, end_) := period_of req in
               match excluded_keys st userUID with
               | Err e => failed_metrics (sanitizeMessageForClient e)
               | Ok excluded =>
                   match calculate st userUID start end_ (ToLower (rr_Exchange req)) excluded with
                   | Err e => failed_metrics (sanitizeMessageForClient e)
                   | Ok m =>
                       mkMetricsResponse (Metrics.pm_SharpeRatio m) (Metrics.pm_SortinoRatio m) (Metrics.pm_CalmarRatio m) (Metrics.pm_Volatility m)
                         (Metrics.pm_DownsideDeviation m) (Metrics.pm_MaxDrawdown m) (int32 (Metrics.pm_MaxDrawdownDuration m)) (Metrics.pm_CurrentDrawdown m)
                         (Metrics.pm_WinRate m) (Metrics.pm_ProfitFactor m) (Metrics.pm_AvgWin m) (Metrics.pm_AvgLoss m) (to_millis (Metrics.pm_PeriodStart m))
                         (to_millis (Metrics.pm_PeriodEnd m)) (int32 (Metrics.pm_DataPoints m)) true ""
                   end
               end
           end
       end).

(** A snapshot of an exchange, of a connection that is not left out. *)
Definition selected (excluded : gset string) (exchange : string) (ex label : string) : bool :=
  negb (isConnectionExcluded excluded ex label) && (String.eqb exchange "" || String.eqb (ToLower ex) exchange).

Definition daily_snapshot (s : Snapshot F) : DailySnapshot :=
  mkDaily (sn_UserUID s) (sn_Exchange s) (to_millis (sn_Timestamp s)) (sn_TotalEquity s) (sn_RealizedBalance s) (sn_UnrealizedPnL s) (sn_Deposits s) (sn_Withdrawals s)
    (mapMarketBreakdown <$> sn_Breakdown s).

Definition GetSnapshotTimeSeries (req : RangeRequest) (ctx : context) (st : S) : S * reply (list DailySnapshot) :=
  (st, match SnapshotRepo S svcs with
       | None => Status Unavailable msgDatabaseNotConfigured
       | Some repo =>
           let userUID := resolveUserUID ctx (rr_UserUid req) in
           match range_error true userUID req with
           | Some e => Status InvalidArgument e
           | None =>
               let '(start, end_) := period_of req in
               match sn_GetByUserAndDateRange S repo st userUID start end_ with
               | Err e => Status Internal (sanitizeMessageForClient e)
               | Ok snapshots =>
                   match excluded_keys st userUID with
                   | Err e => Status Internal (sanitizeMessageForClient e)
                   | Ok excluded => Reply (daily_snapshot <$> filter (λ s, selected excluded (ToLower (rr_Exchange req)) (sn_Exchange s) (sn_Label s) = true) snapshots)
                   end
               end
           end
       end).

Definition no_aggregate : AggregatedMetricsResponse := mkAggregated f0 f0 f0 f0 0 0.

(** The running totals and the time of the latest snapshot. *)
Definition add_latest (repo : snapshotRepo S) (st : S) (user : string) (acc : AggregatedMetricsResponse * time) (c : ExchangeConnection) : AggregatedMetricsResponse * time :=
  match sn_GetLatestByUserExchangeLabel S repo st user (ec_Exchange c) (ec_Label c) with
  | Err _ => acc
  | Ok s =>
      (mkAggregated (fadd (ag_TotalBalance acc.1) (sn_RealizedBalance s)) (fadd (ag_TotalEquity acc.1) (sn_TotalEquity s)) (fadd (ag_TotalUnrealizedPnl acc.1) (sn_UnrealizedPnL s))
         (fadd (ag_TotalFees acc.1) (sn_TotalFees s)) (int32 (ag_TotalTrades acc.1 + int32 (sn_TotalTrades s))) 0,
       if After (sn_Timestamp s) acc.2 then sn_Timestamp s else acc.2)
  end.

Definition aggregate_latest (repo : snapshotRepo S) (st : S) (user : string) (cs : list ExchangeConnection) : AggregatedMetricsResponse :=
  let '(a, lastSync) := foldl (add_latest repo st user) (no_aggregate, zero_time) cs in
  mkAggregated (ag_TotalBalance a) (ag_TotalEquity a) (ag_TotalUnrealizedPnl a) (ag_TotalFees a) (ag_TotalTrades a) (if IsZero lastSync then 0 else to_millis lastSync).

Definition GetAggregatedMetrics (req : AggregatedMetricsRequest) (ctx : context) (st : S) : S * reply AggregatedMetricsResponse :=
  (st, match SnapshotRepo S svcs with
       | None => Status Unavailable msgDatabaseNotConfigured
       | Some repo =>
           let userUID := resolveUserUID ctx (aq_UserUid req) in
           match ValidateUserUID userUID <|> (if String.eqb (aq_Exchange req) "" then None else ValidateExchange (aq_Exchange req)) with
           | Some e => Status InvalidArgument e
           | None =>
               match ConnSvc S svcs with
               | None =>
                   Reply match sn_GetLatestByUser S repo st userUID with
                         | Err _ => no_aggregate
                         | Ok s => mkAggregated (sn_RealizedBalance s) (sn_TotalEquity s) (sn_UnrealizedPnL s) (sn_TotalFees s) (int32 (sn_TotalTrades s)) (to_millis (sn_Timestamp s))
                         end
               | Some co =>
                   match co_GetExcludedConnectionKeys S co st userUID with
                   | Err e => Status Internal (sanitizeMessageForClient e)
                   | Ok excluded =>
                       Reply match co_GetActiveConnections S co st userUID with
                             | Err _ | Ok [] => no_aggregate
                             | Ok cs => aggregate_latest repo st userUID (filter (λ c, selected excluded (ToLower (aq_Exchange req)) (ec_Exchange c) (ec_Label c) = true) cs)
                             end
                   end
               end
           end
       end).

(** ** Reports *)

(** The payload, when it has the hash the report states. *)
Definition signedPayload (r : Signing.SignedReport F) : string :=
  match Signing.CanonicalPayload r with
  | Err _ => ""
  | Ok payload => if String.eqb (hex_encode (Signing.sha256 payload)) (Signing.sr_ReportHash r) then payload else ""
  end.

Definition percentSignedPayload (r : Signing.SignedReport F) : string :=
  if String.eqb (Signing.sr_PercentReportHash r) "" then ""
  else match Signing.PercentPayload r with
  | Err _ => ""
  | Ok payload => if String.eqb (hex_encode (Signing.sha256 payload)) (Signing.sr_PercentReportHash r) then payload else ""
  end.

Definition earlier_day (acc : time) (s : Snapshot F) : time := if IsZero acc || Before (sn_Timestamp s) acc then sn_Timestamp s else acc.
Definition later_day (acc : time) (s : Snapshot F) : time := if IsZero acc || After (sn_Timestamp s) acc then sn_Timestamp s else acc.

Definition resolveReportPeriod (st : S) (userUID : string) (excluded : gset string) (startHint endHint : time) : res (time * time) :=
  match SnapshotRepo S svcs with
  | None => Err msgDatabaseNotConfigured
  | Some repo =>
      let rangeStart := if IsZero startHint then 0 else startHint in
      let rangeEnd := if IsZero endHint then AddYears 100 now else endHint in
      if Before rangeEnd rangeStart then Err "end_date must be after start_date"
      else match sn_GetByUserAndDateRange S repo st userUID rangeStart rangeEnd with
      | Err e => Err e
      | Ok snapshots =>
          let kept := filter (λ s, isConnectionExcluded excluded (sn_Exchange s) (sn_Label s) = false) snapshots in
          let earliest := foldl earlier_day zero_time kept in
          let latest := foldl later_day zero_time kept in
          if IsZero earliest || IsZero latest then Err "no snapshot data found for the specified period" else Ok (earliest, latest)
      end
  end.

Definition failed_report (e : string) : SignedReportResponse :=
  mkReportResponse false e "" "" "" "" "" "" "" "" f0 0 None f0 f0 f0 f0 f0 f0 f0 "" "" "" "" "" "" 0 [] "" "" "" "" [] [] f0 f0 f0 f0 f0 f0 f0 f0 f0 f0 f0 0 [].

Definition report_response (r : Signing.SignedReport F) : SignedReportResponse :=
  let m := Signing.sr_Metrics r in
  let x := Signing.sr_Extended r in
  let percent := percentSignedPayload r in
  let withheld (s : string) := if String.eqb percent "" then "" else s in
  let risk (f : Signing.RiskMetrics F → F) := match Signing.ex_RiskMetrics x with Some k => f k | None => f0 end in
  let bench (f : Signing.BenchmarkMetrics F → F) := match Signing.ex_BenchmarkMetrics x with Some b => f b | None => f0 end in
  mkReportResponse true "" (Signing.sr_ReportID r) (Signing.sr_UserUID r) (Signing.sr_ReportName r) (Signing.sr_GeneratedAt r) (Signing.sr_PeriodStart r) (Signing.sr_PeriodEnd r)
    (Signing.me_BaseCurrency m) (Signing.me_Benchmark m) (Signing.me_RiskFreeRate m) (int32 (Signing.me_DataPoints m)) (Signing.ex_Exchanges x)
    (Signing.me_TotalReturn m) (Signing.me_AnnualizedReturn m) (Signing.me_Volatility m) (Signing.me_SharpeRatio m) (Signing.me_SortinoRatio m) (Signing.me_MaxDrawdown m)
    (Signing.me_CalmarRatio m) (Signing.sr_Signature r) (Signing.sr_PublicKey r) (Signing.sr_SignatureAlgorithm r) (Signing.sr_ReportHash r) (Signing.sr_EnclaveVersion r)
    currentEnclaveMode (int32 (Signing.sr_AnnualizationDays r)) (mapExchangeDetails (Signing.ex_ExchangeDetails x) (default [] (Signing.ex_Exchanges x))) (signedPayload r)
    percent (withheld (Signing.sr_PercentReportHash r)) (withheld (Signing.sr_PercentSignature r))
    ((λ d, mkPbDaily (Signing.sd_Date d) (Signing.sd_NetReturn d) (Signing.sd_BenchmarkReturn d) (Signing.sd_Outperformance d) (Signing.sd_CumulativeReturn d) (Signing.sd_NAV d))
       <$> Signing.ex_DailyReturns x)
    ((λ d, mkPbMonthly (Signing.sm_Date d) (Signing.sm_NetReturn d) (Signing.sm_BenchmarkReturn d) (Signing.sm_Outperformance d) (Signing.sm_AUM d)) <$> Signing.ex_MonthlyReturns x)
    (risk Signing.rm_VaR95) (risk Signing.rm_VaR99) (risk Signing.rm_ExpectedShortfall) (risk Signing.rm_Skewness) (risk Signing.rm_Kurtosis)
    (bench Signing.bm_Alpha) (bench Signing.bm_Beta) (bench Signing.bm_InformationRatio) (bench Signing.bm_TrackingError) (bench Signing.bm_Correlation)
    (match Signing.ex_DrawdownData x with Some d => Signing.dd_CurrentDrawdown d | None => f0 end)
    (match Signing.ex_DrawdownData x with Some d => int32 (Signing.dd_MaxDrawdownDuration d) | None => 0 end)
    (match Signing.ex_DrawdownData x with
     | Some d => (λ p, mkPbPeriod (Signing.dp_StartDate p) (Signing.dp_EndDate p) (Signing.dp_Depth p) (int32 (Signing.dp_Duration p)) (Signing.dp_Recovered p)) <$> Signing.dd_Periods d
     | None => []
     end).

(** The period of a report: the dates given, the missing ones from the snapshots. *)
Definition report_period (st : S) (userUID : string) (excluded : gset string) (start end_ : time) : res (time * time) :=
  if IsZero start || IsZero end_ then
    p ← resolveReportPeriod st userUID excluded start end_;
    Ok (if IsZero start then p.1 else start, if IsZero end_ then p.2 else end_)
  else Ok (start, end_).

Definition GenerateSignedReport (req : PbReportRequest) (ctx : context) (st : S) : S * reply SignedReportResponse :=
  match ReportSvc S svcs with
  | None => (st, Reply (failed_report "report service not available"))
  | Some re =>
      let userUID := resolveUserUID ctx (pq_UserUid req) in
      match ValidateReportRequest (mkReportInput userUID (pq_StartDate req) (pq_EndDate req) (pq_Benchmark req) (pq_BaseCurrency req) (pq_RiskFreeRate req)) with
      | Some e => (st, Status InvalidArgument e)
      | None =>
          match optional_date (pq_StartDate req), optional_date (pq_EndDate req) with
          | None, _ => (st, Status InvalidArgument "invalid start_date format (use YYYY-MM-DD)")
          | _, None => (st, Status InvalidArgument "invalid end_date format (use YYYY-MM-DD)")
          | Some start, Some end_ =>
              match (excluded ← excluded_keys st userUID; p ← report_period st userUID excluded start end_; Ok (excluded, p)) with
              | Err e => (st, Reply (failed_report (sanitizeMessageForClient e)))
              | Ok (excluded, (start, end_)) =>
                  let '(st, r) := re_GenerateReport S re st (mkReportOf userUID start end_ (pq_ReportName req) (pq_Benchmark req) (pq_BaseCurrency req) (pq_RiskFreeRate req)
                                                               (pq_IncludeRiskMetrics req) (pq_IncludeDrawdown req) excluded) in
                  (st, Reply match r with Err e => failed_report (sanitizeMessageForClient e) | Ok r => report_response r end)
              end
          end
      end
  end.

Definition VerifyReportSignature (req : VerifySignatureRequest) (ctx : context) (st : S) : S * reply bool :=
  (st, match ReportSvc S svcs with
       | None => Status Internal (sanitizeMessageForClient "report service not available")
       | Some re =>
           if String.eqb (vq_ReportHash req) "" || String.eqb (vq_Signature req) "" || String.eqb (vq_PublicKey req) "" then
             Status InvalidArgument "report_hash, signature, and public_key are required"
           else match re_VerifySignature S re st (vq_ReportHash req) (vq_Signature req) (vq_PublicKey req) with
           | Err e => Status Internal (sanitizeMessageForClient e)
           | Ok valid => Reply valid
           end
       end).
End methods.

(** ** A call *)

Inductive request :=
| RCreate (r : CreateUserConnectionRequest) | RSync (r : SyncJobRequest) | RMetrics (r : RangeRequest) | RSeries (r : RangeRequest)
| RAggregate (r : AggregatedMetricsRequest) | RReport (r : PbReportRequest) | RVerify (r : VerifySignatureRequest) | RHealth.

Inductive answer :=
| ACreate (a : CreateUserConnectionResponse) | ASync (a : SyncJobResponse) | AMetrics (a : PerformanceMetricsResponse) | ASeries (a : list DailySnapshot)
| AAggregate (a : AggregatedMetricsResponse) | AReport (a : SignedReportResponse) | AVerify (valid : bool) | AHealth (healthy : bool).

Definition method_of (r : request) : method :=
  match r with
  | RCreate _ => CreateUserConnection_ | RSync _ => ProcessSyncJob_ | RMetrics _ => GetPerformanceMetrics_ | RSeries _ => GetSnapshotTimeSeries_
  | RAggregate _ => GetAggregatedMetrics_ | RReport _ => GenerateSignedReport_ | RVerify _ => VerifyReportSignature_ | RHealth => HealthCheck_
  end.

Definition reply_map {A B} (f : A → B) (r : reply A) : reply B := match r with Status c e => Status c e | Reply a => Reply (f a) end.

Definition dispatch {S} (svcs : Services S) (production : bool) (now : time) (r : request) (ctx : context) (st : S) : S * reply answer :=
  let on {A} (f : A → answer) (out : S * reply A) := (out.1, reply_map f out.2) in
  match r with
  | RCreate r => on ACreate (CreateUserConnection svcs production r ctx st)
  | RSync r => on ASync (ProcessSyncJob svcs production r ctx st)
  | RMetrics r => on AMetrics (GetPerformanceMetrics svcs production now r ctx st)
  | RSeries r => on ASeries (GetSnapshotTimeSeries svcs production now r ctx st)
  | RAggregate r => on AAggregate (GetAggregatedMetrics svcs production r ctx st)
  | RReport r => on AReport (GenerateSignedReport svcs production now r ctx st)
  | RVerify r => on AVerify (VerifyReportSignature svcs production r ctx st)
  | RHealth => (st, Reply (AHealth (HealthCheck svcs now st)))
  end.

Definition serve {S} (svcs : Services S) (verify : string → token_error + Claims) (secret : string) (production : bool) (now : time) (metadata : option (list string)) (r : request) (st : S)
  : S * reply answer :=
  authInterceptor verify secret (method_of r) metadata None (dispatch svcs production now r) st.

End server.

End Grpc.
