(* ===== verification/GrpcSafe.v ===== *)
(** * What the gRPC server guarantees

    A call that names a user is answered for the subject of its token, whatever
    it names, and the rows it creates are well formed. *)

From S2P Require Import Prelude GoTime GoText Num Types Returns Encoding SyncError Json Metrics Signing Window Connections Vault Connect ConnectSafe Auth Grpc.
From stdpp Require Import base gmap strings pretty tactics list.
From Stdlib Require Import ZArith Ascii Lia.
Import Encoding Returns Auth Grpc.
Local Open Scope Z_scope.

Module GrpcSafe.

Section server.
Context {F : Type} {NF : Num F} {JF : Json.JsonNumber F} {CR : Signing.Crypto}.

(** The request in another user's name. *)
Definition with_user (u : string) (r : request (F := F)) : request :=
  match r with
  | RCreate q => RCreate (mkCreateRequest u (cq_Exchange q) (cq_Label q) (cq_ApiKey q) (cq_ApiSecret q) (cq_Passphrase q) (cq_ExcludeFromReport q) (cq_RebuildHistory q))
  | RSync q => RSync (mkSyncRequest u (sq_Exchange q))
  | RMetrics q => RMetrics (mkRangeRequest u (rr_Exchange q) (rr_StartDate q) (rr_EndDate q))
  | RSeries q => RSeries (mkRangeRequest u (rr_Exchange q) (rr_StartDate q) (rr_EndDate q))
  | RAggregate q => RAggregate (mkAggregatedRequest u (aq_Exchange q))
  | RReport q => RReport (mkPbReportRequest u (pq_StartDate q) (pq_EndDate q) (pq_ReportName q) (pq_Benchmark q) (pq_BaseCurrency q) (pq_RiskFreeRate q) (pq_IncludeRiskMetrics q) (pq_IncludeDrawdown q))
  | RVerify q => RVerify q
  | RHealth => RHealth
  end.

(** The user the message names; two methods name none. *)
Definition user_of (r : request (F := F)) : option string :=
  match r with
  | RCreate q => Some (cq_UserUid q) | RSync q => Some (sq_UserUid q) | RMetrics q | RSeries q => Some (rr_UserUid q)
  | RAggregate q => Some (aq_UserUid q) | RReport q => Some (pq_UserUid q) | RVerify _ | RHealth => None
  end.

Lemma user_requires_token r : is_Some (user_of r) → methodsRequireJWT (method_of r) = true.
Proof. by destruct r; intros [u Hu]. Qed.

Lemma resolve_verified u reqUID : u ≠ "" → resolveUserUID (WithUserUID None u) reqUID = u.
Proof. intros Hu. unfold resolveUserUID, WithUserUID, UserUIDFromContext. by rewrite (proj2 (String.eqb_neq _ _) Hu). Qed.

Lemma dispatch_verified {S} (svcs : Services S) production now r u st : u ≠ "" →
  dispatch svcs production now r (WithUserUID None u) st = dispatch svcs production now (with_user u r) None st.
Proof.
  intros Hu. destruct r as [q|q|q|q|q|q|q|]; cbn [dispatch with_user]; try done;
    unfold CreateUserConnection, ProcessSyncJob, GetPerformanceMetrics, GetSnapshotTimeSeries, GetAggregatedMetrics, GenerateSignedReport; rewrite !resolve_verified by done; reflexivity.
Qed.


(** ** The caller *)

Section caller.
Context (hmac : string → string → string) (header_of : string → option header) (claims_of : string → option Claims).

(** The verification the interceptor runs. *)
Definition checks (now : time) (secret issuer : string) (tok : string) : token_error + Claims :=
  VerifyHS256WithOptions hmac header_of claims_of now tok secret (mkOptions issuer 0).

Lemma verified_subject now secret issuer tok cl : checks now secret issuer tok = inr cl → cl_Sub cl ≠ "".
Proof. intros (? & ? & ? & ? & ? & _ & _ & _ & _ & _ & _ & _ & _ & _ & _ & _ & _ & ?)%token_spec. done. Qed.

Lemma prefix_trim s q : String.eqb (TrimPrefix s q) s = false → s = q +:+ TrimPrefix s q.
Proof.
  unfold TrimPrefix, HasPrefix. destruct (String.prefix q s) eqn:E; [|by rewrite String.eqb_refl]. intros _. revert s E. induction q as [|c q IH]; intros s E; [done|].
  destruct s as [|d s]; [done|]. cbn in E. destruct (ascii_dec c d) as [->|]; [|done]. rewrite string_app_cons. cbn. f_equal. by apply IH.
Qed.

(** The call of a method that answers for a user, when a secret is set. *)
Lemma serve_gated {S} (svcs : Services S) now secret issuer production metadata r st :
  methodsRequireJWT (method_of r) = true → secret ≠ "" →
  (∃ msg, serve svcs (checks now secret issuer) secret production now metadata r st = (st, Status Unauthenticated msg)) ∨
  (∃ tok rest cl, metadata = Some (("Bearer " +:+ tok) :: rest) ∧ checks now secret issuer tok = inr cl ∧
     serve svcs (checks now secret issuer) secret production now metadata r st = dispatch svcs production now (with_user (cl_Sub cl) r) None st).
Proof.
  intros Hm Hs. unfold serve, authInterceptor. rewrite Hm, (proj2 (String.eqb_neq _ _) Hs). cbn [negb]. destruct metadata as [[|v rest]|]; [by left; eexists..| | by left; eexists].
  cbn zeta. destruct (String.eqb (TrimPrefix v "Bearer ") v) eqn:E; [by left; eexists|]. destruct (checks now secret issuer (TrimPrefix v "Bearer ")) as [err|cl] eqn:Ev; [by left; eexists|].
  right. exists (TrimPrefix v "Bearer "), rest, cl. split_and!; [by rewrite <- (prefix_trim v "Bearer " E)|done|]. apply dispatch_verified. by eapply verified_subject.
Qed.

(** C11: a call is answered for the subject of its token.  With a secret configured, a call whose message names a user
    (connect, sync, the three reads and the report: all but the health check and the check of a signature)
    either is refused and changes nothing, or carries as bearer a token the issuer signed, in force and for this
    enclave, and has exactly the effect and the answer of the same request made in the name of the token's subject.
    The user the message names plays no part: another name gives the same effect and the same answer. *)
Theorem caller_is_token_subject {S} (svcs : Services S) log now secret issuer production metadata r st st' rep :
  (∀ tok rest, metadata = Some (("Bearer " +:+ tok) :: rest) → unforged hmac secret log tok) → is_Some (user_of r) → secret ≠ "" →
  serve svcs (checks now secret issuer) secret production now metadata r st = (st', rep) →
  ((∃ msg, st' = st ∧ rep = Status Unauthenticated msg) ∨
   (∃ hd pl cl rest, (hd, pl) ∈ log ∧ metadata = Some (("Bearer " +:+ issue hmac secret hd pl) :: rest) ∧ claims_of pl = Some cl ∧ valid_at now (mkOptions issuer 0) cl ∧
      (st', rep) = dispatch svcs production now (with_user (cl_Sub cl) r) None st)) ∧
  (∀ u, serve svcs (checks now secret issuer) secret production now metadata (with_user u r) st = (st', rep)).
Proof.
  intros Hu Hm%user_requires_token Hs Hc. split.
  - destruct (serve_gated svcs now secret issuer production metadata r st Hm Hs) as [[msg E]|(tok & rest & cl & -> & Ev & E)]; rewrite Hc in E; [left; exists msg; by injection E as -> ->|].
    right. unfold checks in Ev. apply (issued_token _ _ _ secret log) in Ev as (hd & pl & hdr & -> & Hin & _ & _ & _ & Hcl & Hv); [|by apply (Hu tok rest)]. by exists hd, pl, cl, rest.
  - intros u. assert (method_of (with_user u r) = method_of r) as Em by (by destruct r). unfold serve, authInterceptor in *. rewrite Em. rewrite Hm, (proj2 (String.eqb_neq _ _) Hs) in *.
    cbn [negb] in *. destruct metadata as [[|v rest]|]; [done| |done]. cbn zeta in *. destruct (String.eqb _ v); [done|].
    destruct (checks now secret issuer (TrimPrefix v "Bearer ")) as [err|cl] eqn:Ev; [done|]. apply verified_subject in Ev. rewrite dispatch_verified in Hc |- * by done. rewrite <- Hc.
    f_equal. by destruct r.
Qed.
End caller.

(** ** The table behind the server *)

Import Connect.

(** A row whose names pass the validators. *)
Record validated (x : row) : Prop := {
  wf_user : ValidateUserUID (rw_user x) = None;
  wf_exchange : ValidateExchange (rw_exchange x) = None;
  wf_label : ValidateLabel (rw_label x) = None;
  wf_trimmed : TrimSpace (rw_label x) = rw_label x;
}.














(** The names of a row do not change. *)
Definition named (x y : row) : Prop := rw_user y = rw_user x ∧ rw_exchange y = rw_exchange x ∧ rw_label y = rw_label x.

Lemma named_keeps rows rows' : Forall2 named rows rows' → (∀ x, x ∈ rows → validated x) → ∀ y, y ∈ rows' → validated y.
Proof.
  intros HF H y [i Hi]%list_elem_of_lookup. destruct (Forall2_lookup_r _ _ _ _ _ HF Hi) as (x & Hx & Eu & Ee & El). apply list_elem_of_lookup_2 in Hx. destruct (H x Hx). split; by rewrite ?Eu, ?Ee, ?El.
Qed.

Lemma weaker_named rows rows' : Forall2 ConnectSafe.weaker rows rows' → Forall2 named rows rows'.
Proof. intros H. eapply Forall2_impl; [exact H|]. by intros x y []. Qed.

Lemma set_pins_named db c id pinned rows : Forall2 named rows (SetBrokerAccounts db c id pinned rows).1.
Proof.
  assert (∀ l, Forall2 named l l) as Hr by (induction l; by constructor). unfold SetBrokerAccounts, update_one. destruct (negb _); [done|]. destruct (db SSetPins); [done|]. destruct (Nat.eqb _ _); [done|].
  cbn [fst]. unfold update_id. apply Forall2_fmap_r, Forall_Forall2_diag, Forall_forall. intros x _. destruct (String.eqb (rw_id x) id) eqn:E; split_and!; cbn beta; rewrite ?E; reflexivity.
Qed.

Lemma named_trans l1 l2 l3 : Forall2 named l1 l2 → Forall2 named l2 l3 → Forall2 named l1 l3.
Proof.
  intros H. revert l3. induction H as [|x y l k (Eu & Ee & El) _ IH]; intros l3 H3; inversion H3 as [|? z ? l' (Fu & Fe & Fl) Hk]; subst; constructor; [|by apply IH]. split_and!; congruence.
Qed.

Lemma create_names {A : Vault.Aead} sha256 s db c req rows rows' r h :
  Create sha256 s db c req rows = (rows', r, h) →
  Forall2 named rows rows' ∨ ∃ x, Forall2 named (rows ++ [x]) rows' ∧
    rw_user x = rq_UserUID req ∧ rw_exchange x = Window.normalizeExchange (rq_Exchange req) ∧ rw_label x = TrimSpace (rq_Label req).
Proof.
  intros H%ConnectSafe.create_cases. destruct r as [|err]; [|destruct H as (_ & H & _); left; by apply weaker_named].
  destruct H as [(_ & H & _)|(tc & pinned & key & secret & v & id & x & Hc & Ha)]; [left; by apply weaker_named|]. right. exists x. split.
  - apply ConnectSafe.after_insert_weaker, weaker_named in Ha. destruct (String.eqb pinned ""); [done|]. eapply named_trans; [apply set_pins_named|exact Ha].
  - destruct Hc as [_ _ _ _ _ _ Hs _ (iv & b & Hst)]. destruct (ConnectSafe.encrypt_row_id _ _ _ _ _ _ _ Hs) as (_ & Hu & He). cbn in Hu, He.
    unfold rw_user, rw_exchange. rewrite (ConnectSafe.sa_vault _ _ _ _ _ Hst), (ConnectSafe.sa_label _ _ _ _ _ Hst). cbn. unfold rw_user, rw_exchange. cbn. by rewrite Hu, He.
Qed.

(** ** Validated requests make well-formed rows *)

Lemma all_chars_trim p t : all_chars p t = true → all_chars p (TrimSpace t) = true.
Proof.
  assert (∀ s, all_chars p s = true → all_chars p (trim_left s) = true) as Hl.
  { induction s as [|c s IH]; cbn; [done|]. intros [Hc Hs]%andb_true_iff. destruct (is_space c); [by apply IH|]. cbn. by rewrite Hc, Hs. }
  assert (∀ s, all_chars p s = true → all_chars p (trim_right s) = true) as Hr.
  { induction s as [|c s IH]; cbn; [done|]. intros [Hc Hs]%andb_true_iff. specialize (IH Hs). destruct (trim_right s); [destruct (is_space c); [done|]|]; cbn in *; by rewrite Hc. }
  intros H. by apply Hr, Hl.
Qed.

Lemma trim_length t : (String.length (TrimSpace t) <= String.length t)%nat.
Proof.
  assert (∀ s, (String.length (trim_left s) <= String.length s)%nat) as Hl by (induction s as [|c s IH]; cbn; [done|]; destruct (is_space c); cbn; lia).
  assert (∀ s, (String.length (trim_right s) <= String.length s)%nat) as Hr by (induction s as [|c s IH]; cbn; [done|]; destruct (trim_right s); [destruct (is_space c)|]; cbn in *; lia).
  unfold TrimSpace. etrans; [apply Hr|apply Hl].
Qed.

Lemma label_trimmed l : ValidateLabel l = None → ValidateLabel (TrimSpace l) = None.
Proof.
  unfold ValidateLabel. rewrite TrimSpace_idem. destruct (String.eqb _ ""); [done|]. destruct (Nat.ltb_spec maxLabelLen (String.length l)) as [|Hl]; [done|].
  destruct (all_chars _ l) eqn:E; [|done]. intros _. pose proof (trim_length l). rewrite (proj2 (Nat.ltb_ge _ _)) by lia. by rewrite (all_chars_trim _ _ E).
Qed.

Lemma exchange_normal e : ValidateExchange e = None → ValidateExchange (Window.normalizeExchange e) = None.
Proof.
  intros He. destruct (valid_exchange e He) as (_ & E & _). unfold Window.normalizeExchange. cbn zeta. rewrite E. destruct (String.eqb e "exness"); [done|]. by destruct (String.eqb e "binanceusdm").
Qed.

Lemma or_else_none a b : or_else a b = None → a = None ∧ b = None.
Proof. by destruct a. Qed.

Lemma created_validated u q x :
  ValidateCreateConnection q = None → u = in_UserUID q → rw_user x = u → rw_exchange x = Window.normalizeExchange (in_Exchange q) → rw_label x = TrimSpace (in_Label q) → validated x.
Proof.
  intros (Hu & H)%or_else_none -> Eu Ee El. apply or_else_none in H as [He H]. apply or_else_none in H as [Hl _].
  split; [by rewrite Eu|rewrite Ee; by apply exchange_normal|rewrite El; by apply label_trimmed|rewrite El; apply TrimSpace_idem].
Qed.

Section table.
Context {A : Vault.Aead} (sha256 : string → string) {T : Type}.
(** The rest of the state, from which the service, the faults of the database
    and the columns of the schema are read; [already] is errors.Is with
    ErrConnectionAlreadyExists. *)
Context (srv : T → service) (db : T → faults) (caps : T → capabilities) (already : string → bool) (fault : T → option string) (active : list row * T → string → res (list ExchangeConnection)).

(** The connection service on its table. *)
Definition conn_ops : connectionService (list row * T) :=
  mkConnectionOps (list row * T)
    (λ st req, let '(rows, r, _) := Create sha256 (srv st.2) (db st.2) (caps st.2) req st.1 in
               ((rows, st.2), match r with Ok _ => Created | Err e => if already e then AlreadyExists else CreateFailed e end))
    (λ st user, GetExcludedConnectionKeysByUser (fault st.2) (caps st.2) st.1 user)
    active.

Context (svcs : Services (F := F) (list row * T)).

(** The other services rewrite secrets, pins and flags of rows, and never their names. *)
Record calm : Prop := {
  ca_conn : ConnSvc _ svcs = Some conn_ops;
  ca_users getOrCreate st u : UserRepo _ svcs = Some getOrCreate → Forall2 named st.1 (getOrCreate st u).1.1;
  ca_sync sy st u e : SyncSvc _ svcs = Some sy → Forall2 named st.1 (sy_SyncExchange _ sy st u e).1.1;
  ca_syncs sy st u : SyncSvc _ svcs = Some sy → Forall2 named st.1 (sy_SyncUser _ sy st u).1.1;
  ca_report re st q : ReportSvc _ svcs = Some re → Forall2 named st.1 (re_GenerateReport _ re st q).1.1;
}.

Lemma named_refl rows : Forall2 named rows rows.
Proof. induction rows; by constructor. Qed.

Lemma create_call_formed production q ctx st :
  calm → (∀ x, x ∈ st.1 → validated x) → ∀ x, x ∈ (CreateUserConnection svcs production q ctx st).1.1 → validated x.
Proof.
  intros Hcalm Hwf. unfold CreateUserConnection. destruct (ValidateCreateConnection _) eqn:Ev; [done|]. rewrite (ca_conn Hcalm).
  destruct (match UserRepo _ svcs with Some g => g st _ | None => (st, Ok tt) end) as [st1 r1] eqn:Eu.
  assert (∀ x, x ∈ st1.1 → validated x) as H1.
  { destruct (UserRepo _ svcs) as [g|] eqn:Eg; [|by injection Eu as <- _]. pose proof (ca_users Hcalm g st (resolveUserUID ctx (cq_UserUid q)) Eg) as Hn. rewrite Eu in Hn. by eapply named_keeps. }
  destruct r1 as [[]|]; [|done]. cbn [co_Create conn_ops].
  destruct (Create sha256 (srv st1.2) (db st1.2) (caps st1.2) _ st1.1) as [[rows' r] h] eqn:Ec. cbn [fst].
  destruct (create_names _ _ _ _ _ _ _ _ _ Ec) as [Hn|(x & Hn & Nu & Ne & Nl)]; [by eapply named_keeps|]. eapply named_keeps; [exact Hn|].
  intros y [Hy| ->%list_elem_of_singleton]%elem_of_app; [by apply H1|]. by eapply created_validated.
Qed.

Lemma call_formed production now r ctx st : calm → (∀ x, x ∈ st.1 → validated x) → ∀ x, x ∈ (dispatch svcs production now r ctx st).1.1 → validated x.
Proof.
  intros Hcalm Hwf. destruct r as [q|q|q|q|q|q|q|]; cbn [dispatch fst]; try done; [by apply create_call_formed|..].
  - unfold ProcessSyncJob. destruct (ValidateSyncRequest _ _); [done|]. destruct (SyncSvc _ svcs) as [sy|] eqn:Es; [|done]. destruct (negb _).
    + pose proof (ca_sync Hcalm sy st (resolveUserUID ctx (sq_UserUid q)) (ToLower (sq_Exchange q)) Es) as Hn. destruct (sy_SyncExchange _ _ _ _ _) as [st1 r1]. cbn [fst] in *. by eapply named_keeps.
    + pose proof (ca_syncs Hcalm sy st (resolveUserUID ctx (sq_UserUid q)) Es) as Hn. destruct (sy_SyncUser _ _ _ _) as [st1 r1]. cbn [fst] in *. by eapply named_keeps.
  - unfold GenerateSignedReport. destruct (ReportSvc _ svcs) as [re|] eqn:Er; [|done]. destruct (ValidateReportRequest _); [done|]. destruct (optional_date (pq_StartDate q)), (optional_date (pq_EndDate q)); try done.
    destruct (excluded_keys _ _ _ ≫= _) as [[ex [s0 e0]]|]; [|done].
    match goal with |- context [re_GenerateReport _ re st ?q0] => pose proof (ca_report Hcalm re st q0 Er) as Hn; destruct (re_GenerateReport _ re st q0) as [st1 r1] end. cbn [fst] in *. by eapply named_keeps.
Qed.

(** What happens to the state: calls, and the passes of the background, which keep the names of rows. *)
Inductive api_step : list row * T → list row * T → Prop :=
| api_call verify secret production now metadata r st : api_step st (serve svcs verify secret production now metadata r st).1
| api_background st st' : Forall2 named st.1 st'.1 → api_step st st'.

Lemma reachable_formed st st' : calm → rtc api_step st st' → st.1 = [] → ∀ x, x ∈ st'.1 → validated x.
Proof.
  intros Hcalm Hr H0. assert (∀ x, x ∈ st.1 → validated x) as Hwf by (rewrite H0; by intros ? ?%not_elem_of_nil). clear H0. induction Hr as [|a b d Hab _ IH]; [done|]. apply IH. destruct Hab as [verify secret production now metadata r a|a b Hn].
  - unfold serve, authInterceptor. destruct (negb _); [by apply call_formed|]. destruct (String.eqb secret ""); [by apply call_formed|]. destruct metadata as [[|v rest]|]; [done| |done]. cbn zeta.
    destruct (String.eqb _ v); [done|]. destruct (verify _); [done|by apply call_formed].
  - by eapply named_keeps.
Qed.


(** A report leaves out the excluded connections and no others.  In every state the API reaches, the keys the server
    filters by exclude a row exactly when the user has a row marked as excluded with the same exchange and the same
    label up to case: no label or exchange can be chosen so as to hide, or bring back, another connection. *)
Theorem report_leaves_out_exactly st st' u x :
  calm → rtc api_step st st' → st.1 = [] → cap_excludeFromReport (caps st'.2) = true → fault st'.2 = None → x ∈ st'.1 →
  ∃ keys, excluded_keys svcs st' u = Ok keys ∧
    (isConnectionExcluded keys (rw_exchange x) (rw_label x) = true ↔
     ∃ y, y ∈ st'.1 ∧ rw_user y = u ∧ rw_exclude y = true ∧ rw_exchange y = rw_exchange x ∧ EqualFold (rw_label y) (rw_label x) = true).
Proof.
  intros Hcalm Hr H0 Hcap Hf Hx. pose proof (reachable_formed _ _ Hcalm Hr H0) as Hwf. unfold excluded_keys. rewrite (ca_conn Hcalm). cbn [co_GetExcludedConnectionKeys conn_ops].
  unfold GetExcludedConnectionKeysByUser. rewrite Hcap, Hf. cbn [negb]. eexists. split; [done|]. set (kept := filter _ st'.1).
  assert ((λ y, snapshotConnectionKey (rw_exchange y) (rw_label y)) <$> kept = (λ c, snapshotConnectionKey c.1 c.2) <$> ((λ y, (rw_exchange y, rw_label y)) <$> kept)) as -> by (by rewrite <- list_fmap_compose).
  destruct (Hwf x Hx) as [_ We Wl Wt]. rewrite exclusion_exact; [|intros c (y & -> & Hy)%list_elem_of_fmap; apply list_elem_of_filter in Hy as [_ Hy]; by destruct (Hwf y Hy)|done..].
  split.
  - intros (c & (y & -> & Hy)%list_elem_of_fmap & E1 & E2). apply list_elem_of_filter in Hy as [Hk Hy]. cbn [fst snd] in *. apply andb_true_iff in Hk as [Hu%String.eqb_eq He].
    exists y. rewrite (wf_trimmed _ (Hwf y Hy)), Wt in E2. done.
  - intros (y & Hy & Hu & He & E1 & E2). exists (rw_exchange y, rw_label y). split; [apply list_elem_of_fmap; exists y; split; [done|]; apply list_elem_of_filter; by rewrite Hu, He, String.eqb_refl|].
    cbn [fst snd]. by rewrite (wf_trimmed _ (Hwf y Hy)), Wt.
Qed.
End table.

End server.

(** ** A server *)

#[local] Existing Instance Json.exact_number.
#[local] Existing Instance Signing.toy_crypto.

Definition no_services {S} : Services (F := float64) S := mkServices S None None None None None None.

(** A MAC that names its key, an issuer that signed one token. *)
Definition toy_hmac (k m : string) : string := k +:+ "|" +:+ m.
Definition toy_claims : Claims := mkClaims "user_0123456789" RequiredAudience "bff" 2000000000 0 0.
Definition toy_header_of (s : string) : option header := if String.eqb s "H" then Some (mkHeader "HS256" "JWT") else None.
Definition toy_claims_of (s : string) : option Claims := if String.eqb s "P" then Some toy_claims else None.
Definition toy_token : string := issue toy_hmac "k" "H" "P".

Lemma toy_unforged tok rest : Some [("Bearer " +:+ toy_token)%string] = Some (("Bearer " +:+ tok)%string :: rest) → unforged toy_hmac "k" [("H", "P")] tok.
Proof.
  intros [= E _] h p Hs. assert (tok = toy_token) as -> by exact (eq_sym E). unfold toy_token in Hs. rewrite split_issue in Hs. injection Hs as <- <- _. exists ("H", "P"). split; [by left|done].
Qed.

Definition toy_call (u : string) : request (F := float64) := RAggregate (mkAggregatedRequest u "").

Lemma caller_is_token_subject_witness :
  serve (F := float64) no_services (checks toy_hmac toy_header_of toy_claims_of 0 "k" "bff") "k" true 0 (Some [("Bearer " +:+ toy_token)%string]) (toy_call "user_victim0000") tt =
  dispatch no_services true 0 (toy_call "user_0123456789") None tt.
Proof.
  destruct (serve (F := float64) no_services (checks toy_hmac toy_header_of toy_claims_of 0 "k" "bff") "k" true 0 (Some [("Bearer " +:+ toy_token)%string]) (toy_call "user_victim0000") tt) as [st' rep] eqn:E.
  destruct (caller_is_token_subject (F := float64) toy_hmac toy_header_of toy_claims_of no_services [("H", "P")] 0 "k" "bff" true (Some [("Bearer " +:+ toy_token)%string]) (toy_call "user_victim0000") tt st' rep
    toy_unforged (ex_intro _ _ eq_refl) ltac:(discriminate) E) as [[(msg & _ & Hr)|(hd & pl & cl & rest & Hin & _ & Hcl & _ & Hd)] _].
  - vm_compute in E. injection E as _ <-. discriminate Hr.
  - apply list_elem_of_singleton in Hin. injection Hin as -> ->. injection Hcl as <-. exact Hd.
Defined.


(** Two connections made over the wire, the second left out of reports. *)
Definition toy_srv (n : nat) : Connect.service := match n with O => ConnectSafe.sample_srv "c1" ConnectSafe.sample_conn | _ => ConnectSafe.sample_srv "c2" ConnectSafe.other_conn end.

Definition toy_services : Services (F := float64) (list Connect.row * nat) :=
  mkServices _ (Some (conn_ops (A := Vault.toy_aead) ConnectSafe.toy_sha toy_srv (λ _, ConnectSafe.no_fault) (λ _, ConnectSafe.sample_caps) (λ _, false) (λ _, None) (λ _ _, Ok []))) None None None None None.

Definition connect_call (label key : string) (exclude : bool) : request (F := float64) := RCreate (mkCreateRequest "user_0123456789" "ibkr" label key "s" "" exclude false).
Definition toy_serve (r : request) (st : list Connect.row * nat) : list Connect.row * nat := (serve toy_services (λ _, inl ErrMalformedToken) "" false 0 None r st).1.

Definition first_rows : list Connect.row := Eval vm_compute in (toy_serve (connect_call "main" "k" false) ([], 0%nat)).1.
Definition both_rows : list Connect.row := Eval vm_compute in (toy_serve (connect_call "Second" "kk" true) (first_rows, 1%nat)).1.

Lemma toy_calm : calm (A := Vault.toy_aead) ConnectSafe.toy_sha toy_srv (λ _, ConnectSafe.no_fault) (λ _, ConnectSafe.sample_caps) (λ _, false) (λ _, None) (λ _ _, Ok []) toy_services.
Proof. by split. Qed.

Lemma toy_reached : rtc (api_step toy_services) ([], 0%nat) (both_rows, 1%nat).
Proof.
  assert (toy_serve (connect_call "main" "k" false) ([], 0%nat) = (first_rows, 0%nat)) as E1 by (vm_compute; reflexivity).
  assert (toy_serve (connect_call "Second" "kk" true) (first_rows, 1%nat) = (both_rows, 1%nat)) as E2 by (vm_compute; reflexivity).
  eapply rtc_l; [apply (api_call toy_services (λ _, inl ErrMalformedToken) "" false 0 None (connect_call "main" "k" false))|]. fold (toy_serve (connect_call "main" "k" false) ([], 0%nat)). rewrite E1.
  eapply rtc_l; [apply (api_background toy_services _ (first_rows, 1%nat)), named_refl|].
  eapply rtc_l; [apply (api_call toy_services (λ _, inl ErrMalformedToken) "" false 0 None (connect_call "Second" "kk" true))|]. fold (toy_serve (connect_call "Second" "kk" true) (first_rows, 1%nat)). rewrite E2.
  apply rtc_refl.
Qed.


Lemma report_leaves_out_exactly_witness : ∃ x keys, both_rows !! 0%nat = Some x ∧ excluded_keys toy_services (both_rows, 1%nat) "user_0123456789" = Ok keys ∧
  isConnectionExcluded keys (Connect.rw_exchange x) (Connect.rw_label x) = false.
Proof.
  edestruct (report_leaves_out_exactly (F := float64) (A := Vault.toy_aead) _ _ _ _ _ _ _ toy_services _ _ "user_0123456789" (default (Connect.mkRow Vault.sample_row "" "" 0 false false zero_time zero_time None None) (both_rows !! 0%nat))
    toy_calm toy_reached eq_refl eq_refl eq_refl) as (keys & Hk & Hiff); [apply (list_elem_of_lookup_2 both_rows 0%nat); reflexivity|].
  eexists _, keys. split; [reflexivity|]. split; [exact Hk|]. apply not_true_is_false. intros Ht. apply Hiff in Ht as (y & Hy & _ & Hex & _ & Hf). cbn [fst] in Hy. unfold both_rows in Hy.
  apply elem_of_cons in Hy as [->|[->|[]%not_elem_of_nil]%elem_of_cons]; [discriminate Hex|discriminate Hf].
Defined.

End GrpcSafe.
