(* ===== verification/Cache.v ===== *)
(** * The connectors kept open (internal/cache/connector_cache.go, service/sync.go)

    A connector holds a session with a venue.  The cache keeps one per user,
    exchange and credentials, for an hour at most, and closes each one it
    drops.  A connector is its number; [ca_closed] lists the ones closed, in
    order.  Go visits the map in an unspecified order, chosen by [order]. *)

From S2P Require Import Prelude GoTime GoText Encoding Vault.
From stdpp Require Import base gmap strings pretty tactics list.
From Stdlib Require Import ZArith Ascii Lia.
Import Encoding.
Local Open Scope Z_scope.

Module Cache.

Definition defaultMaxSize : nat := 500.
Definition defaultTTL : duration := Hour.
Definition defaultCleanupEvery : duration := 10 * Minute.

Record cacheEntry := mkEntry { en_conn : nat; en_createdAt : time; en_lastUsed : time }.

Record ConnectorCache := mkCache {
  ca_maxSize : nat;
  ca_ttl : duration;
  ca_entries : gmap string cacheEntry;
  ca_closed : list nat;
  ca_hits : Z;
  ca_misses : Z;
  ca_evictions : Z;
}.

Record CacheStats := mkStats { cs_Hits : Z; cs_Misses : Z; cs_Evictions : Z; cs_Size : nat }.

Definition NewConnectorCache : ConnectorCache := mkCache defaultMaxSize defaultTTL ∅ [] 0 0 0.

Definition Stats (c : ConnectorCache) : CacheStats := mkStats (ca_hits c) (ca_misses c) (ca_evictions c) (size (ca_entries c)).

(** What changes of a cache. *)
Definition with_entries (m : gmap string cacheEntry) (released : list nat) (hits misses evictions : Z) (c : ConnectorCache) : ConnectorCache :=
  mkCache (ca_maxSize c) (ca_ttl c) m (ca_closed c ++ released) (ca_hits c + hits) (ca_misses c + misses) (ca_evictions c + evictions).

Section cache.
Context (sha256 : string → string) (order : gmap string cacheEntry → list (string * cacheEntry)).

Definition HashCredentials (apiKey apiSecret passphrase : string) : string := sha256 (apiKey +:+ apiSecret +:+ passphrase).

Definition buildKey (exchange userUID credsHash : string) : string := exchange +:+ ":" +:+ userUID +:+ ":" +:+ hex_encode (String.substring 0 8 credsHash).

Definition Get (now : time) (key : string) (c : ConnectorCache) : option nat * ConnectorCache :=
  match ca_entries c !! key with
  | None => (None, with_entries (ca_entries c) [] 0 1 0 c)
  | Some e =>
      if ca_ttl c <? Sub now (en_createdAt e) then (None, with_entries (delete key (ca_entries c)) [en_conn e] 0 1 1 c)
      else (Some (en_conn e), with_entries (<[key := mkEntry (en_conn e) (en_createdAt e) now]> (ca_entries c)) [] 1 0 0 c)
  end.

(** [Get] takes the lock twice: it reads the entry, then, holding what it read,
    removes the key or marks the entry as used. *)
Definition get_read (key : string) (c : ConnectorCache) : option cacheEntry := ca_entries c !! key.

Definition get_finish (now : time) (key : string) (read : option cacheEntry) (c : ConnectorCache) : option nat * ConnectorCache :=
  match read with
  | None => (None, with_entries (ca_entries c) [] 0 1 0 c)
  | Some e =>
      if ca_ttl c <? Sub now (en_createdAt e) then (None, with_entries (delete key (ca_entries c)) [en_conn e] 0 1 1 c)
      else
        let touched := match ca_entries c !! key with
                       | Some e' => if Nat.eqb (en_conn e') (en_conn e) then <[key := mkEntry (en_conn e') (en_createdAt e') now]> (ca_entries c) else ca_entries c
                       | None => ca_entries c
                       end in
        (Some (en_conn e), with_entries touched [] 1 0 0 c)
  end.

(** The scan for the entry used least recently. *)
Definition older (acc : string * time) (p : string * cacheEntry) : string * time :=
  if String.eqb acc.1 "" || Before (en_lastUsed p.2) acc.2 then (p.1, en_lastUsed p.2) else acc.

Definition evictLRULocked (c : ConnectorCache) : option string :=
  if Nat.ltb (size (ca_entries c)) (ca_maxSize c) then None
  else let oldestKey := (foldl older ("", zero_time) (order (ca_entries c))).1 in if String.eqb oldestKey "" then None else Some oldestKey.

(** The entry of a key, removed: the entries left and the connector to close. *)
Definition drop (key : string) (m : gmap string cacheEntry) : gmap string cacheEntry * list nat :=
  match m !! key with Some e => (delete key m, [en_conn e]) | None => (m, []) end.

Definition Put (now : time) (key : string) (conn : nat) (c : ConnectorCache) : ConnectorCache :=
  let '(m, dropped, evictions) :=
    match evictLRULocked c with Some k => let '(m, d) := drop k (ca_entries c) in (m, d, 1) | None => (ca_entries c, [], 0) end in
  let replaced := match m !! key with Some e => if Nat.eqb (en_conn e) conn then [] else [en_conn e] | None => [] end in
  with_entries (<[key := mkEntry conn now now]> m) (dropped ++ replaced) 0 0 evictions c.

Definition expired (now : time) (c : ConnectorCache) (e : cacheEntry) : bool := ca_ttl c <? Sub now (en_createdAt e).

Definition cleanup (now : time) (c : ConnectorCache) : ConnectorCache :=
  let gone := filter (λ p, expired now c p.2 = true) (order (ca_entries c)) in
  with_entries (filter (λ p, expired now c p.2 = false) (ca_entries c)) (en_conn ∘ snd <$> gone) 0 0 (Z.of_nat (length gone)) c.

(** ** The connector of a connection (service/sync.go) *)

(** A demo row never shares a live connector. *)
Definition connectorCacheHash (creds : Vault.Credentials) : string :=
  HashCredentials (Vault.cr_APIKey creds) (Vault.cr_APISecret creds)
    (if Vault.cr_Demo creds then Vault.cr_Passphrase creds +:+ String (ascii_of_nat 0) "demo" else Vault.cr_Passphrase creds).

(** [create] is the factory.  A flight re-reads the cache before it builds. *)
Definition getOrCreateConnector (now : time) (create : res nat) (exchange userUID : string) (creds : Vault.Credentials) (c : ConnectorCache) : res nat * ConnectorCache :=
  let key := buildKey exchange userUID (connectorCacheHash creds) in
  match Get now key c with
  | (Some conn, c) => (Ok conn, c)
  | (None, c) =>
      match Get now key c with
      | (Some conn, c) => (Ok conn, c)
      | (None, c) => match create with Err e => (Err e, c) | Ok conn => (Ok conn, Put now key conn c) end
      end
  end.

(** ** Every connector is kept or closed *)

Class MapOrder : Prop := order_perm m : order m ≡ₚ map_to_list m.
Context `{MO : !MapOrder}.

Definition conns (m : gmap string cacheEntry) : list nat := en_conn ∘ snd <$> map_to_list m.

Lemma conns_delete m key e : m !! key = Some e → conns m ≡ₚ en_conn e :: conns (delete key m).
Proof. intros H. unfold conns. rewrite <- (map_to_list_delete m key e H). done. Qed.

Lemma conns_insert m key e : m !! key = None → conns (<[key := e]> m) ≡ₚ en_conn e :: conns m.
Proof. intros H. unfold conns. by rewrite map_to_list_insert. Qed.

(** Over an entry: the new connector for the old. *)
Lemma conns_replace m key e e' : m !! key = Some e → en_conn e :: conns (<[key := e']> m) ≡ₚ en_conn e' :: conns m.
Proof.
  intros H. rewrite <- insert_delete_eq, conns_insert by apply lookup_delete_eq. rewrite (conns_delete m key e H). apply perm_swap.
Qed.

Lemma drop_conns key m m' d : drop key m = (m', d) → conns m ≡ₚ d ++ conns m'.
Proof. unfold drop. destruct (m !! key) as [e|] eqn:E; intros [= <- <-]; [by apply conns_delete|done]. Qed.

(** The connectors of a cache, open and closed. *)
Definition held (c : ConnectorCache) : list nat := conns (ca_entries c) ++ ca_closed c.

Lemma get_held now key c o c' : Get now key c = (o, c') → held c' ≡ₚ held c.
Proof.
  unfold Get, held. destruct (ca_entries c !! key) as [e|] eqn:E; [|intros [= _ <-]; cbn; by rewrite app_nil_r]. destruct (_ <? _); intros [= _ <-]; cbn.
  - rewrite (conns_delete _ _ _ E). cbn. rewrite (Permutation_app_comm (ca_closed c)). cbn. rewrite <- Permutation_middle. done.
  - rewrite app_nil_r. f_equiv. apply (Permutation_cons_inv (a := en_conn e)). by rewrite (conns_replace _ _ _ (mkEntry (en_conn e) (en_createdAt e) now) E).
Qed.

Lemma swap_perm (x y : nat) A M d k : x :: A ≡ₚ y :: M → A ++ k ++ d ++ [x] ≡ₚ y :: (d ++ M) ++ k.
Proof.
  intros H. transitivity ((x :: A) ++ k ++ d); [|rewrite H]; solve_Permutation.
Qed.

Lemma put_held now key conn c : conn ∉ conns (ca_entries c) → held (Put now key conn c) ≡ₚ conn :: held c.
Proof.
  unfold Put, held. intros Hn.
  destruct (match evictLRULocked c with Some k => let '(m, d) := drop k (ca_entries c) in (m, d, 1) | None => (ca_entries c, [], 0) end) as [[m d] ev] eqn:Ed.
  assert (conns (ca_entries c) ≡ₚ d ++ conns m) as Hp.
  { destruct (evictLRULocked c) as [k|]; [|by injection Ed as <- <- _]. destruct (drop k (ca_entries c)) as [m0 d0] eqn:Ek. injection Ed as <- <- _. by eapply drop_conns. }
  cbn [ca_entries ca_closed with_entries]. destruct (m !! key) as [e|] eqn:E.
  - assert (en_conn e ∈ conns (ca_entries c)) as He by (rewrite Hp, (conns_delete _ _ _ E); apply elem_of_app; right; by left).
    destruct (Nat.eqb_spec (en_conn e) conn) as [<-|_]; [done|]. pose proof (conns_replace _ _ _ (mkEntry conn now now) E) as Hr. cbn [en_conn] in Hr.
    rewrite Hp. by apply swap_perm.
  - rewrite conns_insert by done. cbn [en_conn]. rewrite Hp, app_nil_r. solve_Permutation.
Qed.

Lemma size_conns m : length (conns m) = size m.
Proof. unfold conns. by rewrite length_fmap, length_map_to_list. Qed.

Lemma filter_both {B} (p : B → bool) (l : list B) : filter (λ x, p x = false) l ++ filter (λ x, p x = true) l ≡ₚ l.
Proof.
  induction l as [|x l IH]; [done|]. rewrite !filter_cons. destruct (p x) eqn:E; [rewrite decide_False, decide_True by done; rewrite <- Permutation_middle|rewrite decide_True, decide_False by done; cbn]; by rewrite IH.
Qed.

Lemma filter_list (p : string * cacheEntry → bool) (m : gmap string cacheEntry) : map_to_list (filter (λ x, p x = false) m) ≡ₚ filter (λ x, p x = false) (map_to_list m).
Proof.
  apply NoDup_Permutation; [apply NoDup_map_to_list|apply NoDup_filter, NoDup_map_to_list|]. intros [k e]. rewrite elem_of_map_to_list, map_lookup_filter_Some, list_elem_of_filter, elem_of_map_to_list. tauto.
Qed.

Lemma cleanup_held now c : held (cleanup now c) ≡ₚ held c.
Proof.
  unfold cleanup, held. cbn [ca_entries ca_closed with_entries]. unfold conns at 1. rewrite filter_list, (order_perm (ca_entries c)).
  assert (conns (ca_entries c) ≡ₚ (en_conn ∘ snd <$> filter (λ q, expired now c q.2 = false) (map_to_list (ca_entries c))) ++ (en_conn ∘ snd <$> filter (λ q, expired now c q.2 = true) (map_to_list (ca_entries c)))) as ->
    by (rewrite <- fmap_app, (filter_both (λ q : string * cacheEntry, expired now c q.2)); done).
  solve_Permutation.
Qed.

(** ** Its size *)

Lemma older_spec l acc : (∀ q, q ∈ l → q.1 ≠ "") →
  let r := foldl older acc l in
  (acc.1 ≠ "" → r.1 ≠ "" ∧ r.2 <= acc.2) ∧ (∀ q, q ∈ l → r.1 ≠ "" ∧ r.2 <= en_lastUsed q.2) ∧ (r = acc ∨ ∃ q, q ∈ l ∧ r = (q.1, en_lastUsed q.2)).
Proof.
  revert acc. induction l as [|p l IH]; intros acc Hl; cbn [foldl]; cbn zeta; [split_and!; [done|by intros ? ?%not_elem_of_nil|by left]|].
  destruct (IH (older acc p)) as (I1 & I2 & I3); [intros q Hq; apply Hl; by right|]. cbn zeta in *.
  assert ((older acc p).1 ≠ "" ∧ (older acc p).2 <= en_lastUsed p.2 ∧ (acc.1 ≠ "" → (older acc p).2 <= acc.2)) as (O1 & O2 & O3).
  { unfold older, Before. destruct (String.eqb_spec acc.1 "") as [E|E]; cbn [orb]; [split_and!; [apply Hl; by left|cbn; lia|done]|]. destruct (Z.ltb_spec (en_lastUsed p.2) acc.2); split_and!; try done; cbn; [apply Hl; by left|lia..]. }
  destruct (I1 O1) as [R1 R2]. split_and!.
  - intros Ha. split; [done|]. specialize (O3 Ha). lia.
  - intros q [->|Hq]%elem_of_cons; [split; [done|lia]|by apply I2].
  - destruct I3 as [->|(q & Hq & ->)]; [|right; exists q; split; [by right|done]]. unfold older. destruct (_ || _)%bool; [right; exists p; split; [by left|done]|by left].
Qed.

Lemma size_insert_le (m : gmap string cacheEntry) k e : (size (<[k := e]> m) <= S (size m))%nat.
Proof. rewrite map_size_insert. destruct (m !! k); unfold id; lia. Qed.

Definition keyed (c : ConnectorCache) : Prop := ∀ k e, ca_entries c !! k = Some e → k ≠ "".

(** At capacity an entry goes, and it is one used least recently. *)
Lemma evictLRU_spec c : keyed c → (0 < ca_maxSize c)%nat →
  match evictLRULocked c with
  | None => (size (ca_entries c) < ca_maxSize c)%nat
  | Some k => (ca_maxSize c <= size (ca_entries c))%nat ∧ ∃ e, ca_entries c !! k = Some e ∧ ∀ k' e', ca_entries c !! k' = Some e' → en_lastUsed e <= en_lastUsed e'
  end.
Proof.
  intros Hk Hm. unfold evictLRULocked. destruct (Nat.ltb_spec (size (ca_entries c)) (ca_maxSize c)) as [|Hs]; [done|]. cbn zeta.
  assert (∀ q, q ∈ order (ca_entries c) ↔ ca_entries c !! q.1 = Some q.2) as Hin by (intros [k e]; rewrite (order_perm (ca_entries c)), elem_of_map_to_list; done).
  destruct (older_spec (order (ca_entries c)) ("", zero_time)) as (_ & O2 & O3); [intros q Hq; apply (Hk q.1 q.2), Hin, Hq|]. cbn zeta in *.
  destruct (order (ca_entries c)) as [|q0 l] eqn:El.
  { pose proof (order_perm (ca_entries c)) as Hp. rewrite El in Hp. apply Permutation_length in Hp. rewrite length_map_to_list in Hp. cbn in Hp. lia. }
  destruct (O2 q0 ltac:(by left)) as [R1 _]. rewrite (proj2 (String.eqb_neq _ _) R1). split; [done|].
  destruct O3 as [E|(q & Hq & E)]; [by rewrite E in R1|]. exists q.2. rewrite E in *. cbn [fst snd] in *. split; [by apply Hin|]. intros k' e' He. apply (O2 (k', e')). by apply Hin.
Qed.

Lemma get_fields now key c o c' : Get now key c = (o, c') → key ≠ "" → keyed c → keyed c' ∧ (size (ca_entries c') <= size (ca_entries c))%nat ∧ ca_maxSize c' = ca_maxSize c.
Proof.
  unfold Get, keyed. intros H Hne Hk. destruct (ca_entries c !! key) as [e|] eqn:E; [|by injection H as _ <-]. destruct (_ <? _); injection H as _ <-; cbn [ca_entries ca_maxSize with_entries]; split_and!; try done.
  - intros k e0 [_ H]%lookup_delete_Some. by eapply Hk.
  - rewrite map_size_delete_Some by (by eexists). lia.
  - intros k e0 [[<- _]|[_ H]]%lookup_insert_Some; [done|by eapply Hk].
  - by rewrite map_size_insert_Some by (by eexists).
Qed.

Lemma put_fields now key conn c : key ≠ "" → keyed c → (0 < ca_maxSize c)%nat → (size (ca_entries c) <= ca_maxSize c)%nat →
  keyed (Put now key conn c) ∧ (size (ca_entries (Put now key conn c)) <= ca_maxSize c)%nat ∧ ca_maxSize (Put now key conn c) = ca_maxSize c.
Proof.
  intros Hne Hk Hm Hs. pose proof (evictLRU_spec c Hk Hm) as He. unfold Put, keyed in *. destruct (evictLRULocked c) as [k|].
  - destruct He as (_ & e & Ek & _). unfold drop. rewrite Ek. cbn [ca_entries ca_maxSize with_entries]. split_and!; [|etrans; [apply size_insert_le|]|done].
    + intros k0 e0 [[<- _]|[_ [_ H]%lookup_delete_Some]]%lookup_insert_Some; [done|by eapply Hk].
    + rewrite map_size_delete_Some by (by eexists). assert (size (ca_entries c) ≠ 0%nat); [|lia]. intros H0%map_size_empty_iff. by rewrite H0, lookup_empty in Ek.
  - cbn [ca_entries ca_maxSize with_entries]. split_and!; [|etrans; [apply size_insert_le|]; lia|done]. intros k0 e0 [[<- _]|[_ H]]%lookup_insert_Some; [done|by eapply Hk].
Qed.

(** ** A run of the process *)

Definition opened (r : res nat) (n : nat) : bool := match r with Ok k => Nat.eqb k n | Err _ => false end.

(** The calls and the cleanups of a run; [built] are the connectors the factory made. *)
Inductive reached : ConnectorCache → list nat → Prop :=
| reached_new : reached NewConnectorCache []
| reached_call c built now create exchange userUID creds r c' :
    reached c built → (∀ n, create = Ok n → n ∉ built) → getOrCreateConnector now create exchange userUID creds c = (r, c') →
    reached c' (match create with Ok n => if opened r n then n :: built else built | Err _ => built end)
| reached_cleanup c built now : reached c built → reached (cleanup now c) built.

Lemma key_nonempty exchange userUID h : buildKey exchange userUID h ≠ "".
Proof. unfold buildKey. destruct exchange; [done|]. done. Qed.

Record owned (c : ConnectorCache) (built : list nat) : Prop := {
  ow_held : held c ≡ₚ built;
  ow_nodup : NoDup built;
  ow_keyed : keyed c;
  ow_max : ca_maxSize c = defaultMaxSize;
  ow_size : (size (ca_entries c) <= defaultMaxSize)%nat;
}.

Lemma get_owned now key c built o c' : key ≠ "" → owned c built → Get now key c = (o, c') → owned c' built.
Proof.
  intros Hk [H1 H2 H3 H4 H5] E. destruct (get_fields _ _ _ _ _ E Hk H3) as (K & S & M). split; [by rewrite (get_held _ _ _ _ _ E)|done|done|congruence|lia].
Qed.

Lemma get_found now key c n c' : Get now key c = (Some n, c') → n ∈ conns (ca_entries c').
Proof.
  unfold Get. destruct (ca_entries c !! key) as [e|] eqn:E; [|done]. destruct (_ <? _); [done|]. intros [= <- <-]. cbn [ca_entries with_entries]. unfold conns. apply list_elem_of_fmap.
  exists (key, mkEntry (en_conn e) (en_createdAt e) now). split; [done|]. apply elem_of_map_to_list. apply lookup_insert_eq.
Qed.

Lemma put_found now key n c : n ∈ conns (ca_entries (Put now key n c)).
Proof.
  unfold Put. destruct (match evictLRULocked c with Some k => let '(m, d) := drop k (ca_entries c) in (m, d, 1) | None => (ca_entries c, [], 0) end) as [[m d] ev]. cbn [ca_entries with_entries].
  unfold conns. apply list_elem_of_fmap. exists (key, mkEntry n now now). split; [done|]. apply elem_of_map_to_list. apply lookup_insert_eq.
Qed.

Lemma put_owned now key n c built : key ≠ "" → owned c built → n ∉ built → owned (Put now key n c) (n :: built).
Proof.
  intros Hk [H1 H2 H3 H4 H5] Hn. destruct (put_fields now key n c Hk H3) as (K & S & M); [rewrite H4; unfold defaultMaxSize; lia|by rewrite H4|].
  split; [rewrite put_held; [by rewrite H1|]|by constructor|done|congruence|by rewrite H4 in S]. intros Hc. apply Hn. rewrite <- H1. unfold held. apply elem_of_app. by left.
Qed.

Lemma call_owned now create exchange userUID creds c built r c' :
  owned c built → (∀ n, create = Ok n → n ∉ built) → getOrCreateConnector now create exchange userUID creds c = (r, c') →
  owned c' (match create with Ok n => if opened r n then n :: built else built | Err _ => built end) ∧ (∀ n, r = Ok n → n ∈ conns (ca_entries c')).
Proof.
  intros Ho Hf. unfold getOrCreateConnector. set (key := buildKey _ _ _). assert (key ≠ "") as Hk by apply key_nonempty. cbn zeta.
  assert (∀ c1 n c2, owned c1 built → Get now key c1 = (Some n, c2) → owned c2 (match create with Ok m => if opened (Ok n) m then m :: built else built | Err _ => built end) ∧ n ∈ conns (ca_entries c2)) as Hhit.
  { intros c1 n c2 H1 E. pose proof (get_owned _ _ _ _ _ _ Hk H1 E) as H2. pose proof (get_found _ _ _ _ _ E) as Hin. split; [|done]. destruct create as [m|]; [|done].
    cbn [opened]. destruct (Nat.eqb_spec n m) as [->|]; [|done]. exfalso. apply (Hf m eq_refl). rewrite <- (ow_held _ _ H2). unfold held. apply elem_of_app. by left. }
  destruct (Get now key c) as [[n|] c1] eqn:E1; [intros [= <- <-]; destruct (Hhit _ _ _ Ho E1) as [? ?]; split; [done|by intros ? [= <-]]|].
  pose proof (get_owned _ _ _ _ _ _ Hk Ho E1) as H1. destruct (Get now key c1) as [[n|] c2] eqn:E2; [intros [= <- <-]; destruct (Hhit _ _ _ H1 E2) as [? ?]; split; [done|by intros ? [= <-]]|].
  pose proof (get_owned _ _ _ _ _ _ Hk H1 E2) as H2. destruct create as [n|e]; intros [= <- <-]; [|done].
  cbn [opened]. rewrite Nat.eqb_refl. split; [apply put_owned; auto|]. intros ? [= <-]. apply put_found.
Qed.

Lemma reached_owned c built : reached c built → owned c built.
Proof.
  induction 1 as [|c built now create exchange userUID creds r c' _ IH Hf E|c built now _ IH].
  - split; [reflexivity|apply NoDup_nil_2|intros k e; cbn; by rewrite lookup_empty|done|]. cbn. rewrite map_size_empty. unfold defaultMaxSize. lia.
  - by destruct (call_owned _ _ _ _ _ _ _ _ _ IH Hf E).
  - destruct IH as [H1 H2 H3 H4 H5]. split; [by rewrite cleanup_held|done| |done|].
    + intros k e [H _]%map_lookup_filter_Some. by eapply H3.
    + etrans; [|exact H5]. rewrite <- !length_map_to_list. cbn [ca_entries cleanup with_entries]. rewrite (filter_list (λ q, expired now c q.2)). apply length_filter.
Qed.

(** Every connector the factory makes is kept or closed, and closed once.  In every run of calls and cleanups, one after
    the other, the connectors in the cache and those closed are together the ones that were made, none of them twice;
    the cache never holds more than five hundred; and a call is answered with a connector that is in the cache, so an
    open one. *)
Theorem connectors_kept_or_closed c built :
  reached c built →
  (∀ n, n ∈ built ↔ n ∈ conns (ca_entries c) ∨ n ∈ ca_closed c) ∧ NoDup (conns (ca_entries c) ++ ca_closed c) ∧ (cs_Size (Stats c) <= 500)%nat ∧
  (∀ now create exchange userUID creds n c', (∀ m, create = Ok m → m ∉ built) → getOrCreateConnector now create exchange userUID creds c = (Ok n, c') →
     n ∈ conns (ca_entries c') ∧ n ∉ ca_closed c').
Proof.
  intros H%reached_owned. destruct (H) as [H1 H2 _ _ H5]. unfold held in H1. split_and!.
  - intros n. rewrite <- H1. apply elem_of_app.
  - by rewrite H1.
  - exact H5.
  - intros now create exchange userUID creds n c' Hf E. destruct (call_owned _ _ _ _ _ _ _ _ _ H Hf E) as [[O1 O2 _ _ _] Hin]. specialize (Hin n eq_refl). split; [done|].
    unfold held in O1. rewrite <- O1 in O2. apply NoDup_app in O2 as (_ & Hd & _). by apply Hd.
Qed.

Lemma get_phases now key c : Get now key c = get_finish now key (get_read key c) c.
Proof. unfold Get, get_finish, get_read. destruct (ca_entries c !! key) as [e|] eqn:E; [|done]. destruct (_ <? _); [done|]. by rewrite Nat.eqb_refl. Qed.
End cache.

(** ** Two callers at once *)

Definition toy_creds : Vault.Credentials := Vault.mkCredentials "u" "ctrader" "k" "s" "" false.
Definition toy_sha (x : string) : string := Vault.toy_tag x +:+ Vault.toy_tag x.
Definition toy_call (now : time) (n : nat) (c : ConnectorCache) : res nat * ConnectorCache := getOrCreateConnector toy_sha map_to_list now (Ok n) "ctrader" "u" toy_creds c.

#[global] Instance toy_order : MapOrder map_to_list.
Proof. by intros m. Qed.

(** A connector made at noon is an hour old when two callers ask for it: the
    first reads the entry; the second removes and closes it and puts a new
    connector; the first then removes the new entry and closes the old
    connector again.  The new one is in use and will never be closed. *)
Lemma get_race_leaks :
  let c1 := (toy_call 0 1 NewConnectorCache).2 in
  let key := buildKey "ctrader" "u" (connectorCacheHash toy_sha toy_creds) in
  let now := 2 * Hour in
  let read := get_read key c1 in
  let '(r2, c2) := toy_call now 2 c1 in
  let c3 := (get_finish now key read c2).2 in
  r2 = Ok 2%nat ∧ map_to_list (ca_entries c3) = [] ∧ ca_closed c3 = [1; 1]%nat.
Proof. vm_compute. done. Qed.

Lemma connectors_kept_or_closed_witness :
  ∃ c, (toy_call (2 * Hour) 2 (toy_call 0 1 NewConnectorCache).2) = (Ok 2%nat, c) ∧ NoDup (conns (ca_entries c) ++ ca_closed c) ∧ 1%nat ∈ ca_closed c.
Proof.
  destruct (toy_call 0 1 NewConnectorCache) as [r1 c1] eqn:E1. destruct (toy_call (2 * Hour) 2 c1) as [r2 c2] eqn:E2.
  assert (r1 = Ok 1%nat) as -> by (vm_compute in E1; injection E1 as <- _; reflexivity).
  assert (r2 = Ok 2%nat) as -> by (vm_compute in E1; injection E1 as <-; vm_compute in E2; injection E2 as <- _; reflexivity).
  assert (reached toy_sha map_to_list c1 [1]%nat) as R1 by (refine (reached_call _ _ NewConnectorCache [] 0 (Ok 1%nat) "ctrader" "u" toy_creds (Ok 1%nat) c1 (reached_new _ _) _ E1); intros n _; apply not_elem_of_nil).
  assert (reached toy_sha map_to_list c2 [2; 1]%nat) as R2.
  { refine (reached_call _ _ c1 [1]%nat (2 * Hour) (Ok 2%nat) "ctrader" "u" toy_creds (Ok 2%nat) c2 R1 _ E2). intros n [= <-] H%list_elem_of_singleton. discriminate H. }
  exists c2. split; [cbn [snd]; exact E2|]. destruct (connectors_kept_or_closed toy_sha map_to_list c2 [2; 1]%nat R2) as (H1 & H2 & _). split; [exact H2|].
  destruct (proj1 (H1 1%nat) ltac:(right; left)) as [H|H]; [|exact H]. exfalso. vm_compute in E1. injection E1 as <-. vm_compute in E2. injection E2 as <-. vm_compute in H. apply list_elem_of_singleton in H. discriminate H.
Defined.

End Cache.
