(* ===== verification/Recount.v ===== *)
(** * Recounting stored activity (internal/service/activity_recount.go)

    An operator re-reads a connection's fills and funding and rewrites the
    trades, volumes and fees of its live rows, each row from its own window,
    in the markets the venue reads back over a past range.
    internal/repository/snapshot_activity.go holds the write. *)

From S2P Require Import Prelude Num GoTime Types Store Breakdown Window Activity Fx Reflow.
From stdpp Require Import base gmap strings list sorting pretty.
From Stdlib Require Import ZArith Lia.
Local Open Scope Z_scope.

Module Recount.
Import Window Reflow.
#[local] Existing Instance Breakdown.in_bucket_dec.

Record recountScope := mkScope {
  rs_markets : list string;
  rs_horizon : duration;
}.

(** The table [activityRecountScopes]; a scope without horizon has zero. *)
Definition activityRecountScopes : list (string * recountScope) :=
  [("bybit", mkScope [market_name MSwap] 0);
   ("binance", mkScope [market_name MSwap] (89 * 24 * Hour))].

Definition recountScopeFor (exchange : string) : option recountScope :=
  snd <$> find_first (λ kv, String.eqb kv.1 (ToLower exchange)) activityRecountScopes.

Definition containsMarket (markets : list string) (m : string) : bool := existsb (λ x, String.eqb x m) markets.

Section recount.
Context {F : Type} {NF : Num F}.

Record RecountDay := mkRecountDay {
  rc_Day : time;
  rc_OldTrades : Z; rc_NewTrades : Z;
  rc_OldVolume : F; rc_NewVolume : F;
  rc_OldTradingFees : F; rc_NewTradingFees : F;
  rc_OldFundingFees : F; rc_NewFundingFees : F;
  rc_OldLongTrades : Z; rc_NewLongTrades : Z;
  rc_OldShortTrades : Z; rc_NewShortTrades : Z;
  rc_Kept : string;
  rc_Written : bool;
  rc_breakdown : option (MarketBreakdown F);
}.

Definition differs (x y : F) : bool := fltb (flit 1 9) (fabs (fsub x y)).

Definition changed (d : RecountDay) : bool :=
  negb (rc_NewTrades d =? rc_OldTrades d) || negb (rc_NewLongTrades d =? rc_OldLongTrades d) ||
  negb (rc_NewShortTrades d =? rc_OldShortTrades d) ||
  differs (rc_NewVolume d) (rc_OldVolume d) ||
  differs (rc_NewTradingFees d) (rc_OldTradingFees d) ||
  differs (rc_NewFundingFees d) (rc_OldFundingFees d).

Definition zero_metrics : MarketMetrics F := mkMetrics f0 f0 f0 0 f0 f0 0 0 f0 f0 "" f0.

(** [setActivity] on a value: the other fields stay. *)
Definition setActivity (volume : F) (trades : Z) (fees funding : F) (longT shortT : Z) (longV shortV : F)
    (m : MarketMetrics F) : MarketMetrics F :=
  mkMetrics (mm_Equity m) (mm_AvailableMargin m) volume trades fees funding longT shortT longV shortV
    (mm_NativeCurrency m) (mm_FXRateToUSD m).

(** The ten entries of [marketSlots] that are not nil, in its order. *)
Definition stored_markets (b : MarketBreakdown F) : list (MarketMetrics F) :=
  omap (breakdown_market b) all_markets.

Definition marketsAddUp (ob : option (MarketBreakdown F)) : bool :=
  match ob with
  | None => true
  | Some b =>
      match mb_Global b with
      | None => true
      | Some g =>
          let l := stored_markets b in
          let trades := foldl Z.add 0 (mm_Trades <$> l) in
          let volume := fsum (mm_Volume <$> l) in
          let fees := fsum (mm_TradingFees <$> l) in
          (trades =? mm_Trades g) &&
          fleb (fabs (fsub volume (mm_Volume g))) (fmul (flit 1 6) (fmax f1 (mm_Volume g))) &&
          fleb (fabs (fsub fees (mm_TradingFees g))) (fmul (flit 1 6) (fmax f1 (fabs (mm_TradingFees g))))
      end
  end.

(** One slot of the loop of [withActivity]. *)
Definition recount_slot (markets : list string) (withFunding : bool) (agg : Breakdown.aggregatedBreakdown (F := F))
    (b : MarketBreakdown F) (m : market) : option (MarketMetrics F) :=
  let a := agg m in
  let stored := breakdown_market b m in
  if negb (containsMarket markets (market_name m)) then stored
  else if bool_decide (stored = None) && (Breakdown.ma_trades a =? 0)
          && (negb withFunding || feqb (Breakdown.ma_fundingFees a) f0) then stored
  else
    let old := default zero_metrics stored in
    let funding := if withFunding then Breakdown.ma_fundingFees a else mm_FundingFees old in
    Some (setActivity (Breakdown.ma_volume a) (Breakdown.ma_trades a) (Breakdown.ma_fees a) funding
            (Breakdown.ma_longTrades a) (Breakdown.ma_shortTrades a)
            (Breakdown.ma_longVolume a) (Breakdown.ma_shortVolume a) old).

Definition withActivity (stored : option (MarketBreakdown F)) (agg : Breakdown.aggregatedBreakdown (F := F))
    (markets : list string) (withFunding : bool) (equity : F) : MarketBreakdown F :=
  let out := default empty_breakdown stored in
  let slots := recount_slot markets withFunding agg out in
  let l := omap slots all_markets in
  let g := default (mkMetrics equity f0 f0 0 f0 f0 0 0 f0 f0 "" f0) (mb_Global out) in
  breakdown_of slots
    (Some (setActivity (fsum (mm_Volume <$> l)) (foldl Z.add 0 (mm_Trades <$> l))
             (fsum (mm_TradingFees <$> l)) (fsum (mm_FundingFees <$> l))
             (foldl Z.add 0 (mm_LongTrades <$> l)) (foldl Z.add 0 (mm_ShortTrades <$> l))
             (fsum (mm_LongVolume <$> l)) (fsum (mm_ShortVolume <$> l)) g)).

(** The half-open window of a row. *)
Definition in_window (start day ts : time) : bool := negb (Before ts start) && Before ts day.

Definition recount_kept (r : Snapshot F) : string :=
  if sn_FromExternalRebuilder r || sn_IsHistorical r then "reconstructed day"
  else if negb (marketsAddUp (sn_Breakdown r)) then "global does not add up to its markets"
  else "".

Definition window_trades (start day : time) (markets : list string) (trades : list (Trade F)) : list (Trade F) :=
  filter (λ t, in_window start day (tr_Timestamp t) && containsMarket markets (tr_MarketType t) = true) trades.

Definition recountDay (rows : list (Snapshot F)) (i : nat) (r : Snapshot F) (exchange : string)
    (markets : list string) (trades : list (Trade F)) (funding : list (FundingFee F)) (readsFunding : bool) :
    RecountDay :=
  let day := sn_Timestamp r in
  let old := default zero_metrics (sn_Breakdown r ≫= mb_Global) in
  let kept := recount_kept r in
  let build (new : MarketMetrics F) (b : option (MarketBreakdown F)) :=
    mkRecountDay day (mm_Trades old) (mm_Trades new) (mm_Volume old) (mm_Volume new)
      (mm_TradingFees old) (mm_TradingFees new) (mm_FundingFees old) (mm_FundingFees new)
      (mm_LongTrades old) (mm_LongTrades new) (mm_ShortTrades old) (mm_ShortTrades new) kept false b in
  if negb (String.eqb kept "") then build old None
  else
    let start := reflowWindowStart rows i in
    let agg := Breakdown.aggregateTrades (window_trades start day markets trades) in
    let agg :=
      if readsFunding then
        (Breakdown.applyFundingFees agg exchange
           (filter (λ f, in_window start day (ff_Timestamp f) = true) funding)).1
      else agg in
    let b := withActivity (sn_Breakdown r) agg markets readsFunding (sn_TotalEquity r) in
    build (default zero_metrics (mb_Global b)) (Some b).

(** ** The write (internal/repository/snapshot_activity.go)

    The column is the breakdown it decodes to.  An entry the document lacks is
    created with the activity keys alone, which reads back with zeros
    elsewhere; [json.Marshal] refuses NaN and infinities. *)

Definition activity_finite (m : MarketMetrics F) : bool :=
  forallb Store.finite [mm_Volume m; mm_TradingFees m; mm_FundingFees m; mm_LongVolume m; mm_ShortVolume m].

Definition patch_entry (stored next : option (MarketMetrics F)) : option (MarketMetrics F) :=
  match next with
  | None => stored
  | Some n =>
      Some (setActivity (mm_Volume n) (mm_Trades n) (mm_TradingFees n) (mm_FundingFees n)
              (mm_LongTrades n) (mm_ShortTrades n) (mm_LongVolume n) (mm_ShortVolume n)
              (default zero_metrics stored))
  end.

Definition patchActivity (raw : option (MarketBreakdown F)) (oldTrades : Z) (oldVolume : F)
    (next : MarketBreakdown F) : res (option (MarketBreakdown F)) :=
  let doc := default empty_breakdown raw in
  let g := default zero_metrics (mb_Global doc) in
  if negb (feqb (fofZ (mm_Trades g)) (fofZ oldTrades)) ||
     fltb (flit 1 6) (fabs (fsub (mm_Volume g) oldVolume)) then Ok None
  else if forallb (λ m, from_option activity_finite true (breakdown_market next m)) all_markets &&
          from_option activity_finite true (mb_Global next)
  then Ok (Some (breakdown_of (λ m, patch_entry (breakdown_market doc m) (breakdown_market next m))
                   (patch_entry (mb_Global doc) (mb_Global next))))
  else Err "encode snapshot breakdown: json: unsupported value".

(** What the database may refuse during the transaction of one update. *)
Record update_faults := mkUpdateFaults {
  uf_begin : option string;
  uf_read : option string;
  uf_exec : option string;
  uf_commit : option string;
}.

Definition no_update_faults : update_faults := mkUpdateFaults None None None None.

Definition set_breakdown (b : option (MarketBreakdown F)) (s : Snapshot F) : Snapshot F :=
  mkSnapshot (sn_ID s) (sn_UserUID s) (sn_Exchange s) (sn_Label s) (sn_Timestamp s)
    (sn_TotalEquity s) (sn_RealizedBalance s) (sn_UnrealizedPnL s) (sn_Deposits s) (sn_Withdrawals s)
    (sn_TotalTrades s) (sn_TotalVolume s) (sn_TotalFees s) b
    (sn_IsHistorical s) (sn_FromExternalRebuilder s).

Definition UpdateActivity (sch : Store.schema) (flt : update_faults) (t : list (Snapshot F)) (id : string)
    (oldTrades : Z) (oldVolume : F) (next : MarketBreakdown F) : list (Snapshot F) * res bool :=
  if negb (Store.isTSSchema sch) then (t, Err "update snapshot activity: production schema only")
  else match uf_begin flt with Some e => (t, Err ("begin tx: " +:+ e)%string) | None =>
  match uf_read flt with Some e => (t, Err ("read snapshot breakdown: " +:+ e)%string) | None =>
  match find_first (λ r, String.eqb (sn_ID r) id) t with
  | None => (t, Ok false)
  | Some r =>
      match patchActivity (sn_Breakdown r) oldTrades oldVolume next with
      | Err e => (t, Err e)
      | Ok None => (t, Ok false)
      | Ok (Some patched) =>
          match uf_exec flt with Some e => (t, Err ("update snapshot activity: " +:+ e)%string) | None =>
          match uf_commit flt with Some e => (t, Err ("commit snapshot activity: " +:+ e)%string) | None =>
            ((λ r, if String.eqb (sn_ID r) id then set_breakdown (Some patched) r else r) <$> t,
             Ok (bool_decide (length (filter (λ r, String.eqb (sn_ID r) id = true) t) = 1%nat)))
          end end
      end
  end end end.

(** ** The run *)

Definition set_written (ok : bool) (d : RecountDay) : RecountDay :=
  mkRecountDay (rc_Day d) (rc_OldTrades d) (rc_NewTrades d) (rc_OldVolume d) (rc_NewVolume d)
    (rc_OldTradingFees d) (rc_NewTradingFees d) (rc_OldFundingFees d) (rc_NewFundingFees d)
    (rc_OldLongTrades d) (rc_NewLongTrades d) (rc_OldShortTrades d) (rc_NewShortTrades d)
    (rc_Kept d) ok (rc_breakdown d).

(** The loop over the rows from place [i] on; an error leaves the days so
    far. *)
Fixpoint recountDays_from (sch : Store.schema) (flt : nat → update_faults) (rows : list (Snapshot F))
    (from to : time) (exchange : string) (markets : list string) (trades : list (Trade F))
    (funding : list (FundingFee F)) (readsFunding apply : bool) (i : nat) (l : list (Snapshot F))
    (t : list (Snapshot F)) : list (Snapshot F) * list RecountDay * res Z :=
  match l with
  | [] => (t, [], Ok 0)
  | r :: l' =>
      let next := recountDays_from sch flt rows from to exchange markets trades funding readsFunding apply (S i) l' in
      if Before (sn_Timestamp r) from || After (sn_Timestamp r) to then next t
      else
        let d := recountDay rows i r exchange markets trades funding readsFunding in
        if apply && String.eqb (rc_Kept d) "" && changed d then
          match UpdateActivity sch (flt i) t (sn_ID r) (rc_OldTrades d) (rc_OldVolume d)
                  (default empty_breakdown (rc_breakdown d)) with
          | (t', Err e) => (t', [], Err e)
          | (t', Ok ok) =>
              let '(t'', out, n) := next t' in
              (t'', set_written ok d :: out, n ← n; Ok (if ok then n + 1 else n))
          end
        else let '(t', out, n) := next t in (t', d :: out, n)
  end.

(** [recountSource] *)
Definition recountSource (lookup : res ExchangeConnection) (build : ExchangeConnection → res (Activity.connector F)) :
    res (ExchangeConnection * Activity.connector F) :=
  match lookup with
  | Err e => Err ("look up connection: " +:+ e)%string
  | Ok c =>
      match build c with
      | Err e => Err e
      | Ok conn =>
          match Activity.cn_GetBalance conn 0 with
          | inr e => Err ("read balance: " +:+ Activity.err_text e)%string
          | inl balance =>
              let '(currency, convert) := Fx.fiatToConvert (bal_Currency balance) in
              if convert then Err ("recount: account held in " +:+ currency)%string else Ok (c, conn)
          end
      end
  end.

(** The reads of [RecountActivity], up to its loop. *)
Definition recount_reads (lookup : res ExchangeConnection) (build : ExchangeConnection → res (Activity.connector F))
    (repo : snapshot_repo F) (exchange : string) (from to now : time) :
    res (ExchangeConnection * recountScope * list (Snapshot F) * list (Trade F) * list (FundingFee F) * bool) :=
  _ ← checkReflowWindow from to;
  scope ← match recountScopeFor exchange with
          | None => Err ("recount: " +:+ exchange +:+ " cannot read a past range of fills")%string
          | Some sc => Ok sc
          end;
  '(c, conn) ← recountSource lookup build;
  '(rows, _) ← reflowRows repo c from to;
  let since := reflowSince rows from in
  _ ← (if (0 <? rs_horizon scope) && Before since (now - rs_horizon scope)
       then Err ("recount: " +:+ exchange +:+ " keeps fills for " +:+
                 pretty (Z.quot (rs_horizon scope) (24 * Hour)) +:+ " days")%string
       else Ok tt);
  trades ← (match Activity.cn_GetTrades conn since to with
            | (trades, None) => Ok trades
            | (_, Some e) => Err ("read trades: " +:+ e)%string
            end);
  '(funding, readsFunding) ← (match Activity.cn_GetFundingFees conn with
                              | None => Ok ([], false)
                              | Some get =>
                                  match get [] since with
                                  | Ok fees => Ok (fees, true)
                                  | Err e => Err ("read funding: " +:+ e)%string
                                  end
                              end);
  Ok (c, scope, rows, trades, funding, readsFunding).

(** The third component is true when the run tells that the history
    changed. *)
Definition RecountActivity (lookup : res ExchangeConnection) (build : ExchangeConnection → res (Activity.connector F))
    (flt : nat → update_faults) (repo : snapshot_repo F) (exchange : string) (from to : time) (apply : bool)
    (now : time) : snapshot_repo F * list RecountDay * res bool :=
  let from := truncDay from in let to := truncDay to in
  match recount_reads lookup build repo exchange from to now with
  | Err e => (repo, [], Err e)
  | Ok (c, scope, rows, trades, funding, readsFunding) =>
      let '(t, out, n) := recountDays_from (sp_schema repo) flt rows from to (ec_Exchange c) (rs_markets scope)
                            trades funding readsFunding apply 0 rows (sp_table repo) in
      (mkSnapshotRepo (sp_schema repo) t (sp_fault repo), out,
       match n with Ok n => Ok (0 <? n) | Err e => Err e end)
  end.

(** ** Lemmas *)

(** A metrics entry without its activity; an absent entry has nothing. *)
Definition clear_activity (m : MarketMetrics F) : MarketMetrics F := setActivity f0 0 f0 f0 0 0 f0 f0 m.
Definition standing (o : option (MarketMetrics F)) : MarketMetrics F := clear_activity (default zero_metrics o).

Definition markets_of (b : option (MarketBreakdown F)) (m : market) : option (MarketMetrics F) :=
  breakdown_market (default empty_breakdown b) m.
Definition global_of (b : option (MarketBreakdown F)) : option (MarketMetrics F) :=
  mb_Global (default empty_breakdown b).

(** Everything but activity is the same: every column, and in the breakdown
    the equity, margin, currency and rate of every market and of the total. *)
Definition same_but_activity (r r' : Snapshot F) : Prop :=
  set_breakdown (sn_Breakdown r) r' = r ∧
  (∀ m, standing (markets_of (sn_Breakdown r') m) = standing (markets_of (sn_Breakdown r) m)) ∧
  standing (global_of (sn_Breakdown r')) = standing (global_of (sn_Breakdown r)).

#[export] Instance same_but_activity_refl : Reflexive same_but_activity.
Proof. intros r. split_and!; [by destruct r|done..]. Qed.

#[export] Instance same_but_activity_trans : Transitive same_but_activity.
Proof.
  intros r1 r2 r3 (H1 & Hm1 & Hg1) (H2 & Hm2 & Hg2). split_and!.
  - rewrite <- H1 at 2. rewrite <- H2. by destruct r3.
  - intros m. by rewrite Hm2, Hm1.
  - by rewrite Hg2, Hg1.
Qed.

Lemma standing_patch s n : standing (patch_entry s n) = standing s.
Proof. by destruct n, s. Qed.

Lemma patch_same s : patch_entry s s = s.
Proof. by destruct s as [[]|]. Qed.

(** The id is the primary key of the table. *)
Definition ids_unique (t : list (Snapshot F)) : Prop := NoDup (sn_ID <$> t).

Lemma ids_unique_eq t r1 r2 : ids_unique t → r1 ∈ t → r2 ∈ t → sn_ID r1 = sn_ID r2 → r1 = r2.
Proof.
  intros Hu (i & Hi)%list_elem_of_lookup (j & Hj)%list_elem_of_lookup Hid.
  assert (i = j) as ->; [|congruence].
  apply (NoDup_lookup _ i j (sn_ID r1) Hu); rewrite list_lookup_fmap; [by rewrite Hi|by rewrite Hj, Hid].
Qed.

(** The row of a write takes the patched breakdown. *)
Definition patched (next : MarketBreakdown F) (r r' : Snapshot F) : Prop :=
  set_breakdown (sn_Breakdown r) r' = r ∧
  (∀ m, markets_of (sn_Breakdown r') m = patch_entry (markets_of (sn_Breakdown r) m) (breakdown_market next m)) ∧
  global_of (sn_Breakdown r') = patch_entry (global_of (sn_Breakdown r)) (mb_Global next).

Lemma patched_same next r r' : patched next r r' → same_but_activity r r'.
Proof.
  intros (H & Hm & Hg). split_and!; [done| |].
  - intros m. by rewrite Hm, standing_patch.
  - by rewrite Hg, standing_patch.
Qed.

Lemma UpdateActivity_rows sch flt t id ot ov next :
  ids_unique t →
  Forall2 (λ r r', r' = r ∨ (sn_ID r = id ∧ patched next r r')) t (UpdateActivity sch flt t id ot ov next).1.
Proof.
  intros Hu.
  assert (∀ Q, Forall2 (λ r r' : Snapshot F, r' = r ∨ Q r r') t t) as Hrefl.
  { intros Q. apply Forall_Forall2_diag, Forall_true. by left. }
  unfold UpdateActivity. destruct (negb _); [apply Hrefl|].
  destruct (uf_begin flt); [apply Hrefl|]. destruct (uf_read flt); [apply Hrefl|].
  destruct (find_first _ t) as [r0|] eqn:Ef; [|apply Hrefl].
  destruct (patchActivity _ _ _ _) as [[b|]|] eqn:Ep; [|apply Hrefl..].
  destruct (uf_exec flt); [apply Hrefl|]. destruct (uf_commit flt); [apply Hrefl|].
  apply find_first_some in Ef as (l1 & l2 & Ht & Hid%String.eqb_eq & _).
  cbn [fst]. apply Forall2_fmap_r, Forall_Forall2_diag, Forall_forall. intros r Hr. cbn [compose].
  destruct (String.eqb (sn_ID r) id) eqn:E; [right|by left]. apply String.eqb_eq in E.
  assert (r0 = r) as -> by (apply (ids_unique_eq t); [done|set_solver|done|congruence]).
  split; [done|]. unfold patchActivity in Ep. repeat case_match; simplify_eq.
  unfold patched, markets_of, global_of. cbn [set_breakdown sn_Breakdown default from_option id].
  split_and!; [by destruct r| |done]. intros m. by rewrite breakdown_of_market.
Qed.

Lemma recount_kept_day rows i r ex markets trades funding rf :
  rc_Kept (recountDay rows i r ex markets trades funding rf) = recount_kept r.
Proof. unfold recountDay. by destruct (negb _). Qed.

(** The breakdown a day proposes keeps the markets out of scope. *)
Lemma recountDay_out_of_scope rows i r ex markets trades funding rf m :
  recount_kept r = "" → containsMarket markets (market_name m) = false →
  breakdown_market (default empty_breakdown
    (rc_breakdown (recountDay rows i r ex markets trades funding rf))) m = markets_of (sn_Breakdown r) m.
Proof.
  intros Hk Hm. unfold recountDay. rewrite Hk. cbn [String.eqb negb rc_breakdown default from_option id].
  unfold withActivity. rewrite breakdown_of_market. unfold recount_slot. by rewrite Hm.
Qed.

(** The rows a recount may write: live, adding up, in range. *)
Definition writable (from to : time) (r : Snapshot F) : Prop :=
  from ≤ sn_Timestamp r ≤ to ∧ recount_kept r = "".

(** What a recount leaves of a row. *)
Definition framed (markets : list string) (from to : time) (apply : bool) (l : list (Snapshot F))
    (r r' : Snapshot F) : Prop :=
  same_but_activity r r' ∧
  ((∀ x, x ∈ l → writable from to x → sn_ID x ≠ sn_ID r) → r' = r) ∧ (apply = false → r' = r) ∧
  (∀ m, containsMarket markets (market_name m) = false →
     markets_of (sn_Breakdown r') m = markets_of (sn_Breakdown r) m).

Lemma framed_refl markets from to apply l r : framed markets from to apply l r r.
Proof. by split_and!. Qed.

Lemma framed_weaken markets from to apply x l r r' :
  framed markets from to apply l r r' → framed markets from to apply (x :: l) r r'.
Proof. intros (? & Hn & ? & ?). split_and!; [done| |done..]. intros Hx. apply Hn. set_solver. Qed.

(** The rows still to visit are stored as they were read. *)
Definition as_read (l t : list (Snapshot F)) : Prop :=
  NoDup (sn_ID <$> l) ∧ ∀ x r, x ∈ l → r ∈ t → sn_ID r = sn_ID x → sn_Breakdown r = sn_Breakdown x.

Lemma Forall2_framed_refl markets from to apply l t : Forall2 (framed markets from to apply l) t t.
Proof. apply Forall_Forall2_diag, Forall_true. intros r. apply framed_refl. Qed.

Lemma patched_id next r r' : patched next r r' → sn_ID r' = sn_ID r.
Proof. intros [<- _]. done. Qed.

(** One write, seen by the rest of the run. *)
Lemma write_step sch flt rows from to ex markets trades funding rf i x l t :
  ids_unique t → as_read (x :: l) t → writable from to x →
  let d := recountDay rows i x ex markets trades funding rf in
  let t' := (UpdateActivity sch flt t (sn_ID x) (rc_OldTrades d) (rc_OldVolume d)
               (default empty_breakdown (rc_breakdown d))).1 in
  Forall2 (framed markets from to true (x :: l)) t t' ∧ ids_unique t' ∧ as_read l t'.
Proof.
  intros Hu [Hnd Hread] Hw d t'.
  pose proof (UpdateActivity_rows sch flt t (sn_ID x) (rc_OldTrades d) (rc_OldVolume d)
    (default empty_breakdown (rc_breakdown d)) Hu) as Hrows. fold t' in Hrows.
  assert (sn_ID <$> t' = sn_ID <$> t) as Hids.
  { symmetry. apply list_eq_Forall2, Forall2_fmap. eapply Forall2_impl; [exact Hrows|]. cbn.
    intros r r' [->|[_ Hp%patched_id]]; [done|by symmetry]. }
  cbn [fmap list_fmap] in Hnd. apply NoDup_cons in Hnd as [Hx Hnd]. split_and!.
  - apply Forall2_same_length_lookup. split; [by eapply Forall2_length|]. intros j r r' Hr Hr'.
    destruct (Forall2_lookup_lr _ _ _ _ _ _ Hrows Hr Hr') as [->|[Hid Hp]]; [apply framed_refl|].
    split_and!; [by eapply patched_same| |done|].
    + intros Hn. exfalso. apply (Hn x); [set_solver|done|done].
    + intros m Hm. destruct Hp as (_ & -> & _). unfold d. rewrite recountDay_out_of_scope by (done || apply Hw).
      rewrite <- (Hread x r) by (set_solver || by eapply list_elem_of_lookup_2). apply patch_same.
  - unfold ids_unique. by rewrite Hids.
  - split; [done|]. intros y r' Hy (j & Hr')%list_elem_of_lookup Hid.
    destruct (Forall2_lookup_r _ _ _ _ _ Hrows Hr') as (r & Hr & [->|[Hrx Hp%patched_id]]).
    + apply Hread; [set_solver|by eapply list_elem_of_lookup_2|done].
    + exfalso. apply Hx. rewrite <- Hrx, <- Hp, Hid. by apply list_elem_of_fmap_2.
Qed.

Lemma recountDays_frame sch flt rows from to ex markets trades funding rf apply i l t :
  ids_unique t → as_read l t →
  Forall2 (framed markets from to apply l) t
    (recountDays_from sch flt rows from to ex markets trades funding rf apply i l t).1.1.
Proof.
  revert i t. induction l as [|x l IH]; intros i t Hu Hr; cbn [recountDays_from]; [apply Forall2_framed_refl|].
  assert (Forall2 (framed markets from to apply (x :: l)) t
    (recountDays_from sch flt rows from to ex markets trades funding rf apply (S i) l t).1.1) as Hskip.
  { eapply Forall2_impl; [|intros ??; apply framed_weaken]. apply IH; [done|]. destruct Hr as [Hnd Hr].
    cbn [fmap list_fmap] in Hnd. apply NoDup_cons in Hnd as [_ Hnd]. split; [done|set_solver]. }
  destruct (Before _ _ || _) eqn:Er; [apply Hskip|].
  set (d := recountDay rows i x ex markets trades funding rf) in *.
  destruct (apply && String.eqb (rc_Kept d) "" && changed d) eqn:Ea.
  2: { by destruct (recountDays_from _ _ _ _ _ _ _ _ _ _ _ (S i) l t) as [[? ?] ?]. }
  apply andb_true_iff in Ea as [[-> Hkept%String.eqb_eq]%andb_true_iff _].
  assert (writable from to x) as Hw.
  { unfold writable, Before, After in *. apply orb_false_iff in Er as [E1 E2]. go_bool. split; [lia|].
    by unfold d in Hkept; rewrite recount_kept_day in Hkept. }
  destruct (write_step sch (flt i) rows from to ex markets trades funding rf i x l t Hu Hr Hw) as (Hf & Hu' & Hr').
  fold d in Hf, Hu', Hr'. destruct (UpdateActivity _ _ _ _ _ _ _) as [t' [ok|e]]; cbn [fst] in *; [|done].
  specialize (IH (S i) t' Hu' Hr').
  destruct (recountDays_from _ _ _ _ _ _ _ _ _ _ _ (S i) l t') as [[t'' out] n]. cbn [fst] in *.
  eapply Forall2_trans; [|exact Hf|exact IH].
  intros r1 r2 r3 (Hs1 & Hn1 & _ & Hm1) (Hs2 & Hn2 & _ & Hm2). split_and!.
  - by etrans.
  - intros Hn. rewrite (Hn1 Hn) in *. apply Hn2. set_solver.
  - done.
  - intros m Hm. by rewrite Hm2, Hm1.
Qed.

(** What the rows of a run are read from. *)
Lemma reflowRows_rows repo c from to rows e :
  ids_unique (sp_table repo) → reflowRows repo c from to = Ok (rows, e) →
  as_read rows (sp_table repo) ∧
  ∀ x, x ∈ rows → ∃ r, r ∈ sp_table repo ∧ x = Store.scan_range (sp_schema repo) r ∧
    sn_UserUID x = ec_UserUID c ∧ sn_Exchange x = ec_Exchange c ∧ sn_Label x = ec_Label c.
Proof.
  intros Hu Hr. unfold reflowRows, query in Hr. destruct (sp_fault repo); [done|].
  destruct (Store.GetEarliestTimestamp _ _ _ _ _); [|done]. injection Hr as <- _.
  set (sch := sp_schema repo). set (t := sp_table repo) in *.
  assert (∀ r : Snapshot F, sn_ID (Store.scan_range sch r) = sn_ID r) as Hid
    by (intros; unfold Store.scan_range; by destruct (Store.isTSSchema sch)).
  assert (∀ r : Snapshot F, sn_Breakdown (Store.scan_range sch r) = sn_Breakdown r) as Hb
    by (intros; unfold Store.scan_range; by destruct (Store.isTSSchema sch)).
  set (own := λ r : Snapshot F, String.eqb (sn_UserUID r) (ec_UserUID c)
    && (from - maxActivityLookback <=? sn_Timestamp r) && (sn_Timestamp r <=? to) = true).
  set (all := Store.getByUserAndDateRange sch t (ec_UserUID c) (from - maxActivityLookback) to).
  assert (∀ x, x ∈ all → ∃ r, r ∈ t ∧ x = Store.scan_range sch r ∧ sn_UserUID x = ec_UserUID c) as Hall.
  { intros x. unfold all, Store.getByUserAndDateRange. rewrite list_elem_of_fmap. intros (r & -> & Hr).
    apply sort_by_elem, list_elem_of_filter in Hr as [Hown Hr]. exists r. split_and!; [done..|].
    apply andb_true_iff in Hown as [[Hown%String.eqb_eq _]%andb_true_iff _].
    rewrite <- Hown. unfold Store.scan_range. by destruct (Store.isTSSchema sch). }
  split; [split|].
  - rewrite sort_by_perm. eapply sublist_NoDup; [|apply fmap_sublist, sublist_filter].
    unfold all, Store.getByUserAndDateRange. rewrite <- list_fmap_compose.
    rewrite (list_fmap_ext (sn_ID ∘ Store.scan_range sch) sn_ID) by (intros; apply Hid).
    rewrite sort_by_perm. eapply sublist_NoDup; [|apply fmap_sublist, sublist_filter]. done.
  - intros x r Hx Hr Hxr. apply sort_by_elem, list_elem_of_filter in Hx as [_ (r0 & Hr0 & -> & _)%Hall].
    rewrite Hid in Hxr. rewrite Hb. by rewrite (ids_unique_eq t r r0).
  - intros x [Hx Hin]%sort_by_elem%list_elem_of_filter.
    apply andb_true_iff in Hx as [Hx1%String.eqb_eq Hx2%String.eqb_eq].
    destruct (Hall x Hin) as (r & ? & ? & ?). exists r. by split_and!.
Qed.

(** Without the production schema nothing is written. *)
Lemma recountDays_other_schema sch flt rows from to ex markets trades funding rf apply i l t :
  Store.isTSSchema sch = false →
  (recountDays_from sch flt rows from to ex markets trades funding rf apply i l t).1.1 = t.
Proof.
  intros Hs. revert i t. induction l as [|x l IH]; intros i t; cbn [recountDays_from]; [done|].
  destruct (Before _ _ || _); [apply IH|]. specialize (IH (S i) t).
  destruct (_ && changed _).
  - unfold UpdateActivity. by rewrite Hs.
  - by destruct (recountDays_from _ _ _ _ _ _ _ _ _ _ _ (S i) l t) as [[? ?] ?].
Qed.

Lemma recount_reads_ok lookup build repo exchange from to now c scope rows trades funding rf :
  recount_reads lookup build repo exchange from to now = Ok (c, scope, rows, trades, funding, rf) →
  recountScopeFor exchange = Some scope ∧ lookup = Ok c ∧ ∃ e, reflowRows repo c from to = Ok (rows, e).
Proof.
  unfold recount_reads. intros Er. apply res_bind_ok in Er as (_ & _ & Er).
  destruct (recountScopeFor exchange) as [scope'|]; [|done].
  apply res_bind_ok in Er as (? & [= <-] & Er).
  apply res_bind_ok in Er as ([c' conn] & Hsrc & Er). apply res_bind_ok in Er as ([rows' e] & Hrows & Er).
  repeat (apply res_bind_ok in Er as (? & _ & Er)). repeat case_match. injection Er as -> -> -> -> -> ->.
  split_and!; [done| |by exists e]. unfold recountSource in Hsrc.
  by repeat (case_match; simplify_eq).
Qed.

(** The entry a day proposes for a market. *)
Definition day_market (d : RecountDay) (m : market) : MarketMetrics F :=
  default zero_metrics (rc_breakdown d ≫= λ b, breakdown_market b m).

(** The fills a day counts in a market. *)
Definition day_fills (rows : list (Snapshot F)) (markets : list string) (m : market) (trades : list (Trade F))
    (i : nat) (r : Snapshot F) : list (Trade F) :=
  filter (Breakdown.in_bucket m) (window_trades (reflowWindowStart rows i) (sn_Timestamp r) markets trades).

Lemma funding_keeps_trades (a : Breakdown.aggregatedBreakdown (F := F)) ex fees m :
  let a' := (Breakdown.applyFundingFees a ex fees).1 in
  Breakdown.ma_trades (a' m) = Breakdown.ma_trades (a m) ∧ Breakdown.ma_volume (a' m) = Breakdown.ma_volume (a m) ∧
  Breakdown.ma_fees (a' m) = Breakdown.ma_fees (a m).
Proof.
  unfold Breakdown.applyFundingFees. cbn [fst]. destruct (negb _); [|done].
  unfold Breakdown.update. by case_decide.
Qed.

Lemma slot_activity markets wf agg b m :
  containsMarket markets (market_name m) = true →
  Breakdown.ma_trades (agg m) = 0 → Breakdown.ma_volume (agg m) = f0 → Breakdown.ma_fees (agg m) = f0 →
  let e := default zero_metrics (recount_slot markets wf agg b m) in
  mm_Trades e = 0 ∧ mm_Volume e = f0 ∧ mm_TradingFees e = f0.
Proof.
  intros Hm Ht Hv Hf. unfold recount_slot. rewrite Hm, Ht. cbn [negb].
  destruct (bool_decide _ && _ && _) eqn:E; [|done].
  apply andb_true_iff in E as [[->%bool_decide_eq_true _]%andb_true_iff _]. done.
Qed.

Lemma day_market_fills rows i r ex markets trades funding rf m :
  recount_kept r = "" → containsMarket markets (market_name m) = true →
  let e := day_market (recountDay rows i r ex markets trades funding rf) m in
  let own := day_fills rows markets m trades i r in
  mm_Trades e = Z.of_nat (length own) ∧ mm_Volume e = fsum (Breakdown.Notional <$> own) ∧
  mm_TradingFees e = fsum (tr_Fee <$> own).
Proof.
  intros Hk Hm e own. unfold e, day_market, recountDay. rewrite Hk. cbn [String.eqb negb rc_breakdown mbind option_bind].
  unfold withActivity. rewrite breakdown_of_market.
  set (win := window_trades _ _ _ _). set (agg := Breakdown.aggregateTrades win). set (agg' := if rf then _ else agg).
  assert (agg m = Breakdown.mkAgg f0 f0 (fsum (Breakdown.Notional <$> own)) (Z.of_nat (length own))
    (fsum (tr_Fee <$> own)) f0 (Breakdown.ma_longTrades (agg m)) (Breakdown.ma_shortTrades (agg m))
    (Breakdown.ma_longVolume (agg m)) (Breakdown.ma_shortVolume (agg m))) as Ha.
  { unfold agg, Breakdown.aggregateTrades. rewrite Breakdown.aggregate_bucket_from.
    fold win in own. unfold own, day_fills. fold win. by rewrite Breakdown.fold_add_trade. }
  assert (Breakdown.ma_trades (agg' m) = Z.of_nat (length own) ∧
    Breakdown.ma_volume (agg' m) = fsum (Breakdown.Notional <$> own) ∧
    Breakdown.ma_fees (agg' m) = fsum (tr_Fee <$> own)) as (Ht & Hv & Hf).
  { unfold agg'. destruct rf; [|by rewrite Ha].
    destruct (funding_keeps_trades agg ex
      (filter (λ f, in_window (reflowWindowStart rows i) (sn_Timestamp r) (ff_Timestamp f) = true) funding) m)
      as (-> & -> & ->). by rewrite Ha. }
  destruct own as [|t0 own0] eqn:Eo.
  - by apply slot_activity.
  - unfold recount_slot. rewrite Hm, Ht. cbn [negb].
    rewrite andb_false_r. cbn [andb]. by rewrite Hv, Hf.
Qed.

(** Sums over the places of a list. *)
Lemma sum_none {A} (p : nat → A → bool) l :
  (∀ j y, l !! j = Some y → p j y = false) → foldr Nat.add 0%nat (imap (λ i x, if p i x then 1%nat else 0%nat) l) = 0%nat.
Proof.
  revert p. induction l as [|x l IH]; intros p Hp; [done|]. cbn [imap foldr].
  rewrite (Hp 0%nat x eq_refl). apply (IH (p ∘ S)). intros j y Hy. by apply (Hp (S j)).
Qed.

Lemma sum_one {A} (p : nat → A → bool) l i0 x0 :
  l !! i0 = Some x0 → p i0 x0 = true → (∀ j y, l !! j = Some y → p j y = true → j = i0) →
  foldr Nat.add 0%nat (imap (λ i x, if p i x then 1%nat else 0%nat) l) = 1%nat.
Proof.
  revert p i0. induction l as [|x l IH]; intros p i0 Hi Hp Hu; [done|]. cbn [imap foldr].
  destruct i0 as [|i0].
  - injection Hi as ->. rewrite Hp. f_equal. apply (sum_none (p ∘ S)). intros j y Hy.
    destruct (p (S j) y) eqn:E; [|done]. by apply (Hu (S j)) in E.
  - destruct (p 0%nat x) eqn:E; [by apply (Hu 0%nat) in E|].
    apply (IH (p ∘ S) i0); [done..|]. intros j y Hy Hpj. by apply (Hu (S j) y) in Hpj as [= ->].
Qed.

Lemma sum_add {A} (f g : nat → A → nat) l :
  foldr Nat.add 0%nat (imap (λ i x, (f i x + g i x)%nat) l) = (foldr Nat.add 0%nat (imap f l) + foldr Nat.add 0%nat (imap g l))%nat.
Proof.
  revert f g. induction l as [|x l IH]; intros f g; [done|]. cbn [imap foldr].
  etrans; [apply (f_equal (Nat.add _)), (IH (f ∘ S) (g ∘ S))|lia].
Qed.

Lemma sum_of_nat {A} (f : nat → A → nat) l :
  foldr Z.add 0 (imap (λ i x, Z.of_nat (f i x)) l) = Z.of_nat (foldr Nat.add 0%nat (imap f l)).
Proof.
  revert f. induction l as [|x l IH]; intros f; [done|]. cbn [imap foldr].
  rewrite Nat2Z.inj_add, <- (IH (f ∘ S)). done.
Qed.

Lemma window_first (rows : list (Snapshot F)) r0 j s : daily rows → rows !! 0%nat = Some r0 → rows !! j = Some s →
  reflowWindowStart rows 0 ≤ reflowWindowStart rows j.
Proof.
  intros Hd H0 Hj. destruct j as [|j]; [done|].
  destruct (rows !! j) as [p|] eqn:Hp; [|apply lookup_ge_None in Hp; apply lookup_lt_Some in Hj; lia].
  rewrite (window_start_prev _ _ _ _ Hd Hp Hj).
  assert (reflowWindowStart rows 0 ≤ sn_Timestamp r0).
  { unfold reflowWindowStart. rewrite H0. unfold Before.
    assert (0 < defaultActivityWindow) by done. assert (0 < maxActivityLookback) by done. go_arith. }
  destruct j as [|j]; [simplify_eq; lia|].
  assert (sn_Timestamp r0 < sn_Timestamp p) by (apply (daily_lt rows 0 (S j)); [done|lia|done|done]). lia.
Qed.

(** The fills of the market in the period the rows cover. *)
Definition period_fills (rows : list (Snapshot F)) (last_ : Snapshot F) (markets : list string) (m : market)
    (trades : list (Trade F)) : list (Trade F) :=
  filter (λ t, Breakdown.in_bucket m t ∧ containsMarket markets (tr_MarketType t) = true ∧
               in_window (reflowWindowStart rows 0) (sn_Timestamp last_) (tr_Timestamp t) = true) trades.

Lemma in_window_iff start day ts : in_window start day ts = true ↔ start ≤ ts < day.
Proof. unfold in_window, Before. rewrite andb_true_iff, negb_true_iff. split; intros; go_bool; lia. Qed.

Lemma fills_of_period rows r0 last_ n markets m trades :
  daily rows → rows !! 0%nat = Some r0 → rows !! n = Some last_ → length rows = S n →
  foldr Nat.add 0%nat (imap (λ i r, length (day_fills rows markets m trades i r)) rows) =
  length (period_fills rows last_ markets m trades).
Proof.
  intros Hd H0 Hn Hlen. unfold period_fills. induction trades as [|t trades IH].
  - by rewrite (sum_none (λ _ _, false)).
  - set (p := λ (i : nat) (r : Snapshot F), bool_decide (Breakdown.in_bucket m t) &&
      (in_window (reflowWindowStart rows i) (sn_Timestamp r) (tr_Timestamp t) && containsMarket markets (tr_MarketType t))).
    rewrite (imap_ext _ (λ i r, ((if p i r then 1 else 0) + length (day_fills rows markets m trades i r))%nat)).
    2: { intros i r _. unfold day_fills, window_trades, p. rewrite filter_cons.
         destruct (in_window _ _ _ && _); case_decide; try done; rewrite ?filter_cons; case_bool_decide;
           try case_decide; done. }
    rewrite sum_add, IH, filter_cons. case_decide as Ht.
    + destruct Ht as (Hb & Hc & Hw%in_window_iff).
      destruct (windows_tile _ _ _ _ _ Hd H0 Hn Hw) as (i & r & _ & Hr & Hs & Hu).
      rewrite (sum_one p rows i r Hr); [done|..].
      * unfold p. rewrite bool_decide_eq_true_2, Hc, andb_true_r by done. by apply in_window_iff.
      * intros j y Hy [_ [Hj%in_window_iff _]%andb_true_iff]%andb_true_iff. by apply (Hu j y).
    + rewrite (sum_none p); [done|]. intros j y Hy. destruct (p j y) eqn:E; [|done]. exfalso. apply Ht.
      unfold p in E. apply andb_true_iff in E as [Hb%bool_decide_eq_true [Hj%in_window_iff Hc]%andb_true_iff].
      split_and!; [done..|]. apply in_window_iff.
      pose proof (window_first _ _ _ _ Hd H0 Hy).
      assert (sn_Timestamp y ≤ sn_Timestamp last_); [|lia].
      destruct (decide (j = n)) as [->|]; [simplify_eq; lia|].
      apply lookup_lt_Some in Hy as Hlt. apply Z.lt_le_incl, (daily_lt rows j n); [done|lia|done|done].
Qed.

(** ** Properties *)

(** A recount changes activity only.  Whatever the venue and the database
    answer, the table keeps its rows in place with every column but the
    breakdown, and in the breakdown the equity, margin, currency and rate of
    every market and of the total; a market the venue cannot read back over a
    past range keeps its activity too.  A row of another account, outside the
    days asked for or known to be reconstructed is not changed at all, and
    nothing is without [apply]. *)
Theorem recount_only_activity lookup build flt repo exchange from to apply now :
  ids_unique (sp_table repo) →
  let repo' := (RecountActivity lookup build flt repo exchange from to apply now).1.1 in
  Forall2 same_but_activity (sp_table repo) (sp_table repo') ∧
  (apply = false → sp_table repo' = sp_table repo) ∧
  Forall2 (λ r r', ∀ scope m, recountScopeFor exchange = Some scope →
      containsMarket (rs_markets scope) (market_name m) = false →
      markets_of (sn_Breakdown r') m = markets_of (sn_Breakdown r) m) (sp_table repo) (sp_table repo') ∧
  Forall2 (λ r r', ∀ c, lookup = Ok c →
      (sn_UserUID r, sn_Exchange r, sn_Label r) ≠ (ec_UserUID c, ec_Exchange c, ec_Label c) ∨
      sn_Timestamp r < truncDay from ∨ truncDay to < sn_Timestamp r ∨
      (Store.hasFromExternalRebuilderCol (sp_schema repo) = true ∧ sn_FromExternalRebuilder r = true) →
      r' = r) (sp_table repo) (sp_table repo').
Proof.
  intros Hu repo'. subst repo'. unfold RecountActivity.
  destruct (recount_reads _ _ _ _ _ _ _) as [[[[[[c scope] rows] trades] funding] rf]|e] eqn:Er.
  2: { cbn [fst]. split_and!; [|done|..]; by apply Forall_Forall2_diag, Forall_true. }
  apply recount_reads_ok in Er as (Esc & Hlook & e & Hrows).
  destruct (reflowRows_rows _ _ _ _ _ _ Hu Hrows) as [Hread Hof].
  pose proof (recountDays_frame (sp_schema repo) flt rows (truncDay from) (truncDay to) (ec_Exchange c)
    (rs_markets scope) trades funding rf apply 0 rows (sp_table repo) Hu Hread) as Hf.
  pose proof (recountDays_other_schema (sp_schema repo) flt rows (truncDay from) (truncDay to) (ec_Exchange c)
    (rs_markets scope) trades funding rf apply 0 rows (sp_table repo)) as Hts.
  destruct (recountDays_from _ _ _ _ _ _ _ _ _ _ _ _ _ _) as [[t out] n]. cbn [fst sp_table] in *. split_and!.
  - eapply Forall2_impl; [exact Hf|]. by intros r r' (? & _).
  - intros ->. symmetry. apply list_eq_Forall2. eapply Forall2_impl; [exact Hf|]. intros r r' (_ & _ & Hr & _). symmetry. auto.
  - eapply Forall2_impl; [exact Hf|]. intros r r' (_ & _ & _ & Hm) sc m Hsc. simplify_eq. apply Hm.
  - destruct (Store.isTSSchema (sp_schema repo)) eqn:Ets.
    2: { rewrite Hts by done. by apply Forall_Forall2_diag, Forall_true. }
    apply Forall2_same_length_lookup. split; [by eapply Forall2_length|]. intros j r r' Hr Hr' c0 Hl Hcase.
    destruct (Forall2_lookup_lr _ _ _ _ _ _ Hf Hr Hr') as (_ & Hn & _). apply Hn. intros x Hx [Hd Hk] Hid.
    destruct (Hof x Hx) as (r0 & Hr0 & -> & Hxu & Hxe & Hxl).
    simplify_eq.
    unfold Store.scan_range in *. rewrite Ets in *. cbn [Store.scan_ts sn_ID sn_UserUID sn_Exchange sn_Label sn_Timestamp] in *.
    assert (r0 = r) as -> by (apply (ids_unique_eq (sp_table repo)); [done..|by eapply list_elem_of_lookup_2|done]).
    destruct Hcase as [Hk'|[Hk'|[Hk'|[Hcol Hor]]]]; [congruence|lia|lia|].
    unfold recount_kept in Hk. cbn [Store.scan_ts sn_FromExternalRebuilder] in Hk. by rewrite Hcol, Hor in Hk.
Qed.

(** Every fill is counted once.  For live rows at increasing midnights
    with no gap beyond the 30-day lookback, a recounted market's entry holds,
    day by day, the number, volume and fees of the fills in the day's own
    window, and the days' numbers add up to the fills of the whole period: none
    is lost between two windows, none is counted in two. *)
Theorem fills_counted_once rows r0 last_ n ex markets m trades funding rf :
  daily rows → rows !! 0%nat = Some r0 → rows !! n = Some last_ → length rows = S n →
  Forall (λ r, recount_kept r = "") rows → containsMarket markets (market_name m) = true →
  let entry i r := day_market (recountDay rows i r ex markets trades funding rf) m in
  (∀ i r, rows !! i = Some r →
     mm_Trades (entry i r) = Z.of_nat (length (day_fills rows markets m trades i r)) ∧
     mm_Volume (entry i r) = fsum (Breakdown.Notional <$> day_fills rows markets m trades i r) ∧
     mm_TradingFees (entry i r) = fsum (tr_Fee <$> day_fills rows markets m trades i r)) ∧
  foldr Z.add 0 (imap (λ i r, mm_Trades (entry i r)) rows) =
    Z.of_nat (length (period_fills rows last_ markets m trades)).
Proof.
  intros Hd H0 Hn Hlen Hk Hm entry.
  assert (∀ i r, rows !! i = Some r → recount_kept r = "") as Hk'.
  { intros i r Hr. by eapply Forall_lookup_1 in Hk. }
  split; [intros i r Hr; by apply day_market_fills; [eapply Hk'|]|].
  rewrite <- (fills_of_period _ _ _ _ _ _ _ Hd H0 Hn Hlen).
  rewrite <- sum_of_nat. f_equal. apply imap_ext. intros i r Hr.
  by apply day_market_fills; [eapply Hk'|].
Qed.

End recount.

(** *** Concrete instances *)

(** Two live days of a derivatives account, stored without their fills, and a
    fill on each. *)
Definition sample_swap (n equity : Z) (id : string) : Snapshot float64 :=
  mkSnapshot id "user1" "bybit" "main" (sample_day n) (b64 equity) (b64 equity) (b64 0) (b64 0) (b64 0)
    0 (b64 0) (b64 0)
    (Some (breakdown_of (λ m, if decide (m = MSwap) then Some (sample_metrics equity)
                              else if decide (m = MSpot) then Some (sample_metrics 0) else None)
             (Some (sample_metrics equity)))) false false.

Definition sample_fill (n price : Z) (hours : Z) : Trade float64 :=
  mkTrade "BTCUSDT" "Buy" (b64 price) (b64 1) (b64 0) (b64 0) (b64 2) (b64 0) (sample_day n + hours * Hour) "swap".

Definition sample_table : list (Snapshot float64) := [sample_swap 1 1000 "a"; sample_swap 2 1010 "b"].
Definition sample_fills : list (Trade float64) := [sample_fill 0 100 5; sample_fill 1 50 3; sample_fill 1 25 4].

Definition sample_venue : Activity.connector float64 :=
  Activity.mkConnector (λ _, inl (mkBalance (b64 1010) (b64 1010) (b64 0) "USDT" ∅))
    (λ _ _, (sample_fills, None)) None None None None None None None.

Definition sample_conn : ExchangeConnection := mkConnection "c1" "user1" "bybit" "main" 1440 true 0.

Definition sample_repo : snapshot_repo float64 :=
  mkSnapshotRepo (Store.mkSchema true true false true) sample_table None.

Definition sample_run (apply : bool) : snapshot_repo float64 * list (RecountDay (F := float64)) * res bool :=
  RecountActivity (Ok sample_conn) (λ _, Ok sample_venue) (λ _, no_update_faults) sample_repo "Bybit"
    (sample_day 2) (sample_day 2) apply (sample_day 3).

(** The second day is recounted to its two fills, its equity kept; the first,
    outside the days asked for, is as it was. *)
Lemma recount_only_activity_witness :
  ((λ r, let m := default (sample_metrics 0) (markets_of (sn_Breakdown r) MSwap) in (mm_Trades m, mm_Equity m)) <$>
     sp_table (sample_run true).1.1 !! 1%nat) = Some (2, b64 1010) ∧
  Forall2 same_but_activity sample_table (sp_table (sample_run true).1.1) ∧
  sp_table (sample_run true).1.1 !! 0%nat = Some (sample_swap 1 1000 "a").
Proof.
  assert (ids_unique (sp_table sample_repo)) as Hu by (unfold ids_unique; apply (bool_decide_unpack _); vm_compute; exact I).
  destruct (recount_only_activity (Ok sample_conn) (λ _, Ok sample_venue) (λ _, no_update_faults) sample_repo "Bybit"
    (sample_day 2) (sample_day 2) true (sample_day 3) Hu) as (Hs & _ & _ & Hk).
  split; [vm_compute; reflexivity|]. split; [exact Hs|].
  destruct (Forall2_lookup_l _ _ _ 0%nat _ Hk eq_refl) as (r' & Hr' & Heq).
  unfold sample_run. rewrite Hr'. f_equal. apply (Heq sample_conn eq_refl). right. left. vm_compute. reflexivity.
Defined.

Lemma fills_counted_once_witness :
  foldr Z.add 0 (imap (λ i r, mm_Trades (day_market
    (recountDay sample_table i r "bybit" ["swap"] sample_fills [] false) MSwap)) sample_table) = 3.
Proof.
  assert (daily sample_table) as Hd.
  { split.
    - intros [|[|i]] r Hr; cbn in Hr; try discriminate; injection Hr as <-; vm_compute; reflexivity.
    - intros [|[|i]] p r Hp Hr; cbn in Hp, Hr; try discriminate; injection Hp as <-; injection Hr as <-;
        split; vm_compute; congruence. }
  destruct (fills_counted_once sample_table (sample_swap 1 1000 "a") (sample_swap 2 1010 "b") 1 "bybit" ["swap"] MSwap
    sample_fills [] false Hd eq_refl eq_refl eq_refl) as [_ Hsum].
  - repeat constructor; vm_compute; reflexivity.
  - reflexivity.
  - rewrite Hsum. vm_compute. reflexivity.
Defined.

End Recount.
