(* ===== verification/Http.v ===== *)
(** * The HTTP server (internal/server/server.go, handler.go, cors.go)

    The routes, the gates in front of them (bearer token, loopback peer, rate
    limit, cross-origin headers) and every handler.  The services behind it
    are a record of operations on a state of their own ([Handler]); what it
    starts in the background is a list of jobs.  The decoders of
    encoding/json and the address parsers of package net are parameters.

    An answer is what is handed to the JSON encoder, which sends nothing for a
    NaN.  A path the mux would clean is redirected by it and is not a path
    here; deadlines, logs and the overrides tests install are left out. *)

From S2P Require Import Prelude GoTime GoText Num Types Returns Encoding SyncError Json Metrics Signing RateLimit Window Attestation Activity Fx Reflow Recount Connect Auth Grpc.
From stdpp Require Import base gmap strings pretty tactics list.
From Stdlib Require Import ZArith Ascii Lia.
Import Encoding Returns Auth.
Local Open Scope Z_scope.

Module Http.

(** ** Errors of the services: the text, and what [errors.Is] answers *)

Inductive sentinel :=
| ErrConnectionAlreadyExists | ErrUnknownServer | ErrIPRestricted | ErrHistoryNotDeletable | ErrOriginUnavailable | ErrNotFound
| ErrBalanceProbeUnsupported | ErrRawStatementUnsupported | ErrFundingProbeUnsupported.

Record error := mkError { er_text : string; er_is : sentinel → bool }.

Definition msgMethodNotAllowed : string := "method not allowed".
Definition msgInvalidRequestBody : string := "invalid request body".
Definition msgUserUIDRequired : string := "user_uid is required".
Definition msgFailedLoadExclusions : string := "failed to load exclusion rules".
Definition genericInternalError : string := "internal server error".

Definition connectCreateFailure (e : error) : Z * string :=
  if er_is e ErrUnknownServer then (400, Connect.ErrUnknownServer)
  else if Connect.IsIPRestriction (Connect.mkConnError (er_text e) false (er_is e ErrIPRestricted)) then (400, Connect.ErrIPRestricted)
  else if Contains (er_text e) "invalid credentials" then (400, "invalid credentials")
  else (500, "failed to create connection").

(** ** Cross-origin headers (cors.go) *)

Definition parseOrigins (raw : string) : list string :=
  if String.eqb raw "" || String.eqb raw "*" then ["*"]
  else filter (λ o, o ≠ "") (TrimSpace <$> Split "," raw).

Definition isOriginAllowed (origin : string) (allowed : list string) : bool :=
  existsb (λ a, String.eqb a "*" || String.eqb a origin) allowed.

Definition ValidateCORSConfig (env raw : string) : res unit :=
  if negb (EqualFold env "production") then Ok tt
  else
    let trimmed := TrimSpace raw in
    if String.eqb trimmed "" then Err "CORS_ORIGIN must be an explicit comma-separated allowlist in production (got empty)"
    else if existsb (λ o, String.eqb (TrimSpace o) "*") (Split "," trimmed) then Err "CORS_ORIGIN must not contain '*' in production"
    else Ok tt.

(** ** Requests *)

(** [rq_Query] is [r.URL.Query().Get]; an absent header is empty. *)
Record request := mkRequest {
  rq_Method : string; rq_Path : string; rq_RemoteAddr : string; rq_Authorization : string; rq_Origin : string; rq_XForwardedFor : string; rq_XRealIP : string;
  rq_Query : string → string; rq_Body : string }.

Definition defaultMaxRequestBodyBytes : nat := N.to_nat 65536.

(** The decoder sees at most 64 KiB of the body. *)
Definition readJSON {A} (decode : string → option A) (r : request) : option A := decode (String.substring 0 defaultMaxRequestBodyBytes (rq_Body r)).

Record EncryptedBody := mkEncrypted { en_EphemeralPublicKey : string; en_IV : string; en_Ciphertext : string; en_Tag : string }.
Record ConnectBody := mkConnectBody { cb_UserUID : string; cb_Exchange : string; cb_Label : string; cb_Encrypted : option EncryptedBody; cb_ExcludeFromReport : bool; cb_RebuildHistory : bool }.
Record PlainCredentials := mkPlain { pc_APIKey : string; pc_APISecret : option string; pc_Passphrase : option string }.
Record ConnectionBody := mkConnectionBody {
  nb_UserUID : string; nb_Exchange : string; nb_Label : string; nb_APIKey : string; nb_APISecret : string; nb_Passphrase : string; nb_SyncIntervalMinutes : Z;
  nb_ExcludeFromReport : bool; nb_RebuildHistory : bool }.
Record SyncBody := mkSyncBody { sb_UserUID : string; sb_Exchange : string }.
Record ReportBody := mkReportBody {
  gb_UserUID : string; gb_StartDate : string; gb_EndDate : string; gb_ReportName : string; gb_Benchmark : string; gb_BaseCurrency : string;
  gb_IncludeRiskMetrics : bool; gb_IncludeDrawdown : bool; gb_Manager : string; gb_Firm : string }.
Record VerifyBody := mkVerifyBody { vb_ReportHash : string; vb_Signature : string; vb_PublicKey : string }.

(** What encoding/json makes of a body, for each struct it is decoded into. *)
Record decoders := mkDecoders {
  de_nonce : string → option string;
  de_connect : string → option ConnectBody;
  de_credentials : string → option PlainCredentials;
  de_connection : string → option ConnectionBody;
  de_sync : string → option SyncBody;
  de_report : string → option ReportBody;
  de_verify : string → option VerifyBody }.

(** ** Background work *)

Inductive job :=
| JRunNow
| JReconstructOnConnect (user exchange label : string)
| JReconstructRange (user exchange label : string) (from to : time)
| JReconstructDeep (user exchange label : string) (from : time) (rewrite : bool).

Section server.
Context {F : Type} {NF : Num F}.

(** ** Answers *)

(** The values of a JSON answer; structs of the services are left as they are. *)
Inductive datum :=
| DS (s : string) | DB (b : bool) | DI (z : Z) | DF (x : F) | DT (t : time)
| DStrings (l : list string) | DL (l : list datum) | DM (m : list (string * datum))
| DBreakdown (b : option (MarketBreakdown F))
| DResult (r : SyncResult F)
| DReflowDay (d : Reflow.ReflowDay (F := F))
| DRecountDay (d : Recount.RecountDay (F := F))
| DConvertedDay (d : Fx.FXBackfillDay (F := F))
| DCashflow (c : Cashflow F)
| DRaw (json : string).

Inductive body := BJson (d : datum) | BText (s : string) | BDocument (contentType doc : string) | BReport (r : Signing.SignedReport F) | BEmpty.

(** [rs_AllowOrigin] is the Access-Control-Allow-Origin header, when set. *)
Record response := mkResponse { rs_Status : Z; rs_AllowOrigin : option string; rs_Body : body }.

Definition writeJSON (status : Z) (m : list (string * datum)) : response := mkResponse status None (BJson (DM m)).
Definition refused (status : Z) (e : string) : response := writeJSON status [("error", DS e)].
Definition failed (status : Z) (e : string) : response := writeJSON status [("success", DB false); ("error", DS e)].
Definition notAllowed : response := mkResponse 405 None (BText msgMethodNotAllowed).

(** ** The services *)

Record connectionService (S : Type) := mkConnectionOps {
  co_Create : S → Connect.CreateConnectionRequest → S * option error;
  co_GetExcludedConnectionKeys : S → string → gset string + error }.

Record MetadataRefresh := mkRefresh { mr_Exchange : string; mr_Label : string; mr_IsPaper : bool; mr_PaperProbed : bool; mr_Err : option error }.

(** Each operation names its user, exchange and label. *)
Record syncService (S : Type) := mkSyncOps {
  sy_SyncExchange : S → string → string → S * SyncResult F;
  sy_SyncUser : S → string → S * (list (SyncResult F) + error);
  sy_DeleteRebuiltHistory : S → string → string → string → S * (Z + error);
  sy_SyncConnectionScheduledByLabel : S → string → string → string → S * SyncResult F;
  sy_DryRunReconstructRange : S → string → string → string → time → time → S * list (Snapshot F);
  sy_DryRunDeepHistory : S → string → string → string → time → bool → S * (list (Snapshot F) + error);
  sy_UnpinBrokerAccounts : S → string → string → string → S * option error;
  sy_DumpCashflows : S → string → string → string → time → S * (list (Cashflow F) * list string + error);
  sy_DumpRawCashflows : S → string → string → string → time → S * (list string + error);
  sy_ProbeBalance : S → string → string → string → S * (string + error);
  sy_RefreshExchangeMetadata : S → string → string → string → S * (list MetadataRefresh + error);
  sy_DumpRawStatement : S → string → string → string → S * (string * string + error);
  sy_DumpRawStatementForPeriod : S → string → string → string → time → time → S * (string * string + error);
  sy_ProbeFunding : S → string → string → string → time → S * (string + error);
  sy_ReflowCashflows : S → string → string → string → time → time → bool → S * (list (Reflow.ReflowDay (F := F)) + error);
  sy_ConvertStoredToUSD : S → string → string → string → string → bool → S * (list (Fx.FXBackfillDay (F := F)) + error);
  sy_RecountActivity : S → string → string → string → time → time → bool → S * (list (Recount.RecountDay (F := F)) + error) }.

Record report_request := mkReportRequest {
  gr_UserUID : string; gr_StartDate : time; gr_EndDate : time; gr_ReportName : string; gr_Benchmark : string; gr_BaseCurrency : string;
  gr_IncludeRiskMetrics : bool; gr_IncludeDrawdown : bool; gr_Excluded : gset string; gr_Manager : string; gr_Firm : string }.

Record reportService (S : Type) := mkReportOps {
  re_GenerateReport : S → report_request → S * (Signing.SignedReport F + error);
  re_VerifySignature : S → string → string → string → bool + error }.

(** [None] is a service that is not configured.  The fields of the attestation
    service are its two reads, with and without nonce. *)
Record Handler (S : Type) := mkHandler {
  h_connSvc : option (connectionService S);
  h_syncSvc : option (syncService S);
  h_metricsSvc : option (S → string → time → time → string → gset string → Metrics.PerformanceMetrics F + error);
  h_reportSvc : option (reportService S);
  h_snapshotRepo : option (S → string → time → time → list (Snapshot F) + error);
  h_userRepo : option (S → string → S * option error);
  h_tlsKeygen : option string;
  h_attestSvc : option ((S → S * (Attestation.AttestationReport + error)) * (S → string → S * (Attestation.AttestationReport + error)));
  h_eciesSvc : option (string → string → string → option string) }.

(** A handler's effect on the services, the jobs it starts, and its answer. *)
Definition out (S : Type) : Type := S * list job * response.

Section handlers.
Context {S : Type} (h : Handler S) (de : decoders) (sha256 : string → string) (binarySha256 : string) (production : bool) (now : time).

Definition answer (st : S) (resp : response) : out S := (st, [], resp).

Definition resolveUserUID (ctx : context) (bodyUID : string) : string := match UserUIDFromContext ctx with Some uid => uid | None => bodyUID end.

Definition sanitizeErr (e : error) : string := if production then genericInternalError else er_text e.

Definition excluded_keys (st : S) (user : string) : gset string + error :=
  match h_connSvc S h with Some co => co_GetExcludedConnectionKeys S co st user | None => inl ∅ end.

(** ** Public routes *)

Definition HealthCheck (r : request) (st : S) : out S :=
  answer st
    (if negb (String.eqb (rq_Method r) "GET") then notAllowed
     else writeJSON 200 [("status", DS "ok"); ("service", DS "enclave-rest"); ("tls", DB (bool_decide (is_Some (h_tlsKeygen S h))))]).

Definition GetTLSFingerprint (r : request) (st : S) : out S :=
  answer st
    (if negb (String.eqb (rq_Method r) "GET") then notAllowed
     else match h_tlsKeygen S h with
     | None => refused 503 "TLS not initialized"
     | Some fp => writeJSON 200 [("fingerprint", DS fp); ("algorithm", DS "SHA-256"); ("usage", DS "Compare with attestation report to verify TLS cert authenticity")]
     end).

(** The answer made of an attestation report. *)
Definition attestation_answer (report : Attestation.AttestationReport) : response :=
  let sev := Attestation.ar_Attestation report in
  let flag (f : Attestation.SevSnpReport → bool) := match sev with Some a => f a | None => false end in
  let text (f : Attestation.SevSnpReport → string) := match sev with Some a => f a | None => "" end in
  let reportData := text Attestation.sv_ReportData in
  let e2ePublicKey := match Attestation.ar_E2EEncryption report with Some e => Attestation.e2_PublicKey e | None => "" end in
  let e2eFingerprint := if String.eqb e2ePublicKey "" then "" else hex_encode (sha256 e2ePublicKey) in
  let signing := Attestation.ar_ReportSigning report in
  let signingKey := match signing with Some x => Attestation.si_PublicKey x | None => "" end in
  let signingFingerprint := if String.eqb signingKey "" then "" else String.substring 0 16 (hex_encode (sha256 signingKey)) in
  let bound := match Attestation.ar_TLSBinding report with Some b => Attestation.tb_Fingerprint b | None => "" end in
  let tlsFingerprint := if String.eqb bound "" then default "" (h_tlsKeygen S h) else bound in
  writeJSON 200
    [("binarySha256", DS binarySha256);
     ("attestation", DM [("verified", DB (flag Attestation.sv_Verified)); ("sevSnpEnabled", DB (flag Attestation.sv_SevSnpEnabled)); ("vcekVerified", DB (flag Attestation.sv_VcekVerified));
        ("reportDataBoundToRequest", DB (flag Attestation.sv_ReportDataBoundToRequest)); ("measurement", DS (text Attestation.sv_Measurement)); ("reportData", DS reportData);
        ("platformVersion", DS (text Attestation.sv_PlatformVersion))]);
     ("tlsBinding", DM [("fingerprint", DS tlsFingerprint); ("algorithm", DS "SHA-256"); ("bound", DB (negb (String.eqb reportData "")));
        ("verification", DS "reportData should equal SHA-256(TLS certificate)")]);
     ("e2eEncryption", DM [("publicKey", DS e2ePublicKey); ("publicKeyFingerprint", DS e2eFingerprint); ("algorithm", DS "ECIES (ECDH P-256 + AES-256-GCM)");
        ("usage", DS "Encrypt credentials with this key before sending for maximum security")]);
     ("reportSigning", DM [("publicKey", DS signingKey); ("publicKeyFingerprint", DS signingFingerprint);
        ("algorithm", DS (match signing with Some x => Attestation.si_Algorithm x | None => "" end)); ("usage", DS "Verify track record reports are signed by this enclave")]);
     ("security", DM [("tlsMitmProtection", DB (negb (String.eqb reportData ""))); ("e2eMitmProtection", DB (negb (String.eqb e2ePublicKey "")));
        ("message", DS (if String.eqb reportData "" then "WARNING: TLS fingerprint not bound - MITM possible" else "Double encryption: TLS for transport + E2E for application layer"))])].

(** The nonce of a POST, or why it is refused. *)
Definition read_nonce (r : request) : string + string :=
  match readJSON (de_nonce de) r with
  | None => inr msgInvalidRequestBody
  | Some raw =>
      let nonceHex := TrimSpace raw in
      if String.eqb nonceHex "" then inr "nonce is required (hex string)"
      else match hex_decode nonceHex with
      | None => inr "nonce must be a hex string"
      | Some nonce => if String.eqb nonce "" || Nat.ltb 64 (String.length nonce) then inr "nonce must be 1..64 bytes after hex decode" else inl nonce
      end
  end.

Definition GetAttestation (r : request) (st : S) : out S :=
  if negb (String.eqb (rq_Method r) "GET") && negb (String.eqb (rq_Method r) "POST") then answer st notAllowed
  else match h_attestSvc S h with
  | None => answer st (refused 503 "attestation service not configured")
  | Some (get, getWithNonce) =>
      let reply (x : S * (Attestation.AttestationReport + error)) :=
        answer x.1 match x.2 with inl report => attestation_answer report | inr _ => refused 500 "attestation failed" end in
      if String.eqb (rq_Method r) "POST" then
        match read_nonce r with inr e => answer st (refused 400 e) | inl nonce => reply (getWithNonce st nonce) end
      else reply (get st)
  end.

(** ** Connecting an account *)

(** The credentials a client encrypted for this enclave. *)
Definition open_credentials (decrypt : string → string → string → option string) (e : EncryptedBody) : string * string * string + string :=
  if String.eqb (en_EphemeralPublicKey e) "" || String.eqb (en_IV e) "" || String.eqb (en_Ciphertext e) "" || String.eqb (en_Tag e) "" then
    inr "encrypted payload must include ephemeralPublicKey, iv, ciphertext, and tag"
  else match hex_decode (en_IV e), hex_decode (en_Ciphertext e), hex_decode (en_Tag e) with
  | None, _, _ => inr "invalid iv"
  | _, None, _ => inr "invalid ciphertext"
  | _, _, None => inr "invalid tag"
  | Some iv, Some ciphertext, Some tag =>
      match decrypt (en_EphemeralPublicKey e) iv (ciphertext +:+ tag) with
      | None => inr "Failed to decrypt credentials. Ensure you are using the correct E2E public key from /api/v1/attestation."
      | Some plaintext =>
          match de_credentials de plaintext with
          | None => inr "Decrypted payload is not valid JSON. Expected: { api_key, api_secret, passphrase? }"
          | Some c =>
              match pc_APISecret c with
              | Some secret =>
                  if String.eqb (pc_APIKey c) "" then inr "Decrypted payload missing required fields: api_key and api_secret"
                  else inl (pc_APIKey c, secret, default "" (pc_Passphrase c))
              | None => inr "Decrypted payload missing required fields: api_key and api_secret"
              end
          end
      end
  end.

Definition upsert_user (st : S) (user : string) : S * option error := match h_userRepo S h with Some getOrCreate => getOrCreate st user | None => (st, None) end.

(** The answer to [Create]; [named] are the fields every success carries. *)
Definition created_answer (e : option error) (named success : list (string * datum)) : response :=
  match e with
  | None => writeJSON 200 (("success", DB true) :: named ++ success)
  | Some e =>
      if er_is e ErrConnectionAlreadyExists then writeJSON 200 (("success", DB true) :: named ++ [("error", DS Connect.ExistingConnectionNoopMessage)])
      else let '(status, message) := connectCreateFailure e in failed status message
  end.

Definition connect_label (label exchange : string) : string := if String.eqb (TrimSpace label) "" then TrimSpace exchange +:+ " account" else TrimSpace label.

(** A failed upsert of the user is logged, and the connection goes on. *)
Definition connect_with (co : connectionService S) (user : string) (b : ConnectBody) (c : string * string * string) (st : S) : out S :=
  let '(key, secret, passphrase) := c in
  let label := connect_label (cb_Label b) (cb_Exchange b) in
  let '(st, _) := upsert_user st user in
  match ValidateCreateConnection (mkInput user (cb_Exchange b) label key secret passphrase 0) with
  | Some e => answer st (failed 400 e)
  | None =>
      let '(st, e) := co_Create S co st (Connect.mkRequest user (cb_Exchange b) label key secret passphrase 0 (cb_ExcludeFromReport b) (cb_RebuildHistory b)) in
      answer st (created_answer e [("user_uid", DS user); ("exchange", DS (cb_Exchange b))] [("message", DS "Credentials encrypted and stored in enclave")])
  end.

Definition ConnectCredentials (ctx : context) (r : request) (st : S) : out S :=
  if negb (String.eqb (rq_Method r) "POST") then answer st notAllowed
  else match h_eciesSvc S h, h_connSvc S h with
  | Some decrypt, Some co =>
      match readJSON (de_connect de) r with
      | None => answer st (failed 400 msgInvalidRequestBody)
      | Some b =>
          match cb_Encrypted b with
          | None =>
              answer st (writeJSON 400 [("success", DB false); ("error", DS "E2E encryption required. Plaintext credentials are not accepted.");
                ("hint", DS "Fetch /api/v1/attestation to get the E2E public key, then encrypt credentials client-side before submission.")])
          | Some e =>
              let user := resolveUserUID ctx (cb_UserUID b) in
              if String.eqb user "" || String.eqb (cb_Exchange b) "" then answer st (failed 400 "user_uid and exchange are required")
              else match open_credentials decrypt e with inr msg => answer st (failed 400 msg) | inl c => connect_with co user b c st end
          end
      end
  | _, _ => answer st (failed 503 "E2E encryption or connection service not configured")
  end.

(** The plaintext twin, served in development only. *)
Definition CreateUserConnection (ctx : context) (r : request) (st : S) : out S :=
  if negb (String.eqb (rq_Method r) "POST") then answer st notAllowed
  else match readJSON (de_connection de) r with
  | None => answer st (failed 400 msgInvalidRequestBody)
  | Some b =>
      let user := resolveUserUID ctx (nb_UserUID b) in
      if String.eqb user "" || String.eqb (nb_Exchange b) "" || String.eqb (nb_APIKey b) "" then answer st (failed 400 "user_uid, exchange, and api_key are required")
      else match ValidateCreateConnection (mkInput user (nb_Exchange b) (nb_Label b) (nb_APIKey b) (nb_APISecret b) (nb_Passphrase b) (nb_SyncIntervalMinutes b)) with
      | Some e => answer st (failed 400 e)
      | None =>
          match h_connSvc S h with
          | None => answer st (failed 503 "database not configured")
          | Some co =>
              match upsert_user st user with
              | (st, Some _) => answer st (failed 500 "failed to create user")
              | (st, None) =>
                  let '(st, e) := co_Create S co st (Connect.mkRequest user (nb_Exchange b) (nb_Label b) (nb_APIKey b) (nb_APISecret b) (nb_Passphrase b) (nb_SyncIntervalMinutes b)
                                                       (nb_ExcludeFromReport b) (nb_RebuildHistory b)) in
                  answer st (created_answer e [("user_uid", DS user)] [])
              end
          end
      end
  end.

(** ** Routes of a user *)

Definition ProcessSyncJob (ctx : context) (r : request) (st : S) : out S :=
  if negb (String.eqb (rq_Method r) "POST") then answer st notAllowed
  else match readJSON (de_sync de) r with
  | None => answer st (failed 400 msgInvalidRequestBody)
  | Some b =>
      let user := resolveUserUID ctx (sb_UserUID b) in
      if String.eqb user "" then answer st (failed 400 msgUserUIDRequired)
      else match ValidateSyncRequest user (sb_Exchange b) with
      | Some e => answer st (failed 400 e)
      | None =>
          match h_syncSvc S h with
          | None => answer st (failed 503 "sync service not available")
          | Some sy =>
              let exchange := ToLower (sb_Exchange b) in
              let '(st, results) :=
                if String.eqb exchange "" then sy_SyncUser S sy st user
                else let '(st, result) := sy_SyncExchange S sy st user exchange in (st, inl [result]) in
              answer st
                match results with
                | inr e => failed 500 (sanitizeErr e)
                | inl results => writeJSON 200 [("success", DB (existsb sr_Success results)); ("user_uid", DS user); ("results", DL (DResult <$> results))]
                end
          end
      end
  end.

(** A bound that does not parse keeps the default. *)
Definition query_range (r : request) : time * time :=
  let bound (name : string) (dflt : time) := match ParseInt (rq_Query r name) with Some ms => Grpc.UnixMilli ms | None => dflt end in
  (bound "start" (AddYears (-1) now), bound "end" now).

Definition validate_optional (validate : string → option string) (s : string) : option string := if String.eqb s "" then None else validate s.

Definition metrics_answer (m : Metrics.PerformanceMetrics F) : response :=
  writeJSON 200
    [("success", DB true); ("sharpe_ratio", DF (Metrics.pm_SharpeRatio m)); ("sortino_ratio", DF (Metrics.pm_SortinoRatio m)); ("calmar_ratio", DF (Metrics.pm_CalmarRatio m));
     ("volatility", DF (Metrics.pm_Volatility m)); ("downside_deviation", DF (Metrics.pm_DownsideDeviation m)); ("max_drawdown", DF (Metrics.pm_MaxDrawdown m));
     ("max_drawdown_duration", DI (Metrics.pm_MaxDrawdownDuration m)); ("current_drawdown", DF (Metrics.pm_CurrentDrawdown m)); ("win_rate", DF (Metrics.pm_WinRate m));
     ("profit_factor", DF (Metrics.pm_ProfitFactor m)); ("avg_win", DF (Metrics.pm_AvgWin m)); ("avg_loss", DF (Metrics.pm_AvgLoss m)); ("total_return", DF (Metrics.pm_TotalReturn m));
     ("annualized_return", DF (Metrics.pm_AnnualizedReturn m)); ("period_start", DI (Unix (Metrics.pm_PeriodStart m))); ("period_end", DI (Unix (Metrics.pm_PeriodEnd m)));
     ("data_points", DI (Metrics.pm_DataPoints m))].

Definition GetMetrics (ctx : context) (r : request) (st : S) : out S :=
  answer st
    (if negb (String.eqb (rq_Method r) "GET") then notAllowed
     else
       let user := resolveUserUID ctx (rq_Query r "user_uid") in
       if String.eqb user "" then failed 400 msgUserUIDRequired
       else match h_metricsSvc S h with
       | None => failed 503 "metrics service not available"
       | Some calculate =>
           match validate_optional ValidateExchange (rq_Query r "exchange") with
           | Some e => failed 400 e
           | None =>
               let '(start, end_) := query_range r in
               match ValidateTimestampRange start end_ with
               | Some e => failed 400 e
               | None =>
                   match excluded_keys st user with
                   | inr _ => failed 500 msgFailedLoadExclusions
                   | inl excluded =>
                       match calculate st user start end_ (ToLower (rq_Query r "exchange")) excluded with
                       | inr e => failed 200 (sanitizeErr e)
                       | inl m => metrics_answer m
                       end
                   end
               end
           end
       end).

Definition DeleteRebuiltHistory (ctx : context) (r : request) (st : S) : out S :=
  if negb (String.eqb (rq_Method r) "DELETE") then answer st notAllowed
  else
    let user := resolveUserUID ctx (rq_Query r "user_uid") in
    let exchange := rq_Query r "exchange" in let label := rq_Query r "label" in
    match ValidateUserUID user <|> ValidateExchange exchange <|> ValidateLabel label with
    | Some e => answer st (failed 400 e)
    | None =>
        match h_syncSvc S h with
        | None => answer st (failed 503 "sync service not configured")
        | Some sy =>
            let '(st, x) := sy_DeleteRebuiltHistory S sy st user exchange label in
            answer st
              match x with
              | inl deleted => writeJSON 200 [("success", DB true); ("deleted", DI deleted)]
              | inr e =>
                  if er_is e ErrHistoryNotDeletable then failed 409 (er_text e)
                  else if er_is e ErrOriginUnavailable then failed 503 (er_text e)
                  else if er_is e ErrNotFound then failed 404 "connection not found"
                  else failed 500 (sanitizeErr e)
              end
        end
    end.

Definition snapshot_datum (s : Snapshot F) : datum :=
  DM [("user_uid", DS (sn_UserUID s)); ("exchange", DS (sn_Exchange s)); ("label", DS (sn_Label s)); ("timestamp", DI (Grpc.to_millis (sn_Timestamp s)));
      ("total_equity", DF (sn_TotalEquity s)); ("realized_balance", DF (sn_RealizedBalance s)); ("unrealized_pnl", DF (sn_UnrealizedPnL s)); ("deposits", DF (sn_Deposits s));
      ("withdrawals", DF (sn_Withdrawals s)); ("breakdown", DBreakdown (sn_Breakdown s))].

Definition GetSnapshots (ctx : context) (r : request) (st : S) : out S :=
  answer st
    (if negb (String.eqb (rq_Method r) "GET") then notAllowed
     else
       let user := resolveUserUID ctx (rq_Query r "user_uid") in
       if String.eqb user "" then failed 400 msgUserUIDRequired
       else match h_snapshotRepo S h with
       | None => failed 503 "database not configured"
       | Some getByUserAndDateRange =>
           let '(start, end_) := query_range r in
           match getByUserAndDateRange st user start end_ with
           | inr e => failed 500 (sanitizeErr e)
           | inl snapshots =>
               match excluded_keys st user with
               | inr _ => failed 500 msgFailedLoadExclusions
               | inl excluded =>
                   match validate_optional ValidateExchange (rq_Query r "exchange") with
                   | Some e => failed 400 e
                   | None =>
                       let kept := filter (λ s, Grpc.selected excluded (ToLower (rq_Query r "exchange")) (sn_Exchange s) (sn_Label s) = true) snapshots in
                       writeJSON 200 [("success", DB true); ("user_uid", DS user); ("snapshots", DL (snapshot_datum <$> kept))]
                   end
               end
           end
       end).

Definition GenerateReport (ctx : context) (r : request) (st : S) : out S :=
  if negb (String.eqb (rq_Method r) "POST") then answer st notAllowed
  else match readJSON (de_report de) r with
  | None => answer st (failed 400 msgInvalidRequestBody)
  | Some b =>
      let user := resolveUserUID ctx (gb_UserUID b) in
      if String.eqb user "" then answer st (failed 400 msgUserUIDRequired)
      else match h_reportSvc S h with
      | None => answer st (failed 503 "report service not available")
      | Some re =>
          match ValidateReportRequest (mkReportInput user (gb_StartDate b) (gb_EndDate b) (gb_Benchmark b) (gb_BaseCurrency b) f0) with
          | Some e => answer st (failed 400 e)
          | None =>
              match ParseDate (gb_StartDate b), ParseDate (gb_EndDate b) with
              | None, _ => answer st (failed 400 "invalid start_date format (use YYYY-MM-DD)")
              | _, None => answer st (failed 400 "invalid end_date format (use YYYY-MM-DD)")
              | Some start, Some end_ =>
                  match excluded_keys st user with
                  | inr _ => answer st (failed 500 msgFailedLoadExclusions)
                  | inl excluded =>
                      let '(st, x) := re_GenerateReport S re st (mkReportRequest user start end_ (gb_ReportName b) (gb_Benchmark b) (gb_BaseCurrency b) (gb_IncludeRiskMetrics b)
                                                                   (gb_IncludeDrawdown b) excluded (gb_Manager b) (gb_Firm b)) in
                      answer st match x with inr e => failed 500 (sanitizeErr e) | inl report => mkResponse 200 None (BReport report) end
                  end
              end
          end
      end
  end.

Definition VerifySignature (r : request) (st : S) : out S :=
  let invalid (status : Z) (e : string) := writeJSON status [("valid", DB false); ("error", DS e)] in
  answer st
    (if negb (String.eqb (rq_Method r) "POST") then notAllowed
     else match readJSON (de_verify de) r with
     | None => invalid 400 msgInvalidRequestBody
     | Some b =>
         if String.eqb (vb_ReportHash b) "" || String.eqb (vb_Signature b) "" || String.eqb (vb_PublicKey b) "" then invalid 400 "report_hash, signature, and public_key are required"
         else match h_reportSvc S h with
         | None => invalid 503 "report service not available"
         | Some re =>
             match re_VerifySignature S re st (vb_ReportHash b) (vb_Signature b) (vb_PublicKey b) with
             | inr e => invalid 200 (sanitizeErr e)
             | inl valid => writeJSON 200 [("valid", DB valid)]
             end
         end
     end).

(** ** Routes of the operator *)

(** [need_label]: the label may be left out of some routes. *)
Definition admin_target (need_label : bool) (r : request) : option string :=
  ValidateUserUID (rq_Query r "user_uid") <|> ValidateExchange (rq_Query r "exchange") <|>
  (if need_label then ValidateLabel else validate_optional ValidateLabel) (rq_Query r "label").

Definition only (method : string) (r : request) (st : S) (k : out S) : out S :=
  if String.eqb (rq_Method r) method then k else answer st (refused 405 (method +:+ " only")).

Definition with_sync (st : S) (k : syncService S → out S) : out S :=
  match h_syncSvc S h with None => answer st (refused 503 "sync service not available") | Some sy => k sy end.

Definition targeted (need_label : bool) (r : request) (st : S) (k : string → string → string → out S) : out S :=
  match admin_target need_label r with
  | Some e => answer st (refused 400 e)
  | None => k (rq_Query r "user_uid") (rq_Query r "exchange") (rq_Query r "label")
  end.

Definition is_set (v : string) : bool := String.eqb v "1" || String.eqb v "true".

Definition handleAdminSyncNow (scheduler : bool) (r : request) (st : S) : out S :=
  only "POST" r st
    (if negb scheduler then answer st (refused 503 "scheduler not configured")
     else (st, [JRunNow], writeJSON 200 [("success", DB true); ("message", DS "sync triggered, check logs")])).

Definition handleAdminSyncConnection (r : request) (st : S) : out S :=
  only "POST" r st (targeted false r st (λ user exchange label, with_sync st (λ sy,
    let '(st, x) := sy_SyncConnectionScheduledByLabel S sy st user exchange label in
    answer st (writeJSON 200 [("success", DB (sr_Success x)); ("skipped", DB (sr_Skipped x)); ("skip_reason", DS (sr_SkipReason x)); ("error", DS (sr_Error x));
      ("snapshot_timestamp", DT (sr_SnapshotTimestamp x))])))).

Definition dryRunRows (days : list (Snapshot F)) : list datum :=
  (λ d, DM [("day", DS (FormatDate (sn_Timestamp d))); ("total_equity", DF (sn_TotalEquity d)); ("realized_balance", DF (sn_RealizedBalance d)); ("deposits", DF (sn_Deposits d));
            ("withdrawals", DF (sn_Withdrawals d)); ("breakdown_by_market", DBreakdown (sn_Breakdown d))]) <$> days.

Definition dry_run_answer (days : list (Snapshot F)) : response :=
  writeJSON 200 [("success", DB true); ("dry_run", DB true); ("count", DI (Z.of_nat (length days))); ("days", DL (dryRunRows days))].

(** The days asked for: none, or both bounds. *)
Definition reconstruct_window (r : request) : option (time * time) + string :=
  let fromStr := rq_Query r "from" in let toStr := rq_Query r "to" in
  if negb (Bool.eqb (String.eqb fromStr "") (String.eqb toStr "")) then inr "from and to must be provided together"
  else if String.eqb fromStr "" then inl None
  else match ParseDate fromStr, ParseDate toStr with
  | None, _ => inr "from must be YYYY-MM-DD"
  | _, None => inr "to must be YYYY-MM-DD"
  | Some from, Some to => if Before to from then inr "to must not precede from" else inl (Some (from, to))
  end.

Definition handleAdminReconstruct (r : request) (st : S) : out S :=
  only "POST" r st (targeted false r st (λ user exchange label,
    match reconstruct_window r with
    | inr e => answer st (refused 400 e)
    | inl window =>
        let dryRun := is_set (rq_Query r "dry_run") in
        if dryRun && bool_decide (window = None) then answer st (refused 400 "dry_run requires from and to")
        else with_sync st (λ sy,
          match window with
          | Some (from, to) =>
              if dryRun then let '(st, days) := sy_DryRunReconstructRange S sy st user exchange label from to in answer st (dry_run_answer days)
              else (st, [JReconstructRange user exchange label from to],
                    writeJSON 200 [("success", DB true); ("dry_run", DB false); ("message", DS "reconstruction triggered, check logs")])
          | None =>
              (st, [JReconstructOnConnect user exchange label],
               writeJSON 200 [("success", DB true); ("dry_run", DB false); ("message", DS "reconstruction triggered, check logs")])
          end)
    end)).

Definition handleAdminReconstructDeep (r : request) (st : S) : out S :=
  only "POST" r st (targeted true r st (λ user exchange label,
    match ParseHistoryStart (rq_Query r "from") now with
    | Err e => answer st (refused 400 e)
    | Ok from =>
        let dryRun := is_set (rq_Query r "dry_run") in let rewrite_ := is_set (rq_Query r "rewrite") in
        with_sync st (λ sy,
          if dryRun then
            let '(st, x) := sy_DryRunDeepHistory S sy st user exchange label from rewrite_ in
            answer st match x with inr e => refused 500 (sanitizeErr e) | inl days => dry_run_answer days end
          else (st, [JReconstructDeep user exchange label from rewrite_],
                writeJSON 200 [("success", DB true); ("message", DS "deep reconstruction triggered, check logs")]))
    end)).

Definition handleAdminUnpinBrokerAccounts (r : request) (st : S) : out S :=
  only "POST" r st (targeted true r st (λ user exchange label, with_sync st (λ sy,
    let '(st, e) := sy_UnpinBrokerAccounts S sy st user exchange label in
    answer st match e with Some e => refused 500 (sanitizeErr e) | None => writeJSON 200 [("success", DB true)] end))).

(** This route validates neither name. *)
Definition handleAdminDumpCashflows (r : request) (st : S) : out S :=
  only "GET" r st
    (let user := rq_Query r "user_uid" in let exchange := rq_Query r "exchange" in let label := rq_Query r "label" in
     if String.eqb user "" || String.eqb exchange "" || String.eqb (rq_Query r "from") "" then answer st (refused 400 "user_uid, exchange, and from (YYYY-MM-DD) are required")
     else match ParseDate (rq_Query r "from") with
     | None => answer st (refused 400 "invalid from date, use YYYY-MM-DD")
     | Some since => with_sync st (λ sy,
         if String.eqb (rq_Query r "raw") "true" then
           let '(st, x) := sy_DumpRawCashflows S sy st user exchange label since in
           answer st match x with
                     | inr e => refused 500 (sanitizeErr e)
                     | inl ops => writeJSON 200 [("success", DB true); ("count", DI (Z.of_nat (length ops))); ("raw_ops", DL (DRaw <$> ops))]
                     end
         else
           let '(st, x) := sy_DumpCashflows S sy st user exchange label since in
           answer st match x with
                     | inr e => refused 500 (sanitizeErr e)
                     | inl (flows, warnings) =>
                         writeJSON 200 [("success", DB true); ("count", DI (Z.of_nat (length flows))); ("cashflows", DL (DCashflow <$> flows)); ("warnings", DStrings warnings)]
                     end)
     end).

(** A connector without the probe is answered 501. *)
Definition probe_answer (unsupported : sentinel) (message exchange : string) (x : string + error) (key : string) : response :=
  match x with
  | inl probe => writeJSON 200 [("success", DB true); (key, DRaw probe)]
  | inr e => if er_is e unsupported then writeJSON 501 [("error", DS message); ("exchange", DS exchange)] else refused 500 (sanitizeErr e)
  end.

Definition handleAdminBalanceProbe (r : request) (st : S) : out S :=
  only "POST" r st (targeted false r st (λ user exchange label, with_sync st (λ sy,
    let '(st, x) := sy_ProbeBalance S sy st user exchange label in
    answer st (probe_answer ErrBalanceProbeUnsupported "connector does not expose a balance probe" exchange x "probe")))).

Definition refresh_datum (x : MetadataRefresh) : datum :=
  DM [("exchange", DS (mr_Exchange x)); ("label", DS (mr_Label x)); ("is_paper", DB (mr_IsPaper x)); ("paper_probed", DB (mr_PaperProbed x));
      ("error", DS (match mr_Err x with Some e => sanitizeErr e | None => "" end))].

Definition handleAdminRefreshMetadata (r : request) (st : S) : out S :=
  only "POST" r st
    (match ValidateUserUID (rq_Query r "user_uid") <|> validate_optional ValidateExchange (rq_Query r "exchange") <|> validate_optional ValidateLabel (rq_Query r "label") with
     | Some e => answer st (refused 400 e)
     | None => with_sync st (λ sy,
         let '(st, x) := sy_RefreshExchangeMetadata S sy st (rq_Query r "user_uid") (rq_Query r "exchange") (rq_Query r "label") in
         answer st match x with
                   | inr e => refused 500 (sanitizeErr e)
                   | inl results =>
                       writeJSON 200 [("success", DB true); ("count", DI (Z.of_nat (length results)));
                         ("paper_probed", DI (Z.of_nat (length (filter (λ x, mr_PaperProbed x = true) results))));
                         ("failed", DI (Z.of_nat (length (filter (λ x, is_Some (mr_Err x)) results)))); ("connections", DL (refresh_datum <$> results))]
                   end)
     end).

Definition handleAdminRawStatement (r : request) (st : S) : out S :=
  only "GET" r st (targeted false r st (λ user exchange label, with_sync st (λ sy,
    let reply (out : S * (string * string + error)) :=
      answer out.1 match out.2 with
                   | inl (doc, contentType) => mkResponse 200 None (BDocument (if String.eqb contentType "" then "application/octet-stream" else contentType) doc)
                   | inr e => if er_is e ErrRawStatementUnsupported then writeJSON 501 [("error", DS "connector does not expose a raw statement"); ("exchange", DS exchange)]
                              else refused 500 (sanitizeErr e)
                   end in
    if negb (String.eqb (rq_Query r "from") "") || negb (String.eqb (rq_Query r "to") "") then
      match ParseStatementPeriod (rq_Query r "from") (rq_Query r "to") now with
      | Err e => answer st (refused 400 e)
      | Ok (from, to) => reply (sy_DumpRawStatementForPeriod S sy st user exchange label from to)
      end
    else reply (sy_DumpRawStatement S sy st user exchange label)))).

Definition handleAdminFundingProbe (r : request) (st : S) : out S :=
  only "GET" r st (targeted false r st (λ user exchange label,
    let fromStr := rq_Query r "from" in
    match (if String.eqb fromStr "" then Some (now - 90 * Day) else ParseDate fromStr) with
    | None => answer st (refused 400 "from must be YYYY-MM-DD")
    | Some since => with_sync st (λ sy,
        let '(st, x) := sy_ProbeFunding S sy st user exchange label since in
        answer st (probe_answer ErrFundingProbeUnsupported "connector does not expose a funding probe" exchange x "funding"))
    end)).

(** Days that were, or would be, rewritten. *)
Definition days_answer {A} (d : A → datum) (apply : bool) (x : list A + error) : response :=
  match x with
  | inr e => refused 500 (sanitizeErr e)
  | inl days => writeJSON 200 [("success", DB true); ("apply", DB apply); ("count", DI (Z.of_nat (length days))); ("days", DL (d <$> days))]
  end.

Definition rewrite_window (r : request) (st : S) (k : time → time → out S) : out S :=
  match ParseDate (rq_Query r "from"), ParseDate (rq_Query r "to") with
  | Some from, Some to => k from to
  | _, _ => answer st (refused 400 "from and to are required, YYYY-MM-DD")
  end.

Definition handleAdminReflow (r : request) (st : S) : out S :=
  only "POST" r st (targeted true r st (λ user exchange label, rewrite_window r st (λ from to, with_sync st (λ sy,
    let apply := String.eqb (rq_Query r "apply") "1" in
    let '(st, x) := sy_ReflowCashflows S sy st user exchange label from to apply in answer st (days_answer DReflowDay apply x))))).

Definition handleAdminConvertToUSD (r : request) (st : S) : out S :=
  only "POST" r st (targeted true r st (λ user exchange label,
    if String.eqb (rq_Query r "currency") "" then answer st (refused 400 "currency is required")
    else with_sync st (λ sy,
      let apply := String.eqb (rq_Query r "apply") "1" in
      let '(st, x) := sy_ConvertStoredToUSD S sy st user exchange label (rq_Query r "currency") apply in answer st (days_answer DConvertedDay apply x)))).

Definition handleAdminRecountActivity (r : request) (st : S) : out S :=
  only "POST" r st (targeted true r st (λ user exchange label, rewrite_window r st (λ from to, with_sync st (λ sy,
    let apply := String.eqb (rq_Query r "apply") "1" in
    let '(st, x) := sy_RecountActivity S sy st user exchange label from to apply in answer st (days_answer DRecountDay apply x))))).

End handlers.

(** ** Routes *)

(** How a route is guarded. *)
Inductive gate := Public | MeteredPost | Bearer | MeteredBearer | Loopback | Handed.

Record Config := mkConfig {
  cfg_EnableLegacyREST : bool; cfg_IsDevelopment : bool; cfg_CORSOrigin : string; cfg_production : bool;
  cfg_jwtSecret : string; cfg_scheduler : bool }.

(** What a request without the legacy plaintext route is told. *)
Definition gone : response :=
  failed 410 "plaintext credential submission is disabled in production; use /api/v1/credentials/connect with E2E encryption".

Section routes.
Context {S : Type} (h : Handler S) (de : decoders) (sha256 : string → string) (binarySha256 : string) (cfg : Config) (now : time).
(** The hand-off endpoint gates itself. *)
Context (handoff : option (request → S → out S)).

Definition public_routes : list (string * gate * (context → request → S → out S)) :=
  [("/health", Public, λ _, HealthCheck h);
   ("/api/v1/tls/fingerprint", Public, λ _, GetTLSFingerprint h);
   ("/api/v1/attestation", MeteredPost, λ _, GetAttestation h de sha256 binarySha256);
   ("/api/v1/credentials/connect", MeteredBearer, ConnectCredentials h de)].

Definition admin_routes : list (string * gate * (context → request → S → out S)) :=
  let p := cfg_production cfg in
  [("/api/v1/admin/sync-now", Loopback, λ _, handleAdminSyncNow (cfg_scheduler cfg));
   ("/api/v1/admin/sync-connection", Loopback, λ _, handleAdminSyncConnection h);
   ("/api/v1/admin/cashflows", Loopback, λ _, handleAdminDumpCashflows h p);
   ("/api/v1/admin/reconstruct", Loopback, λ _, handleAdminReconstruct h);
   ("/api/v1/admin/reconstruct-deep", Loopback, λ _, handleAdminReconstructDeep h p now);
   ("/api/v1/admin/unpin-broker-accounts", Loopback, λ _, handleAdminUnpinBrokerAccounts h p);
   ("/api/v1/admin/balance-probe", Loopback, λ _, handleAdminBalanceProbe h p);
   ("/api/v1/admin/refresh-metadata", Loopback, λ _, handleAdminRefreshMetadata h p);
   ("/api/v1/admin/raw-statement", Loopback, λ _, handleAdminRawStatement h p now);
   ("/api/v1/admin/funding-probe", Loopback, λ _, handleAdminFundingProbe h p now);
   ("/api/v1/admin/reflow", Loopback, λ _, handleAdminReflow h p);
   ("/api/v1/admin/convert-to-usd", Loopback, λ _, handleAdminConvertToUSD h p);
   ("/api/v1/admin/recount-activity", Loopback, λ _, handleAdminRecountActivity h p)].

Definition handoff_routes : list (string * gate * (context → request → S → out S)) :=
  match handoff with Some serve => [("/api/v1/admin/handoff", Handed, λ _, serve)] | None => [] end.

Definition legacy_routes : list (string * gate * (context → request → S → out S)) :=
  let p := cfg_production cfg in
  if negb (cfg_EnableLegacyREST cfg) then []
  else
    [if cfg_IsDevelopment cfg then ("/api/v1/connection", Bearer, CreateUserConnection h de) else ("/api/v1/connection", Public, λ _ _ st, answer st gone);
     ("/api/v1/sync", Bearer, ProcessSyncJob h de p);
     ("/api/v1/metrics", Bearer, GetMetrics h p now);
     ("/api/v1/snapshots", Bearer, GetSnapshots h p now);
     ("/api/v1/history/rebuilt", Bearer, DeleteRebuiltHistory h p);
     ("/api/v1/report", Bearer, GenerateReport h de p);
     ("/api/v1/verify", Public, λ _, VerifySignature h de p)].

(** The routes [Start] registers; every pattern is an exact path. *)
Definition routes : list (string * gate * (context → request → S → out S)) := public_routes ++ admin_routes ++ handoff_routes ++ legacy_routes.

Definition route_of (path : string) : option (gate * (context → request → S → out S)) :=
  (λ x, (x.1.2, x.2)) <$> find_first (λ x, String.eqb x.1.1 path) routes.

End routes.

(** ** Gates *)

(** The server's own state: the services' and the two limiters; [ss_jobs] are
    the jobs it has started. *)
Record state (S : Type) := mkState { ss_services : S; ss_jobs : list job; ss_credentials : RateLimit.IPRateLimiter; ss_attestation : RateLimit.IPRateLimiter }.

Section gates.
Context {IP IPNet : Type} (ParseIP : string → option IP) (is_loopback : IP → bool) (net_contains : IPNet → IP → bool) (SplitHostPort : string → option string).
Context (trustedProxies : list IPNet) (verify : string → token_error + Claims).

Definition localhostOnly {A} (r : request) (next : A) (refusal : response → A) : A :=
  let host := default (rq_RemoteAddr r) (SplitHostPort (rq_RemoteAddr r)) in
  match ParseIP host with
  | Some ip => if is_loopback ip then next else refusal (refused 403 "admin endpoints are restricted to loopback callers")
  | None => refusal (refused 403 "admin endpoints are restricted to loopback callers")
  end.

Definition jwtRequired {A} (secret : string) (r : request) (next : context → A) (refusal : response → A) : A :=
  if String.eqb secret "" then next None
  else
    let authHeader := rq_Authorization r in
    if String.eqb authHeader "" then refusal (refused 401 "missing authorization header")
    else
      let tokenStr := TrimPrefix authHeader "Bearer " in
      if String.eqb tokenStr authHeader then refusal (refused 401 "authorization header must use Bearer scheme")
      else match verify tokenStr with
      | inl _ => refusal (refused 401 "invalid or expired token")
      | inr claims => next (WithUserUID None (cl_Sub claims))
      end.

(** [rl.Middleware]: the answer of the limiter and its new state. *)
Definition metered (now : time) (r : request) (rl : RateLimit.IPRateLimiter) : bool * RateLimit.IPRateLimiter :=
  let ip := RateLimit.extractIP ParseIP net_contains SplitHostPort trustedProxies (rq_RemoteAddr r) (rq_XForwardedFor r) (rq_XRealIP r) in
  let '(ok, _, rl) := RateLimit.Allow now ip rl in (ok, rl).

Definition rate_limited : response := refused 429 "rate limit exceeded, try again later".

Context {S : Type} (h : Handler S) (de : decoders) (sha256 : string → string) (binarySha256 : string) (cfg : Config) (handoff : option (request → S → out S)).

(** A handler run on the server's state. *)
Definition run (w : state S) (f : S → out S) : state S * response :=
  let '(st, js, resp) := f (ss_services S w) in (mkState S st (ss_jobs S w ++ js) (ss_credentials S w) (ss_attestation S w), resp).

(** The mux: the gate of the route, then its handler. *)
Definition mux (now : time) (r : request) (w : state S) : state S * response :=
  let stop (resp : response) := (w, resp) in
  match route_of h de sha256 binarySha256 cfg now handoff (rq_Path r) with
  | None => stop (mkResponse 404 None (BText "404 page not found"))
  | Some (g, handler) =>
      match g with
      | Public | Handed => run w (handler None r)
      | Loopback => localhostOnly r (run w (handler None r)) stop
      | Bearer => jwtRequired (cfg_jwtSecret cfg) r (λ ctx, run w (handler ctx r)) stop
      | MeteredBearer =>
          let '(ok, rl) := metered now r (ss_credentials S w) in
          let w := mkState S (ss_services S w) (ss_jobs S w) rl (ss_attestation S w) in
          if ok then jwtRequired (cfg_jwtSecret cfg) r (λ ctx, run w (handler ctx r)) (λ resp, (w, resp)) else (w, rate_limited)
      | MeteredPost =>
          if String.eqb (rq_Method r) "POST" then
            let '(ok, rl) := metered now r (ss_attestation S w) in
            let w := mkState S (ss_services S w) (ss_jobs S w) (ss_credentials S w) rl in
            if ok then run w (handler None r) else (w, rate_limited)
          else run w (handler None r)
      end
  end.

Definition CORSMiddleware {A} (allowedOrigins : string) (r : request) (next : A * response) (same : A) : A * response :=
  let origin := rq_Origin r in
  let allow := if negb (String.eqb origin "") && isOriginAllowed origin (parseOrigins allowedOrigins) then Some origin else None in
  if String.eqb (rq_Method r) "OPTIONS" then (same, mkResponse 204 allow BEmpty)
  else (next.1, mkResponse (rs_Status next.2) allow (rs_Body next.2)).

(** One request. *)
Definition serve (now : time) (r : request) (w : state S) : state S * response :=
  if String.eqb (cfg_CORSOrigin cfg) "" then mux now r w else CORSMiddleware (cfg_CORSOrigin cfg) r (mux now r w) w.

(** The state [Start] begins with. *)
Definition initial (st : S) : state S := mkState S st [] (RateLimit.NewIPRateLimiter 5 (15 * Minute)) (RateLimit.NewIPRateLimiter 6 Minute).

End gates.

End server.
End Http.
