(* ===== verification/HttpSafe.v ===== *)
(** * What the HTTP server guarantees

    Who can make it act and for whom, which credentials it hands to the
    connection service, how often an address may offer some, and which origins
    it trusts. *)

From S2P Require Import Prelude GoTime GoText Num Types Returns Encoding SyncError Json Metrics Signing RateLimit Window Attestation Activity Fx Reflow Recount Connect Auth Grpc GrpcSafe Http.
From stdpp Require Import base gmap strings pretty tactics sorting list.
From Stdlib Require Import ZArith Ascii Lia.
Import Encoding Returns Auth Http.
Local Open Scope Z_scope.

Module HttpSafe.

(** ** Paths *)

Definition operator_paths : list string :=
  ["/api/v1/admin/sync-now"; "/api/v1/admin/sync-connection"; "/api/v1/admin/cashflows"; "/api/v1/admin/reconstruct"; "/api/v1/admin/reconstruct-deep";
   "/api/v1/admin/unpin-broker-accounts"; "/api/v1/admin/balance-probe"; "/api/v1/admin/refresh-metadata"; "/api/v1/admin/raw-statement"; "/api/v1/admin/funding-probe";
   "/api/v1/admin/reflow"; "/api/v1/admin/convert-to-usd"; "/api/v1/admin/recount-activity"].

Definition user_paths : list string :=
  ["/api/v1/credentials/connect"; "/api/v1/connection"; "/api/v1/sync"; "/api/v1/metrics"; "/api/v1/snapshots"; "/api/v1/history/rebuilt"; "/api/v1/report"].

Definition attestation_path : string := "/api/v1/attestation".
Definition handoff_path : string := "/api/v1/admin/handoff".
Definition connect_path : string := "/api/v1/credentials/connect".

(** ** Another user's name in the request *)

Definition requery (u : string) (r : request) : request :=
  mkRequest (rq_Method r) (rq_Path r) (rq_RemoteAddr r) (rq_Authorization r) (rq_Origin r) (rq_XForwardedFor r) (rq_XRealIP r)
    (λ k, if String.eqb k "user_uid" then u else rq_Query r k) (rq_Body r).

(** The decoders, every body naming the user [u]. *)
Definition rename (u : string) (de : decoders) : decoders :=
  mkDecoders (de_nonce de)
    (λ s, (λ b, mkConnectBody u (cb_Exchange b) (cb_Label b) (cb_Encrypted b) (cb_ExcludeFromReport b) (cb_RebuildHistory b)) <$> de_connect de s)
    (de_credentials de)
    (λ s, (λ b, mkConnectionBody u (nb_Exchange b) (nb_Label b) (nb_APIKey b) (nb_APISecret b) (nb_Passphrase b) (nb_SyncIntervalMinutes b) (nb_ExcludeFromReport b) (nb_RebuildHistory b))
            <$> de_connection de s)
    (λ s, (λ b, mkSyncBody u (sb_Exchange b)) <$> de_sync de s)
    (λ s, (λ b, mkReportBody u (gb_StartDate b) (gb_EndDate b) (gb_ReportName b) (gb_Benchmark b) (gb_BaseCurrency b) (gb_IncludeRiskMetrics b) (gb_IncludeDrawdown b) (gb_Manager b) (gb_Firm b))
            <$> de_report de s)
    (de_verify de).

Section server.
Context {F : Type} {NF : Num F} {S : Type}.
Context (h : Handler (F := F) S) (sha256 : string → string) (binarySha256 : string) (cfg : Config) (handoff : option (request → S → out (F := F) S)).

Implicit Types (de : decoders) (r : request).

Abbreviation handler := (context → request → S → out (F := F) S).
Abbreviation table de now := (routes h de sha256 binarySha256 cfg now handoff).

(** What each gate stands for. *)
Definition guarded (x : string * gate * handler) : Prop :=
  match x.1.2 with
  | Public => ∀ ctx r st, ∃ resp, x.2 ctx r st = (st, [], resp)
  | MeteredPost => x.1.1 = attestation_path ∧ ∀ ctx r st, (x.2 ctx r st).1.2 = []
  | Handed => x.1.1 = handoff_path ∧ handoff ≠ None
  | Loopback => x.1.1 ∈ operator_paths
  | Bearer => x.1.1 ∈ user_paths ∧ ∀ ctx r st, (x.2 ctx r st).1.2 = []
  | MeteredBearer => x.1.1 = connect_path ∧ ∀ ctx r st, (x.2 ctx r st).1.2 = []
  end.

(** A user's handler starts nothing in the background. *)
Ltac starts_nothing := intros; unfold answer, created_answer; repeat (case_match; try reflexivity); reflexivity.

Lemma attestation_jobs de r st : (GetAttestation h de sha256 binarySha256 r st).1.2 = [].
Proof. unfold GetAttestation. starts_nothing. Qed.

Lemma connect_jobs de ctx r st : (ConnectCredentials h de ctx r st).1.2 = [].
Proof. unfold ConnectCredentials, connect_with. starts_nothing. Qed.

Lemma create_jobs de ctx r st : (CreateUserConnection h de ctx r st).1.2 = [].
Proof. unfold CreateUserConnection. starts_nothing. Qed.

Lemma sync_jobs de p ctx r st : (ProcessSyncJob h de p ctx r st).1.2 = [].
Proof. unfold ProcessSyncJob. starts_nothing. Qed.

Lemma delete_jobs p ctx r st : (DeleteRebuiltHistory h p ctx r st).1.2 = [].
Proof. unfold DeleteRebuiltHistory. starts_nothing. Qed.

Lemma report_jobs de p ctx r st : (GenerateReport h de p ctx r st).1.2 = [].
Proof. unfold GenerateReport. starts_nothing. Qed.

Lemma routes_guarded de now : Forall guarded (table de now).
Proof.
  unfold routes. rewrite !Forall_app. split_and!.
  - repeat apply Forall_cons_2; [..|done]; cbn; try (intros; by eexists).
    + split; [done|]. intros. apply attestation_jobs.
    + split; [done|]. apply connect_jobs.
  - repeat apply Forall_cons_2; [..|done]; unfold guarded; cbn [fst snd]; apply list_elem_of_In; repeat (first [by left|right]).
  - unfold handoff_routes. destruct handoff eqn:E; [|done]. apply Forall_singleton. split; [done|congruence].
  - unfold legacy_routes. destruct (cfg_EnableLegacyREST cfg); cbn [negb]; [|done].
    repeat apply Forall_cons_2; [..|done]; unfold guarded.
    + destruct (cfg_IsDevelopment cfg); cbn [fst snd]; [|intros; by eexists]. split; [set_solver|]. apply create_jobs.
    + cbn [fst snd]. split; [set_solver|]. apply sync_jobs.
    + cbn [fst snd]. split; [set_solver|done].
    + cbn [fst snd]. split; [set_solver|done].
    + cbn [fst snd]. split; [set_solver|]. apply delete_jobs.
    + cbn [fst snd]. split; [set_solver|]. apply report_jobs.
    + cbn [fst snd]. intros. by eexists.
Qed.

Lemma route_guarded de now path g f :
  route_of h de sha256 binarySha256 cfg now handoff path = Some (g, f) → guarded (path, g, f).
Proof.
  unfold route_of. intros Hr. apply fmap_Some in Hr as ([[p g'] f'] & Hf & [= -> ->]).
  apply find_first_some in Hf as (l1 & l2 & Ht & Hp%String.eqb_eq & _). cbn in Hp. subst p.
  pose proof (routes_guarded de now) as Hg. rewrite Ht, Forall_app, Forall_cons in Hg. apply Hg.
Qed.

(** ** The user a request names *)

Lemma resolve_subject u uid : u ≠ "" → resolveUserUID (WithUserUID None u) uid = u.
Proof. intros Hu. unfold resolveUserUID, WithUserUID, UserUIDFromContext. by rewrite (proj2 (String.eqb_neq _ _) Hu). Qed.

(** The handler behind a gate does not see the user the request names. *)
Definition blind (u : string) (x y : string * gate * handler) : Prop :=
  x.1 = y.1 ∧
  match x.1.2 with
  | Public | MeteredPost => ∀ ctx r st, y.2 ctx (requery u r) st = x.2 ctx r st
  | Bearer | MeteredBearer => ∀ sub r st, sub ≠ "" → y.2 (WithUserUID None sub) (requery u r) st = x.2 (WithUserUID None sub) r st
  | Loopback | Handed => True
  end.

Ltac renamed dec :=
  intros sub r st Hsub; unfold readJSON; cbn [rq_Method rq_Body requery rename de_connect de_connection de_sync de_report de_credentials];
  destruct (negb _); [done|]; try (destruct (dec _) as [b|]; cbn [fmap option_fmap option_map]; [|done]);
  cbn [cb_UserUID nb_UserUID sb_UserUID gb_UserUID]; rewrite ?resolve_subject by done; reflexivity.

Lemma routes_blind u de now : Forall2 (blind u) (table de now) (table (rename u de) now).
Proof.
  unfold routes. repeat apply Forall2_app.
  - repeat apply Forall2_cons_2; [..|done]; (split; [done|]); cbn [fst snd]; try (intros; reflexivity).
    intros sub r st Hsub. unfold ConnectCredentials, readJSON. cbn [rq_Method rq_Body requery]. destruct (negb _); [done|].
    destruct (h_eciesSvc S h), (h_connSvc S h); try done. cbn [rename de_connect].
    destruct (de_connect de _) as [b|]; cbn [fmap option_fmap option_map]; [|done]. cbn [cb_Encrypted cb_UserUID cb_Exchange].
    rewrite !resolve_subject by done. reflexivity.
  - repeat apply Forall2_cons_2; [..|done]; by split.
  - unfold handoff_routes. destruct handoff; [|done]. apply Forall2_cons_2; [by split|done].
  - unfold legacy_routes. destruct (cfg_EnableLegacyREST cfg); cbn [negb]; [|done].
    repeat apply Forall2_cons_2; [..|done]; unfold blind.
    + destruct (cfg_IsDevelopment cfg); cbn [fst snd]; (split; [done|]); [|done]. unfold CreateUserConnection. renamed (de_connection de).
    + split; [done|]. cbn [fst snd]. unfold ProcessSyncJob. renamed (de_sync de).
    + split; [done|]. cbn [fst snd]. intros sub r st Hsub. unfold GetMetrics. rewrite !resolve_subject by done. reflexivity.
    + split; [done|]. cbn [fst snd]. intros sub r st Hsub. unfold GetSnapshots. rewrite !resolve_subject by done. reflexivity.
    + split; [done|]. cbn [fst snd]. intros sub r st Hsub. unfold DeleteRebuiltHistory. rewrite !resolve_subject by done. reflexivity.
    + split; [done|]. cbn [fst snd]. unfold GenerateReport. renamed (de_report de).
    + split; [done|]. done.
Qed.

Lemma find_first_Forall2 {A} (R : A → A → Prop) (p : A → bool) l k :
  Forall2 R l k → (∀ x y, R x y → p x = p y) →
  match find_first p l, find_first p k with Some x, Some y => R x y | None, None => True | _, _ => False end.
Proof.
  intros HF Hp. induction HF as [|x y l k Hxy _ IH]; cbn; [done|]. rewrite <- (Hp x y Hxy). by destruct (p x).
Qed.

Lemma route_blind u de now path :
  match route_of h de sha256 binarySha256 cfg now handoff path, route_of h (rename u de) sha256 binarySha256 cfg now handoff path with
  | Some (g, f), Some (g', f') => blind u (path, g, f) (path, g', f')
  | None, None => True
  | _, _ => False
  end.
Proof.
  pose proof (find_first_Forall2 (blind u) (λ x, String.eqb x.1.1 path) _ _ (routes_blind u de now)) as H.
  unfold route_of. destruct (find_first _ (table de now)) as [[[p g] f]|], (find_first _ (table (rename u de) now)) as [[[p' g'] f']|]; cbn;
    specialize (H ltac:(by intros x y [-> _])); try done. cbn in H. destruct H as [[= -> ->] H]. by split.
Qed.

(** ** Who can make the server act *)

Section gates.
Context {IP IPNet : Type} (ParseIP : string → option IP) (is_loopback : IP → bool) (net_contains : IPNet → IP → bool) (SplitHostPort : string → option string).
Context (trustedProxies : list IPNet).

(** The TCP peer of a request is this host. *)
Definition from_loopback (r : request) : Prop :=
  ∃ ip, ParseIP (default (rq_RemoteAddr r) (SplitHostPort (rq_RemoteAddr r))) = Some ip ∧ is_loopback ip = true.

Definition idle (w w' : state S) : Prop := ss_services S w' = ss_services S w ∧ ss_jobs S w' = ss_jobs S w.

Abbreviation mux_ verify de := (mux ParseIP is_loopback net_contains SplitHostPort trustedProxies verify h de sha256 binarySha256 cfg handoff).
Abbreviation serve_ verify de := (serve ParseIP is_loopback net_contains SplitHostPort trustedProxies verify h de sha256 binarySha256 cfg handoff).

Lemma localhost_cases {A} r (next : A) refusal :
  (from_loopback r ∧ localhostOnly (F := F) ParseIP is_loopback SplitHostPort r next refusal = next) ∨
  ∃ resp, localhostOnly ParseIP is_loopback SplitHostPort r next refusal = refusal resp.
Proof.
  unfold localhostOnly, from_loopback. destruct (ParseIP _) as [ip|]; [|by right; eexists].
  destruct (is_loopback ip) eqn:E; [left|by right; eexists]. split; [by exists ip|done].
Qed.

Lemma jwt_cases {A} verify secret r (next : context → A) refusal : secret ≠ "" →
  (∃ resp, jwtRequired (F := F) verify secret r next refusal = refusal resp) ∨
  ∃ tok cl, rq_Authorization r = "Bearer " +:+ tok ∧ verify tok = inr cl ∧ jwtRequired (F := F) verify secret r next refusal = next (WithUserUID None (cl_Sub cl)).
Proof.
  intros Hs. unfold jwtRequired. rewrite (proj2 (String.eqb_neq _ _) Hs). destruct (String.eqb (rq_Authorization r) ""); [by left; eexists|]. cbn zeta.
  destruct (String.eqb (TrimPrefix _ _) _) eqn:E; [by left; eexists|]. destruct (verify _) as [e|cl] eqn:Ev; [by left; eexists|].
  right. eexists _, cl. split_and!; [|exact Ev|done]. by apply GrpcSafe.prefix_trim.
Qed.

Lemma jwt_ext {A} verify secret r (n1 n2 : context → A) refusal :
  (∀ ctx, n1 ctx = n2 ctx) → jwtRequired (F := F) verify secret r n1 refusal = jwtRequired verify secret r n2 refusal.
Proof. intros Hn. unfold jwtRequired. repeat case_match; auto. Qed.

(** The effect of a call that carries a verified token. *)
Definition acts_for (de : decoders) (now : time) (sub : string) (r : request) (w w' : state S) : Prop :=
  ∃ g f resp, route_of h de sha256 binarySha256 cfg now handoff (rq_Path r) = Some (g, f) ∧ f (WithUserUID None sub) r (ss_services S w) = (ss_services S w', [], resp) ∧
    ss_jobs S w' = ss_jobs S w.

Lemma run_jobless (w : state S) f : (f (ss_services S w)).1.2 = [] →
  ∃ resp, f (ss_services S w) = (ss_services S (run (F := F) w f).1, [], resp) ∧ ss_jobs S (run w f).1 = ss_jobs S w.
Proof.
  unfold run. destruct (f (ss_services S w)) as [[st js] resp]. cbn. intros ->. exists resp. split; [done|]. by rewrite app_nil_r.
Qed.

(** The outcomes of the mux, when a secret is set. *)
Lemma mux_cases verify de now r w : cfg_jwtSecret cfg ≠ "" →
  let w' := (mux_ verify de now r w).1 in
  idle w w' ∨ (rq_Path r ∈ operator_paths ∧ from_loopback r) ∨ (rq_Path r = attestation_path ∧ ss_jobs S w' = ss_jobs S w) ∨ (rq_Path r = handoff_path ∧ handoff ≠ None) ∨
  (rq_Path r ∈ user_paths ∧ ∃ tok cl, rq_Authorization r = "Bearer " +:+ tok ∧ verify tok = inr cl ∧ acts_for de now (cl_Sub cl) r w w').
Proof.
  intros Hs w'. subst w'. unfold mux. destruct (route_of _ _ _ _ _ _ _ _) as [[g f]|] eqn:Er; [|by left].
  pose proof (route_guarded _ _ _ _ _ Er) as Hg. destruct g; cbn [guarded fst snd] in Hg.
  - left. destruct (Hg None r (ss_services S w)) as [resp E]. unfold run, idle. rewrite E. cbn. by rewrite app_nil_r.
  - right; right; left. destruct Hg as [Hp Hj]. split; [done|]. destruct (String.eqb _ "POST").
    + destruct (metered _ _ _ _ _ _ _) as [[|] rl]; [|done].
      destruct (run_jobless (mkState S (ss_services S w) (ss_jobs S w) (ss_credentials S w) rl) (f None r) (Hj _ _ _)) as (? & _ & Hk). exact Hk.
    + destruct (run_jobless w (f None r) (Hj _ _ _)) as (? & _ & Hk). exact Hk.
  - destruct (jwt_cases verify (cfg_jwtSecret cfg) r (λ ctx, run w (f ctx r)) (λ resp, (w, resp)) Hs) as [[resp ->]|(tok & cl & Ha & Hv & ->)]; [by left|].
    do 4 right. split; [apply Hg|]. exists tok, cl. split_and!; [done..|].
    destruct (run_jobless w (f (WithUserUID None (cl_Sub cl)) r) ltac:(apply Hg)) as (resp & Ef & Hk). by exists Bearer, f, resp.
  - destruct (metered _ _ _ _ _ _ _) as [[|] rl]; [|by left].
    set (w1 := mkState S (ss_services S w) (ss_jobs S w) rl (ss_attestation S w)).
    destruct (jwt_cases verify (cfg_jwtSecret cfg) r (λ ctx, run w1 (f ctx r)) (λ resp, (w1, resp)) Hs) as [[resp ->]|(tok & cl & Ha & Hv & ->)]; [by left|].
    do 4 right. destruct Hg as [Hp Hj]. split; [rewrite Hp; by left|]. exists tok, cl. split_and!; [done..|].
    destruct (run_jobless w1 (f (WithUserUID None (cl_Sub cl)) r) (Hj _ _ _)) as (resp & Ef & Hk). by exists MeteredBearer, f, resp.
  - destruct (localhost_cases r (run w (f None r)) (λ resp, (w, resp))) as [[Hl ->]|[resp ->]]; [by right; left|by left].
  - right; right; right; left. exact Hg.
Qed.

(** The mux does not see the user a request names either. *)
Lemma mux_blind u verify de now r w :
  (∀ tok cl, verify tok = inr cl → cl_Sub cl ≠ "") → cfg_jwtSecret cfg ≠ "" → rq_Path r ∉ operator_paths → rq_Path r ≠ handoff_path →
  mux_ verify (rename u de) now (requery u r) w = mux_ verify de now r w.
Proof.
  intros Hsub Hs Ho Hh. unfold mux. cbn [rq_Path requery]. pose proof (route_blind u de now (rq_Path r)) as Hb.
  destruct (route_of h de _ _ _ _ _ _) as [[g f]|] eqn:Er, (route_of h (rename u de) _ _ _ _ _ _) as [[g' f']|]; try done.
  destruct Hb as [[= <-] Hb]. pose proof (route_guarded _ _ _ _ _ Er) as Hg.
  assert (∀ w1 refusal, jwtRequired (F := F) verify (cfg_jwtSecret cfg) (requery u r) (λ ctx, run w1 (f' ctx (requery u r))) refusal =
                jwtRequired verify (cfg_jwtSecret cfg) r (λ ctx, run w1 (f ctx r)) refusal ∨ (g ≠ Bearer ∧ g ≠ MeteredBearer)) as Hj.
  { intros w1 refusal. destruct g; try (right; done); left; unfold jwtRequired; rewrite (proj2 (String.eqb_neq _ _) Hs); cbn [rq_Authorization requery];
      (destruct (String.eqb (rq_Authorization r) ""); [done|]); cbn zeta; (destruct (String.eqb _ _); [done|]);
      (destruct (verify _) as [e|cl] eqn:Ev; [done|]); unfold run; rewrite Hb; [done|by eapply Hsub|done|by eapply Hsub]. }
  destruct g; cbn [guarded blind fst snd] in *.
  - unfold run. by rewrite Hb.
  - unfold run. cbn [rq_Method requery]. unfold metered. cbn [rq_RemoteAddr rq_XForwardedFor rq_XRealIP requery].
    destruct (String.eqb _ "POST"); [|by rewrite Hb]. destruct (RateLimit.Allow _ _ _) as [[[|] ?] rl]; [by rewrite Hb|done].
  - destruct (Hj w (λ resp, (w, resp))) as [->|[? _]]; done.
  - unfold metered. cbn [rq_RemoteAddr rq_XForwardedFor rq_XRealIP requery]. destruct (RateLimit.Allow _ _ _) as [[[|] ?] rl]; [|done].
    destruct (Hj (mkState S (ss_services S w) (ss_jobs S w) rl (ss_attestation S w)) (λ resp, (mkState S (ss_services S w) (ss_jobs S w) rl (ss_attestation S w), resp))) as [->|[_ ?]]; done.
  - done.
  - by destruct Hg.
Qed.

(** Cross-origin headers change no state. *)
Lemma serve_mux verify de now r w : (serve_ verify de now r w).1 = w ∨ (serve_ verify de now r w).1 = (mux_ verify de now r w).1.
Proof. unfold serve, CORSMiddleware. destruct (String.eqb _ ""); [by right|]. destruct (String.eqb _ "OPTIONS"); [by left|by right]. Qed.

Lemma serve_blind u verify de now r w :
  (∀ tok cl, verify tok = inr cl → cl_Sub cl ≠ "") → cfg_jwtSecret cfg ≠ "" → rq_Path r ∉ operator_paths → rq_Path r ≠ handoff_path →
  serve_ verify (rename u de) now (requery u r) w = serve_ verify de now r w.
Proof. intros. unfold serve, CORSMiddleware. rewrite mux_blind by done. done. Qed.

(** ** Properties *)

(** C13: nothing is done for a stranger.  With a secret configured, a request that changes the state of the services or
    starts background work is either an operator's, from a loopback peer, a request for a quote, a hand-off of the
    master key (which gates itself), or a user's, and then it carries as bearer a token the issuer signed, in force
    and for this enclave, and what it does is what its route does for the subject of that token.  The user named by the
    body or the query plays no part: any other name gives the same effect and the same answer. *)
Theorem http_acts_for_token_subject hmac header_of claims_of issuer log de now r w w' resp :
  (∀ tok, rq_Authorization r = "Bearer " +:+ tok → unforged hmac (cfg_jwtSecret cfg) log tok) → cfg_jwtSecret cfg ≠ "" →
  let verify := GrpcSafe.checks hmac header_of claims_of now (cfg_jwtSecret cfg) issuer in
  serve_ verify de now r w = (w', resp) →
  (idle w w' ∨ (rq_Path r ∈ operator_paths ∧ from_loopback r) ∨ (rq_Path r = attestation_path ∧ ss_jobs S w' = ss_jobs S w) ∨ (rq_Path r = handoff_path ∧ handoff ≠ None) ∨
   (rq_Path r ∈ user_paths ∧ ∃ hd pl cl, (hd, pl) ∈ log ∧ rq_Authorization r = "Bearer " +:+ issue hmac (cfg_jwtSecret cfg) hd pl ∧
      claims_of pl = Some cl ∧ valid_at now (mkOptions issuer 0) cl ∧ acts_for de now (cl_Sub cl) r w w')) ∧
  (∀ u, rq_Path r ∉ operator_paths → rq_Path r ≠ handoff_path → serve_ verify (rename u de) now (requery u r) w = (w', resp)).
Proof.
  intros Hu Hs verify Hserve. split.
  - assert (w' = w ∨ w' = (mux_ verify de now r w).1) as [->|Hw] by (destruct (serve_mux verify de now r w) as [E|E]; rewrite Hserve in E; eauto); [by left|].
    destruct (mux_cases verify de now r w Hs) as [H|[H|[H|[H|(Hp & tok & cl & Ha & Hv & Hf)]]]]; rewrite <- ?Hw in *; [tauto..|].
    do 4 right. split; [done|]. unfold verify, GrpcSafe.checks in Hv.
    apply (issued_token _ _ _ (cfg_jwtSecret cfg) log) in Hv as (hd & pl & hdr & -> & Hin & _ & _ & _ & Hcl & Hval); [|by apply Hu].
    by exists hd, pl, cl.
  - intros u Ho Hh. rewrite serve_blind; [done| |done..]. intros tok cl. apply GrpcSafe.verified_subject.
Qed.

End gates.
End server.
(** ** Which credentials the server hands on *)

Section credentials.
Context {F : Type} {NF : Num F} {S : Type} (h : Handler (F := F) S) (sha256 : string → string) (binarySha256 : string) (cfg : Config) (handoff : option (request → S → out (F := F) S)).
Context (create : S → Connect.CreateConnectionRequest → S * option error).

(** The same server with another [Create]. *)
Definition with_create : Handler S :=
  mkHandler S ((λ co, mkConnectionOps S create (co_GetExcludedConnectionKeys S co)) <$> h_connSvc S h) (h_syncSvc S h) (h_metricsSvc S h) (h_reportSvc S h) (h_snapshotRepo S h) (h_userRepo S h)
    (h_tlsKeygen S h) (h_attestSvc S h) (h_eciesSvc S h).

(** The credentials of [q] were sealed to the enclave's key, in the body of [r]. *)
Definition sealed_in (de : decoders) (r : request) (q : Connect.CreateConnectionRequest) : Prop :=
  rq_Path r = connect_path ∧
  ∃ decrypt b e, h_eciesSvc S h = Some decrypt ∧ readJSON (de_connect de) r = Some b ∧ cb_Encrypted b = Some e ∧
    open_credentials de decrypt e = inl (Connect.rq_APIKey q, Connect.rq_APISecret q, Connect.rq_Passphrase q).

Definition agree_on (P : Connect.CreateConnectionRequest → Prop) : Prop := ∀ co, h_connSvc S h = Some co → ∀ st q, P q → create st q = co_Create S co st q.

Lemma excluded_with_create st u : excluded_keys with_create st u = excluded_keys h st u.
Proof. unfold excluded_keys. cbn [with_create h_connSvc]. by destruct (h_connSvc S h). Qed.

Lemma connect_with_create de ctx r st : rq_Path r = connect_path → agree_on (sealed_in de r) → ConnectCredentials with_create de ctx r st = ConnectCredentials h de ctx r st.
Proof.
  intros Hp Ha. unfold ConnectCredentials. destruct (negb _); [done|]. cbn [with_create h_eciesSvc h_connSvc]. destruct (h_eciesSvc S h) as [decrypt|] eqn:Ed; [|by destruct (h_connSvc S h)].
  destruct (h_connSvc S h) as [co|] eqn:Ec; [|done]. cbn [fmap option_fmap option_map]. destruct (readJSON (de_connect de) r) as [b|] eqn:Eb; [|done].
  destruct (cb_Encrypted b) as [e|] eqn:Ee; [|done]. cbn zeta. destruct (_ || _); [done|]. destruct (open_credentials de decrypt e) as [[[key secret] passphrase]|] eqn:Eo; [|done].
  unfold connect_with, upsert_user. cbn [with_create h_userRepo]. destruct (match h_userRepo S h with Some g => _ | None => _ end) as [st1 ?]. destruct (ValidateCreateConnection _); [done|].
  cbn [co_Create]. rewrite (Ha co Ec); [done|]. split; [done|]. by exists decrypt, b, e.
Qed.

(** Handlers that never see [Create]. *)
Definition same_entry (de : decoders) (r : request) (x y : string * gate * (context → request → S → out (F := F) S)) : Prop :=
  x.1 = y.1 ∧ (x.1.1 = rq_Path r → ∀ ctx st, y.2 ctx r st = x.2 ctx r st).

Lemma routes_with_create de now r : cfg_IsDevelopment cfg = false → agree_on (sealed_in de r) →
  Forall2 (same_entry de r) (routes h de sha256 binarySha256 cfg now handoff) (routes with_create de sha256 binarySha256 cfg now handoff).
Proof.
  intros Hdev Ha. unfold routes. repeat apply Forall2_app.
  - repeat apply Forall2_cons_2; [..|done]; (split; [done|]); cbn [fst snd]; intros Hp ctx st; try done. by apply connect_with_create.
  - repeat apply Forall2_cons_2; [..|done]; (split; [done|]); cbn [fst snd]; done.
  - unfold handoff_routes. destruct handoff; [|done]. apply Forall2_cons_2; [by split|done].
  - unfold legacy_routes. rewrite Hdev. destruct (cfg_EnableLegacyREST cfg); cbn [negb]; [|done].
    repeat apply Forall2_cons_2; [..|done]; (split; [done|]); cbn [fst snd]; intros Hp ctx st; try done.
    + unfold GetMetrics. by rewrite excluded_with_create.
    + unfold GetSnapshots. by rewrite excluded_with_create.
    + unfold GenerateReport. destruct (negb _); [done|]. destruct (readJSON _ r) as [b|]; [|done]. by rewrite excluded_with_create.
Qed.

(** Only sealed credentials are handed on.  Outside development the server calls [Create] with nothing but credentials
    that came, on the connect route, in an envelope the enclave's own key opened: replacing [Create] by any operation
    that agrees with it on those changes no answer and no state, whatever the request, its route and its body. *)
Theorem only_sealed_credentials {IP IPNet} ParseIP is_loopback net_contains SplitHostPort trustedProxies verify de now r w :
  cfg_IsDevelopment cfg = false → agree_on (sealed_in de r) →
  serve (IP := IP) (IPNet := IPNet) ParseIP is_loopback net_contains SplitHostPort trustedProxies verify with_create de sha256 binarySha256 cfg handoff now r w =
  serve ParseIP is_loopback net_contains SplitHostPort trustedProxies verify h de sha256 binarySha256 cfg handoff now r w.
Proof.
  intros Hdev Ha. unfold serve. assert (∀ A B : state S * response (F := F), A = B → (if String.eqb (cfg_CORSOrigin cfg) "" then A else CORSMiddleware (cfg_CORSOrigin cfg) r A w) =
    (if String.eqb (cfg_CORSOrigin cfg) "" then B else CORSMiddleware (cfg_CORSOrigin cfg) r B w)) as Hc by (by intros A B ->). apply Hc. clear Hc.
  unfold mux, route_of. pose proof (find_first_Forall2 _ (λ x, String.eqb x.1.1 (rq_Path r)) _ _ (routes_with_create de now r Hdev Ha) ltac:(by intros x y [-> _])) as Hf.
  destruct (find_first _ (routes h _ _ _ _ _ _)) as [[[p g] f]|] eqn:E1, (find_first _ (routes with_create _ _ _ _ _ _)) as [[[p' g'] f']|]; try done.
  destruct Hf as [[= <- <-] Hf]. apply find_first_some in E1 as (_ & _ & _ & Hp%String.eqb_eq & _). cbn [fst snd fmap option_fmap option_map] in *. specialize (Hf Hp).
  assert (∀ (w1 : state S) ctx, run w1 (f' ctx r) = run w1 (f ctx r)) as Hrun by (intros; unfold run; by rewrite Hf).
  destruct g; rewrite ?Hrun; try done.
  - destruct (String.eqb _ "POST"); [|done]. destruct (metered _ _ _ _ _ _ _) as [[|] rl]; [apply Hrun|done].
  - apply jwt_ext. intros. apply Hrun.
  - destruct (metered _ _ _ _ _ _ _) as [[|] rl]; [|done]. apply jwt_ext. intros. apply Hrun.
Qed.

End credentials.

(** ** How often an address may offer credentials *)

Section attempts.
Context {F : Type} {NF : Num F} {S : Type} (h : Handler (F := F) S) (de : decoders) (sha256 : string → string) (binarySha256 : string) (cfg : Config) (handoff : option (request → S → out (F := F) S)).
Context {IP IPNet : Type} (ParseIP : string → option IP) (is_loopback : IP → bool) (net_contains : IPNet → IP → bool) (SplitHostPort : string → option string) (trustedProxies : list IPNet).
(** The verification at each instant. *)
Context (verify : time → string → token_error + Claims).

Abbreviation serve_at now := (serve ParseIP is_loopback net_contains SplitHostPort trustedProxies (verify now) h de sha256 binarySha256 cfg handoff now).

(** A run of the server: requests, and sweeps of its limiters. *)
Definition server_turn (w : state S) (a : time * option request) : state S * option (response (F := F)) :=
  match a with
  | (now, Some r) => let '(w', resp) := serve_at now r w in (w', Some resp)
  | (now, None) => (mkState S (ss_services S w) (ss_jobs S w) (RateLimit.cleanup now (ss_credentials S w)) (RateLimit.cleanup now (ss_attestation S w)), None)
  end.

Fixpoint server_turns (w : state S) (script : list (time * option request)) : list (time * option request * option (response (F := F))) :=
  match script with [] => [] | a :: script' => let '(w', resp) := server_turn w a in (a, resp) :: server_turns w' script' end.

(** Who a request is from.  The host of the TCP peer, unless the peer lies in
    a configured block of proxies: then what the proxy forwards. *)
Definition peer_host (r : request) : string := default (rq_RemoteAddr r) (SplitHostPort (rq_RemoteAddr r)).

Definition from_proxy (r : request) : bool :=
  match ParseIP (peer_host r) with Some ip => existsb (λ block, net_contains block ip) trustedProxies | None => false end.

Definition client (r : request) : string :=
  if negb (from_proxy r) then peer_host r
  else if String.eqb (rq_XForwardedFor r) "" then (if String.eqb (rq_XRealIP r) "" then peer_host r else TrimSpace (rq_XRealIP r))
  else TrimSpace (RateLimit.FirstCSV (rq_XForwardedFor r)).

Lemma extract_client r : RateLimit.extractIP ParseIP net_contains SplitHostPort trustedProxies (rq_RemoteAddr r) (rq_XForwardedFor r) (rq_XRealIP r) = client r.
Proof.
  unfold RateLimit.extractIP, client. assert (RateLimit.isTrustedPeer ParseIP net_contains SplitHostPort trustedProxies (rq_RemoteAddr r) = from_proxy r) as ->.
  { unfold RateLimit.isTrustedPeer, from_proxy, peer_host. cbn zeta. destruct trustedProxies; [|done]. by destruct (ParseIP _). }
  cbn zeta. unfold peer_host. destruct (from_proxy r); cbn [negb]; [|done]. by destruct (String.eqb (rq_XForwardedFor r) ""), (String.eqb (rq_XRealIP r) "").
Qed.

(** A request for the connect route that is not a cross-origin preflight. *)
Definition offers (r : request) : bool := String.eqb (rq_Path r) connect_path && (String.eqb (cfg_CORSOrigin cfg) "" || negb (String.eqb (rq_Method r) "OPTIONS")).

(** What the credentials limiter sees of a run. *)
Definition seen (a : time * option request) : option (time * option string) :=
  match a with (now, Some r) => if offers r then Some (now, Some (client r)) else None | (now, None) => Some (now, None) end.

(** The offers of [ip] that were not turned away by the limiter. *)
Definition passed (ip : string) (x : time * option request * option (response (F := F))) : option time :=
  match x with
  | ((now, Some r), Some resp) => if offers r && String.eqb (client r) ip && negb (rs_Status resp =? 429) then Some now else None
  | _ => None
  end.

Lemma connect_route now : ∃ f, route_of h de sha256 binarySha256 cfg now handoff connect_path = Some (MeteredBearer, f).
Proof. by eexists. Qed.

Lemma metered_only_connect now path f : route_of h de sha256 binarySha256 cfg now handoff path = Some (MeteredBearer, f) → path = connect_path.
Proof. intros Hr. apply (route_guarded h sha256 binarySha256 cfg handoff de now path MeteredBearer f) in Hr. apply Hr. Qed.

Lemma run_limiters (w : state S) (f : S → out (F := F) S) : ss_credentials S (run w f).1 = ss_credentials S w.
Proof. unfold run. by destruct (f _) as [[? ?] ?]. Qed.

(** One request, seen by the credentials limiter. *)
Lemma serve_limiter now r w :
  if offers r then
    ss_credentials S (serve_at now r w).1 = (RateLimit.Allow now (client r) (ss_credentials S w)).2 ∧
    ((RateLimit.Allow now (client r) (ss_credentials S w)).1.1 = false → rs_Status (serve_at now r w).2 = 429)
  else ss_credentials S (serve_at now r w).1 = ss_credentials S w.
Proof.
  unfold offers. destruct (String.eqb_spec (rq_Path r) connect_path) as [Hp|Hp]; cbn [andb].
  - assert (let m := mux ParseIP is_loopback net_contains SplitHostPort trustedProxies (verify now) h de sha256 binarySha256 cfg handoff now r w in
      ss_credentials S m.1 = (RateLimit.Allow now (client r) (ss_credentials S w)).2 ∧
      ((RateLimit.Allow now (client r) (ss_credentials S w)).1.1 = false → rs_Status m.2 = 429)) as Hm.
    { unfold mux. rewrite Hp. destruct (connect_route now) as [f ->]. unfold metered. rewrite extract_client.
      destruct (RateLimit.Allow now (client r) (ss_credentials S w)) as [[[|] victim] rl]; cbn [fst snd]; [|done]. split; [|done].
      unfold jwtRequired. repeat case_match; rewrite ?run_limiters; done. }
    unfold serve, CORSMiddleware. destruct (String.eqb (cfg_CORSOrigin cfg) ""); cbn [orb]; [done|]. destruct (String.eqb (rq_Method r) "OPTIONS"); cbn [negb]; [done|]. exact Hm.
  - assert (ss_credentials S (mux ParseIP is_loopback net_contains SplitHostPort trustedProxies (verify now) h de sha256 binarySha256 cfg handoff now r w).1 = ss_credentials S w) as Hm.
    { unfold mux. destruct (route_of _ _ _ _ _ _ _ _) as [[g f]|] eqn:Er; [|done]. destruct g; unfold localhostOnly, jwtRequired; repeat case_match; rewrite ?run_limiters; try done.
      all: by apply metered_only_connect in Er. }
    unfold serve, CORSMiddleware. destruct (String.eqb (cfg_CORSOrigin cfg) ""); [done|]. by destruct (String.eqb (rq_Method r) "OPTIONS").
Qed.

Lemma turns_accepted ip w script :
  let es := (RateLimit.exec (ss_credentials S w) (omap seen script)).1 in
  ∀ t win, (length (RateLimit.in_window win t (omap (passed ip) (server_turns w script))) ≤ length (RateLimit.in_window win t (RateLimit.accepted ip es)))%nat.
Proof.
  revert w. induction script as [|[now [r|]] script IH]; intros w es t win; [done| |].
  - subst es. cbn [server_turns server_turn omap list_omap seen]. pose proof (serve_limiter now r w) as Hl. destruct (serve_at now r w) as [w1 resp]. cbn [fst snd] in Hl. specialize (IH w1 t win).
    cbn [omap list_omap passed]. destruct (offers r) eqn:Eo; cbn [andb]; [|by rewrite Hl in IH].
    destruct Hl as [Hl Hno]. rewrite Hl in IH. cbn [RateLimit.exec RateLimit.exec1]. destruct (RateLimit.Allow now (client r) (ss_credentials S w)) as [[ok victim] rl]. cbn [fst snd] in *.
    destruct (RateLimit.exec rl (omap seen script)) as [es rl']. cbn [fst] in *. unfold RateLimit.accepted in *. cbn [omap list_omap].
    destruct ok; [|rewrite Hno by done; rewrite andb_false_r; done]. destruct (String.eqb_spec (client r) ip) as [->|Hne]; cbn [andb]; [|by rewrite decide_False].
    rewrite decide_True by done. unfold RateLimit.in_window in *. destruct (negb _); rewrite ?filter_cons; case_decide; cbn [length]; lia.
  - subst es. cbn [server_turns server_turn omap list_omap seen passed]. specialize (IH (mkState S (ss_services S w) (ss_jobs S w) (RateLimit.cleanup now (ss_credentials S w)) (RateLimit.cleanup now (ss_attestation S w))) t win).
    cbn [RateLimit.exec RateLimit.exec1 ss_credentials] in *. destruct (RateLimit.exec (RateLimit.cleanup now (ss_credentials S w)) (omap seen script)) as [es rl']. exact IH.
Qed.

Lemma seen_time a b : seen a = Some b → b.1 = a.1.
Proof. destruct a as [now [r|]]; cbn; [destruct (offers r); [|done]|]; by intros [= <-]. Qed.

Lemma seen_sorted script : StronglySorted Z.le (fst <$> script) → StronglySorted Z.le (map fst (omap seen script)).
Proof.
  induction script as [|a script IH]; intros Hs; [constructor|]. cbn [fmap list_fmap] in Hs. apply StronglySorted_inv in Hs as [Hs Hall]. cbn [omap list_omap].
  destruct (seen a) as [b|] eqn:Ea; [|by apply IH]. cbn [map]. constructor; [by apply IH|]. rewrite (seen_time _ _ Ea). clear IH Hs Ea.
  induction script as [|c script IH]; [constructor|]. cbn [fmap list_fmap] in Hall. apply Forall_cons in Hall as [Hc Hall]. cbn [omap list_omap].
  destruct (seen c) as [d|] eqn:Ec; [|by apply IH]. cbn [map]. constructor; [|by apply IH]. by rewrite (seen_time _ _ Ec).
Qed.

(** C16: credentials cannot be guessed in bulk.  However requests, routes and sweeps of the limiters interleave, at most five
    offers of credentials by one client get past the limiter in any fifteen minutes.  The client is the host of the TCP
    peer, whatever headers it sends, unless the peer lies in a configured block of proxies: then it is the first entry of
    X-Forwarded-For, or X-Real-IP.  Excepted is a run in which, at some request, ten thousand other clients have offered
    credentials in the fifteen minutes before the limiter's last sweep or since it: the limiter remembers no more. *)
Theorem connect_attempts_bounded st script ip t :
  StronglySorted Z.le (fst <$> script) → ¬ RateLimit.crowded (15 * Minute) ip [] (omap seen script) →
  Z.of_nat (length (RateLimit.in_window (15 * Minute) t (omap (passed ip) (server_turns (initial st) script)))) ≤ 5.
Proof.
  intros Hs Hc. etrans; [apply Nat2Z.inj_le, turns_accepted|]. cbn [initial ss_credentials].
  assert (RateLimit.kept ip (RateLimit.exec (RateLimit.NewIPRateLimiter 5 (15 * Minute)) (omap seen script)).1) as Hk.
  { apply (RateLimit.uncrowded_kept ip _ []); [done|apply RateLimit.NewIPRateLimiter_wf| |exact Hc]. intros a times t' Ha. cbn in Ha. by rewrite lookup_empty in Ha. }
  destruct (RateLimit.run_times (RateLimit.NewIPRateLimiter 5 (15 * Minute)) (RateLimit.exec (RateLimit.NewIPRateLimiter 5 (15 * Minute)) (omap seen script)).1
    (RateLimit.exec (RateLimit.NewIPRateLimiter 5 (15 * Minute)) (omap seen script)).2 ip) as [_ Hw];
    [done|apply RateLimit.NewIPRateLimiter_wf|done| |exact Hk|exact (Hw t)].
  by apply RateLimit.exec_run, seen_sorted.
Qed.

End attempts.

(** ** A server *)

(** It keeps the requests [Create] was given. *)
Definition toy_state : Type := list Connect.CreateConnectionRequest.
Definition toy_create (st : toy_state) (q : Connect.CreateConnectionRequest) : toy_state * option error := (q :: st, None).

Definition toy_handler : Handler (F := float64) toy_state :=
  mkHandler _ (Some (mkConnectionOps _ toy_create (λ _ _, inl ∅))) None None None None None (Some "AA:BB") None (Some (λ _ _ _, Some "sealed")).

(** Every body is an envelope that names another user. *)
Definition toy_decoders : decoders :=
  mkDecoders (λ _, None) (λ _, Some (mkConnectBody "user_victim0000" "ibkr" "main" (Some (mkEncrypted "pem" "00" "6b" "00")) false false))
    (λ s, if String.eqb s "sealed" then Some (mkPlain "key" (Some "secret") None) else None) (λ _, None) (λ _, None) (λ _, None) (λ _, None).

Definition toy_config : Config := mkConfig true false "" true "k" false.

Definition toy_request (authorization : string) : request := mkRequest "POST" connect_path "203.0.113.9" authorization "" "" "" (λ _, "") "".

Definition toy_verify (now : time) : string → token_error + Claims := GrpcSafe.checks GrpcSafe.toy_hmac GrpcSafe.toy_header_of GrpcSafe.toy_claims_of now "k" "bff".

Definition toy_serve (h : Handler (F := float64) toy_state) (de : decoders) (r : request) (w : state toy_state) : state toy_state * response (F := float64) :=
  serve (IP := string) (IPNet := string) Some (String.eqb "127.0.0.1") (λ _ _, false) (λ _, None) [] (toy_verify 0) h de (λ s, s) "" toy_config None 0 r w.

Lemma toy_bearer tok : rq_Authorization (toy_request ("Bearer " +:+ GrpcSafe.toy_token)) = "Bearer " +:+ tok → unforged GrpcSafe.toy_hmac (cfg_jwtSecret toy_config) [("H", "P")] tok.
Proof. intros E. apply (GrpcSafe.toy_unforged tok []). by rewrite <- E. Qed.

(** The connection is made for the subject of the token, and would be under any name. *)
Lemma http_acts_for_token_subject_witness :
  let out := toy_serve toy_handler toy_decoders (toy_request ("Bearer " +:+ GrpcSafe.toy_token)) (initial []) in
  (Connect.rq_UserUID <$> ss_services _ out.1) = ["user_0123456789"] ∧
  toy_serve toy_handler (rename "user_other00000" toy_decoders) (requery "user_other00000" (toy_request ("Bearer " +:+ GrpcSafe.toy_token))) (initial []) = out.
Proof.
  intros out. split; [vm_compute; reflexivity|]. subst out.
  destruct (toy_serve toy_handler toy_decoders (toy_request ("Bearer " +:+ GrpcSafe.toy_token)) (initial [])) as [w' resp] eqn:E.
  apply (http_acts_for_token_subject (IP := string) (IPNet := string) toy_handler (λ s, s) "" toy_config None Some (String.eqb "127.0.0.1") (λ _ _, false) (λ _, None) []
    GrpcSafe.toy_hmac GrpcSafe.toy_header_of GrpcSafe.toy_claims_of "bff" [("H", "P")] toy_decoders 0 (toy_request ("Bearer " +:+ GrpcSafe.toy_token)) (initial []) w' resp toy_bearer ltac:(discriminate) E).
  - intros H. apply list_elem_of_In in H. vm_compute in H. repeat (destruct H as [H|H]; [discriminate H|]). exact H.
  - discriminate.
Defined.

(** A [Create] that refuses everything but the sealed key. *)
Definition picky_create (st : toy_state) (q : Connect.CreateConnectionRequest) : toy_state * option error :=
  if String.eqb (Connect.rq_APIKey q) "key" then (q :: st, None) else (st, Some (mkError "refused" (λ _, false))).

Lemma only_sealed_credentials_witness :
  length (ss_services _ (toy_serve (with_create toy_handler picky_create) toy_decoders (toy_request ("Bearer " +:+ GrpcSafe.toy_token)) (initial [])).1) = 1%nat.
Proof.
  unfold toy_serve.
  rewrite (only_sealed_credentials toy_handler (λ s, s) "" toy_config None picky_create (IP := string) (IPNet := string) Some (String.eqb "127.0.0.1") (λ _ _, false) (λ _, None) [] (toy_verify 0)
    toy_decoders 0 (toy_request ("Bearer " +:+ GrpcSafe.toy_token)) (initial []) eq_refl).
  - vm_compute. reflexivity.
  - intros co [= <-] st q (_ & decrypt & b & e & [= <-] & [= <-] & [= <-] & Ho). destruct q. vm_compute in Ho. injection Ho as <- <- <-. reflexivity.
Defined.

Definition toy_script : list (time * option request) := (λ n, (Z.of_nat n * Minute, Some (toy_request ""))) <$> seq 0 8.

Lemma connect_attempts_bounded_witness :
  let l := omap (passed toy_config (IP := string) (IPNet := string) Some (λ _ _, false) (λ _, None) [] "203.0.113.9")
             (server_turns (IP := string) (IPNet := string) toy_handler toy_decoders (λ s, s) "" toy_config None Some (String.eqb "127.0.0.1") (λ _ _, false) (λ _, None) [] toy_verify (initial []) toy_script) in
  length l = 5%nat ∧ Z.of_nat (length (RateLimit.in_window (15 * Minute) (8 * Minute) l)) ≤ 5.
Proof.
  intros l. split; [vm_compute; reflexivity|].
  apply (connect_attempts_bounded (IP := string) (IPNet := string) toy_handler toy_decoders (λ s, s) "" toy_config None Some (String.eqb "127.0.0.1") (λ _ _, false) (λ _, None) [] toy_verify [] toy_script "203.0.113.9" (8 * Minute)).
  - vm_compute. repeat constructor; discriminate.
  - intros H%RateLimit.crowded_long. apply Nat2Z.inj_le in H. revert H. unfold RateLimit.maxRateLimiterEntries. rewrite N_nat_Z. vm_compute. intros H. by apply H.
Defined.

End HttpSafe.
