(* ===== verification/Redact.v ===== *)
(** * Redaction of logs (internal/logredact/redact.go)

    Every regular expression of the file is a sequence of character classes,
    some repeated, in which no class that may be repeated shares a character
    with what can follow it: matching one is a walk without backtracking
    ([run]).  A text is its bytes, and case is folded on ASCII letters: the
    two other code points Go folds to one (U+017F and U+212A) are not. *)

From S2P Require Import Prelude GoText.
From stdpp Require Import base strings tactics list.
From Stdlib Require Import ZArith Ascii Lia.
Local Open Scope Z_scope.

Module Redact.

(** ** Regular expressions *)

(** [Blank] is a white space, [Query] a question mark or an ampersand, [Url]
    anything but white space, an ampersand, a quote or a backslash, and [B64] a
    letter, a digit or one of [+/=._-]; a literal matches either case. *)
Inductive class := Lit (c : ascii) | Blank | Url | B64 | Query.
Inductive item := One (k : class) | Star (k : class) | Plus (k : class).

#[global] Instance class_eq_dec : EqDecision class.
Proof. solve_decision. Defined.
#[global] Instance item_eq_dec : EqDecision item.
Proof. solve_decision. Defined.

Definition among (l : list N) (c : ascii) : bool := existsb (N.eqb (N_of_ascii c)) l.
Definition between (a b : N) (c : ascii) : bool := (N.leb a (N_of_ascii c) && N.leb (N_of_ascii c) b)%bool.

Definition is_alnum (c : ascii) : bool := between 48 57 c || between 65 90 c || between 97 122 c.
(** tab, newline, form feed, carriage return, space *)
Definition is_blank (c : ascii) : bool := among [9; 10; 12; 13; 32]%N c.

Definition accepts (k : class) (c : ascii) : bool :=
  match k with
  | Lit x => Ascii.eqb (lower_ascii c) (lower_ascii x)
  | Blank => is_blank c
  | Url => negb (is_blank c || among [38; 34; 39; 92]%N c)
  | B64 => is_alnum c || among [43; 47; 61; 46; 95; 45]%N c
  | Query => among [63; 38]%N c
  end.

(** What is left to match once [c] is read. *)
Fixpoint step (l : list item) (c : ascii) : option (list item) :=
  match l with
  | [] => None
  | One k :: l' => if accepts k c then Some l' else None
  | Star k :: l' => if accepts k c then Some l else step l' c
  | Plus k :: l' => if accepts k c then Some (Star k :: l') else None
  end.

Definition nullable (l : list item) : bool := forallb (λ i, match i with Star _ => true | _ => false end) l.

(** The text after the match at the start of [s]. *)
Fixpoint run (l : list item) (s : string) : option string :=
  match s with
  | EmptyString => if nullable l then Some s else None
  | String c s' => match step l c with Some l' => run l' s' | None => if nullable l then Some s else None end
  end.

Definition redacted : string := "[REDACTED]".

(** [re.ReplaceAllString(s, redacted)]: [skip] bytes belong to the match just
    replaced. *)
Fixpoint replace_all (re : list item) (skip : nat) (s : string) : string :=
  match s with
  | EmptyString => EmptyString
  | String c s' =>
      match skip with
      | S n => replace_all re n s'
      | O => match run re s with
             | Some rest => redacted +:+ replace_all re (String.length s' - String.length rest) s'
             | None => String c (replace_all re 0 s')
             end
      end
  end.

Definition lits (s : string) : list item := (One ∘ Lit) <$> String.list_ascii_of_string s.

Definition valueScrubRegexes : list (list item) :=
  [ lits "signature=" ++ [Plus Url];
    lits "accesskeyid=" ++ [Plus Url];
    lits "client_secret=" ++ [Plus Url];
    lits "Authorization:" ++ [Star Blank] ++ lits "Basic" ++ [Plus Blank; Plus B64];
    One Query :: lits "t=" ++ [Plus Url] ].

Definition scrubSensitiveSubstrings (s : string) : string :=
  fold_left (λ s re, replace_all re 0 s) valueScrubRegexes s.

(** ** Names and values *)

Definition tier1Prefixes : list string :=
  [ "api_key"; "api_secret"; "apikey"; "apisecret"; "access_key"; "secret_key"; "access_token"; "refresh_token";
    "password"; "passwd"; "pwd"; "token"; "bearer"; "jwt"; "encryption_key"; "private_key"; "secret";
    "authorization"; "credentials"; "passphrase"; "encrypted"; "ciphertext"; "auth_tag"; "hmac"; "dek" ].

Definition tier1Contains : list string := ["signature"].

Definition tier2Prefixes : list string :=
  [ "user_uid"; "user_id"; "account_id"; "customer_id"; "uid"; "exchange"; "broker";
    "balance"; "equity"; "amount"; "price"; "total_equity"; "total_balance"; "total_return"; "annualized";
    "pnl"; "profit"; "loss"; "fee"; "commission"; "deposit"; "withdrawal"; "margin"; "collateral";
    "cash"; "stock"; "commodit"; "unrealized"; "realized"; "liquidation"; "accrual";
    "sharpe"; "sortino"; "calmar"; "volatility"; "drawdown"; "var_"; "nav"; "aum";
    "trade"; "position"; "order"; "quantity"; "synced"; "wallet" ].

Definition tier2Exact : list string :=
  ["name"; "email"; "phone"; "address"; "ssn"; "tax_id"; "size"; "volume"; "count"; "label"].

Definition safeFields : list string :=
  [ "level"; "ts"; "caller"; "msg"; "method"; "path"; "duration"; "port"; "mode"; "status"; "version"; "env"; "policy";
    "error"; "stacktrace"; "dir"; "hint"; "table"; "column"; "next_sync_in"; "next_sync_at"; "grpc_port"; "rest_port";
    "database"; "tls"; "e2e"; "attestation"; "log_stream"; "metrics"; "algorithm"; "fingerprint"; "hardware_key";
    "master_key_id"; "https"; "legacy_rest"; "addr"; "cert_path"; "key_path"; "service"; "scope"; "vmlock" ].

Definition shouldRedact (field : string) : bool :=
  let lower := ToLower field in
  if existsb (String.eqb lower) safeFields then false
  else existsb (HasPrefix lower) tier1Prefixes || existsb (Contains lower) tier1Contains
       || existsb (HasPrefix lower) tier2Prefixes || existsb (String.eqb lower) tier2Exact.

Definition containsSensitiveValue (val : string) : bool :=
  let lower := ToLower val in
  existsb (λ p, Contains lower (p +:+ "=") || Contains lower (p +:+ ":")) tier1Prefixes.

Definition maskValue (val : string) : string :=
  let scrubbed := scrubSensitiveSubstrings val in
  if containsSensitiveValue scrubbed then redacted else scrubbed.

(** [strings.ContainsAny(s, "=:/")] *)
Definition contains_any (l : list N) (s : string) : bool := existsb (among l) (String.list_ascii_of_string s).

Definition scrubMessage (msg : string) : string :=
  if negb (contains_any [61; 58; 47]%N msg) then msg
  else
    let lower := ToLower msg in
    if Contains lower "postgresql://" || Contains lower "postgres://" then redacted
    else
      let scrubbed := scrubSensitiveSubstrings msg in
      let scrubbedLower := ToLower scrubbed in
      if existsb (Contains scrubbedLower) tier1Prefixes then redacted else scrubbed.

(** ** Fields of a log line *)

(** The zap field types the sources name; [OtherType] is any other. *)
Inductive field_type :=
| StringType | BoolType | Int8Type | Int16Type | Int32Type | Int64Type | Uint8Type | Uint16Type | Uint32Type | Uint64Type
| Float32Type | Float64Type | DurationType | ErrorType | ReflectType | OtherType.

(** A value of interface type as these packages use it: the text of its
    [Error] method when it is a non-nil error, and what [json.Marshal] makes of it. *)
Record iface := mkIface { if_error : option string; if_json : option string }.

Record field := mkField { f_Key : string; f_Type : field_type; f_Integer : Z; f_String : string; f_Interface : iface }.

Definition no_iface : iface := mkIface None (Some "null").
Definition string_field (key s : string) : field := mkField key StringType 0 s no_iface.

Definition mask_text (f : field) (raw : string) : field :=
  let masked := maskValue raw in
  if String.eqb masked raw then f else string_field (f_Key f) masked.

Definition maskFieldValue (f : field) : field :=
  match f_Type f with
  | StringType => mask_text f (f_String f)
  | ErrorType => match if_error (f_Interface f) with None => f | Some raw => mask_text f raw end
  | ReflectType => match if_json (f_Interface f) with None => string_field (f_Key f) redacted | Some text => mask_text f text end
  | _ => f
  end.

Definition redact_field (f : field) : field :=
  if shouldRedact (f_Key f) then string_field (f_Key f) redacted else maskFieldValue f.

Definition redactFields (fields : list field) : list field := redact_field <$> fields.

(** ** The core *)

Record caller := mkCaller { c_Defined : bool; c_File : string; c_Line : Z }.
Record entry := mkEntry { e_Level : Z; e_Time : Z; e_Message : string; e_Caller : caller; e_Stack : string }.

Definition with_message (m : string) (e : entry) : entry := mkEntry (e_Level e) (e_Time e) m (e_Caller e) (e_Stack e).

(** A zap core over a state [S] (what it has written), in a context [C] (the
    fields [With] has accumulated); [Write] returns whether it succeeded. *)
Record core (C S : Type) := mkCore {
  co_Enabled : C → Z → bool;
  co_With : C → list field → C;
  co_Write : C → entry → list field → S → bool * S;
}.
Arguments mkCore {C S} _ _ _.
Arguments co_Enabled {C S} _.
Arguments co_With {C S} _.
Arguments co_Write {C S} _.

Definition redact_Write {C S} (next : core C S) (c : C) (e : entry) (fields : list field) (s : S) : bool * S :=
  co_Write next c (with_message (scrubMessage (e_Message e)) e) (redactFields fields) s.

Definition NewRedactCore {C S} (next : core C S) : core C S :=
  mkCore (co_Enabled next) (λ c fields, co_With next c (redactFields fields)) (redact_Write next).

(** A line given to a logger on this core: [Check], then [Write]. *)
Definition log {C S} (k : core C S) (c : C) (e : entry) (fields : list field) (s : S) : S :=
  if co_Enabled k c (e_Level e) then (co_Write k c e fields s).2 else s.

(** ** Trials *)

Example scrub_flex :
  scrubSensitiveSubstrings "Get https://host/Send?q=99&t=TOKEN12&v=3: dial" = "Get https://host/Send?q=99[REDACTED]&v=3: dial".
Proof. vm_compute. reflexivity. Qed.
Example scrub_basic :
  scrubMessage "refresh failed: authorization:  BASIC dXNlcjpw== x" = "refresh failed: [REDACTED] x".
Proof. vm_compute. reflexivity. Qed.
Example scrub_other : scrubMessage "https://example.test/x?account=A1&at=keepme" = "https://example.test/x?account=A1&at=keepme".
Proof. vm_compute. reflexivity. Qed.
Example scrub_tier1 : scrubMessage "password was=x" = redacted.
Proof. vm_compute. reflexivity. Qed.

(** A value logged as JSON: a quote stands between a name and its colon, and an
    ampersand is written [\u0026], so neither a field named after a credential
    nor a query parameter [t] that is not the first is found. *)
Definition quoted (s : string) : string := String (Ascii.ascii_of_N 34) (s +:+ String (Ascii.ascii_of_N 34) "").
Definition json_field (key : string) (json : string) : field := mkField key ReflectType 0 "" (mkIface None (Some json)).

Example json_password_shown :
  let f := json_field "config" ("{" +:+ quoted "password" +:+ ":" +:+ quoted "hunter2" +:+ "}") in redact_field f = f.
Proof. vm_compute. reflexivity. Qed.

Example json_token_shown :
  let f := json_field "request" ("{" +:+ quoted "url" +:+ ":" +:+ quoted "https://h/Send?q=99\u0026t=TOKEN12" +:+ "}") in redact_field f = f.
Proof. vm_compute. reflexivity. Qed.

End Redact.
