(* ===== verification/RedactSafe.v ===== *)
(** * What the redaction hides

    A text with the value of a secret key in it is redacted to the same text
    whatever the value. *)

From S2P Require Import Prelude GoText Encoding Redact.
From stdpp Require Import base strings tactics list.
From Stdlib Require Import ZArith Ascii Lia.
Import Encoding Redact.
Local Open Scope Z_scope.

Module RedactSafe.

(** ** The characters of a value *)

Definition value_char (c : ascii) : bool := is_alnum c || among [43; 47; 46; 95; 45]%N c.
Definition key_char (c : ascii) : bool := value_char c || accepts Query c.
(** neither in a value nor a sign that ties it to what follows *)
Definition sign (c : ascii) : bool := among [58; 61]%N c.
Definition stop_char (c : ascii) : bool := negb (value_char c || sign c).

Lemma all_chars_cons P c s : all_chars P (String c s) = P c && all_chars P s.
Proof. done. Qed.

Definition stops (b : string) : bool := match b with EmptyString => true | String c _ => stop_char c end.

(** ** The states of the five walks *)

Fixpoint tails (l : list item) : list (list item) :=
  match l with
  | [] => []
  | i :: l' => l :: (match i with Plus k => [Star k :: l'] | _ => [] end) ++ tails l'
  end.

Definition states : list (list item) := valueScrubRegexes ≫= tails.

(** Only the value is left to read, and the walk once it is being read. *)
Definition ready (l : list item) : bool :=
  match l with [Plus Url] | [Plus B64] | [Star Url] | [Star B64] | [Star Blank; Plus B64] => true | _ => false end.

Definition eating (l : list item) : list item := match l with [Plus Url] | [Star Url] => [Star Url] | _ => [Star B64] end.

Definition all_ascii : list ascii := Ascii.ascii_of_nat <$> seq 0 256.

Lemma all_ascii_elem c : c ∈ all_ascii.
Proof.
  apply list_elem_of_fmap. exists (Ascii.nat_of_ascii c). split; [by rewrite Ascii.ascii_nat_embedding|].
  apply elem_of_seq. pose proof (Ascii.nat_ascii_bounded c). lia.
Qed.

(** What each walk does with each character, by evaluation. *)
Definition walk_ok (l : list item) (c : ascii) : bool :=
  let inner := key_char c || Ascii.eqb c "=" in
  match step l c with
  | Some l' =>
      bool_decide (l' ∈ states) && (negb (Ascii.eqb c "=") || ready l')
      && (if ready l then negb inner || bool_decide (l' = eating l) else negb (key_char c) || negb (ready l'))
  | None => negb (ready l && (value_char c || Ascii.eqb c "="))
  end && (negb (nullable l) || ready l).

Lemma walks_ok : forallb (λ l, forallb (walk_ok l) all_ascii) states = true.
Proof. vm_compute. reflexivity. Qed.

Lemma walk_ok_all l c : l ∈ states → walk_ok l c = true.
Proof.
  intros Hl. pose proof walks_ok as H. rewrite forallb_forall in H. specialize (H l). rewrite forallb_forall in H.
  apply H; apply list_elem_of_In; [done|apply all_ascii_elem].
Qed.

Section walk.
Context (l : list item) (c : ascii) (Hl : l ∈ states).

Ltac walk := pose proof (walk_ok_all l c Hl) as H; unfold walk_ok in H; apply andb_true_iff in H as [H Hn].

Lemma step_state l' : step l c = Some l' → l' ∈ states.
Proof. intros E. walk. rewrite E in H. apply andb_true_iff in H as [[H _]%andb_true_iff _]. by apply bool_decide_eq_true in H. Qed.

Lemma step_equals l' : c = "="%char → step l c = Some l' → ready l' = true.
Proof. intros Ec E. walk. rewrite E, Ec in H. apply andb_true_iff in H as [[_ H]%andb_true_iff _]. done. Qed.

Lemma step_ready l' : ready l = true → (key_char c || Ascii.eqb c "=") = true → step l c = Some l' → l' = eating l.
Proof. intros Hr Hc E. walk. rewrite E, Hr, Hc in H. apply andb_true_iff in H as [_ H]. by apply bool_decide_eq_true in H. Qed.

Lemma step_unready l' : ready l = false → key_char c = true → step l c = Some l' → ready l' = false.
Proof. intros Hr Hc E. walk. rewrite E, Hr, Hc in H. apply andb_true_iff in H as [_ H]. by apply negb_true_iff in H. Qed.

Lemma step_value : ready l = true → (value_char c || Ascii.eqb c "=") = true → step l c = Some (eating l).
Proof.
  intros Hr Hc. destruct (step l c) as [l'|] eqn:E.
  - f_equal. apply step_ready; [done| |done]. unfold key_char. destruct (value_char c); [done|]. cbn in Hc. rewrite Hc. apply orb_true_r.
  - walk. rewrite E, Hr, Hc in H. done.
Qed.

Lemma unready_open : ready l = false → nullable l = false.
Proof. intros Hr. walk. rewrite Hr, orb_false_r in Hn. by apply negb_true_iff in Hn. Qed.

End walk.

Lemma eating_ready l : ready l = true → ready (eating l) = true ∧ eating (eating l) = eating l.
Proof. by destruct l as [|[] [|[] []]]; try destruct k; try destruct k0. Qed.

(** ** A match across the value *)

Definition inner_char (c : ascii) : bool := value_char c || Ascii.eqb c "=".

Lemma run_eating l s b :
  l ∈ states → ready l = true → all_chars inner_char s = true → s ≠ "" → run l (s +:+ b) = run (eating l) b.
Proof.
  revert l. induction s as [|c s IH]; intros l Hl Hr Hs Hne; [done|]. rewrite all_chars_cons in Hs. apply andb_true_iff in Hs as [Hc Hs].
  rewrite string_app_cons. cbn [run]. pose proof (step_value l c Hl Hr Hc) as E. rewrite E. destruct (eating_ready l Hr) as [Hr' Ee].
  destruct s as [|c' s]; [done|]. rewrite IH; [by rewrite Ee|by eapply step_state|done..].
Qed.

(** *** Facts about single characters, by evaluation *)

Definition char_checks (c : ascii) : bool :=
  Bool.eqb (value_char (lower_ascii c)) (value_char c) && Bool.eqb (sign (lower_ascii c)) (sign c)
  && negb (value_char c && (sign c || accepts Query c)).

Lemma char_checked c : char_checks c = true.
Proof.
  assert (forallb char_checks all_ascii = true) as H by (vm_compute; reflexivity). rewrite forallb_forall in H.
  apply H, list_elem_of_In, all_ascii_elem.
Qed.

Lemma folded_kind c x : lower_ascii c = lower_ascii x → value_char c = value_char x ∧ sign c = sign x.
Proof.
  intros E. pose proof (char_checked c) as Hc. pose proof (char_checked x) as Hx. unfold char_checks in *. rewrite E in Hc.
  apply andb_true_iff in Hc as [[Hc1%Bool.eqb_prop Hc2%Bool.eqb_prop]%andb_true_iff _].
  apply andb_true_iff in Hx as [[Hx1%Bool.eqb_prop Hx2%Bool.eqb_prop]%andb_true_iff _]. split; congruence.
Qed.

Lemma value_char_plain c : value_char c = true → sign c = false ∧ accepts Query c = false.
Proof.
  intros E. pose proof (char_checked c) as Hc. unfold char_checks in Hc. apply andb_true_iff in Hc as [_ Hc]. rewrite E in Hc.
  by destruct (sign c), (accepts Query c).
Qed.

(** The walks that start with a word and a sign cannot begin in a value. *)
Fixpoint worded (l : list item) : bool :=
  match l with One (Lit x) :: l' => sign x || (value_char x && worded l') | _ => false end.

Lemma run_literal x l c s : run (One (Lit x) :: l) (String c s) = if Ascii.eqb (lower_ascii c) (lower_ascii x) then run l s else None.
Proof. cbn. by destruct (Ascii.eqb _ _). Qed.

Lemma run_worded l v b : worded l = true → all_chars value_char v = true → stops b = true → run l (v +:+ b) = None.
Proof.
  revert v. induction l as [|i l IH]; intros v Hw Hv Hb; [done|]. destruct i as [k| |]; [|done..]. destruct k as [x| | | |]; [|done..]. cbn [worded] in Hw.
  destruct v as [|c v].
  - change ("" +:+ b) with b. destruct b as [|c b]; [done|]. rewrite run_literal. destruct (Ascii.eqb_spec (lower_ascii c) (lower_ascii x)) as [[Ev Es]%folded_kind|]; [|done].
    exfalso. cbn [stops] in Hb. unfold stop_char in Hb. rewrite Ev, Es in Hb. destruct (sign x), (value_char x); done.
  - rewrite string_app_cons, run_literal. apply andb_true_iff in Hv as [Hc Hv]. destruct (Ascii.eqb_spec (lower_ascii c) (lower_ascii x)) as [[Ev Es]%folded_kind|]; [|done].
    apply value_char_plain in Hc as [Hc _]. rewrite Es in Hc. rewrite Hc in Hw. apply andb_true_iff in Hw as [_ Hw]. by apply IH.
Qed.

Definition opens_late (re : list item) : bool := worded re || bool_decide (head re = Some (One Query)).

Lemma regexes_open_late : forallb opens_late valueScrubRegexes = true.
Proof. vm_compute. reflexivity. Qed.

Lemma run_in_value re c v b :
  re ∈ valueScrubRegexes → all_chars value_char (String c v) = true → stops b = true → run re (String c v +:+ b) = None.
Proof.
  intros Hre Hv Hb. pose proof regexes_open_late as H. rewrite forallb_forall in H. specialize (H re). rewrite <- list_elem_of_In in H. specialize (H Hre).
  apply orb_true_iff in H as [H|H]; [by apply run_worded|]. apply bool_decide_eq_true in H. destruct re as [|i re]; [done|]. injection H as ->.
  apply andb_true_iff in Hv as [Hc _]. apply value_char_plain in Hc as [_ Hc]. rewrite string_app_cons. cbn [run step]. by rewrite Hc.
Qed.

(** ** One pass over a text with a key and its value *)

Lemma run_suffix l s r : run l s = Some r → ∃ p, s = p +:+ r.
Proof.
  revert l. induction s as [|c s IH]; intros l; cbn.
  - destruct (nullable l); [|done]. intros [= <-]. by exists "".
  - destruct (step l c) as [l'|].
    + intros [p ->]%IH. by exists (String c p).
    + destruct (nullable l); [|done]. intros [= <-]. by exists "".
Qed.

Lemma string_sub_diag p r : (String.length (p +:+ r) - String.length r = String.length p)%nat.
Proof. rewrite string_length_app. lia. Qed.

Lemma replace_skip re p r : replace_all re (String.length p) (p +:+ r) = replace_all re 0 r.
Proof. induction p as [|c p IH]; [by destruct r|]. done. Qed.

Lemma regexes_closed : forallb (λ re, negb (nullable re) && negb (ready re) && bool_decide (re ∈ states)) valueScrubRegexes = true.
Proof. vm_compute. reflexivity. Qed.

Lemma regex_start re : re ∈ valueScrubRegexes → nullable re = false ∧ ready re = false ∧ re ∈ states.
Proof.
  intros Hre. pose proof regexes_closed as H. rewrite forallb_forall in H. specialize (H re). rewrite <- list_elem_of_In in H.
  apply H in Hre as [[?%negb_true_iff ?%negb_true_iff]%andb_true_iff ?%bool_decide_eq_true]%andb_true_iff. done.
Qed.

(** A match is replaced, and the pass goes on after it. *)
Lemma replace_match re c s r :
  re ∈ valueScrubRegexes → run re (String c s) = Some r →
  (∃ p, s = p +:+ r) ∧ replace_all re 0 (String c s) = redacted +:+ replace_all re 0 r.
Proof.
  intros Hre E. destruct (regex_start re Hre) as (Hn & _ & _). assert (∃ p, s = p +:+ r) as [p ->].
  - cbn in E. rewrite Hn in E. destruct (step re c) as [l'|]; [|done]. by eapply run_suffix.
  - split; [by exists p|]. cbn [replace_all]. rewrite E, string_sub_diag. by rewrite replace_skip.
Qed.

Lemma replace_none re c s : run re (String c s) = None → replace_all re 0 (String c s) = String c (replace_all re 0 s).
Proof. intros E. cbn [replace_all]. by rewrite E. Qed.

Lemma replace_value re v b :
  re ∈ valueScrubRegexes → all_chars value_char v = true → stops b = true → replace_all re 0 (v +:+ b) = v +:+ replace_all re 0 b.
Proof.
  intros Hre. induction v as [|c v IH]; intros Hv Hb; [done|]. pose proof (run_in_value re c v b Hre Hv Hb) as E. rewrite string_app_cons in E |- *.
  rewrite replace_none by done. apply andb_true_iff in Hv as [_ Hv]. by rewrite IH.
Qed.

Lemma replace_stops re b : stops b = true → stops (replace_all re 0 b) = true.
Proof. destruct b as [|c b]; [done|]. intros Hb. cbn [replace_all]. by destruct (run re _). Qed.

Lemma values_inner s : all_chars value_char s = true → all_chars inner_char s = true.
Proof. apply all_chars_impl. unfold inner_char. by intros c ->. Qed.

Lemma values_key s : all_chars value_char s = true → all_chars key_char s = true.
Proof. apply all_chars_impl. unfold key_char. by intros c ->. Qed.

Definition is_value (v : string) : bool := negb (String.eqb v "") && all_chars value_char v.

Lemma is_value_spec v : is_value v = true → v ≠ "" ∧ all_chars value_char v = true.
Proof. unfold is_value. rewrite andb_true_iff, negb_true_iff. intros [?%String.eqb_neq ?]. done. Qed.

Section key.
Context (q : ascii) (w v1 v2 : string).
Hypothesis Hq : key_char q = true.
Hypothesis Hw : all_chars value_char w = true.
Hypothesis Hv1 : is_value v1 = true.
Hypothesis Hv2 : is_value v2 = true.

Definition keyed (v b : string) : string := String q (w +:+ String "=" (v +:+ b)).

Lemma run_inner l s b : l ∈ states → ready l = true → all_chars value_char s = true → run l (s +:+ String "=" (v1 +:+ b)) = run l (s +:+ String "=" (v2 +:+ b)).
Proof.
  intros Hl Hr Hs. apply is_value_spec in Hv1 as [N1 C1], Hv2 as [N2 C2].
  change (String "=" (v1 +:+ b)) with (String "=" v1 +:+ b). change (String "=" (v2 +:+ b)) with (String "=" v2 +:+ b). rewrite !string_app_assoc.
  rewrite !run_eating; try done; try (by destruct s); rewrite all_chars_app, all_chars_cons, !andb_true_iff; repeat split; try done; by apply values_inner.
Qed.

(** From before the value, the walk ends the same way for both values. *)
Lemma run_unready l s b :
  l ∈ states → ready l = false → all_chars key_char s = true →
  run l (s +:+ String "=" (v1 +:+ b)) = run l (s +:+ String "=" (v2 +:+ b)).
Proof.
  revert l. induction s as [|c s IH]; intros l Hl Hr Hs.
  - change ("" +:+ ?x) with x. cbn [run]. rewrite (unready_open l "=") by done. destruct (step l "=") as [l'|] eqn:E; [|done].
    apply is_value_spec in Hv1 as [N1 C1], Hv2 as [N2 C2]. assert (l' ∈ states) by (by eapply step_state). assert (ready l' = true) by (by eapply (step_equals l "=")).
    rewrite !run_eating by auto using values_inner. done.
  - rewrite !string_app_cons. cbn [run]. rewrite (unready_open l c) by done. rewrite all_chars_cons, andb_true_iff in Hs. destruct Hs as [Hc Hs].
    destruct (step l c) as [l'|] eqn:E; [|done]. apply IH; [by eapply step_state|by eapply step_unready|done].
Qed.

Inductive outcome (b : string) : option string → option string → Prop :=
| same o : outcome b o o
| before y : outcome b (Some (y +:+ keyed v1 b)) (Some (y +:+ keyed v2 b)).

Lemma run_keyed l a b : l ∈ states → outcome b (run l (a +:+ keyed v1 b)) (run l (a +:+ keyed v2 b)).
Proof.
  revert l. induction a as [|c a IH]; intros l Hl.
  - change ("" +:+ ?x) with x. destruct (ready l) eqn:Hr.
    + unfold keyed at 1 2. cbn [run]. destruct (step l q) as [l'|] eqn:E.
      * rewrite run_inner; [constructor|by eapply step_state| |done]. erewrite (step_ready l q Hl l'); [by apply eating_ready|done| |done]. by rewrite Hq.
      * destruct (nullable l); [|constructor]. apply (before b "").
    + change (keyed ?v b) with (String q w +:+ String "=" (v +:+ b)). rewrite run_unready; [constructor|done|done|]. rewrite all_chars_cons, Hq. by apply values_key.
  - rewrite !string_app_cons. cbn [run]. destruct (step l c) as [l'|] eqn:E; [apply IH; by eapply step_state|].
    destruct (nullable l); [|constructor]. rewrite <- !string_app_cons. apply before.
Qed.

Section pass.
Context (re : list item) (Hre : re ∈ valueScrubRegexes) (b : string) (Hb : stops b = true).

(** From inside the key: the value goes, or the key stays whole. *)
Lemma replace_in_key s :
  all_chars key_char s = true →
  replace_all re 0 (s +:+ String "=" (v1 +:+ b)) = replace_all re 0 (s +:+ String "=" (v2 +:+ b))
  ∨ run re (s +:+ String "=" (v1 +:+ b)) = None
    ∧ replace_all re 0 (s +:+ String "=" (v1 +:+ b)) = s +:+ String "=" (v1 +:+ replace_all re 0 b)
    ∧ replace_all re 0 (s +:+ String "=" (v2 +:+ b)) = s +:+ String "=" (v2 +:+ replace_all re 0 b).
Proof.
  destruct (regex_start re Hre) as (_ & Hr & Hst). pose proof (is_value_spec _ Hv1) as [_ C1]. pose proof (is_value_spec _ Hv2) as [_ C2].
  induction s as [|c s IH]; intros Hs; pose proof (run_unready re _ b Hst Hr Hs) as E.
  - change ("" +:+ ?x) with x in *. destruct (run re (String "=" (v1 +:+ b))) as [r|] eqn:E1; symmetry in E.
    + left. apply replace_match in E1 as [_ ->], E as [_ ->]; done.
    + right. rewrite !replace_none, !replace_value by done. done.
  - rewrite !string_app_cons in *. rewrite all_chars_cons, andb_true_iff in Hs. destruct Hs as [_ Hs].
    destruct (run re (String c (s +:+ String "=" (v1 +:+ b)))) as [r|] eqn:E1; symmetry in E.
    + left. apply replace_match in E1 as [_ ->], E as [_ ->]; done.
    + rewrite !replace_none by done. destruct (IH Hs) as [->|(_ & -> & ->)]; [by left|by right].
Qed.

Lemma replace_keyed a :
  replace_all re 0 (a +:+ keyed v1 b) = replace_all re 0 (a +:+ keyed v2 b)
  ∨ run re (keyed v1 b) = None ∧ ∃ y, replace_all re 0 (a +:+ keyed v1 b) = y +:+ keyed v1 (replace_all re 0 b)
                                      ∧ replace_all re 0 (a +:+ keyed v2 b) = y +:+ keyed v2 (replace_all re 0 b).
Proof.
  destruct (regex_start re Hre) as (_ & Hr & Hst). remember (String.length a) as n eqn:En.
  revert a En. induction (lt_wf n) as [n _ IH]. intros [|c a] ->.
  - assert (all_chars key_char (String q w) = true) as Hk by (rewrite all_chars_cons, Hq; by apply values_key).
    destruct (replace_in_key (String q w) Hk) as [E|(E & H1 & H2)]; [by left|]. right. split; [done|]. by exists "".
  - rewrite !string_app_cons. pose proof (run_keyed re (String c a) b Hst) as Ho. rewrite !string_app_cons in Ho.
    destruct (run re (String c (a +:+ keyed v1 b))) as [r1|] eqn:E1, (run re (String c (a +:+ keyed v2 b))) as [r2|] eqn:E2; [|by inversion Ho..|].
    + apply replace_match in E1 as [[p Ep] ->], E2 as [_ ->]; [|done..]. inversion Ho as [o Eo|y Eo Ey]; subst; [by left|].
      assert (String.length y < String.length (String c a))%nat as Hl.
      { apply (f_equal String.length) in Ep. rewrite !string_length_app in Ep. cbn [String.length]. lia. }
      destruct (IH _ Hl y eq_refl) as [->|(E & y' & -> & ->)]; [by left|]. right. split; [done|].
      exists (redacted +:+ y'). by rewrite !string_app_assoc.
    + rewrite !replace_none by done. destruct (IH (String.length a) ltac:(cbn; lia) a eq_refl) as [->|(E & y & -> & ->)]; [by left|]. right. split; [done|].
      by exists (String c y).
Qed.

End pass.

(** A pass for this very key takes the value. *)
Definition own (re : list item) : Prop := ∀ b, run re (keyed v1 b) ≠ None.

Lemma scrub_keyed l a b :
  Forall (.∈ valueScrubRegexes) l → stops b = true →
  let scrub := fold_left (λ s re, replace_all re 0 s) l in
  scrub (a +:+ keyed v1 b) = scrub (a +:+ keyed v2 b)
  ∨ (∀ re, re ∈ l → ¬ own re) ∧ ∃ y b', stops b' = true ∧ scrub (a +:+ keyed v1 b) = y +:+ keyed v1 b' ∧ scrub (a +:+ keyed v2 b) = y +:+ keyed v2 b'.
Proof.
  revert a b. induction l as [|re l IH]; intros a b Hl Hb; cbn [fold_left].
  - right. split; [by intros re ?%not_elem_of_nil|]. by exists a, b.
  - apply Forall_cons in Hl as [Hre Hl]. destruct (replace_keyed re Hre b Hb a) as [->|(Hn & y & -> & ->)]; [by left|].
    destruct (IH y (replace_all re 0 b) Hl (replace_stops re b Hb)) as [->|(Ho & y' & b' & Hb' & E1 & E2)]; [by left|]. right. split; [|by exists y', b'].
    intros re' [->|Hin]%elem_of_cons; [|by apply Ho]. intros Hown. by apply (Hown b).
Qed.

End key.

(** ** The secret keys *)

Definition vendor_keys : list string := ["signature"; "accesskeyid"; "client_secret"; "?t"; "&t"].

(** The names of credentials, written out here: what must not be shown is
    not what the code happens to look for. *)
Definition credential_names : list string :=
  [ "api_key"; "api_secret"; "apikey"; "apisecret"; "access_key"; "secret_key"; "access_token"; "refresh_token";
    "password"; "passwd"; "pwd"; "token"; "bearer"; "jwt"; "encryption_key"; "private_key"; "secret";
    "authorization"; "credentials"; "passphrase"; "encrypted"; "ciphertext"; "auth_tag"; "hmac"; "dek" ].

(** Who the user is, what they own and what they trade. *)
Definition business_prefixes : list string :=
  [ "user_uid"; "user_id"; "account_id"; "customer_id"; "uid"; "exchange"; "broker"; "wallet";
    "balance"; "equity"; "amount"; "price"; "pnl"; "profit"; "loss"; "fee"; "commission"; "deposit"; "withdrawal";
    "margin"; "collateral"; "cash"; "unrealized"; "realized"; "nav"; "aum"; "trade"; "position"; "order"; "quantity" ].

Definition personal_names : list string := ["name"; "email"; "phone"; "address"; "ssn"; "tax_id"; "label"].

(** A field whose name says that its value is private. *)
Definition private_field (key : string) : bool :=
  let k := ToLower key in
  existsb (λ p, String.prefix p k) (credential_names ++ business_prefixes) || Contains k "signature" || existsb (String.eqb k) personal_names.

Lemma existsb_incl {A} (f : A → bool) l l' : incl l l' → existsb f l = true → existsb f l' = true.
Proof. intros Hl (x & Hx & Hf)%existsb_exists. apply existsb_exists. eauto. Qed.

(** No name on the safe list is private, so the list exempts none. *)
Lemma private_redacted key : private_field key = true → shouldRedact key = true.
Proof.
  unfold private_field, shouldRedact. cbn zeta. generalize (ToLower key) as k. intros k Hk. destruct (existsb (String.eqb k) safeFields) eqn:Es.
  - exfalso. apply existsb_exists in Es as (x & Hx & E%String.eqb_eq). subst x.
    assert (forallb (λ k, negb (existsb (λ p, String.prefix p k) (credential_names ++ business_prefixes) || Contains k "signature" || existsb (String.eqb k) personal_names)) safeFields = true) as H
      by (vm_compute; reflexivity).
    rewrite forallb_forall in H. apply H in Hx. by rewrite Hk in Hx.
  - assert (∀ a b c d, a = true ∨ b = true ∨ c = true ∨ d = true → a || b || c || d = true) as Hor by (intros [] [] [] [] [|[|[|]]]; done). apply Hor.
    apply orb_true_iff in Hk as [[Hk|Hk]%orb_true_iff|Hk].
    + rewrite existsb_app in Hk. apply orb_true_iff in Hk as [Hk|Hk]; [by left|right; right; left].
      revert Hk. apply existsb_incl. intros x Hx. apply list_elem_of_In. apply list_elem_of_In in Hx. revert x Hx. apply Forall_forall, (bool_decide_unpack _). vm_compute. exact I.
    + right; left. cbn [tier1Contains existsb]. by rewrite Hk.
    + right; right; right. revert Hk. apply existsb_incl. intros x Hx. apply list_elem_of_In. apply list_elem_of_In in Hx. revert x Hx. apply Forall_forall, (bool_decide_unpack _). vm_compute. exact I.
Qed.

Definition secret_name (name : string) : bool := existsb (String.eqb (ToLower name)) (vendor_keys ++ credential_names).

Lemma ToLower_app s t : ToLower (s +:+ t) = ToLower s +:+ ToLower t.
Proof. induction s as [|c s IH]; [done|]. rewrite string_app_cons. cbn [ToLower]. by rewrite IH. Qed.

Lemma values_lower s : all_chars value_char (ToLower s) = all_chars value_char s.
Proof.
  induction s as [|c s IH]; [done|]. cbn [ToLower]. rewrite !all_chars_cons, IH. f_equal. destruct (folded_kind (lower_ascii c) c) as [-> _]; [apply lower_ascii_idem|done].
Qed.

Lemma key_char_lower c : key_char (lower_ascii c) = key_char c.
Proof.
  assert (forallb (λ c, Bool.eqb (key_char (lower_ascii c)) (key_char c)) all_ascii = true) as H by (vm_compute; reflexivity).
  rewrite forallb_forall in H. apply Bool.eqb_prop, H, list_elem_of_In, all_ascii_elem.
Qed.

Definition well_named (p : string) : bool := match p with EmptyString => false | String q w => key_char q && all_chars value_char w end.

Lemma secret_name_shape name :
  secret_name name = true → ∃ q w, name = String q w ∧ key_char q = true ∧ all_chars value_char w = true.
Proof.
  intros (p & Hp & E%String.eqb_eq)%existsb_exists.
  assert (forallb well_named (vendor_keys ++ credential_names) = true) as H by (vm_compute; reflexivity). rewrite forallb_forall in H. apply H in Hp. rewrite <- E in Hp.
  destruct name as [|q w]; [done|]. exists q, w. split; [done|]. cbn [ToLower well_named] in Hp. rewrite key_char_lower, values_lower in Hp. by apply andb_true_iff in Hp.
Qed.

Lemma run_lits k l s t : ToLower s = ToLower k → run (lits k ++ l) (s +:+ t) = run l t.
Proof.
  revert s. induction k as [|x k IH]; intros [|c s]; [done..|]. cbn [ToLower]. intros [= Ec Es].
  change (lits (String x k) ++ l) with (One (Lit x) :: lits k ++ l). rewrite string_app_cons, run_literal, Ec, Ascii.eqb_refl. by apply IH.
Qed.

Lemma run_star k b : run [Star k] b ≠ None.
Proof. induction b as [|c b IH]; [done|]. cbn. destruct (accepts k c); [done|done]. Qed.

Lemma url_state : [Plus Url] ∈ states.
Proof. apply (bool_decide_unpack _). vm_compute. exact I. Qed.

Lemma run_value v b : is_value v = true → run [Plus Url] (v +:+ b) ≠ None.
Proof.
  intros [Hne Hv]%is_value_spec. rewrite run_eating; [apply run_star|apply url_state|done|by apply values_inner|done].
Qed.

(** ** Texts that differ in a secret only *)

Inductive secret_step : string → string → Prop :=
| secret_value a name v1 v2 b :
    secret_name name = true → is_value v1 = true → is_value v2 = true → stops b = true →
    secret_step (a +:+ name +:+ String "=" (v1 +:+ b)) (a +:+ name +:+ String "=" (v2 +:+ b)).

Lemma vendor_own q w v :
  ToLower (String q w) ∈ vendor_keys → is_value v = true → ∃ re, re ∈ valueScrubRegexes ∧ own q w v re.
Proof.
  intros Hk Hv. unfold own, keyed.
  assert (∀ k b, ToLower (String q w) = ToLower k → run (lits (k +:+ "=") ++ [Plus Url]) (String q (w +:+ String "=" (v +:+ b))) ≠ None) as Hlit.
  { intros k b E. change (String q (w +:+ String "=" (v +:+ b))) with (String q w +:+ String "=" "" +:+ (v +:+ b)). rewrite string_app_assoc, run_lits; [by apply run_value|].
    rewrite !ToLower_app. by rewrite E. }
  assert (∀ b, accepts Query q = true → ToLower w = "t" → run (One Query :: lits "t=" ++ [Plus Url]) (String q (w +:+ String "=" (v +:+ b))) ≠ None) as Hq.
  { intros b Hq E. cbn [run step]. rewrite Hq. change (String "=" (v +:+ b)) with (String "=" "" +:+ (v +:+ b)). rewrite string_app_assoc, run_lits; [by apply run_value|].
    rewrite ToLower_app. by rewrite E. }
  assert (∀ x, ToLower (String q w) = String x "t" → accepts Query x = true → accepts Query q = true ∧ ToLower w = "t") as Hx.
  { intros x [= Ex Ew] Hx. split; [|done]. assert (forallb (λ c, negb (accepts Query (lower_ascii c)) || accepts Query c) all_ascii = true) as H by (vm_compute; reflexivity).
    rewrite forallb_forall in H. specialize (H q (proj1 (list_elem_of_In _ _) (all_ascii_elem q))). rewrite Ex, Hx in H. done. }
  unfold vendor_keys in Hk. rewrite !elem_of_cons in Hk. destruct Hk as [E|[E|[E|[E|[E|Hn]]]]]; [..|by apply not_elem_of_nil in Hn].
  - eexists. split; [|intros b; apply (Hlit "signature" b E)]. by left.
  - eexists. split; [|intros b; apply (Hlit "accesskeyid" b E)]. right. by left.
  - eexists. split; [|intros b; apply (Hlit "client_secret" b E)]. do 2 right. by left.
  - apply Hx in E as [E1 E2]; [|done]. eexists. split; [|intros b; by apply Hq]. do 4 right. by left.
  - apply Hx in E as [E1 E2]; [|done]. eexists. split; [|intros b; by apply Hq]. do 4 right. by left.
Qed.

Lemma prefix_here p t : String.prefix p (p +:+ t) = true.
Proof. induction p as [|c p IH]; [by destruct t|]. rewrite string_app_cons. cbn [String.prefix]. by destruct (ascii_dec c c). Qed.

Lemma contains_prefix s p : String.prefix p s = true → Contains s p = true.
Proof. intros H. destruct s; cbn [Contains]; by rewrite H. Qed.

Lemma contains_mid a p t : Contains (a +:+ p +:+ t) p = true.
Proof.
  induction a as [|c a IH]; [apply contains_prefix; change ("" +:+ ?y) with y; apply prefix_here|]. rewrite string_app_cons. cbn [Contains]. rewrite IH. apply orb_true_r.
Qed.

Lemma contains_split s p : Contains s p = true → ∃ a t, s = a +:+ p +:+ t.
Proof.
  assert (∀ p s, String.prefix p s = true → ∃ t, s = p +:+ t) as Hp.
  { clear. induction p as [|c p IH]; intros s H; [by exists s|]. destruct s as [|d s]; [done|]. cbn [String.prefix] in H. destruct (ascii_dec c d) as [->|]; [|done].
    apply IH in H as [t ->]. by exists t. }
  induction s as [|c s IH]; cbn [Contains]; intros [H|H]%orb_true_iff; [|done|..].
  - apply Hp in H as [t ->]. by exists "", t.
  - apply Hp in H as [t ->]. by exists "", t.
  - apply IH in H as (a & t & ->). by exists (String c a), t.
Qed.

(** A character that is not in the pattern cuts the text in two. *)
Lemma prefix_cut p s c t : lacks c p = true → String.prefix p (s +:+ String c t) = String.prefix p s.
Proof.
  revert s. induction p as [|x p IH]; intros s H; [by destruct s|]. cbn [lacks] in H. apply andb_true_iff in H as [Hx H]. destruct s as [|d s].
  - change ("" +:+ ?y) with y. cbn [String.prefix]. destruct (ascii_dec x c) as [->|]; [|done]. by rewrite Ascii.eqb_refl in Hx.
  - rewrite string_app_cons. cbn [String.prefix]. destruct (ascii_dec x d); [by apply IH|done].
Qed.

Lemma contains_cut p s c t : p ≠ "" → lacks c p = true → Contains (s +:+ String c t) p = Contains s p || Contains t p.
Proof.
  intros Hp H. induction s as [|d s IH].
  - pose proof (prefix_cut p "" c t H) as E. change ("" +:+ ?y) with y in *. cbn [Contains]. rewrite E. by rewrite prefix_nil_false.
  - pose proof (prefix_cut p (String d s) c t H) as E. rewrite !string_app_cons in *. cbn [Contains]. rewrite IH, E. apply orb_assoc.
Qed.

Lemma contains_value p v : all_chars value_char p = false → all_chars value_char v = true → Contains v p = false.
Proof.
  intros Hp Hv. destruct (Contains v p) eqn:E; [|done]. apply contains_split in E as (a & t & ->). rewrite !all_chars_app in Hv.
  apply andb_true_iff in Hv as [_ [Hv _]%andb_true_iff]. congruence.
Qed.

(** Neither pattern of a connection string can span the value. *)
Lemma contains_secret p a name v b :
  p ≠ "" → all_chars (λ c, negb (stop_char c)) p = true → lacks "=" p = true → all_chars value_char p = false →
  is_value v = true → stops b = true →
  Contains (ToLower (a +:+ name +:+ String "=" (v +:+ b))) p = Contains (ToLower (a +:+ name)) p || Contains (ToLower b) p.
Proof.
  intros Hne Hp Heq Hc [_ Hv]%is_value_spec Hb. rewrite string_app_assoc, ToLower_app. change (ToLower (String "=" ?s)) with (String "=" (ToLower s)).
  rewrite contains_cut by done. f_equal. rewrite ToLower_app. pose proof (contains_value p (ToLower v) Hc ltac:(by rewrite values_lower)) as Ev.
  destruct b as [|d b]; [by rewrite string_app_nil_r, Ev; destruct p|]. cbn [ToLower].
  assert (lacks (lower_ascii d) p = true) as Hd.
  { cbn [stops] in Hb. clear -Hp Hb. induction p as [|c p IH]; [done|]. rewrite all_chars_cons in Hp. apply andb_true_iff in Hp as [Hc Hp]. cbn [lacks]. rewrite (IH Hp), andb_true_r.
    apply negb_true_iff, Ascii.eqb_neq. intros ->. destruct (folded_kind (lower_ascii d) d (lower_ascii_idem d)) as [E1 E2]. unfold stop_char in *. rewrite E1, E2 in Hc. by rewrite Hb in Hc. }
  rewrite contains_cut, Ev by done. pose proof (contains_cut p "" (lower_ascii d) (ToLower b) Hne Hd) as E. change ("" +:+ ?y) with y in E. rewrite E.
  cbn [Contains]. by rewrite prefix_nil_false.
Qed.

Lemma contains_any_mid l a s : contains_any l s = true → contains_any l (a +:+ s) = true.
Proof. intros H. induction a as [|c a IH]; [done|]. rewrite string_app_cons. unfold contains_any in *. cbn [String.list_ascii_of_string existsb]. rewrite IH. apply orb_true_r. Qed.

(** The scrubs agree on the two texts, or leave a tier-1 key in both. *)
Lemma scrub_step s1 s2 :
  secret_step s1 s2 →
  scrubSensitiveSubstrings s1 = scrubSensitiveSubstrings s2
  ∨ ∃ p, p ∈ credential_names ∧ ∀ s, s = s1 ∨ s = s2 → Contains (ToLower (scrubSensitiveSubstrings s)) (p +:+ "=") = true.
Proof.
  intros [a name v1 v2 b Hn H1 H2 Hb]. destruct (secret_name_shape name Hn) as (q & w & -> & Hq & Hw).
  destruct (scrub_keyed q w v1 v2 Hq Hw H1 H2 valueScrubRegexes a b ltac:(by apply Forall_forall) Hb) as [E|(Ho & y & b' & Hb' & E1 & E2)]; [by left|].
  unfold secret_name in Hn. apply existsb_exists in Hn as (p & Hp & E%String.eqb_eq). apply list_elem_of_In, elem_of_app in Hp as [Hp|Hp].
  { destruct (vendor_own q w v1) as (re & Hre & Hown); [by rewrite E|done|]. by destruct (Ho re Hre). }
  right. exists p. split; [done|]. assert (∀ v, Contains (ToLower (y +:+ keyed q w v b')) (p +:+ "=") = true) as Hc.
  { intros v. change (keyed q w v b') with (String q w +:+ "=" +:+ (v +:+ b')). rewrite !ToLower_app, E. rewrite (string_app_assoc p). apply contains_mid. }
  intros s [->| ->]; unfold scrubSensitiveSubstrings; change (String q w +:+ String "=" (?v +:+ b)) with (keyed q w v b); [rewrite E1|rewrite E2]; apply Hc.
Qed.

Lemma contains_longer s p t : Contains s (p +:+ t) = true → Contains s p = true.
Proof. intros (a & u & ->)%contains_split. rewrite <- (string_app_assoc p). apply contains_mid. Qed.

Lemma mask_step s1 s2 : secret_step s1 s2 → maskValue s1 = maskValue s2.
Proof.
  intros H. unfold maskValue. destruct (scrub_step s1 s2 H) as [->|(p & Hp & Hc)]; [done|].
  assert (∀ s, s = s1 ∨ s = s2 → containsSensitiveValue (scrubSensitiveSubstrings s) = true) as E; [|by rewrite !E by auto].
  intros s Hs. apply existsb_exists. exists p. split; [by apply list_elem_of_In|]. by rewrite (Hc s Hs).
Qed.

Lemma message_step s1 s2 : secret_step s1 s2 → scrubMessage s1 = scrubMessage s2.
Proof.
  intros H. assert (contains_any [61; 58; 47]%N s1 = true ∧ contains_any [61; 58; 47]%N s2 = true) as [E1 E2].
  { destruct H. rewrite !(string_app_assoc a name). by split; apply contains_any_mid. }
  unfold scrubMessage. rewrite E1, E2. cbn [negb].
  assert (∀ p, p ∈ ["postgresql://"; "postgres://"] → Contains (ToLower s1) p = Contains (ToLower s2) p) as Hpg.
  { intros p Hp. destruct H. rewrite !elem_of_cons in Hp. destruct Hp as [->|[->|[]%not_elem_of_nil]]; by rewrite !contains_secret by done. }
  rewrite !Hpg by (rewrite !elem_of_cons; auto). destruct (_ || _); [done|]. destruct (scrub_step s1 s2 H) as [->|(p & Hp & Hc)]; [done|].
  assert (∀ s, s = s1 ∨ s = s2 → existsb (Contains (ToLower (scrubSensitiveSubstrings s))) credential_names = true) as E; [|by rewrite !E by auto].
  intros s Hs. apply existsb_exists. exists p. split; [by apply list_elem_of_In|]. by eapply contains_longer, Hc.
Qed.

(** ** A secret always changes the value it is in *)

(** Where the second text first differs, it has the bracket of the mark. *)
Inductive marked : string → string → Prop :=
| mark_here c s t : c ≠ "["%char → marked (String c s) (String "[" t)
| mark_later c s t : marked s t → marked (String c s) (String c t).

Lemma bracket_starts_none re s : re ∈ valueScrubRegexes → run re (String "[" s) = None.
Proof.
  intros Hre. destruct (regex_start re Hre) as (Hn & _). cbn [run]. rewrite Hn.
  assert (forallb (λ re, bool_decide (step re "[" = None)) valueScrubRegexes = true) as H by (vm_compute; reflexivity).
  rewrite forallb_forall in H. apply list_elem_of_In, H, bool_decide_eq_true in Hre. by rewrite Hre.
Qed.

Lemma replace_marks re t : re ∈ valueScrubRegexes → replace_all re 0 t = t ∨ marked t (replace_all re 0 t).
Proof.
  intros Hre. induction t as [|c t IH]; [by left|]. destruct (run re (String c t)) as [r|] eqn:E.
  - right. destruct (replace_match re c t r Hre E) as [_ ->]. apply mark_here. intros ->. by rewrite bracket_starts_none in E.
  - rewrite replace_none by done. destruct IH as [->|IH]; [by left|right]. by apply mark_later.
Qed.

Lemma replace_marked re s t : re ∈ valueScrubRegexes → marked s t → marked s (replace_all re 0 t).
Proof.
  intros Hre. induction 1 as [c s t Hc|c s t _ IH].
  - rewrite replace_none by (by apply bracket_starts_none). by apply mark_here.
  - destruct (run re (String c t)) as [r|] eqn:E.
    + destruct (replace_match re c t r Hre E) as [_ ->]. apply mark_here. intros ->. by rewrite bracket_starts_none in E.
    + rewrite replace_none by done. by apply mark_later.
Qed.

Lemma scrub_marks s : scrubSensitiveSubstrings s = s ∨ marked s (scrubSensitiveSubstrings s).
Proof.
  unfold scrubSensitiveSubstrings. assert (Forall (.∈ valueScrubRegexes) valueScrubRegexes) as Hl by (by apply Forall_forall).
  assert (∀ l t, Forall (.∈ valueScrubRegexes) l → t = s ∨ marked s t → fold_left (λ s re, replace_all re 0 s) l t = s ∨ marked s (fold_left (λ s re, replace_all re 0 s) l t)) as H; [|by apply H; auto].
  clear Hl. induction l as [|re l IH]; intros t Hl Ht; [done|]. apply Forall_cons in Hl as [Hre Hl]. cbn [fold_left]. apply IH; [done|].
  destruct Ht as [->|Ht]; [by apply replace_marks|right; by apply replace_marked].
Qed.

Lemma marked_at p c s d t : c ≠ d → marked (p +:+ String c s) (p +:+ String d t) → d = "["%char.
Proof.
  intros Hcd. induction p as [|x p IH].
  - change ("" +:+ ?y) with y. inversion 1; subst; done.
  - rewrite !string_app_cons. inversion 1; subst; [done|auto].
Qed.

Lemma fresh_value c : ∃ d, d ≠ c ∧ is_value (String d "") = true.
Proof. destruct (ascii_dec c "a") as [->|]; [by exists "b"%char|by exists "a"%char]. Qed.

Lemma mask_changes s1 s2 : secret_step s1 s2 → maskValue s1 ≠ s1.
Proof.
  intros [a name v1 v2 b Hn H1 _ Hb]. destruct v1 as [|c v1]; [done|]. destruct (fresh_value c) as (d & Hd & Hv).
  set (s := a +:+ name +:+ String "=" (String c v1 +:+ b)). assert (secret_step (a +:+ name +:+ String "=" (String d "" +:+ b)) s) as H by (by constructor).
  apply mask_step in H. intros E. rewrite E in H. unfold maskValue in H. destruct (containsSensitiveValue _).
  - apply (f_equal (contains_any [61]%N)) in H. symmetry in H. unfold s in H. rewrite string_app_assoc, contains_any_mid in H by done. done.
  - assert (∀ x r, a +:+ name +:+ String "=" (String x r) = (a +:+ name +:+ "=") +:+ String x r) as Ea by (intros; by rewrite <- !string_app_assoc).
    assert (s = (a +:+ name +:+ "=") +:+ String c (v1 +:+ b)) as Es by apply Ea.
    change (String d "" +:+ b) with (String d b) in H. rewrite Ea, Es in H. destruct (scrub_marks ((a +:+ name +:+ "=") +:+ String d b)) as [Em|Em].
    + rewrite Em in H. apply string_app_inj_l in H as [_ H]; [|done]. by injection H.
    + rewrite H in Em. apply marked_at in Em; [|done]. subst c. done.
Qed.

(** ** Fields and lines that differ in secrets only *)

(** A field with a sensitive name may hold anything; in another, the text of a
    string, of an error or of a value as JSON may differ in a secret. *)
Inductive field_step : field → field → Prop :=
| named_field f g : f_Key f = f_Key g → private_field (f_Key f) = true → field_step f g
| text_field k i1 i2 s1 s2 x1 x2 :
    secret_step s1 s2 → field_step (mkField k StringType i1 s1 x1) (mkField k StringType i2 s2 x2)
| error_field k i1 i2 t1 t2 j1 j2 s1 s2 :
    secret_step s1 s2 → field_step (mkField k ErrorType i1 t1 (mkIface (Some s1) j1)) (mkField k ErrorType i2 t2 (mkIface (Some s2) j2))
| reflect_field k i1 i2 t1 t2 e1 e2 s1 s2 :
    secret_step s1 s2 → field_step (mkField k ReflectType i1 t1 (mkIface e1 (Some s1))) (mkField k ReflectType i2 t2 (mkIface e2 (Some s2))).

#[global] Instance secret_step_sym : Symmetric secret_step.
Proof. intros s1 s2 []. by constructor. Qed.

Lemma mask_text_step f g s1 s2 : f_Key f = f_Key g → secret_step s1 s2 → mask_text f s1 = mask_text g s2.
Proof.
  intros Hk H. pose proof (mask_changes s1 s2 H) as N1. pose proof (mask_changes s2 s1 ltac:(by symmetry)) as N2. unfold mask_text.
  rewrite (proj2 (String.eqb_neq _ _) N1), (proj2 (String.eqb_neq _ _) N2), Hk. by rewrite (mask_step s1 s2 H).
Qed.

Lemma redact_field_step f g : field_step f g → redact_field f = redact_field g.
Proof.
  intros [f' g' Hk Hr| | |]; unfold redact_field; cbn [f_Key f_Type f_String f_Interface if_error if_json maskFieldValue]; try (destruct (shouldRedact k); [done|by apply mask_text_step]).
  by rewrite <- Hk, (private_redacted _ Hr).
Qed.

Inductive line_step : entry * list field → entry * list field → Prop :=
| message_differs lv t m1 m2 c k fs : secret_step m1 m2 → line_step (mkEntry lv t m1 c k, fs) (mkEntry lv t m2 c k, fs)
| field_differs e fs f g fs' : field_step f g → line_step (e, fs ++ f :: fs') (e, fs ++ g :: fs').

(** What a redacted line shows. *)
Definition shown (x : entry * list field) : entry * list field := (with_message (scrubMessage (e_Message x.1)) x.1, redactFields x.2).

Lemma shown_step x y : line_step x y → shown x = shown y.
Proof.
  intros [lv t m1 m2 c k fs H|e fs f g fs' H]; unfold shown; cbn.
  - by rewrite (message_step m1 m2 H).
  - unfold redactFields. rewrite !fmap_app, !fmap_cons. by rewrite (redact_field_step f g H).
Qed.

End RedactSafe.
