(* ===== verification/ErrTrack.v ===== *)
(** * The error tracker (internal/errtrack)

    Sanitizing a captured log line, the fingerprint that groups it, and the
    store of groups: bounded, evicted least recently seen first, with a token
    bucket in front of new groups.  A channel is its queue and its capacity.
    SHA-256, the names of the levels and [fmt]'s rendering of a float are
    parameters. *)

From S2P Require Import Prelude GoTime GoText Num Encoding Redact.
From stdpp Require Import base gmap strings pretty tactics list.
From Stdlib Require Import ZArith Ascii Lia.
Import Encoding Redact.
Local Open Scope Z_scope.

Module ErrTrack.

(** ** strings *)

(** [strings.Index] *)
Fixpoint Index (s sub : string) : option nat :=
  if String.prefix sub s then Some O
  else match s with EmptyString => None | String _ s' => S <$> Index s' sub end.

(** [strings.LastIndex(s, "/")], and the text after it *)
Fixpoint after_last_slash (s : string) : option string :=
  match s with
  | EmptyString => None
  | String c s' => match after_last_slash s' with Some t => Some t | None => if Ascii.eqb c "/" then Some s' else None end
  end.

Fixpoint fields_from (word : string) (s : string) : list string :=
  match s with
  | EmptyString => if String.eqb word "" then [] else [word]
  | String c s' =>
      if is_space c then (if String.eqb word "" then fields_from "" s' else word :: fields_from "" s')
      else fields_from (word +:+ String c "") s'
  end.

(** [strings.Fields] *)
Definition Fields (s : string) : list string := fields_from "" s.

(** ** Sanitizing (sanitize.go) *)

Record Frame := mkFrame { fr_Function : string; fr_File : string }.

Record SanitizedEvent := mkEvent {
  sv_Level : string; sv_Message : string; sv_Caller : string; sv_Frames : list Frame; sv_Fields : gmap string string; sv_RequestID : string }.

Definition truncate (s : string) (max : nat) : string :=
  if Nat.leb (String.length s) max then s else String.substring 0 max s +:+ "...[truncated]".

Definition maxMsgLen : nat := N.to_nat 2048.

Definition SanitizeMessage (s : string) : string :=
  let out := scrubMessage s in
  if Nat.ltb maxMsgLen (String.length out) then String.substring 0 maxMsgLen out +:+ "...[truncated]" else out.

Definition u64 (z : Z) : Z := z mod 2 ^ 64.

Section render.
(** [fmt.Sprintf("%g", math.Float64frombits(bits))] *)
Context (format_g : Z → string).

Definition fieldToString (f : field) : option string :=
  match f_Type f with
  | StringType => Some (f_String f)
  | BoolType => Some (if f_Integer f =? 1 then "true" else "false")
  | Int8Type | Int16Type | Int32Type | Int64Type => Some (pretty (f_Integer f))
  | Uint8Type | Uint16Type | Uint32Type | Uint64Type => Some (pretty (u64 (f_Integer f)))
  | Float32Type | Float64Type => Some (format_g (u64 (f_Integer f)))
  | DurationType => Some (pretty (f_Integer f) +:+ "ns")
  | ErrorType => if_error (f_Interface f)
  | ReflectType => if_json (f_Interface f)
  | OtherType => None
  end.

Definition sanitize_field (out : gmap string string) (f : field) : gmap string string :=
  match fieldToString f with
  | None => out
  | Some v => <[f_Key f := truncate (scrubMessage v) 512]> out
  end.

Definition SanitizeFields (fields : list field) : gmap string string := foldl sanitize_field ∅ (redactFields fields).

End render.

(** What [recover] returned; [POther] carries its [%v] rendering. *)
Inductive payload := PNil | PString (s : string) | PError (text : string) | POther (text : string).

Definition SanitizeRecovered (v : payload) : string :=
  match v with PNil => "" | PString s | PError s | POther s => SanitizeMessage s end.

Definition is_letter (c : ascii) : bool := between 65 90 c || between 97 122 c.
Definition is_slash (c : ascii) : bool := Ascii.eqb c "/" || Ascii.eqb c "\".

Definition isAbsoluteFSPath (s : string) : bool :=
  match s with
  | EmptyString => false
  | String c s' =>
      is_slash c || match s' with String c1 (String c2 _) => Ascii.eqb c1 ":" && is_slash c2 && is_letter c | _ => false end
  end.

Fixpoint first_anchor (anchors : list string) (s : string) : option string :=
  match anchors with
  | [] => None
  | a :: rest => match Index s a with Some idx => Some (TrimPrefix (drop_str idx s) "/") | None => first_anchor rest s end
  end.

Definition trimFilePath (s : string) : string :=
  if negb (isAbsoluteFSPath s) then s
  else match Index s "/pkg/mod/" with
  | Some idx => drop_str (idx + String.length "/pkg/mod/") s
  | None =>
      match first_anchor ["/internal/"; "/cmd/"; "/api/"; "/pkg/"] s with
      | Some t => t
      | None => default s (after_last_slash s)
      end
  end.

Definition maxFrames : nat := 64.

(** [n] more frames may be kept. *)
Fixpoint stack_frames (n : nat) (lines : list string) : list Frame :=
  match n, lines with
  | S m, l1 :: ((l2 :: rest) as next) =>
      let fnLine := TrimSpace l1 in
      let pathLine := TrimSpace l2 in
      if String.eqb fnLine "" then stack_frames n next
      else if String.eqb pathLine "" || negb (Contains pathLine ":") then stack_frames n next
      else if HasPrefix fnLine "/" || Contains fnLine ".go:" then stack_frames n next
      else mkFrame (truncate fnLine 256) (trimFilePath pathLine) :: stack_frames m rest
  | _, _ => []
  end.

Definition newline : ascii := Ascii.ascii_of_N 10.

Definition SanitizeStack (raw : string) : list Frame :=
  if String.eqb raw "" then [] else stack_frames maxFrames (Split newline raw).

(** ** Fingerprints (fingerprint.go) *)

Definition fingerprintTopFrames : nat := 5.
Definition fingerprintIDLen : nat := 16.

Definition cut_at (fn mark : string) : string := match Index fn mark with Some idx => String.substring 0 idx fn | None => fn end.

Definition normalizeFunction (fn : string) : string := cut_at (cut_at fn ".func") "[".

Definition isWordByte (c : ascii) : bool := is_alnum c || Ascii.eqb c "_" || N.leb 128 (N_of_ascii c).

(** The word is written only when it has no digit. *)
Definition flushWordToken (out buf : string) : string :=
  if existsb (between 48 57) (String.list_ascii_of_string buf) then out else out +:+ buf.

Fixpoint strip_runs (out buf : string) (inQ : bool) (s : string) : string :=
  match s with
  | EmptyString => flushWordToken out buf
  | String c s' =>
      if among [34; 39]%N c then strip_runs (flushWordToken out buf) "" (negb inQ) s'
      else if inQ then strip_runs out buf inQ s'
      else if isWordByte c then strip_runs out (buf +:+ String c "") inQ s'
      else strip_runs (flushWordToken out buf +:+ String c "") "" inQ s'
  end.

Definition stripVariableRuns (s : string) : string := Prelude.Join " " (Fields (strip_runs "" "" false s)).

Definition nul : string := String Ascii.zero "".

Section fingerprint.
Context (sha256 : string → string) (level_string : Z → string).

Definition hash_id (bytes : string) : string := String.substring 0 fingerprintIDLen (hex_encode (sha256 bytes)).

Definition Fingerprint (level : Z) (sanitizedMsg : string) (frames : list Frame) : string :=
  hash_id (level_string level +:+ nul
           +:+ foldr (λ f acc, normalizeFunction (fr_Function f) +:+ nul +:+ acc) "" (take fingerprintTopFrames frames)
           +:+ stripVariableRuns sanitizedMsg).

Definition FingerprintFromMessage (level : Z) (sanitizedMsg : string) : string :=
  hash_id (level_string level +:+ nul +:+ stripVariableRuns sanitizedMsg).

End fingerprint.

(** ** The store (store.go) *)

Record Group := mkGroup {
  g_ID : string; g_FirstSeenUnix : Z; g_LastSeenUnix : Z; g_Count : Z; g_Level : Z; g_Sample : SanitizedEvent }.

Record StreamEvent := mkStream { se_GroupID : string; se_Count : Z; se_Sample : SanitizedEvent }.

Record channel (A : Type) := mkChannel { ch_cap : nat; ch_queue : list A }.
Arguments mkChannel {A} _ _.
Arguments ch_cap {A} _.
Arguments ch_queue {A} _.

(** [select { case ch <- x: default: }] *)
Definition offer {A} (x : A) (ch : channel A) : channel A :=
  if Nat.ltb (length (ch_queue ch)) (ch_cap ch) then mkChannel (ch_cap ch) (ch_queue ch ++ [x]) else ch.

Section store.
Context {F : Type} `{Num F}.

(** The front of [s_lru] is the most recently seen; a channel is named by a
    number. *)
Record Store := mkStore {
  s_groups : gmap string Group;
  s_lru : list string;
  s_capacity : Z;
  s_tokens : F; s_maxTokens : F; s_refillRate : F; s_lastRefill : time;
  s_totalEvents : Z; s_totalDropped : Z; s_totalEvicted : Z; s_totalGroupsEv : Z;
  s_subscribers : gmap nat (channel StreamEvent) }.

Definition DefaultCapacity : Z := 1024.
Definition DefaultNewGroupRate : Z := 50.

Definition NewStore (now : time) (capacity newGroupRate : Z) : Store :=
  let capacity := if capacity <=? 0 then DefaultCapacity else capacity in
  let rate : F := fofZ (if newGroupRate <=? 0 then DefaultNewGroupRate else newGroupRate) in
  mkStore ∅ [] capacity rate rate rate now 0 0 0 0 ∅.

Definition set_table (groups : gmap string Group) (lru : list string) (s : Store) : Store :=
  mkStore groups lru (s_capacity s) (s_tokens s) (s_maxTokens s) (s_refillRate s) (s_lastRefill s)
    (s_totalEvents s) (s_totalDropped s) (s_totalEvicted s) (s_totalGroupsEv s) (s_subscribers s).

Definition set_bucket (tokens : F) (last : time) (s : Store) : Store :=
  mkStore (s_groups s) (s_lru s) (s_capacity s) tokens (s_maxTokens s) (s_refillRate s) last
    (s_totalEvents s) (s_totalDropped s) (s_totalEvicted s) (s_totalGroupsEv s) (s_subscribers s).

(** [Add] on the four counters *)
Definition count (events dropped evicted groups : Z) (s : Store) : Store :=
  mkStore (s_groups s) (s_lru s) (s_capacity s) (s_tokens s) (s_maxTokens s) (s_refillRate s) (s_lastRefill s)
    (u64 (s_totalEvents s + events)) (u64 (s_totalDropped s + dropped)) (u64 (s_totalEvicted s + evicted)) (u64 (s_totalGroupsEv s + groups)) (s_subscribers s).

Definition set_subscribers (subs : gmap nat (channel StreamEvent)) (s : Store) : Store :=
  mkStore (s_groups s) (s_lru s) (s_capacity s) (s_tokens s) (s_maxTokens s) (s_refillRate s) (s_lastRefill s)
    (s_totalEvents s) (s_totalDropped s) (s_totalEvicted s) (s_totalGroupsEv s) subs.

Definition broadcast (ev : StreamEvent) (s : Store) : Store := set_subscribers (offer ev <$> s_subscribers s) s.

(** [d.Seconds()] *)
Definition Seconds (d : duration) : F := (fofZ (Z.quot d Second) + fofZ (Z.rem d Second) / fofZ 1000000000)%num.

Definition takeToken (now : time) (s : Store) : bool * Store :=
  let elapsed := Seconds (Sub now (s_lastRefill s)) in
  let s :=
    if fltb f0 elapsed then
      let tokens := (s_tokens s + elapsed * s_refillRate s)%num in
      set_bucket (if fltb (s_maxTokens s) tokens then s_maxTokens s else tokens) now s
    else s in
  if fltb (s_tokens s) f1 then (false, s) else (true, set_bucket (s_tokens s - f1)%num (s_lastRefill s) s).

Definition unix (t : time) : Z := t / Second.

Definition bump (now : time) (g : Group) : Group :=
  mkGroup (g_ID g) (g_FirstSeenUnix g) (unix now) (u64 (g_Count g + 1)) (g_Level g) (g_Sample g).

(** An element that has been removed from the list is left alone. *)
Definition MoveToFront (id : string) (s : Store) : Store :=
  if bool_decide (id ∈ s_lru s) then set_table (s_groups s) (id :: filter (.≠ id) (s_lru s)) s else s.

(** Removes groups from the back while the table is full; [fuel] is the
    length of the list, which each turn shortens. *)
Fixpoint evict_full (fuel : nat) (s : Store) : Store :=
  match fuel with
  | O => s
  | S n =>
      if Z.of_nat (size (s_groups s)) <? s_capacity s then s
      else match last (s_lru s) with
      | None => s
      | Some evID => evict_full n (count 0 0 1 0 (set_table (delete evID (s_groups s)) (take (length (s_lru s) - 1) (s_lru s)) s))
      end
  end.

(** The part of [Record] under the write lock. *)
Definition insert_group (now : time) (id : string) (level : Z) (ev : SanitizedEvent) (s : Store) : Store :=
  match s_groups s !! id with
  | Some g => broadcast (mkStream id (g_Count (bump now g)) ev) (set_table (<[id := bump now g]> (s_groups s)) (s_lru s) s)
  | None =>
      let s := evict_full (length (s_lru s)) s in
      let g := mkGroup id (unix now) (unix now) 1 level ev in
      broadcast (mkStream id 1 ev) (count 0 0 0 1 (set_table (<[id := g]> (s_groups s)) (id :: s_lru s) s))
  end.

(** The path of a group that is known. *)
Definition hit_group (now : time) (id : string) (g : Group) (ev : SanitizedEvent) (s : Store) : Store :=
  let g := bump now g in
  let s := set_table (<[id := g]> (s_groups s)) (s_lru s) s in
  let s := if g_Count g mod 64 =? 0 then MoveToFront id s else s in
  broadcast (mkStream id (g_Count g) ev) s.

Definition Record_ (now : time) (id : string) (level : Z) (ev : SanitizedEvent) (s : Store) : string * Store :=
  let s := count 1 0 0 0 s in
  match s_groups s !! id with
  | Some g => (id, hit_group now id g ev s)
  | None =>
      let '(ok, s) := takeToken now s in
      if negb ok then ("", count 0 1 0 0 s) else (id, insert_group now id level ev s)
  end.

(** *** What leaves the store *)

Definition reSanitizeForOutput (e : SanitizedEvent) : SanitizedEvent :=
  mkEvent (sv_Level e) (SanitizeMessage (sv_Message e)) (sv_Caller e) (sv_Frames e) (SanitizeMessage <$> sv_Fields e) (sv_RequestID e).

Record GroupSummary := mkSummary {
  gs_ID : string; gs_Level : string; gs_Count : Z; gs_FirstSeen : time; gs_LastSeen : time; gs_Sample : SanitizedEvent }.

Context (level_string : Z → string).

Definition summarize (g : Group) : GroupSummary :=
  mkSummary (g_ID g) (level_string (g_Level g)) (g_Count g) (g_FirstSeenUnix g * Second) (g_LastSeenUnix g * Second) (reSanitizeForOutput (g_Sample g)).

(** [ordered] is what [sort.Slice] makes of the summaries, last seen first; it
    leaves equal ones, and so the order of the map, open. *)
Definition ListGroups (ordered : list GroupSummary → list GroupSummary) (limit : Z) (s : Store) : list GroupSummary :=
  let out := ordered (summarize <$> (map_to_list (s_groups s)).*2) in
  if (0 <? limit) && (limit <? Z.of_nat (length out)) then take (Z.to_nat limit) out else out.

Definition Get (id : string) (s : Store) : option GroupSummary := summarize <$> s_groups s !! id.

Record Stats := mkStats { sa_ActiveGroups : Z; sa_TotalEvents : Z; sa_TotalDropped : Z; sa_TotalEvicted : Z; sa_TotalGroupsEver : Z }.

Definition stats (s : Store) : Stats :=
  mkStats (Z.of_nat (size (s_groups s))) (s_totalEvents s) (s_totalDropped s) (s_totalEvicted s) (s_totalGroupsEv s).

(** [ch] names a channel that is not in use. *)
Definition Subscribe (ch : nat) (buffer : Z) (s : Store) : Store :=
  set_subscribers (<[ch := mkChannel (Z.to_nat (if buffer <=? 0 then 64 else buffer)) []]> (s_subscribers s)) s.

Definition cancel (ch : nat) (s : Store) : Store := set_subscribers (delete ch (s_subscribers s)) s.

Definition PoisonForTest (id : string) (ev : SanitizedEvent) (s : Store) : Store :=
  match s_groups s !! id with
  | Some g => set_table (<[id := mkGroup (g_ID g) (g_FirstSeenUnix g) (g_LastSeenUnix g) (g_Count g) (g_Level g) ev]> (s_groups s)) (s_lru s) s
  | None => s
  end.

End store.

(** ** The capturing core (core.go) *)

Definition WarnLevel : Z := 1.
Definition ErrorLevel : Z := 2.

Fixpoint itoa_digits (fuel : nat) (n : Z) (buf : string) : string :=
  match fuel with
  | O => buf
  | S k => if 0 <? n then itoa_digits k (n / 10) (String (digit (n mod 10)) buf) else buf
  end.

(** Nineteen digits are enough for an [int]. *)
Definition itoa (n : Z) : string :=
  if n =? 0 then "0"
  else if n <? 0 then String "-" (itoa_digits 19 (if n =? - 2 ^ 63 then n else - n) "") else itoa_digits 19 n "".

Section core.
Context {F : Type} `{Num F} (sha256 : string → string) (level_string format_g : Z → string).

(** The event kept of a line. *)
Definition sanitized_event (e : entry) (fields : list field) : SanitizedEvent :=
  let flds := SanitizeFields format_g fields in
  let c := e_Caller e in
  mkEvent (level_string (e_Level e)) (SanitizeMessage (e_Message e))
    (if c_Defined c then trimFilePath (c_File c) +:+ ":" +:+ itoa (c_Line c) else "")
    (SanitizeStack (e_Stack e)) flds (default "" (flds !! "request_id")).

Definition event_id (e : entry) (ev : SanitizedEvent) : string :=
  match sv_Frames ev with
  | [] => FingerprintFromMessage sha256 level_string (e_Level e) (sv_Message ev)
  | frames => Fingerprint sha256 level_string (e_Level e) (sv_Message ev) frames
  end.

(** [inFlight] says that this core is already capturing a line. *)
Definition capture (now : time) (inFlight : bool) (e : entry) (fields : list field) (s : Store (F := F)) : Store :=
  if inFlight then s
  else
    let ev := sanitized_event e fields in
    (Record_ now (event_id e ev) (e_Level e) ev s).2.

(** The level [NewCore] captures from. *)
Definition capture_level (captureLevel : Z) : Z := if captureLevel <? WarnLevel then ErrorLevel else captureLevel.

(** Over a state that holds the store, the clock and the guard. *)
Definition Write {C S} (next : core C S) (captureLevel : Z) (now : S → time) (inFlight : S → bool)
    (store : S → option (Store (F := F))) (set_store : Store → S → S)
    (c : C) (e : entry) (fields : list field) (s : S) : bool * S :=
  let '(ok, s) := co_Write next c e fields s in
  if e_Level e <? captureLevel then (ok, s)
  else (ok, match store s with Some st => set_store (capture (now s) (inFlight s) e fields st) s | None => s end).

Definition NewCore {C S} (inner : core C S) (captureLevel : Z) (now : S → time) (inFlight : S → bool)
    (store : S → option (Store (F := F))) (set_store : Store → S → S) : core C S :=
  mkCore (co_Enabled inner) (co_With inner) (Write inner (capture_level captureLevel) now inFlight store set_store).

End core.

End ErrTrack.
