(* ===== verification/LogStream.v ===== *)
(** * The log stream server (internal/logstream)

    The buffer of log lines, the channels of its clients, the routes of its
    listener and their gate, and the core that feeds it.  The error store is
    the one the error tracker writes to, so it is part of the server's state.
    What zap's map encoder makes of a field is a parameter, and so are the
    attestation service and the formats of the clock. *)

From S2P Require Import Prelude GoTime GoText Num Encoding Attestation Redact ErrTrack.
From stdpp Require Import base gmap strings tactics list.
From Stdlib Require Import ZArith Ascii Lia.
Import Encoding Redact ErrTrack.
Local Open Scope Z_scope.

Module LogStream.

Definition maxBufferedLogs : nat := N.to_nat 1000.
Definition msgMethodNotAllowed : string := "method not allowed".
Definition maxListLimit : Z := 200.

(** ** Requests and answers *)

(** [rq_ApiKey] is the X-Api-Key header and [rq_Limit] the query parameter;
    both are empty when absent. *)
Record request := mkRequest { rq_Method : string; rq_Path : string; rq_Origin : string; rq_ApiKey : string; rq_Limit : string }.

Section server.
Context {F V : Type} `{Num F}.

Record LogEntry := mkLog { le_Timestamp : string; le_Level : string; le_Message : string; le_Fields : gmap string V }.

(** The values of an answer's JSON object. *)
Inductive value :=
| JS (s : string) | JB (b : bool) | JI (z : Z) | JNull
| JLogs (l : list LogEntry)
| JGroups (l : list GroupSummary)
| JStats (s : Stats)
| JGroup (g : GroupSummary).

(** [BStream] is the start of a stream of events, on the named channel of the
    logs or of the errors. *)
Inductive body := BText (s : string) | BJson (m : list (string * value)) | BValue (v : value) | BStream (errors : bool) (ch : nat) | BEmpty.

Record response := mkResponse { rs_Status : Z; rs_AllowOrigin : option string; rs_Body : body }.

Definition writeJSON (status : Z) (m : list (string * value)) : response := mkResponse status None (BJson m).
Definition notAllowed : response := mkResponse 405 None (BText msgMethodNotAllowed).
Definition disabled : response := writeJSON 503 [("error", JS "error tracking disabled")].

(** ** The server's state *)

(** [sr_attest] and [sr_tls] say whether the service and the TLS config are
    set. *)
Record Server := mkServer {
  sr_apiKey : string;
  sr_port : Z;
  sr_attest : bool;
  sr_clients : gmap nat (channel LogEntry);
  sr_logs : list LogEntry;
  sr_tls : bool;
  sr_corsOrigins : string;
  sr_errStore : option (Store (F := F)) }.

Definition NewServer (port : Z) (apiKey : string) : Server := mkServer apiKey port false ∅ [] false "" None.

Definition SetTLSConfig (tls : bool) (s : Server) : Server :=
  mkServer (sr_apiKey s) (sr_port s) (sr_attest s) (sr_clients s) (sr_logs s) tls (sr_corsOrigins s) (sr_errStore s).
Definition SetCORSOrigins (origins : string) (s : Server) : Server :=
  mkServer (sr_apiKey s) (sr_port s) (sr_attest s) (sr_clients s) (sr_logs s) (sr_tls s) origins (sr_errStore s).
Definition SetAttestationService (p : bool) (s : Server) : Server :=
  mkServer (sr_apiKey s) (sr_port s) p (sr_clients s) (sr_logs s) (sr_tls s) (sr_corsOrigins s) (sr_errStore s).
Definition SetErrorStore (st : option Store) (s : Server) : Server :=
  mkServer (sr_apiKey s) (sr_port s) (sr_attest s) (sr_clients s) (sr_logs s) (sr_tls s) (sr_corsOrigins s) st.
Definition set_logs (logs : list LogEntry) (s : Server) : Server :=
  mkServer (sr_apiKey s) (sr_port s) (sr_attest s) (sr_clients s) logs (sr_tls s) (sr_corsOrigins s) (sr_errStore s).
Definition set_clients (clients : gmap nat (channel LogEntry)) (s : Server) : Server :=
  mkServer (sr_apiKey s) (sr_port s) (sr_attest s) clients (sr_logs s) (sr_tls s) (sr_corsOrigins s) (sr_errStore s).

Definition BufferedLogs (s : Server) : list LogEntry := sr_logs s.

Definition Broadcast (e : LogEntry) (s : Server) : Server :=
  let logs := sr_logs s ++ [e] in
  let logs := if Nat.ltb maxBufferedLogs (length logs) then drop (length logs - maxBufferedLogs) logs else logs in
  set_clients (offer e <$> sr_clients s) (set_logs logs s).

(** ** Handlers *)

Section handlers.
(** What [GetAttestation] answers now, and the clock as text. *)
Context (ordered : list GroupSummary → list GroupSummary) (level_string : Z → string) (attestation : option Attestation.AttestationReport) (nowText : string).

Definition only (method : string) (r : request) (s : Server) (k : Server * response) : Server * response :=
  if String.eqb (rq_Method r) method then k else (s, notAllowed).

Definition handleHealth (r : request) (s : Server) : Server * response :=
  only "GET" r s (s, writeJSON 200 [("status", JS "ok"); ("service", JS "enclave-log-server")]).

Definition attestation_failed : response :=
  writeJSON 500 [("verified", JB false); ("enclave", JB false); ("sevSnpEnabled", JB false); ("error", JS "Failed to retrieve attestation"); ("timestamp", JS nowText)].

Definition handleAttestation (r : request) (s : Server) : Server * response :=
  only "GET" r s (s,
    match (if sr_attest s then attestation else None) with
    | None => attestation_failed
    | Some report =>
        match Attestation.ar_Attestation report with
        | None =>
            writeJSON 200 [("verified", JB false); ("enclave", JB false); ("sevSnpEnabled", JB false); ("measurement", JNull); ("reportData", JNull);
                           ("platformVersion", JNull); ("timestamp", JS nowText)]
        | Some att =>
            writeJSON 200 [("verified", JB (Attestation.sv_Verified att)); ("enclave", JB (String.eqb (Attestation.ar_Platform report) "sev-snp")); ("sevSnpEnabled", JB (Attestation.sv_SevSnpEnabled att));
                           ("measurement", JS (Attestation.sv_Measurement att)); ("reportData", JS (Attestation.sv_ReportData att)); ("platformVersion", JS (Attestation.sv_PlatformVersion att));
                           ("errorMessage", JS ""); ("timestamp", JS nowText)]
        end
    end).

Definition handleAttestationInfo (r : request) (s : Server) : Server * response :=
  only "GET" r s (s,
    match (if sr_attest s then attestation else None) with
    | None => writeJSON 500 [("error", JS "Failed to retrieve attestation info"); ("timestamp", JS nowText)]
    | Some report =>
        let hw := String.eqb (Attestation.ar_Platform report) "sev-snp" in
        writeJSON 200 [("platform", JS (if hw then "AMD SEV-SNP" else "unknown"));
                       ("sevSnpAvailable", JB match Attestation.ar_Attestation report with Some att => Attestation.sv_SevSnpEnabled att | None => false end);
                       ("attestationMethod", JS (if hw then "hardware" else "none")); ("timestamp", JS nowText)]
    end).

Definition handleLogs (r : request) (s : Server) : Server * response :=
  only "GET" r s (s, writeJSON 200 [("logs", JLogs (sr_logs s)); ("count", JI (Z.of_nat (length (sr_logs s))))]).

(** The channel a stream opens is one not in use; the connection can be
    flushed. *)
Definition handleStream (r : request) (s : Server) : Server * response :=
  let ch := fresh (dom (sr_clients s)) in
  (set_clients (<[ch := mkChannel 100 []]> (sr_clients s)) s, mkResponse 200 None (BStream false ch)).

Definition handleClear (r : request) (s : Server) : Server * response :=
  only "POST" r s (set_logs [] s, writeJSON 200 [("success", JB true); ("message", JS "Logs cleared")]).

Definition parseLimit (raw : string) : Z :=
  if String.eqb raw "" then maxListLimit
  else match ParseInt raw with
  | None => maxListLimit
  | Some n => if n <=? 0 then maxListLimit else if maxListLimit <? n then maxListLimit else n
  end.

Definition with_store (s : Server) (k : Store → Server * response) : Server * response :=
  match sr_errStore s with None => (s, disabled) | Some st => k st end.

Definition handleErrorGroups (r : request) (s : Server) : Server * response :=
  only "GET" r s (with_store s (λ st,
    let groups := ListGroups level_string ordered (parseLimit (rq_Limit r)) st in
    (s, writeJSON 200 [("groups", JGroups groups); ("count", JI (Z.of_nat (length groups)))]))).

(** [strings.Trim(s, "/")] *)
Fixpoint trim_slashes_left (s : string) : string :=
  match s with String c s' => if Ascii.eqb c "/" then trim_slashes_left s' else s | EmptyString => s end.
Fixpoint trim_slashes_right (s : string) : string :=
  match s with
  | EmptyString => EmptyString
  | String c s' => match trim_slashes_right s' with EmptyString => if Ascii.eqb c "/" then EmptyString else String c EmptyString | t => String c t end
  end.

(** [^[a-f0-9]{16}$] *)
Definition errorIDPattern (s : string) : bool := Nat.eqb (String.length s) 16 && all_chars (λ c, between 97 102 c || between 48 57 c) s.

Definition handleErrorGroupByID (r : request) (s : Server) : Server * response :=
  only "GET" r s (with_store s (λ st,
    let id := trim_slashes_right (trim_slashes_left (TrimPrefix (rq_Path r) "/errors/groups/")) in
    if negb (errorIDPattern id) then (s, writeJSON 400 [("error", JS "invalid group id")])
    else match Get level_string id st with
    | None => (s, writeJSON 404 [("error", JS "group not found")])
    | Some g => (s, mkResponse 200 None (BValue (JGroup g)))
    end)).

Definition handleErrorStream (r : request) (s : Server) : Server * response :=
  only "GET" r s (with_store s (λ st,
    let ch := fresh (dom (s_subscribers st)) in
    (SetErrorStore (Some (Subscribe ch 64 st)) s, mkResponse 200 None (BStream true ch)))).

Definition handleErrorStats (r : request) (s : Server) : Server * response :=
  only "GET" r s (with_store s (λ st, (s, mkResponse 200 None (BValue (JStats (stats st)))))).

(** *** Streams *)

Definition reSanitizeStreamEvent (e : SanitizedEvent) : SanitizedEvent :=
  mkEvent (sv_Level e) (SanitizeMessage (sv_Message e)) (sv_Caller e) (sv_Frames e) (SanitizeMessage <$> sv_Fields e) (sv_RequestID e).

(** The next event sent on a stream of errors. *)
Definition next_error (ch : nat) (s : Server) : option (StreamEvent * Server) :=
  st ← sr_errStore s;
  c ← s_subscribers st !! ch;
  match ch_queue c with
  | [] => None
  | ev :: rest =>
      Some (mkStream (se_GroupID ev) (se_Count ev) (reSanitizeStreamEvent (se_Sample ev)),
            SetErrorStore (Some (set_subscribers (<[ch := mkChannel (ch_cap c) rest]> (s_subscribers st)) st)) s)
  end.

(** The next line sent on a stream of logs. *)
Definition next_log (ch : nat) (s : Server) : option (LogEntry * Server) :=
  c ← sr_clients s !! ch;
  match ch_queue c with [] => None | e :: rest => Some (e, set_clients (<[ch := mkChannel (ch_cap c) rest]> (sr_clients s)) s) end.

(** The client of a stream is gone. *)
Definition disconnect (errors : bool) (ch : nat) (s : Server) : Server :=
  if errors then match sr_errStore s with Some st => SetErrorStore (Some (cancel ch st)) s | None => s end
  else set_clients (delete ch (sr_clients s)) s.

(** ** The gate and the routes *)

Definition authMiddleware (next : request → Server → Server * response) (r : request) (s : Server) : Server * response :=
  if String.eqb (sr_apiKey s) "" then (s, writeJSON 503 [("error", JS "Log server not configured. Set LOG_STREAM_API_KEY environment variable.")])
  else if negb (Nat.eqb (String.length (rq_ApiKey r)) (String.length (sr_apiKey s))) || negb (String.eqb (rq_ApiKey r) (sr_apiKey s))
  then (s, writeJSON 401 [("error", JS "Invalid or missing API key. Provide X-Api-Key header.")])
  else next r s.

(** The mux of [Start], for a clean path. *)
Definition routes (r : request) (s : Server) : Server * response :=
  let p := rq_Path r in
  if String.eqb p "/health" then handleHealth r s
  else if String.eqb p "/attestation" then handleAttestation r s
  else if String.eqb p "/attestation/info" then handleAttestationInfo r s
  else if String.eqb p "/logs" then authMiddleware handleLogs r s
  else if String.eqb p "/logs/stream" then authMiddleware handleStream r s
  else if String.eqb p "/logs/clear" then authMiddleware handleClear r s
  else if String.eqb p "/errors/groups" then authMiddleware handleErrorGroups r s
  else if HasPrefix p "/errors/groups/" then authMiddleware handleErrorGroupByID r s
  else if String.eqb p "/errors/stream" then authMiddleware handleErrorStream r s
  else if String.eqb p "/errors/stats" then authMiddleware handleErrorStats r s
  else (s, mkResponse 404 None (BText "404 page not found")).

Definition parseOrigins (raw : string) : list string :=
  if String.eqb raw "" || String.eqb raw "*" then ["*"]
  else filter (λ o, o ≠ "") (TrimSpace <$> Split "," raw).

Definition isOriginAllowed (origin : string) (allowed : list string) : bool :=
  existsb (λ a, String.eqb a "*" || String.eqb a origin) allowed.

Definition corsMiddleware (allowedOrigins : string) (next : request → Server → Server * response) (r : request) (s : Server) : Server * response :=
  let allow := if negb (String.eqb (rq_Origin r) "") && isOriginAllowed (rq_Origin r) (parseOrigins allowedOrigins) then Some (rq_Origin r) else None in
  if String.eqb (rq_Method r) "OPTIONS" then (s, mkResponse 204 allow BEmpty)
  else let '(s, resp) := next r s in (s, mkResponse (rs_Status resp) allow (rs_Body resp)).

(** A request to the listener [Start] opened with these origins. *)
Definition serve (corsOrigins : string) : request → Server → Server * response := corsMiddleware corsOrigins routes.

End handlers.

(** ** The core that feeds the server (zapcore.go) *)

(** What the cores write to: the output behind the base core, the server, the
    clock, and whether a capture is under way. *)
Record world (S : Type) := mkWorld { w_out : S; w_server : Server; w_now : time; w_inFlight : bool }.

Section cores.
Context {C S : Type} (sha256 : string → string) (level_string format_g : Z → string) (rfc3339 : time → string) (add_to : list field → gmap string V).

Definition set_out (o : S) (w : world S) : world S := mkWorld S o (w_server S w) (w_now S w) (w_inFlight S w).
Definition set_server (s : Server) (w : world S) : world S := mkWorld S (w_out S w) s (w_now S w) (w_inFlight S w).

(** A core of the output alone, as a core of the whole. *)
Definition lift (k : core C S) : core C (world S) :=
  mkCore (co_Enabled k) (co_With k) (λ c e fields w, let '(ok, o) := co_Write k c e fields (w_out S w) in (ok, set_out o w)).

Definition broadcast_entry (e : entry) (fields : list field) : LogEntry :=
  mkLog (rfc3339 (e_Time e)) (level_string (e_Level e)) (scrubMessage (e_Message e))
    (match redactFields fields with [] => ∅ | l => add_to l end).

Definition broadcast_Write (inner : core C (world S)) (c : C) (e : entry) (fields : list field) (w : world S) : bool * world S :=
  let '(ok, w) := co_Write inner c e fields w in
  if negb ok then (false, w) else (true, set_server (Broadcast (broadcast_entry e fields) (w_server S w)) w).

Definition NewBroadcastCore (inner : core C (world S)) : core C (world S) :=
  mkCore (co_Enabled inner) (co_With inner) (broadcast_Write inner).

(** ** The logger of the enclave (cmd/enclave/main.go) *)

Definition capturing (inner : core C (world S)) : core C (world S) :=
  NewCore sha256 level_string format_g inner ErrorLevel (w_now S) (w_inFlight S)
    (λ w, sr_errStore (w_server S w)) (λ st w, set_server (SetErrorStore (Some st) (w_server S w)) w).

Definition logger (base : core C S) (logStreamPort : Z) (errTrackEnabled : bool) : core C (world S) :=
  if 0 <? logStreamPort then
    let broadcastCore := NewBroadcastCore (lift (NewRedactCore base)) in
    if errTrackEnabled then capturing broadcastCore else broadcastCore
  else lift (NewRedactCore base).

(** The log server as it is built. *)
Definition log_server (now : time) (port : Z) (apiKey corsOrigin : string) (errTrackEnabled : bool) (capacity newGroupRate : Z) : Server :=
  let s := SetCORSOrigins corsOrigin (NewServer port apiKey) in
  if errTrackEnabled then SetErrorStore (Some (NewStore now capacity newGroupRate)) s else s.

End cores.
End server.

End LogStream.
