(* ===== verification/LogSafe.v ===== *)
(** * What the logs reveal

    The logger of the enclave, its log server and its error store, over any
    sequence of lines, requests and stream reads: nothing that leaves them
    depends on a secret; without the key of the log server nothing of them is
    read or changed; and they stay within their bounds however the goroutines
    that feed them interleave. *)

From S2P Require Import Prelude GoTime GoText Num Encoding Attestation Redact RedactSafe ErrTrack LogStream.
From stdpp Require Import base gmap strings tactics relations list.
From Stdlib Require Import ZArith Ascii Lia.
Import Encoding Redact RedactSafe ErrTrack LogStream.
Local Open Scope Z_scope.

Module LogSafe.

Section runs.
Context {F V C S : Type} `{Num F}.
Context (sha256 : string → string) (level_string format_g : Z → string) (rfc3339 : time → string) (add_to : list field → gmap string V).
Context (ordered : list GroupSummary → list GroupSummary).

(** A line is logged through the [With]s given first, on the root context. *)
Inductive op :=
| OLine (withs : list (list field)) (line : entry * list field)
| OTick (now : time) (inFlight : bool)
| ORequest (attestation : option Attestation.AttestationReport) (nowText : string) (r : request)
| ONext (errors : bool) (ch : nat)
| OGone (errors : bool) (ch : nat).

Inductive shown_to_client := Answer (r : response (V := V)) | Logged (e : LogEntry (V := V)) | Streamed (e : StreamEvent).

Definition line_on (k : core C (world (F := F) (V := V) S)) (root : C) (withs : list (list field)) (line : entry * list field) (w : world S) : world S :=
  log k (foldl (co_With k) root withs) line.1 line.2 w.

Definition exec (k : core C (world (F := F) (V := V) S)) (root : C) (origins : string) (w : world S) (o : op) : world S * option shown_to_client :=
  match o with
  | OLine withs line => (line_on k root withs line w, None)
  | OTick now inFlight => (mkWorld S (w_out S w) (w_server S w) now inFlight, None)
  | ORequest attestation nowText r =>
      let '(s, resp) := serve ordered level_string attestation nowText origins r (w_server S w) in (set_server s w, Some (Answer resp))
  | ONext true ch => match next_error ch (w_server S w) with Some (ev, s) => (set_server s w, Some (Streamed ev)) | None => (w, None) end
  | ONext false ch => match next_log ch (w_server S w) with Some (e, s) => (set_server s w, Some (Logged e)) | None => (w, None) end
  | OGone errors ch => (set_server (disconnect errors ch (w_server S w)) w, None)
  end.

Fixpoint run_ops (k : core C (world (F := F) (V := V) S)) (root : C) (origins : string) (w : world S) (ops : list op) : world S * list (option shown_to_client) :=
  match ops with
  | [] => (w, [])
  | o :: rest => let '(w, x) := exec k root origins w o in let '(w, xs) := run_ops k root origins w rest in (w, x :: xs)
  end.

(** ** Secrets do not leave *)

(** Two operations that differ in one secret. *)
Inductive op_step : op → op → Prop :=
| line_differs withs x y : line_step x y → op_step (OLine withs x) (OLine withs y)
| with_differs ws fs f g fs' ws' x : field_step f g → op_step (OLine (ws ++ (fs ++ f :: fs') :: ws') x) (OLine (ws ++ (fs ++ g :: fs') :: ws') x).

(** A core whose context and whose effect depend on what is shown only. *)
Record discreet {T} (k : core C T) : Prop := {
  discreet_With c fs gs : redactFields fs = redactFields gs → co_With k c fs = co_With k c gs;
  discreet_Write c x y s : e_Level x.1 = e_Level y.1 → shown x = shown y → co_Write k c x.1 x.2 s = co_Write k c y.1 y.2 s }.

Lemma shown_parts x y :
  shown x = shown y →
  with_message (scrubMessage (e_Message x.1)) x.1 = with_message (scrubMessage (e_Message y.1)) y.1 ∧ redactFields x.2 = redactFields y.2.
Proof. intros E. split; [exact (f_equal fst E)|exact (f_equal snd E)]. Qed.

Lemma redact_discreet (base : core C S) : discreet (NewRedactCore base).
Proof.
  split; cbn.
  - by intros c fs gs ->.
  - intros c x y s _ [Em Ef]%shown_parts. unfold redact_Write. by rewrite Em, Ef.
Qed.

Lemma lift_discreet (k : core C S) : discreet k → discreet (lift (F := F) (V := V) k).
Proof. intros [Hw Hr]. split; cbn; [done|]. intros c x y w Hl E. by rewrite (Hr c x y _ Hl E). Qed.

Lemma broadcast_discreet (k : core C (world (F := F) (V := V) S)) : discreet k → discreet (NewBroadcastCore level_string rfc3339 add_to k).
Proof.
  intros [Hw Hr]. split; cbn; [done|]. intros c x y w Hl E. unfold broadcast_Write. rewrite (Hr c x y w Hl E). apply shown_parts in E as [Em Ef].
  destruct (co_Write k c y.1 y.2 w) as [ok w']. unfold broadcast_entry. rewrite Ef. unfold with_message in Em. by injection Em as -> -> -> _ _.
Qed.

Lemma sanitized_same x y :
  shown x = shown y → sanitized_event level_string format_g x.1 x.2 = sanitized_event level_string format_g y.1 y.2.
Proof.
  intros [Em Ef]%shown_parts. unfold sanitized_event, SanitizeFields, SanitizeMessage. rewrite Ef. unfold with_message in Em. by injection Em as -> _ -> -> ->.
Qed.

Lemma capturing_discreet (k : core C (world (F := F) (V := V) S)) : discreet k → discreet (capturing sha256 level_string format_g k).
Proof.
  intros [Hw Hr]. split; cbn; [done|]. intros c x y w Hl E. unfold Write. rewrite (Hr c x y w Hl E), Hl. destruct (co_Write k c y.1 y.2 w) as [ok w'].
  destruct (_ <? _); [done|]. destruct (sr_errStore _) as [st|]; [|done]. unfold capture, event_id. by rewrite (sanitized_same x y E), Hl.
Qed.

Lemma logger_discreet (base : core C S) port enabled : discreet (logger (F := F) sha256 level_string format_g rfc3339 add_to base port enabled).
Proof.
  unfold logger. pose proof (lift_discreet _ (redact_discreet base)) as Hl. destruct (_ <? _); [|done].
  destruct enabled; auto using broadcast_discreet, capturing_discreet.
Qed.

Lemma with_same {T} (k : core C T) c ws fs f g fs' ws' :
  discreet k → field_step f g → foldl (co_With k) c (ws ++ (fs ++ f :: fs') :: ws') = foldl (co_With k) c (ws ++ (fs ++ g :: fs') :: ws').
Proof.
  intros Hk Hf. rewrite !foldl_app. cbn [foldl]. f_equal. apply (discreet_With k Hk). unfold redactFields. rewrite !fmap_app, !fmap_cons.
  by rewrite (redact_field_step f g Hf).
Qed.

Lemma exec_step (k : core C (world (F := F) (V := V) S)) root origins w o o' :
  discreet k → op_step o o' → exec k root origins w o = exec k root origins w o'.
Proof.
  intros Hk [ws x y Hx|ws fs f g fs' ws' x Hf]; cbn [exec]; f_equal; unfold line_on, log.
  - assert (e_Level x.1 = e_Level y.1) as El by (by destruct Hx). rewrite El. by rewrite (discreet_Write k Hk _ x y w El (shown_step x y Hx)).
  - by rewrite (with_same k root ws fs f g fs' ws' Hk Hf).
Qed.

Lemma run_same (k : core C (world (F := F) (V := V) S)) root origins w ops ops' :
  discreet k → Forall2 (rtc op_step) ops ops' → run_ops k root origins w ops = run_ops k root origins w ops'.
Proof.
  intros Hk H2. revert w. induction H2 as [|o o' ops ops' Ho _ IH]; intros w; [done|]. cbn [run_ops].
  assert (exec k root origins w o = exec k root origins w o') as -> by (induction Ho as [|? ? ? Hs _ IHo]; [done|by rewrite (exec_step k root origins w _ _ Hk Hs)]).
  destruct (exec k root origins w o') as [w' x]. by rewrite IH.
Qed.

(** C14: whatever the lines logged, the requests made to the log server and
    the clients reading its streams, two runs that differ only in secrets write
    the same output, send the same answers and events, and leave the same log
    buffer and error store.  A secret is anything at all in a field whose name
    starts with that of a credential, of an identity, of a holding or of a
    trade, contains "signature" or is that of a personal detail; and, in the
    text of a message, of a string, of an error or of a value printed as JSON,
    a value written as name=value, where the name is one of twenty-five names
    of credentials, signature, AccessKeyId, client_secret or the query
    parameter t, the value has letters, digits and + / . _ - only, and what
    follows it is none of those, no colon and no equals sign.  Either may be in
    the line itself or in the fields its logger carries.  A value written
    otherwise, such as the JSON member of a credential's name, is not covered. *)
Theorem logs_hide_secrets (base : core C S) root port enabled origins w ops ops' :
  Forall2 (rtc op_step) ops ops' →
  run_ops (logger (F := F) sha256 level_string format_g rfc3339 add_to base port enabled) root origins w ops
  = run_ops (logger (F := F) sha256 level_string format_g rfc3339 add_to base port enabled) root origins w ops'.
Proof. apply run_same, logger_discreet. Qed.

End runs.

(** ** A run *)

(** A base core that keeps every line it writes, with the fields it carries. *)
Definition keeping_core : core (list field) (list (entry * list field)) :=
  mkCore (λ _ level, 0 <=? level) app (λ c e fields s, (true, (e, c ++ fields) :: s)).

Definition no_caller : caller := mkCaller false "" 0.

Definition demo_ops (v : string) : list op :=
  [ OTick (5 * Second) false;
    OLine [[string_field "api_key" v]] (mkEntry ErrorLevel 0 ("refresh failed for https://h/x?t=" +:+ v +:+ "&q=1") no_caller "", [string_field "note" ("got password=" +:+ v); string_field "attempt" "2"]);
    ORequest None "" (mkRequest "GET" "/logs" "" "k" "") ].

Definition demo_world : world (F := float64) (V := field) (list (entry * list field)) := mkWorld _ [] (log_server 0 8090 "k" "" true 0 0) 0 false.

Definition demo_run (v : string) : world (F := float64) (V := field) (list (entry * list field)) * list (option shown_to_client) :=
  run_ops (λ _, "error") id
    (logger id (λ _, "error") (λ _, "") (λ _, "") (λ l, list_to_map ((λ f, (f_Key f, f)) <$> l)) keeping_core 8090 true) [] "" demo_world (demo_ops v).

Lemma demo_steps v1 v2 : is_value v1 = true → is_value v2 = true → Forall2 (rtc op_step) (demo_ops v1) (demo_ops v2).
Proof.
  intros H1 H2. apply Forall2_cons. split; [reflexivity|]. apply Forall2_cons. split; [|by repeat constructor].
  eapply rtc_l; [apply (with_differs [] [] (string_field "api_key" v1) (string_field "api_key" v2)); by apply named_field|].
  eapply rtc_l; [apply line_differs; apply message_differs, (secret_value "refresh failed for https://h/x" "?t" v1 v2 "&q=1"); done|].
  apply rtc_once, line_differs, (field_differs _ [] (string_field "note" _) (string_field "note" _)), text_field.
  pose proof (secret_value "got " "password" v1 v2 "" eq_refl H1 H2 eq_refl) as H. by rewrite !string_app_nil_r in H.
Qed.

(** The two runs are one, and what it wrote is the redacted line. *)
Lemma logs_hide_secrets_witness :
  demo_run "hunter2" = demo_run "letmein"
  ∧ map (λ x, (e_Message x.1, map (λ f, (f_Key f, f_String f)) x.2)) (w_out _ (demo_run "hunter2").1)
    = [("refresh failed for https://h/x[REDACTED]&q=1", [("api_key", redacted); ("note", redacted); ("attempt", "2")])].
Proof.
  split; [|vm_compute; reflexivity]. apply (logs_hide_secrets (F := float64) (V := field)). by apply demo_steps.
Defined.

(** ** Without the key *)

Section gate.
Context {F V : Type} `{Num F} (ordered : list GroupSummary → list GroupSummary) (level_string : Z → string).

Definition locked (r : request) (s : Server (F := F) (V := V)) : Prop := sr_apiKey s = "" ∨ rq_ApiKey r ≠ sr_apiKey s.

Lemma auth_locked next r (s s' : Server (F := F) (V := V)) :
  locked r s → sr_apiKey s' = sr_apiKey s →
  ∃ resp, authMiddleware next r s = (s, resp) ∧ authMiddleware next r s' = (s', resp).
Proof.
  intros Hl Hk. unfold authMiddleware. rewrite Hk. destruct (String.eqb_spec (sr_apiKey s) "") as [|Hne]; [by eexists|].
  destruct Hl as [|Hl]; [done|]. rewrite (proj2 (String.eqb_neq _ _) Hl), orb_true_r. by eexists.
Qed.

(** A request without the key of the log server, or to a server that has
    none, changes nothing, and its answer is the same whatever the server has
    logged, whoever reads its streams and whatever errors it has stored: it
    depends on the key, on whether attestation is configured and on the
    request only. *)
Theorem log_server_locked attestation nowText origins r (s s' : Server (F := F) (V := V)) :
  locked r s → sr_apiKey s' = sr_apiKey s → sr_attest s' = sr_attest s →
  ∃ resp, serve ordered level_string attestation nowText origins r s = (s, resp) ∧ serve ordered level_string attestation nowText origins r s' = (s', resp).
Proof.
  intros Hl Hk Ha. unfold serve, corsMiddleware. destruct (String.eqb (rq_Method r) "OPTIONS"); [by eexists|].
  assert (∃ resp, routes ordered level_string attestation nowText r s = (s, resp) ∧ routes ordered level_string attestation nowText r s' = (s', resp)) as (resp & -> & ->); [|by eexists].
  unfold routes. repeat (destruct (String.eqb (rq_Path r) _); [first [by apply auth_locked|unfold handleHealth, handleAttestation, handleAttestationInfo, only; rewrite ?Ha; destruct (String.eqb _ _); by eexists]|]).
  destruct (HasPrefix _ _); [by apply auth_locked|]. repeat (destruct (String.eqb (rq_Path r) _); [by apply auth_locked|]). by eexists.
Qed.

End gate.

(** The same refusal from a server that has logged a line and from one that
    has not. *)
Lemma log_server_locked_witness :
  let w := (demo_run "hunter2").1 in
  serve id (λ _, "error") None "" "" (mkRequest "POST" "/logs/clear" "" "wrong" "") (w_server _ w)
  = (w_server _ w, writeJSON 401 [("error", JS "Invalid or missing API key. Provide X-Api-Key header.")]).
Proof.
  cbv zeta. set (s := w_server _ (demo_run "hunter2").1). pose (r := mkRequest "POST" "/logs/clear" "" "wrong" "").
  destruct (log_server_locked (F := float64) (V := field) id (λ _, "error") None "" "" r (w_server _ demo_world) s) as (resp & E & E');
    [right; done|vm_compute; reflexivity|vm_compute; reflexivity|]. etransitivity; [exact E'|]. f_equal. injection E as <-. reflexivity.
Defined.

(** ** The error store, however its callers interleave *)

Section store.
Context {F : Type} `{Num F}.
Notation Store := (Store (F := F)).

(** The atomic steps of [Record] and of the readers: each counter, each locked
    section.  A hit updates the group only while it is in the table. *)
Inductive store_step (s : Store) : Store → Prop :=
| step_event : store_step s (count 1 0 0 0 s)
| step_dropped : store_step s (count 0 1 0 0 s)
| step_hit now id g : s_groups s !! id = Some g → store_step s (set_table (<[id := bump now g]> (s_groups s)) (s_lru s) s)
| step_front id : store_step s (MoveToFront id s)
| step_take now : store_step s (takeToken now s).2
| step_insert now id level ev : store_step s (insert_group now id level ev s)
| step_broadcast ev : store_step s (broadcast ev s)
| step_subscribe ch buffer : store_step s (Subscribe ch buffer s)
| step_cancel ch : store_step s (cancel ch s).

Record store_ok (s : Store) : Prop := {
  ok_nodup : NoDup (s_lru s);
  ok_lru id : id ∈ s_lru s ↔ is_Some (s_groups s !! id);
  ok_capacity : 1 <= s_capacity s;
  ok_size : Z.of_nat (size (s_groups s)) <= s_capacity s;
  ok_id id g : s_groups s !! id = Some g → g_ID g = id;
  ok_account : ∃ k, s_totalGroupsEv s = Z.of_nat (size (s_groups s)) + s_totalEvicted s + k * 2 ^ 64 }.

Lemma u64_turns z : ∃ k, u64 z = z + k * 2 ^ 64.
Proof. unfold u64. exists (- (z / 2 ^ 64)). pose proof (Z.div_mod z (2 ^ 64)). lia. Qed.

Lemma same_turn (z : Z) : ∃ k, z = z + k * 2 ^ 64.
Proof. exists 0. lia. Qed.

(** The table, the list and the two counters of groups are all that matters. *)
Lemma store_ok_ext s s' :
  s_groups s' = s_groups s → s_lru s' = s_lru s → s_capacity s' = s_capacity s →
  (∃ k, s_totalGroupsEv s' = s_totalGroupsEv s + k * 2 ^ 64) → (∃ k, s_totalEvicted s' = s_totalEvicted s + k * 2 ^ 64) → store_ok s → store_ok s'.
Proof.
  intros E1 E2 E3 [k1 E4] [k2 E5] [? ? ? ? ? [k Ha]]. split; rewrite ?E1, ?E2, ?E3; auto. exists (k + k1 - k2). lia.
Qed.

Lemma store_size s : store_ok s → size (s_groups s) = length (s_lru s).
Proof.
  intros Hs. rewrite <- (size_list_to_set (C := gset string) (s_lru s)) by apply Hs. rewrite <- size_dom. f_equal. apply set_eq. intros id.
  rewrite elem_of_list_to_set, elem_of_dom. symmetry. apply Hs.
Qed.

Lemma hit_ok s now id g : store_ok s → s_groups s !! id = Some g → store_ok (set_table (<[id := bump now g]> (s_groups s)) (s_lru s) s).
Proof.
  intros [Hn Hl Hc Hz Hi Ha] Hg. assert (size (<[id := bump now g]> (s_groups s)) = size (s_groups s)) as Es by (apply map_size_insert_Some; by eexists).
  split; cbn; rewrite ?Es; try done.
  - intros id'. rewrite Hl, lookup_insert_is_Some. destruct (decide (id = id')) as [<-|]; [|naive_solver]. rewrite Hg. naive_solver.
  - intros id' g'. rewrite lookup_insert_Some. intros [[<- <-]|[_ ?]]; [cbn; by apply Hi|by apply Hi].
Qed.

Lemma front_ok s id : store_ok s → store_ok (MoveToFront id s).
Proof.
  intros [Hn Hl Hc Hz Hi Ha]. unfold MoveToFront. case_bool_decide as Hin; [|by split]. split; cbn; try done.
  - apply NoDup_cons. split; [|by apply NoDup_filter]. rewrite list_elem_of_filter. naive_solver.
  - intros id'. rewrite <- Hl, elem_of_cons, list_elem_of_filter. destruct (decide (id' = id)); naive_solver.
Qed.

Lemma drop_oldest_ok s l x :
  store_ok s → s_lru s = l ++ [x] → store_ok (count 0 0 1 0 (set_table (delete x (s_groups s)) l s)) ∧ size (delete x (s_groups s)) = (size (s_groups s) - 1)%nat.
Proof.
  intros [Hn Hl Hc Hz Hi Ha] E. rewrite E in *. assert (is_Some (s_groups s !! x)) as Hx by (apply Hl, elem_of_app; right; by apply list_elem_of_singleton).
  assert (size (s_groups s) ≠ 0%nat) as Hne by (intros E0%map_size_empty_inv; rewrite E0, lookup_empty in Hx; by destruct Hx).
  assert (size (delete x (s_groups s)) = (size (s_groups s) - 1)%nat) as Es by (rewrite map_size_delete_Some by done; lia).
  split; [|done]. apply NoDup_app in Hn as (Hnl & Hdis & _). split; cbn; rewrite ?Es; try done.
  - intros id. rewrite lookup_delete_is_Some, <- Hl, elem_of_app, list_elem_of_singleton. split; [|naive_solver]. intros Hid. split; [|by left].
    intros ->. apply (Hdis _ Hid). by apply list_elem_of_singleton.
  - lia.
  - intros id g [_ Hg]%lookup_delete_Some. by apply Hi.
  - destruct Ha as [k Ha], (u64_turns (s_totalGroupsEv s + 0)) as [k1 ->], (u64_turns (s_totalEvicted s + 1)) as [k2 ->]. exists (k + k1 - k2). lia.
Qed.

Lemma evict_full_ok n s :
  store_ok s → n = length (s_lru s) →
  let s' := evict_full n s in
  store_ok s' ∧ Z.of_nat (size (s_groups s')) < s_capacity s' ∧ ∀ id, s_groups s !! id = None → s_groups s' !! id = None.
Proof.
  revert s. induction n as [|n IH]; intros s Hs En; cbn zeta; cbn [evict_full].
  - split_and!; [done| |done]. pose proof (store_size s Hs). pose proof (ok_capacity s Hs). lia.
  - destruct (Z.ltb_spec (Z.of_nat (size (s_groups s))) (s_capacity s)); [done|].
    destruct (last (s_lru s)) as [x|] eqn:El; [|apply last_None in El; rewrite El in En; done]. apply last_Some in El as [l El].
    assert (take (length (s_lru s) - 1) (s_lru s) = l) as ->.
    { rewrite El, length_app. cbn [length]. replace (length l + 1 - 1)%nat with (length l) by lia. apply take_app_length. }
    destruct (drop_oldest_ok s l x Hs El) as [Hok Es]. rewrite El, length_app in En. cbn [length] in En.
    destruct (IH _ Hok) as (H1 & H2 & H3); [cbn; lia|]. split_and!; [done|done|]. intros id Hid. apply H3. cbn. by apply lookup_delete_None; right.
Qed.

Lemma insert_group_ok s now id level ev : store_ok s → store_ok (insert_group now id level ev s).
Proof.
  intros Hs. unfold insert_group. destruct (s_groups s !! id) as [g|] eqn:E; [eapply store_ok_ext; [..|by apply (hit_ok s now id g)]; [done..|apply same_turn|apply same_turn]|].
  destruct (evict_full_ok _ s Hs eq_refl) as ([Hn Hl Hc Hz Hi Ha] & Hlt & Hnew). specialize (Hnew id E). set (s1 := evict_full _ s) in *.
  assert (size (<[id := mkGroup id (unix now) (unix now) 1 level ev]> (s_groups s1)) = S (size (s_groups s1))) as Es by (by apply map_size_insert_None).
  split; cbn; rewrite ?Es; try done.
  - apply NoDup_cons. split; [|done]. rewrite Hl, Hnew. by intros [? ?].
  - intros id'. rewrite elem_of_cons, Hl, lookup_insert_is_Some. destruct (decide (id = id')); naive_solver.
  - lia.
  - intros id' g'. rewrite lookup_insert_Some. intros [[<- <-]|[_ ?]]; [done|by apply Hi].
  - destruct Ha as [k Ha], (u64_turns (s_totalGroupsEv s1 + 1)) as [k1 ->], (u64_turns (s_totalEvicted s1 + 0)) as [k2 ->]. exists (k + k1 - k2). lia.
Qed.

Lemma count_ok s e d : store_ok s → store_ok (count e d 0 0 s).
Proof.
  apply store_ok_ext; [done..| |]; cbn; rewrite Z.add_0_r; apply u64_turns.
Qed.

Lemma take_ok s now : store_ok s → store_ok (takeToken now s).2.
Proof. unfold takeToken. repeat case_match; cbn in *; apply store_ok_ext; auto using same_turn. Qed.

Lemma step_ok s s' : store_step s s' → store_ok s → store_ok s'.
Proof.
  intros [] Hs; auto using count_ok, hit_ok, front_ok, take_ok, insert_group_ok; apply (store_ok_ext s); auto using same_turn.
Qed.

Lemma new_store_ok now capacity rate : store_ok (NewStore now capacity rate : Store).
Proof.
  split; cbn; [constructor| | | | |by exists 0].
  - intros id. rewrite lookup_empty, elem_of_nil. split; [done|by intros [? ?]].
  - unfold DefaultCapacity. destruct (Z.leb_spec capacity 0); lia.
  - rewrite map_size_empty. unfold DefaultCapacity. destruct (Z.leb_spec capacity 0); lia.
  - intros id g. by rewrite lookup_empty.
Qed.

(** The sequential [Record] is a run of these steps. *)
Lemma Record_steps now id level ev (s : Store) : rtc store_step s (Record_ now id level ev s).2.
Proof.
  unfold Record_. eapply rtc_l; [apply step_event|]. set (s1 := count 1 0 0 0 s). destruct (s_groups s1 !! id) as [g|] eqn:E; cbn [snd].
  - unfold hit_group. eapply rtc_l; [by apply step_hit|]. destruct (_ =? 0); [eapply rtc_l; [apply step_front|]|]; apply rtc_once, step_broadcast.
  - pose proof (step_take s1 now) as Ht. destruct (takeToken now s1) as [[] s2]; (eapply rtc_l; [exact Ht|]); apply rtc_once; [apply step_insert|apply step_dropped].
Qed.

(** C15: under any interleaving of the atomic steps of its callers, the error
    store keeps at most [capacity] groups, its recency list names each of them
    once and nothing else, and the number of groups it ever created is the
    number it holds plus the number it evicted (up to the wrap of the two
    64-bit counters). *)
Theorem error_store_bounded now capacity rate (s : Store) : rtc store_step (NewStore now capacity rate) s → store_ok s.
Proof.
  intros Hr. assert (∀ a b, rtc store_step a b → store_ok a → store_ok b) as H'; [|by eapply H', new_store_ok].
  clear. induction 1; eauto using step_ok.
Qed.

End store.

(** A store that has seen the same new group twice and one more. *)
Definition demo_event : SanitizedEvent := mkEvent "error" "m" "" [] ∅ "".

Lemma error_store_bounded_witness :
  let s := (Record_ 3 "b" 2 demo_event (Record_ 2 "a" 2 demo_event (Record_ 1 "a" 2 demo_event (NewStore 0 1 5 : Store (F := float64))).2).2).2 in
  store_ok s ∧ s_lru s = ["b"] ∧ s_totalEvicted s = 1.
Proof.
  cbv zeta. split; [|split; vm_compute; reflexivity]. apply (error_store_bounded (F := float64) 0 1 5).
  etransitivity; [apply Record_steps|]. etransitivity; [apply Record_steps|]. apply Record_steps.
Defined.

End LogSafe.
