(* ===== verification/LogRate.v ===== *)
(** * How fast the error store can grow

    The token bucket in front of new error groups, in exact arithmetic. *)

From S2P Require Import Prelude GoTime Num NumReal Redact ErrTrack.
From stdpp Require Import base gmap strings tactics list.
From Stdlib Require Import ZArith Lia Reals Lra.
Import ErrTrack.

Module LogRate.

Section rate.
Local Open Scope R_scope.

Lemma seconds_exact d : Seconds (F := R) d = IZR d / 1000000000.
Proof.
  unfold Seconds. cbn [fadd fdiv fofZ num_R]. rewrite (Z.quot_rem' d Second) at 3. rewrite plus_IZR, mult_IZR. unfold Second. lra.
Qed.

Context (t0 : time) (rate : Z) (Hrate : (0 <= rate)%Z).

(** What the bucket has handed out since [t0], at most. *)
Definition spent (s : Store (F := R)) : R := IZR rate * (1 + IZR (s_lastRefill s - t0) / 1000000000) - s_tokens s.

Record bucket_ok (tmax : time) (s : Store (F := R)) : Prop := {
  bo_rate : s_refillRate s = IZR rate;
  bo_times : (t0 <= s_lastRefill s <= tmax)%Z;
  bo_tokens : 0 <= s_tokens s }.

Lemma refill_spends tmax now s tk :
  bucket_ok tmax s → (now <= tmax)%Z → (0 < Sub now (s_lastRefill s))%Z → 0 <= tk <= s_tokens s + IZR (Sub now (s_lastRefill s)) / 1000000000 * s_refillRate s →
  bucket_ok tmax (set_bucket tk now s) ∧ spent s <= spent (set_bucket tk now s).
Proof.
  intros [Hr Ht Hk] Hn Hpos Htk. assert (Sub now (s_lastRefill s) <= now - s_lastRefill s)%Z as Hs by (unfold Sub, minDuration, maxDuration in *; lia).
  split; [split; cbn; [done|lia|lra]|]. unfold spent. cbn [s_lastRefill s_tokens set_bucket]. rewrite Hr in Htk.
  replace (now - t0)%Z with ((s_lastRefill s - t0) + (now - s_lastRefill s))%Z by lia. rewrite (plus_IZR (s_lastRefill s - t0)).
  apply IZR_le in Hs. apply IZR_le in Hrate.
  pose proof (Rmult_le_compat_r (IZR rate) (IZR (Sub now (s_lastRefill s)) / 1000000000) (IZR (now - s_lastRefill s) / 1000000000) ltac:(lra) ltac:(lra)). lra.
Qed.

Lemma take_spends tmax now s ok s' :
  bucket_ok tmax s → 0 <= s_maxTokens s → (now <= tmax)%Z → takeToken now s = (ok, s') →
  bucket_ok tmax s' ∧ s_maxTokens s' = s_maxTokens s ∧ spent s + (if ok then 1 else 0) <= spent s'.
Proof.
  intros Hb Hm Hn. unfold takeToken. rewrite seconds_exact. set (s1 := if fltb f0 _ then _ else s).
  assert (bucket_ok tmax s1 ∧ s_maxTokens s1 = s_maxTokens s ∧ spent s <= spent s1) as (Hb1 & Em & Hs1).
  { subst s1. destruct (fltb _ _) eqn:E; [|split_and!; [done|done|lra]].
    apply R_ltb in E. rewrite R_f0 in E. assert (0 < Sub now (s_lastRefill s))%Z as Hpos by (apply lt_IZR; lra).
    destruct (refill_spends tmax now s (if fltb (s_maxTokens s) (s_tokens s + IZR (Sub now (s_lastRefill s)) / 1000000000 * s_refillRate s) then s_maxTokens s
                                        else s_tokens s + IZR (Sub now (s_lastRefill s)) / 1000000000 * s_refillRate s) Hb Hn Hpos) as [? ?]; [|done].
    destruct Hb as [Hr Ht Hk]. assert (0 <= IZR (Sub now (s_lastRefill s)) / 1000000000 * s_refillRate s).
    { rewrite Hr. apply Rmult_le_pos; [lra|by apply IZR_le]. }
    destruct (fltb (s_maxTokens s) _) eqn:Em; [apply R_ltb in Em|]; lra. }
  destruct (fltb (s_tokens s1) f1) eqn:E; intros [= <- <-]; (split; [|split; [done|]]); [done|lra| |].
  - destruct Hb1 as [Hr Ht Hk]. apply R_ltb_false in E. rewrite R_f1 in E. split; cbn; [done|done|lra].
  - revert Hs1. unfold spent. cbn -[s1]. lra.
Qed.

(** ** Runs of [Record] *)

Definition recorded : Type := time * string * Z * SanitizedEvent.

Definition record1 (s : Store (F := R)) (r : recorded) : Store := let '(now, id, level, ev) := r in (Record_ now id level ev s).2.

Record run_ok (tmax : time) (s : Store (F := R)) : Prop := {
  ro_bucket : bucket_ok tmax s;
  ro_max : 0 <= s_maxTokens s;
  ro_created : (0 <= s_totalGroupsEv s)%Z ∧ IZR (s_totalGroupsEv s) <= spent s }.

Lemma u64_le z : (0 <= z)%Z → (0 <= u64 z <= z)%Z.
Proof. intros Hz. unfold u64. split; [by apply Z.mod_pos_bound|by apply Z.mod_le]. Qed.

(** The same bucket, and no more groups counted. *)
Record quiet (s s' : Store (F := R)) : Prop := {
  qu_tokens : s_tokens s' = s_tokens s;
  qu_max : s_maxTokens s' = s_maxTokens s;
  qu_rate : s_refillRate s' = s_refillRate s;
  qu_last : s_lastRefill s' = s_lastRefill s;
  qu_created : (0 <= s_totalGroupsEv s → 0 <= s_totalGroupsEv s' <= s_totalGroupsEv s)%Z }.

Lemma quiet_trans s1 s2 s3 : quiet s1 s2 → quiet s2 s3 → quiet s1 s3.
Proof. intros [A1 A2 A3 A4 A5] [B1 B2 B3 B4 B5]. split; try congruence. lia. Qed.

Lemma quiet_refl s : quiet s s.
Proof. split; done || lia. Qed.

Lemma quiet_table groups lru s : quiet s (set_table groups lru s).
Proof. split; cbn; done || lia. Qed.

Lemma quiet_count e d v s : quiet s (count e d v 0 s).
Proof. split; cbn; try done. rewrite Z.add_0_r. apply u64_le. Qed.

Lemma quiet_broadcast ev s : quiet s (broadcast ev s).
Proof. split; cbn; done || lia. Qed.

Lemma quiet_front id s : quiet s (MoveToFront id s).
Proof. unfold MoveToFront. case_bool_decide; auto using quiet_table, quiet_refl. Qed.

Lemma quiet_evict n s : quiet s (evict_full n s).
Proof.
  revert s. induction n as [|n IH]; intros s; cbn [evict_full]; [apply quiet_refl|]. destruct (_ <? _)%Z; [apply quiet_refl|].
  destruct (last _); [|apply quiet_refl]. eauto using quiet_trans, quiet_table, quiet_count.
Qed.

Lemma quiet_ok tmax s s' : quiet s s' → run_ok tmax s → run_ok tmax s'.
Proof.
  intros [E1 E2 E3 E4 E5] [[Hr Ht Hk] Hm [Hp Hc]]. specialize (E5 Hp). split; [split|..]; unfold spent in *; rewrite ?E1, ?E2, ?E3, ?E4; try done.
  split; [lia|]. destruct E5 as [_ E5%IZR_le]. lra.
Qed.

Lemma insert_ok tmax now id level ev s :
  bucket_ok tmax s → 0 <= s_maxTokens s → (0 <= s_totalGroupsEv s)%Z → IZR (s_totalGroupsEv s) + 1 <= spent s →
  run_ok tmax (insert_group now id level ev s).
Proof.
  intros Hb Hm Hp Hc. unfold insert_group. destruct (s_groups s !! id) as [g|].
  - eapply quiet_ok; [eapply quiet_trans; [apply quiet_table|apply quiet_broadcast]|]. split; [done..|split; [done|lra]].
  - eapply quiet_ok; [apply quiet_broadcast|]. pose proof (quiet_evict (length (s_lru s)) s) as Hq. set (s1 := evict_full _ s) in *.
    assert (run_ok tmax s1) as [[Hr Ht Hk] Hm1 _] by (eapply quiet_ok; [exact Hq|]; split; [done..|split; [done|lra]]). destruct Hq as [E1 E2 E3 E4 E5]. specialize (E5 Hp).
    assert (spent (count 0 0 0 1 (set_table (<[id := mkGroup id (unix now) (unix now) 1 level ev]> (s_groups s1)) (id :: s_lru s1) s1)) = spent s) as Es by (unfold spent; cbn [s_lastRefill s_tokens count set_table]; by rewrite E1, E4).
    split; [split; cbn; done|done|]. rewrite Es. cbn. pose proof (u64_le (s_totalGroupsEv s1 + 1) ltac:(lia)) as Hu. split; [lia|].
    assert (IZR (u64 (s_totalGroupsEv s1 + 1)) <= IZR (s_totalGroupsEv s + 1)) as Hle by (apply IZR_le; lia). rewrite plus_IZR in Hle. lra.
Qed.

Lemma record_ok tmax now id level ev s : (now <= tmax)%Z → run_ok tmax s → run_ok tmax (Record_ now id level ev s).2.
Proof.
  intros Hn Hs. unfold Record_. apply (quiet_ok _ _ _ (quiet_count 1 0 0 s)) in Hs. set (s1 := count 1 0 0 0 s) in *. destruct (s_groups s1 !! id) as [g|].
  - eapply quiet_ok; [|exact Hs]. unfold hit_group. destruct (_ =? _)%Z; eauto using quiet_trans, quiet_table, quiet_front, quiet_broadcast.
  - destruct Hs as [Hb Hm [Hp Hc]]. destruct (takeToken now s1) as [ok s2] eqn:E. destruct (take_spends tmax now s1 ok s2 Hb Hm Hn E) as (Hb2 & Em & Hsp).
    assert (s_totalGroupsEv s2 = s_totalGroupsEv s1) as Ec by (unfold takeToken in E; repeat case_match; by simplify_eq).
    destruct ok; cbn [negb snd].
    + apply insert_ok; rewrite ?Em, ?Ec; auto. lra.
    + eapply quiet_ok; [apply quiet_count|]. split; rewrite ?Em, ?Ec; auto. split; [done|lra].
Qed.

End rate.

(** In exact arithmetic, over any calls of [Record] between the creation
    of the store and [tmax], the groups ever created are at most the rate's
    burst plus the rate for each second gone by. *)
Theorem new_groups_rate t0 tmax capacity rate (rs : list recorded) :
  (t0 <= tmax)%Z → Forall (λ r, r.1.1.1 <= tmax)%Z rs →
  let rate' := (if rate <=? 0 then DefaultNewGroupRate else rate)%Z in
  (IZR (s_totalGroupsEv (foldl record1 (NewStore t0 capacity rate) rs)) <= IZR rate' * (1 + IZR (tmax - t0) / 1000000000))%R.
Proof.
  intros Ht Hrs rate'. assert (0 <= rate')%Z as Hr' by (unfold rate', DefaultNewGroupRate; destruct (Z.leb_spec rate 0); lia).
  assert (run_ok t0 rate' tmax (NewStore t0 capacity rate)) as H0.
  { split; [split; cbn; [done|lia|]|cbn|split; [done|unfold spent; cbn; rewrite Z.sub_diag; fold rate'; lra]]; by apply IZR_le. }
  assert (∀ s, run_ok t0 rate' tmax s → run_ok t0 rate' tmax (foldl record1 s rs)) as Hrun.
  { induction Hrs as [|[[[now id] level] ev] rs Hn _ IH]; intros s Hs; [done|]. cbn [foldl]. by apply IH, record_ok. }
  destruct (Hrun _ H0) as [[_ [Hl1 Hl2] Hk] _ [_ Hc]]. eapply Rle_trans; [exact Hc|]. unfold spent.
  apply IZR_le in Hr'. assert (IZR (s_lastRefill (foldl record1 (NewStore t0 capacity rate) rs) - t0) <= IZR (tmax - t0))%R as Hle by (apply IZR_le; lia).
  pose proof (Rmult_le_compat_l (IZR rate') _ _ Hr' Hle). lra.
Qed.

End LogRate.
