(* ===== verification/Venue.v ===== *)
(** * What the crypto venues share (internal/connector/base_crypto.go,
    cashflow_notes.go)

    The retried request, the signatures, the valuation of holdings and the
    markers of flows no price could value.  The transport is what each attempt
    met; HMAC-SHA256 and [http.ParseTime] are parameters. *)

From S2P Require Import Prelude GoTime GoText Num Encoding Redact.
From stdpp Require Import base gmap strings pretty tactics list.
From Stdlib Require Import ZArith Ascii Lia.
Import Encoding.
Local Open Scope Z_scope.

Module Venue.

(** ** Instants and errors *)

(** [t.UnixMilli()] and [time.UnixMilli] *)
Definition Millisecond : duration := 1000000.
Definition UnixMilli (t : time) : Z := t / Millisecond.
Definition of_milli (ms : Z) : time := ms * Millisecond.

(** The text, and whether [errors.Is(err, ErrTransient)]. *)
Record verror := mkError { ve_text : string; ve_transient : bool }.

Definition answer (A : Type) : Type := A + verror.

(** [fmt.Errorf("<prefix>: %w", err)] *)
Definition wrapped (prefix : string) (e : verror) : verror := mkError (prefix +:+ ": " +:+ ve_text e) (ve_transient e).

Definition ErrTransient : string := "transient connector error".
Definition ErrSpotPricingUnavailable : string := ErrTransient +:+ ": spot price map unavailable".
Definition ErrResponseTooLarge : string := "connector response exceeds cap".

Definition errorBodyMaxLen : nat := N.to_nat 512.
Definition DefaultMaxResponseBytes : nat := N.to_nat 8388608.

Definition TruncatedBody (body : string) : string :=
  if Nat.leb (String.length body) errorBodyMaxLen then body else String.substring 0 errorBodyMaxLen body +:+ "...[truncated]".

Definition vendorErrorDetail (msg : string) : string := Redact.scrubMessage (TruncatedBody msg).

(** The body, and an error when it was cut; [stream] is all the upstream sends. *)
Definition ReadCappedBody (stream : string) (max : nat) : string * option string :=
  let body := String.substring 0 (max + 1) stream in
  if Nat.ltb max (String.length body) then (String.substring 0 max body, Some ErrResponseTooLarge) else (body, None).

(** ** Retries *)

Definition maxRetryAttempts : nat := 3.
Definition baseBackoff : duration := 500000000.
Definition maxBackoff : duration := 5 * Second.

Definition isRetryableStatus (code : Z) : bool := existsb (Z.eqb code) [429; 500; 502; 503; 504].

(** The low 64 bits of an integer, as [int64]. *)
Definition int64 (z : Z) : Z := (z + 2 ^ 63) mod 2 ^ 64 - 2 ^ 63.

(** [until] is [time.Until] of the header read as a date. *)
Definition parseRetryAfter (v : string) (until : option duration) (fallback : duration) : duration :=
  if String.eqb v "" then fallback
  else
    let date := match until with Some d => if d <? 0 then fallback else Z.min d maxBackoff | None => fallback end in
    match ParseInt v with
    | Some secs => if 0 <? secs then Z.min (int64 (secs * Second)) maxBackoff else date
    | None => date
    end.

(** What one attempt meets: the request cannot be built, the network fails,
    the body cannot be read, or a response with its Retry-After header. *)
Inductive met :=
| NoRequest (e : string)
| NoConnection (e : string)
| Unread (e : string)
| Response (code : Z) (body : string) (retryAfter : string) (until : option duration).

(** [at_ctx] is the context's error, seen at once after a network error and
    during the wait otherwise. *)
Record attempt := mkAttempt { at_met : met; at_ctx : option string }.

Definition http_error (code : Z) (body : string) : string := "HTTP " +:+ pretty code +:+ ": " +:+ TruncatedBody body.

(** How the attempt ends: an answer at once, or the last body, the last error
    and the backoff to wait. *)
Definition try_once (a : attempt) (lastBody : string) (backoff : duration) : (string * option verror) + (string * string * duration) :=
  match at_met a with
  | NoRequest e => inl ("", Some (mkError e false))
  | NoConnection e => match at_ctx a with Some c => inl ("", Some (mkError c false)) | None => inr (lastBody, e, backoff) end
  | Unread e => inr (lastBody, e, backoff)
  | Response code stream retryAfter until =>
      let '(body, cut) := ReadCappedBody stream DefaultMaxResponseBytes in
      match cut with
      | Some e => inr (lastBody, e, backoff)
      | None =>
          if (200 <=? code) && (code <? 300) then inl (body, None)
          else if negb (isRetryableStatus code) then inl (body, Some (mkError (http_error code body) false))
          else inr (body, http_error code body, parseRetryAfter retryAfter until backoff)
      end
  end.

(** [left] attempts remain after this one; the waits are returned too.  The
    attempts are [at_ n] for [n] = 0, 1, 2. *)
Fixpoint retry_from (left : nat) (at_ : nat → attempt) (n : nat) (lastBody : string) (backoff : duration) : string * option verror * list duration :=
  match try_once (at_ n) lastBody backoff with
  | inl (body, e) => (body, e, [])
  | inr (lastBody, e, backoff) =>
      match left with
      | O => (lastBody, Some (mkError (ErrTransient +:+ ": " +:+ e) true), [])
      | S left' =>
          match at_ctx (at_ n) with
          | Some c => (lastBody, Some (mkError c false), [backoff])
          | None =>
              let '(body, err, waits) := retry_from left' at_ (S n) lastBody (Z.min (2 * backoff) maxBackoff) in
              (body, err, backoff :: waits)
          end
      end
  end.

Definition retryHTTP (at_ : nat → attempt) : string * option verror * list duration :=
  retry_from (maxRetryAttempts - 1) at_ 0 "" baseBackoff.

(** *** The retries end, soon, and only a passing failure is marked so *)

Definition passing (a : attempt) : bool :=
  match at_met a with
  | NoRequest _ => false
  | NoConnection _ | Unread _ => true
  | Response code stream _ _ => Nat.ltb DefaultMaxResponseBytes (String.length stream) || isRetryableStatus code
  end.

Lemma parseRetryAfter_le v u f : f <= maxBackoff → parseRetryAfter v u f <= maxBackoff.
Proof. intros Hf. unfold parseRetryAfter. repeat case_match; lia. Qed.

Lemma read_capped s max : (ReadCappedBody s max).2 = if Nat.ltb max (String.length s) then Some ErrResponseTooLarge else None.
Proof.
  unfold ReadCappedBody. rewrite substring_length. destruct (Nat.ltb_spec max (Nat.min (max + 1) (String.length s))), (Nat.ltb_spec max (String.length s)); cbn; done || lia.
Qed.

(** An attempt leads to another only after a passing failure. *)
Lemma try_once_again a b d b' e d' : try_once a b d = inr (b', e, d') → d <= maxBackoff → passing a = true ∧ d' <= maxBackoff.
Proof.
  unfold try_once, passing. destruct (at_met a) as [e0|e0|e0|code stream v u]; [done|destruct (at_ctx a); [done|]; naive_solver|naive_solver|].
  pose proof (read_capped stream DefaultMaxResponseBytes) as Hc. destruct (ReadCappedBody _ _) as [body cut]. cbn [snd] in Hc. subst cut.
  destruct (Nat.ltb _ _); [naive_solver|]. destruct (_ && _); [done|]. destruct (isRetryableStatus code); [|done]. intros [= <- <- <-] Hd.
  split; [done|by apply parseRetryAfter_le].
Qed.

Lemma retry_from_spec left at_ n b d body e ws :
  d <= maxBackoff → retry_from left at_ n b d = (body, e, ws) →
  (length ws <= left)%nat ∧ Forall (λ w, w <= maxBackoff) ws ∧
  (∀ x, e = Some x → ve_transient x = true → ∀ k, (n <= k <= n + left)%nat → passing (at_ k) = true).
Proof.
  revert n b d body e ws. induction left as [|left IH]; intros n b d body e ws Hd; cbn [retry_from];
    destruct (try_once (at_ n) b d) as [[b1 e1]|[[b1 e1] d1]] eqn:Et.
  all: try (apply try_once_again in Et as [Hp Hd1]; [|done]).
  - intros [= <- <- <-]. split_and!; [done|done|]. intros x -> Hx. exfalso. revert Et Hx. unfold try_once. repeat case_match; intros; simplify_eq; done.
  - intros [= <- <- <-]. split_and!; [done|done|]. intros x [= <-] _ k Hk. by replace k with n by lia.
  - intros [= <- <- <-]. split_and!; [cbn; lia|done|]. intros x -> Hx. exfalso. revert Et Hx. unfold try_once. repeat case_match; intros; simplify_eq; done.
  - destruct (at_ctx (at_ n)) as [c|].
    + intros [= <- <- <-]. split_and!; [cbn; lia|by repeat constructor|]. by intros x [= <-].
    + destruct (retry_from left at_ (S n) b1 (Z.min (2 * d1) maxBackoff)) as [[b2 e2] ws2] eqn:Er. intros [= <- <- <-].
      apply IH in Er as (Hl & Hw & Ht); [|lia]. split_and!; [cbn; lia|by constructor|]. intros x Ex Hx k Hk.
      destruct (decide (k = n)) as [->|]; [done|]. apply (Ht x Ex Hx). lia.
Qed.

(** A request is sent at most three times, no wait between two attempts is
    longer than the cap whatever the server asks for, and an error is marked
    as passing only when each of the three attempts failed in a passing way. *)
Theorem retries_bounded at_ body e ws :
  retryHTTP at_ = (body, e, ws) →
  (length ws < maxRetryAttempts)%nat ∧ Forall (λ w, w <= maxBackoff) ws ∧
  (∀ x, e = Some x → ve_transient x = true → ∀ k, (k < maxRetryAttempts)%nat → passing (at_ k) = true).
Proof.
  unfold retryHTTP, maxRetryAttempts. intros (Hl & Hw & Ht)%retry_from_spec; [|done]. split_and!; [lia|done|]. intros x Ex Hx k Hk. apply (Ht x Ex Hx). lia.
Qed.

(** ** Rows kept once

    Pages may overlap: a row is kept the first time its id is seen. *)

Section unseen.
Context {A : Type} (id_of : A → Z).

Definition add_unseen (acc : gset Z * list A) (x : A) : gset Z * list A :=
  if bool_decide (id_of x ∈ acc.1) then acc else ({[id_of x]} ∪ acc.1, acc.2 ++ [x]).

Context (db : list A).
Hypothesis Hdb : NoDup (id_of <$> db).

Lemma row_by_id x y : x ∈ db → y ∈ db → id_of x = id_of y → x = y.
Proof.
  intros [i Hi]%list_elem_of_lookup [j Hj]%list_elem_of_lookup E. assert (i = j) as ->; [|congruence].
  eapply NoDup_lookup; [exact Hdb|rewrite list_lookup_fmap, Hi; done|]. rewrite list_lookup_fmap, Hj. cbn. by rewrite E.
Qed.

(** What has been read: distinct rows of the account, and their ids. *)
Record reading (acc : gset Z * list A) : Prop := {
  rd_seen i : i ∈ acc.1 ↔ i ∈ id_of <$> acc.2;
  rd_nodup : NoDup (id_of <$> acc.2);
  rd_db x : x ∈ acc.2 → x ∈ db }.

Lemma reading_nothing : reading (∅, []).
Proof. split; cbn [fst snd]; [intros i; by rewrite elem_of_empty, elem_of_nil|constructor|]. intros x. by rewrite elem_of_nil. Qed.

(** Whatever the ids: each id of the page is there once, by one of its rows. *)
Lemma add_unseen_ids page acc :
  (∀ x, x ∈ page → x ∈ db) → reading acc →
  reading (foldl add_unseen acc page) ∧ (∀ x, x ∈ (foldl add_unseen acc page).2 → x ∈ acc.2 ∨ x ∈ page) ∧
  ∀ i, i ∈ id_of <$> (foldl add_unseen acc page).2 ↔ i ∈ id_of <$> acc.2 ∨ i ∈ id_of <$> page.
Proof.
  clear Hdb. revert acc. induction page as [|y page IH]; intros acc Hp Hr; cbn [foldl].
  { split_and!; [done|tauto|]. intros i. rewrite elem_of_nil. tauto. }
  assert (∀ x, x ∈ page → x ∈ db) as Hp' by (intros; apply Hp; by right). unfold add_unseen at 2 4 6. case_bool_decide as Hin.
  - destruct (IH acc Hp' Hr) as (? & Hx & Hi). split_and!; [done|intros x [?|?]%Hx; [by left|right; by right]|].
    intros i. rewrite Hi, fmap_cons, elem_of_cons. apply (rd_seen acc Hr) in Hin. split; [tauto|]. intros [|[->|]]; tauto.
  - set (acc1 := ({[id_of y]} ∪ acc.1, acc.2 ++ [y])). assert (reading acc1) as Hr1.
    { split; cbn.
      - intros i. rewrite elem_of_union, elem_of_singleton, (rd_seen acc Hr), fmap_app, elem_of_app. cbn. rewrite list_elem_of_singleton. tauto.
      - rewrite fmap_app. apply NoDup_app. split_and!; [apply Hr| |apply NoDup_singleton]. intros i Hi. cbn. rewrite list_elem_of_singleton. intros ->. apply Hin. by apply (rd_seen acc Hr).
      - intros x [Hx|Hx%list_elem_of_singleton]%elem_of_app; [by apply (rd_db acc Hr)|subst; apply Hp; by left]. }
    destruct (IH acc1 Hp' Hr1) as (? & Hx & Hi). split_and!; [done| |].
    + intros x Hx'. apply Hx in Hx' as [Hx'|Hx']; [|right; by right]. cbn in Hx'. rewrite elem_of_app, list_elem_of_singleton in Hx'. destruct Hx' as [| ->]; [by left|right; by left].
    + intros i. rewrite Hi. cbn. rewrite fmap_app, elem_of_app, elem_of_cons. cbn. rewrite list_elem_of_singleton. tauto.
Qed.

Lemma add_unseen_reading page acc :
  (∀ x, x ∈ page → x ∈ db) → reading acc →
  reading (foldl add_unseen acc page) ∧ ∀ x, x ∈ (foldl add_unseen acc page).2 ↔ x ∈ acc.2 ∨ x ∈ page.
Proof.
  revert acc. induction page as [|y page IH]; intros acc Hp Hr; cbn [foldl].
  { split; [done|]. intros x. rewrite elem_of_nil. tauto. }
  assert (∀ x, x ∈ page → x ∈ db) as Hp' by (intros; apply Hp; by right). unfold add_unseen at 2 4. case_bool_decide as Hin.
  - destruct (IH acc Hp' Hr) as [? E]. split; [done|]. intros x. rewrite E, elem_of_cons. split; [tauto|]. intros [|[->|]]; [tauto| |tauto]. left.
    apply (rd_seen acc Hr), list_elem_of_fmap in Hin as (z & Ez & Hz). by rewrite (row_by_id y z (Hp y ltac:(by left)) (rd_db acc Hr z Hz) Ez).
  - set (acc1 := ({[id_of y]} ∪ acc.1, acc.2 ++ [y])). assert (reading acc1) as Hr1.
    { split; cbn.
      - intros i. rewrite elem_of_union, elem_of_singleton, (rd_seen acc Hr), fmap_app, elem_of_app. cbn. rewrite list_elem_of_singleton. tauto.
      - rewrite fmap_app. apply NoDup_app. split_and!; [apply Hr| |apply NoDup_singleton]. intros i Hi. cbn. rewrite list_elem_of_singleton. intros ->. apply Hin. by apply (rd_seen acc Hr).
      - intros x [Hx|Hx%list_elem_of_singleton]%elem_of_app; [by apply (rd_db acc Hr)|subst; apply Hp; by left]. }
    destruct (IH acc1 Hp' Hr1) as [? E]. split; [done|]. intros x. rewrite E. cbn. rewrite elem_of_app, list_elem_of_singleton, elem_of_cons. tauto.
Qed.

End unseen.

(** ** Signatures *)

Section sign.
Context (hmac : string → string → string).

Definition signHMACHex (secret msg : string) : string := hex_encode (hmac secret msg).
Definition signHMACBase64 (secret msg : string) : string := b64_encode (hmac secret msg).

(** The URL [signedQueryGET] asks, at a time in milliseconds. *)
Definition signed_query (baseURL path params apiSecret : string) (millis : Z) : string :=
  let query := (if String.eqb params "" then "" else params +:+ "&") +:+ "timestamp=" +:+ pretty millis in
  baseURL +:+ path +:+ "?" +:+ query +:+ "&signature=" +:+ signHMACHex apiSecret query.

End sign.

(** ** Valuation of holdings *)

Definition stablecoinsUSD : list string := ["USDT"; "USDC"; "USD"; "BUSD"; "DAI"; "FDUSD"; "TUSD"; "BNFCR"].

Definition IsStablecoinUSD (asset : string) : bool := existsb (String.eqb (ToUpper (TrimSpace asset))) stablecoinsUSD.

(** [strings.Trim] of double quotes *)
Definition quote_char : ascii := Ascii.ascii_of_N 34.
Fixpoint trim_quotes_left (s : string) : string :=
  match s with String c s' => if Ascii.eqb c quote_char then trim_quotes_left s' else s | EmptyString => s end.
Fixpoint trim_quotes_right (s : string) : string :=
  match s with
  | EmptyString => EmptyString
  | String c s' => match trim_quotes_right s' with EmptyString => if Ascii.eqb c quote_char then EmptyString else String c EmptyString | t => String c t end
  end.

Section value.
Context {F : Type} `{Num F} `{FloatText F}.

Definition ParseLooseNumber (raw : string) : F :=
  let s := trim_quotes_right (trim_quotes_left (TrimSpace raw)) in
  if String.eqb s "" || String.eqb s "null" then f0
  else let '(v, ok) := ParseFloat s in if ok then v else f0.

Record SpotHolding := mkHolding { sh_Asset : string; sh_Amount : F }.

(** A missing key reads as zero. *)
Definition price (priceMap : gmap string F) (symbol : string) : F := default f0 (priceMap !! symbol).

(** What one holding adds to the total. *)
Definition add_holding (priceMap : gmap string F) (total : F) (h : SpotHolding) : F :=
  if fleb (sh_Amount h) f0 then total
  else
    let asset := ToUpper (TrimSpace (sh_Asset h)) in
    let btcUSD := price priceMap "BTCUSDT" in
    if IsStablecoinUSD asset then fadd total (sh_Amount h)
    else if fltb f0 (price priceMap (asset +:+ "USDT")) then fadd total (fmul (sh_Amount h) (price priceMap (asset +:+ "USDT")))
    else if fltb f0 (price priceMap (asset +:+ "USDC")) then fadd total (fmul (sh_Amount h) (price priceMap (asset +:+ "USDC")))
    else if fltb f0 btcUSD && fltb f0 (price priceMap (asset +:+ "BTC")) then fadd total (fmul (fmul (sh_Amount h) (price priceMap (asset +:+ "BTC"))) btcUSD)
    else total.

Definition ValueSpotHoldingsUSD (holdings : list SpotHolding) (priceMap : gmap string F) : F := foldl (add_holding priceMap) f0 holdings.

(** The ticker list, decoded: symbols and prices as text. *)
Definition FetchBinanceStylePriceMap (tickers : answer (list (string * string))) : answer (gmap string F) :=
  match tickers with
  | inr e => inr e
  | inl l => inl (foldl (λ m t, let '(p, ok) := ParseFloat t.2 in if ok && fltb f0 p then <[ToUpper t.1 := p]> m else m) ∅ l)
  end.

End value.

(** ** Flows without a price (cashflow_notes.go) *)

Definition marker_char (c : ascii) : bool := Redact.between 65 90 c || Redact.between 48 57 c.

Fixpoint keep_chars (p : ascii → bool) (s : string) : string :=
  match s with EmptyString => EmptyString | String c s' => if p c then String c (keep_chars p s') else keep_chars p s' end.

Definition markerAsset (asset : string) : string :=
  let s := String.substring 0 15 (keep_chars marker_char (ToUpper asset)) in
  if Nat.ltb (String.length s) 2 then "" else s.

Definition unpriced_add (u : gset string) (asset : string) : gset string :=
  if String.eqb (markerAsset asset) "" then u else {[markerAsset asset]} ∪ u.

Definition markers (u : gset string) (exchange : string) : list string :=
  Strings ((λ a, exchange +:+ "_cashflow_unpriced:" +:+ a) <$> elements u).

End Venue.
