(* ===== verification/Binance.v ===== *)
(** * The Binance connector (internal/connector/binance.go,
    binance_subaccounts.go, and what they use of binance_probe.go)

    The venue is a record of the answers its endpoints give during one
    operation, decoded: a body that does not decode is an error of that
    answer.  A Go map that is iterated gives the order of a parameter. *)

From S2P Require Import Prelude GoTime GoText Num Types Encoding Venue.
From stdpp Require Import base gmap strings pretty tactics list.
From Stdlib Require Import ZArith Ascii Lia.
Import Encoding Venue.
Local Open Scope Z_scope.

Module Binance.

(** ** Wallets *)

Definition binanceWalletSpot : string := "spot".
Definition binanceWalletUM : string := "um_futures".
Definition binanceWalletCoinM : string := "coinm_futures".
Definition binanceWalletCross : string := "cross_margin".
Definition binanceWalletIsolated : string := "isolated_margin".
Definition binanceWalletEarn : string := "simple_earn".
Definition binanceWalletFunding : string := "funding".
Definition binanceWalletOption : string := "option".
Definition binanceWalletMining : string := "mining".

Definition WalletRead : string := "read".
Definition WalletUnreadable : string := "unreadable".

Record WalletCoverage := mkCoverage { wc_Wallet : string; wc_Status : string; wc_Reason : string }.

Definition noteWallet (coverage : list WalletCoverage) (wallet : string) (e : option verror) : list WalletCoverage :=
  coverage ++ [match e with None => mkCoverage wallet WalletRead "" | Some e => mkCoverage wallet WalletUnreadable (vendorErrorDetail (ve_text e)) end].

(** ** What the venue answers *)

Record spot_row := mkSpotRow { sp_Asset : string; sp_Free : string; sp_Locked : string }.
Record coin_row := mkCoinRow { co_Asset : string; co_Balance : string; co_CrossUnPnl : string; co_Available : string }.
Record earn_row := mkEarnRow { ea_Asset : string; ea_TotalAmount : string; ea_Amount : string }.
Record binanceFuturesAssetRow := mkAssetRow { fa_Asset : string; fa_Wallet : string; fa_Margin : string; fa_Unrealized : string; fa_Available : string }.
Record futures_account := mkFutures { fu_TotalWallet : string; fu_TotalMargin : string; fu_TotalUnrealized : string; fu_Available : string; fu_Assets : list binanceFuturesAssetRow }.
Record position_row := mkPositionRow { pr_Symbol : string; pr_Amt : string; pr_Entry : string; pr_Mark : string; pr_UnRealized : string }.
Record spot_fill := mkSpotFill { sf_Symbol : string; sf_Price : string; sf_Qty : string; sf_Commission : string; sf_Time : Z; sf_IsBuyer : bool }.
Record binanceFuturesFill := mkFill { fi_ID : Z; fi_Symbol : string; fi_Price : string; fi_Qty : string; fi_Commission : string; fi_Time : Z; fi_Side : string; fi_RealizedPnl : string }.
Record deposit_row := mkDeposit { dp_Coin : string; dp_Amount : string; dp_InsertTime : Z; dp_WalletType : Z }.
Record withdraw_row := mkWithdraw { wd_Coin : string; wd_Amount : string; wd_Fee : string; wd_CompleteTime : string; wd_WalletType : Z }.
Record transfer_row := mkTransfer { tf_Asset : string; tf_Amount : string; tf_Timestamp : Z; tf_Status : string }.
Record sub_row := mkSubRow { su_From : string; su_To : string; su_Asset : string; su_Qty : string; su_Status : string; su_TranID : string; su_Time : Z }.
Record sub_user_row := mkSubUser { uu_Asset : string; uu_Qty : string; uu_Type : Z; uu_Status : string; uu_Time : Z }.
Record income_row := mkIncome { in_Asset : string; in_Income : string; in_Time : Z }.
Record pay_row := mkPay { py_Amount : string; py_Currency : string; py_Time : Z; py_WalletType : Z }.
Record fiat_row := mkFiat { fr_Fiat : string; fr_Indicated : string; fr_Amount : string; fr_TotalFee : string; fr_Source : string; fr_Obtain : string; fr_Crypto : string; fr_Status : string; fr_CreateTime : Z }.

(** The endpoints; times are in milliseconds. *)
Record venue := mkVenue {
  v_tickers : answer (list (string * string));
  v_account : answer (list spot_row);
  v_coinM : answer (list coin_row);
  v_earn : bool → Z → answer (list earn_row * Z);
  v_margin : bool → answer string;
  (** a body that does not decode is told apart from a failed request *)
  v_fapiAccount : answer (futures_account + string);
  v_fapiBalance : answer (list coin_row);
  v_positionRisk : answer (list position_row);
  v_myTrades : string → Z → Z → answer (list spot_fill);
  v_userTrades : Z → Z → answer (list binanceFuturesFill);
  v_deposits : Z → Z → answer (list deposit_row);
  v_withdrawals : Z → Z → answer (list withdraw_row);
  v_transfers : string → Z → Z → answer (list transfer_row);
  v_transferPage : string → Z → Z → Z → answer (list transfer_row * Z);
  v_subAccounts : answer (list string);
  v_subTransfers : bool → string → Z → Z → answer (list sub_row);
  v_universal : option string → Z → Z → answer (list sub_row);
  v_subUser : Z → Z → answer (list sub_user_row);
  v_income : string → Z → Z → answer (list income_row);
  v_pay : Z → Z → answer (list pay_row);
  v_fiatOrders : bool → Z → Z → answer (list fiat_row);
  v_fiatPayments : bool → Z → Z → answer (list fiat_row) }.

Section binance.
Context {F : Type} `{Num F} `{FloatText F}.

(** ** State *)

Record Binance := mkBinance {
  b_cachedBreakdown : list (MarketBalance F);
  b_capabilityWarnings : list string;
  b_coverage : list WalletCoverage;
  b_cashflowNotes : list string }.

Definition NewBinance : Binance := mkBinance [] [] [] [].

Definition Coverage (b : Binance) : list WalletCoverage := b_coverage b.
Definition GetBalanceByMarket (b : Binance) : list (MarketBalance F) := b_cachedBreakdown b.
Definition CapabilityWarnings (b : Binance) : list string := b_capabilityWarnings b ++ b_cashflowNotes b.

(** ** Balances of each wallet *)

Section wallets.
Context (v : venue) (priceMap : gmap string F).

(** A line of the spot wallet; [LD] lines of a flexible Earn position are left
    to the Earn read. *)
Definition spot_line (earnFlexible : gset string) (acc : list (SpotHolding (F := F)) * F) (r : spot_row) : list SpotHolding * F :=
  let free := float_of (sp_Free r) in
  let total := fadd free (float_of (sp_Locked r)) in
  if fleb total f0 then acc
  else
    let a := ToUpper (sp_Asset r) in
    if HasPrefix a "LD" && bool_decide (drop_str 2 a ∈ earnFlexible) then acc
    else (acc.1 ++ [mkHolding (sp_Asset r) total], if IsStablecoinUSD (sp_Asset r) then fadd acc.2 free else acc.2).

Definition usdt (available equity unrealized : F) : Balance F := mkBalance available equity unrealized "USDT" ∅.

Definition getSpotBalance (earnFlexible : gset string) : answer (Balance F) :=
  match v_account v with
  | inr e => inr e
  | inl rows =>
      let '(holdings, stableAvailable) := foldl (spot_line earnFlexible) ([], f0) rows in
      inl (usdt stableAvailable (ValueSpotHoldingsUSD holdings priceMap) f0)
  end.

Definition coin_holding (a : coin_row) : option SpotHolding :=
  let mb := fadd (float_of (co_Balance a)) (float_of (co_CrossUnPnl a)) in
  if feqb mb f0 then None else Some (mkHolding (co_Asset a) mb).

Definition getCoinMFuturesEquity : answer F :=
  match v_coinM v with inr e => inr e | inl rows => inl (ValueSpotHoldingsUSD (omap coin_holding rows) priceMap) end.

Definition binanceEarnPageSize : Z := 100.
Definition binanceEarnMaxPages : nat := 20.

Record binanceEarn := mkEarn { be_positions : list (SpotHolding (F := F)); be_flexibleAssets : gset string }.

Definition earn_holding (r : earn_row) : option SpotHolding :=
  let qty := float_of (if String.eqb (ea_TotalAmount r) "" then ea_Amount r else ea_TotalAmount r) in
  if fltb f0 qty then Some (mkHolding (ea_Asset r) qty) else None.

Definition earn_path (flexible : bool) : string :=
  if flexible then "/sapi/v1/simple-earn/flexible/position" else "/sapi/v1/simple-earn/locked/position".

(** [left] more pages may be read. *)
Fixpoint earn_pages (flexible : bool) (left : nat) (page : Z) (out : list SpotHolding) : answer (list SpotHolding) :=
  match left with
  | O => inr (mkError (earn_path flexible +:+ ": more than " +:+ pretty (binanceEarnPageSize * Z.of_nat binanceEarnMaxPages) +:+ " positions") false)
  | S left' =>
      match v_earn v flexible page with
      | inr e => inr e
      | inl (rows, total) =>
          let out := out ++ omap earn_holding rows in
          if (Z.of_nat (length rows) <? binanceEarnPageSize) || (total <=? page * binanceEarnPageSize) then inl out
          else earn_pages flexible left' (page + 1) out
      end
  end.

Definition simpleEarnPositions (flexible : bool) : answer (list SpotHolding) := earn_pages flexible binanceEarnMaxPages 1 [].

Definition getSimpleEarn : answer binanceEarn :=
  match simpleEarnPositions true with
  | inr e => inr e
  | inl flexible =>
      match simpleEarnPositions false with
      | inr e => inr e
      | inl locked => inl (mkEarn (flexible ++ locked) (list_to_set ((ToUpper ∘ sh_Asset) <$> flexible)))
      end
  end.

Definition marginNetEquityUSD (isolated : bool) : answer F :=
  match v_margin v isolated with
  | inr e => inr e
  | inl text => let netBtc := float_of text in inl (if feqb netBtc f0 then f0 else fmul netBtc (price priceMap "BTCUSDT"))
  end.

Definition getCrossMarginEquity : answer F := marginNetEquityUSD false.
Definition getIsolatedMarginEquity : answer F := marginNetEquityUSD true.

(** *** USD-margined futures *)

(** Whether the totals leave the other margin assets out. *)
Fixpoint usdt_wallet (assets : list binanceFuturesAssetRow) : option string :=
  match assets with [] => None | a :: rest => if EqualFold (fa_Asset a) "USDT" then Some (fa_Wallet a) else usdt_wallet rest end.

Definition binanceTotalsCoverUSDTOnly (totalWallet : string) (assets : list binanceFuturesAssetRow) : bool :=
  let '(total, ok) := ParseFloat totalWallet in
  if negb ok then false
  else match usdt_wallet assets with
  | Some w => fltb (fabs (fsub total (float_of w))) (flit 1 8)
  | None => feqb total f0
  end.

Definition binanceMarginAssetUSD (asset qty : string) : F :=
  let q := float_of qty in
  if feqb q f0 then f0
  else let asset := ToUpper asset in if IsStablecoinUSD asset then q else fmul q (price priceMap (asset +:+ "USDT")).

Definition getFuturesBalanceFromBalanceEndpoint : answer (Balance F) :=
  match v_fapiBalance v with
  | inr e => inr e
  | inl rows =>
      let add (acc : F * F * F) (a : coin_row) :=
        if negb (IsStablecoinUSD (co_Asset a)) then acc
        else
          let upnl := float_of (co_CrossUnPnl a) in
          (fadd acc.1.1 (fadd (float_of (co_Balance a)) upnl), fadd acc.1.2 upnl, fadd acc.2 (float_of (co_Available a))) in
      let '(equity, unrealized, available) := foldl add (f0, f0, f0) rows in
      inl (usdt available equity unrealized)
  end.

Definition add_margin_asset (acc : F * F * F) (a : binanceFuturesAssetRow) : F * F * F :=
  if EqualFold (fa_Asset a) "USDT" then acc
  else (fadd acc.1.1 (binanceMarginAssetUSD (fa_Asset a) (fa_Margin a)),
        fadd acc.1.2 (binanceMarginAssetUSD (fa_Asset a) (fa_Unrealized a)),
        fadd acc.2 (binanceMarginAssetUSD (fa_Asset a) (fa_Available a))).

Definition getFuturesBalance : answer (Balance F) :=
  match v_fapiAccount v with
  | inr _ => getFuturesBalanceFromBalanceEndpoint
  | inl (inr e) => inr (mkError e false)
  | inl (inl r) =>
      let totals := (float_of (fu_TotalMargin r), float_of (fu_TotalUnrealized r), float_of (fu_Available r)) in
      let '(equity, unrealized, available) :=
        if binanceTotalsCoverUSDTOnly (fu_TotalWallet r) (fu_Assets r) then foldl add_margin_asset totals (fu_Assets r) else totals in
      let own := inl (usdt available equity unrealized) in
      if feqb equity f0 then
        match getFuturesBalanceFromBalanceEndpoint with
        | inl bal => if fltb f0 (bal_Equity bal) then inl bal else own
        | inr _ => own
        end
      else own
  end.

End wallets.

(** ** The balance *)

(** What the reads so far add up to. *)
Record sum := mkSum { su_equity : F; su_unrealized : F; su_nonUM : F; su_warnings : list string; su_coverage : list WalletCoverage }.

(** One of the wallets whose refusal is noted and whose transient failure
    refuses the sync. *)
Definition read_wallet (wallet label warning : string) (r : answer F) (s : sum) : sum + verror :=
  match r with
  | inl eq => inl (mkSum (fadd (su_equity s) eq) (su_unrealized s) (fadd (su_nonUM s) eq) (su_warnings s) (noteWallet (su_coverage s) wallet None))
  | inr e =>
      if ve_transient e then inr (wrapped label e)
      else inl (mkSum (su_equity s) (su_unrealized s) (su_nonUM s) (su_warnings s ++ [warning]) (noteWallet (su_coverage s) wallet (Some e)))
  end.

Definition key_refused (e : verror) : bool := Contains (ve_text e) "-2015" || Contains (ve_text e) "Invalid API-key".

Definition read_futures (r : answer (Balance F)) (s : sum) : sum + verror :=
  match r with
  | inl fut =>
      inl (mkSum (fadd (su_equity s) (bal_Equity fut)) (fadd (su_unrealized s) (bal_UnrealizedPnL fut)) (su_nonUM s) (su_warnings s) (noteWallet (su_coverage s) binanceWalletUM None))
  | inr e =>
      if ve_transient e then inr (wrapped "futures balance" e)
      else inl (mkSum (su_equity s) (su_unrealized s) (su_nonUM s)
                  (su_warnings s ++ (if key_refused e then ["futures_permission_missing"] else [])) (noteWallet (su_coverage s) binanceWalletUM (Some e)))
  end.

Definition read_earn (priceMap : gmap string F) (r : answer binanceEarn) (s : sum) : sum :=
  match r with
  | inl earn =>
      let eq := ValueSpotHoldingsUSD (be_positions earn) priceMap in
      mkSum (fadd (su_equity s) eq) (su_unrealized s) (fadd (su_nonUM s) eq) (su_warnings s) (noteWallet (su_coverage s) binanceWalletEarn None)
  | inr e => mkSum (su_equity s) (su_unrealized s) (su_nonUM s) (su_warnings s ++ ["simple_earn_unreadable"]) (noteWallet (su_coverage s) binanceWalletEarn (Some e))
  end.

(** Reads one after the other; the sum reached is kept when one refuses. *)
Fixpoint read_all (reads : list (sum → sum + verror)) (s : sum) : sum * option verror :=
  match reads with
  | [] => (s, None)
  | read :: rest => match read s with inl s => read_all rest s | inr e => (s, Some e) end
  end.

Definition breakdown (nonUM : F) (futures : answer (Balance F)) : list (MarketBalance F) :=
  (if feqb nonUM f0 then [] else [mkMarketBalance (market_name MSpot) nonUM nonUM])
  ++ match futures with
     | inl fut => if negb (feqb (bal_Equity fut) f0) || negb (feqb (bal_Available fut) f0) then [mkMarketBalance (market_name MSwap) (bal_Equity fut) (bal_Available fut)] else []
     | inr _ => []
     end.

Definition with_sum (cached : list (MarketBalance F)) (s : sum) (b : Binance) : Binance :=
  mkBinance cached (su_warnings s) (su_coverage s) (b_cashflowNotes b).

Definition GetBalance (v : venue) (b : Binance) : Binance * answer (Balance F) :=
  match FetchBinanceStylePriceMap (v_tickers v) with
  | inr e => (b, inr (mkError (ErrSpotPricingUnavailable +:+ ": binance spot tickers: " +:+ ve_text e) true))
  | inl priceMap =>
      let b := mkBinance [] (b_capabilityWarnings b) (b_coverage b) (b_cashflowNotes b) in
      let earn := getSimpleEarn v in
      let refused := match earn with inr e => if ve_transient e then Some (wrapped "simple earn balance" e) else None | inl _ => None end in
      match refused with
      | Some e => (b, inr e)
      | None =>
          match getSpotBalance v priceMap (match earn with inl x => be_flexibleAssets x | inr _ => ∅ end) with
          | inr e => (b, inr (wrapped "spot balance" e))
          | inl spot =>
              let futures := getFuturesBalance v priceMap in
              let start := mkSum (bal_Equity spot) (bal_UnrealizedPnL spot) (bal_Equity spot) [] (noteWallet [] binanceWalletSpot None) in
              let '(s, e) :=
                read_all [ read_futures futures;
                           read_wallet binanceWalletCoinM "coin-m balance" "coinm_unreadable" (getCoinMFuturesEquity v priceMap);
                           read_wallet binanceWalletCross "cross margin balance" "cross_margin_unreadable" (getCrossMarginEquity v priceMap);
                           read_wallet binanceWalletIsolated "isolated margin balance" "isolated_margin_unreadable" (getIsolatedMarginEquity v priceMap) ] start in
              match e with
              | Some e => (with_sum [] s b, inr e)
              | None =>
                  let s := read_earn priceMap earn s in
                  let available := match futures with inl fut => fadd (su_nonUM s) (bal_Available fut) | inr _ => su_nonUM s end in
                  (with_sum (breakdown (su_nonUM s) futures) s b, inl (usdt available (su_equity s) (su_unrealized s)))
              end
          end
      end
  end.

(** ** Positions and trades *)

Definition position_of (p : position_row) : option (Position F) :=
  let size := float_of (pr_Amt p) in
  if feqb size f0 then None
  else
    let short := fltb size f0 in
    Some (mkPosition (pr_Symbol p) (if short then "short" else "long") (if short then fopp size else size)
            (float_of (pr_Entry p)) (float_of (pr_Mark p)) (float_of (pr_UnRealized p)) "swap").

Definition GetPositions (v : venue) : answer (list (Position F)) :=
  match v_positionRisk v with inr e => inr e | inl rows => inl (omap position_of rows) end.

Definition spot_trade (t : spot_fill) : Trade F :=
  mkTrade (sf_Symbol t) (if sf_IsBuyer t then "buy" else "sell") (float_of (sf_Price t)) (float_of (sf_Qty t)) f0 f0
    (float_of (sf_Commission t)) f0 (of_milli (sf_Time t)) "spot".

Definition getSpotTradesForSymbol (v : venue) (symbol : string) (start end_ : time) : answer (list (Trade F)) :=
  match v_myTrades v symbol (UnixMilli start) (UnixMilli end_) with inr e => inr e | inl l => inl (spot_trade <$> l) end.

(** A body that does not decode is an error here and an empty account in the
    code; [GetTrades] adds nothing for either. *)
Definition getSpotTrades (v : venue) (start end_ : time) : answer (list (Trade F)) :=
  match v_account v with
  | inr e => inr e
  | inl rows =>
      inl (rows ≫= λ r,
        if fltb (float_of (sp_Free r)) (flit 1 3) || String.eqb (sp_Asset r) "USDT" then []
        else match getSpotTradesForSymbol v (sp_Asset r +:+ "USDT") start end_ with inl l => l | inr _ => [] end)
  end.

Definition futures_trade (t : binanceFuturesFill) : Trade F :=
  mkTrade (fi_Symbol t) (ToLower (fi_Side t)) (float_of (fi_Price t)) (float_of (fi_Qty t)) f0 f0
    (float_of (fi_Commission t)) (float_of (fi_RealizedPnl t)) (of_milli (fi_Time t)) "swap".

End binance.

(** *** The fills of the futures wallet *)

Definition binanceFillPageLimit : nat := N.to_nat 1000.
Definition binanceFillWindow : duration := 7 * Day.
Definition binanceMinFillSplit : duration := Second.

Definition futuresFillPage (v : venue) (from to : time) : answer (list binanceFuturesFill) := v_userTrades v (UnixMilli from) (UnixMilli to).

(** The fills not seen yet. *)
Definition new_fills (page : list binanceFuturesFill) (acc : gset Z * list binanceFuturesFill) : gset Z * list binanceFuturesFill :=
  foldl (add_unseen fi_ID) acc page.

Definition fills_error : verror := mkError ("read binance futures fills: more than " +:+ pretty (N.of_nat binanceFillPageLimit) +:+ " in one second") false.

(** [None] is a lack of fuel, one unit per halving. *)
Fixpoint read_fills (v : venue) (fuel : nat) (from to : time) (acc : gset Z * list binanceFuturesFill) : option (answer (gset Z * list binanceFuturesFill)) :=
  match fuel with
  | O => None
  | S fuel' =>
      match futuresFillPage v from to with
      | inr e => Some (inr e)
      | inl page =>
          let full := Nat.leb binanceFillPageLimit (length page) in
          if full && (binanceMinFillSplit <? Sub to from) then
            let mid := from + Z.quot (Sub to from) 2 in
            match read_fills v fuel' from mid acc with
            | Some (inl acc) => read_fills v fuel' mid to acc
            | r => r
            end
          else if full then Some (inr fills_error)
          else Some (inl (new_fills page acc))
      end
  end.

(** Twenty halvings bring seven days under a second. *)
Definition fill_depth : nat := 21.

Fixpoint read_windows (v : venue) (fuel : nat) (winStart end_ : time) (acc : gset Z * list binanceFuturesFill) : option (answer (gset Z * list binanceFuturesFill)) :=
  if negb (Before winStart end_) then Some (inl acc)
  else match fuel with
  | O => None
  | S fuel' =>
      let winEnd := Z.min (winStart + binanceFillWindow) end_ in
      match read_fills v fill_depth winStart winEnd acc with
      | Some (inl acc) => read_windows v fuel' (winStart + binanceFillWindow) end_ acc
      | r => r
      end
  end.

Definition window_count (start end_ : time) : nat := S (Z.to_nat ((end_ - start) / binanceFillWindow)).

Definition futures_fills (v : venue) (start end_ : time) : option (answer (list binanceFuturesFill)) :=
  match read_windows v (window_count start end_) start end_ (∅, []) with
  | None => None
  | Some (inr e) => Some (inr e)
  | Some (inl acc) => Some (inl acc.2)
  end.

Section trades.
Context {F : Type} `{Num F} `{FloatText F}.

Definition getFuturesTrades (v : venue) (start end_ : time) : option (answer (list (Trade F))) :=
  match futures_fills v start end_ with
  | None => None
  | Some (inr e) => Some (inr e)
  | Some (inl fills) => Some (inl (futures_trade <$> fills))
  end.

(** Either market is left out when it cannot be read. *)
Definition GetTrades (v : venue) (start end_ : time) : list (Trade F) :=
  match getSpotTrades v start end_ with inl l => l | inr _ => [] end
  ++ match getFuturesTrades v start end_ with Some (inl l) => l | _ => [] end.

End trades.

(** ** Cashflows *)

Definition binanceTransferWallets : list (string * (string * string)) :=
  [ ("MAIN_UMFUTURE", (binanceWalletSpot, binanceWalletUM)); ("UMFUTURE_MAIN", (binanceWalletUM, binanceWalletSpot));
    ("MAIN_CMFUTURE", (binanceWalletSpot, binanceWalletCoinM)); ("CMFUTURE_MAIN", (binanceWalletCoinM, binanceWalletSpot));
    ("MAIN_MARGIN", (binanceWalletSpot, binanceWalletCross)); ("MARGIN_MAIN", (binanceWalletCross, binanceWalletSpot));
    ("UMFUTURE_MARGIN", (binanceWalletUM, binanceWalletCross)); ("MARGIN_UMFUTURE", (binanceWalletCross, binanceWalletUM));
    ("CMFUTURE_MARGIN", (binanceWalletCoinM, binanceWalletCross)); ("MARGIN_CMFUTURE", (binanceWalletCross, binanceWalletCoinM));
    ("ISOLATEDMARGIN_MARGIN", (binanceWalletIsolated, binanceWalletCross)); ("MARGIN_ISOLATEDMARGIN", (binanceWalletCross, binanceWalletIsolated));
    ("MAIN_ISOLATED_MARGIN", (binanceWalletSpot, binanceWalletIsolated)); ("ISOLATED_MARGIN_MAIN", (binanceWalletIsolated, binanceWalletSpot));
    ("MAIN_FUNDING", (binanceWalletSpot, binanceWalletFunding)); ("FUNDING_MAIN", (binanceWalletFunding, binanceWalletSpot));
    ("UMFUTURE_FUNDING", (binanceWalletUM, binanceWalletFunding)); ("FUNDING_UMFUTURE", (binanceWalletFunding, binanceWalletUM));
    ("CMFUTURE_FUNDING", (binanceWalletCoinM, binanceWalletFunding)); ("FUNDING_CMFUTURE", (binanceWalletFunding, binanceWalletCoinM));
    ("MARGIN_FUNDING", (binanceWalletCross, binanceWalletFunding)); ("FUNDING_MARGIN", (binanceWalletFunding, binanceWalletCross));
    ("MAIN_OPTION", (binanceWalletSpot, binanceWalletOption)); ("OPTION_MAIN", (binanceWalletOption, binanceWalletSpot));
    ("UMFUTURE_OPTION", (binanceWalletUM, binanceWalletOption)); ("OPTION_UMFUTURE", (binanceWalletOption, binanceWalletUM));
    ("MARGIN_OPTION", (binanceWalletCross, binanceWalletOption)); ("OPTION_MARGIN", (binanceWalletOption, binanceWalletCross));
    ("MAIN_MINING", (binanceWalletSpot, binanceWalletMining)); ("MINING_MAIN", (binanceWalletMining, binanceWalletSpot)) ].

Definition transfer_wallets (typ : string) : option (string * string) := snd <$> find_first (λ x, String.eqb x.1 typ) binanceTransferWallets.

Definition binanceLiveWallets : list string := [binanceWalletSpot; binanceWalletUM; binanceWalletCoinM; binanceWalletCross; binanceWalletIsolated].

Section cashflows.
Context {F : Type} `{Num F} `{FloatText F}.

(** [+1], [-1] or [0] *)
Definition binanceTransferSign (typ : string) (measured : gset string) : F :=
  match transfer_wallets typ with
  | None => f0
  | Some (w0, w1) =>
      let from := bool_decide (w0 ∈ measured) in
      let to := bool_decide (w1 ∈ measured) in
      if to && negb from then f1 else if from && negb to then fopp f1 else f0
  end.

Definition measuredWallets (b : Binance (F := F)) : gset string :=
  match b_coverage b with
  | [] => list_to_set binanceLiveWallets
  | coverage => list_to_set (wc_Wallet <$> filter (λ c, wc_Status c = WalletRead) coverage)
  end.

(** A row handed to a sink: its ledger, its time, the asset and quantity that
    are valued, and what is done with the value. *)
Record flow_row := mkFlow { fl_source : string; fl_time : time; fl_coin : string; fl_qty : F; fl_signed : F → F }.

(** [usdValue], over the prices when they could be read. *)
Definition usdValue (priceMap : gmap string F) (coin : string) (qty : F) : F :=
  if IsStablecoinUSD coin then qty
  else let p := price priceMap (ToUpper coin +:+ "USDT") in if fltb f0 p then fmul qty p else f0.

Definition unpriced_row (priceMap : gmap string F) (r : flow_row) : bool :=
  negb (IsStablecoinUSD (fl_coin r)) && negb (fltb f0 (price priceMap (ToUpper (fl_coin r) +:+ "USDT"))) && negb (feqb (fl_qty r) f0).

Definition flow_value (priceMap : gmap string F) (r : flow_row) : F := fl_signed r (usdValue priceMap (fl_coin r) (fl_qty r)).

Definition binanceOnChainWallet (walletType : Z) : string := if walletType =? 1 then binanceWalletFunding else binanceWalletSpot.

Definition fetchOnChainDeposits (v : venue) (since now : time) (measured : gset string) : answer (list flow_row) :=
  match v_deposits v (UnixMilli since) (UnixMilli now) with
  | inr e => inr (wrapped "deposit history" e)
  | inl l =>
      inl (omap (λ d, if bool_decide (binanceOnChainWallet (dp_WalletType d) ∈ measured)
                      then Some (mkFlow "onchain_deposit" (of_milli (dp_InsertTime d)) (dp_Coin d) (float_of (dp_Amount d)) id) else None) l)
  end.

(** [time.Parse("2006-01-02 15:04:05", s)]: at least one space before the hour,
    which may have one digit. *)
Fixpoint cut_spaces (s : string) : string := match s with String c s' => if Ascii.eqb c " " then cut_spaces s' else s | EmptyString => s end.

Definition take_hour (s : string) : option (Z * string) :=
  match s with
  | String h1 (String h2 rest as rest') =>
      match undigit h1, undigit h2 with Some a, Some b => Some (10 * a + b, rest) | Some a, None => Some (a, rest') | None, _ => None end
  | _ => None
  end.

Definition ParseDateTime (s : string) : option time :=
  day ← ParseDate (String.substring 0 10 s);
  let clock := String.substring 10 (String.length s) s in
  if negb (HasPrefix clock " ") then None
  else
    '(h, after) ← take_hour (cut_spaces clock);
    match after with
    | String c1 (String m1 (String m2 (String c2 (String s1 (String s2 rest))))) =>
        m ← num2 m1 m2; sec ← num2 s1 s2; ns ← after_seconds rest;
        if Ascii.eqb c1 ":" && Ascii.eqb c2 ":" && (h <? 24) && (m <? 60) && (sec <? 60)
        then Some (day + h * Hour + m * Minute + sec * Second + ns) else None
    | _ => None
    end.

Definition fetchOnChainWithdrawals (v : venue) (since now : time) (measured : gset string) : answer (list flow_row) :=
  match v_withdrawals v (UnixMilli since) (UnixMilli now) with
  | inr e => inr (wrapped "withdraw history" e)
  | inl l =>
      inl (omap (λ w, if negb (bool_decide (binanceOnChainWallet (wd_WalletType w) ∈ measured)) then None
                      else match ParseDateTime (wd_CompleteTime w) with
                      | None => None
                      | Some t => Some (mkFlow "onchain_withdrawal" t (wd_Coin w) (fadd (float_of (wd_Amount w)) (float_of (wd_Fee w))) fopp)
                      end) l)
  end.

Definition settled (status word : string) : bool := String.eqb status "" || EqualFold status word.

(** [types] is the table's keys, in the order the map gives them. *)
Definition fetchExternalTransfers (v : venue) (types : list string) (since now : time) (measured : gset string) : list flow_row :=
  types ≫= λ typ,
    let sign := binanceTransferSign typ measured in
    if feqb sign f0 then []
    else match v_transfers v typ (UnixMilli since) (UnixMilli now) with
    | inr _ => []
    | inl rows =>
        omap (λ r, if settled (tf_Status r) "CONFIRMED"
                   then Some (mkFlow ("transfer:" +:+ typ) (of_milli (tf_Timestamp r)) (tf_Asset r) (float_of (tf_Amount r)) (fmul sign)) else None) rows
    end.

(** *** Sub-accounts (binance_subaccounts.go) *)

Record binanceMove := mkMove { mv_t : time; mv_coin : string; mv_qty : F }.

Definition binanceUMMovementTypes : list string := ["TRANSFER"; "INTERNAL_TRANSFER"; "STRATEGY_UMFUTURES_TRANSFER"].
Definition binanceUMCounterpartTypes : list string :=
  ["MAIN_UMFUTURE"; "UMFUTURE_MAIN"; "FUNDING_UMFUTURE"; "UMFUTURE_FUNDING"; "MARGIN_UMFUTURE"; "UMFUTURE_MARGIN"].
Definition binanceCounterpartWindow : duration := 10 * Minute.

Definition binanceSameAmount (a b : F) : bool :=
  let a := fabs a in let b := fabs b in
  fleb (fabs (fsub a b)) (fmul (flit 1 8) (fmax f1 (fmax a b))).

Definition binanceSameTransfer (m p : binanceMove) : bool :=
  String.eqb (mv_coin p) (mv_coin m) && binanceSameAmount (mv_qty p) (mv_qty m)
  && (let d := Sub (mv_t p) (mv_t m) in (- binanceCounterpartWindow <=? d) && (d <=? binanceCounterpartWindow)).

(** Takes the first of [l] that is free and satisfies [P] out of the free
    ones; [l] pairs each with whether it is used. *)
Fixpoint claim {A} (P : A → bool) (l : list (A * bool)) : option (A * list (A * bool)) :=
  match l with
  | [] => None
  | (x, used) :: rest =>
      if negb used && P x then Some (x, (x, true) :: rest)
      else match claim P rest with Some (y, rest') => Some (y, (x, used) :: rest') | None => None end
  end.

Definition unused {A} (l : list A) : list (A * bool) := (λ x, (x, false)) <$> l.

Fixpoint stray_from (moves : list binanceMove) (counterparts : list (binanceMove * bool)) : list binanceMove :=
  match moves with
  | [] => []
  | m :: rest =>
      if feqb (mv_qty m) f0 then stray_from rest counterparts
      else match claim (binanceSameTransfer m) counterparts with
      | Some (_, counterparts) => stray_from rest counterparts
      | None => m :: stray_from rest counterparts
      end
  end.

Definition strayBinanceMoves (moves counterparts : list binanceMove) : list binanceMove := stray_from moves (unused counterparts).

(** The rows the universal transfers claim first. *)
Fixpoint claimed_moves (moves : list binanceMove) (counterparts : list (binanceMove * bool)) : list (binanceMove * bool) :=
  match moves with
  | [] => []
  | m :: rest =>
      match claim (binanceSameTransfer m) counterparts with
      | Some (_, counterparts) => (m, true) :: claimed_moves rest counterparts
      | None => (m, false) :: claimed_moves rest counterparts
      end
  end.

Fixpoint orient_from (sub : list binanceMove) (moves : list (binanceMove * bool)) : list binanceMove :=
  match sub with
  | [] => []
  | s :: rest =>
      match claim (λ m, negb (feqb (mv_qty m) f0) && binanceSameTransfer m s) moves with
      | Some (m, moves) => mkMove (mv_t s) (mv_coin s) (mv_qty m) :: orient_from rest moves
      | None => s :: orient_from rest moves
      end
  end.

Definition orientBinanceSubMoves (sub moves counterparts : list binanceMove) : list binanceMove :=
  orient_from sub (claimed_moves moves (unused counterparts)).

Definition binanceMasterSubSign (from to : string) (subs : gset string) : F :=
  let fromSub := bool_decide (from ∈ subs) in
  let toSub := bool_decide (to ∈ subs) in
  if fromSub && negb toSub then f1 else if toSub && negb fromSub then fopp f1 else f0.

Definition isBinanceRefusal (e : verror) : bool :=
  negb (ve_transient e) && HasPrefix (ve_text e) "HTTP 4" && negb (HasPrefix (ve_text e) "HTTP 429") && negb (HasPrefix (ve_text e) "HTTP 418").

Definition subAccountEmails (v : venue) : gset string :=
  match v_subAccounts v with inr _ => ∅ | inl l => list_to_set (filter (λ e, e ≠ "") l) end.

Definition binanceTransferKey (kind id : string) (t : Z) (asset qty : string) : string :=
  if negb (String.eqb id "") && negb (String.eqb id "null") then kind +:+ ":" +:+ id
  else kind +:+ ":" +:+ pretty t +:+ ":" +:+ asset +:+ ":" +:+ qty.

(** Adds the rows of one page that are settled, cross the master's side and
    have not been seen. *)
Definition sub_page (kind : string) (subs : gset string) (acc : gset string * list binanceMove) (rows : list sub_row) : gset string * list binanceMove :=
  foldl (λ acc r,
    let sign := binanceMasterSubSign (su_From r) (su_To r) subs in
    let key := binanceTransferKey kind (su_TranID r) (su_Time r) (su_Asset r) (su_Qty r) in
    if feqb sign f0 || bool_decide (key ∈ acc.1) || negb (settled (su_Status r) "SUCCESS") then acc
    else ({[key]} ∪ acc.1, acc.2 ++ [mkMove (of_milli (su_Time r)) (ToUpper (su_Asset r)) (fmul sign (float_of (su_Qty r)))])) acc rows.

(** [emails] and [senders] are the sub-accounts in the orders the two loops
    over the map give them. *)
Definition masterSubMoves (v : venue) (emails senders : list string) (since now : time) (subs : gset string) : list binanceMove :=
  if bool_decide (subs = ∅) then []
  else
    let a := UnixMilli since in let b := UnixMilli now in
    let read kind (acc : gset string * list binanceMove) (r : answer (list sub_row)) := match r with inr _ => acc | inl rows => sub_page kind subs acc rows end in
    let acc := foldl (λ acc email, foldl (λ acc side, read "spot" acc (v_subTransfers v side email a b)) acc [true; false]) (∅, []) emails in
    (foldl (λ acc q, read "universal" acc (v_universal v q a b)) acc (None :: (Some <$> senders))).2.

Definition subUserMoves (v : venue) (since now : time) : list binanceMove :=
  match v_subUser v (UnixMilli since) (UnixMilli now) with
  | inr _ => []
  | inl rows =>
      omap (λ r, if settled (uu_Status r) "SUCCESS"
                 then Some (mkMove (of_milli (uu_Time r)) (ToUpper (uu_Asset r)) (let q := float_of (uu_Qty r) in if uu_Type r =? 2 then fopp q else q)) else None) rows
  end.

Fixpoint income_moves (v : venue) (types : list string) (a b : Z) : answer (list binanceMove) :=
  match types with
  | [] => inl []
  | typ :: rest =>
      match v_income v typ a b with
      | inr e => inr e
      | inl rows =>
          match income_moves v rest a b with
          | inr e => inr e
          | inl l => inl (((λ r, mkMove (of_milli (in_Time r)) (ToUpper (in_Asset r)) (float_of (in_Income r))) <$> rows) ++ l)
          end
      end
  end.

Definition umTransferRows (v : venue) (since now : time) : answer (list binanceMove) := income_moves v binanceUMMovementTypes (UnixMilli since) (UnixMilli now).

(** The pages of one transfer type; [None] when a read failed for another
    reason than a refusal. *)
Fixpoint counterpart_pages (v : venue) (typ : string) (a b : Z) (left : nat) (page : Z) : option (list binanceMove) :=
  match left with
  | O => Some []
  | S left' =>
      match v_transferPage v typ a b page with
      | inr e => if isBinanceRefusal e then Some [] else None
      | inl (rows, total) =>
          let moves := (λ r, mkMove (of_milli (tf_Timestamp r)) (ToUpper (tf_Asset r)) (float_of (tf_Amount r))) <$> rows in
          if bool_decide (rows = []) || (total <=? page * 100) then Some moves
          else rest ← counterpart_pages v typ a b left' (page + 1); Some (moves ++ rest)
      end
  end.

Fixpoint counterparts_of (v : venue) (types : list string) (a b : Z) : option (list binanceMove) :=
  match types with
  | [] => Some []
  | typ :: rest => l ← counterpart_pages v typ a b 10 1; l' ← counterparts_of v rest a b; Some (l ++ l')
  end.

Definition umCounterparts (v : venue) (since now : time) : option (list binanceMove) :=
  counterparts_of v binanceUMCounterpartTypes (UnixMilli since) (UnixMilli now).

Definition move_row (source : string) (m : binanceMove) : flow_row := mkFlow source (mv_t m) (mv_coin m) (mv_qty m) id.

Definition fetchSubAccountAndStrayFlows (v : venue) (order : bool → gset string → list string) (since now : time) : list flow_row :=
  let subs := subAccountEmails v in
  let master := masterSubMoves v (order true subs) (order false subs) since now subs in
  let sub := subUserMoves v since now in
  let read := match umTransferRows v since now with
              | inl (m :: moves) => counterparts ← umCounterparts v since now; Some (m :: moves, counterparts)
              | _ => None
              end in
  match read with
  | None => (move_row "master_sub" <$> master) ++ (move_row "sub_user" <$> sub)
  | Some (moves, counterparts) =>
      let sub := orientBinanceSubMoves sub moves counterparts in
      (move_row "master_sub" <$> master) ++ (move_row "sub_user" <$> sub)
      ++ (move_row "stray_um" <$> strayBinanceMoves moves (counterparts ++ master ++ sub))
  end.

Definition binancePayWallet (walletType : Z) : string :=
  if existsb (Z.eqb walletType) [0; 2; 3] then binanceWalletSpot else if walletType =? 1 then binanceWalletFunding else "".

Definition fetchPayFlows (v : venue) (since now : time) (measured : gset string) : list flow_row :=
  match v_pay v (UnixMilli since) (UnixMilli now) with
  | inr _ => []
  | inl rows =>
      omap (λ r, let amt := float_of (py_Amount r) in
                 if feqb amt f0 || String.eqb (py_Currency r) "" || (py_Time r =? 0) || negb (bool_decide (binancePayWallet (py_WalletType r) ∈ measured)) then None
                 else Some (mkFlow "pay" (of_milli (py_Time r)) (py_Currency r) amt id)) rows
  end.

Definition fiat_flow (word : string) (coin : fiat_row → string) (qty : fiat_row → F) (signed : F → F) (r : answer (list fiat_row)) : list flow_row :=
  match r with
  | inr _ => []
  | inl rows => omap (λ o, if EqualFold (fr_Status o) word then Some (mkFlow "fiat" (of_milli (fr_CreateTime o)) (coin o) (qty o) signed) else None) rows
  end.

Definition fetchFiatFlows (v : venue) (since now : time) : list flow_row :=
  let a := UnixMilli since in let b := UnixMilli now in
  let debited o := let d := float_of (fr_Indicated o) in if feqb d f0 then fadd (float_of (fr_Amount o)) (float_of (fr_TotalFee o)) else d in
  fiat_flow "Successful" fr_Fiat (float_of ∘ fr_Amount) id (v_fiatOrders v false a b)
  ++ fiat_flow "Successful" fr_Fiat debited fopp (v_fiatOrders v true a b)
  ++ fiat_flow "Completed" fr_Crypto (float_of ∘ fr_Obtain) id (v_fiatPayments v false a b)
  ++ fiat_flow "Completed" fr_Crypto (float_of ∘ fr_Source) fopp (v_fiatPayments v true a b).

(** *** All the ledgers *)

(** The rows handed to the sinks, and the error that stops the reading. *)
Definition collectCashflows (v : venue) (types : list string) (order : bool → gset string → list string) (since now : time) (measured : gset string) : list flow_row * option verror :=
  match fetchOnChainDeposits v since now measured with
  | inr e => ([], Some e)
  | inl deposits =>
      match fetchOnChainWithdrawals v since now measured with
      | inr e => (deposits, Some e)
      | inl withdrawals =>
          (deposits ++ withdrawals ++ fetchExternalTransfers v types since now measured ++ fetchSubAccountAndStrayFlows v order since now
           ++ fetchFiatFlows v since now ++ fetchPayFlows v since now measured, None)
      end
  end.

(** The prices, when any row needs them; a failed read leaves none. *)
Definition flow_prices (v : venue) : gmap string F := match FetchBinanceStylePriceMap (v_tickers v) with inl m => m | inr _ => ∅ end.

Definition note_unpriced (v : venue) (rows : list flow_row) (b : Binance (F := F)) : Binance (F := F) :=
  mkBinance (b_cachedBreakdown b) (b_capabilityWarnings b) (b_coverage b)
    (markers (foldl (λ u r, if unpriced_row (flow_prices v) r then unpriced_add u (fl_coin r) else u) ∅ rows) "binance").

(** The rows that reach a sink, with their value. *)
Definition emitted (v : venue) (rows : list flow_row) : list (flow_row * F) :=
  filter (λ x, feqb x.2 f0 = false) ((λ r, (r, flow_value (flow_prices v) r)) <$> rows).

Definition GetCashflows (v : venue) (types : list string) (order : bool → gset string → list string) (now since : time) (b : Binance (F := F)) : Binance (F := F) * answer (list (Cashflow F)) :=
  let '(rows, e) := collectCashflows v types order since now (measuredWallets b) in
  (note_unpriced v rows b,
   match e with Some e => inr e | None => inl ((λ x, mkCashflow x.2 "USDT" (fl_time x.1)) <$> emitted v rows) end).

Definition GetRawCashflowEntries (v : venue) (types : list string) (order : bool → gset string → list string) (now since : time) (b : Binance (F := F)) : Binance (F := F) * answer (list (RawBalanceOp F)) :=
  let '(rows, e) := collectCashflows v types order since now (measuredWallets b) in
  (note_unpriced v rows b,
   match e with
   | Some e => inr e
   | None => inl (sort_by ro_Timestamp ((λ x, mkRawOp 0 (fl_source x.1) x.2 f0 f0 (ToUpper (fl_coin x.1)) "" (fl_time x.1)) <$> emitted v rows))
   end).

End cashflows.

End Binance.
