(* ===== verification/BinanceSafe.v ===== *)
(** * The Binance connector: every fill once, every wallet accounted for *)

From S2P Require Import Prelude GoTime GoText Num Types Encoding FlexNarrow Venue Binance.
From stdpp Require Import base gmap strings tactics list.
From Stdlib Require Import ZArith Ascii Lia.
Import Venue Binance.
Local Open Scope Z_scope.

Module BinanceSafe.

(** ** Fills *)

(** The documented answer of the fills endpoint over the account's fills [db]:
    at most a page of the fills of the range, and all of them when the page is
    not full.  Nothing is assumed of their ids. *)
Definition fills_of (db : list binanceFuturesFill) (v : venue) : Prop :=
  ∀ a b page, v_userTrades v a b = inl page →
    (∀ f, f ∈ page → f ∈ db ∧ a <= fi_Time f <= b) ∧
    ((length page < binanceFillPageLimit)%nat → ∀ f, f ∈ db → a <= fi_Time f <= b → f ∈ page).

Section fills.
Context (db : list binanceFuturesFill) (v : venue).
Hypothesis Hv : fills_of db v.

(** [acc'] is [acc] and fills of a range of milliseconds, by which each id of
    the range is there. *)
Definition extends (a b : Z) (acc acc' : gset Z * list binanceFuturesFill) : Prop :=
  reading fi_ID db acc' ∧ (∀ f, f ∈ acc'.2 → f ∈ acc.2 ∨ (f ∈ db ∧ a <= fi_Time f <= b)) ∧
  (∀ i, i ∈ fi_ID <$> acc.2 → i ∈ fi_ID <$> acc'.2) ∧ ∀ f, f ∈ db → a <= fi_Time f <= b → fi_ID f ∈ fi_ID <$> acc'.2.

Lemma short_sub a b : 0 <= b - a <= binanceFillWindow → Sub b a = b - a.
Proof. unfold Sub, minDuration, maxDuration, binanceFillWindow, Day, Hour, Minute, Second. lia. Qed.

Lemma millis_mono a b : a <= b → UnixMilli a <= UnixMilli b.
Proof. intros. unfold UnixMilli. apply Z.div_le_mono; [done|lia]. Qed.

Lemma extends_trans a b c acc acc1 acc2 : a <= b <= c → extends a b acc acc1 → extends b c acc1 acc2 → extends a c acc acc2.
Proof.
  intros Hm (_ & F1 & K1 & A1) (Hr & F2 & K2 & A2). split_and!; [done| |by auto|].
  - intros f [[?|[? ?]]%F1|[? ?]]%F2; [by left|right; split; [done|lia]..].
  - intros f Hf Ht. destruct (Z.le_ge_cases (fi_Time f) b); [apply K2, A1; [done|lia]|apply A2; [done|lia]].
Qed.

Lemma read_fills_spec fuel from to acc acc' :
  0 <= to - from <= binanceFillWindow → reading fi_ID db acc → read_fills v fuel from to acc = Some (inl acc') →
  extends (UnixMilli from) (UnixMilli to) acc acc'.
Proof.
  revert from to acc acc'. induction fuel as [|fuel IH]; intros from to acc acc' Hd Hr; cbn [read_fills]; [done|].
  destruct (futuresFillPage v from to) as [page|e] eqn:Ep; [|done]. apply Hv in Ep as (Hin & Hall). rewrite short_sub by done.
  destruct (Nat.leb_spec binanceFillPageLimit (length page)) as [|Hlen]; cbn [andb].
  - destruct (_ <? _); [|done]. set (mid := from + Z.quot (to - from) 2). assert (0 <= mid - from <= to - from) as Hm by (unfold mid; pose proof (Z.quot_pos (to - from) 2); pose proof (Z.quot_le_upper_bound (to - from) 2 (to - from)); lia).
    destruct (read_fills v fuel from mid acc) as [[acc1|e]|] eqn:E1; [|done..]. intros E2. apply IH in E1; [|lia|done].
    apply IH in E2; [|lia|apply E1]. eapply extends_trans; [|exact E1|exact E2]. split; apply millis_mono; lia.
  - intros [= <-]. destruct (add_unseen_ids fi_ID db page acc (λ f Hf, proj1 (Hin f Hf)) Hr) as (? & Hx & Hi). split_and!; [done| | |].
    + intros f [?|?]%Hx; [by left|right; by apply Hin].
    + intros i ?. apply Hi. by left.
    + intros f Hf Ht. apply Hi. right. apply list_elem_of_fmap_2. by apply Hall.
Qed.

Lemma read_windows_spec fuel s e acc acc' :
  s < e → reading fi_ID db acc → read_windows v fuel s e acc = Some (inl acc') → extends (UnixMilli s) (UnixMilli e) acc acc'.
Proof.
  revert s acc acc'. induction fuel as [|fuel IH]; intros s acc acc' Hse Hr; cbn [read_windows]; unfold Before; rewrite (proj2 (Z.ltb_lt s e) Hse); cbn [negb]; [done|].
  destruct (read_fills v fill_depth s _ acc) as [[acc1|]|] eqn:E1; [|done..]. assert (0 <= binanceFillWindow) by done.
  apply read_fills_spec in E1; [|lia|done]. destruct (Z.lt_ge_cases (s + binanceFillWindow) e) as [Hlt|Hge].
  - intros E2. apply IH in E2; [|done|apply E1]. rewrite Z.min_l in E1 by lia. eapply extends_trans; [|exact E1|exact E2]. split; apply millis_mono; lia.
  - assert (read_windows v fuel (s + binanceFillWindow) e acc1 = Some (inl acc1)) as ->.
    { destruct fuel; cbn [read_windows]; unfold Before; by rewrite (proj2 (Z.ltb_ge _ _) Hge). }
    intros [= <-]. by rewrite Z.min_r in E1 by lia.
Qed.

End fills.

(** *** The reading ends *)

Lemma halves d k : 0 <= d <= Second * 2 ^ (k + 1) → 0 <= k → 0 <= Z.quot d 2 <= Second * 2 ^ k ∧ 0 <= d - Z.quot d 2 <= Second * 2 ^ k.
Proof.
  intros Hd Hk. rewrite Z.pow_add_r in Hd by lia. rewrite Z.quot_div_nonneg by lia. pose proof (Z.div_mod d 2 ltac:(lia)). pose proof (Z.mod_pos_bound d 2 ltac:(lia)). lia.
Qed.

Lemma read_fills_total v k from to acc :
  0 <= to - from <= Second * 2 ^ Z.of_nat k → to - from <= binanceFillWindow → read_fills v (S k) from to acc ≠ None.
Proof.
  revert from to acc. induction k as [|k IH]; intros from to acc Hd Hw.
  - cbn [read_fills]. destruct (futuresFillPage v from to) as [page|]; [|done]. rewrite short_sub by lia.
    rewrite (proj2 (Z.ltb_ge _ _)) by (unfold binanceMinFillSplit; lia). rewrite andb_false_r. by destruct (Nat.leb _ _).
  - remember (S k) as n eqn:En. cbn [read_fills]. destruct (futuresFillPage v from to) as [page|]; [|done]. rewrite short_sub by lia.
    destruct (Nat.leb _ _ && _); [|by destruct (Nat.leb _ _)]. rewrite En, Nat2Z.inj_succ, <- Z.add_1_r in Hd.
    destruct (halves (to - from) (Z.of_nat k)) as [H1 H2]; [lia|lia|]. set (mid := from + Z.quot (to - from) 2).
    pose proof (IH from mid acc ltac:(unfold mid; lia) ltac:(unfold mid; lia)) as T1.
    destruct (read_fills v n from mid acc) as [[acc1|]|]; [|done..]. apply IH; unfold mid; lia.
Qed.

Lemma read_windows_total v fuel s e acc : e - s < Z.of_nat fuel * binanceFillWindow ∨ e <= s → read_windows v fuel s e acc ≠ None.
Proof.
  revert s acc. induction fuel as [|fuel IH]; intros s acc Hf; cbn [read_windows]; unfold Before; (destruct (Z.ltb_spec s e); cbn [negb]; [|done]); [lia|].
  assert (0 < binanceFillWindow) by done. destruct (read_fills v fill_depth s _ acc) as [[acc1|]|] eqn:E; [|done|].
  - apply IH. lia.
  - exfalso. revert E. apply (read_fills_total v 20); [|lia]. assert (binanceFillWindow <= Second * 2 ^ Z.of_nat 20) by (vm_compute; discriminate). lia.
Qed.

(** C33: over a venue that answers a range with at most a page of its fills,
    and with all of them when the page is not full, reading the futures fills
    always ends.  What it returns are fills of the account whose millisecond
    lies in the range, no two with the same id, and every id of such a fill is
    among theirs, however many pages the range had to be split into.  So it is
    every fill of the range, exactly once, provided no two of them share an id;
    the code tells fills apart by their id alone, and of two fills of different
    symbols that share one it keeps one ([shared_id_dropped]). *)
Theorem futures_fills_once db v start end_ :
  fills_of db v → start < end_ →
  ∃ r, futures_fills v start end_ = Some r ∧
    ∀ fills, r = inl fills →
      let inside f := f ∈ db ∧ UnixMilli start <= fi_Time f <= UnixMilli end_ in
      NoDup (fi_ID <$> fills) ∧ (∀ f, f ∈ fills → inside f) ∧ (∀ f, inside f → fi_ID f ∈ fi_ID <$> fills) ∧
      ((∀ f g, inside f → inside g → fi_ID f = fi_ID g → f = g) → ∀ f, f ∈ fills ↔ inside f).
Proof.
  intros Hv Hse. unfold futures_fills. destruct (read_windows v (window_count start end_) start end_ (∅, [])) as [r|] eqn:E.
  - exists match r with inl acc => inl acc.2 | inr e => inr e end. split; [by destruct r|]. destruct r as [acc|]; [|done]. intros fills [= <-].
    apply (read_windows_spec db v Hv) in E as (Hr & Hin & _ & Hall); [|done|apply reading_nothing]. cbn [snd] in Hin. cbn zeta.
    assert (∀ f, f ∈ acc.2 → f ∈ db ∧ UnixMilli start <= fi_Time f <= UnixMilli end_) as Hin' by (intros f Hf; apply Hin in Hf as [Hf|Hf]; [by apply elem_of_nil in Hf|done]).
    split_and!; [apply Hr|done|intros f [? ?]; by apply Hall|]. intros Hu f. split; [apply Hin'|]. intros Hf.
    pose proof (Hall f (proj1 Hf) (proj2 Hf)) as (g & Eg & Hg)%list_elem_of_fmap. by rewrite (Hu f g Hf (Hin' g Hg) Eg).
  - exfalso. revert E. apply read_windows_total. left. unfold window_count. assert (0 < binanceFillWindow) by done.
    pose proof (Z.div_mod (end_ - start) binanceFillWindow ltac:(lia)). pose proof (Z.mod_pos_bound (end_ - start) binanceFillWindow ltac:(lia)).
    pose proof (Z.div_pos (end_ - start) binanceFillWindow ltac:(lia) ltac:(lia)). rewrite Nat2Z.inj_succ, Z2Nat.id by lia. lia.
Qed.

(** A venue that answers the first fills of the range, up to a page. *)
Definition honest_fills (db : list binanceFuturesFill) (a b : Z) : answer (list binanceFuturesFill) :=
  inl (take binanceFillPageLimit (filter (λ f, a <= fi_Time f <= b) db)).

Lemma honest_fills_of db v : v_userTrades v = honest_fills db → fills_of db v.
Proof.
  intros Hv a b page. rewrite Hv. unfold honest_fills. intros [= <-]. set (l := filter _ db). split_and!.
  - intros f Hf%elem_of_take. destruct Hf as (i & Hi & _). apply list_elem_of_lookup_2, list_elem_of_filter in Hi as [? ?]. done.
  - rewrite length_take. intros Hlen f Hf Ht. rewrite take_ge by lia. by apply list_elem_of_filter.
Qed.

(** Fifteen hundred fills, one a second: two pages' worth. *)
Definition demo_fills : list binanceFuturesFill := (λ i, mkFill (Z.of_nat i) "BTCUSDT" "1" "1" "0" (1000 * Z.of_nat i) "BUY" "0") <$> seq 0 1500.

Definition no_answer {A} : answer A := inr (mkError "HTTP 403: " false).

Definition fills_venue (db : list binanceFuturesFill) : venue :=
  mkVenue (inl []) no_answer no_answer (λ _ _, no_answer) (λ _, no_answer) no_answer no_answer no_answer (λ _ _ _, no_answer) (honest_fills db)
    (λ _ _, no_answer) (λ _ _, no_answer) (λ _ _ _, no_answer) (λ _ _ _ _, no_answer) no_answer (λ _ _ _ _, no_answer) (λ _ _ _, no_answer)
    (λ _ _, no_answer) (λ _ _ _, no_answer) (λ _ _, no_answer) (λ _ _ _, no_answer) (λ _ _ _, no_answer).

Definition demo_venue : venue := fills_venue demo_fills.

Lemma futures_fills_once_witness :
  ∃ fills, futures_fills demo_venue 0 (8 * Day) = Some (inl fills) ∧ length fills = 1500%nat ∧ NoDup (fi_ID <$> fills) ∧ ∀ f, f ∈ demo_fills → f ∈ fills.
Proof.
  destruct (futures_fills_once demo_fills demo_venue 0 (8 * Day) (honest_fills_of demo_fills demo_venue eq_refl) eq_refl) as (r & E & H).
  assert (∃ fills, futures_fills demo_venue 0 (8 * Day) = Some (inl fills) ∧ length fills = 1500%nat) as (fills & E' & Hl) by (eexists; split; vm_compute; reflexivity).
  exists fills. split; [done|]. split; [done|]. destruct (H fills) as (Hn & _ & _ & Hall); [congruence|]. split; [exact Hn|].
  assert (NoDup (fi_ID <$> demo_fills)) as Hdb by (apply (bool_decide_unpack _); vm_compute; exact I).
  intros f Hf. apply Hall; [intros f1 f2 [H1 _] [H2 _]; by apply (row_by_id fi_ID demo_fills Hdb)|]. split; [done|].
  assert (Forall (λ f, UnixMilli 0 <= fi_Time f <= UnixMilli (8 * Day)) demo_fills) as Hr by (apply (bool_decide_unpack _); vm_compute; exact I).
  rewrite Forall_forall in Hr. by apply Hr.
Defined.

(** Two fills of two symbols with the same id: one of them is lost. *)
Definition shared_fills : list binanceFuturesFill := [mkFill 7 "BTCUSDT" "1" "1" "0" 1000 "BUY" "0"; mkFill 7 "ETHUSDT" "2" "5" "0" 2000 "SELL" "10"].

Lemma shared_id_dropped : futures_fills (fills_venue shared_fills) 0 Day = Some (inl [mkFill 7 "BTCUSDT" "1" "1" "0" 1000 "BUY" "0"]).
Proof. vm_compute. reflexivity. Qed.

(** ** The perimeter of the equity *)

Section balance.
Context {F : Type} `{Num F} `{FloatText F}.

(** What each wallet answered, in the order it is read. *)
Definition wallet_values (v : venue) (priceMap : gmap string F) (earn : answer (binanceEarn (F := F))) (spot : Balance F) : list (string * answer F) :=
  [ (binanceWalletSpot, inl (bal_Equity spot));
    (binanceWalletUM, match getFuturesBalance v priceMap with inl fut => inl (bal_Equity fut) | inr e => inr e end);
    (binanceWalletCoinM, getCoinMFuturesEquity v priceMap);
    (binanceWalletCross, getCrossMarginEquity v priceMap);
    (binanceWalletIsolated, getIsolatedMarginEquity v priceMap);
    (binanceWalletEarn, match earn with inl e => inl (ValueSpotHoldingsUSD (be_positions e) priceMap) | inr e => inr e end) ].

Definition grade (x : string * answer F) : WalletCoverage :=
  match x.2 with
  | inl _ => mkCoverage x.1 WalletRead ""
  | inr e => mkCoverage x.1 WalletUnreadable (vendorErrorDetail (ve_text e))
  end.

(** The sum of what could be read, in order. *)
Definition read_sum (start : F) (l : list (string * answer F)) : F :=
  foldl (λ t x, match x.2 with inl eq => fadd t eq | inr _ => t end) start l.

Definition readable (x : string * answer F) : bool := match x.2 with inl _ => true | inr _ => false end.
Definition lasting (x : string * answer F) : bool := match x.2 with inl _ => true | inr e => negb (ve_transient e) end.

Lemma read_wallet_ok w label warning r (s s' : sum) :
  read_wallet w label warning r s = inl s' →
  su_equity s' = read_sum (su_equity s) [(w, r)] ∧ su_coverage s' = su_coverage s ++ [grade (w, r)] ∧ lasting (w, r) = true.
Proof. unfold read_wallet, lasting. destruct r as [eq|e]; cbn; [by intros [= <-]|]. destruct (ve_transient e); [done|]. by intros [= <-]. Qed.

Lemma read_futures_ok r (s s' : sum (F := F)) :
  read_futures r s = inl s' →
  let x := (binanceWalletUM, match r with inl fut => inl (bal_Equity fut) | inr e => inr e end) in
  su_equity s' = read_sum (su_equity s) [x] ∧ su_coverage s' = su_coverage s ++ [grade x] ∧ lasting x = true.
Proof. unfold read_futures, lasting. destruct r as [fut|e]; cbn; [by intros [= <-]|]. destruct (ve_transient e); [done|]. by intros [= <-]. Qed.

Lemma read_earn_ok priceMap r (s : sum (F := F)) :
  let x := (binanceWalletEarn, match r with inl e => inl (ValueSpotHoldingsUSD (be_positions e) priceMap) | inr e => inr e end) in
  su_equity (read_earn priceMap r s) = read_sum (su_equity s) [x] ∧ su_coverage (read_earn priceMap r s) = su_coverage s ++ [grade x].
Proof. by destruct r. Qed.

(** C34: a balance that is returned sums exactly the wallets that could be
    read, in any arithmetic and in the order they are read; its coverage names
    the six wallets and grades each by its own read; no read failed in a
    passing way; and the wallets the flows are measured against afterwards are
    the ones in the sum. *)
Theorem equity_perimeter v (b b' : Binance (F := F)) bal :
  GetBalance v b = (b', inl bal) →
  ∃ priceMap spot,
    FetchBinanceStylePriceMap (v_tickers v) = inl priceMap ∧
    getSpotBalance v priceMap (match getSimpleEarn v with inl x => be_flexibleAssets x | inr _ => ∅ end) = inl spot ∧
    let values := wallet_values v priceMap (getSimpleEarn v) spot in
    bal_Equity bal = read_sum (bal_Equity spot) (tail values) ∧
    b_coverage b' = grade <$> values ∧
    forallb lasting values = true ∧
    ∀ w, w ∈ measuredWallets b' ↔ w ∈ (filter (λ x, readable x = true) values).*1.
Proof.
  unfold GetBalance. destruct (FetchBinanceStylePriceMap _) as [priceMap|]; [|done]. generalize (getSimpleEarn v) as earn. intros earn.
  destruct (match earn with inl _ => None | inr e => _ end) eqn:Er; [done|]. destruct (getSpotBalance v priceMap _) as [spot|] eqn:Es; [|done].
  remember (mkSum _ _ _ _ _) as s0 eqn:E0. cbn [read_all].
  destruct (read_futures _ s0) as [s1|] eqn:E1; [|done]. destruct (read_wallet binanceWalletCoinM _ _ _ s1) as [s2|] eqn:E2; [|done].
  destruct (read_wallet binanceWalletCross _ _ _ s2) as [s3|] eqn:E3; [|done]. destruct (read_wallet binanceWalletIsolated _ _ _ s3) as [s4|] eqn:E4; [|done].
  intros [= <- <-]. exists priceMap, spot. split; [done|]. split; [done|]. apply read_futures_ok in E1 as (Q1 & C1 & L1). apply read_wallet_ok in E2 as (Q2 & C2 & L2), E3 as (Q3 & C3 & L3), E4 as (Q4 & C4 & L4).
  destruct (read_earn_ok priceMap earn s4) as [Q5 C5]. cbv zeta. set (values := wallet_values v priceMap earn spot).
  assert (su_coverage (read_earn priceMap earn s4) = grade <$> values) as Ec by (by rewrite C5, C4, C3, C2, C1, E0).
  split_and!.
  - cbn [bal_Equity usdt]. by rewrite Q5, Q4, Q3, Q2, Q1, E0.
  - done.
  - unfold values, wallet_values. cbn [forallb]. rewrite L1, L2, L3, L4. unfold lasting. cbn [snd]. destruct earn as [|e]; [done|]. by destruct (ve_transient e).
  - intros w. unfold measuredWallets, with_sum. cbn [b_coverage]. rewrite Ec. clear. destruct (grade <$> values) as [|c l] eqn:E; [done|]. rewrite <- E. clear E c l.
    rewrite elem_of_list_to_set. enough (wc_Wallet <$> filter (λ c, wc_Status c = WalletRead) (grade <$> values) = (filter (λ x, readable x = true) values).*1) as -> by done.
    generalize values. intros l. induction l as [|[w' r] l IH]; [done|]. destruct r as [f|e].
    + rewrite fmap_cons, !filter_cons_True by done. rewrite !fmap_cons. by f_equal.
    + rewrite fmap_cons, !filter_cons_False by done. done.
Qed.

End balance.

(** An account with four USDT in the spot wallet, a BTC at five in the
    cross-margin wallet, no position in Earn, and no permission elsewhere. *)
Definition demo_wallets : venue :=
  mkVenue (inl [("BTCUSDT", "5")]) (inl [mkSpotRow "USDT" "3" "1"]) no_answer (λ _ _, inl ([], 0)) (λ isolated, if isolated then no_answer else inl "1") no_answer no_answer no_answer
    (λ _ _ _, no_answer) (λ _ _, no_answer)
    (λ _ _, no_answer) (λ _ _, no_answer) (λ _ _ _, no_answer) (λ _ _ _ _, no_answer) no_answer (λ _ _ _ _, no_answer) (λ _ _ _, no_answer)
    (λ _ _, no_answer) (λ _ _ _, no_answer) (λ _ _, no_answer) (λ _ _ _, no_answer) (λ _ _ _, no_answer).

Lemma equity_perimeter_witness :
  let '(b', r) := GetBalance (H0 := FlexNarrow.whole_text) demo_wallets NewBinance in
  ∃ bal, r = inl bal ∧ bal_Equity bal = flit 9 0 ∧ ∀ w, w ∈ measuredWallets b' ↔ w ∈ [binanceWalletSpot; binanceWalletCross; binanceWalletEarn].
Proof.
  destruct (GetBalance (H0 := FlexNarrow.whole_text) demo_wallets NewBinance) as [b' r] eqn:E.
  assert (∃ bal, r = inl bal ∧ bal_Equity bal = flit 9 0) as (bal & -> & Eq) by (apply (f_equal snd) in E; cbn [snd] in E; rewrite <- E; eexists; split; vm_compute; reflexivity).
  exists bal. split; [done|]. split; [done|].
  destruct (equity_perimeter demo_wallets NewBinance b' bal E) as (priceMap & spot & Ep & Es & _ & _ & _ & Hw). intros w. rewrite Hw.
  assert (priceMap = <["BTCUSDT" := flit 5 0]> ∅) as -> by (vm_compute in Ep; injection Ep as <-; vm_compute; reflexivity).
  replace (filter _ _).*1 with [binanceWalletSpot; binanceWalletCross; binanceWalletEarn]; [done|]. vm_compute. reflexivity.
Defined.

(** ** Transfers and their other side *)

Section strays.
Context {F : Type} `{Num F}.

(** What is left to claim. *)
Definition free {A} (l : list (A * bool)) : list A := (filter (λ x, x.2 = false) l).*1.

Lemma free_cons {A} (x : A) used l : free ((x, used) :: l) = (if used then [] else [x]) ++ free l.
Proof. unfold free. destruct used; [by rewrite filter_cons_False|by rewrite filter_cons_True]. Qed.

Lemma free_unused {A} (l : list A) : free (unused l) = l.
Proof. induction l as [|x l IH]; [done|]. unfold unused in *. rewrite fmap_cons, free_cons, IH. done. Qed.

Lemma claim_some {A} (P : A → bool) l y l' : claim P l = Some (y, l') → P y = true ∧ free l ≡ₚ y :: free l'.
Proof.
  revert l'. induction l as [|[x used] l IH]; [done|]. intros l'. cbn [claim]. destruct (negb used && P x) eqn:E.
  - intros [= <- <-]. apply andb_true_iff in E as [E ?]. destruct used; [done|]. split; [done|]. by rewrite !free_cons.
  - destruct (claim P l) as [[z l'']|]; [|done]. intros [= <- <-]. destruct (IH _ eq_refl) as [Hz Hp]. split; [done|]. rewrite !free_cons, Hp. destruct used; [done|]. apply Permutation_swap.
Qed.

Lemma claim_none {A} (P : A → bool) l : claim P l = None → ∀ x, x ∈ free l → P x = false.
Proof.
  induction l as [|[x used] l IH]; [intros _ x; by rewrite elem_of_nil|]. cbn [claim]. destruct (negb used && P x) eqn:E; [done|]. destruct (claim P l) as [[]|]; [done|].
  intros _ y. rewrite free_cons, elem_of_app. intros [Hy|Hy]; [|by apply IH]. destruct used; [by apply elem_of_nil in Hy|]. apply list_elem_of_singleton in Hy as ->. done.
Qed.

Lemma stray_from_spec moves (cs : list (binanceMove (F := F) * bool)) :
  ∃ pairs left,
    filter (λ m, feqb (mv_qty m) f0 = false) moves ≡ₚ stray_from moves cs ++ pairs.*1 ∧
    free cs ≡ₚ pairs.*2 ++ left ∧
    Forall (λ p, binanceSameTransfer p.1 p.2 = true) pairs ∧
    ∀ m p, m ∈ stray_from moves cs → p ∈ left → binanceSameTransfer m p = false.
Proof.
  revert cs. induction moves as [|m moves IH]; intros cs; cbn [stray_from].
  - exists [], (free cs). split_and!; [done|done|constructor|]. intros m p Hm. by apply elem_of_nil in Hm.
  - destruct (feqb (mv_qty m) f0) eqn:Ez; [rewrite filter_cons_False by congruence; apply IH|]. rewrite filter_cons_True by done.
    destruct (claim _ cs) as [[c cs']|] eqn:Ec.
    + apply claim_some in Ec as [Hs Hp]. destruct (IH cs') as (pairs & left & Em & El & Hf & Hn). exists ((m, c) :: pairs), left. split_and!.
      * rewrite Em, fmap_cons. cbn [fst]. by rewrite <- Permutation_middle.
      * by rewrite Hp, El.
      * by constructor.
      * done.
    + destruct (IH cs) as (pairs & left & Em & El & Hf & Hn). exists pairs, left. split_and!; [by rewrite Em|done|done|].
      intros x p [->|Hx]%elem_of_cons Hp; [|by apply Hn]. apply (claim_none _ _ Ec). rewrite El, elem_of_app. by right.
Qed.

(** The movements of the futures wallet that become flows are the ones
    no other side explains: every other non-zero movement is paired with a
    counterpart of the same asset, amount and moment, no counterpart explains
    two movements, and no counterpart that is left over would have explained
    one of the strays. *)
Theorem strays_unexplained moves (counterparts : list (binanceMove (F := F))) :
  ∃ pairs left,
    filter (λ m, feqb (mv_qty m) f0 = false) moves ≡ₚ strayBinanceMoves moves counterparts ++ pairs.*1 ∧
    counterparts ≡ₚ pairs.*2 ++ left ∧
    Forall (λ p, binanceSameTransfer p.1 p.2 = true) pairs ∧
    ∀ m p, m ∈ strayBinanceMoves moves counterparts → p ∈ left → binanceSameTransfer m p = false.
Proof. destruct (stray_from_spec moves (unused counterparts)) as (pairs & left & Hs). rewrite free_unused in Hs. eauto. Qed.

End strays.

End BinanceSafe.
