(* ===== verification/CTrader.v ===== *)
(** * The cTrader connector (internal/connector/ctrader.go): accounts, balance,
    deals, the ledger and the history rebuilt from them

    A request for an account is answered by a record of decoded answers, which
    includes the failures of its authentication; CTraderSession models how a
    request travels.  The waits between two pages are not modelled: a
    cancelled context is an error of the next answer. *)

From S2P Require Import Prelude GoTime GoText Num Types Venue.
From stdpp Require Import base gmap strings pretty tactics list.
From Stdlib Require Import ZArith Ascii Lia.
Import Venue.
Local Open Scope Z_scope.

Module CTrader.

(** ** What the broker answers *)

(** An enum arrives as its name or as its number. *)
Definition tradeSide (j : string + Z) : string :=
  match j with inl s => s | inr n => if n =? 1 then "BUY" else if n =? 2 then "SELL" else "" end.

Definition dealStatus (j : string + Z) : string :=
  match j with inl s => s | inr n => if n =? 2 then "FILLED" else if n =? 3 then "PARTIALLY_FILLED" else "" end.

Record cTraderAccount := mkAccount { ac_ID : Z; ac_IsLive : bool }.
Record cTraderTrader := mkTrader { td_Balance : Z; td_MoneyDigits : Z; td_DepositAssetID : Z }.
Record cTraderPositionPnL := mkPnL { pn_PositionID : Z; pn_Net : Z }.
Record cTraderAsset := mkAsset { as_ID : Z; as_Name : string; as_DisplayName : string }.

Record closePositionDetail := mkClose { cl_GrossProfit : Z; cl_Commission : Z; cl_Swap : Z; cl_Balance : option Z; cl_MoneyDigits : Z }.

Record ctraderDepositWithdraw := mkEntry { dw_OperationType : Z; dw_Balance : Z; dw_Delta : Z; dw_Timestamp : Z; dw_MoneyDigits : Z }.

Section ctrader.
Context {F : Type} `{Num F}.

Record cTraderPosition := mkCPosition { cp_PositionID : Z; cp_SymbolID : Z; cp_Volume : Z; cp_TradeSide : string + Z; cp_Price : F; cp_UsedMargin : Z; cp_MoneyDigits : Z }.

Record cTraderDeal := mkDeal {
  de_DealID : Z;
  de_SymbolID : Z;
  de_TradeSide : string + Z;
  de_FilledVolume : Z;
  de_ExecutionPrice : F;
  de_ExecutionTimestamp : Z;
  de_Commission : Z;
  de_DealStatus : string + Z;
  de_MoneyDigits : Z;
  de_BaseToUsd : F;
  de_Close : option closePositionDetail;
}.

(** Every request but the first names an account. *)
Record api := mkApi {
  ap_accounts : answer (list cTraderAccount);
  ap_auth : Z → option verror;
  ap_trader : Z → answer cTraderTrader;
  ap_reconcile : Z → answer (list cTraderPosition);
  ap_pnl : Z → answer (list cTraderPositionPnL * Z);
  ap_assets : Z → answer (list cTraderAsset);
  ap_symbols : Z → Z → answer (list string);
  ap_deals : Z → Z → Z → answer (list cTraderDeal * bool);
  ap_ledger : Z → Z → Z → answer (list ctraderDepositWithdraw) }.

(** ** Money and volumes *)

(** [math.Pow10], exact up to 22. *)
Definition Pow10 (n : Z) : F := fofZ (10 ^ n).

Definition ctraderMoneyDivisor (moneyDigits : Z) : F := if 0 <? moneyDigits then Pow10 moneyDigits else fofZ 100.

Definition filled (d : cTraderDeal) : bool :=
  let s := dealStatus (de_DealStatus d) in String.eqb s "FILLED" || String.eqb s "PARTIALLY_FILLED".

Definition is_sell (side : string + Z) : bool := EqualFold (tradeSide side) "SELL".

Definition units (d : cTraderDeal) : F := fdiv (fofZ (de_FilledVolume d)) (fofZ 100).

Definition usdNotional (d : cTraderDeal) : F := if fleb (de_BaseToUsd d) f0 then f0 else fmul (units d) (de_BaseToUsd d).

Definition notional (d : cTraderDeal) : F := if fltb f0 (usdNotional d) then usdNotional d else fmul (units d) (de_ExecutionPrice d).

Definition fee (d : cTraderDeal) : F := fdiv (fopp (fofZ (de_Commission d))) (ctraderMoneyDivisor (de_MoneyDigits d)).

(** The scale of a closing detail, its deal's when it has none. *)
Definition close_digits (d : cTraderDeal) (c : closePositionDetail) : Z := if cl_MoneyDigits c =? 0 then de_MoneyDigits d else cl_MoneyDigits c.

Definition realizedPnL (d : cTraderDeal) : F :=
  match de_Close d with
  | None => f0
  | Some c => fdiv (fofZ (int64 (int64 (cl_GrossProfit c + cl_Swap c) + cl_Commission c))) (ctraderMoneyDivisor (close_digits d c))
  end.

(** ** State *)

Record CTrader := mkCTrader {
  ct_isLive : bool;
  ct_pinnedAccountID : Z;
  ct_accountID : Z;
  ct_accountUnpinned : bool;
  ct_symbolCache : gmap Z string;
  ct_symbolMisses : gmap Z time;
  ct_currency : string;
  ct_currencyResolveFailed : bool;
  ct_capabilityWarnings : list string;
}.

Definition ctraderPinPrefix : string := "ctid:".

(** The account a passphrase names, zero when it names none. *)
Definition pinned_of (passphrase : string) : Z :=
  if HasPrefix passphrase ctraderPinPrefix
  then match ParseInt (drop_str 5 passphrase) with Some n => if 0 <? n then n else 0 | None => 0 end
  else 0.

Definition NewCTrader (passphrase : string) : CTrader :=
  let passphrase := TrimSpace passphrase in
  mkCTrader (negb (EqualFold passphrase "demo")) (pinned_of passphrase) 0 false ∅ ∅ "" false [].

Definition with_account (c : CTrader) (live unpinned : bool) (id : Z) : CTrader :=
  mkCTrader live (ct_pinnedAccountID c) id unpinned (ct_symbolCache c) (ct_symbolMisses c) (ct_currency c) (ct_currencyResolveFailed c) (ct_capabilityWarnings c).
Definition with_symbols (c : CTrader) (cache : gmap Z string) (misses : gmap Z time) : CTrader :=
  mkCTrader (ct_isLive c) (ct_pinnedAccountID c) (ct_accountID c) (ct_accountUnpinned c) cache misses (ct_currency c) (ct_currencyResolveFailed c) (ct_capabilityWarnings c).
Definition with_currency (c : CTrader) (name : string) (failed : bool) : CTrader :=
  mkCTrader (ct_isLive c) (ct_pinnedAccountID c) (ct_accountID c) (ct_accountUnpinned c) (ct_symbolCache c) (ct_symbolMisses c) name failed (ct_capabilityWarnings c).
Definition with_warnings (c : CTrader) (w : list string) : CTrader :=
  mkCTrader (ct_isLive c) (ct_pinnedAccountID c) (ct_accountID c) (ct_accountUnpinned c) (ct_symbolCache c) (ct_symbolMisses c) (ct_currency c) (ct_currencyResolveFailed c) w.

Definition CapabilityWarnings (c : CTrader) : list string := ct_capabilityWarnings c.
Definition resetCapabilityWarnings (c : CTrader) : CTrader := with_warnings c [].
Definition addCapabilityWarning (c : CTrader) (marker : string) : CTrader :=
  if bool_decide (marker ∈ ct_capabilityWarnings c) then c else with_warnings c (ct_capabilityWarnings c ++ [marker]).
Definition accountCurrency (c : CTrader) : string := if String.eqb (ct_currency c) "" then "USD" else ct_currency c.

(** ** Which account *)

Definition no_accounts : verror := mkError "no cTrader accounts found" false.
Definition errCTraderPinnedAccountNotGranted : verror :=
  mkError "the cTrader account this connection was created for is not granted by its token; the account must be re-authorized" false.

(** The account, and whether it was chosen among several live ones. *)
Definition selectCTraderAccount (accounts : list cTraderAccount) (pinned : Z) : answer (cTraderAccount * bool) :=
  match accounts with
  | [] => inr no_accounts
  | first :: _ =>
      if negb (pinned =? 0) then
        match find_first (λ a, ac_ID a =? pinned) accounts with
        | Some a => inl (a, false)
        | None => inr errCTraderPinnedAccountNotGranted
        end
      else
        let live := filter (λ a, ac_IsLive a = true) accounts in
        inl (default first (head live), bool_decide (1 < Z.of_nat (length live)))
  end.

Definition ensureAccountID (v : api) (c : CTrader) : CTrader * answer Z :=
  if negb (ct_accountID c =? 0) then (c, inl (ct_accountID c))
  else match ap_accounts v with
  | inr e => (c, inr e)
  | inl accounts =>
      match selectCTraderAccount accounts (ct_pinnedAccountID c) with
      | inr e => (c, inr e)
      | inl (a, unpinned) => (with_account c (ac_IsLive a) unpinned (ac_ID a), inl (ac_ID a))
      end
  end.

Definition DetectIsPaper (v : api) (c : CTrader) : answer bool :=
  match ap_accounts v with
  | inr e => inr e
  | inl accounts => match selectCTraderAccount accounts (ct_pinnedAccountID c) with inr e => inr e | inl (a, _) => inl (negb (ac_IsLive a)) end
  end.

Definition TestConnection (v : api) : option verror :=
  match ap_accounts v with inr e => Some e | inl [] => Some no_accounts | inl _ => None end.

(** ** Balance *)

Definition firstNonEmpty (values : list string) : string :=
  default "" (find_first (λ s, negb (String.eqb s "")) (TrimSpace <$> values)).

Definition resolveAccountCurrency (v : api) (accountID depositAssetID : Z) (c : CTrader) : CTrader * string :=
  if negb (String.eqb (ct_currency c) "") then (c, ct_currency c)
  else if ct_currencyResolveFailed c || (depositAssetID <=? 0) then (c, "")
  else
    let giveUp := (with_currency c (ct_currency c) true, "") in
    match ap_assets v accountID with
    | inr _ => giveUp
    | inl assets =>
        match find_first (λ a, as_ID a =? depositAssetID) assets with
        | None => giveUp
        | Some a =>
            let name := ToUpper (TrimSpace (firstNonEmpty [as_Name a; as_DisplayName a])) in
            if String.eqb name "" then giveUp else (with_currency c name (ct_currencyResolveFailed c), name)
        end
    end.

(** By position, and the total; no request without an open position. *)
Definition positionUnrealizedPnL (v : api) (accountID : Z) (positions : list cTraderPosition) : gmap Z F * F * option verror :=
  match positions with
  | [] => (∅, f0, None)
  | _ =>
      match ap_pnl v accountID with
      | inr e => (∅, f0, Some e)
      | inl (rows, moneyDigits) =>
          let add (acc : gmap Z F * F) (p : cTraderPositionPnL) :=
            let x := fdiv (fofZ (pn_Net p)) (ctraderMoneyDivisor moneyDigits) in (<[pn_PositionID p := x]> acc.1, fadd acc.2 x) in
          let '(byPosition, total) := foldl add (∅, f0) rows in (byPosition, total, None)
      end
  end.

Record cTraderBalanceInfo := mkInfo { bi_Balance : F; bi_Equity : F; bi_UnrealizedPnL : F; bi_MarginUsed : F; bi_MarginAvailable : F; bi_Currency : string }.

Definition margin_used (divisor : F) (positions : list cTraderPosition) : F :=
  foldl (λ used p,
    let posDivisor := if 0 <? cp_MoneyDigits p then Pow10 (cp_MoneyDigits p) else divisor in
    if 0 <? cp_UsedMargin p then fadd used (fdiv (fofZ (cp_UsedMargin p)) posDivisor) else used) f0 positions.

Definition getAccountBalance (v : api) (accountID : Z) (c : CTrader) : CTrader * answer cTraderBalanceInfo :=
  let c := resetCapabilityWarnings c in
  let c := if ct_accountUnpinned c then addCapabilityWarning c "multiple_live_accounts_unpinned" else c in
  match ap_trader v accountID with
  | inr e => (c, inr e)
  | inl trader =>
      let divisor := Pow10 (if td_MoneyDigits trader <=? 0 then 2 else td_MoneyDigits trader) in
      match ap_reconcile v accountID with
      | inr e => (c, inr e)
      | inl positions =>
          let '(_, unrealizedPnL, pnlErr) := positionUnrealizedPnL v accountID positions in
          let c := if pnlErr then addCapabilityWarning c "unrealized_pnl_unavailable" else c in
          let marginUsed := margin_used divisor positions in
          let balance := fdiv (fofZ (td_Balance trader)) divisor in
          let equity := fadd balance unrealizedPnL in
          let '(c, currency) := resolveAccountCurrency v accountID (td_DepositAssetID trader) c in
          let c := if negb (String.eqb currency "") && negb (String.eqb currency "USD")
                   then addCapabilityWarning c ("account_currency_" +:+ ToLower currency) else c in
          (c, inl (mkInfo balance equity unrealizedPnL marginUsed (fsub equity marginUsed) (if String.eqb currency "" then "USD" else currency)))
      end
  end.

Definition GetBalance (v : api) (c : CTrader) : CTrader * answer (Balance F) :=
  match ensureAccountID v c with
  | (c, inr e) => (c, inr e)
  | (c, inl accountID) =>
      match getAccountBalance v accountID c with
      | (c, inr e) => (c, inr e)
      | (c, inl info) => (c, inl (mkBalance (bi_MarginAvailable info) (bi_Equity info) (bi_UnrealizedPnL info) (bi_Currency info) ∅))
      end
  end.

(** ** Symbols and positions *)

Definition ctraderSymbolMissTTL : duration := 5 * Minute.

Definition getSymbolByID (v : api) (symbolID accountID : Z) (c : CTrader) : CTrader * answer string :=
  match ap_symbols v accountID symbolID with
  | inr e => (c, inr e)
  | inl [] => (c, inl "")
  | inl (s :: _) =>
      let name := TrimSpace s in
      (if String.eqb name "" then c else with_symbols c (<[symbolID := name]> (ct_symbolCache c)) (ct_symbolMisses c), inl name)
  end.

Definition missing_symbol (symbolID : Z) : string := "SYMBOL_" +:+ pretty symbolID.

Definition getSymbolName (v : api) (now : time) (symbolID accountID : Z) (c : CTrader) : CTrader * string :=
  if symbolID <=? 0 then (c, "")
  else
    let cached := default "" (ct_symbolCache c !! symbolID) in
    if negb (String.eqb cached "") then (c, cached)
    else
      let recent := match ct_symbolMisses c !! symbolID with Some missedAt => Sub now missedAt <? ctraderSymbolMissTTL | None => false end in
      if recent then (c, missing_symbol symbolID)
      else match getSymbolByID v symbolID accountID c with
      | (c, inl name) =>
          if String.eqb name "" then (with_symbols c (ct_symbolCache c) (<[symbolID := now]> (ct_symbolMisses c)), missing_symbol symbolID) else (c, name)
      | (c, inr _) => (with_symbols c (ct_symbolCache c) (<[symbolID := now]> (ct_symbolMisses c)), missing_symbol symbolID)
      end.

(** A list read one by one, the names resolved on the way. *)
Fixpoint named {A B} (v : api) (now : time) (accountID : Z) (symbol : A → Z) (make : string → A → B) (l : list A) (c : CTrader) : CTrader * list B :=
  match l with
  | [] => (c, [])
  | x :: rest =>
      let '(c, name) := getSymbolName v now (symbol x) accountID c in
      let '(c, out) := named v now accountID symbol make rest c in (c, make name x :: out)
  end.

Definition position_of (pnl : gmap Z F) (symbol : string) (p : cTraderPosition) : Position F :=
  mkPosition symbol (if is_sell (cp_TradeSide p) then "short" else "long") (fdiv (fofZ (cp_Volume p)) (fofZ 100)) (cp_Price p) f0
    (default f0 (pnl !! cp_PositionID p)) (market_name MCFD).

Definition GetPositions (v : api) (now : time) (c : CTrader) : CTrader * answer (list (Position F)) :=
  match ensureAccountID v c with
  | (c, inr e) => (c, inr e)
  | (c, inl accountID) =>
      match ap_reconcile v accountID with
      | inr e => (c, inr e)
      | inl raw =>
          let '(pnl, _, _) := positionUnrealizedPnL v accountID raw in
          let '(c, out) := named v now accountID cp_SymbolID (position_of pnl) raw c in (c, inl out)
      end
  end.

(** ** Deals *)

Definition ctraderMaxDealPages : nat := 200.

Definition newestExecution (deals : list cTraderDeal) : Z := foldl (λ newest d, if newest <? de_ExecutionTimestamp d then de_ExecutionTimestamp d else newest) 0 deals.

(** All the deals, their ids, and how many are new. *)
Definition appendUnseenDeals (acc : gset Z * list cTraderDeal) (page : list cTraderDeal) : gset Z * list cTraderDeal * nat :=
  let acc' := foldl (add_unseen de_DealID) acc page in (acc', (length acc'.2 - length acc.2)%nat).

Definition truncated_history (start end_ : time) : verror :=
  mkError ("ctrader deal history for " +:+ FormatDate start +:+ ".." +:+ FormatDate end_ +:+ " could not be paged to its end within "
           +:+ pretty (N.of_nat ctraderMaxDealPages) +:+ " pages of 1000: refusing a truncated history") false.

(** [left] more pages may be read; [None] is a walk that did not reach the end. *)
Fixpoint deal_pages (v : api) (accountID : Z) (left : nat) (from to : Z) (acc : gset Z * list cTraderDeal) : option (answer (list cTraderDeal)) :=
  match left with
  | O => None
  | S left' =>
      match ap_deals v accountID from to with
      | inr e => Some (inr e)
      | inl (page, hasMore) =>
          let '(acc, added) := appendUnseenDeals acc page in
          if negb hasMore || bool_decide (length page = O) then Some (inl acc.2)
          else
            let newest := newestExecution page in
            if (newest <=? from) && Nat.eqb added 0 then None else deal_pages v accountID left' newest to acc
      end
  end.

Definition getAllDeals (v : api) (accountID : Z) (start end_ : time) : answer (list cTraderDeal) :=
  match ap_auth v accountID with
  | Some e => inr e
  | None => default (inr (truncated_history start end_)) (deal_pages v accountID ctraderMaxDealPages (UnixMilli start) (UnixMilli end_) (∅, []))
  end.

Definition trade_of (symbol : string) (d : cTraderDeal) : Trade F :=
  mkTrade symbol (if is_sell (de_TradeSide d) then "sell" else "buy") (de_ExecutionPrice d) (units d) f0 (usdNotional d) (fee d) (realizedPnL d)
    (of_milli (de_ExecutionTimestamp d)) (market_name MCFD).

Definition GetTrades (v : api) (now start end_ : time) (c : CTrader) : CTrader * answer (list (Trade F)) :=
  match ensureAccountID v c with
  | (c, inr e) => (c, inr e)
  | (c, inl accountID) =>
      match getAllDeals v accountID start end_ with
      | inr e => (c, inr e)
      | inl deals => let '(c, out) := named v now accountID de_SymbolID trade_of (filter (λ d, filled d = true) deals) c in (c, inl out)
      end
  end.

(** ** The ledger *)

Definition ctraderOpDeposit : Z := 0.
Definition ctraderOpWithdraw : Z := 1.

(** The operations that are capital, with the direction each moves the
    balance. *)
Definition ctraderCapitalOps : list (Z * F) :=
  [(ctraderOpDeposit, f1); (ctraderOpWithdraw, fopp f1); (3, f1); (5, f1); (6, fopp f1); (7, f1); (8, f1); (11, f1); (13, fopp f1); (14, fopp f1);
   (27, f1); (29, f1); (30, fopp f1); (31, f1); (32, fopp f1); (33, f1); (36, f1); (37, fopp f1); (38, f1)].

Definition capital_sign (op : Z) : option F := snd <$> find_first (λ x, x.1 =? op) ctraderCapitalOps.

Definition ctraderCashflowAmount (dw : ctraderDepositWithdraw) : option F :=
  sign ← capital_sign (dw_OperationType dw);
  let amount := fdiv (fabs (fofZ (dw_Delta dw))) (ctraderMoneyDivisor (dw_MoneyDigits dw)) in
  if feqb amount f0 then None else Some (fmul sign amount).

Definition ctraderCashflowsFromEntries (currency : string) (entries : list ctraderDepositWithdraw) : list (Cashflow F) :=
  omap (λ dw, amount ← ctraderCashflowAmount dw; Some (mkCashflow amount currency (of_milli (dw_Timestamp dw)))) entries.

Definition ctraderCashflowWindow : duration := 7 * Day.

(** The starts of the weekly chunks. *)
Definition chunk_starts (start end_ : time) : list time :=
  (λ i, start + Z.of_nat i * ctraderCashflowWindow) <$> seq 0 (Z.to_nat ((end_ - start + ctraderCashflowWindow - 1) / ctraderCashflowWindow)).

Fixpoint read_chunks (v : api) (accountID : Z) (end_ : time) (starts : list time) : answer (list ctraderDepositWithdraw) :=
  match starts with
  | [] => inl []
  | chunkStart :: rest =>
      let chunkEnd := Z.min (chunkStart + ctraderCashflowWindow) end_ in
      match ap_ledger v accountID (UnixMilli chunkStart) (UnixMilli chunkEnd) with
      | inr e => inr e
      | inl entries => match read_chunks v accountID end_ rest with inr e => inr e | inl l => inl (entries ++ l) end
      end
  end.

Definition getAllCashflows (v : api) (accountID : Z) (start end_ : time) : answer (list ctraderDepositWithdraw) :=
  match ap_auth v accountID with
  | Some e => inr e
  | None => read_chunks v accountID end_ (chunk_starts start end_)
  end.

Definition getRawCashflows (v : api) (now since : time) (c : CTrader) : CTrader * answer (list ctraderDepositWithdraw) :=
  match ensureAccountID v c with
  | (c, inr e) => (c, inr e)
  | (c, inl accountID) => (c, getAllCashflows v accountID since now)
  end.

Definition GetCashflows (v : api) (now since : time) (c : CTrader) : CTrader * answer (list (Cashflow F)) :=
  match getRawCashflows v now since c with
  | (c, inr e) => (c, inr e)
  | (c, inl entries) => (c, inl (ctraderCashflowsFromEntries (accountCurrency c) entries))
  end.

Definition raw_op (dw : ctraderDepositWithdraw) : RawBalanceOp F :=
  let div := ctraderMoneyDivisor (dw_MoneyDigits dw) in
  mkRawOp (dw_OperationType dw) "" (fdiv (fofZ (dw_Delta dw)) div) (fdiv (fofZ (dw_Balance dw)) div) f0 "" "" (of_milli (dw_Timestamp dw)).

Definition GetRawCashflowEntries (v : api) (now since : time) (c : CTrader) : CTrader * answer (list (RawBalanceOp F)) :=
  match getRawCashflows v now since c with
  | (c, inr e) => (c, inr e)
  | (c, inl entries) => (c, inl (raw_op <$> entries))
  end.

(** ** The rebuilt history *)

Record ctraderBalPoint := mkPoint { bp_t : time; bp_bal : F }.

Definition deal_point (d : cTraderDeal) : option ctraderBalPoint :=
  c ← de_Close d; balance ← cl_Balance c;
  Some (mkPoint (of_milli (de_ExecutionTimestamp d)) (fdiv (fofZ balance) (ctraderMoneyDivisor (close_digits d c)))).

Definition entry_point (cf : ctraderDepositWithdraw) : ctraderBalPoint :=
  mkPoint (of_milli (dw_Timestamp cf)) (fdiv (fofZ (dw_Balance cf)) (ctraderMoneyDivisor (dw_MoneyDigits cf))).

Definition ctraderDealBalancePoints (deals : list cTraderDeal) : list ctraderBalPoint := sort_by bp_t (omap deal_point deals).

Definition ctraderBalancePoints (deals : list cTraderDeal) (cashflows : list ctraderDepositWithdraw) : list ctraderBalPoint :=
  sort_by bp_t (ctraderDealBalancePoints deals ++ (entry_point <$> cashflows)).

Fixpoint balance_from (bal : F) (points : list ctraderBalPoint) (t : time) : F :=
  match points with [] => bal | p :: rest => if Before (bp_t p) t then balance_from (bp_bal p) rest t else bal end.

Definition ctraderBalanceAt (points : list ctraderBalPoint) (t : time) : F := balance_from f0 points t.

Definition ctraderResetPriorFloor : F := f1.

Definition ctraderResetAwareAmount (cf : ctraderDepositWithdraw) (running : F) : option F :=
  amount ← ctraderCashflowAmount cf;
  if negb (dw_OperationType cf =? ctraderOpDeposit) || fleb running ctraderResetPriorFloor then Some amount
  else
    let div := ctraderMoneyDivisor (dw_MoneyDigits cf) in
    let balanceAfter := fdiv (fofZ (dw_Balance cf)) div in
    let ledgerBefore := fsub balanceAfter (fdiv (fofZ (dw_Delta cf)) div) in
    if fltb ledgerBefore (fmul (flit 5 1) running) then Some (fsub balanceAfter running) else Some amount.

Record ctraderCashflowDay := mkFlowDay { fd_deposits : F; fd_withdrawals : F }.

Definition book_flow (byDay : gmap string ctraderCashflowDay) (key : string) (amount : F) : gmap string ctraderCashflowDay :=
  let e := default (mkFlowDay f0 f0) (byDay !! key) in
  <[key := if fltb f0 amount then mkFlowDay (fadd (fd_deposits e) amount) (fd_withdrawals e)
           else mkFlowDay (fd_deposits e) (fadd (fd_withdrawals e) (fopp amount))]> byDay.

(** The deals closed before an instant: the balance after the last of them. *)
Fixpoint advance (t : time) (dealBals : list ctraderBalPoint) (running : F) : list ctraderBalPoint * F :=
  match dealBals with
  | p :: rest => if Before (bp_t p) t then advance t rest (bp_bal p) else (dealBals, running)
  | [] => ([], running)
  end.

Fixpoint flows_from (dealBals : list ctraderBalPoint) (running : F) (sorted : list ctraderDepositWithdraw) (byDay : gmap string ctraderCashflowDay) : gmap string ctraderCashflowDay :=
  match sorted with
  | [] => byDay
  | cf :: rest =>
      let t := of_milli (dw_Timestamp cf) in
      let '(dealBals, running) := advance t dealBals running in
      let amount := ctraderResetAwareAmount cf running in
      let running := if dw_Balance cf =? 0 then running else fdiv (fofZ (dw_Balance cf)) (ctraderMoneyDivisor (dw_MoneyDigits cf)) in
      flows_from dealBals running rest (match amount with Some a => book_flow byDay (FormatCompact t) a | None => byDay end)
  end.

Definition ctraderCashflowsByDay (deals : list cTraderDeal) (cashflows : list ctraderDepositWithdraw) : gmap string ctraderCashflowDay :=
  flows_from (ctraderDealBalancePoints deals) f0 (sort_by dw_Timestamp cashflows) ∅.

Record ctraderTradeDay := mkTradeDay { ty_count : Z; ty_volume : F; ty_fees : F; ty_longTrades : Z; ty_shortTrades : Z; ty_longVolume : F; ty_shortVolume : F }.

Definition no_trades : ctraderTradeDay := mkTradeDay 0 f0 f0 0 0 f0 f0.

Definition add_deal (e : ctraderTradeDay) (d : cTraderDeal) : ctraderTradeDay :=
  let n := notional d in
  if is_sell (de_TradeSide d)
  then mkTradeDay (ty_count e + 1) (fadd (ty_volume e) n) (fadd (ty_fees e) (fee d)) (ty_longTrades e) (ty_shortTrades e + 1) (ty_longVolume e) (fadd (ty_shortVolume e) n)
  else mkTradeDay (ty_count e + 1) (fadd (ty_volume e) n) (fadd (ty_fees e) (fee d)) (ty_longTrades e + 1) (ty_shortTrades e) (fadd (ty_longVolume e) n) (ty_shortVolume e).

Definition ctraderTradesByDay (deals : list cTraderDeal) : gmap string ctraderTradeDay :=
  foldl (λ byDay d,
    if filled d then
      let key := FormatCompact (of_milli (de_ExecutionTimestamp d)) in
      <[key := add_deal (default no_trades (byDay !! key)) d]> byDay
    else byDay) ∅ deals.

(** A row: the balance at the midnight that opens its date, with the flows and
    the trades of the day before. *)
Definition row_at (points : list ctraderBalPoint) (cfByDay : gmap string ctraderCashflowDay) (tByDay : gmap string ctraderTradeDay) (row : time) : HistoricalSnapshot F :=
  let bal := ctraderBalanceAt points row in
  let key := FormatCompact (row - 24 * Hour) in
  let cf := default (mkFlowDay f0 f0) (cfByDay !! key) in
  let t := default no_trades (tByDay !! key) in
  mkHistorical row bal bal (fd_deposits cf) (fd_withdrawals cf) (ty_count t) (ty_volume t) (ty_fees t) f0 (ty_longTrades t) (ty_shortTrades t)
    (ty_longVolume t) (ty_shortVolume t) [] "" zero_time None f0 ∅.

(** [for row := first; !row.After(last); row = row.Add(24 * time.Hour)] *)
Definition row_dates (first last : time) : list time :=
  (λ i, first + Z.of_nat i * (24 * Hour)) <$> seq 0 (Z.to_nat ((last - first) / (24 * Hour) + 1)).

Definition buildCTraderHistoricalSnapshots (deals : list cTraderDeal) (cashflows : list ctraderDepositWithdraw) (now : time) : list (HistoricalSnapshot F) :=
  match ctraderBalancePoints deals cashflows with
  | [] => []
  | (p :: _) as points =>
      row_at points (ctraderCashflowsByDay deals cashflows) (ctraderTradesByDay deals) <$>
        row_dates (truncDay (bp_t p) + 24 * Hour) (truncDay now - 24 * Hour)
  end.

Definition ctraderMaxLookback : duration := 2 * 365 * 24 * Hour.
Definition ctraderInceptionBuffer : duration := 90 * 24 * Hour.

Definition stamp_row (currency : string) (h : HistoricalSnapshot F) : HistoricalSnapshot F :=
  mkHistorical (hs_Date h) (hs_TotalEquity h) (hs_RealizedBalance h) (hs_Deposits h) (hs_Withdrawals h) (hs_TotalTrades h) (hs_TotalVolume h) (hs_TotalFees h)
    (hs_FundingFees h) (hs_LongTrades h) (hs_ShortTrades h) (hs_LongVolume h) (hs_ShortVolume h) (hs_Breakdown h) currency (hs_Date h - 24 * Hour)
    (hs_Cashflows h) (hs_FXRateToUSD h) (hs_BaseRates h).

(** Where the scan of the ledger starts. *)
Definition cashflow_start (start : time) (deals : list cTraderDeal) : time :=
  match deals with
  | [] => start
  | d :: _ =>
      let earliest := foldl (λ e d, if de_ExecutionTimestamp d <? e then de_ExecutionTimestamp d else e) (de_ExecutionTimestamp d) deals in
      let cs := truncDay (of_milli earliest - ctraderInceptionBuffer) in
      if After cs start then cs else start
  end.

Definition history_start (now since : time) : time :=
  truncDay (if IsZero since || Before since (now - ctraderMaxLookback) then now - ctraderMaxLookback else since).

Definition GetHistoricalSnapshots (v : api) (now since : time) (c : CTrader) : CTrader * answer (list (HistoricalSnapshot F)) :=
  match ensureAccountID v c with
  | (c, inr e) => (c, inr e)
  | (c, inl accountID) =>
      let start := history_start now since in
      match getAllDeals v accountID start now with
      | inr e => (c, inr e)
      | inl deals =>
          match getAllCashflows v accountID (cashflow_start start deals) now with
          | inr e => (c, inr e)
          | inl cashflows =>
              match ap_trader v accountID with
              | inr e => (c, inr e)
              | inl trader =>
                  let '(c, currency) := resolveAccountCurrency v accountID (td_DepositAssetID trader) c in
                  (c, inl (stamp_row currency <$> buildCTraderHistoricalSnapshots deals cashflows now))
              end
          end
      end
  end.

End ctrader.

End CTrader.
