(* ===== verification/CTraderSafe.v ===== *)
(** * The cTrader connector: the deals of an account, all of them and once *)

From S2P Require Import Prelude GoTime GoText Num Types Venue CTrader.
From stdpp Require Import base gmap strings tactics sorting list.
From Stdlib Require Import ZArith Ascii Lia.
Import Venue CTrader.
Local Open Scope Z_scope.

Module CTraderSafe.

Section deals.
Context {F : Type} `{Num F}.
Implicit Types (d : cTraderDeal (F := F)) (db page : list (cTraderDeal (F := F))).

(** The documented answer of the deal list over the account's deals [db]:
    distinct deals of the range, all of them unless more are announced, and
    then the oldest ones, in any order. *)
Definition deals_of db (v : api (F := F)) (accountID : Z) : Prop :=
  ∀ from to page more, ap_deals v accountID from to = inl (page, more) →
    NoDup (de_DealID <$> page) ∧ (∀ d, d ∈ page → d ∈ db ∧ from <= de_ExecutionTimestamp d <= to) ∧
    (more = false → ∀ d, d ∈ db → from <= de_ExecutionTimestamp d <= to → d ∈ page) ∧
    (more = true → page ≠ [] ∧ ∀ d, d ∈ db → from <= de_ExecutionTimestamp d <= to → de_ExecutionTimestamp d < newestExecution page → d ∈ page).

Lemma newest_from n page : 0 <= n →
  let m := foldl (λ newest d, if newest <? de_ExecutionTimestamp d then de_ExecutionTimestamp d else newest) n page in
  n <= m ∧ (∀ d, d ∈ page → de_ExecutionTimestamp d <= m) ∧ (m = n ∨ ∃ d, d ∈ page ∧ de_ExecutionTimestamp d = m).
Proof.
  revert n. induction page as [|x page IH]; intros n Hn; cbn [foldl].
  { split_and!; [lia| |by left]. intros d. by rewrite elem_of_nil. }
  set (n' := if n <? de_ExecutionTimestamp x then _ else n). assert (n <= n' ∧ de_ExecutionTimestamp x <= n' ∧ (n' = n ∨ n' = de_ExecutionTimestamp x)) as (H1 & H2 & H3).
  { unfold n'. destruct (Z.ltb_spec n (de_ExecutionTimestamp x)); split_and!; lia. }
  destruct (IH n' ltac:(lia)) as (I1 & I2 & I3). cbv zeta. split_and!; [lia| |].
  - intros d [->|Hd]%elem_of_cons; [lia|by apply I2].
  - destruct I3 as [->|(d & Hd & <-)]; [|right; exists d; split; [by right|done]]. destruct H3 as [->| ->]; [by left|]. right. exists x. split; [by left|done].
Qed.

(** The newest deal of a page, when no deal predates 1970. *)
Lemma newest_spec page : page ≠ [] → (∀ d, d ∈ page → 0 <= de_ExecutionTimestamp d) →
  (∀ d, d ∈ page → de_ExecutionTimestamp d <= newestExecution page) ∧ ∃ d, d ∈ page ∧ de_ExecutionTimestamp d = newestExecution page.
Proof.
  intros Hne H0. unfold newestExecution. destruct (newest_from 0 page ltac:(lia)) as (_ & I2 & I3). split; [done|]. destruct I3 as [E|?]; [|done].
  destruct page as [|x page]; [done|]. exists x. split; [by left|]. pose proof (I2 x ltac:(by left)). pose proof (H0 x ltac:(by left)). lia.
Qed.

Context (db : list (cTraderDeal (F := F))) (v : api (F := F)) (accountID : Z).
Hypothesis Hdb : NoDup (de_DealID <$> db).
Hypothesis Hpos : ∀ d, d ∈ db → 0 <= de_ExecutionTimestamp d.
Hypothesis Hv : deals_of db v accountID.

(** The walk has read every deal before its cursor, none after it. *)
Record walked (start from to : Z) (acc : gset Z * list (cTraderDeal (F := F))) : Prop := {
  wk_reading : reading de_DealID db acc;
  wk_range d : d ∈ acc.2 → start <= de_ExecutionTimestamp d <= to ∧ de_ExecutionTimestamp d <= from;
  wk_all d : d ∈ db → start <= de_ExecutionTimestamp d <= to → de_ExecutionTimestamp d < from → d ∈ acc.2 }.

Lemma walked_page start from to acc page :
  start <= from → walked start from to acc → ap_deals v accountID from to = inl (page, true) →
  from <= newestExecution page <= to ∧ walked start (newestExecution page) to (foldl (add_unseen de_DealID) acc page).
Proof.
  intros Hs [Hr Hrange Hall] (_ & Hin & _ & Hmore)%Hv. destruct (Hmore eq_refl) as [Hne Hold].
  destruct (newest_spec page Hne) as [Hmax (x & Hx & Ex)]; [intros d Hd; apply Hpos, Hin, Hd|]. pose proof (proj2 (Hin x Hx)) as Hrx.
  destruct (add_unseen_reading de_DealID db Hdb page acc (λ d Hd, proj1 (Hin d Hd)) Hr) as [Hr' E]. split; [lia|]. split; [done| |].
  - intros d. rewrite E. intros [Hd|Hd]; [pose proof (Hrange d Hd); lia|]. pose proof (proj2 (Hin d Hd)). pose proof (Hmax d Hd). lia.
  - intros d Hd Ht Hlt. rewrite E. destruct (Z.lt_ge_cases (de_ExecutionTimestamp d) from); [left; by apply Hall|right; apply Hold; [done|lia|done]].
Qed.

Lemma walked_end start from to acc page :
  start <= from → walked start from to acc → ap_deals v accountID from to = inl (page, false) →
  reading de_DealID db (foldl (add_unseen de_DealID) acc page) ∧
  ∀ d, d ∈ (foldl (add_unseen de_DealID) acc page).2 ↔ d ∈ db ∧ start <= de_ExecutionTimestamp d <= to.
Proof.
  intros Hs [Hr Hrange Hall] (_ & Hin & Hlast & _)%Hv.
  destruct (add_unseen_reading de_DealID db Hdb page acc (λ d Hd, proj1 (Hin d Hd)) Hr) as [Hr' E]. split; [done|]. intros d. rewrite E. split.
  - intros [Hd|Hd]; [split; [by apply (rd_db _ _ _ Hr)|by apply Hrange]|]. pose proof (Hin d Hd). intuition lia.
  - intros [Hd Ht]. destruct (Z.lt_ge_cases (de_ExecutionTimestamp d) from); [left; by apply Hall|right; apply Hlast; [done|done|lia]].
Qed.

Lemma deal_pages_spec left start from to acc deals :
  start <= from → walked start from to acc → deal_pages v accountID left from to acc = Some (inl deals) →
  NoDup (de_DealID <$> deals) ∧ ∀ d, d ∈ deals ↔ d ∈ db ∧ start <= de_ExecutionTimestamp d <= to.
Proof.
  revert from acc. induction left as [|left IH]; intros from acc Hs Hw; cbn [deal_pages]; [done|].
  destruct (ap_deals v accountID from to) as [[page more]|e] eqn:Ep; [|done]. unfold appendUnseenDeals. destruct more; cbn [negb orb].
  - pose proof (walked_page _ _ _ _ _ Hs Hw Ep) as [Hn Hw']. apply Hv in Ep as (_ & _ & _ & Hm). destruct (Hm eq_refl) as [Hne _].
    rewrite bool_decide_eq_false_2 by (intros ?%nil_length_inv; done). destruct (_ && _); [done|]. apply IH; [lia|done].
  - intros [= <-]. destruct (walked_end _ _ _ _ _ Hs Hw Ep) as [Hr E]. split; [apply Hr|done].
Qed.

(** *** Enough pages *)

(** What the broker holds is spread: pages are full, and a millisecond holds at
    most half a page. *)
Definition spread (rows : nat) : Prop :=
  (∀ from to page, ap_deals v accountID from to = inl (page, true) → (2 * rows <= length page)%nat) ∧
  ∀ t, (length (filter (λ d, de_ExecutionTimestamp d = t) db) <= rows)%nat.

(** The rows of a page that were read before are at its cursor. *)
Lemma page_adds rows start from to acc page :
  spread rows → walked start from to acc → ap_deals v accountID from to = inl (page, true) →
  (length acc.2 + rows <= length (foldl (add_unseen de_DealID) acc page).2)%nat.
Proof.
  intros [Hfull Hms] [Hr Hrange Hall] Ep. pose proof (Hfull _ _ _ Ep) as Hlen. apply Hv in Ep as (Hnd & Hin & _).
  destruct (add_unseen_reading de_DealID db Hdb page acc (λ d Hd, proj1 (Hin d Hd)) Hr) as [Hr' E].
  set (fresh := filter (λ d, de_DealID d ∉ acc.1) page). set (old := filter (λ d, ¬ (de_DealID d ∉ acc.1)) page).
  assert (length fresh + length old = length page)%nat as Hsplit by (rewrite <- length_app; apply Permutation_length, filter_app_complement).
  assert (length old <= rows)%nat as Hold.
  { etrans; [|apply (Hms from)]. rewrite <- (length_fmap de_DealID old), <- (length_fmap de_DealID (filter _ db)). apply submseteq_length, NoDup_submseteq.
    - eapply sublist_NoDup; [exact Hnd|]. apply fmap_sublist, sublist_filter.
    - intros i (d & -> & Hd)%list_elem_of_fmap. apply list_elem_of_filter in Hd as [Hs Hd]. apply dec_stable in Hs. apply (rd_seen _ _ _ Hr), list_elem_of_fmap in Hs as (d' & Ei & Hd').
      assert (d = d') as <- by (eapply row_by_id; [exact Hdb|apply Hin, Hd|apply (rd_db _ _ _ Hr), Hd'|done]). apply list_elem_of_fmap_2, list_elem_of_filter. pose proof (Hin d Hd). pose proof (Hrange d Hd'). intuition lia. }
  enough (length acc.2 + length fresh <= length (foldl (add_unseen de_DealID) acc page).2)%nat by lia.
  rewrite <- length_app, <- (length_fmap de_DealID), <- (length_fmap de_DealID (foldl _ _ _).2), fmap_app. apply submseteq_length, NoDup_submseteq.
  - apply NoDup_app. split_and!; [apply Hr| |eapply sublist_NoDup; [exact Hnd|]; apply fmap_sublist, sublist_filter].
    intros i Hi (d & -> & Hd)%list_elem_of_fmap. apply list_elem_of_filter in Hd as [Hs _]. by apply Hs, (rd_seen _ _ _ Hr).
  - intros i. rewrite <- fmap_app. intros (d & -> & Hd)%list_elem_of_fmap. apply list_elem_of_fmap_2, E. apply elem_of_app in Hd as [?|Hd]; [by left|]. apply list_elem_of_filter in Hd as [_ ?]. by right.
Qed.

Lemma deal_pages_ends rows left start from to acc :
  spread rows → (0 < rows)%nat → (∀ f t, is_Some (match ap_deals v accountID f t with inl r => Some r | inr _ => None end)) →
  (length db < length acc.2 + left * rows)%nat → start <= from → walked start from to acc →
  ∃ deals, deal_pages v accountID left from to acc = Some (inl deals).
Proof.
  intros Hsp Hrows Hok. revert from acc. induction left as [|left IH]; intros from acc Hlen Hs Hw.
  { exfalso. enough (length acc.2 <= length db)%nat by lia. rewrite <- (length_fmap de_DealID acc.2), <- (length_fmap de_DealID db). apply submseteq_length, NoDup_submseteq; [apply Hw|].
    intros i (d & -> & Hd)%list_elem_of_fmap. apply list_elem_of_fmap_2. by apply (rd_db _ _ _ (wk_reading _ _ _ _ Hw)). }
  cbn [deal_pages]. destruct (Hok from to) as [[page more] Ep]. destruct (ap_deals v accountID from to) as [[page' more']|] eqn:Ep'; [|done]. injection Ep as -> ->.
  unfold appendUnseenDeals. destruct more; cbn [negb orb]; [|by eexists]. pose proof (page_adds rows _ _ _ _ _ Hsp Hw Ep') as Hadd.
  destruct (walked_page _ _ _ _ _ Hs Hw Ep') as [Hn Hw']. destruct (Nat.eqb_spec (length (foldl (add_unseen de_DealID) acc page).2 - length acc.2) 0) as [|_]; [lia|].
  rewrite andb_false_r. case_bool_decide; [by eexists|]. apply IH; [lia|lia|done].
Qed.

End deals.

(** C32: over a broker that answers a range of time with its deals, the oldest
    first when it announces more, the deals a read returns are every deal of
    the account in the range and each exactly once, whatever the order inside
    a page; a walk cut short is refused, never returned; and when pages hold
    a thousand deals and no millisecond more than five hundred, every account
    of fewer than a hundred thousand deals is read. *)
Theorem deals_read_whole {F : Type} `{Num F} (db : list (cTraderDeal (F := F))) v accountID start end_ :
  NoDup (de_DealID <$> db) → (∀ d, d ∈ db → 0 <= de_ExecutionTimestamp d) → deals_of db v accountID →
  (∀ deals, getAllDeals v accountID start end_ = inl deals →
     NoDup (de_DealID <$> deals) ∧ ∀ d, d ∈ deals ↔ d ∈ db ∧ UnixMilli start <= de_ExecutionTimestamp d <= UnixMilli end_) ∧
  (spread db v accountID 500 → (Z.of_nat (length db) < 100000) → ap_auth v accountID = None →
   (∀ f t e, ap_deals v accountID f t ≠ inr e) → ∃ deals, getAllDeals v accountID start end_ = inl deals).
Proof.
  intros Hdb Hpos Hv. assert (walked db (UnixMilli start) (UnixMilli start) (UnixMilli end_) (∅, [])) as Hw.
  { split; [apply reading_nothing| |]; cbn [snd]; [intros d; by rewrite elem_of_nil|intros; lia]. }
  unfold getAllDeals. split.
  - intros deals. destruct (ap_auth v accountID); [done|]. destruct (deal_pages _ _ _ _ _ _) as [[l|]|] eqn:E; cbn [default]; [|done..]. intros [= <-].
    eapply deal_pages_spec; [exact Hdb|exact Hpos|exact Hv| |exact Hw|exact E]. lia.
  - intros Hsp Hn -> Hok. edestruct (deal_pages_ends db v accountID Hdb Hpos Hv 500 ctraderMaxDealPages) as [deals E]; [exact Hsp|lia| | | |exact Hw|].
    + intros f t. specialize (Hok f t). destruct (ap_deals v accountID f t) as [r|e]; [by eexists|]. by destruct (Hok e).
    + cbn [snd length]. unfold ctraderMaxDealPages. lia.
    + lia.
    + exists deals. by rewrite E.
Qed.

(** A broker that answers the oldest thousand deals of the range, the newest of
    them first. *)
Definition oldest_page {F} (db : list (cTraderDeal (F := F))) (from to : Z) : answer (list (cTraderDeal (F := F)) * bool) :=
  let l := filter (λ d, from <= de_ExecutionTimestamp d <= to) db in
  inl (reverse (take 1000 l), bool_decide (1000 < length l)%nat).

Lemma oldest_page_of {F} (db : list (cTraderDeal (F := F))) v accountID :
  NoDup (de_DealID <$> db) → (∀ d, d ∈ db → 0 <= de_ExecutionTimestamp d) → StronglySorted (key_le de_ExecutionTimestamp) db →
  ap_deals v accountID = oldest_page db → deals_of db v accountID.
Proof.
  intros Hdb Hpos Hs E from to page more. rewrite E. unfold oldest_page. set (l := filter _ db). intros [= <- <-]. split_and!.
  - rewrite fmap_reverse, reverse_Permutation. eapply sublist_NoDup; [exact Hdb|]. apply fmap_sublist. etransitivity; [apply sublist_take|apply sublist_filter].
  - intros d. rewrite elem_of_reverse. intros Hd. apply elem_of_take in Hd as (i & Hd%list_elem_of_lookup_2 & _). by apply list_elem_of_filter in Hd as [? ?].
  - intros Hf%bool_decide_eq_false d Hd Ht. rewrite elem_of_reverse, take_ge by lia. by apply list_elem_of_filter.
  - intros Ht%bool_decide_eq_true. assert (reverse (take 1000 l) ≠ []) as Hne.
    { intros E1. apply (f_equal length) in E1. rewrite length_reverse, length_take in E1. cbn [length] in E1. lia. }
    split; [done|]. intros d Hd Hr Hlt. destruct (newest_spec (reverse (take 1000 l)) Hne) as [_ (x & Hx & Ex)].
    { intros y. rewrite elem_of_reverse. intros Hy. apply elem_of_take in Hy as (i & Hy%list_elem_of_lookup_2 & _). apply Hpos. by apply list_elem_of_filter in Hy as [_ ?]. }
    rewrite elem_of_reverse. assert (d ∈ l) as Hl by (by apply list_elem_of_filter). rewrite <- (take_drop 1000 l), elem_of_app in Hl. destruct Hl as [?|Hl]; [done|exfalso].
    assert (StronglySorted (key_le de_ExecutionTimestamp) l) as Hsl by (by apply sorted_filter).
    rewrite <- (take_drop 1000 l) in Hsl. rewrite elem_of_reverse in Hx. pose proof (StronglySorted_app_1_elem_of _ _ _ _ _ Hsl Hx Hl) as Hle. unfold key_le in Hle. lia.
Qed.

(** Fifteen hundred deals, one a second. *)
Definition demo_deals : list (cTraderDeal (F := float64)) :=
  (λ i, mkDeal (Z.of_nat i) 1 (inr 1) 100 f1 (1000 * Z.of_nat i) 0 (inr 2) 2 f1 None) <$> seq 0 1500.

Definition silent {A} : answer A := inr (mkError "cTrader request timeout" false).

Definition demo_broker : api (F := float64) :=
  mkApi (inl [mkAccount 7 true]) (λ _, None) (λ _, silent) (λ _, silent) (λ _, silent) (λ _, silent) (λ _ _, silent) (λ _, oldest_page demo_deals) (λ _ _ _, silent).

Lemma demo_deal d : d ∈ demo_deals → ∃ i, (i < 1500)%nat ∧ d = mkDeal (Z.of_nat i) 1 (inr 1) 100 f1 (1000 * Z.of_nat i) 0 (inr 2) 2 f1 None.
Proof. intros (i & -> & Hi%elem_of_seq)%list_elem_of_fmap. exists i. split; [lia|done]. Qed.

Lemma demo_sorted : StronglySorted (key_le de_ExecutionTimestamp) demo_deals.
Proof.
  unfold demo_deals. assert (∀ n k, StronglySorted (key_le de_ExecutionTimestamp)
    ((λ i, mkDeal (F := float64) (Z.of_nat i) 1 (inr 1) 100 f1 (1000 * Z.of_nat i) 0 (inr 2) 2 f1 None) <$> seq k n)) as Hs; [|apply Hs].
  intros n. induction n as [|n IH]; intros k; [constructor|]. cbn [seq]. rewrite fmap_cons. constructor; [apply IH|].
  apply Forall_forall. intros d (i & -> & Hi%elem_of_seq)%list_elem_of_fmap. unfold key_le. cbn [de_ExecutionTimestamp]. lia.
Qed.

Lemma demo_spread : spread demo_deals demo_broker 7 500.
Proof.
  split.
  - intros from to page. cbn [ap_deals demo_broker]. unfold oldest_page. set (l := filter _ _). intros [= <- Hl%bool_decide_eq_true]. rewrite length_reverse, length_take. lia.
  - intros t. set (l := filter _ _). enough (Nat.le (length l) (length [t / 1000])) as Hone by (etrans; [exact Hone|]; cbn [length]; lia). rewrite <- (length_fmap de_DealID l). apply submseteq_length, NoDup_submseteq.
    + eapply sublist_NoDup; [|apply fmap_sublist, sublist_filter]. apply (bool_decide_unpack _). vm_compute. exact I.
    + intros i (d & -> & Hd)%list_elem_of_fmap. apply list_elem_of_filter in Hd as [<- (j & _ & ->)%demo_deal]. cbn [de_DealID de_ExecutionTimestamp]. rewrite Z.mul_comm, Z.div_mul by done. by left.
Qed.

Lemma deals_read_whole_witness :
  ∃ deals, getAllDeals demo_broker 7 0 Hour = inl deals ∧ NoDup (de_DealID <$> deals) ∧ ∀ d, d ∈ deals ↔ d ∈ demo_deals ∧ 0 <= de_ExecutionTimestamp d <= 3600000.
Proof.
  assert (NoDup (de_DealID <$> demo_deals)) as Hdb by (apply (bool_decide_unpack _); vm_compute; exact I).
  assert (∀ d, d ∈ demo_deals → 0 <= de_ExecutionTimestamp d) as Hpos by (intros d (i & _ & ->)%demo_deal; cbn; lia).
  destruct (deals_read_whole demo_deals demo_broker 7 0 Hour Hdb Hpos (oldest_page_of demo_deals demo_broker 7 Hdb Hpos demo_sorted eq_refl)) as [Hexact Hreads].
  destruct (Hreads demo_spread eq_refl eq_refl) as [deals E]; [intros f t e; cbn [ap_deals demo_broker]; done|].
  exists deals. split; [done|]. exact (Hexact deals E).
Defined.

(** ** An emptied account

    A thousand in, all of it out, then five hundred in: the balance of zero is
    taken for a missing one, so the last deposit is measured against the
    thousand that left and is booked as a withdrawal of five hundred. *)

Definition emptied_ledger : list ctraderDepositWithdraw :=
  [mkEntry 0 100000 100000 3600000 2; mkEntry 1 0 (-100000) 90000000 2; mkEntry 0 50000 50000 176400000 2].

Lemma refunded_account_misread :
  (λ h : HistoricalSnapshot float64, (hs_TotalEquity h, hs_Deposits h, hs_Withdrawals h)) <$> buildCTraderHistoricalSnapshots [] emptied_ledger (4 * Day)
  = [(fofZ 1000, fofZ 1000, f0); (f0, f0, fofZ 1000); (fofZ 500, f0, fofZ 500)].
Proof. vm_compute. reflexivity. Qed.

(** ** An entry between two chunks

    The millisecond two weekly chunks share is asked for twice. *)

Definition inclusive_ledger (db : list ctraderDepositWithdraw) (from to : Z) : answer (list ctraderDepositWithdraw) :=
  inl (filter (λ cf, from <= dw_Timestamp cf <= to) db).

Definition weekly_broker (db : list ctraderDepositWithdraw) : api (F := float64) :=
  mkApi (inl [mkAccount 7 true]) (λ _, None) (λ _, silent) (λ _, silent) (λ _, silent) (λ _, silent) (λ _ _, silent) (λ _ _ _, silent) (λ _, inclusive_ledger db).

Lemma boundary_entry_read_twice :
  let deposit := mkEntry 0 100000 100000 (7 * 86400000) 2 in
  getAllCashflows (weekly_broker [deposit]) 7 0 (10 * Day) = inl [deposit; deposit].
Proof. vm_compute. reflexivity. Qed.

(** ** The account a connection is for *)

Section pinned.
Context {F : Type} `{Num F} (p : Z).
Hypothesis Hp : p ≠ 0.
Implicit Types (v w : api (F := F)) (c : CTrader).

(** The connection names account [p], and has not chosen another. *)
Definition for_account c : Prop := ct_pinnedAccountID c = p ∧ (ct_accountID c = 0 ∨ ct_accountID c = p).

(** Two brokers that differ in other accounts only. *)
Record agree v w : Prop := {
  ag_accounts : ap_accounts v = ap_accounts w;
  ag_auth : ap_auth v p = ap_auth w p;
  ag_trader : ap_trader v p = ap_trader w p;
  ag_reconcile : ap_reconcile v p = ap_reconcile w p;
  ag_pnl : ap_pnl v p = ap_pnl w p;
  ag_assets : ap_assets v p = ap_assets w p;
  ag_symbols : ∀ s, ap_symbols v p s = ap_symbols w p s;
  ag_deals : ∀ f t, ap_deals v p f t = ap_deals w p f t;
  ag_ledger : ∀ f t, ap_ledger v p f t = ap_ledger w p f t }.

Lemma ensure_pinned v w c : for_account c → agree v w →
  ensureAccountID v c = ensureAccountID w c ∧
  ∀ c' r, ensureAccountID v c = (c', r) → for_account c' ∧ ∀ id, r = inl id → id = p.
Proof.
  intros [Hc Hid] E. unfold ensureAccountID. rewrite (ag_accounts _ _ E). split; [done|]. intros c' r. destruct (Z.eqb_spec (ct_accountID c) 0) as [H0|]; cbn [negb].
  - destruct (ap_accounts w) as [l|e]; [|intros [= <- <-]; done]. unfold selectCTraderAccount. rewrite Hc, (proj2 (Z.eqb_neq p 0) Hp). destruct l as [|a l]; [intros [= <- <-]; done|]. cbn [negb].
    destruct (find_first _ _) as [x|] eqn:Ex; [|intros [= <- <-]; done]. intros [= <- <-]. apply find_first_some in Ex as (? & ? & _ & Ex & _). apply Z.eqb_eq in Ex.
    split; [|congruence]. split; [done|]. by right.
  - intros [= <- <-]. split; [done|]. intros id [= <-]. by destruct Hid.
Qed.

Lemma for_symbols c m k : for_account (with_symbols c m k) ↔ for_account c.
Proof. done. Qed.
Lemma for_warning c m : for_account (addCapabilityWarning c m) ↔ for_account c.
Proof. unfold addCapabilityWarning. by case_bool_decide. Qed.

Lemma symbol_pinned v w now s c : agree v w → for_account c → getSymbolName v now s p c = getSymbolName w now s p c ∧ for_account (getSymbolName v now s p c).1.
Proof.
  intros E Hc. unfold getSymbolName, getSymbolByID. rewrite (ag_symbols _ _ E). split; [done|]. repeat case_match; simplify_eq/=; done.
Qed.

Lemma named_pinned {A B} v w now (symbol : A → Z) (make : string → A → B) l c : agree v w → for_account c →
  named v now p symbol make l c = named w now p symbol make l c ∧ for_account (named v now p symbol make l c).1.
Proof.
  intros E. revert c. induction l as [|x l IH]; intros c Hc; [done|]. cbn [named]. destruct (symbol_pinned v w now (symbol x) c E Hc) as [<- Hc'].
  destruct (getSymbolName v now (symbol x) p c) as [c' n]. destruct (IH c' Hc') as [<- Hc'']. destruct (named v now p symbol make l c') as [c'' out]. done.
Qed.

Lemma deals_pinned v w start end_ : agree v w → getAllDeals v p start end_ = getAllDeals w p start end_.
Proof.
  intros E. unfold getAllDeals. rewrite (ag_auth _ _ E). destruct (ap_auth w p); [done|]. f_equal. generalize (∅ : gset Z, [] : list (cTraderDeal (F := F))). generalize (UnixMilli start).
  induction ctraderMaxDealPages as [|n IH]; intros from acc; [done|]. cbn [deal_pages]. rewrite (ag_deals _ _ E). destruct (ap_deals w p from _) as [[page more]|]; [|done].
  destruct (appendUnseenDeals acc page) as [acc' added]. destruct (_ || _); [done|]. destruct (_ && _); [done|]. apply IH.
Qed.

Lemma ledger_pinned v w start end_ : agree v w → getAllCashflows v p start end_ = getAllCashflows w p start end_.
Proof.
  intros E. unfold getAllCashflows. rewrite (ag_auth _ _ E). destruct (ap_auth w p); [done|]. generalize (chunk_starts start end_). intros l.
  induction l as [|x l IH]; [done|]. cbn [read_chunks]. by rewrite (ag_ledger _ _ E), IH.
Qed.

Lemma pnl_pinned v w l : agree v w → positionUnrealizedPnL v p l = positionUnrealizedPnL w p l.
Proof. intros E. unfold positionUnrealizedPnL. by rewrite (ag_pnl _ _ E). Qed.

Lemma currency_pinned v w a c : agree v w → for_account c → resolveAccountCurrency v p a c = resolveAccountCurrency w p a c ∧ for_account (resolveAccountCurrency v p a c).1.
Proof.
  intros E Hc. unfold resolveAccountCurrency. rewrite (ag_assets _ _ E). split; [done|]. destruct (negb _); [done|]. destruct (_ || _); [done|].
  destruct (ap_assets w p) as [l|]; [|done]. destruct (find_first _ l); [|done]. by destruct (String.eqb _ _).
Qed.

Lemma balance_pinned v w c : agree v w → for_account c → getAccountBalance v p c = getAccountBalance w p c ∧ for_account (getAccountBalance v p c).1.
Proof.
  intros E Hc. unfold getAccountBalance. rewrite (ag_trader _ _ E), (ag_reconcile _ _ E). set (c1 := if ct_accountUnpinned _ then _ else _).
  assert (for_account c1) as H1 by (unfold c1; destruct (ct_accountUnpinned _); [by apply for_warning|done]). clearbody c1.
  destruct (ap_trader w p) as [t|]; [|done]. destruct (ap_reconcile w p) as [l|]; [|done]. rewrite (pnl_pinned v w l E). destruct (positionUnrealizedPnL w p l) as [[m u] e].
  set (c2 := if e then _ else c1). assert (for_account c2) as H2 by (unfold c2; destruct e; [by apply for_warning|done]). clearbody c2.
  destruct (currency_pinned v w (td_DepositAssetID t) c2 E H2) as [<- H3]. destruct (resolveAccountCurrency v p _ c2) as [c3 cur]. split; [done|]. cbn [fst] in *.
  destruct (_ && _); [by apply for_warning|done].
Qed.

Lemma GetBalance_pinned v w c : agree v w → for_account c → GetBalance v c = GetBalance w c ∧ for_account (GetBalance v c).1.
Proof.
  intros E Hc. destruct (ensure_pinned v w c Hc E) as [Ee Hk]. unfold GetBalance. rewrite <- Ee. destruct (ensureAccountID v c) as [c' [id|e]]; destruct (Hk _ _ eq_refl) as [Hc' Hid]; [|done].
  rewrite (Hid id eq_refl). destruct (balance_pinned v w c' E Hc') as [<- H1]. by destruct (getAccountBalance v p c') as [c'' [|]].
Qed.

Lemma GetPositions_pinned v w now c : agree v w → for_account c → GetPositions v now c = GetPositions w now c ∧ for_account (GetPositions v now c).1.
Proof.
  intros E Hc. destruct (ensure_pinned v w c Hc E) as [Ee Hk]. unfold GetPositions. rewrite <- Ee. destruct (ensureAccountID v c) as [c' [id|e]]; destruct (Hk _ _ eq_refl) as [Hc' Hid]; [|done].
  rewrite (Hid id eq_refl), (ag_reconcile _ _ E). destruct (ap_reconcile w p) as [l|]; [|done]. rewrite (pnl_pinned v w l E). destruct (positionUnrealizedPnL w p l) as [[m u] e].
  destruct (named_pinned v w now cp_SymbolID (position_of m) l c' E Hc') as [<- H1]. by destruct (named v now p _ _ l c').
Qed.

Lemma GetTrades_pinned v w now start end_ c : agree v w → for_account c →
  GetTrades v now start end_ c = GetTrades w now start end_ c ∧ for_account (GetTrades v now start end_ c).1.
Proof.
  intros E Hc. destruct (ensure_pinned v w c Hc E) as [Ee Hk]. unfold GetTrades. rewrite <- Ee. destruct (ensureAccountID v c) as [c' [id|e]]; destruct (Hk _ _ eq_refl) as [Hc' Hid]; [|done].
  rewrite (Hid id eq_refl), (deals_pinned v w start end_ E). destruct (getAllDeals w p start end_) as [l|]; [|done].
  destruct (named_pinned v w now de_SymbolID trade_of (filter (λ d, filled d = true) l) c' E Hc') as [<- H1]. by destruct (named v now p _ _ _ c').
Qed.

Lemma ledger_read_pinned v w now since c : agree v w → for_account c →
  getRawCashflows v now since c = getRawCashflows w now since c ∧ for_account (getRawCashflows v now since c).1.
Proof.
  intros E Hc. destruct (ensure_pinned v w c Hc E) as [Ee Hk]. unfold getRawCashflows. rewrite <- Ee. destruct (ensureAccountID v c) as [c' [id|e]]; destruct (Hk _ _ eq_refl) as [Hc' Hid]; [|done].
  by rewrite (Hid id eq_refl), (ledger_pinned v w since now E).
Qed.

Lemma history_pinned v w now since c : agree v w → for_account c →
  GetHistoricalSnapshots v now since c = GetHistoricalSnapshots w now since c ∧ for_account (GetHistoricalSnapshots v now since c).1.
Proof.
  intros E Hc. destruct (ensure_pinned v w c Hc E) as [Ee Hk]. unfold GetHistoricalSnapshots. rewrite <- Ee. destruct (ensureAccountID v c) as [c' [id|e]]; destruct (Hk _ _ eq_refl) as [Hc' Hid]; [|done].
  rewrite (Hid id eq_refl), (deals_pinned v w _ now E). destruct (getAllDeals w p _ now) as [l|]; [|done]. rewrite (ledger_pinned v w _ now E). destruct (getAllCashflows w p _ now) as [k|]; [|done].
  rewrite (ag_trader _ _ E). destruct (ap_trader w p) as [t|]; [|done]. destruct (currency_pinned v w (td_DepositAssetID t) c' E Hc') as [<- H1]. by destruct (resolveAccountCurrency v p _ c').
Qed.

(** The operations the sync calls, one at a time. *)
Inductive operation := Balances | Positions | Trades (start end_ : time) | Cashflows (since : time) | RawEntries (since : time) | History (since : time).

Inductive outcome :=
| BalanceIs (r : answer (Balance F)) | PositionsAre (r : answer (list (Position F))) | TradesAre (r : answer (list (Trade F)))
| CashflowsAre (r : answer (list (Cashflow F))) | RawAre (r : answer (list (RawBalanceOp F))) | HistoryIs (r : answer (list (HistoricalSnapshot F))).

Definition perform v (now : time) (o : operation) c : CTrader * outcome :=
  match o with
  | Balances => prod_map id BalanceIs (GetBalance v c)
  | Positions => prod_map id PositionsAre (GetPositions v now c)
  | Trades start end_ => prod_map id TradesAre (GetTrades v now start end_ c)
  | Cashflows since => prod_map id CashflowsAre (GetCashflows v now since c)
  | RawEntries since => prod_map id RawAre (GetRawCashflowEntries v now since c)
  | History since => prod_map id HistoryIs (GetHistoricalSnapshots v now since c)
  end.

(** Operations one after the other, each with the answers of its moment. *)
Fixpoint run (script : list (api (F := F) * time * operation)) c : CTrader * list outcome :=
  match script with
  | [] => (c, [])
  | (v, now, o) :: rest => let '(c, out) := perform v now o c in let '(c, outs) := run rest c in (c, out :: outs)
  end.

Lemma perform_pinned v w now o c : agree v w → for_account c → perform v now o c = perform w now o c ∧ for_account (perform v now o c).1.
Proof.
  intros E Hc. destruct o as [| |start end_|since|since|since]; cbn [perform].
  - by destruct (GetBalance_pinned v w c E Hc) as [<- ?].
  - by destruct (GetPositions_pinned v w now c E Hc) as [<- ?].
  - by destruct (GetTrades_pinned v w now start end_ c E Hc) as [<- ?].
  - unfold GetCashflows. destruct (ledger_read_pinned v w now since c E Hc) as [<- ?]. by destruct (getRawCashflows v now since c) as [c' [|]].
  - unfold GetRawCashflowEntries. destruct (ledger_read_pinned v w now since c E Hc) as [<- ?]. by destruct (getRawCashflows v now since c) as [c' [|]].
  - by destruct (history_pinned v w now since c E Hc) as [<- ?].
Qed.

End pinned.

(** A connection created for one account never reads another. Over any
    sequence of operations, whatever its token grants, what they return and what
    the connector keeps are the same for two brokers that differ, at any
    moment, in other accounts only. *)
Theorem pinned_account_only {F : Type} `{Num F} passphrase p (script script' : list (api (F := F) * time * operation)) :
  pinned_of (TrimSpace passphrase) = p → p ≠ 0 →
  Forall2 (λ x y, agree p x.1.1 y.1.1 ∧ x.1.2 = y.1.2 ∧ x.2 = y.2) script script' →
  run script (NewCTrader passphrase) = run script' (NewCTrader passphrase) ∧ ct_accountID (run script (NewCTrader passphrase)).1 ∈ [0; p].
Proof.
  intros Ep Hp Hs. assert (for_account p (NewCTrader passphrase)) as Hc by (split; [done|by left]). revert Hc. generalize (NewCTrader passphrase).
  induction Hs as [|[[v now] o] [[w now'] o'] l l' (E & En & Eo) Hs IH]; intros c Hc; cbn [run].
  - split; [done|]. cbn. destruct Hc as [_ [->| ->]]; set_solver.
  - cbn in E, En, Eo. subst now' o'. destruct (perform_pinned p Hp v w now o c E Hc) as [<- Hc']. destruct (perform v now o c) as [c1 out]. destruct (IH c1 Hc') as [<- Ha]. by destruct (run l c1).
Qed.

(** Two accounts under one token; the second holds any balance. *)
Definition two_granted (other : Z) : api (F := float64) :=
  mkApi (inl [mkAccount 9 true; mkAccount 7 true]) (λ _, None) (λ id, inl (mkTrader (if id =? 7 then 12345 else other) 2 0)) (λ _, inl []) (λ _, silent) (λ _, silent)
    (λ _ _, silent) (λ _ _ _, silent) (λ _ _ _, silent).

Lemma pinned_account_only_witness :
  ∃ c bal, run [(two_granted 0, 0, Balances)] (NewCTrader "ctid:7") = (c, [BalanceIs (inl bal)]) ∧
    run [(two_granted 500, 0, Balances)] (NewCTrader "ctid:7") = (c, [BalanceIs (inl bal)]) ∧ bal_Equity bal = flit 12345 2.
Proof.
  destruct (pinned_account_only "ctid:7" 7 [(two_granted 0, 0, Balances)] [(two_granted 500, 0, Balances)]) as [E _]; [reflexivity|done| |].
  { constructor; [|constructor]. split_and!; [|done|done]. by split. }
  assert (∃ c bal, run [(two_granted 0, 0, Balances)] (NewCTrader "ctid:7") = (c, [BalanceIs (inl bal)]) ∧ bal_Equity bal = flit 12345 2) as (c & bal & E1 & Eb).
  { do 2 eexists. split; [vm_compute; reflexivity|vm_compute; reflexivity]. }
  exists c, bal. split_and!; [done|by rewrite <- E|done].
Defined.

End CTraderSafe.
