(* ===== verification/CTraderExact.v ===== *)
(** * The history rebuilt from a cTrader ledger, in exact arithmetic *)

From S2P Require Import Prelude GoTime GoText Num NumReal Types Venue CTrader.
From stdpp Require Import base gmap strings tactics sorting list.
From Stdlib Require Import ZArith Reals Lra Lia.
Import Venue CTrader.
Local Open Scope R_scope.

Module CTraderExact.

Abbreviation point := (ctraderBalPoint (F := R)).
Implicit Types (p q : point) (points : list point).

(** ** The balance before an instant *)

(** [x] is the balance after the last of the points before [t], zero when there is none. *)
Definition latest points (t : time) (x : R) : Prop :=
  (∃ p, p ∈ points ∧ (bp_t p < t)%Z ∧ x = bp_bal p ∧ ∀ q, q ∈ points → (bp_t q < t)%Z → (bp_t q <= bp_t p)%Z) ∨
  (x = 0 ∧ ∀ q, q ∈ points → (t <= bp_t q)%Z).

Lemma same_point points p q : NoDup (bp_t <$> points) → p ∈ points → q ∈ points → bp_t p = bp_t q → p = q.
Proof. intros H. apply (row_by_id bp_t points H). Qed.

Lemma latest_unique points t x y : NoDup (bp_t <$> points) → latest points t x → latest points t y → x = y.
Proof.
  intros Hnd [(p & Hp & Hpt & -> & Hpm)|[-> H1]] [(q & Hq & Hqt & -> & Hqm)|[-> H2]]; [| | |done].
  - assert (p = q) as -> by (apply (same_point points); [done..|]; pose proof (Hpm q Hq Hqt); pose proof (Hqm p Hp Hpt); lia). done.
  - pose proof (H2 p Hp). lia.
  - pose proof (H1 q Hq). lia.
Qed.

Lemma latest_perm points points' t x : points ≡ₚ points' → latest points t x → latest points' t x.
Proof.
  intros E [(p & Hp & Hpt & -> & Hpm)|[-> H1]]; [left; exists p|right].
  - split_and!; [by rewrite <- E|done|done|]. intros q. rewrite <- E. apply Hpm.
  - split; [done|]. intros q. rewrite <- E. apply H1.
Qed.

Lemma balance_from_before b points t : Forall (λ p, (t <= bp_t p)%Z) points → balance_from b points t = b.
Proof. destruct 1 as [|p l Hp]; [done|]. cbn [balance_from]. unfold Before. by rewrite (proj2 (Z.ltb_ge _ _) Hp). Qed.

Lemma balance_from_latest b points t :
  StronglySorted (key_le bp_t) points →
  (∃ p, p ∈ points ∧ (bp_t p < t)%Z ∧ balance_from b points t = bp_bal p ∧ ∀ q, q ∈ points → (bp_t q < t)%Z → (bp_t q <= bp_t p)%Z) ∨
  (balance_from b points t = b ∧ ∀ q, q ∈ points → (t <= bp_t q)%Z).
Proof.
  intros Hs. revert b. induction Hs as [|p l Hs IH Hp]; intros b; [right; split; [done|]; intros q; by rewrite elem_of_nil|].
  cbn [balance_from]. unfold Before. rewrite Forall_forall in Hp. destruct (Z.ltb_spec (bp_t p) t).
  - left. destruct (IH (bp_bal p)) as [(q & Hq & Hqt & Eq & Hm)|[Eq Hm]].
    + exists q. split_and!; [by right|done|done|]. intros q' [->|Hq']%elem_of_cons Ht; [|by apply Hm]. pose proof (Hp q Hq). unfold key_le in *. lia.
    + exists p. split_and!; [by left|done|done|]. intros q [->|Hq]%elem_of_cons Ht; [lia|]. pose proof (Hm q Hq). lia.
  - right. split; [done|]. intros q [->|Hq]%elem_of_cons; [done|]. pose proof (Hp q Hq). unfold key_le in *. lia.
Qed.

Lemma balance_at_latest points t : StronglySorted (key_le bp_t) points → latest points t (ctraderBalanceAt points t).
Proof. intros Hs. apply (balance_from_latest 0 points t) in Hs as [(p & Hp)|Hn]; [left; by exists p|by right]. Qed.

(** ** The changes of a stretch of time add up *)

Definition between (a b : time) p : bool := (a <=? bp_t p)%Z && (bp_t p <? b)%Z.

(** What [p] adds to a sum over a stretch: the change it makes. *)
Definition change points (a b : time) p : R := if between a b p then bp_bal p - ctraderBalanceAt points (bp_t p) else 0.

Lemma changes_from start points a b :
  StronglySorted (λ p q, (bp_t p < bp_t q)%Z) points → (a <= b)%Z →
  sumR ((λ p, if between a b p then bp_bal p - balance_from start points (bp_t p) else 0) <$> points) = balance_from start points b - balance_from start points a.
Proof.
  intros Hs Hab. revert start. induction Hs as [|p l Hs IH Hp]; intros start; [cbn; lra|]. rewrite sumR_cons.
  rewrite Forall_forall in Hp. rewrite (sumR_ext _ (λ q, if between a b q then bp_bal q - balance_from (bp_bal p) l (bp_t q) else 0)).
  2:{ intros q Hq. cbn [balance_from]. unfold Before. by rewrite (proj2 (Z.ltb_lt _ _) (Hp q Hq)). }
  rewrite IH. cbn [balance_from]. unfold between, Before. rewrite Z.ltb_irrefl.
  destruct (Z.leb_spec a (bp_t p)), (Z.ltb_spec (bp_t p) b), (Z.ltb_spec (bp_t p) a); cbn [andb]; try lia; try lra.
  - rewrite (balance_from_before _ l a); [lra|]. apply Forall_forall. intros q Hq. pose proof (Hp q Hq). lia.
  - rewrite !balance_from_before; [lra|apply Forall_forall; intros q Hq; pose proof (Hp q Hq); lia..].
Qed.

Lemma sorted_strict points : NoDup (bp_t <$> points) → StronglySorted (key_le bp_t) points → StronglySorted (λ p q, (bp_t p < bp_t q)%Z) points.
Proof.
  intros Hnd Hs. induction Hs as [|p l Hs IH Hp]; [constructor|]. rewrite fmap_cons, NoDup_cons in Hnd. destruct Hnd as [Hn Hnd]. constructor; [by apply IH|].
  rewrite Forall_forall in *. intros q Hq. pose proof (Hp q Hq). unfold key_le in *. assert (bp_t p ≠ bp_t q); [|lia]. intros E. apply Hn. rewrite E. by apply list_elem_of_fmap_2.
Qed.

Lemma changes_add_up points a b :
  NoDup (bp_t <$> points) → StronglySorted (key_le bp_t) points → (a <= b)%Z →
  sumR (change points a b <$> points) = ctraderBalanceAt points b - ctraderBalanceAt points a.
Proof. intros Hnd Hs. apply changes_from. by apply sorted_strict. Qed.

(** ** The flows of the ledger *)

Implicit Types (cf : ctraderDepositWithdraw) (deals : list (cTraderDeal (F := R))).

Definition entry_time cf : time := of_milli (dw_Timestamp cf).
Definition delta cf : R := IZR (dw_Delta cf) / ctraderMoneyDivisor (dw_MoneyDigits cf).
Definition is_capital cf : bool := if capital_sign (F := R) (dw_OperationType cf) then true else false.

(** A ledger that adds up: no two events in one millisecond, every entry
    states the balance it leaves, in the direction of its operation, and none
    leaves exactly nothing. *)
Record adds_up deals (cashflows : list ctraderDepositWithdraw) : Prop := {
  au_distinct : NoDup (bp_t <$> ctraderBalancePoints deals cashflows);
  au_modern p : p ∈ ctraderBalancePoints deals cashflows → modern (bp_t p);
  au_balance cf : cf ∈ cashflows → bp_bal (entry_point cf) = ctraderBalanceAt (ctraderBalancePoints deals cashflows) (entry_time cf) + delta cf;
  au_direction cf sign : cf ∈ cashflows → capital_sign (dw_OperationType cf) = Some sign → sign * Rabs (IZR (dw_Delta cf)) = IZR (dw_Delta cf);
  au_kept cf : cf ∈ cashflows → dw_Balance cf ≠ 0%Z }.

Lemma divisor_pos md : 0 < ctraderMoneyDivisor md.
Proof. unfold ctraderMoneyDivisor, Pow10. cbn. destruct (Z.ltb_spec 0 md); [|lra]. apply IZR_lt. by apply Z.pow_pos_nonneg; lia. Qed.

Lemma amount_cases cf :
  (∀ sign, capital_sign (dw_OperationType cf) = Some sign → sign * Rabs (IZR (dw_Delta cf)) = IZR (dw_Delta cf)) →
  ctraderCashflowAmount cf = if is_capital cf then if Req_dec_T (delta cf) 0 then None else Some (delta cf) else None.
Proof.
  intros Hd. unfold ctraderCashflowAmount, is_capital. destruct (capital_sign _) as [sign|]; [|done]. specialize (Hd sign eq_refl). cbn [mbind option_bind].
  pose proof (divisor_pos (dw_MoneyDigits cf)) as Hpos. unfold delta. set (D := ctraderMoneyDivisor _) in *. cbn. set (x := IZR (dw_Delta cf)) in *.
  assert (sign * (Rabs x / D) = x / D) as E by (unfold Rdiv; rewrite <- Rmult_assoc, Hd; done).
  destruct (Req_dec_T (Rabs x / D) 0) as [E0|N0], (Req_dec_T (x / D) 0) as [E1|N1]; [done| | |by rewrite E].
  - exfalso. apply N1. rewrite <- E, E0. lra.
  - exfalso. apply N0. assert (x = 0) as -> by (unfold Rdiv in E1; apply Rmult_integral in E1 as [?|E2]; [done|]; pose proof (Rinv_neq_0_compat D ltac:(lra)); lra).
    rewrite Rabs_R0. unfold Rdiv. lra.
Qed.

(** No deposit of a ledger that adds up looks like a reset. *)
Lemma no_reset cf running :
  bp_bal (entry_point cf) = running + delta cf → ctraderResetAwareAmount cf running = ctraderCashflowAmount cf.
Proof.
  intros Hb. unfold ctraderResetAwareAmount. destruct (ctraderCashflowAmount cf) as [a|]; [|done]. cbn [mbind option_bind]. destruct (negb _); [done|].
  destruct (fleb running _) eqn:E1; [done|]. cbn [orb]. destruct (fltb _ _) eqn:E2; [|done]. exfalso. R_tests. unfold ctraderResetPriorFloor, flit in *. cbn in *.
  unfold delta, entry_point in Hb. cbn in Hb. rewrite Hb in E2. lra.
Qed.

(** The flows booked at their face value. *)
Definition book_entry (byDay : gmap string (ctraderCashflowDay (F := R))) cf : gmap string (ctraderCashflowDay (F := R)) :=
  match ctraderCashflowAmount cf with Some a => book_flow byDay (FormatCompact (entry_time cf)) a | None => byDay end.

(** [running] is the balance after the last point seen. *)
Definition last_seen (seen : list point) (running : R) : Prop :=
  (seen = [] ∧ running = 0) ∨ ∃ p, p ∈ seen ∧ running = bp_bal p ∧ ∀ q, q ∈ seen → (bp_t q <= bp_t p)%Z.

Definition all_before (seen rest : list point) : Prop := ∀ p q, p ∈ seen → q ∈ rest → (bp_t p < bp_t q)%Z.

Lemma last_seen_snoc seen p : all_before seen [p] → last_seen (seen ++ [p]) (bp_bal p).
Proof.
  intros Hb. right. exists p. split_and!; [apply elem_of_app; right; by left|done|]. intros q [Hq|Hq%list_elem_of_singleton]%elem_of_app; [|subst; lia].
  pose proof (Hb q p Hq ltac:(by left)). lia.
Qed.

(** The deals before [t] are seen, the others wait. *)
Lemma advance_deals_spec t dealBals running seen rest :
  StronglySorted (λ p q, (bp_t p < bp_t q)%Z) dealBals → last_seen seen running → all_before seen dealBals → Forall (λ q, (t <= bp_t q)%Z) rest → all_before seen rest →
  let '(dealBals', running') := advance t dealBals running in
  ∃ seen', seen' ++ dealBals' ≡ₚ seen ++ dealBals ∧ last_seen seen' running' ∧ all_before seen' dealBals' ∧ all_before seen' rest ∧
    StronglySorted (λ p q, (bp_t p < bp_t q)%Z) dealBals' ∧ Forall (λ q, (t <= bp_t q)%Z) dealBals' ∧
    ∀ p, p ∈ seen' → p ∈ seen ∨ (bp_t p < t)%Z.
Proof.
  intros Hs Hl Hb Hrest Hbr. revert running seen Hl Hb Hbr. induction Hs as [|p l Hs IH Hp]; intros running seen Hl Hb Hbr; cbn [advance].
  { exists seen. split_and!; [done|done|done|done|constructor|constructor|]. intros p Hp. by left. }
  unfold Before. rewrite Forall_forall in Hp, Hrest. destruct (Z.ltb_spec (bp_t p) t) as [Hlt|Hge].
  - assert (last_seen (seen ++ [p]) (bp_bal p)) as Hl'. { apply last_seen_snoc. intros a b Ha Hb'%list_elem_of_singleton. subst. apply Hb; [done|by left]. }
    specialize (IH (bp_bal p) (seen ++ [p]) Hl'). destruct (advance t l (bp_bal p)) as [l' running']. destruct IH as (seen' & E & Hl2 & Hb2 & Hbr2 & Hs2 & Hf2 & Hm2).
    { intros a b [Ha|Ha%list_elem_of_singleton]%elem_of_app Hb'; [apply Hb; [done|by right]|subst; by apply Hp]. }
    { intros a b [Ha|Ha%list_elem_of_singleton]%elem_of_app Hb'; [by apply Hbr|]. subst. pose proof (Hrest b Hb'). lia. }
    exists seen'. split_and!; try done; [rewrite E, <- (assoc_L (++)); done|]. intros q Hq. destruct (Hm2 q Hq) as [[?|Hq'%list_elem_of_singleton]%elem_of_app|?]; [by left|subst; by right|by right].
  - exists seen. split_and!; [done|done|done|done|by constructor; [|apply Forall_forall]| |intros q Hq; by left].
    apply Forall_forall. intros q [->|Hq]%elem_of_cons; [done|]. pose proof (Hp q Hq). lia.
Qed.

Section ledger.
Context (deals : list (cTraderDeal (F := R))) (cashflows : list ctraderDepositWithdraw).
Hypothesis Hau : adds_up deals cashflows.
Let points := ctraderBalancePoints deals cashflows.

Lemma points_sorted : StronglySorted (key_le bp_t) points.
Proof. apply sort_by_sorted. Qed.

(** What has been seen before an instant is all there is before it. *)
Lemma seen_balance seen rest running t :
  points ≡ₚ seen ++ rest → last_seen seen running → (∀ p, p ∈ seen → (bp_t p < t)%Z) → Forall (λ q, (t <= bp_t q)%Z) rest →
  running = ctraderBalanceAt points t.
Proof.
  intros E Hl Hlt Hge. rewrite Forall_forall in Hge. eapply latest_unique; [apply Hau| |apply balance_at_latest, points_sorted]. fold points.
  destruct Hl as [[-> ->]|(p & Hp & -> & Hm)]; [right|left; exists p].
  - split; [done|]. intros q. rewrite E. apply Hge.
  - split_and!; [rewrite E, elem_of_app; by left|by apply Hlt|done|]. intros q. rewrite E, elem_of_app. intros [Hq|Hq] Ht; [by apply Hm|]. pose proof (Hge q Hq). lia.
Qed.

Lemma flows_from_plain entries dealBals running seen byDay :
  points ≡ₚ seen ++ dealBals ++ (entry_point <$> entries) → (∀ cf, cf ∈ entries → cf ∈ cashflows) →
  StronglySorted (λ p q, (bp_t p < bp_t q)%Z) dealBals → StronglySorted (λ p q, (bp_t p < bp_t q)%Z) (entry_point (F := R) <$> entries) →
  last_seen seen running → all_before seen dealBals → all_before seen (entry_point <$> entries) →
  flows_from dealBals running entries byDay = foldl book_entry byDay entries.
Proof.
  revert dealBals running seen byDay. induction entries as [|cf entries IH]; intros dealBals running seen byDay E Hin Hsd Hse Hl Hbd Hbe; [done|].
  cbn [flows_from foldl]. rewrite fmap_cons in E, Hse, Hbe. apply StronglySorted_cons in Hse as [Hcf Hse].
  assert (bp_t (entry_point (F := R) cf) = entry_time cf) as Et by done.
  pose proof (advance_deals_spec (of_milli (dw_Timestamp cf)) dealBals running seen (entry_point cf :: (entry_point <$> entries)) Hsd Hl Hbd) as Ha.
  destruct (advance _ dealBals running) as [dealBals' running']. destruct Ha as (seen' & E' & Hl' & Hbd' & Hbe' & Hsd' & Hge & Hm).
  { rewrite Forall_forall in *. intros q [->|Hq]%elem_of_cons; [done|]. pose proof (Hcf q Hq) as Hq'. rewrite Et in Hq'. unfold entry_time in Hq'. lia. }
  { exact Hbe. }
  assert (running' = ctraderBalanceAt points (entry_time cf)) as Hr.
  { apply (seen_balance seen' (dealBals' ++ entry_point cf :: (entry_point <$> entries))); [|done| |].
    - by rewrite E, !(assoc_L (++)), E'.
    - intros p Hp. rewrite <- Et. apply Hbe'; [done|by left].
    - apply Forall_app. split; [done|]. constructor; [done|]. eapply Forall_impl; [exact Hcf|]. intros q Hq. cbn in Hq. unfold entry_time. lia. }
  assert (cf ∈ cashflows) as Hcfin by (apply Hin; by left). pose proof (au_balance _ _ Hau cf Hcfin) as Hbal. fold points in Hbal. rewrite <- Hr in Hbal.
  rewrite (no_reset cf running' Hbal). rewrite (proj2 (Z.eqb_neq _ _) (au_kept _ _ Hau cf Hcfin)).
  assert (points ≡ₚ (seen' ++ [entry_point cf]) ++ dealBals' ++ (entry_point <$> entries)) as E2.
  { rewrite E, (assoc_L (++)), <- E', <- !(assoc_L (++)). apply Permutation_app_head. cbn [app]. by rewrite Permutation_middle. }
  assert (all_before [entry_point cf] dealBals') as Hlate.
  { intros a q Ha%list_elem_of_singleton Hq. subst a. rewrite Forall_forall in Hge. pose proof (Hge q Hq). enough (bp_t (entry_point (F := R) cf) ≠ bp_t q) by (rewrite Et in *; unfold entry_time in *; lia).
    intros Eq. pose proof (au_distinct _ _ Hau) as Hnd. fold points in Hnd. rewrite E2, <- (assoc_L (++)) in Hnd. rewrite fmap_app in Hnd. apply NoDup_app in Hnd as (_ & _ & Hnd).
    cbn [app] in Hnd. rewrite fmap_cons, NoDup_cons in Hnd. destruct Hnd as [Hn _]. apply Hn. rewrite Eq. apply list_elem_of_fmap_2, elem_of_app. by left. }
  apply (IH _ _ (seen' ++ [entry_point cf])); [done| |done|done| | |].
  - intros x Hx. apply Hin. by right.
  - apply last_seen_snoc. intros a q Ha Hq%list_elem_of_singleton. subst q. apply Hbe'; [done|by left].
  - intros a q [Ha|Ha]%elem_of_app Hq; [by apply Hbd'|by apply Hlate].
  - intros a q [Ha|Ha%list_elem_of_singleton]%elem_of_app Hq; [apply Hbe'; [done|by right]|subst; rewrite Forall_forall in Hcf; by apply Hcf].
Qed.

Lemma flows_plain : ctraderCashflowsByDay deals cashflows = foldl book_entry ∅ (sort_by dw_Timestamp cashflows).
Proof.
  pose proof (au_distinct _ _ Hau) as Hnd. unfold ctraderBalancePoints in Hnd. rewrite sort_by_perm, fmap_app in Hnd. apply NoDup_app in Hnd as (Hnd & _ & Hne).
  apply (flows_from_plain _ _ _ []).
  - cbn [app]. unfold points, ctraderBalancePoints. by rewrite !sort_by_perm.
  - intros cf. by rewrite sort_by_elem.
  - apply sorted_strict; [done|apply sort_by_sorted].
  - apply sorted_strict; [by rewrite sort_by_perm|]. apply (StronglySorted_fmap entry_point (key_le dw_Timestamp)); [|apply sort_by_sorted]. intros a b. unfold key_le. cbn. unfold of_milli, Millisecond. lia.
  - by left.
  - intros a b Ha. by apply elem_of_nil in Ha.
  - intros a b Ha. by apply elem_of_nil in Ha.
Qed.

(** *** The sums of a day *)

Definition flow cf : R := if is_capital cf then delta cf else 0.

Lemma amount_flow cf : cf ∈ cashflows → match ctraderCashflowAmount cf with Some a => a = flow cf ∧ a ≠ 0 | None => flow cf = 0 end.
Proof.
  intros Hin. rewrite amount_cases by (intros; by eapply au_direction). unfold flow. destruct (is_capital cf); [|done]. by destruct (Req_dec_T (delta cf) 0).
Qed.

Definition day_of (byDay : gmap string (ctraderCashflowDay (F := R))) (key : string) : ctraderCashflowDay := default (mkFlowDay f0 f0) (byDay !! key).

Lemma day_of_insert byDay key e : day_of (<[key := e]> byDay) key = e.
Proof. unfold day_of. by rewrite lookup_insert_eq. Qed.

Lemma day_of_insert_ne byDay key k e : k ≠ key → day_of (<[k := e]> byDay) key = day_of byDay key.
Proof. intros. unfold day_of. by rewrite lookup_insert_ne. Qed.

Definition on (key : string) (x : R) cf : R := if bool_decide (FormatCompact (entry_time cf) = key) then x else 0.

Lemma book_entry_day byDay cf key : cf ∈ cashflows →
  fd_deposits (day_of (book_entry byDay cf) key) = fd_deposits (day_of byDay key) + on key (Rmax 0 (flow cf)) cf ∧
  fd_withdrawals (day_of (book_entry byDay cf) key) = fd_withdrawals (day_of byDay key) + on key (Rmax 0 (- flow cf)) cf.
Proof.
  intros Hin. pose proof (amount_flow cf Hin) as Ha. unfold book_entry, on. destruct (ctraderCashflowAmount cf) as [a|].
  - destruct Ha as [Ea Hne]. rewrite <- Ea. unfold book_flow. fold (day_of byDay (FormatCompact (entry_time cf))). set (k := FormatCompact (entry_time cf)). case_bool_decide as Ek.
    + subst key. rewrite day_of_insert. destruct (fltb f0 a) eqn:Es; R_tests; rewrite R_f0 in *; cbn [fd_deposits fd_withdrawals fadd fopp num_R].
      * rewrite Rmax_right, Rmax_left by lra. split; lra.
      * rewrite Rmax_left, Rmax_right by lra. split; lra.
    + rewrite day_of_insert_ne by done. split; lra.
  - rewrite Ha. case_bool_decide; rewrite ?Ropp_0, ?Rmax_left by lra; split; lra.
Qed.

Lemma book_entries_day entries byDay key : (∀ cf, cf ∈ entries → cf ∈ cashflows) →
  fd_deposits (day_of (foldl book_entry byDay entries) key) = fd_deposits (day_of byDay key) + sumR ((λ cf, on key (Rmax 0 (flow cf)) cf) <$> entries) ∧
  fd_withdrawals (day_of (foldl book_entry byDay entries) key) = fd_withdrawals (day_of byDay key) + sumR ((λ cf, on key (Rmax 0 (- flow cf)) cf) <$> entries).
Proof.
  revert byDay. induction entries as [|cf entries IH]; intros byDay Hin; cbn [foldl]; [cbn; split; lra|].
  destruct (IH (book_entry byDay cf)) as [-> ->]; [intros; apply Hin; by right|]. destruct (book_entry_day byDay cf key) as [-> ->]; [apply Hin; by left|]. rewrite !sumR_cons. split; lra.
Qed.

Lemma day_flows key :
  fd_deposits (day_of (ctraderCashflowsByDay deals cashflows) key) = sumR ((λ cf, on key (Rmax 0 (flow cf)) cf) <$> cashflows) ∧
  fd_withdrawals (day_of (ctraderCashflowsByDay deals cashflows) key) = sumR ((λ cf, on key (Rmax 0 (- flow cf)) cf) <$> cashflows).
Proof.
  rewrite flows_plain. destruct (book_entries_day (sort_by dw_Timestamp cashflows) ∅ key) as [-> ->]; [intros cf; by rewrite sort_by_elem|].
  unfold day_of. rewrite lookup_empty. cbn [default fd_deposits fd_withdrawals]. rewrite R_f0.
  rewrite !(sumR_perm _ _ (fmap_Permutation _ _ _ (sort_by_perm dw_Timestamp cashflows))). split; lra.
Qed.

(** What an entry adds to the sum of a stretch. *)
Definition during (a b : time) (f : ctraderDepositWithdraw → R) cf : R := if between a b (entry_point cf) then f cf else 0.

Lemma same_key_day t u : modern t → modern u → FormatCompact t = FormatCompact u ↔ truncDay t = truncDay u.
Proof.
  intros Ht Hu. split.
  - intros E. apply ParseCompact_FormatCompact in Ht, Hu. rewrite E in Ht. congruence.
  - intros E. by rewrite <- (FormatCompact_trunc t), E, FormatCompact_trunc.
Qed.

Lemma on_during a f : truncDay a = a → modern a → sumR ((λ cf, on (FormatCompact a) (f cf) cf) <$> cashflows) = sumR (during a (a + Day) f <$> cashflows).
Proof.
  intros Ha Hm. apply sumR_ext. intros cf Hin. unfold on, during, between. change (bp_t (entry_point cf)) with (entry_time cf).
  assert (modern (entry_time cf)) as Hc.
  { apply (au_modern _ _ Hau (entry_point cf)). unfold ctraderBalancePoints. rewrite sort_by_elem, elem_of_app. right. by apply list_elem_of_fmap_2. }
  pose proof (same_key_day (entry_time cf) a Hc Hm) as E. rewrite Ha in E. pose proof (truncDay_le (entry_time cf)) as Hle. pose proof Day_pos.
  case_bool_decide as Ek; destruct (Z.leb_spec a (entry_time cf)), (Z.ltb_spec (entry_time cf) (a + Day)); cbn [andb]; try done.
  - apply E in Ek. lia.
  - apply E in Ek. lia.
  - apply E in Ek. lia.
  - exfalso. apply Ek, E. rewrite <- Ha. unfold truncDay in *. f_equal. pose proof (Z.div_unique (entry_time cf) Day (a / Day) (entry_time cf - a)). lia.
Qed.

Lemma row_of h now : modern now → h ∈ buildCTraderHistoricalSnapshots deals cashflows now →
  let a := (hs_Date h - Day)%Z in
  truncDay a = a ∧ modern a ∧ hs_TotalEquity h = ctraderBalanceAt points (hs_Date h) ∧
  hs_Deposits h = fd_deposits (day_of (ctraderCashflowsByDay deals cashflows) (FormatCompact a)) ∧
  hs_Withdrawals h = fd_withdrawals (day_of (ctraderCashflowsByDay deals cashflows) (FormatCompact a)).
Proof.
  intros Hnow. unfold buildCTraderHistoricalSnapshots. fold points. destruct points as [|p l] eqn:Ep; [by rewrite elem_of_nil|].
  intros (row & -> & (i & -> & Hi%elem_of_seq)%list_elem_of_fmap)%list_elem_of_fmap. cbn [hs_Date row_at hs_TotalEquity hs_Deposits hs_Withdrawals].
  assert (modern (bp_t p)) as Hp by (apply (au_modern _ _ Hau); fold points; rewrite Ep; by left).
  change (24 * Hour)%Z with Day in *. set (first := (truncDay (bp_t p) + Day)%Z) in *.
  replace (first + Z.of_nat i * Day - Day)%Z with (truncDay (bp_t p) + Z.of_nat i * Day)%Z by (unfold first; lia).
  split_and!; [by rewrite truncDay_add, truncDay_idem| |done..].
  unfold modern, day_index in *. assert ((truncDay (bp_t p) + Z.of_nat i * Day) / Day = bp_t p / Day + Z.of_nat i)%Z as -> by (unfold truncDay; by rewrite <- Z.mul_add_distr_r, Z.div_mul).
  split; [lia|].
  assert ((truncDay now - Day - first) / Day = now / Day - bp_t p / Day - 2)%Z as Ed.
  { unfold first, truncDay. replace (now / Day * Day - Day - (bp_t p / Day * Day + Day))%Z with ((now / Day - bp_t p / Day - 2) * Day)%Z by lia. by rewrite Z.div_mul. }
  rewrite Ed in Hi. lia.
Qed.

End ledger.

(** Money in, money out and results. *)
Lemma split_flows a b l :
  sumR (during a b delta <$> l) =
  sumR (during a b (λ cf, Rmax 0 (flow cf)) <$> l) - sumR (during a b (λ cf, Rmax 0 (- flow cf)) <$> l) + sumR (during a b (λ cf, if is_capital cf then 0 else delta cf) <$> l).
Proof.
  induction l as [|cf l IH]; [cbn; lra|]. rewrite !sumR_cons, IH. unfold during, flow. destruct (between _ _ _); [|lra]. destruct (is_capital cf).
  - destruct (Rle_dec 0 (delta cf)); [rewrite (Rmax_right 0 (delta cf)), (Rmax_left 0 (- delta cf)) by lra|rewrite (Rmax_left 0 (delta cf)), (Rmax_right 0 (- delta cf)) by lra]; lra.
  - rewrite Ropp_0, !Rmax_left by lra. lra.
Qed.

(** C30: in exact (real) arithmetic, a history rebuilt from a ledger that adds
    up accounts for all of it.  The ledger adds up when: no two of its events,
    deals and entries, fall in one millisecond; their times are of years 0
    to 9999; every entry states the balance it leaves, which is the one before
    it and its amount, the amount in the direction of its operation; and no
    entry leaves a balance of exactly zero.  Then the deposits and the
    withdrawals of a row are those of its day's entries of capital, each at its
    face value, and the balance moves over the day by them, by the other
    entries and by the deals closed that day, and by nothing else.  The last
    condition is needed: after an entry that leaves zero the next deposit is
    booked as a withdrawal (CTraderSafe.refunded_account_misread).  The code
    computes the rows in float64, each operation rounded. *)
Theorem rebuilt_days_reconcile deals cashflows now h :
  adds_up deals cashflows → modern now → h ∈ buildCTraderHistoricalSnapshots deals cashflows now →
  let points := ctraderBalancePoints deals cashflows in
  let a := (hs_Date h - Day)%Z in let b := hs_Date h in
  hs_TotalEquity h = ctraderBalanceAt points b ∧
  hs_Deposits h = sumR (during a b (λ cf, Rmax 0 (flow cf)) <$> cashflows) ∧
  hs_Withdrawals h = sumR (during a b (λ cf, Rmax 0 (- flow cf)) <$> cashflows) ∧
  ctraderBalanceAt points b = ctraderBalanceAt points a + hs_Deposits h - hs_Withdrawals h
    + sumR (during a b (λ cf, if is_capital cf then 0 else delta cf) <$> cashflows)
    + sumR (change points a b <$> ctraderDealBalancePoints deals).
Proof.
  intros Hau Hnow Hh. destruct (row_of deals cashflows Hau h now Hnow Hh) as (Ha & Hm & He & Hd & Hw). cbv zeta. pose proof Day_pos as HD.
  set (points := ctraderBalancePoints deals cashflows) in *. set (a := (hs_Date h - Day)%Z) in *. assert (hs_Date h = a + Day)%Z as Eb by (unfold a; lia).
  destruct (day_flows deals cashflows Hau (FormatCompact a)) as [Dd Dw]. rewrite (on_during deals cashflows Hau a) in Dd, Dw by done. rewrite Dd in Hd. rewrite Dw in Hw. rewrite Eb in *.
  split_and!; [done|done|done|]. pose proof (changes_add_up points a (a + Day) (au_distinct _ _ Hau) (points_sorted deals cashflows) ltac:(lia)) as Hsum.
  assert (points ≡ₚ ctraderDealBalancePoints deals ++ (entry_point <$> cashflows)) as Ep by (apply sort_by_perm).
  rewrite (sumR_perm _ _ (fmap_Permutation (change points a (a + Day)) _ _ Ep)), fmap_app, sumR_app in Hsum.
  assert (sumR (change points a (a + Day) <$> (entry_point <$> cashflows)) = hs_Deposits h - hs_Withdrawals h + sumR (during a (a + Day) (λ cf, if is_capital cf then 0 else delta cf) <$> cashflows)) as Hent; [|lra].
  rewrite Hd, Hw, <- split_flows, <- list_fmap_compose. apply sumR_ext. intros cf Hin. unfold compose, change, during. destruct (between _ _ _); [|done].
  rewrite (au_balance _ _ Hau cf Hin). change (bp_t (entry_point cf)) with (entry_time cf). fold points. lra.
Qed.

(** A deposit of a hundred, a deal that makes it a hundred and ten, and a
    withdrawal of thirty, on three days. *)
Definition demo_closed : list (cTraderDeal (F := R)) := [mkDeal 1 1 (inr 1%Z) 100 1 90000000 0 (inr 2%Z) 2 1 (Some (mkClose 1000 0 0 (Some 11000%Z) 2))].
Definition demo_ledger : list ctraderDepositWithdraw := [mkEntry 0 10000 10000 3600000 2; mkEntry 1 8000 (-3000) 176400000 2].

Lemma demo_points : ctraderBalancePoints demo_closed demo_ledger =
  [mkPoint (of_milli 3600000) (IZR 10000 / IZR (10 ^ 2)); mkPoint (of_milli 90000000) (IZR 11000 / IZR (10 ^ 2)); mkPoint (of_milli 176400000) (IZR 8000 / IZR (10 ^ 2))].
Proof. reflexivity. Qed.

Lemma demo_adds_up : adds_up demo_closed demo_ledger.
Proof.
  split; rewrite ?demo_points.
  - apply (bool_decide_unpack _). vm_compute. exact I.
  - intros p Hp. rewrite !elem_of_cons, elem_of_nil in Hp. destruct Hp as [->|[->|[->|[]]]]; vm_compute; split; congruence.
  - intros cf Hcf. unfold demo_ledger in Hcf. rewrite !elem_of_cons, elem_of_nil in Hcf. destruct Hcf as [->|[->|[]]].
    + change (IZR 10000 / IZR (10 ^ 2) = 0 + IZR 10000 / IZR (10 ^ 2)). lra.
    + change (IZR 8000 / IZR (10 ^ 2) = IZR 11000 / IZR (10 ^ 2) + IZR (-3000) / IZR (10 ^ 2)). change (10 ^ 2)%Z with 100%Z. lra.
  - intros cf sign Hcf. unfold demo_ledger in Hcf. rewrite !elem_of_cons, elem_of_nil in Hcf. destruct Hcf as [->|[->|[]]]; intros [= <-]; cbn [dw_Delta fopp num_R f1].
    + rewrite Rabs_pos_eq by lra. lra.
    + rewrite Rabs_left by lra. lra.
  - intros cf Hcf. unfold demo_ledger in Hcf. rewrite !elem_of_cons, elem_of_nil in Hcf. by destruct Hcf as [->|[->|[]]].
Qed.

Lemma rebuilt_days_reconcile_witness :
  ∃ h, h ∈ buildCTraderHistoricalSnapshots demo_closed demo_ledger (4 * Day) ∧ hs_Date h = (3 * Day)%Z ∧ hs_Withdrawals h = 30 ∧ hs_TotalEquity h = 80.
Proof.
  assert (∃ h, h ∈ buildCTraderHistoricalSnapshots demo_closed demo_ledger (4 * Day) ∧ hs_Date h = (3 * Day)%Z) as (h & Hh & Hd).
  { unfold buildCTraderHistoricalSnapshots. rewrite demo_points. eexists. split; [apply list_elem_of_fmap_2; do 2 right; left|reflexivity]. }
  exists h. destruct (rebuilt_days_reconcile demo_closed demo_ledger (4 * Day) h demo_adds_up ltac:(vm_compute; split; congruence) Hh) as (He & _ & Hw & _).
  rewrite Hd, demo_points in *. split_and!; [done|done| |].
  - rewrite Hw. change (during _ _ _ <$> demo_ledger) with [0; Rmax 0 (- (IZR (-3000) / IZR 100))]. unfold sumR. cbn [foldr]. rewrite Rmax_right by lra. lra.
  - rewrite He. change (ctraderBalanceAt _ _) with (IZR 8000 / IZR 100). lra.
Defined.

End CTraderExact.
