(* ===== verification/CTraderSession.v ===== *)
(** * The cTrader session (internal/connector/ctrader.go): socket,
    authentication, tokens, rate limits

    One caller, with the read loop and the heartbeat running beside it.  What
    they do is part of the reaction to a message: the events of the loops
    before it is written and after it is answered.  The broker, the token
    endpoint, the clock and the table the tokens are persisted to are functions
    of everything that happened so far.  Messages and payloads are abstract
    but for the fields the session reads. *)

From S2P Require Import Prelude GoTime GoText Num Types Venue.
From stdpp Require Import base gmap strings pretty tactics list.
From Stdlib Require Import ZArith Ascii Lia.
Import Venue.
Local Open Scope Z_scope.

Module CTraderSession.

(** ** Constants *)

Definition ctraderPayloadAppAuthReq : Z := 2100.
Definition ctraderPayloadAppAuthRes : Z := 2101.
Definition ctraderPayloadAccountAuthReq : Z := 2102.
Definition ctraderPayloadAccountAuthRes : Z := 2103.
Definition ctraderPayloadGetAccountsReq : Z := 2149.
Definition ctraderPayloadGetAccountsRes : Z := 2150.
Definition ctraderPayloadDealListReq : Z := 2133.
Definition ctraderPayloadDealListRes : Z := 2134.

Definition ctraderRateLimitAttempts : nat := 5.
Definition ctraderRateLimitBaseBackoff : duration := 2 * Second.
Definition ctraderRateLimitMaxBackoff : duration := 30 * Second.
Definition ctraderRateLimitMaxWait : duration := 60 * Second.
Definition ctraderPersistAttempts : nat := 3.
Definition ctraderProactiveRefreshWindow : duration := 5 * Minute.

(** ** Errors *)

(** The text, and for a [ctraderRateLimitErr] the instant it names, the zero
    time when it names none. *)
Record cerror := mkCError { ce_text : string; ce_limited : option time }.

Definition plain (text : string) : cerror := mkCError text None.

Definition ctraderTokenInvalidatedError : cerror :=
  plain "cTrader error ACCESS_DENIED: the broker invalidated this access token (ProtoOAAccountsTokenInvalidatedEvent); the account must be re-authorized".

Record cTraderErrorPayload := mkErrorPayload { er_ErrorCode : string; er_Description : string; er_RetryAfter : Z; er_MaintenanceEnd : Z }.

Definition isCTraderRateLimitCode (code description : string) : bool :=
  let s := ToUpper (code +:+ " " +:+ description) in
  Contains s "BLOCKED_PAYLOAD_TYPE" || Contains s "RATE LIMIT" || Contains s "RATE-LIMIT" || Contains s "TOO MANY REQUEST".

Definition ctraderErrorFromPayload (p : cTraderErrorPayload) : cerror :=
  let msg := if String.eqb (er_ErrorCode p) "" then "cTrader unknown error" else "cTrader error " +:+ er_ErrorCode p +:+ ": " +:+ er_Description p in
  let hint := if er_RetryAfter p =? 0 then er_MaintenanceEnd p else er_RetryAfter p in
  if isCTraderRateLimitCode (er_ErrorCode p) (er_Description p) || negb (hint =? 0)
  then mkCError msg (Some (if hint =? 0 then zero_time else of_milli (int64 hint)))
  else plain msg.

Definition isAccessTokenInvalid (e : cerror) : bool := Contains (ce_text e) "CH_ACCESS_TOKEN_INVALID".
Definition isAlreadyLoggedIn (e : cerror) : bool := Contains (ce_text e) "ALREADY_LOGGED_IN".

(** ** State *)

(** A message, its account and token when it has one, and its range. *)
Record message := mkMsg { ms_type : Z; ms_account : Z; ms_token : string; ms_from : Z; ms_to : Z }.

(** A message on a socket, and whether the answer it expects came back. *)
Record sent := mkSent { st_socket : nat; st_message : message; st_acked : bool }.

Record session := mkSession {
  se_ws : option nat;
  (** how many sockets were dialled *)
  se_dialled : nat;
  se_appAuthenticated : bool;
  se_authenticatedAccountID : Z;
  se_tokenInvalidated : bool;
  se_accessToken : string;
  se_refreshToken : string;
  se_accessTokenExpiry : time;
  (** what the persister wrote last *)
  se_stored : string * string;
  se_trace : list sent }.

Definition with_socket (s : session) (ws : option nat) (dialled : nat) (app : bool) (account : Z) : session :=
  mkSession ws dialled app account (se_tokenInvalidated s) (se_accessToken s) (se_refreshToken s) (se_accessTokenExpiry s) (se_stored s) (se_trace s).
Definition with_invalidated (s : session) (b : bool) : session :=
  mkSession (se_ws s) (se_dialled s) (se_appAuthenticated s) (se_authenticatedAccountID s) b (se_accessToken s) (se_refreshToken s) (se_accessTokenExpiry s) (se_stored s) (se_trace s).
Definition with_tokens (s : session) (access refresh : string) (expiry : time) : session :=
  mkSession (se_ws s) (se_dialled s) (se_appAuthenticated s) (se_authenticatedAccountID s) (se_tokenInvalidated s) access refresh expiry (se_stored s) (se_trace s).
Definition with_stored (s : session) (pair : string * string) : session :=
  mkSession (se_ws s) (se_dialled s) (se_appAuthenticated s) (se_authenticatedAccountID s) (se_tokenInvalidated s) (se_accessToken s) (se_refreshToken s) (se_accessTokenExpiry s) pair (se_trace s).
Definition with_sent (s : session) (x : sent) : session :=
  mkSession (se_ws s) (se_dialled s) (se_appAuthenticated s) (se_authenticatedAccountID s) (se_tokenInvalidated s) (se_accessToken s) (se_refreshToken s) (se_accessTokenExpiry s) (se_stored s) (se_trace s ++ [x]).

(** [disconnect], and [markDisconnected] on the current socket *)
Definition disconnect (s : session) : session := with_socket s None (se_dialled s) false 0.
Definition markDisconnected (ws : nat) (s : session) : session := if bool_decide (se_ws s = Some ws) then disconnect s else s.
Definition invalidateToken (ws : nat) (s : session) : session := if bool_decide (se_ws s = Some ws) then with_invalidated s true else s.

(** What the loops do beside the caller: the read loop or the heartbeat of a
    socket fails, or a token event arrives on it. *)
Inductive event := Failed (ws : nat) | Invalidated (ws : nat).

Definition apply_event (s : session) (e : event) : session := match e with Failed ws => markDisconnected ws s | Invalidated ws => invalidateToken ws s end.

Section session.
Context {P : Type}.

(** How a written message ends for its sender. *)
Inductive outcome :=
| WriteError (e : cerror)
| Cancelled (e : cerror)
| TimedOut
| SocketLost (e : cerror)
| TokenDead
| Replied (payloadType : Z) (payload : P)
| Refused (payload : cTraderErrorPayload).

Record reaction := mkReaction { rx_before : list event; rx_outcome : outcome; rx_after : list event }.

(** The body of the token endpoint, decoded. *)
Record tokenResp := mkTokens { to_Access : string; to_Refresh : string; to_ExpiresIn : Z; to_ErrorCode : string; to_Description : string; to_OAuthError : string }.

Record environment := mkEnv {
  en_clientID : string;
  en_clientSecret : string;
  en_dial : session → option cerror;
  en_react : session → message → reaction;
  (** the status, the body and what it decodes to, or the error of the request *)
  en_token : session → (Z * string * (tokenResp + string)) + cerror;
  (** [None] without a persister; otherwise what each attempt answers *)
  en_persist : option (session → nat → option string);
  en_cancelled : session → option cerror;
  en_now : session → time }.

Context (E : environment).

(** ** Requests *)

Definition ensureConnected (s : session) : session * option cerror :=
  match se_ws s with
  | Some _ => (s, None)
  | None => match en_dial E s with Some e => (s, Some e) | None => (with_socket s (Some (se_dialled s)) (S (se_dialled s)) false 0, None) end
  end.

Definition timeout_error (payloadType : Z) : cerror := plain ("cTrader request timeout for payloadType " +:+ pretty payloadType).

(** What the sender does with its outcome. *)
Definition settle (ws : nat) (m : message) (expected : Z) (o : outcome) (s : session) : session * (P + cerror) :=
  match o with
  | WriteError e => (markDisconnected ws s, inr e)
  | Cancelled e => (s, inr e)
  | TimedOut => (markDisconnected ws s, inr (timeout_error (ms_type m)))
  | SocketLost e => (markDisconnected ws s, inr e)
  | TokenDead => (invalidateToken ws s, inr ctraderTokenInvalidatedError)
  | Refused p => (s, inr (ctraderErrorFromPayload p))
  | Replied t p =>
      if t =? expected then (s, inl p) else (s, inr (plain ("unexpected cTrader payload type " +:+ pretty t +:+ " (expected " +:+ pretty expected +:+ ")")))
  end.

Definition acknowledged (expected : Z) (o : outcome) : bool := match o with Replied t _ => t =? expected | _ => false end.

Definition sendMessage (m : message) (expected : Z) (s : session) : session * (P + cerror) :=
  if se_tokenInvalidated s then (s, inr ctraderTokenInvalidatedError)
  else match ensureConnected s with
  | (s, Some e) => (s, inr e)
  | (s, None) =>
      let rx := en_react E s m in
      let s := foldl apply_event s (rx_before rx) in
      match se_ws s with
      | None => (s, inr (plain "cTrader WebSocket disconnected"))
      | Some ws =>
          let s := with_sent s (mkSent ws m (acknowledged expected (rx_outcome rx))) in
          let '(s, r) := settle ws m expected (rx_outcome rx) s in
          (foldl apply_event s (rx_after rx), r)
      end
  end.

Definition client_missing : bool := String.eqb (TrimSpace (en_clientID E)) "" || String.eqb (TrimSpace (en_clientSecret E)) "".

Definition authenticateApp (s : session) : session * option cerror :=
  if se_appAuthenticated s then (s, None)
  else if client_missing then (s, Some (plain "cTrader requires CTRADER_CLIENT_ID and CTRADER_CLIENT_SECRET environment variables"))
  else match sendMessage (mkMsg ctraderPayloadAppAuthReq 0 "" 0 0) ctraderPayloadAppAuthRes s with
  | (s, inr e) => (s, Some e)
  | (s, inl _) => (with_socket s (se_ws s) (se_dialled s) true (se_authenticatedAccountID s), None)
  end.

(** ** Tokens *)

(** Attempts to persist, until one succeeds. *)
Fixpoint persist (write : session → nat → option string) (left attempt : nat) (pair : string * string) (s : session) : session * option string :=
  match write s attempt with
  | None => (with_stored s pair, None)
  | Some e => match left with O => (s, Some e) | S left' => persist write left' (S attempt) pair s end
  end.

Definition persist_error (e : string) : cerror :=
  plain ("persist rotated cTrader tokens after " +:+ pretty (N.of_nat ctraderPersistAttempts)
         +:+ " attempts (the stored refresh token is now dead; the connection must be re-authorized): " +:+ e).

(** The answer of the token endpoint, or why it is refused. *)
Definition token_answer (a : (Z * string * (tokenResp + string)) + cerror) : tokenResp + cerror :=
  match a with
  | inr e => inr e
  | inl (status, text, body) =>
      if status =? 429 then inr (plain "cTrader token refresh rate-limited (429), retry later")
      else if negb (status =? 200) then inr (plain ("token refresh failed (HTTP " +:+ pretty status +:+ "): " +:+ TruncatedBody (TrimSpace text)))
      else match body with
      | inr e => inr (plain e)
      | inl r =>
          if negb (String.eqb (to_ErrorCode r) "") then inr (plain ("token refresh rejected: " +:+ to_ErrorCode r +:+ " - " +:+ to_Description r))
          else if negb (String.eqb (to_OAuthError r) "") then inr (plain ("token refresh rejected: " +:+ to_OAuthError r))
          else if String.eqb (TrimSpace (to_Access r)) "" then inr (plain "token refresh response missing access_token")
          else inl r
      end
  end.

(** The pair a refresh leaves in memory. *)
Definition rotated (r : tokenResp) (s : session) : string * string :=
  (TrimSpace (to_Access r), if String.eqb (TrimSpace (to_Refresh r)) "" then se_refreshToken s else TrimSpace (to_Refresh r)).

Definition refreshAccessToken (s : session) : session * option cerror :=
  if String.eqb (TrimSpace (se_refreshToken s)) "" then (s, Some (plain "missing refresh token"))
  else if client_missing then (s, Some (plain "missing cTrader client credentials (set CTRADER_CLIENT_ID/CTRADER_CLIENT_SECRET)"))
  else match token_answer (en_token E s) with
  | inr e => (s, Some e)
  | inl r =>
      let pair := rotated r s in
      let s := with_tokens s pair.1 pair.2 (if 0 <? to_ExpiresIn r then en_now E s + int64 (to_ExpiresIn r * Second) else se_accessTokenExpiry s) in
      match en_persist E with
      | None => (s, None)
      | Some write => let '(s, e) := persist write (ctraderPersistAttempts - 1) 0 pair s in (s, persist_error <$> e)
      end
  end.

Definition needsProactiveRefresh (s : session) : bool :=
  negb (IsZero (se_accessTokenExpiry s) || String.eqb (se_refreshToken s) "") && (Sub (se_accessTokenExpiry s) (en_now E s) <? ctraderProactiveRefreshWindow).

Definition dropRefreshedSession (s : session) : session := with_invalidated (disconnect s) false.

(** Two steps of which the first may fail. *)
Definition and_then (r : session * option cerror) (k : session → session * option cerror) : session * option cerror :=
  match r with (s, Some e) => (s, Some e) | (s, None) => k s end.

Definition refreshAndReconnect (s : session) : session * option cerror :=
  and_then (refreshAccessToken s) (λ s, and_then (ensureConnected (dropRefreshedSession s)) authenticateApp).

Definition sendWithTokenRefresh (call : session → session * (P + cerror)) (s : session) : session * (P + cerror) :=
  match (if needsProactiveRefresh s then refreshAndReconnect s else (s, None)) with
  | (s, Some e) => (s, inr e)
  | (s, None) =>
      match call s with
      | (s, inl p) => (s, inl p)
      | (s, inr e) =>
          if isAlreadyLoggedIn e then
            match and_then (ensureConnected (disconnect s)) authenticateApp with (s, Some e) => (s, inr e) | (s, None) => call s end
          else if negb (isAccessTokenInvalid e) || String.eqb (TrimSpace (se_refreshToken s)) "" then (s, inr e)
          else match refreshAndReconnect s with (s, Some e) => (s, inr e) | (s, None) => call s end
      end
  end.

(** ** Requests for an account *)

Definition getAccounts (s : session) : session * (P + cerror) :=
  match and_then (ensureConnected s) authenticateApp with
  | (s, Some e) => (s, inr e)
  | (s, None) => sendWithTokenRefresh (λ s, sendMessage (mkMsg ctraderPayloadGetAccountsReq 0 (se_accessToken s) 0 0) ctraderPayloadGetAccountsRes s) s
  end.

Definition authenticateAccount (accountID : Z) (s : session) : session * option cerror :=
  match and_then (ensureConnected s) authenticateApp with
  | (s, Some e) => (s, Some e)
  | (s, None) =>
      if se_authenticatedAccountID s =? accountID then (s, None)
      else match sendWithTokenRefresh (λ s, sendMessage (mkMsg ctraderPayloadAccountAuthReq accountID (se_accessToken s) 0 0) ctraderPayloadAccountAuthRes s) s with
      | (s, inr e) => (s, Some e)
      | (s, inl _) => (with_socket s (se_ws s) (se_dialled s) (se_appAuthenticated s) accountID, None)
      end
  end.

(** A request of one message: the trader, the positions, their P&L, the
    assets, a symbol. *)
Definition account_request (payloadType expected accountID : Z) (s : session) : session * (P + cerror) :=
  match authenticateAccount accountID s with
  | (s, Some e) => (s, inr e)
  | (s, None) => sendMessage (mkMsg payloadType accountID "" 0 0) expected s
  end.

(** ** Pages *)

Definition page_wait (now : time) (backoff : duration) (retryAfter : time) : duration :=
  let wait := if IsZero retryAfter then backoff else let until := Sub retryAfter now in if 0 <? until then until else backoff in
  let wait := if ctraderRateLimitMaxWait <? wait then ctraderRateLimitMaxWait else wait in
  if wait <=? 0 then backoff else wait.

Definition limited_error (payloadType : Z) (e : cerror) : cerror :=
  mkCError ("cTrader rate limited on payloadType " +:+ pretty payloadType +:+ " after " +:+ pretty (N.of_nat ctraderRateLimitAttempts) +:+ " attempts: " +:+ ce_text e) (ce_limited e).

(** With the waits; [left] attempts remain after this one. *)
Fixpoint page_attempts (left : nat) (backoff : duration) (m : message) (expected : Z) (s : session) : session * (P + cerror) * list duration :=
  match sendWithTokenRefresh (sendMessage m expected) s with
  | (s, inl p) => (s, inl p, [])
  | (s, inr e) =>
      match ce_limited e with
      | None => (s, inr e, [])
      | Some retryAfter =>
          let wait := page_wait (en_now E s) backoff retryAfter in
          match en_cancelled E s with
          | Some c => (s, inr c, [wait])
          | None =>
              match left with
              | O => (s, inr (limited_error (ms_type m) e), [wait])
              | S left' =>
                  let '(s, r, waits) := page_attempts left' (Z.min (2 * backoff) ctraderRateLimitMaxBackoff) m expected s in (s, r, wait :: waits)
              end
          end
      end
  end.

Definition sendPaged (m : message) (expected : Z) (s : session) : session * (P + cerror) * list duration :=
  page_attempts (ctraderRateLimitAttempts - 1) ctraderRateLimitBaseBackoff m expected s.

(** The first page of a walk over the deals. *)
Definition first_page (accountID from to : Z) (s : session) : session * (P + cerror) :=
  match authenticateAccount accountID s with
  | (s, Some e) => (s, inr e)
  | (s, None) => (sendPaged (mkMsg ctraderPayloadDealListReq accountID "" from to) ctraderPayloadDealListRes s).1
  end.

(** ** Rotated tokens are not lost

    The broker rotates the refresh token at every refresh: the pair in memory
    is the one that works, and the pair in the table is the one a restart finds. *)

Definition pair_of (s : session) : string * string := (se_accessToken s, se_refreshToken s).
Definition tokens (s : session) : string * string * (string * string) := (pair_of s, se_stored s).
Definition in_step (s : session) : Prop := se_stored s = pair_of s.
Definition lost (e : cerror) : Prop := ∃ x, e = persist_error x.

Lemma apply_event_tokens s e : tokens (apply_event s e) = tokens s.
Proof. destruct e; cbn; unfold markDisconnected, invalidateToken; by case_bool_decide. Qed.

Lemma apply_events_tokens l s : tokens (foldl apply_event s l) = tokens s.
Proof. revert s. induction l as [|e l IH]; intros s; cbn [foldl]; [done|]. by rewrite IH, apply_event_tokens. Qed.

Lemma ensureConnected_tokens s : tokens (ensureConnected s).1 = tokens s.
Proof. unfold ensureConnected. destruct (se_ws s); [done|]. by destruct (en_dial E s). Qed.

Lemma settle_tokens ws m x o s : tokens (settle ws m x o s).1 = tokens s.
Proof. destruct o; cbn; unfold markDisconnected, invalidateToken; try case_bool_decide; try done. by destruct (_ =? _). Qed.

Lemma sendMessage_tokens m x s : tokens (sendMessage m x s).1 = tokens s.
Proof.
  unfold sendMessage. destruct (se_tokenInvalidated s); [done|]. pose proof (ensureConnected_tokens s) as H1. destruct (ensureConnected s) as [s1 [e|]]; [done|]. cbn [fst] in H1.
  rewrite <- H1. set (s2 := foldl _ s1 _). assert (tokens s2 = tokens s1) as <- by apply apply_events_tokens. destruct (se_ws s2) as [ws|]; [|done].
  set (s3 := with_sent _ _). change (tokens s2) with (tokens s3). rewrite <- (settle_tokens ws m x (rx_outcome (en_react E s1 m)) s3). destruct (settle _ _ _ _ s3) as [s4 r]. apply apply_events_tokens.
Qed.

Lemma authenticateApp_tokens s : tokens (authenticateApp s).1 = tokens s.
Proof.
  unfold authenticateApp. destruct (se_appAuthenticated s); [done|]. destruct client_missing; [done|].
  rewrite <- (sendMessage_tokens (mkMsg ctraderPayloadAppAuthReq 0 "" 0 0) ctraderPayloadAppAuthRes s). by destruct (sendMessage _ _ s) as [s' [|]].
Qed.

Lemma reconnect_tokens s : tokens (and_then (ensureConnected s) authenticateApp).1 = tokens s.
Proof. rewrite <- (ensureConnected_tokens s). destruct (ensureConnected s) as [s' [e|]]; cbn [and_then fst]; [done|]. apply authenticateApp_tokens. Qed.

(** What a refresh does: nothing, or a rotation that is persisted or whose
    loss is told. *)
Lemma refresh_cases s s' e : refreshAccessToken s = (s', e) →
  (∃ x, e = Some x ∧ s' = s) ∨
  ∃ r, token_answer (en_token E s) = inl r ∧ pair_of s' = rotated r s ∧
    match en_persist E with
    | None => e = None
    | Some _ => (e = None ∧ in_step s') ∨ (∃ x, e = Some (persist_error x)) ∧ se_stored s' = se_stored s
    end.
Proof.
  unfold refreshAccessToken. destruct (String.eqb _ _); [intros [= <- <-]; left; by eexists|]. destruct client_missing; [intros [= <- <-]; left; by eexists|].
  destruct (token_answer (en_token E s)) as [r|x]; [|intros [= <- <-]; left; by eexists]. set (s1 := with_tokens s _ _ _). intros Eq. right. exists r. split; [done|].
  destruct (en_persist E) as [write|]; [|by injection Eq as <- <-].
  assert (∀ left k, let '(s2, x) := persist write left k (rotated r s) s1 in pair_of s2 = rotated r s ∧ match x with None => in_step s2 | Some _ => se_stored s2 = se_stored s end) as Hp.
  { assert (pair_of s1 = rotated r s) as E1 by (symmetry; apply surjective_pairing).
    assert (in_step (with_stored s1 (rotated r s))) as E2 by (unfold in_step; cbn [se_stored with_stored]; rewrite <- E1; done).
    intros left. induction left as [|left IH]; intros k; cbn [persist]; (destruct (write s1 k) as [x|]; [|by split]); [by split|apply IH]. }
  specialize (Hp (ctraderPersistAttempts - 1)%nat O). destruct (persist write _ _ _ s1) as [s2 x]. injection Eq as <- <-. destruct Hp as [Hp1 Hp2]. split; [done|].
  destruct x as [x|]; cbn; [right|left]; [split; [by eexists|done]|done].
Qed.

(** A step from a session in step ends in one, or with the loss told. *)
Definition careful {A} (f : session → session * A) (told : A → Prop) : Prop := ∀ s, in_step s → in_step (f s).1 ∨ told (f s).2.

Definition error_told (e : option cerror) : Prop := ∃ x, e = Some x ∧ lost x.
Definition result_told (r : P + cerror) : Prop := ∃ x, r = inr x ∧ lost x.

Lemma in_step_tokens s s' : tokens s' = tokens s → in_step s → in_step s'.
Proof. intros [= E1 E2 E3]. unfold in_step, pair_of. by rewrite E1, E2, E3. Qed.

Lemma sendMessage_careful m x : careful (sendMessage m x) result_told.
Proof. intros s Hs. left. eapply in_step_tokens; [apply sendMessage_tokens|done]. Qed.

Hypothesis Hwrite : en_persist E ≠ None.

Lemma refreshAndReconnect_careful : careful refreshAndReconnect error_told.
Proof.
  intros s Hs. unfold refreshAndReconnect. destruct (refreshAccessToken s) as [s1 e] eqn:Er. apply refresh_cases in Er as [(x & -> & ->)|(r & _ & _ & Hp)]; [by left|].
  destruct (en_persist E); [|done]. destruct Hp as [[-> H1]|[[x ->] _]]; cbn [and_then]; [|right; exists (persist_error x); split; [done|by eexists]].
  left. eapply in_step_tokens; [apply (reconnect_tokens (dropRefreshedSession s1))|exact H1].
Qed.

Lemma sendWithTokenRefresh_careful call : (∀ s, tokens (call s).1 = tokens s) → careful (sendWithTokenRefresh call) result_told.
Proof.
  intros Ht s Hs. unfold sendWithTokenRefresh. assert (∀ s, in_step s → in_step (call s).1) as Hc by (intros s' H'; eapply in_step_tokens; [apply Ht|done]).
  set (first := if needsProactiveRefresh s then _ else _). assert (in_step first.1 ∨ error_told first.2) as Hf.
  { unfold first. destruct (needsProactiveRefresh s); [by apply refreshAndReconnect_careful|by left]. }
  destruct first as [s1 [e|]]; cbn [fst snd] in Hf; [destruct Hf as [?|(x & [= ->] & Hx)]; [by left|right; by exists x]|]. destruct Hf as [H1|(x & [=] & _)].
  pose proof (Hc s1 H1) as H2. destruct (call s1) as [s2 [p|e]]; cbn [fst] in H2; [by left|]. destruct (isAlreadyLoggedIn e).
  - pose proof (reconnect_tokens (disconnect s2)) as Hr. destruct (and_then _ _) as [s3 [e'|]]; cbn [fst] in Hr; (assert (in_step s3) as H3 by (eapply in_step_tokens; [exact Hr|done])); left; [done|by apply Hc].
  - destruct (_ || _); [by left|]. pose proof (refreshAndReconnect_careful s2 H2) as H3. destruct (refreshAndReconnect s2) as [s3 [e'|]]; cbn [fst snd] in H3.
    + destruct H3 as [?|(x & [= ->] & Hx)]; [by left|right; by exists x].
    + destruct H3 as [H3|(x & [=] & _)]. left. by apply Hc.
Qed.

Lemma authenticateAccount_careful id : careful (authenticateAccount id) error_told.
Proof.
  intros s Hs. unfold authenticateAccount. pose proof (reconnect_tokens s) as Hr. destruct (and_then _ _) as [s1 [e|]]; cbn [fst] in Hr; (assert (in_step s1) as H1 by (eapply in_step_tokens; [exact Hr|done])); [by left|].
  destruct (_ =? _); [by left|]. set (call := λ s, sendMessage _ _ s). pose proof (sendWithTokenRefresh_careful call (λ s, sendMessage_tokens _ _ s) s1 H1) as H2.
  destruct (sendWithTokenRefresh call s1) as [s2 [p|e]]; cbn [fst snd] in *; destruct H2 as [H2|(x & [= ->] & Hx)]; [by left|by left|]. right. by exists x.
Qed.

Lemma page_attempts_careful left b m x s : in_step s → let '(s', r, _) := page_attempts left b m x s in in_step s' ∨ result_told r.
Proof.
  revert b s. induction left as [|left IH]; intros b s Hs; cbn [page_attempts];
    (pose proof (sendWithTokenRefresh_careful (sendMessage m x) (sendMessage_tokens m x) s Hs) as H1; destruct (sendWithTokenRefresh (sendMessage m x) s) as [s1 [p|e]]; cbn [fst snd] in H1; [done|]);
    (destruct (ce_limited e) as [until|] eqn:El; [|done]); (destruct H1 as [H1|(y & [= ->] & [z ->])]; [|done]); (destruct (en_cancelled E s1); [by left|]); [by left|].
  specialize (IH (Z.min (2 * b) ctraderRateLimitMaxBackoff) s1 H1). by destruct (page_attempts left _ m x s1) as [[s2 r] waits].
Qed.

(** *** Operations one after the other *)

(** A lookup is the request for the assets of resolveAccountCurrency or the one
    for a symbol of getSymbolName, which answer with a placeholder when it
    fails. *)
Inductive operation :=
| Accounts
| Request (payloadType expected accountID : Z)
| Lookup (payloadType expected accountID : Z)
| Page (accountID from to : Z).

(** What the caller of an operation gets: its result, or for a lookup a value
    that does not carry the error. *)
Inductive answered := Returned (r : P + cerror) | Placeholder (r : P + cerror).

Definition perform (o : operation) (s : session) : session * answered :=
  match o with
  | Accounts => let '(s, r) := getAccounts s in (s, Returned r)
  | Request t x id => let '(s, r) := account_request t x id s in (s, Returned r)
  | Lookup t x id => let '(s, r) := account_request t x id s in (s, match r with inl p => Returned (inl p) | inr e => Placeholder (inr e) end)
  | Page id from to => let '(s, r) := first_page id from to s in (s, Returned r)
  end.

(** The loss reached the caller; or it was the error a lookup left out. *)
Definition told (a : answered) : Prop := ∃ r, a = Returned r ∧ result_told r.
Definition left_out (a : answered) : Prop := ∃ r, a = Placeholder r ∧ result_told r.

Lemma getAccounts_careful : careful getAccounts result_told.
Proof.
  intros s Hs. unfold getAccounts. pose proof (reconnect_tokens s) as Hr. destruct (and_then _ _) as [s1 [e|]]; cbn [fst] in Hr; (assert (in_step s1) as H1 by (eapply in_step_tokens; [exact Hr|done])); [by left|].
  apply sendWithTokenRefresh_careful; [|done]. intros s'. apply sendMessage_tokens.
Qed.

Lemma account_request_careful t x id : careful (account_request t x id) result_told.
Proof.
  intros s Hs. unfold account_request. pose proof (authenticateAccount_careful id s Hs) as H1. destruct (authenticateAccount id s) as [s1 [e|]]; cbn [fst snd] in H1; destruct H1 as [H1|(y & [= ->] & Hy)]; [by left|right; by exists y|by apply sendMessage_careful].
Qed.

Lemma first_page_careful id from to : careful (first_page id from to) result_told.
Proof.
  intros s Hs. unfold first_page, sendPaged. pose proof (authenticateAccount_careful id s Hs) as H1. destruct (authenticateAccount id s) as [s1 [e|]]; cbn [fst snd] in H1; destruct H1 as [H1|(y & [= ->] & Hy)]; [by left|right; by exists y|].
  pose proof (page_attempts_careful (ctraderRateLimitAttempts - 1) ctraderRateLimitBaseBackoff (mkMsg ctraderPayloadDealListReq id "" from to) ctraderPayloadDealListRes s1 H1) as H2.
  by destruct (page_attempts _ _ _ _ s1) as [[s2 r] waits].
Qed.

Lemma perform_careful o s : in_step s → in_step (perform o s).1 ∨ told (perform o s).2 ∨ (∃ t x id, o = Lookup t x id) ∧ left_out (perform o s).2.
Proof.
  intros Hs. destruct o as [|t x id|t x id|id from to]; cbn [perform].
  - pose proof (getAccounts_careful s Hs) as H1. destruct (getAccounts s) as [s1 r]. destruct H1 as [H1|H1]; [by left|right; left; by exists r].
  - pose proof (account_request_careful t x id s Hs) as H1. destruct (account_request t x id s) as [s1 r]. destruct H1 as [H1|H1]; [by left|right; left; by exists r].
  - pose proof (account_request_careful t x id s Hs) as H1. destruct (account_request t x id s) as [s1 r]. destruct H1 as [H1|H1]; [by left|right; right].
    split; [by eexists _, _, _|]. destruct H1 as (e & E1 & He). cbn [snd] in E1 |- *. subst r. exists (inr e). split; [done|by exists e].
  - pose proof (first_page_careful id from to s Hs) as H1. destruct (first_page id from to s) as [s1 r]. destruct H1 as [H1|H1]; [by left|right; left; by exists r].
Qed.

End session.

Arguments environment P : clear implicits.
Arguments reaction P : clear implicits.

(** Operations one after the other, each in the environment of its moment. *)
Fixpoint run {P} (script : list (environment P * operation)) (s : session) : session * list (@answered P) :=
  match script with
  | [] => (s, [])
  | (E, o) :: rest => let '(s, r) := perform E o s in let '(s, rs) := run rest s in (s, r :: rs)
  end.

End CTraderSession.
