(* ===== verification/CTraderSessionSafe.v ===== *)
(** * The cTrader session: what its flags mean, and when a request is answered *)

From S2P Require Import Prelude GoTime GoText Num Types Venue CTraderSession.
From stdpp Require Import base gmap strings tactics list.
From Stdlib Require Import ZArith Ascii Lia.
Import Venue CTraderSession.
Local Open Scope Z_scope.

Module CTraderSessionSafe.

(** ** The flags *)

(** The broker acknowledged a message of type [t] for account [id] on socket [n]. *)
Definition acked (trace : list sent) (n : nat) (t id : Z) : Prop := ∃ m, mkSent n m true ∈ trace ∧ ms_type m = t ∧ ms_account m = id.

Record sound (s : session) : Prop := {
  so_trace x : x ∈ se_trace s → (st_socket x < se_dialled s)%nat;
  so_ws n : se_ws s = Some n → (n < se_dialled s)%nat;
  so_app n : se_ws s = Some n → se_appAuthenticated s = true → acked (se_trace s) n ctraderPayloadAppAuthReq 0;
  so_account n : se_ws s = Some n → se_authenticatedAccountID s ≠ 0 → acked (se_trace s) n ctraderPayloadAccountAuthReq (se_authenticatedAccountID s) }.

Lemma acked_app trace x n t id : acked trace n t id → acked (trace ++ [x]) n t id.
Proof. intros (m & Hm & H). exists m. split; [apply elem_of_app; by left|done]. Qed.

Lemma disconnect_sound s : sound s → sound (disconnect s).
Proof. intros [H1 H2 H3 H4]. by split. Qed.

Lemma invalidated_sound s b : sound s → sound (with_invalidated s b).
Proof. intros [H1 H2 H3 H4]. by split. Qed.

Lemma apply_event_sound s e : sound s → sound (apply_event s e) ∧ (se_ws (apply_event s e) = se_ws s ∨ se_ws (apply_event s e) = None) ∧ se_trace (apply_event s e) = se_trace s.
Proof.
  intros Hs. destruct e as [n|n]; cbn; unfold markDisconnected, invalidateToken; case_bool_decide; split_and!; try done; auto using disconnect_sound, invalidated_sound.
Qed.

Lemma apply_events_sound l s : sound s → sound (foldl apply_event s l) ∧ (se_ws (foldl apply_event s l) = se_ws s ∨ se_ws (foldl apply_event s l) = None) ∧ se_trace (foldl apply_event s l) = se_trace s.
Proof.
  revert s. induction l as [|e l IH]; intros s Hs; cbn [foldl]; [by auto|]. destruct (apply_event_sound s e Hs) as (H1 & H2 & H3). destruct (IH _ H1) as (I1 & I2 & I3).
  split_and!; [done| |congruence]. destruct I2 as [->|]; [done|by right].
Qed.

Lemma sent_sound s n m a : sound s → se_ws s = Some n → sound (with_sent s (mkSent n m a)).
Proof.
  intros [H1 H2 H3 H4] Hn. split; cbn.
  - intros x [Hx|Hx%list_elem_of_singleton]%elem_of_app; [by apply H1|subst; by apply H2].
  - done.
  - intros k Hk Ha. apply acked_app. by apply H3.
  - intros k Hk Ha. apply acked_app. by apply H4.
Qed.

Section sound.
Context {P : Type} (E : environment P).

Lemma ensureConnected_sound s : sound s → sound (ensureConnected E s).1.
Proof.
  intros Hs. unfold ensureConnected. destruct (se_ws s) eqn:Ew; [done|]. destruct (en_dial E s); [done|]. destruct Hs as [H1 H2 H3 H4]. split; cbn; [|by intros n [= <-]; lia|done|done].
  intros x Hx. pose proof (H1 x Hx). lia.
Qed.

Lemma settle_sound ws m x (o : outcome (P := P)) s : sound s → sound (settle ws m x o s).1 ∧ (se_ws (settle ws m x o s).1 = se_ws s ∨ se_ws (settle ws m x o s).1 = None) ∧ se_trace (settle ws m x o s).1 = se_trace s.
Proof.
  intros Hs. destruct o; cbn; unfold markDisconnected, invalidateToken; try case_bool_decide; try (split_and!; try done; by auto using disconnect_sound, invalidated_sound).
  destruct (_ =? _); by auto.
Qed.

(** An answered message was acknowledged on the socket that is still there, if one is. *)
Definition answered (m : message) (s : session) : Prop := ∃ n, mkSent n m true ∈ se_trace s ∧ (se_ws s = Some n ∨ se_ws s = None).

Lemma sendMessage_sound m x s : sound s → sound (sendMessage E m x s).1 ∧ ∀ p, (sendMessage E m x s).2 = inl p → answered m (sendMessage E m x s).1.
Proof.
  intros Hs. unfold sendMessage. destruct (se_tokenInvalidated s); [done|]. pose proof (ensureConnected_sound s Hs) as H1. destruct (ensureConnected E s) as [s1 [e|]]; cbn [fst snd] in *; [done|].
  destruct (apply_events_sound (rx_before (en_react E s1 m)) s1 H1) as (H2 & _ & _). set (s2 := foldl _ s1 _) in *. destruct (se_ws s2) as [ws|] eqn:Ew; [|done].
  set (o := rx_outcome _). pose proof (sent_sound s2 ws m (acknowledged x o) H2 Ew) as H3. set (s3 := with_sent _ _) in *.
  assert (∀ p, (settle ws m x o s3).2 = inl p → acknowledged x o = true) as Ha by (destruct o; cbn; try done; by destruct (_ =? _)).
  destruct (settle_sound ws m x o s3 H3) as (H4 & Hw & Ht). destruct (settle ws m x o s3) as [s4 r]. cbn [fst snd] in *.
  destruct (apply_events_sound (rx_after (en_react E s1 m)) s4 H4) as (H5 & Hw' & Ht'). split; [done|]. intros p Hp. exists ws. split.
  - rewrite Ht', Ht. unfold s3. cbn. rewrite (Ha p Hp). apply elem_of_app. right. by left.
  - unfold s3 in Hw. cbn in Hw. rewrite Ew in Hw. destruct Hw' as [->| ->]; [done|by right].
Qed.

Lemma authenticateApp_sound s : sound s → sound (authenticateApp E s).1.
Proof.
  intros Hs. unfold authenticateApp. destruct (se_appAuthenticated s); [done|]. destruct (client_missing E); [done|]. set (m := mkMsg _ _ _ _ _).
  destruct (sendMessage_sound m ctraderPayloadAppAuthRes s Hs) as [H1 H2]. destruct (sendMessage E m _ s) as [s1 [p|e]]; cbn [fst snd] in *; [|done].
  destruct (H2 p eq_refl) as (n & Hn & Hw). destruct H1 as [I1 I2 I3 I4]. split; cbn; [done|done| |done]. intros k Hk _. destruct Hw as [Hw|]; [|congruence]. assert (k = n) as -> by congruence. by exists m.
Qed.

Lemma reconnect_sound s : sound s → sound (and_then (ensureConnected E s) (authenticateApp E)).1.
Proof. intros Hs. pose proof (ensureConnected_sound s Hs). destruct (ensureConnected E s) as [s1 [e|]]; cbn [and_then fst] in *; [done|by apply authenticateApp_sound]. Qed.

Lemma refresh_sound s : sound s → sound (refreshAccessToken E s).1.
Proof.
  intros Hs. unfold refreshAccessToken. destruct (String.eqb _ _); [done|]. destruct (client_missing E); [done|]. destruct (token_answer _) as [r|]; [|done]. set (s1 := with_tokens s _ _ _).
  assert (sound s1) as H1 by (destruct Hs; by split). destruct (en_persist E) as [write|]; [|done].
  assert (∀ left k, sound (persist write left k (rotated r s) s1).1) as Hp.
  { intros left. induction left as [|left IH]; intros k; cbn [persist]; (destruct (write s1 k); [|destruct H1; by split]); [done|apply IH]. }
  specialize (Hp (ctraderPersistAttempts - 1)%nat O). by destruct (persist write _ _ _ s1).
Qed.

Lemma refreshAndReconnect_sound s : sound s → sound (refreshAndReconnect E s).1.
Proof.
  intros Hs. unfold refreshAndReconnect. pose proof (refresh_sound s Hs) as H1. destruct (refreshAccessToken E s) as [s1 [e|]]; cbn [fst and_then] in *; [done|].
  apply reconnect_sound. unfold dropRefreshedSession. by apply invalidated_sound, disconnect_sound.
Qed.

(** The call that is answered is the last one made. *)
Lemma sendWithTokenRefresh_sound call (Q : session → Prop) :
  (∀ s, sound s → sound (call s).1 ∧ ∀ p, (call s).2 = inl p → Q (call s).1) → ∀ s, sound s →
  sound (sendWithTokenRefresh E call s).1 ∧ ∀ p, (sendWithTokenRefresh E call s).2 = inl p → Q (sendWithTokenRefresh E call s).1.
Proof.
  intros Hc s Hs. unfold sendWithTokenRefresh. set (first := if needsProactiveRefresh E s then _ else _).
  assert (sound first.1) as Hf by (unfold first; destruct (needsProactiveRefresh E s); [by apply refreshAndReconnect_sound|done]). destruct first as [s1 [e|]]; cbn [fst] in Hf; [done|].
  destruct (Hc s1 Hf) as [H1 HQ]. destruct (call s1) as [s2 [p|e]]; cbn [fst snd] in *; [by split; [|intros ? [= <-]; apply (HQ p)]|]. destruct (isAlreadyLoggedIn e).
  - pose proof (reconnect_sound (disconnect s2) (disconnect_sound _ H1)) as H2. destruct (and_then _ _) as [s3 [e'|]]; cbn [fst] in H2; [done|by apply Hc].
  - destruct (_ || _); [done|]. pose proof (refreshAndReconnect_sound s2 H1) as H2. destruct (refreshAndReconnect E s2) as [s3 [e'|]]; cbn [fst] in H2; [done|by apply Hc].
Qed.

Lemma authenticateAccount_sound id s : sound s → sound (authenticateAccount E id s).1.
Proof.
  intros Hs. unfold authenticateAccount. pose proof (reconnect_sound s Hs) as H1. destruct (and_then _ _) as [s1 [e|]]; cbn [fst] in H1; [done|]. destruct (_ =? _); [done|]. set (call := λ s, _).
  destruct (sendWithTokenRefresh_sound call (λ s, ∃ n m, mkSent n m true ∈ se_trace s ∧ ms_type m = ctraderPayloadAccountAuthReq ∧ ms_account m = id ∧ (se_ws s = Some n ∨ se_ws s = None))) with s1 as [H2 HQ]; [|done|].
  { intros s' Hs'. unfold call. set (m := mkMsg _ _ _ _ _). destruct (sendMessage_sound m ctraderPayloadAccountAuthRes s' Hs') as [Ha Hb]. split; [done|]. intros p Hp. destruct (Hb p Hp) as (n & Hn & Hw). by exists n, m. }
  destruct (sendWithTokenRefresh E call s1) as [s2 [p|e]]; cbn [fst snd] in *; [|done]. destruct (HQ p eq_refl) as (n & m & Hm & Et & Ea & Hw). destruct H2 as [I1 I2 I3 I4].
  split; cbn; [done|done|done|]. intros k Hk _. destruct Hw as [Hw|]; [|congruence]. assert (k = n) as -> by congruence. by exists m.
Qed.

Lemma page_attempts_sound left b m x s : sound s → sound (page_attempts E left b m x s).1.1.
Proof.
  revert b s. induction left as [|left IH]; intros b s Hs; cbn [page_attempts];
    (destruct (sendWithTokenRefresh_sound (sendMessage E m x) (λ _, True)) with s as [H1 _]; [intros s' Hs'; split; [by apply sendMessage_sound|done]|done|]);
    destruct (sendWithTokenRefresh E (sendMessage E m x) s) as [s1 [p|e]]; cbn [fst] in H1; (try done); (destruct (ce_limited e); [|done]); (destruct (en_cancelled E s1); [done|]); [done|].
  specialize (IH (Z.min (2 * b) ctraderRateLimitMaxBackoff) s1 H1). by destruct (page_attempts E left _ m x s1) as [[s2 r] waits].
Qed.

Lemma getAccounts_sound s : sound s → sound (getAccounts E s).1.
Proof.
  intros Hs. unfold getAccounts. pose proof (reconnect_sound s Hs) as H1. destruct (and_then _ _) as [s1 [e|]]; cbn [fst] in H1; [done|].
  apply (sendWithTokenRefresh_sound _ (λ _, True)); [|done]. intros s' Hs'. split; [by apply sendMessage_sound|done].
Qed.

Lemma account_request_sound t x id s : sound s → sound (account_request E t x id s).1.
Proof.
  intros Hs. unfold account_request. pose proof (authenticateAccount_sound id s Hs) as H1. destruct (authenticateAccount E id s) as [s1 [e|]]; cbn [fst] in H1; [done|by apply sendMessage_sound].
Qed.

Lemma first_page_sound id from to s : sound s → sound (first_page E id from to s).1.
Proof.
  intros Hs. unfold first_page, sendPaged. pose proof (authenticateAccount_sound id s Hs) as H1. destruct (authenticateAccount E id s) as [s1 [e|]]; cbn [fst] in H1; [done|].
  set (m := mkMsg _ _ _ _ _). pose proof (page_attempts_sound (ctraderRateLimitAttempts - 1) ctraderRateLimitBaseBackoff m ctraderPayloadDealListRes s1 H1) as H2.
  by destruct (page_attempts _ _ _ _ _ s1) as [[s2 r] waits].
Qed.

Lemma perform_sound o s : sound s → sound (perform E o s).1.
Proof.
  intros Hs. destruct o as [|t x id|t x id|id from to]; cbn [perform].
  - pose proof (getAccounts_sound s Hs) as H. by destruct (getAccounts E s).
  - pose proof (account_request_sound t x id s Hs) as H. by destruct (account_request E t x id s).
  - pose proof (account_request_sound t x id s Hs) as H. by destruct (account_request E t x id s).
  - pose proof (first_page_sound id from to s Hs) as H. by destruct (first_page E id from to s).
Qed.

End sound.

(** A session that never connected. *)
Definition fresh (access refresh : string) : session := mkSession None 0 false 0 false access refresh zero_time (access, refresh) [].

Lemma reachable_sound {P} (script : list (environment P * operation)) access refresh : sound (run script (fresh access refresh)).1.
Proof.
  assert (sound (fresh access refresh)) as Hs by (split; cbn; [intros x; by rewrite elem_of_nil|done..]). revert Hs. generalize (fresh access refresh).
  induction script as [|[E o] script IH]; intros s Hs; cbn [run]; [done|]. pose proof (perform_sound E o s Hs) as H1. destruct (perform E o s) as [s1 r]. specialize (IH s1 H1). by destruct (run script s1).
Qed.

(** The flags of a session mean what they say. After any sequence of
    requests, whatever the broker answers and whenever the loops drop the
    socket, a socket marked as authenticated, for the application or for an
    account, is one on which the broker acknowledged that authentication. *)
Theorem flags_sound {P} (script : list (environment P * operation)) access refresh n :
  let s := (run script (fresh access refresh)).1 in
  se_ws s = Some n →
  (se_appAuthenticated s = true → acked (se_trace s) n ctraderPayloadAppAuthReq 0) ∧
  (se_authenticatedAccountID s ≠ 0 → acked (se_trace s) n ctraderPayloadAccountAuthReq (se_authenticatedAccountID s)).
Proof. intros s Hn. pose proof (reachable_sound script access refresh) as Hs. split; [by apply Hs|by apply Hs]. Qed.

(** ** Pacing *)

Lemma page_wait_bounds now b t : 0 < b <= ctraderRateLimitMaxBackoff → 0 < page_wait now b t <= ctraderRateLimitMaxWait.
Proof.
  unfold page_wait, ctraderRateLimitMaxBackoff, ctraderRateLimitMaxWait, Second. intros Hb. set (w := if IsZero t then b else _). cbv zeta.
  destruct (Z.ltb_spec (60 * 1000000000) w); destruct (Z.leb_spec (60 * 1000000000) 0); try lia; destruct (Z.leb_spec w 0); lia.
Qed.

(** A page is asked for at most five times, with waits of at most a minute,
    whatever instant the broker names. *)
Theorem pages_paced {P} (E : environment P) m x s :
  (length (sendPaged E m x s).2 <= ctraderRateLimitAttempts)%nat ∧ Forall (λ w, 0 < w <= ctraderRateLimitMaxWait) (sendPaged E m x s).2.
Proof.
  unfold sendPaged. change ctraderRateLimitAttempts with (S (ctraderRateLimitAttempts - 1)) at 2. assert (0 < ctraderRateLimitBaseBackoff <= ctraderRateLimitMaxBackoff) as Hb by done. revert Hb.
  generalize ctraderRateLimitBaseBackoff. generalize (ctraderRateLimitAttempts - 1)%nat. intros left. revert s.
  induction left as [|left IH]; intros s b Hb; cbn [page_attempts];
    (destruct (sendWithTokenRefresh E (sendMessage E m x) s) as [s1 [p|e]]; [cbn [snd length]; split; [lia|by apply Forall_nil]|]);
    (destruct (ce_limited e) as [t|]; [|cbn [snd length]; split; [lia|by apply Forall_nil]]); pose proof (page_wait_bounds (en_now E s1) b t Hb);
    (destruct (en_cancelled E s1); [cbn [snd length]; split; [lia|by apply Forall_singleton]|]); [cbn [snd length]; split; [lia|by apply Forall_singleton]|].
  specialize (IH s1 (Z.min (2 * b) ctraderRateLimitMaxBackoff)). destruct (page_attempts E left _ m x s1) as [[s2 r] waits]. cbn [snd] in *.
  destruct IH as [H1 H2]; [unfold ctraderRateLimitMaxBackoff, Second in *; lia|]. split; [cbn; lia|by constructor].
Qed.

(** ** A strict broker

    It answers a request for an account only on a socket that authenticated
    the application and then the account, with the token it issued last; it
    never drops a socket. *)

Definition says (trace : list sent) (n : nat) (t id : Z) : bool :=
  existsb (λ x, Nat.eqb (st_socket x) n && st_acked x && (ms_type (st_message x) =? t) && (ms_account (st_message x) =? id)) trace.

Lemma says_acked trace n t id : acked trace n t id → says trace n t id = true.
Proof. intros (m & Hm & <- & <-). apply existsb_exists. eexists. split; [by apply list_elem_of_In|]. cbn. by rewrite Nat.eqb_refl, !Z.eqb_refl. Qed.

Definition strict_outcome (s : session) (m : message) : outcome (P := ()) :=
  let n := default O (se_ws s) in
  let refusal code := Refused (mkErrorPayload code "" 0 0) in
  if ms_type m =? ctraderPayloadAppAuthReq then Replied ctraderPayloadAppAuthRes tt
  else if negb (says (se_trace s) n ctraderPayloadAppAuthReq 0) then refusal "CH_CLIENT_NOT_AUTHENTICATED"
  else if (ms_type m =? ctraderPayloadAccountAuthReq) || (ms_type m =? ctraderPayloadGetAccountsReq)
  then if String.eqb (ms_token m) (se_accessToken s) then Replied (ms_type m + 1) tt else refusal "CH_ACCESS_TOKEN_INVALID"
  else if says (se_trace s) n ctraderPayloadAccountAuthReq (ms_account m) then Replied (ms_type m + 1) tt
  else refusal "ACCOUNT_NOT_AUTHORIZED".

(** [token] is what its token endpoint answers. *)
Definition strict (token : tokenResp) (now : time) : environment () :=
  mkEnv "client" "secret" (λ _, None) (λ s m, mkReaction [] (strict_outcome s m) []) (λ _, inl (200, "", inl token)) (Some (λ _ _, None)) (λ _, None) (λ _, now).

Section answered.
Context (token : tokenResp) (now : time).
Abbreviation E := (strict token now).

(** A session whose token is good for now. *)
Definition usable (s : session) : Prop := sound s ∧ se_tokenInvalidated s = false ∧ se_accessTokenExpiry s = zero_time.

Lemma strict_send m x s n : usable s → se_ws s = Some n →
  sendMessage E m x s = (let s' := with_sent s (mkSent n m (acknowledged x (strict_outcome s m))) in settle n m x (strict_outcome s m) s').
Proof.
  intros (_ & Hi & _) Hn. unfold sendMessage, ensureConnected. rewrite Hi, Hn. cbn [en_react strict rx_before rx_outcome rx_after foldl]. rewrite Hn. by destruct (settle _ _ _ _ _).
Qed.

Lemma strict_connected s : usable s → ∃ s1 n, and_then (ensureConnected E s) (authenticateApp E) = (s1, None) ∧ usable s1 ∧ se_ws s1 = Some n ∧ se_appAuthenticated s1 = true.
Proof.
  intros (Hs & Hi & Hx). pose proof (reconnect_sound E s Hs) as Hsound.
  assert (∃ s0 n, ensureConnected E s = (s0, None) ∧ usable s0 ∧ se_ws s0 = Some n) as (s0 & n & Ec & Hu & Hn).
  { pose proof (ensureConnected_sound E s Hs) as Hc. unfold ensureConnected in *. destruct (se_ws s) as [n|] eqn:Ew; [by exists s, n|]. cbn [en_dial strict] in *. eexists _, _. split; [reflexivity|]. by repeat split; try apply Hc. }
  rewrite Ec in *. cbn [and_then] in *. unfold authenticateApp in *. destruct (se_appAuthenticated s0) eqn:Ea; [by exists s0, n|]. change (client_missing E) with false in *. cbv iota in *.
  rewrite (strict_send _ _ s0 n Hu Hn) in *. cbv zeta in *. cbn [strict_outcome ms_type Z.eqb settle] in *. unfold strict_outcome in *. cbn in Hsound |- *. eexists _, n. split; [reflexivity|].
  destruct Hu as (_ & Hi0 & Hx0). split_and!; [|done|done]. split_and!; [exact Hsound|exact Hi0|exact Hx0].
Qed.

Lemma never_refreshes s : usable s → needsProactiveRefresh E s = false.
Proof. intros (_ & _ & Hx). unfold needsProactiveRefresh. rewrite Hx. by rewrite (Z.eqb_refl zero_time : IsZero zero_time = true). Qed.

Lemma strict_authenticated id s : id ≠ 0 → usable s → ∃ s1 n, authenticateAccount E id s = (s1, None) ∧ usable s1 ∧ se_ws s1 = Some n ∧ se_appAuthenticated s1 = true ∧ se_authenticatedAccountID s1 = id.
Proof.
  intros Hid Hu. pose proof (authenticateAccount_sound E id s (proj1 Hu)) as Hsound. unfold authenticateAccount in *. destruct (strict_connected s Hu) as (s0 & n & Ec & Hu0 & Hn & Ha). rewrite Ec in *.
  destruct (Z.eqb_spec (se_authenticatedAccountID s0) id) as [Eid|Nid]; [by exists s0, n|]. unfold sendWithTokenRefresh in *. rewrite (never_refreshes s0 Hu0) in *.
  set (m := mkMsg ctraderPayloadAccountAuthReq id (se_accessToken s0) 0 0) in *. rewrite (strict_send m _ s0 n Hu0 Hn) in *. cbv zeta in *.
  assert (strict_outcome s0 m = Replied ctraderPayloadAccountAuthRes tt) as Eo.
  { unfold strict_outcome. rewrite Hn. change (default O (Some n)) with n. rewrite (says_acked _ _ _ _ (so_app _ (proj1 Hu0) n Hn Ha)). cbn. by rewrite String.eqb_refl. }
  rewrite Eo in *. cbn [settle acknowledged Z.eqb] in *. cbn in Hsound |- *. eexists _, n. split; [reflexivity|]. destruct Hu0 as (_ & Hi0 & Hx0). split_and!; [|done|done|done]. split_and!; [exact Hsound|exact Hi0|exact Hx0].
Qed.

Lemma strict_answers t id from to s n : ctraderPayloadAppAuthReq ≠ t → ctraderPayloadAccountAuthReq ≠ t → ctraderPayloadGetAccountsReq ≠ t → id ≠ 0 →
  usable s → se_ws s = Some n → se_appAuthenticated s = true → se_authenticatedAccountID s = id →
  ∃ s', sendMessage E (mkMsg t id "" from to) (t + 1) s = (s', inl tt).
Proof.
  intros H1 H2 H3 Hid Hu Hn Ha Hacc. rewrite (strict_send _ _ s n Hu Hn). cbv zeta.
  assert (strict_outcome s (mkMsg t id "" from to) = Replied (t + 1) tt) as ->.
  { unfold strict_outcome. cbn [ms_type ms_token ms_account]. rewrite Hn. change (default O (Some n)) with n. rewrite !(proj2 (Z.eqb_neq t _)) by done. rewrite (says_acked _ _ _ _ (so_app _ (proj1 Hu) n Hn Ha)). cbn [negb orb].
    rewrite <- Hacc. rewrite (says_acked _ _ _ _ (so_account _ (proj1 Hu) n Hn ltac:(congruence))). done. }
  cbn [settle]. rewrite Z.eqb_refl. by eexists.
Qed.

End answered.

(** From any state the session can reach with a live token, whatever
    happened on its earlier sockets, a broker that keeps to its protocol
    answers the next request for an account and the next page. *)
Theorem strict_broker_answers {P} (script : list (environment P * operation)) access refresh token now t id from to :
  let s := (run script (fresh access refresh)).1 in
  se_tokenInvalidated s = false → se_accessTokenExpiry s = zero_time → id ≠ 0 → t ∉ [ctraderPayloadAppAuthReq; ctraderPayloadAccountAuthReq; ctraderPayloadGetAccountsReq] →
  (account_request (strict token now) t (t + 1) id s).2 = inl tt ∧ (first_page (strict token now) id from to s).2 = inl tt.
Proof.
  intros s Hi Hx Hid Ht. pose proof (reachable_sound script access refresh : sound s) as Hs.
  clearbody s. rewrite !not_elem_of_cons in Ht. destruct Ht as (H1 & H2 & H3 & _). destruct (strict_authenticated token now id s Hid) as (s1 & n & Ea & Hu & Hn & Happ & Hacc); [done|].
  unfold account_request, first_page, sendPaged. rewrite Ea. split.
  - destruct (strict_answers token now t id 0 0 s1 n) as [s2 E2]; [done..|]. by rewrite E2.
  - destruct (strict_answers token now ctraderPayloadDealListReq id from to s1 n) as [s2 E2]; [done..|]. change (ctraderRateLimitAttempts - 1)%nat with 4%nat. cbn [page_attempts].
    unfold sendWithTokenRefresh. rewrite (never_refreshes token now s1 Hu). change ctraderPayloadDealListRes with (ctraderPayloadDealListReq + 1). by rewrite E2.
Qed.

Definition demo_token : tokenResp := mkTokens "access2" "refresh2" 3600 "" "" "".

Lemma strict_broker_answers_witness :
  (account_request (strict demo_token 0) 2121 2122 7 (run [(strict demo_token 0, Accounts)] (fresh "access" "refresh")).1).2 = inl tt.
Proof. apply (strict_broker_answers [(strict demo_token 0, Accounts)] "access" "refresh" demo_token 0 2121 7 0 0); [reflexivity|reflexivity|done|vm_compute; set_solver]. Defined.

(** ** Two ways to a socket that authenticated nothing *)

(** A session whose account is authenticated and whose token ends soon. *)
Definition expiring : session :=
  let s := (account_request (strict demo_token 0) 2121 2122 7 (fresh "access" "refresh")).1 in
  with_tokens s (se_accessToken s) (se_refreshToken s) (4 * Minute).

(** C31: the refresh token is single use, and the loss of a rotated one is
    reported.  For a connector with a persister, as the sync wires it, and
    whatever the broker, the network and the database do: after any sequence of
    requests the tokens of the table are the tokens in memory; or one of the
    requests has failed by saying that the rotated tokens could not be stored;
    or that was the error of a lookup, of the account's currency or of a
    symbol's name, whose caller drops it ([lookup_hides_loss]).  The connector
    that tests credentials at connect time has no persister: its tokens are
    stored by the creation of the connection. *)
Theorem rotated_tokens_kept {P} (script : list (environment P * operation)) s :
  Forall (λ x, en_persist x.1 ≠ None) script → in_step s →
  in_step (run script s).1 ∨ (∃ a, a ∈ (run script s).2 ∧ told a) ∨
  ∃ (i : nat) E t x id a, script !! i = Some (E, Lookup t x id) ∧ (run script s).2 !! i = Some a ∧ left_out a.
Proof.
  intros Hw. revert s. induction Hw as [|[E o] script HE Hw IH]; intros s Hs; cbn [run]; [by left|]. pose proof (perform_careful E HE o s Hs) as H1.
  destruct (perform E o s) as [s1 r]. cbn [fst snd] in H1. specialize (IH s1). destruct (run script s1) as [s2 rs]. cbn [fst snd] in *.
  destruct H1 as [H1|[H1|[(t & x & id & ->) H1]]].
  - destruct (IH H1) as [?|[(r' & Hr' & ?)|(i & E' & t & x & id & a & Hi & Ha & Hl)]]; [by left|right; left; exists r'; split; [by right|done]|].
    right. right. by exists (S i), E', t, x, id, a.
  - right. left. exists r. split; [by left|done].
  - right. right. by exists 0%nat, E, t, x, id, r.
Qed.

Lemma rotated_tokens_kept_witness :
  se_stored (run [(strict demo_token 0, Page 7 0 1)] expiring).1 = ("access2", "refresh2").
Proof.
  destruct (rotated_tokens_kept [(strict demo_token 0, Page 7 0 1)] expiring) as [Hs|[(a & Ha & r & -> & x & -> & y & ->)|(i & E & t & x & id & a & Hi & _)]]; [by repeat constructor|vm_compute; reflexivity| | |].
  - unfold in_step in Hs. rewrite Hs. vm_compute. reflexivity.
  - exfalso. vm_compute in Ha. apply list_elem_of_singleton in Ha. discriminate Ha.
  - exfalso. apply list_lookup_singleton_Some in Hi as [_ Hi]. discriminate Hi.
Defined.

(** A table that refuses the write, and a token about to end: the lookup of a
    symbol refreshes it, and answers its placeholder; the table has a refresh
    token that is dead. *)
Definition unwritable : environment () :=
  let E := strict demo_token 0 in
  mkEnv (en_clientID E) (en_clientSecret E) (en_dial E) (en_react E) (en_token E) (Some (λ _ _, Some "read only")) (en_cancelled E) (en_now E).

Lemma lookup_hides_loss :
  let s := with_stored (with_tokens (fresh "access" "refresh") "access" "refresh" (4 * Minute)) ("access", "refresh") in
  let r := run [(unwritable, Lookup 2116 2117 7)] s in
  in_step s ∧ r.2 = [Placeholder (inr (persist_error "read only"))] ∧ se_stored r.1 = ("access", "refresh") ∧ se_refreshToken r.1 = "refresh2".
Proof. split_and!; vm_compute; reflexivity. Qed.

(** A page that finds its token about to end refreshes it, opens a new socket,
    authenticates the application there and not the account, and is refused;
    asked again, it is answered. *)
Lemma page_after_refresh_refused :
  (first_page (strict demo_token 0) 7 0 1 expiring).2 = inr (plain "cTrader error ACCOUNT_NOT_AUTHORIZED: ") ∧
  (first_page (strict demo_token 0) 7 0 1 (first_page (strict demo_token 0) 7 0 1 expiring).1).2 = inl tt.
Proof. split; vm_compute; reflexivity. Qed.

(** The same broker, but the first socket fails once the account is
    authenticated. *)
Definition dropping : environment () :=
  let E := strict demo_token 0 in
  mkEnv (en_clientID E) (en_clientSecret E) (en_dial E)
    (λ s m, mkReaction [] (strict_outcome s m) (if ms_type m =? ctraderPayloadAccountAuthReq then [Failed 0] else [])) (en_token E) (en_persist E) (en_cancelled E) (en_now E).

(** The request dials a new socket by itself and is the first message on it. *)
Lemma request_on_fresh_socket :
  let s := fresh "access" "refresh" in
  (account_request dropping 2121 2122 7 s).2 = inr (plain "cTrader error CH_CLIENT_NOT_AUTHENTICATED: ") ∧
  ((λ x, (st_socket x, ms_type (st_message x))) <$> se_trace (account_request dropping 2121 2122 7 s).1)
  = [(0%nat, ctraderPayloadAppAuthReq); (0%nat, ctraderPayloadAccountAuthReq); (1%nat, 2121)].
Proof. split; vm_compute; reflexivity. Qed.

End CTraderSessionSafe.
